(* ===== verification/_CoqProject ===== *)
-Q . S2P
Prelude.v
KVStore.v
IndexedStore.v
BigInt.v
Ledger.v
Precompile.v
Streams.v
StreamsProps.v
StreamsSolvency.v
StreamsGenesis.v
StreamsPrecompile.v
StreamsCases.v
Scheduler.v
SchedulerProps.v
SchedulerPrecompile.v
SchedulerGenesis.v
SchedulerCases.v
Median.v
PaxOracle.v
PaxOracleProps.v
PaxOraclePrecompile.v
ProtoWire.v
PaxOracleCodec.v
PaxOracleCases.v
PaxSpot.v
Clearing.v
Pofq.v
Coins.v
VestingSchedule.v
Vesting.v
VestingProps.v
VestingCases.v
FeeMarket.v
FeeMarketProps.v
StateDB.v
StateDBProps.v
StateDBCommit.v
StateDBNested.v
EvmKeeper.v
EvmKeeperProps.v
StateDBCases.v
EvmKeeperCases.v
EvmTx.v
SetCodeCodec.v
SetCodeCodecProps.v
EvmTxCases.v
EvmGas.v
EvmApply.v
EvmApplyProps.v
EvmAnte.v
EvmAnteProps.v
EvmExecCases.v
Sha256.v
IavlEncoding.v
IavlNode.v
IavlSpec.v
IavlRepr.v
IavlIter.v
IavlWalk.v
IavlDb.v
IavlMutable.v
IavlProof.v
IavlMutableProps.v
IavlStore.v
IavlVersions.v
IavlCommit.v
IavlFast.v
IavlFastIter.v
IavlOverwrite.v
IavlRun.v
IavlCases.v
Erc20.v
Erc20Props.v
Erc20Backing.v
Erc20Cases.v
Epochs.v
Inflation.v
