(* ===== verification/Prelude.v ===== *)
(** * HyperPax-OS: a verification of its chain-specific modules

    HyperPax-OS is a Cosmos SDK chain with an EVM.  On top of the SDK and of
    go-ethereum it adds modules of its own, each a keeper over a key-value store,
    and precompiled contracts through which EVM code calls them.  This library
    models those keepers and precompiles as Rocq functions and proves what they
    guarantee, and, where the code does not do what it means to, exhibits it.

    ** The parts and how they interact

    - [x/streams]: payment streams.  A payer escrows a cap, the payee accrues it
      per second; open, settle, close, update the rate.  Called through
      [precompiles/streams]; pays through the bank keeper or an ERC-20 contract.
    - [x/scheduler]: deferred contract calls.  A creator escrows a gas deposit;
      the end of each block dispatches the jobs that are due, charges the gas at
      the base fee of [x/feemarket] and refunds the rest.  Called through
      [precompiles/scheduler].
    - [x/paxoracle]: price attestations of validators and their
      confidence-weighted median.  Fed by [MsgSubmitPrice] and by
      [precompiles/paxspot/oracle], which also serves the median to contracts.
    - [precompiles/paxspot/orob], [clearing] and [pofq]: stateless arithmetic for
      the spot exchange: offset prices, the batch auction, fill quality.
    - [x/feemarket]: the EIP-1559 base fee, and the fee lane for agents whose
      members an EVM hook mirrors from a registry contract.
    - [x/evm/statedb]: the journaled account state under the EVM interpreter and
      the precompiles, with snapshots, reverts and the final commit; and the part
      of [x/evm/keeper] it commits to: code and storage in the module's store, the
      nonce and the code hash in the auth account, the balance in the bank.
    - [x/evm] around it: Ethereum transactions in their Cosmos wrappers
      ([x/evm/types]), the checks and the fee before execution ([app/ante/evm]),
      the execution of a message on a state database, the refund of gas and the
      counters of the block ([x/evm/keeper]).
    - [x/vesting]: clawback vesting accounts.  A funder grants coins on a vesting
      and a lockup schedule and can take the unvested ones back, as can governance;
      [x/staking] and [app/ante/evm] consult the account before a delegation and
      before an EVM transaction.
    - [x/erc20]: pairs of a coin and an ERC-20 contract, and conversion between the
      two: by message, by a hook after Ethereum transactions, around IBC transfers.
      The module owns the contracts of native coins and issues vouchers for
      external contracts.
    - [x/epochs]: epochs of fixed length, ended and begun at the start of a block,
      and [x/inflation], which mints at the end of each day through its hooks.
    - [third_party/iavl]: the versioned, balanced Merkle tree under every store of
      the chain.  Nodes live in a key-value database under their SHA-256 hash;
      versions share nodes, orphan entries record until when a node is needed, and
      an index of the latest version serves fast reads.

    ** The files

    Foundations.
    - [Prelude]: integers of Go's widths, byte order, the result type and the
      state-and-error monad [M] (a write before an error stays, as in the code),
      the tactic [run] that takes a computation apart into its steps, sums over
      lists, the hint database [hpx].
    - [KVStore]: the store as a finite map from byte strings, with prefix
      iteration in key order.  [IndexedStore]: records kept under several keys.
    - [BigInt]: decimal strings of [math/big]; the SDK's decimals as a class.
    - [Ledger]: the block context; bank keeper, address helpers as classes with
      their documented laws and reference instances; the state of a module
      ([world]: its store, the rest of the chain, its events).
    - [Precompile]: [precompiles/common/precompile.go], method lookup, write
      protection and argument decoding.

    Components; [X] stands for the definitions, [XProps] for the theorems,
    [XCases] for concrete runs and counterexamples.
    - [Streams], [StreamsProps], [StreamsSolvency], [StreamsGenesis],
      [StreamsPrecompile], [StreamsCases]: [x/streams] (keeper and types) with the
      [CallEVM] of [x/erc20] through which it moves tokens, and
      [precompiles/streams].
    - [Scheduler], [SchedulerProps], [SchedulerPrecompile], [SchedulerGenesis],
      [SchedulerCases]: [x/scheduler] and [precompiles/scheduler].
    - [Median]: the weighted median on its own.  [PaxOracle], [PaxOracleProps],
      [PaxOracleCases]: [x/paxoracle].  [PaxOraclePrecompile]:
      [precompiles/paxspot/oracle].  [PaxOracleCodec]: the hand-written wire codec
      in [x/paxoracle/types/msgs.go].
    - [PaxSpot], [Clearing], [Pofq]: [precompiles/paxspot].
    - [FeeMarket], [FeeMarketProps]: [x/feemarket].
    - [StateDB], [StateDBProps], [StateDBCases]: [x/evm/statedb].
      [StateDBCommit]: the contract of the keeper under it and what a committed
      transaction leaves there.  [StateDBNested]: a commit inside a frame that is
      reverted.  [EvmKeeper], [EvmKeeperProps], [EvmKeeperCases]:
      [x/evm/keeper/statedb.go], which keeps that contract.
    - [EvmTx]: the four transaction types of [x/evm/types] with their
      conversions, prices and stateless checks.  [SetCodeCodec], [SetCodeCodecProps]:
      the hand-written codec of EIP-7702 transactions in
      [set_code_tx.go], over the varints of [ProtoWire].  [EvmTxCases]: runs.
    - [EvmGas]: [types/gasmeter.go], [types/block.go], [gas.go],
      [fees.go] and the transient counters of [x/evm/keeper], the binary search of
      [x/evm/types/utils.go].  [EvmApply]: [state_transition.go]; [EvmApplyProps]
      on the gas charged, the fee and the state.
      [EvmAnte], [EvmAnteProps]: the decorators of [app/ante/evm] in the order of
      [newEVMAnteHandler].  [EvmExecCases]: a chain on which all of it runs.
    - [Coins]: [sdk.Coins] as a class with its laws and an instance.
      [VestingSchedule]: [x/vesting/types/schedule.go].
      [Vesting], [VestingProps], [VestingCases]: accounts, messages and hooks of
      [x/vesting], the delegation check of [x/staking], the vesting decorator of
      [app/ante/evm].
    - [Erc20]: [x/erc20] (keeper, types, genesis, proposals), the packet helpers of
      [ibc/utils.go] and [Transfer] of [x/ibc/transfer].  [Erc20Props]: what the
      contracts, the bank and the registry keep under each operation.
      [Erc20Backing]: runs of all operations.  [Erc20Cases]: a chain on which they
      run.  [Epochs]: [x/epochs].  [Inflation]: [x/inflation/v1] and its composition
      with [Epochs]; both end with a module of runs.
    - The tree store.  [Sha256]: the hash function.  [IavlEncoding]: varints,
      segmented keys and fast nodes ([internal/encoding], [keyformat], [fastnode]).
      [IavlNode]: [node.go] and the lookups of [immutable_tree.go].  [IavlIter]:
      [iterator.go], [fast_iterator.go], [unsaved_fast_iterator.go].  [IavlDb]:
      [nodedb.go].  [IavlMutable]: [mutable_tree.go].
      [IavlSpec]: balanced search trees as plain data, with
      insertion and removal against sorted lists.  [IavlRepr]: how a node with
      children in memory or in the database stands for such a tree.  [IavlWalk]:
      traversals.  [IavlMutableProps]: insertion, removal and rebalancing.
      [IavlStore], [IavlVersions], [IavlCommit], [IavlOverwrite]: the database against a history of trees, through saving,
      deleting, loading and going back.  [IavlFast], [IavlFastIter]: the read index.
      [IavlProof]: [proof.go], [proof_path.go] and [proof_ics23.go].  [IavlRun], [IavlCases]: runs of all operations.

    A definition carries the name of the Go function it translates; a Go method
    that changes state is an action of [M].  Keeper records become a [Record],
    JSON-encoded store values the constructors of a type [val].  An integer that
    can overflow in the code is wrapped to its width where the code computes it;
    [big.Int] is [Z].  A function that can index out of range, divide by zero or
    panic returns [Panic] there.

    ** What the theorems show

    - Solvency.  [StreamsSolvency.escrow_always_solvent] and
      [SchedulerPrecompile.deposits_always_covered]: over every sequence of
      operations the indexes agree with the records and the module account can
      pay everything owed.  For streams that is native PAX and the tokens that move
      what they are asked to; any other contract may call back into the module from
      inside a transfer, to any depth, and cannot touch the rest.  For jobs the
      callee does not call back.  The operations themselves: [close_distributes_escrow],
      [settle_pays_once], [open_escrows_cap], [streamAccrued_correct],
      [endblocker_dispatches_due_jobs], [failed_dispatch_rolls_back],
      [successful_dispatch_charges_gas], [schedule_registers_job],
      [cancel_and_reschedule], [failed_operation_changes_nothing],
      [native_stream_progress], [export_validates_and_reimports].
    - Tokens.  [tokens_always_backed]: over every sequence of operations the coins
      in the module account cover the tokens of the contracts the module owns, as
      long as no denomination reads as an address ([address_denom_mints_unbacked]
      says what happens then);
      [registry_well_typed]: the pairs and the two indexes into them agree;
      [convert_roundtrip]: converted coins can be converted back.
    - Epochs and inflation.  [epochs_follow_the_clock]: no epoch is ahead of the
      clock, one that lags catches up by one epoch a block, and the hooks run once
      for each in order, both with the number of the epoch that starts; [epoch_mint_is_distributed]: everything minted leaves the
      module account; [period_counts_mints]: from genesis on, through the hooks,
      the period counts the days that minted.
    - Prices.  [median_price_correct], [median_resists_minority] (half of the
      confidence is rounded down, see [third_of_confidence_sets_price]),
      [aggregate_correct], [only_validators_submit], [clearing_maximises_volume],
      [offset_roundtrip], [fill_score_sound], [averages_within_inputs].
    - Encoding.  [codec_roundtrip] for fields below 128 bytes;
      [tx_conversion_roundtrip]: wrapping an Ethereum transaction and unwrapping it
      loses nothing; [setcode_roundtrip_iff]: when an EIP-7702 transaction survives
      its codec; [setcode_decoder_returns].
    - Execution.  [no_replay]: a transaction the checks accepted is refused ever
      after; [nonces_are_consumed], [fees_are_collected]: what the checks take.
      [gas_is_paid_once]: from the deduction of the fee through the execution to
      the refund, the sender pays the gas used at the effective price and nothing
      else; [message_gas_charged]: how much gas that is.  [message_persists]: with
      an interpreter that reaches the chain through the state database only, a
      simulation changes nothing, and a committed message leaves what the state
      database showed at the end of its run.  [BinSearch_least].
    - Fees.  [base_fee_follows_eip1559], [end_block_records_gas],
      [base_fee_never_negative] (what the scheduler assumes of the fee market),
      [lane_mirrors_registry], [lane_price_gated].
    - State.  [revert_restores_snapshot]: whatever a call frame does, nested
      snapshots and reverts included, reverting to its snapshot succeeds and gives
      back every read, the journal and the dirty counts.  [transaction_persists]:
      what the state database shows at the end of a transaction, code included, is
      what the bank, the accounts and the store hold after the commit.
      [commit_in_reverted_frame_persists]: what a precompile commits inside a frame
      survives the revert of the frame.
    - Vesting.  [schedule_merges_correct]: union and minimum of schedules against
      the step functions they denote; [locked_coins_shrink],
      [funding_adds_the_grant], [clawback_takes_the_unvested],
      [ante_accepts_spendable], [delegation_not_unvested].
    - Storage.  [store_refines_versioned_maps]: over every run of the tree store,
      with or without its read index, every operation answers as a history of maps
      does; [store_has_the_live_nodes]: the database then holds the nodes of the
      available versions and no others, and their trees are balanced search trees.
      Both assume of the hash only that no two
      nodes of the run collide, a condition that is computed.
      [versioned_proofs_answer], [proofs_bind_entries]: the proofs handed out at a
      version lead to its root hash, and no other proofs do.
    - Where the code falls short: [address_denom_mints_unbacked],
      [coin_registered_twice], [anonymous_log_panics], [hook_mints_what_is_logged],
      [zero_share_halts], [negative_duration_ends_every_block],
      [fast_index_goes_stale], [deletion_overshoots],
      [update_rate_starves_payee],
      [reentrant_settle_overpays], [third_of_confidence_sets_price], [open_accepts_stop_before_start],
      [blocked_payee_locks_refund],
      [cancelled_job_is_dispatched_and_refunded_twice],
      [rescheduled_job_is_dispatched_again], [one_validator_counted_twice],
      [evm_submission_sets_price], [long_field_corrupted],
      [decoder_may_not_return], [rolling_weight_is_scaled],
      [zero_elasticity_halts], [commit_in_reverted_frame_persists],
      [code_lost_on_other_account], [overlong_period_vests_at_once],
      [clawback_drops_lockup], [second_proposal_unprotected].

    ** Parameters

    Code outside the repository is an argument: bank, account and staking
    keepers, bech32 and ABI codecs, the execution of messages with the contracts
    they call (for streams one function for each depth of calls, so that a contract
    can call back) and the EVM call of a scheduled job, as functions on the whole
    state, the decimals of the
    SDK, its coins and vesting periods, supply, minting and the community pool,
    ICS-20 transfers, Keccak hashes and topics, the sorting
    function ([sort.Slice] promises a sorted permutation and nothing about ties).
    Of go-ethereum: the interpreter (a function on the state database), the
    application of EIP-7702 authorizations, transactions with their signatures,
    intrinsic gas and fork rules.  Laws state what its documentation promises, and
    each has an instance in this library.

    ** Fuel and bounds

    Loops over store entries and lists are structural.  A varint of 64 bits has at
    most ten groups, the fuel of [protoEncodeVarint].  The loop of [Unmarshal] is
    run with explicit fuel: five iterations are proved enough for every encoded
    message, the length of the input plus one for every input of up to ten bytes,
    and no fuel is enough for one input of eleven.  The binary search for a
    revision halves its interval; the number of revisions plus one is enough fuel.
    In runs of streams the depth of calls is a number that every statement
    quantifies over.
    A walk over two schedules takes at most as many steps as they have periods.
    The decoder of EIP-7702 transactions consumes a byte in each round, so the
    length of the input plus one is enough; the search for a gas limit halves an
    interval of 64 bits, so 64 rounds are.  The height of a tree node is an [int8],
    so 129 levels of recursion reach every leaf; a walk over a tree visits each node
    at most twice.

    ** Not modelled

    Gas metering of store accesses and out-of-gas aborts, logging, telemetry and
    tracing; the ABI encoding of results; gRPC queries, command lines and generated
    protobuf code; application wiring, JSON-RPC, indexer; cryptography other than
    SHA-256.  Of the tree store: its caches, which only repeat what the database
    holds, failures of the database, and locking.

    Parts of the chain left out: the message server of [x/evm] (entry points over
    operations that are modelled), the checks of Cosmos transactions in
    [app/ante/cosmos] and the fee burning of [app/post], fee sharing
    ([x/revenue]), the attestor ([x/attestor], [precompiles/teeattestor], mostly
    certificate chains and signatures), and the precompiles that only forward to
    modules of the SDK. *)

From stdpp Require Import base list gmap strings sorting.
From Stdlib Require Import ZArith Lia.

Declare Scope go_scope.
Delimit Scope go_scope with go.
Open Scope Z_scope.

(** * Machine integers

    A Go integer of width [w] is a [Z]; a conversion to an unsigned width is a
    remainder, and a conversion to a signed width the remainder moved to the
    interval around zero. *)

Definition wrapU (w : Z) (x : Z) : Z := x mod 2 ^ w.

Definition wrapS (w : Z) (x : Z) : Z :=
  (x + 2 ^ (w - 1)) mod 2 ^ w - 2 ^ (w - 1).

Abbreviation u8 := (wrapU 8).
Abbreviation u32 := (wrapU 32).
Abbreviation u64 := (wrapU 64).
Abbreviation i16 := (wrapS 16).
Abbreviation i64 := (wrapS 64).

Definition is_u64 (x : Z) : bool := (0 <=? x) && (x <? 2 ^ 64).
Definition is_i64 (x : Z) : bool := (- 2 ^ 63 <=? x) && (x <? 2 ^ 63).

(** Go's [big.Int.Div] is Euclidean division: the remainder is never negative.
    A zero divisor is a run-time panic, so callers guard it. *)
Definition go_div (a b : Z) : Z := if 0 <? b then a / b else - (a / (- b)).

(** * Byte strings *)

Abbreviation bytes := (list Z).

Definition byte_ok (b : Z) : Prop := 0 <= b < 256.
Definition bytes_ok (bs : bytes) : Prop := Forall byte_ok bs.

Definition text_bytes (s : string) : bytes :=
  (fun c => Z.of_nat (Ascii.nat_of_ascii c)) <$> String.list_ascii_of_string s.

(** Whether [strings.TrimSpace] leaves nothing: the text is made of the UTF-8 encodings
    of the characters with Unicode's White Space property. *)
Fixpoint all_space (bs : bytes) : bool :=
  match bs with
  | [] => true
  | 9 :: r | 10 :: r | 11 :: r | 12 :: r | 13 :: r | 32 :: r => all_space r
  | 194 :: b :: r => ((b =? 133) || (b =? 160)) && all_space r
  | 225 :: 154 :: 128 :: r | 226 :: 129 :: 159 :: r | 227 :: 128 :: 128 :: r => all_space r
  | 226 :: 128 :: b :: r => (((128 <=? b) && (b <=? 138)) || (b =? 168) || (b =? 169) || (b =? 175)) && all_space r
  | _ => false
  end.

(** [binary.BigEndian.PutUint64] and its siblings: [n] bytes, most significant
    first. *)
Fixpoint be_encode (n : nat) (v : Z) : bytes :=
  match n with
  | O => []
  | S n' => be_encode n' (v / 256) ++ [v mod 256]
  end.

(** [binary.BigEndian.Uint64] and its siblings. *)
Definition be_decode (bs : bytes) : Z := foldl (fun acc b => acc * 256 + b) 0 bs.

Definition be8 (v : Z) : bytes := be_encode 8 v.

Arguments be8 : simpl never.
Arguments be_decode : simpl never.
Arguments wrapU : simpl never.
Arguments wrapS : simpl never.

(** [bytes.Compare] as an order: lexicographic, a proper prefix first. *)
Fixpoint bytes_leb (a b : bytes) : bool :=
  match a, b with
  | [], _ => true
  | _ :: _, [] => false
  | x :: a', y :: b' => (x <? y) || ((x =? y) && bytes_leb a' b')
  end.

Definition bytes_le (a b : bytes) : Prop := bytes_leb a b = true.

Fixpoint is_prefix (p k : bytes) : bool :=
  match p, k with
  | [], _ => true
  | _ :: _, [] => false
  | x :: p', y :: k' => (x =? y) && is_prefix p' k'
  end.

#[export] Instance bytes_le_dec : RelDecision bytes_le.
Proof. intros a b; unfold bytes_le; apply _. Defined.

(** [[]byte(s)] of a Go string. *)
Fixpoint str_bytes (s : string) : bytes :=
  match s with
  | EmptyString => []
  | String c s' => Z.of_nat (Ascii.nat_of_ascii c) :: str_bytes s'
  end.

(** The sum of [f] over a list. *)
Definition sumZ {A} (f : A -> Z) (l : list A) : Z := foldr (fun a acc => f a + acc) 0 l.

(** * Outcomes and the state monad

    A Go function that returns [(T, error)] and may panic has one of three
    outcomes.  The state is threaded through all of them: an error does not undo
    the writes made before it. *)

Inductive result (E A : Type) :=
| Ok (a : A)
| Err (e : E)
| Panic.
Arguments Ok {E A} a.
Arguments Err {E A} e.
Arguments Panic {E A}.

(** Go on with the value, pass an error or a panic on. *)
#[export] Instance result_bind E : MBind (result E) :=
  fun A B k r => match r with Ok a => k a | Err e => Err e | Panic => Panic end.

Definition M (S E A : Type) : Type := S -> S * result E A.

Section Monad.
Context {S E : Type}.

Definition ret {A} (a : A) : M S E A := fun s => (s, Ok a).

Definition fail {A} (e : E) : M S E A := fun s => (s, Err e).

Definition panic {A} : M S E A := fun s => (s, Panic).

Definition bind {A B} (c : M S E A) (k : A -> M S E B) : M S E B :=
  fun s =>
    match c s with
    | (s', Ok a) => k a s'
    | (s', Err e) => (s', Err e)
    | (s', Panic) => (s', Panic)
    end.

Definition gets {A} (f : S -> A) : M S E A := fun s => (s, Ok (f s)).

Definition modify (f : S -> S) : M S E unit := fun s => (f s, Ok tt).

(** [if cond { return err }] *)
Definition guard (ok : bool) (e : E) : M S E unit :=
  if ok then ret tt else fail e.

(** A loop over a slice. *)
Fixpoint for_all {A} (f : A -> M S E unit) (l : list A) : M S E unit :=
  match l with [] => ret tt | a :: l => bind (f a) (fun _ => for_all f l) end.

End Monad.

Notation "'let!' x ':=' c 'in' k" := (bind c (fun x => k))
  (at level 10, x name, c at level 100, k at level 200) : go_scope.
Notation "c ';;' k" := (bind c (fun _ => k))
  (at level 100, k at level 200, right associativity) : go_scope.

(** * Automation *)

Create HintDb hpx.
Create Rewrite HintDb hpx.

(** Case analysis on the scrutinee of a [match] or an [if] in hypothesis [H]. *)
Ltac split_match H :=
  match type of H with
  | context [match ?x with _ => _ end] => destruct x eqn:?
  end.

(** Reflect the boolean comparisons the source computes with into [Prop]. *)
Ltac reflect_bools :=
  repeat match goal with
  | H : (_ && _) = true |- _ => apply andb_true_iff in H; destruct H
  | H : (_ || _) = false |- _ => apply orb_false_iff in H; destruct H
  | H : negb _ = true |- _ => apply negb_true_iff in H
  | H : negb _ = false |- _ => apply negb_false_iff in H
  | H : (_ =? _) = true |- _ => apply Z.eqb_eq in H
  | H : (_ =? _) = false |- _ => apply Z.eqb_neq in H
  | H : (_ <=? _) = true |- _ => apply Z.leb_le in H
  | H : (_ <=? _) = false |- _ => apply Z.leb_gt in H
  | H : (_ <? _) = true |- _ => apply Z.ltb_lt in H
  | H : (_ <? _) = false |- _ => apply Z.ltb_ge in H
  | H : bool_decide _ = true |- _ => apply bool_decide_eq_true in H
  | H : bool_decide _ = false |- _ => apply bool_decide_eq_false in H
  end.

(** Case on the outcome of the computation that runs first in the goal. *)
Tactic Notation "go_case" "as" simple_intropattern(p) "eqn" ident(H) :=
  lazymatch goal with
  | |- match ?c with _ => _ end = _ -> _ => destruct c as p eqn:H
  end.

(** Run one monadic definition symbolically: unfold the plumbing. *)
Ltac go_unfold := unfold bind, ret, fail, panic, gets, modify, guard in *.

(** * Lemmas on computations *)

(** A sequence that returns ran both parts to the end. *)
Lemma bind_returns {S E A B} (c : M S E A) (k : A -> M S E B) s s'' b :
  bind c k s = (s'', Ok b) <-> exists s' a, c s = (s', Ok a) /\ k a s' = (s'', Ok b).
Proof.
  unfold bind. split.
  - destruct (c s) as [s' [a|e|]]; [by eauto|by intros [=]..].
  - by intros (s' & a & -> & H).
Qed.

Lemma guard_returns {S E} ok (e : E) (s s' : S) u : guard ok e s = (s', Ok u) <-> ok = true /\ s' = s /\ u = tt.
Proof. destruct u. unfold guard, ret, fail. destruct ok; split; [by intros [= ->]|by intros (_ & -> & _)|by intros [=]|by intros [[=] _]]. Qed.

Lemma gets_returns {S E A} (f : S -> A) (s s' : S) a : gets (E := E) f s = (s', Ok a) <-> s' = s /\ a = f s.
Proof. unfold gets. split; [by intros [= <- <-]|by intros [-> ->]]. Qed.

Lemma ret_returns {S E A} (x : A) (s s' : S) a : ret (E := E) x s = (s', Ok a) <-> s' = s /\ a = x.
Proof. unfold ret. split; [by intros [= <- <-]|by intros [-> ->]]. Qed.

(** A run whose outcome is known. *)
Lemma pair_eta {A B} (p : A * B) b : p.2 = b -> p = (p.1, b).
Proof. destruct p. by intros <-. Qed.

(** Takes a computation that returned apart into the steps it ran. *)
Ltac run H :=
  cbv beta zeta in H;
  lazymatch type of H with
  | bind _ _ _ = _ =>
    apply bind_returns in H; let s := fresh "s" in let a := fresh "a" in let Hc := fresh "Hc" in
    destruct H as (s & a & Hc & H); run Hc; run H
  | guard _ _ _ = _ => apply guard_returns in H; let Hg := fresh "Hg" in destruct H as (Hg & ? & ?); subst
  | gets _ _ = _ => apply gets_returns in H; destruct H as [? ?]; subst
  | ret _ _ = _ => apply ret_returns in H; destruct H as [? ?]; subst
  | _ => idtac
  end.

(** * Lemmas on machine integers *)

Lemma wrapU_small w x : 0 <= x < 2 ^ w -> wrapU w x = x.
Proof. apply Z.mod_small. Qed.

Lemma wrapU_range w x : 0 <= w -> 0 <= wrapU w x < 2 ^ w.
Proof. intros; apply Z.mod_pos_bound, Z.pow_pos_nonneg; lia. Qed.

Lemma wrapS_small w x :
  0 < w -> - 2 ^ (w - 1) <= x < 2 ^ (w - 1) -> wrapS w x = x.
Proof.
  intros Hw Hx. unfold wrapS.
  assert (2 ^ w = 2 * 2 ^ (w - 1)) as Hp.
  { rewrite <- Z.pow_succ_r by lia. f_equal; lia. }
  rewrite Z.mod_small; lia.
Qed.

Lemma wrapS_range w x :
  0 < w -> - 2 ^ (w - 1) <= wrapS w x < 2 ^ (w - 1).
Proof.
  intros Hw. unfold wrapS.
  assert (2 ^ w = 2 * 2 ^ (w - 1)) as Hp.
  { rewrite <- Z.pow_succ_r by lia. f_equal; lia. }
  pose proof (Z.mod_pos_bound (x + 2 ^ (w - 1)) (2 ^ w)
                (Z.pow_pos_nonneg 2 w ltac:(lia) ltac:(lia))).
  lia.
Qed.

Lemma is_u64_true x : is_u64 x = true <-> 0 <= x < 2 ^ 64.
Proof. unfold is_u64. rewrite andb_true_iff, Z.leb_le, Z.ltb_lt. lia. Qed.

Lemma is_i64_true x : is_i64 x = true <-> - 2 ^ 63 <= x < 2 ^ 63.
Proof. unfold is_i64. rewrite andb_true_iff, Z.leb_le, Z.ltb_lt. lia. Qed.

Lemma go_div_pos a b : 0 < b -> go_div a b = a / b.
Proof. intros H. unfold go_div. apply Z.ltb_lt in H. by rewrite H. Qed.

(** The remainder of Go's division is in [[0, |b|)]. *)
Lemma go_div_rem a b : b <> 0 -> 0 <= a - b * go_div a b < Z.abs b.
Proof.
  intros Hb. unfold go_div. destruct (Z.ltb_spec 0 b).
  - pose proof (Z.mod_pos_bound a b ltac:(lia)).
    pose proof (Z.div_mod a b ltac:(lia)). lia.
  - pose proof (Z.mod_pos_bound a (- b) ltac:(lia)).
    pose proof (Z.div_mod a (- b) ltac:(lia)). lia.
Qed.

(** * Lemmas on byte strings *)

Lemma length_be_encode n v : length (be_encode n v) = n.
Proof.
  revert v; induction n as [|n IH]; intros v; simpl; [done|].
  rewrite length_app, IH; simpl; lia.
Qed.

Lemma be_encode_ok n v : bytes_ok (be_encode n v).
Proof.
  unfold bytes_ok. revert v; induction n as [|n IH]; intros v; simpl; [constructor|].
  apply Forall_app; split; [apply IH|].
  constructor; [|constructor]. apply Z.mod_pos_bound; lia.
Qed.

Lemma be_decode_snoc bs b : be_decode (bs ++ [b]) = be_decode bs * 256 + b.
Proof. unfold be_decode. by rewrite foldl_app. Qed.

Lemma be_decode_encode n v :
  0 <= v < 256 ^ Z.of_nat n -> be_decode (be_encode n v) = v.
Proof.
  revert v; induction n as [|n IH]; intros v Hv.
  - simpl in *. unfold be_decode; simpl. lia.
  - rewrite Nat2Z.inj_succ, Z.pow_succ_r in Hv by lia.
    simpl. rewrite be_decode_snoc, IH.
    + pose proof (Z.div_mod v 256 ltac:(lia)). lia.
    + split; [apply Z.div_pos; lia|].
      apply Z.div_lt_upper_bound; lia.
Qed.

Lemma be_encode_inj n v1 v2 :
  0 <= v1 < 256 ^ Z.of_nat n -> 0 <= v2 < 256 ^ Z.of_nat n ->
  be_encode n v1 = be_encode n v2 -> v1 = v2.
Proof.
  intros H1 H2 He. apply (f_equal be_decode) in He.
  by rewrite !be_decode_encode in He.
Qed.

Lemma be8_roundtrip v : 0 <= v < 2 ^ 64 -> be_decode (be8 v) = v.
Proof. intros H. apply be_decode_encode. simpl. lia. Qed.

Lemma be8_inj v1 v2 :
  0 <= v1 < 2 ^ 64 -> 0 <= v2 < 2 ^ 64 -> be8 v1 = be8 v2 -> v1 = v2.
Proof. intros H1 H2. apply be_encode_inj; simpl; lia. Qed.

Lemma length_be8 v : length (be8 v) = 8%nat.
Proof. apply length_be_encode. Qed.

Lemma bytes_le_refl a : bytes_le a a.
Proof.
  unfold bytes_le. induction a as [|x a IH]; simpl; [done|].
  rewrite Z.eqb_refl, IH. by rewrite orb_true_r.
Qed.

Lemma bytes_le_cons x a y b :
  bytes_le (x :: a) (y :: b) <-> x < y \/ (x = y /\ bytes_le a b).
Proof.
  unfold bytes_le; simpl.
  rewrite orb_true_iff, andb_true_iff, Z.ltb_lt, Z.eqb_eq. done.
Qed.

#[export] Instance bytes_le_trans : Transitive bytes_le.
Proof.
  intros a; induction a as [|x a IH]; intros [|y b] [|z c] H1 H2;
    try done.
  rewrite bytes_le_cons in *. naive_solver eauto with lia.
Qed.

#[export] Instance bytes_le_total : Total bytes_le.
Proof.
  intros a; induction a as [|x a IH]; intros [|y b]; [by left..|by right|].
  rewrite !bytes_le_cons. destruct (IH b); destruct (Z.lt_total x y) as [|[|]]; naive_solver.
Qed.

#[export] Instance bytes_le_antisymm : AntiSymm (=) bytes_le.
Proof.
  intros a; induction a as [|x a IH]; intros [|y b] H1 H2; try done.
  rewrite bytes_le_cons in *.
  assert (x = y) as -> by lia. f_equal. apply IH; naive_solver lia.
Qed.

Lemma bytes_le_app_same p a b : bytes_le (p ++ a) (p ++ b) <-> bytes_le a b.
Proof.
  induction p as [|x p IH]; simpl; [done|].
  rewrite bytes_le_cons, IH. naive_solver lia.
Qed.

Lemma bytes_le_app_len a a' b b' :
  length a = length b ->
  bytes_le (a ++ a') (b ++ b') <-> (bytes_le a b /\ a <> b) \/ (a = b /\ bytes_le a' b').
Proof.
  revert b; induction a as [|x a IH]; intros [|y b] Hl; simpl in *; try lia.
  - naive_solver.
  - rewrite !bytes_le_cons, IH by lia. split.
    + intros [?|[-> [[? ?]|[-> ?]]]]; [|naive_solver..].
      left; split; [by left|]. intros [=]; lia.
    + intros [[[?|[-> ?]] Hne]|[[= -> ->] ?]]; [by left| |by right; auto].
      right; split; [done|]. left; split; [done|]. congruence.
Qed.

(** Big-endian encoding turns numeric order into byte order. *)
Lemma be_encode_le n v1 v2 :
  0 <= v1 < 256 ^ Z.of_nat n -> 0 <= v2 < 256 ^ Z.of_nat n ->
  bytes_le (be_encode n v1) (be_encode n v2) <-> v1 <= v2.
Proof.
  revert v1 v2; induction n as [|n IH]; intros v1 v2 H1 H2.
  - simpl in *. split; intros; [lia|apply bytes_le_refl].
  - rewrite Nat2Z.inj_succ, Z.pow_succ_r in H1, H2 by lia.
    assert (0 <= v1 / 256 < 256 ^ Z.of_nat n) as D1
      by (split; [apply Z.div_pos|apply Z.div_lt_upper_bound]; lia).
    assert (0 <= v2 / 256 < 256 ^ Z.of_nat n) as D2
      by (split; [apply Z.div_pos|apply Z.div_lt_upper_bound]; lia).
    simpl. rewrite bytes_le_app_len by (by rewrite !length_be_encode).
    rewrite IH by done. rewrite bytes_le_cons.
    pose proof (Z.div_mod v1 256 ltac:(lia)). pose proof (Z.div_mod v2 256 ltac:(lia)).
    pose proof (Z.mod_pos_bound v1 256 ltac:(lia)). pose proof (Z.mod_pos_bound v2 256 ltac:(lia)).
    split.
    + intros [[? Hne]|[He [?|[? _]]]].
      * destruct (decide (v1 / 256 = v2 / 256)) as [He|]; [by rewrite He in Hne|lia].
      * apply be_encode_inj in He; [lia|done..].
      * apply be_encode_inj in He; [lia|done..].
    + intros Hle. destruct (decide (v1 / 256 = v2 / 256)) as [He|Hne].
      * right. rewrite He. split; [done|].
        destruct (decide (v1 mod 256 = v2 mod 256)); [right|left]; [|lia].
        split; [done|apply bytes_le_refl].
      * left. split; [|intros He; apply be_encode_inj in He; done].
        apply Z.div_le_mono; lia.
Qed.

Lemma be8_le v1 v2 :
  0 <= v1 < 2 ^ 64 -> 0 <= v2 < 2 ^ 64 -> bytes_le (be8 v1) (be8 v2) <-> v1 <= v2.
Proof. intros H1 H2. apply be_encode_le; simpl; lia. Qed.

Lemma is_prefix_true p k : is_prefix p k = true <-> exists s, k = p ++ s.
Proof.
  revert k; induction p as [|x p IH]; intros k; simpl.
  - split; [by eexists|done].
  - destruct k as [|y k].
    + split; [done|intros [s Hs]; done].
    + rewrite andb_true_iff, Z.eqb_eq, IH. split.
      * intros [-> [s ->]]. by exists s.
      * intros [s [= -> ->]]. split; [done|by exists s].
Qed.

Lemma is_prefix_app p s : is_prefix p (p ++ s) = true.
Proof. apply is_prefix_true. by exists s. Qed.

#[export] Hint Resolve wrapU_small bytes_le_refl is_prefix_app length_be8 : hpx.
#[export] Hint Rewrite length_be_encode length_be8 : hpx.

Lemma xor_fold_zero acc (l : list (Z * Z)) :
  foldl (fun diff xy => Z.lor diff (Z.lxor xy.1 xy.2)) acc l = 0 <->
  acc = 0 /\ Forall (fun xy => xy.1 = xy.2) l.
Proof.
  revert acc; induction l as [|[x y] l IH]; intros acc; simpl.
  - split; [intros ->; by split|by intros [-> _]].
  - rewrite IH, Z.lor_eq_0_iff, Z.lxor_eq_0_iff, Forall_cons. simpl. tauto.
Qed.

(** Lengths first, then the or of the xors of the bytes: equality. *)
Lemma xor_compare_spec (a b : bytes) :
  (if negb (Nat.eqb (length a) (length b)) then false
   else foldl (fun diff xy => Z.lor diff (Z.lxor xy.1 xy.2)) 0 (zip a b) =? 0)
  = bool_decide (a = b).
Proof.
  destruct (Nat.eqb_spec (length a) (length b)) as [Hl|Hl]; simpl.
  - apply eq_bool_prop_intro. rewrite bool_decide_spec, Is_true_true, Z.eqb_eq, xor_fold_zero.
    split; [|intros ->].
    + intros [_ HF]. revert b Hl HF; induction a as [|x a IH]; intros [|y b] Hl HF;
        simpl in *; try lia; [done|].
      inversion HF; simplify_eq/=. f_equal. apply IH; [lia|done].
    + split; [done|]. clear Hl. induction b; simpl; constructor; done.
  - symmetry. apply bool_decide_eq_false. congruence.
Qed.

(** The outcome of a run names its final state. *)
Lemma run_eq {S E A} (r : S * result E A) (o : result E A) : r.2 = o -> r = (r.1, o).
Proof. destruct r; by intros <-. Qed.

Lemma str_bytes_inj s t : str_bytes s = str_bytes t -> s = t.
Proof.
  revert t; induction s as [|c s IH]; intros [|d t]; simpl; try done.
  intros [= Hc Hs]. apply IH in Hs as ->. f_equal.
  rewrite <- (Ascii.ascii_nat_embedding c), <- (Ascii.ascii_nat_embedding d). f_equal. lia.
Qed.

(** * Lemmas on lists *)

Lemma filter_none {A} (P : A -> Prop) `{!forall x, Decision (P x)} (l : list A) : Forall (fun x => ~ P x) l -> filter P l = [].
Proof. induction 1 as [|x l Hx _ IH]; [done|]. by rewrite filter_cons, decide_False. Qed.

Lemma filter_every {A} (P : A -> Prop) `{!forall x, Decision (P x)} (l : list A) : Forall P l -> filter P l = l.
Proof. induction 1 as [|x l Hx _ IH]; [done|]. by rewrite filter_cons, decide_True, IH. Qed.

Lemma sumZ_app {A} (f : A -> Z) l1 l2 : sumZ f (l1 ++ l2) = sumZ f l1 + sumZ f l2.
Proof. unfold sumZ. induction l1; simpl; lia. Qed.

Lemma sumZ_Permutation {A} (f : A -> Z) l1 l2 : l1 ≡ₚ l2 -> sumZ f l1 = sumZ f l2.
Proof. unfold sumZ. induction 1; simpl in *; lia. Qed.

Lemma sumZ_nonneg {A} (f : A -> Z) l : Forall (fun a => 0 <= f a) l -> 0 <= sumZ f l.
Proof. unfold sumZ. induction 1; simpl; lia. Qed.

Lemma sumZ_le {B} (f g : B -> Z) (l : list B) : (forall a, a ∈ l -> f a <= g a) -> sumZ f l <= sumZ g l.
Proof.
  unfold sumZ. induction l as [|a l IH]; intros H; simpl; [lia|].
  pose proof (H a ltac:(by left)). specialize (IH ltac:(intros; apply H; by right)). lia.
Qed.

Lemma sumZ_cons {A} (f : A -> Z) a (l : list A) : sumZ f (a :: l) = f a + sumZ f l.
Proof. done. Qed.

Lemma sumZ_filter_le {A} (f : A -> Z) (P : A -> Prop) `{!forall x, Decision (P x)} (l : list A) :
  Forall (fun a => 0 <= f a) l -> sumZ f (filter P l) <= sumZ f l.
Proof.
  unfold sumZ. induction 1 as [|a l Ha _ IH]; [done|].
  rewrite filter_cons. destruct (decide (P a)); simpl; lia.
Qed.

Lemma sumZ_plus {B} (f g : B -> Z) l : sumZ (fun a => f a + g a) l = sumZ f l + sumZ g l.
Proof. unfold sumZ. induction l; simpl; lia. Qed.

Lemma StronglySorted_lt_NoDup {A} (R : A -> A -> Prop) (l : list A) :
  (forall x, ~ R x x) -> StronglySorted R l -> NoDup l.
Proof.
  intros HR. induction 1 as [|x l _ IH Hx]; constructor; [|done].
  intros Hin. rewrite Forall_forall in Hx. by apply (HR x), Hx.
Qed.

Lemma sorted_unique_members {A} (R : A -> A -> Prop) (l1 l2 : list A) :
  (forall x, ~ R x x) -> (forall x y, R x y -> ~ R y x) ->
  StronglySorted R l1 -> StronglySorted R l2 -> (forall x, x ∈ l1 <-> x ∈ l2) -> l1 = l2.
Proof.
  intros Hirr Has H1 H2 Hm.
  apply (StronglySorted_unique_strong R); [|done|done|].
  - intros x y _ _ Hxy Hyx. by destruct (Has x y).
  - apply NoDup_Permutation; eauto using StronglySorted_lt_NoDup.
Qed.
