(* ===== verification/KVStore.v ===== *)
(** The KV store a Cosmos SDK keeper reads and writes ([ctx.KVStore(key)]).

    A store is a finite map from byte-string keys to values.  A prefix iterator
    walks the entries whose key starts with the prefix in ascending byte order,
    which is what [sdk.KVStorePrefixIterator] and [prefix.NewStore(..).Iterator]
    give.  Values stand for their encodings: the modules write each value with
    [json.Marshal] or as raw bytes and read it back with the matching decoder. *)

From stdpp Require Import base list gmap strings sorting.
From Stdlib Require Import ZArith Lia.
From S2P Require Import Prelude.
Open Scope Z_scope.

Section KV.
Context {V : Type}.

Definition entry_le (x y : bytes * V) : Prop := bytes_le x.1 y.1.

#[export] Instance entry_le_dec : RelDecision entry_le.
Proof. intros x y; unfold entry_le; apply _. Defined.

#[export] Instance entry_le_trans : Transitive entry_le.
Proof. intros x y z; unfold entry_le; apply bytes_le_trans. Qed.

#[export] Instance entry_le_total : Total entry_le.
Proof. intros x y; unfold entry_le; apply bytes_le_total. Qed.

(** The entries a prefix iterator yields, in the order it yields them. *)
Definition prefix_iter (p : bytes) (st : gmap bytes V) : list (bytes * V) :=
  merge_sort entry_le (filter (fun kv => is_prefix p kv.1 = true) (map_to_list st)).

(** Reading the eight-byte id that follows a prefix of length [prefixLen] off an
    entry's key; a shorter key is skipped. *)
Definition key_id (prefixLen : nat) (e : bytes * V) : option Z :=
  if Nat.ltb (length e.1) (prefixLen + 8) then None
  else Some (be_decode (take 8 (drop prefixLen e.1))).

Lemma prefix_iter_perm p st :
  prefix_iter p st ≡ₚ filter (fun kv => is_prefix p kv.1 = true) (map_to_list st).
Proof. apply merge_sort_Permutation. Qed.

Lemma elem_of_prefix_iter p st k v :
  (k, v) ∈ prefix_iter p st <-> st !! k = Some v /\ is_prefix p k = true.
Proof.
  rewrite prefix_iter_perm, list_elem_of_filter, elem_of_map_to_list. simpl. tauto.
Qed.

Lemma prefix_iter_sorted p st : StronglySorted entry_le (prefix_iter p st).
Proof. apply (StronglySorted_merge_sort entry_le). Qed.

Lemma NoDup_prefix_iter_keys p st : NoDup (prefix_iter p st).*1.
Proof.
  rewrite prefix_iter_perm.
  eapply sublist_NoDup; [apply (NoDup_fst_map_to_list st)|].
  apply fmap_sublist, sublist_filter.
Qed.

Lemma NoDup_prefix_iter p st : NoDup (prefix_iter p st).
Proof. eapply NoDup_fmap_1, NoDup_prefix_iter_keys. Qed.

(** The iterator is determined by the entries it covers. *)
Lemma prefix_iter_ext p st1 st2 :
  (forall k, is_prefix p k = true -> st1 !! k = st2 !! k) ->
  prefix_iter p st1 = prefix_iter p st2.
Proof.
  intros Heq.
  apply (StronglySorted_unique_strong entry_le);
    [|apply prefix_iter_sorted..|].
  - intros [k1 v1] [k2 v2] H1 H2 L1 L2. unfold entry_le in *; simpl in *.
    assert (k1 = k2) as -> by (by apply (anti_symm bytes_le)).
    apply elem_of_prefix_iter in H1 as [H1 Hp], H2 as [H2 _].
    rewrite Heq in H1 by done. congruence.
  - apply NoDup_Permutation; [apply NoDup_prefix_iter..|].
    intros [k v]. rewrite !elem_of_prefix_iter. split; intros [Hl Hp].
    + by rewrite <- Heq.
    + by rewrite Heq.
Qed.

Lemma prefix_iter_insert_ne p k v st :
  is_prefix p k = false -> prefix_iter p (<[k:=v]> st) = prefix_iter p st.
Proof.
  intros Hk. apply prefix_iter_ext. intros k' Hk'.
  apply lookup_insert_ne. congruence.
Qed.

Lemma prefix_iter_delete_ne p k st :
  is_prefix p k = false -> prefix_iter p (delete k st) = prefix_iter p st.
Proof.
  intros Hk. apply prefix_iter_ext. intros k' Hk'.
  apply lookup_delete_ne. congruence.
Qed.

Lemma prefix_iter_delete p k v st :
  st !! k = Some v -> is_prefix p k = true ->
  prefix_iter p st ≡ₚ (k, v) :: prefix_iter p (delete k st).
Proof.
  intros Hk Hp. apply NoDup_Permutation; [apply NoDup_prefix_iter| |].
  - constructor; [|apply NoDup_prefix_iter].
    rewrite elem_of_prefix_iter, lookup_delete_eq. by intros [? _].
  - intros [k' v']. rewrite elem_of_cons, !elem_of_prefix_iter.
    destruct (decide (k = k')) as [<-|Hne].
    + rewrite lookup_delete_eq. naive_solver.
    + rewrite lookup_delete_ne by done. naive_solver.
Qed.

Lemma prefix_iter_insert p k v st :
  is_prefix p k = true ->
  prefix_iter p (<[k:=v]> st) ≡ₚ (k, v) :: prefix_iter p (delete k st).
Proof.
  intros Hp. rewrite (prefix_iter_delete p k v) by (by rewrite ?lookup_insert_eq).
  by rewrite delete_insert_eq.
Qed.

Lemma prefix_iter_empty p : prefix_iter p (∅ : gmap bytes V) = [].
Proof. reflexivity. Qed.

(** ** Iterating over an index of ids

    Below, every key under the prefix is the prefix followed by an id. *)

Definition id_keys (p : bytes) (st : gmap bytes V) : Prop :=
  forall k v, st !! k = Some v -> is_prefix p k = true ->
    exists id, 0 <= id < 2 ^ 64 /\ k = p ++ be8 id.

Definition at_id (p : bytes) (x : Z * V) : bytes * V := (p ++ be8 x.1, x.2).

Lemma fmap_at_id p (es : list (bytes * V)) :
  Forall (fun e => exists id, 0 <= id < 2 ^ 64 /\ e.1 = p ++ be8 id) es ->
  exists l, es = at_id p <$> l /\ Forall (fun x => 0 <= x.1 < 2 ^ 64) l.
Proof.
  induction 1 as [|[k v] es (id & Hid & Hk) _ (l & -> & Hl)]; [by exists []|].
  simpl in Hk; subst k. exists ((id, v) :: l). split; [done|by constructor].
Qed.

Lemma at_id_sorted p l :
  Forall (fun x => 0 <= x.1 < 2 ^ 64) l -> NoDup (at_id p <$> l).*1 ->
  StronglySorted entry_le (at_id p <$> l) -> StronglySorted Z.lt l.*1.
Proof.
  induction l as [|[i v] l IH]; intros Hr Hnd Hs; [constructor|].
  apply Forall_cons in Hr as [Hi Hr]. cbn [fmap list_fmap fst] in *.
  apply NoDup_cons in Hnd as [Hni Hnd]. inversion_clear Hs as [|? ? Hs' Hle].
  constructor; [by apply IH|].
  apply Forall_forall. intros j Hj. apply list_elem_of_fmap in Hj as ([j' w] & -> & Hj).
  rewrite Forall_forall in Hle. rewrite Forall_forall in Hr. pose proof (Hr _ Hj) as Hjr.
  specialize (Hle (at_id p (j', w)) (list_elem_of_fmap_2 _ _ _ Hj)).
  unfold entry_le, at_id in Hle; simpl in *. apply bytes_le_app_same, be8_le in Hle; [|done..].
  assert (i <> j'); [|lia]. intros ->. apply Hni.
  apply list_elem_of_fmap. exists (at_id p (j', w)). split; [done|].
  by apply list_elem_of_fmap_2.
Qed.

(** The iterator walks the index by ascending id and misses no entry. *)
Lemma prefix_iter_ids p st :
  id_keys p st ->
  exists l, prefix_iter p st = at_id p <$> l /\ StronglySorted Z.lt l.*1 /\
    (forall id v, (id, v) ∈ l <-> 0 <= id < 2 ^ 64 /\ st !! (p ++ be8 id) = Some v).
Proof.
  intros Hk. destruct (fmap_at_id p (prefix_iter p st)) as (l & Hl & Hr).
  { apply Forall_forall. intros [k v] H. apply elem_of_prefix_iter in H as [H Hp]. eauto. }
  exists l. split_and!; [done| |].
  - apply (at_id_sorted p); [done|rewrite <- Hl; apply NoDup_prefix_iter_keys|].
    rewrite <- Hl. apply prefix_iter_sorted.
  - rewrite Forall_forall in Hr. intros id v. split.
    + intros H. pose proof (Hr _ H) as Hid. split; [done|].
      assert (at_id p (id, v) ∈ prefix_iter p st) as H' by (rewrite Hl; by apply list_elem_of_fmap_2).
      by apply elem_of_prefix_iter in H' as [H' _].
    + intros [Hid H].
      assert ((p ++ be8 id, v) ∈ prefix_iter p st) as H'
        by (apply elem_of_prefix_iter; split; [done|apply is_prefix_app]).
      rewrite Hl in H'. apply list_elem_of_fmap in H' as ([id' v'] & [= He ->] & H').
      pose proof (Hr _ H') as Hid'. simpl in *. apply app_inv_head in He.
      apply be8_inj in He; [by subst|done..].
Qed.

Lemma key_id_at p id v : 0 <= id < 2 ^ 64 -> key_id (length p) (at_id p (id, v)) = Some id.
Proof.
  intros Hid. unfold key_id, at_id; simpl. rewrite length_app, length_be8.
  rewrite Nat.ltb_irrefl. rewrite drop_app_length, take_ge by (rewrite length_be8; lia).
  by rewrite be8_roundtrip.
Qed.

Lemma omap_key_id p l :
  Forall (fun x => 0 <= x.1 < 2 ^ 64) l -> omap (key_id (length p)) (at_id p <$> l) = l.*1.
Proof.
  induction 1 as [|[id v] l Hid _ IH]; [done|].
  cbn [fmap list_fmap omap list_omap]. by rewrite key_id_at, IH.
Qed.

(** The ids read off an index: ascending, exactly the ones present. *)
Lemma prefix_ids p st :
  id_keys p st ->
  let ids := omap (key_id (length p)) (prefix_iter p st) in
  StronglySorted Z.lt ids /\
  (forall id, id ∈ ids <-> 0 <= id < 2 ^ 64 /\ is_Some (st !! (p ++ be8 id))) /\
  length ids = length (prefix_iter p st).
Proof.
  intros Hk. destruct (prefix_iter_ids p st Hk) as (l & -> & Hs & Hl). cbv zeta.
  rewrite omap_key_id.
  - split_and!; [done| |by rewrite !length_fmap].
    intros id. rewrite list_elem_of_fmap. split.
    + intros ([i v] & -> & H). apply Hl in H as [? H]. split; [done|by eexists].
    + intros [? [v H]]. exists (id, v). split; [done|]. by apply Hl.
  - apply Forall_forall. intros [i v] H. by apply Hl in H as [? _].
Qed.

(** The values under an index of ids. *)
Lemma omap_at_id_snd {B} (f : V -> option B) p l :
  omap (fun e => f e.2) (at_id p <$> l) = omap f l.*2.
Proof. induction l as [|[i v] l IH]; [done|]. cbn. by rewrite IH. Qed.

(** When every value under the index decodes to a record that carries its own
    id, the records come out by ascending id, and are exactly the ones stored. *)
Lemma prefix_records {R} (f : V -> option R) (rid : R -> Z) p st :
  id_keys p st ->
  (forall id v, 0 <= id < 2 ^ 64 -> st !! (p ++ be8 id) = Some v ->
     exists r, f v = Some r /\ rid r = id) ->
  let rs := omap (fun e => f e.2) (prefix_iter p st) in
  StronglySorted (fun r r' => rid r < rid r') rs /\
  (forall r, r ∈ rs <-> 0 <= rid r < 2 ^ 64 /\
     exists v, st !! (p ++ be8 (rid r)) = Some v /\ f v = Some r).
Proof.
  intros Hk Hf. destruct (prefix_iter_ids p st Hk) as (l & -> & Hs & Hl). cbv zeta.
  rewrite omap_at_id_snd.
  assert (forall id v, (id, v) ∈ l -> exists r, f v = Some r /\ rid r = id) as Hl'.
  { intros id v H. apply Hl in H as [Hid H]. by apply Hf. }
  split.
  - clear Hl. induction l as [|[id v] l IH]; [constructor|].
    inversion_clear Hs as [|? ? Hs' Hlt]. destruct (Hl' id v) as (r & Hr & Hid); [by left|].
    cbn. rewrite Hr. constructor; [apply IH; [done|]; intros; apply Hl'; by right|].
    apply Forall_forall. intros r' Hr'. apply list_elem_of_omap in Hr' as (v' & Hv' & Hr').
    apply list_elem_of_fmap in Hv' as ([i w] & -> & Hv').
    destruct (Hl' i w) as (r1 & Hr1 & Hid1); [by right|]. simpl in Hr'. simplify_eq.
    rewrite Forall_forall in Hlt. apply Hlt, list_elem_of_fmap. by exists (rid r', w).
  - intros r. rewrite list_elem_of_omap. split.
    + intros (v & Hv & Hr). apply list_elem_of_fmap in Hv as ([id w] & -> & Hv).
      destruct (Hl' id w Hv) as (r1 & Hr1 & Hid1). simpl in Hr. simplify_eq.
      apply Hl in Hv as [Hid Hv]. split; [done|]. by exists w.
    + intros (Hid & v & Hv & Hr). exists v. split; [|done].
      apply list_elem_of_fmap. exists (rid r, v). split; [done|]. by apply Hl.
Qed.
End KV.
