(* ===== verification/IndexedStore.v ===== *)
(** Records with secondary indexes in a KV store.

    [x/streams] and [x/scheduler] keep each record under several keys: the record
    itself by id, and further entries that let an iterator find it.  [ents id r]
    lists the entries of record [r]; a store is [indexed] by a map of records
    when its entries are exactly those of the records and a list of fixed ones
    (parameters, the id counter).  Writing or deleting all entries of one record
    then is an insertion into or a deletion from the map. *)

From stdpp Require Import base list gmap strings sorting.
From Stdlib Require Import ZArith Lia.
From S2P Require Import Prelude.
Open Scope Z_scope.

Section Writes.
Context {V : Type}.

(** [store.Set] and [store.Delete] over a list of entries. *)
Definition put_all (es : list (bytes * V)) (st : gmap bytes V) : gmap bytes V :=
  foldl (fun st e => <[e.1 := e.2]> st) st es.

Definition delete_all (ks : list bytes) (st : gmap bytes V) : gmap bytes V :=
  foldl (fun st k => delete k st) st ks.

Lemma lookup_put_all es : forall st k v, NoDup es.*1 ->
  put_all es st !! k = Some v <-> (k, v) ∈ es \/ (k ∉ es.*1 /\ st !! k = Some v).
Proof.
  induction es as [|[k0 v0] es IH]; intros st k v Hnd.
  - cbn. set_solver.
  - cbn in Hnd. apply NoDup_cons in Hnd as [Hni Hnd]. 
    change (put_all ((k0, v0) :: es) st) with (put_all es (<[k0 := v0]> st)). rewrite IH by done.
    cbn [fmap list_fmap fst]. rewrite elem_of_cons, not_elem_of_cons, lookup_insert_Some.
    assert ((k0, v) ∈ es -> False) as Hno.
    { intros H. apply Hni, list_elem_of_fmap. by exists (k0, v). }
    split.
    + intros [?|[Hk [[<- <-]|[? ?]]]]; naive_solver.
    + intros [[[= -> ->]|?]|[[? ?] ?]]; naive_solver.
Qed.

Lemma lookup_delete_all ks : forall st k v,
  delete_all ks st !! k = Some v <-> k ∉ ks /\ st !! k = Some v.
Proof.
  induction ks as [|k0 ks IH]; intros st k v; [cbn; set_solver|].
  change (delete_all (k0 :: ks) st) with (delete_all ks (delete k0 st)). rewrite IH, lookup_delete_Some, not_elem_of_cons. naive_solver.
Qed.
End Writes.

Section Indexed.
Context {R V : Type} (ents : Z -> R -> list (bytes * V)).

Definition keys_of (id : Z) (r : R) : list bytes := (ents id r).*1.

Definition indexed (st : gmap bytes V) (m : gmap Z R) (fixed : list (bytes * V)) : Prop :=
  forall k v, st !! k = Some v <->
    (exists id r, m !! id = Some r /\ (k, v) ∈ ents id r) \/ (k, v) ∈ fixed.

(** No key of a record is a key of another record or a fixed one, and no record
    uses a key twice. *)
Record separated (m : gmap Z R) (fixed : list (bytes * V)) : Prop := {
  sep_nodup : forall id r, m !! id = Some r -> NoDup (keys_of id r);
  sep_records : forall id r id' r', m !! id = Some r -> m !! id' = Some r' ->
    id <> id' -> keys_of id r ## keys_of id' r';
  sep_fixed : forall id r, m !! id = Some r -> keys_of id r ## fixed.*1
}.

Lemma elem_of_keys_of id r k v : (k, v) ∈ ents id r -> k ∈ keys_of id r.
Proof. intros H. apply list_elem_of_fmap. by exists (k, v). Qed.

(** Writing a record that is new, or has the keys it had before. *)
Lemma indexed_put st m fixed id r :
  indexed st m fixed -> separated (<[id := r]> m) fixed ->
  (forall r0, m !! id = Some r0 -> keys_of id r0 ⊆ keys_of id r) ->
  indexed (put_all (ents id r) st) (<[id := r]> m) fixed.
Proof.
  intros Hi [Hnd Hrec Hfix] Hsame k v.
  pose proof (Hnd id r (lookup_insert_eq _ _ _)) as Hn.
  pose proof (Hfix id r (lookup_insert_eq _ _ _)) as Hf.
  rewrite lookup_put_all by done. rewrite (Hi k v). split.
  - intros [H|[Hk [(id' & r' & Hm & He)|H]]]; [left; exists id, r; by rewrite lookup_insert_eq| |by right].
    left. exists id', r'. split; [|done].
    apply lookup_insert_Some. right. split; [|done]. intros <-.
    by apply Hk, (Hsame _ Hm), (elem_of_keys_of id r' k v).
  - intros [(id' & r' & Hm & He)|H].
    + apply lookup_insert_Some in Hm as [[<- <-]|[Hne Hm]]; [by left|].
      right. split; [|left; by exists id', r'].
      intros Hk. apply (Hrec id r id' r' (lookup_insert_eq _ _ _)
        ltac:(by rewrite lookup_insert_ne) Hne k Hk). by apply (elem_of_keys_of _ _ _ v).
    + right. split; [|by right]. intros Hk. apply (Hf k Hk), list_elem_of_fmap. by exists (k, v).
Qed.

Lemma indexed_delete st m fixed id r :
  indexed st m fixed -> separated m fixed -> m !! id = Some r ->
  indexed (delete_all (keys_of id r) st) (delete id m) fixed.
Proof.
  intros Hi [Hnd Hrec Hfix] Hm k v. rewrite lookup_delete_all, (Hi k v). split.
  - intros [Hk [(id' & r' & Hm' & He)|H]]; [|by right]. left. exists id', r'. split; [|done].
    apply lookup_delete_Some. split; [|done]. intros <-.
    simplify_eq. by apply Hk, (elem_of_keys_of _ _ _ v).
  - intros [(id' & r' & Hm' & He)|H].
    + apply lookup_delete_Some in Hm' as [Hne Hm']. split; [|left; by exists id', r'].
      intros Hk. apply (Hrec id r id' r' Hm Hm' Hne k Hk). by apply (elem_of_keys_of _ _ _ v).
    + split; [|by right]. intros Hk. apply (Hfix id r Hm k Hk), list_elem_of_fmap. by exists (k, v).
Qed.

(** Replacing one fixed entry. *)
Lemma indexed_fixed st m fixed fixed' k0 v0 :
  indexed st m fixed -> separated m fixed -> k0 ∈ fixed.*1 ->
  (forall k v, (k, v) ∈ fixed' <-> (k = k0 /\ v = v0) \/ (k <> k0 /\ (k, v) ∈ fixed)) ->
  indexed (<[k0 := v0]> st) m fixed'.
Proof.
  intros Hi [_ _ Hfix] Hk0 Hf k v. rewrite lookup_insert_Some, (Hi k v), Hf. split.
  - intros [[<- <-]|[Hne [H|H]]]; naive_solver.
  - intros [(id & r & Hm & He)|[[-> ->]|[Hne H]]]; [|by left|by right; auto].
    right. split; [|left; by exists id, r]. intros <-.
    by apply (Hfix id r Hm k0 (elem_of_keys_of _ _ _ _ He)).
Qed.

Lemma indexed_lookup_record st m fixed id r k v :
  indexed st m fixed -> m !! id = Some r -> (k, v) ∈ ents id r -> st !! k = Some v.
Proof. intros Hi Hm He. apply Hi. left. by exists id, r. Qed.

Lemma indexed_lookup_fixed st m fixed k v :
  indexed st m fixed -> (k, v) ∈ fixed -> st !! k = Some v.
Proof. intros Hi He. apply Hi. by right. Qed.

(** Starting from nothing. *)
Lemma indexed_empty fixed : NoDup fixed.*1 -> indexed (put_all fixed ∅) ∅ fixed.
Proof.
  intros Hnd k v. rewrite lookup_put_all by done. rewrite lookup_empty.
  setoid_rewrite lookup_empty. naive_solver.
Qed.
End Indexed.
