(* ===== verification/BigInt.v ===== *)
(** Decimal strings of [math/big]: [Int.String] and [Int.SetString(s, 10)].

    The keepers store amounts as decimal strings and parse them on every read. *)

From stdpp Require Import base strings.
From Stdlib Require Import ZArith Lia String Ascii.
From Stdlib Require Import DecimalString DecimalZ DecimalFacts DecimalPos.
Open Scope Z_scope.

(** [x.String()]: canonical decimal digits, with a minus sign when negative. *)
Definition BigString (x : Z) : string := NilZero.string_of_int (Z.to_int x).

(** [new(big.Int).SetString(s, 10)]: an optional sign and one or more decimal
    digits; [None] is the [ok = false] result. *)
Definition SetString (s : string) : option Z :=
  match s with
  | String "+"%char s' => option_map Z.of_uint (NilZero.uint_of_string s')
  | _ => option_map Z.of_int (NilZero.int_of_string s)
  end.

(** The decoders of [x/streams] and [x/scheduler]: empty, malformed and negative
    strings read as zero. *)
Definition parseNonNeg (s : string) : Z :=
  if String.eqb s "" then 0
  else match SetString s with
       | Some v => if v <? 0 then 0 else v
       | None => 0
       end.

Lemma string_of_uint_head u :
  exists c s, NilZero.string_of_uint u = String c s /\ c <> "+"%char.
Proof. destruct u; simpl; eexists _, _; split; reflexivity || (intros [=]). Qed.

Lemma BigString_head x :
  exists c s, BigString x = String c s /\ c <> "+"%char.
Proof.
  unfold BigString. destruct (Z.to_int x) as [u|u]; simpl.
  - apply string_of_uint_head.
  - eexists _, _; split; [reflexivity|intros [=]].
Qed.

Lemma to_int_not_nil x :
  Z.to_int x <> Decimal.Pos Decimal.Nil /\ Z.to_int x <> Decimal.Neg Decimal.Nil.
Proof.
  destruct x as [|p|p]; simpl; split; intros H; try discriminate;
    injection H as H; by apply Unsigned.to_uint_nonnil in H.
Qed.

(** Printing then parsing gives the integer back. *)
Lemma SetString_BigString x : SetString (BigString x) = Some x.
Proof.
  assert (NilZero.int_of_string (BigString x) = Some (Z.to_int x)) as Hp.
  { apply NilZero.isi; apply to_int_not_nil. }
  destruct (BigString_head x) as (c & s & He & Hc).
  assert (SetString (BigString x) =
          option_map Z.of_int (NilZero.int_of_string (BigString x))) as ->.
  { rewrite He. simpl. destruct c as [[] [] [] [] [] [] [] []]; try reflexivity. by destruct Hc. }
  rewrite Hp. simpl. by rewrite DecimalZ.of_to.
Qed.

Lemma BigString_inj x y : BigString x = BigString y -> x = y.
Proof. intros H. apply (f_equal SetString) in H. rewrite !SetString_BigString in H. congruence. Qed.

Lemma parseNonNeg_nonneg s : 0 <= parseNonNeg s.
Proof.
  unfold parseNonNeg. destruct (String.eqb s ""); [lia|].
  destruct (SetString s) as [v|]; [|lia]. destruct (Z.ltb_spec v 0); lia.
Qed.

Lemma parseNonNeg_BigString x : 0 <= x -> parseNonNeg (BigString x) = x.
Proof.
  intros Hx. unfold parseNonNeg. rewrite SetString_BigString.
  destruct (Z.ltb_spec x 0); [lia|].
  destruct (BigString_head x) as (c & s & -> & _). reflexivity.
Qed.

Example SetString_examples :
  (SetString "1000", SetString "-7", SetString "+7", SetString "007",
   SetString "", SetString "-", SetString "1_000", SetString "12a")
  = (Some 1000, Some (-7), Some 7, Some 7, None, None, None, None).
Proof. reflexivity. Qed.

(** * Decimals *)

(** [math.LegacyDec], as the integer of its 18 decimals. *)
Definition dec_one : Z := 10 ^ 18.

Class LegacyDec := {
  dec_mul : Z -> Z -> Z;
  (** An integer times a decimal is exact. *)
  dec_mul_int : forall n d, dec_mul (n * dec_one) d = n * d;
  dec_mul_int_r : forall n d, dec_mul d (n * dec_one) = n * d;
  dec_truncate : Z -> Z;
  dec_truncate_nonneg : forall d, 0 <= d -> dec_truncate d = d / dec_one
}.

Module RefDec.
(** Eighteen decimals, rounded half to even. *)
Definition round_half_even (n : Z) : Z :=
  let q := n / dec_one in
  let r := n mod dec_one in
  if 2 * r <? dec_one then q
  else if dec_one <? 2 * r then q + 1
  else if Z.even q then q else q + 1.

#[export, refine] Instance ref_dec : LegacyDec := {|
  dec_mul := fun a b => round_half_even (a * b);
  dec_truncate := fun d => Z.quot d dec_one
|}.
Proof.
  - intros n d. unfold round_half_even. replace (n * dec_one * d) with (n * d * dec_one) by lia.
    rewrite Z.div_mul, Z.mod_mul by (unfold dec_one; lia). done.
  - intros n d. unfold round_half_even. replace (d * (n * dec_one)) with (n * d * dec_one) by lia.
    rewrite Z.div_mul, Z.mod_mul by (unfold dec_one; lia). done.
  - intros d Hd. apply Z.quot_div_nonneg; [done|]. unfold dec_one. lia.
Defined.
End RefDec.
