(* ===== verification/Ledger.v ===== *)
(** What the modules see of the rest of the chain.

    The block context, and the interfaces of code that is not in the repository:
    the bank and account keepers of the Cosmos SDK and the address helpers of
    go-ethereum.  A module's definitions are parametric in the operations of a
    class; its theorems also assume the laws, which state what the libraries
    document.  [RefBank] and [RefEth] are small instances that satisfy the laws. *)

From stdpp Require Import base list gmap strings.
From Stdlib Require Import ZArith Lia.
From S2P Require Import Prelude.
Open Scope Z_scope.

(** The parts of [sdk.Context] the modules read: [ctx.BlockTime().Unix()] and
    [ctx.BlockHeight()], both [int64]. *)
Record Ctx := mkCtx { BlockTime : Z; BlockHeight : Z }.

(** [common.Address{}] *)
Definition zero_address : bytes := replicate 20 0.

(** [evmtypes.DefaultEVMDenom] *)
Definition DefaultEVMDenom : string := "ahpx".

(** go-ethereum's address conversions. *)
Class EthCommon := {
  BytesToAddress : bytes -> bytes;
  (** A slice that already has the length of an address is copied unchanged. *)
  BytesToAddress_20 : forall b, length b = 20%nat -> BytesToAddress b = b
}.

(** The bank and account keeper operations the modules call, over an external
    state [X]. An error carries a code the modules pass on unread. *)
Class BankKeeper (X : Type) := {
  GetModuleAddress : string -> bytes;
  GetBalance : X -> bytes -> string -> Z;
  BlockedAddr : bytes -> bool;
  SendCoinsFromAccountToModule : X -> bytes -> string -> string * Z -> X * option Z;
  SendCoinsFromModuleToAccount : X -> string -> bytes -> string * Z -> X * option Z
}.

(** A send of [n] coins of denomination [d] from [src] to [dst]. *)
Definition sent {X} `{BankKeeper X} (x x' : X) (src dst : bytes) (d : string) (n : Z) : Prop :=
  n <= GetBalance x src d /\
  forall a d', GetBalance x' a d' =
    GetBalance x a d'
    - (if decide (a = src /\ d' = d) then n else 0)
    + (if decide (a = dst /\ d' = d) then n else 0).

(** What the bank keeper documents: a successful send moves exactly the coins it
    is asked to move and requires them to be there; a failed one moves nothing;
    a module's payment succeeds when it is covered and the recipient is not on
    the block list, and fails when the recipient is on it. *)
Class BankLaws (X : Type) `{BankKeeper X} := {
  module_address_length : forall m, length (GetModuleAddress m) = 20%nat;
  account_to_module_ok : forall x a m d n x', 0 < n ->
    SendCoinsFromAccountToModule x a m (d, n) = (x', None) ->
    sent x x' a (GetModuleAddress m) d n;
  account_to_module_err : forall x a m c x' e,
    SendCoinsFromAccountToModule x a m c = (x', Some e) -> x' = x;
  module_to_account_ok : forall x m a d n x', 0 < n ->
    SendCoinsFromModuleToAccount x m a (d, n) = (x', None) ->
    sent x x' (GetModuleAddress m) a d n;
  module_to_account_err : forall x m a c x' e,
    SendCoinsFromModuleToAccount x m a c = (x', Some e) -> x' = x;
  module_to_account_covered : forall x m a d n, 0 < n ->
    n <= GetBalance x (GetModuleAddress m) d -> BlockedAddr a = false ->
    exists x', SendCoinsFromModuleToAccount x m a (d, n) = (x', None);
  module_to_account_blocked : forall x m a c, BlockedAddr a = true ->
    exists e, SendCoinsFromModuleToAccount x m a c = (x, Some e)
}.

(** * The world of a module

    A module's handlers thread its own KV store, the rest of the chain and the
    event log of the block. *)

Record world (V Ev X : Type) := mkWorld {
  store : gmap bytes V;
  ext : X;
  events : list Ev
}.
Arguments mkWorld {V Ev X}.
Arguments store {V Ev X}.
Arguments ext {V Ev X}.
Arguments events {V Ev X}.

Section World.
Context {V Ev X E : Type}.

(** A bank operation changes only the rest of the chain. *)
Definition run_ext (wrap : Z -> E) (op : X -> X * option Z) : M (world V Ev X) E unit :=
  fun w =>
    let (x', e) := op (ext w) in
    let w' := mkWorld (store w) x' (events w) in
    match e with
    | None => (w', Ok tt)
    | Some c => (w', Err (wrap c))
    end.

Definition update_store (f : gmap bytes V -> gmap bytes V) : M (world V Ev X) E unit :=
  modify (fun w => mkWorld (f (store w)) (ext w) (events w)).

Definition EmitEvent (e : Ev) : M (world V Ev X) E unit :=
  modify (fun w => mkWorld (store w) (ext w) (events w ++ [e])).

End World.

(** * Reference instances *)

Module RefEth.
(** Crop on the left, or pad on the left with zeros. *)
Definition to_address (b : bytes) : bytes :=
  if decide (20 <= length b)%nat then drop (length b - 20) b
  else replicate (20 - length b) 0 ++ b.

#[global, refine] Instance eth : EthCommon := {| BytesToAddress := to_address |}.
Proof.
  intros b Hb. unfold to_address. rewrite Hb. by rewrite decide_True.
Defined.
End RefEth.

Module RefBank.
(** Balances by account and denomination; absent means zero. *)
Abbreviation bank := (gmap (bytes * string) Z).

Definition balance (x : bank) (a : bytes) (d : string) : Z :=
  default 0 (x !! (a, d)).

(** A module address is the module's name padded into twenty bytes. *)
Definition module_address (m : string) : bytes :=
  255 :: take 19 (((fun c => Z.of_nat (Ascii.nat_of_ascii c)) <$> String.list_ascii_of_string m)
                   ++ replicate 19 0).

Definition move (x : bank) (src dst : bytes) (d : string) (n : Z) : bank :=
  let x1 := <[(src, d) := balance x src d - n]> x in
  <[(dst, d) := balance x1 dst d + n]> x1.

Definition send (x : bank) (src dst : bytes) (c : string * Z) : bank * option Z :=
  if balance x src c.1 <? c.2 then (x, Some 5)
  else (move x src dst c.1 c.2, None).

Definition blocked (a : bytes) : bool := bool_decide (a = module_address "distribution").

#[global] Instance keeper : BankKeeper bank := {|
  GetModuleAddress := module_address;
  GetBalance := balance;
  BlockedAddr := blocked;
  SendCoinsFromAccountToModule x a m c := send x a (module_address m) c;
  SendCoinsFromModuleToAccount x m a c :=
    if blocked a then (x, Some 4) else send x (module_address m) a c
|}.

Lemma send_ok x src dst d n x' :
  send x src dst (d, n) = (x', None) -> sent x x' src dst d n.
Proof.
  unfold send, sent; simpl. destruct (Z.ltb_spec (balance x src d) n); intros [=].
  split; [lia|]. intros a d'. subst x'. unfold move, balance.
  rewrite !lookup_insert.
  repeat case_decide; simplify_eq/=; try naive_solver lia.
Qed.

Lemma send_err x src dst c x' e : send x src dst c = (x', Some e) -> x' = x.
Proof. unfold send. destruct (_ <? _); intros [=]; done. Qed.

Lemma length_module_address m : length (module_address m) = 20%nat.
Proof.
  unfold module_address. cbn [length]. f_equal.
  rewrite length_take, length_app, length_replicate. lia.
Qed.

#[global] Instance laws : BankLaws bank.
Proof.
  constructor; simpl.
  - exact length_module_address.
  - eauto using send_ok.
  - eauto using send_err.
  - intros x m a d n x' _. destruct (blocked a); [done|]. apply send_ok.
  - intros x m a c x' e. destruct (blocked a); [by intros [=]|]. apply send_err.
  - intros x m a d n Hn Hb ->. unfold send; simpl.
    destruct (Z.ltb_spec (balance x (module_address m) d) n); [lia|by eauto].
  - intros x m a c ->. by eexists.
Qed.
End RefBank.

(** The bank next to ERC-20 contracts with plain balances. *)
Module RefChain.
Record chain := mkChain { coins : RefBank.bank; tokens : gmap (bytes * bytes) Z }.

Definition on_coins (c : chain) (r : RefBank.bank * option Z) : chain * option Z :=
  (mkChain r.1 (tokens c), r.2).

Definition balanceOf (c : chain) (t h : bytes) : Z := default 0 (tokens c !! (t, h)).

Definition token_move (c : chain) (t src dst : bytes) (n : Z) : chain :=
  let m1 := <[(t, src) := default 0 (tokens c !! (t, src)) - n]> (tokens c) in
  mkChain (coins c) (<[(t, dst) := default 0 (m1 !! (t, dst)) + n]> m1).

#[global] Instance keeper : BankKeeper chain := {|
  GetModuleAddress := RefBank.module_address;
  GetBalance c := RefBank.balance (coins c);
  BlockedAddr := RefBank.blocked;
  SendCoinsFromAccountToModule c a m amt :=
    on_coins c (SendCoinsFromAccountToModule (coins c) a m amt);
  SendCoinsFromModuleToAccount c m a amt :=
    on_coins c (SendCoinsFromModuleToAccount (coins c) m a amt)
|}.

Lemma on_coins_inv c r x' o : on_coins c r = (x', o) -> r.2 = o /\ coins x' = r.1 /\ tokens x' = tokens c.
Proof. unfold on_coins. by intros [= <- <-]. Qed.

#[global] Instance laws : BankLaws chain.
Proof.
  constructor; cbn [GetModuleAddress GetBalance BlockedAddr SendCoinsFromAccountToModule
                    SendCoinsFromModuleToAccount keeper].
  - exact RefBank.length_module_address.
  - intros x a m d n x' Hn H. apply on_coins_inv in H as (Ho & Hc & _).
    destruct (SendCoinsFromAccountToModule _ _ _ _) as [b o] eqn:E; simpl in Ho, Hc; subst.
    by apply account_to_module_ok in E.
  - intros x a m c x' e H. apply on_coins_inv in H as (Ho & Hc & Ht).
    destruct (SendCoinsFromAccountToModule _ _ _ _) as [b o] eqn:E; simpl in Ho, Hc; subst.
    apply account_to_module_err in E. destruct x, x'; simpl in *; congruence.
  - intros x m a d n x' Hn H. apply on_coins_inv in H as (Ho & Hc & _).
    destruct (SendCoinsFromModuleToAccount _ _ _ _) as [b o] eqn:E; simpl in Ho, Hc; subst.
    by apply module_to_account_ok in E.
  - intros x m a c x' e H. apply on_coins_inv in H as (Ho & Hc & Ht).
    destruct (SendCoinsFromModuleToAccount _ _ _ _) as [b o] eqn:E; simpl in Ho, Hc; subst.
    apply module_to_account_err in E. destruct x, x'; simpl in *; congruence.
  - intros x m a d n Hn Hb Ha.
    destruct (module_to_account_covered (H:=RefBank.keeper) (coins x) m a d n Hn Hb Ha) as [x' E].
    rewrite E. by eexists.
  - intros x m a c Ha. destruct (module_to_account_blocked (H:=RefBank.keeper) (coins x) m a c Ha) as [e E].
    exists e. rewrite E. by destruct x.
Qed.

Lemma balanceOf_move c t src dst n t' h :
  balanceOf (token_move c t src dst n) t' h = balanceOf c t' h
    - (if decide (t' = t /\ h = src) then n else 0)
    + (if decide (t' = t /\ h = dst) then n else 0).
Proof.
  unfold balanceOf, token_move; cbn [tokens]. rewrite !lookup_insert.
  repeat case_decide; simplify_eq/=; naive_solver lia.
Qed.
End RefChain.

(** A bank next to other state. *)
Module PairBank.
Section Pair.
Context {B Y : Type} {BK : BankKeeper B}.

Definition on_bank (c : B * Y) (r : B * option Z) : B * Y * option Z := ((r.1, c.2), r.2).

#[global] Instance keeper : BankKeeper (B * Y) := {|
  GetModuleAddress := GetModuleAddress;
  GetBalance c := GetBalance c.1;
  BlockedAddr := BlockedAddr;
  SendCoinsFromAccountToModule c a m amt := on_bank c (SendCoinsFromAccountToModule c.1 a m amt);
  SendCoinsFromModuleToAccount c m a amt := on_bank c (SendCoinsFromModuleToAccount c.1 m a amt)
|}.

Lemma on_bank_inv c r x' o : on_bank c r = (x', o) -> r = (x'.1, o) /\ x'.2 = c.2.
Proof. unfold on_bank. destruct r. by intros [= <- <-]. Qed.

#[global] Instance laws `{!BankLaws B} : BankLaws (B * Y).
Proof.
  constructor; cbn [GetModuleAddress GetBalance BlockedAddr SendCoinsFromAccountToModule
                    SendCoinsFromModuleToAccount keeper].
  - exact module_address_length.
  - intros x a m d n x' Hn [H _]%on_bank_inv. by apply account_to_module_ok in H.
  - intros x a m c x' e [H E]%on_bank_inv. apply account_to_module_err in H. destruct x, x'; cbn in *; congruence.
  - intros x m a d n x' Hn [H _]%on_bank_inv. by apply module_to_account_ok in H.
  - intros x m a c x' e [H E]%on_bank_inv. apply module_to_account_err in H. destruct x, x'; cbn in *; congruence.
  - intros x m a d n Hn Hb Ha. destruct (module_to_account_covered x.1 m a d n Hn Hb Ha) as [x' E].
    exists (x', x.2). unfold on_bank. by rewrite E.
  - intros x m a c Ha. destruct (module_to_account_blocked x.1 m a c Ha) as [e E]. exists e. unfold on_bank.
    rewrite E. by destruct x.
Qed.
End Pair.
End PairBank.
