(* ===== verification/Precompile.v ===== *)
(** [precompiles/common/precompile.go]: what every precompiled contract does
    before its method runs.

    go-ethereum's ABI decoder is a parameter: [MethodById] finds a method by its
    selector and [Unpack] decodes the arguments.  Results are the values a
    handler packs; their encoding is the decoder's inverse and not modelled.
    The gas meter is not modelled. *)

From stdpp Require Import base list strings.
From Stdlib Require Import ZArith Lia.
From S2P Require Import Prelude Ledger.
Open Scope Z_scope.
Open Scope go_scope.

(** Values of the Go types an ABI argument or result can have here. *)
Inductive abi_value :=
| AAddress (a : bytes)
| ABig (n : Z)
| AUint64 (n : Z)
| AUint32 (n : Z)
| AInt16 (n : Z)
| AUint16 (n : Z)
| ABool (b : bool)
| ABytes (b : bytes)
| ABytes32 (b : bytes)
| AString (s : string)
| AList (l : list abi_value)
| ATuple (l : list abi_value).

(** [abi.Method]: its name and whether its type is [abi.Function] (as opposed to
    a fallback or receive method). *)
Record Method := mkMethod { Name : string; IsFunction : bool }.

(** [vm.Contract]: the immediate caller, the value and the call data. *)
Record Contract := mkContract {
  CallerAddress : bytes;
  Value : option Z;
  Input : bytes
}.

(** [abi.ABI] *)
Record ABI := mkABI {
  MethodById : bytes -> option Method;
  Unpack : Method -> bytes -> option (list abi_value);
  Receive : option Method;
  Fallback : option Method
}.

Inductive perror (E : Type) :=
| ErrExecutionReverted
| ErrNoMethod
| ErrWriteProtection
| ErrUnpack
| ErrArgCount
| ErrArgType
| ErrArgRange
| ErrUnknownMethod
| ErrKeeper (e : E).
Arguments ErrExecutionReverted {E}.
Arguments ErrNoMethod {E}.
Arguments ErrWriteProtection {E}.
Arguments ErrUnpack {E}.
Arguments ErrArgCount {E}.
Arguments ErrArgType {E}.
Arguments ErrArgRange {E}.
Arguments ErrUnknownMethod {E}.
Arguments ErrKeeper {E} e.

(** What an ABI decoder delivers for the argument types the contracts declare:
    addresses of twenty bytes and integers of their width. *)
Definition typed_value (v : abi_value) : Prop :=
  match v with
  | AAddress a => length a = 20%nat
  | AUint64 n => 0 <= n < 2 ^ 64
  | ABig n => 0 <= n < 2 ^ 256
  | _ => True
  end.

Definition typed_abi (abi : ABI) : Prop :=
  forall m data args, Unpack abi m data = Some args -> Forall typed_value args.

Section Setup.
Context {E : Type} (abi : ABI).

Definition emptyCallData (c : Contract) : result (perror E) Method :=
  match Receive abi, Fallback abi with
  | Some r, f =>
    if 0 <? default 0 (Value c) then Ok r
    else match f with Some m => Ok m | None => Err ErrExecutionReverted end
  | None, Some m => Ok m
  | None, None => Err ErrExecutionReverted
  end.

Definition methodIDCallData : result (perror E) Method :=
  match Fallback abi with
  | None => Err ErrExecutionReverted
  | Some m => Ok m
  end.

Definition standardCallData (c : Contract) : result (perror E) Method :=
  match MethodById abi (take 4 (Input c)), Fallback abi with
  | Some m, _ => Ok m
  | None, None => Err ErrNoMethod
  | None, Some m => Ok m
  end.

(** The method and its decoded arguments, or the error the call ends with before
    any handler runs. *)
Definition RunSetup (c : Contract) (readOnly : bool) (isTransaction : string -> bool) :
    result (perror E) (Method * list abi_value) :=
  let method :=
    if Nat.eqb (length (Input c)) 0 then emptyCallData c
    else if Nat.ltb (length (Input c)) 4 then methodIDCallData
    else standardCallData c in
  match method with
  | Err e => Err e
  | Panic => Panic
  | Ok m =>
    if readOnly && isTransaction (Name m) then Err ErrWriteProtection
    else if IsFunction m then
      match Unpack abi m (drop 4 (Input c)) with
      | None => Err ErrUnpack
      | Some args => Ok (m, args)
      end
    else Ok (m, [])
  end.

(** A keeper operation called from a handler: its error is returned as is. *)
Definition from_keeper {S A} (c : M S E A) : M S (perror E) A :=
  fun s => match c s with
           | (s', Ok a) => (s', Ok a)
           | (s', Err e) => (s', Err (ErrKeeper e))
           | (s', Panic) => (s', Panic)
           end.

(** [len(args) == 1], a [*big.Int], in the range of [uint64]. *)
Definition decode_uint64_id {S} (args : list abi_value) : M S (perror E) Z :=
  match args with
  | [v] =>
    match v with
    | ABig n => if is_u64 n then ret n else fail ErrArgRange
    | _ => fail ErrArgType
    end
  | _ => fail ErrArgCount
  end.
End Setup.

(** * Lemmas *)

(** A setup that succeeds under a read-only call found a method that does not
    write. *)
Lemma RunSetup_readonly {E} abi c isTransaction m args :
  RunSetup (E:=E) abi c true isTransaction = Ok (m, args) -> isTransaction (Name m) = false.
Proof.
  unfold RunSetup. intros H. destruct (if Nat.eqb _ _ then _ else _) as [m'|e|]; [|done..].
  simpl in H. destruct (isTransaction (Name m')) eqn:Ht; [done|].
  destruct (IsFunction m'); [|by injection H as <- _].
  destruct (Unpack _ _ _); [|done]. by injection H as <- _.
Qed.

Lemma from_keeper_ok {S E A} (c : M S E A) s s' a :
  from_keeper c s = (s', Ok a) -> c s = (s', Ok a).
Proof. unfold from_keeper. destruct (c s) as [s1 [a1|e|]]; naive_solver. Qed.

Lemma from_keeper_err {S E A} (c : M S E A) s s' e :
  from_keeper c s = (s', Err e) -> exists e', e = ErrKeeper e' /\ c s = (s', Err e').
Proof. unfold from_keeper. destruct (c s) as [s1 [a1|e1|]]; naive_solver. Qed.

Lemma decode_uint64_id_ok {S E} args (s s' : S) n :
  decode_uint64_id (E:=E) args s = (s', Ok n) -> s' = s /\ args = [ABig n] /\ 0 <= n < 2 ^ 64.
Proof.
  unfold decode_uint64_id. destruct args as [|v [|]]; [done| |by destruct v].
  destruct v; try done. destruct (is_u64 n0) eqn:Hu; [|done].
  intros [= <- <-]. apply is_u64_true in Hu. done.
Qed.

Lemma RunSetup_typed {E} abi c ro tx m args :
  typed_abi abi -> RunSetup (E:=E) abi c ro tx = Ok (m, args) ->
  Forall typed_value args.
Proof.
  intros Ht. unfold RunSetup. destruct (if Nat.eqb _ _ then _ else _) as [m'|e|]; [|done..].
  destruct (_ && _); [done|]. destruct (IsFunction m'); [|by intros [= <- <-]].
  destruct (Unpack abi m' _) eqn:Hu; [|done]. intros [= <- <-]. by eapply Ht.
Qed.
