(* ===== verification/Streams.v ===== *)
(** [x/streams]: rate-based payment streams with escrow at open.

    Data and keys ([types/types.go], [types/keys.go], [types/params.go],
    [types/genesis.go]), the store operations ([keeper/stream.go],
    [keeper/params.go], [keeper/genesis.go]), escrow and payout
    ([keeper/escrow.go]) and the four operations [Open], [Settle], [Close] and
    [UpdateRate] ([keeper/settle_impl.go]).  ERC-20 tokens are reached through
    [CallEVM] of [x/erc20/keeper/evm.go]; the EVM that runs the contract is a
    parameter. *)

From stdpp Require Import base list gmap strings sorting.
From Stdlib Require Import ZArith Lia.
From S2P Require Import Prelude KVStore IndexedStore BigInt Ledger.
Open Scope Z_scope.
Open Scope go_scope.

(** * Data *)

Record Stream := mkStream {
  ID : Z;
  Payer : bytes;
  Payee : bytes;
  Token : bytes;
  RatePerSecond : string;
  Cap : string;
  StartTime : Z;
  StopTime : Z;
  Settled : string;
  Active : bool
}.

Definition with_Settled (v : string) (s : Stream) : Stream :=
  mkStream (ID s) (Payer s) (Payee s) (Token s) (RatePerSecond s) (Cap s)
    (StartTime s) (StopTime s) v (Active s).

(** [s.RatePerSecond = r; s.StartTime = t] *)
Definition with_Rate (r : string) (t : Z) (s : Stream) : Stream :=
  mkStream (ID s) (Payer s) (Payee s) (Token s) r (Cap s)
    t (StopTime s) (Settled s) (Active s).

Record Params := mkParams {
  GasOpen : Z;
  GasSettle : Z;
  GasClose : Z;
  GasUpdateRate : Z;
  GasView : Z;
  MinDuration : Z;
  MaxStreamsPerPayer : Z
}.

Definition DefaultParams : Params := mkParams 8000 4000 5000 4000 200 60 4096.

(** [Params.Validate]: [true] when it returns [nil]. *)
Definition Params_Validate (p : Params) : bool :=
  negb (GasOpen p =? 0) && negb (GasSettle p =? 0) && negb (GasClose p =? 0)
  && negb (GasUpdateRate p =? 0) && negb (MinDuration p =? 0)
  && negb (MaxStreamsPerPayer p =? 0).

Inductive error :=
| ErrStreamNotFound
| ErrUnauthorized
| ErrInvalidPayee
| ErrInvalidRate
| ErrInvalidCap
| ErrInvalidTime
| ErrStreamInactive
| ErrInsufficientEscrow
| ErrMaxStreamsExceeded
| ErrSelfPayment
| ErrInvalidParams
| ErrExternal (code : Z).

(** The events of [settle_impl.go], with their attributes. *)
Inductive event :=
| StreamOpened (id : Z) (payer payee token : bytes) (rate : string)
               (startTime stopTime : Z) (cap : string)
| StreamSettled (id : Z) (payee : bytes) (paid committed : string)
| StreamClosed (id : Z) (final_paid refund : string)
| StreamRateUpdated (id : Z) (old_rate new_rate : string).

(** * Store keys *)

Definition StreamByIDKeyPrefix : bytes := [1].
Definition PayerStreamPrefix : bytes := [2].
Definition PayeeStreamPrefix : bytes := [3].
Definition ParamsKey : bytes := [4].
Definition NextStreamIDKey : bytes := [5].

Definition StreamByIDKey (streamID : Z) : bytes := StreamByIDKeyPrefix ++ be8 streamID.

Definition PayerStreamsPrefix (payer : bytes) : bytes := PayerStreamPrefix ++ payer.

Definition PayerStreamKey (payer : bytes) (streamID : Z) : bytes :=
  PayerStreamPrefix ++ payer ++ be8 streamID.

Definition PayeeStreamsPrefix (payee : bytes) : bytes := PayeeStreamPrefix ++ payee.

Definition PayeeStreamKey (payee : bytes) (streamID : Z) : bytes :=
  PayeeStreamPrefix ++ payee ++ be8 streamID.

(** A stored value: the JSON of a stream, the JSON of the parameters, or raw
    bytes (index markers and the id counter). *)
Inductive val :=
| VStream (s : Stream)
| VParams (p : Params)
| VRaw (bz : bytes).

Abbreviation kv := (gmap bytes val).

(** * Pure helpers *)

(** [parseAmount] *)
Definition parseAmount (s : string) : Z := parseNonNeg s.

(** [streamAccrued]: what the payee may withdraw at time [now]. *)
Definition streamAccrued (s : Stream) (now : Z) : Z :=
  let rate := parseAmount (RatePerSecond s) in
  let cap := parseAmount (Cap s) in
  let settled := parseAmount (Settled s) in
  let eff := if negb (StopTime s =? 0) && (StopTime s <? now) then StopTime s else now in
  if eff <=? StartTime s then 0
  else
    let elapsed := u64 (eff - StartTime s) in
    let earned := rate * elapsed in
    let earned := if cap <? earned then cap else earned in
    let out := earned - settled in
    if out <? 0 then 0 else out.

(** [isNativeToken]: all bytes are zero. *)
Definition isNativeToken (token : bytes) : bool := forallb (fun b => b =? 0) token.

(** [equalAddress]: lengths first, then the or of the xors of the bytes. *)
Definition equalAddress (a b : bytes) : bool :=
  if negb (Nat.eqb (length a) (length b)) then false
  else foldl (fun diff xy => Z.lor diff (Z.lxor xy.1 xy.2)) 0 (zip a b) =? 0.

(** * The world: this module's store, the rest of the chain, the event log *)

Abbreviation world := (Ledger.world val event).

(** The calls of [erc20TransferABI]. *)
Inductive erc20_call :=
| TransferFrom (from to : bytes) (amount : Z)
| Transfer (to : bytes) (amount : Z).

(** The message that [CallEVMWithData] builds. *)
Record evm_message := mkMessage {
  m_from : bytes; m_to : bytes; m_nonce : Z; m_gas : Z; m_data : bytes; m_fake : bool }.

(** The ABI encoder, the sequence of an account, and the EVM.  The callee is
    arbitrary contract code: it may change any part of the world, this module's store
    included, because it can call the streams precompile.  The response of
    [ApplyMessage] is its error string, empty when the execution succeeded. *)
Record Evm (X : Type) := mkEvm {
  Pack : erc20_call -> option bytes;
  GetSequence : X -> bytes -> result Z Z;
  EstimateGasInternal : Ctx -> world X -> bytes -> bytes -> bytes -> result Z Z;
  ApplyMessage : Ctx -> evm_message -> bool -> M (world X) Z string
}.
Arguments mkEvm {X}.
Arguments Pack {X}.
Arguments GetSequence {X}.
Arguments EstimateGasInternal {X}.
Arguments ApplyMessage {X}.

Definition DefaultGasCap : Z := 25000000.
Definition ErrABIPack : Z := 9.
Definition ErrVMExecution : Z := 10.

Section Keeper.
Context {X : Type} {BK : BankKeeper X} {EC : EthCommon}.
Variable evm : Evm X.

Abbreviation St := (M (world X) error).

(** ** [x/erc20/keeper/evm.go] *)

Definition CallEVMWithData (ctx : Ctx) (from contract data : bytes) (commit : bool) : M (world X) Z string :=
  let! w := gets id in
  match GetSequence evm (ext w) from with
  | Err e => fail e
  | Panic => panic
  | Ok nonce =>
    match (if commit then EstimateGasInternal evm ctx w from contract data else Ok DefaultGasCap) with
    | Err e => fail e
    | Panic => panic
    | Ok gasCap =>
      let! res := ApplyMessage evm ctx (mkMessage from contract nonce gasCap data (negb commit)) commit in
      guard (bool_decide (res = ""%string)) ErrVMExecution ;;
      ret res
    end
  end.

Definition CallEVM (ctx : Ctx) (from contract : bytes) (commit : bool) (c : erc20_call) : M (world X) Z string :=
  match Pack evm c with
  | None => fail ErrABIPack
  | Some data => CallEVMWithData ctx from contract data commit
  end.

Definition lift_err {A} (c : M (world X) Z A) : St A :=
  fun w => match c w with
           | (w', Ok a) => (w', Ok a)
           | (w', Err e) => (w', Err (ErrExternal e))
           | (w', Panic) => (w', Panic)
           end.

Abbreviation run_bank := (run_ext ErrExternal).

(** [sdkmath.NewIntFromBigInt] panics on more than 256 bits. *)
Definition NewIntFromBigInt (n : Z) : St Z := if Z.abs n <? 2 ^ 256 then ret n else panic.

(** ** [keeper/params.go] *)

Definition GetParams (st : kv) : Params :=
  match st !! ParamsKey with
  | Some (VParams p) => p
  | _ => DefaultParams
  end.

Definition SetParams (p : Params) : St unit :=
  if negb (Params_Validate p) then fail ErrInvalidParams
  else update_store (fun st => <[ParamsKey := VParams p]> st).

(** ** [keeper/stream.go] *)

Definition SetStream_store (s : Stream) (st : kv) : kv :=
  <[PayeeStreamKey (Payee s) (ID s) := VRaw [1]]>
    (<[PayerStreamKey (Payer s) (ID s) := VRaw [1]]>
      (<[StreamByIDKey (ID s) := VStream s]> st)).

Definition SetStream (s : Stream) : St unit := update_store (SetStream_store s).

Definition GetStream (st : kv) (streamID : Z) : option Stream :=
  match st !! StreamByIDKey streamID with
  | Some (VStream s) => Some s
  | _ => None
  end.

Definition DeleteStream_store (s : Stream) (st : kv) : kv :=
  delete (PayeeStreamKey (Payee s) (ID s))
    (delete (PayerStreamKey (Payer s) (ID s))
      (delete (StreamByIDKey (ID s)) st)).

Definition DeleteStream (s : Stream) : St unit := update_store (DeleteStream_store s).

Definition streamIDsByPrefix (st : kv) (prefix : bytes) (prefixLen : nat) : list Z :=
  omap (key_id prefixLen) (prefix_iter prefix st).

Definition PayerStreamIDs (st : kv) (payer : bytes) : list Z :=
  streamIDsByPrefix st (PayerStreamsPrefix payer) (1 + length payer).

Definition PayeeStreamIDs (st : kv) (payee : bytes) : list Z :=
  streamIDsByPrefix st (PayeeStreamsPrefix payee) (1 + length payee).

Definition CountStreamsByPayer (st : kv) (payer : bytes) : Z :=
  u32 (Z.of_nat (length (prefix_iter (PayerStreamsPrefix payer) st))).

(** [binary.BigEndian.Uint64] on a stored value; a slice of fewer than eight
    bytes is an index-out-of-range panic. *)
Definition read_u64 (v : val) : St Z :=
  match v with
  | VRaw bz => if Nat.ltb (length bz) 8 then panic else ret (be_decode (take 8 bz))
  | _ => panic
  end.

Definition SetNextStreamID (next : Z) : St unit :=
  update_store (fun st => <[NextStreamIDKey := VRaw (be8 next)]> st).

Definition NextStreamID : St Z :=
  let! st := gets store in
  let! next :=
    match st !! NextStreamIDKey with
    | None => ret 1
    | Some v => let! n := read_u64 v in ret (if n =? 0 then 1 else n)
    end in
  SetNextStreamID (u64 (next + 1)) ;;
  ret next.

Definition GetNextStreamID : St Z :=
  let! st := gets store in
  match st !! NextStreamIDKey with
  | None => ret 1
  | Some v => read_u64 v
  end.

Definition GetAllStreams (st : kv) : list Stream :=
  omap (fun e : bytes * val => match e.2 with VStream s => Some s | _ => None end)
       (prefix_iter StreamByIDKeyPrefix st).

(** ** [keeper/escrow.go] *)

Definition ModuleAccountName : string := "streams".

Definition ModuleAccountAddress : bytes := GetModuleAddress ModuleAccountName.

Definition escrowFromPayer (ctx : Ctx) (payer token : bytes) (amount : option Z) : St unit :=
  match amount with
  | None => ret tt
  | Some n =>
    if n <=? 0 then ret tt
    else if isNativeToken token then
      let! n := NewIntFromBigInt n in
      run_bank (fun x =>
        SendCoinsFromAccountToModule x payer ModuleAccountName (DefaultEVMDenom, n))
    else
      let moduleAddr := BytesToAddress ModuleAccountAddress in
      let tokenAddr := BytesToAddress token in
      let! _ := lift_err (CallEVM ctx moduleAddr tokenAddr true (TransferFrom payer moduleAddr n)) in
      ret tt
  end.

Definition payOutToPayee (ctx : Ctx) (payee token : bytes) (amount : option Z) : St unit :=
  match amount with
  | None => ret tt
  | Some n =>
    if n <=? 0 then ret tt
    else if isNativeToken token then
      let! n := NewIntFromBigInt n in
      run_bank (fun x =>
        SendCoinsFromModuleToAccount x ModuleAccountName payee (DefaultEVMDenom, n))
    else
      let moduleAddr := BytesToAddress ModuleAccountAddress in
      let tokenAddr := BytesToAddress token in
      let! _ := lift_err (CallEVM ctx moduleAddr tokenAddr true (Transfer payee n)) in
      ret tt
  end.

Definition refundToPayer (ctx : Ctx) (payer token : bytes) (amount : option Z) : St unit :=
  payOutToPayee ctx payer token amount.

(** ** [keeper/settle_impl.go] *)

(** [x == nil || x.Sign() <= 0 { return err }] *)
Definition require_positive (x : option Z) (e : error) : St Z :=
  match x with
  | None => fail e
  | Some n => if n <=? 0 then fail e else ret n
  end.

Definition Open (ctx : Ctx) (payer payee token : bytes) (ratePerSecond : option Z)
    (startTime stopTime : Z) (cap : option Z) : St Z :=
  guard (negb (bool_decide (payee = zero_address))) ErrInvalidPayee ;;
  guard (negb (bool_decide (payer = payee))) ErrSelfPayment ;;
  let! rate := require_positive ratePerSecond ErrInvalidRate in
  let! cap := require_positive cap ErrInvalidCap in
  let now := u64 (BlockTime ctx) in
  let startTime := if startTime =? 0 then now else startTime in
  let! params := gets (fun w => GetParams (store w)) in
  guard (negb (negb (stopTime =? 0) && (stopTime <? u64 (startTime + MinDuration params))))
        ErrInvalidTime ;;
  let! count := gets (fun w => CountStreamsByPayer (store w) payer) in
  guard (negb (MaxStreamsPerPayer params <=? count)) ErrMaxStreamsExceeded ;;
  escrowFromPayer ctx payer token (Some cap) ;;
  let! streamID := NextStreamID in
  SetStream {|
    ID := streamID; Payer := payer; Payee := payee; Token := token;
    RatePerSecond := BigString rate; Cap := BigString cap;
    StartTime := startTime; StopTime := stopTime;
    Settled := "0"; Active := true |} ;;
  EmitEvent (StreamOpened streamID payer payee token (BigString rate)
               startTime stopTime (BigString cap)) ;;
  ret streamID.

(** The lookup and the [Active] check the other operations start with. *)
Definition get_active (streamID : Z) : St Stream :=
  let! st := gets store in
  match GetStream st streamID with
  | None => fail ErrStreamNotFound
  | Some s => if negb (Active s) then fail ErrStreamInactive else ret s
  end.

Definition Settle (ctx : Ctx) (streamID : Z) : St Z :=
  let! s := get_active streamID in
  let now := u64 (BlockTime ctx) in
  let payout := streamAccrued s now in
  if payout =? 0 then ret 0
  else
    let payee := BytesToAddress (Payee s) in
    payOutToPayee ctx payee (Token s) (Some payout) ;;
    let settled := parseAmount (Settled s) + payout in
    SetStream (with_Settled (BigString settled) s) ;;
    EmitEvent (StreamSettled streamID payee (BigString payout) (BigString payout)) ;;
    ret payout.

Definition Close (ctx : Ctx) (streamID : Z) (caller : bytes) : St Z :=
  let! s := get_active streamID in
  guard (equalAddress caller (Payer s) || equalAddress caller (Payee s)) ErrUnauthorized ;;
  let now := u64 (BlockTime ctx) in
  let payout := streamAccrued s now in
  let payer := BytesToAddress (Payer s) in
  let payee := BytesToAddress (Payee s) in
  let! s :=
    (if 0 <? payout then
       payOutToPayee ctx payee (Token s) (Some payout) ;;
       ret (with_Settled (BigString (parseAmount (Settled s) + payout)) s)
     else ret s) in
  let refund := parseAmount (Cap s) - parseAmount (Settled s) in
  let refund := if refund <? 0 then 0 else refund in
  (if 0 <? refund then refundToPayer ctx payer (Token s) (Some refund) else ret tt) ;;
  DeleteStream s ;;
  EmitEvent (StreamClosed streamID (BigString payout) (BigString refund)) ;;
  ret payout.

Definition UpdateRate (ctx : Ctx) (streamID : Z) (caller : bytes) (newRate : option Z) : St unit :=
  let! s := get_active streamID in
  guard (equalAddress caller (Payer s)) ErrUnauthorized ;;
  let! rate := require_positive newRate ErrInvalidRate in
  let now := u64 (BlockTime ctx) in
  let payout := streamAccrued s now in
  let! s :=
    (if 0 <? payout then
       payOutToPayee ctx (BytesToAddress (Payee s)) (Token s) (Some payout) ;;
       ret (with_Settled (BigString (parseAmount (Settled s) + payout)) s)
     else ret s) in
  let oldRate := RatePerSecond s in
  SetStream (with_Rate (BigString rate) now s) ;;
  EmitEvent (StreamRateUpdated streamID oldRate (BigString rate)).

(** ** [keeper/genesis.go] and [types/genesis.go] *)

Record GenesisState := mkGenesis {
  gs_Params : Params;
  gs_NextStreamID : Z;
  gs_Streams : list Stream
}.

Definition DefaultGenesisState : GenesisState := mkGenesis DefaultParams 1 [].

(** The loop of [GenesisState.Validate] over the streams, with its [seen] set. *)
Fixpoint validate_streams (next : Z) (seen : gset Z) (ss : list Stream) : bool :=
  match ss with
  | [] => true
  | s :: ss' =>
    if ID s =? 0 then false
    else if bool_decide (ID s ∈ seen) then false
    else if next <=? ID s then false
    else validate_streams next ({[ID s]} ∪ seen) ss'
  end.

Definition GenesisState_Validate (gs : GenesisState) : bool :=
  Params_Validate (gs_Params gs)
  && validate_streams (gs_NextStreamID gs) ∅ (gs_Streams gs).

Fixpoint set_streams (ss : list Stream) : St unit :=
  match ss with
  | [] => ret tt
  | s :: ss' => SetStream s ;; set_streams ss'
  end.

(** [InitGenesis] panics where a setter returns an error. *)
Definition InitGenesis (gs : GenesisState) : St unit :=
  fun w =>
    match SetParams (gs_Params gs) w with
    | (w', Ok _) => (SetNextStreamID (gs_NextStreamID gs) ;; set_streams (gs_Streams gs)) w'
    | (w', _) => (w', Panic)
    end.

Definition ExportGenesis : St GenesisState :=
  let! st := gets store in
  let! next := GetNextStreamID in
  ret (mkGenesis (GetParams st) next (GetAllStreams st)).

End Keeper.

Arguments payOutToPayee : simpl never.
Arguments refundToPayer : simpl never.
Arguments escrowFromPayer : simpl never.
Arguments streamAccrued : simpl never.

(** * Abstract view of the store

    The streams by id, the next id and the parameters.  A store [refines] an
    abstract state when its entries are exactly the ones the abstract state
    prescribes: one record and one entry in each index per stream, the counter
    and the parameters, and nothing else. *)

Record abs := mkAbs {
  a_streams : gmap Z Stream;
  a_next : Z;
  a_params : Params
}.

Inductive entry (a : abs) : bytes -> val -> Prop :=
| entry_stream id s :
    a_streams a !! id = Some s -> entry a (StreamByIDKey id) (VStream s)
| entry_payer id s :
    a_streams a !! id = Some s -> entry a (PayerStreamKey (Payer s) id) (VRaw [1])
| entry_payee id s :
    a_streams a !! id = Some s -> entry a (PayeeStreamKey (Payee s) id) (VRaw [1])
| entry_params : entry a ParamsKey (VParams (a_params a))
| entry_next : entry a NextStreamIDKey (VRaw (be8 (a_next a))).

Definition refines (st : kv) (a : abs) : Prop :=
  forall k v, st !! k = Some v <-> entry a k v.

(** The same entries, per stream and fixed, as [IndexedStore.v] takes them. *)
Definition stream_entries (id : Z) (s : Stream) : list (bytes * val) :=
  [(StreamByIDKey id, VStream s); (PayerStreamKey (Payer s) id, VRaw [1]);
   (PayeeStreamKey (Payee s) id, VRaw [1])].

Definition fixed_entries (next : Z) (p : Params) : list (bytes * val) :=
  [(ParamsKey, VParams p); (NextStreamIDKey, VRaw (be8 next))].

(** A stored stream: twenty-byte addresses, canonical non-negative amounts that
    never exceed the cap, and machine-width times. *)
Record wf_stream (s : Stream) : Prop := {
  wf_payer : length (Payer s) = 20%nat;
  wf_payee : length (Payee s) = 20%nat;
  wf_token : length (Token s) = 20%nat;
  wf_rate : exists r, 0 < r /\ RatePerSecond s = BigString r;
  wf_amounts : exists c n, 0 < c /\ 0 <= n <= c /\
                 Cap s = BigString c /\ Settled s = BigString n;
  wf_start : 0 <= StartTime s < 2 ^ 64;
  wf_stop : 0 <= StopTime s < 2 ^ 64;
  wf_active : Active s = true
}.

(** The cap of a native stream went through [NewIntFromBigInt]. *)
Definition native_fits (s : Stream) : Prop := isNativeToken (Token s) = true -> parseAmount (Cap s) < 2 ^ 256.

Record wf_abs (a : abs) : Prop := {
  wf_ids : forall id s, a_streams a !! id = Some s -> ID s = id /\ 0 < id < a_next a;
  wf_streams : forall id s, a_streams a !! id = Some s -> wf_stream s;
  wf_native : forall id s, a_streams a !! id = Some s -> native_fits s;
  wf_next : 0 < a_next a < 2 ^ 64;
  wf_params : Params_Validate (a_params a) = true
}.

Definition insert_stream (s : Stream) (a : abs) : abs :=
  mkAbs (<[ID s := s]> (a_streams a)) (a_next a) (a_params a).

Definition remove_stream (id : Z) (a : abs) : abs :=
  mkAbs (delete id (a_streams a)) (a_next a) (a_params a).

(** What is left in escrow for one stream. *)
Definition remaining (s : Stream) : Z := parseAmount (Cap s) - parseAmount (Settled s).

(** What is owed, in token [t], over all streams. *)
Definition outstanding (a : abs) (t : bytes) : Z :=
  sumZ (fun e : Z * Stream => if decide (Token e.2 = t) then remaining e.2 else 0)
       (map_to_list (a_streams a)).

(** * Lemmas on keys and helpers *)

Lemma StreamByIDKey_inj i j :
  0 <= i < 2 ^ 64 -> 0 <= j < 2 ^ 64 -> StreamByIDKey i = StreamByIDKey j -> i = j.
Proof. intros Hi Hj H. apply app_inv_head in H. by apply be8_inj. Qed.

Lemma indexed_key_inj (p q : bytes) i j :
  length p = 20%nat -> length q = 20%nat -> 0 <= i < 2 ^ 64 -> 0 <= j < 2 ^ 64 ->
  p ++ be8 i = q ++ be8 j -> p = q /\ i = j.
Proof.
  intros Hp Hq Hi Hj H. apply app_inj_1 in H as [-> H]; [|lia].
  split; [done|]. by apply be8_inj.
Qed.

Lemma PayerStreamKey_inj p q i j :
  length p = 20%nat -> length q = 20%nat -> 0 <= i < 2 ^ 64 -> 0 <= j < 2 ^ 64 ->
  PayerStreamKey p i = PayerStreamKey q j -> p = q /\ i = j.
Proof. intros ???? H. apply app_inv_head in H. by apply indexed_key_inj. Qed.

Lemma PayeeStreamKey_inj p q i j :
  length p = 20%nat -> length q = 20%nat -> 0 <= i < 2 ^ 64 -> 0 <= j < 2 ^ 64 ->
  PayeeStreamKey p i = PayeeStreamKey q j -> p = q /\ i = j.
Proof. intros ???? H. apply app_inv_head in H. by apply indexed_key_inj. Qed.

(** The constant-time comparison is equality of byte strings. *)
Lemma equalAddress_spec a b : equalAddress a b = bool_decide (a = b).
Proof. apply xor_compare_spec. Qed.

Lemma isNativeToken_spec t :
  length t = 20%nat -> isNativeToken t = bool_decide (t = zero_address).
Proof.
  intros Hl. apply eq_bool_prop_intro. rewrite bool_decide_spec.
  unfold isNativeToken. rewrite Is_true_true, forallb_forall. split.
  - intros H. unfold zero_address. rewrite <- Hl. clear Hl.
    induction t as [|b t IH]; simpl; [done|]. f_equal.
    + apply Z.eqb_eq, H. by left.
    + apply IH. intros x Hx. apply H. by right.
  - intros -> x Hx. apply Z.eqb_eq. apply list_elem_of_In, elem_of_replicate in Hx. naive_solver.
Qed.

(** * The store operations refine the abstract ones *)

Lemma refines_indexed st a :
  refines st a <->
  indexed stream_entries st (a_streams a) (fixed_entries (a_next a) (a_params a)).
Proof.
  assert (forall k v, entry a k v <->
    (exists id s, a_streams a !! id = Some s /\ (k, v) ∈ stream_entries id s) \/
    (k, v) ∈ fixed_entries (a_next a) (a_params a)) as He.
  { intros k v. unfold stream_entries, fixed_entries. setoid_rewrite elem_of_cons.
    setoid_rewrite elem_of_cons. setoid_rewrite elem_of_cons. setoid_rewrite elem_of_nil. split.
    - intros [id s H|id s H|id s H| |]; [left; exists id, s; naive_solver..|right; by left|
        right; right; by left].
    - intros [(id & s & H & [[= -> ->]|[[= -> ->]|[[= -> ->]|[]]]])|[[= -> ->]|[[= -> ->]|[]]]];
        [by constructor..|apply entry_params|apply entry_next]. }
  unfold refines, indexed. by setoid_rewrite He.
Qed.

Lemma streams_separated (m : gmap Z Stream) next p :
  (forall id s, m !! id = Some s ->
     0 <= id < 2 ^ 64 /\ length (Payer s) = 20%nat /\ length (Payee s) = 20%nat) ->
  separated stream_entries m (fixed_entries next p).
Proof.
  intros Hm. split.
  - intros id s H. repeat constructor; simpl; rewrite ?elem_of_cons, ?elem_of_nil; naive_solver.
  - intros id s id' s' H H' Hne k. unfold keys_of; simpl.
    destruct (Hm _ _ H) as (Hid & Hpr & Hpe), (Hm _ _ H') as (Hid' & Hpr' & Hpe').
    rewrite !elem_of_cons, !elem_of_nil.
    intros [->|[->|[->|[]]]] [He|[He|[He|[]]]]; try discriminate He.
    + by apply StreamByIDKey_inj in He.
    + by apply PayerStreamKey_inj in He as [_ He].
    + by apply PayeeStreamKey_inj in He as [_ He].
  - intros id s H k. unfold keys_of; simpl. rewrite !elem_of_cons, !elem_of_nil.
    intros [->|[->|[->|[]]]] [He|[He|[]]]; discriminate He.
Qed.

Section Refinement.
Context (st : kv) (a : abs) (Hr : refines st a) (Hwf : wf_abs a).

Lemma wf_id_range id s : a_streams a !! id = Some s -> 0 <= id < 2 ^ 64.
Proof. intros H. pose proof (wf_ids a Hwf id s H). pose proof (wf_next a Hwf). lia. Qed.

Lemma refines_GetStream id :
  0 <= id < 2 ^ 64 -> GetStream st id = a_streams a !! id.
Proof.
  intros Hid. unfold GetStream.
  destruct (a_streams a !! id) as [s|] eqn:Hs.
  - apply entry_stream, Hr in Hs. by rewrite Hs.
  - destruct (st !! StreamByIDKey id) as [v|] eqn:Hk; [|done].
    apply Hr in Hk. remember (StreamByIDKey id) as k eqn:He.
    destruct Hk as [id' s' Hs'| | | |]; try done.
    apply StreamByIDKey_inj in He; [|by eauto using wf_id_range..]. congruence.
Qed.

Lemma refines_GetParams : GetParams st = a_params a.
Proof. unfold GetParams. pose proof (proj2 (Hr _ _) (entry_params a)) as ->. done. Qed.

Lemma refines_next : st !! NextStreamIDKey = Some (VRaw (be8 (a_next a))).
Proof. apply Hr, entry_next. Qed.

(** Writing a stream, new or with the addresses it already has. *)
Lemma refines_SetStream s :
  0 <= ID s < 2 ^ 64 -> length (Payer s) = 20%nat -> length (Payee s) = 20%nat ->
  (forall s', a_streams a !! ID s = Some s' -> Payer s' = Payer s /\ Payee s' = Payee s) ->
  refines (SetStream_store s st) (insert_stream s a).
Proof.
  intros Hid Hpr Hpe Hsame. apply refines_indexed.
  apply (indexed_put stream_entries st (a_streams a) _ (ID s) s).
  - by apply (proj1 (refines_indexed st a)).
  - apply streams_separated; simpl.
    intros id s' H. apply lookup_insert_Some in H as [[<- <-]|[_ H]]; [done|].
    pose proof (wf_streams a Hwf _ _ H) as []. eauto using wf_id_range.
  - intros s' H. destruct (Hsame s' H) as [E1 E2]. unfold keys_of; simpl. by rewrite E1, E2.
Qed.

Lemma refines_DeleteStream id s :
  a_streams a !! id = Some s ->
  refines (DeleteStream_store s st) (remove_stream id a).
Proof.
  intros Hs. destruct (wf_ids a Hwf _ _ Hs) as [<- _]. apply refines_indexed.
  apply (indexed_delete stream_entries st (a_streams a) _ (ID s) s); [by apply (proj1 (refines_indexed st a))| |done].
  apply streams_separated. intros id' s' H.
  pose proof (wf_streams a Hwf _ _ H) as []. eauto using wf_id_range.
Qed.

(** Deleting a stream that is not there. *)
Lemma refines_DeleteStream_gone s :
  a_streams a !! ID s = None -> 0 <= ID s < 2 ^ 64 -> length (Payer s) = 20%nat -> length (Payee s) = 20%nat ->
  refines (DeleteStream_store s st) a.
Proof.
  intros Hs Hid Hpr Hpe.
  assert (forall k, k ∈ [StreamByIDKey (ID s); PayerStreamKey (Payer s) (ID s); PayeeStreamKey (Payee s) (ID s)] -> st !! k = None) as Hno.
  { intros k Hk. destruct (st !! k) as [v|] eqn:E; [|done]. apply Hr in E. rewrite !elem_of_cons, elem_of_nil in Hk. exfalso.
    destruct E as [id s0 H|id s0 H|id s0 H| |]; destruct Hk as [Hk|[Hk|[Hk|[]]]]; try discriminate Hk;
      pose proof (wf_streams a Hwf _ _ H) as []; pose proof (wf_id_range _ _ H).
    - apply StreamByIDKey_inj in Hk; [congruence|done..].
    - apply PayerStreamKey_inj in Hk as [_ Hk]; [congruence|done..].
    - apply PayeeStreamKey_inj in Hk as [_ Hk]; [congruence|done..]. }
  unfold DeleteStream_store. rewrite !delete_id; [done|..]; rewrite ?lookup_delete_ne by done; apply Hno; set_solver.
Qed.

Lemma refines_SetNext n :
  refines (<[NextStreamIDKey := VRaw (be8 n)]> st) (mkAbs (a_streams a) n (a_params a)).
Proof.
  apply refines_indexed.
  apply (indexed_fixed stream_entries st (a_streams a) (fixed_entries (a_next a) (a_params a)));
    [by apply (proj1 (refines_indexed st a))| | |].
  - apply streams_separated. intros id' s' H.
    pose proof (wf_streams a Hwf _ _ H) as []. eauto using wf_id_range.
  - unfold fixed_entries; simpl. set_solver.
  - intros k v. unfold fixed_entries. simpl. rewrite !elem_of_cons, !elem_of_nil.
    split; [intros [[= -> ->]|[[= -> ->]|[]]]|intros [[-> ->]|[Hne [[= -> ->]|[[= -> ->]|[]]]]]];
      [right; split; [done|]; by left|by left|by right; left|by left|done].
Qed.

End Refinement.
