(* ===== verification/StreamsProps.v ===== *)
(** [x/streams]: what the operations guarantee.

    Accrual against its closed form, each operation against its effect on the
    abstract state and on token holdings, solvency of the escrow over every
    reachable state, and progress. *)

From stdpp Require Import base list gmap strings sorting.
From Stdlib Require Import ZArith Lia.
From S2P Require Import Prelude KVStore BigInt Ledger Streams.
Open Scope Z_scope.
Open Scope go_scope.

(** * Accrual *)

(** Seconds of accrual at [now]: from the start to the earlier of [now] and the
    stop time. *)
Definition elapsed_ref (s : Stream) (now : Z) : Z :=
  Z.max 0 ((if StopTime s =? 0 then now else Z.min now (StopTime s)) - StartTime s).

(** [min(rate * elapsed, cap) - settled], never negative. *)
Definition accrued_ref (r c n : Z) (s : Stream) (now : Z) : Z :=
  Z.max 0 (Z.min (r * elapsed_ref s now) c - n).

(** The stream after a payment of [p]. *)
Definition pay (p : Z) (s : Stream) : Stream :=
  with_Settled (BigString (parseAmount (Settled s) + p)) s.

(** The record [Open] stores. *)
Definition opened (id : Z) (payer payee token : bytes) (r start stop c : Z) : Stream :=
  mkStream id payer payee token (BigString r) (BigString c) start stop "0" true.

(** * Token holdings and the laws of token contracts *)

Section Holdings.
Context {X : Type} {BK : BankKeeper X} {EC : EthCommon}.

(** The EVM, by the call depth that is left. *)
Variable evm : nat -> Evm X.

(** [balanceOf] of the ERC-20 contracts: token, holder. *)
Variable balanceOf : X -> bytes -> bytes -> Z.

(** The token contracts that do what ERC-20 documents and call nobody back. *)
Variable standard : bytes -> bool.

(** What [h] holds of token [t]: the zero address is native PAX. *)
Definition holding (x : X) (t h : bytes) : Z :=
  if isNativeToken t then GetBalance x h DefaultEVMDenom else balanceOf x t h.

Definition custody (x : X) (t : bytes) : Z := holding x t ModuleAccountAddress.

(** Exactly [n] of [tok] went from [src] to [dst]. *)
Definition moved (x x' : X) (tok src dst : bytes) (n : Z) : Prop :=
  forall t h, length t = 20%nat ->
    holding x' t h = holding x t h
      - (if decide (t = tok /\ h = src) then n else 0)
      + (if decide (t = tok /\ h = dst) then n else 0).

Definition safe (t : bytes) : bool := isNativeToken t || standard t.

(** The module account can pay everything it owes in native PAX and in the standard
    tokens. *)
Definition solvent (x : X) (a : abs) : Prop :=
  forall t, length t = 20%nat -> safe t = true -> outstanding a t <= custody x t.

(** The state invariant: the store is the image of a well-formed abstract state,
    and the escrow covers it. *)
Definition inv (w : world X) (a : abs) : Prop :=
  refines (store w) a /\ wf_abs a /\ solvent (ext w) a.

(** One successful operation of the module.  The payer is never the module
    account itself, which has no key and runs no code. *)
Inductive step (m : nat) : world X -> world X -> Prop :=
| step_open ctx payer payee token rate t0 t1 cap w w' id :
    payer <> ModuleAccountAddress ->
    length payer = 20%nat -> length payee = 20%nat -> length token = 20%nat ->
    0 <= t0 < 2 ^ 64 -> 0 <= t1 < 2 ^ 64 ->
    Open (evm m) ctx payer payee token rate t0 t1 cap w = (w', Ok id) ->
    id + 1 < 2 ^ 64 ->
    step m w w'
| step_settle ctx id w w' paid :
    0 <= id < 2 ^ 64 -> Settle (evm m) ctx id w = (w', Ok paid) -> step m w w'
| step_close ctx id caller w w' paid :
    0 <= id < 2 ^ 64 -> Close (evm m) ctx id caller w = (w', Ok paid) -> step m w w'
| step_update ctx id caller rate w w' :
    0 <= id < 2 ^ 64 -> UpdateRate (evm m) ctx id caller rate w = (w', Ok tt) -> step m w w'.

(** What can happen below depth [n]: operations of the module, which contracts reach
    through its precompile, and anything that leaves the store of the module alone and
    takes nothing that counts from its account. *)
Inductive act (n : nat) : world X -> world X -> Prop :=
| act_step m w w' : (m < n)%nat -> step m w w' -> act n w w'
| act_outside w w' :
    store w' = store w ->
    (forall t, length t = 20%nat -> safe t = true -> custody (ext w) t <= custody (ext w') t) ->
    act n w w'.

(** What is relied on of the EVM and its contracts.  An execution that fails changes
    nothing.  A standard token moves exactly the amount and nothing else changes.  Any
    other contract may do whatever can happen below its depth, calls of the module
    included.  Coins of the bank are not balances of contracts. *)
Record token_laws : Prop := {
  transferFrom_ok : forall m ctx by_ t nonce gas data from to n w w', standard t = true -> 0 < n ->
    Pack (evm m) (TransferFrom from to n) = Some data ->
    ApplyMessage (evm m) ctx (mkMessage by_ t nonce gas data false) true w = (w', Ok ""%string) ->
    store w' = store w /\ events w' = events w /\
    (forall a d, GetBalance (ext w') a d = GetBalance (ext w) a d) /\
    forall t' h, balanceOf (ext w') t' h = balanceOf (ext w) t' h
      - (if decide (t' = t /\ h = from) then n else 0)
      + (if decide (t' = t /\ h = to) then n else 0);
  transfer_ok : forall m ctx by_ t nonce gas data to n w w', standard t = true -> 0 < n ->
    Pack (evm m) (Transfer to n) = Some data ->
    ApplyMessage (evm m) ctx (mkMessage by_ t nonce gas data false) true w = (w', Ok ""%string) ->
    store w' = store w /\ events w' = events w /\
    (forall a d, GetBalance (ext w') a d = GetBalance (ext w) a d) /\
    forall t' h, balanceOf (ext w') t' h = balanceOf (ext w) t' h
      - (if decide (t' = t /\ h = by_) then n else 0)
      + (if decide (t' = t /\ h = to) then n else 0);
  other_ok : forall m ctx msg w w', standard (m_to msg) = false ->
    ApplyMessage (evm m) ctx msg true w = (w', Ok ""%string) -> rtc (act m) w w';
  message_fails : forall m ctx msg w w' e, ApplyMessage (evm m) ctx msg true w = (w', Err e) -> w' = w;
  message_reverts : forall m ctx msg w w' e, e <> ""%string ->
    ApplyMessage (evm m) ctx msg true w = (w', Ok e) -> w' = w;
  bank_frame_in : forall x a m c t h,
    balanceOf (SendCoinsFromAccountToModule x a m c).1 t h = balanceOf x t h;
  bank_frame_out : forall x m a c t h,
    balanceOf (SendCoinsFromModuleToAccount x m a c).1 t h = balanceOf x t h
}.

End Holdings.

Lemma streamAccrued_ref s now r c n :
  0 <= StartTime s -> now < 2 ^ 64 ->
  RatePerSecond s = BigString r -> Cap s = BigString c -> Settled s = BigString n ->
  0 <= r -> 0 <= c -> 0 <= n ->
  streamAccrued s now = accrued_ref r c n s now.
Proof.
  intros Hst Hnow Hr Hc Hn Hr0 Hc0 Hn0.
  unfold streamAccrued, accrued_ref, elapsed_ref, parseAmount.
  rewrite Hr, Hc, Hn, !parseNonNeg_BigString by done.
  set (e := if StopTime s =? 0 then now else Z.min now (StopTime s)).
  assert ((if negb (StopTime s =? 0) && (StopTime s <? now) then StopTime s else now) = e) as ->.
  { unfold e. destruct (Z.eqb_spec (StopTime s) 0), (Z.ltb_spec (StopTime s) now); simpl; lia. }
  assert (e <= now) by (unfold e; destruct (_ =? _); lia).
  destruct (Z.leb_spec e (StartTime s)).
  - rewrite (Z.max_l 0 (e - StartTime s)) by lia. rewrite Z.mul_0_r, Z.min_l by lia. lia.
  - rewrite wrapU_small by lia. rewrite (Z.max_r 0 (e - StartTime s)) by lia.
    destruct (Z.ltb_spec c (r * (e - StartTime s)));
      [rewrite Z.min_r by lia|rewrite Z.min_l by lia];
      destruct (_ <? 0) eqn:?; reflect_bools; lia.
Qed.

Lemma elapsed_ref_mono s t1 t2 : t1 <= t2 -> elapsed_ref s t1 <= elapsed_ref s t2.
Proof. unfold elapsed_ref. destruct (_ =? _); lia. Qed.

Lemma accrued_ref_mono r c n s t1 t2 :
  0 <= r -> t1 <= t2 -> accrued_ref r c n s t1 <= accrued_ref r c n s t2.
Proof.
  intros Hr Ht. unfold accrued_ref. pose proof (elapsed_ref_mono s _ _ Ht).
  assert (r * elapsed_ref s t1 <= r * elapsed_ref s t2) by (apply Z.mul_le_mono_nonneg_l; lia).
  lia.
Qed.

Lemma accrued_bounds s now :
  wf_stream s -> now < 2 ^ 64 -> 0 <= streamAccrued s now <= remaining s.
Proof.
  intros [_ _ _ (r & Hr & Er) (c & n & Hc & Hn & Ec & En) Hst _ _] H2.
  rewrite !(streamAccrued_ref s _ r c n) by (done || lia).
  unfold remaining, parseAmount. rewrite Ec, En, !parseNonNeg_BigString by lia.
  unfold accrued_ref; lia.
Qed.

(** C14: on every stored stream the amount [streamAccrued] computes is the closed
    form of its doc comment, [min(rate * elapsed, cap) - settled] with elapsed
    cut off at the stop time and the result clamped at zero; so it is never
    negative, never more than the part of the cap not yet settled, and it never
    decreases as time passes. *)
Theorem streamAccrued_correct s now now' :
  wf_stream s -> now <= now' -> now' < 2 ^ 64 ->
  streamAccrued s now
    = accrued_ref (parseAmount (RatePerSecond s)) (parseAmount (Cap s))
        (parseAmount (Settled s)) s now
  /\ 0 <= streamAccrued s now <= remaining s
  /\ streamAccrued s now <= streamAccrued s now'.
Proof.
  intros [_ _ _ (r & Hr & Er) (c & n & Hc & Hn & Ec & En) Hst _ _] H1 H2.
  rewrite !(streamAccrued_ref s _ r c n) by (done || lia).
  unfold remaining, parseAmount. rewrite Er, Ec, En, !parseNonNeg_BigString by lia.
  split_and!; [done|unfold accrued_ref; lia..|apply accrued_ref_mono; lia].
Qed.

(** * The operations, step by step *)

Section Ops.
Context {X : Type} {BK : BankKeeper X} {BL : BankLaws X} {EC : EthCommon}.
Context (evm : nat -> Evm X).
Context (balanceOf : X -> bytes -> bytes -> Z).
Context (standard : bytes -> bool).
Context (TL : token_laws evm balanceOf standard).

Abbreviation moved' := (moved balanceOf).
Abbreviation safe' := (safe standard).
Abbreviation inv' := (inv balanceOf standard).

Lemma module_to_address : BytesToAddress (ModuleAccountAddress (X:=X)) = ModuleAccountAddress (X:=X).
Proof. apply BytesToAddress_20, module_address_length. Qed.

Lemma native_same (t tok : bytes) :
  length t = 20%nat -> length tok = 20%nat ->
  isNativeToken t = true -> isNativeToken tok = true -> t = tok.
Proof.
  intros Ht Htok. rewrite !isNativeToken_spec by done.
  rewrite !bool_decide_eq_true. by intros -> ->.
Qed.

(** A bank send of the native coin is a movement of the native token. *)
Lemma moved_native x x' tok src dst n :
  length tok = 20%nat -> isNativeToken tok = true ->
  sent x x' src dst DefaultEVMDenom n ->
  (forall t h, balanceOf x' t h = balanceOf x t h) ->
  moved' x x' tok src dst n.
Proof.
  intros Hl Htok [_ Hs] Hf t h Ht. unfold holding.
  destruct (isNativeToken t) eqn:Hn.
  - rewrite (native_same t tok) in * by done. rewrite Hs.
    repeat case_decide; naive_solver lia.
  - rewrite Hf. repeat case_decide; destruct_and?; subst; try congruence; lia.
Qed.

(** A token call that moves [balanceOf] is a movement of that token. *)
Lemma moved_erc20 x x' tok src dst n :
  isNativeToken tok = false ->
  (forall a d, GetBalance x' a d = GetBalance x a d) ->
  (forall t h, balanceOf x' t h = balanceOf x t h
      - (if decide (t = tok /\ h = src) then n else 0)
      + (if decide (t = tok /\ h = dst) then n else 0)) ->
  moved' x x' tok src dst n.
Proof.
  intros Htok Hb Hm t h Ht. unfold holding. destruct (isNativeToken t) eqn:Hn; [|apply Hm].
  rewrite Hb. repeat case_decide; destruct_and?; subst; try congruence; lia.
Qed.

(** [CallEVM] as an execution of its message. *)
Lemma CallEVM_ok m ctx from contract c (w w' : world X) r :
  CallEVM (evm m) ctx from contract true c w = (w', Ok r) ->
  exists nonce gas data, Pack (evm m) c = Some data /\
    ApplyMessage (evm m) ctx (mkMessage from contract nonce gas data false) true w = (w', Ok ""%string).
Proof.
  unfold CallEVM, CallEVMWithData. destruct (Pack (evm m) c) as [data|]; [|by intros [=]]. go_unfold.
  destruct (GetSequence _ _ _) as [nonce| |]; [|by intros [=]..]. destruct (EstimateGasInternal _ _ _ _ _ _) as [gas| |]; [|by intros [=]..].
  destruct (ApplyMessage _ _ _ _ _) as [w1 [res| |]] eqn:E; [|by intros [=]..].
  destruct (bool_decide_reflect (res = ""%string)) as [->|]; [|by intros [=]]. intros [= <- _]. by exists nonce, gas, data.
Qed.

Lemma CallEVM_err m ctx from contract c (w w' : world X) e :
  CallEVM (evm m) ctx from contract true c w = (w', Err e) -> w' = w.
Proof.
  unfold CallEVM, CallEVMWithData. destruct (Pack (evm m) c) as [data|]; [|by intros [=]]. go_unfold.
  destruct (GetSequence _ _ _) as [nonce| |]; [|by intros [=]..]. destruct (EstimateGasInternal _ _ _ _ _ _) as [gas| |]; [|by intros [=]..].
  destruct (ApplyMessage _ _ _ _ _) as [w1 [res|e1|]] eqn:E; [| |by intros [=]].
  - destruct (bool_decide_reflect (res = ""%string)) as [|Hne]; [by intros [=]|]. intros [= <- _]. by eapply message_reverts.
  - intros [= <- _]. by eapply message_fails.
Qed.

(** A native payment out of the module account. *)
Lemma payOut_native m ctx payee tok n (w w' : world X) :
  0 < n -> isNativeToken tok = true -> payOutToPayee (evm m) ctx payee tok (Some n) w = (w', Ok tt) ->
  n < 2 ^ 256 /\ exists x', SendCoinsFromModuleToAccount (ext w) ModuleAccountName payee (DefaultEVMDenom, n) = (x', None) /\
    w' = mkWorld (store w) x' (events w).
Proof.
  intros Hn Htok. unfold payOutToPayee, NewIntFromBigInt, run_ext. destruct (Z.leb_spec n 0); [lia|]. rewrite Htok. go_unfold.
  destruct (Z.ltb_spec (Z.abs n) (2 ^ 256)); [|by intros [=]].
  destruct (SendCoinsFromModuleToAccount _ _ _ _) as [x' [c|]]; intros [= <-]. split; [lia|by exists x'].
Qed.

Lemma payOut_erc20 m ctx payee tok n (w w' : world X) :
  0 < n -> length tok = 20%nat -> isNativeToken tok = false -> payOutToPayee (evm m) ctx payee tok (Some n) w = (w', Ok tt) ->
  exists nonce gas data, Pack (evm m) (Transfer payee n) = Some data /\
    ApplyMessage (evm m) ctx (mkMessage ModuleAccountAddress tok nonce gas data false) true w = (w', Ok ""%string).
Proof.
  intros Hn Hl Htok. unfold payOutToPayee, lift_err. destruct (Z.leb_spec n 0); [lia|]. rewrite Htok, module_to_address, BytesToAddress_20 by done.
  go_unfold. destruct (CallEVM _ _ _ _ _ _ _) as [w1 [r|e|]] eqn:Hc; intros [= <-]. by eapply CallEVM_ok.
Qed.

Lemma payOut_ok m ctx payee tok n w w' :
  0 < n -> length tok = 20%nat -> safe' tok = true ->
  payOutToPayee (evm m) ctx payee tok (Some n) w = (w', Ok tt) ->
  store w' = store w /\ events w' = events w /\
  moved' (ext w) (ext w') tok ModuleAccountAddress payee n.
Proof.
  intros Hn Hl Hsafe H. unfold safe in Hsafe. destruct (isNativeToken tok) eqn:Htok.
  - destruct (payOut_native m ctx payee tok n w w' Hn Htok H) as (_ & x' & Hs & ->).
    pose proof (bank_frame_out _ _ _ TL (ext w) ModuleAccountName payee (DefaultEVMDenom, n)) as Hf. rewrite Hs in Hf.
    split_and!; [done..|]. apply moved_native; [done..| |done]. by apply module_to_account_ok.
  - destruct (payOut_erc20 m ctx payee tok n w w' Hn Hl Htok H) as (nonce & gas & data & Hp & Hc).
    apply (transfer_ok _ _ _ TL) with (to := payee) (n := n) in Hc as (-> & -> & Hb & Hm); [|done..].
    split_and!; [done..|]. by apply moved_erc20.
Qed.

Lemma payOut_err m ctx payee tok n w w' e :
  payOutToPayee (evm m) ctx payee tok n w = (w', Err e) -> w' = w.
Proof.
  unfold payOutToPayee, NewIntFromBigInt. destruct n as [n|]; [|by intros [=]].
  destruct (n <=? 0); [by intros [=]|]. destruct (isNativeToken tok).
  - unfold run_ext. go_unfold. destruct (_ <? _); [|by intros [=]].
    destruct (SendCoinsFromModuleToAccount _ _ _ _) as [x' [c|]] eqn:Hs; intros [= <- _].
    apply module_to_account_err in Hs as ->. by destruct w.
  - unfold lift_err. go_unfold. destruct (CallEVM _ _ _ _ _ _ _) as [w1 [r|e'|]] eqn:Hc; intros [= <- _].
    by eapply CallEVM_err.
Qed.

Lemma escrow_native m ctx payer tok n (w w' : world X) :
  0 < n -> isNativeToken tok = true -> escrowFromPayer (evm m) ctx payer tok (Some n) w = (w', Ok tt) ->
  n < 2 ^ 256 /\ exists x', SendCoinsFromAccountToModule (ext w) payer ModuleAccountName (DefaultEVMDenom, n) = (x', None) /\
    w' = mkWorld (store w) x' (events w).
Proof.
  intros Hn Htok. unfold escrowFromPayer, NewIntFromBigInt, run_ext. destruct (Z.leb_spec n 0); [lia|]. rewrite Htok. go_unfold.
  destruct (Z.ltb_spec (Z.abs n) (2 ^ 256)); [|by intros [=]].
  destruct (SendCoinsFromAccountToModule _ _ _ _) as [x' [c|]]; intros [= <-]. split; [lia|by exists x'].
Qed.

Lemma escrow_erc20 m ctx payer tok n (w w' : world X) :
  0 < n -> length tok = 20%nat -> isNativeToken tok = false -> escrowFromPayer (evm m) ctx payer tok (Some n) w = (w', Ok tt) ->
  exists nonce gas data, Pack (evm m) (TransferFrom payer ModuleAccountAddress n) = Some data /\
    ApplyMessage (evm m) ctx (mkMessage ModuleAccountAddress tok nonce gas data false) true w = (w', Ok ""%string).
Proof.
  intros Hn Hl Htok. unfold escrowFromPayer, lift_err. destruct (Z.leb_spec n 0); [lia|]. rewrite Htok, module_to_address, BytesToAddress_20 by done.
  go_unfold. destruct (CallEVM _ _ _ _ _ _ _) as [w1 [r|e|]] eqn:Hc; intros [= <-]. by eapply CallEVM_ok.
Qed.

Lemma escrow_ok m ctx payer tok n w w' :
  0 < n -> length tok = 20%nat -> safe' tok = true ->
  escrowFromPayer (evm m) ctx payer tok (Some n) w = (w', Ok tt) ->
  store w' = store w /\ events w' = events w /\
  moved' (ext w) (ext w') tok payer ModuleAccountAddress n /\ (isNativeToken tok = true -> n < 2 ^ 256).
Proof.
  intros Hn Hl Hsafe H. unfold safe in Hsafe. destruct (isNativeToken tok) eqn:Htok.
  - destruct (escrow_native m ctx payer tok n w w' Hn Htok H) as (Hb & x' & Hs & ->).
    pose proof (bank_frame_in _ _ _ TL (ext w) payer ModuleAccountName (DefaultEVMDenom, n)) as Hf. rewrite Hs in Hf.
    split_and!; [done..| |done]. apply moved_native; [done..| |done]. by apply account_to_module_ok.
  - destruct (escrow_erc20 m ctx payer tok n w w' Hn Hl Htok H) as (nonce & gas & data & Hp & Hc).
    apply (transferFrom_ok _ _ _ TL) with (from := payer) (to := ModuleAccountAddress) (n := n) in Hc as (-> & -> & Hb & Hm); [|done..].
    split_and!; [done..| |done]. by apply moved_erc20.
Qed.

Lemma escrow_err m ctx payer tok n w w' e :
  escrowFromPayer (evm m) ctx payer tok n w = (w', Err e) -> w' = w.
Proof.
  unfold escrowFromPayer, NewIntFromBigInt. destruct n as [n|]; [|by intros [=]].
  destruct (n <=? 0); [by intros [=]|]. destruct (isNativeToken tok).
  - unfold run_ext. go_unfold. destruct (_ <? _); [|by intros [=]].
    destruct (SendCoinsFromAccountToModule _ _ _ _) as [x' [c|]] eqn:Hs; intros [= <- _].
    apply account_to_module_err in Hs as ->. by destruct w.
  - unfold lift_err. go_unfold. destruct (CallEVM _ _ _ _ _ _ _) as [w1 [r|e'|]] eqn:Hc; intros [= <- _].
    by eapply CallEVM_err.
Qed.

(** ** Well-formedness of the updated streams *)

Lemma wf_pay s p :
  wf_stream s -> 0 <= p <= remaining s ->
  wf_stream (pay p s) /\ remaining (pay p s) = remaining s - p.
Proof.
  intros [? ? ? ? (c & n & Hc & Hn & Ec & En) ? ? ?] Hp.
  unfold pay, remaining, parseAmount in *. simpl.
  rewrite Ec, En, !parseNonNeg_BigString in * by lia.
  split; [|lia].
  split; simpl; try done. exists c, (n + p). split_and!; lia || done.
Qed.

Lemma pay_0 s : wf_stream s -> pay 0 s = s.
Proof.
  intros [_ _ _ _ (c & n & Hc & Hn & Ec & En) _ _ _]. unfold pay, with_Settled, parseAmount.
  rewrite En, parseNonNeg_BigString, Z.add_0_r by lia. destruct s; simpl in *; by subst.
Qed.

Lemma wf_with_Rate r t s :
  0 < r -> 0 <= t < 2 ^ 64 -> wf_stream s -> wf_stream (with_Rate (BigString r) t s).
Proof. intros Hr Ht []. split; simpl; eauto. Qed.

Lemma native_pay p s : native_fits s -> native_fits (pay p s).
Proof. done. Qed.

Lemma native_with_Rate r t s : native_fits s -> native_fits (with_Rate r t s).
Proof. done. Qed.

(** Replacing a stored stream by a well-formed one with the same id. *)
Lemma wf_insert a s :
  wf_abs a -> wf_stream s -> native_fits s -> 0 < ID s < a_next a -> wf_abs (insert_stream s a).
Proof.
  intros Hwf Hs Hn Hid. destruct Hwf as [Hids Hst Hnat Hnx Hp]. split; simpl; try done;
    intros id s' H; apply lookup_insert_Some in H as [[<- <-]|[_ H]]; eauto.
Qed.

Lemma wf_remove a id : wf_abs a -> wf_abs (remove_stream id a).
Proof.
  intros [Hids Hst Hnat Hn Hp]. split; simpl; try done;
    intros id' s' H; apply lookup_delete_Some in H as [_ H]; eauto.
Qed.

(** The next id. *)
Lemma wf_abs_advance a id : wf_abs a -> a_next a <= id < 2 ^ 64 -> wf_abs (mkAbs (a_streams a) id (a_params a)).
Proof. intros [Hids Hst Hnat Hn Hp] Hid. split; simpl; [|done|done|lia|done]. intros i s Hi. destruct (Hids i s Hi). lia. Qed.

Lemma outstanding_insert a s s' t :
  a_streams a !! ID s' = Some s -> Token s' = Token s ->
  outstanding (insert_stream s' a) t
    = outstanding a t + (if decide (Token s = t) then remaining s' - remaining s else 0).
Proof.
  intros H Ht. unfold outstanding, insert_stream; simpl.
  rewrite <- (insert_delete_eq (a_streams a)).
  rewrite (sumZ_Permutation _ _ _ (map_to_list_insert _ _ _ (lookup_delete_eq _ _))).
  rewrite (sumZ_Permutation _ (map_to_list (a_streams a))
             ((ID s', s) :: map_to_list (delete (ID s') (a_streams a)))).
  2:{ by rewrite map_to_list_delete. }
  simpl. rewrite Ht. case_decide; lia.
Qed.

Lemma outstanding_new a s t :
  a_streams a !! ID s = None ->
  outstanding (insert_stream s a) t
    = outstanding a t + (if decide (Token s = t) then remaining s else 0).
Proof.
  intros H. unfold outstanding, insert_stream; simpl.
  rewrite (sumZ_Permutation _ _ _ (map_to_list_insert _ _ _ H)). simpl. case_decide; lia.
Qed.

Lemma outstanding_remove a id s t :
  a_streams a !! id = Some s ->
  outstanding (remove_stream id a) t
    = outstanding a t - (if decide (Token s = t) then remaining s else 0).
Proof.
  intros H. unfold outstanding, remove_stream; simpl.
  rewrite (sumZ_Permutation _ (map_to_list (a_streams a))
             ((id, s) :: map_to_list (delete id (a_streams a)))).
  2:{ by rewrite map_to_list_delete. }
  simpl. case_decide; lia.
Qed.

(** ** Symbolic execution of the operations *)

Lemma now_range ctx : 0 <= u64 (BlockTime ctx) < 2 ^ 64.
Proof. apply wrapU_range. lia. Qed.

Lemma moved_0 x tok src dst : moved' x x tok src dst 0.
Proof. intros t h _. repeat case_decide; lia. Qed.

Lemma get_active_spec (w : world X) a id :
  refines (store w) a -> wf_abs a -> 0 <= id < 2 ^ 64 ->
  get_active id w =
    (w, match a_streams a !! id with Some s => Ok s | None => Err ErrStreamNotFound end).
Proof.
  intros Hr Hwf Hid. unfold get_active, bind, gets.
  rewrite (refines_GetStream _ _ Hr Hwf) by done.
  destruct (a_streams a !! id) as [s|] eqn:Hs; [|done].
  by rewrite (wf_active s (wf_streams a Hwf _ _ Hs)).
Qed.

(** A payment of [n] out of the escrow, if there is anything to pay. *)
Definition paid_out (m : nat) (ctx : Ctx) (dst tok : bytes) (n : Z) (w w1 : world X) : Prop :=
  (n = 0 /\ w1 = w) \/ (0 < n /\ payOutToPayee (evm m) ctx dst tok (Some n) w = (w1, Ok tt)).

Lemma paid_out_ok m ctx dst tok n w w1 :
  length tok = 20%nat -> safe' tok = true -> paid_out m ctx dst tok n w w1 ->
  store w1 = store w /\ events w1 = events w /\ moved' (ext w) (ext w1) tok ModuleAccountAddress dst n.
Proof.
  intros Hl Hs [[-> ->]|[Hn H]]; [split_and!; [done..|apply moved_0]|by eapply payOut_ok].
Qed.

(** The "final settle" block shared by [Close] and [UpdateRate]. *)
Lemma settle_block_ok m ctx s payout w w' s' :
  wf_stream s -> 0 <= payout <= remaining s ->
  (if 0 <? payout
   then payOutToPayee (evm m) ctx (BytesToAddress (Payee s)) (Token s) (Some payout) ;;
        ret (with_Settled (BigString (parseAmount (Settled s) + payout)) s)
   else ret s) w = (w', Ok s') ->
  s' = pay payout s /\ paid_out m ctx (Payee s) (Token s) payout w w'.
Proof.
  intros Hs Hp. destruct (Z.ltb_spec 0 payout) as [Hpos|Hz].
  - rewrite BytesToAddress_20 by apply Hs. unfold bind.
    destruct (payOutToPayee _ _ _ _ _ _) as [w1 [[]|e|]] eqn:Hpay; intros [= <- <-]. split; [done|by right].
  - assert (payout = 0) as -> by lia. intros [= <- <-]. rewrite pay_0 by done. split; [done|by left].
Qed.

Lemma settle_block_err m ctx s payout w w' e :
  (if 0 <? payout
   then payOutToPayee (evm m) ctx (BytesToAddress (Payee s)) (Token s) (Some payout) ;;
        ret (with_Settled (BigString (parseAmount (Settled s) + payout)) s)
   else ret s) w = (w', Err e) -> w' = w.
Proof.
  destruct (0 <? payout); [|by intros [=]]. unfold bind.
  destruct (payOutToPayee _ _ _ _ _ _) as [w1 [[]|e'|]] eqn:Hpay; intros [= <-].
  by eapply payOut_err.
Qed.

Lemma refines_replace st a s s' :
  refines st a -> wf_abs a -> a_streams a !! ID s' = Some s ->
  Payer s' = Payer s -> Payee s' = Payee s ->
  refines (SetStream_store s' st) (insert_stream s' a).
Proof.
  intros Hr Hwf Hs Hpr Hpe. pose proof (wf_streams a Hwf _ _ Hs) as [].
  apply refines_SetStream; [done|done|by eapply wf_id_range|congruence|congruence|].
  intros s0 Hs0. simplify_eq. done.
Qed.

(** ** The operations, taken apart: what was read, what was paid, what was written *)

Lemma settle_runs m w a ctx id w' paid :
  refines (store w) a -> wf_abs a -> 0 <= id < 2 ^ 64 ->
  Settle (evm m) ctx id w = (w', Ok paid) ->
  exists s w1, a_streams a !! id = Some s /\ paid = streamAccrued s (u64 (BlockTime ctx)) /\
    paid_out m ctx (Payee s) (Token s) paid w w1 /\ ext w' = ext w1 /\
    store w' = if paid =? 0 then store w1 else SetStream_store (pay paid s) (store w1).
Proof.
  intros Hr Hwf Hid. unfold Settle. unfold bind at 1. rewrite (get_active_spec w a) by done.
  destruct (a_streams a !! id) as [s|] eqn:Hs; [|by intros [=]].
  pose proof (wf_streams a Hwf _ _ Hs) as Hws.
  destruct (accrued_bounds s (u64 (BlockTime ctx)) Hws ltac:(apply now_range)) as [Hp0 Hp].
  set (payout := streamAccrued s (u64 (BlockTime ctx))) in *.
  destruct (Z.eqb_spec payout 0) as [Hz|Hnz].
  - intros [= <- <-]. exists s, w. split_and!; [done|done|by left|done..].
  - rewrite BytesToAddress_20 by apply Hws. unfold bind.
    destruct (payOutToPayee _ _ _ _ _ _) as [w1 [[]|e|]] eqn:Hpay; intros [= <- <-].
    exists s, w1. rewrite (proj2 (Z.eqb_neq _ _) Hnz). split_and!; [done|done|right; split; [lia|done]|done..].
Qed.

Lemma close_runs m w a ctx id caller w' paid :
  refines (store w) a -> wf_abs a -> 0 <= id < 2 ^ 64 ->
  Close (evm m) ctx id caller w = (w', Ok paid) ->
  exists s w1 w2, a_streams a !! id = Some s /\ (caller = Payer s \/ caller = Payee s) /\
    paid = streamAccrued s (u64 (BlockTime ctx)) /\
    paid_out m ctx (Payee s) (Token s) paid w w1 /\ paid_out m ctx (Payer s) (Token s) (remaining s - paid) w1 w2 /\
    ext w' = ext w2 /\ store w' = DeleteStream_store (pay paid s) (store w2).
Proof.
  intros Hr Hwf Hid. unfold Close. unfold bind at 1. rewrite (get_active_spec w a) by done.
  destruct (a_streams a !! id) as [s|] eqn:Hs; [|by intros [=]].
  pose proof (wf_streams a Hwf _ _ Hs) as Hws.
  pose proof (accrued_bounds s (u64 (BlockTime ctx)) Hws ltac:(apply now_range)) as Hp.
  set (payout := streamAccrued s (u64 (BlockTime ctx))) in *.
  destruct (wf_pay s payout Hws Hp) as [Hws' Hrem].
  unfold bind at 1, guard at 1. rewrite !equalAddress_spec.
  destruct (_ || _) eqn:Hauth; simpl; [|by intros [=]].
  apply orb_true_iff in Hauth. rewrite !bool_decide_eq_true in Hauth.
  unfold bind at 1.
  go_case as [w1 [s1|e|]] eqn Hb; [|by intros [=]..].
  apply settle_block_ok in Hb as (-> & Hpaid); [|done..].
  fold (remaining (pay payout s)). rewrite Hrem.
  destruct (Z.ltb_spec (remaining s - payout) 0); [lia|].
  unfold bind at 1.
  destruct (Z.ltb_spec 0 (remaining s - payout)) as [Hpos|Hz].
  - unfold refundToPayer. rewrite BytesToAddress_20 by apply Hws.
    go_case as [w2 [[]|e|]] eqn Hpay; intros [= <- <-].
    exists s, w1, w2. split_and!; [done..|by right|done|done].
  - intros [= <- <-]. exists s, w1, w1. split_and!; [done..|left; split; [lia|done]|done|done].
Qed.

Lemma update_runs m w a ctx id caller newRate w' :
  refines (store w) a -> wf_abs a -> 0 <= id < 2 ^ 64 ->
  UpdateRate (evm m) ctx id caller newRate w = (w', Ok tt) ->
  exists s r w1, a_streams a !! id = Some s /\ caller = Payer s /\ newRate = Some r /\ 0 < r /\
    let now := u64 (BlockTime ctx) in
    let paid := streamAccrued s now in
    paid_out m ctx (Payee s) (Token s) paid w w1 /\ ext w' = ext w1 /\
    store w' = SetStream_store (with_Rate (BigString r) now (pay paid s)) (store w1).
Proof.
  intros Hr Hwf Hid. unfold UpdateRate. unfold bind at 1. rewrite (get_active_spec w a) by done.
  destruct (a_streams a !! id) as [s|] eqn:Hs; [|by intros [=]].
  pose proof (wf_streams a Hwf _ _ Hs) as Hws.
  pose proof (accrued_bounds s (u64 (BlockTime ctx)) Hws ltac:(apply now_range)) as Hp.
  unfold bind at 1, guard at 1. rewrite equalAddress_spec.
  destruct (bool_decide (caller = Payer s)) eqn:Hauth; simpl; [|by intros [=]].
  apply bool_decide_eq_true in Hauth.
  unfold require_positive. destruct newRate as [r|]; [|by intros [=]].
  destruct (Z.leb_spec r 0); [by intros [=]|]. unfold bind at 1. simpl.
  unfold bind at 1. go_case as [w1 [s1|e|]] eqn Hb; [|by intros [=]..].
  apply settle_block_ok in Hb as (-> & Hpaid); [|done..].
  intros [= <-]. by exists s, r, w1.
Qed.

Lemma NextStreamID_spec (w : world X) a :
  refines (store w) a -> wf_abs a ->
  NextStreamID w =
    (mkWorld (<[NextStreamIDKey := VRaw (be8 (u64 (a_next a + 1)))]> (store w))
       (ext w) (events w), Ok (a_next a)).
Proof.
  intros Hr Hwf. pose proof (wf_next a Hwf).
  unfold NextStreamID, SetNextStreamID, update_store, bind, gets, modify.
  rewrite (refines_next _ _ Hr). unfold read_u64.
  destruct (Nat.ltb_spec (length (be8 (a_next a))) 8) as [Hl|Hl];
    [rewrite length_be8 in Hl; lia|].
  unfold ret at 1. rewrite take_ge by (rewrite length_be8; lia). rewrite be8_roundtrip by lia.
  destruct (Z.eqb_spec (a_next a) 0); [lia|done].
Qed.

Lemma require_positive_ok (x : option Z) e (w w' : world X) n :
  require_positive x e w = (w', Ok n) -> w' = w /\ x = Some n /\ 0 < n.
Proof.
  unfold require_positive. destruct x as [m|]; [|by intros [=]].
  destruct (Z.leb_spec m 0); intros [=]; by subst.
Qed.

Lemma open_runs m w a ctx payer payee token rate t0 t1 cap w' id :
  refines (store w) a -> wf_abs a ->
  Open (evm m) ctx payer payee token rate t0 t1 cap w = (w', Ok id) ->
  exists r c w1 w2, rate = Some r /\ cap = Some c /\ 0 < r /\ 0 < c /\
    payee <> zero_address /\ payer <> payee /\
    let start := if t0 =? 0 then u64 (BlockTime ctx) else t0 in
    (t1 = 0 \/ u64 (start + MinDuration (a_params a)) <= t1) /\
    CountStreamsByPayer (store w) payer < MaxStreamsPerPayer (a_params a) /\
    escrowFromPayer (evm m) ctx payer token (Some c) w = (w1, Ok tt) /\ NextStreamID w1 = (w2, Ok id) /\
    ext w' = ext w2 /\ store w' = SetStream_store (opened id payer payee token r start t1 c) (store w2).
Proof.
  intros Hr Hwf. unfold Open. unfold bind at 1, guard at 1.
  destruct (bool_decide_reflect (payee = zero_address)); simpl; [by intros [=]|].
  unfold bind at 1, guard at 1.
  destruct (bool_decide_reflect (payer = payee)); simpl; [by intros [=]|].
  unfold bind at 1. go_case as [w1 [r|e|]] eqn Hrate; [|by intros [=]..].
  apply require_positive_ok in Hrate as (-> & -> & Hr0).
  unfold bind at 1. go_case as [w1 [c|e|]] eqn Hcap; [|by intros [=]..].
  apply require_positive_ok in Hcap as (-> & -> & Hc0).
  unfold bind at 1, gets at 1. rewrite (refines_GetParams _ _ Hr).
  set (start := if t0 =? 0 then _ else _).
  unfold bind at 1, guard at 1.
  destruct (negb (t1 =? 0) && _) eqn:Ht; simpl; [by intros [=]|].
  unfold bind at 1, gets at 1. unfold bind at 1, guard at 1.
  destruct (Z.leb_spec (MaxStreamsPerPayer (a_params a)) (CountStreamsByPayer (store w) payer));
    simpl; [by intros [=]|].
  unfold bind at 1. go_case as [w1 [[]|e|]] eqn Hesc; [|by intros [=]..].
  unfold bind at 1. go_case as [w2 [i|e|]] eqn Hnext; [|by intros [=]..].
  intros [= <- <-]. exists r, c, w1, w2. split_and!; try done.
  apply andb_false_iff in Ht. rewrite negb_false_iff, Z.eqb_eq, Z.ltb_ge in Ht. done.
Qed.

(** A new stream under the next id. *)
Lemma new_stream_refines st a payer payee token r start stop c :
  refines st a -> wf_abs a -> length payer = 20%nat -> length payee = 20%nat -> a_next a + 1 < 2 ^ 64 ->
  let id := a_next a in
  refines (SetStream_store (opened id payer payee token r start stop c) (<[NextStreamIDKey := VRaw (be8 (u64 (id + 1)))]> st))
    (insert_stream (opened id payer payee token r start stop c) (mkAbs (a_streams a) (id + 1) (a_params a))).
Proof.
  intros Hr Hwf Hpr Hpe Hid. pose proof (wf_next a Hwf) as Hn. cbv zeta.
  rewrite wrapU_small by lia. set (a1 := mkAbs _ (a_next a + 1) _).
  apply (refines_SetStream _ a1); [by apply refines_SetNext|apply wf_abs_advance; [done|lia]|simpl; lia|done..|].
  simpl. intros s' Hs'. destruct (wf_ids a Hwf _ _ Hs'). lia.
Qed.

(** ** The operations on streams in native PAX and standard tokens *)

Lemma settle_ok m w a ctx id s w' paid :
  refines (store w) a -> wf_abs a -> a_streams a !! id = Some s -> safe' (Token s) = true ->
  Settle (evm m) ctx id w = (w', Ok paid) ->
  paid = streamAccrued s (u64 (BlockTime ctx)) /\
  refines (store w') (insert_stream (pay paid s) a) /\
  moved' (ext w) (ext w') (Token s) ModuleAccountAddress (Payee s) paid.
Proof.
  intros Hr Hwf Hs Hsafe H. pose proof (wf_streams a Hwf _ _ Hs) as Hws. destruct (wf_ids a Hwf _ _ Hs) as [Hsid _].
  apply (settle_runs m w a) in H as (s' & w1 & Hs' & -> & Hpaid & Hx & Hst); [|done|done|by eapply wf_id_range].
  rewrite Hs in Hs'. injection Hs' as <-. apply paid_out_ok in Hpaid as (Hst1 & _ & Hm); [|apply Hws|done].
  split; [done|]. rewrite Hx, Hst, Hst1. split; [|done]. case_match eqn:Hz.
  - apply Z.eqb_eq in Hz. rewrite Hz, pay_0 by done. unfold insert_stream. rewrite insert_id by (by rewrite Hsid). by destruct a.
  - apply (refines_replace _ _ s); try done. unfold pay; simpl. by rewrite Hsid.
Qed.

Lemma close_ok m w a ctx id s caller w' paid :
  refines (store w) a -> wf_abs a -> a_streams a !! id = Some s -> safe' (Token s) = true ->
  Close (evm m) ctx id caller w = (w', Ok paid) ->
  exists x1, (caller = Payer s \/ caller = Payee s) /\
    paid = streamAccrued s (u64 (BlockTime ctx)) /\
    refines (store w') (remove_stream id a) /\
    moved' (ext w) x1 (Token s) ModuleAccountAddress (Payee s) paid /\
    moved' x1 (ext w') (Token s) ModuleAccountAddress (Payer s) (remaining s - paid).
Proof.
  intros Hr Hwf Hs Hsafe H. pose proof (wf_streams a Hwf _ _ Hs) as Hws.
  apply (close_runs m w a) in H as (s' & w1 & w2 & Hs' & Hc & -> & Hp1 & Hp2 & Hx & Hst); [|done|done|by eapply wf_id_range].
  rewrite Hs in Hs'. injection Hs' as <-. apply paid_out_ok in Hp1 as (Hst1 & _ & Hm1); [|apply Hws|done].
  apply paid_out_ok in Hp2 as (Hst2 & _ & Hm2); [|apply Hws|done].
  exists (ext w1). rewrite Hx, Hst, Hst2, Hst1. split_and!; try done. by apply (refines_DeleteStream _ _ Hr Hwf id s).
Qed.

Lemma update_ok m w a ctx id s caller newRate w' :
  refines (store w) a -> wf_abs a -> a_streams a !! id = Some s -> safe' (Token s) = true ->
  UpdateRate (evm m) ctx id caller newRate w = (w', Ok tt) ->
  exists r, caller = Payer s /\ newRate = Some r /\ 0 < r /\
    let now := u64 (BlockTime ctx) in
    let paid := streamAccrued s now in
    refines (store w') (insert_stream (with_Rate (BigString r) now (pay paid s)) a) /\
    moved' (ext w) (ext w') (Token s) ModuleAccountAddress (Payee s) paid.
Proof.
  intros Hr Hwf Hs Hsafe H. pose proof (wf_streams a Hwf _ _ Hs) as Hws. destruct (wf_ids a Hwf _ _ Hs) as [Hsid _].
  apply (update_runs m w a) in H as (s' & r & w1 & Hs' & Hc & -> & Hr0 & Hp & Hx & Hst); [|done|done|by eapply wf_id_range].
  rewrite Hs in Hs'. injection Hs' as <-. apply paid_out_ok in Hp as (Hst1 & _ & Hm); [|apply Hws|done].
  exists r. split_and!; try done. cbv zeta. rewrite Hx, Hst, Hst1. split; [|done].
  apply (refines_replace _ _ s); try done. simpl. by rewrite Hsid.
Qed.

Lemma open_ok m w a ctx payer payee token rate t0 t1 cap w' id :
  refines (store w) a -> wf_abs a ->
  length payer = 20%nat -> length payee = 20%nat -> length token = 20%nat -> safe' token = true ->
  id + 1 < 2 ^ 64 ->
  Open (evm m) ctx payer payee token rate t0 t1 cap w = (w', Ok id) ->
  exists r c, rate = Some r /\ cap = Some c /\ 0 < r /\ 0 < c /\ (isNativeToken token = true -> c < 2 ^ 256) /\
    payee <> zero_address /\ payer <> payee /\ id = a_next a /\
    let start := if t0 =? 0 then u64 (BlockTime ctx) else t0 in
    (t1 = 0 \/ u64 (start + MinDuration (a_params a)) <= t1) /\
    CountStreamsByPayer (store w) payer < MaxStreamsPerPayer (a_params a) /\
    refines (store w')
      (insert_stream (opened id payer payee token r start t1 c)
         (mkAbs (a_streams a) (id + 1) (a_params a))) /\
    moved' (ext w) (ext w') token payer ModuleAccountAddress c.
Proof.
  intros Hr Hwf Hpr Hpe Htok Hsafe Hid H. pose proof (wf_next a Hwf) as Hn.
  apply (open_runs m w a) in H as (r & c & w1 & w2 & -> & -> & Hr0 & Hc0 & Hz & Hne & Ht & Hcnt & Hesc & Hnext & Hx & Hst); [|done..].
  apply escrow_ok in Hesc as (Hst1 & _ & Hm & Hb); [|done..].
  rewrite (NextStreamID_spec w1 a) in Hnext by (done || by rewrite Hst1). injection Hnext as <- <-. cbn [ext store] in Hx, Hst.
  exists r, c. cbv zeta. rewrite Hx, Hst, Hst1. split_and!; try done.
  apply new_stream_refines; done || lia.
Qed.

Lemma wf_opened id payer payee token r start stop c :
  length payer = 20%nat -> length payee = 20%nat -> length token = 20%nat ->
  0 < r -> 0 < c -> 0 <= start < 2 ^ 64 -> 0 <= stop < 2 ^ 64 ->
  wf_stream (opened id payer payee token r start stop c) /\
  remaining (opened id payer payee token r start stop c) = c.
Proof.
  intros. split.
  - split; simpl; eauto. exists c, 0. split_and!; done || lia.
  - unfold remaining, opened, parseAmount; simpl. rewrite parseNonNeg_BigString by lia.
    change (parseNonNeg "0") with 0. lia.
Qed.

(** ** Functional theorems *)

(** C11: a successful [Close] splits the whole unsettled escrow of the stream
    between payee and payer, for a stream in native PAX or in a standard token.  Only
    the payer or the payee can close; the payee receives exactly what has accrued, the
    payer exactly the rest, the module account loses exactly [cap - settled], no other
    holding of any token changes, and the record and both index entries are gone. *)
Theorem close_distributes_escrow m w a ctx id caller w' paid :
  refines (store w) a -> wf_abs a -> 0 <= id < 2 ^ 64 ->
  (forall s, a_streams a !! id = Some s -> safe standard (Token s) = true) ->
  Close (evm m) ctx id caller w = (w', Ok paid) ->
  exists s, a_streams a !! id = Some s /\ (caller = Payer s \/ caller = Payee s) /\
    paid = streamAccrued s (u64 (BlockTime ctx)) /\
    refines (store w') (remove_stream id a) /\
    forall t h, length t = 20%nat ->
      holding balanceOf (ext w') t h = holding balanceOf (ext w) t h
        + (if decide (t = Token s) then
             (if decide (h = Payee s) then paid else 0)
             + (if decide (h = Payer s) then remaining s - paid else 0)
             - (if decide (h = ModuleAccountAddress) then remaining s else 0)
           else 0).
Proof.
  intros Hr Hwf Hid Hsafe H. destruct (close_runs m w a ctx id caller w' paid Hr Hwf Hid H) as (s & _ & _ & Hl & _).
  destruct (close_ok m w a ctx id s caller w' paid Hr Hwf Hl (Hsafe s Hl) H) as (x1 & Hc & -> & Hr' & Hm1 & Hm2).
  exists s. split_and!; [done..|]. intros t h Ht. rewrite (Hm2 t h Ht), (Hm1 t h Ht).
  repeat case_decide; naive_solver lia.
Qed.

Lemma accrued_after_pay s now :
  wf_stream s -> now < 2 ^ 64 -> streamAccrued (pay (streamAccrued s now) s) now = 0.
Proof.
  intros Hws Hnow. pose proof (accrued_bounds s now Hws Hnow) as Hp.
  destruct (wf_pay s _ Hws Hp) as [Hws' _].
  pose proof Hws as [_ _ _ (r & Hr & Er) (c & n & Hc & Hn & Ec & En) Hst _ _].
  rewrite (streamAccrued_ref s _ r c n) in * by (done || lia).
  rewrite (streamAccrued_ref _ _ r c (n + accrued_ref r c n s now)).
  - unfold accrued_ref, elapsed_ref; simpl. lia.
  - simpl. lia.
  - done.
  - done.
  - done.
  - simpl. rewrite En. unfold parseAmount. by rewrite parseNonNeg_BigString by lia.
  - lia.
  - lia.
  - unfold accrued_ref; lia.
Qed.

(** C22: a successful [Settle] of a stream in native PAX or in a standard token pays
    the payee exactly what has accrued out of the module account, adds it to [Settled]
    and changes nothing else in the store; settling again at the same block time
    succeeds, returns zero and changes nothing, so no caller can draw the same accrual
    twice. *)
Theorem settle_pays_once m w a ctx id w' paid :
  refines (store w) a -> wf_abs a -> 0 <= id < 2 ^ 64 ->
  (forall s, a_streams a !! id = Some s -> safe standard (Token s) = true) ->
  Settle (evm m) ctx id w = (w', Ok paid) ->
  (exists s, a_streams a !! id = Some s /\
    paid = streamAccrued s (u64 (BlockTime ctx)) /\
    refines (store w') (insert_stream (pay paid s) a) /\
    moved balanceOf (ext w) (ext w') (Token s) ModuleAccountAddress (Payee s) paid) /\
  forall m', Settle (evm m') ctx id w' = (w', Ok 0).
Proof.
  intros Hr Hwf Hid Hsafe H. destruct (settle_runs m w a ctx id w' paid Hr Hwf Hid H) as (s & _ & Hl & _).
  destruct (settle_ok m w a ctx id s w' paid Hr Hwf Hl (Hsafe s Hl) H) as (-> & Hr' & Hm).
  split; [by eauto|]. intros m'.
  pose proof (wf_streams a Hwf _ _ Hl) as Hws. destruct (wf_ids a Hwf _ _ Hl) as [Hsid Hlt].
  pose proof (accrued_bounds s (u64 (BlockTime ctx)) Hws ltac:(apply now_range)) as Hp.
  destruct (wf_pay s _ Hws Hp) as [Hws' Hrem].
  unfold Settle. unfold bind at 1.
  rewrite (get_active_spec w' _ id Hr'); [|apply wf_insert; [done|done|by eapply native_pay, wf_native|simpl; lia]|done].
  simpl. rewrite Hsid, lookup_insert_eq. rewrite accrued_after_pay by (done || apply now_range).
  done.
Qed.

(** what a successful [Open] of a stream in native PAX or in a standard token does.
    Rate and cap are positive, the payee is neither the zero address nor the payer, the
    payer was below the stream limit, the id is the counter's value; exactly the cap
    moves from the payer to the module account, the stored stream is active, unsettled
    and starts at the requested time or now, and the counter advances by one. *)
Theorem open_escrows_cap m w a ctx payer payee token rate t0 t1 cap w' id :
  refines (store w) a -> wf_abs a ->
  length payer = 20%nat -> length payee = 20%nat -> length token = 20%nat -> safe standard token = true ->
  id + 1 < 2 ^ 64 ->
  Open (evm m) ctx payer payee token rate t0 t1 cap w = (w', Ok id) ->
  exists r c, rate = Some r /\ cap = Some c /\ 0 < r /\ 0 < c /\ (isNativeToken token = true -> c < 2 ^ 256) /\
    payee <> zero_address /\ payer <> payee /\ id = a_next a /\
    let start := if t0 =? 0 then u64 (BlockTime ctx) else t0 in
    (t1 = 0 \/ u64 (start + MinDuration (a_params a)) <= t1) /\
    CountStreamsByPayer (store w) payer < MaxStreamsPerPayer (a_params a) /\
    refines (store w')
      (insert_stream (opened id payer payee token r start t1 c)
         (mkAbs (a_streams a) (id + 1) (a_params a))) /\
    moved balanceOf (ext w) (ext w') token payer ModuleAccountAddress c.
Proof. apply open_ok. Qed.

Lemma settle_err m w ctx id w' e : Settle (evm m) ctx id w = (w', Err e) -> w' = w.
Proof.
  unfold Settle, get_active, bind, gets.
  destruct (GetStream (store w) id) as [s|]; [|by intros [=]].
  destruct (negb (Active s)); [by intros [=]|]. simpl.
  destruct (_ =? 0); [by intros [=]|].
  go_case as [w1 [[]|e1|]] eqn Hp; intros [= <- _]. by eapply payOut_err.
Qed.

Lemma update_err m w ctx id caller rate w' e :
  UpdateRate (evm m) ctx id caller rate w = (w', Err e) -> w' = w.
Proof.
  unfold UpdateRate, get_active. unfold bind at 1 2, gets.
  destruct (GetStream (store w) id) as [s|]; [|by intros [=]].
  destruct (negb (Active s)); [by intros [=]|]. simpl.
  unfold bind at 1, guard. destruct (equalAddress caller (Payer s)); [|by intros [=]]. simpl.
  unfold require_positive, bind at 1. destruct rate as [r|]; [|by intros [=]].
  destruct (r <=? 0); [by intros [=]|]. simpl.
  unfold bind at 1. go_case as [w1 [s1|e1|]] eqn Hb; intros [= <- _].
  by eapply settle_block_err.
Qed.

Lemma NextStreamID_no_err (w : world X) w' e : NextStreamID w <> (w', Err e).
Proof.
  unfold NextStreamID, SetNextStreamID, read_u64, update_store. go_unfold.
  destruct (store w !! NextStreamIDKey) as [[| |bz]|]; try by intros [=].
  by destruct (Nat.ltb _ _).
Qed.

Lemma open_err m w ctx payer payee token rate t0 t1 cap w' e :
  Open (evm m) ctx payer payee token rate t0 t1 cap w = (w', Err e) -> w' = w.
Proof.
  unfold Open. unfold bind at 1, guard at 1.
  destruct (negb _); simpl; [|by intros [=]].
  unfold bind at 1, guard at 1. destruct (negb _); simpl; [|by intros [=]].
  unfold bind at 1. unfold require_positive at 1.
  destruct rate as [r|]; simpl; [|by intros [=]]. destruct (r <=? 0); simpl; [by intros [=]|].
  unfold bind at 1. unfold require_positive at 1.
  destruct cap as [c|]; simpl; [|by intros [=]]. destruct (c <=? 0); simpl; [by intros [=]|].
  unfold bind at 1, gets at 1. unfold bind at 1, guard at 1.
  destruct (negb _); simpl; [|by intros [=]].
  unfold bind at 1, gets at 1. unfold bind at 1, guard at 1.
  destruct (negb _); simpl; [|by intros [=]].
  unfold bind at 1. go_case as [w1 [[]|e1|]] eqn Hesc.
  - unfold bind at 1. go_case as [w2 [n|e2|]] eqn Hn; [by intros [=]| |by intros [=]].
    by apply NextStreamID_no_err in Hn.
  - intros [= <- _]. by eapply escrow_err.
  - by intros [=].
Qed.

(** a failed [Open], [Settle] or [UpdateRate] changes nothing, neither the
    store nor any balance nor the event log. *)
Theorem failed_operation_changes_nothing w w' e :
  (exists m ctx payer payee token rate t0 t1 cap,
     Open (evm m) ctx payer payee token rate t0 t1 cap w = (w', Err e)) \/
  (exists m ctx id, Settle (evm m) ctx id w = (w', Err e)) \/
  (exists m ctx id caller rate, UpdateRate (evm m) ctx id caller rate w = (w', Err e)) ->
  w' = w.
Proof.
  intros [(? & ? & ? & ? & ? & ? & ? & ? & ? & H)|[(? & ? & ? & H)|(? & ? & ? & ? & ? & H)]];
    eauto using open_err, settle_err, update_err.
Qed.


(** ** Progress for native streams *)

Lemma payOut_native_covered m ctx payee n w :
  0 < n < 2 ^ 256 -> n <= GetBalance (ext w) ModuleAccountAddress DefaultEVMDenom ->
  BlockedAddr payee = false ->
  exists w', payOutToPayee (evm m) ctx payee zero_address (Some n) w = (w', Ok tt).
Proof.
  intros Hn Hb Ha. unfold payOutToPayee. destruct (Z.leb_spec n 0); [lia|].
  change (isNativeToken zero_address) with true. unfold NewIntFromBigInt, run_ext. go_unfold.
  rewrite (proj2 (Z.ltb_lt (Z.abs n) _)) by lia.
  destruct (module_to_account_covered (ext w) ModuleAccountName payee DefaultEVMDenom n)
    as [x' ->]; [lia|done|done|by eexists].
Qed.

Lemma outstanding_ge a id s :
  wf_abs a -> a_streams a !! id = Some s -> remaining s <= outstanding a (Token s).
Proof.
  intros Hwf Hs.
  pose proof (outstanding_remove a id s (Token s) Hs) as Ho.
  rewrite decide_True in Ho by done.
  assert (0 <= outstanding (remove_stream id a) (Token s)); [|lia].
  apply sumZ_nonneg, Forall_forall. intros [i s'] Hi. apply elem_of_map_to_list in Hi. simpl in *.
  apply lookup_delete_Some in Hi as [_ Hi].
  destruct (wf_streams a Hwf _ _ Hi) as [_ _ _ _ (c & n & Hc & Hn & Ec & En) _ _ _].
  case_decide; [|lia]. unfold remaining, parseAmount.
  rewrite Ec, En, !parseNonNeg_BigString by lia. lia.
Qed.

Lemma custody_native x : custody balanceOf x zero_address = GetBalance x ModuleAccountAddress DefaultEVMDenom.
Proof. done. Qed.

Lemma native_remaining a id s : wf_abs a -> a_streams a !! id = Some s -> Token s = zero_address -> remaining s < 2 ^ 256.
Proof.
  intros Hwf Hs Ht. pose proof (wf_native a Hwf _ _ Hs) as Hn. unfold native_fits in Hn. rewrite Ht in Hn. specialize (Hn eq_refl).
  destruct (wf_streams a Hwf _ _ Hs) as [_ _ _ _ (c & n & Hc & Hn0 & Ec & En) _ _ _].
  unfold remaining, parseAmount in *. rewrite Ec, En, !parseNonNeg_BigString in * by lia. lia.
Qed.

(** C35: nobody can block a native stream.  In every state of the invariant a
    stream in native coin whose payer and payee may receive coins can be settled
    by anybody, and closed by either party, at any time: the calls succeed and
    report exactly the accrued amount. *)
Theorem native_stream_progress m w a ctx id s caller :
  inv balanceOf standard w a -> a_streams a !! id = Some s -> Token s = zero_address ->
  BlockedAddr (Payee s) = false -> BlockedAddr (Payer s) = false ->
  caller = Payer s \/ caller = Payee s ->
  (exists w', Settle (evm m) ctx id w = (w', Ok (streamAccrued s (u64 (BlockTime ctx))))) /\
  (exists w', Close (evm m) ctx id caller w = (w', Ok (streamAccrued s (u64 (BlockTime ctx))))).
Proof.
  intros (Hr & Hwf & Hsol) Hs Htok Hpe Hpr Hcaller.
  pose proof (wf_id_range _ Hwf _ _ Hs) as Hid.
  pose proof (wf_streams a Hwf _ _ Hs) as Hws.
  pose proof (accrued_bounds s (u64 (BlockTime ctx)) Hws ltac:(apply now_range)) as Hp.
  pose proof (outstanding_ge a id s Hwf Hs) as Hge. rewrite Htok in Hge.
  pose proof (Hsol zero_address eq_refl eq_refl) as Hcov. rewrite custody_native in Hcov.
  pose proof (native_remaining a id s Hwf Hs Htok) as Hfit.
  set (p := streamAccrued s (u64 (BlockTime ctx))) in *.
  assert (0 < p -> exists w', payOutToPayee (evm m) ctx (BytesToAddress (Payee s)) (Token s)
                      (Some p) w = (w', Ok tt)) as Hpay.
  { intros Hpos. rewrite BytesToAddress_20, Htok by apply Hws.
    apply payOut_native_covered; lia || done. }
  split.
  - unfold Settle. unfold bind at 1. rewrite (get_active_spec w a), Hs by done. fold p.
    destruct (Z.eqb_spec p 0) as [->|]; [by eexists|].
    destruct Hpay as [w1 E]; [lia|]. unfold bind at 1. rewrite E. by eexists.
  - unfold Close. unfold bind at 1. rewrite (get_active_spec w a), Hs by done. fold p.
    unfold bind at 1, guard at 1. rewrite !equalAddress_spec.
    rewrite (proj2 (orb_true_iff _ _)) by (rewrite !bool_decide_eq_true; done). simpl.
    destruct (wf_pay s p Hws Hp) as [Hws' Hrem].
    unfold bind at 1.
    match goal with |- exists w', (match ?c with _ => _ end) = _ => destruct c as [w1 [s1|e|]] eqn:Hb end.
    2,3: destruct (Z.ltb_spec 0 p); [|done]; destruct Hpay as [w2 E]; [done|];
      unfold bind in Hb; by rewrite E in Hb.
    pose proof Hb as Hb'. apply settle_block_ok in Hb' as (-> & Hpd); [|done..].
    apply paid_out_ok in Hpd as (Hst & Hev & Hm); [|apply Hws|by rewrite Htok].
    fold (remaining (pay p s)). rewrite Hrem.
    destruct (Z.ltb_spec (remaining s - p) 0); [lia|].
    destruct (Z.ltb_spec 0 (remaining s - p)) as [Hpos|Hz]; [|by eexists].
    unfold bind at 1. unfold refundToPayer. rewrite BytesToAddress_20 by apply Hws.
    change (Token (pay p s)) with (Token s). rewrite Htok.
    destruct (payOut_native_covered m ctx (Payer s) (remaining s - p) w1) as [w2 ->];
      [lia| |done|by eexists].
    specialize (Hm zero_address ModuleAccountAddress eq_refl). unfold holding in Hm.
    change (isNativeToken zero_address) with true in Hm. rewrite Htok in Hm.
    repeat case_decide; naive_solver lia.
Qed.

(** [Close] pays the payee before it refunds the payer and returns the
    payee's error, so a payee on the bank's block list makes every [Close] of a
    native stream fail once anything has accrued: the call changes nothing and
    the payer's refund stays locked. *)
Theorem blocked_payee_locks_refund m w a ctx id s caller :
  refines (store w) a -> wf_abs a ->
  a_streams a !! id = Some s -> Token s = zero_address ->
  BlockedAddr (Payee s) = true -> 0 < streamAccrued s (u64 (BlockTime ctx)) ->
  exists e, Close (evm m) ctx id caller w = (w, Err e).
Proof.
  intros Hr Hwf Hs Htok Hblk Hpos.
  pose proof (wf_id_range _ Hwf _ _ Hs) as Hid. pose proof (wf_streams a Hwf _ _ Hs) as Hws.
  unfold Close. unfold bind at 1. rewrite (get_active_spec w a), Hs by done.
  unfold bind at 1, guard at 1. destruct (_ || _); [|by eexists]. simpl.
  unfold bind at 1. rewrite (proj2 (Z.ltb_lt _ _) Hpos).
  unfold bind at 1, payOutToPayee.
  destruct (Z.leb_spec (streamAccrued s (u64 (BlockTime ctx))) 0); [lia|].
  rewrite Htok. change (isNativeToken zero_address) with true. unfold NewIntFromBigInt, run_ext. go_unfold.
  pose proof (accrued_bounds s (u64 (BlockTime ctx)) Hws ltac:(apply now_range)).
  pose proof (native_remaining a id s Hwf Hs Htok). rewrite (proj2 (Z.ltb_lt (Z.abs _) _)) by lia.
  rewrite BytesToAddress_20 by apply Hws.
  destruct (module_to_account_blocked (ext w) ModuleAccountName (Payee s)
    (DefaultEVMDenom, streamAccrued s (u64 (BlockTime ctx))) Hblk) as [e ->].
  exists (ErrExternal e). by destruct w.
Qed.


End Ops.
