(* ===== verification/StreamsSolvency.v ===== *)
(** [x/streams]: the escrow stays solvent, whatever contracts are streamed.

    A stream may name any contract as its token, and its calls may come back into the
    module before the operation that made them has written its record.  The proof goes
    by the call depth: below, the invariant holds and streams keep their parties and
    token; the record that is then written back, out of date as it may be, is one of a
    token that the solvency does not speak of. *)

From stdpp Require Import base list gmap strings sorting relations.
From Stdlib Require Import ZArith Lia.
From S2P Require Import Prelude KVStore BigInt Ledger Streams StreamsProps.
Open Scope Z_scope.
Open Scope go_scope.

(** From [a] to [a'] ids are not reused: a stream of [a'] with an id that [a] had
    given out is one of [a], with the same parties and the same token. *)
Definition follows (a a' : abs) : Prop :=
  a_next a <= a_next a' /\
  forall id s', a_streams a' !! id = Some s' -> id < a_next a ->
    exists s, a_streams a !! id = Some s /\ Payer s' = Payer s /\ Payee s' = Payee s /\ Token s' = Token s.

Lemma follows_refl a : follows a a.
Proof. split; [done|]. intros id s H _. by exists s. Qed.

Lemma follows_trans a1 a2 a3 : follows a1 a2 -> follows a2 a3 -> follows a1 a3.
Proof.
  intros [H1 F1] [H2 F2]. split; [lia|]. intros id s' Hs Hid. destruct (F2 id s' Hs ltac:(lia)) as (s2 & Hs2 & E1 & E2 & E3).
  destruct (F1 id s2 Hs2 Hid) as (s1 & Hs1 & G1 & G2 & G3). exists s1. split; [done|]. split_and!; congruence.
Qed.

(** Writing back a stream of [a] into [a']. *)
Lemma follows_insert a a' s s' : follows a a' -> a_streams a !! ID s' = Some s ->
  Payer s' = Payer s -> Payee s' = Payee s -> Token s' = Token s -> follows a (insert_stream s' a').
Proof.
  intros [Hn F] Hs E1 E2 E3. split; [done|]. intros id s0. simpl. intros [[<- <-]|[_ H]]%lookup_insert_Some Hid; [by exists s|by apply F].
Qed.

Lemma follows_remove a a' id : follows a a' -> follows a (remove_stream id a').
Proof. intros [Hn F]. split; [done|]. intros id' s'. simpl. intros [_ H]%lookup_delete_Some. by apply F. Qed.

Lemma follows_new a s : wf_abs a -> ID s = a_next a -> follows a (insert_stream s (mkAbs (a_streams a) (a_next a + 1) (a_params a))).
Proof.
  intros Hwf Hid. split; [simpl; lia|]. intros id s'. simpl. intros [[<- <-]|[_ H]]%lookup_insert_Some Hlt; [lia|by exists s'].
Qed.

(** Streams of other tokens do not count. *)
Lemma outstanding_other a s t : Token s <> t -> (forall s0, a_streams a !! ID s = Some s0 -> Token s0 = Token s) ->
  outstanding (insert_stream s a) t = outstanding a t.
Proof.
  intros Hne Hs. destruct (a_streams a !! ID s) as [s0|] eqn:E.
  - rewrite (outstanding_insert a s0 s t) by (done || by rewrite (Hs s0)). rewrite decide_False; [lia|]. by rewrite (Hs s0).
  - rewrite outstanding_new by done. rewrite decide_False by done. lia.
Qed.

Section Solvency.
Context {X : Type} {BK : BankKeeper X} {BL : BankLaws X} {EC : EthCommon}.
Context (evm : nat -> Evm X).
Context (balanceOf : X -> bytes -> bytes -> Z).
Context (standard : bytes -> bool).
Context (TL : token_laws evm balanceOf standard).

Abbreviation moved' := (moved balanceOf).
Abbreviation solvent' := (solvent balanceOf standard).
Abbreviation inv' := (inv balanceOf standard).
Abbreviation act' := (act evm balanceOf standard).

(** ** Streams in native PAX and standard tokens *)

(** A payment out of escrow of at most what a stream still holds. *)
Lemma solvent_paid x x' a a' tok dst n :
  solvent' x a -> moved' x x' tok ModuleAccountAddress dst n -> 0 <= n ->
  (forall t, length t = 20%nat ->
     outstanding a' t = outstanding a t - (if decide (tok = t) then n else 0)) ->
  solvent' x' a'.
Proof.
  intros Hs Hm Hn Ho t Ht Hsafe. specialize (Hs t Ht Hsafe). rewrite Ho by done.
  unfold custody in *. rewrite (Hm t _ Ht).
  repeat case_decide; naive_solver lia.
Qed.

(** A stored stream that pays [p] and may change its rate. *)
Lemma paid_inv w w' a id s s' p :
  inv' w a -> a_streams a !! id = Some s -> 0 <= p -> wf_stream s' -> native_fits s' -> ID s' = ID s -> Token s' = Token s ->
  Payer s' = Payer s -> Payee s' = Payee s -> remaining s' = remaining s - p ->
  refines (store w') (insert_stream s' a) -> moved' (ext w) (ext w') (Token s) ModuleAccountAddress (Payee s) p ->
  exists a', inv' w' a' /\ follows a a'.
Proof.
  intros (Hr & Hwf & Hsol) Hs Hp Hws Hnat Hid Htok Hpr Hpe Hrem Hr' Hm. destruct (wf_ids a Hwf _ _ Hs) as [Hsid Hlt].
  exists (insert_stream s' a). split; [split_and!; [done|apply wf_insert; [done..|lia]|]|].
  - eapply solvent_paid; [done|exact Hm|done|]. intros t _. rewrite (outstanding_insert _ s) by congruence.
    rewrite Hrem. repeat case_decide; lia.
  - apply (follows_insert a a s); [apply follows_refl|congruence|done..].
Qed.

Lemma settle_inv m w a ctx id s w' paid :
  inv' w a -> a_streams a !! id = Some s -> safe standard (Token s) = true ->
  Settle (evm m) ctx id w = (w', Ok paid) -> exists a', inv' w' a' /\ follows a a'.
Proof.
  intros Hi Hs Hsafe H. pose proof Hi as (Hr & Hwf & _).
  destruct (settle_ok evm balanceOf standard TL m w a ctx id s w' paid Hr Hwf Hs Hsafe H) as (-> & Hr' & Hm).
  pose proof (wf_streams a Hwf _ _ Hs) as Hws.
  pose proof (accrued_bounds s (u64 (BlockTime ctx)) Hws ltac:(apply now_range)) as Hp.
  destruct (wf_pay s _ Hws Hp) as [Hws' Hrem].
  apply (paid_inv w w' a id s (pay (streamAccrued s (u64 (BlockTime ctx))) s) (streamAccrued s (u64 (BlockTime ctx)))); try done; [lia|exact (wf_native a Hwf _ _ Hs)].
Qed.

Lemma update_inv m w a ctx id s caller rate w' :
  inv' w a -> a_streams a !! id = Some s -> safe standard (Token s) = true ->
  UpdateRate (evm m) ctx id caller rate w = (w', Ok tt) -> exists a', inv' w' a' /\ follows a a'.
Proof.
  intros Hi Hs Hsafe H. pose proof Hi as (Hr & Hwf & _).
  destruct (update_ok evm balanceOf standard TL m w a ctx id s caller rate w' Hr Hwf Hs Hsafe H) as (r & _ & _ & Hr0 & Hr' & Hm).
  pose proof (wf_streams a Hwf _ _ Hs) as Hws.
  pose proof (accrued_bounds s (u64 (BlockTime ctx)) Hws ltac:(apply now_range)) as Hp.
  destruct (wf_pay s _ Hws Hp) as [Hws' Hrem].
  apply (paid_inv w w' a id s (with_Rate (BigString r) (u64 (BlockTime ctx)) (pay (streamAccrued s (u64 (BlockTime ctx))) s))
    (streamAccrued s (u64 (BlockTime ctx)))); try done; [lia| |exact (wf_native a Hwf _ _ Hs)].
  apply wf_with_Rate; [done|apply now_range|done].
Qed.

Lemma close_inv m w a ctx id s caller w' paid :
  inv' w a -> a_streams a !! id = Some s -> safe standard (Token s) = true ->
  Close (evm m) ctx id caller w = (w', Ok paid) -> exists a', inv' w' a' /\ follows a a'.
Proof.
  intros (Hr & Hwf & Hsol) Hs Hsafe H.
  destruct (close_ok evm balanceOf standard TL m w a ctx id s caller w' paid Hr Hwf Hs Hsafe H) as (x1 & _ & -> & Hr' & Hm1 & Hm2).
  pose proof (wf_streams a Hwf _ _ Hs) as Hws. destruct (wf_ids a Hwf _ _ Hs) as [Hsid Hlt].
  pose proof (accrued_bounds s (u64 (BlockTime ctx)) Hws ltac:(apply now_range)) as Hp.
  set (p := streamAccrued _ _) in *. destruct (wf_pay s p Hws Hp) as [Hws' Hrem].
  exists (remove_stream id a). split; [|apply follows_remove, follows_refl]. split_and!; [exact Hr'|by apply wf_remove|].
  assert (solvent' x1 (insert_stream (pay p s) a)) as Hs1.
  { eapply solvent_paid; [done|exact Hm1|lia|]. intros t _.
    rewrite (outstanding_insert _ s) by (simpl; congruence).
    rewrite Hrem. repeat case_decide; lia. }
  eapply solvent_paid; [exact Hs1|exact Hm2|lia|]. intros t _.
  rewrite (outstanding_insert _ s), (outstanding_remove _ _ s) by (simpl; congruence).
  rewrite Hrem. repeat case_decide; lia.
Qed.

Lemma start_range ctx t0 : 0 <= t0 < 2 ^ 64 -> 0 <= (if t0 =? 0 then u64 (BlockTime ctx) else t0) < 2 ^ 64.
Proof. intros H. destruct (_ =? _); [apply now_range|done]. Qed.

(** A new stream: its record and its share of what is owed. *)
Lemma new_stream_inv a payer payee token r start stop c :
  wf_abs a -> length payer = 20%nat -> length payee = 20%nat -> length token = 20%nat -> 0 < r -> 0 < c ->
  (isNativeToken token = true -> c < 2 ^ 256) -> 0 <= start < 2 ^ 64 -> 0 <= stop < 2 ^ 64 -> a_next a + 1 < 2 ^ 64 ->
  let s := opened (a_next a) payer payee token r start stop c in
  let a' := insert_stream s (mkAbs (a_streams a) (a_next a + 1) (a_params a)) in
  wf_abs a' /\ follows a a' /\ forall t, outstanding a' t = outstanding a t + (if decide (token = t) then c else 0).
Proof.
  intros Hwf Hpr Hpe Htok Hr Hc Hb Hst Hsp Hid s a'. pose proof (wf_next a Hwf) as Hn.
  destruct (wf_opened (a_next a) payer payee token r start stop c) as [Hws Hrem]; [done..|].
  split_and!.
  - apply wf_insert; [apply wf_abs_advance; [done|lia]|done| |simpl; lia]. intros Hnat. unfold parseAmount, s, opened. cbn [Cap].
    rewrite parseNonNeg_BigString by lia. by apply Hb.
  - by apply follows_new.
  - intros t. unfold a'. rewrite outstanding_new; [unfold s; by rewrite Hrem|].
    simpl. destruct (a_streams a !! a_next a) eqn:E; [|done]. destruct (wf_ids a Hwf _ _ E). lia.
Qed.

Lemma open_inv m w a ctx payer payee token rate t0 t1 cap w' id :
  inv' w a -> payer <> ModuleAccountAddress ->
  length payer = 20%nat -> length payee = 20%nat -> length token = 20%nat -> safe standard token = true ->
  0 <= t0 < 2 ^ 64 -> 0 <= t1 < 2 ^ 64 -> id + 1 < 2 ^ 64 ->
  Open (evm m) ctx payer payee token rate t0 t1 cap w = (w', Ok id) ->
  exists a', inv' w' a' /\ follows a a'.
Proof.
  intros (Hr & Hwf & Hs) Hmod Hpr Hpe Htok Hsafe Ht0 Ht1 Hid H.
  apply (open_ok evm balanceOf standard TL m _ a) in H as
    (r & c & -> & -> & Hr0 & Hc0 & Hb & _ & _ & -> & _ & _ & Hr' & Hm); [|done..].
  destruct (new_stream_inv a payer payee token r _ t1 c Hwf Hpr Hpe Htok Hr0 Hc0 Hb (start_range ctx t0 Ht0) Ht1 Hid) as (Hwf' & Hf & Ho).
  eexists. split; [split_and!; [exact Hr'|exact Hwf'|]|exact Hf].
  intros t Ht Hst. rewrite Ho. specialize (Hs t Ht Hst). unfold custody in *. rewrite (Hm t _ Ht).
  repeat case_decide; naive_solver lia.
Qed.

(** ** Streams in any other contract *)

(** What a call of such a contract leads to, if everything below keeps the invariant. *)
Definition keeps_below (m : nat) : Prop :=
  forall w a w', inv' w a -> rtc (act' m) w w' -> exists a', inv' w' a' /\ follows a a'.

Lemma other_call m ctx dst tok n w w1 a :
  keeps_below m -> length tok = 20%nat -> safe standard tok = false -> inv' w a ->
  paid_out evm m ctx dst tok n w w1 -> exists a', inv' w1 a' /\ follows a a'.
Proof.
  intros Hk Hl Hs Hi [[_ ->]|[Hn H]]; [exists a; split; [done|apply follows_refl]|].
  apply orb_false_iff in Hs as [Hnat Hstd]. destruct (payOut_erc20 evm m ctx dst tok n w w1 Hn Hl Hnat H) as (nonce & gas & data & _ & Hc).
  eapply Hk; [done|]. by eapply (other_ok _ _ _ TL) in Hc.
Qed.

(** Writing the record of a stream back. *)
Lemma write_back w w' a a1 id s s' : inv' w a1 -> follows a a1 -> wf_abs a -> a_streams a !! id = Some s ->
  wf_stream s' -> ID s' = ID s -> Token s' = Token s -> Payer s' = Payer s -> Payee s' = Payee s ->
  safe standard (Token s) = false ->
  ext w' = ext w -> store w' = SetStream_store s' (store w) -> exists a', inv' w' a' /\ follows a a'.
Proof.
  intros (Hr & Hwf1 & Hsol) Hf Hwf Hs Hws Hid Htok Hpr Hpe Hsafe Hx Hst. pose proof Hf as [Hnx Hfol].
  destruct (wf_ids a Hwf _ _ Hs) as [Hsid Hlt]. pose proof (wf_next a1 Hwf1) as Hn1.
  assert (forall s0, a_streams a1 !! ID s' = Some s0 -> Payer s0 = Payer s' /\ Payee s0 = Payee s' /\ Token s0 = Token s') as Hsame.
  { intros s0 H0. rewrite Hid, Hsid in H0. destruct (Hfol id s0 H0 ltac:(lia)) as (s1 & Hs1 & ? & ? & ?).
    rewrite Hs in Hs1. injection Hs1 as <-. split_and!; congruence. }
  exists (insert_stream s' a1). split; [split_and!|].
  - rewrite Hst. apply refines_SetStream; [done|done|lia|apply Hws|apply Hws|]. intros s0 H0. by destruct (Hsame s0 H0) as (? & ? & _).
  - apply wf_insert; [done|done| |lia]. intros Hnat. rewrite Htok in Hnat. unfold safe in Hsafe. by rewrite Hnat in Hsafe.
  - intros t Ht Hst'. rewrite Hx. rewrite outstanding_other; [by apply Hsol| |].
    + rewrite Htok. intros <-. congruence.
    + intros s0 H0. by destruct (Hsame s0 H0) as (_ & _ & ?).
  - apply (follows_insert a a1 s); congruence || done.
Qed.

Lemma settle_other m w a ctx id s w' paid :
  keeps_below m -> inv' w a -> a_streams a !! id = Some s -> safe standard (Token s) = false ->
  Settle (evm m) ctx id w = (w', Ok paid) -> exists a', inv' w' a' /\ follows a a'.
Proof.
  intros Hk Hi Hs Hsafe H. pose proof Hi as (Hr & Hwf & _). pose proof (wf_streams a Hwf _ _ Hs) as Hws.
  apply (settle_runs evm m w a) in H as (s' & w1 & Hs' & -> & Hpaid & Hx & Hst); [|done|done|by eapply wf_id_range].
  rewrite Hs in Hs'. injection Hs' as <-.
  pose proof (accrued_bounds s (u64 (BlockTime ctx)) Hws ltac:(apply now_range)) as Hp. destruct (wf_pay s _ Hws Hp) as [Hws' _].
  destruct (other_call m ctx _ _ _ w w1 a Hk (wf_token _ Hws) Hsafe Hi Hpaid) as (a1 & Hi1 & Hf1).
  destruct (_ =? 0); [|by eapply (write_back w1 w' a a1 id s)].
  exists a1. split; [|done]. destruct Hi1 as (? & ? & ?). split_and!; [by rewrite Hst|done|by rewrite Hx].
Qed.

Lemma update_other m w a ctx id s caller rate w' :
  keeps_below m -> inv' w a -> a_streams a !! id = Some s -> safe standard (Token s) = false ->
  UpdateRate (evm m) ctx id caller rate w = (w', Ok tt) -> exists a', inv' w' a' /\ follows a a'.
Proof.
  intros Hk Hi Hs Hsafe H. pose proof Hi as (Hr & Hwf & _). pose proof (wf_streams a Hwf _ _ Hs) as Hws.
  apply (update_runs evm m w a) in H as (s' & r & w1 & Hs' & _ & _ & Hr0 & Hpaid & Hx & Hst); [|done|done|by eapply wf_id_range].
  rewrite Hs in Hs'. injection Hs' as <-.
  pose proof (accrued_bounds s (u64 (BlockTime ctx)) Hws ltac:(apply now_range)) as Hp. destruct (wf_pay s _ Hws Hp) as [Hws' _].
  destruct (other_call m ctx _ _ _ w w1 a Hk (wf_token _ Hws) Hsafe Hi Hpaid) as (a1 & Hi1 & Hf1).
  apply (write_back w1 w' a a1 id s (with_Rate (BigString r) (u64 (BlockTime ctx)) (pay (streamAccrued s (u64 (BlockTime ctx))) s))); try done.
  apply wf_with_Rate; [done|apply now_range|done].
Qed.

Lemma close_other m w a ctx id s caller w' paid :
  keeps_below m -> inv' w a -> a_streams a !! id = Some s -> safe standard (Token s) = false ->
  Close (evm m) ctx id caller w = (w', Ok paid) -> exists a', inv' w' a' /\ follows a a'.
Proof.
  intros Hk Hi Hs Hsafe H. pose proof Hi as (Hr & Hwf & _). pose proof (wf_streams a Hwf _ _ Hs) as Hws.
  destruct (wf_ids a Hwf _ _ Hs) as [Hsid Hlt].
  apply (close_runs evm m w a) in H as (s' & w1 & w2 & Hs' & _ & -> & Hp1 & Hp2 & Hx & Hst); [|done|done|by eapply wf_id_range].
  rewrite Hs in Hs'. injection Hs' as <-.
  destruct (other_call m ctx _ _ _ w w1 a Hk (wf_token _ Hws) Hsafe Hi Hp1) as (a1 & Hi1 & Hf1).
  destruct (other_call m ctx _ _ _ w1 w2 a1 Hk (wf_token _ Hws) Hsafe Hi1 Hp2) as (a2 & Hi2 & Hf2).
  pose proof (follows_trans _ _ _ Hf1 Hf2) as Hf. pose proof Hf as [Hnx Hfol]. destruct Hi2 as (Hr2 & Hwf2 & Hsol2).
  pose proof (wf_next a2 Hwf2). destruct (a_streams a2 !! id) as [s2|] eqn:E2.
  - destruct (Hfol id s2 E2 ltac:(lia)) as (s0 & Hs0 & Hpr & Hpe & Htok). rewrite Hs in Hs0. injection Hs0 as <-.
    exists (remove_stream id a2). split; [split_and!|by apply follows_remove].
    + rewrite Hst. pose proof (refines_DeleteStream _ _ Hr2 Hwf2 id s2 E2) as Hd. unfold DeleteStream_store in *. cbn [pay with_Settled ID Payer Payee].
      destruct (wf_ids a2 Hwf2 _ _ E2) as [E _]. rewrite Hsid. by rewrite E, Hpr, Hpe in Hd.
    + by apply wf_remove.
    + intros t Ht Hst'. rewrite (outstanding_remove _ _ s2) by done. rewrite decide_False; [rewrite Hx, Z.sub_0_r; by apply Hsol2|].
      rewrite Htok. intros <-. congruence.
  - exists a2. split; [split_and!; [|done|by rewrite Hx]|done]. rewrite Hst.
    apply refines_DeleteStream_gone; [done|done|simpl; by rewrite Hsid|simpl; lia|apply Hws|apply Hws].
Qed.

Lemma open_other m w a ctx payer payee token rate t0 t1 cap w' id :
  keeps_below m -> inv' w a -> length payer = 20%nat -> length payee = 20%nat -> length token = 20%nat -> safe standard token = false ->
  0 <= t0 < 2 ^ 64 -> 0 <= t1 < 2 ^ 64 -> id + 1 < 2 ^ 64 ->
  Open (evm m) ctx payer payee token rate t0 t1 cap w = (w', Ok id) ->
  exists a', inv' w' a' /\ follows a a'.
Proof.
  intros Hk Hi Hpr Hpe Htok Hsafe Ht0 Ht1 Hid H. pose proof Hi as (Hr & Hwf & _). pose proof Hsafe as [Hnat Hstd]%orb_false_iff.
  apply (open_runs evm m w a) in H as (r & c & w1 & w2 & -> & -> & Hr0 & Hc0 & _ & _ & _ & _ & Hesc & Hnext & Hx & Hst); [|done..].
  destruct (escrow_erc20 evm m ctx payer token c w w1 Hc0 Htok Hnat Hesc) as (nonce & gas & data & _ & Hc).
  destruct (Hk w a w1 Hi) as (a1 & (Hr1 & Hwf1 & Hsol1) & Hf1); [by eapply (other_ok _ _ _ TL) in Hc|].
  rewrite (NextStreamID_spec w1 a1) in Hnext by done. injection Hnext as <- <-. cbn [ext store] in Hx, Hst.
  destruct (new_stream_inv a1 payer payee token r _ t1 c Hwf1 Hpr Hpe Htok Hr0 Hc0 ltac:(by rewrite Hnat) (start_range ctx t0 Ht0) Ht1 Hid) as (Hwf' & Hf & Ho).
  eexists. split; [split_and!; [|exact Hwf'|]|exact (follows_trans _ _ _ Hf1 Hf)].
  - rewrite Hst. by apply new_stream_refines.
  - intros t Ht Hst'. rewrite Ho, Hx, decide_False, Z.add_0_r; [by apply Hsol1|]. intros <-. congruence.
Qed.

(** ** Every depth *)

Lemma step_inv m w a w' : keeps_below m -> inv' w a -> step evm m w w' -> exists a', inv' w' a' /\ follows a a'.
Proof.
  intros Hk Hi Hst. pose proof Hi as (Hr & Hwf & _). destruct Hst as [ctx payer payee token rate t0 t1 cap w w' id Hmod H1 H2 H3 H4 H5 H Hid|ctx id w w' paid Hid H|ctx id caller w w' paid Hid H|ctx id caller rate w w' Hid H].
  - destruct (safe standard token) eqn:Hs; [by apply (open_inv m w a ctx payer payee token rate t0 t1 cap w' id)|by apply (open_other m w a ctx payer payee token rate t0 t1 cap w' id)].
  - destruct (settle_runs evm m w a ctx id w' paid Hr Hwf Hid H) as (s & _ & Hs & _).
    destruct (safe standard (Token s)) eqn:Hsafe; [by eapply settle_inv|by eapply settle_other].
  - destruct (close_runs evm m w a ctx id caller w' paid Hr Hwf Hid H) as (s & _ & _ & Hs & _).
    destruct (safe standard (Token s)) eqn:Hsafe; [by eapply close_inv|by eapply close_other].
  - destruct (update_runs evm m w a ctx id caller rate w' Hr Hwf Hid H) as (s & _ & _ & Hs & _).
    destruct (safe standard (Token s)) eqn:Hsafe; [by eapply update_inv|by eapply update_other].
Qed.

Lemma all_keep n : keeps_below n.
Proof.
  induction n as [n IH] using lt_wf_ind. intros w a w' Hi Hrun. revert a Hi.
  induction Hrun as [w|w w1 w2 Hact _ IHr]; intros a Hi; [exists a; split; [done|apply follows_refl]|].
  assert (exists a1, inv' w1 a1 /\ follows a a1) as (a1 & Hi1 & Hf1).
  { destruct Hact as [m w w1 Hm Hst|w w1 Hst Hc]; [by eapply step_inv; [apply IH| |]|].
    exists a. split; [|apply follows_refl]. destruct Hi as (Hr & Hwf & Hsol). split_and!; [by rewrite Hst|done|].
    intros t Ht Hs. specialize (Hsol t Ht Hs). specialize (Hc t Ht Hs). lia. }
  destruct (IHr a1 Hi1) as (a2 & Hi2 & Hf2). exists a2. split; [done|by eapply follows_trans].
Qed.

(** C1: the escrow is solvent.  From any state in which the store is the image of a
    well-formed set of streams and the module account covers what they are owed in
    native PAX and in the standard tokens, every sequence of successful operations, of
    any length and by any callers, ends in such a state again, in between any changes
    elsewhere that take nothing from the module account: one record and one entry per
    index for each stream, and in native PAX and every standard token at least the sum
    of [cap - settled] in the module account.  Streams in any other contract are among
    them: a token that takes a fee, reports success without a transfer, or calls back
    into the module from inside a transfer, to any depth, cannot touch the rest.  Ids
    are never given out twice. *)
Theorem escrow_always_solvent n w a w' :
  inv balanceOf standard w a -> rtc (act evm balanceOf standard n) w w' ->
  exists a', inv balanceOf standard w' a' /\ follows a a'.
Proof. apply all_keep. Qed.

End Solvency.
