(* ===== verification/StreamsGenesis.v ===== *)
(** [x/streams]: the payer and payee indexes, and the genesis round trip. *)

From stdpp Require Import base list gmap strings sorting.
From Stdlib Require Import ZArith Lia.
From S2P Require Import Prelude KVStore BigInt Ledger Streams StreamsProps.
Open Scope Z_scope.
Open Scope go_scope.

Definition stream_lt (s s' : Stream) : Prop := ID s < ID s'.

(** The abstract state a genesis file describes. *)
Definition abs_of_genesis (gs : GenesisState) : abs :=
  foldl (fun a s => insert_stream s a) (mkAbs ∅ (gs_NextStreamID gs) (gs_Params gs))
    (gs_Streams gs).

Section Indexes.
Context (st : kv) (a : abs) (Hr : refines st a) (Hwf : wf_abs a).

Lemma payer_id_keys p : length p = 20%nat -> id_keys (PayerStreamsPrefix p) st.
Proof.
  intros Hp k v Hk Hpre. apply Hr in Hk. apply is_prefix_true in Hpre as [sfx Hs].
  destruct Hk as [id s H|id s H|id s H| |]; try discriminate Hs.
  exists id. split; [by eapply wf_id_range|].
  pose proof (wf_streams a Hwf _ _ H) as []. injection Hs as Hs.
  apply app_inj_1 in Hs as [-> _]; [done|congruence].
Qed.

Lemma payee_id_keys p : length p = 20%nat -> id_keys (PayeeStreamsPrefix p) st.
Proof.
  intros Hp k v Hk Hpre. apply Hr in Hk. apply is_prefix_true in Hpre as [sfx Hs].
  destruct Hk as [id s H|id s H|id s H| |]; try discriminate Hs.
  exists id. split; [by eapply wf_id_range|].
  pose proof (wf_streams a Hwf _ _ H) as []. injection Hs as Hs.
  apply app_inj_1 in Hs as [-> _]; [done|congruence].
Qed.

Lemma stream_id_keys : id_keys StreamByIDKeyPrefix st.
Proof.
  intros k v Hk Hpre. apply Hr in Hk. apply is_prefix_true in Hpre as [sfx Hs].
  destruct Hk as [id s H|id s H|id s H| |]; try discriminate Hs.
  exists id. split; [by eapply wf_id_range|done].
Qed.

Lemma payer_entry p id :
  length p = 20%nat -> 0 <= id < 2 ^ 64 ->
  is_Some (st !! (PayerStreamsPrefix p ++ be8 id)) <->
  exists s, a_streams a !! id = Some s /\ Payer s = p.
Proof.
  intros Hp Hid.
  assert (PayerStreamsPrefix p ++ be8 id = PayerStreamKey p id) as ->
    by (unfold PayerStreamsPrefix; by rewrite <- app_assoc).
  split.
  - intros [v Hv]. apply Hr in Hv. remember (PayerStreamKey p id) as k eqn:He.
    destruct Hv as [i s H|i s H|i s H| |]; try discriminate He.
    pose proof (wf_streams a Hwf _ _ H) as [].
    apply PayerStreamKey_inj in He as [<- <-]; eauto using wf_id_range.
  - intros (s & Hs & <-). eexists. by apply Hr, entry_payer.
Qed.

Lemma payee_entry p id :
  length p = 20%nat -> 0 <= id < 2 ^ 64 ->
  is_Some (st !! (PayeeStreamsPrefix p ++ be8 id)) <->
  exists s, a_streams a !! id = Some s /\ Payee s = p.
Proof.
  intros Hp Hid.
  assert (PayeeStreamsPrefix p ++ be8 id = PayeeStreamKey p id) as ->
    by (unfold PayeeStreamsPrefix; by rewrite <- app_assoc).
  split.
  - intros [v Hv]. apply Hr in Hv. remember (PayeeStreamKey p id) as k eqn:He.
    destruct Hv as [i s H|i s H|i s H| |]; try discriminate He.
    pose proof (wf_streams a Hwf _ _ H) as [].
    apply PayeeStreamKey_inj in He as [<- <-]; eauto using wf_id_range.
  - intros (s & Hs & <-). eexists. by apply Hr, entry_payee.
Qed.

Lemma GetAllStreams_spec :
  StronglySorted stream_lt (GetAllStreams st) /\
  forall s, s ∈ GetAllStreams st <-> a_streams a !! ID s = Some s.
Proof.
  assert (forall id v, 0 <= id < 2 ^ 64 -> st !! (StreamByIDKeyPrefix ++ be8 id) = Some v ->
            exists s, v = VStream s /\ a_streams a !! id = Some s) as Hv.
  { intros id v Hid H. apply Hr in H. fold (StreamByIDKey id) in H.
    remember (StreamByIDKey id) as k eqn:He.
    destruct H as [i s H|i s H|i s H| |]; try discriminate He.
    apply StreamByIDKey_inj in He as <-; eauto using wf_id_range. }
  destruct (prefix_records (fun v => match v with VStream s => Some s | _ => None end) ID
              StreamByIDKeyPrefix st stream_id_keys) as [Hs Hm].
  { intros id v Hid H. destruct (Hv id v Hid H) as (s & -> & Hl).
    exists s. split; [done|]. by apply (wf_ids a Hwf). }
  split; [exact Hs|]. intros s. unfold GetAllStreams. rewrite Hm. split.
  - intros (Hid & v & H & E). destruct (Hv _ _ Hid H) as (s' & -> & Hl). by injection E as ->.
  - intros Hl. split; [by eapply wf_id_range|]. exists (VStream s).
    split; [|done]. by apply Hr, (entry_stream a (ID s)).
Qed.

(** The payer and payee views are exact.  Each lists, in ascending order and
    without repetition, precisely the ids of the stored streams with that payer
    (payee), and the payer's count is the length of the list (below [2^32]). *)
Theorem stream_ids_by_party p :
  length p = 20%nat ->
  (StronglySorted Z.lt (PayerStreamIDs st p) /\
   forall id, id ∈ PayerStreamIDs st p <-> exists s, a_streams a !! id = Some s /\ Payer s = p) /\
  (StronglySorted Z.lt (PayeeStreamIDs st p) /\
   forall id, id ∈ PayeeStreamIDs st p <-> exists s, a_streams a !! id = Some s /\ Payee s = p) /\
  CountStreamsByPayer st p = u32 (Z.of_nat (length (PayerStreamIDs st p))).
Proof.
  intros Hp. unfold PayerStreamIDs, PayeeStreamIDs, streamIDsByPrefix, CountStreamsByPayer.
  destruct (prefix_ids _ _ (payer_id_keys p Hp)) as (Hs1 & Hm1 & Hl1).
  destruct (prefix_ids _ _ (payee_id_keys p Hp)) as (Hs2 & Hm2 & Hl2).
  split_and!; [done| |done| |do 2 f_equal; symmetry; exact Hl1].
  - intros id. rewrite Hm1. split.
    + intros [Hid H]. by apply payer_entry.
    + intros H. pose proof H as (s & Hs & _).
      assert (0 <= id < 2 ^ 64) by (by eapply wf_id_range). split; [done|]. by apply payer_entry.
  - intros id. rewrite Hm2. split.
    + intros [Hid H]. by apply payee_entry.
    + intros H. pose proof H as (s & Hs & _).
      assert (0 <= id < 2 ^ 64) by (by eapply wf_id_range). split; [done|]. by apply payee_entry.
Qed.

End Indexes.

Section Genesis.
Context {X : Type}.

Lemma validate_streams_cons next seen s ss :
  validate_streams next seen (s :: ss) = true ->
  ID s <> 0 /\ ID s ∉ seen /\ ID s < next /\ validate_streams next ({[ID s]} ∪ seen) ss = true.
Proof.
  simpl. destruct (Z.eqb_spec (ID s) 0); [done|].
  destruct (bool_decide_reflect (ID s ∈ seen)); [done|].
  destruct (Z.leb_spec next (ID s)); [done|]. intros Hv; by split_and!.
Qed.

(** Importing a validated list of streams, one [SetStream] at a time. *)
Lemma set_streams_spec ss : forall (w : world X) a seen,
  refines (store w) a -> wf_abs a -> (forall id, is_Some (a_streams a !! id) -> id ∈ seen) ->
  Forall (fun s => wf_stream s /\ native_fits s /\ 0 <= ID s) ss ->
  validate_streams (a_next a) seen ss = true ->
  let a' := foldl (fun a s => insert_stream s a) a ss in
  exists w', set_streams ss w = (w', Ok tt) /\ refines (store w') a' /\ wf_abs a' /\
    a_next a' = a_next a /\ a_params a' = a_params a /\
    forall s, (a_streams a' !! ID s = Some s <-> s ∈ ss \/ a_streams a !! ID s = Some s).
Proof.
  induction ss as [|s ss IH]; intros w a seen Hr Hwf Hseen Hss Hv.
  - exists w. split_and!; try done. simpl. intros s. rewrite elem_of_nil. tauto.
  - apply Forall_cons in Hss as [(Hws & Hnat & Hid) Hss].
    apply validate_streams_cons in Hv as (Hnz & Hns & Hlt & Hv).
    pose proof (wf_next a Hwf) as Hn. pose proof Hws as [Hpr Hpe _ _ _ _ _ _].
    assert (a_streams a !! ID s = None) as Hnew.
    { apply eq_None_not_Some. intros H. by apply Hns, Hseen. }
    set (w1 := mkWorld (SetStream_store s (store w)) (ext w) (events w)).
    destruct (IH w1 (insert_stream s a) ({[ID s]} ∪ seen)) as (w' & Hrun & Hr' & Hwf' & Hnx & Hpa & Hm).
    + apply (refines_SetStream _ _ Hr Hwf); [lia|done|done|]. congruence.
    + apply wf_insert; [done..|lia].
    + simpl. intros id [s' H]. apply lookup_insert_Some in H as [[<- _]|[_ H]]; [set_solver|].
      apply elem_of_union_r, Hseen. by eexists.
    + done.
    + done.
    + exists w'. split_and!; [|done|done|done|done|].
      { simpl. unfold bind at 1, SetStream, update_store, modify. exact Hrun. }
      intros s'. simpl in *. rewrite Hm, elem_of_cons.
      destruct (decide (ID s = ID s')) as [He|Hne].
      * rewrite <- He, lookup_insert_eq, Hnew. naive_solver.
      * rewrite lookup_insert_ne by done. naive_solver.
Qed.

Lemma genesis_base_refines p n :
  refines (<[NextStreamIDKey := VRaw (be8 n)]> (<[ParamsKey := VParams p]> ∅)) (mkAbs ∅ n p).
Proof.
  intros k v. rewrite !lookup_insert, lookup_empty. split.
  - case_decide as H1; [subst; intros [= <-]; apply (entry_next (mkAbs ∅ n p))|].
    case_decide as H2; [subst; intros [= <-]; apply (entry_params (mkAbs ∅ n p))|done].
  - intros H. destruct H as [id s H|id s H|id s H| |]; try by (exfalso; cbn in H; rewrite lookup_empty in H).
    + by rewrite decide_False, decide_True.
    + by rewrite decide_True.
Qed.

Lemma init_spec gs (w : world X) :
  store w = ∅ -> GenesisState_Validate gs = true ->
  0 < gs_NextStreamID gs < 2 ^ 64 -> Forall (fun s => wf_stream s /\ native_fits s /\ 0 <= ID s) (gs_Streams gs) ->
  exists w', InitGenesis gs w = (w', Ok tt) /\ refines (store w') (abs_of_genesis gs) /\
    wf_abs (abs_of_genesis gs) /\ a_next (abs_of_genesis gs) = gs_NextStreamID gs /\
    a_params (abs_of_genesis gs) = gs_Params gs /\
    forall s, a_streams (abs_of_genesis gs) !! ID s = Some s <-> s ∈ gs_Streams gs.
Proof.
  intros Hst Hv Hn Hss. apply andb_true_iff in Hv as [Hp Hv].
  set (w1 := mkWorld (<[NextStreamIDKey := VRaw (be8 (gs_NextStreamID gs))]>
               (<[ParamsKey := VParams (gs_Params gs)]> ∅)) (ext w) (events w)).
  destruct (set_streams_spec (gs_Streams gs) w1 (mkAbs ∅ (gs_NextStreamID gs) (gs_Params gs)) ∅)
    as (w' & Hrun & Hr' & Hwf' & Hnx & Hpa & Hm).
  - apply genesis_base_refines.
  - split; simpl; [intros id s H; by rewrite lookup_empty in H..|done|done].
  - simpl. intros id [s H]. by rewrite lookup_empty in H.
  - done.
  - done.
  - exists w'. split_and!; [|done|done|done|done|].
    + unfold InitGenesis, SetParams. rewrite Hp. cbn [negb].
      unfold update_store, modify, SetNextStreamID, bind. rewrite Hst. exact Hrun.
    + intros s. unfold abs_of_genesis. rewrite Hm. simpl. rewrite lookup_empty. naive_solver.
Qed.

Lemma export_spec (w : world X) a :
  refines (store w) a -> wf_abs a ->
  ExportGenesis w = (w, Ok (mkGenesis (a_params a) (a_next a) (GetAllStreams (store w)))).
Proof.
  intros Hr Hwf. pose proof (wf_next a Hwf).
  unfold ExportGenesis, GetNextStreamID, bind, gets.
  rewrite (refines_next _ _ Hr), (refines_GetParams _ _ Hr). unfold read_u64.
  destruct (Nat.ltb_spec (length (be8 (a_next a))) 8) as [Hl|Hl];
    [rewrite length_be8 in Hl; lia|].
  rewrite take_ge by (rewrite length_be8; lia). unfold ret. by rewrite be8_roundtrip by lia.
Qed.

(** Genesis round trip.  Importing into an empty store a validated genesis
    whose streams are well formed and listed by id succeeds, and the export that
    follows is that genesis, the same parameters, counter and streams in the same
    order. *)
Theorem genesis_roundtrip gs (w : world X) :
  store w = ∅ -> GenesisState_Validate gs = true ->
  0 < gs_NextStreamID gs < 2 ^ 64 -> Forall (fun s => wf_stream s /\ native_fits s /\ 0 <= ID s) (gs_Streams gs) ->
  StronglySorted stream_lt (gs_Streams gs) ->
  exists w', InitGenesis gs w = (w', Ok tt) /\ ExportGenesis w' = (w', Ok gs).
Proof.
  intros Hst Hv Hn Hss Hsort.
  destruct (init_spec gs w) as (w' & Hrun & Hr & Hwf & Hnx & Hpa & Hm); [done..|].
  exists w'. split; [done|]. rewrite (export_spec _ _ Hr Hwf), Hnx, Hpa.
  destruct (GetAllStreams_spec _ _ Hr Hwf) as [Hs' Hm'].
  assert (GetAllStreams (store w') = gs_Streams gs) as ->; [|by destruct gs].
  apply (sorted_unique_members stream_lt); [unfold stream_lt; lia..|done|done|].
  intros s. by rewrite Hm', Hm.
Qed.

Lemma validate_sorted next ss : forall seen,
  StronglySorted stream_lt ss ->
  Forall (fun s => 0 < ID s < next /\ ID s ∉ seen) ss -> validate_streams next seen ss = true.
Proof.
  induction ss as [|s ss IH]; intros seen Hs Hf; [done|].
  apply Forall_cons in Hf as [[Hid Hns] Hf]. inversion_clear Hs as [|? ? Hs' Hlt]. simpl.
  destruct (Z.eqb_spec (ID s) 0); [lia|]. rewrite bool_decide_eq_false_2 by done.
  destruct (Z.leb_spec next (ID s)); [lia|]. apply IH; [done|].
  rewrite Forall_forall in *. intros s' Hs''. specialize (Hf _ Hs''). specialize (Hlt _ Hs'').
  unfold stream_lt in Hlt. split; [by apply Hf|].
  rewrite elem_of_union, elem_of_singleton. intros [?|?]; [lia|]. by apply Hf.
Qed.

(** whatever the module's state, its export is a genesis that validation
    accepts, and importing it into an empty store rebuilds the same abstract
    state: the same streams under the same ids, counter and parameters. *)
Theorem export_validates_and_reimports (w w0 : world X) a :
  refines (store w) a -> wf_abs a -> store w0 = ∅ ->
  exists gs w1, ExportGenesis w = (w, Ok gs) /\ GenesisState_Validate gs = true /\
    InitGenesis gs w0 = (w1, Ok tt) /\ refines (store w1) a.
Proof.
  intros Hr Hwf H0. rewrite (export_spec _ _ Hr Hwf).
  destruct (GetAllStreams_spec _ _ Hr Hwf) as [Hs Hm].
  set (gs := mkGenesis _ _ _).
  assert (Forall (fun s => wf_stream s /\ native_fits s /\ 0 < ID s < a_next a) (GetAllStreams (store w))) as Hss.
  { apply Forall_forall. intros s H. apply Hm in H.
    destruct (wf_ids a Hwf _ _ H). split_and!; [by eapply wf_streams|by eapply wf_native|lia|lia]. }
  assert (GenesisState_Validate gs = true) as Hv.
  { apply andb_true_iff. split; [apply Hwf|]. apply validate_sorted; [done|].
    eapply Forall_impl; [exact Hss|]. simpl. set_solver. }
  destruct (init_spec gs w0) as (w1 & Hrun & Hr1 & Hwf1 & Hnx & Hpa & Hm1); [done|done|apply Hwf| |].
  { eapply Forall_impl; [exact Hss|]. simpl. intros s (? & ? & ?). split_and!; [done|done|lia]. }
  exists gs, w1. split_and!; [done..|].
  replace a with (abs_of_genesis gs); [done|].
  destruct (abs_of_genesis gs) as [m n p] eqn:E, a as [m' n' p']. simpl in *. subst.
  f_equal. apply map_eq. intros id. apply option_eq. intros s. split; intros H.
  - destruct (wf_ids _ Hwf1 _ _ H) as [<- _]. by apply Hm, Hm1.
  - destruct (wf_ids _ Hwf _ _ H) as [<- _]. by apply Hm1, Hm.
Qed.

End Genesis.
