(* ===== verification/StreamsPrecompile.v ===== *)
(** [precompiles/streams]: the EVM entry point of [x/streams] (address 0x0906).

    The handlers of [streams_handlers.go] and the dispatch of [streams.go].  The
    decoder of the ABI is the parameter of [Precompile.v]; the argument types it
    delivers are those of [abi.json]. *)

From stdpp Require Import base list gmap strings sorting.
From Stdlib Require Import ZArith Lia.
From S2P Require Import Prelude KVStore BigInt Ledger Precompile Streams StreamsProps.
Open Scope Z_scope.
Open Scope go_scope.

Definition IsTransaction (method : string) : bool :=
  bool_decide (method ∈ ["open"; "settle"; "close"; "updateRate"]).

(** [RequiredGas] of a decoded method; zero when there is none. *)
Definition method_gas (name : string) : Z :=
  if bool_decide (name = "open") then 8000
  else if bool_decide (name = "settle") then 4000
  else if bool_decide (name = "close") then 5000
  else if bool_decide (name = "updateRate") then 4000
  else if bool_decide (name = "accrued" \/ name = "getStream") then 200
  else 0.

Definition RequiredGas (abi : ABI) (input : bytes) : Z :=
  if Nat.ltb (length input) 4 then 0
  else match MethodById abi (take 4 input) with
       | None => 0
       | Some m => method_gas (Name m)
       end.

(** [new(big.Int).SetString(s, 10)], zero when it fails. *)
Definition bigOrZero (s : string) : Z := default 0 (SetString s).

(** The tuple of [getStream]; the zero tuple for a missing stream. *)
Definition abiStream {EC : EthCommon} (s : Stream) : abi_value :=
  ATuple [ABig (ID s); AAddress (BytesToAddress (Payer s)); AAddress (BytesToAddress (Payee s));
          AAddress (BytesToAddress (Token s)); ABig (bigOrZero (RatePerSecond s));
          ABig (bigOrZero (Cap s)); AUint64 (StartTime s); AUint64 (StopTime s);
          ABig (bigOrZero (Settled s)); ABool (Active s)].

Definition abiStream_zero : abi_value :=
  ATuple [ABig 0; AAddress zero_address; AAddress zero_address; AAddress zero_address;
          ABig 0; ABig 0; AUint64 0; AUint64 0; ABig 0; ABool false].

(** The argument types [abi.json] declares, as [Unpack] delivers them. *)
Definition well_typed (name : string) (args : list abi_value) : Prop :=
  if bool_decide (name = "open") then
    exists payee token rate t0 t1 cap,
      args = [AAddress payee; AAddress token; ABig rate; AUint64 t0; AUint64 t1; ABig cap] /\
      length payee = 20%nat /\ length token = 20%nat /\
      0 <= rate /\ 0 <= cap /\ 0 <= t0 < 2 ^ 64 /\ 0 <= t1 < 2 ^ 64
  else if bool_decide (name = "updateRate") then
    exists id rate, args = [ABig id; ABig rate] /\ 0 <= id /\ 0 <= rate
  else exists id, args = [ABig id] /\ 0 <= id.

Section Handlers.
Context {X : Type} {BK : BankKeeper X} {EC : EthCommon}.
Variable evm : Evm X.

Abbreviation H := (M (world X) (perror error) (list abi_value)).

Definition decodeStreamID (args : list abi_value) : M (world X) (perror error) Z :=
  decode_uint64_id args.

Definition handleOpen (ctx : Ctx) (contract : Contract) (args : list abi_value) : H :=
  match args with
  | [a0; a1; a2; a3; a4; a5] =>
    match a0 with AAddress payee =>
    match a1 with AAddress token =>
    match a2 with ABig rate =>
    match a3 with AUint64 startTime =>
    match a4 with AUint64 stopTime =>
    match a5 with ABig cap =>
      let! streamID := from_keeper
        (Open evm ctx (CallerAddress contract) payee token (Some rate)
           startTime stopTime (Some cap)) in
      ret [ABig streamID]
    | _ => fail ErrArgType end | _ => fail ErrArgType end | _ => fail ErrArgType end
    | _ => fail ErrArgType end | _ => fail ErrArgType end | _ => fail ErrArgType end
  | _ => fail ErrArgCount
  end.

Definition handleSettle (ctx : Ctx) (args : list abi_value) : H :=
  let! streamID := decodeStreamID args in
  let! paid := from_keeper (Settle evm ctx streamID) in
  ret [ABig paid].

Definition handleClose (ctx : Ctx) (contract : Contract) (args : list abi_value) : H :=
  let! streamID := decodeStreamID args in
  let! finalPaid := from_keeper (Close evm ctx streamID (CallerAddress contract)) in
  ret [ABig finalPaid].

Definition handleUpdateRate (ctx : Ctx) (contract : Contract) (args : list abi_value) : H :=
  match args with
  | [a0; a1] =>
    match a0 with ABig streamID =>
      if negb (is_u64 streamID) then fail ErrArgType
      else match a1 with ABig newRate =>
        from_keeper (UpdateRate evm ctx streamID (CallerAddress contract) (Some newRate)) ;;
        ret []
      | _ => fail ErrArgType end
    | _ => fail ErrArgType end
  | _ => fail ErrArgCount
  end.

Definition handleAccrued (ctx : Ctx) (args : list abi_value) : H :=
  let! streamID := decodeStreamID args in
  let! st := gets store in
  match GetStream st streamID with
  | None => ret [ABig 0]
  | Some s => ret [ABig (streamAccrued s (u64 (BlockTime ctx)))]
  end.

Definition handleGetStream (args : list abi_value) : H :=
  let! streamID := decodeStreamID args in
  let! st := gets store in
  match GetStream st streamID with
  | None => ret [abiStream_zero]
  | Some s => ret [abiStream s]
  end.

Definition Run (abi : ABI) (ctx : Ctx) (contract : Contract) (readOnly : bool) : H :=
  match RunSetup abi contract readOnly IsTransaction with
  | Err e => fail e
  | Panic => panic
  | Ok (method, args) =>
    let n := Name method in
    if bool_decide (n = "open") then handleOpen ctx contract args
    else if bool_decide (n = "settle") then handleSettle ctx args
    else if bool_decide (n = "close") then handleClose ctx contract args
    else if bool_decide (n = "updateRate") then handleUpdateRate ctx contract args
    else if bool_decide (n = "accrued") then handleAccrued ctx args
    else if bool_decide (n = "getStream") then handleGetStream args
    else fail ErrUnknownMethod
  end.

End Handlers.

(** * What the entry point guarantees *)

Section Theorems.
Context {X : Type} {BK : BankKeeper X} {EC : EthCommon}.
Context (evm : nat -> Evm X).

Lemma handleAccrued_pure ctx args (w w' : world X) r : handleAccrued ctx args w = (w', r) -> w' = w.
Proof.
  unfold handleAccrued, decodeStreamID, decode_uint64_id. go_unfold.
  destruct args as [|v [|]]; [by intros [=]| |by destruct v; intros [=]].
  destruct v; try by intros [=]. destruct (is_u64 n); [|by intros [=]].
  destruct (GetStream (store w) n); by intros [=].
Qed.

Lemma handleGetStream_pure args (w w' : world X) r : handleGetStream args w = (w', r) -> w' = w.
Proof.
  unfold handleGetStream, decodeStreamID, decode_uint64_id. go_unfold.
  destruct args as [|v [|]]; [by intros [=]| |by destruct v; intros [=]].
  destruct v; try by intros [=]. destruct (is_u64 n); [|by intros [=]].
  destruct (GetStream (store w) n); by intros [=].
Qed.

(** A static call cannot change anything: whatever the call data, a run in
    read-only mode leaves the world as it was. *)
Theorem readonly_run_changes_nothing d abi ctx contract (w w' : world X) r :
  Run (evm d) abi ctx contract true w = (w', r) -> w' = w.
Proof.
  unfold Run. destruct (RunSetup abi contract true IsTransaction) as [[m args]|e|] eqn:Hs;
    [|by intros [=]..].
  apply RunSetup_readonly in Hs. unfold IsTransaction in Hs.
  apply bool_decide_eq_false in Hs. rewrite !not_elem_of_cons in Hs.
  destruct Hs as (H1 & H2 & H3 & H4 & _).
  rewrite !bool_decide_eq_false_2 by done.
  case_bool_decide; [apply handleAccrued_pure|].
  case_bool_decide; [apply handleGetStream_pure|by intros [=]].
Qed.

(** The [accrued] view tells what a settlement pays: if it returns [n] for a
    stream id and a [settle] call of the same block succeeds, that call returns
    [n] too, and the view of a missing stream is zero. *)
Theorem accrued_view_predicts_settle {BL : BankLaws X} m ctx id (w w' : world X) a n :
  refines (store w) a -> wf_abs a -> 0 <= id < 2 ^ 64 ->
  handleAccrued ctx [ABig id] w = (w, Ok [ABig n]) ->
  (a_streams a !! id = None -> n = 0) /\
  (forall out, handleSettle (evm m) ctx [ABig id] w = (w', Ok out) -> out = [ABig n]).
Proof.
  intros Hr Hwf Hid. unfold handleAccrued, handleSettle, decodeStreamID, decode_uint64_id.
  rewrite (proj2 (is_u64_true id) Hid). go_unfold.
  rewrite (refines_GetStream _ _ Hr Hwf id Hid). intros Hview. split.
  - intros Hno. rewrite Hno in Hview. by injection Hview.
  - intros out. destruct (from_keeper _ w) as [w1 [p|e|]] eqn:Hs; [|by intros [=]..].
    intros [= _ <-]. apply from_keeper_ok in Hs.
    apply (settle_runs evm m _ a) in Hs as (s & w2 & Hl & -> & _); [|done..].
    rewrite Hl in Hview. by injection Hview as ->.
Qed.

End Theorems.
