(* ===== verification/StreamsCases.v ===== *)
(** [x/streams]: consequences of the code as written that its documentation does
    not say, and concrete runs of the operations.

    The runs use [RefChain], the bank of [Ledger.v] with ERC-20 contracts.  In its EVM
    one token calls the recipient back after a transfer, as ERC-777 tokens do; the
    others only move balances. *)

From stdpp Require Import base list gmap strings sorting relations.
From Stdlib Require Import ZArith Lia.
From S2P Require Import Prelude KVStore BigInt Ledger Precompile Streams StreamsProps StreamsSolvency StreamsGenesis StreamsPrecompile.
Open Scope Z_scope.
Open Scope go_scope.

Import RefChain.

(** The ABI of the two calls: a selector and words of 32 bytes. *)
Definition transferFrom_selector : bytes := [35; 184; 114; 221].
Definition transfer_selector : bytes := [169; 5; 156; 187].
Definition is_address (a : bytes) : bool := Nat.eqb (length a) 20.
Definition is_uint256 (n : Z) : bool := (0 <=? n) && (n <? 2 ^ 256).

Definition encode (c : erc20_call) : option bytes :=
  match c with
  | TransferFrom from to n =>
    if is_address from && is_address to && is_uint256 n
    then Some (transferFrom_selector ++ replicate 12 0 ++ from ++ replicate 12 0 ++ to ++ be_encode 32 n) else None
  | Transfer to n =>
    if is_address to && is_uint256 n then Some (transfer_selector ++ replicate 12 0 ++ to ++ be_encode 32 n) else None
  end.

Definition decode (data : bytes) : option erc20_call :=
  let args := drop 16 data in
  if bool_decide (take 4 data = transferFrom_selector)
  then let rest := drop 12 (drop 20 args) in Some (TransferFrom (take 20 args) (take 20 rest) (be_decode (drop 20 rest)))
  else if bool_decide (take 4 data = transfer_selector) then Some (Transfer (take 20 args) (be_decode (drop 20 args)))
  else None.

(** A plain ERC-20: the execution is reverted when the balance is short. *)
Definition reverted : string := "execution reverted".
Definition move (t src dst : bytes) (n : Z) : M (world chain) Z string :=
  fun w => if balanceOf (ext w) t src <? n then (w, Ok reverted)
           else (mkWorld (store w) (token_move (ext w) t src dst n) (events w), Ok ""%string).
Definition plain (by_ t : bytes) (c : erc20_call) : M (world chain) Z string :=
  match c with TransferFrom from to n => move t from to n | Transfer to n => move t by_ to n end.

(** The token with a hook: after a transfer the recipient runs, and settles stream 1
    again as long as there is depth left. *)
Definition hooked : bytes := replicate 20 9.

Fixpoint ref_evm (depth : nat) : Evm chain := {|
  Pack := encode;
  GetSequence _ _ := Ok 0;
  EstimateGasInternal _ _ _ _ _ := Ok 100000;
  ApplyMessage ctx msg commit := fun w =>
    match decode (m_data msg) with
    | None => (w, Ok reverted)
    | Some c =>
      match plain (m_from msg) (m_to msg) c w with
      | (w', Ok EmptyString) =>
        match c, depth with
        | Transfer _ _, S depth' =>
          if bool_decide (m_to msg = hooked) then
            match Settle (ref_evm depth') ctx 1 w' with
            | (w'', Ok _) => (w'', Ok ""%string)
            | _ => (w, Ok reverted)
            end
          else (w', Ok ""%string)
        | _, _ => (w', Ok ""%string)
        end
      | r => r
      end
    end
|}.

Definition ref_standard (t : bytes) : bool := negb (bool_decide (t = hooked)).

Definition alice : bytes := replicate 20 1.
Definition bob : bytes := replicate 20 2.
Definition carol : bytes := replicate 20 3.
Definition usdl : bytes := replicate 20 7.

Definition chain0 : chain :=
  mkChain {[ (alice, DefaultEVMDenom) := 1000000 ]}
          {[ (usdl, alice) := 5000; (hooked, alice) := 5000; (hooked, carol) := 5000 ]}.

(** The module after [InitGenesis] of the default genesis. *)
Definition world0 : world chain :=
  (InitGenesis DefaultGenesisState (mkWorld ∅ chain0 [])).1.

Definition abs0 : abs := mkAbs ∅ 1 DefaultParams.

Definition at_time (t : Z) : Ctx := mkCtx t 1.

(** Alice streams 10 a second to Bob, up to 1000, from time 1000 on: native coin
    (stream 1 of [world1]) or the token with the hook (stream 1 of [worldT]). *)
Definition world1 : world chain :=
  (Open (ref_evm 0) (at_time 1000) alice bob zero_address (Some 10) 0 0 (Some 1000) world0).1.
Definition worldT : world chain :=
  (Open (ref_evm 0) (at_time 1000) alice bob hooked (Some 10) 0 0 (Some 1000) world0).1.

Definition stream1 : Stream := opened 1 alice bob zero_address 10 1000 0 1000.
Definition abs1 : abs := insert_stream stream1 (mkAbs ∅ 2 DefaultParams).

(** A native stream to a blocked module account, and a state that holds it. *)
Definition stream_blocked : Stream :=
  opened 1 alice (RefBank.module_address "distribution") zero_address 10 1000 0 1000.

Definition world1_settled : world chain := (Settle (ref_evm 0) (at_time 1050) 1 world1).1.
Definition world1_closed : world chain := (Close (ref_evm 0) (at_time 1050) 1 bob world1).1.
Definition world1_updated : world chain :=
  (UpdateRate (ref_evm 0) (at_time 1050) 1 alice (Some 5) world1).1.

Definition abs_blocked : abs := insert_stream stream_blocked (mkAbs ∅ 2 DefaultParams).

Definition world_blocked : world chain :=
  (InitGenesis (mkGenesis DefaultParams 2 [stream_blocked]) (mkWorld ∅ chain0 [])).1.

(** The token again, with Carol's stream to Bob next to Alice's; or with a stream in
    native coin, before and after a settlement that is entered again twice. *)
Definition world2 : world chain :=
  (Open (ref_evm 0) (at_time 1000) carol bob hooked (Some 10) 0 0 (Some 1000) worldT).1.
Definition worldN : world chain :=
  (Open (ref_evm 0) (at_time 1000) alice bob zero_address (Some 10) 0 0 (Some 1000) world2).1.
Definition worldR : world chain := (Settle (ref_evm 2) (at_time 1050) 1 worldN).1.

(** An ABI whose only method is [settle], with a fixed argument. *)
Definition settle_abi (id : Z) : ABI := {|
  MethodById _ := Some (mkMethod "settle" true);
  Unpack _ _ := Some [ABig id];
  Receive := None;
  Fallback := None
|}.

(** * The reference token satisfies the laws *)

Lemma decode_encode c data : encode c = Some data -> decode data = Some c.
Proof.
  assert (forall r : bytes, take 4 (transferFrom_selector ++ r) = transferFrom_selector) as Hf by done.
  assert (forall r : bytes, take 4 (transfer_selector ++ r) = transfer_selector) as Ht by done.
  assert (forall sel a r : bytes, length sel = 4%nat -> drop 16 (sel ++ replicate 12 0 ++ a ++ r) = a ++ r) as Hd.
  { intros sel a r Hl. rewrite app_assoc. apply drop_app_length'. by rewrite length_app, length_replicate, Hl. }
  unfold encode, decode, is_address, is_uint256. destruct c as [from to n|to n].
  - destruct (Nat.eqb_spec (length from) 20), (Nat.eqb_spec (length to) 20), (Z.leb_spec 0 n), (Z.ltb_spec n (2 ^ 256)); cbn [andb]; try done; intros Hdata; apply (inj Some) in Hdata; subst data.
    rewrite Hf, bool_decide_true, Hd by done. rewrite (take_app_length' from) by done. rewrite (drop_app_length' from) by done.
    rewrite (drop_app_length' (replicate 12 0)) by done. rewrite (take_app_length' to), (drop_app_length' to) by done.
    by rewrite be_decode_encode.
  - destruct (Nat.eqb_spec (length to) 20), (Z.leb_spec 0 n), (Z.ltb_spec n (2 ^ 256)); cbn [andb]; try done; intros Hdata; apply (inj Some) in Hdata; subst data.
    rewrite Ht, bool_decide_false, bool_decide_true, Hd by done. rewrite (take_app_length' to), (drop_app_length' to) by done.
    by rewrite be_decode_encode.
Qed.

(** An execution that succeeds: the transfer, and for the token with the hook perhaps a
    settlement below. *)
Lemma ref_apply m ctx msg w w' : ApplyMessage (ref_evm m) ctx msg true w = (w', Ok ""%string) ->
  exists c w1, decode (m_data msg) = Some c /\ plain (m_from msg) (m_to msg) c w = (w1, Ok ""%string) /\
    (w' = w1 \/ (m_to msg = hooked /\ exists m' paid, (m' < m)%nat /\ Settle (ref_evm m') ctx 1 w1 = (w', Ok paid))).
Proof.
  destruct m as [|m]; cbn [ref_evm ApplyMessage]; destruct (decode (m_data msg)) as [c|]; try (by intros [=]);
    destruct (plain _ _ c w) as [w1 [[|ch st]| |]] eqn:E; try (by intros [=]).
  - destruct c; intros [= <-]; eexists _, w1; by auto.
  - destruct c as [from to n|to n]; [intros [= <-]; eexists _, w1; by auto|].
    case_bool_decide as Hh; [|intros [= <-]; eexists _, w1; by auto].
    destruct (Settle (ref_evm m) ctx 1 w1) as [w2 [paid| |]] eqn:Hs; [|by intros [=]..]. intros [= <-].
    eexists _, w1. split; [done|]. split; [done|]. right. split; [done|]. exists m, paid. split; [lia|done].
Qed.

Lemma move_ok t src dst n w w' : move t src dst n w = (w', Ok ""%string) ->
  w' = mkWorld (store w) (token_move (ext w) t src dst n) (events w).
Proof. unfold move. destruct (_ <? _); by intros [=]. Qed.

Lemma ref_transfer m ctx by_ t nonce gas data c w w' : ref_standard t = true -> encode c = Some data ->
  ApplyMessage (ref_evm m) ctx (mkMessage by_ t nonce gas data false) true w = (w', Ok ""%string) -> plain by_ t c w = (w', Ok ""%string).
Proof.
  intros Hs Hc (c' & w1 & Hd & Hp & H)%ref_apply. cbn [m_data m_from m_to] in *. apply decode_encode in Hc. rewrite Hc in Hd. injection Hd as <-.
  destruct H as [->|[Hh _]]; [done|]. unfold ref_standard in Hs. by rewrite Hh in Hs.
Qed.

Lemma ref_fails m ctx msg w w' r : ApplyMessage (ref_evm m) ctx msg true w = (w', r) -> r <> Ok ""%string -> w' = w.
Proof.
  assert (forall c w1 r1, plain (m_from msg) (m_to msg) c w = (w1, r1) -> r1 <> Ok ""%string -> w1 = w) as Hp.
  { intros c w1 r1 H Hr. destruct c; cbn [plain] in H; unfold move in H; destruct (_ <? _); congruence. }
  destruct m as [|m]; cbn [ref_evm ApplyMessage]; (destruct (decode (m_data msg)) as [c|]; [|by intros [= <- _]]);
    destruct (plain _ _ c w) as [w1 [[|ch st]| |]] eqn:E; try (intros [= <- <-] Hr; by apply (Hp c _ _ E)).
  - by destruct c; intros [= _ <-].
  - destruct c; [by intros [= _ <-]|]. case_bool_decide; [|by intros [= _ <-]].
    destruct (Settle _ _ _ _) as [w2 [paid| |]]; [by intros [= _ <-]|by intros [= <- _]..].
Qed.

Lemma ref_pack m c : Pack (ref_evm m) c = encode c.
Proof. by destruct m. Qed.

Lemma ref_token_laws : token_laws ref_evm balanceOf ref_standard.
Proof.
  split.
  - intros m ctx by_ t nonce gas data from to n w w' Hs Hn Hp H. rewrite ref_pack in Hp.
    apply (ref_transfer _ _ _ _ _ _ _ _ _ _ Hs Hp), move_ok in H as ->. split_and!; [done..|]. intros. apply balanceOf_move.
  - intros m ctx by_ t nonce gas data to n w w' Hs Hn Hp H. rewrite ref_pack in Hp.
    apply (ref_transfer _ _ _ _ _ _ _ _ _ _ Hs Hp), move_ok in H as ->. split_and!; [done..|]. intros. apply balanceOf_move.
  - intros m ctx msg w w' Hs (c & w1 & _ & Hp & H)%ref_apply.
    assert (act ref_evm balanceOf ref_standard m w w1) as H1.
    { assert (exists src dst n, w1 = mkWorld (store w) (token_move (ext w) (m_to msg) src dst n) (events w)) as (src & dst & n & ->).
      { destruct c; apply move_ok in Hp; by eexists _, _, _. }
      apply act_outside; [done|]. intros t Ht Hsafe. unfold custody, holding. cbn [ext]. destruct (isNativeToken t) eqn:Hnat; [done|].
      rewrite balanceOf_move. unfold safe in Hsafe. rewrite Hnat in Hsafe. cbn [orb] in Hsafe.
      rewrite !decide_False by (intros [-> _]; congruence). lia. }
    destruct H as [->|(_ & m' & paid & Hm & H)]; [by apply rtc_once|].
    eapply rtc_l; [exact H1|]. apply rtc_once. eapply act_step; [exact Hm|]. by eapply step_settle; [|exact H].
  - intros m ctx msg w w' e H. by eapply ref_fails.
  - intros m ctx msg w w' e He H. eapply ref_fails; [exact H|]. congruence.
  - done.
  - done.
Qed.

Lemma abs0_wf : wf_abs abs0.
Proof. split; simpl; [intros id s H; by rewrite lookup_empty in H..|lia|done]. Qed.

Lemma world0_refines : refines (store world0) abs0.
Proof. apply genesis_base_refines. Qed.

Lemma world0_inv : inv balanceOf ref_standard world0 abs0.
Proof.
  split_and!; [apply world0_refines|apply abs0_wf|].
  intros t Ht _. change (outstanding abs0 t) with 0. unfold custody, holding.
  destruct (isNativeToken t); [done|]. unfold balanceOf, world0, chain0; cbn [ext tokens fst].
  change (ext _) with chain0. cbn [tokens chain0].
  rewrite !lookup_insert_ne, lookup_singleton_ne; [done|intros [=]; done..].
Qed.

Lemma run_open1 :
  Open (ref_evm 0) (at_time 1000) alice bob zero_address (Some 10) 0 0 (Some 1000) world0
  = (world1, Ok 1).
Proof. unfold world1. apply run_eq. vm_compute. reflexivity. Qed.

Lemma run_settle1 :
  Settle (ref_evm 0) (at_time 1050) 1 world1 = (world1_settled, Ok 500).
Proof. unfold world1_settled. apply run_eq. vm_compute. reflexivity. Qed.

Lemma run_close1 :
  Close (ref_evm 0) (at_time 1050) 1 bob world1 = (world1_closed, Ok 500).
Proof. unfold world1_closed. apply run_eq. vm_compute. reflexivity. Qed.

Lemma run_update1 :
  UpdateRate (ref_evm 0) (at_time 1050) 1 alice (Some 5) world1 = (world1_updated, Ok tt).
Proof. unfold world1_updated. apply run_eq. vm_compute. reflexivity. Qed.

Lemma world1_refines : refines (store world1) abs1 /\ wf_abs abs1.
Proof.
  destruct (open_ok ref_evm balanceOf ref_standard ref_token_laws 0 world0 abs0 (at_time 1000) alice bob
    zero_address (Some 10) 0 0 (Some 1000) world1 1)
    as (r & c & [= <-] & [= <-] & _ & _ & _ & _ & _ & _ & _ & _ & Hr & _);
    [apply world0_refines|apply abs0_wf|done..|apply run_open1|].
  split; [exact Hr|]. apply wf_insert; [|by apply wf_opened|by intros _; vm_compute|done].
  split; simpl; [intros id s H; by rewrite lookup_empty in H..|lia|done].
Qed.

Lemma world1_inv : inv balanceOf ref_standard world1 abs1.
Proof.
  destruct world1_refines as [Hr Hwf]. split_and!; [done..|].
  intros t Ht _. unfold abs1. rewrite outstanding_new by done.
  change (outstanding _ t) with 0. unfold custody, holding.
  destruct (isNativeToken t) eqn:Hn.
  - rewrite (native_same t zero_address) by done. by vm_compute.
  - rewrite decide_False; [|intros <-; done]. unfold balanceOf.
    change (tokens (ext world1)) with (tokens chain0). cbn [tokens chain0].
    rewrite !lookup_insert_ne, lookup_singleton_ne; [done|intros [=]; done..].
Qed.

(** * Behaviours the documentation does not mention *)

Section Findings.
Context {X : Type} {BK : BankKeeper X} {BL : BankLaws X} {EC : EthCommon}.
Context (evm : nat -> Evm X).
Context (balanceOf : X -> bytes -> bytes -> Z).
Context (standard : bytes -> bool).
Context (TL : token_laws evm balanceOf standard).

(** Accrual after a rate change starts from zero but is still reduced by all
    that was settled before it. *)
Lemma accrued_after_update s r now t p :
  wf_stream s -> 0 < r -> 0 <= now -> now <= t < 2 ^ 64 -> 0 <= p <= remaining s ->
  r * (t - now) <= parseAmount (Settled s) + p ->
  streamAccrued (with_Rate (BigString r) now (pay p s)) t = 0.
Proof.
  intros Hws Hr0 Hnow Ht Hp Hle. destruct (wf_pay s p Hws Hp) as [Hws' _].
  destruct Hws as [_ _ _ _ (c & n & Hc & Hn & Ec & En) _ _ _].
  assert (parseAmount (Settled s) = n) as Hset
    by (unfold parseAmount; rewrite En; apply parseNonNeg_BigString; lia).
  rewrite Hset in Hle.
  rewrite (streamAccrued_ref _ _ r c (n + p)).
  - unfold accrued_ref, elapsed_ref. simpl.
    destruct (Z.eqb_spec (StopTime s) 0); [|destruct (Z.le_ge_cases (Z.min t (StopTime s)) now)];
      nia.
  - simpl. lia.
  - lia.
  - done.
  - done.
  - simpl. by rewrite Hset.
  - lia.
  - lia.
  - lia.
Qed.

(** [UpdateRate] restarts the clock but keeps the cumulative [Settled], so
    the new rate does not apply from now on as documented: until the new rate
    has re-earned everything ever paid on the stream, settling it succeeds and
    pays nothing. *)
Theorem update_rate_starves_payee m w a ctx ctx' id s caller r w' :
  refines (store w) a -> wf_abs a -> a_streams a !! id = Some s -> safe standard (Token s) = true ->
  UpdateRate (evm m) ctx id caller (Some r) w = (w', Ok tt) ->
  let now := u64 (BlockTime ctx) in
  let t := u64 (BlockTime ctx') in
  now <= t ->
  r * (t - now) <= parseAmount (Settled s) + streamAccrued s now ->
  Settle (evm m) ctx' id w' = (w', Ok 0).
Proof.
  intros Hr Hwf Hs Hsafe H now t Hnow Hle.
  pose proof (wf_id_range _ Hwf _ _ Hs) as Hid.
  destruct (update_ok evm balanceOf standard TL m w a ctx id s caller (Some r) w' Hr Hwf Hs Hsafe H) as (r1 & _ & [= <-] & Hr0 & Hr' & _).
  pose proof (wf_streams a Hwf _ _ Hs) as Hws. destruct (wf_ids a Hwf _ _ Hs) as [Hsid Hlt].
  pose proof (accrued_bounds s now Hws ltac:(apply now_range)) as Hp.
  pose proof (now_range ctx). pose proof (now_range ctx').
  unfold Settle. unfold bind at 1.
  rewrite (get_active_spec w' _ id Hr'); [|apply wf_insert; [done| |exact (wf_native a Hwf _ _ Hs)|simpl; lia]|done].
  - cbn [insert_stream a_streams]. change (ID (with_Rate _ _ _)) with (ID s).
    rewrite Hsid, lookup_insert_eq. rewrite accrued_after_update; done || lia.
  - apply wf_with_Rate; [done|done|]. by apply wf_pay.
Qed.

End Findings.

(** [Open] adds [MinDuration] to the start time in 64 bits, so a start near
    the top of the range makes the sum wrap and a stop time before the start is
    accepted: the stream is stored, its cap is escrowed, and it never accrues. *)
Theorem open_accepts_stop_before_start :
  let r := Open (ref_evm 0) (at_time 1000) alice bob zero_address (Some 10) (2 ^ 64 - 1) 2000
             (Some 1000) world0 in
  r.2 = Ok 1 /\
  GetStream (store r.1) 1
    = Some (opened 1 alice bob zero_address 10 (2 ^ 64 - 1) 2000 1000) /\
  holding balanceOf (ext r.1) zero_address alice = 999000 /\
  forall now, streamAccrued (opened 1 alice bob zero_address 10 (2 ^ 64 - 1) 2000 1000) now = 0.
Proof.
  cbv zeta. split_and!; [vm_compute; reflexivity..|]. intros now.
  unfold streamAccrued. cbn [StopTime StartTime opened negb Z.eqb andb]. cbv zeta.
  case_match eqn:Hle; [done|]. apply Z.leb_gt in Hle.
  destruct (Z.ltb_spec 2000 now); lia.
Qed.

(** the payout precedes the update of the record, so a token that calls its
    recipient back lets the payee settle the same accrual again inside the
    transfer: a settlement of 500 pays Bob 1500 out of the escrow of 2000 that
    two streams share, the record says 500, and the rest no longer covers what
    the two streams are owed. *)
Theorem reentrant_settle_overpays :
  let r := Settle (ref_evm 2) (at_time 1050) 1 world2 in
  r.2 = Ok 500 /\
  holding balanceOf (ext world2) hooked bob = 0 /\
  custody balanceOf (ext world2) hooked = 2000 /\
  holding balanceOf (ext r.1) hooked bob = 1500 /\
  custody balanceOf (ext r.1) hooked = 500 /\
  sumZ remaining (GetAllStreams (store r.1)) = 1500.
Proof. cbv zeta. split_and!; [vm_compute; reflexivity..]. Qed.

(** * Runs at concrete inputs *)

Lemma streamAccrued_correct_witness :
  streamAccrued stream1 1050
    = accrued_ref (parseAmount (RatePerSecond stream1)) (parseAmount (Cap stream1))
        (parseAmount (Settled stream1)) stream1 1050 /\
  0 <= streamAccrued stream1 1050 <= remaining stream1 /\
  streamAccrued stream1 1050 <= streamAccrued stream1 1060.
Proof.
  apply (streamAccrued_correct stream1 1050 1060); [|lia|lia].
  by apply wf_opened.
Defined.

Lemma run_openT : Open (ref_evm 0) (at_time 1000) alice bob hooked (Some 10) 0 0 (Some 1000) world0 = (worldT, Ok 1).
Proof. unfold worldT. apply run_eq. vm_compute. reflexivity. Qed.

Lemma run_open2 : Open (ref_evm 0) (at_time 1000) carol bob hooked (Some 10) 0 0 (Some 1000) worldT = (world2, Ok 2).
Proof. unfold world2. apply run_eq. vm_compute. reflexivity. Qed.

Lemma run_openN : Open (ref_evm 0) (at_time 1000) alice bob zero_address (Some 10) 0 0 (Some 1000) world2 = (worldN, Ok 3).
Proof. unfold worldN. apply run_eq. vm_compute. reflexivity. Qed.

Lemma run_settleR : Settle (ref_evm 2) (at_time 1050) 1 worldN = (worldR, Ok 500).
Proof. unfold worldR. apply run_eq. vm_compute. reflexivity. Qed.

(** Two streams in the token with the hook and one in native coin.  The settlement of
    the first is entered again twice and pays 1500 of the 2000 that the two have in
    escrow; the native escrow is whole. *)
Lemma escrow_always_solvent_witness :
  custody balanceOf (ext worldR) hooked = 500 /\ custody balanceOf (ext worldR) zero_address = 1000 /\
  exists a', inv balanceOf ref_standard worldR a' /\ follows abs0 a'.
Proof.
  split; [vm_compute; reflexivity|]. split; [vm_compute; reflexivity|].
  apply (escrow_always_solvent ref_evm balanceOf ref_standard ref_token_laws 3 world0 abs0 worldR world0_inv).
  eapply rtc_l; [|eapply rtc_l; [|eapply rtc_l; [|apply rtc_once]]].
  - apply (act_step _ _ _ _ 0); [lia|]. by eapply step_open; [..|apply run_openT|].
  - apply (act_step _ _ _ _ 0); [lia|]. by eapply step_open; [..|apply run_open2|].
  - apply (act_step _ _ _ _ 0); [lia|]. by eapply step_open; [..|apply run_openN|].
  - apply (act_step _ _ _ _ 2); [lia|]. by eapply step_settle; [|apply run_settleR].
Defined.

Lemma close_distributes_escrow_witness :
  exists s, a_streams abs1 !! 1 = Some s /\ (bob = Payer s \/ bob = Payee s) /\
    500 = streamAccrued s (u64 1050) /\
    refines (store world1_closed) (remove_stream 1 abs1) /\
    forall t h, length t = 20%nat ->
      holding balanceOf (ext world1_closed) t h = holding balanceOf (ext world1) t h
        + (if decide (t = Token s) then
             (if decide (h = Payee s) then 500 else 0)
             + (if decide (h = Payer s) then remaining s - 500 else 0)
             - (if decide (h = ModuleAccountAddress) then remaining s else 0)
           else 0).
Proof.
  apply (close_distributes_escrow ref_evm balanceOf ref_standard ref_token_laws 0 world1 abs1
           (at_time 1050) 1 bob world1_closed 500);
    [apply world1_refines|apply world1_refines|done|by intros s [= <-]|apply run_close1].
Defined.

Lemma settle_pays_once_witness :
  (exists s, a_streams abs1 !! 1 = Some s /\ 500 = streamAccrued s (u64 1050) /\
    refines (store world1_settled) (insert_stream (pay 500 s) abs1) /\
    moved balanceOf (ext world1) (ext world1_settled) (Token s) ModuleAccountAddress (Payee s) 500) /\
  forall m, Settle (ref_evm m) (at_time 1050) 1 world1_settled = (world1_settled, Ok 0).
Proof.
  apply (settle_pays_once ref_evm balanceOf ref_standard ref_token_laws 0 world1 abs1 (at_time 1050) 1);
    [apply world1_refines|apply world1_refines|done|by intros s [= <-]|apply run_settle1].
Defined.

Lemma open_escrows_cap_witness :
  exists r c, Some 10 = Some r /\ Some 1000 = Some c /\ 0 < r /\ 0 < c /\ (isNativeToken zero_address = true -> c < 2 ^ 256) /\
    bob <> zero_address /\ alice <> bob /\ 1 = a_next abs0 /\
    (0 = 0 \/ u64 (u64 1000 + MinDuration (a_params abs0)) <= 0) /\
    CountStreamsByPayer (store world0) alice < MaxStreamsPerPayer (a_params abs0) /\
    refines (store world1)
      (insert_stream (opened 1 alice bob zero_address r (u64 1000) 0 c)
         (mkAbs (a_streams abs0) (1 + 1) (a_params abs0))) /\
    moved balanceOf (ext world0) (ext world1) zero_address alice ModuleAccountAddress c.
Proof.
  apply (open_escrows_cap ref_evm balanceOf ref_standard ref_token_laws 0 world0 abs0 (at_time 1000) alice bob
    zero_address (Some 10) 0 0 (Some 1000) world1 1);
    [apply world0_refines|apply abs0_wf|done..|apply run_open1].
Defined.

Lemma failed_operation_changes_nothing_witness :
  Settle (ref_evm 0) (at_time 1050) 7 world1 = (world1, Err ErrStreamNotFound) /\ world1 = world1.
Proof.
  assert (Settle (ref_evm 0) (at_time 1050) 7 world1 = (world1, Err ErrStreamNotFound)) as H
    by (apply injective_projections; [reflexivity|vm_compute; reflexivity]).
  split; [exact H|].
  apply (failed_operation_changes_nothing ref_evm balanceOf ref_standard ref_token_laws world1 world1
           ErrStreamNotFound).
  right. left. exists 0%nat, (at_time 1050), 7. exact H.
Defined.

Lemma native_stream_progress_witness :
  (exists w', Settle (ref_evm 0) (at_time 1050) 1 world1 = (w', Ok (streamAccrued stream1 (u64 1050)))) /\
  (exists w', Close (ref_evm 0) (at_time 1050) 1 alice world1
              = (w', Ok (streamAccrued stream1 (u64 1050)))).
Proof.
  apply (native_stream_progress ref_evm balanceOf ref_standard ref_token_laws 0 world1 abs1 (at_time 1050) 1
           stream1 alice); [apply world1_inv|reflexivity..|by left].
Defined.

Lemma stream_blocked_wf : wf_stream stream_blocked.
Proof. by apply wf_opened. Qed.

Lemma stream_blocked_listed : Forall (fun s => wf_stream s /\ native_fits s /\ 0 <= ID s) [stream_blocked].
Proof. apply Forall_singleton. split_and!; [apply stream_blocked_wf|by intros _; vm_compute|done]. Qed.

Lemma world_blocked_refines : refines (store world_blocked) abs_blocked /\ wf_abs abs_blocked.
Proof.
  destruct (init_spec (mkGenesis DefaultParams 2 [stream_blocked]) (mkWorld ∅ chain0 []))
    as (w' & Hrun & Hr & Hwf & _);
    [done|done|done|apply stream_blocked_listed|].
  split; [|exact Hwf]. unfold world_blocked. by rewrite Hrun.
Qed.

Lemma blocked_payee_locks_refund_witness :
  exists e, Close (ref_evm 0) (at_time 1050) 1 alice world_blocked = (world_blocked, Err e).
Proof.
  apply (blocked_payee_locks_refund ref_evm 0 world_blocked abs_blocked
           (at_time 1050) 1 stream_blocked alice);
    [apply world_blocked_refines|apply world_blocked_refines|reflexivity..].
Defined.

Lemma stream_ids_by_party_witness :
  (StronglySorted Z.lt (PayerStreamIDs (store world1) alice) /\
   forall id, id ∈ PayerStreamIDs (store world1) alice <->
     exists s, a_streams abs1 !! id = Some s /\ Payer s = alice) /\
  (StronglySorted Z.lt (PayeeStreamIDs (store world1) alice) /\
   forall id, id ∈ PayeeStreamIDs (store world1) alice <->
     exists s, a_streams abs1 !! id = Some s /\ Payee s = alice) /\
  CountStreamsByPayer (store world1) alice
    = u32 (Z.of_nat (length (PayerStreamIDs (store world1) alice))).
Proof.
  destruct world1_refines as [Hr Hwf].
  apply (stream_ids_by_party (store world1) abs1 Hr Hwf alice); reflexivity.
Defined.

Lemma genesis_roundtrip_witness :
  let gs := mkGenesis DefaultParams 2 [stream_blocked] in
  exists w', InitGenesis gs (mkWorld ∅ chain0 []) = (w', Ok tt) /\ ExportGenesis w' = (w', Ok gs).
Proof.
  apply (genesis_roundtrip (mkGenesis DefaultParams 2 [stream_blocked]) (mkWorld ∅ chain0 []));
    [done|done|done|apply stream_blocked_listed|repeat constructor].
Defined.

Lemma export_validates_and_reimports_witness :
  exists gs w1, ExportGenesis world1 = (world1, Ok gs) /\ GenesisState_Validate gs = true /\
    InitGenesis gs (mkWorld ∅ chain0 []) = (w1, Ok tt) /\ refines (store w1) abs1.
Proof.
  apply (export_validates_and_reimports world1 (mkWorld ∅ chain0 []) abs1);
    [apply world1_refines|apply world1_refines|reflexivity].
Defined.

(** Bob earned 500 by time 1050; at the new rate of 5 nothing is paid before
    time 1150. *)
Lemma update_rate_starves_payee_witness :
  Settle (ref_evm 0) (at_time 1150) 1 world1_updated = (world1_updated, Ok 0).
Proof.
  apply (update_rate_starves_payee ref_evm balanceOf ref_standard ref_token_laws 0 world1 abs1
           (at_time 1050) (at_time 1150) 1 stream1 alice 5 world1_updated);
    [apply world1_refines|apply world1_refines|reflexivity|reflexivity|apply run_update1|vm_compute; discriminate..].
Defined.

Lemma readonly_run_changes_nothing_witness : world1 = world1.
Proof.
  apply (readonly_run_changes_nothing ref_evm 0 (settle_abi 1) (at_time 1050)
           (mkContract carol None [1; 2; 3; 4]) world1 world1 (Err ErrWriteProtection)).
  reflexivity.
Defined.

Lemma run_accrued1 : handleAccrued (at_time 1050) [ABig 1] world1 = (world1, Ok [ABig 500]).
Proof. vm_compute. reflexivity. Qed.

Lemma accrued_view_predicts_settle_witness :
  (a_streams abs1 !! 1 = None -> 500 = 0) /\
  (forall out, handleSettle (ref_evm 0) (at_time 1050) [ABig 1] world1 = (world1_settled, Ok out) ->
     out = [ABig 500]).
Proof.
  apply (accrued_view_predicts_settle ref_evm 0 (at_time 1050) 1 world1 world1_settled abs1 500); [apply world1_refines|apply world1_refines|done|apply run_accrued1].
Defined.
