(* ===== verification/Scheduler.v ===== *)
(** [x/scheduler]: scheduled EVM calls with a prepaid deposit.

    Data and keys ([types/types.go], [types/keys.go], [types/params.go],
    [types/genesis.go]), the store operations ([keeper/jobs.go],
    [keeper/params.go], [keeper/genesis.go]), the deposits
    ([keeper/escrow.go]), the three operations [Schedule], [Cancel] and
    [Reschedule] ([keeper/schedule.go]) and the dispatch of due jobs at the end
    of a block ([keeper/abci.go]). *)

From stdpp Require Import base list gmap strings sorting.
From Stdlib Require Import ZArith Lia.
From Stdlib Require String.
From S2P Require Import Prelude KVStore IndexedStore BigInt Ledger.
Open Scope Z_scope.
Open Scope go_scope.

(** * Data *)

Record Job := mkJob {
  ID : Z;
  Creator : bytes;
  Target : bytes;
  CallData : bytes;
  ExecuteAtBlock : Z;
  GasLimit : Z;
  Deposit : string;
  Active : bool
}.

(** [job.ExecuteAtBlock = h] *)
Definition with_ExecuteAtBlock (h : Z) (j : Job) : Job :=
  mkJob (ID j) (Creator j) (Target j) (CallData j) h (GasLimit j) (Deposit j) (Active j).

Record Params := mkParams {
  GasScheduleBase : Z;
  GasSchedulePerByte : Z;
  GasCancel : Z;
  GasReschedule : Z;
  GasView : Z;
  MaxJobsPerCreator : Z;
  MaxScheduleHorizon : Z;
  MinDepositFactor : Z
}.

Definition DefaultParams : Params := mkParams 5000 50 3000 4000 200 1024 2592000 2.

(** [Params.Validate]: [true] when it returns [nil]. *)
Definition Params_Validate (p : Params) : bool :=
  negb (GasScheduleBase p =? 0) && negb (GasCancel p =? 0) && negb (GasReschedule p =? 0)
  && negb (MaxJobsPerCreator p =? 0) && negb (MaxScheduleHorizon p =? 0)
  && negb (MinDepositFactor p =? 0).

Inductive error :=
| ErrJobNotFound
| ErrUnauthorized
| ErrHorizonExceeded
| ErrPastBlock
| ErrMaxJobsExceeded
| ErrDepositTooLow
| ErrInvalidGasLimit
| ErrInvalidTarget
| ErrJobInactive
| ErrInvalidParams
| ErrExternal (code : Z).

Inductive event :=
| JobScheduled (id : Z) (creator target : bytes) (executeAtBlock gasLimit : Z) (deposit : string)
| JobCancelled (id : Z) (creator : bytes) (refund : string)
| JobRescheduled (id old_block new_block : Z)
| JobFailed (id : Z) (creator target : bytes) (error refund : string)
| JobExecuted (id : Z) (creator target : bytes) (gas_used : Z) (consumed refund : string).

(** * Store keys *)

Definition JobByDueBlockKeyPrefix : bytes := [1].
Definition CreatorJobIndexPrefix : bytes := [2].
Definition JobByIDKeyPrefix : bytes := [3].
Definition ParamsKey : bytes := [4].
Definition NextJobIDKey : bytes := [5].

Definition JobByDueBlockPrefix (executeAtBlock : Z) : bytes :=
  JobByDueBlockKeyPrefix ++ be8 executeAtBlock.

Definition JobByDueBlockKey (executeAtBlock jobID : Z) : bytes :=
  JobByDueBlockKeyPrefix ++ be8 executeAtBlock ++ be8 jobID.

Definition CreatorJobsPrefix (creator : bytes) : bytes := CreatorJobIndexPrefix ++ creator.

Definition CreatorJobKey (creator : bytes) (jobID : Z) : bytes :=
  CreatorJobIndexPrefix ++ creator ++ be8 jobID.

Definition JobByIDKey (jobID : Z) : bytes := JobByIDKeyPrefix ++ be8 jobID.

(** A stored value: the JSON of a job, the JSON of the parameters, or raw bytes. *)
Inductive val :=
| VJob (j : Job)
| VParams (p : Params)
| VRaw (bz : bytes).

Abbreviation kv := (gmap bytes val).
Abbreviation world := (Ledger.world val event).

(** * Pure helpers *)

Definition parseDeposit (s : string) : Z := parseNonNeg s.

Definition equalAddress (a b : bytes) : bool :=
  if negb (Nat.eqb (length a) (length b)) then false
  else foldl (fun diff xy => Z.lor diff (Z.lxor xy.1 xy.2)) 0 (zip a b) =? 0.

(** What the module needs of the fee market: [GetBaseFee], [nil] when there is
    none. *)
Class FeeMarketKeeper (X : Type) := { GetBaseFee : X -> option Z }.

(** [if baseFee == nil { baseFee = big.NewInt(0) }] *)
Definition base_fee {X} {FM : FeeMarketKeeper X} (x : X) : Z := default 0 (GetBaseFee x).

Section Keeper.
Context {X : Type} {BK : BankKeeper X} {EC : EthCommon} {FM : FeeMarketKeeper X}.

(** [evmKeeper.CallEVMWithData(ctx, from, &contract, data, commit)]: the gas used,
    or the text of the error.  The callee is arbitrary contract code; it may
    change any part of the world, this module's store included. *)
Variable CallEVMWithData : Ctx -> bytes -> bytes -> bytes -> bool -> M (world X) string Z.

(** The text of a recovered panic, value and stack trace. *)
Variable panic_text : string.

Abbreviation St := (M (world X) error).
Abbreviation run_bank := (run_ext ErrExternal).

(** ** [keeper/params.go] *)

Definition GetParams (st : kv) : Params :=
  match st !! ParamsKey with
  | Some (VParams p) => p
  | _ => DefaultParams
  end.

Definition SetParams (p : Params) : St unit :=
  if negb (Params_Validate p) then fail ErrInvalidParams
  else update_store (fun st => <[ParamsKey := VParams p]> st).

(** ** [keeper/jobs.go] *)

Definition SetJob_store (j : Job) (st : kv) : kv :=
  <[CreatorJobKey (Creator j) (ID j) := VRaw [1]]>
    (<[JobByDueBlockKey (ExecuteAtBlock j) (ID j) := VJob j]>
      (<[JobByIDKey (ID j) := VJob j]> st)).

Definition SetJob (j : Job) : St unit := update_store (SetJob_store j).

Definition GetJob (st : kv) (jobID : Z) : option Job :=
  match st !! JobByIDKey jobID with
  | Some (VJob j) => Some j
  | _ => None
  end.

Definition DeleteJob_store (j : Job) (st : kv) : kv :=
  delete (CreatorJobKey (Creator j) (ID j))
    (delete (JobByDueBlockKey (ExecuteAtBlock j) (ID j))
      (delete (JobByIDKey (ID j)) st)).

Definition DeleteJob (j : Job) : St unit := update_store (DeleteJob_store j).

(** The jobs [IterateJobsDueAt] hands to its callback, in order, for a callback
    that never stops the iteration. *)
Definition IterateJobsDueAt (st : kv) (height : Z) : list Job :=
  omap (fun e : bytes * val => match e.2 with VJob j => Some j | _ => None end)
       (prefix_iter (JobByDueBlockPrefix height) st).

Definition PendingJobIDsByCreator (st : kv) (creator : bytes) : list Z :=
  omap (key_id (1 + length creator)) (prefix_iter (CreatorJobsPrefix creator) st).

Definition CountJobsByCreator (st : kv) (creator : bytes) : Z :=
  u32 (Z.of_nat (length (prefix_iter (CreatorJobsPrefix creator) st))).

(** [binary.BigEndian.Uint64] on a stored value. *)
Definition read_u64 (v : val) : St Z :=
  match v with
  | VRaw bz => if Nat.ltb (length bz) 8 then panic else ret (be_decode (take 8 bz))
  | _ => panic
  end.

Definition SetNextJobID (next : Z) : St unit :=
  update_store (fun st => <[NextJobIDKey := VRaw (be8 next)]> st).

Definition NextJobID : St Z :=
  let! st := gets store in
  let! next :=
    match st !! NextJobIDKey with
    | None => ret 1
    | Some v => let! n := read_u64 v in ret (if n =? 0 then 1 else n)
    end in
  SetNextJobID (u64 (next + 1)) ;;
  ret next.

Definition GetNextJobID : St Z :=
  let! st := gets store in
  match st !! NextJobIDKey with
  | None => ret 1
  | Some v => read_u64 v
  end.

Definition GetAllJobs (st : kv) : list Job :=
  omap (fun e : bytes * val => match e.2 with VJob j => Some j | _ => None end)
       (prefix_iter JobByIDKeyPrefix st).

(** ** [keeper/escrow.go] *)

Definition ModuleAccountName : string := "scheduler".

Definition ModuleAccountAddress : bytes := GetModuleAddress ModuleAccountName.

Definition EscrowDeposit (payer : bytes) (deposit : option Z) : St unit :=
  match deposit with
  | None => ret tt
  | Some d =>
    if d =? 0 then ret tt
    else if d <? 0 then fail ErrDepositTooLow
    else run_bank (fun x =>
           SendCoinsFromAccountToModule x payer ModuleAccountName (DefaultEVMDenom, d))
  end.

Definition RefundDeposit (recipient : bytes) (amount : option Z) : St unit :=
  match amount with
  | None => ret tt
  | Some n =>
    if n <=? 0 then ret tt
    else run_bank (fun x =>
           SendCoinsFromModuleToAccount x ModuleAccountName recipient (DefaultEVMDenom, n))
  end.

(** ** [keeper/schedule.go] *)

Definition Schedule (ctx : Ctx) (creator target callData : bytes)
    (executeAtBlock gasLimit : Z) (deposit : option Z) : St Z :=
  guard (negb (bool_decide (target = zero_address))) ErrInvalidTarget ;;
  guard (negb (gasLimit =? 0)) ErrInvalidGasLimit ;;
  let! deposit :=
    match deposit with
    | None => fail ErrDepositTooLow
    | Some d => if d <? 0 then fail ErrDepositTooLow else ret d
    end in
  let currentHeight := u64 (BlockHeight ctx) in
  guard (negb (executeAtBlock <=? currentHeight)) ErrPastBlock ;;
  let! params := gets (fun w => GetParams (store w)) in
  guard (negb (MaxScheduleHorizon params <? u64 (executeAtBlock - currentHeight)))
        ErrHorizonExceeded ;;
  let! count := gets (fun w => CountJobsByCreator (store w) creator) in
  guard (negb (MaxJobsPerCreator params <=? count)) ErrMaxJobsExceeded ;;
  let! baseFee := gets (fun w => base_fee (ext w)) in
  let minDeposit := gasLimit * baseFee * MinDepositFactor params in
  guard (negb (deposit <? minDeposit)) ErrDepositTooLow ;;
  let! jobID := NextJobID in
  SetJob {|
    ID := jobID; Creator := creator; Target := target; CallData := callData;
    ExecuteAtBlock := executeAtBlock; GasLimit := gasLimit;
    Deposit := BigString deposit; Active := true |} ;;
  EmitEvent (JobScheduled jobID creator target executeAtBlock gasLimit (BigString deposit)) ;;
  ret jobID.

(** The lookup, the [Active] check and the creator check that [Cancel] and
    [Reschedule] start with. *)
Definition get_owned (caller : bytes) (jobID : Z) : St Job :=
  let! st := gets store in
  match GetJob st jobID with
  | None => fail ErrJobNotFound
  | Some job =>
    if negb (Active job) then fail ErrJobInactive
    else if negb (equalAddress (Creator job) caller) then fail ErrUnauthorized
    else ret job
  end.

Definition Cancel (ctx : Ctx) (caller : bytes) (jobID : Z) : St unit :=
  let! job := get_owned caller jobID in
  RefundDeposit caller (Some (parseDeposit (Deposit job))) ;;
  DeleteJob job ;;
  EmitEvent (JobCancelled jobID caller (Deposit job)).

Definition Reschedule (ctx : Ctx) (caller : bytes) (jobID newExecuteAtBlock : Z) : St unit :=
  let! job := get_owned caller jobID in
  let currentHeight := u64 (BlockHeight ctx) in
  guard (negb (newExecuteAtBlock <=? currentHeight)) ErrPastBlock ;;
  let! params := gets (fun w => GetParams (store w)) in
  guard (negb (MaxScheduleHorizon params <? u64 (newExecuteAtBlock - currentHeight)))
        ErrHorizonExceeded ;;
  let oldBlock := ExecuteAtBlock job in
  DeleteJob job ;;
  SetJob (with_ExecuteAtBlock newExecuteAtBlock job) ;;
  EmitEvent (JobRescheduled jobID oldBlock newExecuteAtBlock).

(** ** [keeper/abci.go] *)

(** A refund whose failure is logged: the amount the event reports. *)
Definition try_refund (recipient : bytes) (amount : Z) (w : world X) : world X * Z :=
  match RefundDeposit recipient (Some amount) w with
  | (w', Ok _) => (w', amount)
  | (w', _) => (w', 0)
  end.

Definition emit (e : event) (w : world X) : world X :=
  mkWorld (store w) (ext w) (events w ++ [e]).

(** [dispatchJob] always returns.  The call runs on a cached context, written
    back only when it succeeds; the deferred [DeleteJob] runs last, on the outer
    context. *)
Definition dispatchJob (ctx : Ctx) (j : Job) (w : world X) : world X :=
  let target := BytesToAddress (Target j) in
  let creator := BytesToAddress (Creator j) in
  let deposit := parseDeposit (Deposit j) in
  let failed errStr :=
    let (w1, refund) := try_refund creator deposit w in
    emit (JobFailed (ID j) creator target (String.substring 0 512 errStr) (BigString refund)) w1 in
  let w' :=
    match CallEVMWithData ctx creator target (CallData j) true w with
    | (_, Panic) => failed panic_text
    | (_, Err e) => failed e
    | (w1, Ok gasUsed) =>
      let consumed := gasUsed * base_fee (ext w1) in
      let refund := deposit - consumed in
      let refund := if refund <? 0 then 0 else refund in
      let (w2, refund) := try_refund creator refund w1 in
      emit (JobExecuted (ID j) creator target gasUsed (BigString consumed) (BigString refund)) w2
    end in
  mkWorld (DeleteJob_store j (store w')) (ext w') (events w').

Definition EndBlocker (ctx : Ctx) (w : world X) : world X :=
  let height := u64 (BlockHeight ctx) in
  let due := filter (fun j => Active j = true) (IterateJobsDueAt (store w) height) in
  foldl (fun w j => dispatchJob ctx j w) w due.

(** ** [keeper/genesis.go] and [types/genesis.go] *)

Record GenesisState := mkGenesis {
  gs_Params : Params;
  gs_NextJobID : Z;
  gs_Jobs : list Job
}.

Definition DefaultGenesisState : GenesisState := mkGenesis DefaultParams 1 [].

Fixpoint validate_jobs (next : Z) (seen : gset Z) (js : list Job) : bool :=
  match js with
  | [] => true
  | j :: js' =>
    if ID j =? 0 then false
    else if bool_decide (ID j ∈ seen) then false
    else if next <=? ID j then false
    else validate_jobs next ({[ID j]} ∪ seen) js'
  end.

Definition GenesisState_Validate (gs : GenesisState) : bool :=
  Params_Validate (gs_Params gs) && validate_jobs (gs_NextJobID gs) ∅ (gs_Jobs gs).

Fixpoint set_jobs (js : list Job) : St unit :=
  match js with
  | [] => ret tt
  | j :: js' => SetJob j ;; set_jobs js'
  end.

Definition InitGenesis (gs : GenesisState) : St unit :=
  fun w =>
    match SetParams (gs_Params gs) w with
    | (w', Ok _) => (SetNextJobID (gs_NextJobID gs) ;; set_jobs (gs_Jobs gs)) w'
    | (w', _) => (w', Panic)
    end.

Definition ExportGenesis : St GenesisState :=
  let! st := gets store in
  let! next := GetNextJobID in
  ret (mkGenesis (GetParams st) next (GetAllJobs st)).

End Keeper.

Arguments RefundDeposit : simpl never.
Arguments EscrowDeposit : simpl never.
Arguments try_refund : simpl never.
Arguments dispatchJob : simpl never.

(** * Abstract view of the store

    The pending jobs by id, the next id and the parameters. *)

Record abs := mkAbs {
  a_jobs : gmap Z Job;
  a_next : Z;
  a_params : Params
}.

(** The three entries of a job: the record by id, its copy in the due-block
    index, and the creator's membership marker. *)
Definition job_entries (id : Z) (j : Job) : list (bytes * val) :=
  [(JobByIDKey id, VJob j); (JobByDueBlockKey (ExecuteAtBlock j) id, VJob j);
   (CreatorJobKey (Creator j) id, VRaw [1])].

Definition fixed_entries (next : Z) (p : Params) : list (bytes * val) :=
  [(ParamsKey, VParams p); (NextJobIDKey, VRaw (be8 next))].

Definition refines (st : kv) (a : abs) : Prop :=
  indexed job_entries st (a_jobs a) (fixed_entries (a_next a) (a_params a)).

Record wf_job (j : Job) : Prop := {
  wf_creator : length (Creator j) = 20%nat;
  wf_target : length (Target j) = 20%nat;
  wf_block : 0 <= ExecuteAtBlock j < 2 ^ 64;
  wf_deposit : exists d, 0 <= d /\ Deposit j = BigString d;
  wf_active : Active j = true
}.

Record wf_abs (a : abs) : Prop := {
  wf_ids : forall id j, a_jobs a !! id = Some j -> ID j = id /\ 0 < id < a_next a;
  wf_jobs : forall id j, a_jobs a !! id = Some j -> wf_job j;
  wf_next : 0 < a_next a < 2 ^ 64;
  wf_params : Params_Validate (a_params a) = true
}.

Definition insert_job (j : Job) (a : abs) : abs :=
  mkAbs (<[ID j := j]> (a_jobs a)) (a_next a) (a_params a).

Definition remove_job (id : Z) (a : abs) : abs :=
  mkAbs (delete id (a_jobs a)) (a_next a) (a_params a).

Definition job_lt (j j' : Job) : Prop := ID j < ID j'.

(** What the module account must hold: the sum of the pending deposits. *)
Definition deposits (a : abs) : Z :=
  sumZ (fun e : Z * Job => parseDeposit (Deposit e.2)) (map_to_list (a_jobs a)).

(** * Lemmas on keys *)

Lemma equalAddress_eq a b : equalAddress a b = bool_decide (a = b).
Proof. apply xor_compare_spec. Qed.

Lemma JobByIDKey_inj i j :
  0 <= i < 2 ^ 64 -> 0 <= j < 2 ^ 64 -> JobByIDKey i = JobByIDKey j -> i = j.
Proof. intros Hi Hj H. apply app_inv_head in H. by apply be8_inj. Qed.

Lemma JobByDueBlockKey_inj h i h' j :
  0 <= h < 2 ^ 64 -> 0 <= h' < 2 ^ 64 -> 0 <= i < 2 ^ 64 -> 0 <= j < 2 ^ 64 ->
  JobByDueBlockKey h i = JobByDueBlockKey h' j -> h = h' /\ i = j.
Proof.
  intros Hh Hh' Hi Hj H. apply app_inv_head in H.
  apply app_inj_1 in H as [H1 H2]; [|by rewrite !length_be8].
  split; by apply be8_inj.
Qed.

Lemma CreatorJobKey_inj p q i j :
  length p = 20%nat -> length q = 20%nat -> 0 <= i < 2 ^ 64 -> 0 <= j < 2 ^ 64 ->
  CreatorJobKey p i = CreatorJobKey q j -> p = q /\ i = j.
Proof.
  intros Hp Hq Hi Hj H. apply app_inv_head in H.
  apply app_inj_1 in H as [-> H]; [|lia]. split; [done|]. by apply be8_inj.
Qed.

Lemma jobs_separated (m : gmap Z Job) next p :
  (forall id j, m !! id = Some j ->
     0 <= id < 2 ^ 64 /\ length (Creator j) = 20%nat /\ 0 <= ExecuteAtBlock j < 2 ^ 64) ->
  separated job_entries m (fixed_entries next p).
Proof.
  intros Hm. split.
  - intros id j H. repeat constructor; simpl; rewrite ?elem_of_cons, ?elem_of_nil; naive_solver.
  - intros id j id' j' H H' Hne k. unfold keys_of; simpl.
    destruct (Hm _ _ H) as (Hid & Hc & Hb), (Hm _ _ H') as (Hid' & Hc' & Hb').
    rewrite !elem_of_cons, !elem_of_nil.
    intros [->|[->|[->|[]]]] [He|[He|[He|[]]]]; try discriminate He.
    + by apply JobByIDKey_inj in He.
    + by apply JobByDueBlockKey_inj in He as [_ He].
    + by apply CreatorJobKey_inj in He as [_ He].
  - intros id j H k. unfold keys_of; simpl. rewrite !elem_of_cons, !elem_of_nil.
    intros [->|[->|[->|[]]]] [He|[He|[]]]; discriminate He.
Qed.

(** * The store operations refine the abstract ones *)

Section Refinement.
Context (st : kv) (a : abs) (Hr : refines st a) (Hwf : wf_abs a).

Lemma job_id_range id j : a_jobs a !! id = Some j -> 0 <= id < 2 ^ 64.
Proof. intros H. pose proof (wf_ids a Hwf id j H). pose proof (wf_next a Hwf). lia. Qed.

Lemma wf_separated : separated job_entries (a_jobs a) (fixed_entries (a_next a) (a_params a)).
Proof.
  apply jobs_separated. intros id j H.
  pose proof (wf_jobs a Hwf _ _ H) as []. eauto using job_id_range.
Qed.

(** The entries of a store, read backwards from the key. *)
Lemma refines_inv k v :
  st !! k = Some v ->
  (exists id j, a_jobs a !! id = Some j /\
     ((k = JobByIDKey id /\ v = VJob j) \/
      (k = JobByDueBlockKey (ExecuteAtBlock j) id /\ v = VJob j) \/
      (k = CreatorJobKey (Creator j) id /\ v = VRaw [1]))) \/
  k = ParamsKey \/ k = NextJobIDKey.
Proof.
  intros H. apply Hr in H as [(id & j & Hm & He)|He].
  - left. exists id, j. split; [done|]. unfold job_entries in He.
    rewrite !elem_of_cons, elem_of_nil in He. naive_solver.
  - right. unfold fixed_entries in He. rewrite !elem_of_cons, elem_of_nil in He. naive_solver.
Qed.

Lemma refines_job_entries id j :
  a_jobs a !! id = Some j ->
  st !! JobByIDKey id = Some (VJob j) /\
  st !! JobByDueBlockKey (ExecuteAtBlock j) id = Some (VJob j) /\
  st !! CreatorJobKey (Creator j) id = Some (VRaw [1]).
Proof.
  intros H. split_and!; apply (indexed_lookup_record job_entries _ _ _ id j _ _ Hr H);
    [by left|right; by left|right; right; by left].
Qed.

Lemma refines_GetJob id : 0 <= id < 2 ^ 64 -> GetJob st id = a_jobs a !! id.
Proof.
  intros Hid. unfold GetJob. destruct (a_jobs a !! id) as [j|] eqn:Hj.
  - destruct (refines_job_entries id j Hj) as [-> _]. done.
  - destruct (st !! JobByIDKey id) as [v|] eqn:Hk; [|done].
    apply refines_inv in Hk as [(i & j & Hm & [[He ->]|[[He _]|[He _]]])|[He|He]]; try discriminate He.
    apply JobByIDKey_inj in He as <-; [congruence|done|by eapply job_id_range].
Qed.

Lemma jobs_refines_GetParams : GetParams st = a_params a.
Proof.
  unfold GetParams.
  rewrite (indexed_lookup_fixed job_entries _ _ _ ParamsKey (VParams (a_params a)) Hr); [done|].
  by left.
Qed.

Lemma jobs_refines_next : st !! NextJobIDKey = Some (VRaw (be8 (a_next a))).
Proof. apply (indexed_lookup_fixed job_entries _ _ _ _ _ Hr). right. by left. Qed.

(** Writing a job that is new. *)
Lemma refines_SetJob j :
  0 <= ID j < 2 ^ 64 -> length (Creator j) = 20%nat -> 0 <= ExecuteAtBlock j < 2 ^ 64 ->
  a_jobs a !! ID j = None ->
  refines (SetJob_store j st) (insert_job j a).
Proof.
  intros Hid Hc Hb Hnew. apply (indexed_put job_entries st (a_jobs a) _ (ID j) j Hr).
  - apply jobs_separated. intros id j' H.
    apply lookup_insert_Some in H as [[<- <-]|[_ H]]; [done|].
    pose proof (wf_jobs a Hwf _ _ H) as []. eauto using job_id_range.
  - congruence.
Qed.

Lemma refines_DeleteJob id j :
  a_jobs a !! id = Some j -> refines (DeleteJob_store j st) (remove_job id a).
Proof.
  intros Hj. destruct (wf_ids a Hwf _ _ Hj) as [<- _].
  apply (indexed_delete job_entries st (a_jobs a) _ (ID j) j Hr wf_separated Hj).
Qed.

Lemma jobs_refines_SetNext n :
  refines (<[NextJobIDKey := VRaw (be8 n)]> st) (mkAbs (a_jobs a) n (a_params a)).
Proof.
  apply (indexed_fixed job_entries st (a_jobs a) (fixed_entries (a_next a) (a_params a)) _ _ _ Hr
           wf_separated).
  - unfold fixed_entries; simpl. set_solver.
  - intros k v. unfold fixed_entries. simpl. rewrite !elem_of_cons, !elem_of_nil.
    split; [intros [[= -> ->]|[[= -> ->]|[]]]|intros [[-> ->]|[Hne [[= -> ->]|[[= -> ->]|[]]]]]];
      [right; split; [done|]; by left|by left|by right; left|by left|done].
Qed.

(** ** Iteration *)

Lemma due_id_keys h : 0 <= h < 2 ^ 64 -> id_keys (JobByDueBlockPrefix h) st.
Proof.
  intros Hh k v Hk Hpre. apply is_prefix_true in Hpre as [sfx Hs].
  apply refines_inv in Hk as [(i & j & Hm & [[He _]|[[He _]|[He _]]])|[He|He]];
    rewrite He in Hs; try discriminate Hs.
  exists i. split; [by eapply job_id_range|]. rewrite He.
  unfold JobByDueBlockPrefix, JobByDueBlockKey in *.
  rewrite <- app_assoc in Hs |- *. apply app_inv_head in Hs.
  apply app_inj_1 in Hs as [Hs _]; [by rewrite Hs|by rewrite !length_be8].
Qed.

(** The due-block iteration: the jobs due at [h], by ascending id. *)
Lemma IterateJobsDueAt_spec h :
  0 <= h < 2 ^ 64 ->
  StronglySorted job_lt (IterateJobsDueAt st h) /\
  forall j, j ∈ IterateJobsDueAt st h <-> a_jobs a !! ID j = Some j /\ ExecuteAtBlock j = h.
Proof.
  intros Hh.
  assert (forall id v, 0 <= id < 2 ^ 64 -> st !! (JobByDueBlockPrefix h ++ be8 id) = Some v ->
            exists j, v = VJob j /\ a_jobs a !! id = Some j /\ ExecuteAtBlock j = h) as Hv.
  { intros id v Hid H. unfold JobByDueBlockPrefix in H. rewrite <- app_assoc in H.
    fold (JobByDueBlockKey h id) in H.
    apply refines_inv in H as [(i & j & Hm & [[He _]|[[He ->]|[He _]]])|[He|He]]; try discriminate He.
    pose proof (wf_jobs a Hwf _ _ Hm) as [_ _ Hb _ _].
    apply JobByDueBlockKey_inj in He as [He1 He2]; [subst; eauto|done|done|done|by eapply job_id_range]. }
  destruct (prefix_records (fun v => match v with VJob j => Some j | _ => None end) ID
              (JobByDueBlockPrefix h) st (due_id_keys h Hh)) as [Hs Hm].
  { intros id v Hid H. destruct (Hv id v Hid H) as (j & -> & Hl & _).
    exists j. split; [done|]. by apply (wf_ids a Hwf). }
  split; [exact Hs|]. intros j. unfold IterateJobsDueAt. rewrite Hm. split.
  - intros (Hid & v & H & E). destruct (Hv _ _ Hid H) as (j' & -> & Hl). by injection E as ->.
  - intros [Hl <-]. split; [by eapply job_id_range|]. exists (VJob j). split; [|done].
    unfold JobByDueBlockPrefix. rewrite <- app_assoc.
    by apply refines_job_entries in Hl as (_ & ? & _).
Qed.

Lemma creator_id_keys c : length c = 20%nat -> id_keys (CreatorJobsPrefix c) st.
Proof.
  intros Hc k v Hk Hpre. apply is_prefix_true in Hpre as [sfx Hs].
  apply refines_inv in Hk as [(i & j & Hm & [[He _]|[[He _]|[He _]]])|[He|He]];
    rewrite He in Hs; try discriminate Hs.
  exists i. split; [by eapply job_id_range|]. rewrite He.
  pose proof (wf_jobs a Hwf _ _ Hm) as [].
  unfold CreatorJobsPrefix, CreatorJobKey in *. rewrite <- app_assoc in Hs |- *.
  apply app_inv_head in Hs. apply app_inj_1 in Hs as [Hs _]; [by rewrite Hs|congruence].
Qed.

Lemma pending_spec c :
  length c = 20%nat ->
  StronglySorted Z.lt (PendingJobIDsByCreator st c) /\
  (forall id, id ∈ PendingJobIDsByCreator st c <->
     exists j, a_jobs a !! id = Some j /\ Creator j = c) /\
  CountJobsByCreator st c = u32 (Z.of_nat (length (PendingJobIDsByCreator st c))).
Proof.
  intros Hc. unfold PendingJobIDsByCreator, CountJobsByCreator.
  destruct (prefix_ids _ _ (creator_id_keys c Hc)) as (Hs & Hm & Hl).
  split_and!; [done| |do 2 f_equal; symmetry; exact Hl].
  intros id. rewrite Hm. unfold CreatorJobsPrefix. rewrite <- app_assoc.
  fold (CreatorJobKey c id). split.
  - intros [Hid [v H]].
    apply refines_inv in H as [(i & j & Hj & [[He _]|[[He _]|[He _]]])|[He|He]]; try discriminate He.
    pose proof (wf_jobs a Hwf _ _ Hj) as [].
    apply CreatorJobKey_inj in He as [-> ->]; eauto using job_id_range.
  - intros (j & Hj & <-). split; [by eapply job_id_range|].
    eexists. by apply refines_job_entries in Hj as (_ & _ & ?).
Qed.

End Refinement.
