(* ===== verification/SchedulerProps.v ===== *)
(** [x/scheduler]: what the operations guarantee.

    Each operation against its effect on the abstract state and on the module
    account, the views, and the dispatch of due jobs. *)

From stdpp Require Import base list gmap strings sorting.
From Stdlib Require Import ZArith Lia.
From Stdlib Require String.
From S2P Require Import Prelude KVStore IndexedStore BigInt Ledger Scheduler.
Open Scope Z_scope.
Open Scope go_scope.

(** The record [Schedule] stores. *)
Definition scheduled (id : Z) (creator target callData : bytes)
    (executeAtBlock gasLimit d : Z) : Job :=
  mkJob id creator target callData executeAtBlock gasLimit (BigString d) true.

Definition job_deposit (j : Job) : Z := parseDeposit (Deposit j).

(** The jobs of [js], removed one after the other. *)
Definition remove_jobs (js : list Job) (a : abs) : abs :=
  foldl (fun a j => remove_job (ID j) a) a js.

(** The jobs due at [h], removed. *)
Definition remove_due (h : Z) (a : abs) : abs :=
  mkAbs (filter (fun e => ExecuteAtBlock e.2 <> h) (a_jobs a)) (a_next a) (a_params a).

(** The job an outcome event is about. *)
Definition outcome_id (e : event) : option Z :=
  match e with
  | JobFailed id _ _ _ _ => Some id
  | JobExecuted id _ _ _ _ _ => Some id
  | _ => None
  end.

Section Bank.
Context {X : Type} {BK : BankKeeper X}.

(** Exactly [n] of the native coin went from [src] to [dst]. *)
Definition paid (x x' : X) (src dst : bytes) (n : Z) : Prop :=
  forall a d, GetBalance x' a d = GetBalance x a d
    - (if decide (a = src /\ d = DefaultEVMDenom) then n else 0)
    + (if decide (a = dst /\ d = DefaultEVMDenom) then n else 0).

Definition custody (x : X) : Z := GetBalance x ModuleAccountAddress DefaultEVMDenom.

(** The module account can refund every pending deposit. *)
Definition solvent (x : X) (a : abs) : Prop := deposits a <= custody x.

Definition inv (w : world X) (a : abs) : Prop :=
  refines (store w) a /\ wf_abs a /\ solvent (ext w) a.

(** A callee that does not call back into this module: it leaves the module's
    store and events alone and cannot spend from the module account. *)
Record foreign_call (call : Ctx -> bytes -> bytes -> bytes -> bool -> M (world X) string Z) : Prop := {
  foreign_store : forall ctx from to data w w' g,
    call ctx from to data true w = (w', Ok g) -> store w' = store w;
  foreign_events : forall ctx from to data w w' g,
    call ctx from to data true w = (w', Ok g) -> events w' = events w;
  foreign_custody : forall ctx from to data w w' g,
    call ctx from to data true w = (w', Ok g) -> custody (ext w) <= custody (ext w')
}.

(** [GasUsed] is unsigned and base fees are not negative. *)
Definition gas_laws {FM : FeeMarketKeeper X}
    (call : Ctx -> bytes -> bytes -> bytes -> bool -> M (world X) string Z) : Prop :=
  (forall x, 0 <= base_fee x) /\
  (forall ctx from to data w w' g, call ctx from to data true w = (w', Ok g) -> 0 <= g).
End Bank.

Section Ops.
Context {X : Type} {BK : BankKeeper X} {BL : BankLaws X} {EC : EthCommon} {FM : FeeMarketKeeper X}.

Lemma refund_ok recipient n (w w' : world X) :
  RefundDeposit recipient (Some n) w = (w', Ok tt) -> 0 <= n ->
  store w' = store w /\ events w' = events w /\
  paid (ext w) (ext w') ModuleAccountAddress recipient n.
Proof.
  unfold RefundDeposit. destruct (Z.leb_spec n 0).
  - intros [= <-] ?. split_and!; [done..|]. intros a d. repeat case_decide; lia.
  - unfold run_ext. destruct (SendCoinsFromModuleToAccount _ _ _ _) as [x' [c|]] eqn:Hs;
      intros [= <-] _. split_and!; [done..|].
    apply module_to_account_ok in Hs as [_ Hs]; done.
Qed.

Lemma refund_err recipient n (w w' : world X) e :
  RefundDeposit recipient n w = (w', Err e) -> w' = w.
Proof.
  unfold RefundDeposit. destruct n as [n|]; [|by intros [=]]. destruct (n <=? 0); [by intros [=]|].
  unfold run_ext. destruct (SendCoinsFromModuleToAccount _ _ _ _) as [x' [c|]] eqn:Hs; intros [= <- _].
  apply module_to_account_err in Hs as ->. by destruct w.
Qed.

Lemma refund_no_panic recipient n (w w' : world X) :
  RefundDeposit recipient n w <> (w', Panic).
Proof.
  unfold RefundDeposit. destruct n as [n|]; [|by intros [=]]. destruct (n <=? 0); [by intros [=]|].
  unfold run_ext. by destruct (SendCoinsFromModuleToAccount _ _ _ _) as [x' [c|]].
Qed.

Lemma deposit_escrow_ok payer n (w w' : world X) :
  EscrowDeposit payer (Some n) w = (w', Ok tt) -> 0 <= n ->
  store w' = store w /\ events w' = events w /\
  paid (ext w) (ext w') payer ModuleAccountAddress n.
Proof.
  unfold EscrowDeposit. destruct (Z.eqb_spec n 0) as [->|].
  - intros [= <-] _. split_and!; [done..|]. intros a d. repeat case_decide; lia.
  - intros H ?. destruct (Z.ltb_spec n 0); [lia|]. revert H.
    unfold run_ext. destruct (SendCoinsFromAccountToModule _ _ _ _) as [x' [c|]] eqn:Hs;
      intros [= <-]. split_and!; [done..|].
    apply account_to_module_ok in Hs as [_ Hs]; [done|lia].
Qed.

Lemma deposit_escrow_err payer n (w w' : world X) e :
  EscrowDeposit payer n w = (w', Err e) -> w' = w.
Proof.
  unfold EscrowDeposit. destruct n as [n|]; [|by intros [=]]. destruct (n =? 0); [by intros [=]|].
  destruct (n <? 0); [by intros [=]|].
  unfold run_ext. destruct (SendCoinsFromAccountToModule _ _ _ _) as [x' [c|]] eqn:Hs; intros [= <- _].
  apply account_to_module_err in Hs as ->. by destruct w.
Qed.

(** ** The abstract state *)

Lemma wf_insert_job a j :
  wf_abs a -> wf_job j -> 0 < ID j < a_next a -> wf_abs (insert_job j a).
Proof.
  intros [Hids Hj Hn Hp] Hw Hid. split; simpl; try done;
    intros id j' H; apply lookup_insert_Some in H as [[<- <-]|[_ H]]; eauto.
Qed.

Lemma wf_remove_job a id : wf_abs a -> wf_abs (remove_job id a).
Proof.
  intros [Hids Hj Hn Hp]. split; simpl; try done;
    intros id' j' H; apply lookup_delete_Some in H as [_ H]; eauto.
Qed.

Lemma wf_advance a n : wf_abs a -> a_next a <= n < 2 ^ 64 -> wf_abs (mkAbs (a_jobs a) n (a_params a)).
Proof.
  intros [Hids Hj Hn Hp] Hle. split; simpl; [|done|lia|done].
  intros id j H. destruct (Hids id j H). lia.
Qed.

Lemma deposits_new a j :
  a_jobs a !! ID j = None -> deposits (insert_job j a) = deposits a + job_deposit j.
Proof.
  intros H. unfold deposits, insert_job; simpl.
  rewrite (sumZ_Permutation _ _ _ (map_to_list_insert _ _ _ H)). simpl. unfold job_deposit. lia.
Qed.

Lemma deposits_remove a id j :
  a_jobs a !! id = Some j -> deposits (remove_job id a) = deposits a - job_deposit j.
Proof.
  intros H. unfold deposits, remove_job; simpl.
  rewrite (sumZ_Permutation _ (map_to_list (a_jobs a))
             ((id, j) :: map_to_list (delete id (a_jobs a)))).
  2:{ by rewrite map_to_list_delete. }
  simpl. unfold job_deposit. lia.
Qed.

Lemma job_deposit_nonneg j : 0 <= job_deposit j.
Proof. apply parseNonNeg_nonneg. Qed.

Lemma deposits_ge a id j : a_jobs a !! id = Some j -> job_deposit j <= deposits a.
Proof.
  intros H. pose proof (deposits_remove a id j H) as Hd.
  assert (0 <= deposits (remove_job id a)); [|lia].
  apply sumZ_nonneg, Forall_forall. intros [i j'] _. apply job_deposit_nonneg.
Qed.

(** ** Symbolic execution *)

Lemma height_range ctx : 0 <= u64 (BlockHeight ctx) < 2 ^ 64.
Proof. apply wrapU_range. lia. Qed.

Lemma get_owned_spec (w : world X) a caller id :
  refines (store w) a -> wf_abs a -> 0 <= id < 2 ^ 64 ->
  get_owned caller id w =
    (w, match a_jobs a !! id with
        | None => Err ErrJobNotFound
        | Some j => if decide (Creator j = caller) then Ok j else Err ErrUnauthorized
        end).
Proof.
  intros Hr Hwf Hid. unfold get_owned, bind, gets.
  rewrite (refines_GetJob _ _ Hr Hwf) by done.
  destruct (a_jobs a !! id) as [j|] eqn:Hj; [|done].
  rewrite (wf_active j (wf_jobs a Hwf _ _ Hj)), equalAddress_eq. simpl.
  case_bool_decide; case_decide; done.
Qed.

Lemma cancel_ok (w : world X) a ctx caller id w' :
  refines (store w) a -> wf_abs a -> 0 <= id < 2 ^ 64 ->
  Cancel ctx caller id w = (w', Ok tt) ->
  exists j, a_jobs a !! id = Some j /\ caller = Creator j /\
    refines (store w') (remove_job id a) /\
    paid (ext w) (ext w') ModuleAccountAddress caller (job_deposit j).
Proof.
  intros Hr Hwf Hid. unfold Cancel. unfold bind at 1. rewrite (get_owned_spec w a) by done.
  destruct (a_jobs a !! id) as [j|] eqn:Hj; [|by intros [=]].
  case_decide as Hc; [|by intros [=]].
  unfold bind at 1. go_case as [w1 [[]|e|]] eqn Hp; intros [= <-].
  apply refund_ok in Hp as (Hst & _ & Hm); [|apply job_deposit_nonneg].
  exists j. split_and!; [done..| |done]. cbn [store]. rewrite Hst.
  by apply (refines_DeleteJob _ _ Hr Hwf id j).
Qed.

Lemma reschedule_ok (w : world X) a ctx caller id h w' :
  refines (store w) a -> wf_abs a -> 0 <= id < 2 ^ 64 -> h < 2 ^ 64 ->
  Reschedule ctx caller id h w = (w', Ok tt) ->
  exists j, a_jobs a !! id = Some j /\ caller = Creator j /\
    u64 (BlockHeight ctx) < h <= u64 (BlockHeight ctx) + MaxScheduleHorizon (a_params a) /\
    refines (store w') (insert_job (with_ExecuteAtBlock h j) (remove_job id a)) /\
    ext w' = ext w.
Proof.
  intros Hr Hwf Hid Hh. pose proof (height_range ctx) as Hrange.
  unfold Reschedule. unfold bind at 1. rewrite (get_owned_spec w a) by done.
  destruct (a_jobs a !! id) as [j|] eqn:Hj; [|by intros [=]].
  case_decide as Hc; [|by intros [=]].
  unfold bind at 1, guard at 1. destruct (Z.leb_spec h (u64 (BlockHeight ctx)));
    cbn [negb]; [by intros [=]|].
  unfold bind at 1, ret at 1. unfold bind at 1, gets at 1. rewrite (jobs_refines_GetParams _ _ Hr).
  rewrite (wrapU_small 64 (h - _)) by lia.
  unfold bind at 1, guard at 1.
  destruct (Z.ltb_spec (MaxScheduleHorizon (a_params a)) (h - u64 (BlockHeight ctx)));
    cbn [negb]; [by intros [=]|].
  intros [= <-]. exists j. split_and!; [done|done|lia|lia| |done]. cbn [store].
  destruct (wf_ids a Hwf _ _ Hj) as [Hji Hlt]. pose proof (wf_jobs a Hwf _ _ Hj) as [].
  apply (refines_SetJob (DeleteJob_store j (store w)) (remove_job id a));
    [by apply (refines_DeleteJob _ _ Hr Hwf id j)|by apply wf_remove_job|..]; simpl.
  - rewrite Hji. done.
  - done.
  - lia.
  - rewrite Hji. apply lookup_delete_eq.
Qed.

Lemma NextJobID_spec (w : world X) a :
  refines (store w) a -> wf_abs a ->
  NextJobID w =
    (mkWorld (<[NextJobIDKey := VRaw (be8 (u64 (a_next a + 1)))]> (store w))
       (ext w) (events w), Ok (a_next a)).
Proof.
  intros Hr Hwf. pose proof (wf_next a Hwf).
  unfold NextJobID, SetNextJobID, update_store, bind, gets, modify.
  rewrite (jobs_refines_next _ _ Hr). unfold read_u64.
  destruct (Nat.ltb_spec (length (be8 (a_next a))) 8) as [Hl|Hl];
    [rewrite length_be8 in Hl; lia|].
  unfold ret at 1. rewrite take_ge by (rewrite length_be8; lia). rewrite be8_roundtrip by lia.
  destruct (Z.eqb_spec (a_next a) 0); [lia|done].
Qed.

Lemma schedule_ok (w : world X) a ctx creator target data h gas deposit w' id :
  refines (store w) a -> wf_abs a -> length creator = 20%nat -> h < 2 ^ 64 ->
  a_next a + 1 < 2 ^ 64 ->
  Schedule ctx creator target data h gas deposit w = (w', Ok id) ->
  exists d, deposit = Some d /\ 0 <= d /\ target <> zero_address /\ gas <> 0 /\
    u64 (BlockHeight ctx) < h <= u64 (BlockHeight ctx) + MaxScheduleHorizon (a_params a) /\
    CountJobsByCreator (store w) creator < MaxJobsPerCreator (a_params a) /\
    gas * base_fee (ext w) * MinDepositFactor (a_params a) <= d /\ id = a_next a /\
    refines (store w') (insert_job (scheduled id creator target data h gas d)
                          (mkAbs (a_jobs a) (id + 1) (a_params a))) /\
    ext w' = ext w.
Proof.
  intros Hr Hwf Hc Hh Hid. pose proof (height_range ctx) as Hrange. pose proof (wf_next a Hwf) as Hn.
  unfold Schedule. unfold bind at 1, guard at 1.
  destruct (bool_decide_reflect (target = zero_address)); cbn [negb]; [by intros [=]|].
  unfold bind at 1, guard at 1, ret at 1. destruct (Z.eqb_spec gas 0); cbn [negb]; [by intros [=]|].
  unfold bind at 1, ret at 1. destruct deposit as [d|]; [|by intros [=]].
  destruct (Z.ltb_spec d 0); [by intros [=]|].
  unfold bind at 1, ret at 1. unfold bind at 1, guard at 1.
  destruct (Z.leb_spec h (u64 (BlockHeight ctx))); cbn [negb]; [by intros [=]|].
  unfold bind at 1, ret at 1. unfold gets at 1. unfold bind at 1. rewrite (jobs_refines_GetParams _ _ Hr).
  rewrite (wrapU_small 64 (h - _)) by lia. unfold guard at 1.
  destruct (Z.ltb_spec (MaxScheduleHorizon (a_params a)) (h - u64 (BlockHeight ctx)));
    cbn [negb]; [by intros [=]|].
  unfold bind at 1, ret at 1. unfold bind at 1, gets at 1. unfold guard at 1.
  destruct (Z.leb_spec (MaxJobsPerCreator (a_params a)) (CountJobsByCreator (store w) creator));
    cbn [negb]; [by intros [=]|].
  unfold bind at 1, ret at 1. unfold bind at 1, gets at 1. unfold bind at 1, guard at 1.
  destruct (Z.ltb_spec d (gas * base_fee (ext w) * MinDepositFactor (a_params a)));
    cbn [negb]; [by intros [=]|].
  unfold ret at 1. unfold bind at 1. rewrite (NextJobID_spec w a) by done.
  intros [= <- <-]. exists d.
  assert (u64 (a_next a + 1) = a_next a + 1) as Hw by (apply wrapU_small; lia).
  split_and!; try (done || lia). cbn [store]. rewrite Hw.
  apply (refines_SetJob _ (mkAbs (a_jobs a) (a_next a + 1) (a_params a)));
    [by apply jobs_refines_SetNext|apply wf_advance; [done|lia]|cbn; lia|done|cbn; lia|].
  cbn. destruct (a_jobs a !! a_next a) eqn:E; [|done]. destruct (wf_ids a Hwf _ _ E). lia.
Qed.

(** ** Dispatch of due jobs *)

Lemma try_refund_spec recipient n (w w' : world X) m :
  try_refund recipient n w = (w', m) -> 0 <= n ->
  store w' = store w /\ events w' = events w /\
  ((m = n /\ paid (ext w) (ext w') ModuleAccountAddress recipient n) \/ (m = 0 /\ w' = w)).
Proof.
  unfold try_refund. destruct (RefundDeposit _ _ _) as [w1 [[]|e|]] eqn:Hp; intros [= <- <-] Hn.
  - apply refund_ok in Hp as (? & ? & ?); [|done]. split_and!; [done..|]. by left.
  - apply refund_err in Hp as ->. split_and!; [done..|]. by right.
  - by apply refund_no_panic in Hp.
Qed.

Lemma try_refund_covered recipient n (w : world X) :
  0 <= n <= custody (ext w) -> BlockedAddr recipient = false ->
  exists w', try_refund recipient n w = (w', n) /\
    store w' = store w /\ events w' = events w /\
    paid (ext w) (ext w') ModuleAccountAddress recipient n.
Proof.
  intros Hn Hb. unfold try_refund.
  assert (exists w', RefundDeposit recipient (Some n) w = (w', Ok tt)) as [w' E].
  { unfold RefundDeposit. destruct (Z.leb_spec n 0); [by eexists|]. unfold run_ext.
    destruct (module_to_account_covered (ext w) ModuleAccountName recipient DefaultEVMDenom n)
      as [x' ->]; [lia|apply Hn|done|by eexists]. }
  rewrite E. exists w'. split; [done|]. by apply refund_ok in E; [|lia].
Qed.

Lemma paid_custody x x' dst n :
  paid x x' ModuleAccountAddress dst n -> 0 <= n -> custody x - n <= custody x'.
Proof. intros Hp Hn. unfold custody. rewrite Hp. repeat case_decide; naive_solver lia. Qed.

Context (call : Ctx -> bytes -> bytes -> bytes -> bool -> M (world X) string Z) (txt : string).

(** The two branches of [dispatchJob] both end in one refund, of at most the
    deposit, and one outcome event. *)
Lemma dispatch_shape ctx j (w : world X) :
  0 <= base_fee (ext w) -> wf_job j ->
  (forall w1 g, call ctx (Creator j) (Target j) (CallData j) true w = (w1, Ok g) ->
     0 <= g /\ 0 <= base_fee (ext w1)) ->
  exists w1 n w2 m ev,
    (w1 = w \/ exists g, call ctx (Creator j) (Target j) (CallData j) true w = (w1, Ok g)) /\
    0 <= n <= job_deposit j /\ try_refund (Creator j) n w1 = (w2, m) /\
    outcome_id ev = Some (ID j) /\
    dispatchJob call txt ctx j w
      = mkWorld (DeleteJob_store j (store w2)) (ext w2) (events w2 ++ [ev]).
Proof.
  intros Hb [Hc Ht _ _ _] Hcall. pose proof (job_deposit_nonneg j) as Hd.
  unfold dispatchJob. rewrite !BytesToAddress_20 by done. fold (job_deposit j).
  destruct (call ctx (Creator j) (Target j) (CallData j) true w) as [w1 [g|e|]] eqn:E.
  - destruct (Hcall w1 g eq_refl) as [Hg Hb1].
    set (n := if _ <? 0 then 0 else _).
    assert (0 <= n <= job_deposit j) as Hn.
    { unfold n. destruct (Z.ltb_spec (job_deposit j - g * base_fee (ext w1)) 0); nia. }
    destruct (try_refund (Creator j) n w1) as [w2 m] eqn:Er.
    exists w1, n, w2, m. eexists. split_and!; [right; by exists g|lia|lia|done| |done]. done.
  - destruct (try_refund (Creator j) (job_deposit j) w) as [w2 m] eqn:Er.
    exists w, (job_deposit j), w2, m. eexists. split_and!; [by left|lia|lia|done| |done]. done.
  - destruct (try_refund (Creator j) (job_deposit j) w) as [w2 m] eqn:Er.
    exists w, (job_deposit j), w2, m. eexists. split_and!; [by left|lia|lia|done| |done]. done.
Qed.

Context (Hforeign : foreign_call call) (Hgas : gas_laws call).

Lemma dispatch_step ctx j (w : world X) a :
  inv w a -> a_jobs a !! ID j = Some j ->
  inv (dispatchJob call txt ctx j w) (remove_job (ID j) a) /\
  exists ev, outcome_id ev = Some (ID j) /\
    events (dispatchJob call txt ctx j w) = events w ++ [ev].
Proof.
  intros (Hr & Hwf & Hs) Hj. destruct Hgas as [Hb Hg].
  destruct (dispatch_shape ctx j w) as (w1 & n & w2 & m & ev & Hw1 & Hn & Hrf & Hev & ->);
    [apply Hb|by eapply wf_jobs|intros w1 g E; split; [by eapply Hg|apply Hb]|].
  assert (store w1 = store w /\ events w1 = events w /\ custody (ext w) <= custody (ext w1))
    as (Hst1 & Hev1 & Hc1).
  { destruct Hw1 as [->|[g E]]; [by split_and!|].
    split_and!; [by eapply foreign_store|by eapply foreign_events|by eapply foreign_custody]. }
  apply try_refund_spec in Hrf as (Hst2 & Hev2 & Hp); [|lia].
  split; [split_and!|].
  - cbn [store]. rewrite Hst2, Hst1. by apply (refines_DeleteJob _ _ Hr Hwf (ID j) j).
  - by apply wf_remove_job.
  - unfold solvent in *. cbn [ext]. rewrite (deposits_remove a (ID j) j Hj).
    destruct Hp as [[-> Hp]|[_ ->]]; [|lia]. apply paid_custody in Hp; lia.
  - exists ev. split; [done|]. cbn [events]. by rewrite Hev2, Hev1.
Qed.

Lemma remove_jobs_lookup js : forall a id,
  a_jobs (remove_jobs js a) !! id = if decide (id ∈ ID <$> js) then None else a_jobs a !! id.
Proof.
  induction js as [|j js IH]; intros a id.
  - change (remove_jobs [] a) with a. case_decide; [set_solver|done].
  - change (remove_jobs (j :: js) a) with (remove_jobs js (remove_job (ID j) a)).
    rewrite IH. cbn [remove_job a_jobs]. destruct (decide (id = ID j)) as [->|Hne].
    + rewrite lookup_delete_eq. repeat case_decide; try done; set_solver.
    + rewrite lookup_delete_ne by done. repeat case_decide; set_solver.
Qed.

Lemma dispatch_all ctx js : forall (w : world X) a,
  inv w a -> NoDup (ID <$> js) -> Forall (fun j => a_jobs a !! ID j = Some j) js ->
  let w' := foldl (fun w j => dispatchJob call txt ctx j w) w js in
  inv w' (remove_jobs js a) /\
  exists evs, events w' = events w ++ evs /\ outcome_id <$> evs = Some <$> (ID <$> js).
Proof.
  induction js as [|j js IH]; intros w a Hi Hnd Hf.
  - split; [done|]. exists []. by rewrite app_nil_r.
  - cbn [fmap list_fmap] in Hnd. apply NoDup_cons in Hnd as [Hni Hnd].
    apply Forall_cons in Hf as [Hj Hf].
    destruct (dispatch_step ctx j w a Hi Hj) as [Hi' (ev & Hev & He)].
    destruct (IH _ _ Hi' Hnd) as [Hi'' (evs & Hevs & Hids)].
    { rewrite Forall_forall in *. intros j' Hj'. cbn. rewrite lookup_delete_ne; [by apply Hf|].
      intros E. apply Hni. rewrite E. by apply list_elem_of_fmap_2. }
    split; [exact Hi''|]. exists (ev :: evs). cbn [foldl]. rewrite Hevs, He, <- app_assoc.
    split; [done|]. cbn. by rewrite Hev, Hids.
Qed.


Lemma due_list (h : Z) (st : kv) a :
  refines st a -> wf_abs a -> 0 <= h < 2 ^ 64 ->
  let due := filter (fun j => Active j = true) (IterateJobsDueAt st h) in
  StronglySorted Z.lt (ID <$> due) /\ Forall (fun j => a_jobs a !! ID j = Some j) due /\
  (forall id, id ∈ ID <$> due <-> exists j, a_jobs a !! id = Some j /\ ExecuteAtBlock j = h).
Proof.
  intros Hr Hwf Hh due. destruct (IterateJobsDueAt_spec st a Hr Hwf h Hh) as [Hs Hm].
  assert (forall j, j ∈ due <-> a_jobs a !! ID j = Some j /\ ExecuteAtBlock j = h) as Hd.
  { intros j. unfold due. rewrite list_elem_of_filter, Hm. split; [tauto|].
    intros [Hj Hb]. split_and!; [|done..]. by apply (wf_jobs a Hwf _ _ Hj). }
  split_and!.
  - clear Hm Hd. unfold due. induction Hs as [|j js Hs IH Hlt]; [constructor|].
    rewrite filter_cons. case_decide; [|done]. cbn [fmap list_fmap]. constructor; [done|].
    rewrite Forall_forall in Hlt. apply Forall_forall.
    intros id Hid. apply list_elem_of_fmap in Hid as (j' & -> & Hid).
    apply list_elem_of_filter in Hid as [_ Hid]. by apply Hlt.
  - apply Forall_forall. intros j Hj. by apply Hd in Hj as [? _].
  - intros id. rewrite list_elem_of_fmap. split.
    + intros (j & -> & Hj). apply Hd in Hj. by exists j.
    + intros (j & Hj & Hb). destruct (wf_ids a Hwf _ _ Hj) as [<- _].
      exists j. split; [done|]. by apply Hd.
Qed.

(** C18: the end of a block dispatches exactly the due jobs, each once, by
    ascending id, and forgets them.  For callees that do not call back into the
    module, whatever mixture of successes, errors and panics their calls end in:
    the jobs due at this height leave all three indexes and every other job
    stays, the account still covers the remaining deposits, and the block's log
    gains one outcome event per due job, in id order. *)
Theorem endblocker_dispatches_due_jobs ctx (w : world X) a :
  inv w a ->
  let h := u64 (BlockHeight ctx) in
  let w' := EndBlocker call txt ctx w in
  inv w' (remove_due h a) /\
  exists evs ids, events w' = events w ++ evs /\ outcome_id <$> evs = Some <$> ids /\
    StronglySorted Z.lt ids /\
    (forall id, id ∈ ids <-> exists j, a_jobs a !! id = Some j /\ ExecuteAtBlock j = h).
Proof.
  intros Hi h w'. pose proof Hi as (Hr & Hwf & _).
  destruct (due_list h (store w) a Hr Hwf (height_range ctx)) as (Hs & Hf & Hm).
  set (due := filter _ _) in *.
  destruct (dispatch_all ctx due w a Hi) as [Hi' (evs & Hevs & Hids)]; [|done|].
  { apply (StronglySorted_lt_NoDup Z.lt); [lia|done]. }
  split; [|exists evs, (ID <$> due); by split_and!].
  replace (remove_due h a) with (remove_jobs due a); [done|].
  assert (forall js b, a_next (remove_jobs js b) = a_next b /\ a_params (remove_jobs js b) = a_params b)
    as Hk by (clear; induction js as [|j js IH]; intros b; [done|apply (IH (remove_job (ID j) b))]).
  destruct (Hk due a) as [Hkn Hkp].
  assert (a_jobs (remove_jobs due a) = a_jobs (remove_due h a)) as Hjobs.
  { apply map_eq. intros id. rewrite remove_jobs_lookup. cbn [remove_due a_jobs].
    apply option_eq. intros j. rewrite map_lookup_filter_Some. cbn [snd].
    case_decide as Hid; rewrite Hm in Hid; naive_solver. }
  destruct (remove_jobs due a) as [m n p]. simpl in *. subst. done.
Qed.

Lemma solvent_refund (w : world X) a j n :
  inv w a -> a_jobs a !! ID j = Some j -> n <= job_deposit j -> n <= custody (ext w).
Proof.
  intros (_ & _ & Hs) Hj Hn. pose proof (deposits_ge a _ _ Hj). unfold solvent in Hs. lia.
Qed.

Lemma failed_refund ctx j (w : world X) a :
  inv w a -> a_jobs a !! ID j = Some j -> BlockedAddr (Creator j) = false ->
  (exists w1 e, call ctx (Creator j) (Target j) (CallData j) true w = (w1, Err e)) \/
  (exists w1, call ctx (Creator j) (Target j) (CallData j) true w = (w1, Panic)) ->
  let w' := dispatchJob call txt ctx j w in
  store w' = DeleteJob_store j (store w) /\
  paid (ext w) (ext w') ModuleAccountAddress (Creator j) (job_deposit j) /\
  exists text, events w' = events w ++
    [JobFailed (ID j) (Creator j) (Target j) text (BigString (job_deposit j))].
Proof.
  intros Hi Hj Hb Hcall. pose proof Hi as (Hr & Hwf & _).
  pose proof (wf_jobs a Hwf _ _ Hj) as [Hc Ht _ _ _].
  destruct (try_refund_covered (Creator j) (job_deposit j) w) as (w2 & E & Hst & Hev & Hp).
  { split; [apply job_deposit_nonneg|]. by eapply solvent_refund. }
  { done. }
  unfold dispatchJob. rewrite !BytesToAddress_20 by done. fold (job_deposit j).
  destruct Hcall as [(w1 & e & ->)|(w1 & ->)]; rewrite E; unfold emit; cbn [store ext events];
    rewrite Hst, Hev; (split_and!; [done|done|by eexists]).
Qed.

(** C29: a failed call costs its creator nothing and leaves nothing behind.
    Whatever the callee did before it returned an error or panicked, the state
    after the dispatch is the state before it with the whole deposit paid back
    from the module account to the creator, the job removed, and a failure event
    that reports the refund. *)
Theorem failed_dispatch_rolls_back ctx j (w : world X) a :
  inv w a -> a_jobs a !! ID j = Some j -> BlockedAddr (Creator j) = false ->
  (exists w1 e, call ctx (Creator j) (Target j) (CallData j) true w = (w1, Err e)) \/
  (exists w1, call ctx (Creator j) (Target j) (CallData j) true w = (w1, Panic)) ->
  let w' := dispatchJob call txt ctx j w in
  refines (store w') (remove_job (ID j) a) /\
  paid (ext w) (ext w') ModuleAccountAddress (Creator j) (job_deposit j) /\
  exists text, events w' = events w ++
    [JobFailed (ID j) (Creator j) (Target j) text (BigString (job_deposit j))].
Proof.
  intros Hi Hj Hb Hcall w'. pose proof Hi as (Hr & Hwf & _).
  destruct (failed_refund ctx j w a Hi Hj Hb Hcall) as (Hst & Hp & He).
  split_and!; [|done|done]. fold w' in Hst. rewrite Hst.
  by apply (refines_DeleteJob _ _ Hr Hwf (ID j) j).
Qed.

(** after a successful call that does not call back into the module, the
    creator is refunded exactly [max(0, deposit - gasUsed * baseFee)] from the
    module account, at the base fee after the call, the effects of the call are
    kept, and the job is removed. *)
Theorem successful_dispatch_charges_gas ctx j (w : world X) a w1 g :
  inv w a -> a_jobs a !! ID j = Some j -> BlockedAddr (Creator j) = false ->
  call ctx (Creator j) (Target j) (CallData j) true w = (w1, Ok g) ->
  let w' := dispatchJob call txt ctx j w in
  let refund := Z.max 0 (job_deposit j - g * base_fee (ext w1)) in
  refines (store w') (remove_job (ID j) a) /\
  paid (ext w1) (ext w') ModuleAccountAddress (Creator j) refund /\
  events w' = events w ++
    [JobExecuted (ID j) (Creator j) (Target j) g (BigString (g * base_fee (ext w1)))
       (BigString refund)].
Proof.
  intros Hi Hj Hb Hcall w' refund. pose proof Hi as (Hr & Hwf & Hs).
  pose proof (wf_jobs a Hwf _ _ Hj) as [Hc Ht _ _ _]. pose proof (job_deposit_nonneg j) as Hd.
  destruct Hgas as [Hbf Hg]. pose proof (Hbf (ext w1)). pose proof (Hg _ _ _ _ _ _ _ Hcall).
  pose proof (foreign_custody _ Hforeign _ _ _ _ _ _ _ Hcall) as Hcu.
  destruct (try_refund_covered (Creator j) refund w1) as (w2 & E & Hst & Hev & Hp); [|done|].
  { split; [lia|]. etransitivity; [|exact Hcu]. eapply (solvent_refund w a j); [done..|nia]. }
  assert (w' = mkWorld (DeleteJob_store j (store w2)) (ext w2)
    (events w2 ++ [JobExecuted (ID j) (Creator j) (Target j) g
       (BigString (g * base_fee (ext w1))) (BigString refund)])) as ->.
  { unfold w', dispatchJob. rewrite !BytesToAddress_20 by done. fold (job_deposit j).
    rewrite Hcall.
    assert ((if job_deposit j - g * base_fee (ext w1) <? 0 then 0
             else job_deposit j - g * base_fee (ext w1)) = refund) as ->
      by (unfold refund; destruct (Z.ltb_spec (job_deposit j - g * base_fee (ext w1)) 0); lia).
    by rewrite E. }
  cbn [store ext events]. rewrite Hst, Hev.
  rewrite (foreign_store _ Hforeign _ _ _ _ _ _ _ Hcall), (foreign_events _ Hforeign _ _ _ _ _ _ _ Hcall).
  split_and!; [|done|done]. by apply (refines_DeleteJob _ _ Hr Hwf (ID j) j).
Qed.


End Ops.

(** * Functional theorems *)

Section Functional.
Context {X : Type} {BK : BankKeeper X} {BL : BankLaws X} {EC : EthCommon} {FM : FeeMarketKeeper X}.

(** what a successful [Schedule] checks and does.  The target is not the
    zero address, the gas limit is not zero, the block is in the future and
    within the horizon, the creator is below the limit and the deposit covers
    [gasLimit * baseFee * MinDepositFactor]; the job is stored under the
    counter's id in all three indexes, the counter advances by one, and no
    balance moves. *)
Theorem schedule_registers_job (w : world X) a ctx creator target data h gas deposit w' id :
  refines (store w) a -> wf_abs a -> length creator = 20%nat -> h < 2 ^ 64 ->
  a_next a + 1 < 2 ^ 64 ->
  Schedule ctx creator target data h gas deposit w = (w', Ok id) ->
  exists d, deposit = Some d /\ 0 <= d /\ target <> zero_address /\ gas <> 0 /\
    u64 (BlockHeight ctx) < h <= u64 (BlockHeight ctx) + MaxScheduleHorizon (a_params a) /\
    CountJobsByCreator (store w) creator < MaxJobsPerCreator (a_params a) /\
    gas * base_fee (ext w) * MinDepositFactor (a_params a) <= d /\ id = a_next a /\
    refines (store w') (insert_job (scheduled id creator target data h gas d)
                          (mkAbs (a_jobs a) (id + 1) (a_params a))) /\
    ext w' = ext w.
Proof. apply schedule_ok. Qed.

(** cancelling and rescheduling.  Only the creator can do either.  A
    successful [Cancel] removes the job from all three indexes and pays exactly
    the recorded deposit back; a successful [Reschedule] moves the job to a block
    in the future within the horizon, drops the old due-block entry and leaves
    everything else, balances included, as it was. *)
Theorem cancel_and_reschedule (w : world X) a ctx caller id h w' :
  refines (store w) a -> wf_abs a -> 0 <= id < 2 ^ 64 -> h < 2 ^ 64 ->
  (Cancel ctx caller id w = (w', Ok tt) ->
     exists j, a_jobs a !! id = Some j /\ caller = Creator j /\
       refines (store w') (remove_job id a) /\
       paid (ext w) (ext w') ModuleAccountAddress caller (job_deposit j)) /\
  (Reschedule ctx caller id h w = (w', Ok tt) ->
     exists j, a_jobs a !! id = Some j /\ caller = Creator j /\
       u64 (BlockHeight ctx) < h <= u64 (BlockHeight ctx) + MaxScheduleHorizon (a_params a) /\
       refines (store w') (insert_job (with_ExecuteAtBlock h j) a) /\ ext w' = ext w).
Proof.
  intros Hr Hwf Hid Hh. split; intros H.
  - by eapply cancel_ok.
  - apply (reschedule_ok _ a) in H as (j & Hj & Hc & Hb & Hr' & Hx); [|done..].
    exists j. split_and!; [done|done|lia|lia| |done].
    destruct (wf_ids a Hwf _ _ Hj) as [Hji _].
    unfold insert_job, remove_job in *. cbn in *.
    rewrite Hji, insert_delete_eq in Hr'. by rewrite Hji.
Qed.

Lemma schedule_err (w : world X) ctx creator target data h gas deposit w' e :
  Schedule ctx creator target data h gas deposit w = (w', Err e) -> w' = w.
Proof.
  unfold Schedule.
  unfold bind at 1, guard at 1. destruct (negb _); [|by intros [=]]. unfold ret at 1.
  unfold bind at 1, guard at 1. destruct (negb _); [|by intros [=]]. unfold ret at 1.
  unfold bind at 1. destruct deposit as [d|]; [|by intros [=]]. destruct (d <? 0); [by intros [=]|].
  unfold ret at 1. unfold bind at 1, guard at 1. destruct (negb _); [|by intros [=]]. unfold ret at 1.
  unfold bind at 1, gets at 1. unfold bind at 1, guard at 1. destruct (negb _); [|by intros [=]].
  unfold ret at 1. unfold bind at 1, gets at 1.
  unfold bind at 1, guard at 1. destruct (negb _); [|by intros [=]]. unfold ret at 1.
  unfold bind at 1, gets at 1. unfold bind at 1, guard at 1. destruct (negb _); [|by intros [=]].
  unfold ret at 1. unfold bind at 1, NextJobID, SetNextJobID, read_u64, update_store. go_unfold.
  destruct (store w !! NextJobIDKey) as [[| |bz]|]; try by intros [=].
  by destruct (Nat.ltb _ _); intros [=].
Qed.

Lemma get_owned_pure (w : world X) caller id : (get_owned caller id w).1 = w.
Proof.
  unfold get_owned, bind, gets. destruct (GetJob _ _) as [j|]; [|done].
  destruct (negb (Active j)); [done|]. by destruct (negb _).
Qed.

Lemma cancel_err (w : world X) ctx caller id w' e :
  Cancel ctx caller id w = (w', Err e) -> w' = w.
Proof.
  unfold Cancel. unfold bind at 1. pose proof (get_owned_pure w caller id) as Hg.
  destruct (get_owned caller id w) as [w1 [j|e1|]]; simpl in Hg; subst w1; [|by intros [=]..].
  unfold bind at 1. go_case as [w1 [[]|e1|]] eqn Hp; intros [= <- _]. by eapply refund_err.
Qed.

Lemma reschedule_err (w : world X) ctx caller id h w' e :
  Reschedule ctx caller id h w = (w', Err e) -> w' = w.
Proof.
  unfold Reschedule. unfold bind at 1. pose proof (get_owned_pure w caller id) as Hg.
  destruct (get_owned caller id w) as [w1 [j|e1|]]; simpl in Hg; subst w1; [|by intros [=]..].
  unfold bind at 1, guard at 1. destruct (negb _); [|by intros [=]]. unfold ret at 1.
  unfold bind at 1, gets at 1. unfold bind at 1, guard at 1. destruct (negb _); by intros [=].
Qed.

(** A failed [Schedule], [Cancel] or [Reschedule] changes nothing. *)
Theorem failed_scheduler_operation_changes_nothing (w w' : world X) e :
  (exists ctx creator target data h gas deposit,
     Schedule ctx creator target data h gas deposit w = (w', Err e)) \/
  (exists ctx caller id, Cancel ctx caller id w = (w', Err e)) \/
  (exists ctx caller id h, Reschedule ctx caller id h w = (w', Err e)) ->
  w' = w.
Proof.
  intros [(? & ? & ? & ? & ? & ? & ? & H)|[(? & ? & ? & H)|(? & ? & ? & ? & H)]];
    eauto using schedule_err, cancel_err, reschedule_err.
Qed.

End Functional.

(** The creator's view of pending jobs is exact: the ids of the stored jobs
    of that creator, ascending, each once; the count that limits a creator is
    the length of that list (below [2^32]); and the due-block view of a height
    lists exactly the jobs due then, by ascending id. *)
Theorem pending_and_due_views st a :
  refines st a -> wf_abs a ->
  (forall c, length c = 20%nat ->
    StronglySorted Z.lt (PendingJobIDsByCreator st c) /\
    (forall id, id ∈ PendingJobIDsByCreator st c <->
       exists j, a_jobs a !! id = Some j /\ Creator j = c) /\
    CountJobsByCreator st c = u32 (Z.of_nat (length (PendingJobIDsByCreator st c)))) /\
  (forall h, 0 <= h < 2 ^ 64 ->
    StronglySorted job_lt (IterateJobsDueAt st h) /\
    forall j, j ∈ IterateJobsDueAt st h <-> a_jobs a !! ID j = Some j /\ ExecuteAtBlock j = h).
Proof.
  intros Hr Hwf. split; [intros c Hc; by apply pending_spec|intros h Hh; by apply IterateJobsDueAt_spec].
Qed.
