(* ===== verification/SchedulerPrecompile.v ===== *)
(** [precompiles/scheduler]: the EVM entry point of [x/scheduler] (address
    0x0905), and the solvency of the deposits over every sequence of calls and
    blocks.

    [handleSchedule] also touches the EVM's own balance journal ([stateDB]); that
    journal is part of the rest of the chain and enters through the class
    [StateDB]. *)

From stdpp Require Import base list gmap strings sorting.
From Stdlib Require Import ZArith Lia.
From S2P Require Import Prelude KVStore IndexedStore BigInt Ledger Precompile Scheduler SchedulerProps.
Open Scope Z_scope.
Open Scope go_scope.

(** The balance operation of [vm.StateDB] the handler calls. *)
Class StateDB (X : Type) := { SubBalance : X -> bytes -> Z -> X }.

(** The journal is not the bank: it is written to the bank at commit. *)
Class StateDBLaws (X : Type) {BK : BankKeeper X} {FM : FeeMarketKeeper X} {SD : StateDB X} := {
  SubBalance_bank : forall x a n h d, GetBalance (SubBalance x a n) h d = GetBalance x h d;
  SubBalance_base_fee : forall x a n, GetBaseFee (SubBalance x a n) = GetBaseFee x
}.

Definition PrecompileAddress : bytes := replicate 18 0 ++ [9; 5].

Definition IsTransaction (method : string) : bool :=
  bool_decide (method ∈ ["schedule"; "cancel"; "reschedule"]).

Definition method_gas (name : string) (len : Z) : Z :=
  if bool_decide (name = "schedule") then u64 (5000 + u64 (50 * len))
  else if bool_decide (name = "cancel") then 3000
  else if bool_decide (name = "reschedule") then 4000
  else if bool_decide (name = "getJob" \/ name = "pending") then 200
  else 0.

Definition RequiredGas (abi : ABI) (input : bytes) : Z :=
  if Nat.ltb (length input) 4 then 0
  else match MethodById abi (take 4 input) with
       | None => 0
       | Some m => method_gas (Name m) (Z.of_nat (length input))
       end.

(** The tuple of [getJob]; the zero tuple for a missing job. *)
Definition abiJob {EC : EthCommon} (j : Job) : abi_value :=
  ATuple [ABig (ID j); AAddress (BytesToAddress (Creator j)); AAddress (BytesToAddress (Target j));
          ABytes (CallData j); AUint64 (ExecuteAtBlock j); AUint64 (GasLimit j);
          ABig (default 0 (SetString (Deposit j))); ABool (Active j)].

Definition abiJob_zero : abi_value :=
  ATuple [ABig 0; AAddress zero_address; AAddress zero_address; ABytes []; AUint64 0; AUint64 0;
          ABig 0; ABool false].

Record scheduleArgs := mkScheduleArgs {
  sa_Target : bytes;
  sa_CallData : bytes;
  sa_ExecuteAtBlock : Z;
  sa_GasLimit : Z
}.

Section Handlers.
Context {X : Type} {BK : BankKeeper X} {EC : EthCommon} {FM : FeeMarketKeeper X} {SD : StateDB X}.

Abbreviation PM := (M (world X) (perror error)).
Abbreviation H := (PM (list abi_value)).

Definition decodeScheduleArgs (args : list abi_value) : PM scheduleArgs :=
  match args with
  | [a0; a1; a2; a3] =>
    match a0 with AAddress target =>
    match a1 with ABytes callData =>
    match a2 with AUint64 executeAtBlock =>
    match a3 with AUint64 gasLimit =>
      ret (mkScheduleArgs target callData executeAtBlock gasLimit)
    | _ => fail ErrArgType end | _ => fail ErrArgType end
    | _ => fail ErrArgType end | _ => fail ErrArgType end
  | _ => fail ErrArgCount
  end.

Definition sub_balance (a : bytes) (n : Z) : PM unit :=
  modify (fun w => mkWorld (store w) (SubBalance (ext w) a n) (events w)).

Definition handleSchedule (ctx : Ctx) (contract : Contract) (args : list abi_value) : H :=
  let! decoded := decodeScheduleArgs args in
  let deposit := default 0 (Value contract) in
  let caller := CallerAddress contract in
  (if 0 <? deposit then
     sub_balance PrecompileAddress deposit ;;
     from_keeper (EscrowDeposit caller (Some deposit))
   else ret tt) ;;
  let! jobID := from_keeper
    (Schedule ctx caller (sa_Target decoded) (sa_CallData decoded)
       (sa_ExecuteAtBlock decoded) (sa_GasLimit decoded) (Some deposit)) in
  ret [ABig jobID].

Definition handleCancel (ctx : Ctx) (contract : Contract) (args : list abi_value) : H :=
  let! jobID := decode_uint64_id args in
  from_keeper (Cancel ctx (CallerAddress contract) jobID) ;;
  ret [].

Definition handleReschedule (ctx : Ctx) (contract : Contract) (args : list abi_value) : H :=
  match args with
  | [a0; a1] =>
    match a0 with ABig jobID =>
      if negb (is_u64 jobID) then fail ErrArgRange
      else match a1 with AUint64 newBlock =>
        from_keeper (Reschedule ctx (CallerAddress contract) jobID newBlock) ;;
        ret []
      | _ => fail ErrArgType end
    | _ => fail ErrArgType end
  | _ => fail ErrArgCount
  end.

Definition handleGetJob (args : list abi_value) : H :=
  let! jobID := decode_uint64_id args in
  let! st := gets store in
  match GetJob st jobID with
  | None => ret [abiJob_zero]
  | Some j => ret [abiJob j]
  end.

Definition handlePending (args : list abi_value) : H :=
  match args with
  | [AAddress creator] =>
    let! st := gets store in
    ret [AList (ABig <$> PendingJobIDsByCreator st creator)]
  | [_] => fail ErrArgType
  | _ => fail ErrArgCount
  end.

Definition Run (abi : ABI) (ctx : Ctx) (contract : Contract) (readOnly : bool) : H :=
  match RunSetup abi contract readOnly IsTransaction with
  | Err e => fail e
  | Panic => panic
  | Ok (method, args) =>
    let n := Name method in
    if bool_decide (n = "schedule") then handleSchedule ctx contract args
    else if bool_decide (n = "cancel") then handleCancel ctx contract args
    else if bool_decide (n = "reschedule") then handleReschedule ctx contract args
    else if bool_decide (n = "getJob") then handleGetJob args
    else if bool_decide (n = "pending") then handlePending args
    else fail ErrUnknownMethod
  end.

(** One event of the module's life: a successful call of the precompile, or the
    end of a block.  The caller is never the module account, which runs no code,
    and the id counter is short of its last value. *)
Inductive step (call : Ctx -> bytes -> bytes -> bytes -> bool -> M (world X) string Z)
    (txt : string) (abi : ABI) : world X -> world X -> Prop :=
| step_call ctx contract readOnly w w' next out :
    CallerAddress contract <> ModuleAccountAddress ->
    length (CallerAddress contract) = 20%nat ->
    GetNextJobID w = (w, Ok next) -> next + 1 < 2 ^ 64 ->
    Run abi ctx contract readOnly w = (w', Ok out) ->
    step call txt abi w w'
| step_end_block ctx w :
    step call txt abi w (EndBlocker call txt ctx w).

End Handlers.

(** * What the entry point guarantees *)

Section Theorems.
Context {X : Type} {BK : BankKeeper X} {BL : BankLaws X} {EC : EthCommon}.
Context {FM : FeeMarketKeeper X} {SD : StateDB X} {SL : StateDBLaws X}.

Lemma handleGetJob_pure args (w w' : world X) r : handleGetJob args w = (w', r) -> w' = w.
Proof.
  unfold handleGetJob, decode_uint64_id. go_unfold.
  destruct args as [|v [|]]; [by intros [=]| |by destruct v; intros [=]].
  destruct v; try by intros [=]. destruct (is_u64 n); [|by intros [=]].
  destruct (GetJob (store w) n); by intros [=].
Qed.

Lemma handlePending_pure args (w w' : world X) r : handlePending args w = (w', r) -> w' = w.
Proof.
  unfold handlePending. go_unfold. destruct args as [|v [|]]; [by intros [=]|destruct v; by intros [=]|].
  by destruct v; intros [=].
Qed.

Lemma decodeScheduleArgs_ok args (w w' : world X) d :
  decodeScheduleArgs args w = (w', Ok d) ->
  w' = w /\ args = [AAddress (sa_Target d); ABytes (sa_CallData d);
                    AUint64 (sa_ExecuteAtBlock d); AUint64 (sa_GasLimit d)].
Proof.
  unfold decodeScheduleArgs.
  destruct args as [|a0 [|a1 [|a2 [|a3 [|]]]]]; try by intros [=].
  destruct a0; try by intros [=]. destruct a1; try by intros [=].
  destruct a2; try by intros [=]. destruct a3; try by intros [=]. by intros [= <- <-].
Qed.

Lemma GetNextJobID_spec (w : world X) a :
  refines (store w) a -> wf_abs a -> GetNextJobID w = (w, Ok (a_next a)).
Proof.
  intros Hr Hwf. pose proof (wf_next a Hwf). unfold GetNextJobID, bind, gets.
  rewrite (jobs_refines_next _ _ Hr). unfold read_u64.
  destruct (Nat.ltb_spec (length (be8 (a_next a))) 8) as [Hl|Hl];
    [rewrite length_be8 in Hl; lia|].
  rewrite take_ge by (rewrite length_be8; lia). by rewrite be8_roundtrip by lia.
Qed.

(** The escrow block of [handleSchedule]: the deposit reaches the module account. *)
Lemma escrow_block_ok caller d (w w' : world X) :
  (if 0 <? d then
     sub_balance PrecompileAddress d ;; from_keeper (EscrowDeposit caller (Some d))
   else ret tt) w = (w', Ok tt) ->
  0 <= d ->
  store w' = store w /\ events w' = events w /\
  paid (ext w) (ext w') caller ModuleAccountAddress d.
Proof.
  intros H Hd. destruct (Z.ltb_spec 0 d).
  - unfold bind, sub_balance, modify in H. apply from_keeper_ok, deposit_escrow_ok in H as (Hst & Hev & Hp); [|done].
    split_and!; [done..|]. intros a dn. rewrite (Hp a dn). cbn [ext]. by rewrite SubBalance_bank.
  - injection H as <-. split_and!; [done..|]. intros a dn. repeat case_decide; lia.
Qed.

Lemma handleSchedule_ok (w : world X) a ctx contract args w' out :
  refines (store w) a -> wf_abs a -> length (CallerAddress contract) = 20%nat ->
  Forall typed_value args ->
  a_next a + 1 < 2 ^ 64 ->
  handleSchedule ctx contract args w = (w', Ok out) ->
  exists target data h gas d,
    args = [AAddress target; ABytes data; AUint64 h; AUint64 gas] /\
    d = default 0 (Value contract) /\ 0 <= d /\ out = [ABig (a_next a)] /\
    length target = 20%nat /\ 0 <= h < 2 ^ 64 /\
    refines (store w')
      (insert_job (scheduled (a_next a) (CallerAddress contract) target data h gas d)
         (mkAbs (a_jobs a) (a_next a + 1) (a_params a))) /\
    paid (ext w) (ext w') (CallerAddress contract) ModuleAccountAddress d.
Proof.
  intros Hr Hwf Hc Ht Hn. unfold handleSchedule. unfold bind at 1.
  go_case as [w1 [dec|e|]] eqn Hdec; [|by intros [=]..].
  apply decodeScheduleArgs_ok in Hdec as [-> Hargs]. subst args.
  rewrite !Forall_cons in Ht. destruct Ht as (Ht1 & _ & Ht2 & _). cbn in Ht1, Ht2.
  set (d := default 0 (Value contract)). unfold bind at 1.
  go_case as [w1 [[]|e|]] eqn Hesc; [|by intros [=]..].
  unfold bind at 1. go_case as [w2 [id|e|]] eqn Hsch; [|by intros [=]..].
  intros [= <- <-]. apply from_keeper_ok in Hsch.
  assert (0 <= d) as Hd.
  { destruct (Z.ltb_spec 0 d); [lia|]. injection Hesc as <-.
    destruct (decide (0 <= d)); [done|]. exfalso. unfold Schedule in Hsch. revert Hsch.
    unfold bind at 1, guard at 1. destruct (negb _); [|by intros [=]]. cbn [ret].
    unfold bind at 1, guard at 1. destruct (negb _); [|by intros [=]]. cbn [ret].
    unfold bind at 1. destruct (Z.ltb_spec d 0); [by intros [=]|lia]. }
  apply escrow_block_ok in Hesc as (Hst & Hev & Hp); [|done].
  assert (refines (store w1) a) as Hr1 by (by rewrite Hst).
  apply (schedule_ok _ a) in Hsch
    as (d' & [= <-] & _ & _ & _ & _ & _ & _ & -> & Hr2 & Hx); [|done..|lia|lia].
  exists (sa_Target dec), (sa_CallData dec), (sa_ExecuteAtBlock dec), (sa_GasLimit dec), d.
  rewrite Hx. split_and!; try done; lia.
Qed.

Lemma paid_in_custody x x' src n :
  paid x x' src ModuleAccountAddress n -> src <> ModuleAccountAddress ->
  custody x' = custody x + n.
Proof. intros Hp Hne. unfold custody. rewrite Hp. repeat case_decide; naive_solver lia. Qed.

Lemma scheduled_deposit id c t data h gas d :
  0 <= d -> job_deposit (scheduled id c t data h gas d) = d.
Proof. intros. unfold job_deposit, parseDeposit; simpl. by rewrite parseNonNeg_BigString. Qed.

Lemma schedule_inv (w : world X) a ctx contract args w' out :
  inv w a -> CallerAddress contract <> ModuleAccountAddress ->
  length (CallerAddress contract) = 20%nat ->
  Forall typed_value args ->
  a_next a + 1 < 2 ^ 64 ->
  handleSchedule ctx contract args w = (w', Ok out) -> exists a', inv w' a'.
Proof.
  intros (Hr & Hwf & Hs) Hmod Hc Ht Hn H.
  apply (handleSchedule_ok _ a) in H
    as (target & data & h & gas & d & -> & _ & Hd & -> & Htl & Hh & Hr' & Hp); [|done..].
  pose proof (wf_next a Hwf).
  set (j := scheduled _ _ _ _ _ _ _) in *. set (a1 := mkAbs (a_jobs a) (a_next a + 1) (a_params a)) in *.
  assert (a_jobs a !! ID j = None) as Hnew.
  { destruct (a_jobs a !! ID j) eqn:E; [|done]. destruct (wf_ids a Hwf _ _ E). simpl in *. lia. }
  exists (insert_job j a1). split_and!; [done| |].
  - apply wf_insert_job; [apply wf_advance; [done|lia]| |simpl; lia]. split; simpl; eauto.
  - unfold solvent in *. rewrite deposits_new by done. assert (job_deposit j = d) as -> by (by apply scheduled_deposit).
    rewrite (paid_in_custody _ _ _ _ Hp) by done. change (deposits a1) with (deposits a). lia.
Qed.

Lemma cancel_inv (w : world X) a ctx caller id w' :
  inv w a -> 0 <= id < 2 ^ 64 -> Cancel ctx caller id w = (w', Ok tt) -> exists a', inv w' a'.
Proof.
  intros (Hr & Hwf & Hs) Hid H.
  apply (cancel_ok _ a) in H as (j & Hj & -> & Hr' & Hp); [|done..].
  exists (remove_job id a). split_and!; [done|by apply wf_remove_job|].
  unfold solvent in *. rewrite (deposits_remove a id j Hj).
  apply paid_custody in Hp; [lia|apply job_deposit_nonneg].
Qed.

Lemma reschedule_inv (w : world X) a ctx caller id h w' :
  inv w a -> 0 <= id < 2 ^ 64 -> h < 2 ^ 64 ->
  Reschedule ctx caller id h w = (w', Ok tt) -> exists a', inv w' a'.
Proof.
  intros (Hr & Hwf & Hs) Hid Hh H. pose proof (height_range ctx).
  apply (reschedule_ok _ a) in H as (j & Hj & -> & Hrange & Hr' & Hx); [|done..].
  destruct (wf_ids a Hwf _ _ Hj) as [Hji Hlt]. pose proof (wf_jobs a Hwf _ _ Hj) as [].
  exists (insert_job (with_ExecuteAtBlock h j) (remove_job id a)). split_and!; [done| |].
  - apply wf_insert_job; [by apply wf_remove_job| |simpl; lia]. split; simpl; [done|done|lia|done|done].
  - unfold solvent in *. rewrite Hx, deposits_new by (simpl; rewrite Hji; apply lookup_delete_eq).
    rewrite (deposits_remove a id j Hj). change (job_deposit (with_ExecuteAtBlock h j)) with (job_deposit j).
    lia.
Qed.

Lemma run_inv abi ctx contract ro (w : world X) a w' out :
  typed_abi abi -> inv w a -> CallerAddress contract <> ModuleAccountAddress ->
  length (CallerAddress contract) = 20%nat -> a_next a + 1 < 2 ^ 64 ->
  Run abi ctx contract ro w = (w', Ok out) -> exists a', inv w' a'.
Proof.
  intros Hty Hi Hmod Hc Hn. unfold Run.
  destruct (RunSetup abi contract ro IsTransaction) as [[m args]|e|] eqn:Hs; [|by intros [=]..].
  apply (RunSetup_typed _ _ _ _ _ _ Hty) in Hs.
  case_bool_decide; [by apply (schedule_inv w a)|].
  case_bool_decide.
  { unfold handleCancel, bind. destruct (decode_uint64_id args w) as [w1 [id|e|]] eqn:Hd; [|by intros [=]..].
    apply decode_uint64_id_ok in Hd as (-> & _ & Hid).
    destruct (from_keeper _ w) as [w1 [[]|e|]] eqn:Hk; [|by intros [=]..].
    intros [= <- _]. apply from_keeper_ok in Hk. by eapply cancel_inv. }
  case_bool_decide.
  { unfold handleReschedule. destruct args as [|a0 [|a1 [|]]]; try by intros [=].
    destruct a0; try by intros [=]. destruct (is_u64 n) eqn:Hu; cbn [negb]; [|by intros [=]].
    apply is_u64_true in Hu. destruct a1; try by intros [=].
    unfold bind. destruct (from_keeper _ w) as [w1 [[]|e|]] eqn:Hk; [|by intros [=]..].
    intros [= <- _]. apply from_keeper_ok in Hk. rewrite !Forall_cons in Hs. cbn in Hs.
    eapply reschedule_inv; [done|done| |done]. lia. }
  case_bool_decide; [intros H'; apply handleGetJob_pure in H' as ->; by eauto|].
  case_bool_decide; [intros H'; apply handlePending_pure in H' as ->; by eauto|by intros [=]].
Qed.

Context (call : Ctx -> bytes -> bytes -> bytes -> bool -> M (world X) string Z) (txt : string).
Context (Hforeign : foreign_call call) (Hgas : gas_laws call).

(** C7: deposits are always covered.  From any state in which the store is the
    image of a set of pending jobs and the module account holds at least the sum
    of their deposits, every sequence of successful precompile calls and block
    ends leads to such a state again, as long as dispatched calls do not call
    back into the module. *)
Theorem deposits_always_covered abi (w : world X) a w' :
  typed_abi abi -> inv w a -> rtc (step call txt abi) w w' -> exists a', inv w' a'.
Proof.
  intros Hty Hi Hsteps. revert a Hi.
  induction Hsteps as [w|w w1 w2 Hst _ IH]; intros a Hi; [by eauto|].
  assert (exists a1, inv w1 a1) as [a1 Hi1]; [|by eapply IH].
  destruct Hst as [ctx contract ro w w1 next out Hmod Hc Hnx Hn Hrun|ctx w].
  - pose proof Hi as (Hr & Hwf & _). rewrite (GetNextJobID_spec w a Hr Hwf) in Hnx.
    injection Hnx as <-. by eapply run_inv.
  - pose proof Hi as (Hr & Hwf & _).
    destruct (due_list (u64 (BlockHeight ctx)) (store w) a Hr Hwf (height_range ctx)) as (Hs & Hf & _).
    eexists. unfold EndBlocker. apply (dispatch_all call txt Hforeign Hgas ctx _ w a Hi); [|done].
    apply (StronglySorted_lt_NoDup Z.lt); [lia|done].
Qed.

(** A static call of the scheduler cannot change anything. *)
Theorem scheduler_readonly_changes_nothing abi ctx contract (w w' : world X) r :
  Run abi ctx contract true w = (w', r) -> w' = w.
Proof.
  unfold Run. destruct (RunSetup abi contract true IsTransaction) as [[m args]|e|] eqn:Hs;
    [|by intros [=]..].
  apply RunSetup_readonly in Hs. unfold IsTransaction in Hs.
  apply bool_decide_eq_false in Hs. rewrite !not_elem_of_cons in Hs.
  destruct Hs as (H1 & H2 & H3 & _).
  rewrite !bool_decide_eq_false_2 by done.
  case_bool_decide; [apply handleGetJob_pure|].
  case_bool_decide; [apply handlePending_pure|by intros [=]].
Qed.

End Theorems.
