(* ===== verification/SchedulerGenesis.v ===== *)
(** [x/scheduler]: the genesis round trip. *)

From stdpp Require Import base list gmap strings sorting.
From Stdlib Require Import ZArith Lia.
From S2P Require Import Prelude KVStore IndexedStore BigInt Ledger Scheduler.
Open Scope Z_scope.
Open Scope go_scope.

(** The abstract state a genesis file describes. *)
Definition abs_of_genesis (gs : GenesisState) : abs :=
  foldl (fun a j => insert_job j a) (mkAbs ∅ (gs_NextJobID gs) (gs_Params gs)) (gs_Jobs gs).

Section Genesis.
Context {X : Type}.

Lemma validate_jobs_cons next seen j js :
  validate_jobs next seen (j :: js) = true ->
  ID j <> 0 /\ ID j ∉ seen /\ ID j < next /\ validate_jobs next ({[ID j]} ∪ seen) js = true.
Proof.
  simpl. destruct (Z.eqb_spec (ID j) 0); [done|].
  destruct (bool_decide_reflect (ID j ∈ seen)); [done|].
  destruct (Z.leb_spec next (ID j)); [done|]. intros Hv; by split_and!.
Qed.

Lemma set_jobs_spec js : forall (w : world X) a seen,
  refines (store w) a -> wf_abs a -> (forall id, is_Some (a_jobs a !! id) -> id ∈ seen) ->
  Forall (fun j => wf_job j /\ 0 <= ID j) js ->
  validate_jobs (a_next a) seen js = true ->
  let a' := foldl (fun a j => insert_job j a) a js in
  exists w', set_jobs js w = (w', Ok tt) /\ refines (store w') a' /\ wf_abs a' /\
    a_next a' = a_next a /\ a_params a' = a_params a /\
    forall j, (a_jobs a' !! ID j = Some j <-> j ∈ js \/ a_jobs a !! ID j = Some j).
Proof.
  induction js as [|j js IH]; intros w a seen Hr Hwf Hseen Hjs Hv.
  - exists w. split_and!; try done. simpl. intros j. rewrite elem_of_nil. tauto.
  - apply Forall_cons in Hjs as [[Hwj Hid] Hjs].
    apply validate_jobs_cons in Hv as (Hnz & Hns & Hlt & Hv).
    pose proof (wf_next a Hwf) as Hn. pose proof Hwj as [Hc _ Hb _ _].
    assert (a_jobs a !! ID j = None) as Hnew.
    { apply eq_None_not_Some. intros H. by apply Hns, Hseen. }
    set (w1 := mkWorld (SetJob_store j (store w)) (ext w) (events w)).
    destruct (IH w1 (insert_job j a) ({[ID j]} ∪ seen)) as (w' & Hrun & Hr' & Hwf' & Hnx & Hpa & Hm).
    + apply (refines_SetJob _ _ Hr Hwf); [lia|done|done|done].
    + destruct Hwf as [Hids Hst Hn' Hp]. split; simpl; try done;
        intros id j' H; apply lookup_insert_Some in H as [[<- <-]|[_ H]]; eauto. split; [done|lia].
    + simpl. intros id [j' H]. apply lookup_insert_Some in H as [[<- _]|[_ H]]; [set_solver|].
      apply elem_of_union_r, Hseen. by eexists.
    + done.
    + done.
    + exists w'. split_and!; [|done|done|done|done|].
      { simpl. unfold bind at 1, SetJob, update_store, modify. exact Hrun. }
      intros j'. simpl in *. rewrite Hm, elem_of_cons.
      destruct (decide (ID j = ID j')) as [He|Hne].
      * rewrite <- He, lookup_insert_eq, Hnew. naive_solver.
      * rewrite lookup_insert_ne by done. naive_solver.
Qed.

Lemma jobs_init_spec gs (w : world X) :
  store w = ∅ -> GenesisState_Validate gs = true ->
  0 < gs_NextJobID gs < 2 ^ 64 -> Forall (fun j => wf_job j /\ 0 <= ID j) (gs_Jobs gs) ->
  exists w', InitGenesis gs w = (w', Ok tt) /\ refines (store w') (abs_of_genesis gs) /\
    wf_abs (abs_of_genesis gs) /\ a_next (abs_of_genesis gs) = gs_NextJobID gs /\
    a_params (abs_of_genesis gs) = gs_Params gs /\
    forall j, a_jobs (abs_of_genesis gs) !! ID j = Some j <-> j ∈ gs_Jobs gs.
Proof.
  intros Hst Hv Hn Hjs. apply andb_true_iff in Hv as [Hp Hv].
  set (w1 := mkWorld (<[NextJobIDKey := VRaw (be8 (gs_NextJobID gs))]>
               (<[ParamsKey := VParams (gs_Params gs)]> ∅)) (ext w) (events w)).
  destruct (set_jobs_spec (gs_Jobs gs) w1 (mkAbs ∅ (gs_NextJobID gs) (gs_Params gs)) ∅)
    as (w' & Hrun & Hr' & Hwf' & Hnx & Hpa & Hm).
  - apply (indexed_empty job_entries (fixed_entries (gs_NextJobID gs) (gs_Params gs))).
    repeat constructor; simpl; set_solver.
  - split; simpl; [intros id j H; by rewrite lookup_empty in H..|done|done].
  - simpl. intros id [j H]. by rewrite lookup_empty in H.
  - done.
  - done.
  - exists w'. split_and!; [|done|done|done|done|].
    + unfold InitGenesis, SetParams. rewrite Hp. cbn [negb].
      unfold update_store, modify, SetNextJobID, bind. rewrite Hst. exact Hrun.
    + intros j. unfold abs_of_genesis. rewrite Hm. simpl. rewrite lookup_empty. naive_solver.
Qed.

Lemma job_id_keys st a : refines st a -> wf_abs a -> id_keys JobByIDKeyPrefix st.
Proof.
  intros Hr Hwf k v Hk Hpre. apply is_prefix_true in Hpre as [sfx Hs].
  apply (refines_inv st a Hr) in Hk as [(i & j & Hm & [[He _]|[[He _]|[He _]]])|[He|He]];
    rewrite He in Hs; try discriminate Hs.
  exists i. split; [by eapply job_id_range|done].
Qed.

Lemma GetAllJobs_spec st a :
  refines st a -> wf_abs a ->
  StronglySorted job_lt (GetAllJobs st) /\
  forall j, j ∈ GetAllJobs st <-> a_jobs a !! ID j = Some j.
Proof.
  intros Hr Hwf.
  assert (forall id v, 0 <= id < 2 ^ 64 -> st !! (JobByIDKeyPrefix ++ be8 id) = Some v ->
            exists j, v = VJob j /\ a_jobs a !! id = Some j) as Hv.
  { intros id v Hid H. fold (JobByIDKey id) in H.
    apply (refines_inv st a Hr) in H as [(i & j & Hm & [[He ->]|[[He _]|[He _]]])|[He|He]];
      try discriminate He.
    apply JobByIDKey_inj in He as <-; [by eauto|done|by eapply job_id_range]. }
  destruct (prefix_records (fun v => match v with VJob j => Some j | _ => None end) ID
              JobByIDKeyPrefix st (job_id_keys st a Hr Hwf)) as [Hs Hm].
  { intros id v Hid H. destruct (Hv id v Hid H) as (j & -> & Hl).
    exists j. split; [done|]. by apply (wf_ids a Hwf). }
  split; [exact Hs|]. intros j. unfold GetAllJobs. rewrite Hm. split.
  - intros (Hid & v & H & E). destruct (Hv _ _ Hid H) as (j' & -> & Hl). by injection E as ->.
  - intros Hl. split; [by eapply job_id_range|]. exists (VJob j). split; [|done].
    by apply (refines_job_entries st a Hr (ID j) j).
Qed.

(** Genesis round trip.  Importing into an empty store a validated genesis
    whose jobs are well formed and listed by id succeeds, and the export that
    follows is that genesis. *)
Theorem scheduler_genesis_roundtrip gs (w : world X) :
  store w = ∅ -> GenesisState_Validate gs = true ->
  0 < gs_NextJobID gs < 2 ^ 64 -> Forall (fun j => wf_job j /\ 0 <= ID j) (gs_Jobs gs) ->
  StronglySorted job_lt (gs_Jobs gs) ->
  exists w', InitGenesis gs w = (w', Ok tt) /\ ExportGenesis w' = (w', Ok gs).
Proof.
  intros Hst Hv Hn Hjs Hsort.
  destruct (jobs_init_spec gs w) as (w' & Hrun & Hr & Hwf & Hnx & Hpa & Hm); [done..|].
  exists w'. split; [done|].
  destruct (GetAllJobs_spec _ _ Hr Hwf) as [Hs' Hm'].
  assert (GetAllJobs (store w') = gs_Jobs gs) as Hall.
  { apply (sorted_unique_members job_lt); [unfold job_lt; lia..|done|done|].
    intros j. by rewrite Hm', Hm. }
  unfold ExportGenesis, GetNextJobID, bind, gets.
  rewrite (jobs_refines_next _ _ Hr), (jobs_refines_GetParams _ _ Hr), Hall, Hnx, Hpa. unfold read_u64.
  destruct (Nat.ltb_spec (length (be8 (gs_NextJobID gs))) 8) as [Hl|Hl];
    [rewrite length_be8 in Hl; lia|].
  rewrite take_ge by (rewrite length_be8; lia). unfold ret. rewrite be8_roundtrip by lia.
  by destruct gs.
Qed.

End Genesis.
