(* ===== verification/SchedulerCases.v ===== *)
(** [x/scheduler]: two ways in which a dispatched call that uses the scheduler
    itself defeats the accounting of deposits, and concrete runs of the
    operations.

    The runs use the bank of [Ledger.v], a base fee of 2, and callees that are
    Gallina functions of the world. *)

From stdpp Require Import base list gmap strings sorting relations.
From Stdlib Require Import ZArith Lia.
From S2P Require Import Prelude KVStore IndexedStore BigInt Ledger Precompile Scheduler SchedulerProps SchedulerPrecompile SchedulerGenesis.
Open Scope Z_scope.
Open Scope go_scope.

Abbreviation bank := RefBank.bank.

#[export] Instance ref_fee_market : FeeMarketKeeper bank := {| GetBaseFee _ := Some 2 |}.
#[export] Instance ref_statedb : StateDB bank := {| SubBalance x _ _ := x |}.
#[export] Instance ref_statedb_laws : StateDBLaws bank.
Proof. by split. Qed.

Definition alice : bytes := replicate 20 1.
Definition bob : bytes := replicate 20 2.
Definition carol : bytes := replicate 20 3.
(** A contract that owns a job and is the target of another. *)
Definition agent : bytes := replicate 20 9.

Definition bank0 : bank :=
  {[ (alice, DefaultEVMDenom) := 10000; (agent, DefaultEVMDenom) := 4000;
     (carol, DefaultEVMDenom) := 10000 ]}.

Definition world0 : world bank := (InitGenesis DefaultGenesisState (mkWorld ∅ bank0 [])).1.

Definition at_height (h : Z) : Ctx := mkCtx 0 h.

(** A [schedule] call with a deposit, at height 50. *)
Definition do_schedule (caller target data : bytes) (h gas deposit : Z) (w : world bank) : world bank :=
  (handleSchedule (at_height 50) (mkContract caller (Some deposit) [])
     [AAddress target; ABytes data; AUint64 h; AUint64 gas] w).1.

(** The agent's code: on call data [1] it cancels job 2, on [2] it moves job 1 to
    block 110, through the precompile in both cases. *)
Definition agent_code (ctx : Ctx) (data : bytes) : M (world bank) (perror error) (list abi_value) :=
  if bool_decide (data = [1]) then handleCancel ctx (mkContract agent None []) [ABig 2]
  else if bool_decide (data = [2]) then
    handleReschedule ctx (mkContract agent None []) [ABig 1; AUint64 110]
  else ret [].

Definition agent_call (ctx : Ctx) (from to data : bytes) (commit : bool) : M (world bank) string Z :=
  fun w =>
    if bool_decide (to = agent) then
      match agent_code ctx data w with
      | (w', Ok _) => (w', Ok 100)
      | (w', _) => (w', Err "execution reverted"%string)
      end
    else (w, Ok 100).

(** Callees that never use the scheduler: the call to Bob succeeds, the one to
    Carol reverts, any other runs into a panic. *)
Definition plain_call (ctx : Ctx) (from to data : bytes) (commit : bool) : M (world bank) string Z :=
  fun w =>
    if bool_decide (to = bob) then (w, Ok 100)
    else if bool_decide (to = carol) then (w, Err "execution reverted"%string)
    else (w, Panic).

(** Jobs 1 (Alice calls the agent), 2 (the agent calls Bob) at block 100 and 3
    (Carol calls Bob) at block 200. *)
Definition world3 : world bank :=
  do_schedule carol bob [] 200 1000 5000
    (do_schedule agent bob [] 100 1000 4000
      (do_schedule alice agent [1] 100 1000 4000 world0)).

(** Job 1 (the agent calls itself) at block 100 and job 2 (Carol) at block 200. *)
Definition world2 : world bank :=
  do_schedule carol bob [] 200 1000 5000
    (do_schedule agent agent [2] 100 1000 4000 world0).

Definition job1 : Job := scheduled 1 alice bob [] 100 1000 4000.
Definition job2 : Job := scheduled 2 alice carol [] 100 1000 4000.
Definition job3 : Job := scheduled 3 carol bob [] 200 1000 5000.

(** Three jobs of callees that leave the scheduler alone. *)
Definition gs3 : GenesisState := mkGenesis DefaultParams 4 [job1; job2; job3].
Definition bank3 : bank := {[ (ModuleAccountAddress, DefaultEVMDenom) := 13000 ]}.
Definition worldP : world bank := (InitGenesis gs3 (mkWorld ∅ bank3 [])).1.
Definition absP : abs := abs_of_genesis gs3.

Definition native (w : world bank) (h : bytes) : Z := GetBalance (ext w) h DefaultEVMDenom.

Definition owed (w : world bank) : Z := sumZ job_deposit (GetAllJobs (store w)).

(** An ABI whose only method is [cancel], with a fixed argument. *)
Definition cancel_abi (id : Z) : ABI := {|
  MethodById _ := Some (mkMethod "cancel" true);
  Unpack _ _ := Some [ABig id];
  Receive := None;
  Fallback := None
|}.

(** After one more call each. *)
Definition worldP_cancelled : world bank :=
  (Run (cancel_abi 3) (at_height 60) (mkContract carol None [1; 2; 3; 4]) false worldP).1.

Definition worldP_scheduled : world bank :=
  (Schedule (at_height 50) alice bob [] 70 10 (Some 40) worldP).1.

Definition worldP_moved : world bank := (Reschedule (at_height 60) carol 3 150 worldP).1.

(** * Behaviours the documentation excludes *)

(** the due jobs are collected before the first one runs, so a call that
    cancels another job due in the same block does not stop it: after its
    deposit was refunded by [Cancel] the job is dispatched all the same and its
    deposit is refunded a second time.  The agent put in 4000 and gets 7800; the
    module is left with 1400 while Carol's pending job is owed 5000. *)
Theorem cancelled_job_is_dispatched_and_refunded_twice :
  let w' := EndBlocker agent_call "panic" (at_height 100) world3 in
  native world3 agent = 0 /\ custody (ext world3) = 13000 /\ owed world3 = 13000 /\
  native w' agent = 7800 /\ custody (ext w') = 1400 /\ owed w' = 5000 /\
  JobCancelled 2 agent (BigString 4000) ∈ events w' /\
  JobExecuted 2 agent bob 100 (BigString 200) (BigString 3800) ∈ events w'.
Proof.
  cbv zeta. split_and!; [vm_compute; reflexivity..| |].
  - apply (list_elem_of_lookup_2 _ 3). vm_compute. reflexivity.
  - apply (list_elem_of_lookup_2 _ 5). vm_compute. reflexivity.
Qed.

(** a job whose call reschedules the job itself is not removed: the deletion
    that follows the dispatch uses the old record, so the entry under the new
    block stays, and at that block the job is dispatched again and refunded
    again, although its record is gone and cannot be cancelled. *)
Theorem rescheduled_job_is_dispatched_again :
  let w1 := EndBlocker agent_call "panic" (at_height 100) world2 in
  let w2 := EndBlocker agent_call "panic" (at_height 110) w1 in
  GetJob (store w1) 1 = None /\ PendingJobIDsByCreator (store w1) agent = [] /\
  ID <$> IterateJobsDueAt (store w1) 110 = [1] /\
  native world2 agent = 0 /\ native w1 agent = 3800 /\ native w2 agent = 7800 /\
  custody (ext w2) = 1200 /\ owed w2 = 5000.
Proof. cbv zeta. split_and!; [vm_compute; reflexivity..]. Qed.

(** * Runs at concrete inputs *)

Lemma plain_call_cases (ctx : Ctx) (from to data : bytes) (commit : bool) (w w' : world bank) (g : Z) :
  plain_call ctx from to data commit w = (w', Ok g) -> w' = w /\ g = 100.
Proof. unfold plain_call. repeat case_bool_decide; intros [=]; by subst. Qed.

Lemma plain_call_foreign : foreign_call plain_call.
Proof. split; intros ctx from to data w w' g H; by apply plain_call_cases in H as [-> _]. Qed.

Lemma plain_call_gas : gas_laws plain_call.
Proof.
  split; [done|]. intros ctx from to data w w' g H. by apply plain_call_cases in H as [_ ->].
Qed.

Lemma scheduled_wf id c t data h gas d :
  length c = 20%nat -> length t = 20%nat -> 0 <= h < 2 ^ 64 -> 0 <= d ->
  wf_job (scheduled id c t data h gas d).
Proof. intros. split; simpl; eauto. Qed.

Lemma gs3_jobs : Forall (fun j => wf_job j /\ 0 <= ID j) (gs_Jobs gs3).
Proof. repeat constructor; done || by apply scheduled_wf. Qed.

Lemma worldP_inv : inv worldP absP.
Proof.
  destruct (jobs_init_spec gs3 (mkWorld ∅ bank3 [])) as (w' & Hrun & Hr & Hwf & _);
    [done|by vm_compute|done|apply gs3_jobs|].
  split_and!; [unfold worldP; rewrite Hrun; exact Hr|exact Hwf|].
  unfold solvent. by vm_compute.
Qed.

Lemma endblocker_dispatches_due_jobs_witness :
  inv (EndBlocker plain_call "panic" (at_height 100) worldP) (remove_due (u64 100) absP) /\
  exists evs ids,
    events (EndBlocker plain_call "panic" (at_height 100) worldP) = events worldP ++ evs /\
    outcome_id <$> evs = Some <$> ids /\ StronglySorted Z.lt ids /\
    (forall id, id ∈ ids <-> exists j, a_jobs absP !! id = Some j /\ ExecuteAtBlock j = u64 100).
Proof.
  apply (endblocker_dispatches_due_jobs plain_call "panic" plain_call_foreign plain_call_gas
           (at_height 100) worldP absP worldP_inv).
Defined.

Lemma failed_dispatch_rolls_back_witness :
  let w' := dispatchJob plain_call "panic" (at_height 100) job2 worldP in
  refines (store w') (remove_job (ID job2) absP) /\
  paid (ext worldP) (ext w') ModuleAccountAddress (Creator job2) (job_deposit job2) /\
  exists text, events w' = events worldP ++
    [JobFailed (ID job2) (Creator job2) (Target job2) text (BigString (job_deposit job2))].
Proof.
  apply (failed_dispatch_rolls_back plain_call "panic" (at_height 100) job2 worldP absP worldP_inv);
    [by vm_compute|by vm_compute|].
  left. exists worldP, "execution reverted"%string. reflexivity.
Defined.

Lemma successful_dispatch_charges_gas_witness :
  let w' := dispatchJob plain_call "panic" (at_height 100) job1 worldP in
  let refund := Z.max 0 (job_deposit job1 - 100 * base_fee (ext worldP)) in
  refines (store w') (remove_job (ID job1) absP) /\
  paid (ext worldP) (ext w') ModuleAccountAddress (Creator job1) refund /\
  events w' = events worldP ++
    [JobExecuted (ID job1) (Creator job1) (Target job1) 100
       (BigString (100 * base_fee (ext worldP))) (BigString refund)].
Proof.
  refine (successful_dispatch_charges_gas plain_call "panic" plain_call_foreign plain_call_gas
            (at_height 100) job1 worldP absP worldP 100 worldP_inv _ _ _); [by vm_compute..|].
  reflexivity.
Defined.

Lemma cancel_abi_typed : typed_abi (cancel_abi 3).
Proof. intros m data args [= <-]. by repeat constructor. Qed.

Lemma worldP_next : GetNextJobID worldP = (worldP, Ok 4).
Proof. destruct worldP_inv as (Hr & Hwf & _). apply (GetNextJobID_spec worldP absP Hr Hwf). Qed.

Lemma run_cancel3 :
  Run (cancel_abi 3) (at_height 60) (mkContract carol None [1; 2; 3; 4]) false worldP
  = (worldP_cancelled, Ok []).
Proof. unfold worldP_cancelled. apply run_eq. vm_compute. reflexivity. Qed.

Lemma deposits_always_covered_witness :
  exists a', inv (EndBlocker plain_call "panic" (at_height 100) worldP_cancelled) a'.
Proof.
  apply (deposits_always_covered plain_call "panic" plain_call_foreign plain_call_gas
           (cancel_abi 3) worldP absP _ cancel_abi_typed worldP_inv).
  eapply rtc_l; [|apply rtc_once, step_end_block].
  eapply (step_call plain_call "panic" (cancel_abi 3) (at_height 60)
            (mkContract carol None [1; 2; 3; 4]) false); [done|done|apply worldP_next|done|].
  apply run_cancel3.
Defined.

Lemma run_schedule4 :
  Schedule (at_height 50) alice bob [] 70 10 (Some 40) worldP = (worldP_scheduled, Ok 4).
Proof. unfold worldP_scheduled. apply run_eq. vm_compute. reflexivity. Qed.

Lemma schedule_registers_job_witness :
  exists d, Some 40 = Some d /\ 0 <= d /\ bob <> zero_address /\ 10 <> 0 /\
    u64 50 < 70 <= u64 50 + MaxScheduleHorizon (a_params absP) /\
    CountJobsByCreator (store worldP) alice < MaxJobsPerCreator (a_params absP) /\
    10 * base_fee (ext worldP) * MinDepositFactor (a_params absP) <= d /\ 4 = a_next absP /\
    refines (store worldP_scheduled)
      (insert_job (scheduled 4 alice bob [] 70 10 d)
         (mkAbs (a_jobs absP) (4 + 1) (a_params absP))) /\
    ext worldP_scheduled = ext worldP.
Proof.
  destruct worldP_inv as (Hr & Hwf & _).
  apply (schedule_registers_job worldP absP (at_height 50) alice bob [] 70 10 (Some 40)
           worldP_scheduled 4 Hr Hwf); [done|done|by vm_compute|apply run_schedule4].
Defined.

Lemma run_reschedule3 : Reschedule (at_height 60) carol 3 150 worldP = (worldP_moved, Ok tt).
Proof. unfold worldP_moved. apply run_eq. vm_compute. reflexivity. Qed.

Lemma cancel_and_reschedule_witness :
  exists j, a_jobs absP !! 3 = Some j /\ carol = Creator j /\
    u64 60 < 150 <= u64 60 + MaxScheduleHorizon (a_params absP) /\
    refines (store worldP_moved) (insert_job (with_ExecuteAtBlock 150 j) absP) /\
    ext worldP_moved = ext worldP.
Proof.
  destruct worldP_inv as (Hr & Hwf & _).
  apply (cancel_and_reschedule worldP absP (at_height 60) carol 3 150 worldP_moved Hr Hwf);
    [done|done|apply run_reschedule3].
Defined.

Lemma failed_scheduler_operation_changes_nothing_witness :
  Cancel (at_height 60) alice 3 worldP = (worldP, Err ErrUnauthorized) /\ worldP = worldP.
Proof.
  assert (Cancel (at_height 60) alice 3 worldP = (worldP, Err ErrUnauthorized)) as H.
  { unfold Cancel. unfold bind at 1. destruct worldP_inv as (Hr & Hwf & _).
    rewrite (get_owned_spec worldP absP alice 3 Hr Hwf) by done.
    assert (a_jobs absP !! 3 = Some job3) as -> by (vm_compute; reflexivity).
    rewrite decide_False by done. reflexivity. }
  split; [exact H|].
  apply (failed_scheduler_operation_changes_nothing worldP worldP ErrUnauthorized).
  right. left. exists (at_height 60), alice, 3. exact H.
Defined.

Lemma pending_and_due_views_witness :
  (forall c, length c = 20%nat ->
    StronglySorted Z.lt (PendingJobIDsByCreator (store worldP) c) /\
    (forall id, id ∈ PendingJobIDsByCreator (store worldP) c <->
       exists j, a_jobs absP !! id = Some j /\ Creator j = c) /\
    CountJobsByCreator (store worldP) c
      = u32 (Z.of_nat (length (PendingJobIDsByCreator (store worldP) c)))) /\
  (forall h, 0 <= h < 2 ^ 64 ->
    StronglySorted job_lt (IterateJobsDueAt (store worldP) h) /\
    forall j, j ∈ IterateJobsDueAt (store worldP) h <->
      a_jobs absP !! ID j = Some j /\ ExecuteAtBlock j = h).
Proof.
  apply (pending_and_due_views (store worldP) absP); apply worldP_inv.
Defined.

Lemma scheduler_genesis_roundtrip_witness :
  exists w', InitGenesis gs3 (mkWorld ∅ bank3 []) = (w', Ok tt) /\ ExportGenesis w' = (w', Ok gs3).
Proof.
  apply (scheduler_genesis_roundtrip gs3 (mkWorld ∅ bank3 []));
    [done|by vm_compute|done|apply gs3_jobs|repeat constructor].
Defined.

Lemma scheduler_readonly_changes_nothing_witness : worldP = worldP.
Proof.
  apply (scheduler_readonly_changes_nothing (cancel_abi 3) (at_height 60)
           (mkContract carol None [1; 2; 3; 4]) worldP worldP (Err ErrWriteProtection)).
  reflexivity.
Defined.
