(* ===== verification/Median.v ===== *)
(** The confidence-weighted median.

    [x/paxoracle]'s [GetMedianPrice] and the oracle precompile's [aggregate]
    contain the same computation: sort by price, add up the weights, and walk the
    sorted list until the running weight reaches half of the total.  Go's
    [sort.Slice] promises a sorted permutation and nothing about ties; the
    definitions take the sorting function as an argument. *)

From stdpp Require Import base list sorting.
From Stdlib Require Import ZArith Lia.
From S2P Require Import Prelude.
Open Scope Z_scope.

(** A sorting function: merge sort by price. *)
Definition price_le {A} (price : A -> Z) (a b : A) : Prop := price a <= price b.

#[export] Instance price_le_dec {A} (price : A -> Z) : RelDecision (price_le price).
Proof. intros a b. unfold price_le. apply _. Defined.

Definition sort_by {A} (price : A -> Z) : list A -> list A := merge_sort (price_le price).

Section Median.
Context {A : Type} (price weight : A -> Z).

(** What [sort.Slice(l, less)] documents. *)
Definition sorts (sort : list A -> list A) : Prop :=
  forall l, sort l ≡ₚ l /\ StronglySorted (fun a b => price a <= price b) (sort l).

(** The loop over the sorted list with [cumWeight] and [break]. *)
Fixpoint pick (half cum : Z) (l : list A) (dflt : Z) : Z :=
  match l with
  | [] => dflt
  | s :: l' =>
    let cum := cum + weight s in
    if half <=? cum then price s else pick half cum l' dflt
  end.

Definition half_weight (l : list A) : Z := go_div (sumZ weight l) 2.

(** [medianPrice := fresh[0].Price] and the loop; the caller guards the empty
    list. *)
Definition weighted_median (l : list A) : Z :=
  match l with
  | [] => 0
  | s :: _ => pick (half_weight l) 0 l (price s)
  end.

(** The weight of the entries priced at most [p]. *)
Definition weight_upto (p : Z) (l : list A) : Z :=
  sumZ (fun a => if price a <=? p then weight a else 0) l.

(** At least half of the weight is priced at most [p]; of an odd weight, half of one less. *)
Definition half_upto (l : list A) (p : Z) : Prop := sumZ weight l <= 2 * weight_upto p l + 1.

(** The least price of an entry at or below which half of the weight lies. *)
Definition is_median (l : list A) (p : Z) : Prop :=
  (exists a, a ∈ l /\ price a = p) /\ half_upto l p /\
  forall a, a ∈ l -> half_upto l (price a) -> p <= price a.

(** * Lemmas *)

Lemma half_weight_le l : 0 <= sumZ weight l -> 0 <= half_weight l <= sumZ weight l.
Proof.
  intros H. unfold half_weight. rewrite go_div_pos by lia.
  pose proof (Z.div_mod (sumZ weight l) 2 ltac:(lia)).
  pose proof (Z.mod_pos_bound (sumZ weight l) 2 ltac:(lia)). lia.
Qed.

(** The comparison of the loop. *)
Lemma half_weight_upto l n : half_weight l <= n <-> sumZ weight l <= 2 * n + 1.
Proof.
  unfold half_weight. rewrite go_div_pos by lia. pose proof (Z.div_mod (sumZ weight l) 2 ltac:(lia)).
  pose proof (Z.mod_pos_bound (sumZ weight l) 2 ltac:(lia)). lia.
Qed.

Lemma is_median_perm l1 l2 p : l1 ≡ₚ l2 -> is_median l1 p -> is_median l2 p.
Proof.
  intros H ((a & Ha & Hp) & Hw & Hmin). unfold is_median, half_upto, weight_upto in *. split_and!.
  - exists a. by rewrite <- H.
  - by rewrite <- !(sumZ_Permutation _ _ _ H).
  - intros b Hb. rewrite <- !(sumZ_Permutation _ _ _ H). apply Hmin. by rewrite H.
Qed.

Lemma is_median_unique l p q : is_median l p -> is_median l q -> p = q.
Proof.
  intros ((a & Ha & <-) & Hwa & Hma) ((b & Hb & <-) & Hwb & Hmb).
  specialize (Hma b Hb Hwb). specialize (Hmb a Ha Hwa). lia.
Qed.

Lemma weight_upto_app p l1 l2 : weight_upto p (l1 ++ l2) = weight_upto p l1 + weight_upto p l2.
Proof. apply sumZ_app. Qed.

Lemma weight_upto_all p l :
  Forall (fun a => price a <= p) l -> weight_upto p l = sumZ weight l.
Proof.
  unfold weight_upto, sumZ. induction 1 as [|a l Ha _ IH]; simpl; [done|].
  destruct (Z.leb_spec (price a) p); lia.
Qed.

Lemma weight_upto_none p l : Forall (fun a => p < price a) l -> weight_upto p l = 0.
Proof.
  unfold weight_upto, sumZ. induction 1 as [|a l Ha _ IH]; simpl; [done|].
  destruct (Z.leb_spec (price a) p); lia.
Qed.

Lemma weight_upto_bounds p l :
  Forall (fun a => 0 <= weight a) l -> 0 <= weight_upto p l <= sumZ weight l.
Proof.
  unfold weight_upto, sumZ. induction 1 as [|a l Ha _ IH]; simpl; [lia|].
  destruct (Z.leb_spec (price a) p); lia.
Qed.

(** The loop, from an arbitrary position: [pre] has been passed. *)
Lemma pick_spec dflt suf : forall pre,
  let l := pre ++ suf in
  StronglySorted (fun a b => price a <= price b) l ->
  Forall (fun a => 0 <= weight a) l ->
  pre = [] \/ sumZ weight pre < half_weight l ->
  suf <> [] ->
  is_median l (pick (half_weight l) (sumZ weight pre) suf dflt).
Proof.
  induction suf as [|s suf IH]; intros pre l Hs Hw Hpre Hne; [done|].
  assert (l = (pre ++ [s]) ++ suf) as Hl by (unfold l; by rewrite <- app_assoc).
  pose proof Hs as Hs'. rewrite Hl in Hs'.
  apply StronglySorted_app in Hs' as (Hcross & HsP & HsS).
  simpl. assert (sumZ weight pre + weight s = sumZ weight (pre ++ [s])) as ->
    by (rewrite sumZ_app; unfold sumZ; simpl; lia).
  destruct (Z.leb_spec (half_weight l) (sumZ weight (pre ++ [s]))) as [Hstop|Hgo].
  - (* the crossing entry *)
    assert (Forall (fun a => price a <= price s) (pre ++ [s])) as Hbelow.
    { apply Forall_app. split; [|by constructor]. apply Forall_forall. intros a Ha.
      apply (StronglySorted_app_1_elem_of _ _ _ a s HsP Ha). by left. }
    split_and!.
    + exists s. split; [|done]. unfold l. apply elem_of_app. right. by left.
    + apply half_weight_upto. rewrite Hl, weight_upto_app, (weight_upto_all _ _ Hbelow).
      rewrite Hl in Hw. apply Forall_app in Hw as [_ Hw].
      pose proof (weight_upto_bounds (price s) suf Hw). rewrite Hl in Hstop. lia.
    + intros a Ha Hwa%half_weight_upto. destruct (Z.le_gt_cases (price s) (price a)) as [|Hlt]; [done|]. exfalso.
      assert (pre <> []) as Hpne.
      { intros ->. simpl in l. unfold l in Ha. apply elem_of_cons in Ha as [->|Ha]; [lia|].
        pose proof (Hcross s a ltac:(by left) Ha). lia. }
      destruct Hpre as [|Hpre]; [done|].
      assert (Forall (fun b => price a < price b) (s :: suf)) as Habove.
      { constructor; [done|]. apply Forall_forall. intros b Hb.
        pose proof (Hcross s b ltac:(apply elem_of_app; right; by left) Hb). lia. }
      unfold l in Hwa at 2. rewrite weight_upto_app, (weight_upto_none _ _ Habove) in Hwa.
      apply Forall_app in Hw as [Hw _]. pose proof (weight_upto_bounds (price a) pre Hw). lia.
  - (* go on *)
    assert (suf <> []) as Hsuf.
    { intros ->. rewrite app_nil_r in Hl. rewrite <- Hl in Hgo.
      assert (0 <= sumZ weight l) by (by apply sumZ_nonneg). pose proof (half_weight_le l). lia. }
    specialize (IH (pre ++ [s])). rewrite <- Hl in IH. by apply IH; [..|right|].
Qed.

Lemma weighted_median_spec l :
  l <> [] -> StronglySorted (fun a b => price a <= price b) l ->
  Forall (fun a => 0 <= weight a) l -> is_median l (weighted_median l).
Proof.
  intros Hne Hs Hw. destruct l as [|s l]; [done|]. unfold weighted_median.
  apply (pick_spec (price s) (s :: l) []); [done|done|by left|done].
Qed.

(** Sorting first: the result is the median of the unsorted list, whatever the
    order of entries with equal prices. *)
Lemma sorted_median_spec sort l :
  sorts sort -> l <> [] -> Forall (fun a => 0 <= weight a) l ->
  is_median l (weighted_median (sort l)).
Proof.
  intros Hsort Hne Hw. destruct (Hsort l) as [Hp Hs].
  apply (is_median_perm (sort l)); [done|]. apply weighted_median_spec; [|done|by rewrite Hp].
  intros He. rewrite He in Hp. by apply Permutation_nil_l in Hp.
Qed.

(** The honest entry with the highest price. *)
Lemma max_honest (honest : A -> bool) (l : list A) :
  (forall a, a ∈ l -> honest a = false) \/
  exists a, a ∈ l /\ honest a = true /\ forall b, b ∈ l -> honest b = true -> price b <= price a.
Proof.
  induction l as [|x l IH]; [left; intros a Ha; by apply elem_of_nil in Ha|].
  destruct (honest x) eqn:Hx.
  - right. destruct IH as [Hno|(a & Ha & Hh & Hmax)].
    + exists x. split_and!; [by left|done|]. intros b Hb Hhb.
      apply elem_of_cons in Hb as [->|Hb]; [lia|]. rewrite Hno in Hhb; done.
    + destruct (Z.le_gt_cases (price x) (price a)).
      * exists a. split_and!; [by right|done|]. intros b Hb Hhb.
        apply elem_of_cons in Hb as [->|Hb]; [done|by apply Hmax].
      * exists x. split_and!; [by left|done|]. intros b Hb Hhb.
        apply elem_of_cons in Hb as [->|Hb]; [lia|]. specialize (Hmax b Hb Hhb). lia.
  - destruct IH as [Hno|(a & Ha & Hh & Hmax)]; [left|right].
    + intros a Ha. apply elem_of_cons in Ha as [->|Ha]; auto.
    + exists a. split_and!; [by right|done|]. intros b Hb Hhb.
      apply elem_of_cons in Hb as [->|Hb]; [congruence|by apply Hmax].
Qed.

(** Entries of less than half of the weight, rounded down, cannot move the median out
    of the range of the others. *)
Lemma median_robust l p (honest : A -> bool) lo hi :
  is_median l p -> Forall (fun a => 0 <= weight a) l ->
  Forall (fun a => honest a = true -> lo <= price a <= hi) l ->
  2 * sumZ (fun a => if honest a then 0 else weight a) l + 1 < sumZ weight l ->
  lo <= p <= hi.
Proof.
  intros (_ & Hw & Hmin) Hpos Hrange Hatt. rewrite Forall_forall in Hpos, Hrange. unfold half_upto in *.
  split.
  - destruct (Z.le_gt_cases lo p) as [|Hlt]; [done|]. exfalso.
    enough (weight_upto p l <= sumZ (fun a => if honest a then 0 else weight a) l) by lia.
    apply sumZ_le. intros a Ha. specialize (Hpos a Ha). specialize (Hrange a Ha).
    destruct (Z.leb_spec (price a) p), (honest a); lia.
  - destruct (max_honest honest l) as [Hno|(a & Ha & Hh & Hmax)].
    + exfalso. assert (0 <= sumZ weight l) by (by apply sumZ_nonneg, Forall_forall).
      enough (sumZ weight l <= sumZ (fun a => if honest a then 0 else weight a) l) by lia.
      apply sumZ_le. intros a Ha. rewrite (Hno a Ha). lia.
    + etransitivity; [apply (Hmin a Ha)|by apply Hrange].
      enough (sumZ weight l - sumZ (fun a => if honest a then 0 else weight a) l
              <= weight_upto (price a) l) as Hge by lia.
      enough (sumZ weight l <= sumZ (fun b => (if price b <=? price a then weight b else 0)
                + (if honest b then 0 else weight b)) l)
        by (rewrite sumZ_plus in *; unfold weight_upto; lia).
      apply sumZ_le. intros b Hb. specialize (Hpos b Hb). specialize (Hmax b Hb).
      destruct (Z.leb_spec (price b) (price a)), (honest b); lia.
Qed.

End Median.

Lemma sort_by_sorts {A} (price : A -> Z) : sorts price (sort_by price).
Proof.
  assert (Transitive (price_le price)) by (intros a b c; unfold price_le; lia).
  assert (Total (price_le price)) by (intros a b; unfold price_le; lia).
  intros l. split; [apply merge_sort_Permutation|].
  apply (StronglySorted_merge_sort (price_le price)).
Qed.
