(* ===== verification/PaxOracle.v ===== *)
(** [x/paxoracle]: validator price attestations and their weighted median.

    Data and keys ([types/genesis.go], [types/keys.go], [types/params.go]), the
    store operations and the median ([keeper/price.go], [keeper/params.go],
    [keeper/keeper.go]), the message handler ([keeper/msg_server.go], the checks
    of [types/msgs.go]) and genesis ([keeper/genesis.go]).  The staking keeper and
    the bech32 codec are parameters. *)

From stdpp Require Import base list gmap strings sorting.
From Stdlib Require Import ZArith Lia.
From S2P Require Import Prelude KVStore BigInt Ledger Median.
Open Scope Z_scope.
Open Scope go_scope.

(** * Data *)

(** [string(b)] of a byte slice. *)
Fixpoint bytes_str (b : bytes) : string :=
  match b with
  | [] => EmptyString
  | x :: b' => String (Ascii.ascii_of_nat (Z.to_nat x)) (bytes_str b')
  end.

(** A market id is an array of 32 bytes. *)
Definition zero_market : bytes := replicate 32 0.

Record PriceSubmission := mkSubmission {
  ValidatorAddr : string;
  MarketId : bytes;
  Price : Z;
  Confidence : Z;
  SubHeight : Z;
  Timestamp : Z
}.

(** The stored form [priceSubmissionJSON]: amounts as decimal strings. *)
Record priceSubmissionJSON := mkJSON {
  js_v : string;
  js_p : string;
  js_c : string;
  js_h : Z;
  js_t : Z
}.

Record SupportedMarket := mkMarket { sm_MarketId : bytes; sm_Ticker : string }.

Record Params := mkParams { StalenessThreshold : Z; MinQuorum : Z }.

Definition DefaultParams : Params := mkParams 15 1.

(** [DefaultMaxConfidence] *)
Definition DefaultMaxConfidence : Z := 10 ^ 18.

Definition Params_Validate (p : Params) : bool :=
  negb (StalenessThreshold p <=? 0) && negb (MinQuorum p =? 0).

Inductive error :=
| ErrInvalidMarketId
| ErrInvalidPrice
| ErrInvalidConfidence
| ErrNotValidator
| ErrMarketNotSupported
| ErrInsufficientQuorum
| ErrStaleSubmissions
| ErrInvalidSigner
| ErrInvalidAddress
| ErrInvalidParams.

(** The attributes of [paxoracle_price_submitted].  Only the precompile adds
    [market_id], kept as the bytes whose hexadecimal form the code writes. *)
Inductive event :=
| PriceSubmitted (validator : string) (market_id : option bytes) (price : string)
    (block_height : Z).

(** [MsgSubmitPrice] *)
Record MsgSubmitPrice := mkMsg {
  msg_Signer : string;
  msg_MarketId : bytes;
  msg_Price : string;
  msg_Confidence : string
}.

(** * Store keys *)

Definition PriceSubmissionKeyPrefix : bytes := [1].
Definition ParamsKey : bytes := [2].
Definition SupportedMarketKeyPrefix : bytes := [3].

Definition PriceSubmissionsByMarketPrefix (marketId : bytes) : bytes :=
  PriceSubmissionKeyPrefix ++ marketId.

Definition PriceSubmissionKey (marketId valAddr : bytes) : bytes :=
  PriceSubmissionKeyPrefix ++ marketId ++ valAddr.

Definition SupportedMarketKey (marketId : bytes) : bytes := SupportedMarketKeyPrefix ++ marketId.

Inductive val :=
| VSub (d : priceSubmissionJSON)
| VParams (p : Params)
| VMarket (m : SupportedMarket).

Abbreviation kv := (gmap bytes val).
Abbreviation world := (Ledger.world val event).

(** The staking keeper, and the account-address codec of the SDK. *)
Class StakingKeeper (X : Type) := {
  (** [GetValidator(ctx, sdk.ValAddress(acc))]: found or not. *)
  GetValidator : X -> bytes -> bool;
  AccAddressFromBech32 : string -> option bytes;
  (** [sdk.AccAddress.String] *)
  AccAddressString : bytes -> string
}.

(** * [keeper/price.go], [keeper/params.go] *)

Definition GetParams (st : kv) : Params :=
  match st !! ParamsKey with
  | Some (VParams p) => p
  | _ => DefaultParams
  end.

Definition SetPriceSubmission_store (sub : PriceSubmission) (st : kv) : kv :=
  <[PriceSubmissionKey (MarketId sub) (str_bytes (ValidatorAddr sub)) :=
      VSub (mkJSON (ValidatorAddr sub) (BigString (Price sub)) (BigString (Confidence sub))
              (SubHeight sub) (Timestamp sub))]> st.

(** The stored JSON back to a submission of [marketId]; [None] when an amount does
    not parse. *)
Definition from_json (marketId : bytes) (d : priceSubmissionJSON) : option PriceSubmission :=
  match SetString (js_p d), SetString (js_c d) with
  | Some price, Some confidence =>
    Some (mkSubmission (js_v d) marketId price confidence (js_h d) (js_t d))
  | _, _ => None
  end.

Definition GetPriceSubmission (st : kv) (marketId : bytes) (valAddr : string) :
    option PriceSubmission :=
  match st !! PriceSubmissionKey marketId (str_bytes valAddr) with
  | Some (VSub d) => from_json marketId d
  | _ => None
  end.

Definition GetAllSubmissionsForMarket (st : kv) (marketId : bytes) : list PriceSubmission :=
  omap (fun e : bytes * val => match e.2 with VSub d => from_json marketId d | _ => None end)
       (prefix_iter (PriceSubmissionsByMarketPrefix marketId) st).

(** The market id is read back from the key, which is relative to the prefix. *)
Definition GetAllSubmissions (st : kv) : list PriceSubmission :=
  omap (fun e : bytes * val =>
          match e.2 with
          | VSub d =>
            let keyBytes := drop 1 e.1 in
            if Nat.ltb (length keyBytes) 32 then None else from_json (take 32 keyBytes) d
          | _ => None
          end)
       (prefix_iter PriceSubmissionKeyPrefix st).

(** [oldestTimestamp] over [fresh[0]] and the rest. *)
Definition oldest (first : Z) (l : list PriceSubmission) : Z :=
  foldl (fun o sub => if Timestamp sub <? o then Timestamp sub else o) first l.

(** [GetMedianPrice]: price, quorum and oldest timestamp.  [sort] is [sort.Slice]
    by price. *)
Definition GetMedianPrice (sort : list PriceSubmission -> list PriceSubmission)
    (ctx : Ctx) (st : kv) (marketId : bytes) : result error (Z * Z * Z) :=
  let params := GetParams st in
  let submissions := GetAllSubmissionsForMarket st marketId in
  let fresh := filter (fun sub => i64 (BlockHeight ctx - SubHeight sub) <= StalenessThreshold params)
                 submissions in
  match fresh with
  | [] => Err ErrStaleSubmissions
  | _ =>
    if Z.of_nat (length fresh) <? MinQuorum params then Err ErrInsufficientQuorum
    else
      let fresh := sort fresh in
      match fresh with
      | [] => Panic
      | s0 :: rest =>
        let medianPrice := weighted_median Price Confidence fresh in
        Ok (medianPrice, Z.of_nat (length fresh), oldest (Timestamp s0) rest)
      end
  end.

Definition SetSupportedMarket_store (m : SupportedMarket) (st : kv) : kv :=
  <[SupportedMarketKey (sm_MarketId m) := VMarket m]> st.

Definition IsSupportedMarket (st : kv) (marketId : bytes) : bool :=
  bool_decide (is_Some (st !! SupportedMarketKey marketId)).

Definition GetAllSupportedMarkets (st : kv) : list SupportedMarket :=
  omap (fun e : bytes * val => match e.2 with VMarket m => Some m | _ => None end)
       (prefix_iter SupportedMarketKeyPrefix st).

(** * [types/msgs.go]: the checks *)

(** [copy(id[:], msg.MarketId)] into 32 zero bytes. *)
Definition GetMarketIdArray (msg : MsgSubmitPrice) : bytes :=
  take 32 (msg_MarketId msg ++ replicate 32 0).

Definition GetPriceBigInt (msg : MsgSubmitPrice) : option Z := SetString (msg_Price msg).
Definition GetConfidenceBigInt (msg : MsgSubmitPrice) : option Z := SetString (msg_Confidence msg).

Definition ValidateBasic {X} {SK : StakingKeeper X} (msg : MsgSubmitPrice) : result error unit :=
  match AccAddressFromBech32 (msg_Signer msg) with
  | None => Err ErrInvalidAddress
  | Some _ =>
    if negb (Nat.eqb (length (msg_MarketId msg)) 32) then Err ErrInvalidMarketId
    else if bool_decide (msg_MarketId msg = zero_market) then Err ErrInvalidMarketId
    else match GetPriceBigInt msg with
    | None => Err ErrInvalidPrice
    | Some price =>
      if price <=? 0 then Err ErrInvalidPrice
      else match GetConfidenceBigInt msg with
      | None => Err ErrInvalidConfidence
      | Some confidence =>
        if (confidence <=? 0) || (DefaultMaxConfidence <? confidence) then Err ErrInvalidConfidence
        else Ok tt
      end
    end
  end.

(** * [keeper/msg_server.go], [keeper/keeper.go], [keeper/genesis.go] *)

Section Keeper.
Context {X : Type} {SK : StakingKeeper X}.

Abbreviation St := (M (world X) error).

Definition SetParams (p : Params) : St unit :=
  if negb (Params_Validate p) then fail ErrInvalidParams
  else update_store (fun st => <[ParamsKey := VParams p]> st).

Definition IsValidator (x : X) (accAddr : bytes) : bool := GetValidator x accAddr.

Definition SetPriceSubmission (sub : PriceSubmission) : St unit :=
  update_store (SetPriceSubmission_store sub).

(** Once a message is in a block, [ValidateBasic] has accepted it; the handler
    does not repeat its checks. *)
Definition SubmitPrice (ctx : Ctx) (msg : MsgSubmitPrice) : St unit :=
  match AccAddressFromBech32 (msg_Signer msg) with
  | None => fail ErrInvalidSigner
  | Some signerAddr =>
    let! x := gets ext in
    guard (GetValidator x signerAddr) ErrNotValidator ;;
    let marketId := GetMarketIdArray msg in
    let! st := gets store in
    guard (negb (negb (bool_decide (GetAllSupportedMarkets st = [])) &&
                 negb (IsSupportedMarket st marketId))) ErrMarketNotSupported ;;
    match GetPriceBigInt msg with
    | None => fail ErrInvalidPrice
    | Some price =>
      match GetConfidenceBigInt msg with
      | None => fail ErrInvalidConfidence
      | Some confidence =>
        SetPriceSubmission (mkSubmission (msg_Signer msg) marketId price confidence
                              (BlockHeight ctx) (BlockTime ctx)) ;;
        EmitEvent (PriceSubmitted (msg_Signer msg) None (msg_Price msg) (BlockHeight ctx))
      end
    end
  end.

Record GenesisState := mkGenesis {
  gs_Params : Params;
  gs_Markets : list SupportedMarket;
  gs_Submissions : list PriceSubmission
}.

Fixpoint validate_markets (seen : list bytes) (ms : list SupportedMarket) : bool :=
  match ms with
  | [] => true
  | m :: ms' =>
    if bool_decide (sm_MarketId m = zero_market) then false
    else if bool_decide (sm_MarketId m ∈ seen) then false
    else validate_markets (sm_MarketId m :: seen) ms'
  end.

Definition GenesisState_Validate (gs : GenesisState) : bool :=
  Params_Validate (gs_Params gs) && validate_markets [] (gs_Markets gs).

(** [InitGenesis] panics where [SetParams] returns an error. *)
Definition InitGenesis (gs : GenesisState) : St unit :=
  fun w =>
    match SetParams (gs_Params gs) w with
    | (w', Ok _) =>
      update_store (fun st =>
        foldl (fun st s => SetPriceSubmission_store s st)
          (foldl (fun st m => SetSupportedMarket_store m st) st (gs_Markets gs))
          (gs_Submissions gs)) w'
    | (w', _) => (w', Panic)
    end.

Definition ExportGenesis (st : kv) : GenesisState :=
  mkGenesis (GetParams st) (GetAllSupportedMarkets st) (GetAllSubmissions st).

End Keeper.

(** * What a store may hold *)

(** Every submission entry is what [SetPriceSubmission] writes: filed under its
    own validator string, with amounts that parse. *)
Definition wf_store (st : kv) : Prop :=
  forall k v, st !! k = Some v -> is_prefix PriceSubmissionKeyPrefix k = true ->
    exists m s, k = PriceSubmissionKey m (str_bytes (ValidatorAddr s)) /\ length m = 32%nat /\
      MarketId s = m /\
      v = VSub (mkJSON (ValidatorAddr s) (BigString (Price s)) (BigString (Confidence s))
                  (SubHeight s) (Timestamp s)).

(** The fresh submissions of a market, as [GetMedianPrice] filters them. *)
Definition fresh_submissions (ctx : Ctx) (st : kv) (m : bytes) : list PriceSubmission :=
  filter (fun sub => i64 (BlockHeight ctx - SubHeight sub) <= StalenessThreshold (GetParams st))
    (GetAllSubmissionsForMarket st m).
