(* ===== verification/PaxOracleProps.v ===== *)
(** [x/paxoracle]: what the submissions and their median guarantee. *)

From stdpp Require Import base list gmap strings sorting.
From Stdlib Require Import ZArith Lia.
From S2P Require Import Prelude KVStore BigInt Ledger Median PaxOracle.
Open Scope Z_scope.
Open Scope go_scope.

(** The stored form of a submission. *)
Definition to_json (s : PriceSubmission) : priceSubmissionJSON :=
  mkJSON (ValidatorAddr s) (BigString (Price s)) (BigString (Confidence s)) (SubHeight s) (Timestamp s).

(** [ts] is the least timestamp of [l]. *)
Definition is_oldest (l : list PriceSubmission) (ts : Z) : Prop :=
  (exists s, s ∈ l /\ Timestamp s = ts) /\ forall s, s ∈ l -> ts <= Timestamp s.

(** * Keys and the stored form *)

Lemma PriceSubmissionKey_inj m m' v v' :
  length m = 32%nat -> length m' = 32%nat ->
  PriceSubmissionKey m (str_bytes v) = PriceSubmissionKey m' (str_bytes v') -> m = m' /\ v = v'.
Proof.
  intros Hm Hm' H. apply app_inv_head in H. apply app_inj_1 in H as [-> H]; [|lia].
  split; [done|]. by apply str_bytes_inj.
Qed.

Lemma from_to_json s : from_json (MarketId s) (to_json s) = Some s.
Proof. unfold from_json, to_json; simpl. rewrite !SetString_BigString. by destruct s. Qed.

Lemma wf_store_empty : wf_store ∅.
Proof. intros k v H. by rewrite lookup_empty in H. Qed.

Lemma wf_store_set s st :
  length (MarketId s) = 32%nat -> wf_store st -> wf_store (SetPriceSubmission_store s st).
Proof.
  intros Hm Hwf k v H Hp. unfold SetPriceSubmission_store in H. apply lookup_insert_Some in H as [[<- <-]|[_ H]]; [|by eapply Hwf].
  by exists (MarketId s), s.
Qed.

(** What the iteration over a market yields. *)
Lemma elem_of_submissions st m s :
  wf_store st -> length m = 32%nat ->
  s ∈ GetAllSubmissionsForMarket st m <->
  MarketId s = m /\ st !! PriceSubmissionKey m (str_bytes (ValidatorAddr s)) = Some (VSub (to_json s)).
Proof.
  intros Hwf Hm. unfold GetAllSubmissionsForMarket. rewrite list_elem_of_omap. split.
  - intros ([k v] & Hkv & Hs). apply elem_of_prefix_iter in Hkv as [Hk Hp]. simpl in Hs.
    apply is_prefix_true in Hp as [sfx Hp].
    destruct (Hwf k v Hk) as (m' & s' & Hk' & Hm' & Hms & ->).
    { rewrite Hp. apply is_prefix_true. by eexists. }
    fold (to_json s') in *. subst m'.
    rewrite Hk' in Hp. unfold PriceSubmissionsByMarketPrefix, PriceSubmissionKey in Hp.
    rewrite <- app_assoc in Hp. apply app_inv_head in Hp.
    apply app_inj_1 in Hp as [Hmm _]; [|lia]. rewrite Hmm in *. rewrite <- Hmm in Hs.
    rewrite from_to_json in Hs. injection Hs as ->. split; [done|]. by rewrite <- Hk'.
  - intros [<- Hk]. exists (PriceSubmissionKey (MarketId s) (str_bytes (ValidatorAddr s)), VSub (to_json s)).
    split; [|apply from_to_json]. apply elem_of_prefix_iter. split; [done|].
    apply is_prefix_true. exists (str_bytes (ValidatorAddr s)).
    unfold PriceSubmissionKey, PriceSubmissionsByMarketPrefix. by rewrite <- app_assoc.
Qed.

Lemma NoDup_omap_inj {A B} (f : A -> option B) (l : list A) :
  (forall x y b, x ∈ l -> y ∈ l -> f x = Some b -> f y = Some b -> x = y) ->
  NoDup l -> NoDup (omap f l).
Proof.
  intros Hinj. induction 1 as [|x l Hx Hnd IH]; [constructor|]. cbn.
  assert (NoDup (omap f l)) as IH' by (apply IH; intros; eapply Hinj; eauto using list_elem_of_further).
  destruct (f x) as [b|] eqn:Hb; [|done]. constructor; [|done].
  intros Hin. apply list_elem_of_omap in Hin as (y & Hy & Hfy).
  assert (x = y) as ->; [|done]. eapply Hinj; eauto using list_elem_of_here, list_elem_of_further.
Qed.

Lemma NoDup_submissions st m :
  wf_store st -> length m = 32%nat -> NoDup (GetAllSubmissionsForMarket st m).
Proof.
  intros Hwf Hm. apply NoDup_omap_inj; [|apply NoDup_prefix_iter].
  assert (forall e s, e ∈ prefix_iter (PriceSubmissionsByMarketPrefix m) st ->
    match e.2 with VSub d => from_json m d | _ => None end = Some s ->
    e = (PriceSubmissionKey m (str_bytes (ValidatorAddr s)), VSub (to_json s))) as He.
  { intros [k v] s Hin Hs. apply elem_of_prefix_iter in Hin as [Hk Hp]. simpl in Hs.
    apply is_prefix_true in Hp as [sfx Hp].
    destruct (Hwf k v Hk) as (m' & s' & Hk' & Hm' & Hms & ->).
    { rewrite Hp. apply is_prefix_true. by eexists. }
    fold (to_json s') in *. rewrite Hk' in Hp. subst m'.
    unfold PriceSubmissionsByMarketPrefix, PriceSubmissionKey in Hp.
    rewrite <- app_assoc in Hp. apply app_inv_head in Hp.
    apply app_inj_1 in Hp as [Hmm _]; [|lia]. rewrite <- Hmm, from_to_json in Hs.
    injection Hs as <-. by rewrite Hk', Hmm. }
  intros x y s Hx Hy Hsx Hsy. by rewrite (He x s Hx Hsx), (He y s Hy Hsy).
Qed.

(** * One current submission per signer *)

Lemma submissions_set s st :
  wf_store st -> length (MarketId s) = 32%nat ->
  GetAllSubmissionsForMarket (SetPriceSubmission_store s st) (MarketId s)
    ≡ₚ s :: filter (fun t => ValidatorAddr t <> ValidatorAddr s)
              (GetAllSubmissionsForMarket st (MarketId s)).
Proof.
  intros Hwf Hm. pose proof (wf_store_set s st Hm Hwf) as Hwf'.
  apply NoDup_Permutation; [by apply NoDup_submissions| |].
  - constructor; [|by apply NoDup_filter, NoDup_submissions].
    rewrite list_elem_of_filter. by intros [? _].
  - intros t. rewrite elem_of_cons, list_elem_of_filter, !elem_of_submissions by done.
    unfold SetPriceSubmission_store. fold (to_json s).
    destruct (decide (ValidatorAddr t = ValidatorAddr s)) as [He|Hne].
    + rewrite He, lookup_insert_eq. split; [|naive_solver].
      intros [Hmt [= Hv Hp Hc Hh Ht]]. left. apply BigString_inj in Hp, Hc.
      destruct s, t; simpl in *; congruence.
    + rewrite lookup_insert_ne; [naive_solver|].
      intros Hk. apply PriceSubmissionKey_inj in Hk as [_ Hk]; done || congruence.
Qed.

Lemma submissions_set_other s st m :
  length (MarketId s) = 32%nat -> length m = 32%nat -> m <> MarketId s ->
  GetAllSubmissionsForMarket (SetPriceSubmission_store s st) m = GetAllSubmissionsForMarket st m.
Proof.
  intros Hm Hml Hne. unfold GetAllSubmissionsForMarket. f_equal. apply prefix_iter_insert_ne.
  destruct (is_prefix _ _) eqn:Hp; [|done]. exfalso. apply is_prefix_true in Hp as [sfx Hp].
  unfold PriceSubmissionKey, PriceSubmissionsByMarketPrefix in Hp.
  rewrite <- app_assoc in Hp. apply app_inv_head in Hp.
  apply app_inj_1 in Hp as [Hp _]; [done|lia].
Qed.

Lemma GetParams_set s st : GetParams (SetPriceSubmission_store s st) = GetParams st.
Proof.
  unfold GetParams, SetPriceSubmission_store. rewrite lookup_insert_ne; [done|].
  unfold PriceSubmissionKey, PriceSubmissionKeyPrefix, ParamsKey. simpl. congruence.
Qed.

(** A submission replaces the one the same signer string had for the market,
    and touches nothing else: the market's submissions are the new one and the
    old ones of the other signers, and those of every other market stay the
    same, in the same order. *)
Theorem submission_replaces_own s st :
  wf_store st -> length (MarketId s) = 32%nat ->
  wf_store (SetPriceSubmission_store s st) /\
  GetAllSubmissionsForMarket (SetPriceSubmission_store s st) (MarketId s)
    ≡ₚ s :: filter (fun t => ValidatorAddr t <> ValidatorAddr s)
              (GetAllSubmissionsForMarket st (MarketId s)) /\
  forall m, length m = 32%nat -> m <> MarketId s ->
    GetAllSubmissionsForMarket (SetPriceSubmission_store s st) m = GetAllSubmissionsForMarket st m.
Proof.
  intros Hwf Hm. split_and!; [by apply wf_store_set|by apply submissions_set|].
  intros m. by apply submissions_set_other.
Qed.

(** * The median *)

Lemma oldest_spec l : forall first,
  oldest first l <= first /\ (forall s, s ∈ l -> oldest first l <= Timestamp s) /\
  (oldest first l = first \/ exists s, s ∈ l /\ Timestamp s = oldest first l).
Proof.
  unfold oldest. induction l as [|s l IH]; intros first; cbn.
  - split_and!; [lia|intros s Hs; by apply elem_of_nil in Hs|by left].
  - destruct (Z.ltb_spec (Timestamp s) first);
      edestruct IH as (H1 & H2 & H3); (split_and!;
        [etransitivity; [apply H1|lia]
        |intros t Ht; apply elem_of_cons in Ht as [->|Ht]; [etransitivity; [apply H1|lia]|by apply H2]|]).
    + right. destruct H3 as [->|(t & Ht & He)]; [exists s; split; [by left|done]|].
      exists t. split; [by right|done].
    + destruct H3 as [->|(t & Ht & He)]; [by left|]. right. exists t. split; [by right|done].
Qed.

Lemma oldest_is_oldest l l' s0 rest :
  l ≡ₚ l' -> l = s0 :: rest -> is_oldest l' (oldest (Timestamp s0) rest).
Proof.
  intros Hp ->. destruct (oldest_spec rest (Timestamp s0)) as (H1 & H2 & H3). split.
  - destruct H3 as [->|(t & Ht & He)].
    + exists s0. split; [|done]. rewrite <- Hp. by left.
    + exists t. split; [|done]. rewrite <- Hp. by right.
  - intros t Ht. rewrite <- Hp in Ht. apply elem_of_cons in Ht as [->|Ht]; [done|by apply H2].
Qed.

Lemma median_cases sort ctx st m :
  sorts Price sort ->
  Forall (fun s => 0 <= Confidence s) (fresh_submissions ctx st m) ->
  let fresh := fresh_submissions ctx st m in
  (fresh = [] /\ GetMedianPrice sort ctx st m = Err ErrStaleSubmissions) \/
  (fresh <> [] /\ Z.of_nat (length fresh) < MinQuorum (GetParams st) /\
     GetMedianPrice sort ctx st m = Err ErrInsufficientQuorum) \/
  (fresh <> [] /\ MinQuorum (GetParams st) <= Z.of_nat (length fresh) /\
     exists p ts, GetMedianPrice sort ctx st m = Ok (p, Z.of_nat (length fresh), ts) /\
       is_median Price Confidence fresh p /\ is_oldest fresh ts).
Proof.
  intros Hsort Hpos fresh. unfold GetMedianPrice. fold (fresh_submissions ctx st m). fold fresh.
  destruct fresh as [|s l] eqn:Hf; [by left|right].
  destruct (Z.ltb_spec (Z.of_nat (length (s :: l))) (MinQuorum (GetParams st))); [by left|right].
  split; [done|]. split; [done|].
  destruct (Hsort (s :: l)) as [Hp Hs].
  pose proof (sorted_median_spec Price Confidence sort (s :: l) Hsort ltac:(done)
                ltac:(rewrite <- Hf; exact Hpos)) as Hmed.
  destruct (sort (s :: l)) as [|s0 rest] eqn:Hsl; [by apply Permutation_nil_l in Hp|].
  do 2 eexists. split; [by rewrite (Permutation_length Hp)|]. split; [done|].
  by apply (oldest_is_oldest (s0 :: rest)).
Qed.

(** C19: [GetMedianPrice] decides as documented on every input with
    non-negative confidences, whatever order [sort.Slice] leaves equal prices
    in: without fresh submissions, or with fewer than the quorum, it returns the
    two errors; otherwise the least attested price at or below which half of the
    confidence lies (of an odd total, half of one unit less), the number of fresh
    submissions, and their oldest timestamp.  Two sorting functions never disagree
    on the result. *)
Theorem median_price_correct sort sort' ctx st m :
  sorts Price sort -> sorts Price sort' ->
  Forall (fun s => 0 <= Confidence s) (fresh_submissions ctx st m) ->
  let fresh := fresh_submissions ctx st m in
  ((fresh = [] /\ GetMedianPrice sort ctx st m = Err ErrStaleSubmissions) \/
   (fresh <> [] /\ Z.of_nat (length fresh) < MinQuorum (GetParams st) /\
      GetMedianPrice sort ctx st m = Err ErrInsufficientQuorum) \/
   (fresh <> [] /\ MinQuorum (GetParams st) <= Z.of_nat (length fresh) /\
      exists p ts, GetMedianPrice sort ctx st m = Ok (p, Z.of_nat (length fresh), ts) /\
        is_median Price Confidence fresh p /\ is_oldest fresh ts)) /\
  GetMedianPrice sort' ctx st m = GetMedianPrice sort ctx st m.
Proof.
  intros Hs Hs' Hpos fresh. split; [by apply median_cases|].
  destruct (median_cases sort ctx st m Hs Hpos) as
    [[He ->]|[(He & Hq & ->)|(He & Hq & p & ts & -> & Hp & Ht)]];
  destruct (median_cases sort' ctx st m Hs' Hpos) as
    [[He' ->]|[(He' & Hq' & ->)|(He' & Hq' & p' & ts' & -> & Hp' & Ht')]]; try done; try lia.
  rewrite (is_median_unique _ _ _ _ _ Hp' Hp).
  assert (ts' = ts) as ->; [|done].
  destruct Ht as [(s & Hin & <-) Hmin], Ht' as [(s' & Hin' & <-) Hmin'].
  specialize (Hmin s' Hin'). specialize (Hmin' s Hin). lia.
Qed.

(** C30: manipulation resistance.  If the prices of the honest submissions lie in
    a range and the others, doubled, carry at least two units less than all of the
    fresh confidence, the median lies in that range.  One unit less is not enough,
    because the code rounds half of the total down. *)
Theorem median_resists_minority sort ctx st m (honest : PriceSubmission -> bool) lo hi p q ts :
  sorts Price sort ->
  Forall (fun s => 0 <= Confidence s) (fresh_submissions ctx st m) ->
  Forall (fun s => honest s = true -> lo <= Price s <= hi) (fresh_submissions ctx st m) ->
  2 * sumZ (fun s => if honest s then 0 else Confidence s) (fresh_submissions ctx st m) + 1
    < sumZ Confidence (fresh_submissions ctx st m) ->
  GetMedianPrice sort ctx st m = Ok (p, q, ts) ->
  lo <= p <= hi.
Proof.
  intros Hs Hpos Hhon Hatt Hget.
  destruct (median_cases sort ctx st m Hs Hpos) as
    [[He E]|[(He & Hq & E)|(He & Hq & p' & ts' & E & Hp & Ht)]]; rewrite E in Hget; try done.
  injection Hget as <- _ _. by eapply (median_robust Price Confidence).
Qed.
