(* ===== verification/PaxOraclePrecompile.v ===== *)
(** [precompiles/paxspot/oracle]: the EVM entry point of [x/paxoracle] (address
    0x0903): the stateless aggregation of feeds, the median of the validators'
    submissions, and submission from an EVM transaction. *)

From stdpp Require Import base list gmap strings sorting.
From Stdlib Require Import ZArith Lia.
From S2P Require Import Prelude KVStore BigInt Ledger Precompile Median PaxOracle PaxOracleProps.
Open Scope Z_scope.
Open Scope go_scope.

Definition IsTransaction (method : string) : bool := bool_decide (method = "submitPrice").

Definition method_gas (name : string) : Z :=
  if bool_decide (name = "aggregate") then 20 + 5 * 5
  else if bool_decide (name = "getValidatorPrice") then 100
  else if bool_decide (name = "submitPrice") then 300
  else 0.

Definition RequiredGas (abi : ABI) (input : bytes) : Z :=
  if Nat.ltb (length input) 4 then 0
  else match MethodById abi (take 4 input) with
       | None => 0
       | Some m => method_gas (Name m)
       end.

Record priceFeed := mkFeed { feed_Price : Z; feed_Confidence : Z; feed_Timestamp : Z }.

(** The feeds of an ABI array of tuples. *)
Fixpoint decode_feeds (l : list abi_value) : option (list priceFeed) :=
  match l with
  | [] => Some []
  | ATuple [ABig p; ABig c; ABig t] :: l' => cons (mkFeed p c t) <$> decode_feeds l'
  | _ => None
  end.

(** [minConfidence] over the feeds, starting from the first one's. *)
Definition min_confidence (first : Z) (l : list priceFeed) : Z :=
  foldl (fun m f => if feed_Confidence f <? m then feed_Confidence f else m) first l.

(** [aggregate] on decoded feeds: price and confidence, [None] where it returns
    an error. *)
Definition aggregate_feeds (sort : list priceFeed -> list priceFeed) (raw : list priceFeed) :
    option (Z * Z) :=
  let feeds := filter (fun f => 0 < feed_Confidence f) raw in
  match feeds with
  | [] => None
  | [f] => Some (feed_Price f, feed_Confidence f)
  | _ =>
    let feeds := sort feeds in
    match feeds with
    | [] => None
    | f0 :: _ =>
      Some (weighted_median feed_Price feed_Confidence feeds,
            min_confidence (feed_Confidence f0) feeds)
    end
  end.

(** The keeper's errors, and the checks of the handlers. *)
Inductive oracle_error :=
| OErrNoFeeds
| OErrNotValidator
| OErrMedian (e : error).

Section Handlers.
Context {X : Type} {SK : StakingKeeper X}.
Variable sort_subs : list PriceSubmission -> list PriceSubmission.
Variable sort_feeds : list priceFeed -> list priceFeed.

Abbreviation H := (M (world X) (perror oracle_error) (list abi_value)).

(** [args[0]] of an empty slice is an index-out-of-range panic. *)
Definition aggregate (args : list abi_value) : H :=
  match args with
  | [] => panic
  | AList l :: _ =>
    match decode_feeds l with
    | None => fail ErrArgType
    | Some [] => fail (ErrKeeper OErrNoFeeds)
    | Some raw =>
      match aggregate_feeds sort_feeds raw with
      | None => fail (ErrKeeper OErrNoFeeds)
      | Some (p, c) => ret [ABig p; ABig c]
      end
    end
  | _ => fail ErrArgType
  end.

Definition getValidatorPrice (ctx : Ctx) (args : list abi_value) : H :=
  match args with
  | [] => panic
  | ABytes32 marketId :: _ =>
    let! st := gets store in
    match GetMedianPrice sort_subs ctx st marketId with
    | Ok (price, quorum, timestamp) => ret [ABig price; ABig quorum; ABig timestamp]
    | Err e => fail (ErrKeeper (OErrMedian e))
    | Panic => panic
    end
  | _ => fail ErrArgType
  end.

Definition submitPrice (ctx : Ctx) (contract : Contract) (args : list abi_value) : H :=
  match args with
  | [a0; a1; a2] =>
    match a0 with ABytes32 marketId =>
    match a1 with ABig price =>
    match a2 with ABig confidence =>
      let callerAccAddr := CallerAddress contract in
      let! x := gets ext in
      guard (IsValidator x callerAccAddr) (ErrKeeper OErrNotValidator) ;;
      update_store (SetPriceSubmission_store
        (mkSubmission (AccAddressString callerAccAddr) marketId price confidence
           (BlockHeight ctx) (BlockTime ctx))) ;;
      EmitEvent (PriceSubmitted (AccAddressString callerAccAddr) (Some marketId) (BigString price)
                   (BlockHeight ctx)) ;;
      ret [ABool true]
    | _ => fail ErrArgType end | _ => fail ErrArgType end | _ => fail ErrArgType end
  | _ => fail ErrArgCount
  end.

Definition Run (abi : ABI) (ctx : Ctx) (contract : Contract) (readOnly : bool) : H :=
  match RunSetup abi contract readOnly IsTransaction with
  | Err e => fail e
  | Panic => panic
  | Ok (method, args) =>
    let n := Name method in
    if bool_decide (n = "aggregate") then aggregate args
    else if bool_decide (n = "getValidatorPrice") then getValidatorPrice ctx args
    else if bool_decide (n = "submitPrice") then submitPrice ctx contract args
    else fail ErrUnknownMethod
  end.

End Handlers.

(** * Aggregation *)

Lemma min_confidence_spec l : forall first,
  min_confidence first l <= first /\ (forall f, f ∈ l -> min_confidence first l <= feed_Confidence f) /\
  (min_confidence first l = first \/ exists f, f ∈ l /\ feed_Confidence f = min_confidence first l).
Proof.
  unfold min_confidence. induction l as [|f l IH]; intros first; cbn.
  - split_and!; [lia|intros f Hf; by apply elem_of_nil in Hf|by left].
  - destruct (Z.ltb_spec (feed_Confidence f) first);
      edestruct IH as (H1 & H2 & H3); (split_and!;
        [etransitivity; [apply H1|lia]
        |intros g Hg; apply elem_of_cons in Hg as [->|Hg]; [etransitivity; [apply H1|lia]|by apply H2]|]).
    + right. destruct H3 as [->|(g & Hg & He)]; [exists f; split; [by left|done]|].
      exists g. split; [by right|done].
    + destruct H3 as [->|(g & Hg & He)]; [by left|]. right. exists g. split; [by right|done].
Qed.

Lemma single_median (f : priceFeed) :
  0 < feed_Confidence f -> is_median feed_Price feed_Confidence [f] (feed_Price f).
Proof.
  intros Hf. split_and!.
  - exists f. split; [by left|done].
  - unfold half_upto, weight_upto, sumZ; simpl. rewrite Z.leb_refl. lia.
  - intros a Ha _. apply elem_of_cons in Ha as [->|Ha]; [lia|by apply elem_of_nil in Ha].
Qed.

(** The stateless aggregation.  It fails exactly when no feed has a positive
    confidence; otherwise it returns the weighted median of the feeds that have
    one, whatever the order of equal prices, and the least of their
    confidences. *)
Theorem aggregate_correct sort raw :
  sorts feed_Price sort ->
  let feeds := filter (fun f => 0 < feed_Confidence f) raw in
  (feeds = [] /\ aggregate_feeds sort raw = None) \/
  (exists p c, aggregate_feeds sort raw = Some (p, c) /\
     is_median feed_Price feed_Confidence feeds p /\
     (exists f, f ∈ feeds /\ feed_Confidence f = c) /\
     forall f, f ∈ feeds -> c <= feed_Confidence f).
Proof.
  intros Hsort feeds. unfold aggregate_feeds. fold feeds.
  assert (Forall (fun f => 0 < feed_Confidence f) feeds) as Hpos.
  { apply Forall_forall. intros f Hf. by apply list_elem_of_filter in Hf as [? _]. }
  destruct feeds as [|f [|g l]] eqn:Hfe; [by left|right|right].
  - exists (feed_Price f), (feed_Confidence f). split; [done|].
    apply Forall_cons in Hpos as [Hf _]. split; [by apply single_median|]. split.
    + exists f. split; [by left|done].
    + intros h Hh. apply elem_of_cons in Hh as [->|Hh]; [lia|by apply elem_of_nil in Hh].
  - set (fs := f :: g :: l) in *. destruct (Hsort fs) as [Hp Hs].
    assert (Forall (fun h => 0 <= feed_Confidence h) fs) as Hnn
      by (eapply Forall_impl; [exact Hpos|simpl; lia]).
    pose proof (sorted_median_spec feed_Price feed_Confidence sort fs Hsort ltac:(done) Hnn) as Hmed.
    destruct (sort fs) as [|f0 rest] eqn:Hsf; [by apply Permutation_nil_l in Hp|].
    do 2 eexists. split; [done|]. split; [done|].
    destruct (min_confidence_spec (f0 :: rest) (feed_Confidence f0)) as (H1 & H2 & H3). split.
    + destruct H3 as [->|(h & Hh & He)]; [exists f0; split; [rewrite <- Hp; by left|done]|].
      exists h. split; [by rewrite <- Hp|done].
    + intros h Hh. apply H2. by rewrite Hp.
Qed.

(** * Submission *)

Section Submission.
Context {X : Type} {SK : StakingKeeper X}.

Lemma SubmitPrice_cases ctx msg (w w' : world X) r :
  SubmitPrice ctx msg w = (w', r) ->
  match r with
  | Ok _ => exists a p c, AccAddressFromBech32 (msg_Signer msg) = Some a /\
      GetValidator (ext w) a = true /\
      GetPriceBigInt msg = Some p /\ GetConfidenceBigInt msg = Some c /\
      (GetAllSupportedMarkets (store w) = [] \/
       IsSupportedMarket (store w) (GetMarketIdArray msg) = true) /\
      store w' = SetPriceSubmission_store
        (mkSubmission (msg_Signer msg) (GetMarketIdArray msg) p c (BlockHeight ctx) (BlockTime ctx))
        (store w) /\ ext w' = ext w
  | _ => w' = w
  end.
Proof.
  unfold SubmitPrice. destruct (AccAddressFromBech32 _) as [a|] eqn:Ha; [|by intros [= <- <-]].
  unfold bind at 1, gets at 1. unfold bind at 1, guard at 1.
  destruct (GetValidator (ext w) a) eqn:Hv; [|by intros [= <- <-]]. unfold ret at 1.
  unfold bind at 1, gets at 1. unfold bind at 1, guard at 1.
  destruct (negb _ && negb _) eqn:Hm; cbn [negb]; [by intros [= <- <-]|]. unfold ret at 1.
  destruct (GetPriceBigInt msg) as [p|] eqn:Hp; [|by intros [= <- <-]].
  destruct (GetConfidenceBigInt msg) as [c|] eqn:Hc; [|by intros [= <- <-]].
  intros [= <- <-]. exists a, p, c. split_and!; try done.
  apply andb_false_iff in Hm. rewrite !negb_false_iff in Hm.
  destruct Hm as [Hm|Hm]; [left; by apply bool_decide_eq_true in Hm|by right].
Qed.

Lemma submitPrice_cases ctx contract args (w w' : world X) r :
  submitPrice ctx contract args w = (w', r) ->
  match r with
  | Ok _ => exists m p c, args = [ABytes32 m; ABig p; ABig c] /\
      GetValidator (ext w) (CallerAddress contract) = true /\
      store w' = SetPriceSubmission_store
        (mkSubmission (AccAddressString (CallerAddress contract)) m p c
           (BlockHeight ctx) (BlockTime ctx)) (store w) /\ ext w' = ext w
  | _ => w' = w
  end.
Proof.
  unfold submitPrice. destruct args as [|a0 [|a1 [|a2 [|]]]]; try by intros [= <- <-].
  destruct a0; try by intros [= <- <-]. destruct a1; try by intros [= <- <-].
  destruct a2; try by intros [= <- <-].
  unfold bind at 1, gets at 1. unfold bind at 1, guard at 1, IsValidator.
  destruct (GetValidator (ext w) (CallerAddress contract)) eqn:Hv; [|by intros [= <- <-]].
  intros [= <- <-]. by do 3 eexists.
Qed.

Lemma market_array_length msg : length (GetMarketIdArray msg) = 32%nat.
Proof. unfold GetMarketIdArray. rewrite length_take, length_app, length_replicate. lia. Qed.

(** who can submit, and as whom.  A successful [SubmitPrice] was signed by
    an address the staking keeper knows as a validator, for a market of the
    supported set if there is one, and replaces exactly the entry of that signer
    string; [submitPrice] from the EVM succeeds only for a validator's own
    address; a failed submission on either path changes nothing. *)
Theorem only_validators_submit ctx msg contract args (w w' : world X) r r' :
  (SubmitPrice ctx msg w = (w', r) ->
     match r with
     | Ok _ => exists a p c, AccAddressFromBech32 (msg_Signer msg) = Some a /\
         GetValidator (ext w) a = true /\
         GetPriceBigInt msg = Some p /\ GetConfidenceBigInt msg = Some c /\
         (GetAllSupportedMarkets (store w) = [] \/
          IsSupportedMarket (store w) (GetMarketIdArray msg) = true) /\
         store w' = SetPriceSubmission_store
           (mkSubmission (msg_Signer msg) (GetMarketIdArray msg) p c (BlockHeight ctx) (BlockTime ctx))
           (store w) /\ ext w' = ext w
     | _ => w' = w
     end) /\
  (submitPrice ctx contract args w = (w', r') ->
     match r' with
     | Ok _ => exists m p c, args = [ABytes32 m; ABig p; ABig c] /\
         GetValidator (ext w) (CallerAddress contract) = true /\
         store w' = SetPriceSubmission_store
           (mkSubmission (AccAddressString (CallerAddress contract)) m p c
              (BlockHeight ctx) (BlockTime ctx)) (store w) /\ ext w' = ext w
     | _ => w' = w
     end).
Proof. split; [apply SubmitPrice_cases|apply submitPrice_cases]. Qed.

(** a submission is filed under the signer's string, not under the address
    it stands for.  Bech32 decodes a string and its upper-case form to the same
    address, so one validator that signs as both is counted twice. *)
Theorem one_validator_counted_twice ctx msg1 msg2 a (w w1 w2 : world X) :
  wf_store (store w) ->
  AccAddressFromBech32 (msg_Signer msg1) = Some a ->
  AccAddressFromBech32 (msg_Signer msg2) = Some a ->
  msg_Signer msg1 <> msg_Signer msg2 ->
  GetMarketIdArray msg1 = GetMarketIdArray msg2 ->
  SubmitPrice ctx msg1 w = (w1, Ok tt) -> SubmitPrice ctx msg2 w1 = (w2, Ok tt) ->
  exists s1 s2, ValidatorAddr s1 = msg_Signer msg1 /\ ValidatorAddr s2 = msg_Signer msg2 /\
    s1 ∈ GetAllSubmissionsForMarket (store w2) (GetMarketIdArray msg1) /\
    s2 ∈ GetAllSubmissionsForMarket (store w2) (GetMarketIdArray msg1).
Proof.
  intros Hwf Ha1 Ha2 Hne Hm H1 H2.
  apply SubmitPrice_cases in H1 as (? & p1 & c1 & _ & _ & _ & _ & _ & Hst1 & _).
  apply SubmitPrice_cases in H2 as (? & p2 & c2 & _ & _ & _ & _ & _ & Hst2 & _).
  set (s1 := mkSubmission (msg_Signer msg1) (GetMarketIdArray msg1) p1 c1 (BlockHeight ctx) (BlockTime ctx)) in *.
  set (s2 := mkSubmission (msg_Signer msg2) (GetMarketIdArray msg2) p2 c2 (BlockHeight ctx) (BlockTime ctx)) in *.
  exists s1, s2. split; [done|]. split; [done|].
  assert (wf_store (store w1)) as Hwf1 by (rewrite Hst1; apply wf_store_set; [apply market_array_length|done]).
  pose proof (submissions_set s2 (store w1) Hwf1 (market_array_length msg2)) as Hp.
  rewrite <- Hst2 in Hp. cbn [MarketId s2] in Hp. rewrite <- Hm in Hp. rewrite Hp.
  split; [|by left]. right. apply list_elem_of_filter. split; [done|].
  rewrite Hst1. change (GetMarketIdArray msg1) with (MarketId s1).
  rewrite submissions_set; [by left|done|apply market_array_length].
Qed.

Lemma fresh_after_set (ctx : Ctx) (s : PriceSubmission) (st : kv) :
  wf_store st -> length (MarketId s) = 32%nat ->
  SubHeight s = BlockHeight ctx -> 0 <= StalenessThreshold (GetParams st) ->
  fresh_submissions ctx (SetPriceSubmission_store s st) (MarketId s)
    ≡ₚ s :: filter (fun t => ValidatorAddr t <> ValidatorAddr s)
              (fresh_submissions ctx st (MarketId s)).
Proof.
  intros Hwf Hm Hh Hst. unfold fresh_submissions. rewrite GetParams_set, submissions_set by done.
  rewrite filter_cons_True by (rewrite Hh, Z.sub_diag; exact Hst).
  constructor. rewrite !list_filter_filter. erewrite list_filter_iff; [done|]. simpl. tauto.
Qed.

(** the EVM path checks neither price nor confidence nor market, which
    [ValidateBasic] and [SubmitPrice] check on the message path.  A validator
    that submits with at least two units more confidence than all fresh
    submissions together carry alone sets the median, to any price. *)
Theorem evm_submission_sets_price sort ctx contract m p c (w : world X) :
  sorts Price sort -> wf_store (store w) -> length m = 32%nat ->
  GetValidator (ext w) (CallerAddress contract) = true ->
  0 <= StalenessThreshold (GetParams (store w)) -> MinQuorum (GetParams (store w)) <= 1 ->
  Forall (fun s => 0 <= Confidence s) (fresh_submissions ctx (store w) m) ->
  sumZ Confidence (fresh_submissions ctx (store w) m) + 2 <= c ->
  exists w' q ts, submitPrice ctx contract [ABytes32 m; ABig p; ABig c] w = (w', Ok [ABool true]) /\
    GetMedianPrice sort ctx (store w') m = Ok (p, q, ts).
Proof.
  intros Hsort Hwf Hm Hval Hst Hq Hpos Hc.
  unfold submitPrice. unfold bind at 1, gets at 1. unfold bind at 1, guard at 1, IsValidator.
  rewrite Hval.
  set (s := mkSubmission (AccAddressString (CallerAddress contract)) m p c (BlockHeight ctx) (BlockTime ctx)).
  set (st' := SetPriceSubmission_store s (store w)).
  pose proof (fresh_after_set ctx s (store w) Hwf Hm eq_refl Hst) as Hfr. fold st' in Hfr.
  change (MarketId s) with m in Hfr.
  set (rest := filter _ _) in Hfr.
  assert (sumZ Confidence rest <= sumZ Confidence (fresh_submissions ctx (store w) m)) as Hrest
    by (by apply sumZ_filter_le).
  assert (Forall (fun t => 0 <= Confidence t) rest) as Hrpos.
  { apply Forall_forall. intros t Ht. rewrite Forall_forall in Hpos.
    apply Hpos. by apply list_elem_of_filter in Ht as [_ ?]. }
  assert (0 <= sumZ Confidence rest) by (by apply sumZ_nonneg).
  assert (Forall (fun t => 0 <= Confidence t) (fresh_submissions ctx st' m)) as Hpos'.
  { rewrite Hfr. constructor; [cbn; lia|done]. }
  assert (MinQuorum (GetParams st') <= 1) as Hq' by (unfold st'; by rewrite GetParams_set).
  destruct (median_cases sort ctx st' m Hsort Hpos') as
    [[He _]|[(He & Hlt & _)|(_ & _ & p' & ts & E & Hmed & _)]].
  { rewrite He in Hfr. by apply Permutation_nil_l in Hfr. }
  { rewrite Hfr in Hlt. simpl in Hlt. lia. }
  assert (p <= p' <= p) as Hp'; [|assert (p' = p) as -> by lia].
  { eapply (median_robust Price Confidence) with
      (honest := fun t => bool_decide (ValidatorAddr t = ValidatorAddr s)); [exact Hmed|done| |].
    - rewrite Hfr. constructor; [cbn; lia|]. apply Forall_forall. intros t Ht Hv.
      apply bool_decide_eq_true in Hv. by apply list_elem_of_filter in Ht as [? _].
    - rewrite !(sumZ_Permutation _ _ _ Hfr), !sumZ_cons, bool_decide_eq_true_2 by done.
      change (Confidence s) with c.
      enough (sumZ (fun t => if bool_decide (ValidatorAddr t = ValidatorAddr s) then 0 else Confidence t) rest
              <= sumZ Confidence rest) as Hle by lia.
      apply sumZ_le. intros t Ht. rewrite Forall_forall in Hrpos. specialize (Hrpos t Ht).
      case_bool_decide; lia. }
  do 3 eexists. split; [reflexivity|]. cbn [store]. exact E.
Qed.

End Submission.
