(* ===== verification/ProtoWire.v ===== *)
(** Buffers of the hand-written protobuf codecs.

    [x/paxoracle/types/msgs.go] and [x/evm/types/set_code_tx.go] encode messages by
    filling a buffer from its end, with the same helper functions under different
    names.  An index or slice bound out of range is a panic ([None]); [int] is 64
    bits wide. *)

From stdpp Require Import base list gmap strings.
From Stdlib Require Import ZArith Lia.
From S2P Require Import Prelude KVStore PaxOracle.
Open Scope Z_scope.

Definition len {A} (l : list A) : Z := Z.of_nat (length l).

(** [data[i] = x] *)
Definition poke (data : bytes) (i x : Z) : option bytes :=
  if (0 <=? i) && (i <? len data) then Some (<[Z.to_nat i := x]> data) else None.

(** [copy(data[i:], src)] *)
Definition copy_at (data : bytes) (i : Z) (src : bytes) : option bytes :=
  if (0 <=? i) && (i <=? len data) then
    let n := Nat.min (length data - Z.to_nat i) (length src) in
    Some (take (Z.to_nat i) data ++ take n src ++ drop (Z.to_nat i + n) data)
  else None.

(** A [uint64] has at most ten groups of seven bits. *)
Definition varint_fuel : nat := 10.

Fixpoint protoEncodeVarint (fuel : nat) (data : bytes) (offset v : Z) : option (bytes * Z) :=
  match fuel with
  | O => None
  | S fuel =>
    if 0x80 <=? v then
      let offset := offset - 1 in
      data ← poke data offset (Z.lor (Z.land v 0x7f) 0x80);
      protoEncodeVarint fuel data offset (Z.shiftr v 7)
    else
      let offset := offset - 1 in
      data ← poke data offset (v mod 256);
      Some (data, offset)
  end.

Fixpoint protoSizeVarint (fuel : nat) (v : Z) : Z :=
  match fuel with
  | O => 1
  | S fuel => if 0x80 <=? v then 1 + protoSizeVarint fuel (Z.shiftr v 7) else 1
  end.

(** A length-delimited field: its size, and its bytes written before the index. *)
Definition field_size (payload : bytes) : Z :=
  let l := len payload in
  if 0 <? l then 1 + l + protoSizeVarint varint_fuel l else 0.

Definition marshal_field (tag : Z) (payload : bytes) (s : bytes * Z) : option (bytes * Z) :=
  let '(data, i) := s in
  if 0 <? len payload then
    let i := i - len payload in
    data ← copy_at data i payload;
    '(data, i) ← protoEncodeVarint varint_fuel data i (len payload);
    let i := i - 1 in
    data ← poke data i tag;
    Some (data, i)
  else Some (data, i).

(** [data[lo:hi]], where the length is the capacity. *)
Definition slice (data : bytes) (lo hi : Z) : option bytes :=
  if (0 <=? lo) && (lo <=? hi) && (hi <=? len data)
  then Some (take (Z.to_nat (hi - lo)) (drop (Z.to_nat lo) data)) else None.

(** * The bytes the encoder produces *)

(** What [protoEncodeVarint] writes, from the lower address on. *)
Fixpoint varint_written (fuel : nat) (v : Z) : bytes :=
  match fuel with
  | O => []
  | S fuel =>
    if 0x80 <=? v then varint_written fuel (Z.shiftr v 7) ++ [Z.lor (Z.land v 0x7f) 0x80]
    else [v mod 256]
  end.

Definition wire_field (tag : Z) (payload : bytes) : bytes :=
  if 0 <? len payload then tag :: varint_written varint_fuel (len payload) ++ payload else [].

(** * Lemmas *)

Lemma len_app {A} (l1 l2 : list A) : len (l1 ++ l2) = len l1 + len l2.
Proof. unfold len. rewrite length_app. lia. Qed.

Lemma len_nonneg {A} (l : list A) : 0 <= len l.
Proof. unfold len. lia. Qed.

Lemma poke_end pre y x post :
  poke ((pre ++ [y]) ++ post) (len (pre ++ [y]) - 1) x = Some (pre ++ [x] ++ post).
Proof.
  unfold poke. rewrite !len_app. change (len [y]) with 1.
  pose proof (len_nonneg pre). pose proof (len_nonneg post).
  rewrite (proj2 (Z.leb_le _ _)), (proj2 (Z.ltb_lt _ _)) by lia. simpl. f_equal.
  replace (Z.to_nat (len pre + 1 - 1)) with (length pre + 0)%nat by (unfold len; lia).
  rewrite <- app_assoc, insert_app_r. done.
Qed.

Lemma copy_end pre mid src post :
  length mid = length src ->
  copy_at ((pre ++ mid) ++ post) (len (pre ++ mid) - len src) src = Some (pre ++ src ++ post).
Proof.
  intros Hl. unfold copy_at. rewrite !len_app.
  pose proof (len_nonneg pre). pose proof (len_nonneg mid). pose proof (len_nonneg post).
  assert (len mid = len src) as Hm by (unfold len; lia). rewrite Hm.
  rewrite !(proj2 (Z.leb_le _ _)) by lia. simpl. f_equal.
  replace (Z.to_nat (len pre + len src - len src)) with (length pre) by (unfold len; lia).
  rewrite !length_app, Nat.min_r by lia. rewrite <- app_assoc, take_app_length. f_equal.
  rewrite firstn_all. f_equal. rewrite <- Hl, drop_app_ge by lia.
  replace (length pre + length mid - length pre)%nat with (length mid) by lia. apply drop_app_length.
Qed.

(** A buffer of enough room is what is left and what gets overwritten. *)
Lemma room (pre : bytes) n :
  0 <= n <= len pre -> exists p m, pre = p ++ m /\ len m = n /\ len p = len pre - n.
Proof.
  intros Hn. exists (take (Z.to_nat (len pre - n)) pre), (drop (Z.to_nat (len pre - n)) pre).
  rewrite take_drop. unfold len in *. rewrite length_take, length_drop. split_and!; [done|lia..].
Qed.

Lemma room1 (pre : bytes) : 1 <= len pre -> exists p y, pre = p ++ [y] /\ len p = len pre - 1.
Proof.
  intros H. destruct (room pre 1 ltac:(lia)) as (p & m & -> & Hm & Hp).
  destruct m as [|y [|]]; try (unfold len in Hm; simpl in Hm; lia). by exists p, y.
Qed.

Lemma protoSizeVarint_pos fuel v : 1 <= protoSizeVarint fuel v.
Proof. revert v. induction fuel as [|f IH]; intros v; simpl; [lia|]. specialize (IH (Z.shiftr v 7)). destruct (_ <=? _); lia. Qed.

Lemma shiftr7_bound f v : 0 <= v < 128 ^ Z.of_nat (S f) -> 0 <= Z.shiftr v 7 < 128 ^ Z.of_nat f.
Proof.
  intros Hv. rewrite Z.shiftr_div_pow2 by lia. change (2 ^ 7) with 128.
  rewrite Nat2Z.inj_succ, Z.pow_succ_r in Hv by lia.
  split; [apply Z.div_pos; lia|apply Z.div_lt_upper_bound; lia].
Qed.

Lemma length_varint fuel v :
  0 <= v < 128 ^ Z.of_nat fuel -> (0 < fuel)%nat -> len (varint_written fuel v) = protoSizeVarint fuel v.
Proof.
  revert v. induction fuel as [|f IH]; intros v Hv Hf; [lia|]. simpl.
  destruct (Z.leb_spec 0x80 v); [|done]. apply shiftr7_bound in Hv as Hv'. rewrite len_app, IH; [change (len [_]) with 1; lia|done|].
  destruct f; [|lia]. simpl in Hv. lia.
Qed.

Lemma protoEncodeVarint_spec fuel v : forall pre post,
  0 <= v < 128 ^ Z.of_nat fuel -> (0 < fuel)%nat -> protoSizeVarint fuel v <= len pre ->
  exists p, len p = len pre - protoSizeVarint fuel v /\
    protoEncodeVarint fuel (pre ++ post) (len pre) v = Some (p ++ varint_written fuel v ++ post, len p).
Proof.
  revert v. induction fuel as [|f IH]; intros v pre post Hv Hf Hroom; [lia|].
  cbn [protoEncodeVarint protoSizeVarint varint_written] in *. destruct (Z.leb_spec 0x80 v) as [Hbig|Hsmall].
  - pose proof (protoSizeVarint_pos f (Z.shiftr v 7)).
    destruct (room1 pre ltac:(lia)) as (p & y & -> & Hp). rewrite poke_end. cbn [mbind option_bind].
    destruct (IH (Z.shiftr v 7) p ([Z.lor (Z.land v 0x7f) 0x80] ++ post)) as (q & Hq & E);
      [by apply shiftr7_bound|destruct f; [simpl in Hv; lia|lia]|lia|].
    exists q. split; [lia|]. rewrite <- Hp, E, <- app_assoc. done.
  - destruct (room1 pre ltac:(lia)) as (p & y & -> & Hp). rewrite poke_end. cbn [mbind option_bind].
    exists p. rewrite Hp. split; [lia|]. done.
Qed.

Lemma fits (payload : bytes) : len payload < 2 ^ 63 -> 0 <= len payload < 128 ^ Z.of_nat varint_fuel.
Proof. pose proof (len_nonneg payload). change (128 ^ Z.of_nat varint_fuel) with (2 ^ 70). lia. Qed.

Lemma marshal_field_spec tag payload pre post :
  len payload < 2 ^ 63 -> field_size payload <= len pre ->
  exists p, len p = len pre - field_size payload /\
    marshal_field tag payload (pre ++ post, len pre) = Some (p ++ wire_field tag payload ++ post, len p).
Proof.
  intros Hl Hroom. apply fits in Hl. unfold field_size, marshal_field, wire_field in *.
  destruct (Z.ltb_spec 0 (len payload)) as [Hpos|]; [|by exists pre; split; [lia|]].
  pose proof (protoSizeVarint_pos varint_fuel (len payload)).
  destruct (room pre (len payload) ltac:(lia)) as (p & m & -> & Hm & Hp).
  rewrite copy_end by (unfold len in Hm; lia). cbn [mbind option_bind]. rewrite <- Hp.
  destruct (protoEncodeVarint_spec varint_fuel (len payload) p (payload ++ post)) as (q & Hq & ->);
    [done|unfold varint_fuel; lia|lia|]. cbn [mbind option_bind].
  destruct (room1 q ltac:(lia)) as (r & y & -> & Hr).
  rewrite poke_end. cbn [mbind option_bind].
  exists r. split; [lia|]. rewrite Hr. cbn [app]. rewrite <- app_assoc. done.
Qed.

Lemma field_size_wire tag payload : len payload < 2 ^ 63 -> len (wire_field tag payload) = field_size payload.
Proof.
  intros Hl. apply fits in Hl. unfold wire_field, field_size. destruct (0 <? len payload); [|done].
  change (tag :: ?l) with ([tag] ++ l). rewrite !len_app, length_varint by (done || unfold varint_fuel; lia).
  change (len [tag]) with 1. lia.
Qed.

Lemma field_size_nonneg payload : 0 <= field_size payload.
Proof.
  unfold field_size. pose proof (len_nonneg payload). pose proof (protoSizeVarint_pos varint_fuel (len payload)).
  destruct (0 <? len payload); lia.
Qed.

Lemma len_0 {A} (l : list A) : len l = 0 -> l = [].
Proof. destruct l; [done|]. unfold len. simpl. lia. Qed.

Lemma lor_bound a b n : 0 <= n -> 0 <= a < 2 ^ n -> 0 <= b < 2 ^ n -> 0 <= Z.lor a b < 2 ^ n.
Proof.
  intros Hn Ha Hb. split; [apply Z.lor_nonneg; lia|].
  destruct (decide (a = 0)) as [->|]; [rewrite Z.lor_0_l; lia|].
  destruct (decide (b = 0)) as [->|]; [rewrite Z.lor_0_r; lia|].
  assert (0 <= Z.lor a b) by (apply Z.lor_nonneg; lia).
  assert (Z.lor a b <> 0) by (intros H0; apply Z.lor_eq_0_iff in H0; lia).
  apply Z.log2_lt_pow2; [lia|]. rewrite Z.log2_lor by lia.
  apply Z.max_lub_lt; apply Z.log2_lt_pow2; lia.
Qed.

Lemma bytes_str_bytes s : bytes_str (str_bytes s) = s.
Proof. induction s as [|c s IH]; cbn; [done|]. by rewrite IH, Nat2Z.id, Ascii.ascii_nat_embedding. Qed.
