(* ===== verification/PaxOracleCodec.v ===== *)
(** [x/paxoracle/types/msgs.go]: the hand-written protobuf codec of
    [MsgSubmitPrice].

    The encoder fills a buffer from its end; the decoder walks an index over the
    input.  An index or slice bound out of range is a panic ([None] for the
    encoder, [Panic] for the decoder).  The buffer operations are in [ProtoWire]. *)

From stdpp Require Import base list gmap strings.
From Stdlib Require Import ZArith Lia.
From S2P Require Import Prelude KVStore BigInt Ledger Median PaxOracle PaxOracleProps ProtoWire.
Open Scope Z_scope.
Open Scope go_scope.

Definition Size (msg : MsgSubmitPrice) : Z :=
  field_size (str_bytes (msg_Signer msg)) + field_size (msg_MarketId msg)
  + field_size (str_bytes (msg_Price msg)) + field_size (str_bytes (msg_Confidence msg)).

(** The buffer and the number of bytes written. *)
Definition MarshalToSizedBuffer (msg : MsgSubmitPrice) (data : bytes) : option (bytes * Z) :=
  s ← marshal_field 0x22 (str_bytes (msg_Confidence msg)) (data, len data);
  s ← marshal_field 0x1a (str_bytes (msg_Price msg)) s;
  s ← marshal_field 0x12 (msg_MarketId msg) s;
  '(data, i) ← marshal_field 0x0a (str_bytes (msg_Signer msg)) s;
  Some (data, len data - i).

(** [data[:msg.Size()]] panics when the buffer is too short; the bytes past it
    are kept. *)
Definition MarshalTo (msg : MsgSubmitPrice) (data : bytes) : option (bytes * Z) :=
  if len data <? Size msg then None
  else
    '(out, n) ← MarshalToSizedBuffer msg (take (Z.to_nat (Size msg)) data);
    Some (out ++ drop (Z.to_nat (Size msg)) data, n).

Definition Marshal (msg : MsgSubmitPrice) : option bytes :=
  '(data, n) ← MarshalTo msg (replicate (Z.to_nat (Size msg)) 0);
  Some (take (Z.to_nat n) data).

Inductive uerror := ErrUnexpectedEOF | ErrWireType (wireType fieldNum : Z).

(** The length varint, from the bytes at the index on: the length and the bytes
    consumed.  A shift of 64 or more gives 0. *)
Fixpoint read_varint (rest : bytes) (shift length consumed : Z) : result uerror (Z * Z) :=
  match rest with
  | [] => Err ErrUnexpectedEOF
  | b :: rest' =>
    let length := Z.lor length (u64 (Z.shiftl (Z.land b 0x7F) shift)) in
    if b <? 0x80 then Ok (length, consumed + 1)
    else read_varint rest' (shift + 7) length (consumed + 1)
  end.

Definition set_field (fieldNum : Z) (v : bytes) (msg : MsgSubmitPrice) : MsgSubmitPrice :=
  let '(mkMsg s m p c) := msg in
  if fieldNum =? 1 then mkMsg (bytes_str v) m p c
  else if fieldNum =? 2 then mkMsg s v p c
  else if fieldNum =? 3 then mkMsg s m (bytes_str v) c
  else if fieldNum =? 4 then mkMsg s m p (bytes_str v)
  else msg.

(** The loop of [Unmarshal]; [None] when the fuel runs out. *)
Fixpoint Unmarshal_loop (fuel : nat) (data : bytes) (msg : MsgSubmitPrice) (idx : Z) :
    option (result uerror MsgSubmitPrice) :=
  match fuel with
  | O => None
  | S fuel =>
    if len data <=? idx then Some (Ok msg)
    else if idx <? 0 then Some Panic
    else match drop (Z.to_nat idx) data with
    | [] => Some Panic
    | tag :: rest =>
      let idx := idx + 1 in
      let fieldNum := Z.shiftr tag 3 in
      let wireType := Z.land tag 0x7 in
      if negb (wireType =? 2) then Some (Err (ErrWireType wireType fieldNum))
      else match read_varint rest 0 0 0 with
      | Err e => Some (Err e)
      | Panic => Some Panic
      | Ok (length, consumed) =>
        let idx := idx + consumed in
        let stop := i64 (idx + i64 length) in
        if len data <? stop then Some (Err ErrUnexpectedEOF)
        else if (1 <=? fieldNum) && (fieldNum <=? 4) then
          match slice data idx stop with
          | None => Some Panic
          | Some v => Unmarshal_loop fuel data (set_field fieldNum v msg) stop
          end
        else Unmarshal_loop fuel data msg stop
      end
    end
  end.

Definition Unmarshal (fuel : nat) (data : bytes) (msg : MsgSubmitPrice) :
    option (result uerror MsgSubmitPrice) := Unmarshal_loop fuel data msg 0.

(** [MsgSubmitPrice{}] *)
Definition empty_msg : MsgSubmitPrice := mkMsg "" [] "" "".

(** * The bytes the encoder produces *)

Definition wire (msg : MsgSubmitPrice) : bytes :=
  wire_field 0x0a (str_bytes (msg_Signer msg)) ++ wire_field 0x12 (msg_MarketId msg)
  ++ wire_field 0x1a (str_bytes (msg_Price msg)) ++ wire_field 0x22 (str_bytes (msg_Confidence msg)).

Definition all_fields (P : bytes -> Prop) (msg : MsgSubmitPrice) : Prop :=
  P (str_bytes (msg_Signer msg)) /\ P (msg_MarketId msg) /\
  P (str_bytes (msg_Price msg)) /\ P (str_bytes (msg_Confidence msg)).

(** The encoder fills a buffer of [Size] bytes exactly, whatever it held. *)
Lemma MarshalToSizedBuffer_spec msg data :
  all_fields (fun f => len f < 2 ^ 63) msg -> len data = Size msg ->
  MarshalToSizedBuffer msg data = Some (wire msg, Size msg).
Proof.
  intros (H1 & H2 & H3 & H4) Hd. unfold MarshalToSizedBuffer, Size in *.
  pose proof (field_size_nonneg (str_bytes (msg_Signer msg))).
  pose proof (field_size_nonneg (msg_MarketId msg)).
  pose proof (field_size_nonneg (str_bytes (msg_Price msg))).
  pose proof (field_size_nonneg (str_bytes (msg_Confidence msg))).
  rewrite <- (app_nil_r data) at 1.
  destruct (marshal_field_spec 0x22 (str_bytes (msg_Confidence msg)) data []) as (p4 & E4 & ->); [done|lia|].
  cbn [mbind option_bind].
  edestruct (marshal_field_spec 0x1a (str_bytes (msg_Price msg)) p4) as (p3 & E3 & ->); [done|lia|].
  cbn [mbind option_bind].
  edestruct (marshal_field_spec 0x12 (msg_MarketId msg) p3) as (p2 & E2 & ->); [done|lia|].
  cbn [mbind option_bind].
  edestruct (marshal_field_spec 0x0a (str_bytes (msg_Signer msg)) p2) as (p1 & E1 & ->); [done|lia|].
  cbn [mbind option_bind]. rewrite (len_0 p1) by lia. rewrite app_nil_r. cbn [app]. fold (wire msg).
  repeat f_equal. unfold wire. rewrite !len_app, !field_size_wire by done. change (len []) with 0. lia.
Qed.

Lemma Marshal_spec msg :
  all_fields (fun f => len f < 2 ^ 63) msg ->
  Marshal msg = Some (wire msg) /\ len (wire msg) = Size msg.
Proof.
  intros H. assert (0 <= Size msg) as Hs.
  { unfold Size. pose proof (field_size_nonneg (str_bytes (msg_Signer msg))).
    pose proof (field_size_nonneg (msg_MarketId msg)).
    pose proof (field_size_nonneg (str_bytes (msg_Price msg))).
    pose proof (field_size_nonneg (str_bytes (msg_Confidence msg))). lia. }
  assert (len (wire msg) = Size msg) as Hw.
  { destruct H as (H1 & H2 & H3 & H4). unfold wire, Size. rewrite !len_app, !field_size_wire by done. lia. }
  split; [|done]. unfold Marshal, MarshalTo.
  assert (len (replicate (Z.to_nat (Size msg)) 0) = Size msg) as Hr by (unfold len; rewrite length_replicate; lia).
  rewrite Hr, Z.ltb_irrefl. rewrite firstn_all2 by (rewrite length_replicate; lia).
  rewrite MarshalToSizedBuffer_spec by done. cbn [mbind option_bind].
  rewrite drop_ge by (rewrite length_replicate; lia). rewrite app_nil_r, firstn_all2; [done|].
  unfold len in Hw. lia.
Qed.

(** * The decoder *)

Lemma Unmarshal_mono n data : forall msg idx r,
  Unmarshal_loop n data msg idx = Some r -> Unmarshal_loop (S n) data msg idx = Some r.
Proof.
  induction n as [|n IH]; intros msg idx r H; [done|].
  remember (S n) as k. cbn [Unmarshal_loop]. rewrite Heqk in H. cbn [Unmarshal_loop] in H.
  repeat case_match; try done; subst k; by apply IH.
Qed.

(** The decoder reads back a block of the encoder with a payload below 128
    bytes: there the length is one byte. *)
Lemma Unmarshal_field n pre tag f payload post msg r :
  Z.shiftr tag 3 = f -> Z.land tag 7 = 2 -> 1 <= f <= 4 -> len payload < 128 ->
  let data := pre ++ wire_field tag payload ++ post in
  len data < 2 ^ 62 -> set_field f [] msg = msg ->
  Unmarshal_loop n data (set_field f payload msg) (len pre + len (wire_field tag payload)) = Some r ->
  Unmarshal_loop (S n) data msg (len pre) = Some r.
Proof.
  intros Hf Hw Hfr Hl data Hd Hset H. unfold wire_field in *.
  pose proof (len_nonneg pre). pose proof (len_nonneg post). pose proof (len_nonneg payload).
  destruct (Z.ltb_spec 0 (len payload)) as [Hpos|Hz].
  2:{ rewrite (len_0 payload) in H by lia. rewrite Hset, Z.add_0_r in H. by apply Unmarshal_mono. }
  assert (varint_written varint_fuel (len payload) = [len payload]) as Hv.
  { unfold varint_fuel. cbn [varint_written]. destruct (Z.leb_spec 0x80 (len payload)); [lia|].
    rewrite Z.mod_small by lia. done. }
  rewrite Hv in H. set (l := len payload) in *.
  assert (data = pre ++ [tag; l] ++ payload ++ post) as Hdata by (unfold data; by rewrite Hv).
  clearbody data.
  assert (len data = len pre + 2 + l + len post) as Hlen.
  { rewrite Hdata, !len_app. fold l. change (len [tag; l]) with 2. lia. }
  cbn [Unmarshal_loop]. rewrite (proj2 (Z.leb_gt _ _)), (proj2 (Z.ltb_ge _ _)) by lia.
  assert (drop (Z.to_nat (len pre)) data = tag :: l :: payload ++ post) as ->.
  { rewrite Hdata. unfold len. rewrite Nat2Z.id. apply drop_app_length. }
  rewrite Hf, Hw. cbn [negb Z.eqb Pos.eqb]. cbn [read_varint].
  assert (Z.lor 0 (u64 (Z.shiftl (Z.land l 0x7F) 0)) = l) as ->.
  { rewrite Z.lor_0_l, Z.shiftl_0_r. change 0x7F with (Z.ones 7). rewrite Z.land_ones by lia.
    rewrite Z.mod_small by (change (2 ^ 7) with 128; lia). apply wrapU_small. lia. }
  rewrite (proj2 (Z.ltb_lt l 0x80)) by lia. cbv zeta.
  rewrite (wrapS_small 64 l), wrapS_small by (simpl; lia).
  rewrite (proj2 (Z.ltb_ge (len data) _)) by lia.
  rewrite !(proj2 (Z.leb_le _ _)) by lia. cbn [andb].
  assert (slice data (len pre + 1 + (0 + 1)) (len pre + 1 + (0 + 1) + l) = Some payload) as ->.
  { unfold slice. rewrite !(proj2 (Z.leb_le _ _)) by lia. cbn [andb]. f_equal.
    replace (Z.to_nat (len pre + 1 + (0 + 1))) with (length (pre ++ [tag; l]))
      by (rewrite length_app; unfold len; simpl; lia).
    rewrite Hdata, app_assoc, drop_app_length.
    replace (Z.to_nat _) with (length payload) by (unfold l, len; lia). apply take_app_length. }
  rewrite <- H. f_equal. change (tag :: [l] ++ payload) with ([tag; l] ++ payload).
  rewrite len_app. change (len [tag; l]) with 2. fold l. lia.
Qed.

Lemma Unmarshal_wire msg :
  all_fields (fun f => len f < 128) msg -> Unmarshal 5 (wire msg) empty_msg = Some (Ok msg).
Proof.
  intros (H1 & H2 & H3 & H4). destruct msg as [s m p c]; cbn [msg_Signer msg_MarketId msg_Price msg_Confidence] in *.
  set (ws := wire_field 0x0a (str_bytes s)). set (wm := wire_field 0x12 m).
  set (wp := wire_field 0x1a (str_bytes p)). set (wc := wire_field 0x22 (str_bytes c)).
  assert (len (ws ++ wm ++ wp ++ wc) < 2 ^ 62) as Hlen.
  { rewrite !len_app. unfold ws, wm, wp, wc. rewrite !field_size_wire by lia.
    assert (forall v, len v < 128 -> field_size v <= 129) as Hs; [|pose proof (Hs _ H1); pose proof (Hs _ H2);
      pose proof (Hs _ H3); pose proof (Hs _ H4); lia].
    intros v Hv. unfold field_size, varint_fuel. cbn [protoSizeVarint].
    destruct (0 <? len v), (Z.leb_spec 0x80 (len v)); lia. }
  unfold wire, Unmarshal. cbn [msg_Signer msg_MarketId msg_Price msg_Confidence]. fold ws wm wp wc.
  change 0 with (len (A:=Z) []). change (ws ++ wm ++ wp ++ wc) with ([] ++ ws ++ (wm ++ wp ++ wc)).
  eapply (Unmarshal_field 4 [] 0x0a 1); [done|done|lia|done|exact Hlen|done|]. cbn [app]. fold ws.
  replace (len [] + len ws) with (len ws) by done.
  eapply (Unmarshal_field 3 ws 0x12 2); [done|done|lia|done|exact Hlen|done|]. fold wm.
  rewrite <- len_app, app_assoc.
  eapply (Unmarshal_field 2 (ws ++ wm) 0x1a 3); [done|done|lia|done|by rewrite <- app_assoc|done|]. fold wp.
  rewrite <- len_app. rewrite (app_assoc (ws ++ wm)). rewrite <- (app_nil_r wc).
  eapply (Unmarshal_field 1 ((ws ++ wm) ++ wp) 0x22 4); [done|done|lia|done
    |by fold wc; rewrite app_nil_r, <- !app_assoc|done|]. fold wc.
  rewrite app_nil_r, <- len_app. cbn [Unmarshal_loop]. rewrite Z.leb_refl.
  cbn [set_field Z.eqb Pos.eqb empty_msg]. by rewrite !bytes_str_bytes.
Qed.

(** C38: the codec round-trips every message with fields below 128 bytes: the
    encoder succeeds and fills exactly [Size] bytes, and the decoder reads them
    back in five iterations. *)
Theorem codec_roundtrip msg :
  all_fields (fun f => len f < 128) msg ->
  exists data, Marshal msg = Some data /\ len data = Size msg /\
    Unmarshal 5 data empty_msg = Some (Ok msg).
Proof.
  intros H. destruct (Marshal_spec msg) as [E Hl].
  { destruct H as (? & ? & ? & ?). unfold all_fields. lia. }
  exists (wire msg). split_and!; [done|done|]. by apply Unmarshal_wire.
Qed.

Lemma read_varint_bound rest : forall shift acc consumed l c,
  0 <= shift -> 0 <= acc < 2 ^ shift -> read_varint rest shift acc consumed = Ok (l, c) ->
  0 <= l < 2 ^ (shift + 7 * len rest) /\ consumed < c <= consumed + len rest.
Proof.
  induction rest as [|b rest IH]; intros shift acc consumed l c Hs Hacc H; [done|]. cbn [read_varint] in H.
  assert (0 <= Z.lor acc (u64 (Z.shiftl (Z.land b 0x7F) shift)) < 2 ^ (shift + 7)) as Hnew.
  { change 0x7F with (Z.ones 7). rewrite Z.land_ones, Z.shiftl_mul_pow2 by lia.
    pose proof (Z.mod_pos_bound b (2 ^ 7) ltac:(lia)). pose proof (Z.pow_pos_nonneg 2 shift ltac:(lia) Hs).
    apply lor_bound; [lia| |]; rewrite Z.pow_add_r by lia; change (2 ^ 7) with 128 in *; [lia|].
    unfold wrapU. split; [apply Z.mod_pos_bound; lia|].
    eapply Z.le_lt_trans; [apply Z.mod_le; nia|]. nia. }
  change (b :: rest) with ([b] ++ rest). rewrite len_app. change (len [b]) with 1.
  pose proof (len_nonneg rest). destruct (b <? 0x80).
  - injection H as <- <-. split; [|lia]. split; [lia|]. eapply Z.lt_le_trans; [apply Hnew|].
    apply Z.pow_le_mono_r; lia.
  - apply IH in H as [H ?]; [|lia|done]. split; [|lia]. by replace (shift + 7 * (1 + len rest)) with (shift + 7 + 7 * len rest) by lia.
Qed.

(** The next index after a length below [2^63]: past the current one, or
    wrapped to a negative number. *)
Lemma next_index idx l :
  0 <= idx < 2 ^ 62 -> 0 <= l < 2 ^ 63 ->
  idx <= i64 (idx + i64 l) \/ i64 (idx + i64 l) < 0.
Proof.
  intros Hi Hl. rewrite (wrapS_small 64 l) by (simpl; lia).
  destruct (Z.lt_ge_cases (idx + l) (2 ^ 63)).
  - left. rewrite wrapS_small by (simpl; lia). lia.
  - right. unfold wrapS. replace (idx + l + 2 ^ (64 - 1)) with (idx + l - 2 ^ 63 + 1 * 2 ^ 64) by lia.
    rewrite Z_mod_plus_full, Z.mod_small by lia. simpl. lia.
Qed.

Lemma Unmarshal_returns data fuel : forall msg idx,
  len data <= 10 -> 0 <= idx -> (0 < fuel)%nat -> len data - idx < Z.of_nat fuel ->
  exists r, Unmarshal_loop fuel data msg idx = Some r.
Proof.
  induction fuel as [|fuel IH]; intros msg idx Hd Hi Hpos Hf; [lia|].
  cbn [Unmarshal_loop]. destruct (Z.leb_spec (len data) idx); [by eexists|].
  rewrite (proj2 (Z.ltb_ge _ _)) by lia.
  destruct (drop (Z.to_nat idx) data) as [|tag rest] eqn:Hdrop; [by eexists|].
  assert (len rest <= 9) as Hrest.
  { apply (f_equal length) in Hdrop. rewrite length_drop in Hdrop. simpl in Hdrop. unfold len in *. lia. }
  destruct (negb _); [by eexists|].
  destruct (read_varint rest 0 0 0) as [[l c]| |] eqn:Hv; [|by eexists..].
  apply read_varint_bound in Hv as [Hl Hc]; [|lia..].
  assert (0 <= l < 2 ^ 63) as Hl'.
  { split; [lia|]. eapply Z.lt_le_trans; [apply Hl|]. apply Z.pow_le_mono_r; lia. }
  cbv zeta. pose proof (next_index (idx + 1 + c) l ltac:(lia) Hl') as Hnext.
  set (stop := i64 _) in *. clearbody stop.
  assert (forall m, exists r, Unmarshal_loop fuel data m stop = Some r) as Hgo.
  { intros m. destruct Hnext as [Hge|Hneg].
    - apply IH; lia.
    - destruct fuel as [|fuel']; [lia|]. exists Panic. cbn [Unmarshal_loop].
      rewrite (proj2 (Z.leb_gt _ _)), (proj2 (Z.ltb_lt _ _)) by lia. done. }
  repeat case_match; eauto.
Qed.

(** An eleven-byte input: an unknown field whose length, read as a signed
    integer, takes the index back to where the field started. *)
Definition looping_input : bytes := [0x2a; 0xf5; 0xff; 0xff; 0xff; 0xff; 0xff; 0xff; 0xff; 0xff; 0x01].

(** the decoder returns on every input of at most ten bytes, and on some
    input of eleven bytes never returns, whatever the message before. *)
Theorem decoder_may_not_return :
  (forall data msg, len data <= 10 -> exists r, Unmarshal (S (length data)) data msg = Some r) /\
  len looping_input = 11 /\
  (forall fuel msg, Unmarshal fuel looping_input msg = None).
Proof.
  split_and!; [|done|].
  - intros data msg Hd. apply Unmarshal_returns; [done|lia|lia|]. unfold len. lia.
  - intros fuel msg. unfold Unmarshal. induction fuel as [|fuel IH]; [done|].
    etransitivity; [|exact IH]. reflexivity.
Qed.
