(* ===== verification/PaxOracleCases.v ===== *)
(** [x/paxoracle]: a reference staking keeper, concrete runs of the theorems, and
    the message the codec corrupts. *)

From stdpp Require Import base list gmap strings sorting.
From Stdlib Require Import ZArith Lia.
From S2P Require Import Prelude KVStore BigInt Ledger Precompile Median PaxOracle PaxOracleProps PaxOraclePrecompile ProtoWire PaxOracleCodec.
Open Scope Z_scope.
Open Scope go_scope.

(** * A reference instance *)

(** An address codec with the bech32 rule on letter case: all lower case or all
    upper case, both forms standing for the same address. *)
Definition lower_char (c : Ascii.ascii) : Ascii.ascii :=
  let n := Ascii.nat_of_ascii c in
  if (Nat.leb 65 n) && (Nat.leb n 90) then Ascii.ascii_of_nat (n + 32) else c.

Definition upper_char (c : Ascii.ascii) : Ascii.ascii :=
  let n := Ascii.nat_of_ascii c in
  if (Nat.leb 97 n) && (Nat.leb n 122) then Ascii.ascii_of_nat (n - 32) else c.

Fixpoint map_string (f : Ascii.ascii -> Ascii.ascii) (s : string) : string :=
  match s with
  | EmptyString => EmptyString
  | String c s' => String (f c) (map_string f s')
  end.

Definition decode_addr (s : string) : option bytes :=
  let lo := map_string lower_char s in
  if bool_decide (s = lo) || bool_decide (s = map_string upper_char s)
  then Some (str_bytes lo) else None.

(** The set of validators. *)
#[export] Instance RefStaking : StakingKeeper (list bytes) := {|
  GetValidator := fun x a => bool_decide (a ∈ x);
  AccAddressFromBech32 := decode_addr;
  AccAddressString := bytes_str
|}.

Definition btc : bytes := replicate 31 0 ++ [1].
Definition eth : bytes := replicate 31 0 ++ [2].
Definition ctx0 : Ctx := {| BlockHeight := 100; BlockTime := 1700000000 |}.

Definition sub (v : string) (m : bytes) (p c h t : Z) : PriceSubmission := mkSubmission v m p c h t.

Definition vals : list bytes := [str_bytes "pax1a"; str_bytes "pax1b"; str_bytes "pax1c"; str_bytes "pax1d"].

(** Three fresh submissions for one market, one stale, one for another market. *)
Definition subs0 : list PriceSubmission :=
  [sub "pax1a" btc 100 (10 ^ 18) 99 1699999990; sub "pax1b" btc 101 (10 ^ 18) 98 1699999980;
   sub "pax1c" btc 5000 (10 ^ 18) 100 1700000000; sub "pax1d" btc 7 (10 ^ 18) 20 1699999000;
   sub "pax1a" eth 50 (10 ^ 18) 99 1699999990].

Definition st0 : kv := foldl (fun st s => SetPriceSubmission_store s st) ∅ subs0.
Definition w0 : world (list bytes) := {| store := st0; ext := vals; events := [] |}.

Lemma st0_wf : wf_store st0.
Proof.
  unfold st0, subs0. cbn [foldl]. repeat (apply wf_store_set; [done|]). apply wf_store_empty.
Qed.

Lemma fresh0_pos : Forall (fun s => 0 <= Confidence s) (fresh_submissions ctx0 st0 btc).
Proof.
  apply (bool_decide_unpack _). vm_compute. exact I.
Qed.

Lemma ok_price (p q t p' q' t' : Z) :
  Ok (E:=error) (p, q, t) = Ok (p', q', t') -> p = p'.
Proof. by intros [= -> _ _]. Qed.

(** * Runs *)

Lemma submission_replaces_own_witness :
  GetAllSubmissionsForMarket (SetPriceSubmission_store (sub "pax1b" btc 99 5 100 1) st0) btc
    ≡ₚ sub "pax1b" btc 99 5 100 1 :: filter (fun t => ValidatorAddr t <> "pax1b"%string)
         (GetAllSubmissionsForMarket st0 btc).
Proof.
  apply (submission_replaces_own (sub "pax1b" btc 99 5 100 1) st0 st0_wf). reflexivity.
Defined.

Lemma median_price_correct_witness :
  GetMedianPrice (sort_by Price) ctx0 st0 btc = Ok (101, 3, 1699999980) /\
  is_median Price Confidence (fresh_submissions ctx0 st0 btc) 101.
Proof.
  assert (GetMedianPrice (sort_by Price) ctx0 st0 btc = Ok (101, 3, 1699999980)) as E
    by (vm_compute; reflexivity).
  split; [exact E|].
  destruct (median_price_correct (sort_by Price) (sort_by Price) ctx0 st0 btc (sort_by_sorts Price)
      (sort_by_sorts Price) fresh0_pos) as [[[_ H]|[(_ & _ & H)|(_ & _ & p & ts & H & Hm & _)]] _];
    rewrite E in H; [discriminate H|discriminate H|].
  rewrite (ok_price _ _ _ _ _ _ H). exact Hm.
Defined.

(** One attested price of 5000 against two around 100. *)
Lemma median_resists_minority_witness : 100 <= 101 <= 101.
Proof.
  apply (median_resists_minority (sort_by Price) ctx0 st0 btc
    (fun s => negb (bool_decide (ValidatorAddr s = "pax1c"%string))) 100 101 101 3 1699999980).
  - apply sort_by_sorts.
  - apply fresh0_pos.
  - apply (bool_decide_unpack _). vm_compute. exact I.
  - vm_compute. reflexivity.
  - vm_compute. reflexivity.
Defined.

(** Half of the total is rounded down: of a confidence of three, one unit sets the price. *)
Definition st_odd : kv :=
  foldl (fun st s => SetPriceSubmission_store s st) ∅ [sub "pax1a" btc 0 1 99 1699999990; sub "pax1b" btc 100 2 99 1699999990].

Example third_of_confidence_sets_price :
  GetMedianPrice (sort_by Price) ctx0 st_odd btc = Ok (0, 2, 1699999990).
Proof. vm_compute. reflexivity. Qed.

Definition feeds0 : list priceFeed := [mkFeed 300 7 1; mkFeed 100 4 1; mkFeed 1 0 1; mkFeed 200 5 1].

Lemma aggregate_correct_witness :
  aggregate_feeds (sort_by feed_Price) feeds0 = Some (200, 4) /\
  is_median feed_Price feed_Confidence [mkFeed 300 7 1; mkFeed 100 4 1; mkFeed 200 5 1] 200.
Proof.
  assert (aggregate_feeds (sort_by feed_Price) feeds0 = Some (200, 4)) as E by (vm_compute; reflexivity).
  split; [exact E|].
  destruct (aggregate_correct (sort_by feed_Price) feeds0 (sort_by_sorts feed_Price))
    as [[_ H]|(p & c & H & Hm & _)]; rewrite E in H; [discriminate H|]. injection H as <- <-. exact Hm.
Defined.

Definition msg_of (signer : string) (m : bytes) (p c : string) : MsgSubmitPrice := mkMsg signer m p c.

Lemma only_validators_submit_witness :
  store (SubmitPrice ctx0 (msg_of "pax1b" btc "103" "9") w0).1 =
    SetPriceSubmission_store (sub "pax1b" btc 103 9 100 1700000000) st0 /\
  (SubmitPrice ctx0 (msg_of "pax1z" btc "103" "9") w0).1 = w0.
Proof.
  split.
  - destruct (SubmitPrice ctx0 (msg_of "pax1b" btc "103" "9") w0) as [w' r] eqn:E.
    assert (r = Ok tt) as -> by (change r with (w', r).2; rewrite <- E; vm_compute; reflexivity).
    destruct (only_validators_submit ctx0 (msg_of "pax1b" btc "103" "9")
      (mkContract [] None []) [] w0 w' (Ok tt) (Ok [])) as [H _].
    destruct (H E) as (a & p & c & _ & _ & Hp & Hc & _ & Hst & _).
    injection Hp as <-. injection Hc as <-. exact Hst.
  - destruct (SubmitPrice ctx0 (msg_of "pax1z" btc "103" "9") w0) as [w' r] eqn:E.
    assert (r = Err ErrNotValidator) as -> by (change r with (w', r).2; rewrite <- E; vm_compute; reflexivity).
    destruct (only_validators_submit ctx0 (msg_of "pax1z" btc "103" "9")
      (mkContract [] None []) [] w0 w' (Err ErrNotValidator) (Ok [])) as [H _].
    exact (H E).
Defined.

Definition w1 : world (list bytes) := (SubmitPrice ctx0 (msg_of "pax1c" btc "5000" "1000000000000000000") w0).1.
Definition w2 : world (list bytes) := (SubmitPrice ctx0 (msg_of "PAX1C" btc "5000" "1000000000000000000") w1).1.

(** The validator [pax1c] signs once in each letter case and has two of the four
    votes of its market. *)
Lemma one_validator_counted_twice_witness :
  (exists s1 s2, ValidatorAddr s1 = "pax1c"%string /\ ValidatorAddr s2 = "PAX1C"%string /\
     s1 ∈ GetAllSubmissionsForMarket (store w2) btc /\
     s2 ∈ GetAllSubmissionsForMarket (store w2) btc).
Proof.
  apply (one_validator_counted_twice ctx0 (msg_of "pax1c" btc "5000" "1000000000000000000")
    (msg_of "PAX1C" btc "5000" "1000000000000000000") (str_bytes "pax1c") w0 w1 w2).
  - exact st0_wf.
  - vm_compute; reflexivity.
  - vm_compute; reflexivity.
  - discriminate.
  - reflexivity.
  - unfold w1. apply run_eq. vm_compute. reflexivity.
  - unfold w2. apply run_eq. vm_compute. reflexivity.
Defined.

(** A price of 1 with a confidence above the three honest ones together. *)
Lemma evm_submission_sets_price_witness :
  exists w' q ts,
    submitPrice ctx0 (mkContract (str_bytes "pax1d") None []) [ABytes32 btc; ABig 1; ABig (10 ^ 20)] w0
      = (w', Ok [ABool true]) /\
    GetMedianPrice (sort_by Price) ctx0 (store w') btc = Ok (1, q, ts).
Proof.
  apply (evm_submission_sets_price (sort_by Price) ctx0 (mkContract (str_bytes "pax1d") None []) btc 1 (10 ^ 20) w0).
  - apply sort_by_sorts.
  - exact st0_wf.
  - reflexivity.
  - vm_compute; reflexivity.
  - vm_compute; discriminate.
  - vm_compute; discriminate.
  - apply fresh0_pos.
  - vm_compute; discriminate.
Defined.

Lemma codec_roundtrip_witness :
  exists data, Marshal (msg_of "pax1b" btc "103" "9") = Some data /\
    len data = Size (msg_of "pax1b" btc "103" "9") /\
    Unmarshal 5 data empty_msg = Some (Ok (msg_of "pax1b" btc "103" "9")).
Proof. apply codec_roundtrip. repeat split; reflexivity. Defined.

(** * A message the codec corrupts *)

Fixpoint zeros (n : nat) : string := match n with O => EmptyString | S n' => String (Ascii.ascii_of_nat 48) (zeros n') end.

(** A price of 128 decimal digits. *)
Definition long_msg : MsgSubmitPrice := msg_of "pax1b" btc (String (Ascii.ascii_of_nat 49) (zeros 127)) "9".

(** [protoEncodeVarint] writes the low group of a length at the higher
    address, so a length of two bytes or more comes out reversed.  A message with
    a price of 128 digits passes [ValidateBasic] and is encoded, and its
    encoding does not decode. *)
Theorem long_field_corrupted :
  ValidateBasic long_msg = Ok tt /\
  Marshal long_msg = Some (wire long_msg) /\
  varint_written varint_fuel 128 = [0x01; 0x80] /\
  Unmarshal 10 (wire long_msg) empty_msg = Some (Err (ErrWireType 1 6)).
Proof. split_and!; vm_compute; reflexivity. Qed.
