(* ===== verification/PaxSpot.v ===== *)
(** What the stateless precompiles of PaxSpot share ([precompiles/paxspot/orob],
    [clearing] and [pofq]): argument decoding, dispatch and gas.  Prices are
    arbitrary-precision integers, offsets are 16-bit signed basis points. *)

From stdpp Require Import base list strings sorting.
From Stdlib Require Import ZArith Lia.
From S2P Require Import Prelude Ledger Precompile Median.
Open Scope Z_scope.
Open Scope go_scope.

Definition bpsDivisor : Z := 10000.
Definition oneE18 : Z := 10 ^ 18.

Inductive spot_error :=
| ErrInputTooShort
| ErrOraclePriceZero
| ErrLengthMismatch
| ErrDecay.

Abbreviation R := (result (perror spot_error)).

Definition rbind {A B} (r : R A) (k : A -> R B) : R B :=
  match r with
  | Ok a => k a
  | Err e => Err e
  | Panic => Panic
  end.

Declare Scope spot_scope.
Notation "'let*' x := a 'in' b" := (rbind a (fun x => b))
  (at level 200, x name, a at level 100, b at level 200) : spot_scope.
Open Scope spot_scope.

(** * Arguments: an index past the slice panics, another type is an error *)

Definition arg {A} (decode : abi_value -> option A) (i : nat) (args : list abi_value) : R A :=
  match args !! i with
  | None => Panic
  | Some v => match decode v with Some a => Ok a | None => Err ErrArgType end
  end.

Definition as_big (v : abi_value) : option Z := match v with ABig n => Some n | _ => None end.
Definition as_int16 (v : abi_value) : option Z := match v with AInt16 n => Some n | _ => None end.
Definition as_uint16 (v : abi_value) : option Z := match v with AUint16 n => Some n | _ => None end.
Definition as_bigs (v : abi_value) : option (list Z) :=
  match v with AList l => mapM as_big l | _ => None end.
Definition as_int16s (v : abi_value) : option (list Z) :=
  match v with AList l => mapM as_int16 l | _ => None end.

(** The common shape of [Run]: find the method, decode, dispatch. *)
Definition stateless_run (abi : ABI) (contract : Contract)
    (dispatch : string -> list abi_value -> R (list abi_value)) : R (list abi_value) :=
  if Nat.ltb (length (Input contract)) 4 then Err (ErrKeeper ErrInputTooShort)
  else match MethodById abi (take 4 (Input contract)) with
  | None => Err ErrNoMethod
  | Some method =>
    match Unpack abi method (drop 4 (Input contract)) with
    | None => Err ErrUnpack
    | Some args => dispatch (Name method) args
    end
  end.

(** The common shape of [RequiredGas]. *)
Definition stateless_gas (abi : ABI) (input : bytes)
    (gas : string -> option (list abi_value) -> result unit Z) : result unit Z :=
  if Nat.ltb (length input) 4 then Ok 0
  else match MethodById abi (take 4 input) with
  | None => Ok 0
  | Some method => gas (Name method) (Unpack abi method (drop 4 input))
  end.

(** The number of elements of argument [i], or a fallback when it does not decode;
    a missing argument panics. *)
Definition gas_per_element {A} (decode : abi_value -> option (list A)) (i : nat)
    (args : option (list abi_value)) (fallback : Z) (cost : Z -> result unit Z) : result unit Z :=
  match args with
  | None => Ok fallback
  | Some args =>
    match args !! i with
    | None => Panic
    | Some v => match decode v with
                | None => Ok fallback
                | Some l => cost (Z.of_nat (length l))
                end
    end
  end.


(** [precompiles/paxspot/orob]: prices as basis-point offsets from an oracle price
    (precompile 0x0901). *)

Definition GasResolveOffset : Z := 5.
Definition GasResolveOffsetBatch : Z := 3.
Definition GasToOffset : Z := 5.

Definition computeAbsolutePrice (oraclePrice offsetBps : Z) : Z :=
  go_div (oraclePrice * (10000 + offsetBps)) bpsDivisor.

Definition resolveOffset (args : list abi_value) : R (list abi_value) :=
  let* oraclePrice := arg as_big 0 args in
  let* offsetBps := arg as_int16 1 args in
  Ok [ABig (computeAbsolutePrice oraclePrice offsetBps)].

Definition resolveOffsetBatch (args : list abi_value) : R (list abi_value) :=
  let* oraclePrice := arg as_big 0 args in
  let* offsets := arg as_int16s 1 args in
  Ok [AList (map (fun offset => ABig (computeAbsolutePrice oraclePrice offset)) offsets)].

(** The exact offset in basis points, before it is narrowed. *)
Definition exact_offset (oraclePrice absolutePrice : Z) : Z :=
  go_div ((absolutePrice - oraclePrice) * bpsDivisor) oraclePrice.

(** [int16(diff.Int64())] keeps the low bits. *)
Definition to_offset (oraclePrice absolutePrice : Z) : Z :=
  i16 (i64 (exact_offset oraclePrice absolutePrice)).

Definition toOffset (args : list abi_value) : R (list abi_value) :=
  let* oraclePrice := arg as_big 0 args in
  let* absolutePrice := arg as_big 1 args in
  if oraclePrice =? 0 then Err (ErrKeeper ErrOraclePriceZero)
  else Ok [AInt16 (to_offset oraclePrice absolutePrice)].

Definition RequiredGas (abi : ABI) (input : bytes) : result unit Z :=
  stateless_gas abi input (fun name args =>
    if bool_decide (name = "resolveOffset") then Ok GasResolveOffset
    else if bool_decide (name = "resolveOffsetBatch") then
      gas_per_element as_int16s 1 args (GasResolveOffsetBatch * 10)
        (fun n => Ok (GasResolveOffsetBatch * n))
    else if bool_decide (name = "toOffset") then Ok GasToOffset
    else Ok 0).

Definition Run (abi : ABI) (contract : Contract) : R (list abi_value) :=
  stateless_run abi contract (fun name args =>
    if bool_decide (name = "resolveOffset") then resolveOffset args
    else if bool_decide (name = "resolveOffsetBatch") then resolveOffsetBatch args
    else if bool_decide (name = "toOffset") then toOffset args
    else Err ErrUnknownMethod).

(** * Properties *)

Lemma resolve_diff p o : computeAbsolutePrice p o - p = (p * o) / 10000.
Proof.
  unfold computeAbsolutePrice, bpsDivisor. rewrite go_div_pos by lia.
  replace (p * (10000 + o)) with (p * o + p * 10000) by lia. rewrite Z_div_plus_full by lia. lia.
Qed.

Lemma exact_offset_resolve p o :
  10000 <= p -> o - 1 <= exact_offset p (computeAbsolutePrice p o) <= o.
Proof.
  intros Hp. unfold exact_offset. rewrite go_div_pos by lia. rewrite resolve_diff. unfold bpsDivisor.
  pose proof (Z.div_mod (p * o) 10000 ltac:(lia)). pose proof (Z.mod_pos_bound (p * o) 10000 ltac:(lia)).
  split; [apply Z.div_le_lower_bound; nia|]. apply Z.lt_succ_r, Z.div_lt_upper_bound; nia.
Qed.

Lemma to_offset_exact p a :
  0 < p -> - 2 ^ 15 <= exact_offset p a < 2 ^ 15 -> to_offset p a = exact_offset p a.
Proof.
  intros Hp He. unfold to_offset.
  rewrite (wrapS_small 64), wrapS_small by (simpl; lia). done.
Qed.

Lemma five_times p : 0 < p -> toOffset [ABig p; ABig (5 * p)] = Ok [AInt16 (-25536)].
Proof.
  intros Hp. assert (exact_offset p (5 * p) = 40000) as He.
  { unfold exact_offset, bpsDivisor. rewrite go_div_pos by lia.
    replace ((5 * p - p) * 10000) with (40000 * p) by lia. apply Z.div_mul. lia. }
  unfold toOffset. cbn. rewrite (proj2 (Z.eqb_neq p 0)) by lia.
  unfold to_offset. by rewrite He.
Qed.

(** offsets and prices.  With an oracle price of at least 10000 and an
    offset in the documented range, the resolved price converts back to the
    offset, or to one less when the resolution rounded; two resolved prices are
    ordered as their offsets; and an offset of -10000 or more never gives a
    negative price.  Outside the range of sixteen bits the offset is cut: a
    price at five times the oracle price, 40000 above it, converts to -25536. *)
Theorem offset_roundtrip p o :
  10000 <= p -> -10000 <= o <= 10000 ->
  0 <= computeAbsolutePrice p o /\
  (to_offset p (computeAbsolutePrice p o) = o \/ to_offset p (computeAbsolutePrice p o) = o - 1) /\
  ((p * o) mod 10000 = 0 -> to_offset p (computeAbsolutePrice p o) = o) /\
  (forall o', o < o' -> computeAbsolutePrice p o < computeAbsolutePrice p o') /\
  toOffset [ABig p; ABig (5 * p)] = Ok [AInt16 (-25536)].
Proof.
  intros Hp Ho. pose proof (exact_offset_resolve p o Hp) as He.
  pose proof (resolve_diff p o) as Hd. pose proof (Z.div_mod (p * o) 10000 ltac:(lia)) as Hm.
  pose proof (Z.mod_pos_bound (p * o) 10000 ltac:(lia)).
  rewrite to_offset_exact by lia. split_and!; [nia|lia| | |apply five_times; lia].
  - intros Hz. unfold exact_offset. rewrite Hd, go_div_pos by lia. unfold bpsDivisor.
    replace (p * o / 10000 * 10000) with (o * p) by lia. apply Z.div_mul. lia.
  - intros o' Hlt. pose proof (resolve_diff p o').
    enough (p * o / 10000 + 1 <= p * o' / 10000) by lia.
    apply Z.div_le_lower_bound; nia.
Qed.

Lemma offset_roundtrip_witness :
  0 <= computeAbsolutePrice 12345 (-7) /\
  (to_offset 12345 (computeAbsolutePrice 12345 (-7)) = -7 \/
   to_offset 12345 (computeAbsolutePrice 12345 (-7)) = -7 - 1) /\
  ((12345 * -7) mod 10000 = 0 -> to_offset 12345 (computeAbsolutePrice 12345 (-7)) = -7) /\
  (forall o', -7 < o' -> computeAbsolutePrice 12345 (-7) < computeAbsolutePrice 12345 o') /\
  toOffset [ABig 12345; ABig (5 * 12345)] = Ok [AInt16 (-25536)].
Proof. apply offset_roundtrip; lia. Defined.
