(* ===== verification/Clearing.v ===== *)
(** [precompiles/paxspot/clearing]: the uniform clearing price of a batch auction
    (precompile 0x0902). *)

From stdpp Require Import base list strings sorting.
From Stdlib Require Import ZArith Lia.
From S2P Require Import Prelude Ledger Precompile Median PaxSpot.
Open Scope Z_scope.
Open Scope go_scope.
Open Scope spot_scope.

Definition GasComputeClearingBase : Z := 50.
Definition GasComputeClearingPerOrder : Z := 3.

Record orderEntry := mkOrder { offsetBps : Z; size : Z }.

Definition minBigInt (a b : Z) : Z := if a <? b then a else b.

(** [cumDemand] and [cumSupply] at a level. *)
Definition cumDemand (buys : list orderEntry) (level : Z) : Z :=
  foldl (fun acc b => if level <=? offsetBps b then acc + size b else acc) 0 buys.

Definition cumSupply (sells : list orderEntry) (level : Z) : Z :=
  foldl (fun acc s => if offsetBps s <=? level then acc + size s else acc) 0 sells.

(** The keys of [levelSet], sorted ascending. *)
Definition levels (buys sells : list orderEntry) : list Z :=
  sort_by id (remove_dups (map offsetBps buys ++ map offsetBps sells)).

(** One level of the loop: the clearing offset and the matched volume so far. *)
Definition visit (buys sells : list orderEntry) (acc : Z * Z) (level : Z) : Z * Z :=
  let vol := minBigInt (cumDemand buys level) (cumSupply sells level) in
  if acc.2 <? vol then (level, vol) else acc.

(** What buyers who would pay [level] or more ask for, what sellers who would take
    [level] or less offer, and so the volume that trades at a level. *)
Definition demand_at (buys : list orderEntry) (level : Z) : Z := sumZ size (filter (fun b => level <= offsetBps b) buys).
Definition supply_at (sells : list orderEntry) (level : Z) : Z := sumZ size (filter (fun s => offsetBps s <= level) sells).
Definition executable (buys sells : list orderEntry) (level : Z) : Z := Z.min (demand_at buys level) (supply_at sells level).

(** What the auction promises: no level, listed or not, trades more, and the
    offset is the lowest that trades as much (0 when nothing trades). *)
Definition is_clearing (buys sells : list orderEntry) (off vol : Z) : Prop :=
  (forall level, executable buys sells level <= vol) /\
  ((vol = 0 /\ off = 0) \/
   (0 < vol /\ executable buys sells off = vol /\
    forall level, level < off -> executable buys sells level < vol)).

(** The price at an offset. *)
Definition clearing_price (oraclePrice off : Z) : Z :=
  go_div (oraclePrice * (10000 + off)) bpsDivisor.

Section Compute.
(** [sort.Slice] by offset, descending and ascending. *)
Variables sortDesc sortAsc : list orderEntry -> list orderEntry.

(** Offset, price and volume. *)
Definition clear_orders (oraclePrice : Z) (buys sells : list orderEntry) : R (Z * Z * Z) :=
  match buys, sells with
  | [], _ | _, [] => Ok (0, oraclePrice, 0)
  | _, _ =>
    let buys := sortDesc buys in
    let sells := sortAsc sells in
    match buys, sells with
    | b0 :: _, s0 :: _ =>
      if offsetBps b0 <? offsetBps s0 then Ok (0, oraclePrice, 0)
      else
        let '(clearingOffset, matchedVolume) := foldl (visit buys sells) (0, 0) (levels buys sells) in
        let clearingPrice := clearing_price oraclePrice clearingOffset in
        Ok (clearingOffset, clearingPrice, matchedVolume)
    | _, _ => Panic
    end
  end.

Definition computeClearing (args : list abi_value) : R (list abi_value) :=
  let* oraclePrice := arg as_big 0 args in
  let* buyOffsets := arg as_int16s 1 args in
  let* buySizes := arg as_bigs 2 args in
  let* sellOffsets := arg as_int16s 3 args in
  let* sellSizes := arg as_bigs 4 args in
  if negb (Nat.eqb (length buyOffsets) (length buySizes)) then Err (ErrKeeper ErrLengthMismatch)
  else if negb (Nat.eqb (length sellOffsets) (length sellSizes)) then Err (ErrKeeper ErrLengthMismatch)
  else
    let* r := clear_orders oraclePrice (zip_with mkOrder buyOffsets buySizes)
                (zip_with mkOrder sellOffsets sellSizes) in
    let '(off, price, vol) := r in
    Ok [AInt16 off; ABig price; ABig vol].

Definition RequiredGas (abi : ABI) (input : bytes) : result unit Z :=
  let fallback := GasComputeClearingBase + GasComputeClearingPerOrder * 20 in
  stateless_gas abi input (fun name args =>
    if bool_decide (name = "computeClearing") then
      gas_per_element as_int16s 1 args fallback (fun nb =>
        gas_per_element as_int16s 3 args fallback (fun ns =>
          Ok (GasComputeClearingBase + GasComputeClearingPerOrder * (nb + ns))))
    else Ok 0).

Definition Run (abi : ABI) (contract : Contract) : R (list abi_value) :=
  stateless_run abi contract (fun name args =>
    if bool_decide (name = "computeClearing") then computeClearing args
    else Err ErrUnknownMethod).

End Compute.

(** * Properties *)

Lemma cumDemand_sum buys level :
  cumDemand buys level = sumZ (fun b => if level <=? offsetBps b then size b else 0) buys.
Proof.
  unfold cumDemand. enough (forall acc,
    foldl (fun acc b => if level <=? offsetBps b then acc + size b else acc) acc buys
    = acc + sumZ (fun b => if level <=? offsetBps b then size b else 0) buys) as H by apply H.
  induction buys as [|x l IH]; intros acc; cbn [foldl]; [unfold sumZ; simpl; lia|].
  rewrite IH, sumZ_cons. destruct (level <=? offsetBps x); lia.
Qed.

Lemma cumSupply_sum sells level :
  cumSupply sells level = sumZ (fun s => if offsetBps s <=? level then size s else 0) sells.
Proof.
  unfold cumSupply. enough (forall acc,
    foldl (fun acc s => if offsetBps s <=? level then acc + size s else acc) acc sells
    = acc + sumZ (fun s => if offsetBps s <=? level then size s else 0) sells) as H by apply H.
  induction sells as [|x l IH]; intros acc; cbn [foldl]; [unfold sumZ; simpl; lia|].
  rewrite IH, sumZ_cons. destruct (offsetBps x <=? level); lia.
Qed.

Lemma minBigInt_min a b : minBigInt a b = Z.min a b.
Proof. unfold minBigInt. destruct (Z.ltb_spec a b); lia. Qed.

Lemma demand_at_sum buys level : demand_at buys level = sumZ (fun b => if level <=? offsetBps b then size b else 0) buys.
Proof.
  unfold demand_at. induction buys as [|b buys IH]; [done|]. rewrite filter_cons, sumZ_cons.
  destruct (Z.leb_spec level (offsetBps b)); case_decide; try lia; rewrite ?sumZ_cons; lia.
Qed.

Lemma supply_at_sum sells level : supply_at sells level = sumZ (fun s => if offsetBps s <=? level then size s else 0) sells.
Proof.
  unfold supply_at. induction sells as [|s sells IH]; [done|]. rewrite filter_cons, sumZ_cons.
  destruct (Z.leb_spec (offsetBps s) level); case_decide; try lia; rewrite ?sumZ_cons; lia.
Qed.

(** What the loop computes at a level. *)
Lemma executable_loop buys sells level : minBigInt (cumDemand buys level) (cumSupply sells level) = executable buys sells level.
Proof. unfold executable. by rewrite minBigInt_min, cumDemand_sum, cumSupply_sum, demand_at_sum, supply_at_sum. Qed.

Lemma executable_perm buys sells buys' sells' level :
  buys ≡ₚ buys' -> sells ≡ₚ sells' -> executable buys sells level = executable buys' sells' level.
Proof.
  intros Hb Hs. unfold executable. rewrite !demand_at_sum, !supply_at_sum.
  by rewrite (sumZ_Permutation _ _ _ Hb), (sumZ_Permutation _ _ _ Hs).
Qed.

Lemma is_clearing_perm buys sells buys' sells' off vol :
  buys ≡ₚ buys' -> sells ≡ₚ sells' -> is_clearing buys sells off vol -> is_clearing buys' sells' off vol.
Proof.
  intros Hb Hs [Hmax H]. assert (forall level, executable buys' sells' level = executable buys sells level) as E.
  { intros level. symmetry. by apply executable_perm. }
  split; [intros level; by rewrite E|]. destruct H as [|(Hv & Ho & Hlow)]; [by left|right].
  split_and!; [done|by rewrite E|]. intros level Hl. rewrite E. by apply Hlow.
Qed.

Lemma is_clearing_unique buys sells off vol off' vol' :
  is_clearing buys sells off vol -> is_clearing buys sells off' vol' -> off = off' /\ vol = vol'.
Proof.
  intros [Hmax H] [Hmax' H'].
  destruct H as [[-> ->]|(Hv & Ho & Hlow)], H' as [[-> ->]|(Hv' & Ho' & Hlow')].
  - done.
  - specialize (Hmax off'). lia.
  - specialize (Hmax' off). lia.
  - specialize (Hmax off'). specialize (Hmax' off). assert (vol = vol') as <- by lia. split; [|done].
    destruct (Z.lt_trichotomy off off') as [Hlt|[->|Hlt]]; [|done|].
    + specialize (Hlow' off Hlt). lia.
    + specialize (Hlow off' Hlt). lia.
Qed.

Section Levels.
Variables buys sells : list orderEntry.
Hypothesis Hbuys : Forall (fun o => 0 <= size o) buys.
Hypothesis Hsells : Forall (fun o => 0 <= size o) sells.

Lemma elem_of_levels l :
  l ∈ levels buys sells <-> l ∈ map offsetBps buys \/ l ∈ map offsetBps sells.
Proof.
  unfold levels. rewrite (proj1 (sort_by_sorts id _)), elem_of_remove_dups. apply elem_of_app.
Qed.

(** A level trades no more than the nearest sell offset at or below it. *)
Lemma floor_level level :
  executable buys sells level <= 0 \/
  exists l, l ∈ levels buys sells /\ l <= level /\ executable buys sells level <= executable buys sells l.
Proof.
  unfold executable.
  destruct (max_honest offsetBps (fun s => offsetBps s <=? level) sells) as [Hno|(s & Hs & Hle & Hmax)].
  - left. enough (supply_at sells level = 0) by lia. rewrite supply_at_sum. unfold sumZ.
    clear Hsells. induction sells as [|s l IH]; [done|]. cbn [foldr].
    rewrite (Hno s) by (by left). rewrite IH; [done|]. intros a Ha. apply Hno. by right.
  - right. apply Z.leb_le in Hle. exists (offsetBps s). split_and!; [|done|].
    { apply elem_of_levels. right. apply list_elem_of_fmap. by exists s. }
    rewrite !demand_at_sum, !supply_at_sum. rewrite Forall_forall in Hbuys, Hsells.
    apply Z.min_le_compat; apply sumZ_le; intros x Hx.
    + specialize (Hbuys x Hx). destruct (Z.leb_spec level (offsetBps x)), (Z.leb_spec (offsetBps s) (offsetBps x)); lia.
    + specialize (Hsells x Hx). specialize (Hmax x Hx).
      destruct (Z.leb_spec (offsetBps x) level) as [Hx'|], (Z.leb_spec (offsetBps x) (offsetBps s)); lia.
Qed.

(** The loop finds the best listed level, and the lowest such. *)
Lemma visit_loop ls :
  StronglySorted Z.le ls ->
  let '(off, vol) := foldl (visit buys sells) (0, 0) ls in
  (forall l, l ∈ ls -> executable buys sells l <= vol) /\
  ((vol = 0 /\ off = 0) \/
   (0 < vol /\ off ∈ ls /\ executable buys sells off = vol /\
    forall l, l ∈ ls -> l < off -> executable buys sells l < vol)).
Proof.
  induction ls as [|x ls IH] using rev_ind; intros Hs.
  { cbn. split; [intros l Hl; by apply elem_of_nil in Hl|by left]. }
  apply StronglySorted_app in Hs as (Hcross & Hs & _). specialize (IH Hs).
  rewrite foldl_app. cbn [foldl]. destruct (foldl (visit buys sells) (0, 0) ls) as [off vol].
  unfold visit. rewrite executable_loop. cbn [snd].
  destruct IH as [Hall Hcase]. destruct (Z.ltb_spec vol (executable buys sells x)) as [Hlt|Hge].
  - split.
    + intros l Hl. apply elem_of_app in Hl as [Hl|Hl]; [specialize (Hall l Hl); lia|].
      apply list_elem_of_singleton in Hl as ->. lia.
    + right. split_and!; [|apply elem_of_app; right; by left|done|].
      { destruct Hcase as [[-> _]|(? & _)]; lia. }
      intros l Hl Hlx. apply elem_of_app in Hl as [Hl|Hl]; [specialize (Hall l Hl); lia|].
      apply list_elem_of_singleton in Hl. lia.
  - split.
    + intros l Hl. apply elem_of_app in Hl as [Hl|Hl]; [by apply Hall|].
      apply list_elem_of_singleton in Hl as ->. lia.
    + destruct Hcase as [|(Hv & Hin & Ho & Hlow)]; [by left|right].
      split_and!; [done|apply elem_of_app; by left|done|].
      intros l Hl Hlo. apply elem_of_app in Hl as [Hl|Hl]; [by apply Hlow|].
      apply list_elem_of_singleton in Hl as ->. specialize (Hcross off x Hin ltac:(by left)). lia.
Qed.

Lemma levels_loop :
  let '(off, vol) := foldl (visit buys sells) (0, 0) (levels buys sells) in is_clearing buys sells off vol.
Proof.
  pose proof (visit_loop (levels buys sells) (proj2 (sort_by_sorts id _))) as H.
  destruct (foldl _ _ _) as [off vol]. destruct H as [Hall Hcase].
  assert (0 <= vol) by (destruct Hcase as [[-> _]|(? & _)]; lia). split.
  - intros level. destruct (floor_level level) as [Hz|(l & Hl & _ & Hle)]; [lia|].
    specialize (Hall l Hl). lia.
  - destruct Hcase as [|(Hv & Hin & Ho & Hlow)]; [by left|right]. split_and!; [done|done|].
    intros level Hl. destruct (floor_level level) as [Hz|(l & Hll & Hle & Hex)]; [lia|].
    specialize (Hlow l Hll ltac:(lia)). lia.
Qed.

(** Where the best buy is below the cheapest sell, or a side is empty, nothing
    trades. *)
Lemma no_crossing :
  (forall b s, b ∈ buys -> s ∈ sells -> offsetBps b < offsetBps s) -> is_clearing buys sells 0 0.
Proof.
  intros Hno. split; [|by left]. intros level. unfold executable. rewrite demand_at_sum, supply_at_sum.
  destruct (max_honest offsetBps (fun s => offsetBps s <=? level) sells) as [Hs|(s & Hs & Hle & _)].
  - apply Z.min_le_iff. right. etransitivity; [apply (sumZ_le _ (fun _ => 0))|].
    + intros s Hin. by rewrite (Hs s Hin).
    + unfold sumZ. clear. induction sells; simpl; lia.
  - apply Z.min_le_iff. left. apply Z.leb_le in Hle. etransitivity; [apply (sumZ_le _ (fun _ => 0))|].
    + intros b Hin. specialize (Hno b s Hin Hs). destruct (Z.leb_spec level (offsetBps b)); lia.
    + unfold sumZ. clear. induction buys; simpl; lia.
Qed.

End Levels.

Lemma clearing_price_zero p : clearing_price p 0 = p.
Proof. unfold clearing_price, bpsDivisor. rewrite go_div_pos by lia. apply Z.div_mul. lia. Qed.

Lemma sorted_head {A} (price : A -> Z) x l a :
  StronglySorted (fun a b => price a <= price b) (x :: l) -> a ∈ x :: l -> price x <= price a.
Proof.
  intros Hs Ha. apply elem_of_cons in Ha as [->|Ha]; [lia|].
  apply StronglySorted_inv in Hs as [_ Hs]. rewrite Forall_forall in Hs. by apply Hs.
Qed.

Lemma clear_orders_spec sortDesc sortAsc p buys sells :
  sorts (fun o => - offsetBps o) sortDesc -> sorts offsetBps sortAsc ->
  Forall (fun o => 0 <= size o) buys -> Forall (fun o => 0 <= size o) sells ->
  exists off vol, clear_orders sortDesc sortAsc p buys sells = Ok (off, clearing_price p off, vol) /\
    is_clearing buys sells off vol.
Proof.
  intros Hd Ha Hb Hs. destruct (Hd buys) as [Hdp Hds]. destruct (Ha sells) as [Hap Has].
  unfold clear_orders. destruct buys as [|b bs].
  { exists 0, 0. rewrite clearing_price_zero. split; [done|]. apply no_crossing. intros ? ? Hin. by apply elem_of_nil in Hin. }
  destruct sells as [|s ss].
  { exists 0, 0. rewrite clearing_price_zero. split; [done|]. apply no_crossing. intros ? ? _ Hin. by apply elem_of_nil in Hin. }
  destruct (sortDesc (b :: bs)) as [|b0 bs'] eqn:Eb; [by apply Permutation_nil_l in Hdp|].
  destruct (sortAsc (s :: ss)) as [|s0 ss'] eqn:Es; [by apply Permutation_nil_l in Hap|].
  destruct (Z.ltb_spec (offsetBps b0) (offsetBps s0)) as [Hlt|Hge].
  - exists 0, 0. rewrite clearing_price_zero. split; [done|].
    eapply is_clearing_perm; [exact Hdp|exact Hap|]. apply no_crossing. intros x y Hx Hy.
    pose proof (sorted_head _ _ _ _ Hds Hx). pose proof (sorted_head _ _ _ _ Has Hy). cbv beta in *. lia.
  - rewrite <- Hdp in Hb. rewrite <- Hap in Hs. pose proof (levels_loop _ _ Hb Hs) as Hl.
    destruct (foldl _ _ _) as [off vol]. exists off, vol. split; [done|].
    by eapply is_clearing_perm; [exact Hdp|exact Hap|].
Qed.

(** C33: the batch auction.  With non-negative sizes the computation always
    succeeds, and its volume is the most that any price level, listed or not,
    can trade, the smaller of what buyers at or above and what sellers at or below
    it bring; the offset is the lowest that trades as much, zero when nothing does.  The result does not
    depend on the order of the orders or on how the sort breaks ties. *)
Theorem clearing_maximises_volume sortDesc sortAsc p buys sells :
  sorts (fun o => - offsetBps o) sortDesc -> sorts offsetBps sortAsc ->
  Forall (fun o => 0 <= size o) buys -> Forall (fun o => 0 <= size o) sells ->
  exists off vol, clear_orders sortDesc sortAsc p buys sells = Ok (off, clearing_price p off, vol) /\
    is_clearing buys sells off vol /\
    forall sortDesc' sortAsc' buys' sells',
      sorts (fun o => - offsetBps o) sortDesc' -> sorts offsetBps sortAsc' ->
      buys' ≡ₚ buys -> sells' ≡ₚ sells ->
      clear_orders sortDesc' sortAsc' p buys' sells' = Ok (off, clearing_price p off, vol).
Proof.
  intros Hd Ha Hb Hs.
  destruct (clear_orders_spec sortDesc sortAsc p buys sells Hd Ha Hb Hs) as (off & vol & E & H).
  exists off, vol. split_and!; [done|done|]. intros sd sa buys' sells' Hsd Hsa Hpb Hps.
  destruct (clear_orders_spec sd sa p buys' sells' Hsd Hsa) as (off' & vol' & -> & H');
    [by rewrite Hpb|by rewrite Hps|].
  apply (is_clearing_perm _ _ _ _ _ _ Hpb Hps) in H'.
  by destruct (is_clearing_unique _ _ _ _ _ _ H H') as [-> ->].
Qed.

Lemma clearing_maximises_volume_witness :
  let buys := [mkOrder 10 5; mkOrder (-20) 7; mkOrder 30 2] in
  let sells := [mkOrder 0 4; mkOrder 20 9; mkOrder (-5) 2] in
  clear_orders (sort_by (fun o => - offsetBps o)) (sort_by offsetBps) 1000000 buys sells
    = Ok (0, 1000000, 6) /\ is_clearing buys sells 0 6 /\
  (demand_at buys 0, supply_at sells 0) = (7, 6) /\ (demand_at buys 20, supply_at sells 20) = (2, 15).
Proof.
  intros buys sells.
  assert (clear_orders (sort_by (fun o => - offsetBps o)) (sort_by offsetBps) 1000000 buys sells
    = Ok (0, 1000000, 6)) as E by (vm_compute; reflexivity).
  split; [exact E|]. split; [|split; reflexivity].
  destruct (clearing_maximises_volume (sort_by (fun o => - offsetBps o)) (sort_by offsetBps) 1000000 buys sells)
    as (off & vol & E' & H & _).
  - apply sort_by_sorts.
  - apply sort_by_sorts.
  - repeat constructor; discriminate.
  - repeat constructor; discriminate.
  - rewrite E in E'. injection E' as <- _ <-. exact H.
Defined.
