(* ===== verification/Pofq.v ===== *)
(** [precompiles/paxspot/pofq]: fill quality scores (precompile 0x0904). *)

From stdpp Require Import base list strings sorting.
From Stdlib Require Import ZArith Lia.
From S2P Require Import Prelude Ledger Precompile Median PaxSpot.
Open Scope Z_scope.
Open Scope go_scope.
Open Scope spot_scope.

Definition GasScoreFill : Z := 5.
Definition GasScoreBatchPerFill : Z := 3.
Definition GasUpdateRollingScore : Z := 8.

Definition computeFillScore (fillPrice oraclePrice : Z) : Z :=
  if oraclePrice =? 0 then 0
  else
    let diff := Z.abs (fillPrice - oraclePrice) in
    let deviation := go_div (diff * oneE18) (Z.abs oraclePrice) in
    let score := oneE18 - deviation in
    if score <? 0 then 0 else score.

Definition scoreFill (args : list abi_value) : R (list abi_value) :=
  let* fillPrice := arg as_big 0 args in
  let* oraclePrice := arg as_big 1 args in
  Ok [ABig (computeFillScore fillPrice oraclePrice)].

(** The loop over fills: [weightedSum] and [totalVolume]. *)
Definition score_loop (fills : list (Z * Z * Z)) : Z * Z :=
  foldl (fun '(weightedSum, totalVolume) '(fill, oracle, size) =>
           (weightedSum + computeFillScore fill oracle * size, totalVolume + size))
        (0, 0) fills.

(** Average score and total volume of decoded fills. *)
Definition score_batch (fills : list (Z * Z * Z)) : Z * Z :=
  let '(weightedSum, totalVolume) := score_loop fills in
  if totalVolume =? 0 then (0, 0) else (go_div weightedSum totalVolume, totalVolume).

Definition scoreBatch (args : list abi_value) : R (list abi_value) :=
  let* fillPrices := arg as_bigs 0 args in
  let* oraclePrices := arg as_bigs 1 args in
  let* sizes := arg as_bigs 2 args in
  if negb (Nat.eqb (length fillPrices) (length oraclePrices))
     || negb (Nat.eqb (length fillPrices) (length sizes)) then Err (ErrKeeper ErrLengthMismatch)
  else if Nat.eqb (length fillPrices) 0 then Ok [ABig 0; ABig 0]
  else
    let '(avgScore, totalVolume) := score_batch (zip (zip fillPrices oraclePrices) sizes) in
    Ok [ABig avgScore; ABig totalVolume].

(** The new score and the new weight. *)
Definition rolling_score (currentScore currentWeight newScore newWeight decayBps : Z) : Z * Z :=
  let decayFactor := 10000 - decayBps in
  let fullFactor := 10000 in
  let oldWeighted := currentScore * currentWeight * decayFactor in
  let newWeighted := newScore * newWeight * fullFactor in
  let totalWeight := currentWeight * decayFactor + newWeight * fullFactor in
  if totalWeight =? 0 then (0, 0) else (go_div (oldWeighted + newWeighted) totalWeight, totalWeight).

Definition updateRollingScore (args : list abi_value) : R (list abi_value) :=
  let* currentScore := arg as_big 0 args in
  let* currentWeight := arg as_big 1 args in
  let* newScore := arg as_big 2 args in
  let* newWeight := arg as_big 3 args in
  let* decayBps := arg as_uint16 4 args in
  if 10000 <=? decayBps then Err (ErrKeeper ErrDecay)
  else
    let '(updatedScore, totalWeight) := rolling_score currentScore currentWeight newScore newWeight decayBps in
    Ok [ABig updatedScore; ABig totalWeight].

Definition RequiredGas (abi : ABI) (input : bytes) : result unit Z :=
  stateless_gas abi input (fun name args =>
    if bool_decide (name = "scoreFill") then Ok GasScoreFill
    else if bool_decide (name = "scoreBatch") then
      gas_per_element as_bigs 0 args (GasScoreBatchPerFill * 10) (fun n => Ok (GasScoreBatchPerFill * n))
    else if bool_decide (name = "updateRollingScore") then Ok GasUpdateRollingScore
    else Ok 0).

Definition Run (abi : ABI) (contract : Contract) : R (list abi_value) :=
  stateless_run abi contract (fun name args =>
    if bool_decide (name = "scoreFill") then scoreFill args
    else if bool_decide (name = "scoreBatch") then scoreBatch args
    else if bool_decide (name = "updateRollingScore") then updateRollingScore args
    else Err ErrUnknownMethod).

(** * Properties *)

(** Every score of the batch lies between [lo] and [hi]. *)
Definition scores_between (lo hi : Z) (fills : list (Z * Z * Z)) : Prop :=
  Forall (fun '(fill, oracle, size) => lo <= computeFillScore fill oracle <= hi /\ 0 <= size) fills.

Lemma deviation_mono a b o : 0 < o -> a <= b -> go_div (a * oneE18) o <= go_div (b * oneE18) o.
Proof.
  intros Ho Hab. rewrite !go_div_pos by done. apply Z.div_le_mono; [done|]. unfold oneE18. nia.
Qed.

Lemma score_bounds f o : 0 <= computeFillScore f o <= oneE18.
Proof.
  unfold computeFillScore. destruct (Z.eqb_spec o 0); [unfold oneE18; lia|]. cbv zeta.
  assert (0 <= go_div (Z.abs (f - o) * oneE18) (Z.abs o)).
  { rewrite go_div_pos by lia. apply Z.div_pos; unfold oneE18; lia. }
  destruct (Z.ltb_spec (oneE18 - go_div (Z.abs (f - o) * oneE18) (Z.abs o)) 0); unfold oneE18 in *; lia.
Qed.

(** the fill score.  It lies between 0 and 1e18 on every input, is 1e18 for
    a fill at the oracle price, is 0 from a deviation of more than the whole
    price on, and never prefers the fill that is further away. *)
Theorem fill_score_sound f g o :
  0 <= computeFillScore f o <= oneE18 /\
  (o <> 0 -> computeFillScore o o = oneE18) /\
  (o <> 0 -> Z.abs o <= Z.abs (f - o) -> computeFillScore f o = 0) /\
  (Z.abs (f - o) <= Z.abs (g - o) -> computeFillScore g o <= computeFillScore f o).
Proof.
  split; [apply score_bounds|]. split_and!.
  - intros Ho. unfold computeFillScore. rewrite (proj2 (Z.eqb_neq o 0)), Z.sub_diag by done. cbv zeta.
    rewrite go_div_pos by lia. rewrite Z.mul_0_l, Z.div_0_l by lia. done.
  - intros Ho Hd. unfold computeFillScore. rewrite (proj2 (Z.eqb_neq o 0)) by done. cbv zeta.
    assert (oneE18 <= go_div (Z.abs (f - o) * oneE18) (Z.abs o)).
    { rewrite go_div_pos by lia. apply Z.div_le_lower_bound; unfold oneE18; nia. }
    destruct (Z.ltb_spec (oneE18 - go_div (Z.abs (f - o) * oneE18) (Z.abs o)) 0); lia.
  - intros Hd. unfold computeFillScore. destruct (Z.eqb_spec o 0); [lia|]. cbv zeta.
    pose proof (deviation_mono _ _ (Z.abs o) ltac:(lia) Hd).
    repeat match goal with |- context [?x <? 0] => destruct (Z.ltb_spec x 0) end; lia.
Qed.

Lemma score_loop_bounds lo hi fills : forall ws tv,
  lo * tv <= ws <= hi * tv -> 0 <= tv -> scores_between lo hi fills ->
  let '(ws', tv') := foldl (fun '(weightedSum, totalVolume) '(fill, oracle, size) =>
           (weightedSum + computeFillScore fill oracle * size, totalVolume + size)) (ws, tv) fills in
  lo * tv' <= ws' <= hi * tv' /\ 0 <= tv'.
Proof.
  induction fills as [|[[f o] s] fills IH]; intros ws tv Hw Ht Hs; cbn [foldl]; [done|].
  apply Forall_cons in Hs as [[Hsc Hsz] Hs]. apply IH; [|lia|done]. nia.
Qed.

Lemma average_bounds lo hi n d : 0 < d -> lo * d <= n <= hi * d -> lo <= go_div n d <= hi.
Proof.
  intros Hd Hn. rewrite go_div_pos by done. split.
  - apply Z.div_le_lower_bound; lia.
  - apply Z.lt_succ_r, Z.div_lt_upper_bound; lia.
Qed.

(** Averages stay within their inputs.  The average of a batch of positive
    total volume lies between the scores of its fills, and the updated rolling
    score between the current and the new score, for non-negative sizes and
    weights. *)
Theorem averages_within_inputs lo hi fills cs cw ns nw d :
  scores_between lo hi fills ->
  lo <= cs <= hi -> lo <= ns <= hi -> 0 <= cw -> 0 <= nw -> 0 <= d < 10000 ->
  (0 < (score_batch fills).2 -> lo <= (score_batch fills).1 <= hi) /\
  (0 < (rolling_score cs cw ns nw d).2 -> lo <= (rolling_score cs cw ns nw d).1 <= hi).
Proof.
  intros Hf Hcs Hns Hcw Hnw Hd. split.
  - unfold score_batch, score_loop. pose proof (score_loop_bounds lo hi fills 0 0 ltac:(lia) ltac:(lia) Hf) as H.
    destruct (foldl _ _ _) as [ws tv]. destruct (Z.eqb_spec tv 0); cbn [fst snd]; [lia|].
    intros Ht. apply average_bounds; lia.
  - unfold rolling_score. cbv zeta. set (w := cw * (10000 - d) + nw * 10000).
    destruct (Z.eqb_spec w 0); cbn [fst snd]; [lia|]. intros Hw. apply average_bounds; [done|].
    assert (0 <= cw * (10000 - d)) as H1 by nia. assert (0 <= nw * 10000) as H2 by lia.
    replace (cs * cw * (10000 - d)) with (cs * (cw * (10000 - d))) by lia.
    replace (ns * nw * 10000) with (ns * (nw * 10000)) by lia. unfold w. nia.
Qed.

Lemma averages_within_inputs_witness :
  (0 < (score_batch [(99, 100, 5); (103, 100, 2)]).2 ->
     0 <= (score_batch [(99, 100, 5); (103, 100, 2)]).1 <= oneE18) /\
  (0 < (rolling_score (9 * 10 ^ 17) 50 (10 ^ 18) 20 100).2 ->
     0 <= (rolling_score (9 * 10 ^ 17) 50 (10 ^ 18) 20 100).1 <= oneE18).
Proof.
  apply averages_within_inputs; try (unfold oneE18; lia).
  repeat constructor; vm_compute; discriminate.
Defined.

(** the weight returned with a rolling score is 10000 times the decayed
    volume the formula averages with, and the matching engine passes it back in.
    So after two fills of the same size, with the engine's decay of 1%, the
    second counts one part in 9901; by the documented formula on volumes it
    would count 100 parts in 199. *)
Theorem rolling_weight_is_scaled s t size :
  0 < size ->
  let '(s1, w1) := rolling_score 0 0 s size 100 in
  s1 = s /\ w1 = 10000 * size /\
  rolling_score s1 w1 t size 100 = ((9900 * s + t) / 9901, 10000 * (9901 * size)) /\
  (rolling_score s size t size 100).1 = (99 * s + 100 * t) / 199.
Proof.
  intros Hs. unfold rolling_score. cbv zeta.
  rewrite !(proj2 (Z.eqb_neq _ _)) by lia. rewrite !go_div_pos by lia.
  assert (0 * 0 * (10000 - 100) + s * size * 10000 = s * (0 * (10000 - 100) + size * 10000)) as E by lia.
  rewrite E, Z.div_mul by lia. split_and!; [done|lia| |].
  - f_equal; [|lia].
    replace (s * (0 * (10000 - 100) + size * 10000) * (10000 - 100) + t * size * 10000)
      with ((9900 * s + t) * (10000 * size)) by lia.
    replace ((0 * (10000 - 100) + size * 10000) * (10000 - 100) + size * 10000)
      with (9901 * (10000 * size)) by lia.
    by rewrite Z.div_mul_cancel_r by lia.
  - cbn [fst]. replace (s * size * (10000 - 100) + t * size * 10000)
      with ((99 * s + 100 * t) * (100 * size)) by lia.
    replace (size * (10000 - 100) + size * 10000) with (199 * (100 * size)) by lia.
    by rewrite Z.div_mul_cancel_r by lia.
Qed.

Lemma rolling_weight_is_scaled_witness :
  let '(s1, w1) := rolling_score 0 0 oneE18 7 100 in
  s1 = oneE18 /\ w1 = 10000 * 7 /\
  rolling_score s1 w1 0 7 100 = ((9900 * oneE18 + 0) / 9901, 10000 * (9901 * 7)) /\
  (rolling_score oneE18 7 0 7 100).1 = (99 * oneE18 + 100 * 0) / 199.
Proof. apply (rolling_weight_is_scaled oneE18 0 7). lia. Defined.
