(* ===== verification/Coins.v ===== *)
(** [sdk.Coins]: sets of coins by denomination.

    The type is the Cosmos SDK's and a parameter here: [CoinOps] names the
    operations the modules call, [CoinLaws] states what their documentation
    promises, in terms of the amount of each denomination.  [RefCoins] is an
    instance. *)

From stdpp Require Import base list gmap strings.
From Stdlib Require Import ZArith Lia.
From S2P Require Import Prelude.
Open Scope Z_scope.

Class CoinOps (C : Type) := {
  AmountOf : C -> string -> Z;
  (** [sdk.NewCoins()], [sdk.Coins{}], and nil *)
  NoCoins : C;
  (** [sdk.NewCoins(sdk.NewCoin(denom, amount))] *)
  OneCoin : string -> Z -> C;
  CoinsAdd : C -> C -> C;
  (** the difference, and whether some amount would be negative *)
  SafeSub : C -> C -> C * bool;
  CoinsMin : C -> C -> C;
  IsAllLTE : C -> C -> bool;
  IsZero : C -> bool;
  (** the coins as they are iterated over *)
  coin_list : C -> list (string * Z)
}.

Class CoinLaws (C : Type) {CO : CoinOps C} := {
  amount_nonneg : forall c d, 0 <= AmountOf c d;
  amount_none : forall d, AmountOf NoCoins d = 0;
  amount_one : forall d n d', 0 <= n -> AmountOf (OneCoin d n) d' = if decide (d' = d) then n else 0;
  amount_add : forall a b d, AmountOf (CoinsAdd a b) d = AmountOf a d + AmountOf b d;
  safe_sub_neg : forall a b, (SafeSub a b).2 = false <-> forall d, AmountOf b d <= AmountOf a d;
  safe_sub_amount : forall a b d, (SafeSub a b).2 = false ->
    AmountOf (SafeSub a b).1 d = AmountOf a d - AmountOf b d;
  amount_min : forall a b d, AmountOf (CoinsMin a b) d = Z.min (AmountOf a d) (AmountOf b d);
  all_lte : forall a b, IsAllLTE a b = true <-> forall d, AmountOf a d <= AmountOf b d;
  is_zero : forall c, IsZero c = true <-> forall d, AmountOf c d = 0;
  list_nodup : forall c, NoDup (coin_list c).*1;
  list_amount : forall c d n, (d, n) ∈ coin_list c <-> 0 < n /\ AmountOf c d = n
}.

Section Ops.
Context {C : Type} {CO : CoinOps C}.

(** [Sub] panics where an amount would be negative. *)
Definition Sub (a b : C) : option C := let '(c, neg) := SafeSub a b in if neg then None else Some c.

(** Coins are compared by their amounts. *)
Definition coins_eq (a b : C) : Prop := forall d, AmountOf a d = AmountOf b d.

#[export] Instance coins_eq_equiv : Equivalence coins_eq.
Proof.
  split.
  - intros a d. done.
  - intros a b H d. by rewrite H.
  - intros a b c H H' d. by rewrite H, H'.
Qed.

End Ops.

Section Facts.
Context {C : Type} {CO : CoinOps C} {CL : CoinLaws C}.

#[export] Instance CoinsAdd_proper : Proper (coins_eq ==> coins_eq ==> coins_eq) (@CoinsAdd C CO).
Proof. intros a a' Ha b b' Hb d. by rewrite !amount_add, (Ha d), (Hb d). Qed.

#[export] Instance CoinsMin_proper : Proper (coins_eq ==> coins_eq ==> coins_eq) (@CoinsMin C CO).
Proof. intros a a' Ha b b' Hb d. by rewrite !amount_min, (Ha d), (Hb d). Qed.

(** [Sub] returns exactly when every amount is covered. *)
Lemma Sub_Some a b : (forall d, AmountOf b d <= AmountOf a d) ->
  exists c, Sub a b = Some c /\ forall d, AmountOf c d = AmountOf a d - AmountOf b d.
Proof.
  intros H. pose proof H as Hn. apply safe_sub_neg in Hn. unfold Sub. pose proof (safe_sub_amount a b) as Ha.
  destruct (SafeSub a b) as [c neg]. cbn in *. subst neg. exists c. split; [done|]. intros d. by apply Ha.
Qed.

Lemma Sub_inv a b c : Sub a b = Some c ->
  (forall d, AmountOf b d <= AmountOf a d) /\ forall d, AmountOf c d = AmountOf a d - AmountOf b d.
Proof.
  unfold Sub. pose proof (safe_sub_neg a b) as Hn. pose proof (safe_sub_amount a b) as Ha.
  destruct (SafeSub a b) as [x []]; [done|]. cbn in *. intros [= <-]. split; [by apply Hn|]. intros d. by apply Ha.
Qed.

End Facts.

(** * A reference instance: positive amounts by denomination *)
Module RefCoins.
Abbreviation coins := (gmap string positive).

Definition of_Z (n : Z) : option positive := match n with Zpos p => Some p | _ => None end.
Definition amount (c : coins) (d : string) : Z := match c !! d with Some p => Zpos p | None => 0 end.
Definition combine (f : Z -> Z -> Z) (a b : coins) : coins :=
  merge (fun x y => of_Z (f (from_option Zpos 0 x) (from_option Zpos 0 y))) a b.
Definition lte (a b : coins) : bool := forallb (fun x => Zpos x.2 <=? amount b x.1) (map_to_list a).

#[global] Instance ops : CoinOps coins := {|
  AmountOf := amount;
  NoCoins := ∅;
  OneCoin := fun d n => match of_Z n with Some p => {[ d := p ]} | None => ∅ end;
  CoinsAdd := combine Z.add;
  SafeSub := fun a b => (combine Z.sub a b, negb (lte b a));
  CoinsMin := combine Z.min;
  IsAllLTE := lte;
  IsZero := fun c => bool_decide (c = ∅);
  coin_list := fun c => prod_map id Zpos <$> map_to_list c
|}.

Lemma amount_combine f a b d :
  f 0 0 = 0 -> 0 <= f (amount a d) (amount b d) -> amount (combine f a b) d = f (amount a d) (amount b d).
Proof.
  intros H0 Hf. unfold combine, amount in *. rewrite lookup_merge.
  destruct (a !! d) as [x|], (b !! d) as [y|]; cbn in *; try done;
    match goal with |- context [of_Z ?z] => destruct z eqn:E end; cbn; congruence || lia.
Qed.

Lemma lte_spec a b : lte a b = true <-> forall d, amount a d <= amount b d.
Proof.
  unfold lte. rewrite forallb_forall. split.
  - intros H d. unfold amount at 1. destruct (a !! d) as [p|] eqn:E.
    + specialize (H (d, p)). apply Z.leb_le, H. apply list_elem_of_In. by apply elem_of_map_to_list.
    + unfold amount. destruct (b !! d); lia.
  - intros H [d p] Hin. apply list_elem_of_In, elem_of_map_to_list in Hin. apply Z.leb_le. cbn.
    specialize (H d). unfold amount in H at 1. by rewrite Hin in H.
Qed.

#[global] Instance laws : CoinLaws coins.
Proof.
  assert (forall (c : coins) d, 0 <= amount c d) as Hnn by (intros c d; unfold amount; destruct (c !! d); lia).
  constructor; cbn.
  - done.
  - intros d. unfold amount. by rewrite lookup_empty.
  - intros d n d' Hn. unfold amount. destruct n; cbn; [by rewrite lookup_empty; case_decide| |lia].
    case_decide as H; [subst; by rewrite lookup_singleton_eq|by rewrite lookup_singleton_ne].
  - intros a b d. pose proof (Hnn a d). pose proof (Hnn b d). apply amount_combine; lia.
  - intros a b. rewrite negb_false_iff. apply lte_spec.
  - intros a b d. rewrite negb_false_iff, lte_spec. intros H. specialize (H d). apply amount_combine; lia.
  - intros a b d. pose proof (Hnn a d). pose proof (Hnn b d). apply amount_combine; lia.
  - apply lte_spec.
  - intros c. rewrite bool_decide_eq_true. split; [by intros ->|]. intros H. apply map_empty. intros d.
    specialize (H d). unfold amount in H. by destruct (c !! d).
  - intros c. rewrite <- list_fmap_compose. apply NoDup_fst_map_to_list.
  - intros c d n. rewrite list_elem_of_fmap. unfold amount. split.
    + intros ([d' p] & [= -> ->] & H%elem_of_map_to_list). by rewrite H.
    + intros [Hn H]. destruct (c !! d) as [p|] eqn:E; [|lia]. exists (d, p). subst n. split; [done|].
      by apply elem_of_map_to_list.
Qed.
End RefCoins.
