(* ===== verification/VestingSchedule.v ===== *)
(** [x/vesting/types/schedule.go]: step functions of coins over time.

    A schedule is a start time and a list of periods, each with a length and the
    coins that are released at its end.  Times are [int64] and are wrapped where
    the code adds them.  The Go functions walk two schedules with indices and
    closures; here the lists are consumed, and the closures are arguments of one
    [walk], which has the loop structure both functions share. *)

From stdpp Require Import base list gmap strings.
From Stdlib Require Import ZArith Lia.
From S2P Require Import Prelude Coins.
Open Scope Z_scope.

(** [sdkvesting.Period] *)
Record Period (C : Type) := mkPeriod { Length : Z; Amount : C }.
Arguments mkPeriod {C} _ _.
Arguments Length {C} _.
Arguments Amount {C} _.

(** The methods of [sdkvesting.Periods] that are called. *)
Class PeriodsOps (C : Type) := {
  TotalLength : list (Period C) -> Z;
  TotalAmount : list (Period C) -> C
}.

Class PeriodsLaws (C : Type) {CO : CoinOps C} {PO : PeriodsOps C} := {
  total_length : forall ps, Forall (fun p => 0 <= Length p) ps -> sumZ Length ps < 2 ^ 63 ->
    TotalLength ps = sumZ Length ps;
  total_amount : forall ps d, AmountOf (TotalAmount ps) d = sumZ (fun p => AmountOf (Amount p) d) ps
}.

(** [utils.go] *)
Definition Max64 (i j : Z) : Z := if j <? i then i else j.
Definition Min64 (i j : Z) : Z := if i <? j then i else j.

Section Schedule.
Context {C : Type} {CO : CoinOps C}.
Implicit Types ps : list (Period C).

Definition CoinEq (a b : C) : bool := IsAllLTE a b && IsAllLTE b a.

(** * Reading *)

Fixpoint read_loop (readTime elapsedTime : Z) ps (coins : C) : C :=
  match ps with
  | [] => coins
  | period :: ps =>
    if readTime <? i64 (elapsedTime + Length period) then coins
    else read_loop readTime (i64 (elapsedTime + Length period)) ps (CoinsAdd coins (Amount period))
  end.

Definition ReadSchedule (startTime endTime : Z) ps (totalCoins : C) (readTime : Z) : C :=
  if readTime <=? startTime then NoCoins
  else if endTime <=? readTime then totalCoins
  else read_loop readTime startTime ps NoCoins.

Fixpoint count_loop (readTime elapsedTime : Z) ps (passedPeriods : nat) : nat :=
  match ps with
  | [] => passedPeriods
  | period :: ps =>
    if readTime <? i64 (elapsedTime + Length period) then passedPeriods
    else count_loop readTime (i64 (elapsedTime + Length period)) ps (S passedPeriods)
  end.

Definition ReadPastPeriodCount (startTime endTime : Z) ps (readTime : Z) : nat :=
  if readTime <=? startTime then O
  else if endTime <=? readTime then length ps
  else count_loop readTime startTime ps O.

(** * Walking two schedules *)

Section Walk.
Context {S : Type}.
Variables (consumeA consumeB : Z -> Period C -> S -> S) (consumeBoth : Z -> Period C -> Period C -> S -> S).

(** While both have events, the next one, or both if they coincide; then the rest
    of the one that is left. *)
Fixpoint walk (fuel : nat) (timeA timeB : Z) (psA psB : list (Period C)) (s : S) : S :=
  match fuel with
  | O => s
  | Datatypes.S fuel =>
    match psA, psB with
    | a :: psA', b :: psB' =>
      let nextA := i64 (timeA + Length a) in
      let nextB := i64 (timeB + Length b) in
      if nextA <? nextB then walk fuel nextA timeB psA' psB (consumeA nextA a s)
      else if nextB <? nextA then walk fuel timeA nextB psA psB' (consumeB nextB b s)
      else walk fuel nextA nextA psA' psB' (consumeBoth nextA a b s)
    | a :: psA', [] =>
      let nextA := i64 (timeA + Length a) in walk fuel nextA timeB psA' [] (consumeA nextA a s)
    | [], b :: psB' =>
      let nextB := i64 (timeB + Length b) in walk fuel timeA nextB [] psB' (consumeB nextB b s)
    | [], [] => s
    end
  end.

(** Each step consumes a period. *)
Definition walk_all (timeA timeB : Z) (psA psB : list (Period C)) (s : S) : S :=
  walk (length psA + length psB) timeA timeB psA psB s.
End Walk.

(** * Union *)

(** The variables the closures of [DisjunctPeriods] write. *)
Record dj_state := mkDj { dj_endTime : Z; dj_periods : list (Period C) }.

Definition dj_emit (nextTime : Z) (amount : C) (s : dj_state) : dj_state :=
  mkDj nextTime (dj_periods s ++ [mkPeriod (i64 (nextTime - dj_endTime s)) amount]).

Definition DisjunctPeriods (startA startB : Z) (psA psB : list (Period C)) : Z * Z * list (Period C) :=
  let startTime := Min64 startA startB in
  let s := walk_all (fun t a => dj_emit t (Amount a)) (fun t b => dj_emit t (Amount b))
             (fun t a b => dj_emit t (CoinsAdd (Amount a) (Amount b)))
             startA startB psA psB (mkDj startTime []) in
  (startTime, dj_endTime s, dj_periods s).

(** * Minimum *)

Record cj_state := mkCj {
  cj_resulting : C;
  cj_totalA : C;
  cj_totalB : C;
  cj_endTime : Z;
  cj_periods : list (Period C)
}.

Definition cj_emit (endTime : Z) (coins : C) (s : cj_state) : cj_state :=
  mkCj (CoinsAdd (cj_resulting s) coins) (cj_totalA s) (cj_totalB s) endTime
    (cj_periods s ++ [mkPeriod (i64 (endTime - cj_endTime s)) coins]).

(** The common end of the three closures.  [Sub] cannot panic after the test. *)
Definition cj_settle (t : Z) (s : cj_state) : cj_state :=
  let min := CoinsMin (cj_totalA s) (cj_totalB s) in
  if IsAllLTE (cj_resulting s) min then
    let diff := (SafeSub min (cj_resulting s)).1 in
    if negb (IsZero diff) then cj_emit t diff s else s
  else s.

Definition cj_addA (a : Period C) (s : cj_state) : cj_state :=
  mkCj (cj_resulting s) (CoinsAdd (cj_totalA s) (Amount a)) (cj_totalB s) (cj_endTime s) (cj_periods s).
Definition cj_addB (b : Period C) (s : cj_state) : cj_state :=
  mkCj (cj_resulting s) (cj_totalA s) (CoinsAdd (cj_totalB s) (Amount b)) (cj_endTime s) (cj_periods s).

Definition ConjunctPeriods (startA startB : Z) (psA psB : list (Period C)) : Z * Z * list (Period C) :=
  let startTime := Min64 startA startB in
  let s := walk_all (fun t a s => cj_settle t (cj_addA a s)) (fun t b s => cj_settle t (cj_addB b s))
             (fun t a b s => cj_settle t (cj_addB b (cj_addA a s)))
             startA startB psA psB (mkCj NoCoins NoCoins NoCoins startTime []) in
  (startTime, cj_endTime s, cj_periods s).

(** * Alignment *)

Definition extend_first (n : Z) ps : list (Period C) :=
  match ps with [] => [] | p :: ps => mkPeriod (i64 (Length p + n)) (Amount p) :: ps end.

(** The periods are changed in place; here the new ones are returned too. *)
Definition AlignSchedules {PO : PeriodsOps C} (startA startB : Z) (psA psB : list (Period C)) :
    Z * Z * list (Period C) * list (Period C) :=
  let startTime := Min64 startA startB in
  let psA := extend_first (i64 (startA - startTime)) psA in
  let psB := extend_first (i64 (startB - startTime)) psB in
  let endA := i64 (startTime + TotalLength psA) in
  let endB := i64 (startTime + TotalLength psB) in
  (startTime, Max64 endA endB, psA, psB).

(** * The step function *)

(** The events of a schedule with their times. *)
Fixpoint events (time : Z) ps : list (Z * C) :=
  match ps with
  | [] => []
  | p :: ps => (time + Length p, Amount p) :: events (time + Length p) ps
  end.

(** The amount released up to and including a time. *)
Definition released (evs : list (Z * C)) (t : Z) (d : string) : Z :=
  sumZ (fun e => if e.1 <=? t then AmountOf e.2 d else 0) evs.

(** A schedule whose times do not overflow. *)
Definition sched_ok (time : Z) ps : Prop :=
  0 <= time /\ Forall (fun p => 0 <= Length p) ps /\ time + sumZ Length ps < 2 ^ 63.

Definition total_of ps (d : string) : Z := sumZ (fun p => AmountOf (Amount p) d) ps.

End Schedule.


(** [x/vesting/types/schedule.go]: reading, union and minimum of schedules are the
    value, sum and minimum of step functions. *)

Section Steps.
Context {C : Type} {CO : CoinOps C} {CL : CoinLaws C}.
Implicit Types ps : list (Period C).

Lemma i64_time x : 0 <= x < 2 ^ 63 -> i64 x = x.
Proof. intros H. apply wrapS_small; lia. Qed.

Lemma lengths_nonneg ps : Forall (fun p => 0 <= Length p) ps -> 0 <= sumZ Length ps.
Proof. intros H. by apply sumZ_nonneg. Qed.

Lemma sched_ok_cons time p ps :
  sched_ok time (p :: ps) ->
  i64 (time + Length p) = time + Length p /\ 0 <= Length p /\ sched_ok (time + Length p) ps.
Proof.
  intros (Ht & [Hp Hps]%Forall_cons & Hs). rewrite sumZ_cons in Hs. pose proof (lengths_nonneg _ Hps).
  split_and!; [apply i64_time; lia|done|]. split_and!; [lia|done|lia].
Qed.

(** * Released amounts *)

Lemma released_cons (e : Z * C) evs t d :
  released (e :: evs) t d = (if e.1 <=? t then AmountOf e.2 d else 0) + released evs t d.
Proof. apply sumZ_cons. Qed.

Lemma released_nonneg (evs : list (Z * C)) t d : 0 <= released evs t d.
Proof. apply sumZ_nonneg, Forall_forall. intros e _. case_match; [apply amount_nonneg|done]. Qed.

Lemma released_mono (evs : list (Z * C)) t t' d : t <= t' -> released evs t d <= released evs t' d.
Proof.
  intros H. apply sumZ_le. intros e _. pose proof (amount_nonneg e.2 d).
  destruct (Z.leb_spec e.1 t), (Z.leb_spec e.1 t'); lia.
Qed.

Lemma events_from time ps : Forall (fun p => 0 <= Length p) ps -> Forall (fun e => time <= e.1) (events time ps).
Proof.
  revert time. induction ps as [|p ps IH]; intros time H; [constructor|]. apply Forall_cons in H as [Hp H].
  cbn [events]. apply Forall_cons. cbn. split; [lia|]. eapply Forall_impl; [by apply IH|]. cbn. lia.
Qed.

Lemma released_early (evs : list (Z * C)) time t d :
  Forall (fun e => time <= e.1) evs -> t < time -> released evs t d = 0.
Proof.
  intros H Ht. induction H as [|e evs He _ IH]; [done|]. rewrite released_cons, IH.
  destruct (Z.leb_spec e.1 t); lia.
Qed.

(** Nothing before the first event. *)
Lemma released_before time p ps t d :
  sched_ok time (p :: ps) -> t < time + Length p -> released (events time (p :: ps)) t d = 0.
Proof.
  intros H Ht. destruct (sched_ok_cons _ _ _ H) as (_ & _ & _ & Hps & _).
  apply (released_early _ (time + Length p)); [|done]. cbn [events]. apply Forall_cons. split; [done|].
  by apply events_from.
Qed.

(** Everything from the last one on. *)
Lemma released_all time ps t d :
  Forall (fun p => 0 <= Length p) ps -> time + sumZ Length ps <= t -> released (events time ps) t d = total_of ps d.
Proof.
  unfold total_of. revert time. induction ps as [|p ps IH]; intros time H Ht; [done|]. apply Forall_cons in H as [Hp H].
  rewrite sumZ_cons in *. pose proof (lengths_nonneg _ H). cbn [events]. rewrite released_cons. cbn [fst snd].
  rewrite IH by (done || lia). destruct (Z.leb_spec (time + Length p) t); lia.
Qed.

Lemma released_le_total time ps t d :
  Forall (fun p => 0 <= Length p) ps -> released (events time ps) t d <= total_of ps d.
Proof.
  intros H. rewrite <- (released_all time ps (Z.max t (time + sumZ Length ps)) d) by (done || lia).
  apply released_mono. lia.
Qed.

(** * Reading *)

Lemma read_loop_released ps d t : forall time c,
  sched_ok time ps -> AmountOf (read_loop t time ps c) d = AmountOf c d + released (events time ps) t d.
Proof.
  induction ps as [|p ps IH]; intros time c H; [cbn; lia|].
  destruct (sched_ok_cons _ _ _ H) as (Hi & Hp & Hps). cbn [read_loop]. rewrite Hi.
  destruct (Z.ltb_spec t (time + Length p)) as [Hlt|Hge].
  - rewrite released_before by done. lia.
  - rewrite IH, amount_add by done. cbn [events]. rewrite released_cons. cbn [fst snd].
    destruct (Z.leb_spec (time + Length p) t); lia.
Qed.

(** Reading with the shortcut for late times. *)
Lemma ReadSchedule_released start fin ps total t d :
  sched_ok start ps -> start + sumZ Length ps <= fin -> (forall d, AmountOf total d = total_of ps d) ->
  AmountOf (ReadSchedule start fin ps total t) d = if t <=? start then 0 else released (events start ps) t d.
Proof.
  intros H Hf Ht. unfold ReadSchedule. destruct (Z.leb_spec t start); [apply amount_none|].
  destruct (Z.leb_spec fin t).
  - rewrite Ht, released_all; [done|apply H|lia].
  - rewrite read_loop_released, amount_none by done. lia.
Qed.

(** The count of passed periods is the length of the prefix that is released. *)
Lemma count_loop_spec ps t : forall time n,
  sched_ok time ps ->
  exists k, count_loop t time ps n = (n + k)%nat /\ (k <= length ps)%nat /\
    time + sumZ Length (take k ps) <= Z.max time t /\
    forall t' d, released (events time (take k ps)) t' d = released (events time ps) (Z.min t' t) d.
Proof.
  induction ps as [|p ps IH]; intros time n H.
  { exists 0%nat. cbn. split_and!; try lia; done. }
  destruct (sched_ok_cons _ _ _ H) as (Hi & Hp & Hps). cbn [count_loop]. rewrite Hi.
  destruct (Z.ltb_spec t (time + Length p)) as [Hlt|Hge].
  - exists 0%nat. split_and!; [lia|lia|cbn; lia|]. intros t' d. rewrite released_before; [done|done|lia].
  - destruct (IH (time + Length p) (S n) Hps) as (k & Hk & Hl & Ht & Hr). exists (S k).
    cbn [take length]. rewrite sumZ_cons. split_and!; [lia|lia|lia|].
    intros t' d. cbn [events]. rewrite !released_cons, Hr. cbn [fst snd].
    destruct (Z.leb_spec (time + Length p) t'), (Z.leb_spec (time + Length p) (Z.min t' t)); lia.
Qed.

(** * Union *)

(** The next event of a schedule is not before [E]. *)
Definition not_before (E time : Z) ps : Prop :=
  match ps with [] => True | p :: _ => E <= time + Length p end.

Lemma not_before_next E time p ps : sched_ok time (p :: ps) -> E <= time + Length p -> not_before E (time + Length p) ps.
Proof.
  intros H HE. destruct (sched_ok_cons _ _ _ H) as (_ & _ & _ & Hps & _).
  destruct ps as [|q ps]; [done|]. apply Forall_cons in Hps as [Hq _]. cbn. lia.
Qed.

Lemma not_before_start E time ps : sched_ok time ps -> E <= time -> not_before E time ps.
Proof.
  intros H HE. destruct ps as [|p ps]; [done|]. destruct (sched_ok_cons _ _ _ H) as (_ & ? & _). cbn. lia.
Qed.

(** Appending a period that ends at [t]. *)
Lemma emit_period (E t : Z) (c : C) new :
  0 <= E -> E <= t -> sched_ok t new ->
  sched_ok E (mkPeriod (i64 (t - E)) c :: new) /\
  events E (mkPeriod (i64 (t - E)) c :: new) = (t, c) :: events t new /\
  E + sumZ Length (mkPeriod (i64 (t - E)) c :: new) = t + sumZ Length new.
Proof.
  intros HE Ht (H0 & Hn & Hs). pose proof (lengths_nonneg _ Hn). rewrite i64_time by lia. rewrite sumZ_cons. cbn [Length Amount].
  split_and!; [split_and!; [done| |]| |lia].
  - apply Forall_cons. cbn. split; [lia|done].
  - rewrite sumZ_cons. cbn. lia.
  - cbn [events Length Amount]. by replace (E + (t - E)) with t by lia.
Qed.

(** [s'] continues [P] by periods that release what [A] and [B] release. *)
Definition dj_done (E : Z) (P : list (Period C)) (f : Z -> string -> Z) (s' : dj_state) : Prop :=
  exists new, dj_periods s' = P ++ new /\ sched_ok E new /\ dj_endTime s' = E + sumZ Length new /\
    forall t d, released (events E new) t d = f t d.

Lemma dj_done_emit E P t c f f' s' :
  0 <= E -> E <= t -> dj_done t (P ++ [mkPeriod (i64 (t - E)) c]) f s' ->
  (forall x d, f' x d = (if t <=? x then AmountOf c d else 0) + f x d) -> dj_done E P f' s'.
Proof.
  intros HE Ht (new & Hp & Hok & He & Hr) Hf. destruct (emit_period E t c new HE Ht Hok) as (H1 & H2 & H3).
  eexists. split_and!; [by rewrite Hp, <- app_assoc|done|by rewrite He|].
  intros x d. cbn [app]. by rewrite H2, released_cons, Hr, Hf.
Qed.

Lemma sched_ok_range time ps : sched_ok time ps -> 0 <= time < 2 ^ 63.
Proof. intros (H & Hn & Hs). pose proof (lengths_nonneg _ Hn). lia. Qed.

Lemma dj_done_nil E P : 0 <= E < 2 ^ 63 -> dj_done E P (fun _ _ => 0) (mkDj E P).
Proof.
  intros HE. exists []. rewrite app_nil_r. split; [done|]. split; [|split; [cbn; lia|done]].
  split; [lia|]. split; [constructor|cbn; lia].
Qed.

Ltac walk_side :=
  first [ done | cbn [length not_before] in *; lia | eapply sched_ok_range; eassumption
        | apply not_before_next; [eassumption|lia] | apply not_before_start; [eassumption|lia] ].

Lemma walk_disjunct fuel : forall tA tB psA psB E P,
  (length psA + length psB <= fuel)%nat -> sched_ok tA psA -> sched_ok tB psB ->
  0 <= E < 2 ^ 63 -> not_before E tA psA -> not_before E tB psB ->
  dj_done E P (fun t d => released (events tA psA) t d + released (events tB psB) t d)
    (walk (fun t a => dj_emit t (Amount a)) (fun t b => dj_emit t (Amount b))
       (fun t a b => dj_emit t (CoinsAdd (Amount a) (Amount b))) fuel tA tB psA psB (mkDj E P)).
Proof.
  induction fuel as [|fuel IH]; intros tA tB psA psB E P Hf HA HB HE HnA HnB.
  { destruct psA, psB; cbn in Hf; try lia. by apply dj_done_nil. }
  destruct psA as [|a psA], psB as [|b psB]; cbn [walk length] in *.
  - by apply dj_done_nil.
  - destruct (sched_ok_cons _ _ _ HB) as (Ib & Hb & HB'). rewrite Ib. cbn [not_before] in HnB.
    eapply (dj_done_emit E P (tB + Length b) (Amount b)); [lia|lia|apply IH; walk_side|].
    intros x d. cbn [events]. rewrite released_cons. cbn [fst snd]. lia.
  - destruct (sched_ok_cons _ _ _ HA) as (Ia & Ha & HA'). rewrite Ia. cbn [not_before] in HnA.
    eapply (dj_done_emit E P (tA + Length a) (Amount a)); [lia|lia|apply IH; walk_side|].
    intros x d. cbn [events]. rewrite released_cons. cbn [fst snd]. lia.
  - destruct (sched_ok_cons _ _ _ HA) as (Ia & Ha & HA'), (sched_ok_cons _ _ _ HB) as (Ib & Hb & HB').
    rewrite Ia, Ib. cbn [not_before] in HnA, HnB.
    pose proof (sched_ok_range _ _ HA') as HtA. pose proof (sched_ok_range _ _ HB') as HtB.
    destruct (Z.ltb_spec (tA + Length a) (tB + Length b)); [|destruct (Z.ltb_spec (tB + Length b) (tA + Length a))].
    + eapply (dj_done_emit E P (tA + Length a) (Amount a)); [lia|lia|apply IH; walk_side|].
      intros x d. cbn [events]. rewrite !released_cons. cbn [fst snd]. lia.
    + eapply (dj_done_emit E P (tB + Length b) (Amount b)); [lia|lia|apply IH; walk_side|].
      intros x d. cbn [events]. rewrite !released_cons. cbn [fst snd]. lia.
    + assert (tB + Length b = tA + Length a) as Heq by lia. rewrite Heq in HB'.
      assert (not_before (tA + Length a) (tA + Length a) psB) as HnB' by (rewrite <- Heq at 2; apply not_before_next; [done|lia]).
      eapply (dj_done_emit E P (tA + Length a) (CoinsAdd (Amount a) (Amount b))); [lia|lia|apply IH; walk_side|].
      intros x d. cbn [events]. rewrite !released_cons, Heq. cbn [fst snd]. rewrite amount_add. destruct (_ <=? x); lia.
Qed.

Lemma not_before_min64 (tA tB : Z) (psA psB : list (Period C)) :
  sched_ok tA psA -> sched_ok tB psB ->
  0 <= Min64 tA tB < 2 ^ 63 /\ not_before (Min64 tA tB) tA psA /\ not_before (Min64 tA tB) tB psB.
Proof.
  intros HA HB. pose proof (sched_ok_range _ _ HA). pose proof (sched_ok_range _ _ HB).
  unfold Min64. destruct (Z.ltb_spec tA tB); (split; [lia|split]); apply not_before_start; done || lia.
Qed.

Lemma DisjunctPeriods_released tA tB psA psB :
  sched_ok tA psA -> sched_ok tB psB ->
  let '(start, fin, ps) := DisjunctPeriods tA tB psA psB in
  start = Min64 tA tB /\ sched_ok start ps /\ fin = start + sumZ Length ps /\
  forall t d, released (events start ps) t d = released (events tA psA) t d + released (events tB psB) t d.
Proof.
  intros HA HB. destruct (not_before_min64 tA tB psA psB HA HB) as (HE & HnA & HnB).
  destruct (walk_disjunct (length psA + length psB) tA tB psA psB (Min64 tA tB) []) as (new & Hp & Hok & He & Hr); try done.
  unfold DisjunctPeriods, walk_all. cbn [app] in Hp. by rewrite Hp, He.
Qed.

(** * Minimum *)

(** [s'] continues [s] by periods, none of them before [L], with which the
    resulting amount grows as [f]. *)
Definition cj_done (L : Z) (f : Z -> string -> Z) (s s' : cj_state) : Prop :=
  exists new, cj_periods s' = cj_periods s ++ new /\ sched_ok (cj_endTime s) new /\
    cj_endTime s' = cj_endTime s + sumZ Length new /\
    Forall (fun e => L <= e.1) (events (cj_endTime s) new) /\
    forall t d, AmountOf (cj_resulting s) d + released (events (cj_endTime s) new) t d = f t d.

Definition cj_min (s : cj_state (C := C)) (d : string) : Z := Z.min (AmountOf (cj_totalA s) d) (AmountOf (cj_totalB s) d).

Lemma cj_settle_spec t s :
  (forall d, AmountOf (cj_resulting s) d <= cj_min s d) ->
  let s2 := cj_settle t s in
  cj_totalA s2 = cj_totalA s /\ cj_totalB s2 = cj_totalB s /\ (forall d, AmountOf (cj_resulting s2) d = cj_min s d) /\
  ((cj_endTime s2 = cj_endTime s /\ cj_periods s2 = cj_periods s /\ forall d, AmountOf (cj_resulting s) d = cj_min s d) \/
   exists diff, cj_endTime s2 = t /\ cj_periods s2 = cj_periods s ++ [mkPeriod (i64 (t - cj_endTime s)) diff] /\
     forall d, AmountOf diff d = cj_min s d - AmountOf (cj_resulting s) d).
Proof.
  intros H. unfold cj_settle. set (m := CoinsMin _ _).
  assert (forall d, AmountOf m d = cj_min s d) as Hm by (intros d; apply amount_min).
  assert (IsAllLTE (cj_resulting s) m = true) as -> by (apply all_lte; intros d; rewrite Hm; apply H).
  assert ((SafeSub m (cj_resulting s)).2 = false) as Hn by (apply safe_sub_neg; intros d; rewrite Hm; apply H).
  pose proof (fun d => safe_sub_amount m (cj_resulting s) d Hn) as Hd. destruct (SafeSub m _) as [diff neg]. cbn [fst] in *.
  destruct (IsZero diff) eqn:Hz; cbn [negb].
  - assert (forall d, AmountOf (cj_resulting s) d = cj_min s d) as He.
    { intros d. pose proof (proj1 (is_zero diff) Hz d). rewrite Hd, Hm in *. lia. }
    split_and!; [done..|]. by left.
  - split_and!; [done|done| |].
    + intros d. cbn. rewrite amount_add, Hd, Hm. lia.
    + right. exists diff. split_and!; [done..|]. intros d. by rewrite Hd, Hm.
Qed.

Lemma cj_done_step L t f f2 s s1 s' :
  0 <= cj_endTime s -> cj_endTime s <= t < 2 ^ 63 -> L <= t ->
  cj_resulting s1 = cj_resulting s -> cj_endTime s1 = cj_endTime s -> cj_periods s1 = cj_periods s ->
  (forall d, AmountOf (cj_resulting s) d <= cj_min s1 d) ->
  cj_done t f2 (cj_settle t s1) s' ->
  (forall x d, t <= x -> f x d = f2 x d) -> (forall x d, x < t -> f x d = AmountOf (cj_resulting s) d) ->
  cj_done L f s s'.
Proof.
  intros H0 Ht HL Er Ee Ep Hle (new & Hp & Hok & He & Hlow & Hf) Hge Hlt.
  destruct (cj_settle_spec t s1) as (EA & EB & Hmin & Hcase); [by rewrite Er|].
  rewrite Er, Ee, Ep in Hcase. destruct Hcase as [(E1 & E2 & Hr)|(diff & E1 & E2 & Hd)].
  - exists new. rewrite E1, E2 in *. split_and!; [done|apply Hok..|done| |].
    + eapply Forall_impl; [exact Hlow|]. cbn. lia.
    + intros x d. destruct (Z.lt_ge_cases x t).
      * rewrite Hlt, (released_early _ t) by done. lia.
      * rewrite Hge, <- Hf, Hmin, Hr by done. done.
  - rewrite E1, E2 in *. destruct (emit_period (cj_endTime s) t diff new H0 ltac:(lia) Hok) as (G1 & G2 & G3).
    eexists. split; [by rewrite Hp, <- app_assoc|]. cbn [app]. rewrite G2. split; [done|]. split; [congruence|]. split.
    + apply Forall_cons. split; [cbn; lia|]. eapply Forall_impl; [exact Hlow|]. cbn. lia.
    + intros x d. rewrite released_cons. cbn [fst snd]. destruct (Z.leb_spec t x).
      * rewrite Hge, <- Hf, Hmin, Hd by done. lia.
      * rewrite Hlt, (released_early _ t) by done. lia.
Qed.

Definition cj_ok (s : cj_state (C := C)) : Prop := forall d, AmountOf (cj_resulting s) d = cj_min s d.

(** What is left to happen in two schedules on top of the totals of [s]. *)
Definition cj_rest (tA tB : Z) (psA psB : list (Period C)) (s : cj_state) (t : Z) (d : string) : Z :=
  Z.min (AmountOf (cj_totalA s) d + released (events tA psA) t d)
        (AmountOf (cj_totalB s) d + released (events tB psB) t d).

Lemma cj_settle_next t s1 :
  0 <= cj_endTime s1 <= t -> (forall d, AmountOf (cj_resulting s1) d <= cj_min s1 d) ->
  let s2 := cj_settle t s1 in
  cj_ok s2 /\ 0 <= cj_endTime s2 <= t /\ cj_totalA s2 = cj_totalA s1 /\ cj_totalB s2 = cj_totalB s1.
Proof.
  intros Ht H. destruct (cj_settle_spec t s1 H) as (EA & EB & Hm & Hcase).
  split_and!; [|destruct Hcase as [(-> & _)|(? & -> & _)]; lia..|done|done].
  intros d. rewrite Hm. unfold cj_min. by rewrite EA, EB.
Qed.

Lemma cj_done_nil L s : 0 <= cj_endTime s < 2 ^ 63 -> cj_done L (fun _ d => AmountOf (cj_resulting s) d) s s.
Proof.
  intros HE. exists []. rewrite app_nil_r. split; [done|]. split; [split; [lia|split; [constructor|cbn; lia]]|].
  split; [cbn; lia|]. split; [constructor|]. intros t d. unfold released. cbn. lia.
Qed.

Lemma cj_done_ext L f f' s s' : (forall t d, f' t d = f t d) -> cj_done L f s s' -> cj_done L f' s s'.
Proof. intros H (new & ? & ? & ? & ? & Hf). exists new. split_and!; try done; [apply H0..|]. intros t d. by rewrite H, Hf. Qed.

(** One iteration: totals grow, the result is settled at [t], and the rest of the
    walk starts from there. *)
Lemma cj_iterate L t tA tB psA psB tA' tB' psA' psB' s s1 s' :
  cj_ok s -> 0 <= cj_endTime s <= t -> t < 2 ^ 63 -> L <= t ->
  cj_resulting s1 = cj_resulting s -> cj_endTime s1 = cj_endTime s -> cj_periods s1 = cj_periods s ->
  (forall d, AmountOf (cj_totalA s) d <= AmountOf (cj_totalA s1) d) ->
  (forall d, AmountOf (cj_totalB s) d <= AmountOf (cj_totalB s1) d) ->
  (forall x d, t <= x -> cj_rest tA tB psA psB s x d = cj_rest tA' tB' psA' psB' s1 x d) ->
  not_before t tA psA -> not_before t tB psB -> sched_ok tA psA -> sched_ok tB psB ->
  (forall s2, cj_ok s2 -> 0 <= cj_endTime s2 <= t -> cj_totalA s2 = cj_totalA s1 -> cj_totalB s2 = cj_totalB s1 ->
     s2 = cj_settle t s1 -> cj_done t (cj_rest tA' tB' psA' psB' s2) s2 s') ->
  cj_done L (cj_rest tA tB psA psB s) s s'.
Proof.
  intros Hok HE Ht HL Er Ee Ep HA HB Hge HnA HnB HsA HsB IH.
  assert (forall d, AmountOf (cj_resulting s) d <= cj_min s1 d) as Hle.
  { intros d. rewrite Hok. unfold cj_min. specialize (HA d). specialize (HB d). lia. }
  destruct (cj_settle_next t s1) as (Hok2 & HE2 & EA & EB); [by rewrite Ee|by rewrite Er|].
  specialize (IH _ Hok2 HE2 EA EB eq_refl).
  apply (cj_done_step L t _ (cj_rest tA' tB' psA' psB' (cj_settle t s1)) s s1 s'); try done; [lia|lia| |].
  - intros x d Hx. rewrite Hge by done. unfold cj_rest. by rewrite EA, EB.
  - intros x d Hx. unfold cj_rest. rewrite Hok.
    assert (forall time ps, sched_ok time ps -> not_before t time ps -> released (events time ps) x d = 0) as Hz.
    { intros time [|p ps] Hs Hn; [done|]. apply released_before; [done|]. cbn in Hn. lia. }
    rewrite !Hz by done. unfold cj_min. lia.
Qed.

Lemma cj_done_rest_nil L tA tB s :
  cj_ok s -> 0 <= cj_endTime s < 2 ^ 63 -> cj_done L (cj_rest tA tB [] [] s) s s.
Proof.
  intros Hok HE. apply (cj_done_ext L (fun _ d => AmountOf (cj_resulting s) d)); [|by apply cj_done_nil].
  intros t d. rewrite Hok. unfold cj_rest, cj_min, released. cbn. lia.
Qed.

(** The three closures. *)
Lemma cj_consumeA L tA tB a psA psB s s' :
  let t := tA + Length a in
  cj_ok s -> 0 <= cj_endTime s <= t -> L <= t -> not_before t tB psB ->
  sched_ok tA (a :: psA) -> sched_ok tB psB ->
  (forall s2, cj_ok s2 -> 0 <= cj_endTime s2 <= t -> s2 = cj_settle t (cj_addA a s) ->
     cj_done t (cj_rest t tB psA psB s2) s2 s') ->
  cj_done L (cj_rest tA tB (a :: psA) psB s) s s'.
Proof.
  intros t Hok HE HL Hn HA HB IH. destruct (sched_ok_cons _ _ _ HA) as (_ & _ & HA'). pose proof (sched_ok_range _ _ HA').
  apply (cj_iterate L t _ _ _ _ t tB psA psB s (cj_addA a s)); try done; try (unfold t; cbn; lia).
  - intros d. cbn. rewrite amount_add. pose proof (amount_nonneg (Amount a) d). lia.
  - intros x d Hx. unfold cj_rest. cbn [events cj_addA cj_totalA cj_totalB]. rewrite released_cons, amount_add. cbn [fst snd].
    fold t. destruct (Z.leb_spec t x); lia.
  - auto.
Qed.

Lemma cj_consumeB L tA tB b psA psB s s' :
  let t := tB + Length b in
  cj_ok s -> 0 <= cj_endTime s <= t -> L <= t -> not_before t tA psA ->
  sched_ok tA psA -> sched_ok tB (b :: psB) ->
  (forall s2, cj_ok s2 -> 0 <= cj_endTime s2 <= t -> s2 = cj_settle t (cj_addB b s) ->
     cj_done t (cj_rest tA t psA psB s2) s2 s') ->
  cj_done L (cj_rest tA tB psA (b :: psB) s) s s'.
Proof.
  intros t Hok HE HL Hn HA HB IH. destruct (sched_ok_cons _ _ _ HB) as (_ & _ & HB'). pose proof (sched_ok_range _ _ HB').
  apply (cj_iterate L t _ _ _ _ tA t psA psB s (cj_addB b s)); try done; try (unfold t; cbn; lia).
  - intros d. cbn. rewrite amount_add. pose proof (amount_nonneg (Amount b) d). lia.
  - intros x d Hx. unfold cj_rest. cbn [events cj_addB cj_totalA cj_totalB]. rewrite released_cons, amount_add. cbn [fst snd].
    fold t. destruct (Z.leb_spec t x); lia.
  - auto.
Qed.

Lemma cj_consumeBoth L tA tB a b psA psB s s' :
  let t := tA + Length a in
  tB + Length b = t -> cj_ok s -> 0 <= cj_endTime s <= t -> L <= t ->
  sched_ok tA (a :: psA) -> sched_ok tB (b :: psB) ->
  (forall s2, cj_ok s2 -> 0 <= cj_endTime s2 <= t -> s2 = cj_settle t (cj_addB b (cj_addA a s)) ->
     cj_done t (cj_rest t t psA psB s2) s2 s') ->
  cj_done L (cj_rest tA tB (a :: psA) (b :: psB) s) s s'.
Proof.
  intros t Heq Hok HE HL HA HB IH. destruct (sched_ok_cons _ _ _ HA) as (_ & _ & HA'). pose proof (sched_ok_range _ _ HA').
  apply (cj_iterate L t _ _ _ _ t t psA psB s (cj_addB b (cj_addA a s))); try done; try (unfold t in *; cbn; lia).
  - intros d. cbn. rewrite amount_add. pose proof (amount_nonneg (Amount a) d). lia.
  - intros d. cbn. rewrite amount_add. pose proof (amount_nonneg (Amount b) d). lia.
  - intros x d Hx. unfold cj_rest. cbn [events cj_addA cj_addB cj_totalA cj_totalB]. rewrite !released_cons, !amount_add, Heq.
    cbn [fst snd]. fold t. destruct (Z.leb_spec t x); lia.
  - auto.
Qed.

Lemma walk_conjunct fuel : forall tA tB psA psB s L,
  (length psA + length psB <= fuel)%nat -> sched_ok tA psA -> sched_ok tB psB ->
  0 <= cj_endTime s < 2 ^ 63 -> not_before (cj_endTime s) tA psA -> not_before (cj_endTime s) tB psB ->
  not_before L tA psA -> not_before L tB psB -> cj_ok s ->
  cj_done L (cj_rest tA tB psA psB s) s
    (walk (fun t a s => cj_settle t (cj_addA a s)) (fun t b s => cj_settle t (cj_addB b s))
       (fun t a b s => cj_settle t (cj_addB b (cj_addA a s))) fuel tA tB psA psB s).
Proof.
  induction fuel as [|fuel IH]; intros tA tB psA psB s L Hf HA HB HE HnA HnB HLA HLB Hok.
  { destruct psA, psB; cbn in Hf; try lia. by apply cj_done_rest_nil. }
  destruct psA as [|a psA], psB as [|b psB]; cbn [walk length] in *.
  - by apply cj_done_rest_nil.
  - destruct (sched_ok_cons _ _ _ HB) as (Ib & Hb & HB'). rewrite Ib. cbn [not_before] in HnB, HLB.
    pose proof (sched_ok_range _ _ HB'). apply cj_consumeB; try done; [lia|]. intros s2 ? ? ->. apply IH; walk_side.
  - destruct (sched_ok_cons _ _ _ HA) as (Ia & Ha & HA'). rewrite Ia. cbn [not_before] in HnA, HLA.
    pose proof (sched_ok_range _ _ HA'). apply cj_consumeA; try done; [lia|]. intros s2 ? ? ->. apply IH; walk_side.
  - destruct (sched_ok_cons _ _ _ HA) as (Ia & Ha & HA'), (sched_ok_cons _ _ _ HB) as (Ib & Hb & HB').
    rewrite Ia, Ib. cbn [not_before] in HnA, HnB, HLA, HLB.
    pose proof (sched_ok_range _ _ HA'). pose proof (sched_ok_range _ _ HB').
    destruct (Z.ltb_spec (tA + Length a) (tB + Length b)); [|destruct (Z.ltb_spec (tB + Length b) (tA + Length a))].
    + apply cj_consumeA; [done|lia|lia|cbn [not_before]; lia|done|done|]. intros s2 ? ? ->. apply IH; walk_side.
    + apply cj_consumeB; [done|lia|lia|cbn [not_before]; lia|done|done|]. intros s2 ? ? ->. apply IH; walk_side.
    + assert (tB + Length b = tA + Length a) as Heq by lia. pose proof (not_before_next (tA + Length a) tB b psB HB ltac:(lia)) as HnB'.
      rewrite Heq in HB', HnB'. apply cj_consumeBoth; try done; [lia|]. intros s2 ? ? ->. apply IH; walk_side.
Qed.

Lemma ConjunctPeriods_released tA tB psA psB :
  sched_ok tA psA -> sched_ok tB psB ->
  let '(start, fin, ps) := ConjunctPeriods tA tB psA psB in
  start = Min64 tA tB /\ sched_ok start ps /\ fin = start + sumZ Length ps /\
  forall t d, released (events start ps) t d = Z.min (released (events tA psA) t d) (released (events tB psB) t d).
Proof.
  intros HA HB. destruct (not_before_min64 tA tB psA psB HA HB) as (HE & HnA & HnB).
  destruct (walk_conjunct (length psA + length psB) tA tB psA psB (mkCj NoCoins NoCoins NoCoins (Min64 tA tB) []) (Min64 tA tB))
    as (new & Hp & Hok & He & _ & Hr); try done.
  { intros d. unfold cj_min. cbn. rewrite !amount_none. done. }
  unfold ConjunctPeriods, walk_all. cbn [app cj_periods cj_endTime cj_resulting] in *. rewrite Hp, He. split_and!; try done; [apply Hok..|].
  intros t d. specialize (Hr t d). unfold cj_rest in Hr. cbn [cj_totalA cj_totalB] in Hr. rewrite !amount_none in Hr. lia.
Qed.

End Steps.
