(* ===== verification/Vesting.v ===== *)
(** [x/vesting]: clawback vesting accounts and their messages.

    [types/clawback_vesting_account.go], [types/msg.go], [keeper/msg_server.go],
    [keeper/gov.go], [keeper/hooks.go], [keeper/utils.go]; and the two guards
    elsewhere that read the account: delegation in [x/staking/keeper/msg_server.go]
    and spending in [app/ante/evm/vesting.go].

    A [time.Time] is its Unix seconds.  Where an account function can panic
    ([Coins.Sub] with a negative result) it returns [None]. *)

From stdpp Require Import base list gmap strings.
From Stdlib Require Import ZArith Lia.
From S2P Require Import Prelude KVStore Ledger Coins VestingSchedule.
Open Scope Z_scope.
Open Scope go_scope.

(** * The account *)

(** [authtypes.BaseAccount] *)
Record BaseAccount := mkBase { ba_address : bytes; ba_number : Z; ba_sequence : Z }.

Record ClawbackVestingAccount (C : Type) := mkVA {
  va_base : BaseAccount;
  OriginalVesting : C;
  DelegatedFree : C;
  DelegatedVesting : C;
  EndTime : Z;
  FunderAddress : string;
  StartTime : Z;
  LockupPeriods : list (Period C);
  VestingPeriods : list (Period C)
}.
Arguments mkVA {C} _ _ _ _ _ _ _ _ _.
Arguments va_base {C} _.
Arguments OriginalVesting {C} _.
Arguments DelegatedFree {C} _.
Arguments DelegatedVesting {C} _.
Arguments EndTime {C} _.
Arguments FunderAddress {C} _.
Arguments StartTime {C} _.
Arguments LockupPeriods {C} _.
Arguments VestingPeriods {C} _.

(** The zero [time.Time]: the first of January of the year one. *)
Definition zero_time : Z := -62135596800.

(** The accounts of the auth module: Ethereum accounts with their code hash,
    clawback accounts, and others. *)
Inductive account (C : Type) :=
| EthAccount (base : BaseAccount) (codehash : bytes)
| Clawback_ (va : ClawbackVestingAccount C)
| OtherAccount (base : BaseAccount).
Arguments EthAccount {C} _ _.
Arguments Clawback_ {C} _.
Arguments OtherAccount {C} _.

Section Account.
Context {C : Type} {CO : CoinOps C} {PO : PeriodsOps C}.
Implicit Types va : ClawbackVestingAccount C.

Definition GetAddress (acc : account C) : bytes :=
  match acc with EthAccount b _ | OtherAccount b => ba_address b | Clawback_ va => ba_address (va_base va) end.

Definition NewClawbackVestingAccount (baseAcc : BaseAccount) (funder : string) (originalVesting : C)
    (startTime : Z) (lockupPeriods vestingPeriods : list (Period C)) : ClawbackVestingAccount C :=
  let '(_, endTime, lp, vp) := AlignSchedules startTime startTime lockupPeriods vestingPeriods in
  mkVA baseAcc originalVesting NoCoins NoCoins endTime funder startTime lp vp.

Definition GetUnlockedCoins va (blockTime : Z) : C :=
  ReadSchedule (StartTime va) (EndTime va) (LockupPeriods va) (OriginalVesting va) blockTime.

Definition GetVestedCoins va (blockTime : Z) : C :=
  ReadSchedule (StartTime va) (EndTime va) (VestingPeriods va) (OriginalVesting va) blockTime.

Definition GetLockedUpCoins va (blockTime : Z) : option C :=
  Sub (OriginalVesting va) (GetUnlockedCoins va blockTime).

Definition GetVestingCoins va (blockTime : Z) : option C :=
  Sub (OriginalVesting va) (GetVestedCoins va blockTime).

Definition GetUnlockedVestedCoins va (blockTime : Z) : C :=
  let coins := CoinsMin (GetUnlockedCoins va blockTime) (GetVestedCoins va blockTime) in
  if IsZero coins then NoCoins else coins.

Definition GetLockedUpVestedCoins va (blockTime : Z) : option C :=
  Sub (GetVestedCoins va blockTime) (GetUnlockedVestedCoins va blockTime).

Definition LockedCoins va (blockTime : Z) : option C :=
  lockedUpVested ← GetLockedUpVestedCoins va blockTime;
  let lockedUpVestedDelegatedCoins := CoinsMin (DelegatedFree va) lockedUpVested in
  let '(res, isNeg) := SafeSub (OriginalVesting va)
    (CoinsAdd (GetUnlockedVestedCoins va blockTime) lockedUpVestedDelegatedCoins) in
  Some (if isNeg then NoCoins else res).

Definition HasLockedCoins va (blockTime : Z) : option bool :=
  locked ← GetLockedUpCoins va blockTime; Some (negb (IsZero locked)).

Definition with_DelegatedFree (c : C) va : ClawbackVestingAccount C :=
  mkVA (va_base va) (OriginalVesting va) c (DelegatedVesting va) (EndTime va) (FunderAddress va)
    (StartTime va) (LockupPeriods va) (VestingPeriods va).

Fixpoint track_loop (balance : C) (coins : list (string * Z)) va : option (ClawbackVestingAccount C) :=
  match coins with
  | [] => Some va
  | (denom, amount) :: coins =>
    if (amount =? 0) || (AmountOf balance denom <? amount) then None
    else track_loop balance coins (with_DelegatedFree (CoinsAdd (DelegatedFree va) (OneCoin denom amount)) va)
  end.

Definition TrackDelegation (balance amount : C) va : option (ClawbackVestingAccount C) :=
  track_loop balance (coin_list amount) va.

Definition GetPassedPeriodCount va (blockTime : Z) : nat :=
  ReadPastPeriodCount (StartTime va) (EndTime va) (VestingPeriods va) blockTime.

Definition ComputeClawback va (clawbackTime : Z) : option (ClawbackVestingAccount C * C) :=
  let totalVested := GetVestedCoins va clawbackTime in
  totalUnvested ← GetVestingCoins va clawbackTime;
  let passedPeriodID := GetPassedPeriodCount va clawbackTime in
  let newVestingPeriods := take passedPeriodID (VestingPeriods va) in
  let newVestingEnd := i64 (StartTime va + TotalLength newVestingPeriods) in
  let capPeriods := [mkPeriod 0 totalVested] in
  let '(_, newLockingEnd, newLockupPeriods) :=
    ConjunctPeriods (StartTime va) (StartTime va) (LockupPeriods va) capPeriods in
  Some (mkVA (va_base va) totalVested (DelegatedFree va) (DelegatedVesting va) (Max64 newVestingEnd newLockingEnd)
          (FunderAddress va) (StartTime va) newLockupPeriods newVestingPeriods,
        totalUnvested).

(** [Validate] up to the check of the embedded SDK account; the loop adds up one
    schedule.  The error is the position of the failing check. *)
Fixpoint sum_periods (ps : list (Period C)) (fin : Z) (coins : C) : Z * C :=
  match ps with
  | [] => (fin, coins)
  | p :: ps => sum_periods ps (i64 (fin + Length p)) (CoinsAdd coins (Amount p))
  end.

Definition Validate va (baseOk : bool) : option Z :=
  if EndTime va <=? StartTime va then Some 1
  else
    let '(lockupEnd, lockupCoins) := sum_periods (LockupPeriods va) (StartTime va) NoCoins in
    if EndTime va <? lockupEnd then Some 2
    else if negb (CoinEq lockupCoins (OriginalVesting va)) then Some 3
    else
      let '(vestingEnd, vestingCoins) := sum_periods (VestingPeriods va) (StartTime va) NoCoins in
      if EndTime va <? vestingEnd then Some 4
      else if negb (CoinEq vestingCoins (OriginalVesting va)) then Some 5
      else if baseOk then None else Some 6.

End Account.

(** * Messages *)

Record MsgCreateClawbackVestingAccount := mkCreate {
  cr_FunderAddress : string; cr_VestingAddress : string; cr_EnableGovClawback : bool }.

Record MsgFundVestingAccount (C : Type) := mkFund {
  fu_FunderAddress : string; fu_VestingAddress : string; fu_StartTime : Z;
  fu_LockupPeriods : list (Period C); fu_VestingPeriods : list (Period C) }.
Arguments mkFund {C} _ _ _ _ _.
Arguments fu_FunderAddress {C} _.
Arguments fu_VestingAddress {C} _.
Arguments fu_StartTime {C} _.
Arguments fu_LockupPeriods {C} _.
Arguments fu_VestingPeriods {C} _.

Record MsgClawback := mkClawback { cl_FunderAddress : string; cl_AccountAddress : string; cl_DestAddress : string }.

Record MsgUpdateVestingFunder := mkUpdate {
  up_FunderAddress : string; up_NewFunderAddress : string; up_VestingAddress : string }.

Record MsgConvertVestingAccount := mkConvert { co_VestingAddress : string }.

Inductive error :=
| ErrUnauthorized
| ErrInvalidRequest
| ErrUnknownRequest
| ErrUnknownAddress
| ErrNotSubjectToClawback
| ErrNotSubjectToGovClawback
| ErrVestingLockup
| ErrInsufficientVestedCoins
| ErrInsufficientUnlockedCoins
| ErrInsufficientFunds
| ErrInvalidAddress
| ErrInvalidCoins
| ErrOther (code : Z).

Inductive event (C : Type) :=
| EventCreateClawbackVestingAccount (funder vesting : string)
| EventFundVestingAccount (funder : string) (coins : C) (start : Z) (vesting : string)
| EventClawback (funder acct : string) (dest : bytes)
| EventUpdateVestingFunder (funder acct newFunder : string).
Arguments EventCreateClawbackVestingAccount {C} _ _.
Arguments EventFundVestingAccount {C} _ _ _ _.
Arguments EventClawback {C} _ _ _.
Arguments EventUpdateVestingFunder {C} _ _ _.

(** A governance proposal as the hooks see it: unreadable, or its messages, each
    with the address of a clawback proposal if it is one. *)
Record Proposal (C : Type) := mkProposal { pr_msgs : option (list (option string)); pr_TotalDeposit : C }.
Arguments mkProposal {C} _ _.
Arguments pr_msgs {C} _.
Arguments pr_TotalDeposit {C} _.

(** The keepers of the SDK, and the address codec. *)
Class VestingDeps (C X : Type) := {
  AccAddressFromBech32 : string -> option bytes;
  AccAddressString : bytes -> string;
  authority : bytes;
  DistributionAddress : bytes;
  emptyCodeHash : bytes;
  vk_BlockedAddr : bytes -> bool;
  vk_GetAccount : X -> bytes -> option (account C);
  vk_SetAccount : X -> account C -> X;
  SendCoins : X -> bytes -> bytes -> C -> X * option Z;
  FundCommunityPool : X -> C -> bytes -> X * option Z;
  GetBalance : X -> bytes -> string -> Z;
  GetDelegatorBonded : X -> bytes -> Z;
  GetDelegatorUnbonding : X -> bytes -> Z;
  BondDenom : X -> string;
  GetProposal : X -> Z -> option (Proposal C);
  MinDeposit : X -> C;
  IsAllLT : C -> C -> bool;
  CoinsIsValid : C -> bool
}.

(** What each account spends over the messages of a transaction, and what it can
    spend: [ethVestingExpenseTracker]s by address. *)
Abbreviation trackers := (gmap bytes (Z * Z)).

(** * The keeper *)

Section Keeper.
Context {C X : Type} {CO : CoinOps C} {PO : PeriodsOps C} {D : VestingDeps C X}.
Local Notation world := (Ledger.world unit (event C) X).
Local Notation action := (M world error).
Implicit Types va : ClawbackVestingAccount C.

(** [keys.go], [gov.go] *)
Definition KeyPrefixGovClawbackDisabledKey : bytes := [1].
Definition KeyPrefixGovClawbackProposalKey : bytes := [2].
Definition govDisabledKey (addr : bytes) : bytes := KeyPrefixGovClawbackDisabledKey ++ addr.
Definition buildActiveAccountClawbackProposalKey (addr : bytes) : bytes := KeyPrefixGovClawbackProposalKey ++ addr.

Definition Has (key : bytes) (w : world) : bool := bool_decide (is_Some (store w !! key)).

Definition HasGovClawbackDisabled (addr : bytes) : world -> bool := Has (govDisabledKey addr).
Definition SetGovClawbackDisabled (addr : bytes) : action unit := update_store (<[govDisabledKey addr := tt]>).
Definition DeleteGovClawbackDisabled (addr : bytes) : action unit := update_store (delete (govDisabledKey addr)).
Definition HasActiveClawbackProposal (addr : bytes) : world -> bool :=
  Has (buildActiveAccountClawbackProposalKey addr).
Definition SetActiveClawbackProposal (addr : bytes) : action unit :=
  update_store (<[buildActiveAccountClawbackProposalKey addr := tt]>).
Definition DeleteActiveClawbackProposal (addr : bytes) : action unit :=
  update_store (delete (buildActiveAccountClawbackProposalKey addr)).

(** [sdk.MustAccAddressFromBech32] *)
Definition MustAccAddress (s : string) : action bytes :=
  match AccAddressFromBech32 s with Some a => ret a | None => panic end.

Definition SetAccount (acc : account C) : action unit := run_ext ErrOther (fun x => (vk_SetAccount x acc, None)).

(** A call that may panic. *)
Definition total {A} (o : option A) : action A := match o with Some a => ret a | None => panic end.

Definition GetClawbackVestingAccount (addr : bytes) : action (ClawbackVestingAccount C) :=
  let! acc := gets (fun w => vk_GetAccount (ext w) addr) in
  match acc with
  | None => fail ErrUnknownAddress
  | Some (Clawback_ va) => ret va
  | Some _ => fail ErrNotSubjectToClawback
  end.

Definition CreateClawbackVestingAccount (msg : MsgCreateClawbackVestingAccount) : action unit :=
  let! funderAddress := MustAccAddress (cr_FunderAddress msg) in
  let! vestingAddress := MustAccAddress (cr_VestingAddress msg) in
  guard (negb (vk_BlockedAddr vestingAddress)) ErrUnauthorized ;;
  let! acc := gets (fun w => vk_GetAccount (ext w) vestingAddress) in
  match acc with
  | Some (EthAccount baseAcc codeHash) =>
    guard (bool_decide (codeHash = emptyCodeHash)) ErrInvalidRequest ;;
    SetAccount (Clawback_ (mkVA baseAcc NoCoins NoCoins NoCoins 0 (AccAddressString funderAddress) zero_time [] [])) ;;
    (if cr_EnableGovClawback msg then ret tt else SetGovClawbackDisabled (ba_address baseAcc)) ;;
    EmitEvent (EventCreateClawbackVestingAccount (cr_FunderAddress msg) (cr_VestingAddress msg))
  | _ => fail ErrInvalidRequest
  end.

(** [addGrant] gives the updated account back; the code changes it in place. *)
Definition addGrant (ctx : Ctx) va (grantStartTime : Z) (grantLockup grantVesting : list (Period C)) (grantCoins : C)
    (x : X) : option (sum error (ClawbackVestingAccount C)) :=
  let startTime :=
    match LockupPeriods va, VestingPeriods va with [], [] => grantStartTime | _, _ => StartTime va end in
  let vestingAddr := ba_address (va_base va) in
  let delegatedAmt := GetDelegatorBonded x vestingAddr + GetDelegatorUnbonding x vestingAddr in
  let delegated := OneCoin (BondDenom x) delegatedAmt in
  let '(newLockupStart, newLockupEnd, newLockupPeriods) :=
    DisjunctPeriods startTime grantStartTime (LockupPeriods va) grantLockup in
  let '(newVestingStart, newVestingEnd, newVestingPeriods) :=
    DisjunctPeriods startTime grantStartTime (VestingPeriods va) grantVesting in
  if negb (newLockupStart =? newVestingStart) then Some (inl ErrVestingLockup)
  else
    let va1 := mkVA (va_base va) (CoinsAdd (OriginalVesting va) grantCoins) (DelegatedFree va) (DelegatedVesting va)
      (Max64 newLockupEnd newVestingEnd) (FunderAddress va) newLockupStart newLockupPeriods newVestingPeriods in
    unvested ← GetVestingCoins va1 (BlockTime ctx);
    let delegatedVesting := CoinsMin delegated unvested in
    delegatedFree ← Sub delegated delegatedVesting;
    Some (inr (mkVA (va_base va1) (OriginalVesting va1) delegatedFree delegatedVesting (EndTime va1)
                 (FunderAddress va1) (StartTime va1) (LockupPeriods va1) (VestingPeriods va1))).

(** The schedules of a grant, one of them defaulting to a single instant period. *)
Definition default_periods (lockup vesting : list (Period C)) : list (Period C) * list (Period C) * C :=
  let vestingCoins := TotalAmount vesting in
  let lockupCoins := TotalAmount lockup in
  let '(lockup, lockupCoins) :=
    if negb (IsZero vestingCoins) && bool_decide (lockup = []) then ([mkPeriod 0 vestingCoins], vestingCoins)
    else (lockup, lockupCoins) in
  let '(vesting, vestingCoins) :=
    if negb (IsZero lockupCoins) && bool_decide (vesting = []) then ([mkPeriod 0 lockupCoins], lockupCoins)
    else (vesting, vestingCoins) in
  (lockup, vesting, vestingCoins).

Definition FundVestingAccount (ctx : Ctx) (msg : MsgFundVestingAccount C) : action unit :=
  let! funderAddr := MustAccAddress (fu_FunderAddress msg) in
  let! vestingAddr := MustAccAddress (fu_VestingAddress msg) in
  guard (negb (vk_BlockedAddr vestingAddr)) ErrUnauthorized ;;
  let! va := GetClawbackVestingAccount vestingAddr in
  let '(lockup, vesting, vestingCoins) := default_periods (fu_LockupPeriods msg) (fu_VestingPeriods msg) in
  guard (bool_decide (fu_FunderAddress msg = FunderAddress va)) ErrInvalidRequest ;;
  let! x := gets ext in
  let! r := total (addGrant ctx va (fu_StartTime msg) lockup vesting vestingCoins x) in
  match r with
  | inl e => fail e
  | inr va =>
    SetAccount (Clawback_ va) ;;
    run_ext ErrOther (fun x => SendCoins x funderAddr vestingAddr vestingCoins) ;;
    EmitEvent (EventFundVestingAccount (fu_FunderAddress msg) vestingCoins (fu_StartTime msg) (fu_VestingAddress msg))
  end.

(** The account becomes a plain Ethereum account ([evmostypes.ProtoAccount] with
    the base account) before the coins are sent. *)
Definition transferClawback (ctx : Ctx) va (destinationAddr : bytes) : action C :=
  let! r := total (ComputeClawback va (BlockTime ctx)) in
  let '(updatedAcc, toClawBack) := r in
  SetAccount (EthAccount (va_base updatedAcc) emptyCodeHash) ;;
  let address := ba_address (va_base updatedAcc) in
  DeleteGovClawbackDisabled address ;;
  (if bool_decide (destinationAddr = DistributionAddress)
   then run_ext ErrOther (fun x => FundCommunityPool x toClawBack address)
   else run_ext ErrOther (fun x => SendCoins x address destinationAddr toClawBack)) ;;
  ret toClawBack.

Definition Clawback (ctx : Ctx) (msg : MsgClawback) : action C :=
  let! addr := MustAccAddress (cl_AccountAddress msg) in
  let! funder := MustAccAddress (cl_FunderAddress msg) in
  let dest := if bool_decide (cl_DestAddress msg = ""%string) then funder
              else default [] (AccAddressFromBech32 (cl_DestAddress msg)) in
  let isAuthority := bool_decide (cl_FunderAddress msg = AccAddressString authority) in
  (if isAuthority then ret tt
   else
     let! active := gets (HasActiveClawbackProposal addr) in
     guard (negb active) ErrUnauthorized ;;
     guard (negb (vk_BlockedAddr dest)) ErrUnauthorized) ;;
  let! va := GetClawbackVestingAccount addr in
  guard (negb (bool_decide (VestingPeriods va = []) && bool_decide (LockupPeriods va = []))) ErrInvalidRequest ;;
  let! dest :=
    (if isAuthority then
       let! disabled := gets (HasGovClawbackDisabled addr) in
       guard (negb disabled) ErrNotSubjectToGovClawback ;;
       ret DistributionAddress
     else
       guard (bool_decide (FunderAddress va = cl_FunderAddress msg)) ErrUnauthorized ;;
       ret dest) in
  let! clawedBack := transferClawback ctx va dest in
  EmitEvent (EventClawback (cl_FunderAddress msg) (cl_AccountAddress msg) dest) ;;
  ret clawedBack.

Definition with_FunderAddress (f : string) va : ClawbackVestingAccount C :=
  mkVA (va_base va) (OriginalVesting va) (DelegatedFree va) (DelegatedVesting va) (EndTime va) f
    (StartTime va) (LockupPeriods va) (VestingPeriods va).

Definition UpdateVestingFunder (msg : MsgUpdateVestingFunder) : action unit :=
  let! newFunder := MustAccAddress (up_NewFunderAddress msg) in
  let! vestingAccAddr := MustAccAddress (up_VestingAddress msg) in
  let! active := gets (HasActiveClawbackProposal vestingAccAddr) in
  guard (negb active) ErrUnauthorized ;;
  guard (negb (vk_BlockedAddr newFunder)) ErrUnauthorized ;;
  let! va := GetClawbackVestingAccount vestingAccAddr in
  guard (bool_decide (FunderAddress va = up_FunderAddress msg)) ErrUnauthorized ;;
  SetAccount (Clawback_ (with_FunderAddress (up_NewFunderAddress msg) va)) ;;
  EmitEvent (EventUpdateVestingFunder (up_FunderAddress msg) (up_VestingAddress msg) (up_NewFunderAddress msg)).

Definition ConvertVestingAccount (ctx : Ctx) (msg : MsgConvertVestingAccount) : action unit :=
  let! address := MustAccAddress (co_VestingAddress msg) in
  let! va := GetClawbackVestingAccount address in
  let! vesting := total (GetVestingCoins va (BlockTime ctx)) in
  guard (IsZero vesting) ErrInvalidRequest ;;
  let! locked := total (HasLockedCoins va (BlockTime ctx)) in
  guard (negb locked) ErrInvalidRequest ;;
  DeleteGovClawbackDisabled address ;;
  SetAccount (EthAccount (va_base va) emptyCodeHash).

(** * [hooks.go] *)

(** [getClawbackProposals]; [None] is an error. *)
Definition getClawbackProposals (p : Proposal C) : option (list string) :=
  match pr_msgs p with
  | None | Some [] => None
  | Some msgs => Some (omap id msgs)
  end.

Fixpoint for_addresses (f : bytes -> action unit) (l : list string) : action unit :=
  match l with
  | [] => ret tt
  | s :: l => let! a := MustAccAddress s in f a ;; for_addresses f l
  end.

Definition AfterProposalDeposit (proposalID : Z) : action unit :=
  let! p := gets (fun w => GetProposal (ext w) proposalID) in
  match p with
  | None => ret tt
  | Some p =>
    match getClawbackProposals p with
    | None | Some [] => ret tt
    | Some l =>
      let! minDeposit := gets (fun w => MinDeposit (ext w)) in
      if IsAllLT (pr_TotalDeposit p) minDeposit then ret tt
      else for_addresses SetActiveClawbackProposal l
    end
  end.

Definition AfterProposalVotingPeriodEnded (proposalID : Z) : action unit :=
  let! p := gets (fun w => GetProposal (ext w) proposalID) in
  match p with
  | None => ret tt
  | Some p =>
    match getClawbackProposals p with
    | None | Some [] => ret tt
    | Some l => for_addresses DeleteActiveClawbackProposal l
    end
  end.

(** * [msg.go]: stateless checks *)

Definition zero_addr : bytes := replicate 20 0.

Definition Create_ValidateBasic (msg : MsgCreateClawbackVestingAccount) : option error :=
  match AccAddressFromBech32 (cr_FunderAddress msg) with
  | None => Some (ErrOther 1)
  | Some f =>
    if bool_decide (f = zero_addr) then Some ErrInvalidAddress
    else match AccAddressFromBech32 (cr_VestingAddress msg) with
         | None => Some (ErrOther 1)
         | Some v => if bool_decide (v = zero_addr) then Some ErrInvalidAddress else None
         end
  end.

(** One schedule of a grant: the sum of its coins, or the error. *)
Fixpoint check_periods (ps : list (Period C)) (coins : C) : sum error C :=
  match ps with
  | [] => inr coins
  | p :: ps =>
    if Length p <? 1 then inl ErrInvalidRequest
    else if negb (CoinsIsValid (Amount p)) then inl ErrInvalidCoins
    else check_periods ps (CoinsAdd coins (Amount p))
  end.

Definition Fund_ValidateBasic (msg : MsgFundVestingAccount C) : option error :=
  match AccAddressFromBech32 (fu_FunderAddress msg) with
  | None => Some (ErrOther 1)
  | Some _ =>
    match AccAddressFromBech32 (fu_VestingAddress msg) with
    | None => Some (ErrOther 1)
    | Some v =>
      if bool_decide (v = zero_addr) then Some ErrInvalidAddress
      else
        match check_periods (fu_LockupPeriods msg) NoCoins with
        | inl e => Some e
        | inr lockupCoins =>
          match check_periods (fu_VestingPeriods msg) NoCoins with
          | inl e => Some e
          | inr vestingCoins =>
            if bool_decide (coin_list lockupCoins = []) && bool_decide (coin_list vestingCoins = [])
            then Some ErrInvalidRequest
            else if negb (bool_decide (fu_LockupPeriods msg = [])) && negb (bool_decide (fu_VestingPeriods msg = []))
                 && negb (CoinEq lockupCoins vestingCoins)
            then Some ErrInvalidRequest
            else None
          end
        end
    end
  end.

Definition Clawback_ValidateBasic (msg : MsgClawback) : option error :=
  match AccAddressFromBech32 (cl_FunderAddress msg), AccAddressFromBech32 (cl_AccountAddress msg) with
  | Some _, Some _ =>
    if negb (bool_decide (cl_DestAddress msg = ""%string)) && bool_decide (AccAddressFromBech32 (cl_DestAddress msg) = None)
    then Some (ErrOther 1) else None
  | _, _ => Some (ErrOther 1)
  end.

Definition Update_ValidateBasic (msg : MsgUpdateVestingFunder) : option error :=
  match AccAddressFromBech32 (up_FunderAddress msg), AccAddressFromBech32 (up_NewFunderAddress msg) with
  | Some _, Some n =>
    if bool_decide (n = zero_addr) then Some ErrInvalidAddress
    else if bool_decide (up_FunderAddress msg = up_NewFunderAddress msg) then Some ErrInvalidRequest
    else match AccAddressFromBech32 (up_VestingAddress msg) with None => Some (ErrOther 1) | Some _ => None end
  | _, _ => Some (ErrOther 1)
  end.

Definition Convert_ValidateBasic (msg : MsgConvertVestingAccount) : option error :=
  match AccAddressFromBech32 (co_VestingAddress msg) with None => Some (ErrOther 1) | Some _ => None end.

(** * Guards in other modules *)

(** [validateDelegationAmountNotUnvested] of [x/staking]. *)
Definition validateDelegationAmountNotUnvested (ctx : Ctx) (delegatorAddress : string) (amount : Z) : action unit :=
  match AccAddressFromBech32 delegatorAddress with
  | None => fail (ErrOther 1)
  | Some addr =>
    let! acc := gets (fun w => vk_GetAccount (ext w) addr) in
    match acc with
    | None => fail ErrUnknownAddress
    | Some (Clawback_ va) =>
      let! x := gets ext in
      let bondDenom := BondDenom x in
      let balance := GetBalance x addr bondDenom in
      let! unvestedOnly := total (GetVestingCoins va (BlockTime ctx)) in
      let delegatableAmt := balance - AmountOf unvestedOnly bondDenom in
      let delegatableAmt := if delegatableAmt <? 0 then 0 else delegatableAmt in
      guard (negb (delegatableAmt <? amount)) ErrInsufficientVestedCoins
    | Some _ => ret tt
    end
  end.

(** [EthVestingTransactionDecorator] *)
Definition updateAccountExpenses (ctx : Ctx) (denom : string) va (addedExpense : Z) (accountExpenses : trackers)
    : action (trackers * (Z * Z)) :=
  let address := ba_address (va_base va) in
  match accountExpenses !! address with
  | Some (t, spendable) =>
    let expenses := (t + addedExpense, spendable) in ret (<[address := expenses]> accountExpenses, expenses)
  | None =>
    let! balance := gets (fun w => GetBalance (ext w) address denom) in
    guard (negb (balance =? 0)) ErrInsufficientFunds ;;
    let! lockedBalances := total (LockedCoins va (BlockTime ctx)) in
    let lockedBalance := AmountOf lockedBalances denom in
    let spendableValue := if balance <? lockedBalance then 0 else balance - lockedBalance in
    let expenses := (addedExpense, spendableValue) in
    ret (<[address := expenses]> accountExpenses, expenses)
  end.

(** A message of the transaction: not an Ethereum one, or its sender and value. *)
Fixpoint AnteHandle_loop (ctx : Ctx) (denom : string) (msgs : list (option (bytes * Z))) (accountExpenses : trackers)
    : action trackers :=
  match msgs with
  | [] => ret accountExpenses
  | None :: _ => fail ErrUnknownRequest
  | Some (from, msgValue) :: msgs =>
    let! acc := gets (fun w => vk_GetAccount (ext w) from) in
    match acc with
    | None => fail ErrUnknownAddress
    | Some (Clawback_ va) =>
      let! r := updateAccountExpenses ctx denom va msgValue accountExpenses in
      let '(accountExpenses, (t, spendable)) := r in
      guard (negb (spendable <? t)) ErrInsufficientUnlockedCoins ;;
      AnteHandle_loop ctx denom msgs accountExpenses
    | Some _ => AnteHandle_loop ctx denom msgs accountExpenses
    end
  end.

Definition AnteHandle (ctx : Ctx) (denom : string) (msgs : list (option (bytes * Z))) : action unit :=
  AnteHandle_loop ctx denom msgs ∅ ;; ret tt.

End Keeper.
