(* ===== verification/VestingProps.v ===== *)
(** [x/vesting]: what a clawback vesting account holds back, and what its messages
    do to it. *)

From stdpp Require Import base list gmap strings.
From Stdlib Require Import ZArith Lia.
From S2P Require Import Prelude KVStore Ledger Coins VestingSchedule Vesting.
Open Scope Z_scope.
Open Scope go_scope.

(** * The account as two step functions *)

Section Account.
Context {C : Type} {CO : CoinOps C} {CL : CoinLaws C} {PO : PeriodsOps C} {PL : PeriodsLaws C}.
Implicit Types va : ClawbackVestingAccount C.

(** Both schedules release the original amount by the end time. *)
Record va_ok va : Prop := mkOk {
  ok_lockup : sched_ok (StartTime va) (LockupPeriods va);
  ok_vesting : sched_ok (StartTime va) (VestingPeriods va);
  ok_lockup_total : forall d, AmountOf (OriginalVesting va) d = total_of (LockupPeriods va) d;
  ok_vesting_total : forall d, AmountOf (OriginalVesting va) d = total_of (VestingPeriods va) d;
  ok_lockup_end : StartTime va + sumZ Length (LockupPeriods va) <= EndTime va;
  ok_vesting_end : StartTime va + sumZ Length (VestingPeriods va) <= EndTime va
}.

(** An account that has been created and not funded. *)
Definition va_fresh va : Prop :=
  LockupPeriods va = [] /\ VestingPeriods va = [] /\ forall d, AmountOf (OriginalVesting va) d = 0.

(** The accounts the messages leave behind. *)
Definition va_good va : Prop := va_fresh va \/ va_ok va.

(** What is released by a time after the start. *)
Definition value_at (start : Z) (ps : list (Period C)) (t : Z) (d : string) : Z :=
  if t <=? start then 0 else released (events start ps) t d.

Definition vested va : Z -> string -> Z := value_at (StartTime va) (VestingPeriods va).
Definition unlocked va : Z -> string -> Z := value_at (StartTime va) (LockupPeriods va).

(** The coins that can be spent: vested and unlocked. *)
Definition free va (t : Z) (d : string) : Z := Z.min (unlocked va t d) (vested va t d).

Lemma vested_coins va t d : va_ok va -> AmountOf (GetVestedCoins va t) d = vested va t d.
Proof. intros []. by apply ReadSchedule_released. Qed.

Lemma unlocked_coins va t d : va_ok va -> AmountOf (GetUnlockedCoins va t) d = unlocked va t d.
Proof. intros []. by apply ReadSchedule_released. Qed.

Lemma value_at_nonneg start ps t d : 0 <= value_at start ps t d.
Proof. unfold value_at. case_match; [done|apply released_nonneg]. Qed.

Lemma value_at_mono start ps t t' d : t <= t' -> value_at start ps t d <= value_at start ps t' d.
Proof.
  intros H. unfold value_at. destruct (Z.leb_spec t start), (Z.leb_spec t' start); try lia.
  - apply released_nonneg.
  - by apply released_mono.
Qed.

Lemma value_at_le start ps t d : sched_ok start ps -> value_at start ps t d <= total_of ps d.
Proof.
  intros (_ & H & _). unfold value_at. pose proof (released_nonneg (events start ps) t d).
  pose proof (released_le_total start ps t d H). case_match; lia.
Qed.

Lemma vested_le va t d : va_ok va -> 0 <= vested va t d <= AmountOf (OriginalVesting va) d.
Proof. intros H. rewrite (ok_vesting_total va H). split; [apply value_at_nonneg|apply value_at_le, H]. Qed.

Lemma unlocked_le va t d : va_ok va -> 0 <= unlocked va t d <= AmountOf (OriginalVesting va) d.
Proof. intros H. rewrite (ok_lockup_total va H). split; [apply value_at_nonneg|apply value_at_le, H]. Qed.

Lemma free_coins va t d : va_ok va -> AmountOf (GetUnlockedVestedCoins va t) d = free va t d.
Proof.
  intros H. unfold GetUnlockedVestedCoins, free. rewrite <- vested_coins, <- unlocked_coins by done.
  destruct (IsZero _) eqn:E; [|apply amount_min].
  rewrite amount_none, <- amount_min. symmetry. by apply is_zero.
Qed.

Lemma vesting_coins va t : va_ok va ->
  exists c, GetVestingCoins va t = Some c /\ forall d, AmountOf c d = AmountOf (OriginalVesting va) d - vested va t d.
Proof.
  intros H. destruct (Sub_Some (OriginalVesting va) (GetVestedCoins va t)) as (c & Hc & Ha).
  - intros d. rewrite vested_coins by done. by apply vested_le.
  - exists c. split; [done|]. intros d. by rewrite Ha, vested_coins.
Qed.

Lemma locked_vested_coins va t : va_ok va ->
  exists c, GetLockedUpVestedCoins va t = Some c /\ forall d, AmountOf c d = vested va t d - free va t d.
Proof.
  intros H. destruct (Sub_Some (GetVestedCoins va t) (GetUnlockedVestedCoins va t)) as (c & Hc & Ha).
  - intros d. rewrite vested_coins, free_coins by done. unfold free. lia.
  - exists c. split; [done|]. intros d. by rewrite Ha, vested_coins, free_coins.
Qed.

(** What [LockedCoins] holds back of denomination [d]. *)
Definition held va (t : Z) (d : string) : Z :=
  AmountOf (OriginalVesting va) d - Z.min (free va t d + AmountOf (DelegatedFree va) d) (vested va t d).

Lemma locked_coins va t : va_ok va ->
  exists c, LockedCoins va t = Some c /\ forall d, AmountOf c d = held va t d.
Proof.
  intros H. destruct (locked_vested_coins va t H) as (l & Hl & Hla). unfold LockedCoins. rewrite Hl. cbn [mbind option_bind].
  set (s := CoinsAdd _ _).
  assert (forall d, AmountOf s d = Z.min (free va t d + AmountOf (DelegatedFree va) d) (vested va t d)) as Hs.
  { intros d. unfold s. rewrite amount_add, amount_min, Hla, free_coins by done. lia. }
  assert ((SafeSub (OriginalVesting va) s).2 = false) as Hn.
  { apply safe_sub_neg. intros d. rewrite Hs. pose proof (vested_le va t d H). lia. }
  pose proof (fun d => safe_sub_amount _ _ d Hn) as Ha. destruct (SafeSub _ s) as [res neg]. cbn in *. subst neg.
  exists res. split; [done|]. intros d. by rewrite Ha, Hs.
Qed.

(** A new account has nothing to release or to hold back. *)
Lemma fresh_read va ps start fin t d : va_fresh va -> ps = [] ->
  AmountOf (ReadSchedule start fin ps (OriginalVesting va) t) d = 0.
Proof.
  intros (_ & _ & H) ->. unfold ReadSchedule. destruct (t <=? start); [apply amount_none|].
  destruct (fin <=? t); [apply H|apply amount_none].
Qed.

Lemma fresh_value va t d : va_fresh va -> vested va t d = 0 /\ unlocked va t d = 0.
Proof. intros (Hl & Hv & _). unfold vested, unlocked, value_at. rewrite Hl, Hv. split; by case_match. Qed.

Lemma vesting_coins_good va t : va_good va ->
  exists c, GetVestingCoins va t = Some c /\ forall d, AmountOf c d = AmountOf (OriginalVesting va) d - vested va t d.
Proof.
  intros [H|H]; [|by apply vesting_coins].
  assert (forall d, AmountOf (GetVestedCoins va t) d = 0) as Hz by (intros d; apply fresh_read; [done|apply H]).
  destruct (Sub_Some (OriginalVesting va) (GetVestedCoins va t)) as (c & Hc & Ha).
  - intros d. rewrite Hz. apply amount_nonneg.
  - exists c. split; [done|]. intros d. by rewrite Ha, Hz, (proj1 (fresh_value va t d H)).
Qed.

Lemma locked_coins_good va t : va_good va ->
  exists c, LockedCoins va t = Some c /\ forall d, AmountOf c d = held va t d.
Proof.
  intros [H|H]; [|by apply locked_coins].
  assert (forall d, AmountOf (GetVestedCoins va t) d = 0) as Hz by (intros d; apply fresh_read; [done|apply H]).
  assert (forall d, AmountOf (GetUnlockedVestedCoins va t) d = 0) as Hf.
  { intros d. unfold GetUnlockedVestedCoins. destruct (IsZero _); [apply amount_none|]. rewrite amount_min, Hz.
    unfold GetUnlockedCoins. rewrite (fresh_read va) by (done || apply H). done. }
  destruct (Sub_Some (GetVestedCoins va t) (GetUnlockedVestedCoins va t)) as (l & Hl & Hla).
  { intros d. rewrite Hz, Hf. done. }
  unfold LockedCoins, GetLockedUpVestedCoins. rewrite Hl. cbn [mbind option_bind]. set (s := CoinsAdd _ _).
  assert (forall d, AmountOf s d = 0) as Hs.
  { intros d. unfold s. rewrite amount_add, amount_min, Hla, Hf, Hz. pose proof (amount_nonneg (DelegatedFree va) d). lia. }
  assert ((SafeSub (OriginalVesting va) s).2 = false) as Hn.
  { apply safe_sub_neg. intros d. rewrite Hs. apply amount_nonneg. }
  pose proof (fun d => safe_sub_amount _ _ d Hn) as Ha. destruct (SafeSub _ s) as [res neg]. cbn in *. subst neg.
  exists res. split; [done|]. intros d. rewrite Ha, Hs. unfold held, free. destruct (fresh_value va t d H) as [-> ->].
  pose proof (amount_nonneg (DelegatedFree va) d). lia.
Qed.

(** * Clawback *)

Lemma passed_periods va t : va_ok va ->
  let k := GetPassedPeriodCount va t in
  (k <= length (VestingPeriods va))%nat /\
  forall t' d, value_at (StartTime va) (take k (VestingPeriods va)) t' d = vested va (Z.min t' t) d.
Proof.
  intros H. unfold GetPassedPeriodCount, ReadPastPeriodCount, vested. pose proof (ok_vesting va H) as Hok.
  pose proof Hok as (H0 & Hnn & _).
  destruct (Z.leb_spec t (StartTime va)) as [Hle|Hgt].
  { split; [lia|]. intros t' d. cbn [take]. unfold value_at. destruct (Z.leb_spec (Z.min t' t) (StartTime va)); [|lia].
    by case_match. }
  destruct (Z.leb_spec (EndTime va) t) as [Hend|Hbefore].
  - split; [lia|]. intros t' d. rewrite take_ge by lia. unfold value_at. pose proof (ok_vesting_end va H).
    destruct (Z.leb_spec t' (StartTime va)), (Z.leb_spec (Z.min t' t) (StartTime va)); try lia.
    destruct (Z.le_gt_cases t' t); [by rewrite Z.min_l|]. rewrite !released_all; try done; lia.
  - destruct (count_loop_spec (VestingPeriods va) t (StartTime va) 0 Hok) as (k & -> & Hl & _ & Hr).
    split; [done|]. intros t' d. cbn [Nat.add]. unfold value_at. rewrite Hr.
    destruct (Z.leb_spec t' (StartTime va)), (Z.leb_spec (Z.min t' t) (StartTime va)); lia || done.
Qed.

Lemma total_value start (ps : list (Period C)) t d :
  sched_ok start ps -> start < t -> start + sumZ Length ps <= t -> total_of ps d = value_at start ps t d.
Proof.
  intros (_ & H & _) Ht Hs. unfold value_at. destruct (Z.leb_spec t start); [lia|]. by rewrite released_all.
Qed.

Lemma sched_ok_take start (ps : list (Period C)) k : sched_ok start ps -> sched_ok start (take k ps).
Proof.
  intros (H0 & Hn & Hs). split_and!; [done|by apply Forall_take|].
  rewrite <- (take_drop k ps), sumZ_app in Hs. pose proof (lengths_nonneg (drop k ps) ltac:(by apply Forall_drop)). lia.
Qed.

Lemma Max64_max i j : Max64 i j = Z.max i j.
Proof. unfold Max64. destruct (Z.ltb_spec j i); lia. Qed.

(** The account after a clawback, and the coins taken. *)
Lemma compute_clawback va now : va_ok va ->
  exists va' c, ComputeClawback va now = Some (va', c) /\ va_ok va' /\ va_base va' = va_base va /\
    (forall d, AmountOf c d = AmountOf (OriginalVesting va) d - vested va now d) /\
    (forall d, AmountOf (OriginalVesting va') d = vested va now d) /\
    (forall t d, vested va' t d = vested va (Z.min t now) d) /\
    (forall t d, unlocked va' t d = Z.min (unlocked va t d) (vested va now d)).
Proof.
  intros H. destruct (vesting_coins va now H) as (c & Hc & Hca). unfold ComputeClawback. rewrite Hc. cbn [mbind option_bind].
  destruct (passed_periods va now H) as [Hk Hv]. set (k := GetPassedPeriodCount va now) in *.
  set (vp := take k (VestingPeriods va)) in *. pose proof (ok_vesting va H) as Hok.
  pose proof (sched_ok_take _ _ k Hok) as Hvp. fold vp in Hvp. pose proof Hvp as (H0 & Hvn & Hvs).
  set (cap := [mkPeriod 0 (GetVestedCoins va now)]).
  assert (sched_ok (StartTime va) cap) as Hcap.
  { pose proof (sched_ok_range _ _ Hvp). split; [done|]. split; [by apply Forall_singleton|]. cbn. lia. }
  pose proof (ConjunctPeriods_released _ _ _ _ (ok_lockup va H) Hcap) as Hcj.
  destruct (ConjunctPeriods _ _ _ cap) as [[st fin] lp]. destruct Hcj as (Hst & Hlp & Hfin & Hr).
  assert (st = StartTime va) as -> by (rewrite Hst; unfold Min64; by case_match). clear Hst.
  assert (i64 (StartTime va + TotalLength vp) = StartTime va + sumZ Length vp) as Hend.
  { pose proof (lengths_nonneg vp Hvn). rewrite total_length by (done || lia). apply i64_time. lia. }
  rewrite Hend, Max64_max. eexists _, c. split; [reflexivity|]. unfold vested at 3 4. unfold unlocked at 1.
  cbn [StartTime VestingPeriods LockupPeriods OriginalVesting EndTime va_base].
  assert (forall t d, value_at (StartTime va) lp t d = Z.min (unlocked va t d) (vested va now d)) as Hu.
  { intros t d. unfold unlocked, value_at at 1 2. destruct (Z.leb_spec t (StartTime va)).
    - pose proof (vested_le va now d H). lia.
    - rewrite Hr. f_equal. unfold cap. cbn [events]. rewrite released_cons. cbn [fst snd Length Amount].
      destruct (Z.leb_spec (StartTime va + 0) t); [|lia]. rewrite vested_coins by done. unfold released. cbn. lia. }
  assert (forall d, AmountOf (GetVestedCoins va now) d = vested va now d) as Hva by (intros d; by apply vested_coins).
  split; [|by split_and!].
  pose proof (lengths_nonneg lp ltac:(apply Hlp)) as Hln. pose proof (lengths_nonneg vp Hvn).
  split; cbn [StartTime VestingPeriods LockupPeriods OriginalVesting EndTime]; [done|done| | |lia|lia].
  - intros d. rewrite Hva. set (T := Z.max (EndTime va) (StartTime va + sumZ Length lp) + 1).
    pose proof (ok_lockup_end va H). pose proof (lengths_nonneg (LockupPeriods va) ltac:(apply (ok_lockup va H))).
    rewrite (total_value _ lp T d Hlp) by (unfold T; lia). rewrite Hu.
    unfold unlocked. rewrite <- (total_value _ _ T d (ok_lockup va H)) by (unfold T; lia).
    rewrite <- (ok_lockup_total va H). pose proof (vested_le va now d H). lia.
  - intros d. rewrite Hva. set (T := Z.max now (StartTime va + sumZ Length vp) + 1).
    destruct (Z.lt_ge_cases (StartTime va) T).
    + rewrite (total_value _ vp T d Hvp), Hv by (unfold T; lia). f_equal. unfold T. lia.
    + unfold T in *. lia.
Qed.

(** * Grants *)

(** The schedules of a grant release the same coins. *)
Definition grant_ok (start : Z) (lockup vesting : list (Period C)) (coins : C) : Prop :=
  sched_ok start lockup /\ sched_ok start vesting /\
  forall d, total_of lockup d = AmountOf coins d /\ total_of vesting d = AmountOf coins d.

Lemma total_union tA tB t psA psB ps d :
  sched_ok tA psA -> sched_ok tB psB -> sched_ok t ps ->
  (forall x d, released (events t ps) x d = released (events tA psA) x d + released (events tB psB) x d) ->
  total_of ps d = total_of psA d + total_of psB d.
Proof.
  intros HA HB H Hr. set (T := Z.max (t + sumZ Length ps) (Z.max (tA + sumZ Length psA) (tB + sumZ Length psB))).
  rewrite <- (released_all t ps T d), <- (released_all tA psA T d), <- (released_all tB psB T d);
    [apply Hr|apply HB|unfold T; lia|apply HA|unfold T; lia|apply H|unfold T; lia].
Qed.

End Account.

Section Grants.
Context {C X : Type} {CO : CoinOps C} {CL : CoinLaws C} {PO : PeriodsOps C} {PL : PeriodsLaws C} {D : VestingDeps C X}.
Implicit Types va : ClawbackVestingAccount C.

(** What a grant makes of an account. *)
Record granted (va va' : ClawbackVestingAccount C) (start gstart : Z) (gl gv : list (Period C)) (coins : C) (deleg : Z)
    (bond : string) : Prop := mkGranted {
  gr_ok : va_ok va';
  gr_base : va_base va' = va_base va;
  gr_funder : FunderAddress va' = FunderAddress va;
  gr_start : StartTime va' = Z.min start gstart;
  gr_original : forall d, AmountOf (OriginalVesting va') d = AmountOf (OriginalVesting va) d + AmountOf coins d;
  gr_lockup : forall t d, released (events (StartTime va') (LockupPeriods va')) t d =
    released (events start (LockupPeriods va)) t d + released (events gstart gl) t d;
  gr_vesting : forall t d, released (events (StartTime va') (VestingPeriods va')) t d =
    released (events start (VestingPeriods va)) t d + released (events gstart gv) t d;
  gr_delegated : forall d, AmountOf (DelegatedFree va') d + AmountOf (DelegatedVesting va') d =
    if decide (d = bond) then deleg else 0
}.

(** The start time a grant is merged with. *)
Definition start_of va (gstart : Z) : Z :=
  match LockupPeriods va, VestingPeriods va with [], [] => gstart | _, _ => StartTime va end.

Lemma start_of_ok va gstart gl gv coins :
  va_good va -> grant_ok gstart gl gv coins ->
  sched_ok (start_of va gstart) (LockupPeriods va) /\ sched_ok (start_of va gstart) (VestingPeriods va) /\
  forall d, total_of (LockupPeriods va) d = AmountOf (OriginalVesting va) d /\
            total_of (VestingPeriods va) d = AmountOf (OriginalVesting va) d.
Proof.
  intros Hva (Hgl & _ & _). pose proof (sched_ok_range _ _ Hgl).
  assert (sched_ok gstart (@nil (Period C))) as Hnil by (split; [lia|]; split; [constructor|cbn; lia]).
  unfold start_of. destruct Hva as [(-> & -> & H0)|[]].
  - split; [done|]. split; [done|]. intros d. by rewrite H0.
  - destruct (LockupPeriods va) as [|p ps], (VestingPeriods va) as [|q qs]; (split; [done|]); (split; [done|]);
      intros d; split; symmetry; auto.
Qed.

Lemma add_grant ctx va gstart gl gv coins (x : X) :
  va_good va -> grant_ok gstart gl gv coins ->
  0 <= GetDelegatorBonded x (ba_address (va_base va)) + GetDelegatorUnbonding x (ba_address (va_base va)) ->
  exists va', addGrant ctx va gstart gl gv coins x = Some (inr va') /\
    granted va va' (start_of va gstart) gstart gl gv coins
      (GetDelegatorBonded x (ba_address (va_base va)) + GetDelegatorUnbonding x (ba_address (va_base va))) (BondDenom x).
Proof.
  intros Hva Hg Hd. destruct (start_of_ok va gstart gl gv coins Hva Hg) as (Hl & Hv & Htot). destruct Hg as (Hgl & Hgv & Hgt).
  unfold addGrant. fold (start_of va gstart). set (st := start_of va gstart) in *. set (deleg := _ + _) in *.
  pose proof (DisjunctPeriods_released _ _ _ _ Hl Hgl) as HL. pose proof (DisjunctPeriods_released _ _ _ _ Hv Hgv) as HV.
  destruct (DisjunctPeriods st gstart (LockupPeriods va) gl) as [[ls le] lp]. destruct HL as (-> & HokL & -> & HrL).
  destruct (DisjunctPeriods st gstart (VestingPeriods va) gv) as [[vs ve] vp]. destruct HV as (-> & HokV & -> & HrV).
  rewrite Z.eqb_refl. cbn [negb]. set (va1 := mkVA _ _ _ _ _ _ _ lp vp).
  assert (va_ok va1) as Hok1.
  { split; cbn [va1 StartTime LockupPeriods VestingPeriods EndTime OriginalVesting]; [done|done| | |rewrite Max64_max; lia|rewrite Max64_max; lia]; intros d; rewrite amount_add.
    - rewrite (total_union st gstart _ _ _ lp d Hl Hgl HokL HrL). destruct (Htot d), (Hgt d). lia.
    - rewrite (total_union st gstart _ _ _ vp d Hv Hgv HokV HrV). destruct (Htot d), (Hgt d). lia. }
  destruct (vesting_coins va1 (BlockTime ctx) Hok1) as (u & -> & Hu). cbn [mbind option_bind].
  destruct (Sub_Some (OneCoin (BondDenom x) deleg) (CoinsMin (OneCoin (BondDenom x) deleg) u)) as (df & -> & Hdf).
  { intros d. rewrite amount_min. lia. }
  cbn [mbind option_bind]. eexists. split; [reflexivity|].
  destruct Hok1. split; cbn; try done; [by unfold Min64; destruct (Z.ltb_spec st gstart); lia|by intros d; rewrite amount_add|].
  intros d. rewrite Hdf, <- (amount_one (BondDenom x) deleg d) by done. lia.
Qed.

End Grants.

(** * Messages *)

(** What the SDK keepers document: accounts are stored under their address, coins
    in motion do not change accounts, and delegations are not negative. *)
Class VestingLaws (C X : Type) {D : VestingDeps C X} := {
  get_set_account : forall x acc a, vk_GetAccount (vk_SetAccount x acc) a =
    if decide (a = GetAddress acc) then Some acc else vk_GetAccount x a;
  account_at : forall x a acc, vk_GetAccount x a = Some acc -> GetAddress acc = a;
  send_keeps_accounts : forall x a b c x', SendCoins x a b c = (x', None) ->
    forall e acc, vk_GetAccount x e = Some acc -> vk_GetAccount x' e = Some acc;
  pool_keeps_accounts : forall x c a x', FundCommunityPool x c a = (x', None) ->
    forall e acc, vk_GetAccount x e = Some acc -> vk_GetAccount x' e = Some acc;
  bonded_nonneg : forall x a, 0 <= GetDelegatorBonded x a;
  unbonding_nonneg : forall x a, 0 <= GetDelegatorUnbonding x a
}.

(** The messages of a transaction, as [AnteHandle] reads them. *)
Abbreviation eth_msgs := (list (option (bytes * Z))).

Section Messages.
Context {C X : Type} {CO : CoinOps C} {CL : CoinLaws C} {PO : PeriodsOps C} {PL : PeriodsLaws C} {D : VestingDeps C X}
  {VL : VestingLaws C X}.
Implicit Types va : ClawbackVestingAccount C.
Implicit Types w : Ledger.world unit (event C) X.

Lemma check_periods_total ps d : forall c c',
  check_periods ps c = inr c' -> AmountOf c' d = AmountOf c d + total_of ps d.
Proof.
  induction ps as [|p ps IH]; intros c c' H; cbn [check_periods] in H.
  { injection H as <-. unfold total_of. cbn. lia. }
  destruct (Length p <? 1); [done|]. destruct (CoinsIsValid (Amount p)); [|done]. cbn [negb] in H.
  rewrite (IH _ _ H), amount_add. unfold total_of. rewrite sumZ_cons. lia.
Qed.

Lemma coin_list_nil (c : C) : coin_list c = [] <-> forall d, AmountOf c d = 0.
Proof.
  split.
  - intros H d. pose proof (amount_nonneg c d). destruct (Z.eq_dec (AmountOf c d) 0) as [|Hne]; [done|].
    assert ((d, AmountOf c d) ∈ coin_list c) as Hin by (apply list_amount; lia). rewrite H in Hin. by apply elem_of_nil in Hin.
  - intros H. destruct (coin_list c) as [|[d n] l] eqn:E; [done|].
    assert ((d, n) ∈ coin_list c) as Hin by (rewrite E; by left). apply list_amount in Hin as [? ?]. specialize (H d). lia.
Qed.

(** What [ValidateBasic] has established of a grant. *)
Lemma fund_validated (msg : MsgFundVestingAccount C) :
  Fund_ValidateBasic msg = None ->
  let l := fu_LockupPeriods msg in let v := fu_VestingPeriods msg in
  (l <> [] -> v <> [] -> forall d, total_of l d = total_of v d) /\
  (l = [] -> exists d, total_of v d <> 0) /\ (v = [] -> exists d, total_of l d <> 0).
Proof.
  unfold Fund_ValidateBasic. destruct (AccAddressFromBech32 _); [|done]. destruct (AccAddressFromBech32 _); [|done].
  case_bool_decide; [done|]. destruct (check_periods (fu_LockupPeriods msg) NoCoins) as [|lc] eqn:El; [done|].
  destruct (check_periods (fu_VestingPeriods msg) NoCoins) as [|vc] eqn:Ev; [done|].
  assert (forall d, AmountOf lc d = total_of (fu_LockupPeriods msg) d) as Hl.
  { intros d. rewrite (check_periods_total _ d _ _ El), amount_none. lia. }
  assert (forall d, AmountOf vc d = total_of (fu_VestingPeriods msg) d) as Hv.
  { intros d. rewrite (check_periods_total _ d _ _ Ev), amount_none. lia. }
  destruct (bool_decide (coin_list lc = []) && bool_decide (coin_list vc = [])) eqn:Ez; [done|].
  assert (coin_list lc <> [] \/ coin_list vc <> []) as Hne.
  { apply andb_false_iff in Ez as [?%bool_decide_eq_false|?%bool_decide_eq_false]; auto. }
  intros Heq. cbv zeta. split_and!.
  - intros H1 H2 d. rewrite !bool_decide_false in Heq by done. cbn in Heq.
    destruct (CoinEq lc vc) eqn:Ec; [|done]. unfold CoinEq in Ec. apply andb_true_iff in Ec as [E1 E2].
    rewrite all_lte in E1, E2. rewrite <- Hl, <- Hv. specialize (E1 d). specialize (E2 d). lia.
  - intros H1. destruct Hne as [Hne|Hne].
    + destruct Hne. apply coin_list_nil. intros d. by rewrite Hl, H1.
    + destruct (coin_list vc) as [|[d n] r] eqn:E; [done|]. exists d. rewrite <- Hv.
      assert ((d, n) ∈ coin_list vc) as Hin by (rewrite E; by left). apply list_amount in Hin. lia.
  - intros H1. destruct Hne as [Hne|Hne].
    + destruct (coin_list lc) as [|[d n] r] eqn:E; [done|]. exists d. rewrite <- Hl.
      assert ((d, n) ∈ coin_list lc) as Hin by (rewrite E; by left). apply list_amount in Hin. lia.
    + destruct Hne. apply coin_list_nil. intros d. by rewrite Hv, H1.
Qed.

Lemma instant_ok start (c : C) : 0 <= start < 2 ^ 63 ->
  sched_ok start [mkPeriod 0 c] /\ forall d, total_of [mkPeriod 0 c] d = AmountOf c d.
Proof.
  intros H. split; [split; [lia|split; [by apply Forall_singleton|cbn; lia]]|]. intros d. unfold total_of. cbn. lia.
Qed.

(** A validated message gives a proper grant. *)
Lemma default_periods_ok (msg : MsgFundVestingAccount C) l v c :
  Fund_ValidateBasic msg = None ->
  sched_ok (fu_StartTime msg) (fu_LockupPeriods msg) -> sched_ok (fu_StartTime msg) (fu_VestingPeriods msg) ->
  default_periods (fu_LockupPeriods msg) (fu_VestingPeriods msg) = (l, v, c) ->
  grant_ok (fu_StartTime msg) l v c.
Proof.
  intros Hval Hl Hv. destruct (fund_validated msg Hval) as (Hboth & Hln & Hvn). unfold default_periods.
  pose proof (sched_ok_range _ _ Hl) as Hr. set (L := fu_LockupPeriods msg) in *. set (V := fu_VestingPeriods msg) in *.
  assert (forall ps, (exists d, total_of ps d <> 0) -> IsZero (TotalAmount ps) = false) as Hnz.
  { intros ps [d Hd]. destruct (IsZero (TotalAmount ps)) eqn:E; [|done]. destruct Hd.
    rewrite <- (proj1 (is_zero _) E d), total_amount. done. }
  destruct L as [|p L].
  - rewrite (Hnz V) by auto. rewrite bool_decide_true by done. cbn [negb andb].
    destruct (instant_ok (fu_StartTime msg) (TotalAmount V) Hr) as [Hi Hit].
    destruct V as [|q V]; [by destruct (Hln eq_refl) as [d []]|].
    rewrite (bool_decide_false (_ :: _ = [])) by done. rewrite andb_false_r. intros [= <- <- <-].
    split_and!; try done; [apply Hi..|]. intros d. by rewrite Hit, total_amount.
  - rewrite (bool_decide_false (_ :: _ = [])) by done. rewrite andb_false_r. destruct V as [|q V].
    + rewrite Hnz by auto. rewrite bool_decide_true by done. cbn [negb andb]. intros [= <- <- <-].
      destruct (instant_ok (fu_StartTime msg) (TotalAmount (p :: L)) Hr) as [Hi Hit].
      split_and!; try done; [apply Hl..|]. intros d. by rewrite Hit, total_amount.
    + rewrite (bool_decide_false (_ :: _ = [])) by done. rewrite andb_false_r. intros [= <- <- <-].
      split; [done|]. split; [done|]. intros d. rewrite total_amount. split; [by apply Hboth|done].
Qed.

(** * Spending *)

(** What a transaction's messages spend from an account. *)
Definition spent (a : bytes) (msgs : eth_msgs) : Z :=
  sumZ (fun m => match m with Some (f, v) => if decide (f = a) then v else 0 | None => 0 end) msgs.

(** What the account can spend. *)
Definition spendable (ctx : Ctx) (denom : string) (x : X) (a : bytes) va : Z :=
  Z.max 0 (GetBalance x a denom - held va (BlockTime ctx) denom).

(** A message of a transaction that spends [spent] from its sender is covered. *)
Definition covered (ctx : Ctx) (denom : string) (x : X) (total : bytes -> Z) (m : option (bytes * Z)) : Prop :=
  match m with
  | None => False
  | Some (from, _) =>
    match vk_GetAccount x from with
    | None => False
    | Some (Clawback_ va) => GetBalance x from denom <> 0 /\ total from <= spendable ctx denom x from va
    | Some _ => True
    end
  end.

(** The trackers after the messages [pre]. *)
Definition tracked (ctx : Ctx) (denom : string) (x : X) (pre : eth_msgs) (acc : trackers) : Prop :=
  forall a va, vk_GetAccount x a = Some (Clawback_ va) ->
    match acc !! a with
    | Some e => e = (spent a pre, spendable ctx denom x a va) /\ GetBalance x a denom <> 0
    | None => spent a pre = 0
    end.

Lemma spent_app a (l1 l2 : eth_msgs) : spent a (l1 ++ l2) = spent a l1 + spent a l2.
Proof. apply sumZ_app. Qed.

Lemma spent_nonneg a (l : eth_msgs) :
  Forall (fun m => match m with Some (_, v) => 0 <= v | None => True end) l -> 0 <= spent a l.
Proof.
  intros H. apply sumZ_nonneg. eapply Forall_impl; [exact H|]. intros [[f v]|]; [|done]. intros. cbn. by case_decide.
Qed.

Lemma spent_absent a (l : eth_msgs) : (forall v, Some (a, v) ∉ l) -> spent a l = 0.
Proof.
  induction l as [|[[f v]|] l IH]; intros H; [done| |].
  - change (spent a (Some (f, v) :: l)) with ((if decide (f = a) then v else 0) + spent a l). rewrite IH.
    + case_decide; [subst; destruct (H v); by left|done].
    + intros v' Hin. apply (H v'). by right.
  - change (spent a (None :: l)) with (0 + spent a l). rewrite IH; [done|]. intros v' Hin. apply (H v'). by right.
Qed.

Lemma update_expenses ctx denom w va from v pre acc :
  vk_GetAccount (ext w) from = Some (Clawback_ va) -> va_good va -> tracked ctx denom (ext w) pre acc ->
  if decide (GetBalance (ext w) from denom = 0)
  then updateAccountExpenses ctx denom va v acc w = (w, Err ErrInsufficientFunds) /\ acc !! from = None
  else exists acc', tracked ctx denom (ext w) (pre ++ [Some (from, v)]) acc' /\
    updateAccountExpenses ctx denom va v acc w =
      (w, Ok (acc', (spent from pre + v, spendable ctx denom (ext w) from va))).
Proof.
  intros Hget Hok Htr. pose proof (account_at _ _ _ Hget) as Haddr. cbn [GetAddress] in Haddr.
  assert (forall sp, sp = spendable ctx denom (ext w) from va -> GetBalance (ext w) from denom <> 0 ->
    tracked ctx denom (ext w) (pre ++ [Some (from, v)]) (<[from := (spent from pre + v, sp)]> acc)) as Hnew.
  { intros sp -> Hb a va' Ha. rewrite spent_app. unfold spent at 2. cbn [sumZ map foldr]. destruct (decide (from = a)) as [<-|Hne].
    - rewrite lookup_insert_eq. assert (va' = va) as -> by congruence. split; [|done]. unfold sumZ. cbn.
      rewrite decide_True by done. by rewrite Z.add_0_r.
    - rewrite lookup_insert_ne by done. specialize (Htr a va' Ha). unfold sumZ. cbn. rewrite decide_False by done. rewrite !Z.add_0_r. done. }
  unfold updateAccountExpenses. rewrite Haddr. pose proof (Htr from va Hget) as Hf. destruct (acc !! from) as [[t sp]|].
  - destruct Hf as [[= -> ->] Hb]. rewrite decide_False by done. eexists. split; [by apply Hnew|done].
  - case_decide as Hb.
    + cbn. by rewrite Hb.
    + eexists. split; [by apply Hnew|]. destruct (locked_coins_good va (BlockTime ctx) Hok) as (c & Hc & Hca). cbn.
      rewrite (proj2 (Z.eqb_neq _ _) Hb). cbn. rewrite Hc. cbn. rewrite Hca, Hf.
      assert ((if GetBalance (ext w) from denom <? held va (BlockTime ctx) denom then 0
        else GetBalance (ext w) from denom - held va (BlockTime ctx) denom) = spendable ctx denom (ext w) from va) as ->; [|done].
      unfold spendable. case_match eqn:E; [apply Z.ltb_lt in E|apply Z.ltb_ge in E]; lia.
Qed.

Lemma tracked_other ctx denom x pre acc from v :
  (forall va, vk_GetAccount x from <> Some (Clawback_ va)) -> tracked ctx denom x pre acc ->
  tracked ctx denom x (pre ++ [Some (from, v)]) acc.
Proof.
  intros Hno Htr a va Ha. specialize (Htr a va Ha). rewrite spent_app.
  assert (spent a [Some (from, v)] = 0) as ->; [|by rewrite Z.add_0_r].
  apply spent_absent. intros v' Hin%list_elem_of_singleton. injection Hin as -> _. by destruct (Hno va).
Qed.

Lemma covered_ext ctx denom x f g l :
  (forall a, f a = g a) -> Forall (covered ctx denom x f) l -> Forall (covered ctx denom x g) l.
Proof.
  intros H Hl. eapply Forall_impl; [exact Hl|]. intros [[a v]|]; [|done]. unfold covered. by rewrite H.
Qed.

(** The loop accepts exactly the covered messages, given the trackers of those before. *)
Lemma ante_loop ctx denom w msgs :
  (forall a va, vk_GetAccount (ext w) a = Some (Clawback_ va) -> va_good va) ->
  Forall (fun m => match m with Some (_, v) => 0 <= v | None => True end) msgs ->
  forall pre acc, tracked ctx denom (ext w) pre acc ->
  let P := Forall (covered ctx denom (ext w) (fun a => spent a (pre ++ msgs))) msgs in
  (P /\ exists acc', AnteHandle_loop ctx denom msgs acc w = (w, Ok acc')) \/
  (~ P /\ exists e, AnteHandle_loop ctx denom msgs acc w = (w, Err e)).
Proof.
  intros Hva Hv. induction msgs as [|m msgs IH]; intros pre acc Htr P; cbn [AnteHandle_loop].
  { left. split; [constructor|by eexists]. }
  apply Forall_cons in Hv as [Hm Hv]. specialize (IH Hv).
  destruct m as [[from v]|]; [|right; split; [by intros [? _]%Forall_cons|by eexists]].
  assert (forall a, spent a ((pre ++ [Some (from, v)]) ++ msgs) = spent a (pre ++ Some (from, v) :: msgs)) as Hass.
  { intros a. by rewrite <- app_assoc. }
  cbn -[updateAccountExpenses]. destruct (vk_GetAccount (ext w) from) as [[b h|va|b]|] eqn:Eg; cbn -[updateAccountExpenses].
  1,3: destruct (IH (pre ++ [Some (from, v)]) acc) as [(HP & acc' & ->)|(HP & e & ->)];
    [apply tracked_other; [intros va; by rewrite Eg|done]
    |left; split; [constructor; [by unfold covered; rewrite Eg|by eapply covered_ext, HP]|by eexists]
    |right; split; [|by eexists]; intros [_ HP']%Forall_cons; apply HP; by eapply covered_ext, HP'].
  2: { right. split; [|by eexists]. intros [Hc _]%Forall_cons. unfold covered in Hc. by rewrite Eg in Hc. }
  pose proof (update_expenses ctx denom w va from v pre acc Eg (Hva _ _ Eg) Htr) as Hu. case_decide as Hb.
  { destruct Hu as [Hu _]. unfold bind. rewrite !Hu. cbn. right. split; [|by eexists]. intros [Hc _]%Forall_cons. unfold covered in Hc. rewrite Eg in Hc. by destruct Hc. }
  destruct Hu as (acc' & Htr' & Hu). unfold bind. rewrite !Hu. cbn. assert (spent from (pre ++ [Some (from, v)]) = spent from pre + v) as Hs.
  { rewrite spent_app. unfold spent at 2, sumZ. cbn. rewrite decide_True by done. lia. }
  pose proof (spent_nonneg from msgs Hv) as Hnn. pose proof (Hass from) as Hf. rewrite spent_app, Hs in Hf.
  destruct (Z.ltb_spec (spendable ctx denom (ext w) from va) (spent from pre + v)) as [Hlt|Hge]; cbn.
  { right. split; [|by eexists]. intros [Hc _]%Forall_cons. unfold covered in Hc. rewrite Eg in Hc. destruct Hc. lia. }
  destruct (IH _ acc' Htr') as [(HP & acc2 & ->)|(HP & e & ->)].
  - left. split; [|by eexists]. constructor; [|by eapply covered_ext, HP]. unfold covered. rewrite Eg. split; [done|].
    destruct (decide (Exists (fun m => fst <$> m = Some from) msgs)) as [(m & Hin & Hm')%Exists_exists|Hno].
    + rewrite Forall_forall in HP. specialize (HP _ Hin). destruct m as [[f v']|]; [|done]. injection Hm' as ->.
      unfold covered in HP. rewrite Eg in HP. rewrite <- Hass. apply HP.
    + rewrite (spent_absent from msgs) in Hf; [lia|]. intros v' Hin. apply Hno, Exists_exists. by eexists.
  - right. split; [|by eexists]. intros [_ HP']%Forall_cons. apply HP. by eapply covered_ext, HP'.
Qed.

End Messages.

(** * What the module promises *)

#[local] Arguments addGrant : simpl never.
#[local] Arguments default_periods : simpl never.
#[local] Arguments ComputeClawback : simpl never.

Section Claims.
Context {C X : Type} {CO : CoinOps C} {CL : CoinLaws C} {PO : PeriodsOps C} {PL : PeriodsLaws C} {D : VestingDeps C X}
  {VL : VestingLaws C X}.
Implicit Types va : ClawbackVestingAccount C.
Implicit Types w : Ledger.world unit (event C) X.

(** C17: The two merges of schedules compute what they are for.  Reading the union
    of two schedules gives, at every time after its start, the sum of what the two
    release; reading the conjunction gives the smaller of the two in each
    denomination; both are again schedules, from the earlier start to the reported
    end. *)
Theorem schedule_merges_correct tA tB (psA psB : list (Period C)) t d :
  sched_ok tA psA -> sched_ok tB psB ->
  (let '(start, fin, ps) := DisjunctPeriods tA tB psA psB in
   start = Z.min tA tB /\ sched_ok start ps /\ fin = start + sumZ Length ps /\
   AmountOf (ReadSchedule start fin ps (TotalAmount ps) t) d =
     if t <=? start then 0 else released (VestingSchedule.events tA psA) t d + released (VestingSchedule.events tB psB) t d) /\
  (let '(start, fin, ps) := ConjunctPeriods tA tB psA psB in
   start = Z.min tA tB /\ sched_ok start ps /\ fin = start + sumZ Length ps /\
   AmountOf (ReadSchedule start fin ps (TotalAmount ps) t) d =
     if t <=? start then 0
     else Z.min (released (VestingSchedule.events tA psA) t d) (released (VestingSchedule.events tB psB) t d)).
Proof.
  intros HA HB. assert (Min64 tA tB = Z.min tA tB) as Hmin by (unfold Min64; destruct (Z.ltb_spec tA tB); lia).
  pose proof (DisjunctPeriods_released _ _ _ _ HA HB) as HD. pose proof (ConjunctPeriods_released _ _ _ _ HA HB) as HC.
  destruct (DisjunctPeriods tA tB psA psB) as [[s f] ps]. destruct (ConjunctPeriods tA tB psA psB) as [[s' f'] ps'].
  destruct HD as (-> & Hok & -> & Hr), HC as (-> & Hok' & -> & Hr'). rewrite <- Hmin.
  split; (split; [done|]); (split; [done|]); (split; [done|]); rewrite ReadSchedule_released; try done;
    try (intros; apply total_amount); case_match; by rewrite ?Hr, ?Hr'.
Qed.

(** What a clawback account holds back.  For an account whose two schedules
    each release the original amount, [LockedCoins] never panics; in each
    denomination it is between zero and the original amount, it never grows with
    time, it keeps every unvested coin back, it keeps back no more than the coins
    that are unvested or still locked, and after the end time it is zero. *)
Theorem locked_coins_shrink va t t' :
  va_ok va -> t <= t' ->
  exists c c', LockedCoins va t = Some c /\ LockedCoins va t' = Some c' /\
    forall d, 0 <= AmountOf c d <= AmountOf (OriginalVesting va) d /\ AmountOf c' d <= AmountOf c d /\
      AmountOf (OriginalVesting va) d - vested va t d <= AmountOf c d /\
      AmountOf c d <= AmountOf (OriginalVesting va) d - Z.min (unlocked va t d) (vested va t d) /\
      (StartTime va < t -> EndTime va <= t -> AmountOf c d = 0).
Proof.
  intros H Ht. destruct (locked_coins va t H) as (c & Hc & Ha), (locked_coins va t' H) as (c' & Hc' & Ha').
  exists c, c'. split; [done|]. split; [done|]. intros d. rewrite Ha, Ha'. unfold held, free.
  pose proof (amount_nonneg (DelegatedFree va) d). pose proof (vested_le va t d H). pose proof (vested_le va t' d H).
  pose proof (unlocked_le va t d H). pose proof (unlocked_le va t' d H).
  pose proof (value_at_mono (StartTime va) (VestingPeriods va) t t' d Ht).
  pose proof (value_at_mono (StartTime va) (LockupPeriods va) t t' d Ht).
  assert (StartTime va < t -> EndTime va <= t ->
    vested va t d = AmountOf (OriginalVesting va) d /\ unlocked va t d = AmountOf (OriginalVesting va) d) as Hend.
  { destruct H as [Hl Hv Hlt Hvt Hle Hve]. intros Hs He. unfold vested, unlocked.
    rewrite <- !total_value by (done || lia). by rewrite <- Hlt, <- Hvt. }
  unfold vested, unlocked in *. split_and!; lia.
Qed.

(** C32: Funding a vesting account.  For a message that passed [ValidateBasic] and
    whose schedules do not run past the last representable time, sent by the
    account's funder to an account that is new or well formed: the handler does not
    panic; the grant's coins are sent from the funder; and when the bank makes the
    payment the stored account is well formed, its original amount has grown by the
    grant and both of its schedules release, at every time, what they released
    before plus what the grant releases. *)
Theorem funding_adds_the_grant ctx (msg : MsgFundVestingAccount C) w va funder addr l v coins :
  Fund_ValidateBasic msg = None ->
  sched_ok (fu_StartTime msg) (fu_LockupPeriods msg) -> sched_ok (fu_StartTime msg) (fu_VestingPeriods msg) ->
  AccAddressFromBech32 (fu_FunderAddress msg) = Some funder -> AccAddressFromBech32 (fu_VestingAddress msg) = Some addr ->
  vk_BlockedAddr addr = false -> vk_GetAccount (ext w) addr = Some (Clawback_ va) -> va_good va ->
  FunderAddress va = fu_FunderAddress msg ->
  default_periods (fu_LockupPeriods msg) (fu_VestingPeriods msg) = (l, v, coins) ->
  exists va', granted va va' (start_of va (fu_StartTime msg)) (fu_StartTime msg) l v coins
      (GetDelegatorBonded (ext w) addr + GetDelegatorUnbonding (ext w) addr) (BondDenom (ext w)) /\
    match SendCoins (vk_SetAccount (ext w) (Clawback_ va')) funder addr coins with
    | (x', None) =>
      (exists w', FundVestingAccount ctx msg w = (w', Ok tt) /\ store w' = store w /\ ext w' = x') /\
      vk_GetAccount x' addr = Some (Clawback_ va')
    | (_, Some e) => (FundVestingAccount ctx msg w).2 = Err (ErrOther e)
    end.
Proof.
  intros Hval Hl Hv Hf Ha Hb Hget Hva Hfun Hdef.
  pose proof (default_periods_ok msg l v coins Hval Hl Hv Hdef) as Hg.
  pose proof (account_at _ _ _ Hget) as Haddr. cbn in Haddr.
  destruct (add_grant ctx va _ l v coins (ext w) Hva Hg) as (va' & Hadd & Hgr).
  { pose proof (bonded_nonneg (ext w) (ba_address (va_base va))). pose proof (unbonding_nonneg (ext w) (ba_address (va_base va))). lia. }
  rewrite Haddr in Hgr. exists va'. split; [done|].
  assert (vk_GetAccount (vk_SetAccount (ext w) (Clawback_ va')) addr = Some (Clawback_ va')) as Hgs.
  { rewrite get_set_account. cbn. rewrite (gr_base _ _ _ _ _ _ _ _ _ Hgr), Haddr. by rewrite decide_True. }
  unfold FundVestingAccount, MustAccAddress. rewrite Hf, Ha. cbn. rewrite Hb. cbn. unfold bind, gets. cbn. rewrite Hget. cbn.
  rewrite Hdef. rewrite bool_decide_true by done. cbn. rewrite Hadd. cbn. unfold run_ext. cbn.
  destruct (SendCoins _ funder addr coins) as [x' [e|]] eqn:Es; cbn; [done|].
  split; [by eexists|]. by eapply send_keeps_accounts.
Qed.

(** A clawback that goes through: who may ask for it, and where the coins go. *)
Definition clawback_allowed (msg : MsgClawback) w addr va (dest : bytes) : Prop :=
  (cl_FunderAddress msg = AccAddressString authority /\ HasGovClawbackDisabled addr w = false /\ dest = DistributionAddress) \/
  (cl_FunderAddress msg = FunderAddress va /\ HasActiveClawbackProposal addr w = false /\ vk_BlockedAddr dest = false /\
   if decide (cl_DestAddress msg = ""%string) then AccAddressFromBech32 (cl_FunderAddress msg) = Some dest
   else dest = default [] (AccAddressFromBech32 (cl_DestAddress msg))).

(** What a clawback does: the coins, the account and the transfer. *)
Definition clawed (ctx : Ctx) va (addr dest : bytes) w w' (c : C) : Prop :=
  (forall d, AmountOf c d = AmountOf (OriginalVesting va) d - vested va (BlockTime ctx) d) /\
  vk_GetAccount (ext w') addr = Some (EthAccount (va_base va) emptyCodeHash) /\
  HasGovClawbackDisabled addr w' = false /\
  let x1 := vk_SetAccount (ext w) (EthAccount (va_base va) emptyCodeHash) in
  (if decide (dest = DistributionAddress) then FundCommunityPool x1 c addr else SendCoins x1 addr dest c) = (ext w', None).

Lemma transfer_clawback ctx va addr dest w : va_ok va -> ba_address (va_base va) = addr ->
  exists w', (exists e, transferClawback ctx va dest w = (w', Err (ErrOther e))) \/
    (exists c, transferClawback ctx va dest w = (w', Ok c) /\ clawed ctx va addr dest w w' c).
Proof.
  intros H Haddr. destruct (compute_clawback va (BlockTime ctx) H) as (va' & c & Hcc & _ & Hbase & Hc & _).
  unfold transferClawback. rewrite Hcc. cbn. rewrite Hbase, Haddr. unfold bind, run_ext, clawed. cbn.
  set (x1 := vk_SetAccount _ _).
  assert (vk_GetAccount x1 addr = Some (EthAccount (va_base va) emptyCodeHash)) as Hx1.
  { unfold x1. rewrite get_set_account. cbn. by rewrite decide_True. }
  rewrite bool_decide_decide. case_decide; cbn.
  - destruct (FundCommunityPool _ _ _) as [x' [e|]] eqn:E; eexists; [left; by eexists|right]. eexists. split; [done|]. cbn.
    split_and!; [done|by eapply pool_keeps_accounts| |done]. unfold HasGovClawbackDisabled, Has. cbn. by rewrite lookup_delete_eq.
  - destruct (SendCoins _ _ _ _) as [x' [e|]] eqn:E; eexists; [left; by eexists|right]. eexists. split; [done|]. cbn.
    split_and!; [done|by eapply send_keeps_accounts| |done]. unfold HasGovClawbackDisabled, Has. cbn. by rewrite lookup_delete_eq.
Qed.

(** C27: Clawback takes exactly the unvested coins, and only for those who may ask.
    On a well-formed account the handler never panics.  When it succeeds the
    message comes from the governance authority and the account has not opted out
    (the coins go to the community pool), or from the account's funder while no
    clawback proposal is active (the coins go to a destination that is not blocked);
    the coins moved are, in each denomination, those not yet vested at the block
    time; and the account is a plain account from then on. *)
Theorem clawback_takes_the_unvested ctx (msg : MsgClawback) w addr funder va :
  AccAddressFromBech32 (cl_AccountAddress msg) = Some addr -> AccAddressFromBech32 (cl_FunderAddress msg) = Some funder ->
  vk_GetAccount (ext w) addr = Some (Clawback_ va) -> va_ok va ->
  (Clawback ctx msg w).2 <> Panic /\
  forall w' c, Clawback ctx msg w = (w', Ok c) ->
    exists dest, clawback_allowed msg w addr va dest /\ clawed ctx va addr dest w w' c.
Proof.
  intros Ha Hf Hget Hok. pose proof (account_at _ _ _ Hget) as Haddr. cbn in Haddr.
  unfold Clawback, MustAccAddress, clawback_allowed. rewrite Ha, Hf. go_unfold. unfold GetClawbackVestingAccount. go_unfold.
  set (dest0 := if bool_decide (cl_DestAddress msg = _) then funder else _).
  assert (if decide (cl_DestAddress msg = ""%string) then Some funder = Some dest0
    else dest0 = default [] (AccAddressFromBech32 (cl_DestAddress msg))) as Hd0.
  { unfold dest0. rewrite bool_decide_decide. by case_decide. }
  destruct (bool_decide (cl_FunderAddress msg = AccAddressString authority)) eqn:Eauth.
  - rewrite Hget. destruct (negb (_ && _)); [|split; [done|discriminate]].
    destruct (HasGovClawbackDisabled addr w) eqn:Edis; cbn [negb]; [split; [done|discriminate]|].
    destruct (transfer_clawback ctx va addr DistributionAddress w Hok Haddr) as (w1 & [[e ->]|(c & -> & Hc)]);
      (split; [done|]); [discriminate|]. cbn. intros w' c' [= <- <-]. exists DistributionAddress. apply bool_decide_eq_true in Eauth.
    split; [by left|exact Hc].
  - destruct (HasActiveClawbackProposal addr w) eqn:Eact; cbn [negb]; [split; [done|discriminate]|].
    destruct (vk_BlockedAddr dest0) eqn:Eb; cbn [negb]; [split; [done|discriminate]|].
    rewrite Hget. destruct (negb (_ && _)); [|split; [done|discriminate]].
    destruct (bool_decide (FunderAddress va = _)) eqn:Ef; [|split; [done|discriminate]]. apply bool_decide_eq_true in Ef.
    destruct (transfer_clawback ctx va addr dest0 w Hok Haddr) as (w1 & [[e ->]|(c & -> & Hc)]);
      (split; [done|]); [discriminate|]. cbn. intros w' c' [= <- <-]. exists dest0. split; [by right|exact Hc].
Qed.

(** C34: A transaction cannot spend locked coins.  When every clawback account is
    new or well formed and the messages' values are not negative, the decorator never
    panics and changes nothing, and it accepts a transaction exactly when every
    message is an Ethereum one from a known account and, for a sender that is a
    clawback account, the balance is not zero and the values of all its messages
    together do not exceed what the balance leaves above the locked coins. *)
Theorem ante_accepts_spendable ctx denom w (msgs : list (option (bytes * Z))) :
  (forall a va, vk_GetAccount (ext w) a = Some (Clawback_ va) -> va_good va) ->
  Forall (fun m => match m with Some (_, v) => 0 <= v | None => True end) msgs ->
  (exists r, AnteHandle ctx denom msgs w = (w, r) /\ r <> Panic) /\
  (AnteHandle ctx denom msgs w = (w, Ok tt) <->
   Forall (covered ctx denom (ext w) (fun a => spent a msgs)) msgs).
Proof.
  intros Hva Hv. destruct (ante_loop ctx denom w msgs Hva Hv [] ∅) as [(HP & acc & Hl)|(HP & e & Hl)].
  - intros a va _. by rewrite lookup_empty.
  - unfold AnteHandle, bind, ret. rewrite Hl. split; [by eexists|done].
  - unfold AnteHandle, bind, ret. rewrite Hl. split; [by eexists|]. split; [discriminate|done].
Qed.

(** Unvested coins cannot be delegated.  For a new or well-formed clawback account
    the staking guard never panics, and lets an amount pass exactly when it does not
    exceed the balance above the unvested coins. *)
Theorem delegation_not_unvested ctx s amount w addr va :
  AccAddressFromBech32 s = Some addr -> vk_GetAccount (ext w) addr = Some (Clawback_ va) -> va_good va ->
  let d := BondDenom (ext w) in
  validateDelegationAmountNotUnvested ctx s amount w =
    (w, if amount <=? Z.max 0 (GetBalance (ext w) addr d - (AmountOf (OriginalVesting va) d - vested va (BlockTime ctx) d))
        then Ok tt else Err ErrInsufficientVestedCoins).
Proof.
  intros Hs Hget Hok d. unfold validateDelegationAmountNotUnvested. rewrite Hs. cbn. rewrite Hget. cbn.
  destruct (vesting_coins_good va (BlockTime ctx) Hok) as (c & Hc & Ha). rewrite Hc. cbn. rewrite Ha. fold d. go_unfold.
  set (x := GetBalance (ext w) addr d - _). destruct (Z.ltb_spec x 0); destruct (Z.leb_spec amount (Z.max 0 x));
    match goal with |- context [?a <? amount] => destruct (Z.ltb_spec a amount) end; cbn; done || lia.
Qed.

End Claims.
