(* ===== verification/VestingCases.v ===== *)
(** [x/vesting]: a reference chain, the theorems on it, and what the code does with
    an overlong period, with the lockup of a clawed-back account and with two
    clawback proposals at once. *)

From stdpp Require Import base list gmap strings.
From Stdlib Require Import ZArith Lia Ascii String.
From S2P Require Import Prelude KVStore Ledger Coins VestingSchedule Vesting VestingProps.
Open Scope Z_scope.

(** * A reference chain *)

Abbreviation rcoins := RefCoins.coins.

#[export] Instance ref_periods : PeriodsOps rcoins := {|
  TotalLength := fun ps => foldl (fun n p => i64 (n + Length p)) 0 ps;
  TotalAmount := fun ps => foldl (fun c p => CoinsAdd c (Amount p)) NoCoins ps
|}.

Lemma foldl_length (ps : list (Period rcoins)) : forall n, 0 <= n ->
  Forall (fun p => 0 <= Length p) ps -> n + sumZ Length ps < 2 ^ 63 ->
  foldl (fun n p => i64 (n + Length p)) n ps = n + sumZ Length ps.
Proof.
  induction ps as [|p ps IH]; intros n Hn Hp Hs; cbn [foldl]; [cbn; lia|]. apply Forall_cons in Hp as [Hp Hps].
  rewrite sumZ_cons in *. pose proof (lengths_nonneg ps Hps). rewrite i64_time by lia. rewrite IH by (done || lia). lia.
Qed.

#[export] Instance ref_periods_laws : PeriodsLaws rcoins.
Proof.
  constructor.
  - intros ps H Hs. cbn. by rewrite foldl_length.
  - intros ps d. cbn [TotalAmount ref_periods]. rewrite <- (Z.add_0_l (sumZ _ _)), <- (amount_none d). generalize NoCoins.
    induction ps as [|p ps IH]; intros c; cbn [foldl]; [cbn; lia|]. rewrite IH, amount_add, sumZ_cons. lia.
Qed.

Record vchain := mkV {
  balances : RefBank.bank;
  accts : gmap bytes (account rcoins);
  proposals : gmap Z (Proposal rcoins)
}.

Definition addr_of (s : string) : bytes := (fun c => Z.of_nat (nat_of_ascii c)) <$> list_ascii_of_string s.

Definition pool : bytes := addr_of "pool".

Definition move_all (b : RefBank.bank) (src dst : bytes) (c : rcoins) : RefBank.bank :=
  foldr (fun dn b => RefBank.move b src dst dn.1 dn.2) b (coin_list c).

Definition send_all (x : vchain) (src dst : bytes) (c : rcoins) : vchain * option Z :=
  if forallb (fun dn => dn.2 <=? RefBank.balance (balances x) src dn.1) (coin_list c)
  then (mkV (move_all (balances x) src dst c) (accts x) (proposals x), None)
  else (x, Some 5).

Lemma send_all_covered x src dst c :
  forallb (fun dn => dn.2 <=? RefBank.balance (balances x) src dn.1) (coin_list c) = true ->
  exists x', send_all x src dst c = (x', None).
Proof. unfold send_all. intros ->. by eexists. Qed.

#[export] Instance ref_vesting : VestingDeps rcoins vchain := {|
  AccAddressFromBech32 := fun s => if decide (s = ""%string) then None else Some (addr_of s);
  AccAddressString := fun b => string_of_list_ascii ((fun z => ascii_of_nat (Z.to_nat z)) <$> b);
  authority := addr_of "gov";
  DistributionAddress := pool;
  emptyCodeHash := replicate 32 0;
  vk_BlockedAddr := fun a => bool_decide (a = pool);
  vk_GetAccount := fun x a => acc ← accts x !! a; if decide (GetAddress acc = a) then Some acc else None;
  vk_SetAccount := fun x acc => mkV (balances x) (<[GetAddress acc := acc]> (accts x)) (proposals x);
  SendCoins := send_all;
  FundCommunityPool := fun x c a => send_all x a pool c;
  Vesting.GetBalance := fun x => RefBank.balance (balances x);
  GetDelegatorBonded := fun _ _ => 0;
  GetDelegatorUnbonding := fun _ _ => 0;
  BondDenom := fun _ => "ahpx"%string;
  GetProposal := fun x n => proposals x !! n;
  MinDeposit := fun _ => OneCoin "ahpx" 10;
  IsAllLT := fun a b => forallb (fun dn => dn.2 <? AmountOf b dn.1) (coin_list a);
  CoinsIsValid := fun _ => true
|}.

#[export] Instance ref_vesting_laws : VestingLaws rcoins vchain.
Proof.
  assert (forall x a b c x', send_all x a b c = (x', None) -> accts x' = accts x) as Hs.
  { intros x a b c x'. unfold send_all. destruct (forallb _ _); [by intros [= <-]|done]. }
  constructor; cbn.
  - intros x acc a. case_decide as H.
    + subst a. rewrite lookup_insert_eq. cbn. by rewrite decide_True.
    + by rewrite lookup_insert_ne.
  - intros x a acc. destruct (accts x !! a) as [acc'|]; cbn; [|done]. case_decide; [|done]. by intros [= <-].
  - intros x a b c x' ->%Hs. done.
  - intros x c a x' ->%Hs. done.
  - done.
  - done.
Qed.

(** * Accounts *)

Definition hpx (n : Z) : rcoins := OneCoin "ahpx" n.
Definition base (s : string) : BaseAccount := mkBase (addr_of s) 7 0.

Definition lockup0 : list (Period rcoins) := [mkPeriod 200 (hpx 100)].
Definition vesting0 : list (Period rcoins) := [mkPeriod 100 (hpx 40); mkPeriod 200 (hpx 60)].

(** 100 coins from time 1000: 40 vest at 1100 and 60 at 1300; all are locked to 1200. *)
Definition va0 : ClawbackVestingAccount rcoins :=
  NewClawbackVestingAccount (base "alice") "funder" (hpx 100) 1000 lockup0 vesting0.

Definition fresh : ClawbackVestingAccount rcoins :=
  mkVA (base "bob") ∅ ∅ ∅ 0 "funder" zero_time [] [].

Definition chain1 : vchain :=
  mkV {[ (addr_of "funder", "ahpx"%string) := 500; (addr_of "alice", "ahpx"%string) := 130 ]}
    {[ addr_of "alice" := Clawback_ va0; addr_of "bob" := Clawback_ fresh; addr_of "funder" := EthAccount (base "funder") (replicate 32 0) ]}
    {[ 1 := mkProposal (Some [Some "alice"%string]) (hpx 10); 2 := mkProposal (Some [Some "alice"%string]) (hpx 10) ]}.

Definition world1 : Ledger.world unit (event rcoins) vchain := mkWorld ∅ chain1 [].

Lemma schedules0_ok start : 0 <= start < 2 ^ 62 -> sched_ok start lockup0 /\ sched_ok start vesting0.
Proof. intros H. split; (split; [lia|]); (split; [repeat constructor; cbn; lia|cbn; lia]). Qed.

Lemma va0_ok : va_ok va0.
Proof.
  destruct (schedules0_ok 1000) as [Hl Hv]; [lia|]. split; [exact Hl|exact Hv| | |vm_compute; discriminate..].
  - intros d. unfold total_of, sumZ. cbn -[hpx AmountOf]. lia.
  - intros d. unfold total_of, sumZ. cbn -[hpx AmountOf]. unfold hpx. rewrite !amount_one by lia. case_decide; lia.
Qed.

(** * The theorems at this chain *)

Lemma schedule_merges_witness : sched_ok 1000 lockup0 /\ sched_ok 1050 vesting0 /\
  (let '(start, fin, ps) := ConjunctPeriods 1000 1050 lockup0 vesting0 in
   AmountOf (ReadSchedule start fin ps (TotalAmount ps) 1210) "ahpx" = 40).
Proof.
  destruct (schedules0_ok 1000) as [Hl _]; [lia|]. destruct (schedules0_ok 1050) as [_ Hv]; [lia|].
  split; [done|]. split; [done|]. pose proof (schedule_merges_correct 1000 1050 lockup0 vesting0 1210 "ahpx" Hl Hv) as [_ H].
  destruct (ConjunctPeriods 1000 1050 lockup0 vesting0) as [[s f] ps]. destruct H as (-> & _ & _ & ->). by vm_compute.
Defined.

Lemma locked_coins_shrink_witness : va_ok va0 /\
  exists c c', LockedCoins va0 1150 = Some c /\ LockedCoins va0 1250 = Some c' /\
    AmountOf c' "ahpx" <= AmountOf c "ahpx" <= 100.
Proof.
  split; [exact va0_ok|]. destruct (locked_coins_shrink va0 1150 1250 va0_ok) as (c & c' & Hc & Hc' & H); [lia|].
  exists c, c'. split; [done|]. split; [done|]. destruct (H "ahpx"%string) as (H1 & H2 & _). split; [done|apply H1].
Defined.

Definition fund_bob : MsgFundVestingAccount rcoins := mkFund "funder" "bob" 1000 lockup0 vesting0.

Lemma fresh_ok : va_fresh fresh.
Proof. split; [done|]. split; [done|]. intros d. cbn. unfold RefCoins.amount. by rewrite lookup_empty. Qed.

Lemma funding_adds_the_grant_witness :
  Fund_ValidateBasic (X := vchain) fund_bob = None /\
  exists va' w', FundVestingAccount (mkCtx 1010 5) fund_bob world1 = (w', Ok tt) /\
    vk_GetAccount (ext w') (addr_of "bob") = Some (Clawback_ va') /\ va_ok va' /\
    AmountOf (OriginalVesting va') "ahpx" = 100.
Proof.
  destruct (schedules0_ok 1000) as [Hl Hv]; [lia|]. assert (Fund_ValidateBasic (X := vchain) fund_bob = None) as Hval by (by vm_compute).
  split; [exact Hval|].
  pose proof (funding_adds_the_grant (mkCtx 1010 5) fund_bob world1 fresh (addr_of "funder") (addr_of "bob") lockup0 vesting0 (hpx 100)) as H.
  destruct H as (va' & Hgr & Hs);
    [exact Hval|exact Hl|exact Hv|vm_compute; reflexivity|vm_compute; reflexivity|vm_compute; reflexivity|vm_compute; reflexivity|left; exact fresh_ok|vm_compute; reflexivity|vm_compute; reflexivity|].
  exists va'. assert (exists x', SendCoins (vk_SetAccount (ext world1) (Clawback_ va')) (addr_of "funder") (addr_of "bob") (hpx 100) = (x', None)) as [x' E].
  { apply send_all_covered. vm_compute. reflexivity. }
  rewrite E in Hs. destruct Hs as [(w' & Hw & _ & <-) Hget]. exists w'.
  split; [exact Hw|]. split; [exact Hget|]. split; [apply Hgr|]. rewrite (gr_original _ _ _ _ _ _ _ _ _ Hgr). vm_compute. reflexivity.
Defined.

Definition claw_alice : MsgClawback := mkClawback "funder" "alice" "".

Lemma clawback_takes_the_unvested_witness :
  exists w' c, Clawback (mkCtx 1150 5) claw_alice world1 = (w', Ok c) /\ AmountOf c "ahpx" = 60 /\
    vk_GetAccount (ext w') (addr_of "alice") = Some (EthAccount (base "alice") (replicate 32 0)).
Proof.
  destruct (clawback_takes_the_unvested (mkCtx 1150 5) claw_alice world1 (addr_of "alice") (addr_of "funder") va0) as [_ H];
    [reflexivity|reflexivity|vm_compute; reflexivity|exact va0_ok|].
  eexists _, (hpx 60). assert ((Clawback (mkCtx 1150 5) claw_alice world1).2 = Ok (hpx 60)) as E by (vm_compute; reflexivity).
  apply run_eq in E. split; [exact E|]. destruct (H _ _ E) as (dest & _ & Hc & Hget & _). split; [|exact Hget].
  vm_compute. reflexivity.
Defined.

Lemma world1_good a va : vk_GetAccount (ext world1) a = Some (Clawback_ va) -> va_good va.
Proof.
  cbn [vk_GetAccount ref_vesting ext world1 chain1 accts]. intros (acc & Hl & Ha)%bind_Some. case_decide; [|done]. injection Ha as ->.
  apply lookup_insert_Some in Hl as [[_ [= <-]]|[_ Hl]]; [right; exact va0_ok|].
  apply lookup_insert_Some in Hl as [[_ [= <-]]|[_ [_ [=]]%lookup_singleton_Some]]. left. exact fresh_ok.
Qed.

Definition spends : list (option (bytes * Z)) :=
  [Some (addr_of "alice", 45); Some (addr_of "funder", 1); Some (addr_of "alice", 25)].

(** 70 of Alice's 130 coins are free at time 1250, over all messages. *)
Lemma ante_accepts_spendable_witness :
  AnteHandle (mkCtx 1250 5) "ahpx" spends world1 = (world1, Ok tt) /\
  AnteHandle (mkCtx 1250 5) "ahpx" (spends ++ [Some (addr_of "alice", 1)]) world1 <> (world1, Ok tt).
Proof.
  split.
  - apply (ante_accepts_spendable (mkCtx 1250 5) "ahpx" world1 spends world1_good); [repeat constructor; lia|].
    repeat constructor; vm_compute; (reflexivity || discriminate || exact I).
  - intros H. apply (ante_accepts_spendable _ _ _ _ world1_good) in H; [|repeat constructor; lia].
    apply Forall_cons in H as [[_ H] _]. vm_compute in H. by apply H.
Defined.

Lemma delegation_not_unvested_witness :
  va_good va0 /\ validateDelegationAmountNotUnvested (mkCtx 1150 5) "alice" 70 world1 = (world1, Ok tt) /\
  validateDelegationAmountNotUnvested (mkCtx 1150 5) "alice" 71 world1 = (world1, Err ErrInsufficientVestedCoins).
Proof.
  split; [right; exact va0_ok|].
  split; (rewrite (delegation_not_unvested _ _ _ world1 (addr_of "alice") va0);
    [vm_compute; reflexivity|reflexivity|vm_compute; reflexivity|right; exact va0_ok]).
Defined.

(** * An overlong period *)

(** All of the grant is to vest after a period of [2^63 - 1] seconds. *)
Definition fund_overlong : MsgFundVestingAccount rcoins :=
  mkFund "funder" "bob" 1000 [] [mkPeriod (2 ^ 63 - 1) (hpx 100)].

Definition locked_of (w : Ledger.world unit (event rcoins) vchain) (a : bytes) (now : Z) : option Z :=
  match vk_GetAccount (ext w) a with
  | Some (Clawback_ va) => (fun c => AmountOf c "ahpx") <$> LockedCoins va now
  | _ => None
  end.

(** The sum of a start time and the lengths of the periods is not checked for
    overflow.  A grant whose one vesting period has the largest [int64] length passes
    the stateless checks and is stored, its end time wraps to the past, and one
    second after the start none of the coins is locked. *)
Theorem overlong_period_vests_at_once :
  Fund_ValidateBasic (X := vchain) fund_overlong = None /\
  (FundVestingAccount (mkCtx 1000 5) fund_overlong world1).2 = Ok tt /\
  locked_of (FundVestingAccount (mkCtx 1000 5) fund_overlong world1).1 (addr_of "bob") 1000 = Some 100 /\
  locked_of (FundVestingAccount (mkCtx 1000 5) fund_overlong world1).1 (addr_of "bob") 1001 = Some 0.
Proof. split_and!; vm_compute; reflexivity. Qed.

(** * The lockup after a clawback *)

(** A clawback releases the lockup.  At time 1150 Alice has 40 vested coins that
    are locked until 1200.  [ComputeClawback] returns an account that still holds
    them back, but the stored account is a plain one: the 40 coins can be spent. *)
Theorem clawback_drops_lockup :
  (r ← ComputeClawback va0 1150; c ← LockedCoins r.1 1150; Some (AmountOf c "ahpx")) = Some 40 /\
  (Clawback (mkCtx 1150 5) claw_alice world1).2 = Ok (hpx 60) /\
  let w' := (Clawback (mkCtx 1150 5) claw_alice world1).1 in
  Vesting.GetBalance (ext w') (addr_of "alice") "ahpx" = 70 /\
  (AnteHandle (mkCtx 1150 5) "ahpx" [Some (addr_of "alice", 70)] w').2 = Ok tt.
Proof. cbv zeta. split_and!; vm_compute; reflexivity. Qed.

(** * Two proposals *)

Definition two_proposals : M (Ledger.world unit (event rcoins) vchain) error unit :=
  (AfterProposalDeposit 1 ;; AfterProposalDeposit 2)%go.

(** The end of one clawback proposal ends the protection of another.  With two
    proposals against the same account the funder cannot claw back; when the first
    voting period ends, the second is still running and the funder can. *)
Theorem second_proposal_unprotected :
  let active := (two_proposals world1).1 in
  let ended := (AfterProposalVotingPeriodEnded 1 active).1 in
  (Clawback (mkCtx 1150 5) claw_alice active).2 = Err ErrUnauthorized /\
  (Clawback (mkCtx 1150 5) claw_alice ended).2 = Ok (hpx 60).
Proof. cbv zeta. split; vm_compute; reflexivity. Qed.
