(* ===== verification/FeeMarket.v ===== *)
(** [x/feemarket]: the EIP-1559 base fee and the agent fee lane.

    Parameters and their checks ([types/params.go], [keeper/params.go]), block gas
    accounting ([keeper/keeper.go], [keeper/abci.go]), the base fee
    ([keeper/eip1559.go]), the lane ([types/lane.go], [keeper/lane.go]) and the EVM
    hook that mirrors registry events into it ([keeper/lane_hook.go]).  Decimal
    arithmetic of the SDK, Keccak topics and address conversion are parameters. *)

From stdpp Require Import base list gmap strings.
From Stdlib Require Import ZArith Lia.
From S2P Require Import Prelude KVStore BigInt Ledger.
Open Scope Z_scope.
Open Scope go_scope.

(** * Data *)

(** [nil] integers and decimals are [None]. *)
Record Params := mkParams {
  NoBaseFee : bool;
  BaseFeeChangeDenominator : Z;
  ElasticityMultiplier : Z;
  BaseFee : option Z;
  EnableHeight : Z;
  MinGasPrice : option Z;
  MinGasMultiplier : option Z
}.

Record LaneParams := mkLane {
  lane_Enabled : bool;
  lane_GasPrice : option Z;
  lane_Registry : bytes
}.

Definition DefaultLaneParams : LaneParams := mkLane false (Some 0) (replicate 20 0).

Inductive error := ErrInvalidAuthority | ErrLaneParams.

Inductive event :=
| FeeMarketBaseFee (base_fee : string)
| BlockGas (height amount : Z).

Definition KeyPrefixBlockGasWanted : bytes := [1].
Definition KeyPrefixBaseFeeV1 : bytes := [2].
Definition KeyLaneParams : bytes := [3].
Definition KeyPrefixLaneMember : bytes := [0x10].
(** []byte("Params") *)
Definition ParamsKey : bytes := [80; 97; 114; 97; 109; 115].

Definition LaneMemberKey (addr : bytes) : bytes := KeyPrefixLaneMember ++ addr.

Inductive val :=
| VParams (p : Params)
| VGas (n : Z)
| VBaseFeeV1 (n : Z)
| VLane (l : LaneParams)
| VMember.

Abbreviation kv := (gmap bytes val).

(** The module's store, its transient store (the one key it uses), and events. *)
Abbreviation world := (Ledger.world val event (option Z)).

(** What the code reads of [sdk.Context]: the height, [Block.MaxGas] of the
    consensus parameters if there are any, and the consumption of the block gas
    meter if there is one. *)
Record BlockEnv := mkEnv { Height : Z; MaxGas : option Z; BlockGasConsumed : option Z }.

(** * [types/params.go] *)

Definition IsBaseFeeEnabled (p : Params) (height : Z) : bool :=
  negb (NoBaseFee p) && (EnableHeight p <=? height).

Definition validateMinGasPrice (d : option Z) : bool :=
  match d with None => false | Some v => 0 <=? v end.

Definition validateMinGasMultiplier (d : option Z) : bool :=
  match d with None => false | Some v => (0 <=? v) && (v <=? dec_one) end.

(** [IsNegative] of a nil integer dereferences nil. *)
Definition Params_Validate (p : Params) : result unit unit :=
  if BaseFeeChangeDenominator p =? 0 then Err tt
  else match BaseFee p with
  | None => Panic
  | Some b =>
    if b <? 0 then Err tt
    else if EnableHeight p <? 0 then Err tt
    else if negb (validateMinGasMultiplier (MinGasMultiplier p)) then Err tt
    else if negb (validateMinGasPrice (MinGasPrice p)) then Err tt
    else Ok tt
  end.

(** * [types/lane.go], [keeper/lane.go] *)

Definition LaneParams_Validate (lp : LaneParams) : bool :=
  match lane_GasPrice lp with
  | None => false
  | Some g => negb (g <? 0) && negb (lane_Enabled lp && (g =? 0))
  end.

Definition GetLaneParams (st : kv) : LaneParams :=
  match st !! KeyLaneParams with
  | Some (VLane lp) =>
    match lane_GasPrice lp with
    | None => mkLane (lane_Enabled lp) (lane_GasPrice DefaultLaneParams) (lane_Registry lp)
    | Some _ => lp
    end
  | _ => DefaultLaneParams
  end.

Definition SetLaneParams (lp : LaneParams) : M world error unit :=
  guard (LaneParams_Validate lp) ErrLaneParams ;;
  update_store (fun st => <[KeyLaneParams := VLane lp]> st).

Definition SetDefaultLaneParams : M world error unit := SetLaneParams DefaultLaneParams.

Definition IsAgentLaneEnabled (st : kv) : bool := lane_Enabled (GetLaneParams st).

Definition AddLaneMember (addr : bytes) (st : kv) : kv := <[LaneMemberKey addr := VMember]> st.
Definition RemoveLaneMember (addr : bytes) (st : kv) : kv := delete (LaneMemberKey addr) st.

Definition IsLaneMember (st : kv) (addr : bytes) : bool :=
  bool_decide (is_Some (st !! LaneMemberKey addr)).

Definition IsAgentLaneCaller (st : kv) (signer target : bytes) : bool :=
  if negb (IsAgentLaneEnabled st) then false
  else if IsLaneMember st signer then true
  else if bool_decide (target = zero_address) then false
  else IsLaneMember st target.

Definition LaneGasPrice (st : kv) (signer target : bytes) : option Z :=
  if negb (IsAgentLaneCaller st signer target) then None
  else match lane_GasPrice (GetLaneParams st) with
  | None => None
  | Some g => if g =? 0 then None else Some g
  end.

(** * [keeper/lane_hook.go] *)

Record Log := mkLog { log_Address : bytes; log_Topics : list bytes }.

Section Hook.
Context {EC : EthCommon}.
(** [crypto.Keccak256Hash] of the two event signatures. *)
Variables laneRegistrationTopic laneDeregistrationTopic : bytes.

Definition RegistryAddress (lp : LaneParams) : bytes := BytesToAddress (lane_Registry lp).

(** The body of the loop over the logs. *)
Definition mirror_log (registry : bytes) (st : kv) (log : option Log) : kv :=
  match log with
  | None => st
  | Some log =>
    if negb (bool_decide (log_Address log = registry)) then st
    else match log_Topics log with
    | t0 :: t1 :: _ =>
      let addr := BytesToAddress t1 in
      if bool_decide (t0 = laneRegistrationTopic) then AddLaneMember addr st
      else if bool_decide (t0 = laneDeregistrationTopic) then RemoveLaneMember addr st
      else st
    | _ => st
    end
  end.

Definition PostTxProcessing (receipt : option (list (option Log))) : M world error unit :=
  match receipt with
  | None | Some [] => ret tt
  | Some logs =>
    let! st := gets store in
    let registry := RegistryAddress (GetLaneParams st) in
    if bool_decide (registry = zero_address) then ret tt
    else update_store (fun st => foldl (mirror_log registry) st logs)
  end.

End Hook.

(** * [keeper/keeper.go], [keeper/params.go] *)

Section Keeper.
Context {LD : LegacyDec}.
(** What [GetParamSetIfExists] of the legacy parameter subspace leaves. *)
Variable legacy_params : Params.

Definition GetParams (st : kv) : Params :=
  let p := match st !! ParamsKey with Some (VParams p) => p | _ => legacy_params end in
  mkParams (NoBaseFee p) (BaseFeeChangeDenominator p) (ElasticityMultiplier p) (BaseFee p)
    (EnableHeight p) (Some (default 0 (MinGasPrice p))) (Some (default 0 (MinGasMultiplier p))).

Definition SetParams (p : Params) (st : kv) : kv := <[ParamsKey := VParams p]> st.

Definition GetBlockGasWanted (st : kv) : Z :=
  match st !! KeyPrefixBlockGasWanted with Some (VGas n) => n | _ => 0 end.

Definition SetBlockGasWanted (gas : Z) (st : kv) : kv := <[KeyPrefixBlockGasWanted := VGas gas]> st.

Definition GetTransientGasWanted (transient : option Z) : Z := default 0 transient.

(** The sum wraps at 64 bits; the error is always nil. *)
Definition AddTransientGasWanted (gasWanted : Z) : M world error Z :=
  fun w =>
    let result := u64 (GetTransientGasWanted (ext w) + gasWanted) in
    ({| store := store w; ext := Some result; events := events w |}, Ok result).

Definition GetBaseFeeV1 (st : kv) : option Z :=
  match st !! KeyPrefixBaseFeeV1 with Some (VBaseFeeV1 n) => Some n | _ => None end.

Definition GetBaseFeeEnabled (env : BlockEnv) (st : kv) : bool :=
  let p := GetParams st in
  negb (NoBaseFee p) && (EnableHeight p <=? Height env).

Definition GetBaseFee (st : kv) : option Z :=
  let p := GetParams st in
  if NoBaseFee p then None
  else match BaseFee p with
  | None => GetBaseFeeV1 st
  | Some b => if b =? 0 then GetBaseFeeV1 st else Some b
  end.

Definition SetBaseFee (baseFee : Z) (st : kv) : kv :=
  let p := GetParams st in
  SetParams (mkParams (NoBaseFee p) (BaseFeeChangeDenominator p) (ElasticityMultiplier p)
    (Some baseFee) (EnableHeight p) (MinGasPrice p) (MinGasMultiplier p)) st.

(** * [keeper/eip1559.go] *)

(** [big.Int.Div] panics on a zero divisor. *)
Definition big_div (a b : Z) : result unit Z := if b =? 0 then Panic else Ok (go_div a b).

Definition rbind {A B} (r : result unit A) (k : A -> result unit B) : result unit B :=
  match r with
  | Ok a => k a
  | Err e => Err e
  | Panic => Panic
  end.

(** The change from the parent's base fee and gas, past the guards. *)
Definition next_base_fee (parentBaseFee parentGasUsed parentGasTarget denominator minGasPrice : Z) :
    result unit Z :=
  if parentGasUsed =? parentGasTarget then Ok parentBaseFee
  else if parentGasTarget <? parentGasUsed then
    let gasUsedDelta := parentGasUsed - parentGasTarget in
    rbind (big_div (parentBaseFee * gasUsedDelta) parentGasTarget) (fun y =>
    rbind (big_div y denominator) (fun d =>
    Ok (parentBaseFee + Z.max d 1)))
  else
    let gasUsedDelta := parentGasTarget - parentGasUsed in
    rbind (big_div (parentBaseFee * gasUsedDelta) parentGasTarget) (fun y =>
    rbind (big_div y denominator) (fun baseFeeDelta =>
    Ok (Z.max (parentBaseFee - baseFeeDelta) minGasPrice))).

(** [MaxUint64] without a limit. *)
Definition gas_limit (env : BlockEnv) : Z :=
  match MaxGas env with
  | Some m => if -1 <? m then m else 2 ^ 64 - 1
  | None => 2 ^ 64 - 1
  end.

Definition CalculateBaseFee (env : BlockEnv) (st : kv) : result unit (option Z) :=
  let params := GetParams st in
  if negb (IsBaseFeeEnabled params (Height env)) then Ok None
  else if Height env =? EnableHeight params then Ok (BaseFee params)
  else match BaseFee params with
  | None => Ok None
  | Some parentBaseFee =>
    let parentGasUsed := GetBlockGasWanted st in
    rbind (big_div (gas_limit env) (ElasticityMultiplier params)) (fun parentGasTarget =>
    if negb (is_u64 parentGasTarget) then Ok None
    else
      let minGasPrice := dec_truncate (default 0 (MinGasPrice params)) in
      rbind (next_base_fee parentBaseFee parentGasUsed parentGasTarget
               (BaseFeeChangeDenominator params) minGasPrice)
        (fun fee => Ok (Some fee)))
  end.

(** * [keeper/abci.go] *)

Definition BeginBlock (env : BlockEnv) : M world error unit :=
  fun w =>
    match CalculateBaseFee env (store w) with
    | Panic | Err _ => (w, Panic)
    | Ok None => (w, Ok tt)
    | Ok (Some baseFee) =>
      (update_store (SetBaseFee baseFee) ;; EmitEvent (FeeMarketBaseFee (BigString baseFee))) w
    end.

(** [TruncateInt().Uint64()] panics outside the range. *)
Definition updated_gas_wanted (gasWanted gasUsed multiplier : Z) : Z :=
  dec_truncate (Z.max (dec_mul (gasWanted * dec_one) multiplier) (gasUsed * dec_one)).

Definition EndBlock (env : BlockEnv) : M world error unit :=
  match BlockGasConsumed env with
  | None => ret tt
  | Some gasUsed =>
    let! transient := gets ext in
    let gasWanted := GetTransientGasWanted transient in
    if negb (is_i64 gasWanted) then ret tt
    else if negb (is_i64 gasUsed) then ret tt
    else
      let! st := gets store in
      let minGasMultiplier := default 0 (MinGasMultiplier (GetParams st)) in
      let updated := updated_gas_wanted gasWanted gasUsed minGasMultiplier in
      if negb (is_u64 updated) then panic
      else
        update_store (SetBlockGasWanted updated) ;;
        EmitEvent (BlockGas (Height env) updated)
  end.

(** * [keeper/msg_server.go], [genesis.go] *)

Definition UpdateParams (authority sender : string) (p : Params) : M world error unit :=
  guard (bool_decide (authority = sender)) ErrInvalidAuthority ;;
  update_store (SetParams p).

Definition InitGenesis (p : Params) (blockGas : Z) : M world error unit :=
  update_store (fun st => SetBlockGasWanted blockGas (SetParams p st)).

Definition ExportGenesis (st : kv) : Params * Z := (GetParams st, GetBlockGasWanted st).

End Keeper.
