(* ===== verification/FeeMarketProps.v ===== *)
(** [x/feemarket]: the base fee over blocks and who the fee lane applies to. *)

From stdpp Require Import base list gmap strings relations.
From Stdlib Require Import ZArith Lia.
From S2P Require Import Prelude KVStore BigInt Ledger Scheduler FeeMarket.
Open Scope Z_scope.
Open Scope go_scope.

(** * Specifications *)

Section Spec.
Context {LD : LegacyDec} {EC : EthCommon}.
Variable legacy_params : Params.

(** A block past activation with a base fee [b], a positive gas target [t], a
    change denominator [d] and a floor [m]. *)
Definition fee_config (env : BlockEnv) (st : kv) (b t d m : Z) : Prop :=
  let p := GetParams legacy_params st in
  IsBaseFeeEnabled p (Height env) = true /\ EnableHeight p < Height env /\
  BaseFee p = Some b /\ 0 <= b /\ 0 < ElasticityMultiplier p /\
  t = gas_limit env / ElasticityMultiplier p /\ 0 < t < 2 ^ 64 /\
  d = BaseFeeChangeDenominator p /\ 0 < d /\ m = dec_truncate (default 0 (MinGasPrice p)).

(** EIP-1559 in one fraction: the fee after a block of gas [g]. *)
Definition eip1559 (b g t d m : Z) : Z :=
  if g =? t then b
  else if t <? g then b + Z.max 1 (b * (g - t) / (t * d))
  else Z.max (b - b * (t - g) / (t * d)) m.

(** No stored number is negative. *)
Definition fees_nonneg (st : kv) : Prop :=
  match BaseFee (GetParams legacy_params st) with Some b => 0 <= b | None => True end /\
  0 <= default 0 (MinGasPrice (GetParams legacy_params st)) /\
  match GetBaseFeeV1 st with Some b => 0 <= b | None => True end.

(** The fee market as the scheduler sees it. *)
#[export] Instance scheduler_fee_market : FeeMarketKeeper world := {|
  Scheduler.GetBaseFee w := FeeMarket.GetBaseFee legacy_params (store w)
|}.

(** What happens to the module over time: block boundaries (the transient store
    is cleared at commit), gas accounting of transactions, parameter updates by
    governance with validated parameters, lane updates, and the EVM hook. *)
Inductive fm_step (reg dereg : bytes) : world -> world -> Prop :=
| step_begin env w w' : BeginBlock legacy_params env w = (w', Ok tt) -> fm_step reg dereg w w'
| step_end env w w' : EndBlock legacy_params env w = (w', Ok tt) ->
    fm_step reg dereg w {| store := store w'; ext := None; events := events w' |}
| step_gas n w w' r : AddTransientGasWanted n w = (w', Ok r) -> fm_step reg dereg w w'
| step_params auth sender p w w' :
    Params_Validate p = Ok tt -> UpdateParams auth sender p w = (w', Ok tt) -> fm_step reg dereg w w'
| step_lane lp w w' : SetLaneParams lp w = (w', Ok tt) -> fm_step reg dereg w w'
| step_hook receipt w w' : PostTxProcessing reg dereg receipt w = (w', Ok tt) -> fm_step reg dereg w w'.

(** The stored lane parameters passed their check. *)
Definition lane_ok (st : kv) : Prop := LaneParams_Validate (GetLaneParams st) = true.

(** Signer or called contract is in the lane; a contract creation calls none. *)
Definition in_lane (st : kv) (signer target : bytes) : Prop :=
  IsLaneMember st signer = true \/ (target <> zero_address /\ IsLaneMember st target = true).

(** The topic and the address of a log of the registry. *)
Definition lane_event (registry : bytes) (l : option Log) : option (bytes * bytes) :=
  match l with
  | Some (mkLog addr (t0 :: t1 :: _)) =>
    if bool_decide (addr = registry) then Some (t0, BytesToAddress t1) else None
  | _ => None
  end.

(** A log of the registry with topic [t] about [a]. *)
Definition registers (t registry : bytes) (l : option Log) (a : bytes) : Prop :=
  lane_event registry l = Some (t, a).

End Spec.

(** * The base fee *)

Section BaseFee.
Context {LD : LegacyDec} {EC : EthCommon}.
Variable legacy_params : Params.

Lemma next_base_fee_eip b g t d m :
  0 < t -> 0 < d -> next_base_fee b g t d m = Ok (eip1559 b g t d m).
Proof.
  intros Ht Hd. unfold next_base_fee, eip1559, big_div.
  destruct (g =? t); [done|].
  rewrite (proj2 (Z.eqb_neq t 0)), (proj2 (Z.eqb_neq d 0)) by lia. cbn [rbind].
  rewrite !go_div_pos by lia. rewrite !Z.div_div by lia.
  destruct (t <? g); [|done]. by rewrite Z.max_comm.
Qed.

Lemma CalculateBaseFee_config env st b t d m :
  fee_config legacy_params env st b t d m ->
  CalculateBaseFee legacy_params env st = Ok (Some (eip1559 b (GetBlockGasWanted st) t d m)).
Proof.
  intros (Hen & Hh & Hb & Hb0 & He & -> & Ht & -> & Hd & ->). unfold CalculateBaseFee. rewrite Hen, Hb.
  cbn [negb]. rewrite (proj2 (Z.eqb_neq (Height env) _)) by lia. unfold big_div at 1.
  rewrite (proj2 (Z.eqb_neq (ElasticityMultiplier _) 0)), go_div_pos by lia. cbn [rbind].
  rewrite (proj2 (is_u64_true _)) by lia. cbn [negb]. by rewrite next_base_fee_eip by lia.
Qed.

(** A product of a fee and a share of the target, over target and denominator. *)
Lemma fee_share b x t d : 0 <= b -> 0 <= x <= t -> 0 < t -> 0 < d -> 0 <= b * x / (t * d) <= b / d.
Proof.
  intros Hb Hx Ht Hd. split; [apply Z.div_pos; nia|].
  rewrite <- (Z.div_mul_cancel_l b d t) by lia. apply Z.div_le_mono; [nia|]. nia.
Qed.

Lemma fee_share_mono b x y t d : 0 <= b -> x <= y -> 0 < t -> 0 < d -> b * x / (t * d) <= b * y / (t * d).
Proof. intros Hb Hxy Ht Hd. apply Z.div_le_mono; nia. Qed.

(** C36: the base fee.  Past activation it is the EIP-1559 fee of the parent's
    gas: unchanged at the target, strictly higher above it, and at most one
    [1/denominator] lower below it, never under the configured floor there.
    More gas never gives a lower fee, as long as the floor is not above the
    current fee. *)
Theorem base_fee_follows_eip1559 env st b t d m :
  fee_config legacy_params env st b t d m ->
  let g := GetBlockGasWanted st in
  let f := eip1559 b g t d m in
  CalculateBaseFee legacy_params env st = Ok (Some f) /\
  (g = t -> f = b) /\
  (t < g -> b < f) /\
  (0 <= g < t -> Z.max (b - b / d) m <= f <= Z.max b m) /\
  (m <= b -> forall g', 0 <= g -> g <= g' -> f <= eip1559 b g' t d m).
Proof.
  intros H g f. pose proof H as (_ & _ & _ & Hb & _ & _ & Ht & _ & Hd & _).
  split_and!; [by apply CalculateBaseFee_config|..]; unfold f, eip1559.
  - intros ->. by rewrite Z.eqb_refl.
  - intros Hg. rewrite (proj2 (Z.eqb_neq g t)), (proj2 (Z.ltb_lt t g)) by lia. lia.
  - intros Hg. rewrite (proj2 (Z.eqb_neq g t)), (proj2 (Z.ltb_ge t g)) by lia.
    pose proof (fee_share b (t - g) t d Hb ltac:(lia) ltac:(lia) ltac:(lia)). lia.
  - intros Hm g' Hg Hle.
    destruct (Z.eqb_spec g t), (Z.eqb_spec g' t), (Z.ltb_spec t g), (Z.ltb_spec t g'); first
      [ lia
      | pose proof (fee_share_mono b (g - t) (g' - t) t d Hb ltac:(lia) ltac:(lia) ltac:(lia)); lia
      | pose proof (fee_share b (t - g) t d Hb ltac:(lia) ltac:(lia) ltac:(lia));
        pose proof (fee_share_mono b (t - g') (t - g) t d Hb ltac:(lia) ltac:(lia) ltac:(lia)); lia ].
Qed.

(** parameters that pass [Validate] can stop the chain.  The elasticity
    multiplier is not checked; once governance sets it to zero with the base fee
    enabled, every later [BeginBlock] divides by zero and panics. *)
Theorem zero_elasticity_halts auth p (w w' : world) env :
  Params_Validate p = Ok tt -> ElasticityMultiplier p = 0 -> NoBaseFee p = false ->
  EnableHeight p < Height env ->
  UpdateParams auth auth p w = (w', Ok tt) ->
  BeginBlock legacy_params env w' = (w', Panic).
Proof.
  intros Hv He Hn Hh. unfold UpdateParams, bind, guard. rewrite bool_decide_eq_true_2 by done.
  intros [= <-]. unfold BeginBlock, CalculateBaseFee. cbn [store].
  assert (exists b, BaseFee p = Some b) as [b Hb].
  { unfold Params_Validate in Hv. destruct (_ =? 0); [done|]. destruct (BaseFee p); [by eexists|done]. }
  unfold GetParams, SetParams. rewrite lookup_insert_eq. unfold IsBaseFeeEnabled.
  cbn [NoBaseFee EnableHeight BaseFee ElasticityMultiplier].
  rewrite Hn, Hb, He, (proj2 (Z.leb_le _ _)), (proj2 (Z.eqb_neq _ _)) by lia. done.
Qed.

Lemma updated_gas_bounds wanted used mult :
  0 <= wanted -> 0 <= used -> 0 <= mult <= dec_one ->
  used <= updated_gas_wanted wanted used mult <= Z.max wanted used.
Proof.
  intros Hw Hu Hm. unfold updated_gas_wanted. rewrite dec_mul_int.
  assert (0 < dec_one) by (unfold dec_one; lia).
  rewrite dec_truncate_nonneg by nia. split.
  - apply Z.div_le_lower_bound; [done|]. nia.
  - apply Z.lt_succ_r, Z.div_lt_upper_bound; [done|]. nia.
Qed.

Lemma EndBlock_run env (w w' : world) r used :
  BlockGasConsumed env = Some used ->
  0 <= GetTransientGasWanted (ext w) < 2 ^ 63 -> 0 <= used < 2 ^ 63 ->
  0 <= default 0 (MinGasMultiplier (GetParams legacy_params (store w))) <= dec_one ->
  EndBlock legacy_params env w = (w', r) ->
  let g := updated_gas_wanted (GetTransientGasWanted (ext w)) used
             (default 0 (MinGasMultiplier (GetParams legacy_params (store w)))) in
  r = Ok tt /\ store w' = SetBlockGasWanted g (store w).
Proof.
  intros Hg Hw Hu Hm H g. unfold EndBlock in H. rewrite Hg in H. unfold bind at 1, gets at 1 in H.
  rewrite !(proj2 (is_i64_true _)) in H by lia. cbn [negb] in H.
  unfold bind at 1, gets at 1 in H. fold g in H.
  pose proof (updated_gas_bounds _ _ _ ltac:(apply Hw) ltac:(apply Hu) Hm). fold g in H0.
  rewrite (proj2 (is_u64_true g)) in H by lia. cbn [negb] in H. by injection H as <- <-.
Qed.

Lemma lookup_gas_other (g : Z) (st : kv) k :
  k <> KeyPrefixBlockGasWanted -> SetBlockGasWanted g st !! k = st !! k.
Proof. intros Hk. unfold SetBlockGasWanted. by rewrite lookup_insert_ne. Qed.

Lemma GetParams_ext (st st' : kv) :
  st' !! ParamsKey = st !! ParamsKey -> GetParams legacy_params st' = GetParams legacy_params st.
Proof. intros H. unfold GetParams. by rewrite H. Qed.

(** the gas the next base fee is computed from.  At the end of a block the
    module records the gas consumed, or the configured share of the gas asked for
    if that is more: never less than the consumption, never more than both.  It
    does not panic, and the parameters stay as they are. *)
Theorem end_block_records_gas env (w w' : world) r used :
  BlockGasConsumed env = Some used ->
  0 <= GetTransientGasWanted (ext w) < 2 ^ 63 -> 0 <= used < 2 ^ 63 ->
  0 <= default 0 (MinGasMultiplier (GetParams legacy_params (store w))) <= dec_one ->
  EndBlock legacy_params env w = (w', r) ->
  r = Ok tt /\
  used <= GetBlockGasWanted (store w') <= Z.max (GetTransientGasWanted (ext w)) used /\
  GetTransientGasWanted (ext w) * default 0 (MinGasMultiplier (GetParams legacy_params (store w))) / dec_one
    <= GetBlockGasWanted (store w') /\
  GetParams legacy_params (store w') = GetParams legacy_params (store w).
Proof.
  intros Hg Hw Hu Hm H. destruct (EndBlock_run _ _ _ _ _ Hg Hw Hu Hm H) as [-> Hst].
  set (mult := default 0 _) in *. set (g := updated_gas_wanted _ _ _) in Hst.
  assert (GetBlockGasWanted (store w') = g) as ->.
  { unfold GetBlockGasWanted. rewrite Hst. unfold SetBlockGasWanted. by rewrite lookup_insert_eq. }
  split; [done|]. split; [apply updated_gas_bounds; (lia || done)|]. split.
  - unfold g, updated_gas_wanted. rewrite dec_mul_int, dec_truncate_nonneg by (unfold dec_one in *; nia).
    apply Z.div_le_mono; unfold dec_one; lia.
  - apply GetParams_ext. rewrite Hst. by apply lookup_gas_other.
Qed.

End BaseFee.

(** * The fee lane *)

Section Lane.
Context {LD : LegacyDec} {EC : EthCommon}.
Variables reg dereg : bytes.
Hypothesis topics_differ : reg <> dereg.

Lemma LaneMemberKey_inj a b : LaneMemberKey a = LaneMemberKey b -> a = b.
Proof. apply app_inv_head. Qed.

Lemma mirror_log_event (registry : bytes) (st : kv) (l : option Log) :
  mirror_log reg dereg registry st l =
  match lane_event registry l with
  | Some (t, a) =>
    if bool_decide (t = reg) then AddLaneMember a st
    else if bool_decide (t = dereg) then RemoveLaneMember a st else st
  | None => st
  end.
Proof.
  unfold mirror_log, lane_event. destruct l as [[addr [|t0 [|t1 rest]]]|]; cbn [log_Address log_Topics];
    try done; by case_bool_decide.
Qed.

Lemma mirror_member (registry : bytes) (st : kv) (l : option Log) (a : bytes) :
  IsLaneMember (mirror_log reg dereg registry st l) a = true <->
  registers reg registry l a \/ (IsLaneMember st a = true /\ ~ registers dereg registry l a).
Proof.
  unfold registers, IsLaneMember. rewrite mirror_log_event, !bool_decide_eq_true.
  destruct (lane_event registry l) as [[t b]|]; [|naive_solver].
  case_bool_decide as H0; [|case_bool_decide as H1; [|naive_solver]]; subst t.
  - unfold AddLaneMember. destruct (decide (b = a)) as [->|Hne].
    + rewrite lookup_insert_eq. naive_solver.
    + rewrite lookup_insert_ne by (by intros ?%LaneMemberKey_inj). naive_solver.
  - unfold RemoveLaneMember. destruct (decide (b = a)) as [->|Hne].
    + rewrite lookup_delete_eq. split; [by intros [? ?]|]. naive_solver.
    + rewrite lookup_delete_ne by (by intros ?%LaneMemberKey_inj). naive_solver.
Qed.

Lemma mirror_other (registry : bytes) (logs : list (option Log)) (k : bytes) : forall st : kv,
  (forall a, k <> LaneMemberKey a) -> foldl (mirror_log reg dereg registry) st logs !! k = st !! k.
Proof.
  induction logs as [|l logs IH]; intros st Hk; cbn [foldl]; [done|]. rewrite IH by done.
  rewrite mirror_log_event. destruct (lane_event registry l) as [[t b]|]; [|done].
  case_bool_decide; [|case_bool_decide; [|done]].
  - unfold AddLaneMember. by rewrite lookup_insert_ne.
  - unfold RemoveLaneMember. by rewrite lookup_delete_ne.
Qed.

Lemma mirror_all (registry : bytes) (logs : list (option Log)) (st : kv) (a : bytes) :
  IsLaneMember (foldl (mirror_log reg dereg registry) st logs) a = true <->
  (exists pre l post, logs = pre ++ l :: post /\ registers reg registry l a /\
     forall l', l' ∈ post -> ~ registers dereg registry l' a) \/
  (IsLaneMember st a = true /\ forall l', l' ∈ logs -> ~ registers dereg registry l' a).
Proof.
  induction logs as [|x logs IH] using rev_ind.
  - cbn [foldl]. split; [intros H; right; split; [done|]; intros l' Hl; by apply elem_of_nil in Hl|].
    intros [(pre & l & post & H & _)|[H _]]; [by destruct pre|done].
  - rewrite foldl_app. cbn [foldl]. rewrite mirror_member, IH. split.
    + intros [Hr|[[(pre & l & post & -> & Hr & Hno)|[Hm Hno]] Hx]].
      * left. exists logs, x, []. split_and!; [done|done|]. intros l' Hl. by apply elem_of_nil in Hl.
      * left. exists pre, l, (post ++ [x]). rewrite <- app_assoc. split_and!; [done|done|].
        intros l' Hl. apply elem_of_app in Hl as [Hl|Hl]; [by apply Hno|]. by apply list_elem_of_singleton in Hl as ->.
      * right. split; [done|]. intros l' Hl. apply elem_of_app in Hl as [Hl|Hl]; [by apply Hno|].
        by apply list_elem_of_singleton in Hl as ->.
    + intros [(pre & l & post & He & Hr & Hno)|[Hm Hno]].
      * destruct post as [|y post _] using rev_ind.
        { apply app_inj_tail in He as [_ ->]. by left. }
        rewrite app_comm_cons, app_assoc in He. apply app_inj_tail in He as [-> ->].
        right. split; [left; exists pre, l, post; split_and!; [done|done|]|].
        -- intros l' Hl. apply Hno, elem_of_app. by left.
        -- apply Hno, elem_of_app. right. by left.
      * right. split; [right; split; [done|]|]; intros; apply Hno, elem_of_app; [by left|right; by left].
Qed.

(** the lane's members follow the registry.  The hook never fails; after the
    logs of a transaction an address is a member exactly if the registry
    registered it and did not deregister it afterwards, or if it was a member
    and was not deregistered.  Logs of other contracts count for nothing, and
    nothing else in the store changes. *)
Theorem lane_mirrors_registry (logs : list (option Log)) (w w' : world) r :
  PostTxProcessing reg dereg (Some logs) w = (w', r) ->
  let registry := RegistryAddress (GetLaneParams (store w)) in
  r = Ok tt /\
  (forall k, (forall a, k <> LaneMemberKey a) -> store w' !! k = store w !! k) /\
  (registry = zero_address -> store w' = store w) /\
  (registry <> zero_address -> forall a, IsLaneMember (store w') a = true <->
     (exists pre l post, logs = pre ++ l :: post /\ registers reg registry l a /\
        forall l', l' ∈ post -> ~ registers dereg registry l' a) \/
     (IsLaneMember (store w) a = true /\ forall l', l' ∈ logs -> ~ registers dereg registry l' a)).
Proof.
  intros H registry. assert (r = Ok tt /\ store w' =
    if bool_decide (registry = zero_address) then store w
    else foldl (mirror_log reg dereg registry) (store w) logs) as [-> Hst].
  { unfold PostTxProcessing in H. destruct logs as [|l logs].
    - injection H as <- <-. by case_bool_decide.
    - unfold bind at 1, gets at 1 in H. fold registry in H.
      case_bool_decide; injection H as <- <-; done. }
  split; [done|]. rewrite Hst. case_bool_decide as Hz.
  - split_and!; [done|done|done].
  - split_and!; [intros k Hk; by apply mirror_other|done|intros _ a; apply mirror_all].
Qed.

End Lane.

(** * Over time *)

Section Reachable.
Context {LD : LegacyDec} {EC : EthCommon}.
Variable legacy_params : Params.
Variables reg dereg : bytes.

Abbreviation steps := (rtc (fm_step legacy_params reg dereg)).

Lemma next_base_fee_nonneg b g t d m f :
  0 <= b -> 0 <= m -> next_base_fee b g t d m = Ok f -> 0 <= f.
Proof.
  intros Hb Hm H. unfold next_base_fee in H. destruct (g =? t); [by injection H as <-|].
  unfold big_div in H. destruct (t <? g), (t =? 0), (d =? 0); cbn [rbind] in H; try done;
    injection H as <-; lia.
Qed.

Lemma CalculateBaseFee_nonneg (env : BlockEnv) (st : kv) (f : Z) :
  fees_nonneg legacy_params st -> CalculateBaseFee legacy_params env st = Ok (Some f) -> 0 <= f.
Proof.
  intros (Hb & Hm & _) H. unfold CalculateBaseFee in H.
  destruct (negb (IsBaseFeeEnabled _ _)); [done|].
  destruct (BaseFee (GetParams legacy_params st)) as [b|]; [|by destruct (_ =? _)].
  destruct (_ =? _); [by injection H as <-|].
  destruct (big_div _ _) as [t| |]; cbn [rbind] in H; try done. destruct (negb (is_u64 t)); [done|].
  destruct (next_base_fee _ _ _ _ _) as [f'| |] eqn:E; cbn [rbind] in H; try done. injection H as <-.
  eapply next_base_fee_nonneg; [exact Hb| |exact E]. rewrite dec_truncate_nonneg by done.
  apply Z.div_pos; [done|]. unfold dec_one. lia.
Qed.

Lemma fees_nonneg_ext (st st' : kv) :
  st' !! ParamsKey = st !! ParamsKey -> st' !! KeyPrefixBaseFeeV1 = st !! KeyPrefixBaseFeeV1 ->
  fees_nonneg legacy_params st -> fees_nonneg legacy_params st'.
Proof.
  intros Hp Hv. unfold fees_nonneg, GetBaseFeeV1. by rewrite (GetParams_ext _ _ _ Hp), Hv.
Qed.

(** What each step leaves in the store. *)
Lemma begin_store (env : BlockEnv) (w w' : world) :
  BeginBlock legacy_params env w = (w', Ok tt) ->
  store w' = store w \/ exists f, CalculateBaseFee legacy_params env (store w) = Ok (Some f) /\
    store w' = SetBaseFee legacy_params f (store w).
Proof.
  unfold BeginBlock. destruct (CalculateBaseFee _ _ _) as [[f|]| |]; try done.
  - intros [= <-]. right. by exists f.
  - intros [= <-]. by left.
Qed.

Lemma end_store (env : BlockEnv) (w w' : world) :
  EndBlock legacy_params env w = (w', Ok tt) ->
  store w' = store w \/ exists g, store w' = SetBlockGasWanted g (store w).
Proof.
  unfold EndBlock. destruct (BlockGasConsumed env); [|by intros [= <-]; left].
  unfold bind at 1, gets at 1. destruct (negb _); [by intros [= <-]; left|].
  destruct (negb _); [by intros [= <-]; left|]. unfold bind at 1, gets at 1.
  destruct (negb _); [done|]. intros [= <-]. right. by eexists.
Qed.

Lemma hook_store (receipt : option (list (option Log))) (w w' : world) :
  PostTxProcessing reg dereg receipt w = (w', Ok tt) ->
  forall k, (forall a, k <> LaneMemberKey a) -> store w' !! k = store w !! k.
Proof.
  intros H k Hk. unfold PostTxProcessing in H. destruct receipt as [[|l logs]|]; try by injection H as <-.
  unfold bind at 1, gets at 1 in H. case_bool_decide; injection H as <-; [done|]. by apply (mirror_other reg dereg _ (l :: logs)).
Qed.

Lemma lane_store (lp : LaneParams) (w w' : world) :
  SetLaneParams lp w = (w', Ok tt) ->
  LaneParams_Validate lp = true /\ store w' = <[KeyLaneParams := VLane lp]> (store w).
Proof.
  unfold SetLaneParams, bind, guard. destruct (LaneParams_Validate lp); [|done]. by intros [= <-].
Qed.

Lemma params_store (auth sender : string) (p : Params) (w w' : world) :
  UpdateParams auth sender p w = (w', Ok tt) -> store w' = SetParams p (store w).
Proof. unfold UpdateParams, bind, guard. case_bool_decide; [|done]. by intros [= <-]. Qed.

Lemma gas_store (n : Z) (w w' : world) (r : Z) : AddTransientGasWanted n w = (w', Ok r) -> store w' = store w.
Proof. by intros [= <- _]. Qed.

Lemma SetParams_nonneg (p : Params) (st : kv) :
  match BaseFee p with Some b => 0 <= b | None => True end -> 0 <= default 0 (MinGasPrice p) ->
  fees_nonneg legacy_params st -> fees_nonneg legacy_params (SetParams p st).
Proof.
  intros Hb Hm (_ & _ & Hv). unfold fees_nonneg, GetParams, GetBaseFeeV1, SetParams.
  rewrite lookup_insert_eq, lookup_insert_ne by done. cbn [BaseFee MinGasPrice default]. done.
Qed.

Lemma step_nonneg (w w' : world) :
  fm_step legacy_params reg dereg w w' -> fees_nonneg legacy_params (store w) -> fees_nonneg legacy_params (store w').
Proof.
  intros Hs Hn. destruct Hs as [env w w' H|env w w' H|n w w' r H|auth sender p w w' Hv H|lp w w' H|receipt w w' H].
  - apply begin_store in H as [->|(f & Hf & ->)]; [done|].
    unfold SetBaseFee. apply SetParams_nonneg; [|apply Hn|done]. by eapply CalculateBaseFee_nonneg.
  - cbn [store]. apply end_store in H as [->|(g & ->)]; [done|].
    eapply fees_nonneg_ext; [by apply lookup_gas_other..|done].
  - by rewrite (gas_store _ _ _ _ H).
  - rewrite (params_store _ _ _ _ _ H). unfold Params_Validate in Hv.
    destruct (_ =? 0); [done|]. destruct (BaseFee p) as [b|] eqn:Hb; [|done].
    destruct (Z.ltb_spec b 0); [done|]. destruct (_ <? 0); [done|]. destruct (negb (validateMinGasMultiplier _)); [done|].
    unfold validateMinGasPrice in Hv. destruct (MinGasPrice p) as [m|] eqn:Hm; [|done].
    destruct (Z.leb_spec 0 m); [|done]. apply SetParams_nonneg; [by rewrite Hb|by rewrite Hm|done].
  - apply lane_store in H as [_ ->]. eapply fees_nonneg_ext; [by rewrite lookup_insert_ne..|done].
  - eapply fees_nonneg_ext; [by apply (hook_store _ _ _ H)..|done].
Qed.

(** the base fee the scheduler charges with is never negative, in any state
    the module reaches from one without negative numbers: block boundaries,
    governance updates, lane updates and EVM logs in any order.  This is what the
    scheduler's deposit accounting assumes of the fee market. *)
Theorem base_fee_never_negative (w w' : world) :
  steps w w' -> fees_nonneg legacy_params (store w) ->
  0 <= @Scheduler.base_fee _ (scheduler_fee_market legacy_params) w'.
Proof.
  intros Hs Hn. assert (fees_nonneg legacy_params (store w')) as (Hb & _ & Hv).
  { induction Hs as [|w1 w2 w3 H12 _ IH]; [done|]. apply IH. by eapply step_nonneg. }
  unfold base_fee. cbn [Scheduler.GetBaseFee scheduler_fee_market]. unfold FeeMarket.GetBaseFee.
  destruct (NoBaseFee _); [done|].
  destruct (BaseFee (GetParams legacy_params (store w'))) as [b|];
    [destruct (b =? 0)|]; try (by destruct (GetBaseFeeV1 (store w'))).
Qed.

Lemma GetLaneParams_ext (st st' : kv) :
  st' !! KeyLaneParams = st !! KeyLaneParams -> GetLaneParams st' = GetLaneParams st.
Proof. intros H. unfold GetLaneParams. by rewrite H. Qed.

Lemma step_lane_ok (w w' : world) :
  fm_step legacy_params reg dereg w w' -> lane_ok (store w) -> lane_ok (store w').
Proof.
  unfold lane_ok. intros Hs Hn.
  destruct Hs as [env w w' H|env w w' H|n w w' r H|auth sender p w w' Hv H|lp w w' H|receipt w w' H].
  - apply begin_store in H as [->|(f & _ & ->)]; [done|].
    rewrite (GetLaneParams_ext (store w)); [done|]. unfold SetBaseFee, SetParams. by rewrite lookup_insert_ne.
  - cbn [store]. apply end_store in H as [->|(g & ->)]; [done|].
    rewrite (GetLaneParams_ext (store w)); [done|]. by apply lookup_gas_other.
  - by rewrite (gas_store _ _ _ _ H).
  - rewrite (params_store _ _ _ _ _ H), (GetLaneParams_ext (store w)); [done|].
    unfold SetParams. by rewrite lookup_insert_ne.
  - apply lane_store in H as [Hv ->]. unfold GetLaneParams. rewrite lookup_insert_eq.
    unfold LaneParams_Validate in Hv. destruct (lane_GasPrice lp) as [g|] eqn:Hg; [|done].
    unfold LaneParams_Validate. by rewrite Hg.
  - rewrite (GetLaneParams_ext (store w)); [done|]. by apply (hook_store _ _ _ H).
Qed.

(** who pays the lane price.  In every reachable state a call gets the
    configured lane price exactly if the lane is enabled and the signer or the
    called contract is a member; the price is then positive, so nobody
    transacts for free through the lane.  With the lane disabled no call is
    affected. *)
Theorem lane_price_gated (w w' : world) (signer target : bytes) :
  steps w w' -> lane_ok (store w) ->
  (IsAgentLaneEnabled (store w') = true /\ in_lane (store w') signer target ->
     exists g, LaneGasPrice (store w') signer target = Some g /\ 0 < g /\
       lane_GasPrice (GetLaneParams (store w')) = Some g) /\
  (IsAgentLaneEnabled (store w') = false \/ ~ in_lane (store w') signer target ->
     LaneGasPrice (store w') signer target = None).
Proof.
  intros Hs Hn. assert (lane_ok (store w')) as Hok.
  { induction Hs as [|w1 w2 w3 H12 _ IH]; [done|]. apply IH. by eapply step_lane_ok. }
  unfold lane_ok, LaneParams_Validate in Hok. unfold LaneGasPrice, IsAgentLaneCaller, in_lane.
  split.
  - intros [He Hin]. rewrite He. cbn [negb]. unfold IsAgentLaneEnabled in He. rewrite He in Hok.
    assert ((if IsLaneMember (store w') signer then true
             else if bool_decide (target = zero_address) then false
             else IsLaneMember (store w') target) = true) as ->.
    { destruct (IsLaneMember (store w') signer); [done|]. destruct Hin as [|[Hne Hm]]; [done|].
      by rewrite bool_decide_eq_false_2. }
    cbn [negb]. destruct (lane_GasPrice (GetLaneParams (store w'))) as [g|]; [|done].
    destruct (Z.eqb_spec g 0), (Z.ltb_spec g 0); try done. exists g. split_and!; [done|lia|done].
  - intros [->|Hno]; [done|]. destruct (IsAgentLaneEnabled (store w')); [|done]. cbn [negb].
    destruct (IsLaneMember (store w') signer) eqn:Hm; [by destruct Hno; left|].
    case_bool_decide; [done|]. destruct (IsLaneMember (store w') target); [by destruct Hno; right|done].
Qed.

End Reachable.


(** [x/feemarket]: reference instances and concrete runs of the theorems. *)

Export RefDec.

(** go-ethereum's defaults, a base fee of one gwei and a floor of 0.5 gwei. *)
Definition params0 : Params :=
  mkParams false 8 2 (Some 1000000000) 0 (Some (500000000 * dec_one)) (Some (dec_one / 2)).

Definition registry0 : bytes := replicate 19 0 ++ [9].
Definition agent : bytes := replicate 19 0 ++ [7].
Definition other : bytes := replicate 19 0 ++ [8].
Definition reg0 : bytes := replicate 32 1.
Definition dereg0 : bytes := replicate 32 2.

Definition lane0 : LaneParams := mkLane true (Some 3) registry0.

Definition store0 : kv :=
  <[KeyLaneParams := VLane lane0]> (SetBlockGasWanted 25000000 (SetParams params0 ∅)).
Definition fw0 : world := {| store := store0; ext := Some 40000000; events := [] |}.

(** A block limit of thirty million gas; twelve million used. *)
Definition env0 : BlockEnv := mkEnv 100 (Some 30000000) (Some 12000000).

Definition log_of (topic addr : bytes) : option Log :=
  Some (mkLog registry0 [topic; replicate 12 0 ++ addr]).

Definition logs0 : list (option Log) :=
  [log_of reg0 other; None; log_of reg0 agent; log_of dereg0 other;
   Some (mkLog other [reg0; replicate 12 0 ++ other])].

(** Twenty-five million against a target of fifteen: up by a twelfth. *)
Lemma base_fee_follows_eip1559_witness :
  CalculateBaseFee params0 env0 store0 = Ok (Some 1083333333) /\
  1000000000 < eip1559 1000000000 (GetBlockGasWanted store0) 15000000 8 500000000.
Proof.
  assert (fee_config params0 env0 store0 1000000000 15000000 8 500000000) as H.
  { repeat split; vm_compute; first [reflexivity|discriminate]. }
  destruct (base_fee_follows_eip1559 params0 env0 store0 _ _ _ _ H) as (E & _ & Hup & _).
  split; [exact E|]. apply Hup. vm_compute. reflexivity.
Defined.

Definition bad_params : Params :=
  mkParams false 8 0 (Some 1000000000) 0 (Some 0) (Some (dec_one / 2)).

Lemma zero_elasticity_halts_witness :
  let w' := (UpdateParams "gov" "gov" bad_params fw0).1 in
  BeginBlock params0 env0 w' = (w', Panic).
Proof.
  intros w'. apply (zero_elasticity_halts params0 "gov" bad_params fw0 w' env0).
  - vm_compute. reflexivity.
  - reflexivity.
  - reflexivity.
  - reflexivity.
  - unfold w'. apply run_eq. vm_compute. reflexivity.
Defined.

Lemma end_block_records_gas_witness :
  let w' := (EndBlock params0 env0 fw0).1 in
  12000000 <= GetBlockGasWanted (store w') <= 40000000 /\ 20000000 <= GetBlockGasWanted (store w').
Proof.
  intros w'.
  destruct (end_block_records_gas params0 env0 fw0 w' (Ok tt) 12000000) as (_ & H1 & H2 & _).
  - reflexivity.
  - split; vm_compute; [discriminate|reflexivity].
  - lia.
  - split; vm_compute; discriminate.
  - unfold w'. apply run_eq. vm_compute. reflexivity.
  - split; [exact H1|exact H2].
Defined.

Definition fw1 : world := (PostTxProcessing reg0 dereg0 (Some logs0) fw0).1.

Lemma lane_mirrors_registry_witness :
  IsLaneMember (store fw1) agent = true /\ IsLaneMember (store fw1) other = false.
Proof.
  destruct (lane_mirrors_registry reg0 dereg0 ltac:(discriminate) logs0 fw0 fw1 (Ok tt)) as (_ & _ & _ & H).
  { unfold fw1. apply run_eq. vm_compute. reflexivity. }
  split.
  - apply H; [vm_compute; discriminate|]. left.
    exists [log_of reg0 other; None], (log_of reg0 agent),
      [log_of dereg0 other; Some (mkLog other [reg0; replicate 12 0 ++ other])].
    split; [reflexivity|]. split; [vm_compute; reflexivity|]. apply Forall_forall.
    repeat constructor; vm_compute; discriminate.
  - vm_compute. reflexivity.
Defined.

Definition fw2 : world := (BeginBlock params0 env0 fw1).1.

Lemma reaches_fw2 : rtc (fm_step params0 reg0 dereg0) fw0 fw2.
Proof.
  apply (rtc_l _ _ fw1).
  - apply (step_hook _ _ _ (Some logs0)). unfold fw1. apply run_eq. vm_compute. reflexivity.
  - apply rtc_once, (step_begin _ _ _ env0). unfold fw2. apply run_eq. vm_compute. reflexivity.
Qed.

Lemma base_fee_never_negative_witness :
  @Scheduler.base_fee _ (scheduler_fee_market params0) fw2 = 1083333333 /\
  0 <= @Scheduler.base_fee _ (scheduler_fee_market params0) fw2.
Proof.
  split; [vm_compute; reflexivity|].
  apply (base_fee_never_negative params0 reg0 dereg0 fw0 fw2 reaches_fw2).
  split; [vm_compute; discriminate|]. split; [vm_compute; discriminate|]. exact I.
Defined.

Lemma lane_price_gated_witness :
  (exists g, LaneGasPrice (store fw2) agent other = Some g /\ 0 < g /\
     lane_GasPrice (GetLaneParams (store fw2)) = Some g) /\
  LaneGasPrice (store fw2) other zero_address = None.
Proof.
  split.
  - apply (lane_price_gated params0 reg0 dereg0 fw0 fw2 agent other reaches_fw2).
    + vm_compute. reflexivity.
    + split; [vm_compute; reflexivity|]. left. vm_compute. reflexivity.
  - apply (lane_price_gated params0 reg0 dereg0 fw0 fw2 other zero_address reaches_fw2).
    + vm_compute. reflexivity.
    + right. intros [H|[H _]]; [vm_compute in H; discriminate|by apply H].
Defined.
