(* ===== verification/StateDB.v ===== *)
(** [x/evm/statedb]: the journaled state the EVM and the precompiles work on.

    [StateDB] caches account objects over a keeper, records every change in a
    journal, and reverts to a snapshot by undoing journal entries from the end
    ([statedb.go], [journal.go], [state_object.go], [access_list.go]).  The keeper
    of [x/evm] is a parameter with its state part of the [StateDB] (the context
    it was created with); hashing is a parameter too.

    The maps of the code hold pointers to objects.  An object is reachable through
    the map only under its own address, and one replaced by [createObject] is
    not changed while the journal holds it, so objects are values here and a
    mutation writes the object back under its address. *)

From stdpp Require Import base list gmap strings sorting.
From Stdlib Require Import ZArith Lia.
From S2P Require Import Prelude KVStore.
Open Scope Z_scope.
Open Scope go_scope.

(** * Data *)

(** [Account]; a nil balance or code hash is [None]. *)
Record Account := mkAccount { Nonce : Z; Balance : option Z; CodeHash : option bytes }.

(** [stateObject]; its account has balance and code hash, [newObject] sees to it.
    Nil code is [None]. *)
Record stateObject := mkObject {
  so_address : bytes;
  so_Nonce : Z;
  so_Balance : Z;
  so_CodeHash : bytes;
  so_code : option bytes;
  originStorage : gmap bytes bytes;
  dirtyStorage : gmap bytes bytes;
  transientStorage : gmap bytes bytes;
  dirtyCode : bool;
  suicided : bool
}.

Inductive JournalEntry :=
| createObjectChange (account : bytes)
| resetObjectChange (prev : stateObject)
| suicideChange (account : bytes) (prev : bool) (prevbalance : Z)
| balanceChange (account : bytes) (prev : Z)
| nonceChange (account : bytes) (prev : Z)
| storageChange (account key prevalue : bytes)
| codeChange (account : bytes) (prevcode : option bytes) (prevhash : bytes)
| refundChange (prev : Z)
| addLogChange
| accessListAddAccountChange (address : bytes)
| accessListAddSlotChange (address slot : bytes).

(** [Dirtied] *)
Definition Dirtied (e : JournalEntry) : option bytes :=
  match e with
  | createObjectChange a | suicideChange a _ _ | balanceChange a _ | nonceChange a _
  | storageChange a _ _ | codeChange a _ _ => Some a
  | _ => None
  end.

Record accessList := mkAL { addresses : gmap bytes Z; slots : list (gset bytes) }.

Record TxConfig := mkTxConfig { BlockHash : bytes; TxHash : bytes; TxIndex : Z; LogIndex : Z }.

Record Log := mkLog {
  log_content : list bytes;
  log_TxHash : bytes;
  log_BlockHash : bytes;
  log_TxIndex : Z;
  log_Index : Z
}.

(** The parameters: hashing, and [x/evm]'s keeper over a state [K]. *)
Class EthHash := {
  emptyCodeHash : bytes;
  Keccak256Hash : option bytes -> bytes;
  BytesToHash : bytes -> bytes;
  (** 32 bytes are copied; a longer slice is cropped from the left. *)
  BytesToHash_32 : forall b, length b = 32%nat -> BytesToHash b = b;
  BytesToHash_crop : forall b c, length c = 32%nat -> BytesToHash (b ++ c) = c;
  length_BytesToHash : forall b, length (BytesToHash b) = 32%nat;
  length_emptyCodeHash : length emptyCodeHash = 32%nat;
  length_Keccak256Hash : forall c, length (Keccak256Hash c) = 32%nat
}.

Class Keeper (K : Type) := {
  GetAccount : K -> bytes -> option Account;
  GetState_keeper : K -> bytes -> bytes -> bytes;
  GetCode_keeper : K -> bytes -> option bytes;
  SetAccount : K -> bytes -> Account -> K * option Z;
  SetState_keeper : K -> bytes -> bytes -> bytes -> K;
  SetCode_keeper : K -> bytes -> option bytes -> K;
  DeleteAccount : K -> bytes -> K * option Z
}.

Record StateDB (K : Type) := mkDB {
  keeper : K;
  entries : list JournalEntry;
  dirties : gmap bytes Z;
  validRevisions : list (Z * Z);
  nextRevisionID : Z;
  stateObjects : gmap bytes stateObject;
  txConfig : TxConfig;
  refund : Z;
  logs : list Log;
  access : accessList
}.
Arguments mkDB {K} _ _ _ _ _ _ _ _ _ _.
Arguments keeper {K} _.
Arguments entries {K} _.
Arguments dirties {K} _.
Arguments validRevisions {K} _.
Arguments nextRevisionID {K} _.
Arguments stateObjects {K} _.
Arguments txConfig {K} _.
Arguments refund {K} _.
Arguments logs {K} _.
Arguments access {K} _.

(** * Field updates *)

Section Updates.
Context {K : Type}.
Implicit Types s : StateDB K.

Definition with_objects (m : gmap bytes stateObject) s : StateDB K :=
  mkDB (keeper s) (entries s) (dirties s) (validRevisions s) (nextRevisionID s) m
    (txConfig s) (refund s) (logs s) (access s).

Definition with_journal (es : list JournalEntry) (d : gmap bytes Z) s : StateDB K :=
  mkDB (keeper s) es d (validRevisions s) (nextRevisionID s) (stateObjects s)
    (txConfig s) (refund s) (logs s) (access s).

Definition with_revisions (r : list (Z * Z)) (n : Z) s : StateDB K :=
  mkDB (keeper s) (entries s) (dirties s) r n (stateObjects s)
    (txConfig s) (refund s) (logs s) (access s).

Definition with_refund (n : Z) s : StateDB K :=
  mkDB (keeper s) (entries s) (dirties s) (validRevisions s) (nextRevisionID s) (stateObjects s)
    (txConfig s) n (logs s) (access s).

Definition with_logs (l : list Log) s : StateDB K :=
  mkDB (keeper s) (entries s) (dirties s) (validRevisions s) (nextRevisionID s) (stateObjects s)
    (txConfig s) (refund s) l (access s).

Definition with_access (al : accessList) s : StateDB K :=
  mkDB (keeper s) (entries s) (dirties s) (validRevisions s) (nextRevisionID s) (stateObjects s)
    (txConfig s) (refund s) (logs s) al.

Definition with_keeper (k : K) s : StateDB K :=
  mkDB k (entries s) (dirties s) (validRevisions s) (nextRevisionID s) (stateObjects s)
    (txConfig s) (refund s) (logs s) (access s).

End Updates.

(** [setBalance], [setNonce], [setState] and [setCode] of an object, and its caches. *)
Definition setBalance (n : Z) (o : stateObject) : stateObject :=
  mkObject (so_address o) (so_Nonce o) n (so_CodeHash o) (so_code o) (originStorage o)
    (dirtyStorage o) (transientStorage o) (dirtyCode o) (suicided o).

Definition setNonce (n : Z) (o : stateObject) : stateObject :=
  mkObject (so_address o) n (so_Balance o) (so_CodeHash o) (so_code o) (originStorage o)
    (dirtyStorage o) (transientStorage o) (dirtyCode o) (suicided o).

Definition setState (key value : bytes) (o : stateObject) : stateObject :=
  mkObject (so_address o) (so_Nonce o) (so_Balance o) (so_CodeHash o) (so_code o) (originStorage o)
    (<[key := value]> (dirtyStorage o)) (transientStorage o) (dirtyCode o) (suicided o).

Definition setCode (codeHash : bytes) (code : option bytes) (o : stateObject) : stateObject :=
  mkObject (so_address o) (so_Nonce o) (so_Balance o) codeHash code (originStorage o)
    (dirtyStorage o) (transientStorage o) true (suicided o).

Definition set_suicided (b : bool) (o : stateObject) : stateObject :=
  mkObject (so_address o) (so_Nonce o) (so_Balance o) (so_CodeHash o) (so_code o) (originStorage o)
    (dirtyStorage o) (transientStorage o) (dirtyCode o) b.

Definition cache_code (c : option bytes) (o : stateObject) : stateObject :=
  mkObject (so_address o) (so_Nonce o) (so_Balance o) (so_CodeHash o) c (originStorage o)
    (dirtyStorage o) (transientStorage o) (dirtyCode o) (suicided o).

Definition cache_origin (key value : bytes) (o : stateObject) : stateObject :=
  mkObject (so_address o) (so_Nonce o) (so_Balance o) (so_CodeHash o) (so_code o)
    (<[key := value]> (originStorage o)) (dirtyStorage o) (transientStorage o) (dirtyCode o) (suicided o).

Definition cache_transient (key value : bytes) (o : stateObject) : stateObject :=
  mkObject (so_address o) (so_Nonce o) (so_Balance o) (so_CodeHash o) (so_code o) (originStorage o)
    (dirtyStorage o) (<[key := value]> (transientStorage o)) (dirtyCode o) (suicided o).

(** * [access_list.go] *)

Definition ContainsAddress (al : accessList) (a : bytes) : bool :=
  bool_decide (is_Some (addresses al !! a)).

(** [None]: index out of range. *)
Definition Contains (al : accessList) (a slot : bytes) : option (bool * bool) :=
  match addresses al !! a with
  | None => Some (false, false)
  | Some idx =>
    if idx =? -1 then Some (true, false)
    else if idx <? 0 then None
    else match slots al !! Z.to_nat idx with
         | None => None
         | Some m => Some (true, bool_decide (slot ∈ m))
         end
  end.

Definition AddAddress (al : accessList) (a : bytes) : accessList * bool :=
  match addresses al !! a with
  | Some _ => (al, false)
  | None => (mkAL (<[a := -1]> (addresses al)) (slots al), true)
  end.

Definition fresh_slot (al : accessList) (a slot : bytes) : accessList :=
  mkAL (<[a := Z.of_nat (length (slots al))]> (addresses al)) (slots al ++ [{[slot]}]).

Definition AddSlot (al : accessList) (a slot : bytes) : option (accessList * bool * bool) :=
  match addresses al !! a with
  | None => Some (fresh_slot al a slot, true, true)
  | Some idx =>
    if idx =? -1 then Some (fresh_slot al a slot, false, true)
    else if idx <? 0 then None
    else match slots al !! Z.to_nat idx with
         | None => None
         | Some m =>
           if bool_decide (slot ∈ m) then Some (al, false, false)
           else Some (mkAL (addresses al) (<[Z.to_nat idx := {[slot]} ∪ m]> (slots al)), false, true)
         end
  end.

Definition DeleteSlot (al : accessList) (a slot : bytes) : option accessList :=
  match addresses al !! a with
  | None => None
  | Some idx =>
    if idx <? 0 then None
    else match slots al !! Z.to_nat idx with
         | None => None
         | Some m =>
           let m := m ∖ {[slot]} in
           if bool_decide (m = ∅)
           then Some (mkAL (<[a := -1]> (addresses al)) (take (Z.to_nat idx) (slots al)))
           else Some (mkAL (addresses al) (<[Z.to_nat idx := m]> (slots al)))
         end
  end.

Definition DeleteAddress (al : accessList) (a : bytes) : accessList :=
  mkAL (delete a (addresses al)) (slots al).

(** * Objects and reads *)

Section DB.
Context {K : Type} {KP : Keeper K} {EH : EthHash}.
Implicit Types s : StateDB K.

Definition newObject (a : bytes) (acc : Account) : stateObject :=
  mkObject a (Nonce acc) (default 0 (Balance acc)) (default emptyCodeHash (CodeHash acc))
    None ∅ ∅ ∅ false false.

Definition empty (o : stateObject) : bool :=
  (so_Nonce o =? 0) && (so_Balance o =? 0) && bool_decide (so_CodeHash o = emptyCodeHash).

Definition New (k : K) (cfg : TxConfig) : StateDB K :=
  mkDB k [] ∅ [] 0 ∅ cfg 0 [] (mkAL ∅ []).

Definition setStateObject (o : stateObject) s : StateDB K :=
  with_objects (<[so_address o := o]> (stateObjects s)) s.

Definition getStateObject (a : bytes) s : StateDB K * option stateObject :=
  match stateObjects s !! a with
  | Some o => (s, Some o)
  | None =>
    match GetAccount (keeper s) a with
    | None => (s, None)
    | Some acc => let o := newObject a acc in (setStateObject o s, Some o)
    end
  end.

(** [Code], [GetCommittedState] and [GetState] of an object fill its caches. *)
Definition obj_Code (k : K) (o : stateObject) : stateObject * option bytes :=
  match so_code o with
  | Some c => (o, Some c)
  | None =>
    if bool_decide (so_CodeHash o = emptyCodeHash) then (o, None)
    else let c := GetCode_keeper k (BytesToHash (so_CodeHash o)) in (cache_code c o, c)
  end.

Definition obj_GetCommittedState (k : K) (o : stateObject) (key : bytes) : stateObject * bytes :=
  match originStorage o !! key with
  | Some v => (o, v)
  | None => let v := GetState_keeper k (so_address o) key in (cache_origin key v o, v)
  end.

Definition obj_GetState (k : K) (o : stateObject) (key : bytes) : stateObject * bytes :=
  match dirtyStorage o !! key with
  | Some v => (o, v)
  | None => obj_GetCommittedState k o key
  end.

(** A read of an account: the default without one, else the value and the object
    with its caches. *)
Definition read_object {A} (a : bytes) (dflt : A) (f : K -> stateObject -> stateObject * A) s :
    StateDB K * A :=
  match getStateObject a s with
  | (s, None) => (s, dflt)
  | (s, Some o) => let '(o, v) := f (keeper s) o in (setStateObject o s, v)
  end.

Definition zero_hash : bytes := replicate 32 0.

Definition Exist (a : bytes) s : StateDB K * bool :=
  read_object a false (fun _ o => (o, true)) s.
Definition Empty (a : bytes) s : StateDB K * bool :=
  read_object a true (fun _ o => (o, empty o)) s.
Definition GetBalance (a : bytes) s : StateDB K * Z :=
  read_object a 0 (fun _ o => (o, so_Balance o)) s.
Definition GetNonce (a : bytes) s : StateDB K * Z :=
  read_object a 0 (fun _ o => (o, so_Nonce o)) s.
Definition GetCode (a : bytes) s : StateDB K * option bytes :=
  read_object a None obj_Code s.
Definition GetCodeSize (a : bytes) s : StateDB K * Z :=
  let '(s, c) := GetCode a s in (s, Z.of_nat (length (default [] c))).
Definition GetCodeHash (a : bytes) s : StateDB K * bytes :=
  read_object a zero_hash (fun _ o => (o, BytesToHash (so_CodeHash o))) s.
Definition GetState (a key : bytes) s : StateDB K * bytes :=
  read_object a zero_hash (fun k o => obj_GetState k o key) s.
Definition GetCommittedState (a key : bytes) s : StateDB K * bytes :=
  read_object a zero_hash (fun k o => obj_GetCommittedState k o key) s.
Definition HasSuicided (a : bytes) s : StateDB K * bool :=
  read_object a false (fun _ o => (o, suicided o)) s.

(** * The journal *)

Definition append (e : JournalEntry) s : StateDB K :=
  with_journal (entries s ++ [e])
    (match Dirtied e with
     | Some a => <[a := default 0 (dirties s !! a) + 1]> (dirties s)
     | None => dirties s
     end) s.

(** [Revert] of one entry; [None] where the code panics (a nil object, an empty
    log, a slot of an address that is not listed). *)
Definition revert_object (a : bytes) (f : stateObject -> stateObject) s : option (StateDB K) :=
  match getStateObject a s with
  | (_, None) => None
  | (s, Some o) => Some (setStateObject (f o) s)
  end.

Definition revert_entry (e : JournalEntry) s : option (StateDB K) :=
  match e with
  | createObjectChange a => Some (with_objects (delete a (stateObjects s)) s)
  | resetObjectChange prev => Some (setStateObject prev s)
  | suicideChange a prev prevbalance =>
    match getStateObject a s with
    | (s, None) => Some s
    | (s, Some o) => Some (setStateObject (setBalance prevbalance (set_suicided prev o)) s)
    end
  | balanceChange a prev => revert_object a (setBalance prev) s
  | nonceChange a prev => revert_object a (setNonce prev) s
  | codeChange a prevcode prevhash => revert_object a (setCode (BytesToHash prevhash) prevcode) s
  | storageChange a key prevalue => revert_object a (setState key prevalue) s
  | refundChange prev => Some (with_refund prev s)
  | addLogChange =>
    match logs s with [] => None | _ => Some (with_logs (removelast (logs s)) s) end
  | accessListAddAccountChange a => Some (with_access (DeleteAddress (access s) a) s)
  | accessListAddSlotChange a slot =>
    al ← DeleteSlot (access s) a slot; Some (with_access al s)
  end.

(** The dirty count of an entry's account goes down, and away at zero. *)
Definition undirty (e : JournalEntry) (d : gmap bytes Z) : gmap bytes Z :=
  match Dirtied e with
  | None => d
  | Some a => let n := default 0 (d !! a) - 1 in if n =? 0 then delete a d else <[a := n]> d
  end.

(** Entries from the last on. *)
Fixpoint revert_entries (es : list JournalEntry) s : option (StateDB K) :=
  match es with
  | [] => Some s
  | e :: es =>
    s ← revert_entry e s;
    revert_entries es (with_journal (entries s) (undirty e (dirties s)) s)
  end.

Definition journal_Revert (snapshot : nat) s : option (StateDB K) :=
  s' ← revert_entries (reverse (drop snapshot (entries s))) s;
  Some (with_journal (take snapshot (entries s')) (dirties s') s').

(** * Changes *)

Definition createObject (a : bytes) s : StateDB K * stateObject * option stateObject :=
  let '(s, prev) := getStateObject a s in
  let newobj := newObject a (mkAccount 0 None None) in
  let s := append (match prev with
                   | None => createObjectChange a
                   | Some p => resetObjectChange p
                   end) s in
  (setStateObject newobj s, newobj, prev).

Definition getOrNewStateObject (a : bytes) s : StateDB K * stateObject :=
  match getStateObject a s with
  | (s, Some o) => (s, o)
  | (s, None) => let '(s, o, _) := createObject a s in (s, o)
  end.

Definition CreateAccount (a : bytes) s : StateDB K :=
  let '(s, newObj, prev) := createObject a s in
  match prev with
  | Some p => setStateObject (setBalance (so_Balance p) newObj) s
  | None => s
  end.

Definition obj_SetBalance (amount : Z) (o : stateObject) s : StateDB K :=
  setStateObject (setBalance amount o) (append (balanceChange (so_address o) (so_Balance o)) s).

Definition AddBalance (a : bytes) (amount : Z) s : StateDB K :=
  let '(s, o) := getOrNewStateObject a s in
  if amount =? 0 then s else obj_SetBalance (so_Balance o + amount) o s.

Definition SubBalance (a : bytes) (amount : Z) s : StateDB K :=
  let '(s, o) := getOrNewStateObject a s in
  if amount =? 0 then s else obj_SetBalance (so_Balance o - amount) o s.

Definition SetNonce (a : bytes) (nonce : Z) s : StateDB K :=
  let '(s, o) := getOrNewStateObject a s in
  setStateObject (setNonce nonce o) (append (nonceChange (so_address o) (so_Nonce o)) s).

Definition SetCode (a : bytes) (code : option bytes) s : StateDB K :=
  let '(s, o) := getOrNewStateObject a s in
  let '(o, prevcode) := obj_Code (keeper s) o in
  setStateObject (setCode (Keccak256Hash code) code o)
    (append (codeChange (so_address o) prevcode (so_CodeHash o)) s).

Definition SetState (a key value : bytes) s : StateDB K :=
  let '(s, o) := getOrNewStateObject a s in
  let '(o, prev) := obj_GetState (keeper s) o key in
  let s := setStateObject o s in
  if bool_decide (prev = value) then s
  else setStateObject (setState key value o) (append (storageChange (so_address o) key prev) s).

Definition Suicide (a : bytes) s : StateDB K * bool :=
  match getStateObject a s with
  | (s, None) => (s, false)
  | (s, Some o) =>
    (setStateObject (setBalance 0 (set_suicided true o))
       (append (suicideChange a (suicided o) (so_Balance o)) s), true)
  end.

Definition AddLog (content : list bytes) s : StateDB K :=
  let s := append addLogChange s in
  let cfg := txConfig s in
  with_logs (logs s ++ [mkLog content (TxHash cfg) (BlockHash cfg) (TxIndex cfg)
    (u64 (LogIndex cfg + Z.of_nat (length (logs s))))]) s.

Definition AddRefund (gas : Z) s : StateDB K :=
  let s := append (refundChange (refund s)) s in with_refund (u64 (refund s + gas)) s.

(** The error type of [M] is that of the keeper, used by [Commit]. *)
Definition SubRefund (gas : Z) : M (StateDB K) Z unit :=
  fun s =>
    let s := append (refundChange (refund s)) s in
    if refund s <? gas then (s, Panic) else (with_refund (refund s - gas) s, Ok tt).

Definition AddAddressToAccessList (a : bytes) s : StateDB K :=
  let '(al, changed) := AddAddress (access s) a in
  let s := with_access al s in
  if changed then append (accessListAddAccountChange a) s else s.

Definition AddSlotToAccessList (a slot : bytes) : M (StateDB K) Z unit :=
  fun s =>
    match AddSlot (access s) a slot with
    | None => (s, Panic)
    | Some (al, addrMod, slotMod) =>
      let s := with_access al s in
      let s := if addrMod : bool then append (accessListAddAccountChange a) s else s in
      let s := if slotMod : bool then append (accessListAddSlotChange a slot) s else s in
      (s, Ok tt)
    end.

(** The access list of a transaction: addresses with their storage keys. *)
Definition PrepareAccessList (sender : bytes) (dst : option bytes) (precompiles : list bytes)
    (list : list (bytes * list bytes)) : M (StateDB K) Z unit :=
  let fix add_slots (a : bytes) (keys : Datatypes.list bytes) : M (StateDB K) Z unit :=
    match keys with
    | [] => ret tt
    | k :: keys => AddSlotToAccessList a k ;; add_slots a keys
    end in
  let fix add_all (l : Datatypes.list (bytes * Datatypes.list bytes)) : M (StateDB K) Z unit :=
    match l with
    | [] => ret tt
    | (a, keys) :: l => modify (AddAddressToAccessList a) ;; add_slots a keys ;; add_all l
    end in
  modify (AddAddressToAccessList sender) ;;
  match dst with Some d => modify (AddAddressToAccessList d) | None => ret tt end ;;
  modify (fun s => foldl (fun s a => AddAddressToAccessList a s) s precompiles) ;;
  add_all list.

(** * Snapshots *)

Definition Snapshot s : StateDB K * Z :=
  let id := nextRevisionID s in
  (with_revisions (validRevisions s ++ [(id, Z.of_nat (length (entries s)))]) (id + 1) s, id).

(** [sort.Search]: the loop of the standard library. *)
Fixpoint search_loop (fuel : nat) (f : nat -> bool) (i j : nat) : nat :=
  match fuel with
  | O => i
  | S fuel =>
    if Nat.ltb i j then
      let h := ((i + j) / 2)%nat in
      if f h then search_loop fuel f i h else search_loop fuel f (h + 1)%nat j
    else i
  end.

(** Each iteration at least halves the range or shortens it by one. *)
Definition sort_Search (n : nat) (f : nat -> bool) : nat := search_loop (S n) f 0 n.

Definition RevertToSnapshot (revid : Z) : M (StateDB K) Z unit :=
  fun s =>
    let revs := validRevisions s in
    let idx := sort_Search (length revs) (fun i =>
      match revs !! i with Some r => revid <=? r.1 | None => false end) in
    match revs !! idx with
    | Some (id, snapshot) =>
      if negb (id =? revid) then (s, Panic)
      else match journal_Revert (Z.to_nat snapshot) s with
           | None => (s, Panic)
           | Some s' => (with_revisions (take idx revs) (nextRevisionID s') s', Ok tt)
           end
    | None => (s, Panic)
    end.

(** * Commit *)

Definition sorted_keys {A} (m : gmap bytes A) : list bytes :=
  merge_sort bytes_le (map fst (map_to_list m)).

(** One dirty storage slot of an object. *)
Definition commit_slot (k : K) (o : stateObject) (key : bytes) : K * stateObject :=
  match dirtyStorage o !! key with
  | None => (k, o)
  | Some dirtyValue =>
    let originValue := default zero_hash (originStorage o !! key) in
    let skip :=
      match transientStorage o !! key with
      | Some t => bool_decide (t = dirtyValue)
      | None => bool_decide (dirtyValue = originValue)
      end in
    if skip then (k, o)
    else (SetState_keeper k (so_address o) key dirtyValue, cache_transient key dirtyValue o)
  end.

(** One dirty object; the keeper's error is returned. *)
Definition commit_object (k : K) (o : stateObject) : K * stateObject * option Z :=
  if suicided o then let '(k, e) := DeleteAccount k (so_address o) in (k, o, e)
  else
    let k := if bool_decide (is_Some (so_code o)) && dirtyCode o
             then SetCode_keeper k (so_CodeHash o) (so_code o) else k in
    match SetAccount k (so_address o) (mkAccount (so_Nonce o) (Some (so_Balance o)) (Some (so_CodeHash o))) with
    | (k, Some e) => (k, o, Some e)
    | (k, None) =>
      let '(k, o) := foldl (fun '(k, o) key => commit_slot k o key) (k, o) (sorted_keys (dirtyStorage o)) in
      (k, o, None)
    end.

Fixpoint commit_all (addrs : list bytes) : M (StateDB K) Z unit :=
  match addrs with
  | [] => ret tt
  | a :: addrs => fun s =>
    match stateObjects s !! a with
    | None => (s, Panic)
    | Some o =>
      let '(k, o, e) := commit_object (keeper s) o in
      let s := setStateObject o (with_keeper k s) in
      match e with
      | Some e => (s, Err e)
      | None => commit_all addrs s
      end
    end
  end.

Definition Commit : M (StateDB K) Z unit := fun s => commit_all (sorted_keys (dirties s)) s.

End DB.
