(* ===== verification/StateDBProps.v ===== *)
(** [x/evm/statedb]: reverting to a snapshot restores the state.

    States are compared by what can be read from them ([db_eq]): reads fill caches,
    and a revert leaves traces that no read can see (a loaded object, a storage
    slot written back with its old value, code marked dirty). *)

From stdpp Require Import base list gmap strings sorting relations.
From Stdlib Require Import ZArith Lia.
From S2P Require Import Prelude KVStore StateDB.
Open Scope Z_scope.
Open Scope go_scope.

(** * What can be read *)

Section Views.
Context {K : Type} {KP : Keeper K} {EH : EthHash}.
Implicit Types s t : StateDB K.

(** What [Code], [GetCommittedState] and [GetState] of an object return. *)
Definition code_view (k : K) (o : stateObject) : option bytes :=
  match so_code o with
  | Some c => Some c
  | None => if bool_decide (so_CodeHash o = emptyCodeHash) then None
            else GetCode_keeper k (BytesToHash (so_CodeHash o))
  end.

Definition committed_view (k : K) (o : stateObject) (key : bytes) : bytes :=
  default (GetState_keeper k (so_address o) key) (originStorage o !! key).

Definition state_view (k : K) (o : stateObject) (key : bytes) : bytes :=
  default (committed_view k o key) (dirtyStorage o !! key).

Record obj_eq (k : K) (o p : stateObject) : Prop := mkObjEq {
  eq_address : so_address o = so_address p;
  eq_nonce : so_Nonce o = so_Nonce p;
  eq_balance : so_Balance o = so_Balance p;
  eq_hash : so_CodeHash o = so_CodeHash p;
  eq_suicided : suicided o = suicided p;
  eq_code : code_view k o = code_view k p;
  eq_committed : forall key, committed_view k o key = committed_view k p key;
  eq_state : forall key, state_view k o key = state_view k p key
}.

(** The object of an address: cached, or as the keeper has it. *)
Definition object_at (s : StateDB K) (a : bytes) : option stateObject :=
  match stateObjects s !! a with
  | Some o => Some o
  | None => newObject a <$> GetAccount (keeper s) a
  end.

Record db_eq (s t : StateDB K) : Prop := mkDbEq {
  eq_keeper : keeper s = keeper t;
  eq_config : txConfig s = txConfig t;
  eq_refund : refund s = refund t;
  eq_logs : logs s = logs t;
  eq_access : access s = access t;
  eq_objects : forall a, option_Forall2 (obj_eq (keeper t)) (object_at s a) (object_at t a)
}.

(** Every read gives the same answer. *)
Definition same_reads (s t : StateDB K) : Prop :=
  (forall a, (Exist a s).2 = (Exist a t).2) /\ (forall a, (Empty a s).2 = (Empty a t).2) /\
  (forall a, (GetBalance a s).2 = (GetBalance a t).2) /\
  (forall a, (GetNonce a s).2 = (GetNonce a t).2) /\
  (forall a, (GetCode a s).2 = (GetCode a t).2) /\
  (forall a, (GetCodeHash a s).2 = (GetCodeHash a t).2) /\
  (forall a, (HasSuicided a s).2 = (HasSuicided a t).2) /\
  (forall a key, (GetState a key s).2 = (GetState a key t).2) /\
  (forall a key, (GetCommittedState a key s).2 = (GetCommittedState a key t).2) /\
  refund s = refund t /\ logs s = logs t /\ access s = access t.

(** * Well-formed states *)

Definition entry_ok (e : JournalEntry) : Prop :=
  match e with
  | resetObjectChange p => length (so_CodeHash p) = 32%nat
  | codeChange _ _ h => length h = 32%nat
  | _ => True
  end.

(** The number of entries that dirty [a]. *)
Definition dirt (a : bytes) (es : list JournalEntry) : Z :=
  Z.of_nat (length (filter (fun e => Dirtied e = Some a) es)).

Definition dirties_match (d : gmap bytes Z) (es : list JournalEntry) : Prop :=
  forall a, d !! a = if dirt a es =? 0 then None else Some (dirt a es).

(** Objects sit under their address with a code hash of 32 bytes, the keeper's
    accounts too, and slot sets are not empty. *)
Record core_ok (s : StateDB K) : Prop := mkCore {
  core_objects : forall a o, object_at s a = Some o -> so_address o = a /\ length (so_CodeHash o) = 32%nat;
  core_keeper : forall a acc, GetAccount (keeper s) a = Some acc ->
    length (default emptyCodeHash (CodeHash acc)) = 32%nat;
  core_slots : Forall (fun m : gset bytes => m <> ∅) (slots (access s))
}.

(** Also the dirty counts are those of the journal, and the revisions are
    ordered. *)
Record wf (s : StateDB K) : Prop := mkWf {
  wf_core : core_ok s;
  wf_entries : Forall entry_ok (entries s);
  wf_dirties : dirties_match (dirties s) (entries s);
  wf_revisions : StronglySorted Z.lt (validRevisions s).*1;
  wf_next : Forall (fun id => id < nextRevisionID s) (validRevisions s).*1
}.

(** [s'] extends the journal of [s] by entries whose undoing leads back to [s]. *)
Definition undoable (s s' : StateDB K) : Prop :=
  keeper s' = keeper s /\ validRevisions s' = validRevisions s /\
  nextRevisionID s' = nextRevisionID s /\
  exists es t, entries s' = entries s ++ es /\ revert_entries (reverse es) s' = Some t /\ db_eq t s.

Definition fine (s s' : StateDB K) : Prop := wf s -> wf s' /\ undoable s s'.

(** * The operations of a call frame *)

Inductive op :=
| OCreateAccount (a : bytes)
| OAddBalance (a : bytes) (n : Z)
| OSubBalance (a : bytes) (n : Z)
| OSetNonce (a : bytes) (n : Z)
| OSetCode (a : bytes) (c : option bytes)
| OSetState (a key value : bytes)
| OSuicide (a : bytes)
| OAddLog (content : list bytes)
| OAddRefund (gas : Z)
| OSubRefund (gas : Z)
| OAddAddress (a : bytes)
| OAddSlot (a slot : bytes)
| OGetCode (a : bytes)
| OGetState (a key : bytes)
| OGetCommittedState (a key : bytes)
| OLoad (a : bytes).

(** [OLoad] is any read that needs the object only. *)
Definition exec (o : op) : M (StateDB K) Z unit :=
  match o with
  | OCreateAccount a => modify (CreateAccount a)
  | OAddBalance a n => modify (AddBalance a n)
  | OSubBalance a n => modify (SubBalance a n)
  | OSetNonce a n => modify (SetNonce a n)
  | OSetCode a c => modify (SetCode a c)
  | OSetState a key value => modify (SetState a key value)
  | OSuicide a => modify (fun s => (Suicide a s).1)
  | OAddLog c => modify (AddLog c)
  | OAddRefund g => modify (AddRefund g)
  | OSubRefund g => SubRefund g
  | OAddAddress a => modify (AddAddressToAccessList a)
  | OAddSlot a slot => AddSlotToAccessList a slot
  | OGetCode a => modify (fun s => (GetCode a s).1)
  | OGetState a key => modify (fun s => (GetState a key s).1)
  | OGetCommittedState a key => modify (fun s => (GetCommittedState a key s).1)
  | OLoad a => modify (fun s => (Exist a s).1)
  end.

(** What happens inside a frame whose snapshot is [id]: operations, and inner
    frames that take snapshots and may revert to them. *)
Inductive frame_step (id : Z) : StateDB K -> StateDB K -> Prop :=
| frame_op o s s' : exec o s = (s', Ok tt) -> frame_step id s s'
| frame_snapshot s : frame_step id s (Snapshot s).1
| frame_revert id' s s' : id < id' -> RevertToSnapshot id' s = (s', Ok tt) -> frame_step id s s'.

End Views.

(** * The equivalence *)

Section Equivalence.
Context {K : Type} {KP : Keeper K} {EH : EthHash}.
Implicit Types s t : StateDB K.

#[export] Instance obj_eq_equiv (k : K) : Equivalence (obj_eq k).
Proof.
  split.
  - intros o. by split.
  - intros o p []. by split.
  - intros o p q [] []. split; etransitivity; eauto.
Qed.

#[export] Instance db_eq_equiv : Equivalence (@db_eq K KP EH).
Proof.
  split.
  - intros s. by split.
  - intros s t [Hk ? ? ? ? Ho]. split; try done. intros a. specialize (Ho a). rewrite Hk.
    inversion Ho; constructor. by symmetry.
  - intros s t u [Hk ? ? ? ? Ho] [Hk' ? ? ? ? Ho']. split; [congruence..|].
    intros a. specialize (Ho a). specialize (Ho' a). rewrite Hk' in Ho.
    inversion Ho as [x y Hxy|]; inversion Ho' as [y' z Hyz|]; try congruence; constructor.
    transitivity y; [done|]. replace y with y' by congruence. done.
Qed.

Lemma object_at_set o s a :
  object_at (setStateObject o s) a = if decide (so_address o = a) then Some o else object_at s a.
Proof.
  unfold object_at, setStateObject. cbn [stateObjects keeper with_objects].
  case_decide as H; [subst a; by rewrite lookup_insert_eq|by rewrite lookup_insert_ne].
Qed.

Lemma get_object a s :
  (getStateObject a s).2 = object_at s a /\ db_eq (getStateObject a s).1 s /\
  exists m, (getStateObject a s).1 = with_objects m s.
Proof.
  unfold getStateObject, object_at. destruct (stateObjects s !! a) as [o|] eqn:Ho.
  { split_and!; [done|reflexivity|]. exists (stateObjects s). by destruct s. }
  destruct (GetAccount (keeper s) a) as [acc|] eqn:Ha; cbn [fst snd fmap option_fmap option_map].
  - split_and!; [done| |by eexists]. split; try done. intros b. rewrite object_at_set.
    cbn [newObject so_address]. unfold object_at. case_decide as H; [subst b|].
    + rewrite Ho, Ha. constructor. reflexivity.
    + destruct (match stateObjects s !! b with Some _ => _ | None => _ end); constructor. reflexivity.
  - split_and!; [done|reflexivity|]. exists (stateObjects s). by destruct s.
Qed.

(** Replacing an object by an equivalent one, or by one from an equivalent state. *)
Lemma set_object_eq o p s t :
  db_eq s t -> obj_eq (keeper t) o p -> db_eq (setStateObject o s) (setStateObject p t).
Proof.
  intros [Hk ? ? ? ? Ho] Hop. split; try done. intros a. rewrite !object_at_set.
  cbn [setStateObject keeper with_objects]. rewrite (eq_address _ _ _ Hop).
  case_decide; [by constructor|apply Ho].
Qed.

Lemma set_object_same o s a :
  object_at s a = Some o -> so_address o = a -> db_eq (setStateObject o s) s.
Proof.
  intros Ho Ha. split; try done. intros b. rewrite object_at_set. case_decide as H.
  - subst. rewrite Ho. constructor. reflexivity.
  - destruct (object_at s b); constructor. reflexivity.
Qed.

(** Caching does not change what can be read. *)
Lemma obj_Code_spec k o : (obj_Code k o).2 = code_view k o /\ obj_eq k (obj_Code k o).1 o.
Proof.
  unfold obj_Code, code_view. destruct (so_code o) as [c|] eqn:Hc; [by split|].
  case_bool_decide as Hh; [by split|]. cbn [fst snd]. split; [done|].
  split; try done. unfold code_view. cbn [cache_code so_code so_CodeHash].
  rewrite Hc, bool_decide_eq_false_2 by done.
  by destruct (GetCode_keeper k (BytesToHash (so_CodeHash o))).
Qed.

Lemma cache_origin_view k o key key' :
  originStorage o !! key = None ->
  committed_view k (cache_origin key (GetState_keeper k (so_address o) key) o) key' = committed_view k o key'.
Proof.
  intros Hv. unfold committed_view. cbn [cache_origin originStorage so_address].
  destruct (decide (key = key')) as [<-|]; [by rewrite lookup_insert_eq, Hv|by rewrite lookup_insert_ne].
Qed.

Lemma obj_Committed_spec k o key :
  (obj_GetCommittedState k o key).2 = committed_view k o key /\ obj_eq k (obj_GetCommittedState k o key).1 o.
Proof.
  unfold obj_GetCommittedState, committed_view at 1.
  destruct (originStorage o !! key) as [v|] eqn:Hv; [by split|]. cbn [fst snd]. split; [done|].
  split; try done; intros key'; [by apply cache_origin_view|].
  unfold state_view. by rewrite cache_origin_view.
Qed.

Lemma obj_State_spec k o key :
  (obj_GetState k o key).2 = state_view k o key /\ obj_eq k (obj_GetState k o key).1 o.
Proof.
  unfold obj_GetState, state_view. destruct (dirtyStorage o !! key); [by split|apply obj_Committed_spec].
Qed.

End Equivalence.

(** * Undoing respects the equivalence *)

Section Undo.
Context {K : Type} {KP : Keeper K} {EH : EthHash}.
Implicit Types s t : StateDB K.

Lemma setBalance_eq k n o p : obj_eq k o p -> obj_eq k (setBalance n o) (setBalance n p).
Proof. intros []. by split. Qed.

Lemma setNonce_eq k n o p : obj_eq k o p -> obj_eq k (setNonce n o) (setNonce n p).
Proof. intros []. by split. Qed.

Lemma set_suicided_eq k b o p : obj_eq k o p -> obj_eq k (set_suicided b o) (set_suicided b p).
Proof. intros []. by split. Qed.

Lemma setState_view k key v o x :
  state_view k (setState key v o) x = if decide (key = x) then v else state_view k o x.
Proof.
  unfold state_view. cbn [setState dirtyStorage].
  case_decide as H; [subst x; by rewrite lookup_insert_eq|by rewrite lookup_insert_ne].
Qed.

Lemma setState_eq k key v o p : obj_eq k o p -> obj_eq k (setState key v o) (setState key v p).
Proof. intros []. split; try done. intros x. rewrite !setState_view. by case_decide. Qed.

Lemma setCode_eq k h c o p : obj_eq k o p -> obj_eq k (setCode h c o) (setCode h c p).
Proof. intros []. by split. Qed.

Lemma with_journal_eq es d s : db_eq (with_journal es d s) s.
Proof. by split. Qed.

Lemma with_revisions_eq r n s : db_eq (with_revisions r n s) s.
Proof. by split. Qed.

Lemma get_cong a s t :
  db_eq s t ->
  option_Forall2 (obj_eq (keeper t)) (getStateObject a s).2 (getStateObject a t).2 /\
  db_eq (getStateObject a s).1 (getStateObject a t).1.
Proof.
  intros H. destruct (get_object a s) as (-> & Hs & _), (get_object a t) as (-> & Ht & _).
  split; [apply H|]. rewrite Hs, Ht. done.
Qed.

Lemma get_keeper a s : keeper (getStateObject a s).1 = keeper s.
Proof. destruct (get_object a s) as (_ & _ & m & ->). done. Qed.

Lemma revert_object_cong a f s t :
  (forall k o p, obj_eq k o p -> obj_eq k (f o) (f p)) ->
  db_eq s t -> option_Forall2 db_eq (revert_object a f s) (revert_object a f t).
Proof.
  intros Hf H. destruct (get_cong a s t H) as [Ho Hst]. unfold revert_object.
  pose proof (get_keeper a t) as Hk.
  destruct (getStateObject a s) as [s1 o], (getStateObject a t) as [t1 p]. cbn [fst snd] in *.
  inversion Ho; subst; constructor. apply set_object_eq; [done|]. rewrite Hk. by apply Hf.
Qed.

Lemma with_objects_eq_delete a s t :
  db_eq s t -> db_eq (with_objects (delete a (stateObjects s)) s) (with_objects (delete a (stateObjects t)) t).
Proof.
  intros [Hk ? ? ? ? Ho]. split; try done. intros b. unfold object_at. cbn [stateObjects keeper with_objects].
  destruct (decide (a = b)) as [<-|Hne].
  - rewrite !lookup_delete_eq, Hk. destruct (GetAccount (keeper t) a); constructor. reflexivity.
  - rewrite !lookup_delete_ne by done. apply Ho.
Qed.

Lemma revert_entry_cong e s t :
  db_eq s t -> option_Forall2 db_eq (revert_entry e s) (revert_entry e t).
Proof.
  intros H. destruct e; cbn [revert_entry];
    try (by constructor; by apply with_objects_eq_delete);
    try (by apply revert_object_cong; [intros; eauto using setBalance_eq, setNonce_eq, setState_eq, setCode_eq|]).
  - constructor. apply set_object_eq; [done|reflexivity].
  - destruct (get_cong account s t H) as [Ho Hst]. pose proof (get_keeper account t) as Hk.
    destruct (getStateObject account s) as [s1 o], (getStateObject account t) as [t1 p]. cbn [fst snd] in *.
    inversion Ho; subst; constructor; [|done]. apply set_object_eq; [done|]. rewrite Hk.
    by apply setBalance_eq, set_suicided_eq.
  - constructor. destruct H. by split.
  - rewrite (eq_logs _ _ H). destruct (logs t); constructor. destruct H. by split.
  - constructor. pose proof (eq_access _ _ H) as E. destruct H. split; try done. cbn. by rewrite E.
  - rewrite (eq_access _ _ H). destruct (DeleteSlot (access t) address slot); cbn; constructor.
    destruct H. by split.
Qed.

Lemma revert_entries_cong es : forall s t,
  db_eq s t -> option_Forall2 db_eq (revert_entries es s) (revert_entries es t).
Proof.
  induction es as [|e es IH]; intros s t H; cbn [revert_entries]; [by constructor|].
  pose proof (revert_entry_cong e s t H) as He. inversion He as [s1 t1 H1 Hs Ht|]; cbn [mbind option_bind]; [|constructor].
  apply IH. rewrite !with_journal_eq. done.
Qed.

Lemma revert_entries_app es es' s :
  revert_entries (es ++ es') s = revert_entries es s ≫= revert_entries es'.
Proof.
  revert s. induction es as [|e es IH]; intros s; cbn; [done|].
  destruct (revert_entry e s); cbn; [apply IH|done].
Qed.

(** What undoing leaves alone. *)
Lemma revert_entry_frame e s s' :
  revert_entry e s = Some s' ->
  entries s' = entries s /\ dirties s' = dirties s /\ validRevisions s' = validRevisions s /\
  nextRevisionID s' = nextRevisionID s /\ keeper s' = keeper s.
Proof.
  assert (forall a f, revert_object a f s = Some s' -> exists m, s' = with_objects m s) as Hobj.
  { intros a f H. unfold revert_object in H. destruct (get_object a s) as (_ & _ & m & Hm).
    destruct (getStateObject a s) as [s1 [o|]]; [|done]. injection H as <-. cbn in Hm. subst s1. by eexists. }
  destruct e; cbn [revert_entry]; intros H;
    try (by apply Hobj in H as [m ->]); try (by injection H as <-).
  - destruct (get_object account s) as (_ & _ & m & Hm).
    destruct (getStateObject account s) as [s1 [o|]]; injection H as <-; cbn in Hm; by subst s1.
  - destruct (logs s); [done|]. by injection H as <-.
  - destruct (DeleteSlot _ _ _); [|done]. by injection H as <-.
Qed.

Lemma revert_entries_frame es : forall s s',
  revert_entries es s = Some s' ->
  entries s' = entries s /\ validRevisions s' = validRevisions s /\
  nextRevisionID s' = nextRevisionID s /\ keeper s' = keeper s.
Proof.
  induction es as [|e es IH]; intros s s' H; [by injection H as <-|]. cbn in H.
  destruct (revert_entry e s) as [s1|] eqn:E; [|done]. cbn in H. apply IH in H as (-> & -> & -> & ->).
  by apply revert_entry_frame in E as (? & _ & ? & ? & ?).
Qed.

(** * Undoing keeps states well-formed *)

Lemma dirt_app a es es' : dirt a (es ++ es') = dirt a es + dirt a es'.
Proof. unfold dirt. rewrite filter_app, length_app. lia. Qed.

Lemma dirt_single a e : dirt a [e] = if decide (Dirtied e = Some a) then 1 else 0.
Proof. unfold dirt. rewrite filter_cons. by case_decide. Qed.

Lemma dirt_nonneg a es : 0 <= dirt a es.
Proof. unfold dirt. lia. Qed.

Lemma dirties_append d es e :
  dirties_match d es ->
  dirties_match (match Dirtied e with Some a => <[a := default 0 (d !! a) + 1]> d | None => d end) (es ++ [e]).
Proof.
  intros H b. rewrite dirt_app, dirt_single. pose proof (dirt_nonneg b es).
  destruct (Dirtied e) as [a|] eqn:Ha.
  - destruct (decide (a = b)) as [<-|Hne].
    + rewrite lookup_insert_eq, decide_True by done. rewrite H.
      destruct (Z.eqb_spec (dirt a es) 0), (Z.eqb_spec (dirt a es + 1) 0); cbn; (lia || f_equal; lia).
    + rewrite lookup_insert_ne, decide_False by congruence. by rewrite Z.add_0_r.
  - rewrite decide_False by done. by rewrite Z.add_0_r.
Qed.

Lemma dirties_undirty d es e : dirties_match d (es ++ [e]) -> dirties_match (undirty e d) es.
Proof.
  intros H b. pose proof (H b) as Hb. unfold undirty. rewrite dirt_app, dirt_single in Hb.
  pose proof (dirt_nonneg b es). destruct (Dirtied e) as [a|] eqn:Ha.
  - destruct (decide (a = b)) as [<-|Hne].
    + rewrite decide_True in Hb by done. destruct (Z.eqb_spec (dirt a es + 1) 0); [lia|].
      rewrite Hb. cbn. replace (dirt a es + 1 - 1) with (dirt a es) by lia.
      destruct (Z.eqb_spec (dirt a es) 0); [by rewrite lookup_delete_eq|by rewrite lookup_insert_eq].
    + rewrite decide_False in Hb by congruence. rewrite Z.add_0_r in Hb.
      cbv zeta. destruct (default 0 (d !! a) - 1 =? 0);
        [by rewrite lookup_delete_ne|by rewrite lookup_insert_ne].
  - rewrite decide_False, Z.add_0_r in Hb by done. done.
Qed.

Lemma core_eq s t : db_eq s t -> core_ok t -> core_ok s.
Proof.
  intros H [Ho Hk Hs]. split.
  - intros a o Ha. pose proof (eq_objects _ _ H a) as He. rewrite Ha in He. inversion He as [x y Hxy Hx Hy|].
    subst. destruct (Ho a y) as [E1 E2]; [by symmetry|].
    rewrite (eq_address _ _ _ Hxy), (eq_hash _ _ _ Hxy). done.
  - rewrite (eq_keeper _ _ H). done.
  - rewrite (eq_access _ _ H). done.
Qed.

Lemma core_set o s : core_ok s -> length (so_CodeHash o) = 32%nat -> core_ok (setStateObject o s).
Proof.
  intros [Ho Hk Hs] Hl. split; [|done|done]. intros a p. rewrite object_at_set.
  case_decide as H; [intros [= <-]; done|apply Ho].
Qed.

Lemma core_get a s : core_ok s -> core_ok (getStateObject a s).1.
Proof. intros H. eapply core_eq; [|exact H]. by destruct (get_object a s) as (_ & ? & _). Qed.

Lemma core_revert_object a f s s' :
  (forall o, length (so_CodeHash o) = 32%nat -> length (so_CodeHash (f o)) = 32%nat) ->
  core_ok s -> revert_object a f s = Some s' -> core_ok s'.
Proof.
  intros Hf Hc H. unfold revert_object in H. pose proof (core_get a s Hc) as Hc1.
  destruct (get_object a s) as (Ho & _). destruct (getStateObject a s) as [s1 [o|]]; [|done].
  cbn in *. injection H as <-. apply core_set; [done|]. apply Hf. by eapply (core_objects s Hc).
Qed.

Lemma DeleteSlot_ok al a slot al' :
  DeleteSlot al a slot = Some al' -> Forall (fun m : gset bytes => m <> ∅) (slots al) ->
  Forall (fun m : gset bytes => m <> ∅) (slots al').
Proof.
  unfold DeleteSlot. destruct (addresses al !! a) as [idx|]; [|done]. destruct (idx <? 0); [done|].
  destruct (slots al !! Z.to_nat idx) as [m|]; [|done]. case_bool_decide as Hm; intros [= <-] H; cbn [slots].
  - by apply Forall_take.
  - by apply Forall_insert.
Qed.

Lemma revert_entry_core e s s' : entry_ok e -> core_ok s -> revert_entry e s = Some s' -> core_ok s'.
Proof.
  intros He Hc H. destruct e; cbn [revert_entry entry_ok] in *;
    try (by eapply core_revert_object; [..|exact H]).
  - injection H as <-. destruct Hc as [Ho Hk Hs]. split; [|done|done]. intros a o.
    unfold object_at. cbn [stateObjects keeper with_objects].
    destruct (decide (account = a)) as [<-|Hne]; [|rewrite lookup_delete_ne by done; apply Ho].
    rewrite lookup_delete_eq. destruct (GetAccount (keeper s) account) as [acc|] eqn:E; [|done].
    intros [= <-]. split; [done|]. by apply (Hk account).
  - injection H as <-. by apply core_set.
  - pose proof (core_get account s Hc) as Hc1. destruct (get_object account s) as (Ho & _).
    destruct (getStateObject account s) as [s1 [o|]]; cbn in *; injection H as <-; [|done].
    apply core_set; [done|]. cbn [setBalance set_suicided so_CodeHash].
    by destruct (core_objects s Hc account o) as [_ ?].
  - eapply core_revert_object; [|exact Hc|exact H]. intros o _. cbn. by rewrite BytesToHash_32.
  - injection H as <-. by destruct Hc.
  - destruct (logs s); [done|]. injection H as <-. by destruct Hc.
  - injection H as <-. by destruct Hc.
  - destruct (DeleteSlot _ _ _) as [al|] eqn:E; [|done]. injection H as <-. destruct Hc as [Ho Hk Hs].
    split; [done|done|]. by eapply DeleteSlot_ok.
Qed.

Lemma revert_entries_core es : forall s s' pre,
  Forall entry_ok es -> core_ok s -> dirties_match (dirties s) (pre ++ reverse es) ->
  revert_entries es s = Some s' -> core_ok s' /\ dirties_match (dirties s') pre.
Proof.
  induction es as [|e es IH]; intros s s' pre He Hc Hd H.
  { injection H as <-. split; [done|]. by rewrite app_nil_r in Hd. }
  apply Forall_cons in He as [He Hes]. cbn in H. destruct (revert_entry e s) as [s1|] eqn:E; [|done].
  cbn in H. eapply IH; [done| | |exact H].
  - apply (core_eq _ s1); [apply with_journal_eq|]. by eapply revert_entry_core.
  - cbn [with_journal dirties]. destruct (revert_entry_frame _ _ _ E) as (_ & -> & _).
    apply dirties_undirty. by rewrite reverse_cons, app_assoc in Hd.
Qed.

(** * Building blocks *)

Lemma fine_eq s m : db_eq (with_objects m s) s -> fine s (with_objects m s).
Proof.
  intros H [Hc ? ? ? ?]. split.
  - split; try done. by eapply core_eq.
  - split_and!; try done. exists [], (with_objects m s). rewrite app_nil_r. by split_and!.
Qed.

Lemma fine_refl s : fine s s.
Proof.
  intros H. split; [done|]. split_and!; try done. exists [], s. rewrite app_nil_r. by split_and!.
Qed.

Lemma fine_trans s1 s2 s3 : fine s1 s2 -> fine s2 s3 -> fine s1 s3.
Proof.
  intros H12 H23 H1. destruct (H12 H1) as [H2 (Hk & Hr & Hn & es & t & He & Ht & Heq)].
  destruct (H23 H2) as [H3 (Hk' & Hr' & Hn' & es' & t' & He' & Ht' & Heq')]. split; [done|].
  split_and!; [congruence..|].
  pose proof (revert_entries_cong (reverse es) t' s2 Heq') as Hc. rewrite Ht in Hc. inversion Hc as [u v Huv Hu Hv|]. subst v.
  exists (es ++ es'), u. split_and!.
  - by rewrite He', He, app_assoc.
  - rewrite reverse_app, revert_entries_app, Ht'. done.
  - by transitivity t.
Qed.

Lemma fine_get a s : fine s (getStateObject a s).1.
Proof.
  destruct (get_object a s) as (_ & H & m & Hm). rewrite Hm in *. by apply fine_eq.
Qed.

(** One entry. *)
Lemma fine_entry e s s' t :
  keeper s' = keeper s -> validRevisions s' = validRevisions s -> nextRevisionID s' = nextRevisionID s ->
  entries s' = entries s ++ [e] ->
  dirties s' = match Dirtied e with Some a => <[a := default 0 (dirties s !! a) + 1]> (dirties s) | None => dirties s end ->
  (core_ok s -> entry_ok e /\ core_ok s') -> revert_entry e s' = Some t -> db_eq t s -> fine s s'.
Proof.
  intros Hk Hr Hn He Hd Hc Ht Heq [Hcore Hent Hdirt Hrev Hnext]. destruct (Hc Hcore) as [Hok Hcore']. split.
  - split; [done| | |by rewrite Hr|by rewrite Hr, Hn].
    + rewrite He. apply Forall_app. by split; [|constructor].
    + rewrite He, Hd. by apply dirties_append.
  - split_and!; try done. exists [e], (with_journal (entries t) (undirty e (dirties t)) t). split_and!; [done| |].
    + cbn. by rewrite Ht.
    + rewrite with_journal_eq. done.
Qed.

(** A change of one object. *)
Lemma fine_object e g o o2 s :
  object_at s (so_address o) = Some o -> so_address o2 = so_address o ->
  (length (so_CodeHash o) = 32%nat -> entry_ok e /\ length (so_CodeHash o2) = 32%nat /\ obj_eq (keeper s) (g o2) o) ->
  (forall s, revert_entry e s = revert_object (so_address o) g s) ->
  wf s -> wf (setStateObject o2 (append e s)) /\ undoable s (setStateObject o2 (append e s)).
Proof.
  intros Ho Ha Hg Hrev Hwf. destruct (core_objects _ (wf_core _ Hwf) _ _ Ho) as [_ Hlen].
  destruct (Hg Hlen) as (Hok & Hlen2 & Hback).
  apply (fine_entry e s _ (setStateObject (g o2) (setStateObject o2 (append e s)))); try done.
  - intros Hc. split; [done|]. apply core_set; [|done]. by eapply core_eq; [apply with_journal_eq|].
  - rewrite Hrev. unfold revert_object, getStateObject. cbn [setStateObject stateObjects with_objects].
    rewrite Ha, lookup_insert_eq. done.
  - split; try done. intros b. rewrite !object_at_set, Ha, (eq_address _ _ _ Hback).
    case_decide as H; [subst b; rewrite Ho; by constructor|].
    change (object_at (append e s) b) with (object_at s b).
    destruct (object_at s b); constructor. reflexivity.
Qed.

End Undo.

(** * Every operation can be undone *)

Section Operations.
Context {K : Type} {KP : Keeper K} {EH : EthHash}.
Implicit Types s t : StateDB K.

Lemma get_object_at a s : object_at (getStateObject a s).1 a = object_at s a.
Proof.
  unfold getStateObject, object_at. destruct (stateObjects s !! a) as [x|] eqn:Hx;
    [cbn [fst]; by rewrite Hx|].
  destruct (GetAccount (keeper s) a) as [acc|] eqn:Ha; cbn [fst].
  - cbn [setStateObject stateObjects with_objects newObject so_address]. by rewrite lookup_insert_eq.
  - by rewrite Hx, Ha.
Qed.

(** [createObject], with any new object in place. *)
Lemma fine_replace a o s :
  so_address o = a -> length (so_CodeHash o) = 32%nat ->
  let s1 := (getStateObject a s).1 in
  fine s (setStateObject o (append (match object_at s a with
                                    | None => createObjectChange a
                                    | Some p => resetObjectChange p
                                    end) s1)).
Proof.
  intros Ha Hlen s1. apply (fine_trans _ s1); [apply fine_get|].
  pose proof (get_object_at a s) as Ho1. fold s1 in Ho1. rewrite <- Ho1. clearbody s1.
  destruct (object_at s1 a) as [p|] eqn:Hp; intros Hwf.
  - destruct (core_objects _ (wf_core _ Hwf) _ _ Hp) as [Hpa Hpl]. revert Hwf.
    eapply (fine_entry (resetObjectChange p)); try done.
    + intros Hc. split; [done|]. apply core_set; [|done]. by eapply core_eq; [apply with_journal_eq|].
    + split; try done. intros b. rewrite !object_at_set, Ha, Hpa.
      case_decide as Hb; [subst b; rewrite Hp; constructor; reflexivity|].
      change (object_at (append (resetObjectChange p) s1) b) with (object_at s1 b).
      destruct (object_at s1 b); constructor. reflexivity.
  - revert Hwf. eapply (fine_entry (createObjectChange a)); try done.
    + intros Hc. split; [done|]. apply core_set; [|done]. by eapply core_eq; [apply with_journal_eq|].
    + split; try done. intros b. unfold object_at in *.
      cbn [stateObjects keeper with_objects setStateObject append with_journal].
      rewrite Ha, delete_insert_eq. destruct (decide (a = b)) as [<-|Hne].
      * rewrite lookup_delete_eq. destruct (stateObjects s1 !! a); [done|].
        destruct (GetAccount (keeper s1) a); [done|]. constructor.
      * rewrite lookup_delete_ne by done.
        destruct (match stateObjects s1 !! b with Some _ => _ | None => _ end); constructor. reflexivity.
Qed.

Lemma set_object_twice o p s :
  so_address o = so_address p -> setStateObject o (setStateObject p s) = setStateObject o s.
Proof.
  intros H. unfold setStateObject. cbn [stateObjects with_objects]. rewrite H, insert_insert_eq. done.
Qed.

Lemma fine_CreateAccount a s : fine s (CreateAccount a s).
Proof.
  unfold CreateAccount, createObject. destruct (get_object a s) as (Ho & _).
  pose proof (fine_replace a) as Hf. destruct (getStateObject a s) as [s1 prev] eqn:E. cbn [fst snd] in Ho. subst prev.
  assert (length (so_CodeHash (newObject a (mkAccount 0 None None))) = 32%nat) as Hlen
    by apply length_emptyCodeHash.
  destruct (object_at s a) as [p|] eqn:Hp.
  - rewrite set_object_twice by done.
    specialize (Hf (setBalance (so_Balance p) (newObject a (mkAccount 0 None None))) s).
    rewrite E, Hp in Hf. by apply Hf.
  - specialize (Hf (newObject a (mkAccount 0 None None)) s). rewrite E, Hp in Hf. by apply Hf.
Qed.

Lemma fine_getOrNew a s :
  let '(s', o) := getOrNewStateObject a s in
  fine s s' /\ (wf s -> object_at s' a = Some o /\ so_address o = a).
Proof.
  unfold getOrNewStateObject. pose proof (fine_get a s) as Hg. destruct (get_object a s) as (Ho & _ & _).
  pose proof (get_object_at a s) as Ho1.
  destruct (getStateObject a s) as [s1 [o|]] eqn:E; cbn [fst snd] in *.
  - split; [done|]. intros Hwf. destruct (Hg Hwf) as [Hwf1 _]. rewrite <- Ho in Ho1.
    split; [done|]. by destruct (core_objects _ (wf_core _ Hwf1) _ _ Ho1).
  - pose proof (fine_replace a (newObject a (mkAccount 0 None None)) s1 eq_refl ltac:(apply length_emptyCodeHash)) as Hf.
    unfold createObject. rewrite <- Ho in Ho1. destruct (get_object a s1) as (Ho2 & _).
    destruct (getStateObject a s1) as [s2 prev]. cbn [fst snd] in *. subst prev. split.
    + apply (fine_trans _ s1); [done|]. exact Hf.
    + intros _. split; [|done]. rewrite object_at_set. by rewrite decide_True.
Qed.

(** An operation on an object, existing or new, that keeps its address and code
    hash length. *)
Lemma fine_change a s e f g :
  (forall k o, length (so_CodeHash o) = 32%nat ->
     entry_ok (e k o) /\ so_address (f k o) = so_address o /\ length (so_CodeHash (f k o)) = 32%nat /\
     obj_eq k (g k o (f k o)) o) ->
  (forall k o s, revert_entry (e k o) s = revert_object (so_address o) (g k o) s) ->
  let '(s1, o) := getOrNewStateObject a s in
  fine s (setStateObject (f (keeper s1) o) (append (e (keeper s1) o) s1)).
Proof.
  intros Hf Hrev. pose proof (fine_getOrNew a s) as H. destruct (getOrNewStateObject a s) as [s1 o].
  destruct H as [H1 H2]. intros Hwf. destruct (H2 Hwf) as [Ho Ha].
  assert (fine s1 (setStateObject (f (keeper s1) o) (append (e (keeper s1) o) s1))) as H3.
  { intros Hwf1. destruct (core_objects _ (wf_core _ Hwf1) _ _ Ho) as [_ Hl].
    destruct (Hf (keeper s1) o Hl) as (He & Hfa & Hfl & Heq).
    apply (fine_object _ (g (keeper s1) o) o); [by rewrite Ha|done| |done|done].
    intros _. by split_and!. }
  by apply (fine_trans _ _ _ H1 H3).
Qed.

Lemma fine_SetBalance a n s (upd : Z -> Z) :
  let '(s1, o) := getOrNewStateObject a s in
  fine s (if n =? 0 then s1 else obj_SetBalance (upd (so_Balance o)) o s1).
Proof.
  pose proof (fine_getOrNew a s) as H.
  pose proof (fine_change a s (fun _ o => balanceChange (so_address o) (so_Balance o))
    (fun _ o => setBalance (upd (so_Balance o)) o) (fun _ o => setBalance (so_Balance o))) as Hc.
  destruct (getOrNewStateObject a s) as [s1 o]. destruct H as [H _].
  destruct (n =? 0); [done|]. apply Hc; [|done]. intros k p Hl. by split_and!.
Qed.

Lemma fine_AddBalance a n s : fine s (AddBalance a n s).
Proof.
  unfold AddBalance. pose proof (fine_SetBalance a n s (fun b => b + n)) as H.
  by destruct (getOrNewStateObject a s).
Qed.

Lemma fine_SubBalance a n s : fine s (SubBalance a n s).
Proof.
  unfold SubBalance. pose proof (fine_SetBalance a n s (fun b => b - n)) as H.
  by destruct (getOrNewStateObject a s).
Qed.

Lemma fine_SetNonce a n s : fine s (SetNonce a n s).
Proof.
  unfold SetNonce. pose proof (fine_change a s (fun _ o => nonceChange (so_address o) (so_Nonce o))
    (fun _ o => setNonce n o) (fun _ o => setNonce (so_Nonce o))) as Hc.
  destruct (getOrNewStateObject a s) as [s1 o]. apply Hc; [|done].
  intros k p Hl. by split_and!.
Qed.

Lemma code_view_back k o h c :
  length (so_CodeHash o) = 32%nat ->
  obj_eq k (setCode (BytesToHash (so_CodeHash o)) (code_view k o) (setCode h c o)) o.
Proof.
  intros Hl. rewrite BytesToHash_32 by done. split; try done. unfold code_view.
  cbn [setCode so_code so_CodeHash]. destruct (so_code o); [done|].
  case_bool_decide; [done|]. by destruct (GetCode_keeper k _).
Qed.

Lemma fine_SetCode a c s : fine s (SetCode a c s).
Proof.
  unfold SetCode. pose proof (fine_change a s
    (fun k o => codeChange (so_address o) (code_view k o) (so_CodeHash o))
    (fun k o => setCode (Keccak256Hash c) c (obj_Code k o).1)
    (fun k o => setCode (BytesToHash (so_CodeHash o)) (code_view k o))) as Hc.
  destruct (getOrNewStateObject a s) as [s1 o].
  destruct (obj_Code_spec (keeper s1) o) as [Hv Heq]. destruct (obj_Code (keeper s1) o) as [o1 prev] eqn:E.
  cbn [fst snd] in *. subst prev. rewrite (eq_address _ _ _ Heq), (eq_hash _ _ _ Heq).
  apply Hc; [|done]. intros k p Hl. destruct (obj_Code_spec k p) as [_ Hp]. split_and!.
  - done.
  - apply (eq_address _ _ _ Hp).
  - apply length_Keccak256Hash.
  - transitivity (setCode (BytesToHash (so_CodeHash p)) (code_view k p) (setCode (Keccak256Hash c) c p));
      [|by apply code_view_back]. by apply setCode_eq, setCode_eq.
Qed.

Lemma setState_back k key v o : obj_eq k (setState key (state_view k o key) (setState key v o)) o.
Proof.
  split; try done. intros x. rewrite !setState_view. by case_decide as H; [subst|].
Qed.

Lemma fine_SetState a key v s : fine s (SetState a key v s).
Proof.
  unfold SetState. pose proof (fine_getOrNew a s) as H.
  destruct (getOrNewStateObject a s) as [s1 o]. destruct H as [H1 H2].
  destruct (obj_State_spec (keeper s1) o key) as [Hv Heq].
  destruct (obj_GetState (keeper s1) o key) as [o1 prev]. cbn [fst snd] in *. subst prev. intros Hwf.
  destruct (H2 Hwf) as [Ho Ha]. destruct (H1 Hwf) as [Hwf1 _].
  assert (db_eq (setStateObject o1 s1) s1) as Hsame.
  { rewrite (set_object_eq o1 o s1 s1); [|reflexivity|done]. by apply (set_object_same o s1 a). }
  assert (fine s (setStateObject o1 s1)) as Hf.
  { apply (fine_trans _ _ _ H1). unfold setStateObject in *. by apply fine_eq. }
  case_bool_decide as Hp; [by apply Hf|]. revert Hwf. apply (fine_trans _ _ _ Hf). intros Hwf2.
  apply (fine_object _ (setState key (state_view (keeper s1) o key)) o1); try done.
  - by rewrite object_at_set, decide_True.
  - intros Hl. split_and!; [done|done|]. cbn [setStateObject keeper with_objects].
    rewrite <- (eq_state _ _ _ Heq). apply setState_back.
Qed.

Lemma fine_Suicide a s : fine s (Suicide a s).1.
Proof.
  unfold Suicide. pose proof (fine_get a s) as Hg. destruct (get_object a s) as (Ho & _ & _).
  pose proof (get_object_at a s) as Ho1.
  destruct (getStateObject a s) as [s1 [o|]] eqn:E; cbn [fst snd] in *; [|done]. rewrite <- Ho in Ho1.
  apply (fine_trans _ _ _ Hg). intros Hwf. destruct (core_objects _ (wf_core _ Hwf) _ _ Ho1) as [Ha Hl]. revert Hwf.
  apply (fine_entry (suicideChange a (suicided o) (so_Balance o)) _ _
    (setStateObject (setBalance (so_Balance o) (set_suicided (suicided o) (setBalance 0 (set_suicided true o))))
      (setStateObject (setBalance 0 (set_suicided true o))
        (append (suicideChange a (suicided o) (so_Balance o)) s1)))); try done.
  - intros Hc. split; [done|]. apply core_set; [|done]. by eapply core_eq; [apply with_journal_eq|].
  - cbn [revert_entry]. unfold getStateObject. cbn [setStateObject stateObjects with_objects].
    change (so_address (setBalance 0 (set_suicided true o))) with (so_address o).
    rewrite Ha, lookup_insert_eq. reflexivity.
  - split; try done. intros b. rewrite !object_at_set. cbn [setBalance set_suicided so_address]. rewrite Ha.
    case_decide as Hb; [subst b; rewrite Ho1; constructor; by split|].
    change (object_at (append ?e s1) b) with (object_at s1 b). destruct (object_at s1 b); constructor. reflexivity.
Qed.

Lemma core_frame s s' :
  core_ok s -> keeper s' = keeper s -> stateObjects s' = stateObjects s ->
  Forall (fun m : gset bytes => m <> ∅) (slots (access s')) -> core_ok s'.
Proof.
  intros [Ho Hk Hs] E1 E2 Hs'. split; [|by rewrite E1|done].
  intros a o. unfold object_at. rewrite E1, E2. apply Ho.
Qed.

(** Changes outside the objects. *)
Lemma fine_other e s s' t :
  keeper s' = keeper s -> stateObjects s' = stateObjects s ->
  (Forall (fun m : gset bytes => m <> ∅) (slots (access s)) ->
   Forall (fun m : gset bytes => m <> ∅) (slots (access s'))) ->
  validRevisions s' = validRevisions s -> nextRevisionID s' = nextRevisionID s ->
  entries s' = entries s ++ [e] -> dirties s' = dirties s -> Dirtied e = None -> entry_ok e ->
  revert_entry e s' = Some t -> db_eq t s -> fine s s'.
Proof.
  intros Hk Ho Hs Hr Hn He Hd Hdirt Hok Ht Heq. apply (fine_entry e s s' t); try done.
  - by rewrite Hdirt.
  - intros Hc. split; [done|]. eapply core_frame; [exact Hc|done|done|]. apply Hs, Hc.
Qed.

Ltac other_change e :=
  eapply (fine_other e);
  [reflexivity|reflexivity| |reflexivity|reflexivity|reflexivity|reflexivity|reflexivity|exact I| |];
  [try done| |].

Lemma revert_log s : logs s <> [] -> revert_entry addLogChange s = Some (with_logs (removelast (logs s)) s).
Proof. cbn [revert_entry]. by destruct (logs s). Qed.

Lemma fine_AddLog c s : fine s (AddLog c s).
Proof.
  unfold AddLog. other_change addLogChange.
  - apply revert_log. cbn [with_logs logs append with_journal]. by destruct (logs s).
  - split; try done. cbn [with_logs logs append with_journal]. apply removelast_last.
Qed.

Lemma fine_AddRefund g s : fine s (AddRefund g s).
Proof.
  unfold AddRefund. other_change (refundChange (refund s)); [reflexivity|by split].
Qed.

Lemma fine_SubRefund g s s' : SubRefund g s = (s', Ok tt) -> fine s s'.
Proof.
  unfold SubRefund. destruct (_ <? g); [done|]. intros [= <-].
  other_change (refundChange (refund s)); [reflexivity|by split].
Qed.

Lemma with_access_eq al s : al = access s -> db_eq (with_access al s) s.
Proof. intros ->. by split. Qed.

Lemma fine_AddAddress a s : fine s (AddAddressToAccessList a s).
Proof.
  unfold AddAddressToAccessList, AddAddress. destruct (addresses (access s) !! a) as [i|] eqn:Ha.
  { change (with_access (access s) s) with s || idtac. destruct s. apply fine_refl. }
  other_change (accessListAddAccountChange a); [reflexivity|]. split; try done.
  cbn. unfold DeleteAddress. cbn [addresses slots]. rewrite delete_insert_id by done. by destruct (access s).
Qed.

Lemma DeleteSlot_fresh al a slot :
  (addresses al !! a = None \/ addresses al !! a = Some (-1)) ->
  DeleteSlot (fresh_slot al a slot) a slot = Some (mkAL (<[a := -1]> (addresses al)) (slots al)).
Proof.
  intros Ha. unfold DeleteSlot, fresh_slot. cbn [addresses slots]. rewrite lookup_insert_eq.
  rewrite (proj2 (Z.ltb_ge _ _)) by lia. rewrite Nat2Z.id, lookup_app_r, Nat.sub_diag by lia. cbn [lookup list_lookup].
  rewrite bool_decide_eq_true_2 by set_solver. rewrite insert_insert_eq. by rewrite take_app_length.
Qed.

Lemma fine_AddSlot a slot s s' : AddSlotToAccessList a slot s = (s', Ok tt) -> fine s s'.
Proof.
  unfold AddSlotToAccessList, AddSlot. destruct (addresses (access s) !! a) as [idx|] eqn:Ha.
  - destruct (Z.eqb_spec idx (-1)) as [->|Hi].
    { intros [= <-]. other_change (accessListAddSlotChange a slot).
      - intros H. cbn. apply Forall_app. split; [done|]. constructor; [set_solver|done].
      - cbn [revert_entry append with_journal with_access access]. rewrite DeleteSlot_fresh by (by right). reflexivity.
      - split; try done. cbn. rewrite insert_id by done. by destruct (access s). }
    destruct (Z.ltb_spec idx 0); [done|]. destruct (slots (access s) !! Z.to_nat idx) as [m|] eqn:Hm; [|done].
    case_bool_decide as Hin; intros [= <-]; [destruct s; apply fine_refl|]. intros Hwf.
    assert (m <> ∅) as Hne by (by eapply (Forall_lookup_1 _ _ _ _ (core_slots _ (wf_core _ Hwf)))).
    revert Hwf. other_change (accessListAddSlotChange a slot).
    + intros H'. cbn. apply Forall_insert; [done|set_solver].
    + cbn [revert_entry append with_journal with_access access DeleteSlot]. unfold DeleteSlot. cbn [addresses slots].
      rewrite Ha, (proj2 (Z.ltb_ge _ _)) by lia. rewrite list_lookup_insert_eq by (by eapply lookup_lt_Some).
      replace (({[slot]} ∪ m) ∖ {[slot]}) with m by set_solver.
      rewrite bool_decide_eq_false_2 by done. reflexivity.
    + split; try done. cbn. rewrite list_insert_insert_eq, list_insert_id by done. by destruct (access s).
  - intros [= <-]. set (s1 := append (accessListAddAccountChange a) (with_access (mkAL (<[a := -1]> (addresses (access s))) (slots (access s))) s)).
    apply (fine_trans _ s1).
    + pose proof (fine_AddAddress a s) as H. unfold AddAddressToAccessList, AddAddress in H. by rewrite Ha in H.
    + other_change (accessListAddSlotChange a slot).
      * intros H. cbn. apply Forall_app. split; [done|]. constructor; [set_solver|done].
      * cbn [revert_entry append with_journal with_access access]. rewrite DeleteSlot_fresh by (by left). reflexivity.
      * by split.
Qed.

(** Reads. *)
Lemma read_object_spec {A} a (dflt : A) f (view : K -> stateObject -> A) s :
  (forall k o, (f k o).2 = view k o /\ obj_eq k (f k o).1 o) ->
  fine s (read_object a dflt f s).1 /\
  (read_object a dflt f s).2 = match object_at s a with Some o => view (keeper s) o | None => dflt end.
Proof.
  intros Hf. unfold read_object. pose proof (fine_get a s) as Hg. destruct (get_object a s) as (Ho & _ & m & Hm).
  pose proof (get_object_at a s) as Ho1.
  destruct (getStateObject a s) as [s1 [o|]]; cbn [fst snd] in *; rewrite <- Ho; [|done].
  destruct (Hf (keeper s1) o) as [Hv Heq]. destruct (f (keeper s1) o) as [o1 v]. cbn [fst snd] in *. subst v s1.
  split; [|done]. intros Hwf. destruct (Hg Hwf) as [Hwf1 _]. rewrite <- Ho in Ho1.
  destruct (core_objects _ (wf_core _ Hwf1) _ _ Ho1) as [Ha _]. revert Hwf. apply (fine_trans _ _ _ Hg).
  unfold setStateObject. apply fine_eq. fold (setStateObject o1 (with_objects m s)).
  rewrite (set_object_eq o1 o _ (with_objects m s)); [|reflexivity|done]. by apply (set_object_same _ _ a).
Qed.

Lemma fine_exec o s s' : exec o s = (s', Ok tt) -> fine s s'.
Proof.
  destruct o; cbn [exec]; intros H;
    try (by apply fine_SubRefund in H); try (by apply fine_AddSlot in H); injection H as <-.
  - apply fine_CreateAccount.
  - apply fine_AddBalance.
  - apply fine_SubBalance.
  - apply fine_SetNonce.
  - apply fine_SetCode.
  - apply fine_SetState.
  - apply fine_Suicide.
  - apply fine_AddLog.
  - apply fine_AddRefund.
  - apply fine_AddAddress.
  - apply (read_object_spec a None obj_Code code_view). apply obj_Code_spec.
  - apply (read_object_spec a zero_hash _ (fun k o => state_view k o key)). intros k o. apply obj_State_spec.
  - apply (read_object_spec a zero_hash _ (fun k o => committed_view k o key)). intros k o. apply obj_Committed_spec.
  - apply (read_object_spec a false _ (fun _ _ => true)). intros k o. split; [done|reflexivity].
Qed.

End Operations.

(** * Snapshots *)

Section Snapshots.
Context {K : Type} {KP : Keeper K} {EH : EthHash}.
Implicit Types s t : StateDB K.

Lemma search_loop_spec (f : nat -> bool) n fuel : forall i j,
  (j - i < fuel)%nat -> (i <= j <= n)%nat ->
  (forall x, (x < i)%nat -> f x = false) -> (forall x, (j <= x < n)%nat -> f x = true) ->
  (forall x y, (x <= y < n)%nat -> f x = true -> f y = true) ->
  let r := search_loop fuel f i j in
  (r <= n)%nat /\ (forall x, (x < r)%nat -> f x = false) /\ (forall x, (r <= x < n)%nat -> f x = true).
Proof.
  induction fuel as [|fuel IH]; intros i j Hf Hij Hlo Hhi Hmono; [lia|]. cbn [search_loop].
  destruct (Nat.ltb_spec i j).
  2:{ cbv zeta. split_and!; [lia|done|]. intros x Hx. apply Hhi. lia. }
  pose proof (Nat.div_mod (i + j) 2 ltac:(lia)) as Hd. pose proof (Nat.mod_upper_bound (i + j) 2 ltac:(lia)) as Hm.
  set (h := ((i + j) / 2)%nat) in *. destruct (f h) eqn:Hh; apply IH; try lia; try done.
  - intros x Hx. apply (Hmono h x); [lia|done].
  - intros x Hx. destruct (f x) eqn:Hfx; [|done]. rewrite (Hmono x h) in Hh; [done|lia|done].
Qed.

Lemma find_revision (revs : list (Z * Z)) R id n Y :
  revs = R ++ (id, n) :: Y -> StronglySorted Z.lt revs.*1 ->
  sort_Search (length revs) (fun i => match revs !! i with Some r => id <=? r.1 | None => false end) = length R.
Proof.
  intros Hr Hs. set (f := fun i => _).
  assert (forall x y rx ry, (x < y)%nat -> revs !! x = Some rx -> revs !! y = Some ry -> rx.1 < ry.1) as Hlt.
  { intros x y rx ry Hxy Hx Hy. rewrite <- (take_drop y revs), fmap_app in Hs. apply StronglySorted_app in Hs as (Hs & _).
    apply Hs; apply list_elem_of_fmap; eexists; (split; [done|]).
    - apply list_elem_of_lookup_2 with x. by rewrite lookup_take_lt.
    - apply list_elem_of_lookup_2 with 0%nat. by rewrite lookup_drop, Nat.add_0_r. }
  assert (revs !! length R = Some (id, n)) as Hat by (rewrite Hr; by apply list_lookup_middle).
  assert (length R < length revs)%nat as Hlen by (by eapply lookup_lt_Some).
  destruct (search_loop_spec f (length revs) (S (length revs)) 0 (length revs)) as (Hle & Hlo & Hhi); try lia.
  { intros x y Hxy. unfold f. destruct (lookup_lt_is_Some_2 revs y) as [ry Hy]; [lia|].
    destruct (lookup_lt_is_Some_2 revs x) as [rx Hx]; [lia|]. rewrite Hx, Hy, !Z.leb_le. intros Hid.
    destruct (decide (x = y)) as [->|]; [congruence|]. specialize (Hlt x y rx ry ltac:(lia) Hx Hy). lia. }
  unfold sort_Search. set (r := search_loop _ _ _ _) in *.
  destruct (Nat.lt_trichotomy r (length R)) as [Hlt'|[->|Hgt]]; [|done|].
  - specialize (Hhi r ltac:(lia)). unfold f in Hhi. destruct (revs !! r) as [x|] eqn:Hx; [|done].
    apply Z.leb_le in Hhi. specialize (Hlt _ _ _ _ Hlt' Hx Hat). cbn in Hlt. lia.
  - specialize (Hlo _ Hgt). unfold f in Hlo. rewrite Hat in Hlo. cbn in Hlo. apply Z.leb_gt in Hlo. lia.
Qed.

Lemma RevertToSnapshot_at s R id n Y :
  wf s -> validRevisions s = R ++ (id, n) :: Y ->
  RevertToSnapshot id s =
  match journal_Revert (Z.to_nat n) s with
  | None => (s, Panic)
  | Some s' => (with_revisions R (nextRevisionID s') s', Ok tt)
  end.
Proof.
  intros Hwf Hr. unfold RevertToSnapshot. cbv zeta. rewrite (find_revision _ R id n Y Hr (wf_revisions _ Hwf)).
  rewrite Hr at 1. rewrite list_lookup_middle by done. rewrite Z.eqb_refl. cbn [negb].
  rewrite Hr, take_app_length. done.
Qed.

(** A successful revert names a revision of the list. *)
Lemma RevertToSnapshot_found s s' id :
  RevertToSnapshot id s = (s', Ok tt) -> exists R n Y, validRevisions s = R ++ (id, n) :: Y.
Proof.
  unfold RevertToSnapshot. cbv zeta. set (i := sort_Search _ _).
  destruct (validRevisions s !! i) as [[id' n]|] eqn:Hi; [|done].
  destruct (Z.eqb_spec id' id) as [->|]; [|done]. intros _.
  exists (take i (validRevisions s)), n, (drop (S i) (validRevisions s)). symmetry. by apply take_drop_middle.
Qed.

(** Undoing to a journal length that is still there. *)
Lemma journal_Revert_wf (m : nat) s s' :
  wf s -> journal_Revert m s = Some s' ->
  core_ok s' /\ dirties_match (dirties s') (take m (entries s)) /\ entries s' = take m (entries s) /\
  validRevisions s' = validRevisions s /\ nextRevisionID s' = nextRevisionID s /\ keeper s' = keeper s /\
  exists u, revert_entries (reverse (drop m (entries s))) s = Some u /\ db_eq s' u.
Proof.
  intros [Hc He Hd Hr Hn] H. unfold journal_Revert in H.
  destruct (revert_entries (reverse (drop m (entries s))) s) as [u|] eqn:E; [|done]. cbn in H. injection H as <-.
  destruct (revert_entries_frame _ _ _ E) as (E1 & E2 & E3 & E4).
  destruct (revert_entries_core (reverse (drop m (entries s))) s u (take m (entries s))) as [Hcu Hdu].
  - apply Forall_reverse. by apply Forall_drop.
  - done.
  - by rewrite reverse_involutive, take_drop.
  - done.
  - split_and!; [by eapply core_eq; [apply with_journal_eq|]|done|cbn; by rewrite E1|done|done|done|].
    exists u. split; [done|]. apply with_journal_eq.
Qed.

Lemma revert_wf s v R id (n : Z) Y :
  wf s -> validRevisions s = R ++ (id, n) :: Y -> journal_Revert (Z.to_nat n) s = Some v ->
  wf (with_revisions R (nextRevisionID v) v).
Proof.
  intros Hwf HR E. destruct (journal_Revert_wf _ _ _ Hwf E) as (Hcv & Hdv & Hev & _ & Hnv & _ & _).
  destruct Hwf as [_ Hent _ Hrev Hnext]. split; cbn [entries dirties validRevisions nextRevisionID with_revisions].
  - by eapply core_eq; [apply with_revisions_eq|].
  - rewrite Hev. by apply Forall_take.
  - by rewrite Hev.
  - rewrite HR, fmap_app in Hrev. by apply StronglySorted_app in Hrev as (_ & ? & _).
  - rewrite Hnv. rewrite HR, fmap_app in Hnext. by apply Forall_app in Hnext as [? _].
Qed.

(** What stays true inside the frame opened by [Snapshot s0]. *)
Definition in_frame (s0 s : StateDB K) : Prop :=
  wf s /\ keeper s = keeper s0 /\
  (exists Y, validRevisions s = validRevisions s0 ++ (nextRevisionID s0, Z.of_nat (length (entries s0))) :: Y /\
     Forall (fun r => Z.of_nat (length (entries s0)) <= r.2) Y) /\
  exists es t, entries s = entries s0 ++ es /\ revert_entries (reverse es) s = Some t /\ db_eq t s0.

Lemma snapshot_wf s : wf s -> wf (Snapshot s).1.
Proof.
  intros [Hc He Hd Hr Hn]. split; try done; cbn [Snapshot fst validRevisions with_revisions nextRevisionID].
  - by eapply core_eq; [apply with_revisions_eq|].
  - rewrite fmap_app. apply StronglySorted_app. split_and!; [|done|repeat constructor].
    intros x y Hx Hy. rewrite Forall_forall in Hn. apply list_elem_of_singleton in Hy as ->. by apply Hn.
  - rewrite fmap_app. apply Forall_app. split; [|by constructor; [cbn; lia|]].
    eapply Forall_impl; [exact Hn|]. cbn. lia.
Qed.

Lemma frame_opens s0 : wf s0 -> in_frame s0 (Snapshot s0).1.
Proof.
  intros H. split_and!; [by apply snapshot_wf|done|by exists []|]. exists [], (Snapshot s0).1.
  rewrite app_nil_r. by split_and!.
Qed.

Lemma frame_keeps_op s0 s s' : in_frame s0 s -> fine s s' -> in_frame s0 s'.
Proof.
  intros (Hwf & Hk & HY & es & t & He & Ht & Heq) Hf.
  destruct (Hf Hwf) as [Hwf' (Hk' & Hr' & Hn' & es' & u & He' & Hu & Hequ)].
  split_and!; [done|congruence|by rewrite Hr'|].
  pose proof (revert_entries_cong (reverse es) u s Hequ) as Hc. rewrite Ht in Hc. inversion Hc as [v w Hvw Hv Hw|]. subst w.
  exists (es ++ es'), v. split_and!.
  - by rewrite He', He, app_assoc.
  - rewrite reverse_app, revert_entries_app, Hu. done.
  - by transitivity t.
Qed.

Lemma frame_keeps_snapshot s0 s : in_frame s0 s -> in_frame s0 (Snapshot s).1.
Proof.
  intros (Hwf & Hk & (Y & HY & HF) & es & t & He & Ht & Heq).
  split_and!; [by apply snapshot_wf|done| |].
  - exists (Y ++ [(nextRevisionID s, Z.of_nat (length (entries s)))]). cbn [Snapshot fst validRevisions with_revisions].
    rewrite HY, <- app_assoc. split; [done|]. apply Forall_app. split; [done|]. constructor; [|done].
    cbn. rewrite He, length_app. lia.
  - pose proof (revert_entries_cong (reverse es) (Snapshot s).1 s (with_revisions_eq _ _ _)) as Hc.
    rewrite Ht in Hc. inversion Hc as [v w Hvw Hv Hw|]. subst w. exists es, v. split_and!; [done|done|].
    by transitivity t.
Qed.

(** Where a younger revision sits in the list. *)
Lemma younger_revision (R0 R Y Y2 : list (Z * Z)) id n id' m :
  R0 ++ (id, n) :: Y = R ++ (id', m) :: Y2 -> StronglySorted Z.lt (R0 ++ (id, n) :: Y).*1 -> id < id' ->
  exists Y1, R = R0 ++ (id, n) :: Y1 /\ Y = Y1 ++ (id', m) :: Y2.
Proof.
  intros H Hs Hid. apply app_eq_inv in H as [(k & -> & H)|(k & -> & H)].
  - destruct k as [|x k]; cbn in H; [injection H as Hx _ _; lia|]. injection H as <- _. exfalso.
    rewrite fmap_app in Hs. apply StronglySorted_app in Hs as (Hcross & _).
    specialize (Hcross id' id). enough (id' < id) by lia. apply Hcross.
    + apply list_elem_of_fmap. exists (id', m). split; [done|]. apply elem_of_app. right. by left.
    + by left.
  - destruct k as [|x k]; cbn in H; [injection H as Hx _ _; lia|]. injection H as <- ->. by exists k.
Qed.

Lemma frame_keeps_revert s0 s s' id' :
  in_frame s0 s -> nextRevisionID s0 < id' -> RevertToSnapshot id' s = (s', Ok tt) -> in_frame s0 s'.
Proof.
  intros (Hwf & Hk & (Y & HY & HF) & es & t & He & Ht & Heq) Hid H.
  destruct (RevertToSnapshot_found _ _ _ H) as (R & m & Y2 & HR). pose proof (wf_revisions _ Hwf) as Hsort.
  rewrite HY in Hsort. destruct (younger_revision _ R _ Y2 _ _ id' m ltac:(by rewrite <- HY, HR) Hsort Hid) as (Y1 & HR1 & HY1).
  rewrite (RevertToSnapshot_at _ _ _ _ _ Hwf HR) in H.
  destruct (journal_Revert (Z.to_nat m) s) as [v|] eqn:E; [|done]. injection H as <-.
  destruct (journal_Revert_wf _ _ _ Hwf E) as (Hcv & Hdv & Hev & Hrv & Hnv & Hkv & u & Hu & Hvu).
  set (n0 := length (entries s0)) in *.
  assert (n0 <= Z.to_nat m)%nat as Hm.
  { rewrite HY1 in HF. apply Forall_app in HF as [_ HF]. apply Forall_cons in HF as [HF _]. cbn in HF. lia. }
  assert (take (Z.to_nat m) (entries s) = entries s0 ++ take (Z.to_nat m - n0) es) as Htake.
  { rewrite He, take_app_ge by done. done. }
  assert (drop (Z.to_nat m) (entries s) = drop (Z.to_nat m - n0) es) as Hdrop.
  { rewrite He, drop_app_ge by done. done. }
  split_and!.
  - by apply (revert_wf s _ R id' m Y2).
  - cbn. by rewrite Hkv.
  - exists Y1. split; [done|]. rewrite HY1 in HF. by apply Forall_app in HF as [? _].
  - rewrite <- (take_drop (Z.to_nat m - n0) es), reverse_app, revert_entries_app, <- Hdrop, Hu in Ht. cbn in Ht.
    pose proof (revert_entries_cong (reverse (take (Z.to_nat m - n0) es)) (with_revisions R (nextRevisionID v) v) u
      ltac:(by rewrite with_revisions_eq)) as Hc.
    rewrite Ht in Hc. inversion Hc as [x y Hxy Hx Hy|]. subst y.
    exists (take (Z.to_nat m - n0) es), x. split_and!; [cbn; by rewrite Hev|done|by transitivity t].
Qed.

Lemma frame_runs s0 s s' :
  in_frame s0 s -> rtc (frame_step (nextRevisionID s0)) s s' -> in_frame s0 s'.
Proof.
  intros H Hr. revert H. induction Hr as [|x y z Hxy _ IH]; intros H; [done|]. apply IH.
  destruct Hxy as [o a b Ho|a|id' a b Hid Hb].
  - eapply frame_keeps_op; [done|]. by eapply fine_exec.
  - by apply frame_keeps_snapshot.
  - by eapply frame_keeps_revert.
Qed.

Lemma db_eq_reads s t : db_eq s t -> same_reads s t.
Proof.
  intros H. pose proof (eq_objects _ _ H) as Ho. pose proof (eq_keeper _ _ H) as Hk.
  assert (forall A a (dflt : A) f view,
    (forall k o, (f k o).2 = view k o /\ obj_eq k (f k o).1 o) ->
    (forall k o p, obj_eq k o p -> view k o = view k p) ->
    (read_object a dflt f s).2 = (read_object a dflt f t).2) as Hread.
  { intros A a dflt f view Hf Hv. rewrite !(proj2 (read_object_spec a dflt f view _ Hf)), Hk.
    specialize (Ho a). inversion Ho; [|done]. by apply Hv. }
  unfold same_reads. split_and!; [..|apply H|apply H|apply H].
  - intros a. by apply (Hread _ a _ _ (fun _ _ => true)).
  - intros a. apply (Hread _ a _ _ (fun _ o => empty o)); [done|]. intros k o p E.
    unfold empty. by rewrite (eq_nonce _ _ _ E), (eq_balance _ _ _ E), (eq_hash _ _ _ E).
  - intros a. apply (Hread _ a _ _ (fun _ o => so_Balance o)); [done|]. by intros k o p [].
  - intros a. apply (Hread _ a _ _ (fun _ o => so_Nonce o)); [done|]. by intros k o p [].
  - intros a. apply (Hread _ a _ _ code_view); [apply obj_Code_spec|]. by intros k o p [].
  - intros a. apply (Hread _ a _ _ (fun _ o => BytesToHash (so_CodeHash o))); [done|]. intros k o p E.
    by rewrite (eq_hash _ _ _ E).
  - intros a. apply (Hread _ a _ _ (fun _ o => suicided o)); [done|]. by intros k o p [].
  - intros a key. apply (Hread _ a _ _ (fun k o => state_view k o key)); [intros; apply obj_State_spec|]. by intros k o p [].
  - intros a key. apply (Hread _ a _ _ (fun k o => committed_view k o key)); [intros; apply obj_Committed_spec|]. by intros k o p [].
Qed.

Lemma dirties_unique d d' es : dirties_match d es -> dirties_match d' es -> d = d'.
Proof. intros H H'. apply map_eq. intros a. by rewrite H, H'. Qed.

(** C8: reverting a frame.  Take a snapshot in a well-formed state, run any
    operations and reads, with inner frames that take snapshots and revert to
    them in turn; reverting to the snapshot then succeeds, and every read
    (balances, nonces, code, storage, committed storage, logs, refund, access
    list) answers as when the snapshot was taken.  Journal, dirty accounts and
    older snapshots are as they were. *)
Theorem revert_restores_snapshot s0 s1 s2 id :
  wf s0 -> Snapshot s0 = (s1, id) -> rtc (frame_step id) s1 s2 ->
  exists s3, RevertToSnapshot id s2 = (s3, Ok tt) /\ wf s3 /\ same_reads s3 s0 /\
    entries s3 = entries s0 /\ dirties s3 = dirties s0 /\ validRevisions s3 = validRevisions s0.
Proof.
  intros Hwf0 [= <- <-] Hr. apply (frame_runs s0) in Hr; [|by apply frame_opens].
  destruct Hr as (Hwf & Hk & (Y & HY & HF) & es & t & He & Ht & Heq).
  rewrite (RevertToSnapshot_at _ _ _ _ _ Hwf HY), Nat2Z.id.
  destruct (journal_Revert (length (entries s0)) s2) as [v|] eqn:E.
  2:{ unfold journal_Revert in E. rewrite He, drop_app_length, Ht in E. done. }
  destruct (journal_Revert_wf _ _ _ Hwf E) as (Hcv & Hdv & Hev & Hrv & Hnv & Hkv & u & Hu & Hvu).
  rewrite He, drop_app_length, Ht in Hu. injection Hu as <-.
  rewrite He, take_app_length in Hev, Hdv. eexists. split; [done|]. split_and!; try done.
  - destruct Hwf as [_ _ _ Hrev Hnext]. destruct Hwf0 as [_ Hent0 _ _ _].
    split; cbn [entries dirties validRevisions nextRevisionID with_revisions].
    + by eapply core_eq; [apply with_revisions_eq|].
    + by rewrite Hev.
    + by rewrite Hev.
    + rewrite HY, fmap_app in Hrev. by apply StronglySorted_app in Hrev as (_ & ? & _).
    + rewrite Hnv. rewrite HY, fmap_app in Hnext. by apply Forall_app in Hnext as [? _].
  - apply db_eq_reads. rewrite with_revisions_eq. by transitivity t.
  - eapply dirties_unique; [exact Hdv|]. apply Hwf0.
Qed.

End Snapshots.
