(* ===== verification/StateDBCommit.v ===== *)
(** [x/evm/statedb]: [Commit] brings the keeper to what the reads of the
    transaction show.

    [KeeperLaws] states what [StateDB] needs of the keeper; [x/evm/keeper]
    provides it.  The proof follows the journal: an object that a journal entry
    will undo is in the map, and a slot that an entry will write back has been
    read from the keeper before, so that a dirty slot always has its committed
    value next to it. *)

From stdpp Require Import base list gmap strings sorting relations.
From Stdlib Require Import ZArith Lia.
From S2P Require Import Prelude KVStore StateDB StateDBProps.
Open Scope Z_scope.
Open Scope go_scope.

(** * The contract of the keeper

    Addresses have 20 bytes; keys, values and hashes have 32.  [valid] is the
    keeper's own invariant, and [holds_code k a] says that the account at [a] can
    store a code hash.  Code is stored under its hash; empty code is not stored. *)
Class KeeperLaws (K : Type) {KP : Keeper K} {EH : EthHash} := {
  valid : K -> Prop;
  holds_code : K -> bytes -> Prop;
  account_hash : forall k a acc, valid k -> GetAccount k a = Some acc ->
    length (default emptyCodeHash (CodeHash acc)) = 32%nat;
  state_length : forall k a key, valid k -> length (GetState_keeper k a key) = 32%nat;
  code_hash : forall k h c, valid k -> length h = 32%nat -> GetCode_keeper k h = Some c -> Keccak256Hash (Some c) = h /\ c <> [];
  set_account : forall k a n b h k', valid k -> length a = 20%nat -> length h = 32%nat ->
    SetAccount k a (mkAccount n (Some b) (Some h)) = (k', None) ->
    valid k' /\
    (exists h', GetAccount k' a = Some (mkAccount n (Some b) (Some h')) /\
       (h = emptyCodeHash \/ holds_code k a -> h' = h)) /\
    (forall c, c <> a -> GetAccount k' c = GetAccount k c) /\
    (forall c, c <> a -> holds_code k c -> holds_code k' c) /\
    (forall c key, GetState_keeper k' c key = GetState_keeper k c key) /\
    (forall h', GetCode_keeper k' h' = GetCode_keeper k h');
  set_state : forall k a key v, valid k -> length a = 20%nat -> length key = 32%nat -> length v = 32%nat ->
    is_Some (GetAccount k a) ->
    valid (SetState_keeper k a key v) /\
    (forall c, GetAccount (SetState_keeper k a key v) c = GetAccount k c) /\
    (forall c, holds_code k c -> holds_code (SetState_keeper k a key v) c) /\
    (forall c key', length c = 20%nat -> length key' = 32%nat ->
       GetState_keeper (SetState_keeper k a key v) c key' =
       if decide (c = a /\ key' = key) then v else GetState_keeper k c key') /\
    (forall h, GetCode_keeper (SetState_keeper k a key v) h = GetCode_keeper k h);
  set_code : forall k h c, valid k -> length h = 32%nat -> Keccak256Hash (Some c) = h ->
    valid (SetCode_keeper k h (Some c)) /\
    (forall a, GetAccount (SetCode_keeper k h (Some c)) a = GetAccount k a) /\
    (forall a, holds_code k a -> holds_code (SetCode_keeper k h (Some c)) a) /\
    (forall a key, GetState_keeper (SetCode_keeper k h (Some c)) a key = GetState_keeper k a key) /\
    (forall h', GetCode_keeper (SetCode_keeper k h (Some c)) h' =
       if decide (h' = h) then if decide (c = []) then None else Some c else GetCode_keeper k h');
  delete_account : forall k a k', valid k -> length a = 20%nat ->
    DeleteAccount k a = (k', None) ->
    valid k' /\ GetAccount k' a = None /\
    (forall key, length key = 32%nat -> GetState_keeper k' a key = zero_hash) /\
    (forall c, c <> a -> GetAccount k' c = GetAccount k c) /\
    (forall c, c <> a -> holds_code k c -> holds_code k' c) /\
    (forall c key, c <> a -> length c = 20%nat -> length key = 32%nat ->
       GetState_keeper k' c key = GetState_keeper k c key) /\
    (forall h, GetCode_keeper k' h = GetCode_keeper k h)
}.

(** * Transactions *)

(** The storage slots cached for each object. *)
Abbreviation cached := (gmap bytes (gset bytes)).

Section Transactions.
Context {K : Type} {KP : Keeper K} {EH : EthHash}.
Implicit Types s t : StateDB K.

(** Arguments have the sizes of [common.Address] and [common.Hash]. *)
Definition op_ok (o : op) : Prop :=
  match o with
  | OSetState a key value => length a = 20%nat /\ length key = 32%nat /\ length value = 32%nat
  | OGetState a key | OGetCommittedState a key => length a = 20%nat /\ length key = 32%nat
  | OCreateAccount a | OAddBalance a _ | OSubBalance a _ | OSetNonce a _ | OSetCode a _ | OSuicide a
  | OGetCode a | OLoad a => length a = 20%nat
  | _ => True
  end.

Inductive tx_step : StateDB K -> StateDB K -> Prop :=
| tx_op o s s' : op_ok o -> exec o s = (s', Ok tt) -> tx_step s s'
| tx_snapshot s : tx_step s (Snapshot s).1
| tx_revert id s s' : RevertToSnapshot id s = (s', Ok tt) -> tx_step s s'.

(** * The invariant *)

(** Two codes with the same hash. *)
Definition collides (c c' : bytes) : Prop := c' <> c /\ Keccak256Hash (Some c') = Keccak256Hash (Some c).

(** The keeper has the code [c] under [h], or a code that collides with it. *)
Definition has_code (k : K) (h c : bytes) : Prop :=
  GetCode_keeper k h = Some c \/ collides c (default [] (GetCode_keeper k h)).

(** The storage and the code of an object: what is cached from the keeper [k] is what
    the keeper has, a dirty slot has been read before, and the code has its hash. *)
Record sound (k : K) (o : stateObject) : Prop := mkSound {
  sound_address : length (so_address o) = 20%nat;
  sound_origin : forall key v, originStorage o !! key = Some v ->
    length key = 32%nat /\ v = GetState_keeper k (so_address o) key;
  sound_dirty : forall key v, dirtyStorage o !! key = Some v ->
    length v = 32%nat /\ is_Some (originStorage o !! key);
  sound_transient : transientStorage o = ∅;
  sound_code : forall c, so_code o = Some c -> Keccak256Hash (Some c) = BytesToHash (so_CodeHash o);
  sound_clean : forall c, dirtyCode o = false -> so_code o = Some c -> c <> [] -> has_code k (BytesToHash (so_CodeHash o)) c
}.

(** The account an entry is about. *)
Definition touches (e : JournalEntry) : option bytes :=
  match e with resetObjectChange p => Some (so_address p) | _ => Dirtied e end.

(** The slots cached for each object before the entry was made. *)
Definition before (e : JournalEntry) (m : cached) : cached :=
  match e with
  | createObjectChange a => delete a m
  | resetObjectChange p => <[so_address p := dom (originStorage p)]> m
  | _ => m
  end.

Definition entry_fits (k : K) (e : JournalEntry) (m : cached) : Prop :=
  (forall a, touches e = Some a -> is_Some (m !! a)) /\
  match e with
  | resetObjectChange p => sound k p
  | storageChange a key v => length v = 32%nat /\ exists O, m !! a = Some O /\ key ∈ O
  | codeChange _ prevcode prevhash => forall c, prevcode = Some c -> Keccak256Hash (Some c) = BytesToHash prevhash
  | _ => True
  end.

(** The entries, the last one first, against the objects' caches. *)
Fixpoint traced (k : K) (es : list JournalEntry) (m : cached) : Prop :=
  match es with
  | [] => True
  | e :: es => entry_fits k e m /\ traced k es (before e m)
  end.

Definition caches s : cached := (fun o => dom (originStorage o)) <$> stateObjects s.

Record kept (k : K) (es : list JournalEntry) s : Prop := mkKept {
  kept_keeper : keeper s = k;
  kept_objects : forall a o, stateObjects s !! a = Some o -> so_address o = a /\ sound k o;
  kept_traced : traced k es (caches s)
}.

(** No code is lost from [k] to [k']. *)
Definition code_kept (k k' : K) : Prop := forall h c, length h = 32%nat -> GetCode_keeper k h = Some c -> has_code k' h c.

(** An account after [Commit]: as before if it is not dirty; else destroyed, or with
    its nonce, balance and storage in the keeper, with its code under the code hash,
    and with the code hash if the account can hold one. *)
Definition persisted s (k' : K) `{!KeeperLaws K} (a : bytes) : Prop :=
  match dirties s !! a with
  | None => GetAccount k' a = GetAccount (keeper s) a /\
      forall key, length key = 32%nat -> GetState_keeper k' a key = GetState_keeper (keeper s) a key
  | Some _ =>
    if (HasSuicided a s).2 then
      GetAccount k' a = None /\ forall key, length key = 32%nat -> GetState_keeper k' a key = zero_hash
    else
      (exists h, GetAccount k' a = Some (mkAccount (GetNonce a s).2 (Some (GetBalance a s).2) (Some h)) /\
        ((GetCodeHash a s).2 = emptyCodeHash \/ holds_code (keeper s) a -> h = (GetCodeHash a s).2)) /\
      (forall c, (GetCode a s).2 = Some c -> Keccak256Hash (Some c) = (GetCodeHash a s).2 /\ (c <> [] -> has_code k' (GetCodeHash a s).2 c)) /\
      forall key, length key = 32%nat -> GetState_keeper k' a key = (GetState a key s).2
  end.

(** The error of a write of [Commit] that the keeper refused: the deletion of a
    destroyed account, or the account as last read. *)
Definition refused s `{!KeeperLaws K} (e : Z) : Prop :=
  exists k a, valid k /\ is_Some (dirties s !! a) /\
    if (HasSuicided a s).2 then (DeleteAccount k a).2 = Some e
    else (SetAccount k a (mkAccount (GetNonce a s).2 (Some (GetBalance a s).2) (Some (GetCodeHash a s).2))).2 = Some e.

End Transactions.

Section Invariant.
Context {K : Type} {KP : Keeper K} {EH : EthHash} {KL : KeeperLaws K}.
Implicit Types s t : StateDB K.
Implicit Types m : cached.

(** Caches grow. *)
Definition grown (m m' : cached) : Prop :=
  forall a O, m !! a = Some O -> exists O', m' !! a = Some O' /\ O ⊆ O'.

Lemma grown_before e m m' : grown m m' -> grown (before e m) (before e m').
Proof.
  intros H. destruct e; try done; intros a O; cbn [before].
  - intros [Hne HO]%lookup_delete_Some. destruct (H _ _ HO) as (O' & ? & ?). exists O'. by rewrite lookup_delete_ne.
  - intros [[<- <-]|[Hne HO]]%lookup_insert_Some.
    + eexists. by rewrite lookup_insert_eq.
    + destruct (H _ _ HO) as (O' & ? & ?). exists O'. by rewrite lookup_insert_ne.
Qed.

Lemma traced_grown k es : forall m m', grown m m' -> traced k es m -> traced k es m'.
Proof.
  induction es as [|e es IH]; intros m m' Hm; [done|]. cbn [traced]. intros [[Ht He] Hes]. split.
  - split.
    + intros a Ha. destruct (Ht a Ha) as [O HO]. destruct (Hm _ _ HO) as (O' & -> & _). done.
    + destruct e; try done. destruct He as (Hv & O & HO & Hk). destruct (Hm _ _ HO) as (O' & ? & ?).
      split; [done|]. exists O'. set_solver.
  - revert Hes. apply IH. by apply grown_before.
Qed.

(** An account that an entry is about has an object. *)
Lemma traced_live k es a : forall m, traced k es m ->
  Exists (fun e => touches e = Some a) es -> is_Some (m !! a).
Proof.
  induction es as [|e es IH]; intros m H Ha; [by inversion Ha|]. destruct H as [[Ht _] Hes].
  apply Exists_cons in Ha as [Ha|Ha]; [by apply Ht|]. destruct (IH _ Hes Ha) as [O HO].
  destruct e; try (by eexists); cbn [before] in HO.
  - apply lookup_delete_Some in HO as [_ ?]. by eexists.
  - apply lookup_insert_Some in HO as [[<- _]|[_ ?]]; [by apply Ht|by eexists].
Qed.

(** * Objects *)

Lemma sound_new k a acc : length a = 20%nat -> sound k (newObject a acc).
Proof. intros Ha. split; cbn; [done| | |done|done|done]; intros key v; by rewrite lookup_empty. Qed.

(** The code that is read has the hash of the object. *)
Lemma sound_Code k o : valid k -> sound k o ->
  sound k (obj_Code k o).1 /\ forall c, (obj_Code k o).2 = Some c -> Keccak256Hash (Some c) = BytesToHash (so_CodeHash o).
Proof.
  intros Hv Hs. pose proof Hs as [Ha Ho Hd Ht Hc Hcl]. unfold obj_Code. destruct (so_code o) as [c|] eqn:E.
  { split; [done|]. intros c' [= <-]. by apply Hc. }
  case_bool_decide; [by split|]. cbn [fst snd].
  assert (forall c, GetCode_keeper k (BytesToHash (so_CodeHash o)) = Some c -> Keccak256Hash (Some c) = BytesToHash (so_CodeHash o)) as Hk.
  { intros c Hk. by apply (code_hash k _ c Hv (length_BytesToHash _)). }
  split; [|done]. split; cbn; try done. intros c _ Hk'. by left.
Qed.

Lemma sound_Committed k o key :
  length key = 32%nat -> sound k o ->
  let r := obj_GetCommittedState k o key in
  sound k r.1 /\ r.2 = GetState_keeper k (so_address o) key /\ is_Some (originStorage r.1 !! key) /\
  so_address r.1 = so_address o /\ dom (originStorage o) ⊆ dom (originStorage r.1).
Proof.
  intros Hkey [Ha Ho Hd Ht Hc Hcl]. unfold obj_GetCommittedState. destruct (originStorage o !! key) as [v|] eqn:E; cbn [fst snd].
  - split_and!; [by split|by apply Ho|by eexists|done|done].
  - split_and!; [|done|cbn; rewrite lookup_insert_eq; by eexists|done|cbn; set_solver].
    split; cbn [cache_origin so_address originStorage dirtyStorage transientStorage]; try done.
    + intros key' v' [[<- <-]|[_ H]]%lookup_insert_Some; [done|by apply Ho].
    + intros key' v' H. destruct (Hd _ _ H) as [? [w Hw]]. split; [done|]. rewrite lookup_insert_is_Some'.
      right. by eexists.
Qed.

Lemma sound_State k o key :
  valid k -> length key = 32%nat -> sound k o ->
  let r := obj_GetState k o key in
  sound k r.1 /\ length r.2 = 32%nat /\ is_Some (originStorage r.1 !! key) /\
  so_address r.1 = so_address o /\ dom (originStorage o) ⊆ dom (originStorage r.1).
Proof.
  intros Hk Hkey Hs. unfold obj_GetState. destruct (dirtyStorage o !! key) as [v|] eqn:E; cbn [fst snd].
  - destruct (sound_dirty _ _ Hs _ _ E) as [? ?]. by split_and!.
  - destruct (sound_Committed k o key Hkey Hs) as (? & -> & ? & ? & ?). split_and!; try done. by apply state_length.
Qed.

Lemma sound_setState k o key v :
  length v = 32%nat -> is_Some (originStorage o !! key) -> sound k o -> sound k (setState key v o).
Proof.
  intros Hv Hkey [Ha Ho Hd Ht Hc Hcl]. split; cbn [setState so_address originStorage dirtyStorage transientStorage]; try done.
  intros key' v' [[<- <-]|[_ H]]%lookup_insert_Some; [done|by apply Hd].
Qed.

(** * States *)

Definition good (k : K) s : Prop := kept k (reverse (entries s)) s.

Lemma kept_set k es o s :
  kept k es s -> sound k o ->
  (forall p, stateObjects s !! so_address o = Some p -> dom (originStorage p) ⊆ dom (originStorage o)) ->
  kept k es (setStateObject o s).
Proof.
  intros [Hk Ho Ht] Hs Hdom. split; [done| |].
  - intros a p. cbn. intros [[<- <-]|[_ H]]%lookup_insert_Some; [done|by apply Ho].
  - revert Ht. apply traced_grown. intros a O. unfold caches. cbn. rewrite !lookup_fmap.
    destruct (decide (so_address o = a)) as [<-|Hne].
    + rewrite lookup_insert_eq. destruct (stateObjects s !! so_address o) as [p|]; [|done]. cbn.
      intros [= <-]. eexists. split; [done|]. by apply Hdom.
    + rewrite lookup_insert_ne by done. intros ->. by eexists.
Qed.

Lemma caches_object s a o : stateObjects s !! a = Some o -> caches s !! a = Some (dom (originStorage o)).
Proof. intros H. unfold caches. by rewrite lookup_fmap, H. Qed.

Lemma good_append k e s :
  good k s -> entry_fits k e (caches s) -> before e (caches s) = caches s -> good k (append e s).
Proof.
  intros [Hk Ho Ht] He Hb. split; [done|done|]. cbn [append entries with_journal].
  rewrite reverse_snoc. cbn [traced]. change (caches (append e s)) with (caches s). by rewrite Hb.
Qed.

Lemma kept_get k es a s :
  length a = 20%nat -> kept k es s ->
  kept k es (getStateObject a s).1 /\ stateObjects (getStateObject a s).1 !! a = (getStateObject a s).2 /\
  entries (getStateObject a s).1 = entries s.
Proof.
  intros Ha H. unfold getStateObject. destruct (stateObjects s !! a) as [o|] eqn:E; [done|].
  destruct (GetAccount (keeper s) a) as [acc|]; cbn [fst snd]; [|done].
  split_and!; [|cbn; by rewrite lookup_insert_eq|done].
  apply kept_set; [done|by apply sound_new|]. cbn [newObject so_address]. by rewrite E.
Qed.

Lemma good_get k a s :
  length a = 20%nat -> good k s ->
  good k (getStateObject a s).1 /\ stateObjects (getStateObject a s).1 !! a = (getStateObject a s).2.
Proof. intros Ha H. unfold good. destruct (kept_get k _ a s Ha H) as (? & ? & ->). done. Qed.

(** An object that is changed without touching its storage. *)
Lemma good_update k a o p s :
  good k s -> stateObjects s !! a = Some p -> so_address o = so_address p -> sound k o ->
  dom (originStorage p) ⊆ dom (originStorage o) -> good k (setStateObject o s).
Proof.
  intros H Hp Ha Hs Hd. apply kept_set; [done|done|]. intros q. destruct (kept_objects _ _ _ H _ _ Hp) as [Hap _].
  rewrite Ha, Hap, Hp. by intros [= <-].
Qed.

Lemma caches_set o s :
  caches (setStateObject o s) = <[so_address o := dom (originStorage o)]> (caches s).
Proof. unfold caches. cbn. by rewrite fmap_insert. Qed.

(** * Operations *)

Lemma good_create k a s :
  length a = 20%nat -> good k s ->
  good k (createObject a s).1.1 /\
  stateObjects (createObject a s).1.1 !! a = Some (createObject a s).1.2 /\
  so_address (createObject a s).1.2 = a.
Proof.
  intros Ha H. destruct (good_get k a s Ha H) as [[Hk Ho Ht] Hp]. unfold createObject.
  destruct (getStateObject a s) as [s1 prev]. cbn [fst snd] in *.
  set (e := match prev with None => _ | Some p => _ end).
  split_and!; [|cbn; by rewrite lookup_insert_eq|done]. split; [done| |].
  - intros b p. cbn. intros [[<- <-]|[_ Hb]]%lookup_insert_Some; [|by apply Ho]. split; [done|by apply sound_new].
  - cbn [setStateObject append with_objects with_journal entries]. rewrite reverse_snoc. cbn [traced].
    rewrite caches_set. cbn [newObject so_address originStorage].
    change (caches (append e s1)) with (caches s1). subst e. destruct prev as [p|]; cbn [before].
    + destruct (Ho _ _ Hp) as [Hap Hsp]. rewrite Hap, insert_insert_eq.
      rewrite (insert_id (caches s1) a (dom (originStorage p))) by (by apply caches_object).
      split; [split; [|done]|done]. cbn. intros b [= <-]. rewrite Hap, lookup_insert_eq. by eexists.
    + rewrite delete_insert_eq, delete_id by (unfold caches; by rewrite lookup_fmap, Hp).
      split; [split; [|done]|done]. cbn. intros b [= <-]. rewrite lookup_insert_eq. by eexists.
Qed.

Lemma good_getOrNew k a s :
  length a = 20%nat -> good k s ->
  good k (getOrNewStateObject a s).1 /\
  stateObjects (getOrNewStateObject a s).1 !! a = Some (getOrNewStateObject a s).2.
Proof.
  intros Ha H. destruct (good_get k a s Ha H) as [H1 Hp]. unfold getOrNewStateObject.
  destruct (getStateObject a s) as [s1 [o|]]; cbn [fst snd] in *; [done|].
  destruct (good_create k a s1 Ha H1) as (H2 & Ho & _). by destruct (createObject a s1) as [[s2 o] p].
Qed.

Lemma good_change k a e o o' s :
  good k s -> stateObjects s !! a = Some o -> entry_fits k e (caches s) -> before e (caches s) = caches s ->
  so_address o' = a -> sound k o' -> dom (originStorage o) ⊆ dom (originStorage o') ->
  good k (setStateObject o' (append e s)).
Proof.
  intros H Ho He Hb Ha Hs Hd. destruct (kept_objects _ _ _ H _ _ Ho) as [Hao _].
  apply (good_update k a o' o); [by apply good_append|done|congruence|done|done].
Qed.

(** Entries that do not concern storage. *)
Definition plain (e : JournalEntry) : Prop :=
  match e with createObjectChange _ | resetObjectChange _ | storageChange _ _ _ | codeChange _ _ _ => False | _ => True end.

Lemma plain_fits k e s :
  plain e -> (forall a, Dirtied e = Some a -> is_Some (stateObjects s !! a)) ->
  entry_fits k e (caches s) /\ before e (caches s) = caches s.
Proof.
  intros Hp He. assert (touches e = Dirtied e) as Ht by (by destruct e). split; [split|].
  - intros a. rewrite Ht. intros [o Ho]%He. rewrite (caches_object _ _ _ Ho). by eexists.
  - by destruct e.
  - by destruct e.
Qed.

Lemma good_plain k a e (f : stateObject -> stateObject) o s :
  good k s -> stateObjects s !! a = Some o -> plain e -> Dirtied e = Some (so_address o) ->
  so_address (f o) = so_address o -> sound k (f o) -> originStorage (f o) = originStorage o ->
  good k (setStateObject (f o) (append e s)).
Proof.
  intros H Ho Hp He Hf Hs Hd. destruct (kept_objects _ _ _ H _ _ Ho) as [Ha _].
  destruct (plain_fits k e s Hp) as [? ?].
  { intros b. rewrite He, Ha. intros [= <-]. by eexists. }
  apply (good_change k a e o); try done; [congruence|by rewrite Hd].
Qed.

(** What the invariant looks at. *)
Lemma good_same k s s' :
  good k s -> keeper s' = keeper s -> stateObjects s' = stateObjects s -> entries s' = entries s -> good k s'.
Proof.
  intros [Hk Ho Ht] H1 H2 H3. unfold good, caches. split; [congruence|by rewrite H2|]. unfold caches. by rewrite H2, H3.
Qed.

Lemma good_other k e s s' :
  good k s -> plain e -> Dirtied e = None ->
  keeper s' = keeper s -> stateObjects s' = stateObjects s -> entries s' = entries s ++ [e] -> good k s'.
Proof.
  intros H Hp He H1 H2 H3. destruct (plain_fits k e s Hp) as [? ?]; [by rewrite He|].
  by apply (good_same k (append e s)); [apply good_append|..].
Qed.

Lemma good_SetBalance k a n s (upd : Z -> Z) :
  length a = 20%nat -> good k s ->
  good k (let '(s, o) := getOrNewStateObject a s in
          if n =? 0 then s else obj_SetBalance (upd (so_Balance o)) o s).
Proof.
  intros Ha H. destruct (good_getOrNew k a s Ha H) as [H1 Ho]. destruct (getOrNewStateObject a s) as [s1 o].
  cbn [fst snd] in *. destruct (n =? 0); [done|]. destruct (kept_objects _ _ _ H1 _ _ Ho) as [_ []].
  by apply (good_plain k a _ (setBalance _)).
Qed.

Lemma good_CreateAccount k a s : length a = 20%nat -> good k s -> good k (CreateAccount a s).
Proof.
  intros Ha H. destruct (good_create k a s Ha H) as (H1 & Ho & Hao). unfold CreateAccount.
  destruct (createObject a s) as [[s1 o] [p|]]; cbn [fst snd] in *; [|done].
  destruct (kept_objects _ _ _ H1 _ _ Ho) as [_ []]. by apply (good_update k a _ o).
Qed.

Lemma good_SetNonce k a n s : length a = 20%nat -> good k s -> good k (SetNonce a n s).
Proof.
  intros Ha H. destruct (good_getOrNew k a s Ha H) as [H1 Ho]. unfold SetNonce.
  destruct (getOrNewStateObject a s) as [s1 o]. cbn [fst snd] in *.
  destruct (kept_objects _ _ _ H1 _ _ Ho) as [_ []]. by apply (good_plain k a _ (setNonce n)).
Qed.

Lemma good_SetCode k a c s : valid k -> length a = 20%nat -> good k s -> good k (SetCode a c s).
Proof.
  intros Hv Ha H. destruct (good_getOrNew k a s Ha H) as [H1 Ho]. unfold SetCode.
  destruct (getOrNewStateObject a s) as [s1 o]. cbn [fst snd] in *.
  destruct (kept_objects _ _ _ H1 _ _ Ho) as [Hao Hs]. rewrite (kept_keeper _ _ _ H1).
  assert (so_address (obj_Code k o).1 = so_address o /\ originStorage (obj_Code k o).1 = originStorage o /\
    so_CodeHash (obj_Code k o).1 = so_CodeHash o) as (Ea & Es & Eh).
  { unfold obj_Code. destruct (so_code o); [done|]. by case_bool_decide. }
  destruct (sound_Code k o Hv Hs) as [[] Hcode]. destruct (obj_Code k o) as [o1 pc]. cbn [fst snd] in *.
  apply (good_change k a _ o); [done|done| |done|cbn; congruence| |cbn; by rewrite Es].
  - split; cbn [touches Dirtied]; [|by rewrite Eh]. intros b [= <-]. rewrite Ea, Hao, (caches_object _ _ _ Ho). by eexists.
  - split; cbn; try done. intros c' ->. by rewrite BytesToHash_32 by apply length_Keccak256Hash.
Qed.

Lemma good_SetState k a key v s :
  valid k -> length a = 20%nat -> length key = 32%nat -> length v = 32%nat -> good k s -> good k (SetState a key v s).
Proof.
  intros Hvk Ha Hkey Hv H. destruct (good_getOrNew k a s Ha H) as [H1 Ho]. unfold SetState.
  destruct (getOrNewStateObject a s) as [s1 o]. cbn [fst snd] in *.
  destruct (kept_objects _ _ _ H1 _ _ Ho) as [Hao Hs]. rewrite (kept_keeper _ _ _ H1).
  destruct (sound_State k o key Hvk Hkey Hs) as (Hs1 & Hl & Hin & Ea & Hd).
  destruct (obj_GetState k o key) as [o1 prev]. cbn [fst snd] in *.
  pose proof (good_update k a o1 o s1 H1 Ho Ea Hs1 Hd) as H2. case_bool_decide; [done|].
  assert (stateObjects (setStateObject o1 s1) !! a = Some o1) as Ho1 by (cbn; by rewrite Ea, Hao, lookup_insert_eq).
  apply (good_change k a _ o1); try done; [|cbn; congruence|by apply sound_setState].
  assert (caches (setStateObject o1 s1) !! so_address o1 = Some (dom (originStorage o1))) as Hc.
  { rewrite Ea, Hao. by apply caches_object. }
  split; cbn [touches Dirtied].
  - intros b [= <-]. rewrite Hc. by eexists.
  - split; [done|]. eexists. split; [done|]. by apply elem_of_dom.
Qed.

Lemma good_Suicide k a s : length a = 20%nat -> good k s -> good k (Suicide a s).1.
Proof.
  intros Ha H. destruct (good_get k a s Ha H) as [H1 Ho]. unfold Suicide.
  destruct (getStateObject a s) as [s1 [o|]]; cbn [fst snd] in *; [|done].
  destruct (kept_objects _ _ _ H1 _ _ Ho) as [Hao []].
  apply (good_plain k a _ (fun o => setBalance 0 (set_suicided true o))); try done. cbn. congruence.
Qed.

Lemma good_read {A} k a (d : A) f s :
  length a = 20%nat -> good k s ->
  (forall o, sound k o -> sound k (f k o).1 /\ so_address (f k o).1 = so_address o /\
     dom (originStorage o) ⊆ dom (originStorage (f k o).1)) ->
  good k (read_object a d f s).1.
Proof.
  intros Ha H Hf. destruct (good_get k a s Ha H) as [H1 Ho]. unfold read_object.
  destruct (getStateObject a s) as [s1 [o|]]; cbn [fst snd] in *; [|done].
  destruct (kept_objects _ _ _ H1 _ _ Ho) as [Hao Hs]. rewrite (kept_keeper _ _ _ H1).
  destruct (Hf o Hs) as (? & ? & ?). destruct (f k o) as [o1 v]. by apply (good_update k a o1 o).
Qed.

Lemma good_AddSlot k a slot s s' : good k s -> AddSlotToAccessList a slot s = (s', Ok tt) -> good k s'.
Proof.
  intros H. unfold AddSlotToAccessList. destruct (AddSlot (access s) a slot) as [[[al am] sm]|]; [|done].
  intros [= <-]. assert (good k (with_access al s)) as H1 by (by apply (good_same k s)).
  destruct am, sm; repeat (apply good_append; [|split; [by intros b [=]|done]|done]); done.
Qed.

Lemma good_exec k o s s' :
  valid k -> op_ok o -> good k s -> exec o s = (s', Ok tt) -> good k s'.
Proof.
  intros Hv Hop H Hx. destruct o; cbn [exec op_ok] in *; try (injection Hx as <-).
  - by apply good_CreateAccount.
  - by apply (good_SetBalance k a n s (fun b => b + n)).
  - by apply (good_SetBalance k a n s (fun b => b - n)).
  - by apply good_SetNonce.
  - by apply good_SetCode.
  - destruct Hop as (? & ? & ?). by apply good_SetState.
  - by apply good_Suicide.
  - by apply (good_other k addLogChange s).
  - by apply (good_other k (refundChange (refund s)) s).
  - unfold SubRefund in Hx. cbv zeta in Hx. destruct (_ <? _); [done|]. injection Hx as <-.
    by apply (good_other k (refundChange (refund s)) s).
  - unfold AddAddressToAccessList. destruct (AddAddress (access s) a) as [al []].
    + by apply (good_other k (accessListAddAccountChange a) s).
    + by apply (good_same k s).
  - by apply (good_AddSlot k a slot s).
  - apply good_read; [done|done|]. intros o Ho. split; [by apply (sound_Code k o Hv)|]. unfold obj_Code.
    destruct (so_code o); [done|]. by case_bool_decide.
  - destruct Hop. apply good_read; [done|done|]. intros o Ho.
    by destruct (sound_State k o key Hv ltac:(done) Ho) as (? & _ & _ & ? & ?).
  - destruct Hop. apply good_read; [done|done|]. intros o Ho.
    by destruct (sound_Committed k o key ltac:(done) Ho) as (? & _ & _ & ? & ?).
  - by apply good_read.
Qed.

(** * Undoing *)

(** An entry that changes an object finds it in the map. *)
Lemma kept_revert_object k es a f s s' :
  kept k es s -> is_Some (caches s !! a) ->
  (forall o, stateObjects s !! a = Some o -> sound k o -> sound k (f o) /\ so_address (f o) = so_address o /\
     originStorage (f o) = originStorage o) ->
  revert_object a f s = Some s' -> kept k es s'.
Proof.
  intros H Hin Hf. unfold caches in Hin. rewrite lookup_fmap, fmap_is_Some in Hin. destruct Hin as [o Ho].
  unfold revert_object, getStateObject. rewrite Ho. intros [= <-].
  destruct (kept_objects _ _ _ H _ _ Ho) as [Ha Hs]. destruct (Hf o Ho Hs) as (? & Ea & Eo).
  apply kept_set; [done|done|]. intros p. rewrite Ea, Ha, Ho, Eo. by intros [= <-].
Qed.

Lemma kept_reset k es p s :
  keeper s = k -> (forall a o, stateObjects s !! a = Some o -> so_address o = a /\ sound k o) -> sound k p ->
  traced k es (<[so_address p := dom (originStorage p)]> (caches s)) -> kept k es (setStateObject p s).
Proof.
  intros Hk Ho Hp Ht. split; [done| |by rewrite caches_set].
  intros a o. cbn. intros [[<- <-]|[_ H]]%lookup_insert_Some; [done|by apply Ho].
Qed.

Lemma kept_other k es s s' :
  kept k es s -> keeper s' = keeper s -> stateObjects s' = stateObjects s -> kept k es s'.
Proof. intros [Hk Ho Ht] H1 H2. split; [congruence|by rewrite H2|]. unfold caches. by rewrite H2. Qed.

Lemma kept_revert_entry k e es s s' :
  kept k (e :: es) s -> revert_entry e s = Some s' -> kept k es s'.
Proof.
  intros [Hk Ho [[Htch He] Ht]] Hr. assert (plain e -> kept k es s) as Hp by (intros; split; [done|done|by destruct e]).
  destruct e; cbn [revert_entry touches Dirtied] in *;
    try (eapply kept_revert_object; [by apply Hp|by apply Htch| |exact Hr]; intros o _ []; by split_and!).
  - injection Hr as <-. split; [done| |unfold caches; cbn; by rewrite fmap_delete].
    intros b p. cbn. intros [_ Hb]%lookup_delete_Some. by apply Ho.
  - injection Hr as <-. by apply kept_reset.
  - specialize (Htch _ eq_refl). eapply (kept_revert_object k es account (fun o => setBalance prevbalance (set_suicided prev o)));
      [by apply Hp|done|intros o _ []; by split_and!|].
    unfold revert_object. unfold getStateObject in *. unfold caches in Htch. rewrite lookup_fmap, fmap_is_Some in Htch.
    destruct Htch as [o Hob]. by rewrite Hob in *.
  - destruct He as (Hv & O & HO & Hin). eapply kept_revert_object; [split; [done|done|exact Ht]|by eexists| |exact Hr].
    intros o Hob Hs. split_and!; [|done|done]. apply sound_setState; [done| |done].
    rewrite (caches_object _ _ _ Hob) in HO. injection HO as <-. by apply elem_of_dom.
  - eapply kept_revert_object; [split; [done|done|exact Ht]|by apply Htch| |exact Hr]. intros o _ []. split_and!; [|done|done].
    split; cbn; try done. intros c Hc. rewrite (He c Hc). by rewrite (BytesToHash_32 (BytesToHash _)) by apply length_BytesToHash.
  - injection Hr as <-. by apply (kept_other k es s); [apply Hp|..].
  - destruct (logs s); [done|]. injection Hr as <-. by apply (kept_other k es s); [apply Hp|..].
  - injection Hr as <-. by apply (kept_other k es s); [apply Hp|..].
  - destruct (DeleteSlot _ _ _) as [al|]; [|done]. cbn in Hr. injection Hr as <-.
    by apply (kept_other k es s); [apply Hp|..].
Qed.

Lemma kept_revert_entries k es es' : forall s s',
  kept k (es ++ es') s -> revert_entries es s = Some s' -> kept k es' s'.
Proof.
  induction es as [|e es IH]; intros s s' H Hr; cbn [app revert_entries] in *; [by injection Hr as <-|].
  destruct (revert_entry e s) as [s1|] eqn:E; [|done]. cbn in Hr.
  eapply IH; [|exact Hr]. eapply (kept_other _ _ s1); [by eapply kept_revert_entry|done|done].
Qed.

Lemma good_revert k id s s' :
  wf s -> good k s -> RevertToSnapshot id s = (s', Ok tt) -> wf s' /\ good k s'.
Proof.
  intros Hwf H Hr. destruct (RevertToSnapshot_found _ _ _ Hr) as (R & n & Y & HR).
  rewrite (RevertToSnapshot_at _ _ _ _ _ Hwf HR) in Hr.
  destruct (journal_Revert (Z.to_nat n) s) as [v|] eqn:E; [|done]. injection Hr as <-.
  split; [by eapply revert_wf|]. destruct (journal_Revert_wf _ _ _ Hwf E) as (_ & _ & He & _).
  unfold good. cbn [entries with_revisions]. rewrite He. unfold journal_Revert in E.
  destruct (revert_entries _ s) as [u|] eqn:Eu; [|done]. cbn in E. injection E as <-.
  apply (kept_other k _ u); [|done|done]. eapply kept_revert_entries; [|exact Eu].
  rewrite <- reverse_app, take_drop. exact H.
Qed.

Lemma tx_keeps k s s' : valid k -> rtc tx_step s s' -> wf s -> good k s -> wf s' /\ good k s'.
Proof.
  intros Hv Hr. induction Hr as [|x y z Hxy _ IH]; intros Hwf H; [done|].
  assert (wf y /\ good k y) as [? ?]; [|by apply IH]. destruct Hxy as [o s s' Hop Ho|s|id s s' Hs].
  - split; [by destruct (fine_exec o s s' Ho Hwf)|by eapply good_exec].
  - split; [by apply snapshot_wf|by apply (good_same k s)].
  - by eapply good_revert.
Qed.

Lemma New_ok k cfg : valid k -> wf (New k cfg) /\ good k (New k cfg).
Proof.
  intros Hv. split.
  - split; [split| | | |]; try constructor.
    + unfold object_at in H. cbn [New stateObjects keeper] in H. rewrite lookup_empty in H.
      by apply fmap_Some in H as (acc & _ & ->).
    + unfold object_at in H. cbn [New stateObjects keeper] in H. rewrite lookup_empty in H.
      apply fmap_Some in H as (acc & Hacc & ->). by apply (account_hash k a).
    + intros a acc. by apply account_hash.
  - split; [done| |done]. intros a o. cbn. by rewrite lookup_empty.
Qed.

(** * Commit *)

Lemma dirty_live k s a n : wf s -> good k s -> dirties s !! a = Some n -> is_Some (stateObjects s !! a).
Proof.
  intros Hwf H Hd. rewrite (wf_dirties _ Hwf a) in Hd. destruct (Z.eqb_spec (dirt a (entries s)) 0) as [|Hne]; [done|].
  assert (is_Some (caches s !! a)) as Hl; [|unfold caches in Hl; by rewrite lookup_fmap, fmap_is_Some in Hl].
  eapply traced_live; [exact (kept_traced _ _ _ H)|]. apply Exists_exists. unfold dirt in Hne.
  destruct (filter (fun e => Dirtied e = Some a) (entries s)) as [|e l] eqn:E; [done|].
  assert (e ∈ filter (fun e => Dirtied e = Some a) (entries s)) as He by (rewrite E; by left).
  apply list_elem_of_filter in He as [He1 He2]. exists e. split; [by apply elem_of_reverse|].
  by destruct e.
Qed.

(** Between two keeper states: everything outside [a] is the same. *)
Definition only_at (a : bytes) (k k' : K) : Prop :=
  (forall c, c <> a -> GetAccount k' c = GetAccount k c) /\
  (forall c, c <> a -> holds_code k c -> holds_code k' c) /\
  (forall c key, c <> a -> length c = 20%nat -> length key = 32%nat ->
     GetState_keeper k' c key = GetState_keeper k c key) /\
  code_kept k k'.

Lemma has_code_hash k h c : c <> [] ->
  has_code k h c <-> Keccak256Hash (Some (default [] (GetCode_keeper k h))) = Keccak256Hash (Some c).
Proof.
  intros Hc. unfold has_code, collides. destruct (GetCode_keeper k h) as [c'|]; cbn [default]; [|naive_solver].
  destruct (decide (c' = c)) as [->|]; naive_solver.
Qed.

Lemma has_code_grows k k' h c : valid k -> valid k' -> code_kept k k' -> length h = 32%nat -> c <> [] ->
  Keccak256Hash (Some c) = h -> has_code k h c -> has_code k' h c.
Proof.
  intros Hv Hv' Hk Hl Hne Hc. rewrite !has_code_hash by done. rewrite Hc. destruct (GetCode_keeper k h) as [c1|] eqn:E1; intros H1.
  - destruct (code_hash k h c1 Hv Hl E1) as [Hc1 Hn1]. specialize (Hk h c1 Hl E1). by rewrite has_code_hash, Hc1 in Hk by done.
  - destruct (GetCode_keeper k' h) as [c2|] eqn:E2; [|done]. by apply (code_hash k' h c2).
Qed.

Lemma code_kept_same k k' : (forall h, GetCode_keeper k' h = GetCode_keeper k h) -> code_kept k k'.
Proof. intros H h c _ Hc. left. by rewrite H. Qed.

Lemma code_kept_trans k1 k2 k3 : valid k1 -> valid k2 -> valid k3 -> code_kept k1 k2 -> code_kept k2 k3 -> code_kept k1 k3.
Proof.
  intros V1 V2 V3 H1 H2 h c Hl Hc. destruct (code_hash k1 h c V1 Hl Hc).
  apply (has_code_grows k2); try done. by apply H1.
Qed.

Definition slots_done (a : bytes) (d : gmap bytes bytes) (keys : list bytes) (k k' : K) : Prop :=
  valid k' /\ (forall c, GetAccount k' c = GetAccount k c) /\ (forall c, holds_code k c -> holds_code k' c) /\
  (forall h, GetCode_keeper k' h = GetCode_keeper k h) /\
  (forall c key, length c = 20%nat -> length key = 32%nat ->
     GetState_keeper k' c key =
     if decide (c = a /\ key ∈ keys) then default (GetState_keeper k a key) (d !! key) else GetState_keeper k c key).

(** The slots of an object as the loop of [Commit] finds them. *)
Record ready (k : K) (o : stateObject) : Prop := mkReady {
  ready_valid : valid k;
  ready_account : is_Some (GetAccount k (so_address o));
  ready_address : length (so_address o) = 20%nat;
  ready_dirty : forall key v, dirtyStorage o !! key = Some v -> length v = 32%nat /\ length key = 32%nat
}.

Lemma commit_slot_spec k o key :
  ready k o -> transientStorage o !! key = None ->
  (is_Some (dirtyStorage o !! key) -> originStorage o !! key = Some (GetState_keeper k (so_address o) key)) ->
  let r := commit_slot k o key in
  slots_done (so_address o) (dirtyStorage o) [key] k r.1 /\ ready r.1 r.2 /\
  so_address r.2 = so_address o /\ dirtyStorage r.2 = dirtyStorage o /\ originStorage r.2 = originStorage o /\
  (forall key', key' <> key -> transientStorage r.2 !! key' = transientStorage o !! key').
Proof.
  intros Hr Ht Ho. pose proof Hr as [Hv Hacc Ha Hd]. unfold commit_slot, slots_done. rewrite Ht.
  destruct (dirtyStorage o !! key) as [v|] eqn:E; cbn [fst snd].
  2:{ split_and!; try done. intros c key' _ _. case_decide as H; [|done].
      destruct H as [-> ->%list_elem_of_singleton]. by rewrite E. }
  rewrite Ho by (by eexists). cbn [default]. case_bool_decide as Hskip; cbn [fst snd].
  - split_and!; try done. intros c key' _ _. case_decide as H; [|done].
    destruct H as [-> ->%list_elem_of_singleton]. by rewrite E, Hskip.
  - destruct (Hd _ _ E) as [Hlv Hlk]. destruct (set_state k (so_address o) key v Hv Ha Hlk Hlv Hacc) as (Hv' & Ha' & Hh' & Hs' & Hc').
    split_and!; try done.
    + intros c key' Hc Hk. rewrite Hs' by done.
      repeat case_decide; set_unfold; destruct_and?; subst; try done; [by rewrite E|naive_solver|naive_solver].
    + split; cbn; [done|by rewrite Ha'|done|done].
    + intros key' Hne. cbn. by rewrite lookup_insert_ne.
Qed.

Lemma commit_slots_spec (keys : list bytes) : forall k o,
  NoDup keys -> ready k o ->
  (forall key, key ∈ keys -> transientStorage o !! key = None /\
     (is_Some (dirtyStorage o !! key) -> originStorage o !! key = Some (GetState_keeper k (so_address o) key))) ->
  Forall (fun key => length key = 32%nat) keys ->
  let r := foldl (fun '(k, o) key => commit_slot k o key) (k, o) keys in
  slots_done (so_address o) (dirtyStorage o) keys k r.1 /\ so_address r.2 = so_address o.
Proof.
  induction keys as [|key keys IH]; intros k o Hnd Hr Hkeys Hl.
  { cbn. split; [|done]. destruct Hr. split_and!; try done. intros c key _ _. case_decide as H; [|done].
    destruct H as [_ H]. by apply elem_of_nil in H. }
  apply NoDup_cons in Hnd as [Hnk Hnd]. apply Forall_cons in Hl as [Hlk Hl].
  destruct (Hkeys key ltac:(by left)) as [Ht Ho].
  destruct (commit_slot_spec k o key Hr Ht Ho) as ((Hv1 & Ha1 & Hh1 & Hc1 & Hs1) & Hr1 & Ea & Ed & Eo & Et).
  cbn [foldl]. destruct (commit_slot k o key) as [k1 o1]. cbn [fst snd] in *.
  destruct (IH k1 o1 Hnd Hr1) as ((Hv2 & Ha2 & Hh2 & Hc2 & Hs2) & Ea2); [|done|].
  { intros key' Hin. assert (key' <> key) as Hne by (intros ->; done).
    destruct (Hkeys key' ltac:(by right)) as [Ht' Ho']. rewrite Et, Ed, Eo, Ea by done. split; [done|].
    intros Hd. rewrite (Ho' Hd). f_equal. destruct Hr. rewrite Hs1; [|done|by apply (proj1 (Forall_forall _ _) Hl)].
    rewrite decide_False; [done|]. intros [_ ?%list_elem_of_singleton]. done. }
  split; [|congruence]. rewrite Ea, Ed in Hs2. split_and!; [done|by intros; rewrite Ha2|by auto|by intros; rewrite Hc2|].
  intros c key' Hc Hk'. destruct Hr as [_ _ Hla _]. rewrite Hs2, !Hs1 by done.
  destruct (decide (c = so_address o /\ key' ∈ keys)) as [[-> Hin]|Hn].
  - rewrite decide_False by (by intros [_ ->%list_elem_of_singleton]).
    by rewrite decide_True by (split; [done|by right]).
  - destruct (decide (c = so_address o /\ key' ∈ [key])) as [[-> ->%list_elem_of_singleton]|Hn'].
    + by rewrite decide_True by (split; [done|by left]).
    + rewrite decide_False; [done|]. intros [-> [->|Hin]%elem_of_cons]; [|by apply Hn].
      apply Hn'. split; [done|by left].
Qed.

(** What [Commit] leaves of an object [o] that it found over the keeper [k]. *)
Definition committed (k : K) (o : stateObject) (k' : K) : Prop :=
  let a := so_address o in
  if suicided o then
    GetAccount k' a = None /\ forall key, length key = 32%nat -> GetState_keeper k' a key = zero_hash
  else
    (exists h, GetAccount k' a = Some (mkAccount (so_Nonce o) (Some (so_Balance o)) (Some h)) /\
       (so_CodeHash o = emptyCodeHash \/ holds_code k a -> h = so_CodeHash o)) /\
    (forall c, (obj_Code k o).2 = Some c -> Keccak256Hash (Some c) = so_CodeHash o /\ (c <> [] -> has_code k' (so_CodeHash o) c)) /\
    forall key, length key = 32%nat -> GetState_keeper k' a key = state_view k o key.

(** The keeper refused to write [o]. *)
Definition refused_object (o : stateObject) (e : Z) : Prop :=
  exists k, valid k /\
    if suicided o then (DeleteAccount k (so_address o)).2 = Some e
    else (SetAccount k (so_address o) (mkAccount (so_Nonce o) (Some (so_Balance o)) (Some (so_CodeHash o)))).2 = Some e.

Lemma sorted_keys_perm {A} (m : gmap bytes A) :
  NoDup (sorted_keys m) /\ forall key, key ∈ sorted_keys m <-> is_Some (m !! key).
Proof.
  unfold sorted_keys. pose proof (merge_sort_Permutation bytes_le (map fst (map_to_list m))) as Hp. split.
  - rewrite Hp. apply NoDup_fst_map_to_list.
  - intros key. rewrite Hp. change (map fst) with (fmap (M := list) (@fst bytes A)). rewrite list_elem_of_fmap. split.
    + intros ([x v] & -> & H). apply elem_of_map_to_list in H. by eexists.
    + intros [v H]. exists (key, v). split; [done|]. by apply elem_of_map_to_list.
Qed.

(** Writing code under its hash loses none, and the code is there. *)
Lemma set_code_kept k h c : valid k -> length h = 32%nat -> Keccak256Hash (Some c) = h ->
  code_kept k (SetCode_keeper k h (Some c)) /\ (c <> [] -> has_code (SetCode_keeper k h (Some c)) h c).
Proof.
  intros Hv Hl Hc. destruct (set_code k h c Hv Hl Hc) as (_ & _ & _ & _ & Hs). split.
  - intros h' c' Hl' Hg. destruct (code_hash k h' c' Hv Hl' Hg) as [Hh Hne]. apply has_code_hash; [done|]. rewrite Hs.
    destruct (decide (h' = h)) as [->|]; [|by rewrite Hg]. rewrite Hh, <- Hc. by destruct (decide (c = [])) as [->|].
  - intros Hne. left. by rewrite Hs, decide_True, decide_False.
Qed.

Lemma commit_code_spec k o :
  valid k -> sound k o -> length (so_CodeHash o) = 32%nat ->
  let k' := if bool_decide (is_Some (so_code o)) && dirtyCode o then SetCode_keeper k (so_CodeHash o) (so_code o) else k in
  valid k' /\ (forall a, GetAccount k' a = GetAccount k a) /\ (forall a, holds_code k a -> holds_code k' a) /\
  (forall a key, GetState_keeper k' a key = GetState_keeper k a key) /\ code_kept k k' /\
  forall c, (obj_Code k o).2 = Some c -> Keccak256Hash (Some c) = so_CodeHash o /\ (c <> [] -> has_code k' (so_CodeHash o) c).
Proof.
  intros Hv Hs Hl. destruct (sound_Code k o Hv Hs) as [_ Hh]. rewrite BytesToHash_32 in Hh by done. revert Hh.
  destruct Hs as [_ _ _ _ Hc Hcl]. rewrite BytesToHash_32 in Hc, Hcl by done. unfold obj_Code. destruct (so_code o) as [c|].
  - rewrite bool_decide_true by done. intros _. specialize (Hc c eq_refl). cbn [andb snd]. destruct (dirtyCode o).
    + destruct (set_code k _ c Hv Hl Hc) as (? & ? & ? & ? & _). destruct (set_code_kept k _ c Hv Hl Hc) as [? ?].
      split_and!; try done. by intros c' [= <-].
    + split_and!; try done; [by apply code_kept_same|]. intros c' [= <-]. split; [done|by apply Hcl].
  - rewrite (bool_decide_false (is_Some None)) by (by intros [? ?]). cbn [andb]. intros Hh. split_and!; try done; [by apply code_kept_same|].
    intros c E. split; [by apply Hh|]. revert E. case_bool_decide; [done|]. cbn [snd]. rewrite BytesToHash_32 by done. by left.
Qed.

Lemma commit_object_spec k o :
  valid k -> sound k o -> length (so_CodeHash o) = 32%nat ->
  match commit_object k o with
  | (k', o', None) => valid k' /\ so_address o' = so_address o /\ only_at (so_address o) k k' /\ committed k o k'
  | (_, _, Some e) => refused_object o e
  end.
Proof.
  intros Hv Hs Hl. pose proof Hs as [Ha Ho Hd Ht _ _]. unfold commit_object, committed, refused_object. destruct (suicided o).
  { destruct (DeleteAccount k (so_address o)) as [k' [e|]] eqn:E; [exists k; by rewrite E|].
    destruct (delete_account k (so_address o) k' Hv Ha E) as (? & ? & ? & ? & ? & ? & ?). split_and!; try done. split_and!; try done.
    by apply code_kept_same. }
  destruct (commit_code_spec k o Hv Hs Hl) as (Hv1 & Ha1 & Hh1 & Hs1 & Hk1 & Hc1). set (k1 := if _ : bool then _ else _) in *.
  destruct (SetAccount k1 (so_address o) _) as [k2 [e|]] eqn:E; [exists k1; by rewrite E|].
  destruct (set_account _ _ _ _ _ _ Hv1 Ha Hl E) as (Hv2 & (h & Hacc & Hh) & Ha2 & Hh2 & Hs2 & Hk2).
  destruct (sorted_keys_perm (dirtyStorage o)) as [Hnd Hkeys].
  destruct (commit_slots_spec (sorted_keys (dirtyStorage o)) k2 o Hnd) as [(Hv3 & Ha3 & Hh3 & Hk3 & Hs3) Ea].
  - split; [done|by eexists|done|]. intros key v Hk. destruct (Hd _ _ Hk) as [? [w Hw]]. by destruct (Ho _ _ Hw).
  - intros key [v Hk]%Hkeys. rewrite Ht, lookup_empty. split; [done|]. intros _.
    destruct (Hd _ _ Hk) as [_ [w Hw]]. destruct (Ho _ _ Hw) as [_ ->]. by rewrite Hw, Hs2, Hs1.
  - apply Forall_forall. intros key [v Hk]%Hkeys. destruct (Hd _ _ Hk) as [_ [w Hw]]. by destruct (Ho _ _ Hw).
  - destruct (foldl _ _ _) as [k3 o3]. cbn [fst snd] in *. assert (code_kept k1 k3) as Hk13 by (apply code_kept_same; intros; by rewrite Hk3, Hk2).
    split; [done|]. split; [done|]. split; [split_and!|split_and!].
    + intros c Hc. by rewrite Ha3, Ha2, Ha1.
    + intros c Hc H. by apply Hh3, Hh2, Hh1.
    + intros c key Hc Hlc Hlk. rewrite Hs3, decide_False by (done || by intros [? _]). by rewrite Hs2, Hs1.
    + by apply (code_kept_trans _ k1).
    + exists h. rewrite Ha3. split; [done|]. intros [?|?]; apply Hh; [by left|right; by apply Hh1].
    + intros c Hc. destruct (Hc1 c Hc) as [? ?]. split; [done|]. intros Hne. by apply (has_code_grows k1); auto.
    + intros key Hlk. rewrite Hs3 by done. unfold state_view, committed_view.
      destruct (dirtyStorage o !! key) as [v|] eqn:Ed; [by rewrite decide_True by (split; [done|by apply Hkeys; eexists])|].
      rewrite decide_False; [|intros [_ []%Hkeys]; congruence]. rewrite Hs2, Hs1. cbn [default].
      destruct (originStorage o !! key) as [w|] eqn:Ew; [|done]. by destruct (Ho _ _ Ew) as [_ ->].
Qed.

(** Facts about an account carry over when only other accounts change. *)
Lemma sound_only_at a k k' o : valid k -> valid k' -> only_at a k k' -> so_address o <> a -> sound k o -> sound k' o.
Proof.
  intros Hv Hv' (_ & _ & Hst & Hk) Hne [Ha Ho Hd Ht Hc Hcl]. split; [done| |done|done|done|].
  - intros key v Hkv. destruct (Ho _ _ Hkv) as [? ->]. by rewrite Hst.
  - intros c Hdc Hcc Hne'. apply (has_code_grows k); try done; [apply length_BytesToHash|by apply Hc|by apply Hcl].
Qed.

Lemma committed_before a k k1 o k' : valid k -> valid k' -> only_at a k k1 -> code_kept k k' ->
  so_address o <> a -> sound k o -> length (so_CodeHash o) = 32%nat -> committed k1 o k' -> committed k o k'.
Proof.
  intros Hv Hv' (_ & Hh & Hst & _) Hk Hne Hso Hl. unfold committed. destruct (suicided o); [done|].
  intros ((h & ? & Hhash) & Hc & Hs). split_and!.
  - exists h. split; [done|]. intros [?|?]; apply Hhash; auto.
  - intros c Ec. destruct (sound_Code k o Hv Hso) as [_ Hcc]. specialize (Hcc c Ec). rewrite BytesToHash_32 in Hcc by done.
    split; [done|]. revert Ec Hc. unfold obj_Code. destruct (so_code o) as [c'|]; cbn [snd]; [intros [= ->] Hc; by apply Hc|].
    case_bool_decide; [done|]. cbn [snd]. rewrite BytesToHash_32 by done. intros Hg _ Hne'. by apply Hk.
  - intros key Hkey. rewrite Hs by done. unfold state_view, committed_view. rewrite Hst; [done|done|apply Hso|done].
Qed.

Lemma committed_after k o k1 k' :
  valid k1 -> valid k' -> code_kept k1 k' -> length (so_CodeHash o) = 32%nat ->
  GetAccount k' (so_address o) = GetAccount k1 (so_address o) ->
  (forall key, length key = 32%nat -> GetState_keeper k' (so_address o) key = GetState_keeper k1 (so_address o) key) ->
  committed k o k1 -> committed k o k'.
Proof.
  intros V1 V' Hk Hl Ha Hs. unfold committed. rewrite Ha. destruct (suicided o).
  - intros [? H]. split; [done|]. intros key Hkey. rewrite Hs by done. by apply H.
  - intros (? & Hc & H). split_and!; [done| |].
    + intros c Ec. destruct (Hc c Ec) as [? ?]. split; [done|]. intros Hne. apply (has_code_grows k1); auto.
    + intros key Hkey. rewrite Hs by done. by apply H.
Qed.

(** The objects a commit goes through. *)
Definition committable s (a : bytes) : Prop :=
  exists o, stateObjects s !! a = Some o /\ so_address o = a /\ sound (keeper s) o /\ length (so_CodeHash o) = 32%nat.

Lemma commit_all_spec l : forall s,
  NoDup l -> valid (keeper s) -> Forall (committable s) l ->
  match commit_all l s with
  | (s', Ok _) =>
    valid (keeper s') /\ code_kept (keeper s) (keeper s') /\
    (forall a o, a ∈ l -> stateObjects s !! a = Some o -> committed (keeper s) o (keeper s')) /\
    (forall c, c ∉ l -> length c = 20%nat -> GetAccount (keeper s') c = GetAccount (keeper s) c /\
       forall key, length key = 32%nat -> GetState_keeper (keeper s') c key = GetState_keeper (keeper s) c key)
  | (_, Err e) => exists a o, a ∈ l /\ stateObjects s !! a = Some o /\ refused_object o e
  | (_, Panic) => False
  end.
Proof.
  induction l as [|a l IH]; intros s Hnd Hv Hl.
  { cbn. split_and!; [done|by apply code_kept_same| |done]. intros a o Ha. by apply elem_of_nil in Ha. }
  apply NoDup_cons in Hnd as [Hal Hnd]. apply Forall_cons in Hl as [(o & Ho & Hao & Hs & Hlen) Hl].
  cbn [commit_all]. rewrite Ho. pose proof (commit_object_spec (keeper s) o Hv Hs Hlen) as Hc.
  destruct (commit_object (keeper s) o) as [[k1 o1] [e|]]; [exists a, o; split; [by left|done]|]. destruct Hc as (Hv1 & Ha1 & Hat & Hc).
  set (s1 := setStateObject o1 (with_keeper k1 s)).
  assert (forall b, b <> a -> stateObjects s1 !! b = stateObjects s !! b) as Hother.
  { intros b Hb. cbn. rewrite lookup_insert_ne; [done|congruence]. }
  rewrite Hao in Hat. assert (Forall (committable s1) l) as Hl1.
  { apply Forall_forall. intros b Hb. assert (b <> a) as Hne by (intros ->; done).
    destruct (proj1 (Forall_forall _ _) Hl b Hb) as (p & Hp & Hbp & Hsp & Hlp).
    exists p. rewrite Hother by done. split_and!; [done|done| |done]. eapply (sound_only_at a (keeper s)); [done|done|done|congruence|done]. }
  specialize (IH s1 Hnd Hv1 Hl1). destruct (commit_all l s1) as [s' [u|e|]]; [| |done].
  2:{ destruct IH as (b & p & Hb & Hp & Hr). exists b, p. rewrite Hother in Hp by (intros ->; done). by split; [right|]. }
  destruct IH as (Hv' & Hk' & Hin & Hout). pose proof Hs as [Hla _ _ _ _ _]. pose proof Hat as (HatA & _ & HatS & HatK).
  assert (code_kept (keeper s) (keeper s')) as Hkk by by apply (code_kept_trans _ k1). split_and!; [done|done| |].
  - intros b p [->|Hb]%elem_of_cons Hp.
    + rewrite Ho in Hp. injection Hp as <-. destruct (Hout a Hal) as [Hga Hgs]; [by rewrite <- Hao|].
      by eapply (committed_after _ _ k1); [..|rewrite Hao|rewrite Hao|].
    + assert (b <> a) as Hne by (intros ->; done).
      destruct (proj1 (Forall_forall _ _) Hl b Hb) as (p' & Hp' & Hbp & ? & ?). rewrite Hp in Hp'. injection Hp' as <-.
      eapply (committed_before a _ k1); try done; [congruence|]. apply (Hin b); [done|]. by rewrite Hother.
  - intros c [Hca Hcl]%not_elem_of_cons Hlc. destruct (Hout c Hcl Hlc) as [H1 H2]. split.
    + rewrite H1. by apply HatA.
    + intros key Hk. rewrite H2 by done. by apply HatS.
Qed.

(** The reads of an account with an object. *)
Lemma reads_object s a o :
  stateObjects s !! a = Some o -> length (so_CodeHash o) = 32%nat ->
  (HasSuicided a s).2 = suicided o /\ (GetNonce a s).2 = so_Nonce o /\ (GetBalance a s).2 = so_Balance o /\
  (GetCodeHash a s).2 = so_CodeHash o /\ (GetCode a s).2 = (obj_Code (keeper s) o).2 /\ forall key, (GetState a key s).2 = state_view (keeper s) o key.
Proof.
  intros Ho Hl. unfold HasSuicided, GetNonce, GetBalance, GetCodeHash, GetCode, GetState, read_object, getStateObject. rewrite Ho.
  split_and!; try done; [by apply BytesToHash_32|by destruct (obj_Code (keeper s) o)|].
  intros key. destruct (obj_State_spec (keeper s) o key) as [<- _].
  by destruct (obj_GetState (keeper s) o key).
Qed.

(** The end of a transaction.  From a fresh state database over a valid
    keeper, after any operations, snapshots and reverts, [Commit] does not panic.
    If it succeeds, the keeper is valid again and has lost no code, and every
    account that the journal has left dirty is in it as the transaction last read
    it: destroyed, or with nonce, balance, code, code hash (if the account can hold
    one) and every storage slot.  Accounts that are not dirty are unchanged.  If it
    fails, the keeper refused to write an account that is dirty. *)
Theorem commit_persists_reads k cfg s :
  valid k -> rtc tx_step (New k cfg) s ->
  match Commit s with
  | (s', Ok _) => valid (keeper s') /\ code_kept k (keeper s') /\ forall a, length a = 20%nat -> persisted s (keeper s') a
  | (_, Err e) => refused s e
  | (_, Panic) => False
  end.
Proof.
  intros Hv Hr. destruct (New_ok k cfg Hv) as [Hwf0 Hg0]. destruct (tx_keeps k _ _ Hv Hr Hwf0 Hg0) as [Hwf Hg].
  pose proof (kept_keeper _ _ _ Hg) as Hk. destruct (sorted_keys_perm (dirties s)) as [Hnd Hkeys].
  assert (forall a, a ∈ sorted_keys (dirties s) -> committable s a) as Hcom.
  { intros a [n Hd]%Hkeys. destruct (dirty_live k s a n Hwf Hg Hd) as [o Ho]. destruct (kept_objects _ _ _ Hg _ _ Ho) as [Ha Hs].
    exists o. rewrite Hk. split_and!; [done..|]. apply (core_objects _ (wf_core _ Hwf) a). unfold object_at. by rewrite Ho. }
  pose proof (commit_all_spec (sorted_keys (dirties s)) s Hnd ltac:(by rewrite Hk) ltac:(by apply Forall_forall)) as Hc. unfold Commit.
  destruct (commit_all _ s) as [s' [u|e|]]; [| |done].
  2:{ destruct Hc as (a & o & Ha & Ho & k1 & Hv1 & He). destruct (Hcom a Ha) as (o' & Ho' & Hao & _ & Hl).
      rewrite Ho in Ho'. injection Ho' as <-. exists k1, a. apply Hkeys in Ha.
      destruct (reads_object s a o Ho Hl) as (-> & -> & -> & -> & _ & _). by rewrite Hao in He. }
  destruct Hc as (Hv' & Hkk & Hin & Hout). split; [done|]. split; [by rewrite <- Hk|]. intros a Ha. unfold persisted.
  destruct (dirties s !! a) as [n|] eqn:Hd.
  - assert (a ∈ sorted_keys (dirties s)) as Hal by (apply Hkeys; by eexists). destruct (Hcom a Hal) as (o & Ho & Hao & Hs & Hl).
    destruct (reads_object s a o Ho Hl) as (-> & -> & -> & -> & -> & Hst).
    specialize (Hin a o Hal Ho). unfold committed in Hin. rewrite Hao in Hin.
    destruct (suicided o); [done|]. destruct Hin as (? & ? & Hin). split; [done|]. split; [done|].
    intros key Hkey. rewrite Hst. by apply Hin.
  - apply Hout; [|done]. intros [n Hn]%Hkeys. congruence.
Qed.

End Invariant.
