(* ===== verification/StateDBNested.v ===== *)
(** [x/evm/statedb]: a [Commit] inside a frame that is reverted afterwards.

    The precompiles that call other modules commit the state database in the middle of
    a transaction.  Reverting the frame later restores the journal and not the keeper;
    an account that only the frame has made dirty is not written again. *)

From stdpp Require Import base list gmap strings sorting relations.
From Stdlib Require Import ZArith Lia.
From S2P Require Import Prelude KVStore StateDB StateDBProps StateDBCommit.
Open Scope Z_scope.
Open Scope go_scope.

Section Nested.
Context {K : Type} {KP : Keeper K} {EH : EthHash} {KL : KeeperLaws K}.
Implicit Types s t : StateDB K.
Implicit Types m : cached.

(** * Sizes *)

(** What [Commit] needs of an object, whatever the keeper has. *)
Record shaped (o : stateObject) : Prop := mkShaped {
  shaped_address : length (so_address o) = 20%nat;
  shaped_dirty : forall key v, dirtyStorage o !! key = Some v -> length key = 32%nat /\ length v = 32%nat;
  shaped_code : forall c, so_code o = Some c -> Keccak256Hash (Some c) = BytesToHash (so_CodeHash o)
}.

Definition shaped_entry (e : JournalEntry) : Prop :=
  (forall a, Dirtied e = Some a -> length a = 20%nat) /\
  match e with
  | resetObjectChange p => shaped p
  | storageChange _ key v => length key = 32%nat /\ length v = 32%nat
  | codeChange _ prevcode prevhash => forall c, prevcode = Some c -> Keccak256Hash (Some c) = BytesToHash prevhash
  | _ => True
  end.

Definition shaped_objects s : Prop := forall a o, stateObjects s !! a = Some o -> so_address o = a /\ shaped o.

(** A step inside the frame of snapshot [id], with arguments of the right sizes. *)
Definition frame_tx (id : Z) s s' : Prop := frame_step id s s' /\ tx_step s s'.

Lemma sound_shaped k o : sound k o -> shaped o.
Proof.
  intros [Ha Ho Hd _ Hc _]. split; [done| |done]. intros key v H. destruct (Hd _ _ H) as [? [w Hw]].
  by destruct (Ho _ _ Hw).
Qed.

(** Caches hold slots of contracts. *)
Definition sized m : Prop := forall a O, m !! a = Some O -> length a = 20%nat /\ forall key, key ∈ O -> length key = 32%nat.

Lemma sound_sized k o : sound k o -> forall key, key ∈ dom (originStorage o) -> length key = 32%nat.
Proof. intros Hs key [v Hv]%elem_of_dom. by destruct (sound_origin _ _ Hs _ _ Hv). Qed.

Lemma sized_before k e m : entry_fits k e m -> sized m -> sized (before e m).
Proof.
  intros [_ He] Hm. destruct e; try done; intros a O; cbn [before].
  - intros [_ H]%lookup_delete_Some. by apply Hm.
  - intros [[<- <-]|[_ H]]%lookup_insert_Some; [|by apply Hm]. split; [apply He|by apply (sound_sized k)].
Qed.

Lemma traced_shaped k es : forall m, sized m -> traced k es m -> Forall shaped_entry es.
Proof.
  induction es as [|e es IH]; intros m Hm; [by constructor|]. cbn [traced]. intros [He Hes]. constructor; [|by eapply IH, Hes; eapply sized_before].
  destruct He as [Ht He]. split.
  - intros a Ha. destruct (Ht a) as [O HO]; [by destruct e|]. by apply (Hm a O).
  - destruct e; try done; [by eapply sound_shaped|]. destruct He as (Hv & O & HO & Hk). split; [by eapply Hm|done].
Qed.

Lemma good_shaped k s : good k s -> shaped_objects s /\ Forall shaped_entry (entries s).
Proof.
  intros [Hk Ho Ht]. split.
  - intros a o Ha. destruct (Ho a o Ha). split; [done|by eapply sound_shaped].
  - apply Forall_reverse. eapply traced_shaped; [|exact Ht]. intros a O. unfold caches. rewrite lookup_fmap, fmap_Some.
    intros (o & Ha & ->). destruct (Ho a o Ha) as [<- Hs]. split; [apply Hs|by apply (sound_sized k)].
Qed.

(** * Reverting *)

Lemma shaped_set o s : shaped o -> shaped_objects s -> shaped_objects (setStateObject o s).
Proof. intros Ho Hs a p. cbn. intros [[<- <-]|[_ H]]%lookup_insert_Some; [done|by apply Hs]. Qed.

Lemma shaped_new a acc : length a = 20%nat -> shaped (newObject a acc).
Proof. intros Ha. split; cbn; [done| |done]. intros key v. by rewrite lookup_empty. Qed.

Lemma shaped_get a s : length a = 20%nat -> shaped_objects s ->
  shaped_objects (getStateObject a s).1 /\ forall o, (getStateObject a s).2 = Some o -> shaped o.
Proof.
  intros Ha Hs. unfold getStateObject. destruct (stateObjects s !! a) as [o|] eqn:E.
  - split; [done|]. intros p [= <-]. by apply (Hs a).
  - destruct (GetAccount (keeper s) a) as [acc|]; [|by split]. split; [by apply shaped_set; [apply shaped_new|]|].
    intros p [= <-]. by apply shaped_new.
Qed.

Lemma shaped_revert_object a f s s' : length a = 20%nat -> shaped_objects s -> (forall o, shaped o -> shaped (f o)) ->
  revert_object a f s = Some s' -> shaped_objects s'.
Proof.
  intros Ha Hs Hf. unfold revert_object. destruct (shaped_get a s Ha Hs) as [H1 H2].
  destruct (getStateObject a s) as [s1 [o|]]; [|done]. intros [= <-]. apply shaped_set; [by apply Hf, H2|done].
Qed.

Lemma shaped_setState key v o : length key = 32%nat -> length v = 32%nat -> shaped o -> shaped (setState key v o).
Proof.
  intros Hk Hv [Ha Hd Hc]. split; cbn; [done| |done]. intros key' v' [[<- <-]|[_ H]]%lookup_insert_Some; [done|by apply Hd].
Qed.

Lemma shaped_setCode h c o : length h = 32%nat -> (forall c', c = Some c' -> Keccak256Hash (Some c') = h) -> shaped o -> shaped (setCode h c o).
Proof. intros Hl Hh [Ha Hd Hc]. split; cbn; [done|done|]. intros c' H. rewrite BytesToHash_32 by done. by apply Hh. Qed.

Lemma shaped_revert_entry e s s' : shaped_entry e -> shaped_objects s -> revert_entry e s = Some s' -> shaped_objects s'.
Proof.
  intros [Ha He] Hs Hr. destruct e; cbn [revert_entry Dirtied] in *;
    try (eapply shaped_revert_object; [by apply Ha|done| |exact Hr]; by intros o []).
  - injection Hr as <-. intros b p. cbn. intros [_ Hb]%lookup_delete_Some. by apply Hs.
  - injection Hr as <-. by apply shaped_set.
  - destruct (shaped_get account s (Ha _ eq_refl) Hs) as [H1 H2]. destruct (getStateObject account s) as [s1 [o|]]; injection Hr as <-; [|done].
    apply shaped_set; [|done]. by destruct (H2 o eq_refl).
  - eapply shaped_revert_object; [by apply Ha|done| |exact Hr]. intros o. destruct He. by apply shaped_setState.
  - eapply shaped_revert_object; [by apply Ha|done| |exact Hr]. intros o. apply shaped_setCode; [apply length_BytesToHash|done].
  - by injection Hr as <-.
  - destruct (logs s); [done|]. by injection Hr as <-.
  - by injection Hr as <-.
  - destruct (DeleteSlot _ _ _) as [al|]; [|done]. cbn in Hr. by injection Hr as <-.
Qed.

Lemma shaped_revert_entries es : forall s s', Forall shaped_entry es -> shaped_objects s -> revert_entries es s = Some s' -> shaped_objects s'.
Proof.
  induction es as [|e es IH]; intros s s' He Hs Hr; cbn [revert_entries] in Hr; [by injection Hr as <-|].
  apply Forall_cons in He as [He Hes]. destruct (revert_entry e s) as [s1|] eqn:E; [|done]. cbn in Hr.
  eapply IH; [done| |exact Hr]. exact (shaped_revert_entry e s s1 He Hs E).
Qed.

(** * Committing objects of any history *)

(** Objects that differ in what they remember of commits. *)
Definition same_object (o p : stateObject) : Prop :=
  so_address p = so_address o /\ so_CodeHash p = so_CodeHash o /\ so_code p = so_code o /\ dirtyStorage p = dirtyStorage o.

Lemma same_shaped o p : same_object o p -> shaped o -> shaped p.
Proof. intros (Ha & Hh & Hc & Hd) [? ? ?]. split; by rewrite ?Ha, ?Hh, ?Hc, ?Hd. Qed.

Lemma only_at_refl a k : only_at a k k.
Proof. split_and!; try done. by apply code_kept_same. Qed.

Lemma only_at_trans a k1 k2 k3 : valid k1 -> valid k2 -> valid k3 -> only_at a k1 k2 -> only_at a k2 k3 -> only_at a k1 k3.
Proof.
  intros V1 V2 V3 (A1 & B1 & C1 & D1) (A2 & B2 & C2 & D2). split_and!.
  - intros c Hc. by rewrite A2, A1.
  - intros c Hc H. by apply B2, B1.
  - intros c key Hc Hl Hk. by rewrite C2, C1.
  - by apply (code_kept_trans _ k2).
Qed.

Lemma commit_slots_other l : forall k o, valid k -> shaped o -> is_Some (GetAccount k (so_address o)) ->
  let r := foldl (fun '(k, o) key => commit_slot k o key) (k, o) l in
  valid r.1 /\ only_at (so_address o) k r.1 /\ same_object o r.2.
Proof.
  induction l as [|key l IH]; intros k o Hv Hs Hacc; cbn [foldl]; [split_and!; [done|apply only_at_refl|done..]|].
  assert (exists k1 o1, commit_slot k o key = (k1, o1) /\ valid k1 /\ only_at (so_address o) k k1 /\ same_object o o1 /\
    is_Some (GetAccount k1 (so_address o))) as (k1 & o1 & E & Hv1 & Hat & Hso & Hacc1).
  { unfold commit_slot. destruct (dirtyStorage o !! key) as [v|] eqn:Ed; [|exists k, o; split_and!; [done|done|apply only_at_refl|done..]].
    destruct (match transientStorage o !! key with Some _ => _ | None => _ end);
      [exists k, o; split_and!; [done|done|apply only_at_refl|done..]|].
    destruct (shaped_dirty _ Hs _ _ Ed) as [Hk Hl].
    destruct (set_state k (so_address o) key v Hv (shaped_address _ Hs) Hk Hl Hacc) as (V & A & B & C & D).
    eexists _, _. split; [done|]. split_and!; [done| |done|by rewrite A]. split_and!; [done|by auto| |by apply code_kept_same].
    intros c key' Hc Hlc Hlk. rewrite C by done. rewrite decide_False; [done|by intros [? _]]. }
  rewrite E. pose proof Hso as (Ea & _). specialize (IH k1 o1 Hv1 (same_shaped _ _ Hso Hs)). rewrite Ea in IH.
  destruct (IH Hacc1) as (Hv2 & Hat2 & (F1 & F2 & F3 & F4)). destruct Hso as (G1 & G2 & G3 & G4).
  split_and!; [done|by eapply (only_at_trans _ _ k1)|]. repeat split; congruence.
Qed.

Lemma commit_object_other k o k' o' : valid k -> shaped o -> length (so_CodeHash o) = 32%nat ->
  commit_object k o = (k', o', None) -> valid k' /\ only_at (so_address o) k k' /\ same_object o o'.
Proof.
  intros Hv Hs Hl. pose proof (shaped_address _ Hs) as Ha. unfold commit_object. destruct (suicided o).
  { destruct (DeleteAccount k (so_address o)) as [k1 e] eqn:E. intros [= <- <- ->].
    destruct (delete_account k (so_address o) k1 Hv Ha E) as (? & ? & ? & ? & ? & ? & ?). split_and!; try done. split_and!; try done. by apply code_kept_same. }
  set (k1 := if _ && _ then _ else k).
  assert (valid k1 /\ only_at (so_address o) k k1) as [Hv1 Hat1].
  { subst k1. destruct (so_code o) as [c|] eqn:Ec; [|rewrite bool_decide_false by (by intros [? ?]); split; [done|apply only_at_refl]].
    rewrite bool_decide_true by done. destruct (dirtyCode o); [|split; [done|apply only_at_refl]].
    pose proof (shaped_code _ Hs c Ec) as Hh. rewrite BytesToHash_32 in Hh by done. cbn [andb].
    destruct (set_code k _ c Hv Hl Hh) as (V & A & B & C & _). split; [done|]. split_and!; [done|by auto|done|by apply set_code_kept]. }
  destruct (SetAccount k1 (so_address o) _) as [k2 [e|]] eqn:E; [done|].
  destruct (set_account _ _ _ _ _ _ Hv1 Ha Hl E) as (Hv2 & (h & Hacc & _) & A2 & B2 & C2 & D2).
  pose proof (commit_slots_other (sorted_keys (dirtyStorage o)) k2 o Hv2 Hs ltac:(by eexists)) as H.
  destruct (foldl _ _ _) as [k3 o3]. cbn [fst snd] in H. intros [= <- <-]. destruct H as (Hv3 & Hat3 & Hso).
  split_and!; [done| |done]. apply (only_at_trans _ _ k1); try done. apply (only_at_trans _ _ k2); try done.
  split_and!; try done. by apply code_kept_same.
Qed.

Definition hashed_objects s : Prop := forall a o, stateObjects s !! a = Some o -> length (so_CodeHash o) = 32%nat.

(** What a commit does not touch. *)
Record commit_frame (l : list bytes) s s' : Prop := mkFrame {
  cf_valid : valid (keeper s');
  cf_other : forall c, c ∉ l -> length c = 20%nat -> GetAccount (keeper s') c = GetAccount (keeper s) c /\
    forall key, length key = 32%nat -> GetState_keeper (keeper s') c key = GetState_keeper (keeper s) c key;
  cf_code : code_kept (keeper s) (keeper s');
  cf_objects : forall a o', stateObjects s' !! a = Some o' -> exists o, stateObjects s !! a = Some o /\ same_object o o';
  cf_entries : entries s' = entries s;
  cf_dirties : dirties s' = dirties s;
  cf_revisions : validRevisions s' = validRevisions s;
  cf_next : nextRevisionID s' = nextRevisionID s;
  cf_access : access s' = access s
}.

Lemma commit_all_other l : forall s s', valid (keeper s) -> shaped_objects s -> hashed_objects s ->
  commit_all l s = (s', Ok tt) -> commit_frame l s s'.
Proof.
  induction l as [|a l IH]; intros s s' Hv Hs Hh; cbn [commit_all].
  { intros [= <-]. split; try done; [by apply code_kept_same|]. intros a o H. exists o. by split. }
  destruct (stateObjects s !! a) as [o|] eqn:Ho; [|done]. destruct (Hs a o Ho) as [Ha Hso].
  destruct (commit_object (keeper s) o) as [[k1 o1] [e|]] eqn:Ec; [done|]. intros H.
  destruct (commit_object_other _ _ _ _ Hv Hso (Hh a o Ho) Ec) as (Hv1 & (A & _ & S & C) & Hsame).
  pose proof Hsame as (Ea & Eh & _ & _). rewrite Ha in *. set (s1 := setStateObject o1 (with_keeper k1 s)) in *.
  assert (forall b p, stateObjects s1 !! b = Some p -> exists q, stateObjects s !! b = Some q /\ same_object q p) as Hobj.
  { intros b p. cbn. rewrite Ea. intros [[<- <-]|[_ Hb]]%lookup_insert_Some; [by exists o|]. exists p. by split. }
  destruct (IH s1 s' Hv1) as [Hv' Hc' Hcode Ho' He Hd Hr Hn Hacc]; [| |done|split; try done].
  - apply shaped_set; [by eapply same_shaped|done].
  - intros b p Hb. destruct (Hobj b p Hb) as (q & Hq & (_ & -> & _)). by apply (Hh b).
  - intros c [Hca Hcl]%not_elem_of_cons Hl. destruct (Hc' c Hcl Hl) as [E1 E2]. split; [by rewrite E1; apply A|].
    intros key Hk. rewrite E2 by done. by apply S.
  - by apply (code_kept_trans _ k1).
  - intros b p' Hb. destruct (Ho' b p' Hb) as (p & Hp & (G1 & G2 & G3 & G4)). destruct (Hobj b p Hp) as (q & Hq & (F1 & F2 & F3 & F4)).
    exists q. split; [done|]. repeat split; congruence.
Qed.

Lemma frame_wf l s s' : commit_frame l s s' -> wf s -> shaped_objects s -> wf s' /\ shaped_objects s'.
Proof.
  intros [Hv _ _ Ho He Hd Hr Hn Hacc] [[Hc1 Hc2 Hc3] Hen Hdi Hre Hne] Hs. split; [split; [split| | | |]; rewrite ?He, ?Hd, ?Hr, ?Hn, ?Hacc; try done|].
  - intros a o. unfold object_at. destruct (stateObjects s' !! a) as [o'|] eqn:E.
    + intros [= <-]. destruct (Ho a o' E) as (p & Hp & (-> & -> & _)). apply (Hc1 a). unfold object_at. by rewrite Hp.
    + intros (acc & Ha & ->)%fmap_Some. split; [done|]. by apply (account_hash (keeper s') a).
  - intros a acc. by apply account_hash.
  - intros a o' E. destruct (Ho a o' E) as (p & Hp & Hsame). destruct (Hs a p Hp) as [Ha Hsh].
    split; [by destruct Hsame as (-> & _)|by eapply same_shaped].
Qed.

Lemma wf_hashed s : wf s -> hashed_objects s.
Proof. intros H a o Ho. apply (core_objects _ (wf_core _ H) a). unfold object_at. by rewrite Ho. Qed.

Lemma frame_tx_steps id s s' : rtc (frame_tx id) s s' -> rtc (frame_step id) s s' /\ rtc tx_step s s'.
Proof. induction 1 as [|x y z [] _ []]; split; try apply rtc_refl; by eapply rtc_l. Qed.

(** The state after reverting a frame that has committed. *)
Lemma revert_after_commit k s1 s3 s4 s5 :
  valid k -> wf s1 -> good k s1 -> rtc (frame_tx (nextRevisionID s1)) (Snapshot s1).1 s3 ->
  Commit s3 = (s4, Ok tt) -> RevertToSnapshot (nextRevisionID s1) s4 = (s5, Ok tt) ->
  wf s5 /\ shaped_objects s5 /\ valid (keeper s5) /\ keeper s5 = keeper s4 /\ dirties s5 = dirties s1.
Proof.
  intros Hv Hwf1 Hg1 Hr Hc Hrev. apply frame_tx_steps in Hr as [Hfr Htx].
  destruct (tx_keeps k _ _ Hv Htx (snapshot_wf _ Hwf1) ltac:(by apply (good_same k s1))) as [Hwf3 Hg3].
  destruct (good_shaped k s3 Hg3) as [Hs3 He3]. apply (frame_runs s1) in Hfr; [|by apply frame_opens].
  destruct Hfr as (_ & _ & (Y & HY & _) & es & _ & Hes & _ & _).
  pose proof (commit_all_other _ _ _ ltac:(by rewrite (kept_keeper _ _ _ Hg3)) Hs3 (wf_hashed _ Hwf3) Hc) as Hcf.
  destruct (frame_wf _ _ _ Hcf Hwf3 Hs3) as [Hwf4 Hs4]. destruct Hcf as [Hv4 _ _ _ He _ Hrv _ _]. rewrite HY in Hrv. rewrite Hes in He.
  rewrite (RevertToSnapshot_at _ _ _ _ _ Hwf4 Hrv), Nat2Z.id in Hrev. destruct (journal_Revert _ s4) as [v|] eqn:E; [|done].
  injection Hrev as <-. assert (wf (with_revisions (validRevisions s1) (nextRevisionID v) v)) as Hwf5.
  { eapply revert_wf; [done|done|]. by rewrite Nat2Z.id. }
  destruct (journal_Revert_wf _ _ _ Hwf4 E) as (_ & Hd & Hev & _ & _ & Hk & _). rewrite He, take_app_length in Hd.
  split; [done|]. split.
  - unfold journal_Revert in E. destruct (revert_entries _ s4) as [u|] eqn:Eu; [|done]. cbn in E. injection E as <-.
    apply (shaped_revert_entries _ _ _) in Eu; [exact Eu| |done]. apply Forall_reverse. rewrite He, drop_app_length.
    rewrite Hes in He3. by apply Forall_app in He3 as [_ ?].
  - cbn [keeper with_revisions dirties]. rewrite Hk. split; [done|]. split; [done|]. eapply dirties_unique; [exact Hd|apply Hwf1].
Qed.

Lemma length_GetCodeHash a s : length (GetCodeHash a s).2 = 32%nat.
Proof.
  unfold GetCodeHash, read_object. destruct (getStateObject a s) as [t [o|]]; [apply length_BytesToHash|done].
Qed.

Lemma persisted_same s k k' a : valid k -> valid k' -> code_kept k k' -> GetAccount k' a = GetAccount k a ->
  (forall key, length key = 32%nat -> GetState_keeper k' a key = GetState_keeper k a key) ->
  persisted s k a -> persisted s k' a.
Proof.
  intros Hv Hv' Hc Ha Hs. unfold persisted. rewrite Ha. destruct (dirties s !! a); [destruct (HasSuicided a s).2|].
  - intros [? H]. split; [done|]. intros key Hk. rewrite Hs by done. by apply H.
  - intros (? & Hcode & H). split_and!; [done| |].
    + intros c Hg. destruct (Hcode c Hg) as [Hh Hne]. split; [done|]. intros Hn.
      apply (has_code_grows k); try done; [apply length_GetCodeHash|by apply Hne].
    + intros key Hk. rewrite Hs by done. by apply H.
  - intros [? H]. split; [done|]. intros key Hk. rewrite Hs by done. by apply H.
Qed.

(** C40: the staking, distribution, vesting, bank and ICS-20 precompiles call [Commit]
    in the middle of a transaction.  Take any transaction over a valid keeper, a
    snapshot in it, and a frame after which such a [Commit] succeeds.  Revert the frame
    and end the transaction with its own [Commit].  An account that was not dirty
    before the frame is not dirty after it, and is in the keeper as the reverted frame
    has left it: destroyed, or with the nonce, the balance, the code and the storage of
    the frame. *)
Theorem commit_in_reverted_frame_persists k cfg s1 s3 s4 s5 s6 a :
  valid k -> rtc tx_step (New k cfg) s1 -> rtc (frame_tx (Snapshot s1).2) (Snapshot s1).1 s3 ->
  Commit s3 = (s4, Ok tt) -> RevertToSnapshot (Snapshot s1).2 s4 = (s5, Ok tt) -> Commit s5 = (s6, Ok tt) ->
  length a = 20%nat -> dirties s1 !! a = None ->
  dirties s5 !! a = None /\ persisted s3 (keeper s6) a.
Proof.
  intros Hv Hr1 Hfr Hc3 Hrev Hc5 Hl Ha. destruct (New_ok k cfg Hv) as [Hwf0 Hg0]. destruct (tx_keeps k _ _ Hv Hr1 Hwf0 Hg0) as [Hwf1 Hg1].
  destruct (revert_after_commit k s1 s3 s4 s5 Hv Hwf1 Hg1 Hfr Hc3 Hrev) as (Hwf5 & Hs5 & Hv5 & Hk5 & Hd5).
  destruct (sorted_keys_perm (dirties s5)) as [_ Hkeys]. split; [by rewrite Hd5|].
  destruct (commit_all_other _ _ _ Hv5 Hs5 (wf_hashed _ Hwf5) Hc5) as [Hv6 Hout Hcode _ _ _ _ _ _].
  destruct (Hout a) as [Hacc Hst]; [|done|]. { intros [n Hn]%Hkeys. congruence. }
  assert (rtc tx_step (New k cfg) s3) as Hr3.
  { etransitivity; [exact Hr1|]. eapply rtc_l; [apply tx_snapshot|]. by apply frame_tx_steps in Hfr as [_ ?]. }
  pose proof (commit_persists_reads k cfg s3 Hv Hr3) as Hp. rewrite Hc3 in Hp. destruct Hp as (_ & _ & Hp). specialize (Hp a Hl).
  rewrite Hk5 in *. by apply (persisted_same s3 (keeper s4)).
Qed.

End Nested.
