(* ===== verification/EvmKeeper.v ===== *)
(** [x/evm/keeper]: the keeper under the state database.

    [keeper/statedb.go] stores code and storage in the module's own store, nonce
    and code hash in the account of the auth module, and the balance in the bank,
    by minting or burning the difference.  The account functions of
    [keeper/keeper.go], the keys of [types/key.go] and the activation height of
    EIP-7702 ([keeper/eip7702.go]) are here too.  [EvmKeeperProps] proves that
    this keeper keeps the contract of [StateDBCommit.KeeperLaws].

    Amounts are taken to fit in the 256 bits of [sdkmath.Int]; logging is left out. *)

From stdpp Require Import base list gmap strings sorting.
From Stdlib Require Import ZArith Lia.
From S2P Require Import Prelude KVStore Ledger StateDB.
Open Scope Z_scope.

(** * Data *)

(** [authtypes.AccountI] as the keeper uses it.  [acct_codehash] is [Some] for an
    account that implements [EthAccountI], [None] for others (module accounts,
    vesting accounts). *)
Record AccountI := mkAcct {
  acct_address : bytes;
  acct_sequence : Z;
  acct_codehash : option bytes
}.

Definition SetSequence (n : Z) (a : AccountI) : AccountI := mkAcct (acct_address a) n (acct_codehash a).
Definition SetCodeHash (h : bytes) (a : AccountI) : AccountI := mkAcct (acct_address a) (acct_sequence a) (Some h).

(** The parameters of the module.  The chain configuration among them is read through
    go-ethereum's fork rules only. *)
Record Params := mkParams {
  EvmDenom : string; EnableCreate : bool; EnableCall : bool; AllowUnprotectedTxs : bool; ActivePrecompiles : list string }.

(** Values of the store: raw bytes, or encoded parameters. *)
Inductive val := VBytes (b : bytes) | VParams (p : Params).

(** * What the keeper calls *)

Class AccountKeeper (X : Type) := {
  ak_GetAccount : X -> bytes -> option AccountI;
  ak_NewAccountWithAddress : X -> bytes -> X * AccountI;
  ak_SetAccount : X -> AccountI -> X;
  ak_RemoveAccount : X -> AccountI -> X
}.

(** Minting and burning of the bank keeper, and the legacy parameter subspace. *)
Class MintKeeper (X : Type) := {
  MintCoins : X -> string -> string * Z -> X * option Z;
  BurnCoins : X -> string -> string * Z -> X * option Z;
  GetLegacyParams : X -> Params
}.

(** The module's store and the rest of the chain. *)
Record chain (X : Type) := mkChain { evm_store : gmap bytes val; rest : X }.
Arguments mkChain {X} _ _.
Arguments evm_store {X} _.
Arguments rest {X} _.

(** * [types/key.go], [types/errors.go] *)

Definition ModuleName : string := "evm".
Definition KeyPrefixCode : bytes := [1].
Definition KeyPrefixStorage : bytes := [2].
Definition KeyPrefixParams : bytes := [3].
Definition KeyPrefixEIP7702BlockNumber : bytes := [4].
Definition AddressStoragePrefix (address : bytes) : bytes := KeyPrefixStorage ++ address.
Definition StateKey (address key : bytes) : bytes := AddressStoragePrefix address ++ key.

Definition ErrInvalidAccount : Z := 15.
Definition ErrInvalidEIP7702Height : Z := 18.

(** * Store access *)

Section Keeper.
Context {X : Type} {BK : BankKeeper X} {AK : AccountKeeper X} {MK : MintKeeper X} {EH : EthHash}.
Implicit Types k : chain X.

(** [types.EmptyCodeHash], the hash of no bytes in [statedb] too. *)
Definition EmptyCodeHash : bytes := emptyCodeHash.

(** The prototype the application gives to the account keeper. *)
Definition ProtoAccount : AccountI := mkAcct [] 0 (Some EmptyCodeHash).

Definition with_store (st : gmap bytes val) k : chain X := mkChain st (rest k).
Definition with_rest (x : X) k : chain X := mkChain (evm_store k) x.

Definition get_bytes k (key : bytes) : option bytes :=
  match evm_store k !! key with Some (VBytes b) => Some b | _ => None end.

Definition GetParams k : Params :=
  match evm_store k !! KeyPrefixParams with
  | Some (VParams p) => p
  | _ => GetLegacyParams (rest k)
  end.

Definition GetState k (addr key : bytes) : bytes :=
  match get_bytes k (StateKey addr key) with
  | None | Some [] => zero_hash
  | Some value => BytesToHash value
  end.

Definition GetCode k (codeHash : bytes) : option bytes := get_bytes k (KeyPrefixCode ++ codeHash).

Definition SetState k (addr key value : bytes) : chain X :=
  with_store (match value with
              | [] => delete (StateKey addr key) (evm_store k)
              | _ => <[StateKey addr key := VBytes value]> (evm_store k)
              end) k.

Definition SetCode k (codeHash : bytes) (code : option bytes) : chain X :=
  with_store (match code with
              | None | Some [] => delete (KeyPrefixCode ++ codeHash) (evm_store k)
              | Some c => <[KeyPrefixCode ++ codeHash := VBytes c]> (evm_store k)
              end) k.

(** The iterator walks the entries as they are when it is opened; the callback
    threads a state and says whether to go on. *)
Fixpoint for_each {S} (cb : bytes -> bytes -> S -> S * bool) (es : list (bytes * val)) (st : S) : S :=
  match es with
  | [] => st
  | (key, v) :: es =>
    let value := match v with VBytes b => b | VParams _ => [] end in
    let '(st, go) := cb (BytesToHash key) (BytesToHash value) st in
    if go : bool then for_each cb es st else st
  end.

Definition ForEachStorage {S} k (addr : bytes) (cb : bytes -> bytes -> S -> S * bool) (st : S) : S :=
  for_each cb (prefix_iter (AddressStoragePrefix addr) (evm_store k)) st.

Definition GetAccountStorage k (address : bytes) : list (bytes * bytes) :=
  ForEachStorage k address (fun key value storage => (storage ++ [(key, value)], true)) [].

(** * Accounts and balances *)

(** The balance of the gas token; -1 on a node without parameters. *)
Definition GetBalance k (addr : bytes) : Z :=
  let evmDenom := EvmDenom (GetParams k) in
  if bool_decide (evmDenom = ""%string) then -1 else Ledger.GetBalance (rest k) addr evmDenom.

Definition GetAccountWithoutBalance k (addr : bytes) : option Account :=
  match ak_GetAccount (rest k) addr with
  | None => None
  | Some acct =>
    let codeHash := match acct_codehash acct with Some h => BytesToHash h | None => EmptyCodeHash end in
    Some (mkAccount (acct_sequence acct) None (Some codeHash))
  end.

Definition GetAccount k (addr : bytes) : option Account :=
  match GetAccountWithoutBalance k addr with
  | None => None
  | Some acct => Some (mkAccount (Nonce acct) (Some (GetBalance k addr)) (CodeHash acct))
  end.

Definition GetAccountOrEmpty k (addr : bytes) : Account :=
  match GetAccount k addr with
  | Some acct => acct
  | None => mkAccount 0 (Some 0) (Some EmptyCodeHash)
  end.

Definition GetNonce k (addr : bytes) : Z :=
  match ak_GetAccount (rest k) addr with None => 0 | Some acct => acct_sequence acct end.

Definition SetBalance k (addr : bytes) (amount : Z) : chain X * option Z :=
  let denom := EvmDenom (GetParams k) in
  let balance := Ledger.GetBalance (rest k) addr denom in
  let delta := amount - balance in
  if 0 <? delta then
    match MintCoins (rest k) ModuleName (denom, delta) with
    | (x, Some e) => (with_rest x k, Some e)
    | (x, None) =>
      let '(x, e) := SendCoinsFromModuleToAccount x ModuleName addr (denom, delta) in (with_rest x k, e)
    end
  else if delta <? 0 then
    match SendCoinsFromAccountToModule (rest k) addr ModuleName (denom, - delta) with
    | (x, Some e) => (with_rest x k, Some e)
    | (x, None) => let '(x, e) := BurnCoins x ModuleName (denom, - delta) in (with_rest x k, e)
    end
  else (k, None).

(** A nil balance does not occur: [statedb] always gives one. *)
Definition SetAccount k (addr : bytes) (account : Account) : chain X * option Z :=
  let '(x, acct) :=
    match ak_GetAccount (rest k) addr with
    | Some acct => (rest k, acct)
    | None => ak_NewAccountWithAddress (rest k) addr
    end in
  let acct := SetSequence (Nonce account) acct in
  let codeHash := BytesToHash (default [] (CodeHash account)) in
  let acct := if bool_decide (is_Some (acct_codehash acct)) then SetCodeHash codeHash acct else acct in
  SetBalance (with_rest (ak_SetAccount x acct) k) addr (default 0 (Balance account)).

Definition DeleteAccount k (addr : bytes) : chain X * option Z :=
  match ak_GetAccount (rest k) addr with
  | None => (k, None)
  | Some acct =>
    if bool_decide (acct_codehash acct = None) then (k, Some ErrInvalidAccount)
    else
      match SetBalance k addr 0 with
      | (k, Some e) => (k, Some e)
      | (k, None) =>
        let k := ForEachStorage k addr (fun key _ k => (SetState k addr key [], true)) k in
        (with_rest (ak_RemoveAccount (rest k) acct) k, None)
      end
  end.

#[export] Instance evm_keeper : Keeper (chain X) := {|
  StateDB.GetAccount := GetAccount;
  GetState_keeper := GetState;
  GetCode_keeper := GetCode;
  StateDB.SetAccount := SetAccount;
  SetState_keeper := SetState;
  SetCode_keeper := SetCode;
  StateDB.DeleteAccount := DeleteAccount
|}.

(** * [keeper/eip7702.go] *)

Definition GetEIP7702BlockNumber k : Z :=
  match get_bytes k KeyPrefixEIP7702BlockNumber with
  | Some bz => if Nat.eqb (length bz) 8 then i64 (be_decode bz) else 0
  | None => 0
  end.

Definition SetEIP7702BlockNumber k (height : Z) : chain X * option Z :=
  if height <? 0 then (k, Some ErrInvalidEIP7702Height)
  else if height =? 0 then (with_store (delete KeyPrefixEIP7702BlockNumber (evm_store k)) k, None)
  else (with_store (<[KeyPrefixEIP7702BlockNumber := VBytes (be8 (u64 height))]> (evm_store k)) k, None).

Definition IsEIP7702Enabled (ctx : Ctx) k : bool :=
  let height := GetEIP7702BlockNumber k in
  if height =? 0 then false else height <=? BlockHeight ctx.

End Keeper.
