(* ===== verification/EvmKeeperProps.v ===== *)
(** [x/evm/keeper]: the keeper keeps the contract of the state database.

    [EvmChainLaws] states what the auth and bank modules document; from it,
    [evm_laws] proves [StateDBCommit.KeeperLaws] for [keeper/statedb.go], so that
    what is proved of a transaction against the contract holds over this keeper. *)

From stdpp Require Import base list gmap strings sorting relations.
From Stdlib Require Import ZArith Lia.
From S2P Require Import Prelude KVStore Ledger StateDB StateDBProps StateDBCommit EvmKeeper.
Open Scope Z_scope.

(** * The rest of the chain *)

Section Rest.
Context {X : Type} {BK : BankKeeper X} {AK : AccountKeeper X} {MK : MintKeeper X} {EH : EthHash}.

Definition same_balances (x x' : X) : Prop := forall a d, Ledger.GetBalance x' a d = Ledger.GetBalance x a d.

(** A coin operation paying [dst]: existing accounts stay as they are, and the
    bank may open one for [dst] only. *)
Definition keeps_accounts (dst : bytes) (x x' : X) : Prop :=
  (forall a acc, ak_GetAccount x a = Some acc -> ak_GetAccount x' a = Some acc) /\
  (forall a, a <> dst -> ak_GetAccount x' a = ak_GetAccount x a) /\
  GetLegacyParams x' = GetLegacyParams x.

(** The coins [n] of denomination [d] at [a], and nothing else, are new. *)
Definition added (x x' : X) (a : bytes) (d : string) (n : Z) : Prop :=
  forall b d', Ledger.GetBalance x' b d' = Ledger.GetBalance x b d' + (if decide (b = a /\ d' = d) then n else 0).

End Rest.

(** What the auth and bank keepers document. *)
Class EvmChainLaws (X : Type) {BK : BankKeeper X} {BL : BankLaws X} {AK : AccountKeeper X} {MK : MintKeeper X}
    {EH : EthHash} := {
  account_address : forall x a acc, ak_GetAccount x a = Some acc -> acct_address acc = a;
  new_account : forall x a x' acc, ak_NewAccountWithAddress x a = (x', acc) ->
    acc = mkAcct a (acct_sequence ProtoAccount) (acct_codehash ProtoAccount) /\
    (forall b, ak_GetAccount x' b = ak_GetAccount x b) /\ same_balances x x' /\
    GetLegacyParams x' = GetLegacyParams x;
  set_acct : forall x acc b, ak_GetAccount (ak_SetAccount x acc) b =
    if decide (b = acct_address acc) then Some acc else ak_GetAccount x b;
  set_acct_rest : forall x acc, same_balances x (ak_SetAccount x acc) /\
    GetLegacyParams (ak_SetAccount x acc) = GetLegacyParams x;
  remove_acct : forall x acc b, ak_GetAccount (ak_RemoveAccount x acc) b =
    if decide (b = acct_address acc) then None else ak_GetAccount x b;
  remove_acct_rest : forall x acc, same_balances x (ak_RemoveAccount x acc) /\
    GetLegacyParams (ak_RemoveAccount x acc) = GetLegacyParams x;
  mint_ok : forall x m d n x', 0 < n -> MintCoins x m (d, n) = (x', None) ->
    added x x' (GetModuleAddress m) d n /\ keeps_accounts (GetModuleAddress m) x x';
  burn_ok : forall x m d n x', 0 < n -> BurnCoins x m (d, n) = (x', None) ->
    added x x' (GetModuleAddress m) d (- n) /\ keeps_accounts (GetModuleAddress m) x x';
  to_module_accounts : forall x a m c x',
    SendCoinsFromAccountToModule x a m c = (x', None) -> keeps_accounts (GetModuleAddress m) x x';
  to_account_accounts : forall x m a c x',
    SendCoinsFromModuleToAccount x m a c = (x', None) -> keeps_accounts a x x'
}.

(** * The invariant of the keeper *)

Section Laws.
Context {X : Type} {BK : BankKeeper X} {BL : BankLaws X} {AK : AccountKeeper X} {MK : MintKeeper X} {EH : EthHash}
  {CL : EvmChainLaws X}.
Implicit Types k : chain X.

Definition evm_address : bytes := GetModuleAddress ModuleName.

(** The module has its account and its parameters, storage keys have their form,
    an address without an account has no storage, and code is stored under its hash. *)
Record evm_valid k : Prop := mkValid {
  valid_module : exists acc, ak_GetAccount (rest k) evm_address = Some acc /\ acct_codehash acc = None;
  valid_denom : EvmDenom (GetParams k) <> ""%string;
  valid_keys : forall a key v, length a = 20%nat -> evm_store k !! StateKey a key = Some v -> length key = 32%nat;
  valid_storage : forall a key, length a = 20%nat -> ak_GetAccount (rest k) a = None ->
    evm_store k !! StateKey a key = None;
  valid_code : forall h c, length h = 32%nat -> GetCode k h = Some c -> Keccak256Hash (Some c) = h /\ c <> []
}.

(** The account at [a], if there is one, can store a code hash. *)
Definition evm_holds_code k (a : bytes) : Prop :=
  match ak_GetAccount (rest k) a with Some acc => is_Some (acct_codehash acc) | None => True end.

(** * Keys *)

Lemma StateKey_inj a a' key key' :
  length a = length a' -> StateKey a key = StateKey a' key' -> a = a' /\ key = key'.
Proof. intros Hl H. unfold StateKey, AddressStoragePrefix in H. rewrite <- !app_assoc in H. injection H as H. by apply app_inj_1 in H. Qed.

Lemma StateKey_params a key : StateKey a key <> KeyPrefixParams.
Proof. done. Qed.

Lemma get_params_store k k' :
  rest k' = rest k -> evm_store k' !! KeyPrefixParams = evm_store k !! KeyPrefixParams -> GetParams k' = GetParams k.
Proof. intros H1 H2. unfold GetParams. by rewrite H1, H2. Qed.

Lemma get_code_store k k' h :
  evm_store k' !! (KeyPrefixCode ++ h) = evm_store k !! (KeyPrefixCode ++ h) -> GetCode k' h = GetCode k h.
Proof. intros H. unfold GetCode, get_bytes. by rewrite H. Qed.

Lemma get_state_store k k' a key :
  evm_store k' !! StateKey a key = evm_store k !! StateKey a key -> GetState k' a key = GetState k a key.
Proof. intros H. unfold GetState, get_bytes. by rewrite H. Qed.

(** * Balances *)

Lemma evm_GetBalance k a : evm_valid k -> GetBalance k a = Ledger.GetBalance (rest k) a (EvmDenom (GetParams k)).
Proof. intros H. unfold GetBalance. rewrite bool_decide_false; [done|]. apply (valid_denom _ H). Qed.

(** Only the balance of [a] in the denomination of the EVM has changed, to [n];
    accounts and store are the same. *)
Definition balance_set (a : bytes) (n : Z) k k' : Prop :=
  evm_store k' = evm_store k /\ GetParams k' = GetParams k /\
  (forall b, ak_GetAccount (rest k') b = ak_GetAccount (rest k) b) /\
  forall b d, Ledger.GetBalance (rest k') b d =
    if decide (b = a /\ d = EvmDenom (GetParams k)) then n else Ledger.GetBalance (rest k) b d.

Lemma keeps_existing (x x' : X) a : is_Some (ak_GetAccount x a) -> keeps_accounts a x x' ->
  forall b, ak_GetAccount x' b = ak_GetAccount x b.
Proof.
  intros [acc Ha] (H1 & H2 & _) b. destruct (decide (b = a)) as [->|]; [|by apply H2]. rewrite Ha. by apply H1.
Qed.

Lemma SetBalance_ok k a n k' :
  evm_valid k -> is_Some (ak_GetAccount (rest k) a) -> SetBalance k a n = (k', None) -> balance_set a n k k'.
Proof.
  intros Hv Ha. destruct (valid_module _ Hv) as (macc & Hm & _). unfold SetBalance. set (d := EvmDenom (GetParams k)).
  set (x := rest k) in *. destruct (Z.ltb_spec 0 (n - Ledger.GetBalance x a d)) as [Hpos|Hle].
  - destruct (MintCoins _ _ _) as [x1 [e|]] eqn:E1; [done|]. destruct (SendCoinsFromModuleToAccount _ _ _ _) as [x2 e] eqn:E2.
    intros [= <- ->]. destruct (mint_ok _ _ _ _ _ Hpos E1) as [Hadd Hk1].
    pose proof (keeps_existing _ _ _ ltac:(by eexists) Hk1) as Hacc1.
    destruct (module_to_account_ok _ _ _ _ _ _ Hpos E2) as [_ Hsent]. pose proof (to_account_accounts _ _ _ _ _ E2) as Hk2.
    pose proof (keeps_existing _ _ _ ltac:(by rewrite Hacc1) Hk2) as Hacc2.
    split_and!; [done| |intros b; cbn; by rewrite Hacc2, Hacc1|].
    + unfold GetParams. cbn. destruct Hk1 as (_ & _ & Hp1), Hk2 as (_ & _ & Hp2). by rewrite Hp2, Hp1.
    + intros b d'. cbn. rewrite Hsent, Hadd. fold d x. clear -Hpos.
      repeat case_decide; destruct_and?; simplify_eq; lia.
  - destruct (Z.ltb_spec (n - Ledger.GetBalance x a d) 0) as [Hneg|Heq].
    + destruct (SendCoinsFromAccountToModule _ _ _ _) as [x1 [e|]] eqn:E1; [done|].
      destruct (BurnCoins _ _ _) as [x2 e] eqn:E2. intros [= <- ->].
      assert (0 < - (n - Ledger.GetBalance x a d)) as Hneg' by lia.
      destruct (account_to_module_ok _ _ _ _ _ _ Hneg' E1) as [_ Hsent].
      pose proof (to_module_accounts _ _ _ _ _ E1) as Hk1.
      pose proof (keeps_existing _ _ _ ltac:(by eexists) Hk1) as Hacc1.
      destruct (burn_ok _ _ _ _ _ Hneg' E2) as [Hadd Hk2].
      pose proof (keeps_existing x1 x2 _ ltac:(rewrite Hacc1; by eexists) Hk2) as Hacc2.
      split_and!; [done| |intros b; cbn; by rewrite Hacc2, Hacc1|].
      * unfold GetParams. cbn. destruct Hk1 as (_ & _ & Hp1), Hk2 as (_ & _ & Hp2). by rewrite Hp2, Hp1.
      * intros b d'. cbn. rewrite Hadd, Hsent. fold d x. clear -Hneg.
        repeat case_decide; destruct_and?; simplify_eq; lia.
    + intros [= <-]. split_and!; try done. intros b d'. fold d x. case_decide; [|done]. destruct_and?. simplify_eq. lia.
Qed.

(** * Accounts *)

Lemma evm_valid_change k k' :
  evm_valid k -> evm_store k' = evm_store k -> GetParams k' = GetParams k ->
  (exists acc, ak_GetAccount (rest k') evm_address = Some acc /\ acct_codehash acc = None) ->
  (forall a, length a = 20%nat -> ak_GetAccount (rest k') a = None -> ak_GetAccount (rest k) a = None) ->
  evm_valid k'.
Proof.
  intros [Hm Hd Hk Hs Hc] H1 H2 H3 H4. split; [done|by rewrite H2|by rewrite H1| |].
  - intros a key Ha Hn. rewrite H1. apply Hs; [done|by apply H4].
  - intros h c Hl. rewrite (get_code_store k) by (by rewrite H1). by apply Hc.
Qed.

(** The account that [SetAccount] writes. *)
Definition written k (a : bytes) (n : Z) (h : bytes) : AccountI :=
  mkAcct a n (match ak_GetAccount (rest k) a with
              | Some acc => if bool_decide (is_Some (acct_codehash acc)) then Some h else None
              | None => Some h
              end).

Lemma SetAccount_writes k a n b h :
  length h = 32%nat ->
  exists x, SetAccount k a (mkAccount n (Some b) (Some h)) = SetBalance (with_rest x k) a b /\
    (forall c, ak_GetAccount x c = if decide (c = a) then Some (written k a n h) else ak_GetAccount (rest k) c) /\
    same_balances (rest k) x /\ GetLegacyParams x = GetLegacyParams (rest k).
Proof.
  intros Hl. unfold SetAccount, written. cbn [Nonce Balance CodeHash default]. rewrite (BytesToHash_32 h) by done.
  destruct (ak_GetAccount (rest k) a) as [[ad sq ch]|] eqn:E.
  - pose proof (account_address _ _ _ E) as Ha. cbn [acct_address] in Ha. subst ad. cbn [SetSequence acct_codehash acct_address].
    eexists. split; [reflexivity|]. split; [|by apply set_acct_rest].
    intros c. rewrite set_acct. destruct ch as [ch|]; cbn; by case_decide.
  - destruct (ak_NewAccountWithAddress (rest k) a) as [x acc] eqn:En.
    destruct (new_account _ _ _ _ En) as (-> & Hacc & Hbal & Hleg). cbn.
    eexists. split; [reflexivity|]. split_and!.
    + intros c. rewrite set_acct. cbn. case_decide; [done|]. apply Hacc.
    + intros c d. destruct (set_acct_rest x (SetCodeHash h (SetSequence n (mkAcct a 0 (Some EmptyCodeHash))))) as [Hb _].
      rewrite Hb. apply Hbal.
    + rewrite <- Hleg. by apply set_acct_rest.
Qed.

Lemma GetAccount_of k a acc :
  ak_GetAccount (rest k) a = Some acc ->
  GetAccount k a = Some (mkAccount (acct_sequence acc) (Some (GetBalance k a))
    (Some (match acct_codehash acc with Some h => BytesToHash h | None => EmptyCodeHash end))).
Proof. intros H. unfold GetAccount, GetAccountWithoutBalance. by rewrite H. Qed.

Lemma GetAccount_ext k k' a :
  evm_valid k -> evm_valid k' -> GetParams k' = GetParams k -> ak_GetAccount (rest k') a = ak_GetAccount (rest k) a ->
  Ledger.GetBalance (rest k') a (EvmDenom (GetParams k)) = Ledger.GetBalance (rest k) a (EvmDenom (GetParams k)) ->
  GetAccount k' a = GetAccount k a.
Proof.
  intros Hv Hv' Hp Ha Hb. unfold GetAccount, GetAccountWithoutBalance. rewrite Ha, !evm_GetBalance by done. by rewrite Hp, Hb.
Qed.

Lemma evm_set_account k a n b h k' :
  evm_valid k -> length h = 32%nat -> SetAccount k a (mkAccount n (Some b) (Some h)) = (k', None) ->
  evm_valid k' /\
  (exists h', GetAccount k' a = Some (mkAccount n (Some b) (Some h')) /\
     (h = emptyCodeHash \/ evm_holds_code k a -> h' = h)) /\
  (forall c, c <> a -> GetAccount k' c = GetAccount k c) /\
  (forall c, c <> a -> evm_holds_code k c -> evm_holds_code k' c) /\
  (forall c key, GetState k' c key = GetState k c key) /\
  (forall h', GetCode k' h' = GetCode k h').
Proof.
  intros Hv Hl H. destruct (SetAccount_writes k a n b h Hl) as (x & Hx & Hacc & Hbal & Hleg). rewrite Hx in H.
  assert (GetParams (with_rest x k) = GetParams k) as Hp by (unfold GetParams; cbn; by rewrite Hleg).
  assert (evm_valid (with_rest x k)) as Hv1.
  { apply (evm_valid_change k); [done|done|done| |].
    - destruct (valid_module _ Hv) as (acc & Hm & Hc). cbn. rewrite Hacc. case_decide as Ha; [|by eexists].
      eexists. split; [done|]. unfold written. cbn. by rewrite <- Ha, Hm, Hc.
    - intros c _. cbn. rewrite Hacc. by case_decide. }
  destruct (SetBalance_ok _ _ _ _ Hv1 ltac:(cbn; rewrite Hacc, decide_True by done; by eexists) H) as (Hst & Hp' & Hac' & Hb').
  rewrite Hp in Hp', Hb'. cbn in Hst, Hac', Hb'.
  assert (evm_valid k') as Hv'.
  { apply (evm_valid_change _ k' Hv1); [done|congruence| |].
    - rewrite Hac'. apply (valid_module _ Hv1).
    - intros c _. by rewrite Hac'. }
  split_and!; [done| | | | |].
  - eexists. rewrite (GetAccount_of k' a (written k a n h)) by (by rewrite Hac', Hacc, decide_True).
    rewrite evm_GetBalance, Hp', Hb', decide_True by done. split; [reflexivity|]. cbn. unfold evm_holds_code.
    destruct (ak_GetAccount (rest k) a) as [acc|]; [|intros _; by apply BytesToHash_32].
    case_bool_decide as Hc; [intros _; by apply BytesToHash_32|]. by intros [->|?].
  - intros c Hc. apply GetAccount_ext; [done|done|done|by rewrite Hac', Hacc, decide_False|].
    rewrite Hb', decide_False by (by intros [? _]). apply Hbal.
  - intros c Hc. unfold evm_holds_code. by rewrite Hac', Hacc, decide_False.
  - intros c key. apply get_state_store. by rewrite Hst.
  - intros h'. apply get_code_store. by rewrite Hst.
Qed.

(** * Storage and code *)

(** A write to the store that leaves parameters alone. *)
Lemma evm_valid_store k st :
  evm_valid k -> st !! KeyPrefixParams = evm_store k !! KeyPrefixParams ->
  (forall a key v, length a = 20%nat -> st !! StateKey a key = Some v ->
     evm_store k !! StateKey a key = Some v \/ (length key = 32%nat /\ is_Some (ak_GetAccount (rest k) a))) ->
  (forall h c, length h = 32%nat -> GetCode (with_store st k) h = Some c ->
     GetCode k h = Some c \/ (Keccak256Hash (Some c) = h /\ c <> [])) ->
  evm_valid (with_store st k).
Proof.
  intros [Hm Hd Hk Hs Hc] Hp H HC. split; [done| | | |]; cbn.
  - by rewrite (get_params_store k).
  - intros a key v Ha Hst. destruct (H a key v Ha Hst) as [?|[? _]]; [by eapply Hk|done].
  - intros a key Ha Hn. destruct (st !! StateKey a key) as [v|] eqn:E; [|done].
    destruct (H a key v Ha E) as [Hst|[_ [? ?]]]; [by rewrite Hs in Hst|congruence].
  - intros h c Hl Hg. destruct (HC h c Hl Hg) as [?|?]; [by apply Hc|done].
Qed.

Lemma GetAccount_store k st a :
  st !! KeyPrefixParams = evm_store k !! KeyPrefixParams -> GetAccount (with_store st k) a = GetAccount k a.
Proof.
  intros H. unfold GetAccount, GetAccountWithoutBalance, GetBalance. by rewrite (get_params_store k (with_store st k)).
Qed.

Lemma SetState_value k a key v :
  length v = 32%nat -> SetState k a key v = with_store (<[StateKey a key := VBytes v]> (evm_store k)) k.
Proof. by destruct v. Qed.

Lemma evm_set_state k a key v :
  evm_valid k -> length a = 20%nat -> length key = 32%nat -> length v = 32%nat -> is_Some (GetAccount k a) ->
  evm_valid (SetState k a key v) /\
  (forall c, GetAccount (SetState k a key v) c = GetAccount k c) /\
  (forall c, evm_holds_code k c -> evm_holds_code (SetState k a key v) c) /\
  (forall c key', length c = 20%nat -> length key' = 32%nat ->
     GetState (SetState k a key v) c key' = if decide (c = a /\ key' = key) then v else GetState k c key') /\
  (forall h, GetCode (SetState k a key v) h = GetCode k h).
Proof.
  intros Hv Ha Hkey Hl Hacc. rewrite SetState_value by done.
  assert (forall h, GetCode (with_store (<[StateKey a key := VBytes v]> (evm_store k)) k) h = GetCode k h) as Hcode.
  { intros h. apply get_code_store. cbn. by rewrite lookup_insert_ne by done. }
  split_and!; [| |done| |done].
  - apply evm_valid_store; [done|by rewrite lookup_insert_ne by done| |intros h c _ Hg; rewrite Hcode in Hg; by left]. intros c key' w Hc.
    intros [[HK <-]|[_ ?]]%lookup_insert_Some; [|by left]. destruct (StateKey_inj a c key key' ltac:(congruence) HK) as [<- <-].
    right. split; [done|]. unfold GetAccount, GetAccountWithoutBalance in Hacc.
    destruct (ak_GetAccount (rest k) a); [by eexists|by destruct Hacc].
  - intros c. apply GetAccount_store. by rewrite lookup_insert_ne by done.
  - intros c key' Hc Hk'. case_decide as H.
    + destruct H as [-> ->]. unfold GetState, get_bytes. cbn. rewrite lookup_insert_eq.
      destruct v as [|z v]; [done|]. by apply BytesToHash_32.
    + apply get_state_store. cbn. rewrite lookup_insert_ne; [done|]. intros HK.
      apply StateKey_inj in HK as [-> ->]; [by apply H|congruence].
Qed.

Lemma evm_set_code k h c :
  evm_valid k -> Keccak256Hash (Some c) = h ->
  evm_valid (SetCode k h (Some c)) /\ (forall a, GetAccount (SetCode k h (Some c)) a = GetAccount k a) /\
  (forall a, evm_holds_code k a -> evm_holds_code (SetCode k h (Some c)) a) /\
  (forall a key, GetState (SetCode k h (Some c)) a key = GetState k a key) /\
  (forall h', GetCode (SetCode k h (Some c)) h' =
     if decide (h' = h) then if decide (c = []) then None else Some c else GetCode k h').
Proof.
  intros Hv Hc. unfold SetCode. set (st := match c with [] => _ | _ => _ end).
  assert (forall key, key <> KeyPrefixCode ++ h -> st !! key = evm_store k !! key) as Hst.
  { intros key Hne. subst st. destruct c as [|z c]; by rewrite ?lookup_delete_ne, ?lookup_insert_ne. }
  assert (forall h', GetCode (with_store st k) h' =
     if decide (h' = h) then if decide (c = []) then None else Some c else GetCode k h') as Hcode.
  { intros h'. destruct (decide (h' = h)) as [->|Hne]; [|apply get_code_store, Hst; by intros [= ->]].
    unfold GetCode, get_bytes, st. cbn [evm_store with_store].
    destruct c as [|z c]; [by rewrite lookup_delete_eq|by rewrite lookup_insert_eq]. }
  split_and!; [| |done| |done].
  - apply evm_valid_store; [done|by apply Hst| |].
    + intros a key v _. rewrite Hst by done. by left.
    + intros h' c' _. rewrite Hcode. destruct (decide (h' = h)) as [->|]; [|by left]. case_decide; [done|]. intros [= <-]. by right.
  - intros a. by apply GetAccount_store, Hst.
  - intros a key. by apply get_state_store, Hst.
Qed.

(** * Deletion *)

(** Clearing the storage of [a] entry by entry. *)
Lemma for_each_clear a (es : list (bytes * val)) : forall k,
  Forall (fun e => exists key, e.1 = StateKey a key /\ length key = 32%nat) es ->
  let k' := for_each (fun key _ k => (SetState k a key [], true)) es k in
  rest k' = rest k /\
  forall K, evm_store k' !! K = if bool_decide (K ∈ es.*1) then None else evm_store k !! K.
Proof.
  induction es as [|[K0 v] es IH]; intros k Hes; [done|]. cbn [for_each].
  apply Forall_cons in Hes as [(key & HK & Hl) Hes]. cbn [fst] in HK. subst K0.
  assert (BytesToHash (StateKey a key) = key) as -> by (by apply BytesToHash_crop).
  destruct (IH (SetState k a key []) Hes) as [Hr Hst]. split; [done|]. intros K. rewrite Hst. cbn [SetState with_store evm_store fmap list_fmap fst].
  destruct (decide (K = StateKey a key)) as [->|Hne].
  - rewrite lookup_delete_eq. rewrite (bool_decide_true (StateKey a key ∈ StateKey a key :: _)) by (by left).
    by destruct (bool_decide _).
  - rewrite lookup_delete_ne by done.
    rewrite (bool_decide_ext (K ∈ es.*1) (K ∈ StateKey a key :: es.*1)); [done|].
    rewrite elem_of_cons. split; [by right|by intros [?|?]].
Qed.

(** The whole walk: everything under the prefix of [a] is gone. *)
Lemma clear_storage k a :
  evm_valid k -> length a = 20%nat ->
  let k' := ForEachStorage k a (fun key _ k => (SetState k a key [], true)) k in
  rest k' = rest k /\
  forall K, evm_store k' !! K = if is_prefix (AddressStoragePrefix a) K then None else evm_store k !! K.
Proof.
  intros Hv Ha. destruct (for_each_clear a (prefix_iter (AddressStoragePrefix a) (evm_store k)) k) as [Hr Hst].
  { apply Forall_forall. intros [K v] [HK [key ->]%is_prefix_true]%elem_of_prefix_iter. exists key.
    split; [done|]. by eapply (valid_keys _ Hv a). }
  split; [done|]. intros K. unfold ForEachStorage. rewrite Hst. case_bool_decide as HK.
  - apply list_elem_of_fmap in HK as ([K' v] & -> & [_ HK]%elem_of_prefix_iter). cbn [fst]. by rewrite HK.
  - destruct (is_prefix _ K) eqn:E; [|done]. destruct (evm_store k !! K) as [v|] eqn:Ek; [|done].
    destruct HK. apply list_elem_of_fmap. exists (K, v). split; [done|]. by apply elem_of_prefix_iter.
Qed.

Lemma prefix_StateKey a c key :
  length a = length c -> is_prefix (AddressStoragePrefix a) (StateKey c key) = true -> a = c.
Proof.
  intros Hl [s Hs]%is_prefix_true. change (AddressStoragePrefix a ++ s) with (StateKey a s) in Hs.
  by apply StateKey_inj in Hs as [<- _].
Qed.

Lemma evm_delete_account k a k' :
  evm_valid k -> length a = 20%nat -> DeleteAccount k a = (k', None) ->
  evm_valid k' /\ GetAccount k' a = None /\
  (forall key, GetState k' a key = zero_hash) /\
  (forall c, c <> a -> GetAccount k' c = GetAccount k c) /\
  (forall c, c <> a -> evm_holds_code k c -> evm_holds_code k' c) /\
  (forall c key, c <> a -> length c = 20%nat -> GetState k' c key = GetState k c key) /\
  (forall h, GetCode k' h = GetCode k h).
Proof.
  intros Hv Ha. unfold DeleteAccount. destruct (ak_GetAccount (rest k) a) as [acc|] eqn:Ea.
  2:{ intros [= <-]. split_and!; try done.
      - unfold GetAccount, GetAccountWithoutBalance. by rewrite Ea.
      - intros key. unfold GetState, get_bytes. by rewrite (valid_storage _ Hv). }
  case_bool_decide as Hc; [done|]. destruct (SetBalance k a 0) as [k1 [e|]] eqn:E; [done|]. intros [= <-].
  destruct (SetBalance_ok _ _ _ _ Hv ltac:(by eexists) E) as (Hst & Hp & Hacc & Hb).
  assert (evm_valid k1) as Hv1.
  { apply (evm_valid_change k); [done|done|done|rewrite Hacc; apply (valid_module _ Hv)|intros c _; by rewrite Hacc]. }
  destruct (clear_storage k1 a Hv1 Ha) as [Hr Hs]. set (k2 := ForEachStorage _ _ _ _) in *. rewrite Hst in Hs.
  set (k' := with_rest _ k2). pose proof (account_address _ _ _ Ea) as Hadr.
  assert (forall c, ak_GetAccount (rest k') c = if decide (c = a) then None else ak_GetAccount (rest k) c) as Hacc'.
  { intros c. cbn. rewrite remove_acct, Hadr, Hr. case_decide; [done|apply Hacc]. }
  assert (GetParams k' = GetParams k) as Hp'.
  { rewrite <- Hp. unfold GetParams. cbn. rewrite Hs, Hst. cbn. destruct (remove_acct_rest (rest k2) acc) as [_ ->]. by rewrite Hr. }
  assert (forall c, c <> a -> length c = 20%nat -> forall key, evm_store k' !! StateKey c key = evm_store k !! StateKey c key) as Hoth.
  { intros c Hne Hlc key. change (evm_store k') with (evm_store k2). rewrite Hs. destruct (is_prefix _ _) eqn:Epre; [|done].
    apply prefix_StateKey in Epre; [congruence|congruence]. }
  assert (forall key, evm_store k' !! StateKey a key = None) as Hown.
  { intros key. change (evm_store k') with (evm_store k2). rewrite Hs. unfold StateKey. by rewrite is_prefix_app. }
  assert (forall h, GetCode k' h = GetCode k h) as Hcode.
  { intros h. apply get_code_store. change (evm_store k') with (evm_store k2). by rewrite Hs. }
  assert (evm_valid k') as Hv'.
  { destruct (valid_module _ Hv) as (macc & Hm & Hmc). split; [| | | |intros h c; rewrite Hcode; apply (valid_code _ Hv)].
    - exists macc. rewrite Hacc', decide_False; [done|]. intros <-. congruence.
    - rewrite Hp'. apply (valid_denom _ Hv).
    - intros c key v Hlc. destruct (decide (c = a)) as [->|]; [by rewrite Hown|rewrite Hoth by done]. by apply (valid_keys _ Hv).
    - intros c key Hlc. destruct (decide (c = a)) as [->|]; [by rewrite Hown|]. rewrite Hoth, Hacc', decide_False by done.
      by apply (valid_storage _ Hv). }
  split_and!; [done| | | | | |done].
  - unfold GetAccount, GetAccountWithoutBalance. by rewrite Hacc', decide_True.
  - intros key. unfold GetState, get_bytes. by rewrite Hown.
  - intros c Hne. apply GetAccount_ext; [done|done|done|by rewrite Hacc', decide_False|].
    cbn. destruct (remove_acct_rest (rest k2) acc) as [Hbal _]. rewrite Hbal, Hr, Hb, decide_False; [done|by intros [? _]].
  - intros c Hne. unfold evm_holds_code. by rewrite Hacc', decide_False.
  - intros c key Hne Hlc. by apply get_state_store, Hoth.
Qed.

(** * The contract *)

#[export, refine] Instance evm_laws : KeeperLaws (chain X) := {|
  valid := evm_valid;
  holds_code := evm_holds_code
|}.
Proof.
  - intros k a acc _. cbn. unfold GetAccount, GetAccountWithoutBalance.
    destruct (ak_GetAccount (rest k) a) as [acct|]; [|done]. intros [= <-]. cbn.
    destruct (acct_codehash acct); [apply length_BytesToHash|apply length_emptyCodeHash].
  - intros k a key _. cbn. unfold GetState. destruct (get_bytes k _) as [[|]|]; [done|apply length_BytesToHash|done].
  - intros k h c Hv. apply (valid_code _ Hv).
  - intros k a n b h k' Hv _. by apply evm_set_account.
  - intros k a key v. apply evm_set_state.
  - intros k h c Hv _. by apply evm_set_code.
  - intros k a k' Hv Ha H. destruct (evm_delete_account k a k' Hv Ha H) as (? & ? & Hs & ? & ? & Ho & ?).
    split_and!; try done; intros; [apply Hs|by apply Ho].
Defined.

(** C9: the end of a transaction, over the keeper of the module.  From a fresh
    state database over a valid keeper, after any operations, snapshots and
    reverts, [Commit] does not panic.  If it succeeds, the keeper is valid again and
    has lost no code, and every account that the journal has left dirty is in the
    keeper as the transaction last read it: destroyed, or with nonce, bank balance,
    every storage slot, its code under the code hash (unless the keeper has a
    colliding code there), and the code hash itself if the account can hold one.
    Accounts that are not dirty keep account, balance and storage.  If it fails,
    the keeper refused the deletion of a dirty account, or the write of one as the
    transaction last read it. *)
Theorem transaction_persists k cfg s :
  evm_valid k -> rtc tx_step (New k cfg) s ->
  match Commit s with
  | (s', Ok _) => evm_valid (keeper s') /\ code_kept k (keeper s') /\ forall a, length a = 20%nat -> persisted s (keeper s') a
  | (_, Err e) => refused s e
  | (_, Panic) => False
  end.
Proof. exact (commit_persists_reads k cfg s). Qed.

End Laws.
