(* ===== verification/StateDBCases.v ===== *)
(** [x/evm/statedb]: a reference keeper, a concrete frame that is reverted, and
    the state that a commit inside a reverted frame leaves behind. *)

From stdpp Require Import base list gmap strings sorting relations.
From Stdlib Require Import ZArith Lia.
From S2P Require Import Prelude KVStore StateDB StateDBProps.
Open Scope Z_scope.
Open Scope go_scope.

(** * Reference instances *)

(** Crop or pad on the left; the hash is only a stand-in. *)
Definition to_hash (b : bytes) : bytes :=
  if decide (32 <= length b)%nat then drop (length b - 32) b else replicate (32 - length b) 0 ++ b.

Lemma length_to_hash b : length (to_hash b) = 32%nat.
Proof.
  unfold to_hash. case_decide; [rewrite length_drop|rewrite length_app, length_replicate]; lia.
Qed.

Lemma to_hash_crop b c : length c = 32%nat -> to_hash (b ++ c) = c.
Proof.
  intros Hc. unfold to_hash. rewrite length_app, decide_True by lia.
  replace (length b + length c - 32)%nat with (length b) by lia. apply drop_app_length.
Qed.

#[export, refine] Instance ref_hash : EthHash := {|
  emptyCodeHash := replicate 32 197;
  Keccak256Hash := fun c => to_hash (default [] c);
  BytesToHash := to_hash
|}.
Proof.
  - intros b. apply (to_hash_crop []).
  - apply to_hash_crop.
  - apply length_to_hash.
  - done.
  - intros c. apply length_to_hash.
Defined.

Record kstate := mkK {
  k_accounts : gmap bytes Account;
  k_storage : gmap (bytes * bytes) bytes;
  k_codes : gmap bytes bytes
}.

#[export] Instance ref_keeper : Keeper kstate := {|
  GetAccount := fun k a => k_accounts k !! a;
  GetState_keeper := fun k a key => default zero_hash (k_storage k !! (a, key));
  GetCode_keeper := fun k h => k_codes k !! h;
  SetAccount := fun k a acc => (mkK (<[a := acc]> (k_accounts k)) (k_storage k) (k_codes k), None);
  SetState_keeper := fun k a key v => mkK (k_accounts k) (<[(a, key) := v]> (k_storage k)) (k_codes k);
  SetCode_keeper := fun k h c =>
    mkK (k_accounts k) (k_storage k) (match c with Some c => <[h := c]> (k_codes k) | None => delete h (k_codes k) end);
  DeleteAccount := fun k a =>
    (mkK (delete a (k_accounts k)) (filter (fun e => e.1.1 <> a) (k_storage k)) (k_codes k), None)
|}.

Definition alice : bytes := replicate 20 1.
Definition bob : bytes := replicate 20 2.
Definition carol : bytes := replicate 20 3.
Definition slot1 : bytes := replicate 32 1.
Definition val1 : bytes := replicate 32 5.

(** Alice has 100 coins; Carol is a contract. *)
Definition k0 : kstate :=
  mkK {[ alice := mkAccount 3 (Some 100) None; carol := mkAccount 1 (Some 0) (Some (replicate 32 9)) ]} ∅ ∅.
Definition cfg0 : TxConfig := mkTxConfig zero_hash zero_hash 0 0.
Definition db0 : StateDB kstate := New k0 cfg0.

Lemma k0_code_hashes a acc :
  k_accounts k0 !! a = Some acc -> length (default emptyCodeHash (CodeHash acc)) = 32%nat.
Proof.
  unfold k0. cbn [k_accounts].
  by intros [[_ <-]|[_ [_ <-]%lookup_singleton_Some]]%lookup_insert_Some.
Qed.

Lemma db0_wf : wf db0.
Proof.
  split; [split| | | |].
  - intros a o. unfold object_at. cbn [db0 New stateObjects keeper]. rewrite lookup_empty.
    intros (acc & Hacc & ->)%fmap_Some. split; [done|]. exact (k0_code_hashes a acc Hacc).
  - exact k0_code_hashes.
  - constructor.
  - constructor.
  - intros a. done.
  - constructor.
  - constructor.
Qed.

(** A transfer before the frame; in it, storage, a log, an access list entry, and
    an inner frame that resets and destroys an account and is reverted. *)
Definition db1 : StateDB kstate := AddBalance bob 7 (SubBalance alice 7 db0).
Definition db2 : StateDB kstate := (Snapshot db1).1.
Definition db3 : StateDB kstate := SetState bob slot1 val1 db2.
Definition db4 : StateDB kstate := (Snapshot db3).1.
Definition db5 : StateDB kstate := (Suicide alice (CreateAccount bob db4)).1.
Definition db6 : StateDB kstate := (RevertToSnapshot 1 db5).1.
Definition db7 : StateDB kstate := (AddSlotToAccessList bob slot1 (AddLog [[1]] db6)).1.
Definition db8 : StateDB kstate := (RevertToSnapshot 0 db7).1.

Lemma frame_db2_db7 : rtc (frame_step 0) db2 db7.
Proof.
  apply (rtc_l _ _ db3). { by apply (frame_op 0 (OSetState bob slot1 val1)). }
  apply (rtc_l _ _ db4). { apply frame_snapshot. }
  apply (rtc_l _ _ (CreateAccount bob db4)). { by apply (frame_op 0 (OCreateAccount bob)). }
  apply (rtc_l _ _ db5). { by apply (frame_op 0 (OSuicide alice)). }
  apply (rtc_l _ _ db6).
  { apply (frame_revert 0 1); [lia|]. unfold db6. apply run_eq. vm_compute. reflexivity. }
  apply (rtc_l _ _ (AddLog [[1]] db6)). { by apply (frame_op 0 (OAddLog [[1]])). }
  apply rtc_once, (frame_op 0 (OAddSlot bob slot1)). cbn [exec]. unfold db7. apply run_eq. vm_compute. reflexivity.
Qed.

Lemma db1_wf : wf db1.
Proof.
  unfold db1. apply (fine_AddBalance bob 7). apply (fine_SubBalance alice 7). apply db0_wf.
Qed.

Lemma revert_restores_snapshot_witness :
  exists s3, RevertToSnapshot 0 db7 = (s3, Ok tt) /\ wf s3 /\ same_reads s3 db1 /\
    entries s3 = entries db1 /\ dirties s3 = dirties db1 /\ validRevisions s3 = validRevisions db1.
Proof.
  apply (revert_restores_snapshot db1 db2 db7 0 db1_wf).
  - reflexivity.
  - exact frame_db2_db7.
Defined.

(** * A commit inside a frame *)

Definition ok_of {S E A} (r : S * result E A) : bool := match r.2 with Ok _ => true | _ => false end.

(** Bob was paid before the frame, Carol's contract was not touched.  In the
    frame both contracts write a slot and a precompile that commits is called;
    then the frame is reverted and the transaction commits. *)
Definition touched : StateDB kstate := SetState carol slot1 val1 (SetState bob slot1 val1 db2).
Definition flushed : StateDB kstate := (Commit touched).1.
Definition reverted : StateDB kstate := (RevertToSnapshot 0 flushed).1.
Definition final : StateDB kstate := (Commit reverted).1.

(** Reads in the same transaction see the old values again.  An account that was
    dirty before the frame is written back by the last [Commit] (the committed value is
    remembered in [transientStorage]); one that only the frame touched is no longer
    dirty, and its slot keeps the value that the reverted frame wrote. *)
Example commit_in_reverted_frame :
  ok_of (Commit touched) = true /\ ok_of (RevertToSnapshot 0 flushed) = true /\ ok_of (Commit reverted) = true /\
  (GetState bob slot1 db2).2 = zero_hash /\ (GetState carol slot1 db2).2 = zero_hash /\
  (GetState bob slot1 reverted).2 = zero_hash /\ (GetState carol slot1 reverted).2 = zero_hash /\
  GetState_keeper (keeper final) bob slot1 = zero_hash /\
  GetState_keeper (keeper final) carol slot1 = val1.
Proof. split_and!; vm_compute; reflexivity. Qed.
