(* ===== verification/EvmKeeperCases.v ===== *)
(** [x/evm/keeper]: a reference chain, a transaction on it, a commit inside a frame
    that is reverted, and an account that loses its code. *)

From stdpp Require Import base list gmap strings sorting relations.
From Stdlib Require Import ZArith Lia.
From S2P Require Import Prelude KVStore Ledger StateDB StateDBProps StateDBCommit StateDBNested StateDBCases EvmKeeper EvmKeeperProps.
Open Scope Z_scope.

(** * A bank and a map of accounts *)

Abbreviation ref_chain := (RefBank.bank * gmap bytes AccountI)%type.

Definition add_coins (x : ref_chain) (a : bytes) (d : string) (n : Z) : ref_chain :=
  (<[(a, d) := RefBank.balance x.1 a d + n]> x.1, x.2).

#[export] Instance ref_accounts : AccountKeeper ref_chain := {|
  ak_GetAccount := fun x a => acc ← x.2 !! a; if decide (acct_address acc = a) then Some acc else None;
  ak_NewAccountWithAddress := fun x a => (x, mkAcct a 0 (Some EmptyCodeHash));
  ak_SetAccount := fun x acc => (x.1, <[acct_address acc := acc]> x.2);
  ak_RemoveAccount := fun x acc => (x.1, delete (acct_address acc) x.2)
|}.

#[export] Instance ref_mint : MintKeeper ref_chain := {|
  MintCoins := fun x m c => (add_coins x (GetModuleAddress m) c.1 c.2, None);
  BurnCoins := fun x m c =>
    if RefBank.balance x.1 (GetModuleAddress m) c.1 <? c.2 then (x, Some 5)
    else (add_coins x (GetModuleAddress m) c.1 (- c.2), None);
  GetLegacyParams := fun _ => mkParams "ahpx" true true false []
|}.

Lemma add_coins_added x a d n : added x (add_coins x a d n) a d n.
Proof.
  intros b d'. cbn. unfold RefBank.balance. rewrite lookup_insert.
  repeat case_decide; simplify_eq/=; try lia; naive_solver.
Qed.

Lemma add_coins_keeps x a d n dst : keeps_accounts dst x (add_coins x a d n).
Proof. done. Qed.

#[export] Instance ref_laws : EvmChainLaws ref_chain.
Proof.
  constructor; cbn.
  - intros x a acc. destruct (x.2 !! a) as [acc'|]; cbn; [|done]. case_decide; [|done]. by intros [= <-].
  - intros x a x' acc [= <- <-]. by split_and!.
  - intros x acc b. case_decide as H.
    + subst b. rewrite lookup_insert_eq. cbn. by rewrite decide_True.
    + by rewrite lookup_insert_ne.
  - done.
  - intros x acc b. case_decide as H.
    + subst b. by rewrite lookup_delete_eq.
    + by rewrite lookup_delete_ne.
  - done.
  - intros x m d n x' _ [= <-]. split; [apply add_coins_added|done].
  - intros x m d n x' _. destruct (_ <? _); [done|]. intros [= <-]. split; [apply add_coins_added|done].
  - intros x a m c x' [_ H]%PairBank.on_bank_inv. unfold keeps_accounts. cbn. by rewrite H.
  - intros x m a c x' [_ H]%PairBank.on_bank_inv. unfold keeps_accounts. cbn. by rewrite H.
Qed.

(** * A chain: Alice with 100 coins, Carol's contract, and a vesting account, which
    cannot hold a code hash *)

Definition vesting : bytes := replicate 20 4.

Definition chain0 : chain ref_chain :=
  mkChain {[ KeyPrefixParams := VParams (mkParams "ahpx" true true false []); StateKey carol slot1 := VBytes val1 ]}
    ({[ (alice, "ahpx"%string) := 100 ]},
     {[ alice := mkAcct alice 3 (Some EmptyCodeHash); carol := mkAcct carol 1 (Some (replicate 32 9));
        vesting := mkAcct vesting 0 None; evm_address (X := ref_chain) := mkAcct (evm_address (X := ref_chain)) 0 None ]}).

Lemma chain0_store a key v : length a = 20%nat ->
  evm_store chain0 !! StateKey a key = Some v -> a = carol /\ key = slot1.
Proof.
  intros Ha. unfold chain0. cbn [evm_store]. intros [[H _]|[_ [H _]%lookup_singleton_Some]]%lookup_insert_Some; [done|].
  by apply StateKey_inj in H as [<- <-].
Qed.

Lemma chain0_valid : evm_valid chain0.
Proof.
  split.
  - exists (mkAcct evm_address 0 None). split; [by vm_compute|done].
  - by vm_compute.
  - intros a key v Ha H. by destruct (chain0_store a key v Ha H) as [_ ->].
  - intros a key Ha Hn. destruct (evm_store chain0 !! StateKey a key) as [v|] eqn:E; [|done].
    destruct (chain0_store a key v Ha E) as [-> ->]. by vm_compute in Hn.
  - intros h c _. unfold GetCode, get_bytes, chain0. cbn [evm_store]. by rewrite lookup_insert_ne, lookup_singleton_ne by done.
Qed.

Definition code : bytes := [96; 0].

(** A transfer, a write and the code of a contract; an inner frame that destroys
    Alice's account and is reverted; then Carol's contract is destroyed. *)
Definition tx0 : StateDB (chain ref_chain) := New chain0 cfg0.
Definition tx1 := StateDB.SetCode bob (Some code) (StateDB.SetState bob slot1 val1 (AddBalance bob 7 (SubBalance alice 7 tx0))).
Definition tx2 := (Suicide alice (Snapshot tx1).1).1.
Definition tx3 := (RevertToSnapshot 0 tx2).1.
Definition tx4 := (Suicide carol tx3).1.

Lemma tx0_tx4 : rtc tx_step tx0 tx4.
Proof.
  apply (rtc_l _ _ (SubBalance alice 7 tx0)). { by apply (tx_op (OSubBalance alice 7)). }
  apply (rtc_l _ _ (AddBalance bob 7 (SubBalance alice 7 tx0))). { by apply (tx_op (OAddBalance bob 7)). }
  apply (rtc_l _ _ (StateDB.SetState bob slot1 val1 (AddBalance bob 7 (SubBalance alice 7 tx0)))).
  { by apply (tx_op (OSetState bob slot1 val1)). }
  apply (rtc_l _ _ tx1). { by apply (tx_op (OSetCode bob (Some code))). }
  apply (rtc_l _ _ (Snapshot tx1).1). { apply tx_snapshot. }
  apply (rtc_l _ _ tx2). { by apply (tx_op (OSuicide alice)). }
  apply (rtc_l _ _ tx3). { apply (tx_revert 0). unfold tx3. apply run_eq. vm_compute. reflexivity. }
  apply rtc_once. by apply (tx_op (OSuicide carol)).
Qed.

Lemma transaction_persists_witness :
  match Commit tx4 with
  | (s', Ok _) => evm_valid (keeper s') /\ code_kept chain0 (keeper s') /\ forall a, length a = 20%nat -> persisted tx4 (keeper s') a
  | (_, Err e) => refused tx4 e
  | (_, Panic) => False
  end.
Proof. apply (transaction_persists chain0 cfg0 tx4); [exact chain0_valid|exact tx0_tx4]. Defined.

(** The commit succeeds, and the accounts are as the reads showed them. *)
Lemma transaction_runs :
  ok_of (Commit tx4) = true /\
  GetAccount (keeper (Commit tx4).1) alice = Some (mkAccount 3 (Some 93) (Some emptyCodeHash)) /\
  GetAccount (keeper (Commit tx4).1) bob = Some (mkAccount 0 (Some 7) (Some (Keccak256Hash (Some code)))) /\
  GetCode (keeper (Commit tx4).1) (Keccak256Hash (Some code)) = Some code /\
  GetState (keeper (Commit tx4).1) bob slot1 = val1 /\
  GetAccount (keeper (Commit tx4).1) carol = None /\ GetState (keeper (Commit tx4).1) carol slot1 = zero_hash.
Proof. split_and!; vm_compute; reflexivity. Qed.

(** * A commit inside a frame *)

(** Bob is paid, then a frame writes to Carol's contract and calls a precompile that
    commits; the frame is reverted and the transaction ends. *)
Definition val2 : bytes := replicate 32 8.
Definition nest1 : StateDB (chain ref_chain) := AddBalance bob 7 (SubBalance alice 7 tx0).
Definition nest3 := StateDB.SetState carol slot1 val2 (Snapshot nest1).1.
Definition nest4 := (Commit nest3).1.
Definition nest5 := (RevertToSnapshot (Snapshot nest1).2 nest4).1.
Definition nest6 := (Commit nest5).1.

(** The transaction reads the old value of Carol's slot, and the keeper has the new one. *)
Lemma commit_in_reverted_frame_persists_witness :
  (StateDB.GetState carol slot1 nest1).2 = val1 /\ (StateDB.GetState carol slot1 nest5).2 = val1 /\
  GetState (keeper nest6) carol slot1 = val2 /\
  dirties nest5 !! carol = None /\ persisted nest3 (keeper nest6) carol.
Proof.
  split; [vm_compute; reflexivity|]. split; [vm_compute; reflexivity|]. split; [vm_compute; reflexivity|].
  apply (commit_in_reverted_frame_persists chain0 cfg0 nest1 nest3 nest4 nest5 nest6 carol).
  - exact chain0_valid.
  - apply (rtc_l _ _ (SubBalance alice 7 tx0)). { by apply (tx_op (OSubBalance alice 7)). }
    apply rtc_once. by apply (tx_op (OAddBalance bob 7)).
  - apply rtc_once. split; [by apply (frame_op _ (OSetState carol slot1 val2))|by apply (tx_op (OSetState carol slot1 val2))].
  - unfold nest4. apply run_eq. vm_compute. reflexivity.
  - unfold nest5. apply run_eq. vm_compute. reflexivity.
  - unfold nest6. apply run_eq. vm_compute. reflexivity.
  - reflexivity.
  - vm_compute. reflexivity.
Defined.

(** * A contract at the address of a vesting account *)

Definition deployed : StateDB (chain ref_chain) := StateDB.SetCode vesting (Some code) (SetNonce vesting 1 tx0).
Definition after : chain ref_chain := keeper (Commit deployed).1.

(** [SetAccount] writes the code hash only into accounts of the Ethereum
    kind.  A contract deployed at an address that already has another account (a
    vesting or base account with nonce zero) has its code during the transaction
    and commits without an error; afterwards the keeper has the new nonce and no
    code hash, so the address has no code. *)
Theorem code_lost_on_other_account :
  (StateDB.GetCode vesting deployed).2 = Some code /\ ok_of (Commit deployed) = true /\
  GetAccount after vesting = Some (mkAccount 1 (Some 0) (Some emptyCodeHash)) /\
  (StateDB.GetCode vesting (New after cfg0)).2 = None.
Proof. split_and!; vm_compute; reflexivity. Qed.
