(* ===== verification/EvmTx.v ===== *)
(** [x/evm/types]: Ethereum transactions and what they cost.

    The four wrappers of go-ethereum's transaction types ([legacy_tx.go],
    [access_list_tx.go], [dynamic_fee_tx.go], [set_code_tx.go]) with the functions of
    the interface [TxData] ([tx_data.go]), their conversion from and to go-ethereum,
    the stateless checks of [msg.go] and the priority of [tx.go].

    A [*big.Int] or [*sdkmath.Int] is an [option Z], [None] for nil; a function that
    reads through a nil pointer panics, which is [None] where its result is an
    option and the result [Panic] elsewhere.  [Copy] and the identity getters have no
    definition of their own. *)

From stdpp Require Import base list gmap strings.
From Stdlib Require Import ZArith Lia.
From S2P Require Import Prelude.
Open Scope Z_scope.

(** * Libraries *)

(** [big.Int.Bytes]: the absolute value, big-endian, without leading zeros. *)
Definition big_Bytes (v : Z) : bytes :=
  if v =? 0 then [] else be_encode (Z.to_nat (Z.log2 (Z.abs v) / 8 + 1)) (Z.abs v).

(** [big.Int.BitLen() <= n] *)
Definition bitlen_le (v n : Z) : bool := Z.abs v <? 2 ^ n.

(** go-ethereum's hexadecimal forms of addresses and hashes. *)
Class HexLib := {
  HexToAddress : string -> bytes;
  AddressHex : bytes -> string;
  IsHexAddress : string -> bool;
  HexToHash : string -> bytes;
  HashHex : bytes -> string
}.

(** An array of [n] bytes. *)
Definition byte_array (n : nat) (a : bytes) : Prop := length a = n /\ Forall (fun b => 0 <= b < 256) a.

Class HexLaws {HL : HexLib} := {
  address_hex : forall a, byte_array 20 a -> HexToAddress (AddressHex a) = a;
  address_hex_valid : forall a, byte_array 20 a -> IsHexAddress (AddressHex a) = true;
  address_hex_empty : forall a, AddressHex a <> ""%string;
  hash_hex : forall h, byte_array 32 h -> HexToHash (HashHex h) = h
}.

(** [ethtypes.AccessList], [ethtypes.Authorization]. *)
Abbreviation eth_access_list := (list (bytes * list bytes)).
Record EthAuthorization := mkEthAuth {
  ea_ChainID : option Z; ea_Address : bytes; ea_Nonce : Z; ea_V : option Z; ea_R : option Z; ea_S : option Z }.

(** The transaction data of go-ethereum. *)
Inductive EthData :=
| EthLegacyTx (nonce : Z) (gasPrice : option Z) (gas : Z) (to : option bytes) (value : option Z) (data : bytes)
    (v r s : option Z)
| EthAccessListTx (chainID : option Z) (nonce : Z) (gasPrice : option Z) (gas : Z) (to : option bytes)
    (value : option Z) (data : bytes) (accessList : option eth_access_list) (v r s : option Z)
| EthDynamicFeeTx (chainID : option Z) (nonce : Z) (gasTipCap gasFeeCap : option Z) (gas : Z) (to : option bytes)
    (value : option Z) (data : bytes) (accessList : option eth_access_list) (v r s : option Z)
| EthSetCodeTx (chainID : option Z) (nonce : Z) (gasTipCap gasFeeCap : option Z) (gas : Z) (to : option bytes)
    (value : option Z) (data : bytes) (accessList : option eth_access_list) (authList : list EthAuthorization)
    (v r s : option Z).

(** [ethtypes.Transaction]. *)
Class EthTransaction (Tx : Type) := {
  NewTx : EthData -> Tx;
  tx_Type : Tx -> Z;
  tx_ChainId : Tx -> Z;
  tx_Nonce : Tx -> Z;
  tx_GasPrice : Tx -> Z;
  tx_GasTipCap : Tx -> Z;
  tx_GasFeeCap : Tx -> Z;
  tx_Gas : Tx -> Z;
  tx_To : Tx -> option bytes;
  tx_Value : Tx -> Z;
  tx_Data : Tx -> bytes;
  tx_AccessList : Tx -> option eth_access_list;
  tx_Auths : Tx -> list EthAuthorization;
  tx_V : Tx -> Z;
  tx_R : Tx -> Z;
  tx_S : Tx -> Z
}.

(** * Errors *)

Inductive txerror :=
| ErrInvalidGasPrice
| ErrInvalidGasFee
| ErrInvalidGasCap
| ErrInvalidAmount
| ErrInvalidAddress
| ErrInvalidChainID
| ErrInvalidRequest
| ErrInvalidGasLimit
| ErrGasOverflow
| ErrOutOfBound
| ErrWrongType.

(** * [types/int.go], [types/validation.go] *)

Definition maxBitLen : Z := 256.

Definition IsValidInt256 (i : option Z) : bool :=
  match i with None => true | Some i => bitlen_le i maxBitLen end.

Definition SafeNewIntFromBigInt (i : Z) : result txerror Z :=
  if IsValidInt256 (Some i) then Ok i else Err ErrOutOfBound.

(** [sdkmath.NewIntFromBigInt] panics on more than 256 bits. *)
Definition NewIntFromBigInt (i : Z) : result txerror Z := if bitlen_le i 256 then Ok i else Panic.

Definition SafeInt64 (value : Z) : option Z := if 2 ^ 63 - 1 <? value then None else Some value.

(** * The wrappers *)

Record AccessTuple := mkTuple { at_Address : string; at_StorageKeys : list string }.

Record LegacyTx := mkLegacy {
  lt_Nonce : Z; lt_GasPrice : option Z; lt_GasLimit : Z; lt_To : string; lt_Amount : option Z; lt_Data : bytes;
  lt_V : bytes; lt_R : bytes; lt_S : bytes }.

Record AccessListTx := mkAccess {
  al_ChainID : option Z; al_Nonce : Z; al_GasPrice : option Z; al_GasLimit : Z; al_To : string;
  al_Amount : option Z; al_Data : bytes; al_Accesses : option (list AccessTuple);
  al_V : bytes; al_R : bytes; al_S : bytes }.

Record DynamicFeeTx := mkDynamic {
  df_ChainID : option Z; df_Nonce : Z; df_GasTipCap : option Z; df_GasFeeCap : option Z; df_GasLimit : Z;
  df_To : string; df_Amount : option Z; df_Data : bytes; df_Accesses : option (list AccessTuple);
  df_V : bytes; df_R : bytes; df_S : bytes }.

Record SetCodeAuthorization := mkAuth {
  au_ChainID : option Z; au_Address : string; au_Nonce : Z; au_V : bytes; au_R : bytes; au_S : bytes }.

Record SetCodeTx := mkSetCode {
  sc_ChainID : option Z; sc_Nonce : Z; sc_GasTipCap : option Z; sc_GasFeeCap : option Z; sc_GasLimit : Z;
  sc_To : string; sc_Amount : option Z; sc_Data : bytes; sc_Accesses : option (list AccessTuple);
  sc_V : bytes; sc_R : bytes; sc_S : bytes; sc_AuthList : list SetCodeAuthorization }.

Inductive TxData :=
| TxLegacy (tx : LegacyTx)
| TxAccessList (tx : AccessListTx)
| TxDynamicFee (tx : DynamicFeeTx)
| TxSetCode (tx : SetCodeTx).

Definition TxType (t : TxData) : Z :=
  match t with TxLegacy _ => 0 | TxAccessList _ => 1 | TxDynamicFee _ => 2 | TxSetCode _ => 4 end.

Definition GetGas (t : TxData) : Z :=
  match t with
  | TxLegacy tx => lt_GasLimit tx | TxAccessList tx => al_GasLimit tx
  | TxDynamicFee tx => df_GasLimit tx | TxSetCode tx => sc_GasLimit tx
  end.

Definition GetNonce (t : TxData) : Z :=
  match t with
  | TxLegacy tx => lt_Nonce tx | TxAccessList tx => al_Nonce tx
  | TxDynamicFee tx => df_Nonce tx | TxSetCode tx => sc_Nonce tx
  end.

Definition GetValue (t : TxData) : option Z :=
  match t with
  | TxLegacy tx => lt_Amount tx | TxAccessList tx => al_Amount tx
  | TxDynamicFee tx => df_Amount tx | TxSetCode tx => sc_Amount tx
  end.

Definition GetGasTipCap (t : TxData) : option Z :=
  match t with
  | TxLegacy tx => lt_GasPrice tx | TxAccessList tx => al_GasPrice tx
  | TxDynamicFee tx => df_GasTipCap tx | TxSetCode tx => sc_GasTipCap tx
  end.

Definition GetGasFeeCap (t : TxData) : option Z :=
  match t with
  | TxLegacy tx => lt_GasPrice tx | TxAccessList tx => al_GasPrice tx
  | TxDynamicFee tx => df_GasFeeCap tx | TxSetCode tx => sc_GasFeeCap tx
  end.

Definition GetGasPrice (t : TxData) : option Z := GetGasFeeCap t.

Definition to_string (t : TxData) : string :=
  match t with
  | TxLegacy tx => lt_To tx | TxAccessList tx => al_To tx
  | TxDynamicFee tx => df_To tx | TxSetCode tx => sc_To tx
  end.

Definition GetData (t : TxData) : bytes :=
  match t with
  | TxLegacy tx => lt_Data tx | TxAccessList tx => al_Data tx
  | TxDynamicFee tx => df_Data tx | TxSetCode tx => sc_Data tx
  end.

(** [tx_data.go]: signature values as byte strings. *)
Definition raw_value (b : bytes) : option Z := if bool_decide (b = []) then None else Some (be_decode b).

Definition rawSignatureValues (v r s : bytes) : option Z * option Z * option Z := (raw_value v, raw_value r, raw_value s).

Definition GetRawSignatureValues (t : TxData) : option Z * option Z * option Z :=
  match t with
  | TxLegacy tx => rawSignatureValues (lt_V tx) (lt_R tx) (lt_S tx)
  | TxAccessList tx => rawSignatureValues (al_V tx) (al_R tx) (al_S tx)
  | TxDynamicFee tx => rawSignatureValues (df_V tx) (df_R tx) (df_S tx)
  | TxSetCode tx => rawSignatureValues (sc_V tx) (sc_R tx) (sc_S tx)
  end.

(** The chain id of an EIP-155 signature. *)
Definition DeriveChainID (v : option Z) : option Z :=
  match v with
  | None => None
  | Some v =>
    if v <? 1 then None
    else if bitlen_le v 64 then
      if (v =? 27) || (v =? 28) then Some 0 else if v <? 35 then None else Some ((v - 35) / 2)
    else Some (go_div (v - 35) 2)
  end.

Definition GetChainID (t : TxData) : option Z :=
  match t with
  | TxLegacy tx => let '(v, _, _) := GetRawSignatureValues t in DeriveChainID v
  | TxAccessList tx => al_ChainID tx
  | TxDynamicFee tx => df_ChainID tx
  | TxSetCode tx => sc_ChainID tx
  end.

(** * Fees *)

Definition fee (gasPrice : option Z) (gas : Z) : option Z := gasPrice ← gasPrice; Some (gasPrice * gas).

Definition cost (fee : option Z) (value : option Z) : option Z :=
  fee ← fee; Some (match value with Some value => fee + value | None => fee end).

(** [types.EffectiveGasPrice] *)
Definition EffectiveGasPrice (baseFee feeCap tipCap : option Z) : option Z :=
  tipCap ← tipCap; baseFee ← baseFee; feeCap ← feeCap; Some (Z.min (tipCap + baseFee) feeCap).

Definition Fee (t : TxData) : option Z := fee (GetGasFeeCap t) (GetGas t).

Definition Cost (t : TxData) : option Z := cost (Fee t) (GetValue t).

Definition tx_EffectiveGasPrice (t : TxData) (baseFee : option Z) : option Z :=
  match t with
  | TxLegacy _ | TxAccessList _ => GetGasPrice t
  | TxDynamicFee _ | TxSetCode _ => EffectiveGasPrice baseFee (GetGasFeeCap t) (GetGasTipCap t)
  end.

Definition EffectiveFee (t : TxData) (baseFee : option Z) : option Z :=
  match t with
  | TxLegacy _ | TxAccessList _ => Fee t
  | TxDynamicFee _ | TxSetCode _ => fee (tx_EffectiveGasPrice t baseFee) (GetGas t)
  end.

Definition EffectiveCost (t : TxData) (baseFee : option Z) : option Z :=
  match t with
  | TxLegacy _ | TxAccessList _ => Cost t
  | TxDynamicFee _ | TxSetCode _ => cost (EffectiveFee t baseFee) (GetValue t)
  end.

(** [DefaultPriorityReduction] is [sdk.DefaultPowerReduction], a parameter. *)
Definition GetTxPriority (reduction : Z) (t : TxData) (baseFee : option Z) : option Z :=
  tipPrice ← tx_EffectiveGasPrice t baseFee;
  let tipPrice := match baseFee with Some b => tipPrice - b | None => tipPrice end in
  if reduction =? 0 then None
  else
    let priorityBig := Z.quot tipPrice reduction in
    Some (if is_i64 priorityBig then priorityBig else 2 ^ 63 - 1).

(** * Conversions *)

Section Conversions.
Context {HL : HexLib} {Tx : Type} {ET : EthTransaction Tx}.

Definition ValidateAddress (address : string) : option txerror :=
  if IsHexAddress address then None else Some ErrInvalidAddress.

Definition GetTo (t : TxData) : option bytes :=
  if bool_decide (to_string t = ""%string) then None else Some (HexToAddress (to_string t)).

(** [access_list.go] *)
Definition NewAccessList (al : option eth_access_list) : option (list AccessTuple) :=
  match al with
  | None => None
  | Some al => Some ((fun tuple => mkTuple (AddressHex tuple.1) (HashHex <$> tuple.2)) <$> al)
  end.

Definition ToEthAccessList (al : list AccessTuple) : eth_access_list :=
  (fun tuple => (HexToAddress (at_Address tuple), HexToHash <$> at_StorageKeys tuple)) <$> al.

(** Appending to a nil slice: the list of an empty one stays nil. *)
Definition eth_list (al : list AccessTuple) : option eth_access_list :=
  match ToEthAccessList al with [] => None | l => Some l end.

Definition GetAccessList (t : TxData) : option eth_access_list :=
  match t with
  | TxLegacy _ => None
  | TxAccessList tx => al ← al_Accesses tx; eth_list al
  | TxDynamicFee tx => al ← df_Accesses tx; eth_list al
  | TxSetCode tx => al ← sc_Accesses tx; eth_list al
  end.

Definition to_field (tx : Tx) : string := match tx_To tx with Some to => AddressHex to | None => "" end.

Definition NewLegacyTx (tx : Tx) : result txerror TxData :=
  amount ← SafeNewIntFromBigInt (tx_Value tx);
  gasPrice ← SafeNewIntFromBigInt (tx_GasPrice tx);
  Ok (TxLegacy (mkLegacy (tx_Nonce tx) (Some gasPrice) (tx_Gas tx) (to_field tx) (Some amount) (tx_Data tx)
    (big_Bytes (tx_V tx)) (big_Bytes (tx_R tx)) (big_Bytes (tx_S tx)))).

Definition newAccessListTx (tx : Tx) : result txerror TxData :=
  amount ← SafeNewIntFromBigInt (tx_Value tx);
  gasPrice ← SafeNewIntFromBigInt (tx_GasPrice tx);
  chainID ← NewIntFromBigInt (tx_ChainId tx);
  Ok (TxAccessList (mkAccess (Some chainID) (tx_Nonce tx) (Some gasPrice) (tx_Gas tx) (to_field tx)
    (Some amount) (tx_Data tx) (NewAccessList (tx_AccessList tx))
    (big_Bytes (tx_V tx)) (big_Bytes (tx_R tx)) (big_Bytes (tx_S tx)))).

Definition NewDynamicFeeTx (tx : Tx) : result txerror TxData :=
  amount ← SafeNewIntFromBigInt (tx_Value tx);
  gasFeeCap ← SafeNewIntFromBigInt (tx_GasFeeCap tx);
  gasTipCap ← SafeNewIntFromBigInt (tx_GasTipCap tx);
  chainID ← NewIntFromBigInt (tx_ChainId tx);
  Ok (TxDynamicFee (mkDynamic (Some chainID) (tx_Nonce tx) (Some gasTipCap) (Some gasFeeCap) (tx_Gas tx)
    (to_field tx) (Some amount) (tx_Data tx) (NewAccessList (tx_AccessList tx))
    (big_Bytes (tx_V tx)) (big_Bytes (tx_R tx)) (big_Bytes (tx_S tx)))).

Definition new_auth (a : EthAuthorization) : result txerror SetCodeAuthorization :=
  let bytes_of v := match v with Some v => big_Bytes v | None => [] end in
  cid ← match ea_ChainID a with None => Ok None | Some c => c ← SafeNewIntFromBigInt c; Ok (Some c) end;
  Ok (mkAuth cid (AddressHex (ea_Address a)) (ea_Nonce a) (bytes_of (ea_V a)) (bytes_of (ea_R a)) (bytes_of (ea_S a))).

Fixpoint new_auths (l : list EthAuthorization) : result txerror (list SetCodeAuthorization) :=
  match l with
  | [] => Ok []
  | a :: l => a ← new_auth a; l ← new_auths l; Ok (a :: l)
  end.

Definition NewSetCodeTx (tx : Tx) : result txerror TxData :=
  if negb (tx_Type tx =? 4) then Err ErrWrongType
  else
    amount ← SafeNewIntFromBigInt (tx_Value tx);
    gasFeeCap ← SafeNewIntFromBigInt (tx_GasFeeCap tx);
    gasTipCap ← SafeNewIntFromBigInt (tx_GasTipCap tx);
    auths ← new_auths (tx_Auths tx);
    chainID ← NewIntFromBigInt (tx_ChainId tx);
    Ok (TxSetCode (mkSetCode (Some chainID) (tx_Nonce tx) (Some gasTipCap) (Some gasFeeCap) (tx_Gas tx)
      (to_field tx) (Some amount) (tx_Data tx) (NewAccessList (tx_AccessList tx))
      (big_Bytes (tx_V tx)) (big_Bytes (tx_R tx)) (big_Bytes (tx_S tx)) auths)).

Definition NewTxDataFromTx (tx : Tx) : result txerror TxData :=
  if tx_Type tx =? 4 then NewSetCodeTx tx
  else if tx_Type tx =? 2 then NewDynamicFeeTx tx
  else if tx_Type tx =? 1 then newAccessListTx tx
  else NewLegacyTx tx.

Definition eth_auth (a : SetCodeAuthorization) : EthAuthorization :=
  mkEthAuth (au_ChainID a) (HexToAddress (au_Address a)) (au_Nonce a)
    (raw_value (au_V a)) (raw_value (au_R a)) (raw_value (au_S a)).

Definition AsEthereumData (t : TxData) : EthData :=
  let '(v, r, s) := GetRawSignatureValues t in
  match t with
  | TxLegacy tx => EthLegacyTx (GetNonce t) (GetGasPrice t) (GetGas t) (GetTo t) (GetValue t) (GetData t) v r s
  | TxAccessList tx =>
    EthAccessListTx (GetChainID t) (GetNonce t) (GetGasPrice t) (GetGas t) (GetTo t) (GetValue t) (GetData t)
      (GetAccessList t) v r s
  | TxDynamicFee tx =>
    EthDynamicFeeTx (GetChainID t) (GetNonce t) (GetGasTipCap t) (GetGasFeeCap t) (GetGas t) (GetTo t) (GetValue t)
      (GetData t) (GetAccessList t) v r s
  | TxSetCode tx =>
    EthSetCodeTx (GetChainID t) (GetNonce t) (GetGasTipCap t) (GetGasFeeCap t) (GetGas t) (GetTo t) (GetValue t)
      (GetData t) (GetAccessList t) (eth_auth <$> sc_AuthList tx) v r s
  end.

(** * Stateless checks *)

(** The amount, in the order of the code. *)
Definition check_amount (amount : option Z) (k : option txerror) : option txerror :=
  if match amount with Some a => a <? 0 | None => false end then Some ErrInvalidAmount
  else if negb (IsValidInt256 amount) then Some ErrInvalidAmount
  else k.

(** The recipient, which may be empty, and the chain id. *)
Definition check_to_chain (t : TxData) : option txerror :=
  if negb (bool_decide (to_string t = ""%string)) && negb (IsHexAddress (to_string t)) then Some ErrInvalidAddress
  else if bool_decide (GetChainID t = None) then Some ErrInvalidChainID
  else None.

Definition Legacy_Validate (tx : LegacyTx) : option txerror :=
  let t := TxLegacy tx in
  match GetGasPrice t with
  | None => Some ErrInvalidGasPrice
  | Some gasPrice =>
    if gasPrice <? 0 then Some ErrInvalidGasPrice
    else if negb (IsValidInt256 (Some gasPrice)) then Some ErrInvalidGasPrice
    else if negb (IsValidInt256 (Fee t)) then Some ErrInvalidGasFee
    else check_amount (GetValue t) (check_to_chain t)
  end.

Definition AccessList_Validate (tx : AccessListTx) : option txerror :=
  let t := TxAccessList tx in
  match GetGasPrice t with
  | None => Some ErrInvalidGasPrice
  | Some gasPrice =>
    if negb (IsValidInt256 (Some gasPrice)) then Some ErrInvalidGasPrice
    else if gasPrice <? 0 then Some ErrInvalidGasPrice
    else check_amount (GetValue t)
           (if negb (IsValidInt256 (Fee t)) then Some ErrInvalidGasFee else check_to_chain t)
  end.

(** The checks of the caps that [DynamicFeeTx] and [SetCodeTx] share. *)
Definition check_caps (t : TxData) (k : option txerror) : option txerror :=
  match GetGasTipCap t, GetGasFeeCap t with
  | None, _ | _, None => Some ErrInvalidGasCap
  | Some tip, Some cap =>
    if (tip <? 0) || (cap <? 0) then Some ErrInvalidGasCap
    else if negb (IsValidInt256 (Some tip)) || negb (IsValidInt256 (Some cap)) then Some ErrInvalidGasCap
    else if cap <? tip then Some ErrInvalidGasCap
    else if negb (IsValidInt256 (Fee t)) then Some ErrInvalidGasFee
    else k
  end.

Definition DynamicFee_Validate (tx : DynamicFeeTx) : option txerror :=
  let t := TxDynamicFee tx in check_caps t (check_amount (GetValue t) (check_to_chain t)).

(** One entry of the authorization list. *)
Definition check_auth (a : SetCodeAuthorization) : option txerror :=
  if bool_decide (au_Address a = ""%string) then Some ErrInvalidAddress
  else if negb (IsHexAddress (au_Address a)) then Some ErrInvalidAddress
  else if bool_decide (au_V a = []) then None
  else
    let v := be_decode (au_V a) in
    if negb (bitlen_le v 8) then Some ErrInvalidRequest
    else if negb (v =? 0) && negb (v =? 1) then Some ErrInvalidRequest
    else None.

Fixpoint check_auths (l : list SetCodeAuthorization) : option txerror :=
  match l with
  | [] => None
  | a :: l => match check_auth a with Some e => Some e | None => check_auths l end
  end.

Definition SetCode_Validate (tx : SetCodeTx) : option txerror :=
  let t := TxSetCode tx in
  check_caps t (check_amount (GetValue t)
    (if bool_decide (sc_To tx = ""%string) then Some ErrInvalidRequest
     else if negb (IsHexAddress (sc_To tx)) then Some ErrInvalidAddress
     else if bool_decide (GetChainID t = None) then Some ErrInvalidChainID
     else if bool_decide (sc_AuthList tx = []) then Some ErrInvalidRequest
     else check_auths (sc_AuthList tx))).

Definition Validate (t : TxData) : option txerror :=
  match t with
  | TxLegacy tx => Legacy_Validate tx
  | TxAccessList tx => AccessList_Validate tx
  | TxDynamicFee tx => DynamicFee_Validate tx
  | TxSetCode tx => SetCode_Validate tx
  end.

(** [MsgEthereumTx]: data that unpacks to a [TxData] or does not. *)
Record MsgEthereumTx := mkMsgTx { msg_Data : option TxData; msg_Size : Z; msg_Hash : string; msg_From : string }.

Definition AsTransaction (msg : MsgEthereumTx) : option Tx := t ← msg_Data msg; Some (NewTx (AsEthereumData t)).

(** [hash] is the hexadecimal hash of a transaction. *)
Definition ValidateBasic (hash : Tx -> string) (msg : MsgEthereumTx) : option txerror :=
  if negb (bool_decide (msg_From msg = ""%string)) && negb (IsHexAddress (msg_From msg)) then Some ErrInvalidAddress
  else if negb (msg_Size msg =? 0) then Some ErrInvalidRequest
  else
    match msg_Data msg with
    | None => Some ErrWrongType
    | Some t =>
      if GetGas t =? 0 then Some ErrInvalidGasLimit
      else if negb (is_i64 (GetGas t)) then Some ErrGasOverflow
      else
        match Validate t with
        | Some e => Some e
        | None => if bool_decide (msg_Hash msg = hash (NewTx (AsEthereumData t))) then None else Some ErrInvalidRequest
        end
    end.

Definition msg_GetGas (msg : MsgEthereumTx) : Z := match msg_Data msg with Some t => GetGas t | None => 0 end.

(** [None] is a nil fee, or a panic. *)
Definition GetFee (msg : MsgEthereumTx) : option Z := t ← msg_Data msg; Fee t.
Definition GetEffectiveFee (msg : MsgEthereumTx) (baseFee : option Z) : option Z := t ← msg_Data msg; EffectiveFee t baseFee.

Definition GetFrom (msg : MsgEthereumTx) : option bytes :=
  if bool_decide (msg_From msg = ""%string) then None else Some (HexToAddress (msg_From msg)).

End Conversions.


(** [x/evm/types]: conversions of transactions lose nothing, and validated
    transactions have a price. *)

(** * Numbers as byte strings *)

Lemma big_Bytes_roundtrip v : 0 <= v -> default 0 (raw_value (big_Bytes v)) = v.
Proof.
  intros Hv. unfold raw_value, big_Bytes. destruct (Z.eqb_spec v 0) as [->|Hne]; [by rewrite bool_decide_true|].
  rewrite Z.abs_eq by done. set (n := Z.to_nat (Z.log2 v / 8 + 1)).
  assert (0 <= Z.log2 v / 8) by (apply Z.div_pos; [apply Z.log2_nonneg|lia]).
  assert (be_encode n v <> []) as Hnn.
  { intros H0. apply (f_equal length) in H0. rewrite length_be_encode in H0. cbn in H0. lia. }
  rewrite bool_decide_false by done. cbn. apply be_decode_encode. split; [done|].
  assert (v < 2 ^ (Z.log2 v + 1)) by (apply Z.log2_lt_pow2; lia).
  eapply Z.lt_le_trans; [eassumption|]. change 256 with (2 ^ 8). rewrite <- Z.pow_mul_r by lia.
  apply Z.pow_le_mono_r; [lia|]. unfold n. rewrite Z2Nat.id by lia. pose proof (Z.mul_succ_div_gt (Z.log2 v) 8 ltac:(lia)). lia.
Qed.

(** * What go-ethereum documents *)

(** What can be read of a transaction: type, chain id (a legacy transaction has none
    beside the one in its signature), nonce, gas price, tip cap, fee cap, gas,
    recipient, value, data, access list, authorizations, signature.  Nil numbers read
    as zero and a nil list as empty. *)
Record tx_view := mkView {
  vw_type : Z; vw_chain : option Z; vw_nonce : Z; vw_price : Z; vw_tip : Z; vw_cap : Z; vw_gas : Z;
  vw_to : option bytes; vw_value : Z; vw_data : bytes; vw_access : eth_access_list;
  vw_auths : list (option Z * bytes * Z * Z * Z * Z); vw_sig : Z * Z * Z }.

Definition auth_reads (a : EthAuthorization) : option Z * bytes * Z * Z * Z * Z :=
  (ea_ChainID a, ea_Address a, ea_Nonce a, default 0 (ea_V a), default 0 (ea_R a), default 0 (ea_S a)).

Definition data_view (d : EthData) : tx_view :=
  let sig v r s := (default 0 v, default 0 r, default 0 s) in
  match d with
  | EthLegacyTx n p g to val dat v r s =>
    mkView 0 None n (default 0 p) (default 0 p) (default 0 p) g to (default 0 val) dat [] [] (sig v r s)
  | EthAccessListTx c n p g to val dat al v r s =>
    mkView 1 (Some (default 0 c)) n (default 0 p) (default 0 p) (default 0 p) g to (default 0 val) dat (default [] al) [] (sig v r s)
  | EthDynamicFeeTx c n t f g to val dat al v r s =>
    mkView 2 (Some (default 0 c)) n (default 0 f) (default 0 t) (default 0 f) g to (default 0 val) dat (default [] al) [] (sig v r s)
  | EthSetCodeTx c n t f g to val dat al au v r s =>
    mkView 4 (Some (default 0 c)) n (default 0 f) (default 0 t) (default 0 f) g to (default 0 val) dat (default [] al)
      (auth_reads <$> au) (sig v r s)
  end.

Definition view {Tx} {ET : EthTransaction Tx} (tx : Tx) : tx_view :=
  mkView (tx_Type tx) (if tx_Type tx =? 0 then None else Some (tx_ChainId tx)) (tx_Nonce tx) (tx_GasPrice tx)
    (tx_GasTipCap tx) (tx_GasFeeCap tx) (tx_Gas tx) (tx_To tx) (tx_Value tx) (tx_Data tx)
    (default [] (tx_AccessList tx)) (auth_reads <$> tx_Auths tx) (tx_V tx, tx_R tx, tx_S tx).

(** [NewTx] copies the data, and every transaction comes from some data. *)
Class EthTransactionLaws (Tx : Type) {ET : EthTransaction Tx} := {
  new_view : forall d, view (NewTx d) = data_view d;
  some_data : forall tx, exists d, view tx = data_view d
}.

Section Props.
Context {HL : HexLib} {HW : HexLaws} {Tx : Type} {ET : EthTransaction Tx} {EL : EthTransactionLaws Tx}.
Implicit Types tx : Tx.

(** A transaction as it comes off the wire. *)
Record tx_wf tx : Prop := mkWf {
  wf_to : match tx_To tx with Some a => byte_array 20 a | None => True end;
  wf_access : Forall (fun t => byte_array 20 t.1 /\ Forall (byte_array 32) t.2) (default [] (tx_AccessList tx));
  wf_sig : 0 <= tx_V tx /\ 0 <= tx_R tx /\ 0 <= tx_S tx;
  wf_auths : Forall (fun a => byte_array 20 (ea_Address a) /\ 0 <= default 0 (ea_V a) /\ 0 <= default 0 (ea_R a) /\
    0 <= default 0 (ea_S a)) (tx_Auths tx)
}.

Lemma bind_Ok {E A B} (r : result E A) (k : A -> result E B) b :
  (r ≫= k) = Ok b -> exists a, r = Ok a /\ k a = Ok b.
Proof. destruct r; [|done..]. intros H. by eexists. Qed.

Lemma SafeNew_Ok v v' : SafeNewIntFromBigInt v = Ok v' -> v' = v.
Proof. unfold SafeNewIntFromBigInt. case_match; [by intros [= <-]|done]. Qed.

Lemma NewInt_Ok v v' : NewIntFromBigInt v = Ok v' -> v' = v.
Proof. unfold NewIntFromBigInt. case_match; [by intros [= <-]|done]. Qed.

Lemma to_field_roundtrip tx t : tx_wf tx -> to_string t = to_field tx -> GetTo t = tx_To tx.
Proof.
  intros H Ht. unfold GetTo. rewrite Ht. unfold to_field. pose proof (wf_to tx H) as Hto.
  destruct (tx_To tx) as [a|]; [|by rewrite bool_decide_true].
  rewrite bool_decide_false by apply address_hex_empty. by rewrite address_hex.
Qed.

Lemma access_list_roundtrip (al : option eth_access_list) :
  Forall (fun t => byte_array 20 t.1 /\ Forall (byte_array 32) t.2) (default [] al) ->
  default [] (l ← NewAccessList al; eth_list l) = default [] al.
Proof.
  destruct al as [al|]; [|done]. cbn [NewAccessList mbind option_bind default]. intros H. unfold eth_list, ToEthAccessList.
  rewrite <- list_fmap_compose. rewrite (list_fmap_ext _ id).
  - rewrite list_fmap_id. by destruct al.
  - intros i [a ks] Hi. apply (Forall_lookup_1 _ _ _ _ H) in Hi as [Ha Hk]. cbn in *. f_equal; [by apply address_hex|].
    rewrite <- list_fmap_compose. rewrite (list_fmap_ext _ id); [apply list_fmap_id|].
    intros j k Hj. apply (Forall_lookup_1 _ _ _ _ Hk) in Hj. by apply hash_hex.
Qed.

Lemma raw_bytes_of v : 0 <= default 0 v ->
  default 0 (raw_value (match v with Some v => big_Bytes v | None => [] end)) = default 0 v.
Proof. destruct v as [v|]; cbn [default]; [apply big_Bytes_roundtrip|done]. Qed.

Lemma auths_roundtrip l : forall l',
  Forall (fun a => byte_array 20 (ea_Address a) /\ 0 <= default 0 (ea_V a) /\ 0 <= default 0 (ea_R a) /\ 0 <= default 0 (ea_S a)) l ->
  new_auths l = Ok l' -> auth_reads <$> (eth_auth <$> l') = auth_reads <$> l.
Proof.
  induction l as [|a l IH]; intros l' H; cbn [new_auths]; [by intros [= <-]|]. apply Forall_cons in H as [(Ha & Hv & Hr & Hs) Hl].
  intros (a' & Ea & (l2 & El & [= <-])%bind_Ok)%bind_Ok. cbn. f_equal; [|by apply IH].
  unfold new_auth in Ea. apply bind_Ok in Ea as (cid & Ec & [= <-]). unfold auth_reads, eth_auth. cbn.
  rewrite address_hex, !raw_bytes_of by done. repeat f_equal. destruct (ea_ChainID a) as [c|]; [|by injection Ec].
  apply bind_Ok in Ec as (c' & ->%SafeNew_Ok & [= <-]). done.
Qed.

(** The gas price of a transaction is its fee cap, and its tip cap too unless it has a
    tip; the lists are empty where the type has none. *)
Lemma type_view tx :
  (tx_Type tx = 0 /\ tx_GasPrice tx = tx_GasFeeCap tx /\ tx_GasTipCap tx = tx_GasFeeCap tx /\
     default [] (tx_AccessList tx) = [] /\ auth_reads <$> tx_Auths tx = []) \/
  (tx_Type tx = 1 /\ tx_GasPrice tx = tx_GasFeeCap tx /\ tx_GasTipCap tx = tx_GasFeeCap tx /\ auth_reads <$> tx_Auths tx = []) \/
  (tx_Type tx = 2 /\ tx_GasPrice tx = tx_GasFeeCap tx /\ auth_reads <$> tx_Auths tx = []) \/
  (tx_Type tx = 4 /\ tx_GasPrice tx = tx_GasFeeCap tx).
Proof.
  destruct (some_data tx) as [d Hd]. pose proof (f_equal vw_type Hd) as Ht. pose proof (f_equal vw_price Hd) as Hp.
  pose proof (f_equal vw_tip Hd) as Hti. pose proof (f_equal vw_cap Hd) as Hc. pose proof (f_equal vw_access Hd) as Ha.
  pose proof (f_equal vw_auths Hd) as Hau. clear Hd.
  unfold view in *. cbn [vw_type vw_price vw_tip vw_cap vw_access vw_auths] in *. rewrite Ht, Hp, Hti, Hc, Ha, Hau.
  destruct d; cbn; tauto.
Qed.

(** C31: Wrapping a transaction for transport and unwrapping it loses nothing.  When a
    transaction off the wire is accepted by [NewTxDataFromTx], the go-ethereum
    transaction made of the wrapper has the same type, chain id, nonce, prices, gas,
    recipient, value, data, access list, authorizations and signature. *)
Theorem tx_conversion_roundtrip tx t :
  tx_wf tx -> NewTxDataFromTx tx = Ok t -> view (NewTx (AsEthereumData t)) = view tx.
Proof.
  intros Hw H. rewrite new_view. unfold NewTxDataFromTx in H. destruct (wf_sig tx Hw) as (Hv & Hr & Hs).
  pose proof (access_list_roundtrip _ (wf_access tx Hw)) as Hacc.
  destruct (type_view tx) as [(Ht & E1 & E2 & E3 & E4)|[(Ht & E1 & E2 & E4)|[(Ht & E1 & E4)|(Ht & E1)]]]; rewrite Ht in H; cbn in H.
  - apply bind_Ok in H as (am & ->%SafeNew_Ok & (gp & ->%SafeNew_Ok & [= <-])%bind_Ok).
    unfold AsEthereumData. cbn -[GetTo view]. unfold view. rewrite Ht, E1, E2, E3, E4, !big_Bytes_roundtrip by done.
    by rewrite (to_field_roundtrip tx).
  - apply bind_Ok in H as (am & ->%SafeNew_Ok & (gp & ->%SafeNew_Ok & (c & ->%NewInt_Ok & [= <-])%bind_Ok)%bind_Ok).
    unfold AsEthereumData. cbn -[GetTo view NewAccessList]. unfold view. rewrite Ht, E1, E2, E4, !big_Bytes_roundtrip by done.
    by rewrite Hacc, (to_field_roundtrip tx).
  - apply bind_Ok in H as (am & ->%SafeNew_Ok & (fc & ->%SafeNew_Ok & (tc & ->%SafeNew_Ok & (c & ->%NewInt_Ok & [= <-])%bind_Ok)%bind_Ok)%bind_Ok).
    unfold AsEthereumData. cbn -[GetTo view NewAccessList]. unfold view. rewrite Ht, E1, E4, !big_Bytes_roundtrip by done.
    by rewrite Hacc, (to_field_roundtrip tx).
  - unfold NewSetCodeTx in H. rewrite Ht in H. cbn [negb Z.eqb Pos.eqb] in H.
    apply bind_Ok in H as (am & ->%SafeNew_Ok & (fc & ->%SafeNew_Ok & (tc & ->%SafeNew_Ok & (au & Eau & (c & ->%NewInt_Ok & [= <-])%bind_Ok)%bind_Ok)%bind_Ok)%bind_Ok).
    unfold AsEthereumData. cbn -[GetTo view NewAccessList]. unfold view. rewrite Ht, E1, !big_Bytes_roundtrip by done.
    rewrite (auths_roundtrip _ _ (wf_auths tx Hw) Eau). by rewrite Hacc, (to_field_roundtrip tx).
Qed.

End Props.

(** * Prices of validated transactions *)

Section Prices.
Context {HL : HexLib}.

(** The caps and the fee of a validated transaction. *)
Lemma validated_caps t : Validate t = None ->
  exists tip cap, GetGasTipCap t = Some tip /\ GetGasFeeCap t = Some cap /\ 0 <= tip <= cap /\ cap < 2 ^ 256 /\
    Fee t = Some (cap * GetGas t) /\ Z.abs (cap * GetGas t) < 2 ^ 256 /\
    match GetValue t with Some v => 0 <= v < 2 ^ 256 | None => True end /\
    (TxType t = 0 \/ TxType t = 1 -> tip = cap).
Proof.
  assert (forall k, check_amount (GetValue t) k = None ->
    k = None /\ match GetValue t with Some v => 0 <= v < 2 ^ 256 | None => True end) as Ham.
  { intros k. unfold check_amount. destruct (GetValue t) as [v|]; [|done]. destruct (Z.ltb_spec v 0); [done|].
    unfold IsValidInt256, bitlen_le, maxBitLen. destruct (Z.ltb_spec (Z.abs v) (2 ^ 256)); [|done]. cbn [negb]. intros Hk. split; [done|lia]. }
  assert (forall k, check_caps t k = None -> k = None /\ exists tip cap, GetGasTipCap t = Some tip /\ GetGasFeeCap t = Some cap /\
    0 <= tip <= cap /\ cap < 2 ^ 256 /\ Fee t = Some (cap * GetGas t) /\ Z.abs (cap * GetGas t) < 2 ^ 256) as Hcaps.
  { intros k. unfold check_caps, Fee, fee, IsValidInt256, bitlen_le, maxBitLen.
    destruct (GetGasTipCap t) as [tip|]; [|done]. destruct (GetGasFeeCap t) as [cap|]; [|done]. cbn [mbind option_bind].
    destruct (Z.ltb_spec tip 0), (Z.ltb_spec cap 0); try done. cbn [orb].
    destruct (Z.ltb_spec (Z.abs tip) (2 ^ 256)), (Z.ltb_spec (Z.abs cap) (2 ^ 256)); try done. cbn [negb orb].
    destruct (Z.ltb_spec cap tip); [done|]. destruct (Z.ltb_spec (Z.abs (cap * GetGas t)) (2 ^ 256)); [|done]. cbn [negb].
    intros ->. split; [done|]. exists tip, cap. split_and!; done || lia. }
  destruct t as [tx|tx|tx|tx]; cbn [Validate].
  - unfold Legacy_Validate, Fee, fee, IsValidInt256, bitlen_le, maxBitLen. cbn -[check_amount] in *.
    destruct (lt_GasPrice tx) as [p|]; [|done]. cbn -[check_amount].
    destruct (Z.ltb_spec p 0); [done|]. destruct (Z.ltb_spec (Z.abs p) (2 ^ 256)); [|done]. cbn -[check_amount].
    destruct (Z.ltb_spec (Z.abs (p * lt_GasLimit tx)) (2 ^ 256)); [|done]. intros [_ Ha]%Ham.
    exists p, p. by split_and!; try lia.
  - unfold AccessList_Validate, Fee, fee, IsValidInt256, bitlen_le, maxBitLen. cbn -[check_amount] in *.
    destruct (al_GasPrice tx) as [p|]; [|done]. cbn -[check_amount].
    destruct (Z.ltb_spec (Z.abs p) (2 ^ 256)); [|done]. cbn -[check_amount]. destruct (Z.ltb_spec p 0); [done|].
    intros [Hf Ha]%Ham. destruct (Z.ltb_spec (Z.abs (p * al_GasLimit tx)) (2 ^ 256)); [|done].
    exists p, p. by split_and!; try lia.
  - intros [[_ Ha]%Ham (tip & cap & ? & ? & ? & ? & ? & ?)]%Hcaps. exists tip, cap. cbn [TxType]. by split_and!; try lia.
  - intros [[_ Ha]%Ham (tip & cap & ? & ? & ? & ? & ? & ?)]%Hcaps. exists tip, cap. cbn [TxType]. by split_and!; try lia.
Qed.

(** What the sender is charged up front per unit of gas: the smaller of fee cap and
    base fee plus tip, for every type of transaction. *)
Lemma validated_price t base : Validate t = None -> 0 <= base ->
  exists tip cap, GetGasTipCap t = Some tip /\ GetGasFeeCap t = Some cap /\
    let p := Z.min (tip + base) cap in
    tx_EffectiveGasPrice t (Some base) = Some p /\ EffectiveFee t (Some base) = Some (p * GetGas t) /\ 0 <= p <= cap /\
    (base <= cap -> base <= p).
Proof.
  intros Hval Hb. destruct (validated_caps t Hval) as (tip & cap & Ht & Hc & Hr & _ & Hf & _ & _ & Hleg).
  exists tip, cap. split; [done|]. split; [done|]. cbv zeta. destruct t as [tx|tx|tx|tx]; cbn [tx_EffectiveGasPrice EffectiveFee].
  1,2: rewrite Hleg in * by (cbn; lia); unfold GetGasPrice; rewrite Hc, Z.min_r by lia; rewrite Hf; split_and!; done || lia.
  1,2: unfold EffectiveGasPrice; rewrite Ht, Hc; cbn [mbind option_bind fee]; split_and!; done || lia.
Qed.

End Prices.
