(* ===== verification/SetCodeCodec.v ===== *)
(** [x/evm/types/set_code_tx.go]: the hand-written protobuf codec of [SetCodeTx], the
    wrapper of EIP-7702 transactions.

    The encoder fills a buffer from its end ([None] is an index out of range); the
    decoder walks an index over the input.  The text form of [sdkmath.Int] and the
    generated codec of [AccessTuple] are parameters. *)

From stdpp Require Import base list gmap strings.
From Stdlib Require Import ZArith Lia.
From S2P Require Import Prelude KVStore PaxOracle ProtoWire EvmTx.
Open Scope Z_scope.

Class WireLib := {
  int_Marshal : Z -> bytes;
  int_Unmarshal : bytes -> option Z;
  tuple_Marshal : AccessTuple -> bytes;
  tuple_Unmarshal : bytes -> option AccessTuple
}.

Inductive derror := ErrUnexpectedEOF | ErrVarintOverflow | ErrWireType (wireType : Z) | ErrNested.

Section Codec.
Context {WL : WireLib}.

(** * Helpers *)

Definition protoEncodeSetCodeVarint (data : bytes) (offset v : Z) : option (bytes * Z) :=
  protoEncodeVarint varint_fuel data offset v.

Definition protoSizeSetCodeVarint (v : Z) : Z := protoSizeVarint varint_fuel v.

(** The value and the number of bytes read. *)
Fixpoint decode_varint (data : bytes) (shift v n : Z) : result derror (Z * Z) :=
  match data with
  | [] => Err ErrUnexpectedEOF
  | b :: data =>
    let v := Z.lor v (u64 (Z.shiftl (Z.land b 0x7F) shift)) in
    if b <? 0x80 then Ok (v, n + 1)
    else if 63 <=? shift then Err ErrVarintOverflow
    else decode_varint data (shift + 7) v (n + 1)
  end.

Definition protoDecodeSetCodeVarint (data : bytes) : result derror (Z * Z) := decode_varint data 0 0 0.

Definition setcodeMarshalBytesField (tag : Z) (b : bytes) (s : bytes * Z) : option (bytes * Z) :=
  marshal_field tag b s.

Definition setcodeMarshalIntField (tag : Z) (v : option Z) (s : bytes * Z) : option (bytes * Z) :=
  match v with None => Some s | Some v => marshal_field tag (int_Marshal v) s end.

Definition setcodeIntFieldSize (v : option Z) (tagBytes : Z) : Z :=
  match v with
  | None => 0
  | Some v =>
    let bz := int_Marshal v in
    if len bz =? 0 then 0 else tagBytes + len bz + protoSizeSetCodeVarint (len bz)
  end.

(** The blocks of [MarshalToSizedBuffer] and [Size] for a [uint64]. *)
Definition marshal_uint (tag v : Z) (s : bytes * Z) : option (bytes * Z) :=
  let '(data, i) := s in
  if v =? 0 then Some (data, i)
  else
    '(data, i) ← protoEncodeSetCodeVarint data i v;
    let i := i - 1 in
    data ← poke data i tag;
    Some (data, i).

Definition uint_size (v : Z) : Z := if v =? 0 then 0 else 1 + protoSizeSetCodeVarint v.

Definition setcodeReadLengthDelim (data : bytes) (idx wireType : Z) : result derror (bytes * Z) :=
  if negb (wireType =? 2) then Err (ErrWireType wireType)
  else
    '(length, n) ← protoDecodeSetCodeVarint (drop (Z.to_nat idx) data);
    let idx := idx + n in
    if len data <? u64 (idx + length) then Err ErrUnexpectedEOF
    else
      let stop := i64 (idx + i64 length) in
      match slice data idx stop with None => Panic | Some b => Ok (b, stop) end.

Definition setcodeReadIntField (data : bytes) (idx wireType : Z) : result derror (option Z * Z) :=
  '(bz, consumed) ← setcodeReadLengthDelim data idx wireType;
  if bool_decide (bz = []) then Ok (None, consumed)
  else match int_Unmarshal bz with None => Err ErrNested | Some v => Ok (Some v, consumed) end.

Definition setcodeSkipField (data : bytes) (idx wireType : Z) : result derror Z :=
  if wireType =? 0 then '(_, n) ← protoDecodeSetCodeVarint (drop (Z.to_nat idx) data); Ok (idx + n)
  else if wireType =? 2 then '(_, consumed) ← setcodeReadLengthDelim data idx wireType; Ok consumed
  else Err (ErrWireType wireType).

(** The case of a [uint64] field. *)
Definition read_uint (data : bytes) (idx wireType : Z) : result derror (Z * Z) :=
  if negb (wireType =? 0) then Err (ErrWireType wireType)
  else '(v, n) ← protoDecodeSetCodeVarint (drop (Z.to_nat idx) data); Ok (v, idx + n).

(** * [SetCodeAuthorization] *)

Definition Auth_MarshalToSizedBuffer (a : SetCodeAuthorization) (data : bytes) : option (bytes * Z) :=
  s ← setcodeMarshalBytesField 0x32 (au_S a) (data, len data);
  s ← setcodeMarshalBytesField 0x2a (au_R a) s;
  s ← setcodeMarshalBytesField 0x22 (au_V a) s;
  s ← marshal_uint 0x18 (au_Nonce a) s;
  s ← marshal_field 0x12 (str_bytes (au_Address a)) s;
  '(data, i) ← setcodeMarshalIntField 0x0a (au_ChainID a) s;
  Some (data, len data - i).

Definition Auth_Size (a : SetCodeAuthorization) : Z :=
  setcodeIntFieldSize (au_ChainID a) 1 + field_size (str_bytes (au_Address a)) + uint_size (au_Nonce a)
  + field_size (au_V a) + field_size (au_R a) + field_size (au_S a).

Definition Auth_Marshal (a : SetCodeAuthorization) : option bytes :=
  '(data, n) ← Auth_MarshalToSizedBuffer a (replicate (Z.to_nat (Auth_Size a)) 0);
  Some (take (Z.to_nat n) data).

Definition empty_auth : SetCodeAuthorization := mkAuth None "" 0 [] [] [].

(** One field of an authorization: the updated value and the next index. *)
Definition auth_field (data : bytes) (fieldNum wireType idx : Z) (a : SetCodeAuthorization) :
    result derror (SetCodeAuthorization * Z) :=
  let '(mkAuth c ad n v r s) := a in
  if fieldNum =? 1 then '(x, i) ← setcodeReadIntField data idx wireType; Ok (mkAuth x ad n v r s, i)
  else if fieldNum =? 2 then '(x, i) ← setcodeReadLengthDelim data idx wireType; Ok (mkAuth c (bytes_str x) n v r s, i)
  else if fieldNum =? 3 then '(x, i) ← read_uint data idx wireType; Ok (mkAuth c ad x v r s, i)
  else if fieldNum =? 4 then '(x, i) ← setcodeReadLengthDelim data idx wireType; Ok (mkAuth c ad n x r s, i)
  else if fieldNum =? 5 then '(x, i) ← setcodeReadLengthDelim data idx wireType; Ok (mkAuth c ad n v x s, i)
  else if fieldNum =? 6 then '(x, i) ← setcodeReadLengthDelim data idx wireType; Ok (mkAuth c ad n v r x, i)
  else i ← setcodeSkipField data idx wireType; Ok (a, i).

(** The loop both decoders have, over the fields of a message; [None] when the fuel
    runs out. *)
Fixpoint field_loop {A} (field : Z -> Z -> Z -> A -> result derror (A * Z)) (fuel : nat) (data : bytes) (a : A) (idx : Z) :
    option (result derror A) :=
  match fuel with
  | O => None
  | S fuel =>
    if len data <=? idx then Some (Ok a)
    else
      match protoDecodeSetCodeVarint (drop (Z.to_nat idx) data) with
      | Err e => Some (Err e)
      | Panic => Some Panic
      | Ok (tag, n) =>
        match field (Z.shiftr tag 3) (Z.land tag 0x7) (idx + n) a with
        | Err e => Some (Err e)
        | Panic => Some Panic
        | Ok (a, idx) => field_loop field fuel data a idx
        end
      end
  end.

Definition Auth_Unmarshal (data : bytes) : option (result derror SetCodeAuthorization) :=
  field_loop (auth_field data) (S (length data)) data empty_auth 0.

(** * [SetCodeTx] *)

(** An entry of the authorization list, written before the index. *)
Definition marshal_auth (a : SetCodeAuthorization) (s : bytes * Z) : option (bytes * Z) :=
  let '(data, i) := s in
  let size := Auth_Size a in
  if 0 <? size then
    if (i <? 0) || (len data <? i) then None
    else
      '(pre, n) ← Auth_MarshalToSizedBuffer a (take (Z.to_nat i) data);
      let data := pre ++ drop (Z.to_nat i) data in
      let i := i - n in
      '(data, i) ← protoEncodeSetCodeVarint data i size;
      let i := i - 1 in
      data ← poke data i 0x72;
      Some (data, i)
  else Some (data, i).

(** An entry of the access list; written whatever its length. *)
Definition marshal_tuple (t : AccessTuple) (s : bytes * Z) : option (bytes * Z) :=
  let '(data, i) := s in
  let bz := tuple_Marshal t in
  let i := i - len bz in
  data ← copy_at data i bz;
  '(data, i) ← protoEncodeSetCodeVarint data i (len bz);
  let i := i - 1 in
  data ← poke data i 0x4a;
  Some (data, i).

(** The loops over the lists run from the last entry to the first. *)
Fixpoint marshal_list {A} (f : A -> bytes * Z -> option (bytes * Z)) (l : list A) (s : bytes * Z) : option (bytes * Z) :=
  match l with
  | [] => Some s
  | a :: l => s ← marshal_list f l s; f a s
  end.

Definition MarshalToSizedBuffer (tx : SetCodeTx) (data : bytes) : option (bytes * Z) :=
  s ← marshal_list marshal_auth (sc_AuthList tx) (data, len data);
  s ← setcodeMarshalBytesField 0x6a (sc_S tx) s;
  s ← setcodeMarshalBytesField 0x62 (sc_R tx) s;
  s ← setcodeMarshalBytesField 0x5a (sc_V tx) s;
  s ← marshal_list marshal_tuple (default [] (sc_Accesses tx)) s;
  s ← setcodeMarshalBytesField 0x42 (sc_Data tx) s;
  s ← setcodeMarshalIntField 0x3a (sc_Amount tx) s;
  s ← marshal_field 0x32 (str_bytes (sc_To tx)) s;
  s ← marshal_uint 0x28 (sc_GasLimit tx) s;
  s ← setcodeMarshalIntField 0x22 (sc_GasFeeCap tx) s;
  s ← setcodeMarshalIntField 0x1a (sc_GasTipCap tx) s;
  s ← marshal_uint 0x10 (sc_Nonce tx) s;
  '(data, i) ← setcodeMarshalIntField 0x0a (sc_ChainID tx) s;
  Some (data, len data - i).

Definition tuple_size (t : AccessTuple) : Z := field_size (tuple_Marshal t).

Definition auth_size (a : SetCodeAuthorization) : Z :=
  let size := Auth_Size a in if 0 <? size then 1 + size + protoSizeSetCodeVarint size else 0.

Definition Size (tx : SetCodeTx) : Z :=
  setcodeIntFieldSize (sc_ChainID tx) 1 + uint_size (sc_Nonce tx) + setcodeIntFieldSize (sc_GasTipCap tx) 1
  + setcodeIntFieldSize (sc_GasFeeCap tx) 1 + uint_size (sc_GasLimit tx) + field_size (str_bytes (sc_To tx))
  + setcodeIntFieldSize (sc_Amount tx) 1 + field_size (sc_Data tx) + sumZ tuple_size (default [] (sc_Accesses tx))
  + field_size (sc_V tx) + field_size (sc_R tx) + field_size (sc_S tx) + sumZ auth_size (sc_AuthList tx).

Definition Marshal (tx : SetCodeTx) : option bytes :=
  '(data, n) ← MarshalToSizedBuffer tx (replicate (Z.to_nat (Size tx)) 0);
  Some (take (Z.to_nat n) data).

Definition empty_tx : SetCodeTx := mkSetCode None 0 None None 0 "" None [] None [] [] [] [].

Definition tx_field (data : bytes) (fieldNum wireType idx : Z) (tx : SetCodeTx) : result derror (SetCodeTx * Z) :=
  let '(mkSetCode c n t f g to am d ac v r s au) := tx in
  if fieldNum =? 1 then '(x, i) ← setcodeReadIntField data idx wireType; Ok (mkSetCode x n t f g to am d ac v r s au, i)
  else if fieldNum =? 2 then '(x, i) ← read_uint data idx wireType; Ok (mkSetCode c x t f g to am d ac v r s au, i)
  else if fieldNum =? 3 then '(x, i) ← setcodeReadIntField data idx wireType; Ok (mkSetCode c n x f g to am d ac v r s au, i)
  else if fieldNum =? 4 then '(x, i) ← setcodeReadIntField data idx wireType; Ok (mkSetCode c n t x g to am d ac v r s au, i)
  else if fieldNum =? 5 then '(x, i) ← read_uint data idx wireType; Ok (mkSetCode c n t f x to am d ac v r s au, i)
  else if fieldNum =? 6 then '(x, i) ← setcodeReadLengthDelim data idx wireType; Ok (mkSetCode c n t f g (bytes_str x) am d ac v r s au, i)
  else if fieldNum =? 7 then '(x, i) ← setcodeReadIntField data idx wireType; Ok (mkSetCode c n t f g to x d ac v r s au, i)
  else if fieldNum =? 8 then '(x, i) ← setcodeReadLengthDelim data idx wireType; Ok (mkSetCode c n t f g to am x ac v r s au, i)
  else if fieldNum =? 9 then
    '(x, i) ← setcodeReadLengthDelim data idx wireType;
    match tuple_Unmarshal x with
    | None => Err ErrNested
    | Some at_ => Ok (mkSetCode c n t f g to am d (Some (default [] ac ++ [at_])) v r s au, i)
    end
  else if fieldNum =? 11 then '(x, i) ← setcodeReadLengthDelim data idx wireType; Ok (mkSetCode c n t f g to am d ac x r s au, i)
  else if fieldNum =? 12 then '(x, i) ← setcodeReadLengthDelim data idx wireType; Ok (mkSetCode c n t f g to am d ac v x s au, i)
  else if fieldNum =? 13 then '(x, i) ← setcodeReadLengthDelim data idx wireType; Ok (mkSetCode c n t f g to am d ac v r x au, i)
  else if fieldNum =? 14 then
    '(x, i) ← setcodeReadLengthDelim data idx wireType;
    match Auth_Unmarshal x with
    | Some (Ok a) => Ok (mkSetCode c n t f g to am d ac v r s (au ++ [a]), i)
    | Some (Err e) => Err ErrNested
    | Some Panic | None => Panic
    end
  else i ← setcodeSkipField data idx wireType; Ok (tx, i).

Definition Unmarshal (data : bytes) : option (result derror SetCodeTx) :=
  field_loop (tx_field data) (S (length data)) data empty_tx 0.

End Codec.
