(* ===== verification/SetCodeCodecProps.v ===== *)
(** [x/evm/types/set_code_tx.go]: what the codec of [SetCodeTx] preserves. *)

From stdpp Require Import base list gmap strings.
From Stdlib Require Import ZArith Lia.
From S2P Require Import Prelude KVStore PaxOracle ProtoWire EvmTx SetCodeCodec.
Open Scope Z_scope.

(** What the libraries document: the text form of a 256-bit integer is not empty,
    short, and reads back; so does the encoding of an access tuple. *)
Class WireLaws {WL : WireLib} := {
  int_text : forall v, Z.abs v < 2 ^ 256 -> int_Unmarshal (int_Marshal v) = Some v;
  int_text_length : forall v, Z.abs v < 2 ^ 256 -> 0 < len (int_Marshal v) < 128;
  tuple_text : forall t, tuple_Unmarshal (tuple_Marshal t) = Some t
}.

Lemma take_len {A} (l k : list A) : take (Z.to_nat (len l)) (l ++ k) = l.
Proof. unfold len. by rewrite Nat2Z.id, take_app_length. Qed.

Lemma drop_len {A} (l k : list A) : drop (Z.to_nat (len l)) (l ++ k) = k.
Proof. unfold len. by rewrite Nat2Z.id, drop_app_length. Qed.

(** * Varints *)

Lemma group_bound x : 0 <= x < 2 ^ 7 -> 128 <= Z.lor x 0x80 < 256.
Proof.
  intros H. assert (forallb (fun n => let y := Z.lor (Z.of_nat n) 0x80 in (128 <=? y) && (y <? 256)) (seq 0 128) = true) as Hall
    by (vm_compute; reflexivity).
  rewrite forallb_forall in Hall. specialize (Hall (Z.to_nat x)). rewrite Z2Nat.id in Hall by lia.
  cbv zeta in Hall. rewrite andb_true_iff, Z.leb_le, Z.ltb_lt in Hall. apply Hall, in_seq. lia.
Qed.

(** The encoder puts the most significant group first. *)
Lemma varint_written_head fuel v : (0 < fuel)%nat -> 0 <= v < 128 ^ Z.of_nat fuel ->
  exists h gs, varint_written fuel v = h :: gs /\ 0 <= h < 128 /\ Forall (fun g => 128 <= g < 256) gs /\
    (v < 128 -> h = v /\ gs = []) /\ (128 <= v -> h < v /\ gs <> []).
Proof.
  revert v. induction fuel as [|f IH]; intros v Hf Hv; [lia|]. cbn [varint_written].
  destruct (Z.leb_spec 0x80 v) as [Hbig|Hsmall].
  - destruct f as [|f]; [cbn in Hv; lia|]. destruct (IH (Z.shiftr v 7) ltac:(lia) (shiftr7_bound _ _ Hv)) as (h & gs & -> & Hh & Hg & Hs & Hb).
    exists h, (gs ++ [Z.lor (Z.land v 0x7f) 0x80]). split; [done|]. split; [done|]. split.
    + apply Forall_app. split; [done|]. apply Forall_singleton. change 0x7f with (Z.ones 7). rewrite Z.land_ones by lia.
      apply group_bound, Z.mod_pos_bound. lia.
    + split; [lia|]. intros _. split; [|by destruct gs].
      assert (Z.shiftr v 7 < v) by (rewrite Z.shiftr_div_pow2 by lia; apply Z.div_lt; lia).
      destruct (Z.lt_ge_cases (Z.shiftr v 7) 128) as [Hlt|Hge]; [destruct (Hs Hlt); lia|destruct (Hb Hge); lia].
  - exists v, []. rewrite Z.mod_small by lia. split_and!; try done; lia.
Qed.

Lemma decode_small b rest : 0 <= b < 128 -> protoDecodeSetCodeVarint (b :: rest) = Ok (b, 1).
Proof.
  intros H. unfold protoDecodeSetCodeVarint. cbn [decode_varint]. rewrite Z.shiftl_0_r, Z.lor_0_l.
  change 0x7F with (Z.ones 7). rewrite Z.land_ones, Z.mod_small by lia. rewrite wrapU_small by lia.
  destruct (Z.ltb_spec b 0x80); [done|lia].
Qed.

Lemma decode_written v rest : 0 <= v < 2 ^ 64 ->
  exists h, protoDecodeSetCodeVarint (varint_written varint_fuel v ++ rest) = Ok (h, 1) /\
    (v < 128 -> h = v /\ len (varint_written varint_fuel v) = 1) /\ (128 <= v -> h < v).
Proof.
  intros Hv. destruct (varint_written_head varint_fuel v) as (h & gs & -> & Hh & _ & Hs & Hb).
  - unfold varint_fuel. lia.
  - change (128 ^ Z.of_nat varint_fuel) with (2 ^ 70). lia.
  - exists h. cbn [app]. rewrite decode_small by done. split; [done|]. split; intros H.
    + destruct (Hs H) as [-> ->]. done.
    + by destruct (Hb H).
Qed.

Lemma decode_varint_bound data : forall shift v n x m,
  decode_varint data shift v n = Ok (x, m) -> n + 1 <= m <= n + len data.
Proof.
  induction data as [|b data IH]; intros shift v n x m H; [done|]. cbn [decode_varint] in H.
  change (b :: data) with ([b] ++ data). rewrite len_app. change (len [b]) with 1. pose proof (len_nonneg data).
  destruct (b <? 0x80); [injection H as <- <-; lia|]. destruct (63 <=? shift); [done|]. apply IH in H. lia.
Qed.

(** * The decoder returns *)

Lemma decode_advances data x n : protoDecodeSetCodeVarint data = Ok (x, n) -> 1 <= n.
Proof. intros H%decode_varint_bound. lia. Qed.

Lemma read_delim_advances data idx w b i : setcodeReadLengthDelim data idx w = Ok (b, i) -> idx <= i.
Proof.
  unfold setcodeReadLengthDelim. destruct (negb _); [done|].
  destruct (protoDecodeSetCodeVarint _) as [[l n]| |] eqn:E; [|done..]. apply decode_advances in E. cbn.
  destruct (_ <? _); [done|]. unfold slice. set (stop := i64 _).
  destruct (Z.leb_spec 0 (idx + n)), (Z.leb_spec (idx + n) stop); cbn; try done. case_match; [|done].
  intros [= <- <-]. lia.
Qed.

Section Returns.
Context {WL : WireLib}.

Lemma read_int_advances data idx w b i : setcodeReadIntField data idx w = Ok (b, i) -> idx <= i.
Proof.
  unfold setcodeReadIntField. destruct (setcodeReadLengthDelim _ _ _) as [[bz c]| |] eqn:E; [|done..].
  apply read_delim_advances in E. cbn. case_bool_decide; [by intros [= <- <-]|]. case_match; [|done]. by intros [= <- <-].
Qed.

Lemma read_uint_advances data idx w b i : read_uint data idx w = Ok (b, i) -> idx <= i.
Proof.
  unfold read_uint. destruct (negb _); [done|]. destruct (protoDecodeSetCodeVarint _) as [[l n]| |] eqn:E; [|done..].
  apply decode_advances in E. intros [= <- <-]. lia.
Qed.

Lemma skip_advances data idx w i : setcodeSkipField data idx w = Ok i -> idx <= i.
Proof.
  unfold setcodeSkipField. destruct (w =? 0).
  - destruct (protoDecodeSetCodeVarint _) as [[l n]| |] eqn:E; [|done..]. apply decode_advances in E. intros [= <-]. lia.
  - destruct (w =? 2); [|done]. destruct (setcodeReadLengthDelim _ _ _) as [[bz c]| |] eqn:E; [|done..].
    apply read_delim_advances in E. by intros [= <-].
Qed.

(** A field function that does not go back. *)
Definition advancing {A} (field : Z -> Z -> Z -> A -> result derror (A * Z)) : Prop :=
  forall f w idx a a' i, field f w idx a = Ok (a', i) -> idx <= i.

Lemma field_loop_returns {A} (field : Z -> Z -> Z -> A -> result derror (A * Z)) data :
  advancing field -> forall fuel a idx, 0 <= idx -> len data - idx < Z.of_nat fuel -> (0 < fuel)%nat ->
  exists r, field_loop field fuel data a idx = Some r.
Proof.
  intros Hadv. induction fuel as [|fuel IH]; intros a idx Hi Hf Hpos; [lia|]. cbn [field_loop].
  destruct (Z.leb_spec (len data) idx); [by eexists|].
  destruct (protoDecodeSetCodeVarint _) as [[tag n]| |] eqn:Ed; [|by eexists..]. apply decode_advances in Ed.
  destruct (field _ _ _ _) as [[a' i]| |] eqn:Ef; [|by eexists..]. apply Hadv in Ef. apply IH; lia.
Qed.

Ltac advance := repeat match goal with
  | H : (if ?b then _ else _) = Ok _ |- _ => destruct b
  | H : (?r ≫= _) = Ok _ |- _ => let E := fresh "E" in destruct r as [[? ?]| |] eqn:E; cbn in H; try discriminate
  | H : match ?x with _ => _ end = Ok _ |- _ => destruct x; try discriminate
  | H : Ok _ = Ok _ |- _ => injection H as <- <-
  | H : setcodeReadIntField _ _ _ = Ok _ |- _ => apply read_int_advances in H
  | H : setcodeReadLengthDelim _ _ _ = Ok _ |- _ => apply read_delim_advances in H
  | H : read_uint _ _ _ = Ok _ |- _ => apply read_uint_advances in H
  end.

Lemma auth_field_advances data : advancing (auth_field data).
Proof.
  intros f w idx a a' i H. unfold auth_field in H. destruct a. advance; try done.
  destruct (setcodeSkipField _ _ _) as [j| |] eqn:E; cbn in H; try discriminate. injection H as <- <-. by apply skip_advances in E.
Qed.

Lemma Auth_Unmarshal_returns data : exists r, Auth_Unmarshal data = Some r.
Proof. apply field_loop_returns; [apply auth_field_advances|lia|unfold len; lia|lia]. Qed.

Lemma tx_field_advances data : advancing (tx_field data).
Proof.
  intros f w idx a a' i H. unfold tx_field in H. destruct a. advance; try done.
  destruct (setcodeSkipField _ _ _) as [j| |] eqn:E; cbn in H; try discriminate. injection H as <- <-. by apply skip_advances in E.
Qed.

Lemma setcode_unmarshal_returns data : exists r, Unmarshal data = Some r.
Proof. apply field_loop_returns; [apply tx_field_advances|lia|unfold len; lia|lia]. Qed.

End Returns.

(** * What the encoder writes *)

Definition uint_wire (tag v : Z) : bytes := if v =? 0 then [] else tag :: varint_written varint_fuel v.

(** Follow the chain of options that [E] says succeeds. *)
Ltac heads E := repeat match type of E with
  | ?x ≫= _ = _ => destruct x; [cbn [mbind option_bind] in E |- *|discriminate E]
  end.

Section Wire.
Context {WL : WireLib}.

Definition int_wire (tag : Z) (v : option Z) : bytes :=
  match v with None => [] | Some v => wire_field tag (int_Marshal v) end.

Definition auth_wire (a : SetCodeAuthorization) : bytes :=
  int_wire 0x0a (au_ChainID a) ++ wire_field 0x12 (str_bytes (au_Address a)) ++ uint_wire 0x18 (au_Nonce a)
  ++ wire_field 0x22 (au_V a) ++ wire_field 0x2a (au_R a) ++ wire_field 0x32 (au_S a).

Definition list_wire {A} (f : A -> bytes) (l : list A) : bytes := concat (map f l).

Definition tx_wire (tx : SetCodeTx) : bytes :=
  int_wire 0x0a (sc_ChainID tx) ++ uint_wire 0x10 (sc_Nonce tx) ++ int_wire 0x1a (sc_GasTipCap tx)
  ++ int_wire 0x22 (sc_GasFeeCap tx) ++ uint_wire 0x28 (sc_GasLimit tx) ++ wire_field 0x32 (str_bytes (sc_To tx))
  ++ int_wire 0x3a (sc_Amount tx) ++ wire_field 0x42 (sc_Data tx)
  ++ list_wire (fun t => wire_field 0x4a (tuple_Marshal t)) (default [] (sc_Accesses tx))
  ++ wire_field 0x5a (sc_V tx) ++ wire_field 0x62 (sc_R tx) ++ wire_field 0x6a (sc_S tx)
  ++ list_wire (fun a => wire_field 0x72 (auth_wire a)) (sc_AuthList tx).

(** A step of the encoder that writes [w] before the index. *)
Definition writes (f : bytes * Z -> option (bytes * Z)) (w : bytes) : Prop :=
  forall pre post, len w <= len pre ->
    exists p, len p = len pre - len w /\ f (pre ++ post, len pre) = Some (p ++ w ++ post, len p).

Lemma writes_then f g w1 w2 : writes f w1 -> writes g w2 -> writes (fun s => s ← f s; g s) (w2 ++ w1).
Proof.
  intros Hf Hg pre post Hl. rewrite len_app in *. pose proof (len_nonneg w2). pose proof (len_nonneg w1).
  destruct (Hf pre post ltac:(lia)) as (p & Hp & E). destruct (Hg p (w1 ++ post) ltac:(lia)) as (q & Hq & E').
  exists q. split; [lia|]. cbn. rewrite E. cbn. rewrite E'. by rewrite <- app_assoc.
Qed.

Lemma writes_nothing : writes Some [].
Proof. intros pre post _. exists pre. change (len []) with 0. split; [lia|done]. Qed.

Lemma writes_field tag payload : len payload < 2 ^ 63 -> writes (marshal_field tag payload) (wire_field tag payload).
Proof. intros H pre post Hl. rewrite field_size_wire in Hl |- * by done. by apply marshal_field_spec. Qed.

Lemma writes_int tag v : (forall x, v = Some x -> len (int_Marshal x) < 2 ^ 63) ->
  writes (setcodeMarshalIntField tag v) (int_wire tag v).
Proof. intros H. destruct v as [x|]; [apply writes_field; by apply H|apply writes_nothing]. Qed.

(** The length and the tag before what was just written. *)
Lemma writes_prefix tag v : 0 <= v < 2 ^ 64 ->
  writes (fun s => let '(data, i) := s in
            '(data, i) ← protoEncodeSetCodeVarint data i v; let i := i - 1 in data ← poke data i tag; Some (data, i))
         (tag :: varint_written varint_fuel v).
Proof.
  intros Hv pre post Hl. change (tag :: ?l) with ([tag] ++ l) in *. rewrite len_app in *. change (len [tag]) with 1 in *.
  assert (0 <= v < 128 ^ Z.of_nat varint_fuel) as Hf by (change (128 ^ Z.of_nat varint_fuel) with (2 ^ 70); lia).
  rewrite length_varint in * by (done || unfold varint_fuel; lia).
  destruct (protoEncodeVarint_spec varint_fuel v pre post Hf ltac:(unfold varint_fuel; lia) ltac:(lia)) as (p & Hp & E).
  destruct (room1 p ltac:(lia)) as (q & y & -> & Hq). exists q. split; [lia|].
  unfold protoEncodeSetCodeVarint. rewrite E. cbn -[poke]. rewrite poke_end. cbn. do 2 f_equal. rewrite len_app. change (len [y]) with 1. lia.
Qed.

Lemma writes_uint tag v : 0 <= v < 2 ^ 64 -> writes (marshal_uint tag v) (uint_wire tag v).
Proof.
  intros Hv pre post Hl. unfold marshal_uint, uint_wire in *. destruct (v =? 0); [by apply writes_nothing|].
  destruct (writes_prefix tag v Hv pre post Hl) as (p & Hp & E). by exists p.
Qed.

Lemma writes_list {A} (f : A -> bytes * Z -> option (bytes * Z)) (w : A -> bytes) l :
  Forall (fun a => writes (f a) (w a)) l -> writes (marshal_list f l) (list_wire w l).
Proof.
  induction 1 as [|a l Ha _ IH]; [apply writes_nothing|]. exact (writes_then _ _ _ _ IH Ha).
Qed.

Lemma writes_tuple t : 0 < len (tuple_Marshal t) < 2 ^ 63 -> writes (marshal_tuple t) (wire_field 0x4a (tuple_Marshal t)).
Proof.
  intros Ht pre post Hl. destruct (writes_field 0x4a (tuple_Marshal t) (proj2 Ht) pre post Hl) as (p & Hp & E).
  exists p. split; [done|]. rewrite <- E. unfold marshal_field, marshal_tuple. by rewrite (proj2 (Z.ltb_lt _ _) (proj1 Ht)).
Qed.

(** An integer field in range. *)
Definition int_ok (v : option Z) : Prop := match v with None => True | Some x => Z.abs x < 2 ^ 256 end.

(** Numbers and lengths below 128. *)
Record auth_short (a : SetCodeAuthorization) : Prop := {
  as_chain : int_ok (au_ChainID a);
  as_nonce : 0 <= au_Nonce a < 128;
  as_size : 0 < len (auth_wire a) < 128
}.

(** A transaction to an address in hexadecimal whose numbers and lengths are below
    128, except its gas limit. *)
Record tx_short (tx : SetCodeTx) : Prop := {
  ts_ints : int_ok (sc_ChainID tx) /\ int_ok (sc_GasTipCap tx) /\ int_ok (sc_GasFeeCap tx) /\ int_ok (sc_Amount tx);
  ts_nonce : 0 <= sc_Nonce tx < 128;
  ts_gas : 0 <= sc_GasLimit tx < 2 ^ 63;
  ts_to : exists rest, str_bytes (sc_To tx) = 0x30 :: rest /\ len rest < 127;
  ts_bytes : len (sc_Data tx) < 128 /\ len (sc_V tx) < 128 /\ len (sc_R tx) < 128 /\ len (sc_S tx) < 128;
  ts_tuples : sc_Accesses tx <> Some [] /\ Forall (fun t => 0 < len (tuple_Marshal t) < 128) (default [] (sc_Accesses tx));
  ts_auths : Forall auth_short (sc_AuthList tx)
}.

Context {WLL : WireLaws}.

Lemma int_fits v x : int_ok v -> v = Some x -> len (int_Marshal x) < 2 ^ 63.
Proof. intros Hv ->. pose proof (int_text_length x Hv). lia. Qed.

Lemma int_size_wire tag v : int_ok v -> setcodeIntFieldSize v 1 = len (int_wire tag v).
Proof.
  intros Hv. destruct v as [x|]; [|done]. pose proof (int_text_length x Hv). cbn -[len]. rewrite field_size_wire by lia.
  unfold field_size. destruct (Z.eqb_spec (len (int_Marshal x)) 0), (Z.ltb_spec 0 (len (int_Marshal x))); try lia. done.
Qed.

Lemma uint_size_wire tag v : 0 <= v < 2 ^ 64 -> uint_size v = len (uint_wire tag v).
Proof.
  intros Hv. unfold uint_size, uint_wire. destruct (v =? 0); [done|]. change (tag :: ?l) with ([tag] ++ l).
  rewrite len_app, length_varint; [done| |unfold varint_fuel; lia]. change (128 ^ Z.of_nat varint_fuel) with (2 ^ 70). lia.
Qed.

Lemma wire_bound tag payload : len payload <= len (wire_field tag payload).
Proof.
  unfold wire_field. destruct (Z.ltb_spec 0 (len payload)); [|change (len []) with 0; lia].
  change (tag :: ?l) with ([tag] ++ l). rewrite !len_app. pose proof (len_nonneg [tag]).
  pose proof (len_nonneg (varint_written varint_fuel (len payload))). lia.
Qed.

Lemma auth_parts a : auth_short a ->
  len (str_bytes (au_Address a)) < 128 /\ len (au_V a) < 128 /\ len (au_R a) < 128 /\ len (au_S a) < 128.
Proof.
  intros [_ _ [_ H]]. unfold auth_wire in H. rewrite !len_app in H.
  pose proof (len_nonneg (int_wire 0x0a (au_ChainID a))). pose proof (len_nonneg (uint_wire 0x18 (au_Nonce a))).
  pose proof (wire_bound 0x12 (str_bytes (au_Address a))). pose proof (wire_bound 0x22 (au_V a)).
  pose proof (wire_bound 0x2a (au_R a)). pose proof (wire_bound 0x32 (au_S a)).
  pose proof (len_nonneg (str_bytes (au_Address a))). pose proof (len_nonneg (au_V a)). pose proof (len_nonneg (au_R a)).
  pose proof (len_nonneg (au_S a)). lia.
Qed.

Lemma Auth_Size_wire a : auth_short a -> Auth_Size a = len (auth_wire a).
Proof.
  intros Ha. destruct (auth_parts a Ha) as (H1 & H2 & H3 & H4). destruct Ha as [Hc Hn _]. unfold Auth_Size, auth_wire.
  rewrite !len_app, (int_size_wire 0x0a), (uint_size_wire 0x18), !field_size_wire by (done || lia). lia.
Qed.

Lemma Auth_MarshalToSizedBuffer_spec a pre : auth_short a -> len (auth_wire a) <= len pre ->
  exists p, len p = len pre - len (auth_wire a) /\
    Auth_MarshalToSizedBuffer a pre = Some (p ++ auth_wire a, len (auth_wire a)).
Proof.
  intros Ha Hl. destruct (auth_parts a Ha) as (H1 & H2 & H3 & H4). destruct Ha as [Hc Hn _].
  pose proof (writes_then _ _ _ _ (writes_field 0x32 (au_S a) ltac:(lia)) (writes_then _ _ _ _ (writes_field 0x2a (au_R a) ltac:(lia))
    (writes_then _ _ _ _ (writes_field 0x22 (au_V a) ltac:(lia)) (writes_then _ _ _ _ (writes_uint 0x18 (au_Nonce a) ltac:(lia))
    (writes_then _ _ _ _ (writes_field 0x12 (str_bytes (au_Address a)) ltac:(lia)) (writes_int 0x0a (au_ChainID a) (fun x => int_fits _ x Hc))))))) as W.
  rewrite <- !app_assoc in W. destruct (W pre [] Hl) as (p & Hp & E). exists p. split; [done|].
  rewrite !app_nil_r in E. unfold Auth_MarshalToSizedBuffer, setcodeMarshalBytesField. fold (auth_wire a) in E.
  heads E. rewrite E. cbn [mbind option_bind]. rewrite len_app. do 2 f_equal. lia.
Qed.

Lemma writes_auth a : auth_short a -> writes (marshal_auth a) (wire_field 0x72 (auth_wire a)).
Proof.
  intros Ha pre post Hl. pose proof (as_size a Ha) as Hs. unfold wire_field in *.
  rewrite (proj2 (Z.ltb_lt _ _) (proj1 Hs)) in *. change (?t :: ?l ++ ?m) with ((t :: l) ++ m) in *. rewrite len_app in Hl.
  set (h := 0x72 :: varint_written varint_fuel (len (auth_wire a))) in *. pose proof (len_nonneg h).
  destruct (Auth_MarshalToSizedBuffer_spec a pre Ha ltac:(lia)) as (p & Hp & E).
  destruct (writes_prefix 0x72 (len (auth_wire a)) ltac:(lia) p (auth_wire a ++ post) ltac:(subst h; lia)) as (q & Hq & E').
  exists q. fold h in Hq, E'. split; [rewrite len_app; lia|]. unfold marshal_auth. rewrite Auth_Size_wire by done.
  rewrite (proj2 (Z.ltb_lt _ _) (proj1 Hs)). pose proof (len_nonneg pre). pose proof (len_nonneg post).
  destruct (Z.ltb_spec (len pre) 0), (Z.ltb_spec (len (pre ++ post)) (len pre)); rewrite ?len_app in *; try lia. cbn [orb].
  rewrite take_len, drop_len, E. cbn -[protoEncodeSetCodeVarint poke len]. rewrite <- Hp, <- !app_assoc. exact E'.
Qed.

End Wire.


(** [x/evm/types/set_code_tx.go]: which transactions survive [Marshal] and then
    [Unmarshal]. *)

#[local] Arguments setcodeReadLengthDelim : simpl never.
#[local] Arguments setcodeReadIntField : simpl never.
#[local] Arguments read_uint : simpl never.
#[local] Arguments protoDecodeSetCodeVarint : simpl never.

(** * The encoder *)

Section Encoder.
Context `{WLL : WireLaws}.

Lemma list_size_wire {A} (size : A -> Z) (w : A -> bytes) l :
  Forall (fun a => size a = len (w a)) l -> sumZ size l = len (list_wire w l).
Proof.
  induction 1 as [|a l Ha _ IH]; [done|]. rewrite sumZ_cons, Ha, IH. unfold list_wire. cbn [map concat]. by rewrite len_app.
Qed.

Lemma to_length tx : tx_short tx -> len (str_bytes (sc_To tx)) < 128.
Proof.
  intros [_ _ _ (rest & -> & H) _ _ _]. change (?x :: ?l) with ([x] ++ l). rewrite len_app. change (len [_]) with 1. lia.
Qed.

Lemma Size_wire tx : tx_short tx -> Size tx = len (tx_wire tx).
Proof.
  intros Ht. pose proof (to_length tx Ht) as Hto.
  destruct Ht as [(Hc & Hp & Hf & Hv) Hn Hg _ (Hd & Hv' & Hr & Hs) [_ Htup] Hau]. unfold Size, tx_wire.
  rewrite !len_app, (int_size_wire 0x0a), (uint_size_wire 0x10), (int_size_wire 0x1a), (int_size_wire 0x22),
    (uint_size_wire 0x28), (int_size_wire 0x3a), !field_size_wire by (done || lia).
  rewrite (list_size_wire _ (fun t => wire_field 0x4a (tuple_Marshal t))),
    (list_size_wire _ (fun a => wire_field 0x72 (auth_wire a))); [lia| |].
  - eapply Forall_impl; [exact Hau|]. intros a Ha. cbn beta. pose proof (as_size a Ha). rewrite field_size_wire by lia.
    unfold auth_size, field_size. by rewrite Auth_Size_wire.
  - eapply Forall_impl; [exact Htup|]. intros t H. cbn beta. rewrite field_size_wire by (cbn beta in H; lia). done.
Qed.

Lemma writes_tx tx : tx_short tx ->
  exists f, writes f (tx_wire tx) /\
    forall data, MarshalToSizedBuffer tx data = ('(data, i) ← f (data, len data); Some (data, len data - i)).
Proof.
  intros Ht. pose proof (to_length tx Ht) as Hto.
  destruct Ht as [(Hc & Hp & Hf & Hv) Hn Hg _ (Hd & Hv' & Hr & Hs) [_ Htup] Hau].
  assert (Forall (fun t => writes (marshal_tuple t) (wire_field 0x4a (tuple_Marshal t))) (default [] (sc_Accesses tx))) as W1.
  { eapply Forall_impl; [exact Htup|]. intros t H. apply writes_tuple. cbn beta in H. lia. }
  assert (Forall (fun a => writes (marshal_auth a) (wire_field 0x72 (auth_wire a))) (sc_AuthList tx)) as W2.
  { eapply Forall_impl; [exact Hau|]. apply writes_auth. }
  eexists. split.
  - pose proof (writes_then _ _ _ _ (writes_list _ _ _ W2) (writes_then _ _ _ _ (writes_field 0x6a (sc_S tx) ltac:(lia))
      (writes_then _ _ _ _ (writes_field 0x62 (sc_R tx) ltac:(lia)) (writes_then _ _ _ _ (writes_field 0x5a (sc_V tx) ltac:(lia))
      (writes_then _ _ _ _ (writes_list _ _ _ W1) (writes_then _ _ _ _ (writes_field 0x42 (sc_Data tx) ltac:(lia))
      (writes_then _ _ _ _ (writes_int 0x3a (sc_Amount tx) (fun x => int_fits _ x Hv))
      (writes_then _ _ _ _ (writes_field 0x32 (str_bytes (sc_To tx)) ltac:(lia))
      (writes_then _ _ _ _ (writes_uint 0x28 (sc_GasLimit tx) ltac:(lia))
      (writes_then _ _ _ _ (writes_int 0x22 (sc_GasFeeCap tx) (fun x => int_fits _ x Hf))
      (writes_then _ _ _ _ (writes_int 0x1a (sc_GasTipCap tx) (fun x => int_fits _ x Hp))
      (writes_then _ _ _ _ (writes_uint 0x10 (sc_Nonce tx) ltac:(lia))
      (writes_int 0x0a (sc_ChainID tx) (fun x => int_fits _ x Hc)))))))))))))) as W.
    rewrite <- !app_assoc in W. exact W.
  - intros data. unfold MarshalToSizedBuffer, setcodeMarshalBytesField.
    repeat match goal with |- ?x ≫= _ = _ => destruct x; [cbn [mbind option_bind]|done] end. done.
Qed.

(** The encoder succeeds, and [Size] is the length of what it writes. *)
Lemma Marshal_wire tx : tx_short tx -> Marshal tx = Some (tx_wire tx).
Proof.
  intros Ht. destruct (writes_tx tx Ht) as (f & W & E). pose proof (len_nonneg (tx_wire tx)) as Hpos.
  unfold Marshal. rewrite Size_wire by done. set (buf := replicate _ 0).
  assert (len buf = len (tx_wire tx)) as Hb by (subst buf; unfold len; rewrite length_replicate; lia).
  destruct (W buf [] ltac:(lia)) as (p & Hp & E'). rewrite !app_nil_r in E'. rewrite E, E'. cbn [mbind option_bind].
  destruct p as [|x p]; [|unfold len in Hp, Hb; cbn in Hp; lia]. cbn [app]. change (len []) with 0. rewrite Z.sub_0_r.
  f_equal. unfold len. rewrite Nat2Z.id. apply firstn_all.
Qed.

End Encoder.

(** * The decoder *)

Section Decoder.
Context {A : Type} (field : Z -> Z -> Z -> A -> result derror (A * Z)) (data : bytes).

(** The loop ends in [r] from the index; what happens at one index is what happens
    at another; the bytes [w] take the value [a] to [a']. *)
Definition runs (idx : Z) (a : A) (r : result derror A) : Prop := exists fuel, field_loop field fuel data a idx = Some r.

Definition reads (idx : Z) (a : A) (idx' : Z) (a' : A) : Prop := forall r, runs idx' a' r -> runs idx a r.

Definition parses (w : bytes) (a a' : A) : Prop :=
  forall pre post, data = pre ++ w ++ post -> reads (len pre) a (len (pre ++ w)) a'.

Lemma field_loop_mono fuel : forall a idx r more,
  field_loop field fuel data a idx = Some r -> field_loop field (fuel + more) data a idx = Some r.
Proof.
  induction fuel as [|fuel IH]; intros a idx r more H; [done|]. cbn [field_loop Nat.add] in *. destruct (_ <=? _); [done|].
  destruct (protoDecodeSetCodeVarint _) as [[tag n]| |]; [|done..]. destruct (field _ _ _ _) as [[a' i]| |]; [|done..]. by apply IH.
Qed.

Lemma runs_result fuel a idx r r' : runs idx a r -> field_loop field fuel data a idx = Some r' -> r' = r.
Proof.
  intros [f H] H'. apply (field_loop_mono _ _ _ _ fuel) in H. apply (field_loop_mono _ _ _ _ f) in H'.
  rewrite Nat.add_comm in H'. congruence.
Qed.

Lemma runs_end idx a : len data <= idx -> runs idx a (Ok a).
Proof. intros H. exists 1%nat. cbn. destruct (Z.leb_spec (len data) idx); [done|lia]. Qed.

(** One field, from its tag on. *)
Lemma reads_one idx tag n a a' i : idx < len data -> protoDecodeSetCodeVarint (drop (Z.to_nat idx) data) = Ok (tag, n) ->
  field (Z.shiftr tag 3) (Z.land tag 0x7) (idx + n) a = Ok (a', i) -> reads idx a i a'.
Proof.
  intros Hi Hd Hf r [fuel H]. exists (S fuel). cbn [field_loop]. destruct (Z.leb_spec (len data) idx); [lia|].
  by rewrite Hd, Hf.
Qed.

Lemma runs_fails idx tag n a e : idx < len data -> protoDecodeSetCodeVarint (drop (Z.to_nat idx) data) = Ok (tag, n) ->
  field (Z.shiftr tag 3) (Z.land tag 0x7) (idx + n) a = Err e -> runs idx a (Err e).
Proof.
  intros Hi Hd Hf. exists 1%nat. cbn [field_loop]. destruct (Z.leb_spec (len data) idx); [lia|]. by rewrite Hd, Hf.
Qed.

Lemma parses_nil a : parses [] a a.
Proof. intros pre post _ r. by rewrite app_nil_r. Qed.

Lemma parses_app w1 w2 a b c : parses w1 a b -> parses w2 b c -> parses (w1 ++ w2) a c.
Proof.
  intros H1 H2 pre post Hd r Hr. rewrite app_assoc in Hr. rewrite <- app_assoc in Hd.
  apply (H1 pre (w2 ++ post) Hd). apply (H2 (pre ++ w1) post); [by rewrite Hd, <- app_assoc|done].
Qed.

Lemma parses_all w a a' : parses w a a' -> data = w -> runs 0 a (Ok a').
Proof.
  intros H Hd. apply (H [] []); [by rewrite app_nil_r|]. apply runs_end. rewrite Hd. cbn [app]. lia.
Qed.

End Decoder.

Lemma at_tag (pre : bytes) tag rest : 0 <= tag < 128 ->
  len pre < len (pre ++ tag :: rest) /\
  protoDecodeSetCodeVarint (drop (Z.to_nat (len pre)) (pre ++ tag :: rest)) = Ok (tag, 1) /\
  len pre + 1 = len (pre ++ [tag]).
Proof.
  intros Ht. rewrite drop_len, decode_small by done. change (tag :: rest) with ([tag] ++ rest). rewrite !len_app.
  change (len [tag]) with 1. pose proof (len_nonneg rest). split_and!; [lia|done|done].
Qed.

Lemma varint_small v : 0 <= v < 128 -> varint_written varint_fuel v = [v].
Proof. intros H. unfold varint_fuel. cbn [varint_written]. destruct (Z.leb_spec 0x80 v); [lia|]. by rewrite Z.mod_small by lia. Qed.

Lemma wire_short tag payload : payload <> [] -> len payload < 128 -> wire_field tag payload = tag :: len payload :: payload.
Proof.
  intros Hne Hl. assert (0 < len payload) as Hpos by (destruct payload; [done|unfold len; cbn; lia]). unfold wire_field.
  rewrite (proj2 (Z.ltb_lt _ _) Hpos), varint_small by lia. done.
Qed.

Lemma read_delim_spec pre payload post : len payload < 128 -> len (pre ++ len payload :: payload ++ post) < 2 ^ 62 ->
  setcodeReadLengthDelim (pre ++ len payload :: payload ++ post) (len pre) 2 = Ok (payload, len (pre ++ [len payload] ++ payload)).
Proof.
  intros Hl Hd. pose proof (len_nonneg payload). pose proof (len_nonneg pre). pose proof (len_nonneg post).
  unfold setcodeReadLengthDelim. cbn [Z.eqb negb Pos.eqb]. rewrite drop_len, decode_small by lia. cbn [mbind result_bind].
  change (len payload :: payload ++ post) with ([len payload] ++ payload ++ post) in *. rewrite !len_app in *. change (len [_]) with 1 in *.
  rewrite wrapU_small by lia. destruct (Z.ltb_spec (len pre + (1 + (len payload + len post))) (len pre + 1 + len payload)); [lia|].
  rewrite (wrapS_small 64 (len payload)), wrapS_small by lia. unfold slice. rewrite !len_app. change (len [_]) with 1.
  destruct (Z.leb_spec 0 (len pre + 1)), (Z.leb_spec (len pre + 1) (len pre + 1 + len payload)),
    (Z.leb_spec (len pre + 1 + len payload) (len pre + (1 + (len payload + len post)))); try lia. cbn [andb].
  replace (len pre + 1 + len payload - (len pre + 1)) with (len payload) by lia.
  replace (len pre + 1) with (len (pre ++ [len payload])) by (rewrite len_app; done).
  rewrite app_assoc, drop_len, take_len, len_app. change (len [_]) with 1. do 2 f_equal. lia.
Qed.

Section Fields.
Context `{WLL : WireLaws} {A : Type} (field : Z -> Z -> Z -> A -> result derror (A * Z)) (data : bytes).
Hypothesis Hsize : len data < 2 ^ 62.

Lemma reads_delim pre tag payload post a a' :
  data = pre ++ tag :: len payload :: payload ++ post -> 0 <= tag < 128 -> Z.land tag 7 = 2 -> len payload < 128 ->
  (forall i j, setcodeReadLengthDelim data i 2 = Ok (payload, j) -> field (Z.shiftr tag 3) 2 i a = Ok (a', j)) ->
  reads field data (len pre) a (len (pre ++ tag :: len payload :: payload)) a'.
Proof.
  intros Hd Ht H2 Hl Hf. pose proof Hsize as Hs. rewrite Hd in Hs.
  destruct (at_tag pre tag (len payload :: payload ++ post) Ht) as (Hlt & Htag & Hidx). rewrite <- Hd in Hlt, Htag.
  eapply reads_one; [done|done|]. rewrite H2, Hidx. apply Hf.
  pose proof (read_delim_spec (pre ++ [tag]) payload post Hl) as R. rewrite <- !app_assoc in R. rewrite Hd. exact (R Hs).
Qed.

Lemma parses_delim tag payload a a' : 0 <= tag < 128 -> Z.land tag 7 = 2 -> len payload < 128 ->
  (payload = [] -> a' = a) ->
  (forall i j, setcodeReadLengthDelim data i 2 = Ok (payload, j) -> field (Z.shiftr tag 3) 2 i a = Ok (a', j)) ->
  parses field data (wire_field tag payload) a a'.
Proof.
  intros Ht H2 Hl He Hf. destruct (decide (payload = [])) as [E|E].
  - rewrite (He E). subst payload. apply parses_nil.
  - rewrite wire_short by done. intros pre post Hd. by apply (reads_delim pre tag payload post).
Qed.

Lemma parses_int tag v a a' : 0 <= tag < 128 -> Z.land tag 7 = 2 -> int_ok v -> (v = None -> a' = a) ->
  (forall i j, setcodeReadIntField data i 2 = Ok (v, j) -> field (Z.shiftr tag 3) 2 i a = Ok (a', j)) ->
  parses field data (int_wire tag v) a a'.
Proof.
  intros Ht H2 Hv He Hf. destruct v as [x|]; [|rewrite (He eq_refl); apply parses_nil].
  pose proof (int_text_length x Hv) as Hl. cbn [int_wire]. apply parses_delim; [done|done|lia| |].
  - intros E. rewrite E in Hl. unfold len in Hl. cbn in Hl. lia.
  - intros i j E. apply Hf. unfold setcodeReadIntField. rewrite E. cbn [mbind result_bind]. rewrite bool_decide_eq_false_2.
    + by rewrite (int_text x Hv).
    + intros E'. rewrite E' in Hl. unfold len in Hl. cbn in Hl. lia.
Qed.

Lemma reads_uint pre tag v rest a a' : data = pre ++ tag :: v :: rest -> 0 <= tag < 128 -> Z.land tag 7 = 0 -> 0 <= v < 128 ->
  (forall i j, read_uint data i 0 = Ok (v, j) -> field (Z.shiftr tag 3) 0 i a = Ok (a', j)) ->
  reads field data (len pre) a (len (pre ++ [tag; v])) a'.
Proof.
  intros Hd Ht H0 Hv Hf. destruct (at_tag pre tag (v :: rest) Ht) as (Hlt & Htag & Hidx). rewrite <- Hd in Hlt, Htag.
  eapply reads_one; [done|done|]. rewrite H0, Hidx. apply Hf. destruct (at_tag (pre ++ [tag]) v rest Hv) as (_ & Hv' & Hi).
  rewrite <- app_assoc in Hv'. cbn [app] in Hv'. rewrite <- Hd in Hv'. unfold read_uint. cbn [Z.eqb negb]. rewrite Hv'.
  cbn [mbind result_bind]. by rewrite Hi, <- app_assoc.
Qed.

Lemma parses_uint tag v a a' : 0 <= tag < 128 -> Z.land tag 7 = 0 -> 0 <= v < 128 -> (v = 0 -> a' = a) ->
  (forall i j, read_uint data i 0 = Ok (v, j) -> field (Z.shiftr tag 3) 0 i a = Ok (a', j)) ->
  parses field data (uint_wire tag v) a a'.
Proof.
  intros Ht H0 Hv He Hf. unfold uint_wire. destruct (Z.eqb_spec v 0) as [E|E]; [rewrite (He E); apply parses_nil|].
  rewrite varint_small by done. intros pre post Hd. by apply (reads_uint pre tag v post).
Qed.

End Fields.

Section Messages.
Context `{WLL : WireLaws}.

Ltac field_number := match goal with
  | |- context [Z.shiftr ?t 3] => let k := eval vm_compute in (Z.shiftr t 3) in change (Z.shiftr t 3) with k
  end.
Ltac field_case := try done; try lia; try field_number; cbn -[len Z.pow str_bytes bytes_str] in *;
  match goal with
  | |- forall i j, _ -> _ => let E := fresh in intros ? ? E; rewrite E; cbn [mbind result_bind]; rewrite ?bytes_str_bytes; try done
  | |- _ -> _ => let E := fresh in intros E; rewrite ?E; try done
  end.

Lemma auth_parses a : auth_short a -> parses (auth_field (auth_wire a)) (auth_wire a) (auth_wire a) empty_auth a.
Proof.
  intros Ha. destruct (auth_parts a Ha) as (H1 & H2 & H3 & H4). destruct Ha as [Hc Hn Hs].
  assert (len (auth_wire a) < 2 ^ 62) as Hsize by lia. destruct a as [c ad n v r s]. cbn [au_ChainID au_Address au_Nonce au_V au_R au_S] in *.
  set (w := auth_wire _) in *. unfold auth_wire in w. cbn [au_ChainID au_Address au_Nonce au_V au_R au_S] in w. unfold w at 3.
  eapply (parses_app _ _ _ _ _ (mkAuth c "" 0 [] [] [])); [apply parses_int; field_case|].
  eapply (parses_app _ _ _ _ _ (mkAuth c ad 0 [] [] [])); [apply parses_delim; field_case|].
  { rewrite <- (bytes_str_bytes ad), H. done. }
  eapply (parses_app _ _ _ _ _ (mkAuth c ad n [] [] [])); [apply parses_uint; field_case|].
  eapply (parses_app _ _ _ _ _ (mkAuth c ad n v [] [])); [apply parses_delim; field_case|].
  eapply (parses_app _ _ _ _ _ (mkAuth c ad n v r [])); [apply parses_delim; field_case|].
  apply parses_delim; field_case.
Qed.

Lemma Auth_Unmarshal_wire a : auth_short a -> Auth_Unmarshal (auth_wire a) = Some (Ok a).
Proof.
  intros Ha. destruct (Auth_Unmarshal_returns (auth_wire a)) as [r Hr]. rewrite Hr. f_equal.
  eapply runs_result; [|exact Hr]. eapply parses_all; [by apply auth_parses|done].
Qed.

(** The lists; a list that is not empty replaces the missing list of tuples. *)
Definition appended {B} (acc : option (list B)) (l : list B) : option (list B) :=
  match l with [] => acc | _ => Some (default [] acc ++ l) end.

Lemma tuples_parse data l : len data < 2 ^ 62 -> Forall (fun t => 0 < len (tuple_Marshal t) < 128) l ->
  forall c n t f g to am d ac v r s au,
  parses (tx_field data) data (list_wire (fun t => wire_field 0x4a (tuple_Marshal t)) l)
    (mkSetCode c n t f g to am d ac v r s au) (mkSetCode c n t f g to am d (appended ac l) v r s au).
Proof.
  intros Hs. induction 1 as [|x l Hx _ IH]; intros c n t f g to am d ac v r s au; [apply parses_nil|].
  eapply (parses_app _ _ _ _ _ (mkSetCode c n t f g to am d (Some (default [] ac ++ [x])) v r s au)).
  - apply parses_delim; try done; try lia.
    + intros E. rewrite E in Hx. unfold len in Hx. cbn in Hx. lia.
    + intros i j E. field_number. cbn. rewrite E. cbn [mbind result_bind]. by rewrite tuple_text.
  - assert (appended (Some (default [] ac ++ [x])) l = appended ac (x :: l)) as <-; [|apply IH].
    destruct l; [done|]. cbn. by rewrite <- app_assoc.
Qed.

Lemma auths_parse data l : len data < 2 ^ 62 -> Forall auth_short l ->
  forall c n t f g to am d ac v r s au,
  parses (tx_field data) data (list_wire (fun a => wire_field 0x72 (auth_wire a)) l)
    (mkSetCode c n t f g to am d ac v r s au) (mkSetCode c n t f g to am d ac v r s (au ++ l)).
Proof.
  intros Hs. induction 1 as [|x l Hx _ IH]; intros c n t f g to am d ac v r s au; [rewrite app_nil_r; apply parses_nil|].
  pose proof (as_size x Hx) as Hl. eapply (parses_app _ _ _ _ _ (mkSetCode c n t f g to am d ac v r s (au ++ [x]))).
  - apply parses_delim; try done; try lia.
    + intros E. rewrite E in Hl. unfold len in Hl. cbn in Hl. lia.
    + intros i j E. field_number. cbn -[Auth_Unmarshal]. rewrite E. cbn [mbind result_bind]. by rewrite Auth_Unmarshal_wire.
  - change (x :: l) with ([x] ++ l). rewrite app_assoc. apply IH.
Qed.

(** The fields before the gas limit, and after the recipient. *)
Definition head_wire (tx : SetCodeTx) : bytes :=
  int_wire 0x0a (sc_ChainID tx) ++ uint_wire 0x10 (sc_Nonce tx) ++ int_wire 0x1a (sc_GasTipCap tx)
  ++ int_wire 0x22 (sc_GasFeeCap tx).

Definition tail_wire (tx : SetCodeTx) : bytes :=
  int_wire 0x3a (sc_Amount tx) ++ wire_field 0x42 (sc_Data tx)
  ++ list_wire (fun t => wire_field 0x4a (tuple_Marshal t)) (default [] (sc_Accesses tx))
  ++ wire_field 0x5a (sc_V tx) ++ wire_field 0x62 (sc_R tx) ++ wire_field 0x6a (sc_S tx)
  ++ list_wire (fun a => wire_field 0x72 (auth_wire a)) (sc_AuthList tx).

Lemma tx_wire_parts tx :
  tx_wire tx = head_wire tx ++ uint_wire 0x28 (sc_GasLimit tx) ++ wire_field 0x32 (str_bytes (sc_To tx)) ++ tail_wire tx.
Proof. unfold tx_wire, head_wire, tail_wire. by rewrite <- !app_assoc. Qed.

(** The head and the tail of [tx], with another gas limit and recipient. *)
Definition headed (tx : SetCodeTx) (g : Z) (to : string) : SetCodeTx :=
  mkSetCode (sc_ChainID tx) (sc_Nonce tx) (sc_GasTipCap tx) (sc_GasFeeCap tx) g to None [] None [] [] [] [].

Definition with_gas_to (tx : SetCodeTx) (g : Z) (to : string) : SetCodeTx :=
  mkSetCode (sc_ChainID tx) (sc_Nonce tx) (sc_GasTipCap tx) (sc_GasFeeCap tx) g to (sc_Amount tx) (sc_Data tx)
    (sc_Accesses tx) (sc_V tx) (sc_R tx) (sc_S tx) (sc_AuthList tx).

Lemma head_parses data tx : len data < 2 ^ 62 -> tx_short tx ->
  parses (tx_field data) data (head_wire tx) empty_tx (headed tx 0 "").
Proof.
  intros Hsz [(Hc & Hp & Hf & _) Hn _ _ _ _ _]. destruct tx as [c n t f g to am d ac v r s au]. unfold head_wire, headed, empty_tx.
  cbn [sc_ChainID sc_Nonce sc_GasTipCap sc_GasFeeCap] in *.
  eapply (parses_app _ _ _ _ _ (mkSetCode c 0 None None 0 "" None [] None [] [] [] [])); [apply parses_int; field_case|].
  eapply (parses_app _ _ _ _ _ (mkSetCode c n None None 0 "" None [] None [] [] [] [])); [apply parses_uint; field_case|].
  eapply (parses_app _ _ _ _ _ (mkSetCode c n t None 0 "" None [] None [] [] [] [])); [apply parses_int; field_case|].
  apply parses_int; field_case.
Qed.

Lemma tail_parses data tx g to : len data < 2 ^ 62 -> tx_short tx ->
  parses (tx_field data) data (tail_wire tx) (headed tx g to) (with_gas_to tx g to).
Proof.
  intros Hsz [(_ & _ & _ & Ha) _ _ _ (Hd & Hv & Hr & Hs) [Hne Htup] Hau]. destruct tx as [c n t f g0 to0 am d ac v r s au].
  unfold tail_wire, headed, with_gas_to. cbn [sc_ChainID sc_Nonce sc_GasTipCap sc_GasFeeCap sc_GasLimit sc_To sc_Amount sc_Data sc_Accesses sc_V sc_R sc_S sc_AuthList] in *.
  eapply (parses_app _ _ _ _ _ (mkSetCode c n t f g to am [] None [] [] [] [])); [apply parses_int; field_case|].
  eapply (parses_app _ _ _ _ _ (mkSetCode c n t f g to am d None [] [] [] [])); [apply parses_delim; field_case|].
  eapply (parses_app _ _ _ _ _ (mkSetCode c n t f g to am d ac [] [] [] [])).
  { pose proof (tuples_parse data _ Hsz Htup c n t f g to am d None [] [] [] []) as P.
    replace (appended None (default [] ac)) with ac in P by (destruct ac as [[|x l]|]; done). exact P. }
  eapply (parses_app _ _ _ _ _ (mkSetCode c n t f g to am d ac v [] [] [])); [apply parses_delim; field_case|].
  eapply (parses_app _ _ _ _ _ (mkSetCode c n t f g to am d ac v r [] [])); [apply parses_delim; field_case|].
  eapply (parses_app _ _ _ _ _ (mkSetCode c n t f g to am d ac v r s [])); [apply parses_delim; field_case|].
  by apply (auths_parse data au Hsz Hau c n t f g to am d ac v r s []).
Qed.

End Messages.

(** * The groups of a number that needs more than one *)

Lemma lor_lower a b : 0 <= a -> 0 <= b -> b <= Z.lor a b.
Proof.
  intros Ha Hb. apply Z.ldiff_le; [apply Z.lor_nonneg; lia|]. apply Z.bits_inj. intros i. rewrite Z.ldiff_spec, Z.lor_spec, Z.bits_0.
  by destruct (Z.testbit a i), (Z.testbit b i).
Qed.

(** A tag that continues groups is above every field number of the messages. *)
Lemma decode_continued gs b rest : forall shift v n, Forall (fun g => 128 <= g < 256) gs -> 0 <= v -> 0 <= shift ->
  shift + 7 * len gs <= 56 -> 0 <= b < 128 ->
  exists t, decode_varint (gs ++ b :: rest) shift v n = Ok (t, n + len gs + 1) /\ Z.shiftl b (shift + 7 * len gs) <= t.
Proof.
  induction gs as [|g gs IH]; intros shift v n Hg Hv Hs Hl Hb.
  - cbn [app decode_varint]. change (len []) with 0 in *. rewrite Z.mul_0_r, !Z.add_0_r in *.
    change 0x7F with (Z.ones 7). rewrite Z.land_ones, Z.mod_small by lia. destruct (Z.ltb_spec b 0x80); [|lia].
    eexists. split; [done|]. assert (0 <= Z.shiftl b shift < 2 ^ 64) as Hsh.
    { rewrite Z.shiftl_mul_pow2 by lia. pose proof (Z.pow_le_mono_r 2 shift 56 ltac:(lia) ltac:(lia)). nia. }
    rewrite wrapU_small by done. apply lor_lower; lia.
  - inversion_clear Hg as [|? ? Hg0 Hg']. change (g :: gs) with ([g] ++ gs) in Hl |- *. rewrite len_app in *. change (len [g]) with 1 in *.
    cbn [app decode_varint]. pose proof (len_nonneg gs). destruct (Z.ltb_spec g 0x80); [lia|]. destruct (Z.leb_spec 63 shift); [lia|].
    destruct (IH (shift + 7) (Z.lor v (u64 (Z.shiftl (Z.land g 127) shift))) (n + 1)) as (t & E & Ht); [done| |lia|lia|done|].
    + apply Z.lor_nonneg. split; [done|]. apply wrapU_range. lia.
    + exists t. rewrite E. split; [do 2 f_equal; lia|]. replace (shift + 7 * (1 + len gs)) with (shift + 7 + 7 * len gs) by lia. done.
Qed.

Lemma varint_written_S f v : varint_written (S f) v =
  if 0x80 <=? v then varint_written f (Z.shiftr v 7) ++ [Z.lor (Z.land v 0x7f) 0x80] else [v mod 256].
Proof. done. Qed.

Lemma varint_written_extra f : forall v, (0 < f)%nat -> 0 <= v < 128 ^ Z.of_nat f -> varint_written (S f) v = varint_written f v.
Proof.
  induction f as [|f IH]; intros v Hf Hv; [lia|]. rewrite (varint_written_S (S f)), (varint_written_S f v).
  destruct (Z.leb_spec 0x80 v); [|done]. f_equal. destruct f as [|f]; [cbn in Hv; lia|].
  apply shiftr7_bound in Hv. apply IH; [lia|done].
Qed.

Lemma varint_written_length f : forall v, (length (varint_written f v) <= f)%nat.
Proof.
  induction f as [|f IH]; intros v; [done|]. cbn [varint_written]. destruct (_ <=? _); [|cbn; lia]. rewrite length_app. cbn. specialize (IH (Z.shiftr v 7)). lia.
Qed.

(** What follows the first group of a number from 128 up to [2^63]. *)
Lemma groups_of v : 128 <= v < 2 ^ 63 ->
  exists h gs, varint_written varint_fuel v = h :: gs /\ 0 <= h < 128 /\ Forall (fun g => 128 <= g < 256) gs /\ gs <> [] /\ len gs <= 8.
Proof.
  intros Hv. destruct (varint_written_head varint_fuel v) as (h & gs & E & Hh & Hg & _ & Hb).
  - unfold varint_fuel. lia.
  - change (128 ^ Z.of_nat varint_fuel) with (2 ^ 70). lia.
  - exists h, gs. split; [done|]. split; [done|]. split; [done|]. split; [apply Hb; lia|].
    assert (varint_written varint_fuel v = varint_written 9 v) as E'.
    { apply varint_written_extra; [lia|]. change (128 ^ Z.of_nat 9) with (2 ^ 63). lia. }
    pose proof (varint_written_length 9 v) as Hl. rewrite <- E', E in Hl. cbn in Hl. unfold len. lia.
Qed.

Section Roundtrip.
Context `{WLL : WireLaws}.

Lemma with_own_gas_to tx : with_gas_to tx (sc_GasLimit tx) (sc_To tx) = tx.
Proof. by destruct tx. Qed.

(** A gas limit below 128 is read back, and the rest with it. *)
Lemma tx_parses tx : tx_short tx -> len (tx_wire tx) < 2 ^ 62 -> sc_GasLimit tx < 128 ->
  parses (tx_field (tx_wire tx)) (tx_wire tx) (tx_wire tx) empty_tx tx.
Proof.
  intros Ht Hsz Hg. pose proof (to_length tx Ht) as Hto. pose proof (ts_gas tx Ht) as Hg0.
  rewrite (tx_wire_parts tx) at 3. eapply parses_app; [by apply head_parses|].
  eapply (parses_app _ _ _ _ _ (headed tx (sc_GasLimit tx) "")).
  { apply parses_uint; try done; try lia; [by intros ->|]. intros i j E. by change (tx_field (tx_wire tx) 5 0 i (headed tx 0 "") = Ok (headed tx (sc_GasLimit tx) "", j)); cbn; rewrite E. }
  eapply (parses_app _ _ _ _ _ (headed tx (sc_GasLimit tx) (sc_To tx))).
  { apply parses_delim; try done; try lia.
    - intros E. by rewrite <- (bytes_str_bytes (sc_To tx)), E.
    - intros i j E. change (tx_field (tx_wire tx) 6 2 i (headed tx (sc_GasLimit tx) "") = Ok (headed tx (sc_GasLimit tx) (sc_To tx), j)).
      cbn. rewrite E. cbn [mbind result_bind]. by rewrite bytes_str_bytes. }
  pose proof (tail_parses (tx_wire tx) tx (sc_GasLimit tx) (sc_To tx) Hsz Ht) as P. by rewrite with_own_gas_to in P.
Qed.

Lemma Unmarshal_runs data r : runs (tx_field data) data 0 empty_tx r -> Unmarshal data = Some r.
Proof.
  intros Hr. destruct (setcode_unmarshal_returns data) as [r' E]. rewrite E. f_equal. by eapply runs_result.
Qed.

(** An unknown field is skipped by its wire type alone. *)
Lemma tx_field_unknown data f w i tx : 14 < f -> tx_field data f w i tx = (j ← setcodeSkipField data i w; Ok (tx, j)).
Proof.
  intros Hf. destruct tx. unfold tx_field.
  repeat match goal with |- context [f =? ?k] => destruct (Z.eqb_spec f k); [lia|] end. done.
Qed.

(** Skipped as a number, the length of the recipient leaves its text to be read as
    fields: the digit [0] is the tag of the recipient with the wire type of a number. *)
Lemma skipped_to_text data pre to rest post a : data = pre ++ len to :: to ++ post -> to = 0x30 :: rest -> len to < 128 ->
  exists e, runs (tx_field data) data (len (pre ++ [len to])) a (Err e) /\
    setcodeSkipField data (len pre) 0 = Ok (len (pre ++ [len to])).
Proof.
  intros Hd Hto Hl. pose proof (len_nonneg to). destruct (at_tag pre (len to) (to ++ post) ltac:(lia)) as (_ & Hn & Hi).
  rewrite <- Hd in Hn. exists (ErrWireType 0). split.
  - destruct (at_tag (pre ++ [len to]) 0x30 (rest ++ post) ltac:(lia)) as (Hlt & Htag & _).
    assert (data = (pre ++ [len to]) ++ 0x30 :: rest ++ post) as Hd' 
      by (change (0x30 :: rest ++ post) with ((0x30 :: rest) ++ post); rewrite <- Hto, Hd, <- app_assoc; done).
    rewrite <- Hd' in Hlt, Htag. eapply runs_fails; [exact Hlt|exact Htag|].
    change (tx_field data 6 0 (len (pre ++ [len to]) + 1) a = Err (ErrWireType 0)). by destruct a.
  - unfold setcodeSkipField. cbn [Z.eqb]. rewrite Hn. cbn [mbind result_bind]. by rewrite Hi.
Qed.

(** From the groups of the gas limit that are left over: the tag they are taken
    for swallows the tag of the recipient. *)
Lemma gas_groups_misread tx pre gs rest a : tx_short tx -> len (tx_wire tx) < 2 ^ 62 ->
  str_bytes (sc_To tx) = 0x30 :: rest -> Forall (fun g => 128 <= g < 256) gs -> gs <> [] -> len gs <= 8 ->
  tx_wire tx = pre ++ gs ++ wire_field 0x32 (str_bytes (sc_To tx)) ++ tail_wire tx ->
  (exists e, runs (tx_field (tx_wire tx)) (tx_wire tx) (len pre) a (Err e)) \/
  reads (tx_field (tx_wire tx)) (tx_wire tx) (len pre) a (len (pre ++ gs ++ wire_field 0x32 (str_bytes (sc_To tx)))) a.
Proof.
  intros Ht Hsz Hto Hgs Hne Hlen Hw. pose proof (to_length tx Ht) as Hl. set (to := str_bytes (sc_To tx)) in *. set (data := tx_wire tx) in *.
  assert (0 < len gs) as Hpos by (destruct gs; [done|unfold len; cbn; lia]).
  rewrite wire_short in Hw |- * by (done || by rewrite Hto). set (post := tail_wire tx) in *.
  destruct (decode_continued gs 0x32 (len to :: to ++ post) 0 0 0 Hgs ltac:(lia) ltac:(lia) ltac:(lia) ltac:(lia)) as (t & Ed & Hbig).
  assert (6400 <= t) as Ht'.
  { rewrite Z.shiftl_mul_pow2 in Hbig by lia. pose proof (Z.pow_le_mono_r 2 7 (0 + 7 * len gs) ltac:(lia) ltac:(lia)). lia. }
  assert (len pre < len data) as Hlt.
  { rewrite Hw, len_app, len_app. pose proof (len_nonneg ((0x32 :: len to :: to) ++ post)). lia. }
  assert (protoDecodeSetCodeVarint (drop (Z.to_nat (len pre)) data) = Ok (t, len gs + 1)) as Hd.
  { rewrite Hw, drop_len. exact Ed. }
  assert (14 < Z.shiftr t 3) as Hf by (rewrite Z.shiftr_div_pow2 by lia; pose proof (Z.div_le_lower_bound t (2 ^ 3) 800 ltac:(lia) ltac:(lia)); lia).
  assert (len pre + (len gs + 1) = len (pre ++ gs ++ [0x32])) as Hi by (rewrite !len_app; change (len [_]) with 1; lia).
  assert (data = (pre ++ gs ++ [0x32]) ++ len to :: to ++ post) as Hw' by (rewrite Hw, <- !app_assoc; done).
  destruct (decide (Z.land t 0x7 = 2)) as [E2|N2].
  { right. eapply reads_one; [exact Hlt|exact Hd|]. rewrite E2, tx_field_unknown, Hi by done. unfold setcodeSkipField. cbn [Z.eqb Pos.eqb].
    rewrite Hw', read_delim_spec by (done || by rewrite <- Hw'). cbn [mbind result_bind]. by rewrite <- !app_assoc. }
  left. destruct (decide (Z.land t 0x7 = 0)) as [E0|N0].
  - pose proof (skipped_to_text data (pre ++ gs ++ [0x32]) to rest post a Hw' Hto Hl) as (e & He & Hskip). exists e.
    eapply reads_one; [exact Hlt|exact Hd| |exact He]. by rewrite E0, tx_field_unknown, Hi, Hskip by done.
  - eexists. eapply runs_fails; [exact Hlt|exact Hd|]. rewrite tx_field_unknown by done. unfold setcodeSkipField.
    destruct (Z.eqb_spec (Z.land t 7) 0), (Z.eqb_spec (Z.land t 7) 2); [lia..|done].
Qed.

(** No gas limit from 128 on is read back. *)
Lemma large_gas_lost tx : tx_short tx -> len (tx_wire tx) < 2 ^ 62 -> 128 <= sc_GasLimit tx ->
  Unmarshal (tx_wire tx) <> Some (Ok tx).
Proof.
  intros Ht Hsz Hg. destruct (groups_of (sc_GasLimit tx)) as (h & gs & E & Hh & Hgs & Hne & Hlen); [pose proof (ts_gas tx Ht); lia|].
  destruct (ts_to tx Ht) as (rest & Hto & _). pose proof (tx_wire_parts tx) as Hw. set (data := tx_wire tx) in *.
  unfold uint_wire in Hw. destruct (Z.eqb_spec (sc_GasLimit tx) 0); [lia|]. rewrite E in Hw.
  assert (reads (tx_field data) data 0 empty_tx (len (head_wire tx ++ [0x28; h])) (headed tx h "")) as R.
  { intros r Hr. apply (head_parses data tx Hsz Ht [] _ Hw). cbn [app].
    eapply (reads_uint _ data (head_wire tx) 0x28 h); [exact Hw|lia|done|done| |exact Hr]. intros i j Ei.
    change (tx_field data 5 0 i (headed tx 0 "") = Ok (headed tx h "", j)). cbn. by rewrite Ei. }
  assert (data = (head_wire tx ++ [0x28; h]) ++ gs ++ wire_field 0x32 (str_bytes (sc_To tx)) ++ tail_wire tx) as Hw'
    by (rewrite Hw, <- !app_assoc; done).
  destruct (gas_groups_misread tx (head_wire tx ++ [0x28; h]) gs rest (headed tx h "") Ht Hsz Hto Hgs Hne Hlen Hw') as [[e He]|Hskip].
  - intros Hok. apply R in He. apply Unmarshal_runs in He. fold data in He. congruence.
  - assert (runs (tx_field data) data 0 empty_tx (Ok (with_gas_to tx h ""))) as Hr.
    { apply R, Hskip. set (mid := (head_wire tx ++ [0x28; h]) ++ gs ++ wire_field 0x32 (str_bytes (sc_To tx))).
      assert (data = mid ++ tail_wire tx ++ []) as Hm by (subst mid; rewrite app_nil_r, <- !app_assoc; rewrite <- !app_assoc in Hw'; exact Hw').
      apply (tail_parses data tx h "" Hsz Ht mid [] Hm). apply runs_end. rewrite Hm at 1. rewrite app_nil_r. lia. }
    intros Hok. apply Unmarshal_runs in Hr. fold data in Hr. rewrite Hr in Hok. injection Hok as Hok. apply (f_equal sc_GasLimit) in Hok.
    cbn in Hok. lia.
Qed.

End Roundtrip.

(** * The codec *)

Section Codec.
Context `{WLL : WireLaws}.

(** C20: Which EIP-7702 transactions survive their own encoding.  For a transaction to
    an address whose other numbers and lengths are below 128, [Marshal] succeeds and
    writes [Size] bytes, and [Unmarshal] returns the transaction if and only if its
    gas limit is below 128: the encoder writes the groups of a larger number in the
    wrong order, and every real gas limit is at least 21000. *)
Theorem setcode_roundtrip_iff tx : tx_short tx -> Size tx < 2 ^ 62 ->
  exists data, Marshal tx = Some data /\ len data = Size tx /\ (Unmarshal data = Some (Ok tx) <-> sc_GasLimit tx < 128).
Proof.
  intros Ht Hs. rewrite Size_wire in Hs |- * by done. exists (tx_wire tx). split; [by apply Marshal_wire|]. split; [done|]. split.
  - intros H. destruct (Z.lt_ge_cases (sc_GasLimit tx) 128) as [|Hg]; [done|]. by apply large_gas_lost in H.
  - intros Hg. apply Unmarshal_runs. eapply parses_all; [by apply tx_parses|done].
Qed.

(** The decoder of EIP-7702 transactions is total but not safe: on every input it
    returns within one round per byte, and on eleven crafted bytes what it returns is
    a panic, the check of a declared length wrapping around. *)
Theorem setcode_decoder_returns :
  (forall data, exists r, Unmarshal data = Some r) /\
  Unmarshal ([0x42] ++ replicate 9 0xff ++ [0x01]) = Some Panic.
Proof. split; [apply setcode_unmarshal_returns|vm_compute; reflexivity]. Qed.

End Codec.
