(* ===== verification/EvmTxCases.v ===== *)
(** Concrete libraries for the transactions of [x/evm/types], and the witnesses of
    the theorems on conversions and the codec. *)

From stdpp Require Import base list gmap strings.
From Stdlib Require Import ZArith Lia Ascii.
From S2P Require Import Prelude KVStore PaxOracle ProtoWire EvmTx SetCodeCodec SetCodeCodecProps.
Open Scope Z_scope.

(** * Hexadecimal *)

Definition digit (d : Z) : ascii := ascii_of_nat (Z.to_nat (if d <? 10 then d + 48 else d + 87)).
Definition digit_value (c : ascii) : Z := let n := Z.of_nat (nat_of_ascii c) in if n <? 58 then n - 48 else n - 87.

Fixpoint hex (b : bytes) : string :=
  match b with [] => EmptyString | x :: b => String (digit (x / 16)) (String (digit (x mod 16)) (hex b)) end.

Fixpoint unhex (s : string) : bytes :=
  match s with String c (String d s) => digit_value c * 16 + digit_value d :: unhex s | _ => [] end.

Lemma digit_roundtrip d : 0 <= d < 16 -> digit_value (digit d) = d.
Proof.
  intros H. assert (forallb (fun n => digit_value (digit (Z.of_nat n)) =? Z.of_nat n) (seq 0 16) = true) as Hall by (vm_compute; reflexivity).
  rewrite forallb_forall in Hall. specialize (Hall (Z.to_nat d)). rewrite Z2Nat.id in Hall by lia. apply Z.eqb_eq, Hall, in_seq. lia.
Qed.

Lemma unhex_hex b : Forall (fun x => 0 <= x < 256) b -> unhex (hex b) = b.
Proof.
  induction 1 as [|x b Hx _ IH]; [done|]. cbn [hex unhex]. pose proof (Z.div_mod x 16 ltac:(lia)).
  rewrite !digit_roundtrip, IH; [f_equal; lia|apply Z.mod_pos_bound; lia|].
  split; [apply Z.div_pos; lia|apply Z.div_lt_upper_bound; lia].
Qed.

Lemma length_hex b : String.length (hex b) = (2 * length b)%nat.
Proof. induction b as [|x b IH]; [done|]. cbn [hex String.length length]. rewrite IH. lia. Qed.

Definition unprefixed (s : string) : string := match s with String _ (String _ s) => s | _ => s end.

#[export] Instance hex_lib : HexLib := {|
  HexToAddress s := unhex (unprefixed s); AddressHex a := ("0x" +:+ hex a);
  IsHexAddress s := (String.length s =? 42)%nat;
  HexToHash s := unhex (unprefixed s); HashHex h := ("0x" +:+ hex h) |}.

#[export] Instance hex_laws : HexLaws.
Proof.
  split; cbn -[Nat.eqb String.length].
  - intros a [_ H]. by apply unhex_hex.
  - intros a [H _]. change (String.length ("0x" +:+ hex a)) with (2 + String.length (hex a))%nat. by rewrite length_hex, H.
  - done.
  - intros a [_ H]. by apply unhex_hex.
Qed.

(** * Transactions as their data *)

Definition data_sig (d : EthData) : option Z * option Z * option Z :=
  match d with
  | EthLegacyTx _ _ _ _ _ _ v r s | EthAccessListTx _ _ _ _ _ _ _ _ v r s
  | EthDynamicFeeTx _ _ _ _ _ _ _ _ _ v r s | EthSetCodeTx _ _ _ _ _ _ _ _ _ _ v r s => (v, r, s)
  end.

#[export] Instance data_tx : EthTransaction EthData := {|
  NewTx := id;
  tx_Type d := vw_type (data_view d); tx_ChainId d := default 0 (vw_chain (data_view d)); tx_Nonce d := vw_nonce (data_view d);
  tx_GasPrice d := vw_price (data_view d); tx_GasTipCap d := vw_tip (data_view d); tx_GasFeeCap d := vw_cap (data_view d);
  tx_Gas d := vw_gas (data_view d); tx_To d := vw_to (data_view d); tx_Value d := vw_value (data_view d);
  tx_Data d := vw_data (data_view d); tx_AccessList d := Some (vw_access (data_view d));
  tx_Auths d := match d with EthSetCodeTx _ _ _ _ _ _ _ _ _ au _ _ _ => au | _ => [] end;
  tx_V d := default 0 (data_sig d).1.1; tx_R d := default 0 (data_sig d).1.2; tx_S d := default 0 (data_sig d).2 |}.

#[export] Instance data_tx_laws : EthTransactionLaws EthData.
Proof.
  assert (forall d : EthData, view d = data_view d) as H by (intros []; done).
  split; [exact H|]. intros d. by exists d.
Qed.

(** A delegation to a contract, with an access list. *)
Definition alice : bytes := replicate 20 0xa1.
Definition delegation : EthData :=
  EthSetCodeTx (Some 229) 7 (Some 2) (Some 100) 60000 (Some alice) (Some 1000000) [1; 2] (Some [(alice, [replicate 32 5])])
    [mkEthAuth (Some 229) (replicate 20 0xc0) 8 (Some 1) (Some 12345) (Some 67890)] (Some 0) (Some (2 ^ 255)) (Some 99).

Definition delegation_data : TxData :=
  TxSetCode (mkSetCode (Some 229) 7 (Some 2) (Some 100) 60000 (AddressHex alice) (Some 1000000) [1; 2]
    (Some [mkTuple (AddressHex alice) [HashHex (replicate 32 5)]]) [] (big_Bytes (2 ^ 255)) [99]
    [mkAuth (Some 229) (AddressHex (replicate 20 0xc0)) 8 [1] (big_Bytes 12345) (big_Bytes 67890)]).

Lemma repeated_array n x : 0 <= x < 256 -> byte_array n (replicate n x).
Proof. intros H. split; [apply length_replicate|]. by apply Forall_replicate. Qed.

(** Wrapped and unwrapped, the delegation is the same. *)
Lemma tx_conversion_roundtrip_witness : view (NewTx (AsEthereumData delegation_data)) = view delegation.
Proof.
  apply (tx_conversion_roundtrip delegation delegation_data); [|vm_compute; reflexivity].
  split; cbn [tx_To tx_AccessList tx_Auths tx_V tx_R tx_S data_tx delegation data_view vw_to vw_access data_sig default fst snd].
  - apply (repeated_array 20). lia.
  - repeat constructor; cbn; try lia.
  - cbn. lia.
  - repeat constructor; cbn; try lia.
Defined.

(** * A codec for the nested values *)

Definition int_text_of (v : Z) : bytes := (if v <? 0 then 45 else 43) :: big_Bytes v.
Definition int_of_text (b : bytes) : option Z :=
  match b with [] => None | s :: b => Some (if s =? 45 then - default 0 (raw_value b) else default 0 (raw_value b)) end.

Definition strings_bytes (l : list string) : bytes := concat (map (fun s => len (str_bytes s) :: str_bytes s) l).

Fixpoint bytes_strings (fuel : nat) (b : bytes) : list string :=
  match fuel, b with
  | S fuel, n :: b => bytes_str (take (Z.to_nat n) b) :: bytes_strings fuel (drop (Z.to_nat n) b)
  | _, _ => []
  end.

Lemma strings_roundtrip l : forall fuel, (length l <= fuel)%nat -> bytes_strings fuel (strings_bytes l) = l.
Proof.
  induction l as [|s l IH]; intros [|fuel] Hf; cbn in Hf; try lia; [done..|].
  change (strings_bytes (s :: l)) with (len (str_bytes s) :: str_bytes s ++ strings_bytes l). cbn [bytes_strings].
  rewrite take_len, drop_len, bytes_str_bytes, IH by lia. done.
Qed.

Lemma strings_length l : (length l <= length (strings_bytes l))%nat.
Proof. unfold strings_bytes. induction l as [|s l IH]; cbn; [lia|]. rewrite length_app. lia. Qed.

#[export] Instance text_lib : WireLib := {|
  int_Marshal := int_text_of; int_Unmarshal := int_of_text;
  tuple_Marshal t := strings_bytes (at_Address t :: at_StorageKeys t);
  tuple_Unmarshal b := match bytes_strings (length b) b with a :: ks => Some (mkTuple a ks) | [] => None end |}.

Lemma big_Bytes_abs v : big_Bytes v = big_Bytes (Z.abs v).
Proof. unfold big_Bytes. destruct (Z.eqb_spec v 0), (Z.eqb_spec (Z.abs v) 0); try lia; [done|]. by rewrite Z.abs_involutive. Qed.

Lemma big_Bytes_length v : Z.abs v < 2 ^ 256 -> len (big_Bytes v) <= 32.
Proof.
  intros Hv. unfold big_Bytes. destruct (Z.eqb_spec v 0); [done|]. unfold len. rewrite length_be_encode.
  assert (Z.log2 (Z.abs v) < 256) by (apply Z.log2_lt_pow2; lia). pose proof (Z.log2_nonneg (Z.abs v)).
  assert (Z.log2 (Z.abs v) / 8 < 32) by (apply Z.div_lt_upper_bound; lia).
  assert (0 <= Z.log2 (Z.abs v) / 8) by (apply Z.div_pos; lia). lia.
Qed.

#[export] Instance text_laws : WireLaws.
Proof.
  split.
  - intros v _. unfold int_Marshal, int_Unmarshal, text_lib, int_text_of, int_of_text.
    rewrite big_Bytes_abs, big_Bytes_roundtrip by lia. f_equal. destruct (Z.ltb_spec v 0); cbn [Z.eqb Pos.eqb]; lia.
  - intros v Hv%big_Bytes_length. cbn -[len Z.pow]. unfold int_text_of. change (?x :: ?l) with ([x] ++ l). rewrite len_app.
    change (len [_]) with 1. pose proof (len_nonneg (big_Bytes v)). lia.
  - intros [a ks]. unfold tuple_Marshal, tuple_Unmarshal, text_lib. cbn [at_Address at_StorageKeys].
    rewrite strings_roundtrip; [done|]. apply strings_length.
Qed.

(** A call with gas limit 21000 and one delegation: the codec does not return it. *)
Definition plain_call : SetCodeTx :=
  mkSetCode (Some 229) 7 (Some 2) (Some 100) 21000 (AddressHex alice) (Some 1000000) [1; 2] None [1] (big_Bytes (2 ^ 255)) [99]
    [mkAuth (Some 229) (AddressHex alice) 8 [1] (big_Bytes 12345) (big_Bytes 67890)].

Lemma plain_call_short : tx_short plain_call.
Proof.
  split; cbn [plain_call sc_ChainID sc_Nonce sc_GasTipCap sc_GasFeeCap sc_GasLimit sc_To sc_Amount sc_Data sc_Accesses sc_V sc_R sc_S sc_AuthList].
  - cbn [int_ok]. lia.
  - lia.
  - lia.
  - eexists. split; [vm_compute; reflexivity|vm_compute; reflexivity].
  - split_and!; vm_compute; reflexivity.
  - split; [done|constructor].
  - constructor; [|constructor]. split; cbn [au_ChainID au_Nonce int_ok]; [lia|lia|]. split; vm_compute; reflexivity.
Qed.

Lemma setcode_roundtrip_iff_witness :
  exists data, Marshal plain_call = Some data /\ len data = Size plain_call /\
    (Unmarshal data = Some (Ok plain_call) <-> sc_GasLimit plain_call < 128).
Proof. apply (setcode_roundtrip_iff plain_call plain_call_short). vm_compute. reflexivity. Defined.
