(* ===== verification/EvmGas.v ===== *)
(** [x/evm/keeper]: gas and fees of Ethereum transactions.

    The gas meter of [types/gasmeter.go] and the block gas limit of [types/block.go],
    the transient counters of [keeper.go], the fee checks of [fees.go], the refund of
    [gas.go] and the search of [types/utils.go].  The fork rules and the intrinsic
    gas of go-ethereum and the fee deduction of the SDK are parameters. *)

From stdpp Require Import base list gmap strings.
From Stdlib Require Import ZArith Lia.
From S2P Require Import Prelude KVStore Ledger Coins VestingSchedule Vesting FeeMarket StateDB EvmKeeper EvmTx.
Open Scope Z_scope.

(** * The context *)

(** What is read of [sdk.Context]: the block gas meter with its limit and the gas
    consumed, the maximum of the consensus parameters, the mode, and the node's
    minimum gas prices, decimals. *)
Record EvmCtx := mkEvmCtx {
  ec_Height : Z;
  ec_Time : Z;
  ec_HeaderHash : bytes;
  ec_BlockGasMeter : option (Z * Z);
  ec_MaxGas : option Z;
  ec_IsCheckTx : bool;
  ec_IsReCheckTx : bool;
  ec_MinGasPrices : list (string * Z)
}.

(** go-ethereum's rules at a height, from the chain configuration in the parameters. *)
Class ForkRules := {
  IsHomestead : Params -> Z -> bool;
  IsIstanbul : Params -> Z -> bool;
  IsBerlin : Params -> Z -> bool;
  IsLondon : Params -> Z -> bool
}.

(** [core.IntrinsicGas]; [None] when the sum overflows. *)
Class CoreGas := { IntrinsicGas : bytes -> eth_access_list -> bool -> bool -> bool -> option Z }.

(** The store of [x/feemarket] in the rest of the chain, and its legacy parameters. *)
Class FeeMarketView (X : Type) := { fm_kv : X -> FeeMarket.kv; fm_legacy : FeeMarket.Params }.

(** [authante.DeductFees] *)
Class FeeDeduction (X : Type) := { DeductFees : X -> AccountI -> list (string * Z) -> X * option Z }.

Definition FeeCollectorName : string := "fee_collector".

Inductive evmerror :=
| TxError (e : txerror)
| BankError (c : Z)
| StateError (c : Z)
| VestingError (e : Vesting.error)
| ErrOutOfGas
| ErrInsufficientFee
| ErrInsufficientFunds
| ErrInvalidCoins
| ErrUnknownAddress
| ErrIntrinsicGas
| ErrInvalidRefund
| ErrCreateDisabled
| ErrCallDisabled
| ErrInactivePrecompile
| ErrSigner
| ErrUnknownRequest
| ErrTxTypeNotSupported
| ErrInvalidType
| ErrInvalidSequence
| ErrInvalidBaseFee
| ErrNotSupported.

(** * [types/gasmeter.go], [types/block.go] *)

Record GasMeter := mkMeter { consumed : Z; limit : Z }.

Definition NewInfiniteGasMeterWithLimit (limit : Z) : GasMeter := mkMeter 0 limit.

Definition addUint64Overflow (a b : Z) : Z * bool :=
  if 2 ^ 64 - 1 - a <? b then (0, true) else (u64 (a + b), false).

(** The panic leaves the meter at zero. *)
Definition ConsumeGas (amount : Z) : M GasMeter evmerror unit :=
  fun g =>
    let '(c, overflow) := addUint64Overflow (consumed g) amount in
    let g := mkMeter c (limit g) in
    if overflow : bool then (g, Panic) else (g, Ok tt).

Definition RefundMeter (amount : Z) : M GasMeter evmerror unit :=
  fun g => if consumed g <? amount then (g, Panic) else (mkMeter (consumed g - amount) (limit g), Ok tt).

Definition BlockGasLimit (ctx : EvmCtx) : Z :=
  let of_params :=
    match ec_MaxGas ctx with
    | None => 0
    | Some maxGas => if maxGas =? -1 then 2 ^ 64 - 1 else if 0 <? maxGas then maxGas else 0
    end in
  match ec_BlockGasMeter ctx with
  | Some (lim, _) => if negb (lim =? 0) then lim else of_params
  | None => of_params
  end.

(** [keeper/gas.go] *)
Definition ResetGasMeterAndConsumeGas (gasUsed : Z) : M GasMeter evmerror unit :=
  let! c := gets consumed in
  RefundMeter c ;;
  ConsumeGas gasUsed.

Definition GasToRefund (availableRefund gasConsumed refundQuotient : Z) : Z :=
  let refund := gasConsumed / refundQuotient in
  if availableRefund <? refund then availableRefund else refund.

(** * [keeper/keeper.go]: the transient store *)

Abbreviation tstore := (gmap bytes bytes).

Definition KeyPrefixTransientBloom : bytes := [1].
Definition KeyPrefixTransientTxIndex : bytes := [2].
Definition KeyPrefixTransientLogSize : bytes := [3].
Definition KeyPrefixTransientGasUsed : bytes := [4].

(** A counter; no bytes are zero. *)
Definition get_counter (key : bytes) (t : tstore) : Z :=
  match t !! key with None | Some [] => 0 | Some bz => be_decode bz end.

Definition GetBlockBloomTransient (ctx : EvmCtx) (t : tstore) : Z :=
  get_counter (KeyPrefixTransientBloom ++ be8 (u64 (ec_Height ctx))) t.
Definition SetBlockBloomTransient (ctx : EvmCtx) (bloom : Z) (t : tstore) : tstore :=
  <[KeyPrefixTransientBloom ++ be8 (u64 (ec_Height ctx)) := big_Bytes bloom]> t.

Definition SetTxIndexTransient (index : Z) (t : tstore) : tstore := <[KeyPrefixTransientTxIndex := be8 index]> t.
Definition GetTxIndexTransient (t : tstore) : Z := get_counter KeyPrefixTransientTxIndex t.

Definition GetLogSizeTransient (t : tstore) : Z := get_counter KeyPrefixTransientLogSize t.
Definition SetLogSizeTransient (logSize : Z) (t : tstore) : tstore := <[KeyPrefixTransientLogSize := be8 logSize]> t.

Definition ResetTransientGasUsed (t : tstore) : tstore := delete KeyPrefixTransientGasUsed t.
Definition GetTransientGasUsed (t : tstore) : Z := get_counter KeyPrefixTransientGasUsed t.
Definition SetTransientGasUsed (gasUsed : Z) (t : tstore) : tstore := <[KeyPrefixTransientGasUsed := be8 gasUsed]> t.

Definition AddTransientGasUsed (gasUsed : Z) : M tstore evmerror Z :=
  let! old := gets GetTransientGasUsed in
  let result := u64 (old + gasUsed) in
  if result <? gasUsed then fail (TxError ErrGasOverflow)
  else modify (SetTransientGasUsed result) ;; ret result.

(** * [types/utils.go]: the search for a gas limit *)

(** [executable] says whether the call fails with that gas; an error ends the search.
    [None] when the fuel runs out. *)
Fixpoint BinSearch (fuel : nat) (lo hi : Z) (executable : Z -> result evmerror bool) : option (result evmerror Z) :=
  match fuel with
  | O => None
  | S fuel =>
    if u64 (lo + 1) <? hi then
      let mid := u64 (hi + lo) / 2 in
      match executable mid with
      | Err e => Some (Err e)
      | Panic => Some Panic
      | Ok true => BinSearch fuel mid hi executable
      | Ok false => BinSearch fuel lo mid executable
      end
    else Some (Ok hi)
  end.

(** * Fees *)

Section Fees.
Context {X : Type} {BK : BankKeeper X} {AK : AccountKeeper X} {MK : MintKeeper X} {FD : FeeDeduction X} {FV : FeeMarketView X}
  {FR : ForkRules} {CG : CoreGas} {HL : HexLib}.

(** Nil without London, zero when the fee market is off. *)
Definition getBaseFee (london : bool) (x : X) : option Z :=
  if negb london then None else Some (default 0 (FeeMarket.GetBaseFee fm_legacy (fm_kv x))).

Definition GetBaseFee (ctx : EvmCtx) (p : Params) (x : X) : option Z := getBaseFee (IsLondon p (ec_Height ctx)) x.

(** The parameter of [x/feemarket], read when it was validated. *)
Definition GetMinGasMultiplier (x : X) : Z := default 0 (FeeMarket.MinGasMultiplier (FeeMarket.GetParams fm_legacy (fm_kv x))).

Definition CheckSenderBalance (balance : Z) (t : TxData) : result evmerror unit :=
  match Cost t with
  | None => Panic
  | Some cost =>
    if cost <? 0 then Err ErrInvalidCoins
    else if (balance <? 0) || (balance <? cost) then Err ErrInsufficientFunds
    else Ok tt
  end.

Definition VerifyFee (t : TxData) (denom : string) (baseFee : option Z) (homestead istanbul isCheckTx : bool) :
    result evmerror (list (string * Z)) :=
  let isContractCreation := bool_decide (GetTo t = None) in
  let gasLimit := GetGas t in
  let accessList := default [] (GetAccessList t) in
  match IntrinsicGas (GetData t) accessList isContractCreation homestead istanbul with
  | None => Err ErrIntrinsicGas
  | Some intrinsicGas =>
    if isCheckTx && (gasLimit <? intrinsicGas) then Err ErrOutOfGas
    else
      match baseFee, GetGasFeeCap t with
      | Some _, None => Panic
      | _, cap =>
        if match baseFee, cap with Some b, Some c => c <? b | _, _ => false end then Err ErrInsufficientFee
        else
          match EffectiveFee t baseFee with
          | None => Panic
          | Some feeAmt =>
            if feeAmt =? 0 then Ok []
            else match NewIntFromBigInt feeAmt with Ok a => Ok [(denom, a)] | Err e => Err (TxError e) | Panic => Panic end
          end
      end
  end.

Definition DeductTxCostsFromUserBalance (fees : list (string * Z)) (from : bytes) : M X evmerror unit :=
  fun x =>
    match ak_GetAccount x from with
    | None => (x, Err ErrUnknownAddress)
    | Some signerAcc =>
      match DeductFees x signerAcc fees with
      | (x, None) => (x, Ok tt)
      | (x, Some c) => (x, Err (BankError c))
      end
    end.

(** The gas left over, at the price it was bought for, from the fee collector. *)
Definition RefundGas (gasPrice : Z) (from : bytes) (leftoverGas : Z) (denom : string) : M X evmerror unit :=
  fun x =>
    let remaining := leftoverGas * gasPrice in
    if remaining <? 0 then (x, Err ErrInvalidRefund)
    else if remaining =? 0 then (x, Ok tt)
    else if negb (bitlen_le remaining 256) then (x, Panic)
    else
      match SendCoinsFromModuleToAccount x FeeCollectorName from (denom, remaining) with
      | (x, None) => (x, Ok tt)
      | (x, Some _) => (x, Err ErrInsufficientFunds)
      end.

Definition GetEthIntrinsicGas (ctx : EvmCtx) (p : Params) (data : bytes) (al : eth_access_list) (isContractCreation : bool) : option Z :=
  IntrinsicGas data al isContractCreation (IsHomestead p (ec_Height ctx)) (IsIstanbul p (ec_Height ctx)).

End Fees.


(** [x/evm/types/utils.go]: the search for a gas limit finds the least one. *)

Section Search.
Context (executable : Z -> result evmerror bool).

(** Whatever [executable] answers, the search ends next to a failure and on a success. *)
Lemma BinSearch_spec n : forall lo hi, 0 <= lo < hi -> hi < 2 ^ 63 -> hi - lo <= 2 ^ Z.of_nat n ->
  (forall g, lo < g < hi -> exists b, executable g = Ok b) ->
  exists r, BinSearch (S n) lo hi executable = Some (Ok r) /\ lo < r <= hi /\
    (r = hi \/ executable r = Ok false) /\ (r - 1 = lo \/ executable (r - 1) = Ok true).
Proof.
  induction n as [|n IH]; intros lo hi Hlo Hhi Hd Hf.
  { cbn [BinSearch]. rewrite wrapU_small by lia. change (2 ^ Z.of_nat 0) with 1 in Hd. destruct (Z.ltb_spec (lo + 1) hi); [lia|].
    exists hi. split; [done|]. split; [lia|]. split; [by left|]. left. lia. }
  remember (S n) as n1 eqn:En. cbn [BinSearch]. rewrite !wrapU_small by lia. destruct (Z.ltb_spec (lo + 1) hi) as [Hlt|Hge].
  2:{ exists hi. split; [done|]. split; [lia|]. split; [by left|]. left. lia. }
  set (mid := (hi + lo) / 2). assert (lo < mid < hi) as Hm.
  { subst mid. pose proof (Z.div_mod (hi + lo) 2 ltac:(lia)). pose proof (Z.mod_pos_bound (hi + lo) 2 ltac:(lia)). lia. }
  assert (mid - lo <= 2 ^ Z.of_nat n /\ hi - mid <= 2 ^ Z.of_nat n) as [Hd1 Hd2].
  { subst mid n1. rewrite Nat2Z.inj_succ, Z.pow_succ_r in Hd by lia. pose proof (Z.div_mod (hi + lo) 2 ltac:(lia)).
    pose proof (Z.mod_pos_bound (hi + lo) 2 ltac:(lia)). lia. }
  destruct (Hf mid Hm) as [b Eb]. rewrite Eb. subst n1. destruct b.
  - destruct (IH mid hi ltac:(lia) Hhi Hd2) as (r & E & Hr & H1 & H2); [intros g Hg; apply Hf; lia|].
    exists r. split; [done|]. split; [lia|]. split; [done|]. right. destruct H2 as [H2|H2]; [congruence|done].
  - destruct (IH lo mid ltac:(lia) ltac:(lia) Hd1) as (r & E & Hr & H1 & H2); [intros g Hg; apply Hf; lia|].
    exists r. split; [done|]. split; [lia|]. split; [|done]. right. destruct H1 as [->|H1]; done.
Qed.

(** The gas estimate is the least sufficient one.  Between a limit [lo] and a
    limit [hi] below [2^63], when more gas never makes a call fail, [BinSearch] returns
    within 64 rounds the least limit above [lo] with which the call does not fail, or
    [hi] when every smaller one fails. *)
Theorem BinSearch_least lo hi : 0 <= lo < hi -> hi < 2 ^ 63 ->
  (forall g, lo < g < hi -> exists b, executable g = Ok b) ->
  (forall g g', lo < g <= g' -> g' < hi -> executable g = Ok false -> executable g' = Ok false) ->
  exists r, BinSearch 64 lo hi executable = Some (Ok r) /\ lo < r <= hi /\
    (r = hi \/ executable r = Ok false) /\ forall g, lo < g < r -> executable g = Ok true.
Proof.
  intros Hlo Hhi Hf Hmono. destruct (BinSearch_spec 63 lo hi Hlo Hhi) as (r & E & Hr & H1 & H2); [lia|done|].
  exists r. split; [done|]. split; [done|]. split; [done|]. intros g Hg. destruct (Hf g ltac:(lia)) as [[|] Eg]; [done|].
  destruct H2 as [H2|H2]; [lia|]. rewrite (Hmono g (r - 1) ltac:(lia) ltac:(lia) Eg) in H2. done.
Qed.

End Search.

(** The limits of a transfer: more than 21000 gas is enough. *)
Lemma BinSearch_least_witness :
  exists r, BinSearch 64 20999 (2 ^ 62) (fun g => Ok (g <? 21000)) = Some (Ok r) /\ 20999 < r <= 2 ^ 62 /\
    (r = 2 ^ 62 \/ Ok (r <? 21000) = @Ok evmerror bool false) /\ forall g, 20999 < g < r -> @Ok evmerror bool (g <? 21000) = Ok true.
Proof.
  apply (BinSearch_least (fun g => Ok (g <? 21000))); [lia|lia|by eexists|].
  intros g g' Hg _ [= H%Z.ltb_ge]. by rewrite (proj2 (Z.ltb_ge g' 21000)) by lia.
Defined.
