(* ===== verification/EvmApply.v ===== *)
(** [x/evm/keeper/state_transition.go]: applying a message and a transaction.

    A message runs on a fresh state database over the keeper; the interpreter and the
    EIP-7702 authorizations of go-ethereum are parameters that work on it.  A
    transaction adds the gas refund, the hooks and the counters of the block. *)

From stdpp Require Import base list gmap strings.
From Stdlib Require Import ZArith Lia.
From S2P Require Import Prelude KVStore BigInt Ledger FeeMarket StateDB EvmKeeper EvmTx EvmGas.
Open Scope Z_scope.
Open Scope go_scope.

(** * Data *)

(** [core.Message] *)
Record Message := mkMessage {
  m_From : bytes; m_To : option bytes; m_Nonce : Z; m_Value : Z; m_Gas : Z; m_GasPrice : Z; m_GasFeeCap : Z;
  m_GasTipCap : Z; m_Data : bytes; m_AccessList : eth_access_list }.

(** [statedb.EVMConfig]; the chain configuration is in the parameters. *)
Record EVMConfig := mkConfig {
  cfg_Params : Params; cfg_CoinBase : bytes; cfg_BaseFee : option Z; cfg_SetCodeAuthList : list EthAuthorization }.

Record MsgEthereumTxResponse := mkResponse {
  res_GasUsed : Z; res_VmError : string; res_Ret : bytes; res_Logs : list Log; res_Hash : bytes }.

Definition Failed (r : MsgEthereumTxResponse) : bool := negb (bool_decide (res_VmError r = ""%string)).

(** The fields of [ethtypes.Receipt] that hooks and counters read. *)
Record Receipt := mkReceipt {
  rc_Type : Z; rc_CumulativeGasUsed : Z; rc_Bloom : Z; rc_Logs : list Log; rc_TxHash : bytes; rc_ContractAddress : option bytes;
  rc_GasUsed : Z; rc_Status : bool }.

(** What a running EVM reports: return bytes, leftover gas, error. *)
Record outcome := mkOutcome { out_ret : bytes; out_leftover : Z; out_err : option string }.

(** * Libraries *)

Class EvmLib (K : Type) := {
  evm_Create : EvmCtx -> EVMConfig -> Message -> Z -> StateDB K -> StateDB K * outcome;
  evm_Call : EvmCtx -> EVMConfig -> Message -> Z -> StateDB K -> StateDB K * outcome;
  ApplyAuthorizations : list EthAuthorization -> StateDB K -> StateDB K * Z;
  PrecompiledAddressesBerlin : list bytes;
  CreateAddress : bytes -> Z -> bytes;
  LogsBloom : list Log -> Z
}.

(** The precompiles of the keeper, and the proposer of the block from the staking module. *)
Class EvmHost (X : Type) := {
  k_precompiles : list bytes;
  GetCoinbaseAddress : X -> option bytes
}.

(** Signature recovery and hash of a transaction. *)
Class TxSigner (Tx : Type) := {
  AsMessage : Params -> Z -> Tx -> option Z -> option Message;
  tx_Hash : Tx -> bytes;
  tx_Protected : Tx -> bool
}.

Definition RefundQuotient : Z := 2.
Definition RefundQuotientEIP3529 : Z := 5.

(** [types.AvailableEVMExtensions] *)
Definition AvailableEVMExtensions : list string :=
  ["0x0000000000000000000000000000000000000100"; "0x0000000000000000000000000000000000000400";
   "0x0000000000000000000000000000000000000800"; "0x0000000000000000000000000000000000000801";
   "0x0000000000000000000000000000000000000802"; "0x0000000000000000000000000000000000000803";
   "0x0000000000000000000000000000000000000804"; "0x0000000000000000000000000000000000000901";
   "0x0000000000000000000000000000000000000902"; "0x0000000000000000000000000000000000000903";
   "0x0000000000000000000000000000000000000904"]%string.

(** The hooks: they work on the chain and may change the logs of the receipt. *)
Definition Hooks (X : Type) : Type := option (Message -> Receipt -> chain X -> chain X * (list Log * option Z)).

Section Apply.
Context {X : Type} {BK : BankKeeper X} {AK : AccountKeeper X} {MK : MintKeeper X} {FV : FeeMarketView X} {EHo : EvmHost X}
  {EH : EthHash} {FR : ForkRules} {CG : CoreGas} {HL : HexLib} {LD : LegacyDec} {EL : EvmLib (chain X)}
  {Tx : Type} {ET : EthTransaction Tx} {TS : TxSigner Tx}.

(** * [ApplyMessageWithConfig] *)

Definition HasCustomPrecompiles (p : Params) : bool := negb (bool_decide (ActivePrecompiles p = [])).
Definition GetActivePrecompilesAddrs (p : Params) : list bytes := HexToAddress <$> ActivePrecompiles p.

(** [Keeper.Precompiles] panics on an address without a contract. *)
Definition Precompiles_ok (addrs : list bytes) : bool := forallb (fun a => bool_decide (a ∈ k_precompiles)) addrs.

(** The custom precompiles: the active addresses, or the default ones. *)
Definition active_precompiles (p : Params) (to : option bytes) : result evmerror (list bytes) :=
  if HasCustomPrecompiles p then
    let active := PrecompiledAddressesBerlin ++ GetActivePrecompilesAddrs p in
    if match to with
       | Some a => bool_decide (AddressHex a ∈ AvailableEVMExtensions) && negb (bool_decide (a ∈ active))
       | None => false
       end
    then Err ErrInactivePrecompile
    else if Precompiles_ok active then Ok active else Panic
  else Ok PrecompiledAddressesBerlin.

(** The EIP-7702 authorizations: the state and the gas left, [None] when it is exceeded. *)
Definition apply_auths (cfg : EVMConfig) (s : StateDB (chain X)) (leftoverGas : Z) : StateDB (chain X) * option Z :=
  match cfg_SetCodeAuthList cfg with
  | [] => (s, Some leftoverGas)
  | auths =>
    let '(s, authGasUsed) := ApplyAuthorizations auths s in
    (s, if leftoverGas <? authGasUsed then None else Some (leftoverGas - authGasUsed))
  end.

(** The call frame; a creation takes over the nonce of the sender. *)
Definition run_frame (ctx : EvmCtx) (cfg : EVMConfig) (msg : Message) (gas : Z) (s : StateDB (chain X)) : StateDB (chain X) * outcome :=
  match m_To msg with
  | None =>
    let s := StateDB.SetNonce (m_From msg) (m_Nonce msg) s in
    let '(s, out) := evm_Create ctx cfg msg gas s in
    (StateDB.SetNonce (m_From msg) (u64 (m_Nonce msg + 1)) s, out)
  | Some _ => evm_Call ctx cfg msg gas s
  end.

(** The gas charged: what the execution used after refunds, and at least the share of
    the limit the fee market demands. *)
Definition charged_gas (gas temporaryGasUsed leftoverGas multiplier : Z) : result evmerror Z :=
  let minimumGasUsed := dec_mul (i64 gas * dec_one) multiplier in
  if negb (is_u64 (dec_truncate minimumGasUsed)) then Err (TxError ErrGasOverflow)
  else if gas <? leftoverGas then Err (TxError ErrGasOverflow)
  else
    let used := dec_truncate (Z.max minimumGasUsed (i64 temporaryGasUsed * dec_one)) in
    if is_u64 used then Ok used else Panic.

(** From the call frame on. *)
Definition settle_message (ctx : EvmCtx) (cfg : EVMConfig) (msg : Message) (commit : bool) (cfg_tx : TxConfig)
    (s : StateDB (chain X)) (out : outcome) : chain X * result evmerror MsgEthereumTxResponse :=
  let refundQuotient := if IsLondon (cfg_Params cfg) (ec_Height ctx) then RefundQuotientEIP3529 else RefundQuotient in
  if m_Gas msg <? out_leftover out then (keeper s, Err (TxError ErrGasOverflow))
  else
    let temporaryGasUsed := m_Gas msg - out_leftover out in
    let refund := GasToRefund (StateDB.refund s) temporaryGasUsed refundQuotient in
    let leftoverGas := u64 (out_leftover out + refund) in
    let temporaryGasUsed := temporaryGasUsed - refund in
    let '(s, r) := if commit then StateDB.Commit s else (s, Ok tt) in
    match r with
    | Err c => (keeper s, Err (StateError c))
    | Panic => (keeper s, Panic)
    | Ok _ =>
      match charged_gas (m_Gas msg) temporaryGasUsed leftoverGas (GetMinGasMultiplier (rest (keeper s))) with
      | Err e => (keeper s, Err e)
      | Panic => (keeper s, Panic)
      | Ok gasUsed => (keeper s, Ok (mkResponse gasUsed (default ""%string (out_err out)) (out_ret out) (logs s) (TxHash cfg_tx)))
      end
    end.

Definition ApplyMessageWithConfig (ctx : EvmCtx) (msg : Message) (commit : bool) (cfg : EVMConfig) (cfg_tx : TxConfig) :
    M (chain X) evmerror MsgEthereumTxResponse :=
  fun k =>
    let p := cfg_Params cfg in
    let contractCreation := bool_decide (m_To msg = None) in
    if negb (EnableCreate p) && contractCreation then (k, Err ErrCreateDisabled)
    else if negb (EnableCall p) && negb contractCreation then (k, Err ErrCallDisabled)
    else
      match active_precompiles p (m_To msg) with
      | Err e => (k, Err e)
      | Panic => (k, Panic)
      | Ok precompiles =>
        match GetEthIntrinsicGas ctx p (m_Data msg) (m_AccessList msg) contractCreation with
        | None => (k, Err ErrIntrinsicGas)
        | Some intrinsicGas =>
          if m_Gas msg <? intrinsicGas then (k, Err ErrIntrinsicGas)
          else
            let s := New k cfg_tx in
            let '(s, r) :=
              if IsBerlin p (ec_Height ctx)
              then PrepareAccessList (m_From msg) (m_To msg) precompiles (m_AccessList msg) s else (s, Ok tt) in
            match r with
            | Err _ | Panic => (keeper s, Panic)
            | Ok _ =>
              match apply_auths cfg s (m_Gas msg - intrinsicGas) with
              | (s, None) => (keeper s, Err ErrIntrinsicGas)
              | (s, Some leftoverGas) =>
                let '(s, out) := run_frame ctx cfg msg leftoverGas s in
                settle_message ctx cfg msg commit cfg_tx s out
              end
            end
        end
      end.

(** * [ApplyTransaction] *)

(** The stores a transaction works on, and the gas meter of the Cosmos transaction. *)
Record exec_state := mkExec { x_chain : chain X; x_transient : tstore; x_meter : GasMeter }.

Definition on_chain {A} (c : M (chain X) evmerror A) : M exec_state evmerror A :=
  fun w => let '(k, r) := c (x_chain w) in (mkExec k (x_transient w) (x_meter w), r).
Definition on_rest {A} (c : M X evmerror A) : M exec_state evmerror A :=
  on_chain (fun k => let '(x, r) := c (rest k) in (with_rest x k, r)).
Definition on_transient {A} (c : M tstore evmerror A) : M exec_state evmerror A :=
  fun w => let '(t, r) := c (x_transient w) in (mkExec (x_chain w) t (x_meter w), r).
Definition on_meter {A} (c : M GasMeter evmerror A) : M exec_state evmerror A :=
  fun w => let '(g, r) := c (x_meter w) in (mkExec (x_chain w) (x_transient w) g, r).

(** [keeper/config.go] *)
Definition EVMConfig_of (ctx : EvmCtx) : M (chain X) evmerror EVMConfig :=
  let! params := gets GetParams in
  let! coinbase := gets (fun k => GetCoinbaseAddress (rest k)) in
  match coinbase with
  | None => fail ErrUnknownAddress
  | Some coinbase => let! baseFee := gets (fun k => EvmGas.GetBaseFee ctx params (rest k)) in ret (mkConfig params coinbase baseFee [])
  end.

Definition TxConfig_of (ctx : EvmCtx) (hash : bytes) (t : tstore) : TxConfig :=
  mkTxConfig (BytesToHash (ec_HeaderHash ctx)) hash (GetTxIndexTransient t) (GetLogSizeTransient t).

Definition with_auths (ctx : EvmCtx) (tx : Tx) (k : chain X) (cfg : EVMConfig) : EVMConfig :=
  if (tx_Type tx =? 4) && IsEIP7702Enabled (mkCtx (ec_Time ctx) (ec_Height ctx)) k
  then mkConfig (cfg_Params cfg) (cfg_CoinBase cfg) (cfg_BaseFee cfg) (tx_Auths tx) else cfg.

Definition cumulative_gas (ctx : EvmCtx) (gasUsed : Z) : Z :=
  match ec_BlockGasMeter ctx with
  | None => gasUsed
  | Some (lim, c) => let cum := u64 (gasUsed + c) in if lim <? cum then lim else cum
  end.

(** The message in its own scope: with hooks, the chain is only changed when both the
    message and the hooks succeed.  The response and the logs of the receipt. *)
Definition run_scoped (ctx : EvmCtx) (hooks : Hooks X) (tx : Tx) (msg : Message) (cfg : EVMConfig) (cfg_tx : TxConfig) (bloom0 : Z) :
    M (chain X) evmerror (MsgEthereumTxResponse * list Log * Z) :=
  fun k =>
    match ApplyMessageWithConfig ctx msg true cfg cfg_tx k with
    | (k', Err e) => (if hooks then k else k', Err e)
    | (k', Panic) => (if hooks then k else k', Panic)
    | (k', Ok res) =>
      let bloom := if bool_decide (res_Logs res = []) then 0 else Z.lor bloom0 (LogsBloom (res_Logs res)) in
      let contract := match m_To msg with None => Some (CreateAddress (m_From msg) (m_Nonce msg)) | Some _ => None end in
      let receipt := mkReceipt (tx_Type tx) (cumulative_gas ctx (res_GasUsed res)) bloom (res_Logs res) (TxHash cfg_tx)
        contract (res_GasUsed res) (negb (Failed res)) in
      match hooks with
      | None => (k', Ok (res, res_Logs res, bloom))
      | Some hook =>
        if Failed res then (k, Ok (res, res_Logs res, bloom))
        else
          let '(k2, (logs', e)) := hook msg receipt k' in
          match e with
          | Some _ =>
            (k, Ok (mkResponse (res_GasUsed res) "failed to execute post processing"%string (res_Ret res) [] (res_Hash res), logs', bloom))
          | None => (k2, Ok (mkResponse (res_GasUsed res) (res_VmError res) (res_Ret res) logs' (res_Hash res), logs', bloom))
          end
      end
    end.

Definition ApplyTransaction (ctx : EvmCtx) (hooks : Hooks X) (tx : Tx) : M exec_state evmerror MsgEthereumTxResponse :=
  let! cfg := on_chain (EVMConfig_of ctx) in
  let! cfg_tx := gets (fun w => TxConfig_of ctx (tx_Hash tx) (x_transient w)) in
  match AsMessage (cfg_Params cfg) (ec_Height ctx) tx (cfg_BaseFee cfg) with
  | None => fail ErrSigner
  | Some msg =>
    let! cfg := gets (fun w => with_auths ctx tx (x_chain w) cfg) in
    let! bloom0 := gets (fun w => GetBlockBloomTransient ctx (x_transient w)) in
    fun w =>
      match on_chain (run_scoped ctx hooks tx msg cfg cfg_tx bloom0) w with
      | (w, Panic) => (w, Panic)
      | (w, Err e) => (let! lim := gets (fun w => limit (x_meter w)) in on_meter (ResetGasMeterAndConsumeGas lim) ;; fail e) w
      | (w, Ok (res, logs', bloom)) =>
        (on_rest (RefundGas (m_GasPrice msg) (m_From msg) (u64 (m_Gas msg - res_GasUsed res)) (EvmDenom (cfg_Params cfg))) ;;
         (if bool_decide (logs' = []) then ret tt
          else on_transient (modify (fun t =>
            SetLogSizeTransient (u64 (LogIndex cfg_tx + Z.of_nat (length logs'))) (SetBlockBloomTransient ctx bloom t)))) ;;
         on_transient (modify (SetTxIndexTransient (u64 (TxIndex cfg_tx + 1)))) ;;
         let! totalGasUsed := on_transient (AddTransientGasUsed (res_GasUsed res)) in
         on_meter (ResetGasMeterAndConsumeGas totalGasUsed) ;;
         ret res) w
      end
  end.

End Apply.
