(* ===== verification/EvmApplyProps.v ===== *)
(** [x/evm/keeper/state_transition.go]: what a message is charged, what a transaction
    changes. *)

From stdpp Require Import base list gmap strings relations.
From Stdlib Require Import ZArith Lia.
From S2P Require Import Prelude KVStore BigInt Ledger FeeMarket StateDB StateDBProps StateDBCommit EvmKeeper EvmKeeperProps EvmTx EvmGas EvmApply.
Open Scope Z_scope.
Open Scope go_scope.

(** What go-ethereum documents of gas: a frame gives back no more than it got, the
    refund counter is unsigned, costs are not negative. *)
Class EvmGasLaws {X : Type} {EL : EvmLib (chain X)} {CG : CoreGas} := {
  create_leftover : forall ctx cfg msg gas s, 0 <= gas -> 0 <= out_leftover (evm_Create ctx cfg msg gas s).2 <= gas;
  call_leftover : forall ctx cfg msg gas s, 0 <= gas -> 0 <= out_leftover (evm_Call ctx cfg msg gas s).2 <= gas;
  create_refund : forall ctx cfg msg gas s, 0 <= refund (evm_Create ctx cfg msg gas s).1;
  call_refund : forall ctx cfg msg gas s, 0 <= refund (evm_Call ctx cfg msg gas s).1;
  auth_gas : forall l s, 0 <= (ApplyAuthorizations l s).2;
  intrinsic_gas : forall data al c h i g, IntrinsicGas data al c h i = Some g -> 0 <= g
}.

(** Executions that reach the chain through the state database only, those without
    stateful precompiles. *)
Class EvmPure {X : Type} {BK : BankKeeper X} {AK : AccountKeeper X} {MK : MintKeeper X} {EH : EthHash} {EL : EvmLib (chain X)} := {
  create_steps : forall ctx cfg msg gas s, rtc tx_step s (evm_Create ctx cfg msg gas s).1;
  call_steps : forall ctx cfg msg gas s, rtc tx_step s (evm_Call ctx cfg msg gas s).1;
  auth_steps : forall l s, rtc tx_step s (ApplyAuthorizations l s).1
}.

(** The parameters of the fee market are validated wherever they are read. *)
Class FeeMarketValid (X : Type) {FV : FeeMarketView X} :=
  fm_validated : forall x : X, FeeMarket.Params_Validate (FeeMarket.GetParams fm_legacy (fm_kv x)) = Ok tt.

Section Charges.
Context {X : Type} {BK : BankKeeper X} {AK : AccountKeeper X} {MK : MintKeeper X} {FV : FeeMarketView X} {EHo : EvmHost X}
  {EH : EthHash} {FR : ForkRules} {CG : CoreGas} {HL : HexLib} {LD : LegacyDec} {EL : EvmLib (chain X)} {EG : EvmGasLaws}.
Implicit Types k : chain X.

Lemma dec_max_div a b : 0 <= a -> 0 <= b -> Z.max a (b * dec_one) / dec_one = Z.max (a / dec_one) b.
Proof.
  intros Ha Hb. assert (0 < dec_one) as H1 by (vm_compute; reflexivity).
  destruct (Z.le_ge_cases (b * dec_one) a) as [H|H].
  - rewrite (Z.max_l a) by done. rewrite Z.max_l; [done|]. by apply Z.div_le_lower_bound; [|lia].
  - rewrite (Z.max_r a) by done. rewrite Z.div_mul by lia. rewrite Z.max_r; [done|]. apply Z.div_le_upper_bound; lia.
Qed.

Lemma share_bound gas mult : 0 <= gas -> 0 <= mult <= dec_one -> 0 <= gas * mult / dec_one <= gas.
Proof.
  intros Hg Hm. assert (0 < dec_one) as H1 by (vm_compute; reflexivity).
  split; [apply Z.div_pos; nia|]. apply Z.div_le_upper_bound; nia.
Qed.

Lemma charged_gas_spec gas temp left mult : 0 <= gas < 2 ^ 63 -> 0 <= temp <= gas -> left <= gas -> 0 <= mult <= dec_one ->
  charged_gas gas temp left mult = Ok (Z.max (gas * mult / dec_one) temp).
Proof.
  intros Hg Ht Hl Hm. pose proof (share_bound gas mult ltac:(lia) Hm) as Hs. unfold charged_gas.
  rewrite !wrapS_small by lia. rewrite dec_mul_int. rewrite (dec_truncate_nonneg (gas * mult)) by nia.
  assert (is_u64 (gas * mult / dec_one) = true) as -> by (apply is_u64_true; lia). cbn [negb]. rewrite (proj2 (Z.ltb_ge gas left) Hl).
  assert (0 <= Z.max (gas * mult) (temp * dec_one)) by nia. rewrite dec_truncate_nonneg by done.
  rewrite dec_max_div by nia. assert (is_u64 (Z.max (gas * mult / dec_one) temp) = true) as ->; [|done].
  apply is_u64_true. lia.
Qed.

Lemma refund_bound available used q : 0 <= available -> 0 <= used -> 0 < q ->
  0 <= GasToRefund available used q <= used / q /\ used / q <= used.
Proof.
  intros Ha Hu Hq. unfold GasToRefund. pose proof (Z.div_pos used q ltac:(lia) ltac:(lia)).
  pose proof (Z.div_le_upper_bound used q used ltac:(lia) ltac:(nia)).
  destruct (Z.ltb_spec available (used / q)); lia.
Qed.

Lemma GasToRefund_min available used q : GasToRefund available used q = Z.min available (used / q).
Proof. unfold GasToRefund. destruct (Z.ltb_spec available (used / q)); lia. Qed.

(** The quotient of refunds in force. *)
Definition quotient (ctx : EvmCtx) (cfg : EVMConfig) : Z :=
  if IsLondon (cfg_Params cfg) (ec_Height ctx) then 5 else 2.

Lemma quotient_pos ctx cfg : 0 < quotient ctx cfg.
Proof. unfold quotient. by destruct (IsLondon _ _). Qed.

(** The access list, which is kept since Berlin. *)
Definition prepared (ctx : EvmCtx) (msg : Message) (cfg : EVMConfig) (cfg_tx : TxConfig) k (al : list bytes) : StateDB (chain X) * result Z unit :=
  if IsBerlin (cfg_Params cfg) (ec_Height ctx) then PrepareAccessList (m_From msg) (m_To msg) al (m_AccessList msg) (New k cfg_tx)
  else (New k cfg_tx, Ok tt).

(** The run of a message, on a fresh state database over [k]: the intrinsic gas, the gas
    of the authorizations, and a call or a creation with the gas that is left.  A
    creation runs with the nonce of the message and leaves the next one. *)
Record runs (ctx : EvmCtx) (msg : Message) (cfg : EVMConfig) (cfg_tx : TxConfig) k (intrinsic auth : Z)
    (s : StateDB (chain X)) (out : outcome) : Prop := mkRuns {
  runs_intrinsic : GetEthIntrinsicGas ctx (cfg_Params cfg) (m_Data msg) (m_AccessList msg) (bool_decide (m_To msg = None)) = Some intrinsic;
  runs_enough : intrinsic <= m_Gas msg /\ auth <= m_Gas msg - intrinsic;
  runs_frame : exists al s1 s2, active_precompiles (cfg_Params cfg) (m_To msg) = Ok al /\
    prepared ctx msg cfg cfg_tx k al = (s1, Ok tt) /\
    match cfg_SetCodeAuthList cfg with [] => s2 = s1 /\ auth = 0 | auths => ApplyAuthorizations auths s1 = (s2, auth) end /\
    match m_To msg with
    | Some _ => evm_Call ctx cfg msg (m_Gas msg - intrinsic - auth) s2 = (s, out)
    | None => exists s3,
        evm_Create ctx cfg msg (m_Gas msg - intrinsic - auth) (StateDB.SetNonce (m_From msg) (m_Nonce msg) s2) = (s3, out) /\
        s = StateDB.SetNonce (m_From msg) (u64 (m_Nonce msg + 1)) s3
    end
}.

(** A message has one run. *)
Lemma runs_unique ctx msg cfg cfg_tx k i a s out i' a' s' out' :
  runs ctx msg cfg cfg_tx k i a s out -> runs ctx msg cfg cfg_tx k i' a' s' out' -> (i, a, s, out) = (i', a', s', out').
Proof.
  intros [Hi _ (al & s1 & s2 & Hal & Hp & Ha & Hf)] [Hi' _ (al' & s1' & s2' & Hal' & Hp' & Ha' & Hf')].
  assert (i' = i) as -> by congruence. assert (al' = al) as -> by congruence. assert (s1' = s1) as -> by congruence.
  assert (s2' = s2 /\ a' = a) as [-> ->] by (destruct (cfg_SetCodeAuthList cfg); [naive_solver|split; congruence]).
  destruct (m_To msg); [congruence|]. destruct Hf as (s3 & Hf & ->), Hf' as (s3' & Hf' & ->). congruence.
Qed.

(** How [ApplyMessageWithConfig] ends: before the frame, or with a run. *)
Lemma ApplyMessage_cases ctx msg commit cfg cfg_tx k k' r :
  ApplyMessageWithConfig ctx msg commit cfg cfg_tx k = (k', r) ->
  ((forall res, r <> Ok res) /\
    (k' = k \/ exists al s1 r1, prepared ctx msg cfg cfg_tx k al = (s1, r1) /\
      (k' = keeper s1 \/ (r1 = Ok tt /\ exists g, k' = keeper (apply_auths cfg s1 g).1)))) \/
  exists ig auth s out, runs ctx msg cfg cfg_tx k ig auth s out /\ settle_message ctx cfg msg commit cfg_tx s out = (k', r).
Proof.
  unfold ApplyMessageWithConfig. destruct (negb (EnableCreate _) && _); [intros [= <- <-]; left; split; [done|by left]|].
  destruct (negb (EnableCall _) && _); [intros [= <- <-]; left; split; [done|by left]|].
  destruct (active_precompiles _ _) as [al| |] eqn:Eal; [|intros [= <- <-]; left; split; [done|by left]..].
  destruct (GetEthIntrinsicGas _ _ _ _ _) as [ig|] eqn:Ei; [|intros [= <- <-]; left; split; [done|by left]].
  destruct (Z.ltb_spec (m_Gas msg) ig) as [|Hig]; [intros [= <- <-]; left; split; [done|by left]|].
  change (if IsBerlin _ _ then _ else _) with (prepared ctx msg cfg cfg_tx k al).
  destruct (prepared ctx msg cfg cfg_tx k al) as [s1 r1] eqn:Ep.
  destruct r1 as [[]| |]; [|intros [= <- <-]; left; split; [done|right; eexists al, s1, _; split; [done|by left]]..].
  destruct (apply_auths _ _ _) as [s2 [gas|]] eqn:Ea.
  2:{ intros [= <- <-]. left. split; [done|]. right. exists al, s1, (Ok tt). split; [done|]. right. split; [done|].
      exists (m_Gas msg - ig). by rewrite Ea. }
  destruct (run_frame _ _ _ _ _) as [s out] eqn:Er. intros Hs. right. exists ig, (m_Gas msg - ig - gas), s, out. split; [|done].
  unfold apply_auths in Ea. split; [done| |exists al, s1, s2].
  - destruct (cfg_SetCodeAuthList cfg); [injection Ea as _ <-; lia|]. destruct (ApplyAuthorizations _ _) as [s' used].
    destruct (Z.ltb_spec (m_Gas msg - ig) used); [done|]. injection Ea as _ <-. lia.
  - split; [done|]. split; [done|]. replace (m_Gas msg - ig - (m_Gas msg - ig - gas)) with gas by lia. split.
    + destruct (cfg_SetCodeAuthList cfg); [injection Ea as <- <-; split; [done|lia]|]. destruct (ApplyAuthorizations _ _) as [s' used].
      destruct (Z.ltb_spec (m_Gas msg - ig) used); [done|]. injection Ea as <- <-. f_equal. lia.
    + unfold run_frame in Er. destruct (m_To msg); [done|]. destruct (evm_Create _ _ _ _ _) as [s3 out3]. injection Er as <- <-. by exists s3.
Qed.

Lemma refund_SetNonce a n (s : StateDB (chain X)) : refund (StateDB.SetNonce a n s) = refund s.
Proof.
  assert (forall e (t : StateDB (chain X)), refund (append e t) = refund t) as Ha.
  { intros e t. unfold append. by destruct (Dirtied e). }
  assert (forall t : StateDB (chain X), refund (getStateObject a t).1 = refund t) as Hg.
  { intros t. unfold getStateObject. destruct (stateObjects t !! a); [done|]. by destruct (StateDB.GetAccount (keeper t) a). }
  unfold StateDB.SetNonce, getOrNewStateObject, createObject. pose proof (Hg s) as H1.
  destruct (getStateObject a s) as [s1 [o|]]; cbn [fst] in H1.
  - unfold setStateObject. cbn [refund with_objects]. by rewrite Ha.
  - pose proof (Hg s1) as H2. destruct (getStateObject a s1) as [s2 prev]. cbn [fst] in H2. unfold setStateObject.
    cbn [refund with_objects]. rewrite Ha. cbn [refund with_objects]. rewrite Ha. congruence.
Qed.

(** The gas of a run. *)
Lemma runs_gas ctx msg cfg cfg_tx k i a s out : runs ctx msg cfg cfg_tx k i a s out ->
  0 <= i /\ 0 <= a /\ 0 <= out_leftover out <= m_Gas msg - i - a /\ 0 <= refund s.
Proof.
  intros [Hi [He1 He2] (al & s1 & s2 & _ & _ & Ha & Hf)]. apply intrinsic_gas in Hi.
  assert (0 <= a) as Ha0.
  { destruct (cfg_SetCodeAuthList cfg) as [|x l]; [lia|]. pose proof (auth_gas (x :: l) s1) as H. by rewrite Ha in H. }
  split; [done|]. split; [done|]. assert (0 <= m_Gas msg - i - a) as Hg by lia. destruct (m_To msg).
  - pose proof (call_leftover ctx cfg msg _ s2 Hg) as H1. pose proof (call_refund ctx cfg msg (m_Gas msg - i - a) s2) as H2.
    by rewrite Hf in H1, H2.
  - destruct Hf as (s3 & Hf & ->). rewrite refund_SetNonce. set (s2' := StateDB.SetNonce _ _ s2) in *.
    pose proof (create_leftover ctx cfg msg _ s2' Hg) as H1. pose proof (create_refund ctx cfg msg (m_Gas msg - i - a) s2') as H2.
    by rewrite Hf in H1, H2.
Qed.

(** The multiplier of a validated fee market. *)
Lemma validated_multiplier (x : X) : FeeMarket.Params_Validate (FeeMarket.GetParams fm_legacy (fm_kv x)) = Ok tt ->
  0 <= GetMinGasMultiplier x <= dec_one.
Proof.
  unfold GetMinGasMultiplier. set (p := FeeMarket.GetParams _ _). unfold FeeMarket.Params_Validate.
  destruct (BaseFeeChangeDenominator p =? 0); [done|]. destruct (BaseFee p); [|done]. destruct (_ <? 0); [done|].
  destruct (EnableHeight p <? 0); [done|]. unfold validateMinGasMultiplier. clearbody p. destruct (MinGasMultiplier p) as [m|]; [|done].
  destruct (Z.leb_spec 0 m), (Z.leb_spec m dec_one); done.
Qed.

(** The end of a message that succeeds. *)
Lemma settle_spec ctx cfg msg commit cfg_tx s out k' res :
  settle_message ctx cfg msg commit cfg_tx s out = (k', Ok res) ->
  0 <= m_Gas msg < 2 ^ 63 -> 0 <= out_leftover out -> 0 <= refund s -> 0 <= GetMinGasMultiplier (rest k') <= dec_one ->
  let used := m_Gas msg - out_leftover out in
  let refunded := GasToRefund (refund s) used (quotient ctx cfg) in
  0 <= used /\ res_GasUsed res = Z.max (m_Gas msg * GetMinGasMultiplier (rest k') / dec_one) (used - refunded) /\
  res_VmError res = default ""%string (out_err out) /\ res_Ret res = out_ret out /\
  exists s', (if commit then StateDB.Commit s else (s, Ok tt)) = (s', Ok tt) /\ keeper s' = k' /\ res_Logs res = logs s'.
Proof.
  intros H Hg Hl Hr Hm. cbv zeta. unfold settle_message in H. change (if IsLondon _ _ then _ else _) with (quotient ctx cfg) in H.
  destruct (Z.ltb_spec (m_Gas msg) (out_leftover out)); [done|].
  pose proof (refund_bound (refund s) (m_Gas msg - out_leftover out) (quotient ctx cfg) Hr ltac:(lia) (quotient_pos ctx cfg)) as Hb.
  destruct (if commit then _ else _) as [s' [[]| |]] eqn:Ec; [|done..].
  destruct (charged_gas _ _ _ _) as [g| |] eqn:Eg; [|done..]. injection H as <- <-. rewrite wrapU_small in Eg by lia.
  rewrite charged_gas_spec in Eg by (done || lia). injection Eg as <-. split; [lia|]. split; [done|]. split; [done|]. split; [done|].
  by exists s'.
Qed.

Lemma rounded_down_mono a b q : 0 < q -> 0 <= a <= b -> a - a / q <= b - b / q.
Proof.
  intros Hq Hab. pose proof (Z.div_mod a q ltac:(lia)). pose proof (Z.div_mod b q ltac:(lia)).
  pose proof (Z.mod_pos_bound a q ltac:(lia)). pose proof (Z.mod_pos_bound b q ltac:(lia)).
  pose proof (Z.div_le_mono a b q ltac:(lia) ltac:(lia)). nia.
Qed.

Lemma message_gas ctx msg commit cfg cfg_tx k k' res :
  ApplyMessageWithConfig ctx msg commit cfg cfg_tx k = (k', Ok res) -> 0 <= m_Gas msg < 2 ^ 63 ->
  FeeMarket.Params_Validate (FeeMarket.GetParams fm_legacy (fm_kv (rest k'))) = Ok tt ->
  exists intrinsic auth s out, runs ctx msg cfg cfg_tx k intrinsic auth s out /\
    let used := m_Gas msg - out_leftover out in
    let refunded := Z.min (refund s) (used / quotient ctx cfg) in
    intrinsic + auth <= used /\ 0 <= refunded /\
    res_GasUsed res = Z.max (m_Gas msg * GetMinGasMultiplier (rest k') / dec_one) (used - refunded) /\
    res_VmError res = default ""%string (out_err out) /\ res_Ret res = out_ret out /\
    intrinsic - intrinsic / quotient ctx cfg <= res_GasUsed res <= m_Gas msg.
Proof.
  intros H Hg Hv. pose proof (validated_multiplier _ Hv) as Hm.
  destruct (ApplyMessage_cases _ _ _ _ _ _ _ _ H) as [[Hn _]|(ig & auth & s & out & Hr & Hs)]; [by destruct (Hn res)|].
  exists ig, auth, s, out. split; [done|]. cbv zeta. destruct (runs_gas _ _ _ _ _ _ _ _ _ Hr) as (Hi0 & Ha0 & Hleft & Href).
  destruct (settle_spec _ _ _ _ _ _ _ _ _ Hs Hg ltac:(lia) Href Hm) as (Hu & Hres & Hvm & Hret & _). rewrite GasToRefund_min in Hres.
  set (q := quotient ctx cfg) in *. pose proof (quotient_pos ctx cfg) as Hq. fold q in Hq.
  pose proof (Z.div_pos (m_Gas msg - out_leftover out) q ltac:(lia) Hq).
  split; [lia|]. split; [lia|]. split; [done|]. split; [done|]. split; [done|]. rewrite Hres.
  pose proof (share_bound (m_Gas msg) (GetMinGasMultiplier (rest k')) ltac:(lia) Hm).
  pose proof (rounded_down_mono ig (m_Gas msg - out_leftover out) q Hq ltac:(lia)). lia.
Qed.

(** C28: What a message is charged.  When [ApplyMessageWithConfig] succeeds under a
    validated fee market, the message ran as [runs] says: it paid the intrinsic gas
    and the authorizations, and the frame got the rest.  The gas used is all but what
    the frame gave back, less the refund counter of the state database at the end of
    the run, capped at a fifth of the consumption (a half before London), and at least
    the share of the gas limit that the fee market demands.  It is never above the gas
    limit and never below the intrinsic gas less that fifth or half. *)
Theorem message_gas_charged ctx msg commit cfg cfg_tx k k' res :
  ApplyMessageWithConfig ctx msg commit cfg cfg_tx k = (k', Ok res) -> 0 <= m_Gas msg < 2 ^ 63 ->
  FeeMarket.Params_Validate (FeeMarket.GetParams fm_legacy (fm_kv (rest k'))) = Ok tt ->
  exists intrinsic auth s out, runs ctx msg cfg cfg_tx k intrinsic auth s out /\
    let used := m_Gas msg - out_leftover out in
    let refunded := Z.min (refund s) (used / quotient ctx cfg) in
    intrinsic + auth <= used /\ 0 <= refunded /\
    res_GasUsed res = Z.max (m_Gas msg * GetMinGasMultiplier (rest k') / dec_one) (used - refunded) /\
    res_VmError res = default ""%string (out_err out) /\ res_Ret res = out_ret out /\
    intrinsic - intrinsic / quotient ctx cfg <= res_GasUsed res <= m_Gas msg.
Proof. apply message_gas. Qed.

End Charges.

(** * Transactions *)

Section Counters.

Lemma get_set_same (key : bytes) (n : Z) (t : tstore) : 0 <= n < 2 ^ 64 -> get_counter key (<[key := be8 n]> t) = n.
Proof.
  intros Hn. unfold get_counter. rewrite lookup_insert_eq. pose proof (length_be8 n) as Hl.
  destruct (be8 n) as [|b l] eqn:E; [done|]. rewrite <- E. by apply be8_roundtrip.
Qed.

Lemma get_set_other (key key' b : bytes) (t : tstore) : key' <> key -> get_counter key (<[key' := b]> t) = get_counter key t.
Proof. intros H. unfold get_counter. by rewrite lookup_insert_ne. Qed.

End Counters.

Section Transactions.
Context {X : Type} {BK : BankKeeper X} {BL : BankLaws X} {AK : AccountKeeper X} {MK : MintKeeper X} {FV : FeeMarketView X} {EHo : EvmHost X}
  {EH : EthHash} {FR : ForkRules} {CG : CoreGas} {HL : HexLib} {LD : LegacyDec} {EL : EvmLib (chain X)} {EG : EvmGasLaws}
  {Tx : Type} {ET : EthTransaction Tx} {TS : TxSigner Tx}.
Implicit Types k : chain X.
Implicit Types w : exec_state (X := X).

(** A transaction that succeeds, taken apart. *)
Record tx_applied (ctx : EvmCtx) (hooks : Hooks X) (tx : Tx) w w' (res : MsgEthereumTxResponse) (cfg : EVMConfig) (msg : Message) k1 (logs' : list Log) : Prop := mkTxApplied {
  ta_config : exists coinbase, GetCoinbaseAddress (rest (x_chain w)) = Some coinbase /\
    cfg = mkConfig (GetParams (x_chain w)) coinbase (EvmGas.GetBaseFee ctx (GetParams (x_chain w)) (rest (x_chain w))) [];
  ta_message : AsMessage (cfg_Params cfg) (ec_Height ctx) tx (cfg_BaseFee cfg) = Some msg;
  ta_scoped : exists bloom bloom0,
    run_scoped ctx hooks tx msg (with_auths ctx tx (x_chain w) cfg) (TxConfig_of ctx (tx_Hash tx) (x_transient w)) bloom0 (x_chain w)
      = (k1, Ok (res, logs', bloom));
  ta_refund : exists x', RefundGas (m_GasPrice msg) (m_From msg) (u64 (m_Gas msg - res_GasUsed res)) (EvmDenom (cfg_Params cfg)) (rest k1) = (x', Ok tt) /\
    x_chain w' = with_rest x' k1;
  ta_index : GetTxIndexTransient (x_transient w') = u64 (GetTxIndexTransient (x_transient w) + 1);
  ta_logs : GetLogSizeTransient (x_transient w') =
    if bool_decide (logs' = []) then GetLogSizeTransient (x_transient w)
    else u64 (GetLogSizeTransient (x_transient w) + Z.of_nat (length logs'));
  ta_total : let total := u64 (GetTransientGasUsed (x_transient w) + res_GasUsed res) in
    res_GasUsed res <= total /\ GetTransientGasUsed (x_transient w') = total /\ x_meter w' = mkMeter total (limit (x_meter w))
}.

Lemma reset_meter g gas g' : ResetGasMeterAndConsumeGas gas g = (g', Ok tt) -> 0 <= gas < 2 ^ 64 -> g' = mkMeter gas (limit g).
Proof.
  unfold ResetGasMeterAndConsumeGas, RefundMeter, ConsumeGas, addUint64Overflow. go_unfold. rewrite Z.ltb_irrefl, Z.sub_diag.
  cbn [consumed limit]. intros H Hg. destruct (_ <? gas); [done|]. injection H as <-. by rewrite Z.add_0_l, wrapU_small.
Qed.

Lemma u64_range x : 0 <= u64 x < 2 ^ 64.
Proof. apply wrapU_range. lia. Qed.

Lemma EVMConfig_spec ctx k k' r : EVMConfig_of ctx k = (k', r) -> k' = k /\
  (forall cfg, r = Ok cfg -> exists coinbase, GetCoinbaseAddress (rest k) = Some coinbase /\
     cfg = mkConfig (GetParams k) coinbase (EvmGas.GetBaseFee ctx (GetParams k) (rest k)) []).
Proof.
  unfold EVMConfig_of. go_unfold. destruct (GetCoinbaseAddress (rest k)) as [c|]; intros [= <- <-]; (split; [done|]); [|done].
  intros cfg [= <-]. by exists c.
Qed.

Lemma with_auths_params ctx tx k cfg : cfg_Params (with_auths ctx tx k cfg) = cfg_Params cfg.
Proof. unfold with_auths. by destruct (_ && _). Qed.

(** The counters after a transaction. *)
Lemma counters_after (ctx : EvmCtx) (t : tstore) (logs' : list Log) (bloom total : Z) :
  0 <= total < 2 ^ 64 ->
  let t1 := if bool_decide (logs' = []) then t
            else SetLogSizeTransient (u64 (GetLogSizeTransient t + Z.of_nat (length logs'))) (SetBlockBloomTransient ctx bloom t) in
  let t2 := SetTxIndexTransient (u64 (GetTxIndexTransient t + 1)) t1 in
  GetTransientGasUsed t2 = GetTransientGasUsed t /\
  let t3 := SetTransientGasUsed total t2 in
  GetTxIndexTransient t3 = u64 (GetTxIndexTransient t + 1) /\
  GetLogSizeTransient t3 = (if bool_decide (logs' = []) then GetLogSizeTransient t else u64 (GetLogSizeTransient t + Z.of_nat (length logs'))) /\
  GetTransientGasUsed t3 = total.
Proof.
  intros Ht. cbv zeta. unfold SetLogSizeTransient, SetBlockBloomTransient, SetTxIndexTransient, SetTransientGasUsed,
    GetTransientGasUsed, GetTxIndexTransient, GetLogSizeTransient.
  repeat split; repeat first [rewrite get_set_same by (done || apply u64_range)|rewrite get_set_other by done]; try done;
    case_bool_decide; repeat first [rewrite get_set_same by (done || apply u64_range)|rewrite get_set_other by done]; done.
Qed.

Lemma ApplyTransaction_applied ctx hooks tx w w' res :
  ApplyTransaction ctx hooks tx w = (w', Ok res) -> exists cfg msg k1 logs', tx_applied ctx hooks tx w w' res cfg msg k1 logs'.
Proof.
  intros H. unfold ApplyTransaction in H. go_unfold. unfold on_chain at 1 in H.
  destruct (EVMConfig_of ctx (x_chain w)) as [k0 r0] eqn:Ec. destruct (EVMConfig_spec _ _ _ _ Ec) as [-> Hcfg].
  destruct r0 as [cfg| |]; [|done..]. specialize (Hcfg cfg eq_refl). cbn [x_chain x_transient x_meter] in H.
  destruct (AsMessage _ _ _ _) as [msg|] eqn:Em; [|done]. unfold on_chain in H. cbn [x_chain x_transient x_meter] in H.
  set (bloom0 := GetBlockBloomTransient ctx (x_transient w)) in *.
  destruct (run_scoped _ _ _ _ _ _ bloom0 _) as [k1 [[[res' logs'] bloom]| |]] eqn:Er; [| |done].
  2:{ destruct (on_meter _ _) as [w2 [[]| |]] in H; done. }
  exists cfg, msg, k1, logs'. unfold on_rest, on_chain in H. cbn [x_chain x_transient x_meter] in H.
  destruct (RefundGas _ _ _ _ _) as [x' [[]| |]] eqn:Erf; [|done..]. unfold on_transient in H. cbn [x_chain x_transient x_meter] in H.
  pose proof (counters_after ctx (x_transient w) logs' bloom (u64 (GetTransientGasUsed (x_transient w) + res_GasUsed res')) (u64_range _)) as Hc.
  cbv zeta in Hc. unfold AddTransientGasUsed in H. go_unfold. unfold TxConfig_of in H. cbn [LogIndex TxIndex] in H.
  destruct (bool_decide (logs' = [])) eqn:Eb; cbn [x_chain x_transient x_meter] in H; destruct Hc as (Hg & Hi & Hl & Ht); rewrite Hg in H.
  all: destruct (Z.ltb_spec (u64 (GetTransientGasUsed (x_transient w) + res_GasUsed res')) (res_GasUsed res')); [done|].
  all: unfold on_meter in H; cbn [x_chain x_transient x_meter] in H; destruct (ResetGasMeterAndConsumeGas _ _) as [g [[]| |]] eqn:Em2; [|done..].
  all: apply reset_meter in Em2; [|apply u64_range]; injection H as <- <-.
  all: split; [done|exact Em|by eexists _, _|exists x'; split; [by rewrite <- (with_auths_params ctx tx (x_chain w))|done]|exact Hi|by rewrite Eb; exact Hl|].
  all: cbv zeta; cbn [x_meter x_transient]; split; [done|]; split; [exact Ht|exact Em2].
Qed.

(** The receipt that the hooks get of a message that ran to [res]. *)
Record receipt_of (tx : Tx) (msg : Message) (hash : bytes) (res : MsgEthereumTxResponse) (rc : Receipt) : Prop := mkReceiptOf {
  ro_type : rc_Type rc = tx_Type tx;
  ro_logs : rc_Logs rc = res_Logs res;
  ro_hash : rc_TxHash rc = hash;
  ro_contract : rc_ContractAddress rc = match m_To msg with None => Some (CreateAddress (m_From msg) (m_Nonce msg)) | Some _ => None end;
  ro_gas : rc_GasUsed rc = res_GasUsed res;
  ro_status : rc_Status rc = negb (Failed res)
}.

(** The chain after the message and the hooks: with hooks, a transaction that is
    reported as failed leaves it as it was; else it is what the hooks made of what the
    message made of it. *)
Definition scoped (hooks : Hooks X) (tx : Tx) (msg : Message) (hash : bytes) (res0 res : MsgEthereumTxResponse) k k' k1 : Prop :=
  match hooks with
  | None => k1 = k'
  | Some hook =>
    if Failed res then k1 = k
    else exists rc logs', receipt_of tx msg hash res0 rc /\ hook msg rc k' = (k1, (logs', None))
  end.

Lemma run_scoped_spec ctx hooks tx msg cfg cfg_tx bloom0 k k1 res logs' bloom :
  run_scoped ctx hooks tx msg cfg cfg_tx bloom0 k = (k1, Ok (res, logs', bloom)) ->
  exists k' res0, ApplyMessageWithConfig ctx msg true cfg cfg_tx k = (k', Ok res0) /\ res_GasUsed res = res_GasUsed res0 /\
    scoped hooks tx msg (TxHash cfg_tx) res0 res k k' k1.
Proof.
  unfold run_scoped, scoped. destruct (ApplyMessageWithConfig _ _ _ _ _ _) as [k' [res0| |]]; [|done..]. intros H. exists k', res0. split; [done|].
  destruct hooks as [hook|]; [|by injection H as <- <- <- <-]. destruct (Failed res0) eqn:Ef.
  - injection H as <- <- <- <-. by rewrite Ef.
  - destruct (hook _ _ _) as [k2 [l [e|]]] eqn:Eh; injection H as <- <- <- <-; (split; [done|]); [done|].
    unfold Failed in *. cbn [res_VmError]. rewrite Ef. eexists _, _. split; [|exact Eh].
    split; cbn; try done. unfold Failed. by rewrite Ef.
Qed.

(** A refund of [n] from the fee collector. *)
Lemma RefundGas_spec price from left denom x x' : RefundGas price from left denom x = (x', Ok tt) ->
  0 <= left * price /\ forall a d, Ledger.GetBalance x' a d = Ledger.GetBalance x a d
    - (if decide (a = GetModuleAddress FeeCollectorName /\ d = denom) then left * price else 0)
    + (if decide (a = from /\ d = denom) then left * price else 0).
Proof.
  unfold RefundGas. destruct (Z.ltb_spec (left * price) 0); [done|]. destruct (Z.eqb_spec (left * price) 0) as [E|E].
  - intros [= <-]. rewrite E. split; [lia|]. intros a d. repeat case_decide; lia.
  - destruct (bitlen_le _ _); [|done]. cbn [negb]. destruct (SendCoinsFromModuleToAccount _ _ _ _) as [x1 [e|]] eqn:Es; [done|].
    intros [= <-]. apply module_to_account_ok in Es as [_ Hs]; [|lia]. split; [lia|done].
Qed.

End Transactions.


(** Gas paid and gas refunded: the fee taken before a transaction and the refund after
    it, together. *)

(** What the SDK documents of [DeductFees]: the coins go to the fee collector. *)
Class FeeDeductionLaws (X : Type) {BK : BankKeeper X} {FD : FeeDeduction X} := {
  deduct_ok : forall x acc d n x', 0 < n -> DeductFees x acc [(d, n)] = (x', None) ->
    sent x x' (acct_address acc) (GetModuleAddress FeeCollectorName) d n;
  deduct_nothing : forall x acc x', DeductFees x acc [] = (x', None) -> same_balances x x';
  deduct_err : forall x acc fees x' e, DeductFees x acc fees = (x', Some e) -> x' = x
}.

(** What go-ethereum documents of [AsMessage]: under a base fee the price is the
    effective one; the rest is copied. *)
Class SignerLaws (Tx : Type) {ET : EthTransaction Tx} {TS : TxSigner Tx} := {
  as_message : forall p h tx b msg, AsMessage p h tx (Some b) = Some msg ->
    m_Gas msg = tx_Gas tx /\ m_GasPrice msg = Z.min (tx_GasTipCap tx + b) (tx_GasFeeCap tx) /\
    m_Value msg = tx_Value tx /\ m_Nonce msg = tx_Nonce tx /\ m_To msg = tx_To tx /\ m_GasFeeCap msg = tx_GasFeeCap tx
}.

(** What [a] gains when [n] coins of denomination [d] go from [src] to [dst]. *)
Definition flow (src dst : bytes) (d : string) (n : Z) (a : bytes) (d' : string) : Z :=
  (if decide (a = dst /\ d' = d) then n else 0) - (if decide (a = src /\ d' = d) then n else 0).

Lemma flow_back src dst d n m a d' : flow src dst d n a d' + flow dst src d m a d' = flow src dst d (n - m) a d'.
Proof. unfold flow. repeat case_decide; lia. Qed.

Section Fees.
Context {X : Type} {BK : BankKeeper X} {BL : BankLaws X} {AK : AccountKeeper X} {MK : MintKeeper X} {EH : EthHash} {EC : EvmChainLaws X}
  {FD : FeeDeduction X} {FDL : FeeDeductionLaws X} {FV : FeeMarketView X} {FMV : FeeMarketValid X} {EHo : EvmHost X}
  {FR : ForkRules} {CG : CoreGas} {HL : HexLib} {LD : LegacyDec} {EL : EvmLib (chain X)} {EG : EvmGasLaws}
  {Tx : Type} {ET : EthTransaction Tx} {ETL : EthTransactionLaws Tx} {TS : TxSigner Tx} {TSL : SignerLaws Tx}.

(** The fee of a validated transaction: the gas limit at the effective price. *)
Lemma VerifyFee_spec t denom base h i c fees : Validate t = None -> 0 <= base -> 0 <= GetGas t ->
  VerifyFee t denom (Some base) h i c = Ok fees ->
  exists tip cap, GetGasTipCap t = Some tip /\ GetGasFeeCap t = Some cap /\
    let p := Z.min (tip + base) cap in
    tx_EffectiveGasPrice t (Some base) = Some p /\ base <= p <= cap /\
    ((fees = [] /\ p * GetGas t = 0) \/ (fees = [(denom, p * GetGas t)] /\ 0 < p * GetGas t)).
Proof.
  intros Hv Hb Hg H. destruct (validated_price t base Hv Hb) as (tip & cap & Ht & Hc & He & Hf & Hp & Hbp).
  exists tip, cap. split; [done|]. split; [done|]. cbv zeta in *. unfold VerifyFee in H.
  destruct (IntrinsicGas _ _ _ _ _) as [ig|]; [|done]. destruct (c && _); [done|]. rewrite Hc in H.
  destruct (Z.ltb_spec cap base); [done|]. rewrite Hf in H. split; [done|]. split; [lia|].
  destruct (Z.eqb_spec (Z.min (tip + base) cap * GetGas t) 0) as [E|E]; [injection H as <-; by left|].
  unfold NewIntFromBigInt in H. destruct (bitlen_le _ _); [|done]. injection H as <-. right. split; [done|]. nia.
Qed.

Lemma deduct_spec fees from x x' denom n : DeductTxCostsFromUserBalance fees from x = (x', Ok tt) ->
  (fees = [] /\ n = 0) \/ (fees = [(denom, n)] /\ 0 < n) ->
  forall a d, Ledger.GetBalance x' a d = Ledger.GetBalance x a d + flow from (GetModuleAddress FeeCollectorName) denom n a d.
Proof.
  unfold DeductTxCostsFromUserBalance. destruct (ak_GetAccount x from) as [acc|] eqn:Ea; [|done].
  destruct (DeductFees x acc fees) as [x1 [e|]] eqn:Ed; [done|]. intros [= <-] [[-> ->]|[-> Hn]] a d.
  - rewrite (deduct_nothing _ _ _ Ed). unfold flow. repeat case_decide; lia.
  - destruct (deduct_ok _ _ _ _ _ Hn Ed) as [_ Hs]. rewrite Hs, (account_address _ _ _ Ea). unfold flow. lia.
Qed.

(** What go-ethereum reads of a wrapped transaction. *)
Lemma wrapped_reads t : let tx := NewTx (Tx := Tx) (AsEthereumData t) in
  tx_Gas tx = GetGas t /\ tx_GasTipCap tx = default 0 (GetGasTipCap t) /\ tx_GasFeeCap tx = default 0 (GetGasFeeCap t) /\
  tx_Nonce tx = GetNonce t /\ tx_Value tx = default 0 (GetValue t) /\ tx_To tx = GetTo t.
Proof.
  cbv zeta. pose proof (new_view (Tx := Tx) (AsEthereumData t)) as H. set (tx := NewTx _) in *.
  pose proof (f_equal vw_gas H). pose proof (f_equal vw_tip H). pose proof (f_equal vw_cap H). pose proof (f_equal vw_nonce H).
  pose proof (f_equal vw_value H). pose proof (f_equal vw_to H). clear H.
  unfold view in *. cbn [vw_gas vw_tip vw_cap vw_nonce vw_value vw_to] in *.
  destruct t; unfold AsEthereumData, rawSignatureValues in *; cbn -[GetTo] in *; done.
Qed.

(** C5: Gas is paid once.  A validated transaction whose fee was taken before its
    execution and that [ApplyTransaction] executes ran its message on the chain as it
    was after the fee, and uses the gas that the message used, at most its gas limit.
    If it is reported as failed, the message and the hooks have no effect; else the
    hooks have worked on what the message left.  From there every balance changes by
    one thing only: what the sender has paid in advance and does not owe comes back.
    Against the balances before the fee was taken, that is what the message and the
    hooks changed, and one payment of the gas used at the effective price from the
    sender to the fee collector. *)
Theorem gas_is_paid_once ctx hook t base fees h i c from x0 x1 w w' res :
  Validate t = None -> 0 <= base -> 0 <= GetGas t < 2 ^ 63 ->
  VerifyFee t (EvmDenom (GetParams (x_chain w))) (Some base) h i c = Ok fees ->
  DeductTxCostsFromUserBalance fees from x0 = (x1, Ok tt) ->
  same_balances x1 (rest (x_chain w)) ->
  EvmGas.GetBaseFee ctx (GetParams (x_chain w)) (rest (x_chain w)) = Some base ->
  (forall msg, AsMessage (GetParams (x_chain w)) (ec_Height ctx) (NewTx (Tx := Tx) (AsEthereumData t)) (Some base) = Some msg -> m_From msg = from) ->
  ApplyTransaction ctx (Some hook) (NewTx (Tx := Tx) (AsEthereumData t)) w = (w', Ok res) ->
  let tx := NewTx (Tx := Tx) (AsEthereumData t) in
  exists price coinbase msg k' res0 k1,
    tx_EffectiveGasPrice t (Some base) = Some price /\ base <= price /\
    GetCoinbaseAddress (rest (x_chain w)) = Some coinbase /\
    AsMessage (GetParams (x_chain w)) (ec_Height ctx) tx (Some base) = Some msg /\
    ApplyMessageWithConfig ctx msg true (with_auths ctx tx (x_chain w) (mkConfig (GetParams (x_chain w)) coinbase (Some base) []))
      (TxConfig_of ctx (tx_Hash tx) (x_transient w)) (x_chain w) = (k', Ok res0) /\
    res_GasUsed res = res_GasUsed res0 /\ 0 <= res_GasUsed res <= GetGas t /\
    scoped (Some hook) tx msg (tx_Hash tx) res0 res (x_chain w) k' k1 /\
    forall a d, Ledger.GetBalance (rest (x_chain w')) a d = Ledger.GetBalance x0 a d
      + (Ledger.GetBalance (rest k1) a d - Ledger.GetBalance (rest (x_chain w)) a d)
      + flow from (GetModuleAddress FeeCollectorName) (EvmDenom (GetParams (x_chain w))) (res_GasUsed res * price) a d.
Proof.
  intros Hv Hb Hg Hfee Hded Hsame Hbase Hfrom H. cbv zeta.
  destruct (VerifyFee_spec _ _ _ _ _ _ _ Hv Hb (proj1 Hg) Hfee) as (tip & cap & Htip & Hcap & Hp & Hpr & Hfees). cbv zeta in *.
  set (price := Z.min (tip + base) cap) in *.
  destruct (ApplyTransaction_applied _ _ _ _ _ _ H) as (cfg & msg & k1 & logs' & [(cb & Hcb & ->) Hmsg (bloom & bloom0 & Hsc) (x' & Hrf & Hch) _ _ _]).
  cbn [cfg_Params cfg_BaseFee] in *. rewrite Hbase in *. specialize (Hfrom msg Hmsg). destruct (wrapped_reads t) as (R1 & R2 & R3 & _).
  destruct (as_message _ _ _ _ _ Hmsg) as (M1 & M2 & _). rewrite R1 in M1. rewrite R2, R3, Htip, Hcap in M2. change (m_GasPrice msg = price) in M2.
  destruct (run_scoped_spec _ _ _ _ _ _ _ _ _ _ _ _ Hsc) as (k' & res0 & Hap & Hgas & Hfail).
  destruct (message_gas _ _ _ _ _ _ _ _ Hap ltac:(rewrite M1; lia) (fm_validated _)) as (ig & au & s & out & Hr & _ & _ & _ & _ & _ & Hlow & Hup).
  rewrite <- Hgas in *. destruct (runs_gas _ _ _ _ _ _ _ _ _ Hr) as (Hi0 & _).
  pose proof (quotient_pos ctx (with_auths ctx (NewTx (AsEthereumData t)) (x_chain w) (mkConfig (GetParams (x_chain w)) cb (Some base) []))) as Hq.
  pose proof (Z.div_le_upper_bound ig _ ig Hq ltac:(nia)). rewrite M1, M2, Hfrom in *.
  assert (0 <= res_GasUsed res <= GetGas t) as Hu by lia.
  exists price, cb, msg, k', res0, k1. split; [done|]. split; [by apply Hpr|]. do 6 (split; [done|]). intros a d.
  rewrite wrapU_small in Hrf by lia. destruct (RefundGas_spec _ _ _ _ _ _ Hrf) as [_ Hbal].
  rewrite Hch. cbn [rest with_rest]. rewrite Hbal, Hsame, (deduct_spec _ _ _ _ _ _ Hded Hfees).
  replace (res_GasUsed res * price) with (price * GetGas t - (GetGas t - res_GasUsed res) * price) by lia.
  rewrite <- flow_back. unfold flow. lia.
Qed.

End Fees.


(** [ApplyMessageWithConfig] over the state database: what a message writes to the
    chain. *)

Section Steps.
Context {X : Type} {BK : BankKeeper X} {AK : AccountKeeper X} {MK : MintKeeper X} {EH : EthHash}.
Abbreviation DB := (StateDB (chain X)).

(** An action of the state database that is a sequence of its operations. *)
Definition stepping (c : M DB Z unit) : Prop := forall s s', c s = (s', Ok tt) -> rtc tx_step s s'.

Lemma stepping_ret : stepping (ret tt).
Proof. intros s s' [= <-]. apply rtc_refl. Qed.

Lemma stepping_bind c1 c2 : stepping c1 -> stepping c2 -> stepping (c1 ;; c2).
Proof.
  intros H1 H2 s s'. go_unfold. destruct (c1 s) as [s1 [[]| |]] eqn:E; [|done..]. intros E2.
  etransitivity; [by apply H1|by apply H2].
Qed.

Lemma stepping_op o : op_ok o -> stepping (exec o).
Proof. intros Ho s s' H. apply rtc_once. by eapply tx_op. Qed.

Lemma stepping_AddAddress a : stepping (modify (AddAddressToAccessList a)).
Proof. exact (stepping_op (OAddAddress a) I). Qed.

Lemma steps_addresses al : forall s : DB, rtc tx_step s (foldl (fun s a => AddAddressToAccessList a s) s al).
Proof.
  induction al as [|a al IH]; intros s; [apply rtc_refl|]. cbn [foldl]. etransitivity; [|apply IH].
  by apply (stepping_AddAddress a).
Qed.

Lemma stepping_Prepare sender dst al l : stepping (PrepareAccessList sender dst al l).
Proof.
  unfold PrepareAccessList. apply stepping_bind; [apply stepping_AddAddress|]. apply stepping_bind.
  { destruct dst; [apply stepping_AddAddress|apply stepping_ret]. }
  apply stepping_bind. { intros s s' [= <-]. apply steps_addresses. }
  induction l as [|[a keys] l IH]; [apply stepping_ret|]. apply stepping_bind; [apply stepping_AddAddress|].
  apply stepping_bind; [|apply IH]. induction keys as [|key keys IHk]; [apply stepping_ret|].
  apply stepping_bind; [exact (stepping_op (OAddSlot a key) I)|apply IHk].
Qed.

(** Preparing the access list does not reach the keeper, whatever it returns. *)
Definition keeping (c : M DB Z unit) : Prop := forall s, keeper (c s).1 = keeper s.

Lemma keeping_bind c1 c2 : keeping c1 -> keeping c2 -> keeping (c1 ;; c2).
Proof.
  intros H1 H2 s. go_unfold. pose proof (H1 s) as E1. destruct (c1 s) as [s1 [[]| |]]; [|done..]. cbn [fst] in E1.
  rewrite <- E1. apply H2.
Qed.

Lemma keeper_append e (s : DB) : keeper (append e s) = keeper s.
Proof. unfold append. by destruct (Dirtied e). Qed.

Lemma keeper_AddAddress a (s : DB) : keeper (AddAddressToAccessList a s) = keeper s.
Proof. unfold AddAddressToAccessList. destruct (AddAddress _ _) as [al [|]]; [by rewrite keeper_append|done]. Qed.

Lemma keeping_AddSlot a slot : keeping (AddSlotToAccessList a slot).
Proof.
  intros s. unfold AddSlotToAccessList. destruct (AddSlot _ _ _) as [[[al [|]] [|]]|]; cbn [fst]; rewrite ?keeper_append; done.
Qed.

Lemma keeping_Prepare sender dst al l : keeping (PrepareAccessList sender dst al l).
Proof.
  assert (forall a, keeping (modify (AddAddressToAccessList a))) as Ha by (intros a s; apply keeper_AddAddress).
  unfold PrepareAccessList. apply keeping_bind; [apply Ha|]. apply keeping_bind; [by destruct dst; [apply Ha|]|].
  apply keeping_bind.
  { intros s. cbn. revert s. induction al as [|a al IH]; intros s; [done|]. cbn [foldl]. by rewrite IH, keeper_AddAddress. }
  induction l as [|[a keys] l IH]; [done|]. apply keeping_bind; [apply Ha|]. apply keeping_bind; [|apply IH].
  induction keys as [|key keys IHk]; [done|]. apply keeping_bind; [apply keeping_AddSlot|apply IHk].
Qed.

Lemma step_SetNonce a n (s : DB) : length a = 20%nat -> rtc tx_step s (StateDB.SetNonce a n s).
Proof. intros Ha. by apply (stepping_op (OSetNonce a n) Ha). Qed.

End Steps.

Section State.
Context {X : Type} {BK : BankKeeper X} {BL : BankLaws X} {AK : AccountKeeper X} {MK : MintKeeper X} {EH : EthHash} {EC : EvmChainLaws X}
  {FV : FeeMarketView X} {EHo : EvmHost X} {FR : ForkRules} {CG : CoreGas} {HL : HexLib} {LD : LegacyDec} {EL : EvmLib (chain X)}
  {EP : EvmPure} {EG : EvmGasLaws} {FMV : FeeMarketValid X}.
Implicit Types k : chain X.

Lemma keeper_steps k cfg_tx s : evm_valid k -> rtc tx_step (New k cfg_tx) s -> keeper s = k.
Proof.
  intros Hv Hr. destruct (New_ok (KL := evm_laws) k cfg_tx Hv) as [Hwf0 Hg0]. destruct (tx_keeps (KL := evm_laws) k _ _ Hv Hr Hwf0 Hg0) as [_ Hg].
  exact (kept_keeper _ _ _ Hg).
Qed.

Lemma steps_auths cfg s g : rtc tx_step s (apply_auths cfg s g).1.
Proof.
  unfold apply_auths. destruct (cfg_SetCodeAuthList cfg) as [|a l]; [apply rtc_refl|].
  pose proof (auth_steps (a :: l) s) as H. by destruct (ApplyAuthorizations _ s).
Qed.

Lemma steps_prepared ctx msg cfg cfg_tx k al s r : prepared ctx msg cfg cfg_tx k al = (s, r) ->
  keeper s = k /\ (r = Ok tt -> rtc tx_step (New k cfg_tx) s).
Proof.
  unfold prepared. destruct (IsBerlin _ _); [|intros [= <- _]; split; [done|by intros _]].
  intros H. split; [|intros ->; by eapply stepping_Prepare].
  pose proof (keeping_Prepare (m_From msg) (m_To msg) al (m_AccessList msg) (New k cfg_tx)) as E. by rewrite H in E.
Qed.

Lemma runs_steps ctx msg cfg cfg_tx k i a s out : length (m_From msg) = 20%nat -> runs ctx msg cfg cfg_tx k i a s out ->
  rtc tx_step (New k cfg_tx) s.
Proof.
  intros Hl [_ _ (al & s1 & s2 & _ & Hp & Ha & Hf)]. transitivity s1; [by eapply steps_prepared|]. transitivity s2.
  { destruct (cfg_SetCodeAuthList cfg) as [|x l]; [destruct Ha as [-> _]; apply rtc_refl|].
    pose proof (auth_steps (x :: l) s1) as H. by rewrite Ha in H. }
  destruct (m_To msg).
  - pose proof (call_steps ctx cfg msg (m_Gas msg - i - a) s2) as H. by rewrite Hf in H.
  - destruct Hf as (s3 & Hf & ->). transitivity s3; [|by apply step_SetNonce].
    pose proof (create_steps ctx cfg msg (m_Gas msg - i - a) (StateDB.SetNonce (m_From msg) (m_Nonce msg) s2)) as H.
    rewrite Hf in H. etransitivity; [by apply step_SetNonce|exact H].
Qed.

(** The result of the last part of a message, without and with a commit. *)
Lemma settle_state ctx cfg msg commit cfg_tx s out k' r :
  settle_message ctx cfg msg commit cfg_tx s out = (k', r) ->
  0 <= m_Gas msg < 2 ^ 63 -> 0 <= out_leftover out <= m_Gas msg -> 0 <= refund s ->
  if commit then k' = keeper (StateDB.Commit s).1 /\
    match (StateDB.Commit s).2 with Ok _ => exists res, r = Ok res | Err c => r = Err (StateError c) | Panic => r = Panic end
  else k' = keeper s.
Proof.
  intros H Hg Hl Hr. unfold settle_message in H. change (if IsLondon _ _ then _ else _) with (quotient ctx cfg) in H. destruct (Z.ltb_spec (m_Gas msg) (out_leftover out)); [lia|].
  pose proof (refund_bound (refund s) (m_Gas msg - out_leftover out) (quotient ctx cfg) Hr ltac:(lia) (quotient_pos ctx cfg)) as Hb.
  destruct commit.
  - destruct (StateDB.Commit s) as [s' [[]|c|]]; cbn [fst snd]; [|by injection H as <- <-..].
    rewrite wrapU_small in H by lia. rewrite charged_gas_spec in H by (lia || apply validated_multiplier, fm_validated).
    injection H as <- <-. split; [done|]. by eexists.
  - destruct (charged_gas _ _ _ _); by injection H as <- <-.
Qed.

(** The state database a message ends with, if it comes to a commit. *)
Lemma message_state ctx msg commit cfg cfg_tx k k' r :
  evm_valid k -> length (m_From msg) = 20%nat -> 0 <= m_Gas msg < 2 ^ 63 ->
  ApplyMessageWithConfig ctx msg commit cfg cfg_tx k = (k', r) ->
  (k' = k /\ (commit = true -> forall res, r <> Ok res)) \/
  (commit = true /\ exists i a s out, runs ctx msg cfg cfg_tx k i a s out /\ k' = keeper (StateDB.Commit s).1 /\
    match (StateDB.Commit s).2 with Ok _ => exists res, r = Ok res | Err c => r = Err (StateError c) | Panic => r = Panic end).
Proof.
  intros Hv Ha Hgas H. destruct (ApplyMessage_cases _ _ _ _ _ _ _ _ H) as [[Hn Hk]|(i & a & s & out & Hr & Hs)].
  - left. split; [|done]. destruct Hk as [->|(al & s1 & r1 & Hp & Hk)]; [done|]. destruct (steps_prepared _ _ _ _ _ _ _ _ Hp) as [Hk1 Hs1].
    destruct Hk as [->|(-> & g & ->)]; [done|]. apply (keeper_steps k cfg_tx); [done|].
    etransitivity; [by apply Hs1|apply steps_auths].
  - pose proof (runs_steps _ _ _ _ _ _ _ _ _ Ha Hr) as Hst. destruct (runs_gas _ _ _ _ _ _ _ _ _ Hr) as (? & ? & ? & ?).
    pose proof (settle_state _ _ _ _ _ _ _ _ _ Hs Hgas ltac:(lia) ltac:(done)) as He. destruct commit.
    + right. split; [done|]. exists i, a, s, out. by destruct He.
    + left. rewrite He. split; [by apply (keeper_steps k cfg_tx)|done].
Qed.

(** C13: What a message writes.  Over a valid keeper, with an interpreter that reaches
    the chain through the state database only, a message that is only simulated changes
    nothing.  A message that is committed and succeeds leaves a valid keeper that has
    lost no code and holds every account as the state database showed it at the end of
    the run of the message: the access list, the authorizations and the frame, on a
    fresh state database over the keeper.  A message that fails leaves the keeper as it
    was, unless the keeper refused to write an account that the run has left dirty. *)
Theorem message_persists ctx msg commit cfg cfg_tx k k' r :
  evm_valid k -> length (m_From msg) = 20%nat -> 0 <= m_Gas msg < 2 ^ 63 ->
  ApplyMessageWithConfig ctx msg commit cfg cfg_tx k = (k', r) ->
  (commit = false -> k' = k) /\
  match r with
  | Ok _ => commit = true -> exists i a s out, runs ctx msg cfg cfg_tx k i a s out /\
      evm_valid k' /\ code_kept k k' /\ forall b, length b = 20%nat -> persisted s k' b
  | Err e => k' = k \/ exists c i a s out, e = StateError c /\ runs ctx msg cfg cfg_tx k i a s out /\ refused s c
  | Panic => k' = k
  end.
Proof.
  intros Hv Ha Hg H. destruct (message_state _ _ _ _ _ _ _ _ Hv Ha Hg H) as [[-> Hn]|(-> & i & a & s & out & Hrun & -> & Hr)].
  - split; [done|]. destruct r as [res| |]; [|by left|done]. intros Hc. by destruct (Hn Hc res).
  - split; [done|]. pose proof (commit_persists_reads (KL := evm_laws) k cfg_tx s Hv (runs_steps _ _ _ _ _ _ _ _ _ Ha Hrun)) as Hc.
    destruct (StateDB.Commit s) as [s' [u|c|]]; cbn [fst snd] in *; [|subst r; right; by exists c, i, a, s, out|done].
    destruct Hr as [res ->]. intros _. by exists i, a, s, out.
Qed.

End State.
