(* ===== verification/EvmAnte.v ===== *)
(** [app/ante/evm]: the checks an Ethereum transaction passes before it is executed.

    The decorators of [eth.go], [fees.go], [fee_market.go], [setup_ctx.go],
    [sigverify.go], [setcode_tx.go] and [app/ante/utils/claim_rewards.go] as actions,
    run in the order of [newEVMAnteHandler] ([app/ante/handler_options.go]).  The
    decorator of [vesting.go] is [Vesting.AnteHandle].  The staking and distribution
    keepers are parameters. *)

From stdpp Require Import base list gmap strings.
From Stdlib Require Import ZArith Lia.
From S2P Require Import Prelude KVStore BigInt Ledger Coins VestingSchedule Vesting FeeMarket StateDB EvmKeeper EvmTx EvmGas EvmApply.
Open Scope Z_scope.
Open Scope go_scope.

(** * Data *)

(** A Cosmos transaction: what the decorators read of it.  A message that is not a
    [MsgEthereumTx] is [None]. *)
Record CosmosTx := mkCosmosTx {
  ct_msgs : list (option MsgEthereumTx);
  ct_ValidateBasic : option Z;
  ct_Memo : string; ct_TimeoutHeight : Z; ct_NonCritical : nat; ct_ExtensionOptions : nat;
  ct_SignerInfos : nat; ct_FeePayer : string; ct_FeeGranter : string; ct_Signatures : nat;
  ct_FeeAmount : list (string * Z); ct_GasLimit : Z }.

Inductive ante_event :=
| EventFee (fees : list (string * Z))
| EventEthereumTx (hash : string) (index : Z).

(** The stores, what the handlers change of the context, and the messages, whose
    senders are filled in. *)
Record ante_state (X : Type) := mkAnte {
  an_chain : chain X; an_transient : tstore; an_meter : option GasMeter; an_priority : Z;
  an_gasWanted : option Z; an_events : list ante_event; an_msgs : list (option MsgEthereumTx) }.
Arguments mkAnte {X} _ _ _ _ _ _ _.
Arguments an_chain {X} _.
Arguments an_transient {X} _.
Arguments an_meter {X} _.
Arguments an_priority {X} _.
Arguments an_gasWanted {X} _.
Arguments an_events {X} _.
Arguments an_msgs {X} _.

(** [ErrNoSignatures] of the SDK. *)
Definition ErrNoSignatures : Z := 15.

(** What the claim of staking rewards calls. *)
Class AnteHost (X : Type) := {
  BondDenom : X -> string;
  Delegations : X -> bytes -> list bytes;
  WithdrawDelegationRewards : X -> bytes -> bytes -> X * result Z (list (string * Z))
}.

(** Sender of a transaction by its signature. *)
Class SenderLib (Tx : Type) := { Sender : Params -> Z -> Tx -> option bytes }.

Section Ante.
Context {X : Type} {BK : BankKeeper X} {AK : AccountKeeper X} {MK : MintKeeper X} {FD : FeeDeduction X} {FV : FeeMarketView X} {AH : AnteHost X}
  {EH : EthHash} {FR : ForkRules} {CG : CoreGas} {HL : HexLib} {LD : LegacyDec}
  {Tx : Type} {ET : EthTransaction Tx} {TS : TxSigner Tx} {SL : SenderLib Tx}
  {VC : Type} {CO : CoinOps VC} {PO : PeriodsOps VC} {VD : VestingDeps VC X}.
Implicit Types k : chain X.

Abbreviation handler := (M (ante_state X) evmerror unit).

Definition with_chain k (w : ante_state X) : ante_state X :=
  mkAnte k (an_transient w) (an_meter w) (an_priority w) (an_gasWanted w) (an_events w) (an_msgs w).

Definition rest_of (w : ante_state X) : X := rest (an_chain w).

(** An action on the rest of the chain. *)
Definition ante_rest {A} (c : M X evmerror A) : M (ante_state X) evmerror A :=
  fun w => let '(x, r) := c (rest_of w) in (with_chain (with_rest x (an_chain w)) w, r).

Definition base_fee (ctx : EvmCtx) (w : ante_state X) : option Z :=
  EvmGas.GetBaseFee ctx (GetParams (an_chain w)) (rest_of w).

(** The loop over the messages; the body gets the unpacked data. *)
Fixpoint for_msgs (f : MsgEthereumTx -> TxData -> handler) (msgs : list (option MsgEthereumTx)) : handler :=
  match msgs with
  | [] => ret tt
  | None :: _ => fail ErrUnknownRequest
  | Some m :: msgs =>
    match msg_Data m with
    | None => fail (TxError ErrWrongType)
    | Some t => f m t ;; for_msgs f msgs
    end
  end.

Definition each_msg (f : MsgEthereumTx -> TxData -> handler) : handler :=
  let! msgs := gets an_msgs in for_msgs f msgs.

(** * [setup_ctx.go] *)

Definition EthSetupContext : handler :=
  modify (fun w => mkAnte (an_chain w) (ResetTransientGasUsed (an_transient w)) None (an_priority w) (an_gasWanted w) (an_events w) (an_msgs w)).

(** The checks on the envelope, whose fields no signature covers. *)
Definition check_envelope (tx : CosmosTx) : option evmerror :=
  if negb (bool_decide (ct_Memo tx = ""%string)) || negb (ct_TimeoutHeight tx =? 0) || negb (Nat.eqb (ct_NonCritical tx) 0)
  then Some (TxError ErrInvalidRequest)
  else if negb (Nat.eqb (ct_ExtensionOptions tx) 1) then Some (TxError ErrInvalidRequest)
  else if negb (Nat.eqb (ct_SignerInfos tx) 0) then Some (TxError ErrInvalidRequest)
  else if negb (bool_decide (ct_FeePayer tx = ""%string)) || negb (bool_decide (ct_FeeGranter tx = ""%string))
  then Some (TxError ErrInvalidRequest)
  else if negb (Nat.eqb (ct_Signatures tx) 0) then Some (TxError ErrInvalidRequest)
  else None.

(** The sums over the messages: the fee, an [sdkmath.Int], and the gas, a [uint64]. *)
Fixpoint sum_msgs (p : Params) (baseFee : option Z) (msgs : list (option MsgEthereumTx)) (txFee txGasLimit : Z) : result evmerror (Z * Z) :=
  match msgs with
  | [] => Ok (txFee, txGasLimit)
  | None :: _ => Err ErrUnknownRequest
  | Some m :: msgs =>
    if negb (bool_decide (msg_From m = ""%string)) then Err (TxError ErrInvalidRequest)
    else
      let txGasLimit := u64 (txGasLimit + msg_GetGas m) in
      match msg_Data m with
      | None => Err (TxError ErrWrongType)
      | Some t =>
        let creation := bool_decide (GetTo t = None) in
        if negb (EnableCreate p) && creation then Err ErrCreateDisabled
        else if negb (EnableCall p) && negb creation then Err ErrCallDisabled
        else if bool_decide (baseFee = None) && (TxType t =? 2) then Err ErrTxTypeNotSupported
        else
          match Fee t with
          | None => Panic
          | Some fee =>
            if bitlen_le fee 256 && bitlen_le (txFee + fee) 256
            then sum_msgs p baseFee msgs (txFee + fee) txGasLimit else Panic
          end
      end
  end.

Definition EthValidateBasic (ctx : EvmCtx) (tx : CosmosTx) : handler :=
  if ec_IsReCheckTx ctx then ret tt
  else
    match ct_ValidateBasic tx with
    | Some e => if e =? ErrNoSignatures then ret tt else fail (BankError e)
    | None => ret tt
    end ;;
    match check_envelope tx with Some e => fail e | None => ret tt end ;;
    let! p := gets (fun w => GetParams (an_chain w)) in
    let! baseFee := gets (base_fee ctx) in
    let! msgs := gets an_msgs in
    match sum_msgs p baseFee msgs 0 0 with
    | Err e => fail e
    | Panic => panic
    | Ok (txFee, txGasLimit) =>
      guard (bool_decide (ct_FeeAmount tx = if txFee =? 0 then [] else [(EvmDenom p, txFee)])) (TxError ErrInvalidRequest) ;;
      guard (ct_GasLimit tx =? txGasLimit) (TxError ErrInvalidRequest)
    end.

Fixpoint emit_loop (i : Z) (msgs : list (option MsgEthereumTx)) : handler :=
  match msgs with
  | [] => ret tt
  | None :: _ => fail ErrUnknownRequest
  | Some m :: msgs =>
    modify (fun w => mkAnte (an_chain w) (an_transient w) (an_meter w) (an_priority w) (an_gasWanted w)
      (an_events w ++ [EventEthereumTx (msg_Hash m) i]) (an_msgs w)) ;;
    emit_loop (u64 (i + 1)) msgs
  end.

Definition EthEmitEvent : handler :=
  let! txIndex := gets (fun w => GetTxIndexTransient (an_transient w)) in
  let! msgs := gets an_msgs in
  emit_loop txIndex msgs.

(** * [fees.go] *)

(** Decimals are integers scaled by [dec_one]. *)
Definition fee_covers (fee minGasPrice gas : Z) : bool := negb (fee * dec_one <? dec_mul minGasPrice (gas * dec_one)).

Definition EthMinGasPrice (ctx : EvmCtx) : handler :=
  let! minGasPrice := gets (fun w => default 0 (FeeMarket.MinGasPrice (FeeMarket.GetParams fm_legacy (fm_kv (rest_of w))))) in
  if minGasPrice =? 0 then ret tt
  else
    let! baseFee := gets (base_fee ctx) in
    each_msg (fun m t =>
      match (if negb (TxType t =? 0) then GetEffectiveFee m baseFee else GetFee m) with
      | None => panic
      | Some feeAmt => guard (fee_covers feeAmt minGasPrice (msg_GetGas m)) ErrInsufficientFee
      end).

Definition amount_of (coins : list (string * Z)) (d : string) : Z :=
  match list_find (fun c => c.1 = d) coins with Some (_, c) => c.2 | None => 0 end.

(** Here the data is not unpacked first: a nil fee panics. *)
Fixpoint mempool_loop (minGasPrice : Z) (msgs : list (option MsgEthereumTx)) : handler :=
  match msgs with
  | [] => ret tt
  | None :: _ => fail ErrUnknownRequest
  | Some m :: msgs =>
    match GetFee m with
    | None => panic
    | Some fee => guard (fee_covers fee minGasPrice (msg_GetGas m)) ErrInsufficientFee ;; mempool_loop minGasPrice msgs
    end
  end.

Definition EthMempoolFee (ctx : EvmCtx) (simulate : bool) : handler :=
  if negb (ec_IsCheckTx ctx) || simulate then ret tt
  else
    let! baseFee := gets (base_fee ctx) in
    if bool_decide (is_Some baseFee) then ret tt
    else
      let! denom := gets (fun w => EvmDenom (GetParams (an_chain w))) in
      let! msgs := gets an_msgs in
      mempool_loop (amount_of (ec_MinGasPrices ctx) denom) msgs.

(** * [sigverify.go], [setcode_tx.go] *)

(** The sender recovered from the signature is written into the message. *)
Fixpoint recover_senders (p : Params) (height : Z) (msgs : list (option MsgEthereumTx)) : result evmerror (list (option MsgEthereumTx)) :=
  match msgs with
  | [] => Ok []
  | None :: _ => Err ErrUnknownRequest
  | Some m :: msgs =>
    match AsTransaction (Tx := Tx) m with
    | None => Panic
    | Some ethTx =>
      if negb (AllowUnprotectedTxs p) && negb (tx_Protected ethTx) then Err ErrNotSupported
      else
        match Sender p height ethTx with
        | None => Err ErrSigner
        | Some sender =>
          msgs ← recover_senders p height msgs;
          Ok (Some (mkMsgTx (msg_Data m) (msg_Size m) (msg_Hash m) (AddressHex sender)) :: msgs)
        end
    end
  end.

Definition with_msgs (msgs : list (option MsgEthereumTx)) (w : ante_state X) : ante_state X :=
  mkAnte (an_chain w) (an_transient w) (an_meter w) (an_priority w) (an_gasWanted w) (an_events w) msgs.

Definition EthSigVerification (ctx : EvmCtx) : handler :=
  let! p := gets (fun w => GetParams (an_chain w)) in
  let! msgs := gets an_msgs in
  match recover_senders p (ec_Height ctx) msgs with
  | Err e => fail e
  | Panic => panic
  | Ok msgs => modify (with_msgs msgs)
  end.

Definition EthSetCodeTx (ctx : EvmCtx) : handler :=
  each_msg (fun m t =>
    if negb (TxType t =? 4) then ret tt
    else
      let! enabled := gets (fun w => IsEIP7702Enabled (mkCtx (ec_Time ctx) (ec_Height ctx)) (an_chain w)) in
      guard enabled (TxError ErrInvalidRequest) ;;
      match Validate t with Some e => fail (TxError e) | None => ret tt end).

(** * [eth.go] *)

Definition IsContract (acct : Account) : bool := negb (bool_decide (CodeHash acct = Some emptyCodeHash)).

(** Lift a result without effects. *)
Definition lift {A} (r : result evmerror A) : M (ante_state X) evmerror A :=
  fun w => (w, r).

Definition verify_account (m : MsgEthereumTx) (t : TxData) : handler :=
  match GetFrom m with
  | None => fail (TxError ErrInvalidAddress)
  | Some from =>
    let! acct := gets (fun w => GetAccount (an_chain w) from) in
    match acct with
    | None =>
      modify (fun w => let '(x, acc) := ak_NewAccountWithAddress (rest_of w) from in
        with_chain (with_rest (ak_SetAccount x acc) (an_chain w)) w) ;;
      lift (CheckSenderBalance 0 t)
    | Some acct =>
      if IsContract acct then fail ErrInvalidType
      else lift (CheckSenderBalance (default 0 (Balance acct)) t)
    end
  end.

Definition EthAccountVerification (ctx : EvmCtx) : handler :=
  if negb (ec_IsCheckTx ctx) then ret tt else each_msg verify_account.

(** [core.CanTransfer] on a fresh state database. *)
Definition CanTransfer k (from : bytes) (value : Z) (headerHash : bytes) : bool :=
  value <=? (StateDB.GetBalance from (New k (mkTxConfig (BytesToHash headerHash) (BytesToHash []) 0 0))).2.

Definition can_transfer (ctx : EvmCtx) (m : MsgEthereumTx) (t : TxData) : handler :=
  let! p := gets (fun w => GetParams (an_chain w)) in
  let! baseFee := gets (base_fee ctx) in
  match AsTransaction (Tx := Tx) m with
  | None => panic
  | Some ethTx =>
    match AsMessage p (ec_Height ctx) ethTx baseFee with
    | None => fail ErrSigner
    | Some coreMsg =>
      (if IsLondon p (ec_Height ctx) then
         match baseFee with
         | None => fail ErrInvalidBaseFee
         | Some b => guard (negb (m_GasFeeCap coreMsg <? b)) ErrInsufficientFee
         end
       else ret tt) ;;
      let! ok := gets (fun w => CanTransfer (an_chain w) (m_From coreMsg) (m_Value coreMsg) (ec_HeaderHash ctx)) in
      guard (negb ((0 <? m_Value coreMsg) && negb ok)) ErrInsufficientFunds
    end
  end.

(** The decorator does not unpack the data itself; a message without data has no
    transaction and panics. *)
Fixpoint can_transfer_loop (ctx : EvmCtx) (msgs : list (option MsgEthereumTx)) : handler :=
  match msgs with
  | [] => ret tt
  | None :: _ => fail ErrUnknownRequest
  | Some m :: msgs =>
    match msg_Data m with None => panic | Some t => can_transfer ctx m t ;; can_transfer_loop ctx msgs end
  end.

Definition CanTransferDecorator (ctx : EvmCtx) : handler :=
  let! msgs := gets an_msgs in can_transfer_loop ctx msgs.

(** * [app/ante/utils/claim_rewards.go] *)

(** Withdraw from one delegation after the other until [needed] is there; the state
    is the cache, and an error stops the loop. *)
Fixpoint withdraw_until (addr : bytes) (denom : string) (needed : Z) (validators : list bytes) (x : X) (rewards : Z) : X * result Z Z :=
  match validators with
  | [] => (x, Ok rewards)
  | v :: validators =>
    match WithdrawDelegationRewards x addr v with
    | (x, Err e) => (x, Err e)
    | (x, Panic) => (x, Panic)
    | (x, Ok reward) =>
      let rewards := rewards + amount_of reward denom in
      if needed <=? rewards then (x, Ok rewards) else withdraw_until addr denom needed validators x rewards
    end
  end.

Definition ClaimSufficientStakingRewards (addr : bytes) (denom : string) (amount : Z) : M X evmerror unit :=
  fun x =>
    match withdraw_until addr denom amount (Delegations x addr) x 0 with
    | (_, Err e) => (x, Err (BankError e))
    | (_, Panic) => (x, Panic)
    | (x', Ok rewards) => if rewards <? amount then (x, Err ErrInsufficientFee) else (x', Ok tt)
    end.

Definition ClaimStakingRewardsIfNecessary (addr : bytes) (amount : list (string * Z)) : M X evmerror unit :=
  fun x =>
    let stakingDenom := BondDenom x in
    match list_find (fun c => c.1 = stakingDenom) amount with
    | None => (x, Err ErrInsufficientFee)
    | Some (_, coin) =>
      let balance := Ledger.GetBalance x addr stakingDenom in
      if balance <? 0 then (x, Err ErrInsufficientFunds)
      else if coin.2 <=? balance then (x, Ok tt)
      else ClaimSufficientStakingRewards addr stakingDenom (coin.2 - balance) x
    end.

Definition deductFee (fees : list (string * Z)) (feePayer : bytes) : handler :=
  if forallb (fun c => c.2 =? 0) fees then ret tt
  else
    ante_rest (ClaimStakingRewardsIfNecessary feePayer fees) ;;
    ante_rest (DeductTxCostsFromUserBalance fees feePayer).

(** One message: the gas wanted and the least priority so far, and the fee event. *)
Definition consume_msg (reduction : Z) (ctx : EvmCtx) (maxGasWanted : Z) (p : Params) (baseFee : option Z) (m : MsgEthereumTx) (t : TxData)
    (acc : Z * Z * list ante_event) : M (ante_state X) evmerror (Z * Z * list ante_event) :=
  let '(gasWanted, minPriority, events) := acc in
  let gasWanted :=
    if ec_IsCheckTx ctx && negb (maxGasWanted =? 0)
    then u64 (gasWanted + if maxGasWanted <? GetGas t then maxGasWanted else GetGas t)
    else u64 (gasWanted + GetGas t) in
  let! fees := lift (VerifyFee t (EvmDenom p) baseFee (IsHomestead p (ec_Height ctx)) (IsIstanbul p (ec_Height ctx)) (ec_IsCheckTx ctx)) in
  deductFee fees (default [] (GetFrom m)) ;;
  match GetTxPriority reduction t baseFee with
  | None => panic
  | Some priority =>
    ret (gasWanted, if priority <? minPriority then priority else minPriority, events ++ [EventFee fees])
  end.

Fixpoint consume_loop (reduction : Z) (ctx : EvmCtx) (maxGasWanted : Z) (p : Params) (baseFee : option Z)
    (msgs : list (option MsgEthereumTx)) (acc : Z * Z * list ante_event) : M (ante_state X) evmerror (Z * Z * list ante_event) :=
  match msgs with
  | [] => ret acc
  | None :: _ => fail ErrUnknownRequest
  | Some m :: msgs =>
    match msg_Data m with
    | None => fail (TxError ErrWrongType)
    | Some t =>
      let! acc := consume_msg reduction ctx maxGasWanted p baseFee m t acc in
      consume_loop reduction ctx maxGasWanted p baseFee msgs acc
    end
  end.

Definition with_meter (g : GasMeter) (w : ante_state X) : ante_state X :=
  mkAnte (an_chain w) (an_transient w) (Some g) (an_priority w) (an_gasWanted w) (an_events w) (an_msgs w).

(** [reduction] is [sdk.DefaultPowerReduction]. *)
Definition EthGasConsume (reduction : Z) (ctx : EvmCtx) (maxGasWanted : Z) : handler :=
  if ec_IsReCheckTx ctx then modify (with_meter (NewInfiniteGasMeterWithLimit 0))
  else
    let! p := gets (fun w => GetParams (an_chain w)) in
    let! baseFee := gets (base_fee ctx) in
    let! msgs := gets an_msgs in
    let! acc := consume_loop reduction ctx maxGasWanted p baseFee msgs (0, 2 ^ 63 - 1, []) in
    let '(gasWanted, minPriority, events) := acc in
    modify (fun w => mkAnte (an_chain w) (an_transient w) (an_meter w) (an_priority w) (an_gasWanted w) (an_events w ++ events) (an_msgs w)) ;;
    guard (negb (BlockGasLimit ctx <? gasWanted)) ErrOutOfGas ;;
    modify (fun w => mkAnte (an_chain w) (an_transient w) (Some (NewInfiniteGasMeterWithLimit gasWanted)) minPriority
      (an_gasWanted w) (an_events w) (an_msgs w)).

Definition increment_sequence (m : MsgEthereumTx) (t : TxData) : handler :=
  let! acc := gets (fun w => ak_GetAccount (rest_of w) (default [] (GetFrom m))) in
  match acc with
  | None => fail ErrUnknownAddress
  | Some acc =>
    let nonce := acct_sequence acc in
    guard (GetNonce t =? nonce) ErrInvalidSequence ;;
    modify (fun w => with_chain (with_rest (ak_SetAccount (rest_of w) (SetSequence (u64 (nonce + 1)) acc)) (an_chain w)) w)
  end.

Definition EthIncrementSenderSequence : handler := each_msg increment_sequence.

(** * [vesting.go], [fee_market.go] *)

(** Sender and value of each message; the checks before have unpacked the data. *)
Definition expenses (msgs : list (option MsgEthereumTx)) : list (option (bytes * Z)) :=
  (fun m => m ← m; Some (default [] (GetFrom m), default 0 (t ← msg_Data m; GetValue t))) <$> msgs.

Definition EthVestingTransaction (ctx : EvmCtx) : handler :=
  let! p := gets (fun w => GetParams (an_chain w)) in
  let! msgs := gets an_msgs in
  let! r := gets (fun w => (AnteHandle (mkCtx (ec_Time ctx) (ec_Height ctx)) (EvmDenom p) (expenses msgs) (mkWorld ∅ (rest_of w) [])).2) in
  match r with Ok _ => ret tt | Err e => fail (VestingError e) | Panic => panic end.

Definition GasWanted (ctx : EvmCtx) (tx : CosmosTx) : handler :=
  let! p := gets (fun w => GetParams (an_chain w)) in
  if negb (IsLondon p (ec_Height ctx)) then ret tt
  else
    guard (negb (BlockGasLimit ctx <? ct_GasLimit tx)) ErrOutOfGas ;;
    let! enabled := gets (fun w => FeeMarket.GetBaseFeeEnabled fm_legacy (FeeMarket.mkEnv (ec_Height ctx) None None) (fm_kv (rest_of w))) in
    if enabled then
      modify (fun w => mkAnte (an_chain w) (an_transient w) (an_meter w) (an_priority w)
        (Some (u64 (FeeMarket.GetTransientGasWanted (an_gasWanted w) + ct_GasLimit tx))) (an_events w) (an_msgs w))
    else ret tt.

(** * [app/ante/handler_options.go] *)

Definition newEVMAnteHandler (reduction : Z) (ctx : EvmCtx) (simulate : bool) (maxGasWanted : Z) (tx : CosmosTx) : handler :=
  EthSetupContext ;;
  EthMempoolFee ctx simulate ;;
  EthMinGasPrice ctx ;;
  EthValidateBasic ctx tx ;;
  EthSigVerification ctx ;;
  EthSetCodeTx ctx ;;
  EthAccountVerification ctx ;;
  CanTransferDecorator ctx ;;
  EthVestingTransaction ctx ;;
  EthGasConsume reduction ctx maxGasWanted ;;
  EthIncrementSenderSequence ;;
  GasWanted ctx tx ;;
  EthEmitEvent.

End Ante.
