(* ===== verification/EvmAnteProps.v ===== *)
(** [app/ante/evm]: nonces, fees and replays. *)

From stdpp Require Import base list gmap strings relations.
From Stdlib Require Import ZArith Lia.
From S2P Require Import Prelude KVStore BigInt Ledger Coins VestingSchedule Vesting FeeMarket StateDB StateDBProps StateDBCommit EvmKeeper EvmKeeperProps EvmTx EvmGas EvmApply EvmApplyProps EvmAnte.
Open Scope Z_scope.
Open Scope go_scope.

(** What the distribution keeper documents: a withdrawal does not take from the fee
    collector and leaves the accounts alone; so does the deduction of fees. *)
Class AnteHostLaws (X : Type) {BK : BankKeeper X} {AK : AccountKeeper X} {FD : FeeDeduction X} {AH : AnteHost X} := {
  withdraw_accounts : forall x a v x' r b acc, WithdrawDelegationRewards x a v = (x', r) ->
    ak_GetAccount x b = Some acc -> ak_GetAccount x' b = Some acc;
  withdraw_collector : forall x a v x' r d, WithdrawDelegationRewards x a v = (x', r) ->
    Ledger.GetBalance x' (GetModuleAddress FeeCollectorName) d = Ledger.GetBalance x (GetModuleAddress FeeCollectorName) d;
  deduct_accounts : forall x acc fees x' e b acc', DeductFees x acc fees = (x', e) ->
    ak_GetAccount x b = Some acc' -> ak_GetAccount x' b = Some acc'
}.

Section Sequences.
Context {X : Type} {BK : BankKeeper X} {BL : BankLaws X} {AK : AccountKeeper X} {MK : MintKeeper X} {EH : EthHash} {EC : EvmChainLaws X} {HL : HexLib}.
Implicit Types w : ante_state X.

(** The sequence of an account, and the sender and nonce of a message. *)
Definition seq_of w (a : bytes) : option Z := acct_sequence <$> ak_GetAccount (rest_of w) a.

Definition sender_of (m : MsgEthereumTx) : bytes := default [] (GetFrom m).

(** How many of the messages are from [a]. *)
Definition count_from (a : bytes) (msgs : list (option MsgEthereumTx)) : Z :=
  sumZ (fun m => match m with Some m => if bool_decide (sender_of m = a) then 1 else 0 | None => 0 end) msgs.

(** Every message carries the sequence its sender has after the messages before it. *)
Fixpoint nonces_follow (seq : bytes -> option Z) (msgs : list (option MsgEthereumTx)) : Prop :=
  match msgs with
  | [] => True
  | None :: _ => False
  | Some m :: msgs =>
    exists t, msg_Data m = Some t /\ seq (sender_of m) = Some (GetNonce t) /\
      nonces_follow (fun a => if bool_decide (sender_of m = a) then Some (GetNonce t + 1) else seq a) msgs
  end.

Lemma nonces_follow_ext msgs : forall s1 s2, (forall a, s1 a = s2 a) -> nonces_follow s1 msgs -> nonces_follow s2 msgs.
Proof.
  induction msgs as [|[m|] msgs IH]; intros s1 s2 H; cbn; [done| |done].
  intros (t & Ht & Hs & Hf). exists t. split; [done|]. split; [by rewrite <- H|]. eapply IH; [|exact Hf].
  intros a. cbn. by rewrite H.
Qed.

Lemma increment_spec m t w w' r : increment_sequence m t w = (w', r) ->
  (seq_of w (sender_of m) = Some (GetNonce t) /\ r = Ok tt /\
    forall a, seq_of w' a = if bool_decide (sender_of m = a) then Some (u64 (GetNonce t + 1)) else seq_of w a) \/
  (seq_of w (sender_of m) <> Some (GetNonce t) /\ exists e, r = Err e).
Proof.
  unfold increment_sequence. go_unfold. unfold seq_of, sender_of. destruct (ak_GetAccount (rest_of w) _) as [acc|] eqn:Ea; cbn.
  2:{ intros [= <- <-]. right. split; [done|]. by eexists. }
  destruct (Z.eqb_spec (GetNonce t) (acct_sequence acc)) as [E|E].
  - intros [= <- <-]. left. rewrite E. split; [done|]. split; [done|]. intros a. cbn. rewrite set_acct. cbn.
    rewrite (account_address _ _ _ Ea). repeat case_decide; case_bool_decide; simplify_eq; done.
  - intros [= <- <-]. right. split; [congruence|]. by eexists.
Qed.

(** Sequences with room for [n] more messages. *)
Definition seq_room w (n : nat) : Prop := forall a q, seq_of w a = Some q -> 0 <= q /\ q + Z.of_nat n < 2 ^ 64.

Lemma sequence_loop msgs : forall w w' r, seq_room w (length msgs) -> for_msgs increment_sequence msgs w = (w', r) ->
  (r = Ok tt <-> nonces_follow (seq_of w) msgs) /\
  (r = Ok tt -> forall a, seq_of w' a = q ← seq_of w a; Some (q + count_from a msgs)).
Proof.
  induction msgs as [|[m|] msgs IH]; intros w w' r Hroom H; cbn [for_msgs] in H; go_unfold.
  - injection H as <- <-. split; [done|]. intros _ a. destruct (seq_of w a) as [q|]; [|done]. cbn. f_equal. lia.
  - cbn [nonces_follow]. destruct (msg_Data m) as [t|]; [|injection H as <- <-; split; [|done]; split; [done|by intros (? & ? & _)]].
    destruct (increment_sequence m t w) as [w1 r1] eqn:E1. destruct (increment_spec _ _ _ _ _ E1) as [(Hs & -> & Hseq)|(Hs & e & ->)].
    2:{ injection H as <- <-. split; [|done]. split; [done|]. intros (t' & [= <-] & Hs' & _). done. }
    destruct (Hroom _ _ Hs) as [H0 H1]. cbn [length] in H1. rewrite wrapU_small in Hseq by lia.
    destruct (IH w1 w' r) as [IH1 IH2]; [|done|].
    { intros a q. rewrite Hseq. case_bool_decide; [intros [= <-]; lia|]. intros Hq. apply Hroom in Hq. cbn [length] in Hq. lia. }
    split.
    + rewrite IH1. split.
      * intros Hf. exists t. split; [done|]. split; [done|]. by eapply nonces_follow_ext.
      * intros (t' & [= <-] & _ & Hf). eapply nonces_follow_ext; [|exact Hf]. intros a. cbn. by rewrite Hseq.
    + intros Hr a. rewrite (IH2 Hr a), Hseq. unfold count_from. rewrite sumZ_cons. case_bool_decide as E.
      * subst a. rewrite Hs. cbn. f_equal. lia.
      * destruct (seq_of w a) as [q|]; [|done]. cbn. f_equal.
  - injection H as <- <-. split; [|done]. split; [done|]. by intros [].
Qed.

(** C26: Nonces are consumed in order.  The last check of an Ethereum transaction
    accepts its messages exactly when each carries the sequence its sender has after
    the messages before it, several messages of one sender included; then the sequence
    of every account has grown by the number of its messages and of nothing else. *)
Theorem nonces_are_consumed w w' r : seq_room w (length (an_msgs w)) -> EthIncrementSenderSequence w = (w', r) ->
  (r = Ok tt <-> nonces_follow (seq_of w) (an_msgs w)) /\
  (r = Ok tt -> forall a, seq_of w' a = q ← seq_of w a; Some (q + count_from a (an_msgs w))).
Proof. intros Hroom H. exact (sequence_loop (an_msgs w) w w' r Hroom H). Qed.

End Sequences.

(** * Replays *)

(** A signature has one sender on a chain. *)
Class SenderLaws (Tx : Type) {SL : SenderLib Tx} := {
  sender_unique : forall p1 h1 p2 h2 tx s1 s2, Sender p1 h1 tx = Some s1 -> Sender p2 h2 tx = Some s2 -> s1 = s2
}.

Section Frames.
Context {X : Type} {BK : BankKeeper X} {BL : BankLaws X} {AK : AccountKeeper X} {MK : MintKeeper X} {EH : EthHash} {EC : EvmChainLaws X}
  {FD : FeeDeduction X} {FV : FeeMarketView X} {AH : AnteHost X} {AHL : AnteHostLaws X} {FR : ForkRules} {CG : CoreGas} {HL : HexLib}
  {LD : LegacyDec} {Tx : Type} {ET : EthTransaction Tx} {TS : TxSigner Tx} {SL : SenderLib Tx}.
Implicit Types w : ante_state X.

(** Existing accounts keep their sequence, and the messages stay. *)
Definition keeps w w' : Prop := (forall a q, seq_of w a = Some q -> seq_of w' a = Some q) /\ an_msgs w' = an_msgs w.

Definition frames {A} (c : M (ante_state X) evmerror A) : Prop := forall w w' a, c w = (w', Ok a) -> keeps w w'.

Lemma keeps_refl w : keeps w w.
Proof. done. Qed.

Lemma keeps_trans w1 w2 w3 : keeps w1 w2 -> keeps w2 w3 -> keeps w1 w3.
Proof. intros [H1 E1] [H2 E2]. split; [auto|congruence]. Qed.

Lemma then_Ok {S E A B} (c1 : M S E A) (c2 : A -> M S E B) s s' b :
  bind c1 c2 s = (s', Ok b) -> exists s1 a, c1 s = (s1, Ok a) /\ c2 a s1 = (s', Ok b).
Proof. unfold bind. destruct (c1 s) as [s1 [a| |]]; [|done..]. intros H. by exists s1, a. Qed.

Lemma frames_bind {A B} (c : M (ante_state X) evmerror A) (f : A -> M (ante_state X) evmerror B) :
  frames c -> (forall a, frames (f a)) -> frames (bind c f).
Proof. intros H1 H2 w w' b (w1 & a & E1 & E2)%then_Ok. eapply keeps_trans; [by eapply H1|by eapply H2]. Qed.

Lemma frames_ret {A} (a : A) : frames (ret a).
Proof. intros w w' b [= <- _]. done. Qed.

Lemma frames_fail {A} e : frames (A := A) (fail e).
Proof. intros w w' b. done. Qed.

Lemma frames_panic {A} : frames (A := A) panic.
Proof. intros w w' b. done. Qed.

Lemma frames_gets {A} (f : ante_state X -> A) : frames (gets f).
Proof. intros w w' b [= <- _]. done. Qed.

Lemma frames_guard b e : frames (guard b e).
Proof. destruct b; [apply frames_ret|apply frames_fail]. Qed.

Lemma frames_lift {A} (r : result evmerror A) : frames (lift r).
Proof. intros w w' b [= <- _]. done. Qed.

Lemma frames_modify (f : ante_state X -> ante_state X) : (forall w, keeps w (f w)) -> frames (modify f).
Proof. intros H w w' b [= <- _]. apply H. Qed.

Lemma frames_rest {A} (c : M X evmerror A) :
  (forall x x' a b acc, c x = (x', Ok a) -> ak_GetAccount x b = Some acc -> ak_GetAccount x' b = Some acc) -> frames (ante_rest c).
Proof.
  intros H w w' a. unfold ante_rest. destruct (c (rest_of w)) as [x r] eqn:E. intros [= <- ->]. split; [|done].
  intros b q. unfold seq_of. destruct (ak_GetAccount (rest_of w) b) as [acc|] eqn:Ea; [|done]. cbn. by rewrite (H _ _ _ _ _ E Ea).
Qed.

End Frames.

Ltac frame := repeat first
  [ apply frames_ret | apply frames_fail | apply frames_panic | apply frames_gets | apply frames_guard | apply frames_lift
  | apply frames_modify; intros ?; split; done
  | match goal with
    | |- frames (match ?x with _ => _ end) => destruct x
    | |- frames (if ?x then _ else _) => destruct x
    | |- frames (let '(_, _) := ?x in _) => destruct x
    | |- frames (bind _ _) => apply frames_bind; [|intros ?]
    | |- frames (fun _ => _) => fail 1
    end ].

Section Replay.
Context {X : Type} {BK : BankKeeper X} {BL : BankLaws X} {AK : AccountKeeper X} {MK : MintKeeper X} {EH : EthHash} {EC : EvmChainLaws X}
  {FD : FeeDeduction X} {FV : FeeMarketView X} {AH : AnteHost X} {AHL : AnteHostLaws X} {FR : ForkRules} {CG : CoreGas} {HL : HexLib} {HW : HexLaws}
  {LD : LegacyDec} {Tx : Type} {ET : EthTransaction Tx} {TS : TxSigner Tx} {SL : SenderLib Tx} {SLL : SenderLaws Tx}
  {VC : Type} {CO : CoinOps VC} {PO : PeriodsOps VC} {VD : VestingDeps VC X}.
Implicit Types w : ante_state X.

Lemma frames_for_msgs f msgs : (forall m t, frames (X := X) (f m t)) -> frames (for_msgs f msgs).
Proof.
  intros Hf. induction msgs as [|[m|] msgs IH]; cbn [for_msgs]; frame; [apply Hf|apply IH].
Qed.

Lemma frames_each f : (forall m t, frames (X := X) (f m t)) -> frames (each_msg f).
Proof. intros Hf. unfold each_msg. frame. by apply frames_for_msgs. Qed.

Lemma frames_Setup : frames (X := X) EthSetupContext.
Proof. unfold EthSetupContext. frame. Qed.

Lemma frames_Mempool ctx sim : frames (X := X) (EthMempoolFee ctx sim).
Proof.
  unfold EthMempoolFee. frame. match goal with |- frames (mempool_loop ?p ?l) => generalize p; induction l as [|[m|] l IH] end;
    intros p; cbn [mempool_loop]; frame. apply IH.
Qed.

Lemma frames_MinGasPrice ctx : frames (X := X) (EthMinGasPrice ctx).
Proof. unfold EthMinGasPrice. frame. apply frames_each. intros m t. frame. Qed.

Lemma frames_ValidateBasic ctx tx : frames (X := X) (EthValidateBasic ctx tx).
Proof. unfold EthValidateBasic. frame. Qed.

Lemma frames_SetCode ctx : frames (X := X) (EthSetCodeTx ctx).
Proof. unfold EthSetCodeTx. apply frames_each. intros m t. frame. Qed.

Lemma frames_verify_account m t : frames (X := X) (verify_account m t).
Proof.
  unfold verify_account. destruct (GetFrom m) as [from|]; [|frame]. intros w w' a (w1 & acct & E & H)%then_Ok.
  injection E as <- <-. destruct (GetAccount (an_chain w) from) as [acct|] eqn:Ea.
  - revert H. by eapply (frames_bind (ret tt) (fun _ => if IsContract acct then fail ErrInvalidType else lift _)); [frame|intros _; frame].
  - apply then_Ok in H as (w2 & [] & E & H). injection E as <-. injection H as <- _.
    assert (ak_GetAccount (rest_of w) from = None) as Hn.
    { unfold GetAccount, GetAccountWithoutBalance in Ea. unfold rest_of. by destruct (ak_GetAccount _ from). }
    destruct (ak_NewAccountWithAddress (rest_of w) from) as [x acc] eqn:En. destruct (new_account _ _ _ _ En) as (-> & Hk & _).
    split; [|done]. intros b q. unfold seq_of. cbn. rewrite set_acct. cbn. case_decide as Eb; [subst b; by rewrite Hn|]. by rewrite Hk.
Qed.

Lemma frames_AccountVerification ctx : frames (X := X) (EthAccountVerification ctx).
Proof. unfold EthAccountVerification. frame. apply frames_each, frames_verify_account. Qed.

Lemma frames_CanTransfer ctx : frames (X := X) (CanTransferDecorator ctx).
Proof.
  unfold CanTransferDecorator. frame. match goal with |- frames (can_transfer_loop _ ?l) => induction l as [|[m|] l IH] end;
    cbn [can_transfer_loop]; frame; [|apply IH]. unfold can_transfer. frame.
Qed.

Lemma frames_Vesting ctx : frames (X := X) (EthVestingTransaction ctx).
Proof. unfold EthVestingTransaction. frame. Qed.

Lemma withdraw_keeps a d n l : forall x x' r0 r b acc, withdraw_until a d n l x r0 = (x', r) ->
  ak_GetAccount x b = Some acc -> ak_GetAccount x' b = Some acc.
Proof.
  induction l as [|v l IH]; intros x x' r0 r b acc; cbn [withdraw_until]; [by intros [= <- _]|].
  destruct (WithdrawDelegationRewards x a v) as [x1 [rw| |]] eqn:E.
  - destruct (_ <=? _); [intros [= <- _]; by eapply withdraw_accounts|]. intros H Hb. eapply IH; [exact H|]. by eapply withdraw_accounts.
  - intros [= <- _]. by eapply withdraw_accounts.
  - intros [= <- _]. by eapply withdraw_accounts.
Qed.

Lemma frames_deductFee fees a : frames (X := X) (deductFee fees a).
Proof.
  unfold deductFee. frame; apply frames_rest.
  - intros x x' u b acc. unfold ClaimStakingRewardsIfNecessary, ClaimSufficientStakingRewards.
    destruct (list_find _ _) as [[i c]|]; [|done]. destruct (_ <? 0); [done|]. destruct (_ <=? _); [by intros [= <-]|].
    destruct (withdraw_until _ _ _ _ _ _) as [x1 [rw| |]] eqn:E; [|done..]. destruct (_ <? _); [done|]. intros [= <-]. by eapply withdraw_keeps.
  - intros x x' u b acc. unfold DeductTxCostsFromUserBalance. destruct (ak_GetAccount x a) as [acc'|]; [|done].
    destruct (DeductFees x acc' fees) as [x1 [e|]] eqn:E; [done|]. intros [= <-]. by eapply deduct_accounts.
Qed.

Lemma frames_GasConsume red ctx mx : frames (X := X) (EthGasConsume red ctx mx).
Proof.
  unfold EthGasConsume. frame. match goal with |- frames (consume_loop _ _ _ _ _ ?l ?acc) => generalize acc; induction l as [|[m|] l IH] end;
    intros acc; cbn [consume_loop]; frame; [|apply IH]. unfold consume_msg. destruct acc as [[gw mp] ev]. frame. apply frames_deductFee.
Qed.

Lemma frames_GasWanted ctx tx : frames (X := X) (GasWanted ctx tx).
Proof. unfold GasWanted. frame. Qed.

Lemma frames_EmitEvent : frames (X := X) EthEmitEvent.
Proof.
  unfold EthEmitEvent. frame. match goal with |- frames (emit_loop ?i ?l) => generalize i; induction l as [|[m|] l IH] end;
    intros i; cbn [emit_loop]; frame. apply IH.
Qed.

(** Sequences only grow in the last check. *)
Lemma sequences_grow msgs : forall w w' a q, for_msgs (X := X) increment_sequence msgs w = (w', Ok tt) ->
  seq_of w a = Some q -> 0 <= q -> q + Z.of_nat (length msgs) < 2 ^ 64 -> exists q', seq_of w' a = Some q' /\ q <= q'.
Proof.
  induction msgs as [|[m|] msgs IH]; intros w w' a q H Ha Hq Hr; cbn [for_msgs length] in *; [injection H as <-; by exists q| |done].
  destruct (msg_Data m) as [t|]; [|done]. apply then_Ok in H as (w1 & [] & E & H).
  destruct (increment_spec _ _ _ _ _ E) as [(Hs & _ & Hseq)|(_ & e & [=])]. specialize (Hseq a).
  case_bool_decide as Es.
  - subst a. assert (GetNonce t = q) as Et by congruence. rewrite Et, wrapU_small in Hseq by lia.
    destruct (IH _ _ _ _ H Hseq ltac:(lia) ltac:(lia)) as (q' & ? & ?). exists q'. split; [done|lia].
  - rewrite Ha in Hseq. apply (IH _ _ _ _ H Hseq); lia.
Qed.

Lemma recover_length p h l : forall l', recover_senders (Tx := Tx) p h l = Ok l' -> length l' = length l.
Proof.
  induction l as [|[m|] l IH]; intros l' H; cbn [recover_senders] in H; [by injection H as <-| |done].
  destruct (AsTransaction m); [|done]. destruct (_ && _); [done|]. destruct (Sender _ _ _); [|done].
  destruct (recover_senders p h l) as [l1| |]; [|done..]. injection H as <-. cbn. by rewrite (IH l1).
Qed.

(** The first message of an accepted transaction. *)
Lemma accepted_first red ctx sim mx tx w w' m l : newEVMAnteHandler red ctx sim mx tx w = (w', Ok tt) -> an_msgs w = Some m :: l ->
  exists p t ethTx s wi, msg_Data m = Some t /\ AsTransaction (Tx := Tx) m = Some ethTx /\ Sender p (ec_Height ctx) ethTx = Some s /\
    let a := HexToAddress (AddressHex s) in
    (forall q, seq_of w a = Some q -> seq_of wi a = Some q) /\ seq_of wi a = Some (GetNonce t) /\
    (0 <= GetNonce t -> GetNonce t + Z.of_nat (length (an_msgs w)) < 2 ^ 64 -> exists q, seq_of w' a = Some q /\ GetNonce t < q).
Proof.
  intros H Hm. unfold newEVMAnteHandler in H.
  apply then_Ok in H as (w1 & [] & E1 & H). apply then_Ok in H as (w2 & [] & E2 & H). apply then_Ok in H as (w3 & [] & E3 & H).
  apply then_Ok in H as (w4 & [] & E4 & H). apply then_Ok in H as (w5 & [] & E5 & H).
  apply frames_Setup in E1. apply frames_Mempool in E2. apply frames_MinGasPrice in E3. apply frames_ValidateBasic in E4.
  pose proof (keeps_trans _ _ _ E1 (keeps_trans _ _ _ E2 (keeps_trans _ _ _ E3 E4))) as [K1 M1]. rewrite Hm in M1.
  unfold EthSigVerification in E5. apply then_Ok in E5 as (w4' & p & Ep & E5). injection Ep as <- <-.
  apply then_Ok in E5 as (w4'' & ms & Ep & E5). injection Ep as <- <-. rewrite M1 in E5. cbn [recover_senders] in E5.
  destruct (AsTransaction m) as [ethTx|] eqn:Et; [|done]. destruct (negb _ && negb _); [done|].
  destruct (Sender _ _ ethTx) as [s|] eqn:Es; [|done]. destruct (recover_senders _ _ l) as [l'| |] eqn:El; [|done..]. injection E5 as <-.
  apply then_Ok in H as (w6 & [] & E6 & H). apply then_Ok in H as (w7 & [] & E7 & H). apply then_Ok in H as (w8 & [] & E8 & H).
  apply then_Ok in H as (w9 & [] & E9 & H). apply then_Ok in H as (wi & [] & E10 & H).
  apply frames_SetCode in E6. apply frames_AccountVerification in E7. apply frames_CanTransfer in E8. apply frames_Vesting in E9.
  apply frames_GasConsume in E10.
  pose proof (keeps_trans _ _ _ E6 (keeps_trans _ _ _ E7 (keeps_trans _ _ _ E8 (keeps_trans _ _ _ E9 E10)))) as [K2 M2]. cbn [an_msgs with_msgs] in M2.
  apply then_Ok in H as (wj & [] & E11 & H). apply then_Ok in H as (wk & [] & E12 & E13).
  apply frames_GasWanted in E12. apply frames_EmitEvent in E13. pose proof (keeps_trans _ _ _ E12 E13) as [K3 _].
  unfold EthIncrementSenderSequence, each_msg in E11. apply then_Ok in E11 as (wi' & ms & Ep & E11). injection Ep as <- <-.
  rewrite M2 in E11. cbn [for_msgs msg_Data] in E11. destruct (msg_Data m) as [t|] eqn:Ed; [|done].
  apply then_Ok in E11 as (wi1 & [] & Ei & E11). destruct (increment_spec _ _ _ _ _ Ei) as [(Hs & _ & Hseq)|(_ & e & [=])].
  assert (sender_of (mkMsgTx (Some t) (msg_Size m) (msg_Hash m) (AddressHex s)) = HexToAddress (AddressHex s)) as Hsend.
  { unfold sender_of, GetFrom. cbn [msg_From]. by rewrite bool_decide_false by apply address_hex_empty. }
  rewrite Hsend in *. exists (GetParams (an_chain w4)), t, ethTx, s, wi. split; [done|]. split; [done|]. split; [done|]. cbv zeta.
  split; [intros q Hq; by apply K2, K1|]. split; [done|]. intros Hn Hlen. specialize (Hseq (HexToAddress (AddressHex s))).
  rewrite bool_decide_true in Hseq by done. rewrite Hm in Hlen. cbn [length] in Hlen. rewrite wrapU_small in Hseq by lia.
  assert (length l' = length l) as Hll by (by eapply recover_length).
  destruct (sequences_grow _ _ _ _ _ E11 Hseq ltac:(lia) ltac:(rewrite Hll; lia)) as (q & Hq & Hle). exists q. split; [by apply K3|lia].
Qed.

(** C6: No replay.  Once the checks have accepted an Ethereum transaction, they refuse
    it ever after: in every later state, in which sequences may have grown further and
    parameters may have changed, the same messages are not accepted again. *)
Theorem no_replay red ctx sim mx tx w w1 red' ctx' sim' mx' tx' w2 m l :
  newEVMAnteHandler red ctx sim mx tx w = (w1, Ok tt) -> an_msgs w = Some m :: l ->
  (forall t, msg_Data m = Some t -> 0 <= GetNonce t) -> (forall t, msg_Data m = Some t -> GetNonce t + Z.of_nat (length (an_msgs w)) < 2 ^ 64) ->
  an_msgs w2 = an_msgs w -> (forall a q, seq_of w1 a = Some q -> exists q', seq_of w2 a = Some q' /\ q <= q') ->
  forall w3, newEVMAnteHandler red' ctx' sim' mx' tx' w2 <> (w3, Ok tt).
Proof.
  intros H Hm Hn Hlen Hm2 Hgrow w3 H2.
  destruct (accepted_first _ _ _ _ _ _ _ _ _ H Hm) as (p & t & e & s & wi & Ed & Et & Es & _ & _ & Hafter).
  destruct (accepted_first _ _ _ _ _ _ _ _ _ H2 ltac:(by rewrite Hm2)) as (p' & t' & e' & s' & wi' & Ed' & Et' & Es' & Hkeep & Hneed & _).
  assert (t' = t) as -> by congruence. assert (e' = e) as -> by congruence. rewrite <- (sender_unique _ _ _ _ _ _ _ Es Es') in *.
  destruct (Hafter (Hn t Ed) (Hlen t Ed)) as (q & Hq & Hlt). destruct (Hgrow _ _ Hq) as (q' & Hq' & Hle).
  apply Hkeep in Hq'. rewrite Hneed in Hq'. injection Hq' as Hq'. lia.
Qed.

End Replay.

(** * Fees *)

Section Collected.
Context {X : Type} {BK : BankKeeper X} {BL : BankLaws X} {AK : AccountKeeper X} {MK : MintKeeper X} {EH : EthHash} {EC : EvmChainLaws X}
  {FD : FeeDeduction X} {FDL : FeeDeductionLaws X} {FV : FeeMarketView X} {AH : AnteHost X} {AHL : AnteHostLaws X} {FR : ForkRules} {CG : CoreGas} {HL : HexLib}.
Implicit Types w : ante_state X.

Definition collector : bytes := GetModuleAddress FeeCollectorName.
Definition collected w (d : string) : Z := Ledger.GetBalance (rest_of w) collector d.

(** The fee of one message at a base fee, and its gas. *)
Definition msg_fee (base : Z) (m : option MsgEthereumTx) : Z :=
  match m with Some m => default 0 (GetEffectiveFee m (Some base)) | None => 0 end.
Definition msg_gas (m : option MsgEthereumTx) : Z := match m with Some m => msg_GetGas m | None => 0 end.

(** A message that passed the stateless checks, from an account that is not the collector. *)
Definition checked_msg (m : option MsgEthereumTx) : Prop :=
  match m with
  | Some m => sender_of m <> collector /\ match msg_Data m with Some t => Validate t = None /\ 0 <= GetGas t < 2 ^ 63 | None => True end
  | None => True
  end.

Lemma withdraw_collected a d n l : forall x x' r0 r d', withdraw_until (X := X) a d n l x r0 = (x', r) ->
  Ledger.GetBalance x' collector d' = Ledger.GetBalance x collector d'.
Proof.
  induction l as [|v l IH]; intros x x' r0 r d'; cbn [withdraw_until]; [by intros [= <- _]|].
  destruct (WithdrawDelegationRewards x a v) as [x1 [rw| |]] eqn:E; pose proof (withdraw_collector _ _ _ _ _ d' E) as Hc; fold collector in Hc.
  - destruct (_ <=? _); [by intros [= <- _]|]. intros H. by rewrite (IH _ _ _ _ _ H).
  - by intros [= <- _].
  - by intros [= <- _].
Qed.

Lemma claim_collected a fees x x' d : ClaimStakingRewardsIfNecessary (X := X) a fees x = (x', Ok tt) ->
  Ledger.GetBalance x' collector d = Ledger.GetBalance x collector d.
Proof.
  unfold ClaimStakingRewardsIfNecessary, ClaimSufficientStakingRewards. destruct (list_find _ _) as [[i c]|]; [|done].
  destruct (_ <? 0); [done|]. destruct (_ <=? _); [by intros [= <-]|]. destruct (withdraw_until _ _ _ _ _ _) as [x1 [rw| |]] eqn:E; [|done..].
  destruct (_ <? _); [done|]. intros [= <-]. by eapply withdraw_collected.
Qed.

Lemma deductFee_collected denom n fees a w w' d : (fees = [] /\ n = 0) \/ (fees = [(denom, n)] /\ 0 < n) -> a <> collector ->
  deductFee fees a w = (w', Ok tt) -> collected w' d = collected w d + if bool_decide (d = denom) then n else 0.
Proof.
  intros Hf Ha H. unfold deductFee in H. destruct (forallb _ fees) eqn:Ez.
  - injection H as <-. destruct Hf as [[_ ->]|[-> Hn]]; [case_bool_decide; lia|]. cbn in Ez. destruct (Z.eqb_spec n 0); [lia|done].
  - apply then_Ok in H as (w1 & [] & E1 & E2). unfold ante_rest in E1, E2.
    destruct (ClaimStakingRewardsIfNecessary a fees (rest_of w)) as [x1 r1] eqn:Ec. injection E1 as <- ->.
    destruct (DeductTxCostsFromUserBalance fees a _) as [x2 r2] eqn:Ed. injection E2 as <- ->. unfold collected, rest_of in *. cbn in *.
    rewrite (deduct_spec _ _ _ _ _ _ Ed Hf collector d), (claim_collected _ _ _ _ d Ec). unfold flow. fold collector.
    repeat case_decide; case_bool_decide; naive_solver lia.
Qed.

Lemma u64_add a b : u64 (u64 a + b) = u64 (a + b).
Proof. unfold wrapU. apply Z.add_mod_idemp_l. lia. Qed.

(** One message. *)
Lemma consume_msg_spec red ctx mx p base m t gw mp ev w w' gw' mp' ev' d :
  0 <= base -> checked_msg (Some m) -> msg_Data m = Some t ->
  consume_msg red ctx mx p (Some base) m t (gw, mp, ev) w = (w', Ok (gw', mp', ev')) ->
  collected w' d = collected w d + (if bool_decide (d = EvmDenom p) then msg_fee base (Some m) else 0) /\
  (exists cap, GetGasFeeCap t = Some cap /\ base <= cap) /\ 0 <= msg_fee base (Some m) /\
  (ec_IsCheckTx ctx = false -> gw' = u64 (gw + msg_gas (Some m))).
Proof.
  intros Hb [Hs Hv] Hd H. rewrite Hd in Hv. destruct Hv as [Hv Hg]. unfold consume_msg in H. apply then_Ok in H as (w1 & fees & E1 & H).
  injection E1 as <- Hfee. apply then_Ok in H as (w2 & [] & E2 & H). destruct (GetTxPriority red t (Some base)) as [pr|]; [|done].
  injection H as <- <- _ _. destruct (VerifyFee_spec _ _ _ _ _ _ _ Hv Hb (proj1 Hg) Hfee) as (tip & cap & Ht & Hc & Hp & Hpr & Hfees). cbv zeta in *.
  destruct (validated_price t base Hv Hb) as (tip' & cap' & Ht' & Hc' & _ & Hf & _). rewrite Ht in Ht'. rewrite Hc in Hc'. simplify_eq. cbv zeta in Hf.
  assert (msg_fee base (Some m) = Z.min (tip' + base) cap' * GetGas t) as Em by (unfold msg_fee, GetEffectiveFee; rewrite Hd; cbn; by rewrite Hf).
  rewrite Em. split; [by eapply deductFee_collected|]. split; [exists cap'; split; [done|lia]|]. split; [destruct Hfees as [[_ E0]|[_ E0]]; rewrite ?E0; lia|].
  intros ->. cbn [andb]. unfold msg_gas, msg_GetGas. by rewrite Hd.
Qed.

Lemma consume_loop_spec red ctx mx p base d msgs : 0 <= base -> Forall checked_msg msgs -> forall gw mp ev w w' gw' mp' ev',
  consume_loop red ctx mx p (Some base) msgs (gw, mp, ev) w = (w', Ok (gw', mp', ev')) ->
  collected w' d = collected w d + (if bool_decide (d = EvmDenom p) then sumZ (msg_fee base) msgs else 0) /\
  Forall (fun m => exists m0 t cap, m = Some m0 /\ msg_Data m0 = Some t /\ GetGasFeeCap t = Some cap /\ base <= cap) msgs /\
  (ec_IsCheckTx ctx = false -> gw = u64 gw -> gw' = u64 (gw + sumZ msg_gas msgs)).
Proof.
  intros Hb. induction 1 as [|[m|] msgs Hm Hms IH]; intros gw mp ev w w' gw' mp' ev' H; cbn [consume_loop] in H; [| |done].
  - injection H as <- <- _ _. split; [case_bool_decide; unfold sumZ; cbn; lia|]. split; [constructor|]. intros _ E. by rewrite Z.add_0_r.
  - destruct (msg_Data m) as [t|] eqn:Ed; [|done]. apply then_Ok in H as (w1 & [[gw1 mp1] ev1] & E1 & H).
    destruct (consume_msg_spec _ _ _ _ _ _ _ _ _ _ _ _ _ _ _ d Hb Hm Ed E1) as (C1 & (cap & Hc & Hle) & _ & G1).
    destruct (IH _ _ _ _ _ _ _ _ H) as (C2 & F2 & G2). rewrite C2, C1, !sumZ_cons. split; [case_bool_decide; lia|].
    split; [constructor; [by exists m, t, cap|done]|]. intros Hct _. rewrite G2; [|done|]; rewrite (G1 Hct).
    + rewrite u64_add. f_equal. lia.
    + unfold wrapU. by rewrite Z.mod_mod by lia.
Qed.

(** C25: The fees are collected before execution.  When the fee check accepts the
    messages of a transaction that passed the stateless checks, the fee collector has
    gained exactly the sum of their effective fees, after staking rewards were claimed
    where a balance was short; every fee cap covers the base fee; and when a block is
    executed the gas meter is limited to the gas of the messages, modulo [2^64], which
    the block gas limit covers. *)
Theorem fees_are_collected red ctx mx w w' base : EthGasConsume red ctx mx w = (w', Ok tt) -> ec_IsReCheckTx ctx = false ->
  base_fee ctx w = Some base -> 0 <= base -> Forall checked_msg (an_msgs w) ->
  (forall d, collected w' d = collected w d + if bool_decide (d = EvmDenom (GetParams (an_chain w))) then sumZ (msg_fee base) (an_msgs w) else 0) /\
  Forall (fun m => exists m0 t cap, m = Some m0 /\ msg_Data m0 = Some t /\ GetGasFeeCap t = Some cap /\ base <= cap) (an_msgs w) /\
  (ec_IsCheckTx ctx = false -> let gas := u64 (sumZ msg_gas (an_msgs w)) in gas <= BlockGasLimit ctx /\ an_meter w' = Some (mkMeter 0 gas)).
Proof.
  intros H Hre Hbf Hb Hms. unfold EthGasConsume in H. rewrite Hre in H. go_unfold. rewrite Hbf in H.
  destruct (consume_loop _ _ _ _ _ _ _ w) as [w1 [[[gw mp] ev]| |]] eqn:El; [|done..].
  pose proof (fun d => consume_loop_spec _ _ _ _ _ d _ Hb Hms _ _ _ _ _ _ _ _ El) as Hl. destruct (Z.ltb_spec (BlockGasLimit ctx) gw); [done|].
  injection H as <-. split; [intros d; apply (proj1 (Hl d))|]. destruct (Hl ""%string) as (_ & Hf & Hg). split; [done|].
  intros Hct. cbv zeta. rewrite <- (Z.add_0_l (sumZ _ _)), <- (Hg Hct eq_refl). done.
Qed.

End Collected.
