(* ===== verification/EvmExecCases.v ===== *)
(** A reference chain with a small interpreter, and the witnesses of the theorems on
    messages, fees and the checks before execution. *)

From stdpp Require Import base list gmap strings relations.
From Stdlib Require Import ZArith Lia.
From S2P Require Import Prelude KVStore BigInt Ledger Coins VestingSchedule Vesting VestingCases FeeMarket FeeMarketProps StateDB StateDBProps StateDBCommit EvmKeeper EvmKeeperProps StateDBCases EvmKeeperCases EvmTx EvmTxCases EvmGas EvmApply EvmApplyProps EvmAnte EvmAnteProps.
Open Scope Z_scope.
Open Scope go_scope.

(** * The rest of the chain *)

#[export] Instance ref_deduction : FeeDeduction ref_chain := {|
  DeductFees x acc fees :=
    match fees with
    | [] => (x, None)
    | [(d, n)] => if 0 <? n then SendCoinsFromAccountToModule x (acct_address acc) FeeCollectorName (d, n) else (x, Some 10)
    | _ => (x, Some 10)
    end |}.

#[export] Instance ref_deduction_laws : FeeDeductionLaws ref_chain.
Proof.
  split.
  - intros x acc d n x' Hn. cbn [DeductFees ref_deduction]. rewrite (proj2 (Z.ltb_lt 0 n) Hn). by apply account_to_module_ok.
  - intros x acc x' [= <-]. by intros a d.
  - intros x acc fees x' e. cbn [DeductFees ref_deduction]. destruct fees as [|[d n] [|c fees]]; [done| |by intros [= <-]].
    destruct (0 <? n); [apply account_to_module_err|by intros [= <-]].
Qed.

#[export] Instance ref_feemarket : FeeMarketView ref_chain := {| fm_kv _ := FeeMarket.SetParams params0 ∅; fm_legacy := params0 |}.

#[export] Instance ref_feemarket_valid : FeeMarketValid ref_chain.
Proof. intros x. vm_compute. reflexivity. Qed.

#[export] Instance ref_host : EvmHost ref_chain := {| k_precompiles := []; GetCoinbaseAddress _ := Some StateDBCases.bob |}.

#[export] Instance ref_rules : ForkRules := {|
  IsHomestead _ _ := true; IsIstanbul _ _ := true; IsBerlin _ _ := true; IsLondon _ _ := true |}.

#[export] Instance ref_core_gas : CoreGas := {|
  IntrinsicGas data al c h i := Some ((if c then 53000 else 21000) + 16 * Z.of_nat (length data) + 2400 * Z.of_nat (length al)) |}.

#[export] Instance ref_ante_host : AnteHost ref_chain := {|
  EvmAnte.BondDenom _ := "ahpx"%string; Delegations _ _ := [];
  WithdrawDelegationRewards x _ _ := (x, Ok []) |}.

#[export] Instance ref_ante_laws : AnteHostLaws ref_chain.
Proof.
  split.
  - intros x a v x' r b acc [= <- _]. done.
  - intros x a v x' r d [= <- _]. done.
  - intros x acc fees x' e b acc'. cbn [DeductFees ref_deduction]. destruct fees as [|[d n] [|c fees]]; [by intros [= <- _]| |by intros [= <- _]].
    destruct (0 <? n); [|by intros [= <- _]]. destruct (SendCoinsFromAccountToModule _ _ _ _) as [x1 [c|]] eqn:E; intros [= <- _].
    + by rewrite (account_to_module_err _ _ _ _ _ _ E).
    + intros Hb. by apply (proj1 (to_module_accounts _ _ _ _ _ E)).
Qed.

(** Accounts have no vesting schedule here. *)
#[export] Instance ref_evm_vesting : VestingDeps rcoins ref_chain := {|
  AccAddressFromBech32 := fun s => None; AccAddressString := fun b => ""%string; authority := []; DistributionAddress := [];
  Vesting.emptyCodeHash := EmptyCodeHash; vk_BlockedAddr := fun _ => false;
  vk_GetAccount := fun x a => acc ← ak_GetAccount x a; Some (EthAccount (mkBase (acct_address acc) 0 (acct_sequence acc)) (default [] (acct_codehash acc)));
  vk_SetAccount := fun x _ => x; SendCoins := fun x _ _ _ => (x, Some 1); FundCommunityPool := fun x _ _ => (x, Some 1);
  Vesting.GetBalance := Ledger.GetBalance; GetDelegatorBonded := fun _ _ => 0; GetDelegatorUnbonding := fun _ _ => 0;
  Vesting.BondDenom := fun _ => "ahpx"%string; GetProposal := fun _ _ => None; MinDeposit := fun _ => OneCoin "ahpx" 10;
  IsAllLT := fun _ _ => false; CoinsIsValid := fun _ => true
|}.

(** * An interpreter: a transfer, or an invalid instruction when there is data *)

Definition interpret (msg : Message) (gas : Z) (s : StateDB (chain ref_chain)) : StateDB (chain ref_chain) * outcome :=
  match m_To msg, m_Data msg with
  | Some to, [] =>
    if decide (length (m_From msg) = 20%nat /\ length to = 20%nat)
    then (AddBalance to (m_Value msg) (SubBalance (m_From msg) (m_Value msg) s), mkOutcome [] gas None)
    else (s, mkOutcome [] 0 (Some "invalid address"%string))
  | _, _ => (s, mkOutcome [] 0 (Some "invalid opcode: INVALID"%string))
  end.

#[export] Instance ref_evm : EvmLib (chain ref_chain) := {|
  evm_Create _ _ msg gas s := (AddRefund 0 s, mkOutcome [] 0 (Some "invalid opcode: INVALID"%string));
  evm_Call _ _ msg gas s := (AddRefund 0 (interpret msg gas s).1, (interpret msg gas s).2);
  ApplyAuthorizations l s := (s, 12500 * Z.of_nat (length l));
  PrecompiledAddressesBerlin := []; CreateAddress a n := a; LogsBloom _ := 1 |}.

Lemma refund_AddRefund (s : StateDB (chain ref_chain)) : 0 <= refund (AddRefund 0 s).
Proof. unfold AddRefund. cbn [refund with_refund]. apply wrapU_range. lia. Qed.

Lemma interpret_gas msg gas s : 0 <= gas -> 0 <= out_leftover (interpret msg gas s).2 <= gas.
Proof. intros H. unfold interpret. destruct (m_To msg), (m_Data msg); cbn; try lia. case_decide; cbn; lia. Qed.

#[export] Instance ref_gas_laws : EvmGasLaws (X := ref_chain).
Proof.
  split.
  - intros ctx cfg msg gas s H. cbn. lia.
  - intros ctx cfg msg gas s. apply interpret_gas.
  - intros ctx cfg msg gas s. apply refund_AddRefund.
  - intros ctx cfg msg gas s. apply refund_AddRefund.
  - intros l s. cbn. lia.
  - intros data al c h i g [= <-]. destruct c; lia.
Qed.

Lemma step_AddRefund (s : StateDB (chain ref_chain)) : rtc tx_step s (AddRefund 0 s).
Proof. by apply (stepping_op (OAddRefund 0) I). Qed.

Lemma interpret_steps msg gas s : rtc tx_step s (interpret msg gas s).1.
Proof.
  unfold interpret. destruct (m_To msg) as [to|], (m_Data msg); try apply rtc_refl. case_decide as H; [|apply rtc_refl]. destruct H as [H1 H2].
  etransitivity; [by apply (stepping_op (OSubBalance (m_From msg) (m_Value msg)) H1)|].
  by apply (stepping_op (OAddBalance to (m_Value msg)) H2).
Qed.

#[export] Instance ref_pure : EvmPure (X := ref_chain).
Proof.
  split.
  - intros ctx cfg msg gas s. apply step_AddRefund.
  - intros ctx cfg msg gas s. etransitivity; [apply interpret_steps|apply step_AddRefund].
  - intros l s. apply rtc_refl.
Qed.

(** * Signatures: the sender is in the signature *)

Definition data_sender (d : EthData) : bytes := replicate 20 (default 0 (data_sig d).1.2).

#[export] Instance ref_signer : TxSigner EthData := {|
  AsMessage _ _ d base :=
    Some (mkMessage (data_sender d) (tx_To d) (tx_Nonce d) (tx_Value d) (tx_Gas d)
      (match base with Some b => Z.min (tx_GasTipCap d + b) (tx_GasFeeCap d) | None => tx_GasPrice d end)
      (tx_GasFeeCap d) (tx_GasTipCap d) (tx_Data d) (default [] (tx_AccessList d)));
  tx_Hash _ := replicate 32 7; tx_Protected _ := true |}.

#[export] Instance ref_signer_laws : SignerLaws EthData.
Proof. split. intros p h tx b msg [= <-]. done. Qed.

#[export] Instance ref_sender : SenderLib EthData := {| Sender _ _ d := Some (data_sender d) |}.

#[export] Instance ref_sender_laws : SenderLaws EthData.
Proof. split. cbn. congruence. Qed.

(** * A transfer from Alice, who has 10^18 coins and sequence 7, to Bob *)

Definition gwei : Z := 10 ^ 9.

Definition accounts1 : gmap bytes AccountI :=
  {[ StateDBCases.alice := mkAcct StateDBCases.alice 7 (Some EmptyCodeHash);
     evm_address (X := ref_chain) := mkAcct (evm_address (X := ref_chain)) 0 None ]}.

Definition chain1 : chain ref_chain :=
  mkChain {[ KeyPrefixParams := VParams (mkParams "ahpx" true true false []) ]}
    ({[ (StateDBCases.alice, "ahpx"%string) := 10 ^ 18 ]}, accounts1).

Lemma chain1_valid : evm_valid chain1.
Proof.
  assert (forall a key v, evm_store chain1 !! StateKey a key <> Some v) as Hn.
  { intros a key v H. cbn [chain1 evm_store] in H. apply lookup_singleton_Some in H as [H _]. discriminate H. }
  split.
  - exists (mkAcct evm_address 0 None). split; [by vm_compute|done].
  - by vm_compute.
  - intros a key v _ H. by apply Hn in H.
  - intros a key _ _. destruct (evm_store chain1 !! StateKey a key) as [v|] eqn:E; [by apply Hn in E|done].
  - intros h c _. unfold GetCode, get_bytes, chain1. cbn [evm_store]. by rewrite lookup_singleton_ne by done.
Qed.

Definition ctx1 : EvmCtx := mkEvmCtx 100 1700000000 (replicate 32 5) (Some (40000000, 0)) (Some 40000000) false false [].

Definition transfer_with (nonce : Z) : TxData :=
  TxDynamicFee (mkDynamic (Some 229) nonce (Some 2) (Some (2 * gwei)) 60000 (AddressHex StateDBCases.bob) (Some 5) [] None [] [1] []).

Definition transfer : TxData := transfer_with 7.

Definition transfer_tx : EthData := NewTx (AsEthereumData transfer).

Definition msg1 : Message :=
  mkMessage StateDBCases.alice (Some StateDBCases.bob) 7 5 60000 (gwei + 2) (2 * gwei) 2 [] [].

Definition config1 : EVMConfig := mkConfig (mkParams "ahpx" true true false []) StateDBCases.bob (Some gwei) [].

Definition response {S E} (r : S * result E MsgEthereumTxResponse) : MsgEthereumTxResponse :=
  match r.2 with Ok res => res | _ => mkResponse 0 "" [] [] [] end.

Definition run1 : chain ref_chain * result evmerror MsgEthereumTxResponse := ApplyMessageWithConfig ctx1 msg1 true config1 cfg0 chain1.

Lemma run1_ok : run1 = (run1.1, Ok (response run1)).
Proof. apply run_eq. vm_compute. reflexivity. Qed.

(** Half of the limit is charged, more than the 21000 of the transfer. *)
Lemma message_gas_charged_witness : res_GasUsed (response run1) = 30000 /\
  exists intrinsic auth s out, runs ctx1 msg1 config1 cfg0 chain1 intrinsic auth s out /\
    let used := m_Gas msg1 - out_leftover out in
    let refunded := Z.min (refund s) (used / quotient ctx1 config1) in
    intrinsic + auth <= used /\ 0 <= refunded /\
    res_GasUsed (response run1) = Z.max (m_Gas msg1 * GetMinGasMultiplier (rest run1.1) / dec_one) (used - refunded) /\
    res_VmError (response run1) = default ""%string (out_err out) /\ res_Ret (response run1) = out_ret out /\
    intrinsic - intrinsic / quotient ctx1 config1 <= res_GasUsed (response run1) <= m_Gas msg1.
Proof.
  split; [vm_compute; reflexivity|].
  apply (message_gas_charged ctx1 msg1 true config1 cfg0 chain1 run1.1 (response run1) run1_ok); [cbn; lia|apply fm_validated].
Defined.

Lemma message_persists_witness :
  (true = false -> run1.1 = chain1) /\
  (true = true -> exists i a s out, runs ctx1 msg1 config1 cfg0 chain1 i a s out /\
     evm_valid run1.1 /\ code_kept chain1 run1.1 /\ forall b, length b = 20%nat -> persisted s run1.1 b).
Proof.
  apply (message_persists ctx1 msg1 true config1 cfg0 chain1 run1.1 (Ok (response run1)) chain1_valid); [done|cbn; lia|exact run1_ok].
Defined.

(** * The checks before execution *)

Definition message_with (nonce : Z) (from : string) : option MsgEthereumTx := Some (mkMsgTx (Some (transfer_with nonce)) 0 "0x07" from).

Definition tx1 : CosmosTx := mkCosmosTx [] (Some ErrNoSignatures) "" 0 0 1 0 "" "" 0 [("ahpx"%string, 120000 * gwei)] 60000.

Definition ante1 (msgs : list (option MsgEthereumTx)) : ante_state ref_chain := mkAnte chain1 ∅ None 0 None [] msgs.

Definition signed_by_alice : list (option MsgEthereumTx) :=
  [message_with 7 (AddressHex StateDBCases.alice); message_with 8 (AddressHex StateDBCases.alice)].

Definition seq_run : ante_state ref_chain * result evmerror unit := EthIncrementSenderSequence (ante1 signed_by_alice).

(** Two messages of Alice in a row. *)
Lemma nonces_are_consumed_witness :
  seq_of seq_run.1 StateDBCases.alice = Some 9 /\
  (@Ok evmerror unit tt = Ok tt <-> nonces_follow (seq_of (ante1 signed_by_alice)) signed_by_alice) /\
  (@Ok evmerror unit tt = Ok tt -> forall a, seq_of seq_run.1 a = q ← seq_of (ante1 signed_by_alice) a; Some (q + count_from a signed_by_alice)).
Proof.
  split; [vm_compute; reflexivity|]. apply (nonces_are_consumed (ante1 signed_by_alice) seq_run.1 (Ok tt)).
  - intros a q H. unfold seq_of in H. apply fmap_Some in H as (acc & H & ->). change (ak_GetAccount (rest_of (ante1 signed_by_alice)) a) with (acc ← accounts1 !! a; if decide (acct_address acc = a) then Some acc else None) in H.
    apply bind_Some in H as (acc' & H & Hd). case_decide; [|done]. injection Hd as ->.
    unfold accounts1 in H. rewrite lookup_insert_Some, lookup_singleton_Some in H. destruct H as [[<- <-]|[_ [<- <-]]]; cbn; lia.
  - apply run_eq. vm_compute. reflexivity.
Defined.

Definition ante_run : ante_state ref_chain * result evmerror unit :=
  newEVMAnteHandler (Tx := EthData) (10 ^ 18) ctx1 false 0 tx1 (ante1 [message_with 7 ""]).

(** The transfer is accepted, and refused when it comes back. *)
Lemma no_replay_witness :
  ante_run.2 = Ok tt /\ seq_of ante_run.1 StateDBCases.alice = Some 8 /\
  forall w3, newEVMAnteHandler (Tx := EthData) (10 ^ 18) ctx1 false 0 tx1 (with_msgs [message_with 7 ""] ante_run.1) <> (w3, Ok tt).
Proof.
  split; [vm_compute; reflexivity|]. split; [vm_compute; reflexivity|].
  apply (no_replay (Tx := EthData) (10 ^ 18) ctx1 false 0 tx1 (ante1 [message_with 7 ""]) ante_run.1 (10 ^ 18) ctx1 false 0 tx1
    (with_msgs [message_with 7 ""] ante_run.1) (mkMsgTx (Some (transfer_with 7)) 0 "0x07" "") []).
  - apply run_eq. vm_compute. reflexivity.
  - reflexivity.
  - intros t [= <-]. cbn. lia.
  - intros t [= <-]. cbn. lia.
  - reflexivity.
  - intros a q H. exists q. split; [exact H|lia].
Defined.

Definition fee_run : ante_state ref_chain * result evmerror unit := EthGasConsume (10 ^ 18) ctx1 0 (ante1 signed_by_alice).

(** Two fees of 60000 gas at the base fee and a tip of two. *)
Lemma fees_are_collected_witness :
  collected fee_run.1 "ahpx" = 120000 * (gwei + 2) /\
  (forall d, collected fee_run.1 d = collected (ante1 signed_by_alice) d +
    if bool_decide (d = EvmDenom (GetParams chain1)) then sumZ (msg_fee gwei) signed_by_alice else 0) /\
  Forall (fun m => exists m0 t cap, m = Some m0 /\ msg_Data m0 = Some t /\ GetGasFeeCap t = Some cap /\ gwei <= cap) signed_by_alice /\
  (ec_IsCheckTx ctx1 = false ->
    let gas := u64 (sumZ msg_gas signed_by_alice) in gas <= BlockGasLimit ctx1 /\ an_meter fee_run.1 = Some (mkMeter 0 gas)).
Proof.
  split; [vm_compute; reflexivity|]. apply (fees_are_collected (10 ^ 18) ctx1 0 (ante1 signed_by_alice) fee_run.1 gwei).
  - apply run_eq. vm_compute. reflexivity.
  - reflexivity.
  - vm_compute. reflexivity.
  - unfold gwei. lia.
  - repeat constructor; try (intros E; vm_compute in E; discriminate E); cbn; lia.
Defined.

(** * The fee and the execution *)

Definition paid : ref_chain * result evmerror unit :=
  DeductTxCostsFromUserBalance [("ahpx"%string, 60000 * (gwei + 2))] StateDBCases.alice (rest chain1).

Definition exec1 : exec_state (X := ref_chain) := mkExec (with_rest paid.1 chain1) ∅ (mkMeter 0 60000).

Definition no_hook (m : Message) (r : Receipt) (k : chain ref_chain) : chain ref_chain * (list Log * option Z) := (k, (rc_Logs r, None)).

Definition exec_run : exec_state (X := ref_chain) * result evmerror MsgEthereumTxResponse :=
  ApplyTransaction (Tx := EthData) ctx1 (Some no_hook) transfer_tx exec1.

(** Alice pays for 30000 gas. *)
Lemma gas_is_paid_once_witness :
  Ledger.GetBalance (rest (x_chain exec_run.1)) StateDBCases.alice "ahpx" = 10 ^ 18 - 5 - 30000 * (gwei + 2) /\
  exists price coinbase msg k' res0 k1,
    tx_EffectiveGasPrice transfer (Some gwei) = Some price /\ gwei <= price /\
    GetCoinbaseAddress (rest (x_chain exec1)) = Some coinbase /\
    AsMessage (GetParams (x_chain exec1)) (ec_Height ctx1) transfer_tx (Some gwei) = Some msg /\
    ApplyMessageWithConfig ctx1 msg true (with_auths ctx1 transfer_tx (x_chain exec1) (mkConfig (GetParams (x_chain exec1)) coinbase (Some gwei) []))
      (TxConfig_of ctx1 (tx_Hash transfer_tx) (x_transient exec1)) (x_chain exec1) = (k', Ok res0) /\
    res_GasUsed (response exec_run) = res_GasUsed res0 /\ 0 <= res_GasUsed (response exec_run) <= GetGas transfer /\
    scoped (Some no_hook) transfer_tx msg (tx_Hash transfer_tx) res0 (response exec_run) (x_chain exec1) k' k1 /\
    forall a d, Ledger.GetBalance (rest (x_chain exec_run.1)) a d = Ledger.GetBalance (rest chain1) a d
      + (Ledger.GetBalance (rest k1) a d - Ledger.GetBalance (rest (x_chain exec1)) a d)
      + flow StateDBCases.alice (GetModuleAddress (X := ref_chain) FeeCollectorName) (EvmDenom (GetParams (x_chain exec1))) (res_GasUsed (response exec_run) * price) a d.
Proof.
  split; [vm_compute; reflexivity|].
  apply (gas_is_paid_once (Tx := EthData) ctx1 no_hook transfer gwei [("ahpx"%string, 60000 * (gwei + 2))] true true false
    StateDBCases.alice (rest chain1) paid.1 exec1).
  - vm_compute. reflexivity.
  - unfold gwei. lia.
  - cbn. lia.
  - vm_compute. reflexivity.
  - apply run_eq. vm_compute. reflexivity.
  - intros a d. reflexivity.
  - vm_compute. reflexivity.
  - intros msg [= <-]. vm_compute. reflexivity.
  - apply run_eq. vm_compute. reflexivity.
Defined.
