(* ===== verification/Sha256.v ===== *)
(** SHA-256 ([crypto/sha256] of Go's standard library), by FIPS 180-4.

    Words are integers below [2^32]; a digest is 32 bytes. *)

From stdpp Require Import base list.
From Stdlib Require Import ZArith Lia.
From S2P Require Import Prelude.
Open Scope Z_scope.

Module Fips180.

Definition add32 (a b : Z) : Z := Z.land (a + b) 0xffffffff.
Definition rotr (n x : Z) : Z := Z.lor (Z.shiftr x n) (Z.land (Z.shiftl x (32 - n)) 0xffffffff).

Definition Ch (x y z : Z) : Z := Z.lxor (Z.land x y) (Z.land (Z.lxor x 0xffffffff) z).
Definition Maj (x y z : Z) : Z := Z.lxor (Z.lxor (Z.land x y) (Z.land x z)) (Z.land y z).
Definition Sigma0 (x : Z) : Z := Z.lxor (Z.lxor (rotr 2 x) (rotr 13 x)) (rotr 22 x).
Definition Sigma1 (x : Z) : Z := Z.lxor (Z.lxor (rotr 6 x) (rotr 11 x)) (rotr 25 x).
Definition sigma0 (x : Z) : Z := Z.lxor (Z.lxor (rotr 7 x) (rotr 18 x)) (Z.shiftr x 3).
Definition sigma1 (x : Z) : Z := Z.lxor (Z.lxor (rotr 17 x) (rotr 19 x)) (Z.shiftr x 10).

(** The constants are the first 32 bits of the fractional parts of the square and cube
    roots of the first primes. *)
Definition is_prime (n : Z) : bool := forallb (fun d => negb (n mod d =? 0)) (seqZ 2 (n - 2)).
Definition primes (bound : Z) : list Z := filter (fun n => is_prime n = true) (seqZ 2 (bound - 2)).

(** The integer cube root of [n], one bit at a time from bit [i] down. *)
Fixpoint cube_root (i : nat) (n r : Z) : Z :=
  let r' := r + 2 ^ Z.of_nat i in
  let r := if r' * r' * r' <=? n then r' else r in
  match i with O => r | S i => cube_root i n r end.

Definition round_constants : list Z :=
  Eval vm_compute in (fun p => Z.land (cube_root 40 (p * 2 ^ 96) 0) 0xffffffff) <$> primes 312.

(** The eight words of the state. *)
Record state := mkState { sa : Z; sb : Z; sc : Z; sd : Z; se : Z; sf : Z; sg : Z; sh : Z }.

Definition initial : state :=
  Eval vm_compute in
    let w p := Z.land (Z.sqrt (p * 2 ^ 64)) 0xffffffff in
    mkState (w 2) (w 3) (w 5) (w 7) (w 11) (w 13) (w 17) (w 19).

Definition round (s : state) (k w : Z) : state :=
  let t1 := add32 (add32 (add32 (sh s) (Sigma1 (se s))) (add32 (Ch (se s) (sf s) (sg s)) k)) w in
  let t2 := add32 (Sigma0 (sa s)) (Maj (sa s) (sb s) (sc s)) in
  mkState (add32 t1 t2) (sa s) (sb s) (sc s) (add32 (sd s) t1) (se s) (sf s) (sg s).

(** The schedule: the window holds the last sixteen words, the newest last. *)
Fixpoint rounds (ks : list Z) (window : list Z) (s : state) : state :=
  match ks with
  | [] => s
  | k :: ks =>
    let w0 := nth 0 window 0 in
    let next := add32 (add32 (sigma1 (nth 14 window 0)) (nth 9 window 0)) (add32 (sigma0 (nth 1 window 0)) w0) in
    rounds ks (tail window ++ [next]) (round s k w0)
  end.

Definition compress (s : state) (window : list Z) : state :=
  let r := rounds round_constants window s in
  mkState (add32 (sa s) (sa r)) (add32 (sb s) (sb r)) (add32 (sc s) (sc r)) (add32 (sd s) (sd r))
    (add32 (se s) (se r)) (add32 (sf s) (sf r)) (add32 (sg s) (sg r)) (add32 (sh s) (sh r)).

(** Sixteen words of four bytes at a time. *)
Fixpoint words (n : nat) (data : bytes) : list Z :=
  match n with O => [] | S n => be_decode (take 4 data) :: words n (drop 4 data) end.

Fixpoint blocks (n : nat) (data : bytes) (s : state) : state :=
  match n with O => s | S n => blocks n (drop 64 data) (compress s (words 16 data)) end.

Definition padded (data : bytes) : bytes :=
  let l := Z.of_nat (length data) in
  data ++ [128] ++ replicate (Z.to_nat ((55 - l) mod 64)) 0 ++ be8 (8 * l).

Definition digest (s : state) : bytes := mjoin (be_encode 4 <$> [sa s; sb s; sc s; sd s; se s; sf s; sg s; sh s]).

Lemma length_digest s : length (digest s) = 32%nat.
Proof. unfold digest. cbn -[be_encode]. rewrite !length_app, !length_be_encode. done. Qed.

End Fips180.

Definition sha256 (data : bytes) : bytes :=
  let p := Fips180.padded data in Fips180.digest (Fips180.blocks (length p / 64) p Fips180.initial).

Lemma length_sha256 data : length (sha256 data) = 32%nat.
Proof. apply Fips180.length_digest. Qed.

Lemma sha256_ok data : bytes_ok (sha256 data).
Proof. unfold sha256, Fips180.digest, bytes_ok. cbn -[be_encode]. rewrite !Forall_app. split_and!; first [apply be_encode_ok|constructor]. Qed.

(** The digests of the empty string and of [abc]. *)
Example sha256_empty : be_decode (sha256 []) = 0xe3b0c44298fc1c149afbf4c8996fb92427ae41e4649b934ca495991b7852b855.
Proof. vm_compute. reflexivity. Qed.

Example sha256_abc : be_decode (sha256 [97; 98; 99]) = 0xba7816bf8f01cfea414140de5dae2223b00361a396177a9cb410ff61f20015ad.
Proof. vm_compute. reflexivity. Qed.

#[global] Opaque sha256.
