(* ===== verification/IavlEncoding.v ===== *)
(** [third_party/iavl]: the encodings of the tree store.

    Variable-length integers and byte strings of [internal/encoding/encoding.go] over
    [encoding/binary], the key formats of [keyformat/key_format.go] and the entries
    of the fast index ([fastnode/fast_node.go]).  [int] is 64 bits wide. *)

From stdpp Require Import base list gmap strings.
From Stdlib Require Import ZArith Lia.
From S2P Require Import Prelude.
Open Scope Z_scope.

Definition blen {A} (l : list A) : Z := Z.of_nat (length l).

(** * [encoding/binary] *)

Definition MaxVarintLen64 : nat := 10.

Fixpoint put_uvarint (fuel : nat) (x : Z) : bytes :=
  match fuel with
  | O => []
  | S fuel => if 0x80 <=? x then Z.lor (u8 x) 0x80 :: put_uvarint fuel (Z.shiftr x 7) else [u8 x]
  end.

Definition PutUvarint (x : Z) : bytes := put_uvarint MaxVarintLen64 x.

(** The value and the number of bytes read: zero for a short buffer, negative for a
    value above 64 bits. *)
Fixpoint uvarint (buf : bytes) (i x s : Z) : Z * Z :=
  match buf with
  | [] => (0, 0)
  | b :: buf =>
    if i =? Z.of_nat MaxVarintLen64 then (0, - (i + 1))
    else if b <? 0x80 then
      if (i =? Z.of_nat MaxVarintLen64 - 1) && (1 <? b) then (0, - (i + 1))
      else (Z.lor x (u64 (Z.shiftl b s)), i + 1)
    else uvarint buf (i + 1) (Z.lor x (u64 (Z.shiftl (Z.land b 0x7f) s))) (s + 7)
  end.

Definition Uvarint (buf : bytes) : Z * Z := uvarint buf 0 0 0.

Definition PutVarint (x : Z) : bytes :=
  let ux := u64 (Z.shiftl x 1) in
  PutUvarint (if x <? 0 then u64 (Z.lnot ux) else ux).

Definition Varint (buf : bytes) : Z * Z :=
  let '(ux, n) := Uvarint buf in
  let x := Z.shiftr ux 1 in
  (if negb (Z.land ux 1 =? 0) then Z.lnot x else x, n).

(** [bits.Len64] *)
Definition Len64 (x : Z) : Z := if x =? 0 then 0 else Z.log2 x + 1.

(** * [internal/encoding/encoding.go] *)

Inductive enc_error := ErrBufferTooSmall | ErrOverflow | ErrOutOfRange | ErrInsufficientBytes.

(** The value and the number of bytes read. *)
Definition DecodeUvarint (bz : bytes) : result enc_error (Z * Z) :=
  let '(u, n) := Uvarint bz in
  if n =? 0 then Err ErrBufferTooSmall else if n <? 0 then Err ErrOverflow else Ok (u, n).

Definition DecodeVarint (bz : bytes) : result enc_error (Z * Z) :=
  let '(i, n) := Varint bz in
  if n =? 0 then Err ErrBufferTooSmall else if n <? 0 then Err ErrOverflow else Ok (i, n).

Definition DecodeBytes (bz : bytes) : result enc_error (bytes * Z) :=
  '(s, n) ← DecodeUvarint bz;
  let size := i64 s in
  if (2 ^ 63 - 1 <=? s) || (size <? 0) then Err ErrOutOfRange
  else
    let end_ := i64 (n + size) in
    if end_ <? n then Err ErrOutOfRange
    else if blen bz <? end_ then Err ErrInsufficientBytes
    else Ok (take (Z.to_nat size) (drop (Z.to_nat n) bz), end_).

(** A writer to memory does not fail: what is written. *)
Definition EncodeUvarint (u : Z) : bytes := PutUvarint u.
Definition EncodeVarint (i : Z) : bytes := PutVarint i.
Definition EncodeBytes (bz : bytes) : bytes := EncodeUvarint (blen bz) ++ bz.

Definition EncodeUvarintSize (u : Z) : Z := if u =? 0 then 1 else (Len64 u + 6) / 7.
Definition EncodeVarintSize (i : Z) : Z := blen (PutVarint i).
Definition EncodeBytesSize (bz : bytes) : Z := EncodeUvarintSize (blen bz) + blen bz.

(** * [keyformat/key_format.go] *)

Record KeyFormat := mkKeyFormat { layout : list nat; kf_length : nat; kf_prefix : Z; unbounded : bool }.

(** [None] is the panic on a zero that is not the last item. *)
Definition NewKeyFormat (prefix : Z) (lay : list nat) : option KeyFormat :=
  if forallb (fun l => negb (Nat.eqb l 0)) (removelast lay)
  then Some (mkKeyFormat lay (1 + sum_list lay) prefix (match last lay with Some O => true | _ => false end)) else None.

(** One segment after the other, filled up with zeros on the left. *)
Fixpoint key_segments (lay : list nat) (segments : list bytes) : option bytes :=
  match segments, lay with
  | [], _ => Some []
  | _ :: _, [] => None
  | s :: segments, l :: lay =>
    if Nat.eqb l 0 then rest ← key_segments lay segments; Some (s ++ rest)
    else if Nat.ltb l (length s) then None
    else rest ← key_segments lay segments; Some (replicate (l - length s) 0 ++ s ++ rest)
  end.

Definition KeyBytes (kf : KeyFormat) (segments : list bytes) : option bytes :=
  rest ← key_segments (layout kf) segments; Some (kf_prefix kf :: rest).

(** A segment argument: an integer, formatted as eight bytes, or bytes. *)
Inductive segment := SegInt (v : Z) | SegBytes (b : bytes).

Definition format (a : segment) : bytes := match a with SegInt v => be8 (u64 v) | SegBytes b => b end.

Definition Key (kf : KeyFormat) (args : list segment) : option bytes :=
  if Nat.ltb (length (layout kf)) (length args) then None else KeyBytes kf (format <$> args).

(** The segments of a key, from the position [n] on. *)
Fixpoint scan_segments (lay : list nat) (key : bytes) (n : nat) : list bytes :=
  match lay with
  | [] => []
  | l :: lay =>
    let n := (n + l)%nat in
    if Nat.ltb (length key) n then []
    else if Nat.eqb l 0 then [drop n key]
    else take l (drop (n - l) key) :: scan_segments lay key n
  end.

Definition ScanBytes (kf : KeyFormat) (key : bytes) : list bytes := scan_segments (layout kf) key 1.

(** [binary.BigEndian.Uint64] reads eight bytes and panics on fewer. *)
Definition scan_int64 (value : bytes) : option Z :=
  if Nat.ltb (length value) 8 then None else Some (i64 (be_decode (take 8 value))).

(** * [fastnode/fast_node.go] *)

Record FastNode := mkFast { fn_key : bytes; versionLastUpdatedAt : Z; fn_value : bytes }.

Definition DeserializeNode (key buf : bytes) : result enc_error FastNode :=
  '(ver, n) ← DecodeVarint buf;
  '(val, _) ← DecodeBytes (drop (Z.to_nat n) buf);
  Ok (mkFast key ver val).

Definition fast_WriteBytes (fn : FastNode) : bytes := EncodeVarint (versionLastUpdatedAt fn) ++ EncodeBytes (fn_value fn).
Definition fast_EncodedSize (fn : FastNode) : Z := EncodeVarintSize (versionLastUpdatedAt fn) + EncodeBytesSize (fn_value fn).

(** * Integers *)

Lemma blen_app {A} (l1 l2 : list A) : blen (l1 ++ l2) = blen l1 + blen l2.
Proof. unfold blen. rewrite length_app. lia. Qed.

Lemma blen_nonneg {A} (l : list A) : 0 <= blen l.
Proof. unfold blen. lia. Qed.

Lemma lor_add a b s : 0 <= s -> 0 <= a < 2 ^ s -> Z.lor a (b * 2 ^ s) = a + b * 2 ^ s.
Proof.
  intros Hs Ha. pose proof (Z.add_lor_land a (b * 2 ^ s)) as E. assert (Z.land a (b * 2 ^ s) = 0) as E0; [|lia].
  apply Z.bits_inj'. intros n Hn. rewrite Z.land_spec, Z.bits_0, <- Z.shiftl_mul_pow2 by done.
  destruct (Z.lt_ge_cases n s) as [Hlt|Hge]; [rewrite Z.shiftl_spec_low by done; apply andb_false_r|].
  destruct (decide (a = 0)) as [->|]; [by rewrite Z.bits_0|]. rewrite (Z.bits_above_log2 a n); [done|lia|].
  apply Z.log2_lt_pow2; [lia|]. eapply Z.lt_le_trans; [apply Ha|]. apply Z.pow_le_mono_r; lia.
Qed.

Lemma continued x : 0 <= x -> Z.land (Z.lor (u8 x) 0x80) 0x7f = x mod 128 /\ 0x80 <= Z.lor (u8 x) 0x80 < 256.
Proof.
  intros Hx. assert (0 <= u8 x < 256) as Hb by (apply (wrapU_range 8); lia). split.
  - rewrite Z.land_lor_distr_l. change (Z.land 0x80 0x7f) with 0. rewrite Z.lor_0_r.
    change 0x7f with (Z.ones 7). rewrite Z.land_ones by lia. unfold wrapU. change (2 ^ 8) with (128 * 2). change (2 ^ 7) with 128.
    rewrite Z.rem_mul_r by lia. rewrite Z.mul_comm, Z.mod_add, Z.mod_mod by lia. done.
  - rewrite <- (Z.shiftl_1_l 7) at 1. split.
    + pose proof (Z.lor_nonneg (u8 x) 0x80). assert (Z.testbit (Z.lor (u8 x) 0x80) 7 = true) as Ht.
      { rewrite Z.lor_spec. by rewrite orb_true_r. }
      destruct (Z.lt_ge_cases (Z.lor (u8 x) 0x80) 128) as [Hlt|]; [|done].
      rewrite (Z.bits_above_log2 _ 7) in Ht; [done|lia|]. destruct (decide (Z.lor (u8 x) 0x80 = 0)) as [->|]; [cbn; lia|].
      apply Z.log2_lt_pow2; lia.
    + assert (Z.lor (u8 x) 128 <> 0) by (intros H0; apply Z.lor_eq_0_iff in H0; lia).
      assert (0 <= Z.lor (u8 x) 128) by (apply Z.lor_nonneg; lia). change 256 with (2 ^ 8). apply Z.log2_lt_pow2; [lia|].
      rewrite Z.log2_lor by lia. apply Z.max_lub_lt; [|cbn; lia]. destruct (decide (u8 x = 0)) as [->|]; [cbn; lia|].
      apply Z.log2_lt_pow2; [lia|]. apply (wrapU_range 8). lia.
Qed.

Lemma uvarint_put fuel : forall x rest i acc, (0 < fuel)%nat -> i = 10 - Z.of_nat fuel -> 0 <= i ->
  0 <= x < 2 ^ (64 - 7 * i) -> 0 <= acc < 2 ^ (7 * i) ->
  uvarint (put_uvarint fuel x ++ rest) i acc (7 * i) = (acc + x * 2 ^ (7 * i), i + blen (put_uvarint fuel x)).
Proof.
  induction fuel as [|fuel IH]; intros x rest i acc Hf Hi H0 Hx Ha; [lia|]. cbn [put_uvarint].
  assert (2 ^ 64 = 2 ^ (64 - 7 * i) * 2 ^ (7 * i)) as H64 by (rewrite <- Z.pow_add_r by lia; f_equal; lia).
  pose proof (Z.pow_pos_nonneg 2 (7 * i) ltac:(lia) ltac:(lia)).
  destruct (Z.leb_spec 0x80 x) as [Hbig|Hsmall]; cbn [app uvarint]; rewrite (proj2 (Z.eqb_neq i _)) by (unfold MaxVarintLen64; lia).
  - destruct (continued x ltac:(lia)) as [Hl Hb]. rewrite (proj2 (Z.ltb_ge _ _)) by lia. rewrite Hl.
    pose proof (Z.mod_pos_bound x 128 ltac:(lia)) as Hm. pose proof (Z.div_mod x 128 ltac:(lia)) as Hd.
    assert (7 <= 64 - 7 * i) as H7.
    { destruct (Z.le_gt_cases 7 (64 - 7 * i)); [done|]. exfalso. assert (2 ^ (64 - 7 * i) <= 2 ^ 6) by (apply Z.pow_le_mono_r; lia). lia. }
    rewrite Z.shiftl_mul_pow2 by lia. rewrite (wrapU_small 64) by (pose proof (Z.mod_le x 128 ltac:(lia) ltac:(lia)); nia).
    rewrite lor_add by lia. replace (7 * i + 7) with (7 * (i + 1)) by lia.
    assert (2 ^ (7 * (i + 1)) = 128 * 2 ^ (7 * i)) as Hp by (replace (7 * (i + 1)) with (7 + 7 * i) by lia; rewrite Z.pow_add_r by lia; done).
    assert (Z.shiftr x 7 = x / 128) as Hs by (by rewrite Z.shiftr_div_pow2 by lia). rewrite Hs.
    rewrite IH; [rewrite Hp; unfold blen; cbn [length]; f_equal; nia| |lia|lia| |rewrite Hp; nia].
    + destruct fuel; [|lia]. replace i with 9 in Hx by lia. change (2 ^ (64 - 7 * 9)) with 2 in Hx. lia.
    + split; [apply Z.div_pos; lia|]. apply Z.div_lt_upper_bound; [lia|]. change 128 with (2 ^ 7). rewrite <- Z.pow_add_r by lia.
      replace (7 + (64 - 7 * (i + 1))) with (64 - 7 * i) by lia. lia.
  - assert (u8 x = x) as -> by (apply wrapU_small; lia). rewrite (proj2 (Z.ltb_lt x _)) by done.
    assert ((i =? Z.of_nat MaxVarintLen64 - 1) && (1 <? x) = false) as ->.
    { destruct (Z.eqb_spec i (Z.of_nat MaxVarintLen64 - 1)) as [E|]; [|done]. change (i = 9) in E. rewrite E in Hx.
      change (2 ^ (64 - 7 * 9)) with 2 in Hx. apply Z.ltb_ge. lia. }
    rewrite Z.shiftl_mul_pow2 by lia. rewrite (wrapU_small 64) by nia. by rewrite lor_add by lia.
Qed.

Lemma Uvarint_roundtrip x rest : 0 <= x < 2 ^ 64 -> Uvarint (PutUvarint x ++ rest) = (x, blen (PutUvarint x)).
Proof.
  intros Hx. unfold Uvarint, PutUvarint. change 0 with (7 * 0) at 3.
  rewrite uvarint_put; [f_equal; lia|unfold MaxVarintLen64; lia|done|lia|done|cbn; lia].
Qed.

Definition zigzag (x : Z) : Z := if x <? 0 then - (2 * x) - 1 else 2 * x.

Lemma zigzag_range x : - 2 ^ 63 <= x < 2 ^ 63 -> 0 <= zigzag x < 2 ^ 64.
Proof. intros H. unfold zigzag. destruct (Z.ltb_spec x 0); lia. Qed.

Lemma PutVarint_zigzag x : - 2 ^ 63 <= x < 2 ^ 63 -> PutVarint x = PutUvarint (zigzag x).
Proof.
  intros H. unfold PutVarint, zigzag. f_equal. rewrite Z.shiftl_mul_pow2 by lia. change (2 ^ 1) with 2.
  destruct (Z.ltb_spec x 0) as [Hn|Hp]; [|rewrite wrapU_small; lia].
  assert (u64 (x * 2) = x * 2 + 2 ^ 64) as ->.
  { unfold wrapU. rewrite <- (Z.mod_add (x * 2) 1 (2 ^ 64)) by lia. rewrite Z.mod_small; lia. }
  rewrite Z.lnot_eq_pred_opp || unfold Z.lnot. unfold wrapU. rewrite <- (Z.mod_add _ 1 (2 ^ 64)) by lia. rewrite Z.mod_small; lia.
Qed.

Lemma Varint_roundtrip x rest : - 2 ^ 63 <= x < 2 ^ 63 -> Varint (PutVarint x ++ rest) = (x, blen (PutVarint x)).
Proof.
  intros H. pose proof (zigzag_range x H) as Hz. rewrite PutVarint_zigzag by done. unfold Varint.
  rewrite Uvarint_roundtrip by done. cbn. f_equal. unfold zigzag in *.
  rewrite (Z.land_ones _ 1) by lia || change 1 with (Z.ones 1); rewrite ?Z.land_ones by lia. change (2 ^ 1) with 2.
  destruct (Z.ltb_spec x 0) as [Hn|Hp].
  - replace (- (2 * x) - 1) with (1 + (- x - 1) * 2) by lia. rewrite Z.mod_add by lia. cbn [negb Z.eqb Z.modulo].
    change (1 mod 2 =? 0) with false. cbn [negb]. rewrite Z.shiftr_div_pow2 by lia. change (2 ^ 1) with 2.
    rewrite Z.div_add by lia. unfold Z.lnot. change (1 / 2) with 0. lia.
  - rewrite Z.mul_comm, Z.mod_mul by lia. change (0 =? 0) with true. cbn [negb]. rewrite Z.shiftr_div_pow2 by lia. change (2 ^ 1) with 2.
    by rewrite Z.div_mul by lia.
Qed.

Lemma size_put_uvarint fuel : forall x, (0 < fuel)%nat -> 0 <= x < 2 ^ (7 * Z.of_nat fuel) -> blen (put_uvarint fuel x) = EncodeUvarintSize x.
Proof.
  induction fuel as [|fuel IH]; intros x Hf Hx; [lia|]. cbn [put_uvarint]. unfold EncodeUvarintSize, Len64.
  destruct (Z.leb_spec 0x80 x) as [Hbig|Hsmall].
  - assert (Z.shiftr x 7 = x / 128) as Hs by (by rewrite Z.shiftr_div_pow2 by lia).
    assert (1 <= x / 128) as H1 by (apply Z.div_le_lower_bound; lia).
    assert (Z.log2 (x / 128) = Z.log2 x - 7) as Hl.
    { rewrite <- Hs. rewrite Z.log2_shiftr by lia. apply Z.max_r. assert (7 <= Z.log2 x); [|lia]. change 7 with (Z.log2 128). by apply Z.log2_le_mono. }
    assert (x / 128 < 2 ^ (7 * Z.of_nat fuel)) as Hlt.
    { apply Z.div_lt_upper_bound; [lia|]. change 128 with (2 ^ 7). rewrite <- Z.pow_add_r by lia. replace (7 + 7 * Z.of_nat fuel) with (7 * Z.of_nat (S fuel)) by lia. lia. }
    specialize (IH (x / 128)). unfold EncodeUvarintSize, Len64 in IH. rewrite (proj2 (Z.eqb_neq (x / 128) 0)), Hl in IH by lia.
    unfold blen in *. cbn [length]. rewrite Hs, Nat2Z.inj_succ, IH; [|destruct fuel; [cbn in Hlt; lia|lia]|lia].
    rewrite (proj2 (Z.eqb_neq x 0)) by lia. replace (Z.log2 x + 1 + 6) with (Z.log2 x - 7 + 1 + 6 + 1 * 7) by lia. rewrite Z.div_add; lia.
  - unfold blen. cbn [length]. destruct (Z.eqb_spec x 0); [done|]. assert (0 <= Z.log2 x <= 6) as Hl.
    { split; [apply Z.log2_nonneg|]. change 6 with (Z.log2 127). apply Z.log2_le_mono. lia. }
    apply Z.div_unique with (Z.log2 x); lia.
Qed.

(** The precomputed size is the size of the encoding. *)
Lemma EncodeUvarintSize_ok x : 0 <= x < 2 ^ 64 -> blen (EncodeUvarint x) = EncodeUvarintSize x.
Proof. intros H. apply size_put_uvarint; [unfold MaxVarintLen64; lia|]. change (2 ^ (7 * Z.of_nat MaxVarintLen64)) with (2 ^ 70). lia. Qed.

Lemma EncodeUvarintSize_bound x : 0 <= x < 2 ^ 64 -> 1 <= EncodeUvarintSize x <= 10.
Proof.
  intros H. unfold EncodeUvarintSize, Len64. destruct (Z.eqb_spec x 0); [lia|]. assert (0 <= Z.log2 x <= 63) as Hl.
  { split; [apply Z.log2_nonneg|]. change 63 with (Z.log2 (2 ^ 64 - 1)). apply Z.log2_le_mono. lia. }
  split; [apply Z.div_le_lower_bound; lia|]. apply Z.lt_succ_r, Z.div_lt_upper_bound; lia.
Qed.

Lemma EncodeBytesSize_ok b : blen b < 2 ^ 63 -> blen (EncodeBytes b) = EncodeBytesSize b.
Proof. intros H. pose proof (blen_nonneg b). unfold EncodeBytes, EncodeBytesSize. rewrite blen_app, EncodeUvarintSize_ok; lia. Qed.

(** * Round trips *)

(** Byte strings that fit in memory with their length prefix. *)
Definition short (b : bytes) : Prop := blen b < 2 ^ 62.

Lemma DecodeVarint_encode x rest : - 2 ^ 63 <= x < 2 ^ 63 -> DecodeVarint (EncodeVarint x ++ rest) = Ok (x, blen (EncodeVarint x)).
Proof.
  intros H. unfold DecodeVarint, EncodeVarint. rewrite Varint_roundtrip by done. cbv beta iota zeta.
  assert (1 <= blen (PutVarint x)) as Hp.
  { rewrite PutVarint_zigzag by done. pose proof (zigzag_range x H) as Hz. pose proof (EncodeUvarintSize_ok _ Hz) as E. unfold EncodeUvarint in E.
    pose proof (EncodeUvarintSize_bound _ Hz). lia. }
  rewrite (proj2 (Z.eqb_neq _ 0)), (proj2 (Z.ltb_ge _ 0)) by lia. done.
Qed.

Lemma DecodeBytes_encode b rest : short b -> DecodeBytes (EncodeBytes b ++ rest) = Ok (b, blen (EncodeBytes b)).
Proof.
  intros H. unfold short in H. pose proof (blen_nonneg b). pose proof (EncodeUvarintSize_bound (blen b) ltac:(lia)) as Hb.
  pose proof (EncodeUvarintSize_ok (blen b) ltac:(lia)) as Hs. unfold DecodeBytes, DecodeUvarint, EncodeBytes in *.
  rewrite <- app_assoc. rewrite Uvarint_roundtrip by lia. unfold EncodeUvarint in *.
  rewrite (proj2 (Z.eqb_neq _ 0)), (proj2 (Z.ltb_ge _ 0)) by lia. cbn [mbind result_bind].
  rewrite (wrapS_small 64 (blen b)) by lia. rewrite (proj2 (Z.leb_gt (2 ^ 63 - 1) _)), (proj2 (Z.ltb_ge (blen b) 0)) by lia. cbn [orb].
  rewrite wrapS_small by lia. rewrite (proj2 (Z.ltb_ge _ _)) by lia.
  rewrite (proj2 (Z.ltb_ge _ _)) by (rewrite !blen_app; pose proof (blen_nonneg rest); lia). rewrite blen_app. f_equal. f_equal.
  unfold blen at 2. rewrite Nat2Z.id, drop_app_length. unfold blen. by rewrite Nat2Z.id, take_app_length.
Qed.

(** Entries of the fast index survive their encoding, in exactly the number of
    bytes that was reserved for them. *)
Lemma fast_node_roundtrip fn rest : - 2 ^ 63 <= versionLastUpdatedAt fn < 2 ^ 63 -> short (fn_value fn) ->
  DeserializeNode (fn_key fn) (fast_WriteBytes fn ++ rest) = Ok fn /\ blen (fast_WriteBytes fn) = fast_EncodedSize fn.
Proof.
  intros Hv Hs. destruct fn as [k v b]. unfold DeserializeNode, fast_WriteBytes, fast_EncodedSize. cbn [fn_key fn_value versionLastUpdatedAt] in *. split.
  - rewrite <- app_assoc, DecodeVarint_encode by done. cbn [mbind result_bind]. unfold blen at 1.
    rewrite Nat2Z.id, drop_app_length, DecodeBytes_encode by done. done.
  - rewrite blen_app, EncodeBytesSize_ok by (unfold short in Hs; lia). done.
Qed.

(** Segments of the widths of the layout; a width of zero, in the last place, is any. *)
Inductive fits_layout : list nat -> list bytes -> Prop :=
| fits_nil : fits_layout [] []
| fits_open s : fits_layout [O] [s]
| fits_cons l s lay segs : l <> O -> length s = l -> fits_layout lay segs -> fits_layout (l :: lay) (s :: segs).

Lemma key_segments_fits lay segs : fits_layout lay segs -> key_segments lay segs = Some (mjoin segs).
Proof.
  induction 1 as [|s|l s lay segs Hl Hs _ IH]; cbn [key_segments]; [done|cbn; by rewrite app_nil_r|].
  rewrite (proj2 (Nat.eqb_neq l 0)) by done. rewrite (proj2 (Nat.ltb_ge l (length s))) by lia. rewrite IH. cbn.
  replace (l - length s)%nat with 0%nat by lia. done.
Qed.

Lemma scan_segments_fits lay segs : fits_layout lay segs -> forall pre, scan_segments lay (pre ++ mjoin segs) (length pre) = segs.
Proof.
  induction 1 as [|s|l s lay segs Hl Hs _ IH]; intros pre; cbn [scan_segments mjoin list_join foldr]; [done| |].
  - rewrite Nat.add_0_r, app_nil_r, length_app. rewrite (proj2 (Nat.ltb_ge _ _)) by lia. cbn. by rewrite drop_app_length.
  - rewrite (proj2 (Nat.eqb_neq l 0)) by done. rewrite !length_app. rewrite (proj2 (Nat.ltb_ge _ _)) by lia.
    replace (length pre + l - l)%nat with (length pre) by lia. rewrite drop_app_length, <- Hs, take_app_length. f_equal.
    rewrite app_assoc, <- length_app. apply IH.
Qed.

(** Reading the segments of a key gives back what it was made of. *)
Lemma key_format_roundtrip kf segs : fits_layout (layout kf) segs ->
  exists key, KeyBytes kf segs = Some key /\ ScanBytes kf key = segs.
Proof.
  intros H. unfold KeyBytes. rewrite key_segments_fits by done. eexists. split; [done|].
  apply (scan_segments_fits _ _ H [kf_prefix kf]).
Qed.

Lemma scan_format v : - 2 ^ 63 <= v < 2 ^ 63 -> scan_int64 (format (SegInt v)) = Some v.
Proof.
  intros H. unfold scan_int64, format. rewrite length_be8. cbn [Nat.ltb Nat.leb]. rewrite firstn_all2 by (rewrite length_be8; lia).
  rewrite be8_roundtrip by (apply (wrapU_range 64); lia). f_equal. unfold wrapU, wrapS.
  rewrite Zplus_mod_idemp_l. rewrite Z.mod_small; lia.
Qed.
