(* ===== verification/IavlNode.v ===== *)
(** [third_party/iavl/node.go]: the nodes of the tree store.

    A node keeps its children in memory or, once it is saved, knows them by their
    hashes and loads them from the database ([nodedb.go]), a map from byte strings to
    byte strings.  The node cache in front of the database holds what was read from
    it or written to it and is left out.

    A function that follows children takes fuel and panics when it runs out; heights
    are eight-bit integers, and more fuel than the height is always enough. *)

From stdpp Require Import base list gmap strings.
From Stdlib Require Import ZArith Lia.
From S2P Require Import Prelude Sha256 IavlEncoding.
Open Scope Z_scope.

Inductive Node := mkNode {
  n_key : bytes;
  n_value : option bytes;
  n_hash : option bytes;
  n_leftHash : option bytes;
  n_rightHash : option bytes;
  n_version : Z;
  n_size : Z;
  n_leftNode : option Node;
  n_rightNode : option Node;
  n_height : Z;
  n_persisted : bool
}.

Inductive iavl_error :=
| ErrEncoding (e : enc_error)
| ErrInvalidHeight
| ErrCloneLeafNode
| ErrEmptyChildHash
| ErrLeftHashIsNil
| ErrRightHashIsNil
| ErrNodeMissingHash
| ErrValueMissing
| ErrNodeAlreadyPersisted
| ErrRootMissingHash
| ErrBalancePersisted
| ErrInvalidNode (reason : string)
| ErrNilValue
| ErrVersionDoesNotExist
| ErrOrphanLifetime
| ErrNotConsecutive
| ErrSavedToDifferentHash
| ErrActiveReaders
| ErrLatestVersion
| ErrInvalidVersion
| ErrNoVersions
| ErrEarlierVersion
| ErrStorageVersion
| ErrFastStorage
| ErrNoImport
| ErrNotEmpty
| ErrInvalidStructure
| ErrKeyDoesNotExist
| ErrKeyInState
| ErrNilRoot
| ErrNonExistentKey
| ErrBothChildren.

Abbreviation res := (result iavl_error).
Abbreviation database := (gmap bytes bytes).

Definition enc {A} (r : result enc_error A) : res A :=
  match r with Ok a => Ok a | Err e => Err (ErrEncoding e) | Panic => Panic end.

(** [bytes.Compare] *)
Definition bytes_compare (a b : bytes) : comparison :=
  if bool_decide (a = b) then Eq else if bytes_leb a b then Lt else Gt.

Definition bytes_ltb (a b : bytes) : bool := bytes_leb a b && negb (bool_decide (a = b)).

(** * Construction *)

Definition NewNode (key value : bytes) (version : Z) : Node :=
  mkNode key (Some value) None None None version 1 None None 0 false.

Definition isLeaf (n : Node) : bool := n_height n =? 0.

Definition MakeNode (buf : bytes) : res Node :=
  '(height, n) ← enc (DecodeVarint buf);
  let buf := drop (Z.to_nat n) buf in
  if (height <? -128) || (127 <? height) then Err ErrInvalidHeight
  else
    '(size, n) ← enc (DecodeVarint buf);
    let buf := drop (Z.to_nat n) buf in
    '(ver, n) ← enc (DecodeVarint buf);
    let buf := drop (Z.to_nat n) buf in
    '(key, n) ← enc (DecodeBytes buf);
    let buf := drop (Z.to_nat n) buf in
    if height =? 0 then
      '(val, _) ← enc (DecodeBytes buf);
      Ok (mkNode key (Some val) None None None ver size None None height false)
    else
      '(leftHash, n) ← enc (DecodeBytes buf);
      let buf := drop (Z.to_nat n) buf in
      '(rightHash, _) ← enc (DecodeBytes buf);
      Ok (mkNode key None None (Some leftHash) (Some rightHash) ver size None None height false).

Definition clone (version : Z) (n : Node) : res Node :=
  if isLeaf n then Err ErrCloneLeafNode
  else Ok (mkNode (n_key n) None None (n_leftHash n) (n_rightHash n) version (n_size n) (n_leftNode n) (n_rightNode n) (n_height n) false).

(** * The bytes that are hashed and the bytes that are stored *)

Definition writeHashBytes (n : Node) : res bytes :=
  let head := EncodeVarint (n_height n) ++ EncodeVarint (n_size n) ++ EncodeVarint (n_version n) in
  if isLeaf n then Ok (head ++ EncodeBytes (n_key n) ++ EncodeBytes (sha256 (default [] (n_value n))))
  else
    match n_leftHash n, n_rightHash n with
    | Some l, Some r => Ok (head ++ EncodeBytes l ++ EncodeBytes r)
    | _, _ => Err ErrEmptyChildHash
    end.

Definition writeBytes (n : Node) : res bytes :=
  let head := EncodeVarint (n_height n) ++ EncodeVarint (n_size n) ++ EncodeVarint (n_version n) ++ EncodeBytes (n_key n) in
  if isLeaf n then Ok (head ++ EncodeBytes (default [] (n_value n)))
  else
    match n_leftHash n, n_rightHash n with
    | None, _ => Err ErrLeftHashIsNil
    | _, None => Err ErrRightHashIsNil
    | Some l, Some r => Ok (head ++ EncodeBytes l ++ EncodeBytes r)
    end.

Definition encodedSize (n : Node) : Z :=
  1 + EncodeVarintSize (n_size n) + EncodeVarintSize (n_version n) + EncodeBytesSize (n_key n) +
  if isLeaf n then EncodeBytesSize (default [] (n_value n))
  else EncodeBytesSize (default [] (n_leftHash n)) + EncodeBytesSize (default [] (n_rightHash n)).

Definition with_hash (h : bytes) (n : Node) : Node :=
  mkNode (n_key n) (n_value n) (Some h) (n_leftHash n) (n_rightHash n) (n_version n) (n_size n) (n_leftNode n) (n_rightNode n) (n_height n) (n_persisted n).
Definition with_left (h : option bytes) (c : option Node) (n : Node) : Node :=
  mkNode (n_key n) (n_value n) (n_hash n) h (n_rightHash n) (n_version n) (n_size n) c (n_rightNode n) (n_height n) (n_persisted n).
Definition with_right (h : option bytes) (c : option Node) (n : Node) : Node :=
  mkNode (n_key n) (n_value n) (n_hash n) (n_leftHash n) h (n_version n) (n_size n) (n_leftNode n) c (n_height n) (n_persisted n).
Definition with_persisted (n : Node) : Node :=
  mkNode (n_key n) (n_value n) (n_hash n) (n_leftHash n) (n_rightHash n) (n_version n) (n_size n) (n_leftNode n) (n_rightNode n) (n_height n) true.

(** The node with its hash; the hashes of its children are known. *)
Definition hash_node (n : Node) : res Node :=
  match n_hash n with
  | Some _ => Ok n
  | None => b ← writeHashBytes n; Ok (with_hash (sha256 b) n)
  end.

(** The node with all hashes below it filled in, and how many were computed. *)
Fixpoint hashWithCount (n : Node) : res (Node * Z) :=
  match n with
  | mkNode k v h lh rh ver sz l r ht p =>
    match h with
    | Some _ => Ok (n, 0)
    | None =>
      '(lh, l, lc) ← match l with
                     | Some ln => '(ln, c) ← hashWithCount ln; Ok (n_hash ln, Some ln, c)
                     | None => Ok (lh, None, 0)
                     end;
      '(rh, r, rc) ← match r with
                     | Some rn => '(rn, c) ← hashWithCount rn; Ok (n_hash rn, Some rn, c)
                     | None => Ok (rh, None, 0)
                     end;
      n ← hash_node (mkNode k v None lh rh ver sz l r ht p);
      Ok (n, lc + rc + 1)
    end
  end.

(** [ImmutableTree.Hash]: of an empty tree, the hash of nothing. *)
Definition tree_Hash (root : option Node) : res bytes :=
  match root with
  | None => Ok (sha256 [])
  | Some n => '(n, _) ← hashWithCount n; Ok (default [] (n_hash n))
  end.

Definition validate (n : Node) : res unit :=
  if n_version n <=? 0 then Err (ErrInvalidNode "version must be greater than 0")
  else if n_height n <? 0 then Err (ErrInvalidNode "height cannot be less than 0")
  else if n_size n <? 1 then Err (ErrInvalidNode "size must be at least 1")
  else if n_height n =? 0 then
    match n_value n with
    | None => Err (ErrInvalidNode "value cannot be nil for leaf node")
    | Some _ =>
      if bool_decide (is_Some (n_leftHash n)) || bool_decide (is_Some (n_leftNode n)) || bool_decide (is_Some (n_rightHash n)) || bool_decide (is_Some (n_rightNode n))
      then Err (ErrInvalidNode "leaf node cannot have children")
      else if negb (n_size n =? 1) then Err (ErrInvalidNode "leaf nodes must have size 1")
      else Ok tt
    end
  else
    match n_value n with
    | Some _ => Err (ErrInvalidNode "value must be nil for non-leaf node")
    | None =>
      if bool_decide (n_leftHash n = None) && bool_decide (n_rightHash n = None) then Err (ErrInvalidNode "inner node must have children")
      else Ok tt
    end.

(** * Loading children ([nodedb.go]) *)

Definition hashSize : nat := 32.

(** [nodeKeyFormat], [n] followed by the hash. *)
Definition nodeKeyFormat : KeyFormat := mkKeyFormat [hashSize] 33 110 false.

(** A hash that is too long panics. *)
Definition GetNode (db : database) (hash : option bytes) : res Node :=
  match hash with
  | None | Some [] => Err ErrNodeMissingHash
  | Some h =>
    match KeyBytes nodeKeyFormat [h] with
    | None => Panic
    | Some k =>
      match db !! k with
      | None => Err ErrValueMissing
      | Some buf => n ← MakeNode buf; Ok (with_persisted (with_hash h n))
      end
    end
  end.

Definition getLeftNode (db : database) (n : Node) : res Node :=
  match n_leftNode n with Some l => Ok l | None => GetNode db (n_leftHash n) end.
Definition getRightNode (db : database) (n : Node) : res Node :=
  match n_rightNode n with Some r => Ok r | None => GetNode db (n_rightHash n) end.

Definition maxInt8 (a b : Z) : Z := if b <? a then a else b.

Definition calcHeightAndSize (db : database) (n : Node) : res Node :=
  l ← getLeftNode db n;
  r ← getRightNode db n;
  Ok (mkNode (n_key n) (n_value n) (n_hash n) (n_leftHash n) (n_rightHash n) (n_version n) (i64 (n_size l + n_size r))
    (n_leftNode n) (n_rightNode n) (wrapS 8 (maxInt8 (n_height l) (n_height r) + 1)) (n_persisted n)).

Definition calcBalance (db : database) (n : Node) : res Z :=
  l ← getLeftNode db n;
  r ← getRightNode db n;
  Ok (n_height l - n_height r).

(** * Reading *)

Fixpoint has (fuel : nat) (db : database) (n : Node) (key : bytes) : res bool :=
  match fuel with
  | O => Panic
  | S fuel =>
    if bool_decide (n_key n = key) then Ok true
    else if isLeaf n then Ok false
    else if bytes_ltb key (n_key n) then l ← getLeftNode db n; has fuel db l key
    else r ← getRightNode db n; has fuel db r key
  end.

(** The index among the leaves, and the value if the key is there. *)
Fixpoint get (fuel : nat) (db : database) (n : Node) (key : bytes) : res (Z * option bytes) :=
  match fuel with
  | O => Panic
  | S fuel =>
    if isLeaf n then
      match bytes_compare (n_key n) key with
      | Lt => Ok (1, None)
      | Gt => Ok (0, None)
      | Eq => Ok (0, n_value n)
      end
    else if bytes_ltb key (n_key n) then l ← getLeftNode db n; get fuel db l key
    else
      r ← getRightNode db n;
      '(index, value) ← get fuel db r key;
      Ok (i64 (index + (n_size n - n_size r)), value)
  end.

Fixpoint getByIndex (fuel : nat) (db : database) (n : Node) (index : Z) : res (option (bytes * option bytes)) :=
  match fuel with
  | O => Panic
  | S fuel =>
    if isLeaf n then Ok (if index =? 0 then Some (n_key n, n_value n) else None)
    else
      l ← getLeftNode db n;
      if index <? n_size l then getByIndex fuel db l index
      else r ← getRightNode db n; getByIndex fuel db r (i64 (index - n_size l))
  end.

(** Enough for any height an [int8] can hold. *)
Definition tree_fuel : nat := 129.

(** [ImmutableTree.Has], [GetWithIndex] and [GetByIndex] *)
Definition Has (db : database) (root : option Node) (key : bytes) : res bool :=
  match root with None => Ok false | Some n => has tree_fuel db n key end.
Definition GetWithIndex (db : database) (root : option Node) (key : bytes) : res (Z * option bytes) :=
  match root with None => Ok (0, None) | Some n => get tree_fuel db n key end.
Definition GetByIndex (db : database) (root : option Node) (index : Z) : res (option (bytes * option bytes)) :=
  match root with None => Ok None | Some n => getByIndex tree_fuel db n index end.
Definition tree_Size (root : option Node) : Z := match root with None => 0 | Some n => n_size n end.
Definition tree_Height (root : option Node) : Z := match root with None => 0 | Some n => n_height n end.
