(* ===== verification/IavlSpec.v ===== *)
(** Search trees with the keys and values in the leaves: what the nodes of
    [third_party/iavl] stand for when all children are loaded.

    An inner node carries the least key of its right subtree.  Setting and removing
    a key rebuild the path to it with the new version and rebalance it; they also
    list the nodes they replace.  The reference is the sorted list of the leaves. *)

From stdpp Require Import base list gmap strings sorting.
From Stdlib Require Import ZArith Lia.
From S2P Require Import Prelude Sha256 IavlEncoding IavlNode.
Open Scope Z_scope.

Inductive tree :=
| Leaf (k v : bytes) (ver : Z)
| Inner (k : bytes) (ver : Z) (l r : tree).

#[export] Instance tree_eq_dec : EqDecision tree.
Proof. solve_decision. Defined.

Fixpoint theight (t : tree) : Z := match t with Leaf _ _ _ => 0 | Inner _ _ l r => 1 + Z.max (theight l) (theight r) end.
Fixpoint tsize (t : tree) : Z := match t with Leaf _ _ _ => 1 | Inner _ _ l r => tsize l + tsize r end.
Definition tversion (t : tree) : Z := match t with Leaf _ _ ver | Inner _ ver _ _ => ver end.
Definition tkey (t : tree) : bytes := match t with Leaf k _ _ | Inner k _ _ _ => k end.

Fixpoint leaves (t : tree) : list (bytes * bytes) :=
  match t with Leaf k v _ => [(k, v)] | Inner _ _ l r => leaves l ++ leaves r end.
Abbreviation keys t := (fst <$> leaves t).

Fixpoint subtrees (t : tree) : list tree :=
  t :: match t with Leaf _ _ _ => [] | Inner _ _ l r => subtrees l ++ subtrees r end.

(** * Operations *)

(** An inner node of the new version over [l] and [r], rotated when the heights differ
    by more than one; the nodes that were taken apart. *)
Definition tbalance (ver : Z) (k : bytes) (l r : tree) : tree * list tree :=
  let balance := theight l - theight r in
  if 1 <? balance then
    match l with
    | Inner kl _ ll lr =>
      if 0 <=? theight ll - theight lr then (Inner kl ver ll (Inner k ver lr r), [l])
      else
        match lr with
        | Inner klr _ lrl lrr =>
          (Inner klr ver (Inner kl ver ll lrl) (Inner k ver lrr r), [l; lr; Inner klr ver (Inner kl ver ll lrl) lrr])
        | Leaf _ _ _ => (Inner k ver l r, [])
        end
    | Leaf _ _ _ => (Inner k ver l r, [])
    end
  else if balance <? -1 then
    match r with
    | Inner kr _ rl rr =>
      if theight rl - theight rr <=? 0 then (Inner kr ver (Inner k ver l rl) rr, [r])
      else
        match rl with
        | Inner krl _ rll rlr =>
          (Inner krl ver (Inner k ver l rll) (Inner kr ver rlr rr), [r; Inner krl ver rll (Inner kr ver rlr rr); rl])
        | Leaf _ _ _ => (Inner k ver l r, [])
        end
    | Leaf _ _ _ => (Inner k ver l r, [])
    end
  else (Inner k ver l r, []).

(** The new tree, whether the key was there, and the replaced nodes. *)
Fixpoint tset (ver : Z) (k v : bytes) (t : tree) : tree * bool * list tree :=
  match t with
  | Leaf k0 v0 _ =>
    match bytes_compare k k0 with
    | Lt => (Inner k0 ver (Leaf k v ver) t, false, [])
    | Gt => (Inner k ver t (Leaf k v ver), false, [])
    | Eq => (Leaf k v ver, true, [t])
    end
  | Inner k0 _ l r =>
    if bytes_ltb k k0 then
      let '(l', updated, os) := tset ver k v l in
      if updated then (Inner k0 ver l' r, true, t :: os)
      else let '(t', bo) := tbalance ver k0 l' r in (t', false, t :: os ++ bo)
    else
      let '(r', updated, os) := tset ver k v r in
      if updated then (Inner k0 ver l r', true, t :: os)
      else let '(t', bo) := tbalance ver k0 l r' in (t', false, t :: os ++ bo)
  end.

(** [None] when the key is not there; otherwise the new tree, if any is left, the new
    least key if that changed, the removed value and the replaced nodes. *)
Fixpoint tremove (ver : Z) (k : bytes) (t : tree) : option (option tree * option bytes * bytes * list tree) :=
  match t with
  | Leaf k0 v0 _ => if bool_decide (k = k0) then Some (None, None, v0, [t]) else None
  | Inner k0 _ l r =>
    if bytes_ltb k k0 then
      '(l', newKey, v, os) ← tremove ver k l;
      match l' with
      | None => Some (Some r, Some k0, v, os ++ [t])
      | Some l' => let '(t', bo) := tbalance ver k0 l' r in Some (Some t', newKey, v, (os ++ [t]) ++ bo)
      end
    else
      '(r', newKey, v, os) ← tremove ver k r;
      match r' with
      | None => Some (Some l, None, v, os ++ [t])
      | Some r' => let '(t', bo) := tbalance ver (default k0 newKey) l r' in Some (Some t', None, v, (os ++ [t]) ++ bo)
      end
  end.

(** * The reference: sorted lists *)

Fixpoint linsert (k v : bytes) (l : list (bytes * bytes)) : list (bytes * bytes) :=
  match l with
  | [] => [(k, v)]
  | (k0, v0) :: l' =>
    match bytes_compare k k0 with
    | Lt => (k, v) :: l
    | Eq => (k, v) :: l'
    | Gt => (k0, v0) :: linsert k v l'
    end
  end.

Definition lremove (k : bytes) (l : list (bytes * bytes)) : list (bytes * bytes) := filter (fun e => e.1 <> k) l.

Definition to_map (t : tree) : gmap bytes bytes := list_to_map (leaves t).
Definition otree_map (t : option tree) : gmap bytes bytes := match t with None => ∅ | Some t => to_map t end.

Definition bytes_lt (a b : bytes) : Prop := bytes_le a b /\ a <> b.

#[export] Instance bytes_lt_dec a b : Decision (bytes_lt a b).
Proof. unfold bytes_lt, bytes_le. apply _. Defined.

(** * Invariants *)

Fixpoint bst (t : tree) : Prop :=
  match t with
  | Leaf _ _ _ => True
  | Inner k _ l r => bst l /\ bst r /\ Forall (fun x => bytes_lt x k) (keys l) /\ head (keys r) = Some k
  end.

Fixpoint avl (t : tree) : Prop :=
  match t with
  | Leaf _ _ _ => True
  | Inner _ _ l r => avl l /\ avl r /\ Z.abs (theight l - theight r) <= 1
  end.


(** Correctness of the search trees: setting and removing keys against the sorted
    list of the leaves, order, balance, and which nodes are replaced. *)

(** * The order on keys *)

Lemma bytes_ltb_lt a b : bytes_ltb a b = true <-> bytes_lt a b.
Proof. unfold bytes_ltb, bytes_lt, bytes_le. rewrite andb_true_iff, negb_true_iff, bool_decide_eq_false. done. Qed.

Lemma bytes_ltb_ge a b : bytes_ltb a b = false <-> bytes_le b a.
Proof.
  unfold bytes_ltb, bytes_le. destruct (bytes_leb a b) eqn:E; cbn.
  - rewrite negb_false_iff, bool_decide_eq_true. split; [intros ->; apply bytes_le_refl|]. intros H. by apply (anti_symm bytes_le).
  - split; [|done]. intros _. destruct (bytes_le_total a b) as [H|H]; [unfold bytes_le in H; congruence|done].
Qed.

Lemma bytes_lt_irrefl a : ~ bytes_lt a a.
Proof. by intros []. Qed.

#[export] Instance bytes_lt_trans : Transitive bytes_lt.
Proof.
  intros a b c [H1 N1] [H2 N2]. split; [by transitivity b|]. intros ->. apply N1. by apply (anti_symm bytes_le).
Qed.

Lemma bytes_lt_le_trans a b c : bytes_lt a b -> bytes_le b c -> bytes_lt a c.
Proof. intros [H1 N1] H2. split; [by transitivity b|]. intros ->. apply N1. by apply (anti_symm bytes_le). Qed.

Lemma bytes_le_lt_trans a b c : bytes_le a b -> bytes_lt b c -> bytes_lt a c.
Proof. intros H1 [H2 N2]. split; [by transitivity b|]. intros ->. apply N2. by apply (anti_symm bytes_le). Qed.

Lemma bytes_le_lt a b : bytes_le a b -> a <> b -> bytes_lt a b.
Proof. by split. Qed.

Lemma bytes_lt_le a b : bytes_lt a b -> bytes_le a b.
Proof. by intros []. Qed.

Lemma bytes_lt_not_le a b : bytes_lt a b -> ~ bytes_le b a.
Proof. intros [H N] H'. apply N. by apply (anti_symm bytes_le). Qed.

Lemma compare_spec a b : match bytes_compare a b with Lt => bytes_lt a b | Eq => a = b | Gt => bytes_lt b a end.
Proof.
  unfold bytes_compare. case_bool_decide as E; [done|]. destruct (bytes_leb a b) eqn:L; [by split|].
  destruct (bytes_le_total a b) as [H|H]; [unfold bytes_le in H; congruence|]. by split.
Qed.

#[export] Hint Resolve bytes_lt_irrefl bytes_lt_le bytes_le_lt : hpx.

(** * Sorted lists *)

Definition sorted_keys (l : list (bytes * bytes)) : Prop := StronglySorted bytes_lt (fst <$> l).

Lemma linsert_right k v l1 l2 : Forall (fun x => bytes_lt x k) (fst <$> l1) -> linsert k v (l1 ++ l2) = l1 ++ linsert k v l2.
Proof.
  induction l1 as [|[k0 v0] l1 IH]; cbn; [done|]. rewrite Forall_cons. intros [H HF]. pose proof (compare_spec k k0) as C.
  destruct (bytes_compare k k0); [subst; by apply bytes_lt_irrefl in H| |by rewrite IH].
  exfalso. eapply bytes_lt_irrefl. by transitivity k0.
Qed.

Lemma linsert_left k v l1 l2 : Forall (fun x => bytes_lt k x) (fst <$> l2) -> linsert k v (l1 ++ l2) = linsert k v l1 ++ l2.
Proof.
  intros H. induction l1 as [|[k0 v0] l1 IH]; cbn [app linsert].
  - destruct l2 as [|[k0 v0] l2]; [done|]. cbn in *. apply Forall_cons in H as [H _]. pose proof (compare_spec k k0) as C.
    destruct (bytes_compare k k0); [subst; by apply bytes_lt_irrefl in H|done|]. exfalso. eapply bytes_lt_irrefl. by transitivity k0.
  - destruct (bytes_compare k k0); [done..|]. by rewrite IH.
Qed.

Lemma elem_of_linsert k v l x : x ∈ fst <$> linsert k v l <-> x = k \/ x ∈ fst <$> l.
Proof.
  induction l as [|[k0 v0] l IH]; cbn [linsert fmap list_fmap fst]; [set_solver|]. pose proof (compare_spec k k0) as C.
  destruct (bytes_compare k k0); cbn [fmap list_fmap fst] in *; rewrite ?elem_of_cons in *; [subst; tauto|tauto|].
  rewrite IH. tauto.
Qed.

Lemma linsert_sorted k v l : sorted_keys l -> sorted_keys (linsert k v l).
Proof.
  unfold sorted_keys. induction l as [|[k0 v0] l IH]; cbn [linsert fmap list_fmap fst]; [repeat constructor|].
  intros [Hs Hk]%StronglySorted_inv. pose proof (compare_spec k k0) as C. destruct (bytes_compare k k0); cbn [fmap list_fmap fst].
  - subst. by constructor.
  - constructor; [by constructor|]. constructor; [done|]. eapply Forall_impl; [exact Hk|]. intros x Hx. by transitivity k0.
  - constructor; [by apply IH|]. apply Forall_forall. intros x [->|Hx]%elem_of_linsert; [done|]. by eapply Forall_forall in Hk.
Qed.

Lemma lookup_linsert k v l : sorted_keys l -> list_to_map (M := gmap bytes bytes) (linsert k v l) = <[k := v]> (list_to_map l).
Proof.
  unfold sorted_keys. induction l as [|[k0 v0] l IH]; cbn [linsert fmap list_fmap fst]; [done|].
  intros [Hs Hk]%StronglySorted_inv. pose proof (compare_spec k k0) as C. destruct (bytes_compare k k0); rewrite !list_to_map_cons.
  - subst. by rewrite insert_insert_eq.
  - done.
  - rewrite IH by done. apply insert_insert_ne. intros E. subst. by apply bytes_lt_irrefl in C.
Qed.

Lemma lremove_app k l1 l2 : lremove k (l1 ++ l2) = lremove k l1 ++ lremove k l2.
Proof. apply filter_app. Qed.

Lemma lremove_absent k l : k ∉ fst <$> l -> lremove k l = l.
Proof.
  unfold lremove. induction l as [|[k0 v0] l IH]; cbn [fmap list_fmap fst]; [done|]. rewrite not_elem_of_cons. intros [H Hn].
  rewrite filter_cons_True by (cbn; congruence). by rewrite IH.
Qed.

Lemma lremove_map k l : NoDup (fst <$> l) -> list_to_map (M := gmap bytes bytes) (lremove k l) = delete k (list_to_map l).
Proof.
  unfold lremove. induction l as [|[k0 v0] l IH]; cbn [fmap list_fmap fst]; [done|]. intros [Hk Hn]%NoDup_cons. rewrite filter_cons. cbn [fst].
  case_decide as E; rewrite !list_to_map_cons, IH by done; cbn [fst snd].
  - by rewrite delete_insert_ne by congruence.
  - destruct (decide (k0 = k)) as [->|N]; [|by destruct E]. rewrite delete_insert_eq, delete_id; [done|]. by apply not_elem_of_list_to_map.
Qed.

Lemma sorted_nodup l : sorted_keys l -> NoDup (fst <$> l).
Proof. apply StronglySorted_lt_NoDup, bytes_lt_irrefl. Qed.

Lemma sorted_app l1 l2 k : sorted_keys l1 -> sorted_keys l2 -> Forall (fun x => bytes_lt x k) (fst <$> l1) -> Forall (fun x => bytes_le k x) (fst <$> l2) ->
  sorted_keys (l1 ++ l2).
Proof.
  unfold sorted_keys. intros H1 H2 F1 F2. rewrite fmap_app. apply StronglySorted_app. split_and!; [|done|done]. intros x y Hx Hy.
  eapply bytes_lt_le_trans; [by eapply Forall_forall in F1|]. by eapply Forall_forall in F2.
Qed.

(** * Order *)

Lemma leaves_nonempty t : leaves t <> [].
Proof. induction t as [|k ver l IHl r IHr]; cbn; [done|]. by destruct (leaves l). Qed.

Lemma sorted_head_le (l : list bytes) k : StronglySorted bytes_lt l -> head l = Some k -> Forall (fun x => bytes_le k x) l.
Proof.
  destruct l as [|x l]; [done|]. cbn. intros [_ H]%StronglySorted_inv [= ->]. constructor; [apply bytes_le_refl|].
  eapply Forall_impl; [exact H|]. cbn. intros y Hy. by apply bytes_lt_le.
Qed.

Lemma bst_sorted t : bst t -> sorted_keys (leaves t).
Proof.
  induction t as [|k ver l IHl r IHr]; cbn [bst leaves]; [repeat constructor|]. intros (Hl & Hr & Hlk & Hrk).
  specialize (IHl Hl). specialize (IHr Hr). eapply sorted_app; [done|done|done|]. by apply sorted_head_le.
Qed.

(** The keys of the right subtree, from the separator on. *)
Lemma bst_right k ver l r : bst (Inner k ver l r) -> Forall (fun x => bytes_le k x) (keys r).
Proof. intros (_ & Hr & _ & Hk). apply sorted_head_le; [by apply bst_sorted|done]. Qed.

Lemma bst_nodup t : bst t -> NoDup (keys t).
Proof. intros H. by apply sorted_nodup, bst_sorted. Qed.

(** * Rebalancing *)

Lemma leaves_tbalance ver k l r : leaves (tbalance ver k l r).1 = leaves l ++ leaves r.
Proof.
  unfold tbalance. destruct (1 <? _); [|destruct (_ <? -1); [|done]].
  - destruct l as [|kl vl ll lr]; [done|]. destruct (0 <=? _); cbn; [by rewrite app_assoc|].
    destruct lr as [|klr vlr lrl lrr]; cbn; [done|]. by rewrite <- !app_assoc.
  - destruct r as [|kr vr rl rr]; [done|]. destruct (_ <=? 0); cbn; [by rewrite app_assoc|].
    destruct rl as [|krl vrl rll rlr]; cbn; [done|]. by rewrite <- !app_assoc.
Qed.

Lemma head_keys_app l1 l2 : leaves l1 <> [] -> head (fst <$> leaves l1 ++ l2) = head (keys l1).
Proof. by destruct (leaves l1). Qed.

Lemma bst_tbalance ver k l r : bst l -> bst r -> Forall (fun x => bytes_lt x k) (keys l) -> head (keys r) = Some k -> bst (tbalance ver k l r).1.
Proof.
  intros Hl Hr Fl Hh. unfold tbalance. destruct (1 <? _); [|destruct (_ <? -1); [|by cbn]].
  - destruct l as [|kl vl ll lr]; [by cbn|]. cbn [bst leaves] in Hl, Fl. destruct Hl as (Hll & Hlr & Fll & Hhl). rewrite fmap_app, Forall_app in Fl. destruct Fl as [Fl1 Fl2].
    destruct (0 <=? _); cbn [fst bst leaves]; [rewrite head_keys_app by apply leaves_nonempty; by split_and!|].
    destruct lr as [|klr vlr lrl lrr]; [cbn [fst bst leaves]; rewrite fmap_app, Forall_app; by split_and!|].
    cbn [bst leaves] in Hlr, Fl2, Hhl. destruct Hlr as (Hlrl & Hlrr & Flrl & Hhlr). rewrite fmap_app, Forall_app in Fl2. destruct Fl2 as [Fl2 Fl3].
    rewrite head_keys_app in Hhl by apply leaves_nonempty. cbn [fst bst leaves]. rewrite head_keys_app by apply leaves_nonempty.
    rewrite fmap_app, Forall_app. split_and!; try done.
    eapply Forall_impl; [exact Fll|]. cbn. intros x Hx. eapply bytes_lt_le_trans; [exact Hx|].
    apply head_Some_elem_of in Hhl. eapply Forall_forall in Flrl; [|exact Hhl]. by apply bytes_lt_le.
  - destruct r as [|kr vr rl rr]; [by cbn|]. cbn [bst leaves] in Hr, Hh. destruct Hr as (Hrl & Hrr & Frl & Hhr).
    rewrite head_keys_app in Hh by apply leaves_nonempty. pose proof (head_Some_elem_of _ _ Hh) as Hin.
    assert (bytes_lt k kr) as Hk by (by eapply Forall_forall in Frl).
    assert (Forall (fun x => bytes_lt x kr) (keys l)) as Fl' by (eapply Forall_impl; [exact Fl|]; cbn; intros x Hx; by transitivity k).
    destruct (_ <=? 0); cbn [fst bst leaves]; [rewrite fmap_app, Forall_app; by split_and!|].
    destruct rl as [|krl vrl rll rlr]; [cbn [fst bst leaves]; by split_and!|].
    cbn [bst leaves] in Hrl, Frl, Hh. destruct Hrl as (Hrll & Hrlr & Frll & Hhrl). rewrite fmap_app, Forall_app in Frl. destruct Frl as [Fr1 Fr2].
    rewrite head_keys_app in Hh by apply leaves_nonempty. pose proof (head_Some_elem_of _ _ Hh) as Hin'.
    assert (bytes_lt k krl) as Hk' by (by eapply Forall_forall in Frll).
    cbn [fst bst leaves]. rewrite head_keys_app by apply leaves_nonempty. rewrite fmap_app, Forall_app. split_and!; try done.
    eapply Forall_impl; [exact Fl|]. cbn. intros x Hx. by transitivity k.
Qed.

Lemma theight_nonneg t : 0 <= theight t.
Proof. induction t; cbn; lia. Qed.

(** A difference of two is repaired; the height is that of the higher side or one more. *)
Lemma avl_tbalance ver k l r : avl l -> avl r -> Z.abs (theight l - theight r) <= 2 ->
  avl (tbalance ver k l r).1 /\
  (Z.abs (theight l - theight r) <= 1 -> (tbalance ver k l r).1 = Inner k ver l r) /\
  Z.max (theight l) (theight r) <= theight (tbalance ver k l r).1 <= Z.max (theight l) (theight r) + 1.
Proof.
  intros Hl Hr Hd. unfold tbalance. pose proof (theight_nonneg l). pose proof (theight_nonneg r).
  destruct (Z.ltb_spec 1 (theight l - theight r)); [|destruct (Z.ltb_spec (theight l - theight r) (-1))].
  - destruct l as [|kl vl ll lr]; cbn [theight] in *; [lia|]. cbn [avl] in Hl. destruct Hl as (Hll & Hlr & Hb).
    destruct (Z.leb_spec 0 (theight ll - theight lr)); cbn [fst avl theight]; [split_and!; first [done|lia]|].
    destruct lr as [|klr vlr lrl lrr]; cbn [theight avl] in *; [pose proof (theight_nonneg ll); lia|].
    destruct Hlr as (? & ? & ?). cbn [fst avl theight]. split_and!; first [done|lia].
  - destruct r as [|kr vr rl rr]; cbn [theight] in *; [lia|]. cbn [avl] in Hr. destruct Hr as (Hrl & Hrr & Hb).
    destruct (Z.leb_spec (theight rl - theight rr) 0); cbn [fst avl theight]; [split_and!; first [done|lia]|].
    destruct rl as [|krl vrl rll rlr]; cbn [theight avl] in *; [pose proof (theight_nonneg rr); lia|].
    destruct Hrl as (? & ? & ?). cbn [fst avl theight]. split_and!; first [done|lia].
  - cbn [fst avl theight]. split_and!; first [done|lia].
Qed.

(** * Setting a key *)

Lemma tset_spec ver k v t : bst t -> let '(t', updated, _) := tset ver k v t in
  leaves t' = linsert k v (leaves t) /\ updated = bool_decide (k ∈ keys t) /\ bst t' /\
  (bytes_le (default k (head (keys t))) k -> head (keys t') = head (keys t)).
Proof.
  induction t as [k0 v0 ver0|k0 ver0 l IHl r IHr]; cbn [bst tset leaves].
  - intros _. cbn [linsert fmap list_fmap fst head default]. pose proof (compare_spec k k0) as C. destruct (bytes_compare k k0).
    + subst. rewrite bool_decide_true by (by left). done.
    + assert (k <> k0) by (intros ->; by apply bytes_lt_irrefl in C). rewrite bool_decide_false by (by intros ?%list_elem_of_singleton).
      cbn. split_and!; try done; [by constructor|]. intros H0. by apply bytes_lt_not_le in C.
    + assert (k <> k0) by (intros ->; by apply bytes_lt_irrefl in C). rewrite bool_decide_false by (by intros ?%list_elem_of_singleton).
      cbn. split_and!; try done. by constructor.
  - intros (Hl & Hr & Fl & Hh). pose proof (bst_right k0 ver0 l r (conj Hl (conj Hr (conj Fl Hh)))) as Fr. destruct (bytes_ltb k k0) eqn:Ek.
    + apply bytes_ltb_lt in Ek. specialize (IHl Hl). destruct (tset ver k v l) as [[l' u] os]. destruct IHl as (Hlv & -> & Hb & Hhd).
      assert (Forall (fun x => bytes_lt k x) (keys r)) as Fr' by (eapply Forall_impl; [exact Fr|]; cbn; intros x; by apply bytes_lt_le_trans).
      assert (bool_decide (k ∈ fst <$> leaves l ++ leaves r) = bool_decide (k ∈ keys l)) as ->.
      { apply bool_decide_ext. rewrite fmap_app, elem_of_app. split; [|by left]. intros [H|H]; [done|]. eapply Forall_forall in Fr'; [|exact H]. by apply bytes_lt_irrefl in Fr'. }
      rewrite linsert_left by done. rewrite head_keys_app by apply leaves_nonempty.
      assert (Forall (fun x => bytes_lt x k0) (keys l')) as Fl'.
      { apply Forall_forall. intros x. rewrite Hlv, elem_of_linsert. intros [->|Hx]; [done|]. by eapply Forall_forall in Fl. }
      destruct (bool_decide (k ∈ keys l)); [cbn [leaves bst]; rewrite head_keys_app by apply leaves_nonempty; split_and!; first [done|by rewrite Hlv]|].
      pose proof (leaves_tbalance ver k0 l' r) as Lb. pose proof (bst_tbalance ver k0 l' r Hb Hr Fl' Hh) as Bb. destruct (tbalance ver k0 l' r) as [t' bo]. cbn [fst] in *.
      rewrite Lb, head_keys_app by apply leaves_nonempty. split_and!; first [done|by rewrite Hlv].
    + apply bytes_ltb_ge in Ek. specialize (IHr Hr). destruct (tset ver k v r) as [[r' u] os]. destruct IHr as (Hrv & -> & Hb & Hhd).
      assert (Forall (fun x => bytes_lt x k) (keys l)) as Fl' by (eapply Forall_impl; [exact Fl|]; cbn; intros x Hx; by eapply bytes_lt_le_trans).
      assert (bool_decide (k ∈ fst <$> leaves l ++ leaves r) = bool_decide (k ∈ keys r)) as ->.
      { apply bool_decide_ext. rewrite fmap_app, elem_of_app. split; [|by right]. intros [H|H]; [|done]. eapply Forall_forall in Fl'; [|exact H]. by apply bytes_lt_irrefl in Fl'. }
      rewrite Hh in Hhd. specialize (Hhd Ek). rewrite linsert_right by done. rewrite head_keys_app by apply leaves_nonempty.
      destruct (bool_decide (k ∈ keys r)); [cbn [leaves bst]; rewrite head_keys_app by apply leaves_nonempty; split_and!; first [done|by rewrite Hrv]|].
      pose proof (leaves_tbalance ver k0 l r') as Lb. pose proof (bst_tbalance ver k0 l r' Hl Hb Fl Hhd) as Bb. destruct (tbalance ver k0 l r') as [t' bo]. cbn [fst] in *.
      rewrite Lb, head_keys_app by apply leaves_nonempty. split_and!; first [done|by rewrite Hrv].
Qed.

Lemma tset_avl ver k v t : avl t -> let '(t', updated, _) := tset ver k v t in
  avl t' /\ theight t <= theight t' <= theight t + 1 /\ (updated = true -> theight t' = theight t).
Proof.
  induction t as [k0 v0 ver0|k0 ver0 l IHl r IHr]; cbn [avl tset].
  - intros _. destruct (bytes_compare k k0); cbn; split_and!; first [done|lia].
  - intros (Hl & Hr & Hb). pose proof (theight_nonneg l). pose proof (theight_nonneg r). destruct (bytes_ltb k k0).
    + specialize (IHl Hl). destruct (tset ver k v l) as [[l' u] os]. destruct IHl as (Ha & Hh & Hu). destruct u.
      * specialize (Hu eq_refl). cbn [avl theight]. split_and!; first [done|lia].
      * destruct (avl_tbalance ver k0 l' r Ha Hr ltac:(lia)) as (Ha' & He & Hh'). destruct (tbalance ver k0 l' r) as [t' bo]. cbn [fst theight] in *.
        split_and!; try done; (destruct (decide (Z.abs (theight l' - theight r) <= 1)) as [Hd|]; [rewrite (He Hd); cbn [theight]|]; lia).
    + specialize (IHr Hr). destruct (tset ver k v r) as [[r' u] os]. destruct IHr as (Ha & Hh & Hu). destruct u.
      * specialize (Hu eq_refl). cbn [avl theight]. split_and!; first [done|lia].
      * destruct (avl_tbalance ver k0 l r' Hl Ha ltac:(lia)) as (Ha' & He & Hh'). destruct (tbalance ver k0 l r') as [t' bo]. cbn [fst theight] in *.
        split_and!; try done; (destruct (decide (Z.abs (theight l - theight r') <= 1)) as [Hd|]; [rewrite (He Hd); cbn [theight]|]; lia).
Qed.

(** * Removing a key *)

Definition oleaves (t : option tree) : list (bytes * bytes) := match t with Some t => leaves t | None => [] end.
Definition obst (t : option tree) : Prop := match t with Some t => bst t | None => True end.
Definition oavl (t : option tree) : Prop := match t with Some t => avl t | None => True end.

Lemma elem_of_lremove k l x : x ∈ fst <$> lremove k l <-> x <> k /\ x ∈ fst <$> l.
Proof.
  unfold lremove. rewrite !list_elem_of_fmap. split.
  - intros ([k0 v0] & -> & [H1 H2]%list_elem_of_filter). split; [done|]. by exists (k0, v0).
  - intros [H1 ([k0 v0] & -> & H2)]. exists (k0, v0). split; [done|]. by apply list_elem_of_filter.
Qed.

Lemma lremove_none k l : lremove k l = [] -> Forall (fun x => x = k) (fst <$> l).
Proof.
  intros H. apply Forall_forall. intros x Hx. destruct (decide (x = k)); [done|]. exfalso.
  assert (x ∈ fst <$> lremove k l) as Hin by (by apply elem_of_lremove). rewrite H in Hin. by apply not_elem_of_nil in Hin.
Qed.

(** What a removal leaves, and the least key of it. *)
Lemma tremove_spec ver k t : bst t ->
  match tremove ver k t with
  | None => k ∉ keys t
  | Some (t', newKey, v, _) =>
    (k, v) ∈ leaves t /\ oleaves t' = lremove k (leaves t) /\ obst t' /\
    match newKey with
    | Some k' => head (fst <$> oleaves t') = Some k'
    | None => is_Some (head (fst <$> oleaves t')) -> head (fst <$> oleaves t') = head (keys t)
    end
  end.
Proof.
  induction t as [k0 v0 ver0|k0 ver0 l IHl r IHr]; cbn [bst tremove leaves].
  - intros _. case_bool_decide as E; [subst|].
    + split_and!; try done; [by left| |by intros []]. unfold lremove. rewrite filter_cons_False by (cbn; tauto). done.
    + by intros ?%list_elem_of_singleton.
  - intros (Hl & Hr & Fl & Hh). pose proof (bst_right k0 ver0 l r (conj Hl (conj Hr (conj Fl Hh)))) as Fr. destruct (bytes_ltb k k0) eqn:Ek.
    + apply bytes_ltb_lt in Ek.
      assert (k ∉ keys r) as Nr by (intros H; eapply Forall_forall in Fr; [|exact H]; by apply bytes_lt_not_le in Ek).
      specialize (IHl Hl). destruct (tremove ver k l) as [[[[l' nk] v] os]|]; cbn [mbind option_bind].
      2:{ rewrite fmap_app, elem_of_app. tauto. }
      destruct IHl as (Hin & Hlv & Hb & Hnk). rewrite lremove_app, (lremove_absent k (leaves r)) by done. destruct l' as [l'|]; cbn [oleaves obst] in *.
      * assert (Forall (fun x => bytes_lt x k0) (keys l')) as Fl'.
        { apply Forall_forall. intros x. rewrite Hlv, elem_of_lremove. intros [_ Hx]. by eapply Forall_forall in Fl. }
        pose proof (leaves_tbalance ver k0 l' r) as Lb. pose proof (bst_tbalance ver k0 l' r Hb Hr Fl' Hh) as Bb. destruct (tbalance ver k0 l' r) as [t' bo]. cbn [fst oleaves obst] in *.
        rewrite Lb, !head_keys_app by apply leaves_nonempty. split_and!; [apply elem_of_app; by left|by rewrite Hlv|done|by destruct nk].
      * rewrite <- Hlv. split_and!; [apply elem_of_app; by left|done..].
    + apply bytes_ltb_ge in Ek.
      assert (k ∉ keys l) as Nl by (intros H; eapply Forall_forall in Fl; [|exact H]; by apply bytes_lt_not_le in Fl).
      specialize (IHr Hr). destruct (tremove ver k r) as [[[[r' nk] v] os]|]; cbn [mbind option_bind].
      2:{ rewrite fmap_app, elem_of_app. tauto. }
      destruct IHr as (Hin & Hrv & Hb & Hnk). rewrite lremove_app, (lremove_absent k (leaves l)) by done. destruct r' as [r'|]; cbn [oleaves obst] in *.
      * assert (head (keys r') = Some (default k0 nk)) as Hh'.
        { destruct nk as [k'|]; [done|]. rewrite Hnk; [done|]. destruct (leaves r') eqn:E; [by apply leaves_nonempty in E|by eexists]. }
        pose proof (leaves_tbalance ver (default k0 nk) l r') as Lb.
        assert (Forall (fun x => bytes_lt x (default k0 nk)) (keys l)) as Fl'.
        { eapply Forall_impl; [exact Fl|]. cbn. intros x Hx. eapply bytes_lt_le_trans; [exact Hx|]. apply head_Some_elem_of in Hh'.
          rewrite Hrv, elem_of_lremove in Hh'. destruct Hh' as [_ Hx']. by eapply Forall_forall in Fr. }
        pose proof (bst_tbalance ver (default k0 nk) l r' Hl Hb Fl' Hh') as Bb. destruct (tbalance ver _ l r') as [t' bo]. cbn [fst oleaves obst] in *.
        rewrite Lb, !head_keys_app by apply leaves_nonempty. split_and!; [apply elem_of_app; by right|by rewrite Hrv|done|done].
      * rewrite <- Hrv, app_nil_r, head_keys_app by apply leaves_nonempty. split_and!; [apply elem_of_app; by right|done..].
Qed.

Lemma tremove_avl ver k t : avl t ->
  match tremove ver k t with
  | None => True
  | Some (Some t', _, _, _) => avl t' /\ theight t - 1 <= theight t' <= theight t
  | Some (None, _, _, _) => theight t = 0
  end.
Proof.
  induction t as [k0 v0 ver0|k0 ver0 l IHl r IHr]; cbn [avl tremove].
  - intros _. by case_bool_decide.
  - intros (Hl & Hr & Hb). pose proof (theight_nonneg l). pose proof (theight_nonneg r). destruct (bytes_ltb k k0).
    + specialize (IHl Hl). destruct (tremove ver k l) as [[[[[l'|] nk] v] os]|]; cbn [mbind option_bind]; [|split; [done|cbn; lia]|done].
      destruct IHl as (Ha & Hh). destruct (avl_tbalance ver k0 l' r Ha Hr ltac:(lia)) as (Ha' & He & Hh'). destruct (tbalance ver k0 l' r) as [t' bo]. cbn [fst theight] in *.
      split; [done|]. destruct (decide (Z.abs (theight l' - theight r) <= 1)) as [Hd|]; [rewrite (He Hd); cbn [theight]|]; lia.
    + specialize (IHr Hr). destruct (tremove ver k r) as [[[[[r'|] nk] v] os]|]; cbn [mbind option_bind]; [|split; [done|cbn; lia]|done].
      destruct IHr as (Ha & Hh). destruct (avl_tbalance ver (default k0 nk) l r' Hl Ha ltac:(lia)) as (Ha' & He & Hh'). destruct (tbalance ver _ l r') as [t' bo]. cbn [fst theight] in *.
      split; [done|]. destruct (decide (Z.abs (theight l - theight r') <= 1)) as [Hd|]; [rewrite (He Hd); cbn [theight]|]; lia.
Qed.

(** * Heights *)

Lemma tsize_pos t : 1 <= tsize t.
Proof. induction t; cbn; lia. Qed.

Lemma tsize_leaves t : tsize t = Z.of_nat (length (leaves t)).
Proof. induction t as [|? ? l IHl r IHr]; cbn; [done|]. rewrite length_app. lia. Qed.

(** A balanced tree of height [h] has at least [2 ^ (h / 2)] leaves. *)
Lemma avl_size t : avl t -> 2 ^ theight t <= tsize t * tsize t.
Proof.
  induction t as [|k ver l IHl r IHr]; cbn [avl theight tsize]; [cbn; lia|]. intros (Hl & Hr & Hb). specialize (IHl Hl). specialize (IHr Hr).
  pose proof (theight_nonneg l). pose proof (theight_nonneg r). pose proof (tsize_pos l). pose proof (tsize_pos r).
  destruct (Z.le_gt_cases (theight l) (theight r)).
  - rewrite Z.max_r by lia. rewrite Z.pow_add_r by lia. change (2 ^ 1) with 2.
    assert (2 ^ theight r <= 2 * 2 ^ theight l) by (rewrite <- Z.pow_succ_r by lia; apply Z.pow_le_mono_r; lia).
    destruct (Z.le_gt_cases (tsize l) (tsize r)); nia.
  - rewrite Z.max_l by lia. rewrite Z.pow_add_r by lia. change (2 ^ 1) with 2.
    assert (2 ^ theight l <= 2 * 2 ^ theight r) by (rewrite <- Z.pow_succ_r by lia; apply Z.pow_le_mono_r; lia).
    destruct (Z.le_gt_cases (tsize l) (tsize r)); nia.
Qed.

(** As long as the number of leaves is an [int64], the height is far from the end of an [int8]. *)
Lemma avl_height_int8 t : avl t -> tsize t < 2 ^ 63 -> theight t <= 125.
Proof.
  intros Ha Hs. pose proof (avl_size t Ha) as H. pose proof (tsize_pos t). destruct (Z.le_gt_cases (theight t) 125); [done|]. exfalso.
  assert (2 ^ 126 <= 2 ^ theight t) by (apply Z.pow_le_mono_r; lia). change (2 ^ 126) with (2 ^ 63 * 2 ^ 63) in *. nia.
Qed.

(** * Which nodes are replaced *)

Lemma subtrees_self t : t ∈ subtrees t.
Proof. destruct t; left. Qed.

Lemma subtrees_trans t s u : s ∈ subtrees t -> u ∈ subtrees s -> u ∈ subtrees t.
Proof.
  induction t as [|k ver l IHl r IHr]; cbn.
  - by intros ->%list_elem_of_singleton.
  - rewrite elem_of_cons, elem_of_app. intros [->|[H|H]] Hu; [done| |]; rewrite elem_of_cons, elem_of_app; auto.
Qed.

Lemma subtrees_keys t s : s ∈ subtrees t -> keys s ⊆ keys t.
Proof.
  induction t as [|k ver l IHl r IHr]; cbn.
  - by intros ->%list_elem_of_singleton.
  - rewrite elem_of_cons, elem_of_app, fmap_app. intros [->|[H|H]]; [cbn; by rewrite fmap_app| |]; intros x Hx; apply elem_of_app; [left; by apply IHl|right; by apply IHr].
Qed.

Lemma subtrees_size t s : s ∈ subtrees t -> s = t \/ tsize s < tsize t.
Proof.
  induction t as [|k ver l IHl r IHr]; cbn.
  - intros ->%list_elem_of_singleton. by left.
  - pose proof (tsize_pos l). pose proof (tsize_pos r). rewrite elem_of_cons, elem_of_app. intros [->|[[->|H1]%IHl|[->|H1]%IHr]]; [by left|right; lia..].
Qed.

Lemma subtrees_bst t s : s ∈ subtrees t -> bst t -> bst s.
Proof.
  induction t as [|k ver l IHl r IHr]; cbn [subtrees].
  - by intros ->%list_elem_of_singleton.
  - rewrite elem_of_cons, elem_of_app. intros [->|[H|H]]; [done|intros (? & ? & _); auto..].
Qed.

Lemma keys_nonempty t : exists x, x ∈ keys t.
Proof. destruct (leaves t) as [|[k v] l] eqn:E; [by apply leaves_nonempty in E|]. exists k. cbn. left. Qed.

(** In a search tree no node occurs twice. *)
Lemma subtrees_nodup t : bst t -> NoDup (subtrees t).
Proof.
  induction t as [|k ver l IHl r IHr]; intros Hb; cbn [subtrees].
  - apply NoDup_singleton.
  - pose proof (bst_right _ _ _ _ Hb) as Fr. destruct Hb as (Hl & Hr & Fl & Hh). apply NoDup_cons. split.
    + rewrite elem_of_app. pose proof (tsize_pos l). pose proof (tsize_pos r).
      intros [H1|H1]; apply subtrees_size in H1 as [E|E]; cbn in E; try lia; apply (f_equal tsize) in E; cbn in E; lia.
    + apply NoDup_app. split_and!; [auto| |auto]. intros s H1 H2. destruct (keys_nonempty s) as [x Hx].
      eapply (Forall_forall _ (keys l)) in Fl; [|exact (subtrees_keys _ _ H1 x Hx)]. eapply (Forall_forall _ (keys r)) in Fr; [|exact (subtrees_keys _ _ H2 x Hx)].
      by apply bytes_lt_not_le in Fl.
Qed.

(** From the nodes [before] to the nodes [after], [os] lists what was dropped; anything
    else it lists, and all that is new, is of version [ver]. *)
Definition replaces (ver : Z) (before after os : list tree) : Prop :=
  exists old new kept, before ≡ₚ old ++ kept /\ after ≡ₚ new ++ kept /\ Forall (fun s => tversion s = ver) new /\
    Forall (fun s => s ∈ os) old /\ Forall (fun s => s ∈ old \/ tversion s = ver) os.

Lemma replaces_nothing ver before after new : Forall (fun s => tversion s = ver) new -> after ≡ₚ new ++ before -> replaces ver before after [].
Proof. intros Hn Ha. by exists [], new, before. Qed.

Lemma replaces_frame ver before after os rest : replaces ver before after os -> replaces ver (before ++ rest) (after ++ rest) os.
Proof.
  intros (old & new & kept & Hb & Ha & Hn & Ho & Hos). exists old, new, (kept ++ rest). rewrite Hb, Ha, <- !app_assoc. done.
Qed.

Lemma replaces_proper ver b b' a a' os os' : b ≡ₚ b' -> a ≡ₚ a' -> os ≡ₚ os' -> replaces ver b a os -> replaces ver b' a' os'.
Proof.
  intros Hb Ha Ho (old & new & kept & Hb' & Ha' & Hn & Hold & Hos). exists old, new, kept. rewrite <- Hb, <- Ha.
  split_and!; try done; [|by rewrite <- Ho]. eapply Forall_impl; [exact Hold|]. cbn. intros s. by rewrite Ho.
Qed.

Lemma perm_split {A} (a b c d : list A) : a ++ b ≡ₚ c ++ d -> exists x y z w, a ≡ₚ x ++ y /\ b ≡ₚ z ++ w /\ c ≡ₚ x ++ z /\ d ≡ₚ y ++ w.
Proof.
  revert c d. induction a as [|e a IH]; intros c d H; cbn in H; [by exists [], [], c, d|].
  assert (e ∈ c ++ d) as [He|He]%elem_of_app by (rewrite <- H; left).
  - apply elem_of_Permutation in He as [c' Hc]. rewrite Hc in H. cbn in H. apply Permutation_cons_inv in H.
    destruct (IH _ _ H) as (x & y & z & w & Ha & Hb & Hc' & Hd). exists (e :: x), y, z, w. cbn. by rewrite Ha, Hc, Hc'.
  - apply elem_of_Permutation in He as [d' Hd]. rewrite Hd, <- Permutation_middle in H. apply Permutation_cons_inv in H.
    destruct (IH _ _ H) as (x & y & z & w & Ha & Hb & Hc & Hd'). exists x, (e :: y), z, w. cbn. by rewrite Ha, Hd, Hd', Permutation_middle.
Qed.

Lemma replaces_trans ver a b c os1 os2 : replaces ver a b os1 -> replaces ver b c os2 -> replaces ver a c (os1 ++ os2).
Proof.
  intros (old1 & new1 & kept1 & Ha & Hb & Hn1 & Ho1 & Hos1) (old2 & new2 & kept2 & Hb' & Hc & Hn2 & Ho2 & Hos2).
  rewrite Hb in Hb'. apply perm_split in Hb' as (x & y & z & w & Hx & Hz & Hold & Hkept).
  rewrite Hx, Forall_app in Hn1. destruct Hn1 as [Hnx Hny]. rewrite Hold, Forall_app in Ho2. destruct Ho2 as [_ Hoz].
  exists (old1 ++ z), (new2 ++ y), w. rewrite Ha, Hz, Hc, Hkept, <- !app_assoc. split_and!; try done.
  - by rewrite Forall_app.
  - rewrite Forall_app. split; (eapply Forall_impl; [eassumption|]); intros s Hs; apply elem_of_app; auto.
  - rewrite Forall_app. split; (eapply Forall_impl; [eassumption|]); cbn; intros s; rewrite elem_of_app; [intuition|].
    rewrite Hold, elem_of_app. intros [[Hs|Hs]|Hs]; [right; by eapply Forall_forall in Hnx|auto..].
Qed.

Lemma replaces_drop ver t b a os : replaces ver b a os -> replaces ver (t :: b) a (t :: os).
Proof.
  intros (old & new & kept & Hb & Ha & Hn & Ho & Hos). exists (t :: old), new, kept. rewrite Hb. split_and!; try done.
  - constructor; [left|]. eapply Forall_impl; [exact Ho|]. by right.
  - constructor; [left; left|]. eapply Forall_impl; [exact Hos|]. cbn. intros s [H|H]; [left; by right|by right].
Qed.

Lemma replaces_new ver n b a os : tversion n = ver -> replaces ver b a os -> replaces ver b (n :: a) os.
Proof. intros Hv (old & new & kept & Hb & Ha & Hn & Ho & Hos). exists old, (n :: new), kept. rewrite Ha. split_and!; try done. by constructor. Qed.

Ltac forall_cases := rewrite ?Forall_cons, ?Forall_nil; split_and!; try done; cbn; rewrite ?elem_of_cons; naive_solver.

Lemma tbalance_replaces ver k l r : let '(t', bo) := tbalance ver k l r in replaces ver (subtrees l ++ subtrees r) (subtrees t') bo.
Proof.
  assert (replaces ver (subtrees l ++ subtrees r) (subtrees (Inner k ver l r)) []) as H0.
  { eapply (replaces_nothing _ _ _ [Inner k ver l r]); [by repeat constructor|done]. }
  unfold tbalance. destruct (1 <? _); [|destruct (_ <? -1); [|done]].
  - destruct l as [|kl vl ll lr]; [done|]. destruct (0 <=? _); [|destruct lr as [|klr vlr lrl lrr]; [done|]].
    + exists [Inner kl vl ll lr], [Inner kl ver ll (Inner k ver lr r); Inner k ver lr r], (subtrees ll ++ subtrees lr ++ subtrees r).
      cbn. split_and!; [solve_Permutation|solve_Permutation|forall_cases..].
    + exists [Inner kl vl ll (Inner klr vlr lrl lrr); Inner klr vlr lrl lrr],
        [Inner klr ver (Inner kl ver ll lrl) (Inner k ver lrr r); Inner kl ver ll lrl; Inner k ver lrr r], (subtrees ll ++ subtrees lrl ++ subtrees lrr ++ subtrees r).
      cbn. split_and!; [solve_Permutation|solve_Permutation|forall_cases..].
  - destruct r as [|kr vr rl rr]; [done|]. destruct (_ <=? 0); [|destruct rl as [|krl vrl rll rlr]; [done|]].
    + exists [Inner kr vr rl rr], [Inner kr ver (Inner k ver l rl) rr; Inner k ver l rl], (subtrees l ++ subtrees rl ++ subtrees rr).
      cbn. split_and!; [solve_Permutation|solve_Permutation|forall_cases..].
    + exists [Inner kr vr (Inner krl vrl rll rlr) rr; Inner krl vrl rll rlr],
        [Inner krl ver (Inner k ver l rll) (Inner kr ver rlr rr); Inner k ver l rll; Inner kr ver rlr rr], (subtrees l ++ subtrees rll ++ subtrees rlr ++ subtrees rr).
      cbn. split_and!; [solve_Permutation|solve_Permutation|forall_cases..].
Qed.

Lemma tset_replaces ver k v t : let '(t', _, os) := tset ver k v t in replaces ver (subtrees t) (subtrees t') os.
Proof.
  induction t as [k0 v0 ver0|k0 ver0 l IHl r IHr]; cbn [tset].
  - destruct (bytes_compare k k0).
    + exists [Leaf k0 v0 ver0], [Leaf k v ver], []. cbn. split_and!; [done|done|forall_cases..].
    + apply (replaces_nothing _ _ _ [Inner k0 ver (Leaf k v ver) (Leaf k0 v0 ver0); Leaf k v ver]); [by repeat constructor|done].
    + apply (replaces_nothing _ _ _ [Inner k ver (Leaf k0 v0 ver0) (Leaf k v ver); Leaf k v ver]); [by repeat constructor|cbn; solve_Permutation].
  - destruct (bytes_ltb k k0).
    + destruct (tset ver k v l) as [[l' u] os]. apply (replaces_frame _ _ _ _ (subtrees r)) in IHl. destruct u; cbn [subtrees].
      * by apply replaces_drop, replaces_new.
      * pose proof (tbalance_replaces ver k0 l' r) as Hb. destruct (tbalance ver k0 l' r) as [t' bo].
        apply replaces_drop. by eapply replaces_trans.
    + destruct (tset ver k v r) as [[r' u] os]. apply (replaces_frame _ _ _ _ (subtrees l)) in IHr.
      eapply (replaces_proper _ _ (subtrees l ++ subtrees r) _ (subtrees l ++ subtrees r')) in IHr; [|apply Permutation_app_comm|apply Permutation_app_comm|done].
      destruct u; cbn [subtrees].
      * by apply replaces_drop, replaces_new.
      * pose proof (tbalance_replaces ver k0 l r') as Hb. destruct (tbalance ver k0 l r') as [t' bo].
        apply replaces_drop. by eapply replaces_trans.
Qed.

Definition osubtrees (t : option tree) : list tree := match t with Some t => subtrees t | None => [] end.

Lemma tremove_replaces ver k t : match tremove ver k t with None => True | Some (t', _, _, os) => replaces ver (subtrees t) (osubtrees t') os end.
Proof.
  induction t as [k0 v0 ver0|k0 ver0 l IHl r IHr]; cbn [tremove].
  - case_bool_decide; [|done]. exists [Leaf k0 v0 ver0], [], []. cbn. split_and!; [done|done|done|forall_cases..].
  - destruct (bytes_ltb k k0).
    + destruct (tremove ver k l) as [[[[l' nk] v] os]|]; cbn [mbind option_bind]; [|done]. apply (replaces_frame _ _ _ _ (subtrees r)) in IHl.
      assert (replaces ver (subtrees (Inner k0 ver0 l r)) (osubtrees l' ++ subtrees r) (os ++ [Inner k0 ver0 l r])) as H.
      { eapply replaces_proper; [done|done|apply Permutation_cons_append|]. by apply replaces_drop. }
      destruct l' as [l'|]; cbn [osubtrees app] in *; [|done]. pose proof (tbalance_replaces ver k0 l' r) as Hb. destruct (tbalance ver k0 l' r) as [t' bo]. by eapply replaces_trans.
    + destruct (tremove ver k r) as [[[[r' nk] v] os]|]; cbn [mbind option_bind]; [|done]. apply (replaces_frame _ _ _ _ (subtrees l)) in IHr.
      assert (replaces ver (subtrees (Inner k0 ver0 l r)) (subtrees l ++ osubtrees r') (os ++ [Inner k0 ver0 l r])) as H.
      { eapply replaces_proper; [|apply Permutation_app_comm|apply Permutation_cons_append|apply replaces_drop, IHr]. cbn. by rewrite Permutation_app_comm. }
      destruct r' as [r'|]; cbn [osubtrees] in *; [|by rewrite app_nil_r in H].
      pose proof (tbalance_replaces ver (default k0 nk) l r') as Hb. destruct (tbalance ver _ l r') as [t' bo]. by eapply replaces_trans.
Qed.

(** In terms of membership, for nodes of a search tree that are older than the change. *)
Lemma replaces_members ver before after os : NoDup before -> replaces ver before after os ->
  (forall s, s ∈ after -> s ∈ before \/ tversion s = ver) /\
  (forall s, s ∈ before -> s ∈ after \/ s ∈ os) /\
  (forall s, s ∈ os -> tversion s <> ver -> s ∈ before /\ s ∉ after).
Proof.
  intros Hnd (old & new & kept & Hb & Ha & Hn & Ho & Hos). rewrite Hb, NoDup_app in Hnd. destruct Hnd as (_ & Hd & _).
  rewrite Forall_forall in Hn, Ho, Hos. split_and!.
  - intros s. rewrite Ha, Hb, !elem_of_app. intros [H|H]; auto.
  - intros s. rewrite Ha, Hb, !elem_of_app. intros [H|H]; auto.
  - intros s H Hv. destruct (Hos s H) as [H'|]; [|done]. rewrite Ha, Hb, !elem_of_app. split; [by left|]. intros [H2|H2]; [by apply Hv, Hn|by eapply Hd].
Qed.
