(* ===== verification/IavlRepr.v ===== *)
(** How the nodes of [third_party/iavl] represent search trees.

    A node stands for a tree when its fields are those of the tree and each child is
    in memory and stands for the subtree, or is known by the subtree's hash and stored
    in the database.  Loading a stored node gives a node that stands for it, and the
    functions that read a node compute what the tree says. *)

From stdpp Require Import base list gmap strings sorting.
From Stdlib Require Import ZArith Lia.
From S2P Require Import Prelude Sha256 IavlEncoding IavlNode IavlSpec.
Open Scope Z_scope.

(** * Hashes and stored bytes of a tree *)

Definition tree_head (t : tree) : bytes := EncodeVarint (theight t) ++ EncodeVarint (tsize t) ++ EncodeVarint (tversion t).

Fixpoint thash (t : tree) : bytes :=
  sha256 (tree_head t ++
    match t with
    | Leaf k v _ => EncodeBytes k ++ EncodeBytes (sha256 v)
    | Inner _ _ l r => EncodeBytes (thash l) ++ EncodeBytes (thash r)
    end).

Definition tbytes (t : tree) : bytes :=
  tree_head t ++ EncodeBytes (tkey t) ++
  match t with
  | Leaf _ v _ => EncodeBytes v
  | Inner _ _ l r => EncodeBytes (thash l) ++ EncodeBytes (thash r)
  end.

(** The key of a node entry. *)
Definition nkey (h : bytes) : bytes := 110 :: h.

Definition stored (db : database) (t : tree) : Prop := Forall (fun s => db !! nkey (thash s) = Some (tbytes s)) (subtrees t).

Definition node_ok (t : tree) : Prop :=
  short (tkey t) /\ 0 < tversion t < 2 ^ 63 /\ match t with Leaf _ v _ => short v | Inner _ _ _ _ => True end.

(** What every tree of the store satisfies. *)
Definition tree_ok (t : tree) : Prop := bst t /\ avl t /\ tsize t < 2 ^ 63 /\ Forall node_ok (subtrees t).

(** How many leaves come before the key. *)
Definition rank (key : bytes) (l : list (bytes * bytes)) : Z := Z.of_nat (length (filter (fun e => bytes_lt e.1 key) l)).

(** * Nodes and trees *)

(** [P] holds of what is in the database, [Q] of what is not saved yet. *)
Section Repr.
  Context (P Q : tree -> Prop).

Definition hash_of (h : option bytes) (t : tree) : Prop := h = None \/ h = Some (thash t).

Fixpoint repr (n : Node) (t : tree) {struct t} : Prop :=
  n_key n = tkey t /\ n_version n = tversion t /\ n_size n = tsize t /\ n_height n = theight t /\ hash_of (n_hash n) t /\
  (if n_persisted n then n_hash n = Some (thash t) /\ P t /\ n_leftNode n = None /\ n_rightNode n = None else Q t) /\
  match t with
  | Leaf _ v _ => n_value n = Some v /\ n_leftHash n = None /\ n_rightHash n = None /\ n_leftNode n = None /\ n_rightNode n = None
  | Inner _ _ l r =>
    n_value n = None /\
    match n_leftNode n with Some c => repr c l /\ hash_of (n_leftHash n) l | None => n_leftHash n = Some (thash l) /\ P l end /\
    match n_rightNode n with Some c => repr c r /\ hash_of (n_rightHash n) r | None => n_rightHash n = Some (thash r) /\ P r end
  end.

Definition orepr (n : option Node) (t : option tree) : Prop :=
  match n, t with Some n, Some t => repr n t | None, None => True | _, _ => False end.

(** A child as its parent knows it. *)
Definition child (h : option bytes) (c : option Node) (t : tree) : Prop :=
  match c with Some c => repr c t /\ hash_of h t | None => h = Some (thash t) /\ P t end.
End Repr.

Lemma repr_mono (P P' Q Q' : tree -> Prop) : (forall t, P t -> P' t) -> (forall t, Q t -> Q' t) -> forall t n, repr P Q n t -> repr P' Q' n t.
Proof.
  intros HP HQ. induction t as [k v ver|k ver l IHl r IHr]; intros n; cbn [repr].
  - intros (? & ? & ? & ? & ? & Hp & ?). split_and!; try tauto. destruct (n_persisted n); [|auto]. destruct Hp as (? & ? & ?). auto.
  - intros (? & ? & ? & ? & ? & Hp & ? & Hl & Hr). split_and!; try done.
    + destruct (n_persisted n); [|auto]. destruct Hp as (? & ? & ?). auto.
    + destruct (n_leftNode n); destruct Hl; auto.
    + destruct (n_rightNode n); destruct Hr; auto.
Qed.

(** * Facts on trees *)

Lemma length_thash t : length (thash t) = 32%nat.
Proof. destruct t; apply length_sha256. Qed.

Lemma thash_nonempty t : thash t <> [].
Proof. intros H. pose proof (length_thash t) as L. by rewrite H in L. Qed.

Lemma short_thash t : short (thash t).
Proof. unfold short, blen. rewrite length_thash. lia. Qed.

Lemma tree_ok_left k ver l r : tree_ok (Inner k ver l r) -> tree_ok l.
Proof.
  intros (Hb & Ha & Hs & Hf). destruct Hb as (? & ? & ? & ?). destruct Ha as (? & ? & ?). cbn in Hs. pose proof (tsize_pos r).
  cbn in Hf. rewrite Forall_cons, Forall_app in Hf. destruct Hf as (_ & ? & ?). split_and!; try done. lia.
Qed.

Lemma tree_ok_right k ver l r : tree_ok (Inner k ver l r) -> tree_ok r.
Proof.
  intros (Hb & Ha & Hs & Hf). destruct Hb as (? & ? & ? & ?). destruct Ha as (? & ? & ?). cbn in Hs. pose proof (tsize_pos l).
  cbn in Hf. rewrite Forall_cons, Forall_app in Hf. destruct Hf as (_ & ? & ?). split_and!; try done. lia.
Qed.

Lemma tree_ok_node t : tree_ok t -> node_ok t.
Proof. intros (_ & _ & _ & H). by apply (Forall_forall node_ok (subtrees t)), subtrees_self. Qed.

Lemma tree_ok_height t : tree_ok t -> 0 <= theight t <= 125.
Proof. intros (_ & Ha & Hs & _). split; [apply theight_nonneg|by apply avl_height_int8]. Qed.

Lemma tree_ok_subtree t s : tree_ok t -> s ∈ subtrees t -> tree_ok s.
Proof.
  induction t as [|k ver l IHl r IHr]; intros H; cbn; [by intros ->%list_elem_of_singleton|].
  rewrite elem_of_cons, elem_of_app. intros [->|[Hs|Hs]]; [done|apply IHl; [by eapply tree_ok_left|done]|apply IHr; [by eapply tree_ok_right|done]].
Qed.

Lemma stored_left db k ver l r : stored db (Inner k ver l r) -> stored db l.
Proof. unfold stored. cbn [subtrees]. rewrite Forall_cons, Forall_app. tauto. Qed.
Lemma stored_right db k ver l r : stored db (Inner k ver l r) -> stored db r.
Proof. unfold stored. cbn [subtrees]. rewrite Forall_cons, Forall_app. tauto. Qed.

Create HintDb iavl.
#[export] Hint Resolve tree_ok_left tree_ok_right tree_ok_node stored_left stored_right subtrees_self : iavl.

Lemma theight_inner k ver l r : theight (Inner k ver l r) <> 0.
Proof. cbn. pose proof (theight_nonneg l). pose proof (theight_nonneg r). lia. Qed.

Lemma rank_app key l1 l2 : rank key (l1 ++ l2) = rank key l1 + rank key l2.
Proof. unfold rank. rewrite filter_app, length_app. lia. Qed.

Lemma rank_bound key l : 0 <= rank key l <= Z.of_nat (length l).
Proof. unfold rank. pose proof (length_filter (fun e => bytes_lt e.1 key) l). lia. Qed.

Lemma rank_all key l : Forall (fun x => bytes_lt x key) (fst <$> l) -> rank key l = Z.of_nat (length l).
Proof. unfold rank. induction l as [|[k v] l IH]; [done|]. cbn [fmap list_fmap fst]. rewrite Forall_cons. intros [H HF]. rewrite filter_cons_True by done. cbn. specialize (IH HF). lia. Qed.

Lemma rank_none key l : Forall (fun x => bytes_le key x) (fst <$> l) -> rank key l = 0.
Proof.
  unfold rank. induction l as [|[k v] l IH]; [done|]. cbn [fmap list_fmap fst]. rewrite Forall_cons. intros [H HF].
  rewrite filter_cons_False; [auto|]. cbn. intros H'. by apply bytes_lt_not_le in H'.
Qed.

(** * The stored form of a node *)

(** A node whose children, if any, are known by hash. *)
Definition loaded (t : tree) : Node :=
  match t with
  | Leaf k v ver => mkNode k (Some v) (Some (thash t)) None None ver 1 None None 0 true
  | Inner k ver l r => mkNode k None (Some (thash t)) (Some (thash l)) (Some (thash r)) ver (tsize t) None None (theight t) true
  end.

Lemma drop_blen {A} (a b : list A) : drop (Z.to_nat (blen a)) (a ++ b) = b.
Proof. unfold blen. by rewrite Nat2Z.id, drop_app_length. Qed.

Lemma enc_varint x rest : - 2 ^ 63 <= x < 2 ^ 63 -> enc (DecodeVarint (EncodeVarint x ++ rest)) = Ok (x, blen (EncodeVarint x)).
Proof. intros H. by rewrite DecodeVarint_encode. Qed.
Lemma enc_bytes b rest : short b -> enc (DecodeBytes (EncodeBytes b ++ rest)) = Ok (b, blen (EncodeBytes b)).
Proof. intros H. by rewrite DecodeBytes_encode. Qed.

Lemma MakeNode_tbytes t : tree_ok t -> (n ← MakeNode (tbytes t); Ok (with_persisted (with_hash (thash t) n))) = Ok (loaded t).
Proof.
  intros Hok. pose proof (tree_ok_height t Hok). pose proof (tree_ok_node t Hok) as (Hk & Hv & Hval). destruct Hok as (_ & _ & Hs & _).
  pose proof (tsize_pos t). unfold MakeNode, tbytes, tree_head. rewrite <- !app_assoc.
  rewrite enc_varint by lia. cbn [mbind result_bind]. rewrite drop_blen.
  rewrite (proj2 (Z.ltb_ge _ _)), (proj2 (Z.ltb_ge 127 _)) by lia. cbn [orb].
  rewrite enc_varint by lia. cbn [mbind result_bind]. rewrite drop_blen.
  rewrite enc_varint by lia. cbn [mbind result_bind]. rewrite drop_blen.
  rewrite enc_bytes by done. cbn [mbind result_bind]. rewrite drop_blen. destruct t as [k v ver|k ver l r].
  - cbn [theight Z.eqb]. rewrite <- (app_nil_r (EncodeBytes v)), enc_bytes by done. done.
  - rewrite (proj2 (Z.eqb_neq _ 0)) by apply theight_inner. rewrite enc_bytes by apply short_thash. cbn [mbind result_bind]. rewrite drop_blen.
    rewrite <- (app_nil_r (EncodeBytes (thash r))), enc_bytes by apply short_thash. done.
Qed.

Lemma nodeKey_thash t : KeyBytes nodeKeyFormat [thash t] = Some (nkey (thash t)).
Proof.
  unfold KeyBytes. rewrite key_segments_fits; [cbn; by rewrite app_nil_r|].
  cbn. unfold hashSize. constructor; [done|by rewrite length_thash|constructor].
Qed.

Lemma GetNode_stored db t : stored db t -> tree_ok t -> GetNode db (Some (thash t)) = Ok (loaded t).
Proof.
  intros Hs Hok. unfold GetNode. destruct (thash t) eqn:E; [by apply thash_nonempty in E|]. rewrite <- E, nodeKey_thash.
  assert (db !! nkey (thash t) = Some (tbytes t)) as -> by (unfold stored in Hs; rewrite Forall_forall in Hs; apply Hs, subtrees_self).
  by apply MakeNode_tbytes.
Qed.

(** The bytes of a node are those of its tree, and [encodedSize] is their number. *)
Lemma writeBytes_repr P Q n t : repr P Q n t -> n_leftNode n = None -> n_rightNode n = None -> writeBytes n = Ok (tbytes t).
Proof.
  destruct t as [k v ver|k ver l r]; cbn [repr]; intros (Hk & Hv & Hs & Hh & _ & _ & H) El Er;
    unfold writeBytes, tbytes, tree_head, isLeaf; rewrite Hk, Hv, Hs, Hh; cbn [tkey].
  - destruct H as (-> & _). cbn [theight Z.eqb]. by rewrite <- !app_assoc.
  - rewrite (proj2 (Z.eqb_neq _ 0)) by apply theight_inner. rewrite El, Er in H. destruct H as (_ & (-> & _) & (-> & _)). by rewrite <- !app_assoc.
Qed.

Lemma varint_height_size x : 0 <= x < 64 -> blen (EncodeVarint x) = 1.
Proof.
  intros H. unfold EncodeVarint. rewrite PutVarint_zigzag by lia. unfold zigzag. rewrite (proj2 (Z.ltb_ge _ _)) by lia.
  unfold PutUvarint, MaxVarintLen64. cbn [put_uvarint]. rewrite (proj2 (Z.leb_gt _ _)) by lia. done.
Qed.

Section Loading.
  Context (db : database) (P Q : tree -> Prop).
  Hypothesis P_stored : forall t, P t -> stored db t.
  Hypothesis P_left : forall k ver l r, P (Inner k ver l r) -> P l.
  Hypothesis P_right : forall k ver l r, P (Inner k ver l r) -> P r.

Lemma repr_loaded t : P t -> repr P Q (loaded t) t.
Proof.
  intros H. destruct t as [k v ver|k ver l r]; cbn [repr loaded n_key n_value n_hash n_leftHash n_rightHash n_version n_size n_height n_leftNode n_rightNode n_persisted]; unfold hash_of; split_and!; eauto.
Qed.

(** A node that was saved is as if it was just loaded. *)
Lemma repr_persisted n t : repr P Q n t -> n_persisted n = true -> n = loaded t /\ P t.
Proof.
  intros Hn Hp. destruct n as [nk nv nh nlh nrh nver nsz nl nr nht np], t as [k v ver|k ver l r]; cbn [repr n_persisted n_key n_value n_hash n_leftHash n_rightHash n_version n_size n_height n_leftNode n_rightNode tkey tversion tsize theight] in *; subst np.
  - destruct Hn as (-> & -> & -> & -> & _ & (-> & HP & _ & _) & -> & -> & -> & -> & ->). done.
  - destruct Hn as (-> & -> & -> & -> & _ & (-> & HP & -> & ->) & -> & [-> _] & [-> _]). done.
Qed.

Lemma getLeftNode_repr n k ver l r : repr P Q n (Inner k ver l r) -> tree_ok (Inner k ver l r) -> exists c, getLeftNode db n = Ok c /\ repr P Q c l.
Proof.
  cbn [repr]. intros (_ & _ & _ & _ & _ & _ & _ & Hl & _) Hok. unfold getLeftNode. destruct (n_leftNode n) as [c|].
  - exists c. by destruct Hl.
  - destruct Hl as [-> HP]. exists (loaded l). rewrite GetNode_stored by eauto with iavl. by split; [|apply repr_loaded].
Qed.

Lemma getRightNode_repr n k ver l r : repr P Q n (Inner k ver l r) -> tree_ok (Inner k ver l r) -> exists c, getRightNode db n = Ok c /\ repr P Q c r.
Proof.
  cbn [repr]. intros (_ & _ & _ & _ & _ & _ & _ & _ & Hr) Hok. unfold getRightNode. destruct (n_rightNode n) as [c|].
  - exists c. by destruct Hr.
  - destruct Hr as [-> HP]. exists (loaded r). rewrite GetNode_stored by eauto with iavl. by split; [|apply repr_loaded].
Qed.

Lemma repr_isLeaf n t : repr P Q n t -> isLeaf n = match t with Leaf _ _ _ => true | Inner _ _ _ _ => false end.
Proof.
  intros H. assert (n_height n = theight t) as E by (destruct t; cbn [repr] in H; tauto). unfold isLeaf. rewrite E.
  destruct t; [done|]. apply Z.eqb_neq, theight_inner.
Qed.

Lemma repr_fields n t : repr P Q n t -> n_key n = tkey t /\ n_version n = tversion t /\ n_size n = tsize t /\ n_height n = theight t.
Proof. destruct t; cbn [repr]; tauto. Qed.

(** * Reading *)

Lemma has_repr key t : forall fuel n, repr P Q n t -> tree_ok t -> (Z.to_nat (theight t) < fuel)%nat -> has fuel db n key = Ok (bool_decide (key ∈ keys t)).
Proof.
  induction t as [k v ver|k ver l IHl r IHr]; intros [|fuel] n Hn Hok Hf; try lia; cbn [has];
    rewrite (repr_isLeaf n _ Hn); destruct (repr_fields n _ Hn) as (-> & _); cbn [tkey].
  - destruct (bool_decide_reflect (k = key)) as [->|E]; symmetry; f_equal; [apply bool_decide_true; left|apply bool_decide_false; by intros ->%list_elem_of_singleton].
  - destruct Hok as [Hb Hok']. pose proof (bst_right _ _ _ _ Hb) as Fr. pose proof Hb as (Hl & Hr & Fl & Hh). pose proof (conj Hb Hok') as Hok. cbn [leaves]. rewrite fmap_app.
    pose proof (theight_nonneg l). pose proof (theight_nonneg r). cbn [theight] in Hf. destruct (bool_decide_reflect (k = key)) as [E|E].
    { subst. f_equal. symmetry. apply bool_decide_true, elem_of_app. right. by apply head_Some_elem_of. }
    destruct (bytes_ltb key k) eqn:Ek.
    + destruct (getLeftNode_repr n _ _ _ _ Hn Hok) as (c & -> & Hc). cbn [mbind result_bind]. rewrite (IHl fuel c) by (eauto with iavl; lia).
      f_equal. apply bool_decide_ext. rewrite elem_of_app. apply bytes_ltb_lt in Ek. split; [by left|]. intros [H1|H1]; [done|].
      eapply Forall_forall in Fr; [|exact H1]. by apply bytes_lt_not_le in Ek.
    + destruct (getRightNode_repr n _ _ _ _ Hn Hok) as (c & -> & Hc). cbn [mbind result_bind]. rewrite (IHr fuel c) by (eauto with iavl; lia).
      f_equal. apply bool_decide_ext. rewrite elem_of_app. apply bytes_ltb_ge in Ek. split; [by right|]. intros [H1|H1]; [|done].
      eapply Forall_forall in Fl; [|exact H1]. by apply bytes_lt_not_le in Fl.
Qed.

Lemma get_repr key t : forall fuel n, repr P Q n t -> tree_ok t -> (Z.to_nat (theight t) < fuel)%nat ->
  get fuel db n key = Ok (rank key (leaves t), to_map t !! key).
Proof.
  induction t as [k v ver|k ver l IHl r IHr]; intros [|fuel] n Hn Hok Hf; try lia; cbn [get]; rewrite (repr_isLeaf n _ Hn).
  - cbn [repr tkey tversion] in Hn. destruct Hn as (-> & _ & _ & _ & _ & _ & Hn). destruct Hn as (-> & _). unfold to_map, rank. cbn [leaves list_to_map foldr].
    pose proof (compare_spec k key) as C. destruct (bytes_compare k key).
    + subst. rewrite filter_cons_False by (apply bytes_lt_irrefl). cbn. by rewrite lookup_insert_eq.
    + assert (k <> key) by (intros ->; by apply bytes_lt_irrefl in C). rewrite filter_cons_True by done. cbn. by rewrite lookup_insert_ne, lookup_empty.
    + assert (k <> key) by (intros ->; by apply bytes_lt_irrefl in C). rewrite filter_cons_False; [cbn; by rewrite lookup_insert_ne, lookup_empty|].
      cbn. intros H1. apply (bytes_lt_irrefl k). by transitivity key.
  - pose proof Hok as [Hb Hok']. pose proof (bst_right _ _ _ _ Hb) as Fr. pose proof Hb as (Hl & Hr & Fl & Hh).
    pose proof (theight_nonneg l). pose proof (theight_nonneg r). cbn [theight] in Hf. destruct (repr_fields n _ Hn) as (-> & _ & Hsz & _). cbn [tkey].
    unfold to_map. cbn [leaves]. rewrite rank_app, list_to_map_app, lookup_union. destruct (bytes_ltb key k) eqn:Ek.
    + destruct (getLeftNode_repr n _ _ _ _ Hn Hok) as (c & -> & Hc). cbn [mbind result_bind]. rewrite (IHl fuel c) by (eauto with iavl; lia).
      apply bytes_ltb_lt in Ek. rewrite (rank_none key (leaves r)), (not_elem_of_list_to_map_1 (leaves r)), Z.add_0_r, (right_id_L None (∪)); [done| |].
      * intros H1. eapply Forall_forall in Fr; [|exact H1]. by apply bytes_lt_not_le in Ek.
      * eapply Forall_impl; [exact Fr|]. cbn. intros x Hx. by apply bytes_lt_le, (bytes_lt_le_trans _ k).
    + destruct (getRightNode_repr n _ _ _ _ Hn Hok) as (c & -> & Hc). cbn [mbind result_bind]. rewrite (IHr fuel c) by (eauto with iavl; lia).
      cbn [mbind result_bind]. destruct (repr_fields c _ Hc) as (_ & _ & -> & _). rewrite Hsz. apply bytes_ltb_ge in Ek.
      assert (Forall (fun x => bytes_lt x key) (keys l)) as Fk by (eapply Forall_impl; [exact Fl|]; cbn; intros x Hx; by eapply bytes_lt_le_trans).
      assert (key ∉ keys l) as Nk by (intros H1; eapply Forall_forall in Fk; [|exact H1]; by apply bytes_lt_irrefl in Fk).
      rewrite (rank_all key (leaves l)), (not_elem_of_list_to_map_1 (leaves l)), (left_id_L None (∪)) by done.
      pose proof (rank_bound key (leaves r)). rewrite <- tsize_leaves in *. destruct Hok' as (_ & Hs & _). cbn [tsize] in *.
      pose proof (tsize_pos l). rewrite wrapS_small by lia. do 2 f_equal. lia.
Qed.

Lemma getByIndex_repr t : forall fuel n i, repr P Q n t -> tree_ok t -> (Z.to_nat (theight t) < fuel)%nat -> - 2 ^ 63 <= i < 2 ^ 63 ->
  getByIndex fuel db n i = Ok (e ← (if i <? 0 then None else leaves t !! Z.to_nat i); Some (e.1, Some e.2)).
Proof.
  induction t as [k v ver|k ver l IHl r IHr]; intros [|fuel] n i Hn Hok Hf Hi; try lia; cbn [getByIndex]; rewrite (repr_isLeaf n _ Hn).
  - cbn [repr tkey tversion] in Hn. destruct Hn as (-> & _ & _ & _ & _ & _ & Hn). destruct Hn as (-> & _). cbn [leaves].
    destruct (Z.eqb_spec i 0) as [->|]; [done|]. destruct (Z.ltb_spec i 0); [done|]. rewrite lookup_cons_ne_0 by lia. done.
  - pose proof (theight_nonneg l). pose proof (theight_nonneg r). cbn [theight] in Hf. pose proof Hok as (_ & _ & Hs & _). cbn [tsize] in Hs. pose proof (tsize_pos l). pose proof (tsize_pos r).
    destruct (getLeftNode_repr n _ _ _ _ Hn Hok) as (c & -> & Hc). cbn [mbind result_bind leaves]. destruct (repr_fields c _ Hc) as (_ & _ & -> & _).
    pose proof (tsize_leaves l) as El. destruct (Z.ltb_spec i (tsize l)).
    + rewrite (IHl fuel c) by (eauto with iavl; lia). destruct (Z.ltb_spec i 0); [done|]. by rewrite lookup_app_l by lia.
    + destruct (getRightNode_repr n _ _ _ _ Hn Hok) as (c' & -> & Hc'). cbn [mbind result_bind]. rewrite wrapS_small by lia.
      rewrite (IHr fuel c') by (eauto with iavl; lia). rewrite !(proj2 (Z.ltb_ge _ 0)) by lia. rewrite lookup_app_r by lia. do 3 f_equal. lia.
Qed.
End Loading.
