(* ===== verification/IavlIter.v ===== *)
(** [third_party/iavl]: iterators.

    [iterator.go]: the depth-first walk over a range of the tree with a stack of nodes
    still to expand, and the iterator over its leaves; [fast_iterator.go]: the iterator
    over the index of the latest version; [unsaved_fast_iterator.go]: the same merged
    with the changes not yet saved.

    A walk takes fuel for the nodes it expands and panics when it runs out; twice the
    number of nodes of the tree is enough. *)

From stdpp Require Import base list gmap strings sorting.
From Stdlib Require Import ZArith Lia.
From S2P Require Import Prelude KVStore Sha256 IavlEncoding IavlNode.
Open Scope Z_scope.

(** * [dbm.DB] iterators: the entries between two keys, in order *)

Definition in_domain (start end_ : option bytes) (k : bytes) : bool :=
  match start with None => true | Some s => bytes_leb s k end && match end_ with None => true | Some e => bytes_ltb k e end.

Definition range_iter (start end_ : option bytes) (db : database) : list (bytes * bytes) :=
  merge_sort entry_le (filter (fun kv => in_domain start end_ kv.1 = true) (map_to_list db)).

(** * Traversal *)

Record traversal := mkTraversal {
  tr_start : option bytes;
  tr_end : option bytes;
  ascending : bool;
  inclusive : bool;
  post : bool;
  delayedNodes : list (option Node * bool)
}.

Definition newTraversal (node : option Node) (start end_ : option bytes) (asc incl pst : bool) : traversal :=
  mkTraversal start end_ asc incl pst [(node, true)].

Definition with_nodes (ns : list (option Node * bool)) (t : traversal) : traversal :=
  mkTraversal (tr_start t) (tr_end t) (ascending t) (inclusive t) (post t) ns.

(** The stack's top is its first element. *)
Definition push (node : Node) (delayed : bool) (t : traversal) : traversal := with_nodes ((Some node, delayed) :: delayedNodes t) t.

Definition afterStart (t : traversal) (key : bytes) : bool := match tr_start t with None => true | Some s => bytes_ltb s key end.
Definition startOrAfter (t : traversal) (key : bytes) : bool := afterStart t key || bool_decide (tr_start t = Some key).
Definition beforeEnd (t : traversal) (key : bytes) : bool :=
  match tr_end t with None => true | Some e => bytes_ltb key e end || (inclusive t && bool_decide (key = default [] (tr_end t))).

Definition push_left (db : database) (node : Node) (t : traversal) : res traversal :=
  if afterStart t (n_key node) then l ← getLeftNode db node; Ok (push l true t) else Ok t.
Definition push_right (db : database) (node : Node) (t : traversal) : res traversal :=
  if beforeEnd t (n_key node) then r ← getRightNode db node; Ok (push r true t) else Ok t.

Fixpoint next (fuel : nat) (db : database) (t : traversal) : res (traversal * option Node) :=
  match fuel with
  | O => Panic
  | S fuel =>
    match delayedNodes t with
    | [] => Ok (t, None)
    | (node, delayed) :: rest =>
      let t := with_nodes rest t in
      match delayed, node with
      | true, Some node =>
        let inRange := startOrAfter t (n_key node) && beforeEnd t (n_key node) in
        let shown := negb (isLeaf node) || inRange in
        let t := if post t && shown then push node false t else t in
        t ← if isLeaf node then Ok t
            else if ascending t then t ← push_right db node t; push_left db node t
            else t ← push_left db node t; push_right db node t;
        if negb (post t) && shown then Ok (t, Some node) else next fuel db t
      | _, _ => Ok (t, node)
      end
    end
  end.

(** [traverseInRange] with a callback that threads a state and may stop the walk; an
    error ends the walk silently. *)
Fixpoint traverse_loop {A : Type} (fuel : nat) (db : database) (cb : A -> Node -> A * bool) (t : traversal) (a : A) : res (A * bool) :=
  match fuel with
  | O => Panic
  | S fuel' =>
    match next fuel db t with
    | Ok (t, Some node) => let '(a, stop) := cb a node in if stop then Ok (a, true) else traverse_loop fuel' db cb t a
    | Ok (_, None) | Err _ => Ok (a, false)
    | Panic => Panic
    end
  end.

Definition traverseInRange {A : Type} (fuel : nat) (db : database) (node : option Node) (start end_ : option bytes) (asc incl pst : bool)
    (cb : A -> Node -> A * bool) (a : A) : res (A * bool) :=
  traverse_loop fuel db cb (newTraversal node start end_ asc incl pst) a.

(** [ImmutableTree.IterateRange] and [IterateRangeInclusive]: the callback sees the leaves. *)
Definition IterateRange {A : Type} (fuel : nat) (db : database) (root : option Node) (start end_ : option bytes) (asc : bool)
    (fn : A -> bytes -> option bytes -> A * bool) (a : A) : res (A * bool) :=
  match root with
  | None => Ok (a, false)
  | Some _ => traverseInRange fuel db root start end_ asc false false
      (fun a node => if n_height node =? 0 then fn a (n_key node) (n_value node) else (a, false)) a
  end.

Definition IterateRangeInclusive {A : Type} (fuel : nat) (db : database) (root : option Node) (start end_ : option bytes) (asc : bool)
    (fn : A -> bytes -> option bytes -> Z -> A * bool) (a : A) : res (A * bool) :=
  match root with
  | None => Ok (a, false)
  | Some _ => traverseInRange fuel db root start end_ asc true false
      (fun a node => if n_height node =? 0 then fn a (n_key node) (n_value node) (n_version node) else (a, false)) a
  end.

(** * [Iterator] *)

(** The current entry and the rest of the walk; [None] when the iterator is not valid. *)
Record Iterator := mkIterator { it_key : bytes; it_value : option bytes; it_t : traversal }.

Fixpoint Iterator_Next (fuel : nat) (db : database) (t : traversal) : res (option Iterator) :=
  match fuel with
  | O => Panic
  | S fuel' =>
    match next fuel db t with
    | Ok (t, Some node) => if n_height node =? 0 then Ok (Some (mkIterator (n_key node) (n_value node) t)) else Iterator_Next fuel' db t
    | Ok (_, None) | Err _ => Ok None
    | Panic => Panic
    end
  end.

Definition NewIterator (fuel : nat) (db : database) (start end_ : option bytes) (asc : bool) (root : option Node) : res (option Iterator) :=
  Iterator_Next fuel db (newTraversal root start end_ asc false false).

(** The loop [for ; itr.Valid(); itr.Next()], collecting the entries. *)
Fixpoint Iterator_entries (fuel : nat) (db : database) (it : option Iterator) : res (list (bytes * bytes)) :=
  match fuel, it with
  | _, None => Ok []
  | O, Some _ => Panic
  | S fuel', Some it =>
    it' ← Iterator_Next fuel db (it_t it);
    rest ← Iterator_entries fuel' db it';
    Ok ((it_key it, default [] (it_value it)) :: rest)
  end.

(** * [FastIterator] *)

Definition fastKey (key : bytes) : bytes := 102 :: key.

(** [nodeDB.getFastIterator] *)
Definition getFastIterator (db : database) (start end_ : option bytes) (asc : bool) : list (bytes * bytes) :=
  let startFormatted := fastKey (default [] start) in
  let endFormatted := match end_ with Some e => fastKey e | None => [103] end in
  let l := range_iter (Some startFormatted) (Some endFormatted) db in
  if asc then l else rev l.

(** The entries left of the database iterator, the current one included, and the
    current fast node, [None] when it cannot be decoded. *)
Record FastIterator := mkFastIterator { fi_entries : list (bytes * bytes); fi_node : option FastNode }.

Definition fast_at (entries : list (bytes * bytes)) : FastIterator :=
  mkFastIterator entries
    match entries with
    | [] => None
    | (k, v) :: _ => match DeserializeNode (tail k) v with Ok fn => Some fn | _ => None end
    end.

Definition NewFastIterator (db : database) (start end_ : option bytes) (asc : bool) : FastIterator := fast_at (getFastIterator db start end_ asc).
Definition FastIterator_Next (it : FastIterator) : FastIterator :=
  match fi_node it with Some _ => fast_at (tail (fi_entries it)) | None => mkFastIterator (tail (fi_entries it)) None end.
Definition FastIterator_Valid (it : FastIterator) : bool := bool_decide (is_Some (fi_node it)).
Definition FastIterator_Key (it : FastIterator) : bytes := default [] (fn_key <$> fi_node it).
Definition FastIterator_Value (it : FastIterator) : bytes := default [] (fn_value <$> fi_node it).

(** The loop over a fast iterator. *)
Fixpoint Fast_entries (fuel : nat) (it : FastIterator) : list (bytes * bytes) :=
  match fuel with
  | O => []
  | S fuel => if FastIterator_Valid it then (FastIterator_Key it, FastIterator_Value it) :: Fast_entries fuel (FastIterator_Next it) else []
  end.

(** * [UnsavedFastIterator] *)

Record UnsavedFastIterator := mkUnsaved {
  ui_start : option bytes;
  ui_end : option bytes;
  ui_ascending : bool;
  ui_next : option (bytes * bytes);
  ui_fast : FastIterator;
  ui_unsaved : list bytes;
  ui_additions : gmap bytes FastNode;
  ui_removals : gset bytes
}.

Definition ui_with (n : option (bytes * bytes)) (f : FastIterator) (u : list bytes) (it : UnsavedFastIterator) : UnsavedFastIterator :=
  mkUnsaved (ui_start it) (ui_end it) (ui_ascending it) n f u (ui_additions it) (ui_removals it).

(** One step is taken per entry of the two sources, so the fuel is their number. *)
Fixpoint Unsaved_next (fuel : nat) (it : UnsavedFastIterator) : res UnsavedFastIterator :=
  match fuel with
  | O => Panic
  | S fuel =>
    let f := ui_fast it in
    let diskKey := FastIterator_Key f in
    let disk_next := Ok (ui_with (Some (diskKey, FastIterator_Value f)) (FastIterator_Next f) (ui_unsaved it) it) in
    match FastIterator_Valid f, ui_unsaved it with
    | true, k :: u =>
      if bool_decide (diskKey ∈ ui_removals it) then Unsaved_next fuel (ui_with (ui_next it) (FastIterator_Next f) (k :: u) it)
      else
        match ui_additions it !! k with
        | None => Panic
        | Some node =>
          if (if ui_ascending it then bytes_leb k diskKey else bytes_leb diskKey k) then
            let f := if bool_decide (diskKey = k) then FastIterator_Next f else f in
            Ok (ui_with (Some (fn_key node, fn_value node)) f u it)
          else disk_next
        end
    | true, [] =>
      if bool_decide (diskKey ∈ ui_removals it) then Unsaved_next fuel (ui_with (ui_next it) (FastIterator_Next f) [] it) else disk_next
    | false, k :: u =>
      match ui_additions it !! k with None => Panic | Some node => Ok (ui_with (Some (fn_key node, fn_value node)) f u it) end
    | false, [] => Ok (ui_with None f [] it)
    end
  end.

Definition Unsaved_Next (it : UnsavedFastIterator) : res UnsavedFastIterator := Unsaved_next (2 + length (fi_entries (ui_fast it))) it.

Definition Unsaved_Valid (it : UnsavedFastIterator) : bool :=
  match ui_start it, ui_end it with Some s, Some e => bytes_ltb s e | _, _ => true end &&
  (FastIterator_Valid (ui_fast it) || negb (bool_decide (ui_unsaved it = [])) || bool_decide (is_Some (ui_next it))).

Definition NewUnsavedFastIterator (db : database) (start end_ : option bytes) (asc : bool) (additions : gmap bytes FastNode) (removals : gset bytes)
    : res UnsavedFastIterator :=
  let inDomain := filter (fun e => in_domain start end_ (fn_key e.2) = true) (map_to_list additions) in
  let sorted := merge_sort bytes_le inDomain.*1 in
  Unsaved_Next (mkUnsaved start end_ asc None (NewFastIterator db start end_ asc) (if asc then sorted else rev sorted) additions removals).

(** The loop over the merged iterator. *)
Fixpoint Unsaved_entries (fuel : nat) (it : UnsavedFastIterator) : res (list (bytes * bytes)) :=
  if Unsaved_Valid it then
    match fuel with
    | O => Panic
    | S fuel =>
      it' ← Unsaved_Next it;
      rest ← Unsaved_entries fuel it';
      Ok (default ([], []) (ui_next it) :: rest)
    end
  else Ok [].

(** * Any of the iterators *)

Inductive DbIterator :=
| ItTree (it : option Iterator)
| ItFast (it : FastIterator)
| ItUnsaved (it : UnsavedFastIterator).

(** The loop [for ; itr.Valid(); itr.Next()]. *)
Definition db_entries (fuel : nat) (db : database) (it : DbIterator) : res (list (bytes * bytes)) :=
  match it with
  | ItTree it => Iterator_entries fuel db it
  | ItFast it => Ok (Fast_entries fuel it)
  | ItUnsaved it => Unsaved_entries fuel it
  end.

(** A loop that may stop. *)
Fixpoint fold_until {A B : Type} (f : A -> B -> A * bool) (l : list B) (a : A) : A * bool :=
  match l with [] => (a, false) | x :: l => let '(a, stop) := f a x in if stop then (a, true) else fold_until f l a end.
