(* ===== verification/IavlWalk.v ===== *)
(** The walks of [third_party/iavl/iterator.go] visit what they should: the stack of
    delayed nodes stands for the rest of a depth-first walk of the tree that leaves out
    the subtrees outside the range, and the entries of an iterator are the leaves in the
    range, in order. *)

From stdpp Require Import base list gmap strings sorting.
From Stdlib Require Import ZArith Lia.
From S2P Require Import Prelude KVStore Sha256 IavlEncoding IavlNode IavlSpec IavlRepr IavlIter.
Open Scope Z_scope.

(** * The walk of a tree *)

(** The nodes in the order of the traversal, for its bounds and directions. *)
Fixpoint walk (tr : traversal) (t : tree) : list tree :=
  match t with
  | Leaf k _ _ => if startOrAfter tr k && beforeEnd tr k then [t] else []
  | Inner k _ l r =>
    let wl := if afterStart tr k then walk tr l else [] in
    let wr := if beforeEnd tr k then walk tr r else [] in
    let below := if ascending tr then wl ++ wr else wr ++ wl in
    if post tr then below ++ [t] else t :: below
  end.

Definition nodes (t : tree) : nat := length (subtrees t).

(** What an entry of the stack stands for, and how many pops it costs. *)
Definition entry_walk (tr : traversal) (e : tree * bool) : list tree := if e.2 then walk tr e.1 else [e.1].
Definition entry_cost (e : tree * bool) : nat := if e.2 then 2 * nodes e.1 else 1.

Definition stack_walk (tr : traversal) (es : list (tree * bool)) : list tree := mjoin (entry_walk tr <$> es).
Definition stack_cost (es : list (tree * bool)) : nat := sum_list (entry_cost <$> es).

Lemma walk_with_nodes ns tr t : walk (with_nodes ns tr) t = walk tr t.
Proof. induction t as [|k ver l IHl r IHr]; cbn [walk]; [done|]. by rewrite IHl, IHr. Qed.

Lemma stack_walk_with_nodes ns tr es : stack_walk (with_nodes ns tr) es = stack_walk tr es.
Proof. unfold stack_walk. f_equal. apply list_fmap_ext. intros i [t d] _. unfold entry_walk. by rewrite walk_with_nodes. Qed.

Lemma nodes_pos t : (0 < nodes t)%nat.
Proof. unfold nodes. destruct t; cbn; lia. Qed.

Lemma nodes_inner k ver l r : nodes (Inner k ver l r) = S (nodes l + nodes r).
Proof. unfold nodes. cbn. by rewrite length_app. Qed.

Lemma nodes_size t : Z.of_nat (nodes t) = 2 * tsize t - 1.
Proof. induction t as [|k ver l IHl r IHr]; [done|]. rewrite nodes_inner. cbn [tsize]. lia. Qed.

(** * The stack *)

Section Walk.
  Context (db : database) (P Q : tree -> Prop).
  Hypothesis HP : forall t, P t -> stored db t.
  Hypothesis HPl : forall k ver l r, P (Inner k ver l r) -> P l.
  Hypothesis HPr : forall k ver l r, P (Inner k ver l r) -> P r.

Definition entry_repr (e : option Node * bool) (x : tree * bool) : Prop :=
  e.2 = x.2 /\ tree_ok x.1 /\ match e.1 with Some n => repr P Q n x.1 | None => False end.

Definition stack_repr (tr : traversal) (es : list (tree * bool)) : Prop := Forall2 entry_repr (delayedNodes tr) es.

(** The bounds and directions stay the same. *)
Definition same_walk (tr tr' : traversal) : Prop := exists ns, tr' = with_nodes ns tr.

Lemma with_nodes_twice ns ns' tr : with_nodes ns (with_nodes ns' tr) = with_nodes ns tr.
Proof. done. Qed.

(** What one call of [next] gives: the next node of the walk, or the end. *)
Definition next_result (tr : traversal) (es : list (tree * bool)) (r : res (traversal * option Node)) : Prop :=
  match stack_walk tr es with
  | [] => exists tr', r = Ok (tr', None) /\ same_walk tr tr' /\ delayedNodes tr' = []
  | x :: rest => exists tr' n es', r = Ok (tr', Some n) /\ same_walk tr tr' /\ repr P Q n x /\ tree_ok x /\ stack_repr tr' es' /\ stack_walk tr es' = rest /\ (stack_cost es' < stack_cost es)%nat
  end.

(** The children that an expanded node pushes. *)
Definition expansion (tr : traversal) (k : bytes) (l r : tree) : list (tree * bool) :=
  let pl := if afterStart tr k then [(l, true)] else [] in
  let pr := if beforeEnd tr k then [(r, true)] else [] in
  if ascending tr then pl ++ pr else pr ++ pl.

Lemma push_left_repr tr k ver l r n es : repr P Q n (Inner k ver l r) -> tree_ok (Inner k ver l r) -> stack_repr tr es ->
  exists ns, push_left db n tr = Ok (with_nodes ns tr) /\ stack_repr (with_nodes ns tr) ((if afterStart tr k then [(l, true)] else []) ++ es).
Proof using HP HPl HPr.
  intros Hn Hok Hs. unfold push_left. destruct (repr_fields P Q n _ Hn) as (-> & _). cbn [tkey]. destruct (afterStart tr k); [|exists (delayedNodes tr); split; [by destruct tr|done]].
  destruct (getLeftNode_repr db P Q HP HPl HPr n _ _ _ _ Hn Hok) as (c & -> & Hc). eexists. split; [reflexivity|]. constructor; [|done]. split_and!; eauto with iavl.
Qed.

Lemma push_right_repr tr k ver l r n es : repr P Q n (Inner k ver l r) -> tree_ok (Inner k ver l r) -> stack_repr tr es ->
  exists ns, push_right db n tr = Ok (with_nodes ns tr) /\ stack_repr (with_nodes ns tr) ((if beforeEnd tr k then [(r, true)] else []) ++ es).
Proof using HP HPl HPr.
  intros Hn Hok Hs. unfold push_right. destruct (repr_fields P Q n _ Hn) as (-> & _). cbn [tkey]. destruct (beforeEnd tr k); [|exists (delayedNodes tr); split; [by destruct tr|done]].
  destruct (getRightNode_repr db P Q HP HPl HPr n _ _ _ _ Hn Hok) as (c & -> & Hc). eexists. split; [reflexivity|]. constructor; [|done]. split_and!; eauto with iavl.
Qed.

(** The children are pushed in the order of the walk. *)
Lemma expand_repr tr k ver l r n es : repr P Q n (Inner k ver l r) -> tree_ok (Inner k ver l r) -> stack_repr tr es ->
  exists ns, (if ascending tr then t ← push_right db n tr; push_left db n t else t ← push_left db n tr; push_right db n t) = Ok (with_nodes ns tr) /\
    stack_repr (with_nodes ns tr) (expansion tr k l r ++ es).
Proof using HP HPl HPr.
  intros Hn Hok Hs. unfold expansion. destruct (ascending tr).
  - destruct (push_right_repr tr k ver l r n es Hn Hok Hs) as (ns & -> & Hs1). cbn [mbind result_bind]. destruct (push_left_repr _ k ver l r n _ Hn Hok Hs1) as (ns' & -> & Hs2).
    exists ns'. split; [done|]. by rewrite <- app_assoc.
  - destruct (push_left_repr tr k ver l r n es Hn Hok Hs) as (ns & -> & Hs1). cbn [mbind result_bind]. destruct (push_right_repr _ k ver l r n _ Hn Hok Hs1) as (ns' & -> & Hs2).
    exists ns'. split; [done|]. by rewrite <- app_assoc.
Qed.

Lemma expansion_walk tr k l r : stack_walk tr (expansion tr k l r) = (if ascending tr then (if afterStart tr k then walk tr l else []) ++ (if beforeEnd tr k then walk tr r else [])
  else (if beforeEnd tr k then walk tr r else []) ++ (if afterStart tr k then walk tr l else [])).
Proof. unfold expansion, stack_walk. destruct (ascending tr), (afterStart tr k), (beforeEnd tr k); cbn; by rewrite ?app_nil_r. Qed.

Lemma stack_cost_cons e es : stack_cost (e :: es) = (entry_cost e + stack_cost es)%nat.
Proof. done. Qed.

Lemma expansion_cost tr k l r : (stack_cost (expansion tr k l r) <= 2 * nodes l + 2 * nodes r)%nat.
Proof.
  unfold expansion. destruct (ascending tr), (afterStart tr k), (beforeEnd tr k); cbn [app]; rewrite ?stack_cost_cons; unfold entry_cost; cbn [fst snd]; change (stack_cost []) with 0%nat; lia.
Qed.

Lemma stack_walk_app tr es es' : stack_walk tr (es ++ es') = stack_walk tr es ++ stack_walk tr es'.
Proof. unfold stack_walk. by rewrite fmap_app, join_app. Qed.

Lemma stack_cost_app es es' : stack_cost (es ++ es') = (stack_cost es + stack_cost es')%nat.
Proof. induction es as [|e es IH]; [done|]. rewrite <- app_comm_cons, !stack_cost_cons. lia. Qed.

Lemma stack_walk_cons tr e es : stack_walk tr (e :: es) = entry_walk tr e ++ stack_walk tr es.
Proof. done. Qed.

Lemma next_result_via tr ns es es1 r : stack_walk tr es1 = stack_walk tr es -> (stack_cost es1 <= stack_cost es)%nat -> next_result (with_nodes ns tr) es1 r -> next_result tr es r.
Proof.
  intros Ew Hc. unfold next_result. rewrite stack_walk_with_nodes, Ew. destruct (stack_walk tr es) as [|x rest].
  - intros (tr' & -> & [ns' ->] & Hd). exists (with_nodes ns' (with_nodes ns tr)). split_and!; try done. by exists ns'.
  - intros (tr' & n & es' & -> & [ns' ->] & Hn & Hok & Hs & Er & Hlt). rewrite stack_walk_with_nodes in Er. exists (with_nodes ns' (with_nodes ns tr)), n, es'. split_and!; try done; [by exists ns'|lia].
Qed.

(** The node on top of the stack is returned. *)
Lemma next_result_top tr t es x ns es' n : stack_walk tr (t :: es) = x :: stack_walk tr es' -> (stack_cost es' < stack_cost (t :: es))%nat ->
  repr P Q n x -> tree_ok x -> stack_repr (with_nodes ns tr) es' -> next_result tr (t :: es) (Ok (with_nodes ns tr, Some n)).
Proof. intros Ew Hc Hn Hok Hs. unfold next_result. rewrite Ew. do 3 eexists. split; [reflexivity|]. split_and!; try done. by exists ns. Qed.

(** [next] returns the next node of the walk, within a number of pops bounded by the stack. *)
Lemma next_repr fuel : forall tr es, stack_repr tr es -> (stack_cost es < fuel)%nat -> next_result tr es (next fuel db tr).
Proof using HP HPl HPr.
  induction fuel as [|fuel IH]; intros tr es Hs Hf; [lia|]. cbn [next]. pose proof Hs as Hs0. unfold stack_repr in Hs. inversion Hs as [E1 E2|[n d] [t d'] ns es' He Hs' E1 E2]; subst es.
  { unfold next_result. cbn. eexists. split; [reflexivity|]. split; [exists (delayedNodes tr); by destruct tr|done]. }
  destruct He as (Ed & Hok & Hn). cbn [fst snd] in Ed, Hok, Hn. subst d'. destruct n as [n|]; [|done]. rewrite stack_cost_cons in Hf. unfold entry_cost in Hf. cbn [fst snd] in Hf.
  pose proof (nodes_pos t). assert (stack_repr (with_nodes ns tr) es') as Hr by done. destruct d.
  2:{ apply (next_result_top tr _ es' t ns es'); try done. rewrite stack_cost_cons. cbn. lia. }
  cbn [post with_nodes]. rewrite (repr_isLeaf P Q n t Hn). destruct (repr_fields P Q n t Hn) as (-> & _).
  change (startOrAfter (with_nodes ns tr)) with (startOrAfter tr). change (beforeEnd (with_nodes ns tr)) with (beforeEnd tr). change (mkTraversal _ _ _ _ _ _) with (with_nodes ns tr).
  destruct t as [k v ver|k ver l r]; cbn [tkey negb orb].
  - assert (stack_walk tr ((Leaf k v ver, true) :: es') = (if startOrAfter tr k && beforeEnd tr k then [Leaf k v ver] else []) ++ stack_walk tr es') as Ew by done.
    assert (stack_cost ((Leaf k v ver, true) :: es') = (2 + stack_cost es')%nat) as Ec by done. change (nodes (Leaf k v ver)) with 1%nat in Hf.
    destruct (startOrAfter tr k && beforeEnd tr k), (post tr) eqn:Ep; cbn [andb mbind result_bind negb post push with_nodes app] in *; rewrite ?Ep; cbn [negb andb].
    + apply (next_result_via tr ((Some n, false) :: ns) _ ((Leaf k v ver, false) :: es')); [by rewrite Ew, stack_walk_cons|rewrite Ec, stack_cost_cons; cbn; lia|].
      apply IH; [by constructor|]. rewrite stack_cost_cons. cbn. lia.
    + apply (next_result_top tr _ es' (Leaf k v ver) ns es'); try done. lia.
    + apply (next_result_via tr ns _ es'); [done|lia|]. apply IH; [done|lia].
    + apply (next_result_via tr ns _ es'); [done|lia|]. apply IH; [done|lia].
  - pose proof (expansion_walk tr k l r) as Hx. pose proof (expansion_cost tr k l r) as Hxc. rewrite nodes_inner in Hf.
    assert (stack_cost ((Inner k ver l r, true) :: es') = (2 * S (nodes l + nodes r) + stack_cost es')%nat) as Ec by (rewrite stack_cost_cons; unfold entry_cost; cbn [fst snd]; by rewrite nodes_inner).
    assert (stack_walk tr ((Inner k ver l r, true) :: es') = (if post tr then stack_walk tr (expansion tr k l r) ++ [Inner k ver l r] else Inner k ver l r :: stack_walk tr (expansion tr k l r)) ++ stack_walk tr es') as Ew
      by (rewrite stack_walk_cons, Hx; done).
    rewrite andb_true_r. destruct (post tr) eqn:Ep.
    + destruct (expand_repr (push n false (with_nodes ns tr)) k ver l r n ((Inner k ver l r, false) :: es') Hn Hok ltac:(by constructor)) as (ns' & -> & Hs2). cbn [mbind result_bind post push with_nodes]. rewrite Ep. cbn [negb andb].
      apply (next_result_via tr ns' _ (expansion tr k l r ++ (Inner k ver l r, false) :: es')).
      * rewrite Ew, stack_walk_app, stack_walk_cons, <- app_assoc. done.
      * rewrite Ec, stack_cost_app, stack_cost_cons. unfold entry_cost at 1. cbn [snd]. lia.
      * apply IH; [done|]. rewrite stack_cost_app, stack_cost_cons. unfold entry_cost at 1. cbn [snd]. lia.
    + destruct (expand_repr (with_nodes ns tr) k ver l r n es' Hn Hok Hr) as (ns' & -> & Hs2). cbn [mbind result_bind post with_nodes]. rewrite Ep. cbn [negb andb].
      apply (next_result_top tr _ es' (Inner k ver l r) ns' (expansion tr k l r ++ es')); try done.
      * by rewrite Ew, stack_walk_app.
      * rewrite Ec, stack_cost_app. lia.
Qed.

(** * The leaves of the walk *)

Definition leaf_entry (t : tree) : option (bytes * bytes) := match t with Leaf k v _ => Some (k, v) | Inner _ _ _ _ => None end.

Definition in_walk (tr : traversal) (e : bytes * bytes) : Prop := startOrAfter tr e.1 && beforeEnd tr e.1 = true.

#[local] Instance in_walk_dec tr e : Decision (in_walk tr e).
Proof. unfold in_walk. apply _. Defined.

Definition in_order {A : Type} (asc : bool) (l : list A) : list A := if asc then l else rev l.

Lemma startOrAfter_below tr x k : bytes_lt x k -> afterStart tr k = false -> startOrAfter tr x = false.
Proof.
  unfold startOrAfter, afterStart. destruct (tr_start tr) as [s|]; [|done]. intros Hx Hk%bytes_ltb_ge. pose proof (bytes_lt_le_trans _ _ _ Hx Hk) as Hs.
  apply orb_false_iff. split; [by apply bytes_ltb_ge, bytes_lt_le|]. apply bool_decide_false. intros [= ->]. by apply bytes_lt_irrefl in Hs.
Qed.

Lemma beforeEnd_above tr x k : bytes_le k x -> beforeEnd tr k = false -> beforeEnd tr x = false.
Proof.
  unfold beforeEnd. destruct (tr_end tr) as [e|]; [|done]. cbn [default from_option id]. intros Hx. rewrite !orb_false_iff, !bytes_ltb_ge. intros [Hk Hi]. split; [by transitivity k|].
  destruct (inclusive tr); [cbn [andb] in *|done]. rewrite bool_decide_eq_false in *. intros ->. apply Hi. by apply (anti_symm bytes_le).
Qed.

Lemma walk_leaves tr t : bst t -> omap leaf_entry (walk tr t) = in_order (ascending tr) (filter (in_walk tr) (leaves t)).
Proof.
  unfold in_order. induction t as [k v ver|k ver l IHl r IHr]; cbn [walk leaves].
  - intros _. rewrite filter_cons. case_decide as Hd; unfold in_walk in Hd; cbn [fst] in Hd; [rewrite Hd; by destruct (ascending tr)|].
    apply not_true_is_false in Hd. rewrite Hd. by destruct (ascending tr).
  - intros Hb. pose proof (bst_right _ _ _ _ Hb) as Fr. destruct Hb as (Hl & Hr & Fl & _). specialize (IHl Hl). specialize (IHr Hr).
    assert (omap leaf_entry (if afterStart tr k then walk tr l else []) = in_order (ascending tr) (filter (in_walk tr) (leaves l))) as El.
    { destruct (afterStart tr k) eqn:Ea; [done|]. rewrite filter_none; [by destruct (ascending tr)|]. rewrite Forall_fmap in Fl. eapply Forall_impl; [exact Fl|]. intros [x v] Hx. unfold in_walk.
      cbn in *. by rewrite (startOrAfter_below tr x k). }
    assert (omap leaf_entry (if beforeEnd tr k then walk tr r else []) = in_order (ascending tr) (filter (in_walk tr) (leaves r))) as Er.
    { destruct (beforeEnd tr k) eqn:Ea; [done|]. rewrite filter_none; [by destruct (ascending tr)|]. rewrite Forall_fmap in Fr. eapply Forall_impl; [exact Fr|]. intros [x v] Hx. unfold in_walk.
      cbn in *. by rewrite (beforeEnd_above tr x k), andb_false_r. }
    rewrite filter_app. unfold in_order in *. destruct (ascending tr), (post tr); rewrite ?omap_cons, ?omap_app; cbn; rewrite ?app_nil_r, ?rev_app_distr, ?omap_app; congruence.
Qed.

(** The leaves of a walk whose end is not included. *)
Lemma walk_range tr (lo hi : option bytes) asc t : bst t -> tr_start tr = lo -> tr_end tr = hi -> ascending tr = asc -> inclusive tr = false ->
  omap leaf_entry (walk tr t) = in_order asc (filter (fun e => in_domain lo hi e.1 = true) (leaves t)).
Proof.
  intros Hb Elo Ehi Easc Ei. rewrite walk_leaves, Easc by done. f_equal. apply list_filter_iff. intros [k v]. unfold in_walk, startOrAfter, beforeEnd, afterStart, in_domain. rewrite Elo, Ehi, Ei. cbn [fst andb].
  rewrite orb_false_r. destruct lo as [s|]; [|done]. replace (bytes_ltb s k || bool_decide (Some s = Some k)) with (bytes_leb s k); [done|].
  unfold bytes_ltb. rewrite (bool_decide_ext (Some s = Some k) (s = k)) by (split; [by intros [= ->]|by intros ->]). destruct (bool_decide_reflect (s = k)) as [->|]; [|by rewrite andb_true_r, orb_false_r].
  rewrite orb_true_r. apply bytes_le_refl.
Qed.

(** * Iterators *)

(** The leaves the rest of a walk will show. *)
Abbreviation rest_leaves tr es := (omap leaf_entry (stack_walk tr es)).

Definition iterator_result (tr : traversal) (es : list (tree * bool)) (r : res (option Iterator)) : Prop :=
  match rest_leaves tr es with
  | [] => r = Ok None
  | (k, v) :: rest => exists tr' es', r = Ok (Some (mkIterator k (Some v) tr')) /\ same_walk tr tr' /\ stack_repr tr' es' /\ rest_leaves tr es' = rest /\ (stack_cost es' < stack_cost es)%nat
  end.

Lemma Iterator_Next_repr fuel : forall tr es, stack_repr tr es -> (stack_cost es < fuel)%nat -> iterator_result tr es (Iterator_Next fuel db tr).
Proof using HP HPl HPr.
  induction fuel as [|fuel IH]; intros tr es Hs Hf; [lia|]. pose proof (next_repr (S fuel) tr es Hs Hf) as Hn. cbn [Iterator_Next]. unfold next_result in Hn. unfold iterator_result.
  destruct (stack_walk tr es) as [|x rest]; [destruct Hn as (tr' & -> & _); done|]. destruct Hn as (tr' & n & es' & -> & [ns ->] & Hn & Hok & Hs' & Er & Hc).
  destruct (repr_fields P Q n x Hn) as (Ek & _ & _ & Eh). rewrite Eh, Ek. destruct x as [k v ver|k ver l r]; cbn [omap list_omap leaf_entry theight].
  - cbn [Z.eqb]. assert (n_value n = Some v) as -> by (cbn [repr] in Hn; tauto). do 2 eexists. split; [reflexivity|]. split_and!; [by exists ns|done|by rewrite Er|done].
  - rewrite (proj2 (Z.eqb_neq _ _)) by (apply (theight_inner k ver l r)). specialize (IH _ es' Hs' ltac:(lia)). unfold iterator_result in IH. rewrite stack_walk_with_nodes, Er in IH.
    change (list_omap tree (bytes * bytes)%type leaf_entry rest) with (omap leaf_entry rest). destruct (omap leaf_entry rest) as [|[k' v'] rest']; [done|].
    destruct IH as (tr2 & es2 & -> & [ns2 ->] & Hs2 & Er2 & Hc2). rewrite stack_walk_with_nodes in Er2. do 2 eexists. split; [reflexivity|]. split_and!; [by exists ns2|done|done|lia].
Qed.

Lemma Iterator_entries_repr fuel : forall tr es it, iterator_result tr es (Ok it) -> (stack_cost es <= fuel)%nat -> Iterator_entries fuel db it = Ok (rest_leaves tr es).
Proof using HP HPl HPr.
  induction fuel as [|fuel IH]; intros tr es it Hit Hf; unfold iterator_result in Hit; (destruct (rest_leaves tr es) as [|[k v] rest]; [by injection Hit as ->|]);
    destruct Hit as (tr' & es' & [= ->] & [ns ->] & Hs' & Er & Hc); [lia|]. cbn [Iterator_entries it_t it_key it_value].
  pose proof (Iterator_Next_repr (S fuel) _ es' Hs' ltac:(lia)) as Hn. unfold iterator_result in Hn. rewrite stack_walk_with_nodes, Er in Hn.
  assert (exists it', Iterator_Next (S fuel) db (with_nodes ns tr) = Ok it' /\ iterator_result (with_nodes ns tr) es' (Ok it')) as (it' & -> & Hit').
  { unfold iterator_result. rewrite stack_walk_with_nodes, Er. destruct rest as [|[k' v'] rest']; [by exists None|]. destruct Hn as (tr2 & es2 & -> & Hn). eexists. split; [reflexivity|]. do 2 eexists. by split; [reflexivity|]. }
  cbn [mbind result_bind]. rewrite (IH _ es' it' Hit') by lia. rewrite stack_walk_with_nodes, Er. done.
Qed.

(** Iterating over the range gives its leaves in order. *)
Lemma iterator_repr n t fuel fuel' (lo hi : option bytes) asc : repr P Q n t -> tree_ok t -> (2 * nodes t < fuel)%nat -> (2 * nodes t < fuel')%nat ->
  exists it, NewIterator fuel db lo hi asc (Some n) = Ok it /\ Iterator_entries fuel' db it = Ok (in_order asc (filter (fun e => in_domain lo hi e.1 = true) (leaves t))).
Proof using HP HPl HPr.
  intros Hn Hok Hf Hf'. set (tr := newTraversal (Some n) lo hi asc false false). assert (stack_repr tr [(t, true)]) as Hs by (apply Forall2_cons; split; [by split_and!|constructor]).
  assert (stack_cost [(t, true)] = (2 * nodes t)%nat) as Ec by (rewrite stack_cost_cons; cbn [stack_cost]; unfold entry_cost; cbn [fst snd]; change (stack_cost []) with 0%nat; lia).
  pose proof (Iterator_Next_repr fuel tr _ Hs ltac:(lia)) as Hi.
  assert (exists it, NewIterator fuel db lo hi asc (Some n) = Ok it /\ iterator_result tr [(t, true)] (Ok it)) as (it & -> & Hit).
  { unfold NewIterator. fold tr. unfold iterator_result in *. destruct (rest_leaves tr [(t, true)]) as [|[k v] rest]; [by exists None|]. destruct Hi as (tr2 & es2 & -> & Hi). eexists. split; [reflexivity|]. do 2 eexists. by split; [reflexivity|]. }
  exists it. split; [done|]. rewrite (Iterator_entries_repr fuel' tr [(t, true)] it Hit) by lia. f_equal. rewrite stack_walk_cons. unfold entry_walk. cbn [fst snd]. change (stack_walk tr []) with (@nil tree). by rewrite app_nil_r, (walk_range tr lo hi asc) by (try done; apply Hok).
Qed.

(** * Walks with a callback *)

Lemma traverse_repr {A : Type} (cb : A -> Node -> A * bool) (cb' : A -> tree -> A * bool) fuel : (forall a n t, repr P Q n t -> cb a n = cb' a t) ->
  forall tr es a, stack_repr tr es -> (stack_cost es < fuel)%nat -> traverse_loop fuel db cb tr a = Ok (fold_until cb' (stack_walk tr es) a).
Proof using HP HPl HPr.
  intros Hcb. induction fuel as [|fuel IH]; intros tr es a Hs Hf; [lia|]. cbn [traverse_loop]. pose proof (next_repr (S fuel) tr es Hs Hf) as Hn. unfold next_result in Hn.
  destruct (stack_walk tr es) as [|x rest]; [destruct Hn as (tr' & -> & _); done|]. destruct Hn as (tr' & n & es' & -> & [ns ->] & Hn & _ & Hs' & Er & Hc). cbn [fold_until]. rewrite (Hcb a n x Hn).
  destruct (cb' a x) as [a' []]; [done|]. rewrite (IH _ es') by (try done; lia). by rewrite stack_walk_with_nodes, Er.
Qed.

Lemma fold_until_leaves {A : Type} (fn : A -> bytes -> option bytes -> A * bool) l a :
  fold_until (fun a t => match t with Leaf k v _ => fn a k (Some v) | Inner _ _ _ _ => (a, false) end) l a = fold_until (fun a e => fn a e.1 (Some e.2)) (omap leaf_entry l) a.
Proof. revert a. induction l as [|[k v ver|k ver x y] l IH]; intros a; cbn; [done| |apply IH]. destruct (fn a k (Some v)) as [a' []]; [done|apply IH]. Qed.

(** [IterateRange] shows the leaves of the range in order until the callback stops it. *)
Lemma IterateRange_repr {A : Type} (fn : A -> bytes -> option bytes -> A * bool) n t fuel (lo hi : option bytes) asc a : repr P Q n t -> tree_ok t -> (2 * nodes t < fuel)%nat ->
  IterateRange fuel db (Some n) lo hi asc fn a = Ok (fold_until (fun a e => fn a e.1 (Some e.2)) (in_order asc (filter (fun e => in_domain lo hi e.1 = true) (leaves t))) a).
Proof using HP HPl HPr.
  intros Hn Hok Hf. unfold IterateRange, traverseInRange. set (tr := newTraversal (Some n) lo hi asc false false). assert (stack_repr tr [(t, true)]) as Hs by (apply Forall2_cons; split; [by split_and!|constructor]).
  rewrite (traverse_repr _ (fun a t => match t with Leaf k v _ => fn a k (Some v) | Inner _ _ _ _ => (a, false) end) fuel) with (es := [(t, true)]); [|clear|done|rewrite stack_cost_cons; unfold entry_cost; cbn [fst snd]; change (stack_cost []) with 0%nat; lia].
  - rewrite fold_until_leaves, stack_walk_cons. unfold entry_walk. cbn [fst snd]. change (stack_walk tr []) with (@nil tree). by rewrite app_nil_r, (walk_range tr lo hi asc) by (try done; apply Hok).
  - intros a n x Hx. destruct (repr_fields P Q n x Hx) as (Ek & _ & _ & Eh). rewrite Eh, Ek. destruct x as [k v ver|k ver l r]; cbn [theight tkey]; [|by rewrite (proj2 (Z.eqb_neq _ _)) by (apply (theight_inner k ver l r))].
    cbn [Z.eqb]. by assert (n_value n = Some v) as -> by (cbn [repr] in Hx; tauto).
Qed.
End Walk.
