(* ===== verification/IavlDb.v ===== *)
(** [third_party/iavl/nodedb.go]: the database of the tree store.

    The database is a map from byte strings to byte strings; writes collect in a batch
    and take effect together when the batch is written.  Node entries are keyed by
    hash, root entries by version, orphan entries by the versions a replaced node is
    still needed for, fast entries by key.

    The node cache and the fast node cache return what the database holds and are left
    out; the database itself does not fail. *)

From Stdlib Require Import ZArith Lia Ascii String.
From stdpp Require Import base list gmap strings sorting.
From S2P Require Import Prelude KVStore BigInt Sha256 IavlEncoding IavlNode IavlIter.
Open Scope Z_scope.
Open Scope go_scope.

Notation "'let!' ' p ':=' c 'in' k" := (bind c (fun x => match x with p => k end))
  (at level 10, p pattern, c at level 100, k at level 200) : go_scope.

Definition str (s : string) : bytes := (fun c => Z.of_nat (nat_of_ascii c)) <$> list_ascii_of_string s.

(** [strconv.Itoa] *)
Definition Itoa (x : Z) : bytes := str (BigString x).

(** [strings.Split] with a one-byte separator. *)
Fixpoint Split (sep : Z) (s : bytes) : list bytes :=
  match s with
  | [] => [[]]
  | c :: s =>
    if c =? sep then [] :: Split sep s
    else match Split sep s with [] => [[c]] | w :: ws => (c :: w) :: ws end
  end.

(** * Key formats *)

Definition int64Size : nat := 8.
Definition orphanKeyFormat : KeyFormat := mkKeyFormat [int64Size; int64Size; hashSize] 49 111 false.
Definition fastKeyFormat : KeyFormat := mkKeyFormat [O] 1 102 true.
Definition metadataKeyFormat : KeyFormat := mkKeyFormat [O] 1 109 true.
Definition rootKeyFormat : KeyFormat := mkKeyFormat [int64Size] 9 114 false.

Definition genesisVersion : Z := 1.
Definition maxVersion : Z := 2 ^ 63 - 1.
Definition storageVersionKey : bytes := str "storage_version".
Definition defaultStorageVersionValue : bytes := str "1.0.0".
Definition fastStorageVersionValue : bytes := str "1.1.0".
Definition fastStorageVersionDelimiter : Z := 45.

(** * State *)

(** A write of the batch: a value to store, or a deletion. *)
Definition write := (bytes * option bytes)%type.

Record nodeDB := mkNodeDB {
  nd_db : database;
  nd_batch : list write;
  InitialVersion : Z;
  versionReaders : gmap Z Z;
  storageVersion : bytes;
  latestVersion : Z
}.

Definition set_db (d : database) (b : list write) (n : nodeDB) : nodeDB :=
  mkNodeDB d b (InitialVersion n) (versionReaders n) (storageVersion n) (latestVersion n).
Definition set_storageVersion (v : bytes) (n : nodeDB) : nodeDB :=
  mkNodeDB (nd_db n) (nd_batch n) (InitialVersion n) (versionReaders n) v (latestVersion n).
Definition set_latestVersion (v : Z) (n : nodeDB) : nodeDB :=
  mkNodeDB (nd_db n) (nd_batch n) (InitialVersion n) (versionReaders n) (storageVersion n) v.
Definition set_versionReaders (r : gmap Z Z) (n : nodeDB) : nodeDB :=
  mkNodeDB (nd_db n) (nd_batch n) (InitialVersion n) r (storageVersion n) (latestVersion n).

Definition apply_write (d : database) (w : write) : database := match w with (k, Some v) => <[k := v]> d | (k, None) => delete k d end.
Definition apply_batch (b : list write) (d : database) : database := foldl apply_write d b.

Abbreviation DB := (M nodeDB iavl_error).

Definition of_res {S A} (r : res A) : M S iavl_error A := fun s => (s, r).
Definition key_of {S} (k : option bytes) : M S iavl_error bytes := match k with Some k => ret k | None => panic end.

Definition metadataKey (k : bytes) : option bytes := KeyBytes metadataKeyFormat [k].

Definition newNodeDB (db : database) (initial : Z) : nodeDB :=
  let storeVersion := match metadataKey storageVersionKey with Some k => db !! k | None => None end in
  mkNodeDB db [] initial ∅ (default defaultStorageVersionValue storeVersion) 0.

(** * The batch *)

Definition batch_Set (k v : bytes) : DB unit := modify (fun n => set_db (nd_db n) (nd_batch n ++ [(k, Some v)]) n).
Definition batch_Delete (k : bytes) : DB unit := modify (fun n => set_db (nd_db n) (nd_batch n ++ [(k, None)]) n).
Definition Commit : DB unit := modify (fun n => set_db (apply_batch (nd_batch n) (nd_db n)) [] n).
Definition resetBatch : DB unit := modify (fun n => set_db (apply_batch (nd_batch n) (nd_db n)) [] n).

(** * Keys *)

Definition nodeKey (hash : bytes) : DB bytes := key_of (KeyBytes nodeKeyFormat [hash]).
Definition fastNodeKey (key : bytes) : DB bytes := key_of (KeyBytes fastKeyFormat [key]).
Definition orphanKey (fromVersion toVersion : Z) (hash : bytes) : DB bytes :=
  key_of (Key orphanKeyFormat [SegInt toVersion; SegInt fromVersion; SegBytes hash]).
Definition rootKey (version : Z) : option bytes := Key rootKeyFormat [SegInt version].

(** [Scan] of one and of two integers; a key that is too short panics. *)
Definition scan_root (k : bytes) : option Z := match ScanBytes rootKeyFormat k with s :: _ => scan_int64 s | _ => None end.
Definition scan_orphan (k : bytes) : option (Z * Z) :=
  match ScanBytes orphanKeyFormat k with
  | s1 :: s2 :: _ => toVersion ← scan_int64 s1; fromVersion ← scan_int64 s2; Some (toVersion, fromVersion)
  | _ => None
  end.
Definition scanned {S A} (o : option A) : M S iavl_error A := match o with Some a => ret a | None => panic end.

(** [for ... := range] over a list that may return early. *)
Fixpoint for_each {S A} (l : list A) (f : A -> M S iavl_error unit) : M S iavl_error unit :=
  match l with [] => ret tt | a :: l => f a ;; for_each l f end.

(** * Traversals of the database *)

Definition traverseRange (start end_ : option bytes) (fn : bytes * bytes -> DB unit) : DB unit :=
  let! d := gets nd_db in for_each (range_iter start end_ d) fn.
Definition traversePrefix (prefix : bytes) (fn : bytes * bytes -> DB unit) : DB unit :=
  let! d := gets nd_db in for_each (prefix_iter prefix d) fn.
Definition traverseOrphansVersion (version : Z) (fn : bytes * bytes -> DB unit) : DB unit :=
  let! p := key_of (Key orphanKeyFormat [SegInt version]) in traversePrefix p fn.

(** * Versions *)

(** The latest version with a root entry below [version], zero if there is none. *)
Definition getPreviousVersion (version : Z) : DB Z :=
  let! d := gets nd_db in
  match last (range_iter (rootKey 1) (rootKey version) d) with
  | None => ret 0
  | Some (k, _) => scanned (scan_root k)
  end.

Definition getLatestVersion : DB Z :=
  let! n := gets (fun n => n) in
  if latestVersion n =? 0 then
    let! v := getPreviousVersion maxVersion in
    modify (set_latestVersion v) ;;
    ret v
  else ret (latestVersion n).

Definition updateLatestVersion (version : Z) : DB unit := modify (fun n => if latestVersion n <? version then set_latestVersion version n else n).
Definition resetLatestVersion (version : Z) : DB unit := modify (set_latestVersion version).

Definition getFirstVersion : DB Z :=
  let! d := gets nd_db in
  match prefix_iter [114] d with
  | [] => ret 0
  | (k, _) :: _ => scanned (scan_root k)
  end.

Definition getRoot (version : Z) : DB (option bytes) :=
  let! k := key_of (rootKey version) in gets (fun n => nd_db n !! k).
Definition HasRoot (version : Z) : DB bool :=
  let! k := key_of (rootKey version) in gets (fun n => bool_decide (is_Some (nd_db n !! k))).

(** The root entries, versions ascending. *)
Definition getRoots : DB (list (Z * bytes)) :=
  let! d := gets nd_db in
  scanned (mapM (fun e : bytes * bytes => v ← scan_root e.1; Some (v, e.2)) (prefix_iter [114] d)).

Definition saveRoot (hash : bytes) (version : Z) : DB unit :=
  let! latest := getLatestVersion in
  guard (negb ((0 <? latest) && negb (version =? i64 (latest + 1)))) ErrNotConsecutive ;;
  let! k := key_of (rootKey version) in
  batch_Set k hash ;;
  updateLatestVersion version.

Definition SaveRoot (root : Node) (version : Z) : DB unit :=
  match n_hash root with
  | None | Some [] => fail ErrRootMissingHash
  | Some h => saveRoot h version
  end.
Definition SaveEmptyRoot (version : Z) : DB unit := saveRoot [] version.

Definition deleteRoot (version : Z) (checkLatestVersion : bool) : DB unit :=
  let! latest := getLatestVersion in
  guard (negb (checkLatestVersion && (version =? latest))) ErrLatestVersion ;;
  let! k := key_of (rootKey version) in
  batch_Delete k.

(** * Nodes *)

Definition ndb_GetNode (hash : option bytes) : DB Node :=
  let! d := gets nd_db in of_res (GetNode d hash).

Definition SaveNode (node : Node) : DB Node :=
  match n_hash node with
  | None => fail ErrNodeMissingHash
  | Some h =>
    guard (negb (n_persisted node)) ErrNodeAlreadyPersisted ;;
    let! buf := of_res (writeBytes node) in
    let! k := nodeKey h in
    batch_Set k buf ;;
    ret (with_persisted node)
  end.

(** The node as it is after saving: hashed, persisted, its children known by hash only. *)
Fixpoint SaveBranch (node : Node) : DB Node :=
  match node with
  | mkNode k v h lh rh ver sz l r ht p =>
    if p then ret node
    else
      let! '(lh, l) := match l with Some ln => let! ln := SaveBranch ln in ret (n_hash ln, Some ln) | None => ret (lh, None) end in
      let! '(rh, r) := match r with Some rn => let! rn := SaveBranch rn in ret (n_hash rn, Some rn) | None => ret (rh, None) end in
      let! n := of_res (hash_node (mkNode k v h lh rh ver sz l r ht p)) in
      let! n := SaveNode n in
      (if n_version n <=? genesisVersion then resetBatch else ret tt) ;;
      ret (with_left (n_leftHash n) None (with_right (n_rightHash n) None n))
  end.

(** * Orphans *)

Definition saveOrphan (hash : bytes) (fromVersion toVersion : Z) : DB unit :=
  guard (negb (toVersion <? fromVersion)) ErrOrphanLifetime ;;
  let! key := orphanKey fromVersion toVersion hash in
  batch_Set key hash.

Definition SaveOrphans (version : Z) (orphans : gmap bytes Z) : DB unit :=
  let! toVersion := getPreviousVersion version in
  for_each (map_to_list orphans) (fun '(hash, fromVersion) => saveOrphan hash fromVersion toVersion).

Definition deleteOrphans (version : Z) : DB unit :=
  let! predecessor := getPreviousVersion version in
  traverseOrphansVersion version (fun '(key, hash) =>
    let! '(toVersion, fromVersion) := scanned (scan_orphan key) in
    batch_Delete key ;;
    if (predecessor <? fromVersion) || (fromVersion =? toVersion) then let! k := nodeKey hash in batch_Delete k
    else saveOrphan hash fromVersion predecessor).

(** * Deleting versions *)

Definition readers (version : Z) (n : nodeDB) : Z := default 0 (versionReaders n !! version).
Definition incrVersionReaders (version : Z) : DB unit :=
  modify (fun n => set_versionReaders (<[version := wrapU 32 (readers version n + 1)]> (versionReaders n)) n).
Definition decrVersionReaders (version : Z) : DB unit :=
  modify (fun n => if 0 <? readers version n then set_versionReaders (<[version := readers version n - 1]> (versionReaders n)) n else n).

(** Whether a version in the interval has active readers. *)
Definition has_readers (lo hi : Z) (n : nodeDB) : bool :=
  existsb (fun '(v, r) => (lo <=? v) && (v <? hi) && negb (r =? 0)) (map_to_list (versionReaders n)).

Definition ndb_DeleteVersion (version : Z) (checkLatestVersion : bool) : DB unit :=
  let! n := gets (readers version) in
  guard (negb (0 <? n)) ErrActiveReaders ;;
  deleteOrphans version ;;
  deleteRoot version checkLatestVersion.

Fixpoint deleteNodesFrom (fuel : nat) (version : Z) (hash : option bytes) : DB unit :=
  match fuel with
  | O => panic
  | S fuel =>
    match hash with
    | None | Some [] => ret tt
    | Some h =>
      let! node := ndb_GetNode hash in
      if n_version node <? version then ret tt
      else
        match n_leftHash node with Some _ => deleteNodesFrom fuel version (n_leftHash node) | None => ret tt end ;;
        match n_rightHash node with Some _ => deleteNodesFrom fuel version (n_rightHash node) | None => ret tt end ;;
        if version <=? n_version node then let! k := nodeKey h in batch_Delete k else ret tt
    end
  end.

Definition ndb_DeleteVersionsFrom (version : Z) : DB unit :=
  let! latest := getLatestVersion in
  if latest <? version then ret tt
  else
    let! root := getRoot latest in
    match root with
    | None => fail ErrVersionDoesNotExist
    | Some _ =>
      let! busy := gets (has_readers version (2 ^ 63)) in
      guard (negb busy) ErrActiveReaders ;;
      deleteNodesFrom tree_fuel version root ;;
      traverseRange (Key orphanKeyFormat [SegInt (i64 (version - 1))]) (Key orphanKeyFormat [SegInt maxVersion]) (fun '(key, hash) =>
        let! '(toVersion, fromVersion) := scanned (scan_orphan key) in
        if version <=? fromVersion then batch_Delete key ;; let! k := nodeKey hash in batch_Delete k
        else if i64 (version - 1) <=? toVersion then batch_Delete key
        else ret tt) ;;
      traverseRange (rootKey version) (rootKey maxVersion) (fun '(k, _) => batch_Delete k)
    end.

Definition ndb_DeleteVersionsRange (fromVersion toVersion : Z) : DB unit :=
  guard (negb (toVersion <=? fromVersion)) ErrInvalidVersion ;;
  guard (negb (toVersion =? 0)) ErrInvalidVersion ;;
  let! latest := getLatestVersion in
  guard (negb (latest <? toVersion)) ErrLatestVersion ;;
  let! predecessor := getPreviousVersion fromVersion in
  let! busy := gets (has_readers (predecessor + 1) toVersion) in
  guard (negb busy) ErrActiveReaders ;;
  for_each (seqZ fromVersion (toVersion - fromVersion)) (fun version =>
    traverseOrphansVersion version (fun '(key, hash) =>
      let! '(to, from) := scanned (scan_orphan key) in
      batch_Delete key ;;
      if predecessor <? from then let! k := nodeKey hash in batch_Delete k
      else saveOrphan hash from predecessor)) ;;
  traverseRange (rootKey fromVersion) (rootKey toVersion) (fun '(k, _) => batch_Delete k).

(** * The fast index *)

Definition hasUpgradedToFastStorage (n : nodeDB) : bool := bytes_leb fastStorageVersionValue (storageVersion n).

Definition GetFastNode (key : bytes) : DB (option FastNode) :=
  let! up := gets hasUpgradedToFastStorage in
  guard up ErrStorageVersion ;;
  guard (negb (bool_decide (key = []))) ErrFastStorage ;;
  let! k := fastNodeKey key in
  let! buf := gets (fun n => nd_db n !! k) in
  match buf with
  | None => ret None
  | Some buf => let! fn := of_res (enc (DeserializeNode key buf)) in ret (Some fn)
  end.

(** Both [SaveFastNode] and [SaveFastNodeNoCache]. *)
Definition SaveFastNode (fn : FastNode) : DB unit :=
  let! k := fastNodeKey (fn_key fn) in batch_Set k (fast_WriteBytes fn).

Definition DeleteFastNode (key : bytes) : DB unit :=
  let! k := fastNodeKey key in batch_Delete k.

Definition setFastStorageVersionToBatch : DB unit :=
  let! n := gets (fun n => n) in
  let! newVersion :=
    if hasUpgradedToFastStorage n then
      let versions := Split fastStorageVersionDelimiter (storageVersion n) in
      guard (Nat.leb (length versions) 2) ErrStorageVersion ;;
      ret (default [] (head versions))
    else ret fastStorageVersionValue in
  let! latest := getLatestVersion in
  let newVersion := newVersion ++ [fastStorageVersionDelimiter] ++ Itoa latest in
  let! k := key_of (metadataKey storageVersionKey) in
  batch_Set k newVersion ;;
  modify (set_storageVersion newVersion).

Definition shouldForceFastStorageUpgrade : DB bool :=
  let! sv := gets storageVersion in
  match Split fastStorageVersionDelimiter sv with
  | [_; v] => let! latest := getLatestVersion in ret (negb (bool_decide (v = Itoa latest)))
  | _ => ret false
  end.
