(* ===== verification/IavlMutable.v ===== *)
(** [third_party/iavl/mutable_tree.go] and [immutable_tree.go]: the versioned tree.

    The working tree is changed by [Set] and [Remove]; [SaveVersion] writes its new
    nodes, records the nodes it replaced as orphans of the version before, writes the
    root entry and commits.  Old versions are read through their root entries and are
    deleted with the orphans no remaining version needs.

    Nodes are values: the code changes a node in place only while nothing else refers
    to it, or to note its hash and that it was saved. *)

From Stdlib Require Import ZArith Lia Ascii String.
From stdpp Require Import base list gmap strings sorting.
From S2P Require Import Prelude KVStore BigInt Sha256 IavlEncoding IavlNode IavlIter IavlDb.
Open Scope Z_scope.
Open Scope go_scope.

(** * State *)

Record ImmutableTree := mkITree { it_root : option Node; it_version : Z }.

Record MutableTree := mkTree {
  itree : ImmutableTree;
  lastSaved : ImmutableTree;
  mt_orphans : gmap bytes Z;
  mt_versions : gmap Z bool;
  allRootLoaded : bool;
  unsavedFastNodeAdditions : gmap bytes FastNode;
  unsavedFastNodeRemovals : gset bytes;
  ndb : nodeDB;
  skipFastStorageUpgrade : bool
}.

Definition root (t : MutableTree) : option Node := it_root (itree t).
Definition version (t : MutableTree) : Z := it_version (itree t).
Definition tdb (t : MutableTree) : database := nd_db (ndb t).

Definition set_itree (i : ImmutableTree) (t : MutableTree) : MutableTree :=
  mkTree i (lastSaved t) (mt_orphans t) (mt_versions t) (allRootLoaded t) (unsavedFastNodeAdditions t) (unsavedFastNodeRemovals t) (ndb t) (skipFastStorageUpgrade t).
Definition set_lastSaved (i : ImmutableTree) (t : MutableTree) : MutableTree :=
  mkTree (itree t) i (mt_orphans t) (mt_versions t) (allRootLoaded t) (unsavedFastNodeAdditions t) (unsavedFastNodeRemovals t) (ndb t) (skipFastStorageUpgrade t).
Definition set_orphans (o : gmap bytes Z) (t : MutableTree) : MutableTree :=
  mkTree (itree t) (lastSaved t) o (mt_versions t) (allRootLoaded t) (unsavedFastNodeAdditions t) (unsavedFastNodeRemovals t) (ndb t) (skipFastStorageUpgrade t).
Definition set_versions (v : gmap Z bool) (t : MutableTree) : MutableTree :=
  mkTree (itree t) (lastSaved t) (mt_orphans t) v (allRootLoaded t) (unsavedFastNodeAdditions t) (unsavedFastNodeRemovals t) (ndb t) (skipFastStorageUpgrade t).
Definition set_allRootLoaded (b : bool) (t : MutableTree) : MutableTree :=
  mkTree (itree t) (lastSaved t) (mt_orphans t) (mt_versions t) b (unsavedFastNodeAdditions t) (unsavedFastNodeRemovals t) (ndb t) (skipFastStorageUpgrade t).
Definition set_unsaved (a : gmap bytes FastNode) (r : gset bytes) (t : MutableTree) : MutableTree :=
  mkTree (itree t) (lastSaved t) (mt_orphans t) (mt_versions t) (allRootLoaded t) a r (ndb t) (skipFastStorageUpgrade t).
Definition set_ndb (n : nodeDB) (t : MutableTree) : MutableTree :=
  mkTree (itree t) (lastSaved t) (mt_orphans t) (mt_versions t) (allRootLoaded t) (unsavedFastNodeAdditions t) (unsavedFastNodeRemovals t) n (skipFastStorageUpgrade t).
Definition set_root (n : option Node) (t : MutableTree) : MutableTree := set_itree (mkITree n (version t)) t.

Abbreviation Tree := (M MutableTree iavl_error).

Definition on_ndb {A} (c : DB A) : Tree A := fun t => let '(n, r) := c (ndb t) in (set_ndb n t, r).

(** Only when the fast index is in use. *)
Definition unless_skip (c : Tree unit) : Tree unit := fun t => if skipFastStorageUpgrade t then (t, Ok tt) else c t.

Definition NewMutableTree (db : database) (initial : Z) (skip : bool) : MutableTree :=
  let head := mkITree None 0 in mkTree head head ∅ ∅ false ∅ ∅ (newNodeDB db initial) skip.

Definition addUnsavedAddition (key : bytes) (node : FastNode) : Tree unit :=
  modify (fun t => set_unsaved (<[key := node]> (unsavedFastNodeAdditions t)) (unsavedFastNodeRemovals t ∖ {[key]}) t).
Definition addUnsavedRemoval (key : bytes) : Tree unit :=
  modify (fun t => set_unsaved (delete key (unsavedFastNodeAdditions t)) (unsavedFastNodeRemovals t ∪ {[key]}) t).

(** * Rotations *)

(** The new node and the one it replaces. *)
Definition rotateRight (db : database) (version : Z) (node : Node) : res (Node * Node) :=
  node ← clone version node;
  orphaned ← getLeftNode db node;
  newNode ← clone version orphaned;
  let '(newNoderHash, newNoderCached) := (n_rightHash newNode, n_rightNode newNode) in
  node ← calcHeightAndSize db (with_left newNoderHash newNoderCached node);
  newNode ← calcHeightAndSize db (with_right (n_hash node) (Some node) newNode);
  Ok (newNode, orphaned).

Definition rotateLeft (db : database) (version : Z) (node : Node) : res (Node * Node) :=
  node ← clone version node;
  orphaned ← getRightNode db node;
  newNode ← clone version orphaned;
  let '(newNodelHash, newNodelCached) := (n_leftHash newNode, n_leftNode newNode) in
  node ← calcHeightAndSize db (with_right newNodelHash newNodelCached node);
  newNode ← calcHeightAndSize db (with_left (n_hash node) (Some node) newNode);
  Ok (newNode, orphaned).

(** The balanced node and the orphans. *)
Definition balance (db : database) (version : Z) (node : Node) : res (Node * list Node) :=
  if n_persisted node then Err ErrBalancePersisted
  else
    b ← calcBalance db node;
    if 1 <? b then
      leftNode ← getLeftNode db node;
      lftBalance ← calcBalance db leftNode;
      if 0 <=? lftBalance then
        '(newNode, orphaned) ← rotateRight db version node;
        Ok (newNode, [orphaned])
      else
        left ← getLeftNode db node;
        '(l, leftOrphaned) ← rotateLeft db version left;
        '(newNode, rightOrphaned) ← rotateRight db version (with_left None (Some l) node);
        Ok (newNode, [left; leftOrphaned; rightOrphaned])
    else if b <? -1 then
      rightNode ← getRightNode db node;
      rightBalance ← calcBalance db rightNode;
      if rightBalance <=? 0 then
        '(newNode, orphaned) ← rotateLeft db version node;
        Ok (newNode, [orphaned])
      else
        right ← getRightNode db node;
        '(r, rightOrphaned) ← rotateRight db version right;
        '(newNode, leftOrphaned) ← rotateLeft db version (with_right None (Some r) node);
        Ok (newNode, [right; leftOrphaned; rightOrphaned])
    else Ok (node, []).

(** * Setting and removing *)

Definition inner2 (key : bytes) (l r : Node) (version : Z) : Node := mkNode key None None None None version 2 (Some l) (Some r) 1 false.

(** A read of the database in the middle of a change. *)
Definition reading {A} (f : database -> res A) : Tree A := fun t => (t, f (tdb t)).

(** The new subtree, whether the key was there, and the orphans. *)
Fixpoint recursiveSet (fuel : nat) (node : Node) (key value : bytes) : Tree (Node * bool * list Node) :=
  match fuel with
  | O => panic
  | S fuel =>
    let! ver := gets (fun t => i64 (version t + 1)) in
    if isLeaf node then
      unless_skip (addUnsavedAddition key (mkFast key ver value)) ;;
      match bytes_compare key (n_key node) with
      | Lt => ret (inner2 (n_key node) (NewNode key value ver) node ver, false, [])
      | Gt => ret (inner2 key node (NewNode key value ver) ver, false, [])
      | Eq => ret (NewNode key value ver, true, [node])
      end
    else
      let old := node in
      let! node := of_res (clone ver node) in
      let! '(node, updated, orphans) :=
        if bytes_ltb key (n_key node) then
          let! leftNode := reading (fun db => getLeftNode db node) in
          let! '(l, updated, os) := recursiveSet fuel leftNode key value in
          ret (with_left None (Some l) node, updated, old :: os)
        else
          let! rightNode := reading (fun db => getRightNode db node) in
          let! '(r, updated, os) := recursiveSet fuel rightNode key value in
          ret (with_right None (Some r) node, updated, old :: os) in
      if (updated : bool) then ret (node, updated, orphans)
      else
        let! node := reading (fun db => calcHeightAndSize db node) in
        let! '(newNode, os) := reading (fun db => balance db ver node) in
        ret (newNode, updated, orphans ++ os)
  end.

(** What is left of the subtree, by hash and in memory, its new least key if that
    changed, the removed value, and the orphans: none if the key is not there. *)
Definition removal := (option bytes * option Node * option bytes * option bytes * list Node)%type.

Definition with_key (k : bytes) (n : Node) : Node :=
  mkNode k (n_value n) (n_hash n) (n_leftHash n) (n_rightHash n) (n_version n) (n_size n) (n_leftNode n) (n_rightNode n) (n_height n) (n_persisted n).

Fixpoint recursiveRemove (fuel : nat) (db : database) (version : Z) (key : bytes) (node : Node) : res removal :=
  match fuel with
  | O => Panic
  | S fuel =>
    if isLeaf node then
      if bool_decide (key = n_key node) then Ok (None, None, None, n_value node, [node])
      else Ok (n_hash node, Some node, None, None, [])
    else if bytes_ltb key (n_key node) then
      leftNode ← getLeftNode db node;
      '(newLeftHash, newLeftNode, newKey, value, orphans) ← recursiveRemove fuel db version key leftNode;
      if bool_decide (orphans = []) then Ok (n_hash node, Some node, None, value, [])
      else
        let orphans := orphans ++ [node] in
        match newLeftHash, newLeftNode with
        | None, None => Ok (n_rightHash node, n_rightNode node, Some (n_key node), value, orphans)
        | _, _ =>
          newNode ← clone version node;
          newNode ← calcHeightAndSize db (with_left newLeftHash newLeftNode newNode);
          '(newNode, os) ← balance db version newNode;
          Ok (n_hash newNode, Some newNode, newKey, value, orphans ++ os)
        end
    else
      rightNode ← getRightNode db node;
      '(newRightHash, newRightNode, newKey, value, orphans) ← recursiveRemove fuel db version key rightNode;
      if bool_decide (orphans = []) then Ok (n_hash node, Some node, None, value, [])
      else
        let orphans := orphans ++ [node] in
        match newRightHash, newRightNode with
        | None, None => Ok (n_leftHash node, n_leftNode node, None, value, orphans)
        | _, _ =>
          newNode ← clone version node;
          let newNode := with_right newRightHash newRightNode newNode in
          let newNode := match newKey with Some k => with_key k newNode | None => newNode end in
          newNode ← calcHeightAndSize db newNode;
          '(newNode, os) ← balance db version newNode;
          Ok (n_hash newNode, Some newNode, None, value, orphans ++ os)
        end
  end.

Definition addOrphans (orphans : list Node) : Tree unit :=
  for_each orphans (fun node =>
    if negb (n_persisted node) then ret tt
    else
      match n_hash node with
      | None | Some [] => fail ErrNodeMissingHash
      | Some h => modify (fun t => set_orphans (<[h := n_version node]> (mt_orphans t)) t)
      end).

(** When a read fails half way the root is gone. *)
Definition mt_set (key : bytes) (value : option bytes) : Tree (list Node * bool) :=
  match value with
  | None => fail ErrNilValue
  | Some value =>
    let! t := gets (fun t => t) in
    match root t with
    | None =>
      let ver := i64 (version t + 1) in
      unless_skip (addUnsavedAddition key (mkFast key ver value)) ;;
      modify (set_root (Some (NewNode key value ver))) ;;
      ret ([], false)
    | Some n => fun t =>
      match recursiveSet tree_fuel n key value t with
      | (t, Ok (n, updated, orphans)) => (set_root (Some n) t, Ok (orphans, updated))
      | (t, Err e) => (set_root None t, Err e)
      | (t, Panic) => (t, Panic)
      end
    end
  end.

(** Whether an existing value was updated. *)
Definition Set_ (key : bytes) (value : option bytes) : Tree bool :=
  let! '(orphaned, updated) := mt_set key value in
  addOrphans orphaned ;;
  ret updated.

(** The removed value, the orphans, and whether the key was there. *)
Definition mt_remove (key : bytes) : Tree (option bytes * list Node * bool) :=
  let! t := gets (fun t => t) in
  match root t with
  | None => ret (None, [], false)
  | Some n =>
    let! '(newRootHash, newRoot, _, value, orphaned) := reading (fun db => recursiveRemove tree_fuel db (i64 (version t + 1)) key n) in
    if bool_decide (orphaned = []) then ret (None, [], false)
    else
      unless_skip (addUnsavedRemoval key) ;;
      match newRoot, newRootHash with
      | None, Some h => fun t =>
        match GetNode (tdb t) (Some h) with
        | Ok n => (set_root (Some n) t, Ok (value, orphaned, true))
        | Err e => (set_root None t, Err e)
        | Panic => (t, Panic)
        end
      | _, _ => modify (set_root newRoot) ;; ret (value, orphaned, true)
      end
  end.

Definition Remove (key : bytes) : Tree (option bytes * bool) :=
  let! '(val, orphaned, removed) := mt_remove key in
  addOrphans orphaned ;;
  ret (val, removed).

(** * Reading *)

Definition itree_Get (i : ImmutableTree) (key : bytes) : Tree (option bytes) :=
  match it_root i with
  | None => ret None
  | Some n =>
    let slow := let! '(_, v) := reading (fun db => get tree_fuel db n key) in ret v in
    fun t =>
      if skipFastStorageUpgrade t then slow t
      else
        match GetFastNode key (ndb t) with
        | (_, Ok None) => if it_version i =? latestVersion (ndb t) then (t, Ok None) else slow t
        | (_, Ok (Some fn)) => if versionLastUpdatedAt fn <=? it_version i then (t, Ok (Some (fn_value fn))) else slow t
        | (_, Err _) => slow t
        | (_, Panic) => (t, Panic)
        end
  end.

Definition Get (key : bytes) : Tree (option bytes) :=
  let! t := gets (fun t => t) in
  match root t with
  | None => ret None
  | Some _ =>
    if skipFastStorageUpgrade t then itree_Get (itree t) key
    else
      match unsavedFastNodeAdditions t !! key with
      | Some fn => ret (Some (fn_value fn))
      | None => if bool_decide (key ∈ unsavedFastNodeRemovals t) then ret None else itree_Get (itree t) key
      end
  end.

(** The latest version known, and whether the fast index is up to date with the tree. *)
Definition IsFastCacheEnabled (i : ImmutableTree) : Tree bool :=
  let! latest := on_ndb getLatestVersion in
  gets (fun t => (it_version i =? latest) && hasUpgradedToFastStorage (ndb t)).

Definition VersionExists (v : Z) : Tree bool :=
  let! t := gets (fun t => t) in
  if allRootLoaded t then ret (default false (mt_versions t !! v))
  else
    match mt_versions t !! v with
    | Some has => ret has
    | None =>
      let! has := on_ndb (HasRoot v) in
      modify (fun t => set_versions (<[v := has]> (mt_versions t)) t) ;;
      ret has
    end.

Definition AvailableVersions (t : MutableTree) : list Z :=
  merge_sort Z.le (filter (fun v => mt_versions t !! v = Some true) (map_to_list (mt_versions t)).*1).

Definition GetImmutable (v : Z) : Tree ImmutableTree :=
  let! rootHash := on_ndb (getRoot v) in
  match rootHash with
  | None => fail ErrVersionDoesNotExist
  | Some h =>
    modify (fun t => set_versions (<[v := true]> (mt_versions t)) t) ;;
    match h with
    | [] => ret (mkITree None v)
    | _ => let! n := on_ndb (ndb_GetNode (Some h)) in ret (mkITree (Some n) v)
    end
  end.

Definition GetVersioned (key : bytes) (v : Z) : Tree (option bytes) :=
  let! ex := VersionExists v in
  if negb ex then ret None
  else
    let slow := fun t =>
      match GetImmutable v t with
      | (t, Ok i) => itree_Get i key t
      | (t, Err _) => (t, Ok None)
      | (t, Panic) => (t, Panic)
      end in
    let! t := gets (fun t => t) in
    if skipFastStorageUpgrade t then slow
    else
      let! enabled := IsFastCacheEnabled (itree t) in
      if negb enabled then slow
      else fun t =>
        match GetFastNode key (ndb t) with
        | (_, Ok (Some fn)) => if versionLastUpdatedAt fn <=? v then (t, Ok (Some (fn_value fn))) else slow t
        | (_, Panic) => (t, Panic)
        | _ => if v =? latestVersion (ndb t) then (t, Ok None) else slow t
        end.

(** The root hash of the working tree; computing it fills in the hashes of the nodes. *)
Definition WorkingHash : Tree bytes :=
  let! t := gets (fun t => t) in
  match root t with
  | None => ret (sha256 [])
  | Some n =>
    let! '(n, _) := of_res (hashWithCount n) in
    modify (set_root (Some n)) ;;
    ret (default [] (n_hash n))
  end.

Definition Hash (t : MutableTree) : res bytes := tree_Hash (it_root (lastSaved t)).

(** * Iterating *)

(** Enough for a walk over the whole tree. *)
Definition walk_fuel (r : option Node) : nat := Z.to_nat (4 * tree_Size r + 4).

Definition itree_Iterator (i : ImmutableTree) (start end_ : option bytes) (asc : bool) : Tree DbIterator :=
  let slow := let! it := reading (fun db => NewIterator (walk_fuel (it_root i)) db start end_ asc (it_root i)) in ret (ItTree it) in
  let! t := gets (fun t => t) in
  if skipFastStorageUpgrade t then slow
  else
    let! enabled := IsFastCacheEnabled i in
    if (enabled : bool) then let! db := gets tdb in ret (ItFast (NewFastIterator db start end_ asc)) else slow.

Definition mt_Iterator (start end_ : option bytes) (asc : bool) : Tree DbIterator :=
  let! t := gets (fun t => t) in
  let slow := itree_Iterator (itree t) start end_ asc in
  if skipFastStorageUpgrade t then slow
  else
    let! enabled := IsFastCacheEnabled (itree t) in
    if (enabled : bool) then
      let! it := reading (fun db => NewUnsavedFastIterator db start end_ asc (unsavedFastNodeAdditions t) (unsavedFastNodeRemovals t)) in ret (ItUnsaved it)
    else slow.

(** Enough for any loop over the tree. *)
Definition loop_fuel (t : MutableTree) : nat := walk_fuel (root t) + size (tdb t) + size (unsavedFastNodeAdditions t) + 1.

(** The entries an iterator over the range shows. *)
Definition mt_entries (start end_ : option bytes) (asc : bool) : Tree (list (bytes * bytes)) :=
  let! it := mt_Iterator start end_ asc in
  fun t => (t, db_entries (loop_fuel t) (tdb t) it).

(** [Iterate]: the loop over all keys, with a callback that may stop it. *)
Definition mt_Iterate {A : Type} (fn : A -> bytes * bytes -> A * bool) (a : A) : Tree (A * bool) :=
  let! t := gets (fun t => t) in
  match root t with
  | None => ret (a, false)
  | Some _ => let! l := mt_entries None None true in ret (fold_until fn l a)
  end.

(** * The upgrade to the fast index *)

Definition commitGap : Z := 5000000.

(** A loop that commits every [commitGap] rounds. *)
Definition for_count {A} (l : list A) (f : A -> DB unit) : DB unit :=
  for_each (imap (fun i a => (Z.of_nat i + 1, a)) l) (fun '(i, a) => f a ;; if i mod commitGap =? 0 then Commit else ret tt).

Definition enableFastStorageAndCommit : Tree unit :=
  let! t := gets (fun t => t) in
  let! entries := reading (fun db => it ← NewIterator (walk_fuel (root t)) db None None true (root t); Iterator_entries (walk_fuel (root t)) db it) in
  on_ndb (for_count entries (fun '(k, v) => SaveFastNode (mkFast k (version t) v)) ;; setFastStorageVersionToBatch ;; Commit).

Definition IsUpgradeable : Tree bool :=
  let! shouldForce := on_ndb shouldForceFastStorageUpgrade in
  gets (fun t => negb (skipFastStorageUpgrade t) && (negb (hasUpgradedToFastStorage (ndb t)) || shouldForce)).

Definition enableFastStorageAndCommitIfNotEnabled : Tree bool :=
  let! isUpgradeable := IsUpgradeable in
  if negb isUpgradeable then ret false
  else
    let! db := gets tdb in
    let entries := Fast_entries (S (size db)) (NewFastIterator db None None true) in
    on_ndb (for_count entries (fun '(k, _) => DeleteFastNode k) ;;
            if Z.of_nat (length entries) mod commitGap =? 0 then ret tt else Commit) ;;
    fun t =>
      match enableFastStorageAndCommit t with
      | (t, Ok _) => (t, Ok true)
      | (t, Err e) => (set_ndb (set_storageVersion defaultStorageVersionValue (ndb t)) t, Err e)
      | (t, Panic) => (t, Panic)
      end.

(** * Loading *)

Definition upgrade : Tree unit := unless_skip (let! _ := enableFastStorageAndCommitIfNotEnabled in ret tt).

Definition install (i : ImmutableTree) : Tree unit := modify (fun t => set_lastSaved i (set_itree i (set_orphans ∅ t))).

Definition LazyLoadVersion (targetVersion : Z) : Tree Z :=
  let! firstVersion := on_ndb getFirstVersion in
  let! latest := on_ndb getLatestVersion in
  let! init := gets (fun t => i64 (InitialVersion (ndb t))) in
  guard (negb ((0 <? firstVersion) && (firstVersion <? init))) ErrEarlierVersion ;;
  guard (negb (latest <? targetVersion)) ErrVersionDoesNotExist ;;
  if latest <=? 0 then
    if targetVersion <=? 0 then upgrade ;; ret 0 else fail ErrNoVersions
  else
    let targetVersion := if targetVersion <=? 0 then latest else targetVersion in
    let! rootHash := on_ndb (getRoot targetVersion) in
    match rootHash with
    | None => fail ErrVersionDoesNotExist
    | Some h =>
      modify (fun t => set_versions (<[targetVersion := true]> (mt_versions t)) t) ;;
      let! r := match h with [] => ret None | _ => let! n := on_ndb (ndb_GetNode (Some h)) in ret (Some n) end in
      install (mkITree r targetVersion) ;;
      upgrade ;;
      ret targetVersion
    end.

(** The latest root up to the target, and the first version. *)
Definition pick_root (targetVersion : Z) (roots : list (Z * bytes)) : Z * bytes * Z :=
  foldl (fun '(latest, r, first) '(v, h) =>
    let '(latest, r) := if (latest <? v) && ((targetVersion =? 0) || (v <=? targetVersion)) then (v, h) else (latest, r) in
    (latest, r, if (first =? 0) || (v <? first) then v else first)) (0, [], 0) roots.

Definition LoadVersion (targetVersion : Z) : Tree Z :=
  let! roots := on_ndb getRoots in
  match roots with
  | [] => if targetVersion <=? 0 then upgrade ;; ret 0 else fail ErrNoVersions
  | _ =>
    modify (fun t => set_versions (foldl (fun m '(v, _) => <[v := true]> m) (mt_versions t) roots) t) ;;
    let '(latest, latestRoot, firstVersion) := pick_root targetVersion roots in
    guard ((targetVersion =? 0) || (latest =? targetVersion)) ErrVersionDoesNotExist ;;
    let! init := gets (fun t => i64 (InitialVersion (ndb t))) in
    guard (negb ((0 <? firstVersion) && (firstVersion <? init))) ErrEarlierVersion ;;
    let! r := match latestRoot with [] => ret None | _ => let! n := on_ndb (ndb_GetNode (Some latestRoot)) in ret (Some n) end in
    install (mkITree r latest) ;;
    modify (set_allRootLoaded true) ;;
    upgrade ;;
    ret latest
  end.

Definition Load : Tree Z := LoadVersion 0.

Definition loadVersionForOverwriting (targetVersion : Z) (lazy : bool) : Tree Z :=
  let! latest := if lazy then LazyLoadVersion targetVersion else LoadVersion targetVersion in
  on_ndb (ndb_DeleteVersionsFrom (i64 (targetVersion + 1)) ;; Commit ;; resetLatestVersion latest) ;;
  upgrade ;;
  modify (fun t => set_versions (filter (fun e => e.1 <= targetVersion) (mt_versions t)) t) ;;
  ret latest.

Definition LoadVersionForOverwriting (targetVersion : Z) : Tree Z := loadVersionForOverwriting targetVersion false.
Definition LazyLoadVersionForOverwriting (targetVersion : Z) : Tree Z := loadVersionForOverwriting targetVersion true.

(** * Saving *)

Definition Rollback : Tree unit := modify (fun t =>
  let t := set_orphans ∅ (set_itree (if 0 <? version t then lastSaved t else mkITree None 0) t) in
  if skipFastStorageUpgrade t then t else set_unsaved ∅ ∅ t).

Definition saveFastNodeAdditions : Tree unit :=
  let! a := gets unsavedFastNodeAdditions in
  for_each (merge_sort bytes_le (map_to_list a).*1) (fun key =>
    match a !! key with Some fn => on_ndb (SaveFastNode fn) | None => panic end).

Definition saveFastNodeRemovals : Tree unit :=
  let! r := gets unsavedFastNodeRemovals in
  for_each (merge_sort bytes_le (elements r)) (fun key => on_ndb (DeleteFastNode key)).

Definition saveFastNodeVersion : Tree unit :=
  saveFastNodeAdditions ;; saveFastNodeRemovals ;; on_ndb setFastStorageVersionToBatch.

Definition save_tree (v : Z) : Tree unit :=
  let! t := gets (fun t => t) in
  match root t with
  | None => on_ndb (SaveOrphans v (mt_orphans t)) ;; on_ndb (SaveEmptyRoot v)
  | Some n =>
    let! n := on_ndb (SaveBranch n) in
    modify (set_root (Some n)) ;;
    on_ndb (SaveOrphans v (mt_orphans t)) ;;
    on_ndb (SaveRoot n v)
  end.

(** The working tree becomes the saved one. *)
Definition saved (v : Z) : Tree unit := modify (fun t =>
  let i := mkITree (root t) v in set_orphans ∅ (set_lastSaved i (set_itree i t))).

(** The hash and the number of the new version. *)
Definition SaveVersion : Tree (bytes * Z) :=
  let! t := gets (fun t => t) in
  let v := i64 (version t + 1) in
  let v := if (v =? 1) && (0 <? InitialVersion (ndb t)) then i64 (InitialVersion (ndb t)) else v in
  let! exists_ := VersionExists v in
  if exists_ then
    let! existingHash := on_ndb (getRoot v) in
    let existingHash := match existingHash with None | Some [] => sha256 [] | Some h => h end in
    let! newHash := WorkingHash in
    if bool_decide (existingHash = newHash) then saved v ;; ret (existingHash, v)
    else fail ErrSavedToDifferentHash
  else
    save_tree v ;;
    unless_skip saveFastNodeVersion ;;
    on_ndb Commit ;;
    modify (fun t => set_versions (<[v := true]> (mt_versions t)) t) ;;
    saved v ;;
    unless_skip (modify (set_unsaved ∅ ∅)) ;;
    let! t := gets (fun t => t) in
    let! h := of_res (Hash t) in
    ret (h, v).

Definition SetInitialVersion (v : Z) : Tree unit := modify (fun t =>
  let n := ndb t in set_ndb (mkNodeDB (nd_db n) (nd_batch n) v (versionReaders n) (storageVersion n) (latestVersion n)) t).

(** * Deleting versions *)

Definition mt_deleteVersion (v : Z) : Tree unit :=
  guard (0 <? v) ErrInvalidVersion ;;
  let! t := gets (fun t => t) in
  guard (negb (v =? version t)) ErrLatestVersion ;;
  let! ex := VersionExists v in
  guard ex ErrVersionDoesNotExist ;;
  on_ndb (ndb_DeleteVersion v true).

Definition DeleteVersion (v : Z) : Tree unit :=
  mt_deleteVersion v ;;
  on_ndb Commit ;;
  modify (fun t => set_versions (delete v (mt_versions t)) t).

Definition DeleteVersionsRange (fromVersion toVersion : Z) : Tree unit :=
  on_ndb (ndb_DeleteVersionsRange fromVersion toVersion) ;;
  on_ndb Commit ;;
  modify (fun t => set_versions (foldl (fun m v => delete v m) (mt_versions t) (seqZ fromVersion (toVersion - fromVersion))) t).

(** The intervals of consecutive versions, each with its first version and its length.
    They form a Go map, which is visited in an arbitrary order; [DeleteVersions] visits
    them in the order of the finite map. *)
Definition delete_intervals (vs : list Z) : gmap Z Z :=
  (foldl (fun '(intervals, from) v =>
    let from := if i64 (v - from) =? default 0 (intervals !! from) then from else v in
    (<[from := default 0 (intervals !! from) + 1]> intervals, from)) (∅, 0) (merge_sort Z.le vs)).1.

Definition DeleteVersions (vs : list Z) : Tree unit :=
  for_each (map_to_list (delete_intervals vs)) (fun '(from, n) => DeleteVersionsRange from (i64 (from + n))).

(** * Replaying changes *)

Record KVPair := mkPair { kv_delete : bool; kv_key : bytes; kv_value : option bytes }.

Definition SaveChangeSet (cs : list KVPair) : Tree Z :=
  for_each cs (fun pair =>
    if kv_delete pair then fun t =>
      match Remove (kv_key pair) t with
      | (t, Ok (_, true)) => (t, Ok tt)
      | (t, Panic) => (t, Panic)
      | (t, _) => (t, Err ErrNonExistentKey)
      end
    else let! _ := Set_ (kv_key pair) (kv_value pair) in ret tt) ;;
  let! '(_, v) := SaveVersion in ret v.
