(* ===== verification/IavlProof.v ===== *)
(** Proofs of membership: [third_party/iavl/proof.go], [proof_path.go] and
    [proof_ics23.go].

    A proof lists the nodes on the way to a leaf, each without the child the way goes
    through.  It is handed out in the format of ICS-23, whose library checks it; the
    checks of that library are parameters. *)

From Stdlib Require Import ZArith Lia.
From stdpp Require Import base list gmap strings sorting.
From S2P Require Import Prelude Sha256 IavlEncoding IavlNode IavlSpec IavlRepr IavlDb IavlMutable.
Open Scope Z_scope.
Open Scope go_scope.

(** * [proof.go] *)

Record ProofInnerNode := mkPIN { pin_Height : Z; pin_Size : Z; pin_Version : Z; pin_Left : option bytes; pin_Right : option bytes }.

Definition nonempty (b : option bytes) : bool := 0 <? blen (default [] b).

Definition ProofInnerNode_Hash (pin : ProofInnerNode) (childHash : bytes) : res bytes :=
  let head := EncodeVarint (pin_Height pin) ++ EncodeVarint (pin_Size pin) ++ EncodeVarint (pin_Version pin) in
  if nonempty (pin_Left pin) && nonempty (pin_Right pin) then Err ErrBothChildren
  else if negb (nonempty (pin_Left pin)) then
    Ok (sha256 (head ++ EncodeBytes childHash ++ EncodeBytes (default [] (pin_Right pin))))
  else Ok (sha256 (head ++ EncodeBytes (default [] (pin_Left pin)) ++ EncodeBytes childHash)).

Record ProofLeafNode := mkPLN { pln_Key : bytes; pln_ValueHash : bytes; pln_Version : Z }.

Definition ProofLeafNode_Hash (pln : ProofLeafNode) : bytes :=
  sha256 (EncodeVarint 0 ++ EncodeVarint 1 ++ EncodeVarint (pln_Version pln) ++ EncodeBytes (pln_Key pln) ++ EncodeBytes (pln_ValueHash pln)).

Abbreviation Path := (list ProofInnerNode).

(** The path, the leaf it ends at, and the error when that leaf has another key.  An
    [Err] is an error without a leaf. *)
Fixpoint pathToLeaf (fuel : nat) (db : database) (node : Node) (key : bytes) (path : Path) : res (Path * Node * option iavl_error) :=
  match fuel with
  | O => Panic
  | S fuel =>
    if isLeaf node then Ok (path, node, if bool_decide (n_key node = key) then None else Some ErrKeyDoesNotExist)
    else if bytes_ltb key (n_key node) then
      rightNode ← getRightNode db node;
      let pin := mkPIN (n_height node) (n_size node) (n_version node) None (n_hash rightNode) in
      leftNode ← getLeftNode db node;
      pathToLeaf fuel db leftNode key (path ++ [pin])
    else
      leftNode ← getLeftNode db node;
      let pin := mkPIN (n_height node) (n_size node) (n_version node) (n_hash leftNode) None in
      rightNode ← getRightNode db node;
      pathToLeaf fuel db rightNode key (path ++ [pin])
  end.

Definition PathToLeaf (db : database) (node : Node) (key : bytes) : res (Path * Node * option iavl_error) :=
  pathToLeaf tree_fuel db node key [].

(** * [proof_path.go] *)

(** The position of the leaf, [-1] if the path is not one to a leaf. *)
Fixpoint path_Index (idx : Z) (pl : Path) : Z :=
  match pl with
  | [] => idx
  | node :: rest =>
    match pin_Left node, pin_Right node with
    | None, _ => path_Index idx rest
    | Some _, None => path_Index (i64 (idx + (pin_Size node - match rest with next :: _ => pin_Size next | [] => 1 end))) rest
    | Some _, Some _ => -1
    end
  end.
Definition Index (pl : Path) : Z := path_Index 0 pl.

(** * The proof format of ICS-23 *)

Inductive HashOp := HashOp_NO_HASH | HashOp_SHA256.
Inductive LengthOp := LengthOp_NO_PREFIX | LengthOp_VAR_PROTO.

Record LeafOp := mkLeafOp { lo_Hash : HashOp; lo_PrehashValue : HashOp; lo_Length : LengthOp; lo_Prefix : bytes }.
Record InnerOp := mkInnerOp { io_Hash : HashOp; io_Prefix : bytes; io_Suffix : bytes }.
Record ExistenceProof := mkExistence { ep_Key : bytes; ep_Value : bytes; ep_Leaf : LeafOp; ep_Path : list InnerOp }.
Record NonExistenceProof := mkNonExistence { ne_Key : bytes; ne_Left : option ExistenceProof; ne_Right : option ExistenceProof }.
Inductive CommitmentProof := Exist (p : ExistenceProof) | Nonexist (p : NonExistenceProof).

(** The checks of the library, with its parameters for this tree: root, proof, key and value. *)
Class Ics23 := {
  ics23_VerifyMembership : bytes -> CommitmentProof -> bytes -> bytes -> bool;
  ics23_VerifyNonMembership : bytes -> CommitmentProof -> bytes -> bool
}.

(** * [proof_ics23.go] *)

Definition convertVarIntToBytes (orig : Z) : bytes := PutVarint orig.

Definition convertLeafOp (version : Z) : LeafOp :=
  mkLeafOp HashOp_SHA256 HashOp_SHA256 LengthOp_VAR_PROTO
    (convertVarIntToBytes 0 ++ convertVarIntToBytes 1 ++ convertVarIntToBytes version).

Definition lengthByte : Z := 0x20.

Definition convertInnerOp (pin : ProofInnerNode) : InnerOp :=
  let prefix := convertVarIntToBytes (pin_Height pin) ++ convertVarIntToBytes (pin_Size pin) ++ convertVarIntToBytes (pin_Version pin) in
  if nonempty (pin_Left pin) then mkInnerOp HashOp_SHA256 (prefix ++ [lengthByte] ++ default [] (pin_Left pin) ++ [lengthByte]) []
  else mkInnerOp HashOp_SHA256 (prefix ++ [lengthByte]) ([lengthByte] ++ default [] (pin_Right pin)).

(** From the leaf to the root. *)
Definition convertInnerOps (path : Path) : list InnerOp := convertInnerOp <$> rev path.

(** The proof is built also when the leaf has another key; the error is returned with it.
    Without a leaf, and without a root, a nil node is dereferenced.  The hashes that are
    computed first stay in the nodes, where they repeat what the nodes determine. *)
Definition createExistenceProof (db : database) (root : option Node) (key : bytes) : res (ExistenceProof * option iavl_error) :=
  match root with
  | None => Panic
  | Some n =>
    '(n, _) ← hashWithCount n;
    match PathToLeaf db n key with
    | Ok (path, node, e) => Ok (mkExistence (n_key node) (default [] (n_value node)) (convertLeafOp (n_version node)) (convertInnerOps path), e)
    | _ => Panic
    end
  end.

Definition existence (db : database) (root : option Node) (key : bytes) : res ExistenceProof :=
  '(p, e) ← createExistenceProof db root key;
  match e with Some e => Err e | None => Ok p end.

Definition GetMembershipProof (db : database) (root : option Node) (key : bytes) : res CommitmentProof :=
  p ← existence db root key; Ok (Exist p).

Definition GetNonMembershipProof (db : database) (root : option Node) (key : bytes) : res CommitmentProof :=
  '(idx, val) ← GetWithIndex db root key;
  match val with
  | Some _ => Err ErrKeyInState
  | None =>
    left ← (if 1 <=? idx then
              e ← GetByIndex db root (idx - 1);
              p ← existence db root (match e with Some (k, _) => k | None => [] end); Ok (Some p)
            else Ok None);
    e ← GetByIndex db root idx;
    right ← match e with Some (k, _) => p ← existence db root k; Ok (Some p) | None => Ok None end;
    Ok (Nonexist (mkNonExistence key left right))
  end.

Definition GetProof (db : database) (root : option Node) (key : bytes) : res CommitmentProof :=
  match root with
  | None => Err ErrNilRoot
  | Some _ =>
    exist ← Has db root key;
    if (exist : bool) then GetMembershipProof db root key else GetNonMembershipProof db root key
  end.

Definition GetVersionedProof (key : bytes) (v : Z) : Tree CommitmentProof :=
  let! ex := VersionExists v in
  if (ex : bool) then
    let! t := GetImmutable v in
    reading (fun db => GetProof db (it_root t) key)
  else fail ErrVersionDoesNotExist.

(** The checks against the tree itself; the value is the one the tree holds. *)
Section Verify.
Context `{Ics23}.

Definition VerifyMembership (i : ImmutableTree) (proof : CommitmentProof) (key : bytes) : Tree bool :=
  let! val := itree_Get i key in
  let! root := of_res (tree_Hash (it_root i)) in
  ret (ics23_VerifyMembership root proof key (default [] val)).

Definition VerifyNonMembership (i : ImmutableTree) (proof : CommitmentProof) (key : bytes) : Tree bool :=
  let! root := of_res (tree_Hash (it_root i)) in
  ret (ics23_VerifyNonMembership root proof key).

Definition VerifyProof (i : ImmutableTree) (proof : CommitmentProof) (key : bytes) : Tree bool :=
  match proof with Exist _ => VerifyMembership i proof key | Nonexist _ => VerifyNonMembership i proof key end.

End Verify.


(** What membership proofs show: the proof of a key leads to the root hash and to the
    position of the key, and a proof that leads to the root hash of a tree is about an
    entry of that tree. *)

(** * What a proof denotes by ICS-23 *)

Definition hash_op (h : HashOp) (b : bytes) : bytes := match h with HashOp_NO_HASH => b | HashOp_SHA256 => sha256 b end.
Definition length_op (l : LengthOp) (b : bytes) : bytes := match l with LengthOp_NO_PREFIX => b | LengthOp_VAR_PROTO => PutUvarint (blen b) ++ b end.

Definition apply_leaf (op : LeafOp) (key value : bytes) : bytes :=
  hash_op (lo_Hash op) (lo_Prefix op ++ length_op (lo_Length op) key ++ length_op (lo_Length op) (hash_op (lo_PrehashValue op) value)).
Definition apply_inner (child : bytes) (op : InnerOp) : bytes := hash_op (io_Hash op) (io_Prefix op ++ child ++ io_Suffix op).

Definition calculate (p : ExistenceProof) : bytes := foldl apply_inner (apply_leaf (ep_Leaf p) (ep_Key p) (ep_Value p)) (ep_Path p).

(** The proof is about this entry and leads to the root. *)
Definition proves (root : bytes) (p : ExistenceProof) (e : bytes * bytes) : Prop := ep_Key p = e.1 /\ ep_Value p = e.2 /\ calculate p = root.

(** * Paths of a tree *)

Fixpoint tpath (key : bytes) (t : tree) : Path :=
  match t with
  | Leaf _ _ _ => []
  | Inner k ver l r =>
    if bytes_ltb key k then mkPIN (theight t) (tsize t) ver None (Some (thash r)) :: tpath key l
    else mkPIN (theight t) (tsize t) ver (Some (thash l)) None :: tpath key r
  end.

Fixpoint tleaf (key : bytes) (t : tree) : tree :=
  match t with Leaf _ _ _ => t | Inner k _ l r => if bytes_ltb key k then tleaf key l else tleaf key r end.

Definition tvalue (t : tree) : bytes := match t with Leaf _ v _ => v | Inner _ _ _ _ => [] end.

Definition tproof (t : tree) (key : bytes) : ExistenceProof :=
  let leaf := tleaf key t in mkExistence (tkey leaf) (tvalue leaf) (convertLeafOp (tversion leaf)) (convertInnerOps (tpath key t)).

Lemma tleaf_leaf key t : exists k v ver, tleaf key t = Leaf k v ver.
Proof. induction t as [k v ver|k ver l IHl r IHr]; cbn; [eauto|]. by destruct (bytes_ltb key k). Qed.

Lemma tleaf_subtree key t : tleaf key t ∈ subtrees t.
Proof.
  induction t as [k v ver|k ver l IHl r IHr]; [by apply subtrees_self|]. cbn [tleaf subtrees]. rewrite elem_of_cons, elem_of_app. destruct (bytes_ltb key k); auto.
Qed.

(** The path of a key that is there ends at its leaf. *)
Lemma tleaf_entry key v t : bst t -> (key, v) ∈ leaves t -> tkey (tleaf key t) = key /\ tvalue (tleaf key t) = v.
Proof.
  induction t as [k0 v0 ver|k ver l IHl r IHr]; cbn [leaves tleaf]; [by intros _ [= -> ->]%list_elem_of_singleton|].
  intros Hb Hin. pose proof (bst_right _ _ _ _ Hb) as Hr. destruct Hb as (Hbl & Hbr & Hl & _). rewrite Forall_forall in Hl, Hr.
  assert (forall t', (key, v) ∈ leaves t' -> key ∈ keys t') as Hk by (intros t' H'; apply list_elem_of_fmap; by exists (key, v)).
  apply elem_of_app in Hin as [Hin|Hin].
  - rewrite (proj2 (bytes_ltb_lt _ _)) by auto. auto.
  - rewrite (proj2 (bytes_ltb_ge _ _)) by auto. auto.
Qed.

Lemma tleaf_absent key t : key ∉ keys t -> tkey (tleaf key t) <> key.
Proof.
  intros Hn E. apply Hn. destruct (tleaf_leaf key t) as (k & v & ver & El). pose proof (subtrees_keys _ _ (tleaf_subtree key t)) as Hs. apply Hs. rewrite El in *. cbn in *. subst key. left.
Qed.

(** * [PathToLeaf] *)

Lemma pathToLeaf_stored db key t : forall fuel path, stored db t -> tree_ok t -> (Z.to_nat (theight t) < fuel)%nat ->
  pathToLeaf fuel db (loaded t) key path =
  Ok (path ++ tpath key t, loaded (tleaf key t), if bool_decide (tkey (tleaf key t) = key) then None else Some ErrKeyDoesNotExist).
Proof.
  induction t as [k v ver|k ver l IHl r IHr]; intros [|fuel] path Hs Hok Hf; try lia; cbn [pathToLeaf].
  - cbn. by rewrite app_nil_r.
  - unfold isLeaf. cbn [loaded n_height n_key n_size n_version]. rewrite (proj2 (Z.eqb_neq _ 0)) by apply theight_inner. unfold getLeftNode, getRightNode. cbn [n_leftNode n_rightNode n_leftHash n_rightHash].
    rewrite !GetNode_stored by eauto with iavl. cbn [mbind result_bind tpath tleaf]. cbn [theight] in Hf. pose proof (theight_nonneg l). pose proof (theight_nonneg r). destruct (bytes_ltb key k).
    + replace (n_hash (loaded r)) with (Some (thash r)) by (by destruct r). rewrite IHl by (eauto with iavl || lia). by rewrite <- app_assoc.
    + replace (n_hash (loaded l)) with (Some (thash l)) by (by destruct l). rewrite IHr by (eauto with iavl || lia). by rewrite <- app_assoc.
Qed.

Lemma PathToLeaf_stored db key t : stored db t -> tree_ok t ->
  PathToLeaf db (loaded t) key = Ok (tpath key t, loaded (tleaf key t), if bool_decide (tkey (tleaf key t) = key) then None else Some ErrKeyDoesNotExist).
Proof. intros Hs Hok. pose proof (tree_ok_height t Hok). unfold PathToLeaf, tree_fuel. rewrite pathToLeaf_stored by (done || lia). done. Qed.

Lemma createExistenceProof_stored db key t : stored db t -> tree_ok t ->
  createExistenceProof db (Some (loaded t)) key = Ok (tproof t key, if bool_decide (tkey (tleaf key t) = key) then None else Some ErrKeyDoesNotExist).
Proof.
  intros Hs Hok. unfold createExistenceProof. replace (hashWithCount (loaded t)) with (Ok (E := iavl_error) (loaded t, 0)) by (by destruct t). cbn [mbind result_bind].
  rewrite PathToLeaf_stored by done. unfold tproof. by destruct (tleaf_leaf key t) as (k & v & ver & ->).
Qed.

Lemma existence_entry db key v t : stored db t -> tree_ok t -> (key, v) ∈ leaves t -> existence db (Some (loaded t)) key = Ok (tproof t key).
Proof.
  intros Hs Hok Hin. unfold existence. rewrite createExistenceProof_stored by done. cbn [mbind result_bind].
  destruct (tleaf_entry key v t (proj1 Hok) Hin) as [E _]. by rewrite bool_decide_true.
Qed.

(** * The proof leads to the root *)

(** A converted path, from the root down. *)
Definition path_root (path : Path) (leaf : bytes) : bytes := foldr (fun pin c => apply_inner c (convertInnerOp pin)) leaf path.

Lemma convertInnerOps_cons pin path : convertInnerOps (pin :: path) = convertInnerOps path ++ [convertInnerOp pin].
Proof. unfold convertInnerOps. cbn [rev]. by rewrite fmap_app. Qed.

Lemma foldl_convert path leaf : foldl apply_inner leaf (convertInnerOps path) = path_root path leaf.
Proof.
  unfold path_root. induction path as [|pin path IH]; [done|]. rewrite convertInnerOps_cons, foldl_app, IH. done.
Qed.

Lemma nonempty_hash h : length h = 32%nat -> nonempty (Some h) = true.
Proof. intros H. unfold nonempty, blen. cbn. by rewrite H. Qed.

Lemma EncodeBytes_hash h : length h = 32%nat -> EncodeBytes h = 0x20 :: h.
Proof. intros H. unfold EncodeBytes, blen. by rewrite H. Qed.

(** One step of a converted path hashes what the tree hashes. *)
Lemma inner_left h s v r c : length r = 32%nat -> length c = 32%nat ->
  apply_inner c (convertInnerOp (mkPIN h s v None (Some r))) = sha256 ((EncodeVarint h ++ EncodeVarint s ++ EncodeVarint v) ++ EncodeBytes c ++ EncodeBytes r).
Proof.
  intros Hr Hc. rewrite !EncodeBytes_hash by done. unfold convertInnerOp, apply_inner. cbn [pin_Left pin_Right pin_Height pin_Size pin_Version]. change (nonempty None) with false.
  cbn [hash_op io_Hash io_Prefix io_Suffix default]. by rewrite <- !app_assoc.
Qed.

Lemma inner_right h s v l c : length l = 32%nat -> length c = 32%nat ->
  apply_inner c (convertInnerOp (mkPIN h s v (Some l) None)) = sha256 ((EncodeVarint h ++ EncodeVarint s ++ EncodeVarint v) ++ EncodeBytes l ++ EncodeBytes c).
Proof.
  intros Hl Hc. rewrite !EncodeBytes_hash by done. unfold convertInnerOp, apply_inner. cbn [pin_Left pin_Right pin_Height pin_Size pin_Version]. rewrite nonempty_hash by done.
  cbn [hash_op io_Hash io_Prefix io_Suffix default]. by rewrite !app_nil_r, <- !app_assoc.
Qed.

(** The hash of the code's own proof nodes is what their ICS-23 form denotes. *)
Lemma ProofInnerNode_Hash_converts pin c : length c = 32%nat -> 
  match pin_Left pin, pin_Right pin with None, Some h | Some h, None => length h = 32%nat | _, _ => False end ->
  ProofInnerNode_Hash pin c = Ok (apply_inner c (convertInnerOp pin)).
Proof.
  destruct pin as [h s v [l|] [r|]]; cbn [pin_Left pin_Right]; intros Hc H; try done; unfold ProofInnerNode_Hash; cbn [pin_Left pin_Right pin_Height pin_Size pin_Version].
  - rewrite inner_right by done. by rewrite nonempty_hash.
  - rewrite inner_left by done. done.
Qed.

Lemma ProofLeafNode_Hash_converts k v ver : ProofLeafNode_Hash (mkPLN k (sha256 v) ver) = apply_leaf (convertLeafOp ver) k v.
Proof. unfold ProofLeafNode_Hash, apply_leaf, EncodeBytes. cbn [pln_Key pln_ValueHash pln_Version convertLeafOp lo_Hash lo_Prefix lo_Length lo_PrehashValue hash_op length_op]. by rewrite <- !app_assoc. Qed.

Lemma apply_leaf_thash k v ver : apply_leaf (convertLeafOp ver) k v = thash (Leaf k v ver).
Proof. rewrite <- ProofLeafNode_Hash_converts. cbn. unfold ProofLeafNode_Hash, tree_head. cbn. done. Qed.

Lemma path_root_tpath key t : path_root (tpath key t) (thash (tleaf key t)) = thash t.
Proof.
  induction t as [k v ver|k ver l IHl r IHr]; [done|]. cbn [tpath tleaf]. destruct (bytes_ltb key k); cbn [path_root foldr]; [change (foldr _ ?x ?y) with (path_root y x); rewrite IHl|change (foldr _ ?x ?y) with (path_root y x); rewrite IHr].
  - rewrite inner_left by apply length_thash. done.
  - rewrite inner_right by apply length_thash. done.
Qed.

Lemma calculate_tproof key t : calculate (tproof t key) = thash t.
Proof.
  unfold calculate, tproof. cbn [ep_Leaf ep_Key ep_Value ep_Path]. rewrite foldl_convert. rewrite <- (path_root_tpath key t).
  destruct (tleaf_leaf key t) as (k & v & ver & ->). cbn [tkey tvalue tversion]. by rewrite apply_leaf_thash.
Qed.

Lemma tproof_proves key v t : bst t -> (key, v) ∈ leaves t -> proves (thash t) (tproof t key) (key, v).
Proof. intros Hb Hin. destruct (tleaf_entry key v t Hb Hin) as [Ek Ev]. split_and!; [done|done|apply calculate_tproof]. Qed.

(** * The position of a leaf *)

Lemma tpath_size key t : match tpath key t with next :: _ => pin_Size next | [] => 1 end = tsize t.
Proof. destruct t as [|k ver l r]; [done|]. cbn [tpath]. by destruct (bytes_ltb key k). Qed.

Lemma path_Index_tpath key t : forall idx, bst t -> key ∈ keys t -> 0 <= idx -> idx + tsize t < 2 ^ 63 -> path_Index idx (tpath key t) = idx + rank key (leaves t).
Proof.
  induction t as [k v ver|k ver l IHl r IHr]; intros idx Hb Hin Hi Hs.
  - cbn in Hin. apply list_elem_of_singleton in Hin as ->. cbn [tpath path_Index leaves]. unfold rank. rewrite filter_cons_False by apply bytes_lt_irrefl. cbn. lia.
  - pose proof (bst_right _ _ _ _ Hb) as Fr. destruct Hb as (Hl & Hr & Fl & _). cbn [leaves tpath tsize] in *. rewrite fmap_app, elem_of_app in Hin. rewrite rank_app. pose proof (tsize_pos l). pose proof (tsize_pos r).
    pose proof (tsize_leaves l) as El. destruct (bytes_ltb key k) eqn:Ek; cbn [path_Index pin_Left pin_Right pin_Size].
    + apply bytes_ltb_lt in Ek. rewrite IHl; try done; try lia; [|destruct Hin as [?|H1]; [done|]; eapply Forall_forall in Fr; [|exact H1]; by apply bytes_lt_not_le in Ek].
      rewrite (rank_none key (leaves r)); [lia|]. eapply Forall_impl; [exact Fr|]. cbn. intros x Hx. by apply bytes_lt_le, (bytes_lt_le_trans _ k).
    + rewrite tpath_size. apply bytes_ltb_ge in Ek. rewrite wrapS_small by lia.
      rewrite IHr; try done; try lia; [|destruct Hin as [H1|?]; [|done]; eapply Forall_forall in Fl; [|exact H1]; by apply bytes_lt_not_le in Fl].
      rewrite (rank_all key (leaves l)); [lia|]. eapply Forall_impl; [exact Fl|]. cbn. intros x Hx. by eapply bytes_lt_le_trans.
Qed.

(** * Neighbours *)

(** The entry next to the key on the left, or on the right; none if there is none. *)
Definition is_pred (m : gmap bytes bytes) (k : bytes) (e : option (bytes * bytes)) : Prop :=
  match e with
  | Some (k', v) => m !! k' = Some v /\ bytes_lt k' k /\ forall x, is_Some (m !! x) -> bytes_lt x k -> bytes_le x k'
  | None => forall x, is_Some (m !! x) -> ~ bytes_lt x k
  end.
Definition is_succ (m : gmap bytes bytes) (k : bytes) (e : option (bytes * bytes)) : Prop :=
  match e with
  | Some (k', v) => m !! k' = Some v /\ bytes_lt k k' /\ forall x, is_Some (m !! x) -> bytes_lt k x -> bytes_le k' x
  | None => forall x, is_Some (m !! x) -> ~ bytes_lt k x
  end.

Lemma rank_split k l : sorted_keys l -> Forall (fun e => bytes_lt e.1 k) (take (Z.to_nat (rank k l)) l) /\ Forall (fun e => bytes_le k e.1) (drop (Z.to_nat (rank k l)) l).
Proof.
  unfold sorted_keys. induction l as [|[k0 v0] l IH]; [split; constructor|]. cbn [fmap list_fmap fst]. intros Hs. apply StronglySorted_inv in Hs as [Hs HF]. specialize (IH Hs).
  change ((k0, v0) :: l) with ([(k0, v0)] ++ l). rewrite rank_app. pose proof (rank_bound k l). destruct (bytes_ltb k0 k) eqn:Hk; [apply bytes_ltb_lt in Hk|apply bytes_ltb_ge in Hk].
  - rewrite (rank_all k [(k0, v0)]) by (repeat constructor; apply Hk). replace (Z.to_nat (_ + rank k l)) with (S (Z.to_nat (rank k l))) by (cbn; lia). cbn [app take drop]. destruct IH. split; [by constructor|done].
  - assert (Forall (fun x => bytes_le k x) (l.*1)) as Hle by (eapply Forall_impl; [exact HF|]; cbn; intros x Hx; apply bytes_lt_le; by eapply bytes_le_lt_trans).
    rewrite (rank_none k [(k0, v0)]), (rank_none k l) by (first [done|repeat constructor; apply Hk]). cbn. split; [constructor|]. constructor; [done|]. rewrite Forall_fmap in Hle. exact Hle.
Qed.

Section Neighbours.
Context (l : list (bytes * bytes)) (k : bytes).
Hypothesis Hl : sorted_keys l.
Let i := Z.to_nat (rank k l).
Let m : gmap bytes bytes := list_to_map l.

Lemma map_entry x : is_Some (m !! x) -> exists v, (x, v) ∈ take i l \/ (x, v) ∈ drop i l.
Proof. intros [v Hv]. exists v. apply elem_of_list_to_map_2 in Hv. by rewrite <- elem_of_app, take_drop. Qed.

Lemma entry_map j x v : l !! j = Some (x, v) -> m !! x = Some v.
Proof. intros H. apply elem_of_list_to_map_1; [by apply sorted_nodup|]. by eapply list_elem_of_lookup_2. Qed.

Lemma sorted_lookup j j' e e' : l !! j = Some e -> l !! j' = Some e' -> (j <= j')%nat -> bytes_le e.1 e'.1.
Proof.
  intros H H' Hj. destruct (decide (j = j')) as [->|]; [replace e' with e by congruence; apply bytes_le_refl|]. apply bytes_lt_le.
  apply (StronglySorted_app_1_elem_of bytes_lt (take j' l.*1) (drop j' l.*1)); [rewrite take_drop; apply Hl| |].
  - apply list_elem_of_lookup. exists j. rewrite lookup_take_lt by lia. by rewrite list_lookup_fmap, H.
  - apply list_elem_of_lookup. exists 0%nat. by rewrite lookup_drop, Nat.add_0_r, list_lookup_fmap, H'.
Qed.

Lemma pred_entry : is_pred m k (if (0 <? rank k l) then l !! (i - 1)%nat else None).
Proof.
  destruct (rank_split k l Hl) as [Hlt Hge]. fold i in Hlt, Hge. rewrite Forall_forall in Hlt, Hge. pose proof (rank_bound k l) as Hb. destruct (Z.ltb_spec 0 (rank k l)) as [Hr|Hr].
  - destruct (lookup_lt_is_Some_2 l (i - 1)) as [[k' v'] E]; [lia|]. rewrite E. split_and!; [by eapply entry_map| |].
    + apply (Hlt (k', v')). apply list_elem_of_lookup. exists (i - 1)%nat. by rewrite lookup_take_lt by lia.
    + intros x Hx Hk. apply map_entry in Hx as [v [Hv|Hv]]; [|apply Hge in Hv; by apply bytes_lt_not_le in Hk].
      apply list_elem_of_lookup in Hv as [j Hj]. apply lookup_take_Some in Hj as [Hj Hji]. apply (sorted_lookup j (i - 1) (x, v) (k', v')); [done|done|lia].
  - intros x Hx Hk. apply map_entry in Hx as [v [Hv|Hv]]; [|apply Hge in Hv; by apply bytes_lt_not_le in Hk].
    replace i with 0%nat in Hv by lia. by apply elem_of_nil in Hv.
Qed.

Lemma succ_entry : m !! k = None -> is_succ m k (l !! i).
Proof.
  intros Hn. destruct (rank_split k l Hl) as [Hlt Hge]. fold i in Hlt, Hge. rewrite Forall_forall in Hlt, Hge.
  assert (forall x, is_Some (m !! x) -> bytes_lt k x -> exists v j, l !! (i + j)%nat = Some (x, v)) as Hx.
  { intros x Hx Hk. apply map_entry in Hx as [v [Hv|Hv]]; [apply Hlt in Hv; by apply bytes_lt_le, bytes_lt_not_le in Hv|].
    apply list_elem_of_lookup in Hv as [j Hj]. rewrite lookup_drop in Hj. eauto. }
  destruct (l !! i) as [[k' v']|] eqn:E.
  - assert (m !! k' = Some v') as Hm by (by eapply entry_map). split_and!; [done| |].
    + apply bytes_le_lt; [|congruence]. apply (Hge (k', v')). apply list_elem_of_lookup. exists 0%nat. by rewrite lookup_drop, Nat.add_0_r.
    + intros x Hs Hk. destruct (Hx x Hs Hk) as (v & j & Hj). apply (sorted_lookup i (i + j) (k', v') (x, v)); [done|done|lia].
  - intros x Hs Hk. destruct (Hx x Hs Hk) as (v & j & Hj). apply lookup_ge_None in E. apply lookup_lt_Some in Hj. lia.
Qed.

End Neighbours.

(** * [GetProof] *)

Definition opt_proves (root : bytes) (p : option ExistenceProof) (e : option (bytes * bytes)) : Prop :=
  match p, e with Some p, Some e => proves root p e | None, None => True | _, _ => False end.

(** The proof that a map with this root hash owes for a key: of the entry, or of both neighbours of where it would be. *)
Definition answers (root : bytes) (m : gmap bytes bytes) (k : bytes) (p : CommitmentProof) : Prop :=
  match m !! k with
  | Some v => exists e, p = Exist e /\ proves root e (k, v)
  | None => exists l r el er, p = Nonexist (mkNonExistence k l r) /\ is_pred m k el /\ is_succ m k er /\ opt_proves root l el /\ opt_proves root r er
  end.

Section GetProof.
Context (db : database) (t : tree).
Hypothesis Hs : stored db t.
Hypothesis Hok : tree_ok t.

Lemma stored_repr : repr (stored db) (fun _ => True) (loaded t) t.
Proof. apply repr_loaded; eauto with iavl. Qed.

Lemma Has_stored k : Has db (Some (loaded t)) k = Ok (bool_decide (k ∈ keys t)).
Proof. pose proof (tree_ok_height t Hok). unfold Has, tree_fuel. apply (has_repr db (stored db) (fun _ => True)); eauto using stored_repr with iavl. lia. Qed.

Lemma GetWithIndex_stored k : GetWithIndex db (Some (loaded t)) k = Ok (rank k (leaves t), to_map t !! k).
Proof. pose proof (tree_ok_height t Hok). unfold GetWithIndex, tree_fuel. apply (get_repr db (stored db) (fun _ => True)); eauto using stored_repr with iavl. lia. Qed.

Lemma GetByIndex_stored i : 0 <= i <= tsize t -> GetByIndex db (Some (loaded t)) i = Ok (e ← leaves t !! Z.to_nat i; Some (e.1, Some e.2)).
Proof.
  intros Hi. pose proof (tree_ok_height t Hok). pose proof Hok as (_ & _ & Hsz & _). unfold GetByIndex, tree_fuel.
  rewrite (getByIndex_repr db (stored db) (fun _ => True)) with (t := t); eauto using stored_repr with iavl; try lia. by rewrite (proj2 (Z.ltb_ge _ _)) by lia.
Qed.

Lemma key_present k : is_Some (to_map t !! k) <-> k ∈ keys t.
Proof.
  unfold to_map. split; [intros [v Hv]; apply elem_of_list_to_map_2 in Hv; apply list_elem_of_fmap; by exists (k, v)|].
  intros Hk. destruct (list_to_map (leaves t) !! k) eqn:E; [by eexists|]. by apply not_elem_of_list_to_map_2 in E.
Qed.

Lemma existence_at j e : leaves t !! j = Some e -> existence db (Some (loaded t)) e.1 = Ok (tproof t e.1) /\ proves (thash t) (tproof t e.1) e.
Proof.
  intros H%list_elem_of_lookup_2. destruct e as [k v]. split; [by apply (existence_entry db k v)|apply tproof_proves; [apply Hok|done]].
Qed.

Lemma GetNonMembershipProof_stored k : to_map t !! k = None -> exists p, GetNonMembershipProof db (Some (loaded t)) k = Ok p /\ answers (thash t) (to_map t) k p.
Proof.
  intros Hn. pose proof (bst_sorted t (proj1 Hok)) as Hl. pose proof (pred_entry (leaves t) k Hl) as Hp. pose proof (succ_entry (leaves t) k Hl Hn) as Hsu.
  pose proof (rank_bound k (leaves t)) as Hb. rewrite <- tsize_leaves in Hb. unfold GetNonMembershipProof. rewrite GetWithIndex_stored, Hn. cbn [mbind result_bind].
  unfold answers. rewrite Hn. rewrite GetByIndex_stored by lia.
  assert (exists r er, (right ← match (e ← leaves t !! Z.to_nat (rank k (leaves t)); Some (e.1, Some e.2)) with Some (k0, _) => p ← existence db (Some (loaded t)) k0; Ok (Some p) | None => Ok None end; Ok right) = Ok (E := iavl_error) r /\
    is_succ (to_map t) k er /\ opt_proves (thash t) r er) as (r & er & Er & Hr & Hpr).
  { destruct (leaves t !! Z.to_nat (rank k (leaves t))) as [e|] eqn:E; cbn [mbind option_bind result_bind]; [|by exists None, None].
    destruct (existence_at _ _ E) as [-> Hpr]. cbn [mbind result_bind]. by exists (Some (tproof t e.1)), (Some e). }
  destruct (Z.leb_spec 1 (rank k (leaves t))).
  - rewrite GetByIndex_stored by lia. rewrite (proj2 (Z.ltb_lt _ _)) in Hp by lia. replace (Z.to_nat (rank k (leaves t) - 1)) with (Z.to_nat (rank k (leaves t)) - 1)%nat by lia.
    destruct (lookup_lt_is_Some_2 (leaves t) (Z.to_nat (rank k (leaves t)) - 1)) as [e E]; [rewrite tsize_leaves in Hb; lia|]. rewrite E in Hp |- *. cbn [mbind option_bind result_bind].
    destruct (existence_at _ _ E) as [-> Hpe]. cbn [mbind result_bind]. destruct (match _ with Some _ => _ | None => _ end) as [r'| |]; try done. injection Er as ->.
    eexists. split; [reflexivity|]. by exists (Some (tproof t e.1)), r, (Some e), er.
  - rewrite (proj2 (Z.ltb_ge _ _)) in Hp by lia. cbn [mbind result_bind]. destruct (match _ with Some _ => _ | None => _ end) as [r'| |]; try done. injection Er as ->.
    eexists. split; [reflexivity|]. by exists None, r, None, er.
Qed.

Lemma GetProof_stored k : exists p, GetProof db (Some (loaded t)) k = Ok p /\ answers (thash t) (to_map t) k p.
Proof.
  unfold GetProof. rewrite Has_stored. cbn [mbind result_bind]. case_bool_decide as Hk.
  - apply key_present in Hk as [v Hv]. unfold answers. rewrite Hv. pose proof Hv as Hin%elem_of_list_to_map_2. unfold GetMembershipProof. rewrite (existence_entry db k v) by done.
    eexists. split; [reflexivity|]. eexists. split; [reflexivity|]. apply tproof_proves; [apply Hok|done].
  - apply GetNonMembershipProof_stored. apply eq_None_not_Some. by rewrite key_present.
Qed.

End GetProof.

(** * Proofs and root hashes bind *)

(** What is hashed for a node, and for all nodes and values of a tree. *)
Definition tpre (t : tree) : bytes :=
  tree_head t ++ match t with Leaf k v _ => EncodeBytes k ++ EncodeBytes (sha256 v) | Inner _ _ l r => EncodeBytes (thash l) ++ EncodeBytes (thash r) end.
Fixpoint hashed (t : tree) : list bytes := tpre t :: match t with Leaf _ v _ => [v] | Inner _ _ l r => hashed l ++ hashed r end.

(** What is hashed to calculate the root of a proof. *)
Fixpoint inner_strings (c : bytes) (ops : list InnerOp) : list bytes :=
  match ops with [] => [] | op :: ops => (io_Prefix op ++ c ++ io_Suffix op) :: inner_strings (apply_inner c op) ops end.
Definition proof_strings (p : ExistenceProof) : list bytes :=
  ep_Value p :: (lo_Prefix (ep_Leaf p) ++ length_op (lo_Length (ep_Leaf p)) (ep_Key p) ++ length_op (lo_Length (ep_Leaf p)) (hash_op (lo_PrehashValue (ep_Leaf p)) (ep_Value p)))
    :: inner_strings (apply_leaf (ep_Leaf p) (ep_Key p) (ep_Value p)) (ep_Path p).

(** No two different strings of the list have the same hash. *)
Definition no_clash (l : list bytes) : bool := bool_decide (NoDup (sha256 <$> remove_dups l)).
Definition inj_on (l : list bytes) : Prop := forall x y, x ∈ l -> y ∈ l -> sha256 x = sha256 y -> x = y.

Lemma no_clash_inj l : no_clash l = true -> inj_on l.
Proof.
  unfold no_clash. rewrite bool_decide_eq_true. intros Hnd x y Hx Hy E. apply elem_of_remove_dups, list_elem_of_lookup in Hx as [i Hi], Hy as [j Hj].
  assert (i = j) as ->; [|congruence]. eapply (NoDup_lookup _ _ _ (sha256 x) Hnd); rewrite list_lookup_fmap; [by rewrite Hi|by rewrite Hj, E].
Qed.

Lemma inj_on_sub l l' : l ⊆ l' -> inj_on l' -> inj_on l.
Proof. intros Hs H x y Hx Hy. apply H; by apply Hs. Qed.

Lemma thash_tpre t : thash t = sha256 (tpre t).
Proof. by destruct t. Qed.

Lemma tpre_hashed t : tpre t ∈ hashed t.
Proof. destruct t; left. Qed.

Lemma varint_inj x y a b : - 2 ^ 63 <= x < 2 ^ 63 -> - 2 ^ 63 <= y < 2 ^ 63 -> EncodeVarint x ++ a = EncodeVarint y ++ b -> x = y /\ a = b.
Proof.
  intros Hx Hy E. pose proof (DecodeVarint_encode x a Hx) as D. rewrite E, DecodeVarint_encode in D by done. injection D as -> _. split; [done|]. by apply app_inv_head in E.
Qed.

Lemma bytes_inj x y a b : short x -> short y -> EncodeBytes x ++ a = EncodeBytes y ++ b -> x = y /\ a = b.
Proof.
  intros Hx Hy E. pose proof (DecodeBytes_encode x a Hx) as D. rewrite E, DecodeBytes_encode in D by done. injection D as -> _. split; [done|]. by apply app_inv_head in E.
Qed.

Definition int64 (x : Z) : Prop := - 2 ^ 63 <= x < 2 ^ 63.

Lemma tree_ok_int64 t : tree_ok t -> int64 (theight t) /\ int64 (tsize t) /\ int64 (tversion t).
Proof.
  intros H. pose proof (tree_ok_height t H). pose proof (tree_ok_node t H) as (_ & ? & _). destruct H as (_ & _ & ? & _). pose proof (tsize_pos t). unfold int64. lia.
Qed.

(** The head of a hashed string determines height, size and version. *)
Lemma head_inj h s v h' s' v' a b : int64 h -> int64 s -> int64 v -> int64 h' -> int64 s' -> int64 v' ->
  (EncodeVarint h ++ EncodeVarint s ++ EncodeVarint v) ++ a = (EncodeVarint h' ++ EncodeVarint s' ++ EncodeVarint v') ++ b -> h = h' /\ s = s' /\ v = v' /\ a = b.
Proof.
  intros. rewrite <- !app_assoc in H5. apply varint_inj in H5 as [-> E]; [|done..]. apply varint_inj in E as [-> E]; [|done..]. apply varint_inj in E as [-> ->]; done.
Qed.

(** A root hash determines the tree. *)
Lemma thash_binds t : forall u, tree_ok t -> tree_ok u -> inj_on (hashed t ++ hashed u) -> thash t = thash u -> t = u.
Proof.
  induction t as [k v ver|k ver l IHl r IHr]; intros u Ht Hu Hi E; pose proof (tree_ok_int64 _ Ht) as (I1 & I2 & I3); pose proof (tree_ok_int64 _ Hu) as (J1 & J2 & J3).
  all: rewrite !thash_tpre in E; apply Hi in E; [|apply elem_of_app; (left + right); apply tpre_hashed..].
  all: unfold tpre, tree_head in E; apply head_inj in E as (Eh & _ & Ev & E); [|done..]; destruct u as [k' v' ver'|k' ver' l' r'].
  - cbn [tversion] in Ev. subst ver'. pose proof (tree_ok_node _ Ht) as (Hk & _ & _). pose proof (tree_ok_node _ Hu) as (Hk' & _ & _). apply bytes_inj in E as [-> E]; [|done..].
    rewrite <- (app_nil_r (EncodeBytes (sha256 v))), <- (app_nil_r (EncodeBytes (sha256 v'))) in E. apply bytes_inj in E as [E _]; [|unfold short, blen; rewrite length_sha256; lia..].
    apply Hi in E; [by subst| |]; cbn [hashed]; rewrite elem_of_app, !elem_of_cons; tauto.
  - by destruct (theight_inner k' ver' l' r').
  - by destruct (theight_inner k ver l r).
  - cbn [tversion] in Ev. subst ver'. apply bytes_inj in E as [El E]; [|apply short_thash..].
    rewrite <- (app_nil_r (EncodeBytes (thash r))), <- (app_nil_r (EncodeBytes (thash r'))) in E. apply bytes_inj in E as [Er _]; [|apply short_thash..].
    apply IHl in El as ->; [|by eauto with iavl..|]; [apply IHr in Er as ->; [|by eauto with iavl..|]|].
    + f_equal. destruct Ht as ((_ & _ & _ & H1) & _), Hu as ((_ & _ & _ & H2) & _). congruence.
    + eapply inj_on_sub; [|exact Hi]. cbn [hashed]. intros x. rewrite !elem_of_app, !elem_of_cons, !elem_of_app. tauto.
    + eapply inj_on_sub; [|exact Hi]. cbn [hashed]. intros x. rewrite !elem_of_app, !elem_of_cons, !elem_of_app. tauto.
Qed.

Lemma length_apply_inner c op : io_Hash op = HashOp_SHA256 -> length (apply_inner c op) = 32%nat.
Proof. intros E. unfold apply_inner. rewrite E. apply length_sha256. Qed.

Lemma length_path_root path k x ver : length (path_root path (apply_leaf (convertLeafOp ver) k x)) = 32%nat.
Proof.
  destruct path as [|pin path]; [rewrite apply_leaf_thash; apply length_thash|]. cbn [path_root foldr]. apply length_apply_inner. unfold convertInnerOp. by destruct (nonempty _).
Qed.

Definition converted (path : Path) (k x : bytes) (ver : Z) : ExistenceProof := mkExistence k x (convertLeafOp ver) (convertInnerOps path).

Lemma calculate_converted path k x ver : calculate (converted path k x ver) = path_root path (apply_leaf (convertLeafOp ver) k x).
Proof. unfold calculate, converted. cbn [ep_Leaf ep_Key ep_Value ep_Path]. apply foldl_convert. Qed.

Lemma inner_strings_snoc ops op : forall c, inner_strings c (ops ++ [op]) = inner_strings c ops ++ [io_Prefix op ++ foldl apply_inner c ops ++ io_Suffix op].
Proof. induction ops as [|op0 ops IH]; intros c; [done|]. cbn [app inner_strings foldl]. by rewrite IH. Qed.

Lemma proof_strings_cons pin path k x ver : proof_strings (converted (pin :: path) k x ver) =
  proof_strings (converted path k x ver) ++ [io_Prefix (convertInnerOp pin) ++ path_root path (apply_leaf (convertLeafOp ver) k x) ++ io_Suffix (convertInnerOp pin)].
Proof. unfold proof_strings, converted. cbn [ep_Leaf ep_Key ep_Value ep_Path]. by rewrite convertInnerOps_cons, inner_strings_snoc, foldl_convert. Qed.

(** A node of a path that is not a leaf in disguise. *)
Definition pin_ok (pin : ProofInnerNode) : Prop := pin_Height pin <> 0 /\ -128 <= pin_Height pin < 128 /\ int64 (pin_Size pin) /\ int64 (pin_Version pin).

(** The child a path goes through is a child of the node whose hash it gives. *)
Lemma pin_binds pin c k ver l r : pin_ok pin -> tree_ok (Inner k ver l r) -> length c = 32%nat ->
  io_Prefix (convertInnerOp pin) ++ c ++ io_Suffix (convertInnerOp pin) = tpre (Inner k ver l r) -> c = thash l \/ c = thash r.
Proof.
  intros (_ & Hh & Hs & Hv) Hok Hc. pose proof (tree_ok_int64 _ Hok) as (I1 & I2 & I3). unfold tpre, tree_head. rewrite !EncodeBytes_hash by apply length_thash.
  assert (int64 (pin_Height pin)) by (unfold int64; lia). unfold convertInnerOp. destruct (nonempty (pin_Left pin)); cbn [io_Prefix io_Suffix].
  - rewrite <- !(app_assoc _ _ (c ++ [])), app_nil_r. intros E. apply head_inj in E as (_ & _ & _ & E); [|done..]. right. cbn [app] in E. apply (f_equal tail) in E. cbn [tail] in E.
    apply app_inj_2 in E as [_ E]; [|cbn; by rewrite Hc, length_thash]. apply (f_equal tail) in E. exact E.
  - rewrite <- (app_assoc _ [lengthByte]). intros E. apply head_inj in E as (_ & _ & _ & E); [|done..]. left. cbn [app] in E. apply (f_equal tail) in E. cbn [tail] in E.
    apply app_inj_1 in E as [E _]; [done|by rewrite Hc, length_thash].
Qed.

Lemma pin_height pin c t : pin_ok pin -> tree_ok t -> io_Prefix (convertInnerOp pin) ++ c ++ io_Suffix (convertInnerOp pin) = tpre t -> pin_Height pin = theight t.
Proof.
  intros (_ & Hh & _) Hok. pose proof (tree_ok_int64 _ Hok) as (I1 & _). unfold tpre, tree_head, convertInnerOp. assert (int64 (pin_Height pin)) by (unfold int64; lia).
  destruct (nonempty (pin_Left pin)); cbn [io_Prefix io_Suffix]; rewrite <- !app_assoc; intros E; by apply varint_inj in E as [E _].
Qed.

Lemma leaf_string k x ver : lo_Prefix (convertLeafOp ver) ++ length_op LengthOp_VAR_PROTO k ++ length_op LengthOp_VAR_PROTO (sha256 x) = tpre (Leaf k x ver).
Proof. done. Qed.

Lemma leaf_binds k x ver t : short k -> int64 ver -> tree_ok t -> inj_on (hashed t ++ [x; tpre (Leaf k x ver)]) -> thash (Leaf k x ver) = thash t -> (k, x) ∈ leaves t.
Proof.
  intros Hk Hver Ht Hi E. pose proof (tree_ok_int64 _ Ht) as (I1 & I2 & I3). rewrite !thash_tpre in E.
  apply Hi in E; [|apply elem_of_app; right; right; left|apply elem_of_app; left; apply tpre_hashed]. unfold tpre, tree_head in E. apply head_inj in E as (Eh & _ & _ & E); [|done..].
  destruct t as [k' v' ver'|k' ver' l' r']; [|by destruct (theight_inner k' ver' l' r')]. pose proof (tree_ok_node _ Ht) as (Hk' & _ & _). apply bytes_inj in E as [-> E]; [|done..].
  rewrite <- (app_nil_r (EncodeBytes (sha256 x))), <- (app_nil_r (EncodeBytes (sha256 v'))) in E. apply bytes_inj in E as [E _]; [|unfold short, blen; rewrite length_sha256; lia..].
  apply Hi in E; [subst; left| |]; cbn [hashed]; rewrite elem_of_app, !elem_of_cons; tauto.
Qed.

Lemma path_binds k x ver path : short k -> int64 ver -> Forall pin_ok path -> forall t, tree_ok t -> inj_on (hashed t ++ proof_strings (converted path k x ver)) ->
  path_root path (apply_leaf (convertLeafOp ver) k x) = thash t -> (k, x) ∈ leaves t.
Proof.
  intros Hk Hver. induction path as [|pin path IH]; intros Hp t Ht Hi E.
  - cbn [path_root foldr] in E. rewrite apply_leaf_thash in E. by apply (leaf_binds k x ver).
  - apply Forall_cons in Hp as [Hpin Hp]. rewrite proof_strings_cons in Hi. cbn [path_root foldr] in E. change (foldr _ ?y path) with (path_root path y) in E.
    set (c := path_root path _) in *. rewrite thash_tpre in E. replace (apply_inner c (convertInnerOp pin)) with (sha256 (io_Prefix (convertInnerOp pin) ++ c ++ io_Suffix (convertInnerOp pin))) in E by (unfold apply_inner, convertInnerOp; by destruct (nonempty _)).
    apply Hi in E; [|rewrite !elem_of_app, list_elem_of_singleton; tauto|apply elem_of_app; left; apply tpre_hashed]. pose proof (pin_height _ _ _ Hpin Ht E) as Eh.
    destruct t as [k' v' ver'|k' ver' l r]; [by destruct Hpin|]. cbn [leaves]. rewrite elem_of_app.
    destruct (pin_binds pin c k' ver' l r Hpin Ht ltac:(apply length_path_root) E) as [Ec|Ec]; [left|right]; apply IH; eauto with iavl; eapply inj_on_sub; [|exact Hi| |exact Hi];
      cbn [hashed]; intros y; rewrite !elem_of_app, !elem_of_cons, !elem_of_app; tauto.
Qed.

(** The paths the code hands out list inner nodes only. *)
Lemma tpath_ok key t : tree_ok t -> Forall pin_ok (tpath key t).
Proof.
  induction t as [k v ver|k ver l IHl r IHr]; intros Hok; [constructor|]. pose proof (tree_ok_height _ Hok) as Hh. pose proof (tree_ok_int64 _ Hok) as (_ & Hs & Hv). pose proof (theight_inner k ver l r).
  assert (forall le ri, pin_ok (mkPIN (theight (Inner k ver l r)) (tsize (Inner k ver l r)) ver le ri)) as Hp by (intros; split_and!; cbn [pin_Height pin_Size pin_Version]; try done; lia).
  cbn [tpath]. destruct (bytes_ltb key k); constructor; eauto with iavl.
Qed.
