(* ===== verification/IavlMutableProps.v ===== *)
(** [Set] and [Remove] of the tree store refine setting and removing in the search
    tree that the nodes stand for. *)

From Stdlib Require Import ZArith Lia.
From stdpp Require Import base list gmap strings sorting.
From S2P Require Import Prelude KVStore Sha256 IavlEncoding IavlNode IavlSpec IavlRepr IavlIter IavlDb IavlMutable.
Open Scope Z_scope.
Open Scope go_scope.

(** * Trees stay within the limits *)

Lemma forall_subtrees_inner (Q : tree -> Prop) k ver l r :
  Forall Q (subtrees (Inner k ver l r)) <-> Q (Inner k ver l r) /\ Forall Q (subtrees l) /\ Forall Q (subtrees r).
Proof. cbn [subtrees]. by rewrite Forall_cons, Forall_app. Qed.

Lemma node_ok_inner k ver l r : short k -> 0 < ver < 2 ^ 63 -> node_ok (Inner k ver l r).
Proof. done. Qed.

Lemma tbalance_node_ok ver k l r : short k -> 0 < ver < 2 ^ 63 -> Forall node_ok (subtrees l) -> Forall node_ok (subtrees r) ->
  Forall node_ok (subtrees (tbalance ver k l r).1).
Proof.
  intros Hk Hv Hl Hr. assert (forall a b k', short k' -> Forall node_ok (subtrees a) -> Forall node_ok (subtrees b) -> Forall node_ok (subtrees (Inner k' ver a b))) as HI.
  { intros a b k' Hk' Ha Hb. by apply forall_subtrees_inner. }
  unfold tbalance. destruct (1 <? _); [|destruct (_ <? -1); [|by apply HI]].
  - destruct l as [|kl vl ll lr]; [by apply HI|]. apply forall_subtrees_inner in Hl as Hl'. destruct Hl' as ((Hkl & _) & Hll & Hlr). destruct (0 <=? _); [by apply HI; auto|].
    destruct lr as [|klr vlr lrl lrr]; [by apply HI|]. apply forall_subtrees_inner in Hlr as ((Hklr & _) & ? & ?). by apply HI; auto.
  - destruct r as [|kr vr rl rr]; [by apply HI|]. apply forall_subtrees_inner in Hr as Hr'. destruct Hr' as ((Hkr & _) & Hrl & Hrr). destruct (_ <=? 0); [by apply HI; auto|].
    destruct rl as [|krl vrl rll rlr]; [by apply HI|]. apply forall_subtrees_inner in Hrl as ((Hkrl & _) & ? & ?). by apply HI; auto.
Qed.

Lemma tset_node_ok ver k v t : short k -> short v -> 0 < ver < 2 ^ 63 -> Forall node_ok (subtrees t) -> Forall node_ok (subtrees (tset ver k v t).1.1).
Proof.
  intros Hk Hv Hver. induction t as [k0 v0 ver0|k0 ver0 l IHl r IHr]; cbn [tset]; intros Hf.
  - cbn [subtrees] in Hf. rewrite Forall_singleton in Hf. assert (node_ok (Leaf k v ver)) by done. destruct Hf as (Hk0 & ? & ?).
    destruct (bytes_compare k k0); cbn; rewrite ?Forall_cons, ?Forall_nil; split_and!; done.
  - apply forall_subtrees_inner in Hf as ((Hk0 & _ & _) & Hl & Hr). specialize (IHl Hl). specialize (IHr Hr). destruct (bytes_ltb k k0).
    + destruct (tset ver k v l) as [[l' u] os]. cbn [fst] in *. destruct u; [by apply forall_subtrees_inner|].
      pose proof (tbalance_node_ok ver k0 l' r Hk0 Hver IHl Hr). by destruct (tbalance ver k0 l' r).
    + destruct (tset ver k v r) as [[r' u] os]. cbn [fst] in *. destruct u; [by apply forall_subtrees_inner|].
      pose proof (tbalance_node_ok ver k0 l r' Hk0 Hver Hl IHr). by destruct (tbalance ver k0 l r').
Qed.

Lemma length_linsert k v l : Z.of_nat (length (linsert k v l)) <= Z.of_nat (length l) + 1.
Proof. induction l as [|[k0 v0] l IH]; cbn; [lia|]. destruct (bytes_compare k k0); cbn; lia. Qed.

Lemma length_linsert_in k v l : sorted_keys l -> k ∈ fst <$> l -> length (linsert k v l) = length l.
Proof.
  unfold sorted_keys. induction l as [|[k0 v0] l IH]; cbn [linsert fmap list_fmap fst]; [by intros _ ?%not_elem_of_nil|].
  intros Hs Hin. apply StronglySorted_inv in Hs as [Hs HF]. pose proof (compare_spec k k0) as C. destruct (bytes_compare k k0); [done| |]; apply elem_of_cons in Hin as [->|Hin]; try by apply bytes_lt_irrefl in C.
  - exfalso. eapply Forall_forall in HF; [|exact Hin]. apply (bytes_lt_irrefl k). by transitivity k0.
  - cbn. by rewrite IH.
Qed.

Lemma tset_size ver k v t : tree_ok t -> tsize (tset ver k v t).1.1 <= tsize t + 1 /\
  ((tset ver k v t).1.2 = true -> tsize (tset ver k v t).1.1 = tsize t) /\ ((tset ver k v t).1.2 = true -> theight (tset ver k v t).1.1 = theight t).
Proof.
  intros (Hb & Ha & _). pose proof (tset_spec ver k v t Hb) as H. pose proof (tset_avl ver k v t Ha) as H2. destruct (tset ver k v t) as [[t' u] os].
  destruct H as (Hl & Hu & _). destruct H2 as (_ & _ & Hh). cbn [fst snd]. rewrite !tsize_leaves, Hl. split_and!; [apply length_linsert| |done].
  intros ->. symmetry in Hu. apply bool_decide_eq_true in Hu. by rewrite length_linsert_in by (try apply bst_sorted; done).
Qed.

Lemma tset_ok ver k v t : tree_ok t -> tsize t + 1 < 2 ^ 63 -> short k -> short v -> 0 < ver < 2 ^ 63 -> tree_ok (tset ver k v t).1.1.
Proof.
  intros (Hb & Ha & _ & Hf) Hs Hk Hv Hver. pose proof (tset_spec ver k v t Hb) as H1. pose proof (tset_avl ver k v t Ha) as H2.
  pose proof (tset_node_ok ver k v t Hk Hv Hver Hf) as H3. destruct (tset ver k v t) as [[t' u] os]. cbn [fst] in *.
  destruct H1 as (Hl & _ & Hb' & _). destruct H2 as (Ha' & _). split_and!; try done.
  rewrite tsize_leaves in Hs. rewrite tsize_leaves, Hl. pose proof (length_linsert k v (leaves t)). lia.
Qed.

Lemma tremove_node_ok ver k t : 0 < ver < 2 ^ 63 -> Forall node_ok (subtrees t) ->
  match tremove ver k t with
  | None => True
  | Some (t', nk, _, _) => Forall node_ok (osubtrees t') /\ match nk with Some k' => short k' | None => True end
  end.
Proof.
  intros Hver. induction t as [k0 v0 ver0|k0 ver0 l IHl r IHr]; cbn [tremove]; intros Hf; [by case_bool_decide|].
  apply forall_subtrees_inner in Hf as ((Hk0 & _ & _) & Hl & Hr). specialize (IHl Hl). specialize (IHr Hr). destruct (bytes_ltb k k0).
  - destruct (tremove ver k l) as [[[[[l'|] nk] v] os]|]; cbn [mbind option_bind]; [|done..]. destruct IHl as [Hl' Hnk].
    pose proof (tbalance_node_ok ver k0 l' r Hk0 Hver Hl' Hr). destruct (tbalance ver k0 l' r). by split.
  - destruct (tremove ver k r) as [[[[[r'|] nk] v] os]|]; cbn [mbind option_bind]; [|done..]. destruct IHr as [Hr' Hnk].
    assert (short (default k0 nk)) as Hk' by (by destruct nk).
    pose proof (tbalance_node_ok ver _ l r' Hk' Hver Hl Hr'). destruct (tbalance ver _ l r'). by split.
Qed.

Lemma tremove_ok ver k t t' nk v os : tree_ok t -> 0 < ver < 2 ^ 63 -> tremove ver k t = Some (Some t', nk, v, os) -> tree_ok t'.
Proof.
  intros (Hb & Ha & Hs & Hf) Hver E. pose proof (tremove_spec ver k t Hb) as H1. pose proof (tremove_avl ver k t Ha) as H2. pose proof (tremove_node_ok ver k t Hver Hf) as H3.
  rewrite E in *. destruct H1 as (_ & Hl & Hb' & _). destruct H2 as (Ha' & _). destruct H3 as [Hf' _]. split_and!; try done.
  rewrite tsize_leaves in *. cbn [oleaves] in Hl. rewrite Hl. unfold lremove. pose proof (length_filter (fun e => e.1 <> k) (leaves t)). lia.
Qed.

(** * Nodes under construction *)

Section Refine.
  Context (db : database) (P Q : tree -> Prop) (ver : Z).
  Hypothesis P_stored : forall t, P t -> stored db t.
  Hypothesis P_left : forall k ver l r, P (Inner k ver l r) -> P l.
  Hypothesis P_right : forall k ver l r, P (Inner k ver l r) -> P r.
  Hypothesis Q_new : forall t, tversion t = ver -> Q t.

(** A node that stands for a tree and was not saved or hashed yet. *)
Definition fresh (n : Node) (t : tree) : Prop := repr P Q n t /\ n_hash n = None /\ n_persisted n = false.

(** A new inner node whose height and size are not computed yet. *)
Definition shell (n : Node) (k : bytes) (ver : Z) (l r : tree) : Prop :=
  n_key n = k /\ n_version n = ver /\ n_value n = None /\ n_hash n = None /\ n_persisted n = false /\
  child P Q (n_leftHash n) (n_leftNode n) l /\ child P Q (n_rightHash n) (n_rightNode n) r.

Lemma repr_inner n k ver0 l r : repr P Q n (Inner k ver0 l r) <->
  n_key n = k /\ n_version n = ver0 /\ n_size n = tsize l + tsize r /\ n_height n = 1 + Z.max (theight l) (theight r) /\ hash_of (n_hash n) (Inner k ver0 l r) /\
  (if n_persisted n then n_hash n = Some (thash (Inner k ver0 l r)) /\ P (Inner k ver0 l r) /\ n_leftNode n = None /\ n_rightNode n = None else Q (Inner k ver0 l r)) /\ n_value n = None /\
  child P Q (n_leftHash n) (n_leftNode n) l /\ child P Q (n_rightHash n) (n_rightNode n) r.
Proof. done. Qed.

Lemma child_none (t : tree) : ~ child P Q None None t.
Proof. by intros [? _]. Qed.

Lemma child_hash n t : repr P Q n t -> child P Q (n_hash n) (Some n) t.
Proof. intros H. split; [done|]. destruct t; cbn [repr] in H; tauto. Qed.

Lemma child_load h c t : child P Q h c t -> tree_ok t -> exists n, match c with Some n => Ok n | None => GetNode db h end = Ok n /\ repr P Q n t.
Proof.
  intros H Hok. destruct c as [n|]; cbn in H.
  - exists n. by destruct H.
  - destruct H as [-> HP]. exists (loaded t). split; [apply GetNode_stored; auto|]. by apply (repr_loaded P Q).
Qed.

Lemma clone_shell n k ver0 l r : repr P Q n (Inner k ver0 l r) ->
  exists n', clone ver n = Ok n' /\ shell n' k ver l r /\ n_size n' = tsize l + tsize r /\ n_height n' = 1 + Z.max (theight l) (theight r).
Proof.
  intros Hn. unfold clone. rewrite (repr_isLeaf P Q n _ Hn). apply repr_inner in Hn as (? & ? & ? & ? & _ & _ & ? & ? & ?). eexists. split; [done|]. by split_and!.
Qed.

Lemma shell_repr n k l r : shell n k ver l r -> n_size n = tsize l + tsize r -> n_height n = 1 + Z.max (theight l) (theight r) -> fresh n (Inner k ver l r).
Proof.
  intros (? & ? & ? & Hh & Hp & ? & ?) Hs Hht. split; [|done]. apply repr_inner. rewrite Hh, Hp. split_and!; try done; [by left|by apply Q_new].
Qed.

Lemma calc_shell n k l r cl cr : shell n k ver l r -> getLeftNode db n = Ok cl -> repr P Q cl l -> getRightNode db n = Ok cr -> repr P Q cr r ->
  theight l <= 126 -> theight r <= 126 -> tsize l + tsize r < 2 ^ 63 ->
  exists n', calcHeightAndSize db n = Ok n' /\ fresh n' (Inner k ver l r) /\ n_leftNode n' = n_leftNode n /\ n_rightNode n' = n_rightNode n.
Proof.
  intros Hn El Hl Er Hr Hhl Hhr Hs. unfold calcHeightAndSize. rewrite El, Er. cbn [mbind result_bind]. eexists. split; [done|].
  destruct (repr_fields P Q cl l Hl) as (_ & _ & -> & ->). destruct (repr_fields P Q cr r Hr) as (_ & _ & -> & ->).
  pose proof (theight_nonneg l). pose proof (theight_nonneg r). pose proof (tsize_pos l). pose proof (tsize_pos r).
  split; [|done]. destruct Hn as (? & ? & ? & ? & ? & ? & ?). apply shell_repr; [by split_and!| |]; cbn [n_size n_height].
  - apply wrapS_small; lia.
  - unfold maxInt8. destruct (Z.ltb_spec (theight r) (theight l)); rewrite wrapS_small by lia; lia.
Qed.

(** Children that can be loaded. *)
Lemma calc_children n k l r : shell n k ver l r -> tree_ok l -> tree_ok r -> tsize l + tsize r < 2 ^ 63 ->
  exists n', calcHeightAndSize db n = Ok n' /\ fresh n' (Inner k ver l r).
Proof.
  intros Hn Hl Hr Hs. pose proof Hn as (_ & _ & _ & _ & _ & Cl & Cr). destruct (child_load _ _ _ Cl Hl) as (cl & El & Rl). destruct (child_load _ _ _ Cr Hr) as (cr & Er & Rr).
  pose proof (tree_ok_height l Hl). pose proof (tree_ok_height r Hr).
  destruct (calc_shell n k l r cl cr) as (n' & E & F & _); try done; [lia..|]. by exists n'.
Qed.

(** * Rotations and balancing *)

Definition cloned (ver : Z) (n : Node) : Node :=
  mkNode (n_key n) None None (n_leftHash n) (n_rightHash n) ver (n_size n) (n_leftNode n) (n_rightNode n) (n_height n) false.

Lemma clone_inner ver1 n : isLeaf n = false -> clone ver1 n = Ok (cloned ver1 n).
Proof. unfold clone. by intros ->. Qed.
Lemma getLeftNode_cloned ver1 n : getLeftNode db (cloned ver1 n) = getLeftNode db n.
Proof. done. Qed.
Lemma getRightNode_cloned ver1 n : getRightNode db (cloned ver1 n) = getRightNode db n.
Proof. done. Qed.

(** The subtrees a double rotation builds first are within the limits. *)
Lemma tree_ok_lr ver1 kl vl ll klr vlr lrl lrr : 0 < ver1 < 2 ^ 63 -> tree_ok (Inner kl vl ll (Inner klr vlr lrl lrr)) -> theight ll < 1 + Z.max (theight lrl) (theight lrr) ->
  tree_ok (Inner kl ver1 ll lrl).
Proof.
  intros Hv (Hb & Ha & Hs & Hf) Hh. destruct Hb as (? & (? & ? & _) & Fl & Hhd). destruct Ha as (? & (? & ? & ?) & ?). cbn [leaves] in Hhd. rewrite head_keys_app in Hhd by apply leaves_nonempty.
  rewrite !forall_subtrees_inner in Hf. destruct Hf as ((? & _) & ? & _ & ? & ?). cbn [theight tsize] in *. pose proof (tsize_pos lrr).
  split_and!; [by split_and!|cbn [avl]; split_and!; try done; lia|cbn [tsize]; lia|by apply forall_subtrees_inner].
Qed.

Lemma tree_ok_rl ver1 kr vr krl vrl rll rlr rr : 0 < ver1 < 2 ^ 63 -> tree_ok (Inner kr vr (Inner krl vrl rll rlr) rr) -> theight rr < 1 + Z.max (theight rll) (theight rlr) ->
  tree_ok (Inner kr ver1 rlr rr).
Proof.
  intros Hv (Hb & Ha & Hs & Hf) Hh. destruct Hb as ((? & ? & _) & ? & Fl & Hhd). destruct Ha as ((? & ? & ?) & ? & ?). cbn [leaves] in Fl. rewrite fmap_app, Forall_app in Fl. destruct Fl as [_ Fl].
  rewrite !forall_subtrees_inner in Hf. destruct Hf as ((? & _) & (_ & ? & ?) & ?). cbn [theight tsize] in *. pose proof (tsize_pos rll).
  split_and!; [by split_and!|cbn [avl]; split_and!; try done; lia|cbn [tsize]; lia|by apply forall_subtrees_inner].
Qed.

Lemma rotateRight_repr n o k kl vl ll lr r : isLeaf n = false -> n_key n = k -> getLeftNode db n = Ok o -> repr P Q o (Inner kl vl ll lr) ->
  child P Q (n_rightHash n) (n_rightNode n) r -> tree_ok ll -> tree_ok lr -> tree_ok r -> tsize ll + tsize lr + tsize r < 2 ^ 63 ->
  exists n', rotateRight db ver n = Ok (n', o) /\ fresh n' (Inner kl ver ll (Inner k ver lr r)).
Proof.
  intros Hleaf Hk El Ho Cr Hll Hlr Hr Hs. pose proof (tsize_pos ll). pose proof (tsize_pos lr).
  unfold rotateRight. rewrite (clone_inner ver n Hleaf). cbn [mbind result_bind]. rewrite getLeftNode_cloned, El. cbn [mbind result_bind].
  destruct (clone_shell o kl vl ll lr Ho) as (n2 & -> & (H1 & H2 & H3 & H4 & H5 & Cll & Clr) & _). cbn [mbind result_bind].
  match goal with |- context [calcHeightAndSize db (with_left ?h ?c ?n1)] => set (m := with_left h c n1) end.
  destruct (calc_children m k lr r) as (n3 & -> & F3); [by split_and!|done..|lia|]. cbn [mbind result_bind].
  destruct F3 as (R3 & Hh3 & Hp3). destruct (child_load _ _ _ Cll Hll) as (cll & Ell & Rll).
  pose proof (tree_ok_height ll Hll). pose proof (tree_ok_height lr Hlr). pose proof (tree_ok_height r Hr).
  destruct (calc_shell (with_right (n_hash n3) (Some n3) n2) kl ll (Inner k ver lr r) cll n3) as (n' & -> & F & _);
    [|done|done|done|done|lia|cbn [theight]; lia|cbn [tsize]; lia|by exists n'].
  split_and!; try done. by apply child_hash.
Qed.

Lemma rotateLeft_repr n o k kr vr l rl rr : isLeaf n = false -> n_key n = k -> getRightNode db n = Ok o -> repr P Q o (Inner kr vr rl rr) ->
  child P Q (n_leftHash n) (n_leftNode n) l -> tree_ok l -> tree_ok rl -> tree_ok rr -> tsize l + tsize rl + tsize rr < 2 ^ 63 ->
  exists n', rotateLeft db ver n = Ok (n', o) /\ fresh n' (Inner kr ver (Inner k ver l rl) rr).
Proof.
  intros Hleaf Hk Er Ho Cl Hl Hrl Hrr Hs. pose proof (tsize_pos rl). pose proof (tsize_pos rr).
  unfold rotateLeft. rewrite (clone_inner ver n Hleaf). cbn [mbind result_bind]. rewrite getRightNode_cloned, Er. cbn [mbind result_bind].
  destruct (clone_shell o kr vr rl rr Ho) as (n2 & -> & (H1 & H2 & H3 & H4 & H5 & Crl & Crr) & _). cbn [mbind result_bind].
  match goal with |- context [calcHeightAndSize db (with_right ?h ?c ?n1)] => set (m := with_right h c n1) end.
  destruct (calc_children m k l rl) as (n3 & -> & F3); [by split_and!|done..|lia|]. cbn [mbind result_bind].
  destruct F3 as (R3 & Hh3 & Hp3). destruct (child_load _ _ _ Crr Hrr) as (crr & Err & Rrr).
  pose proof (tree_ok_height l Hl). pose proof (tree_ok_height rl Hrl). pose proof (tree_ok_height rr Hrr).
  destruct (calc_shell (with_left (n_hash n3) (Some n3) n2) kr (Inner k ver l rl) rr n3 crr) as (n' & -> & F & _);
    [|done|done|done|done|cbn [theight]; lia|lia|cbn [tsize]; lia|by exists n'].
  split_and!; try done. by apply child_hash.
Qed.

(** The difference of the heights of the children. *)
Lemma calcBalance_repr n k ver0 l r : repr P Q n (Inner k ver0 l r) -> tree_ok l -> tree_ok r -> calcBalance db n = Ok (theight l - theight r).
Proof.
  intros (_ & _ & _ & _ & _ & _ & _ & Cl & Cr)%repr_inner Hl Hr. unfold calcBalance, getLeftNode, getRightNode.
  destruct (child_load _ _ _ Cl Hl) as (cl & -> & Rl). destruct (child_load _ _ _ Cr Hr) as (cr & -> & Rr). cbn [mbind result_bind].
  destruct (repr_fields P Q cl l Rl) as (_ & _ & _ & ->). by destruct (repr_fields P Q cr r Rr) as (_ & _ & _ & ->).
Qed.

Ltac forall2_cons := repeat first [apply Forall2_cons_2|apply Forall2_nil_2].

Lemma balance_repr n k l r : 0 < ver < 2 ^ 63 -> fresh n (Inner k ver l r) -> tree_ok l -> tree_ok r -> tsize l + tsize r < 2 ^ 63 ->
  let '(t', bo) := tbalance ver k l r in exists n' os, balance db ver n = Ok (n', os) /\ fresh n' t' /\ Forall2 (repr P Q) os bo.
Proof.
  intros Hver (Hn & Hh & Hp) Hl Hr Hs. unfold balance, tbalance. rewrite Hp, (calcBalance_repr n k ver l r) by done. cbn [mbind result_bind].
  pose proof (repr_isLeaf P Q n _ Hn) as Hleaf. cbn iota in Hleaf. pose proof Hn as (Hk & _ & _ & _ & _ & _ & Hv & Cl & Cr)%repr_inner.
  pose proof (theight_nonneg l). pose proof (theight_nonneg r). pose proof (tsize_pos l). pose proof (tsize_pos r).
  destruct (child_load _ _ _ Cl Hl) as (cl & El & Rl). destruct (child_load _ _ _ Cr Hr) as (cr & Er & Rr).
  fold (getLeftNode db n) in El. fold (getRightNode db n) in Er. destruct (Z.ltb_spec 1 (theight l - theight r)); [|destruct (Z.ltb_spec (theight l - theight r) (-1))].
  - rewrite El. cbn [mbind result_bind]. destruct l as [|kl vl ll lr]; cbn [theight] in *; [lia|].
    pose proof (tree_ok_left _ _ _ _ Hl) as Hll. pose proof (tree_ok_right _ _ _ _ Hl) as Hlr. cbn [tsize] in *.
    rewrite (calcBalance_repr cl kl vl ll lr) by done. cbn [mbind result_bind]. destruct (Z.leb_spec 0 (theight ll - theight lr)).
    + destruct (rotateRight_repr n cl k kl vl ll lr r) as (n' & -> & F); try done. exists n', [cl]. split_and!; [done|done|by forall2_cons].
    + destruct lr as [|klr vlr lrl lrr]; cbn [theight] in *; [pose proof (theight_nonneg ll); lia|]. cbn [tsize] in *.
      pose proof Rl as (Hkl & _ & _ & _ & _ & _ & _ & Cll & Clr)%repr_inner. destruct (child_load _ _ _ Clr Hlr) as (clr & Elr & Rlr). fold (getRightNode db cl) in Elr.
      pose proof (tsize_pos lrl). pose proof (tsize_pos lrr). pose proof (tsize_pos ll).
      destruct (rotateLeft_repr cl clr kl klr vlr ll lrl lrr) as (l' & -> & Fl'); try done; eauto with iavl; [by rewrite (repr_isLeaf P Q _ _ Rl)|lia|]. cbn [mbind result_bind].
      assert (tree_ok (Inner kl ver ll lrl)) by (eapply tree_ok_lr; [done|exact Hl|lia]).
      destruct (rotateRight_repr (with_left None (Some l') n) l' k klr ver (Inner kl ver ll lrl) lrr r) as (n' & -> & F); try done; eauto with iavl; [apply Fl'|cbn [tsize]; lia|].
      exists n', [cl; clr; l']. split_and!; [done|done|]. forall2_cons; try done. apply Fl'.
  - rewrite Er. cbn [mbind result_bind]. destruct r as [|kr vr rl rr]; cbn [theight] in *; [lia|].
    pose proof (tree_ok_left _ _ _ _ Hr) as Hrl. pose proof (tree_ok_right _ _ _ _ Hr) as Hrr. cbn [tsize] in *.
    rewrite (calcBalance_repr cr kr vr rl rr) by done. cbn [mbind result_bind]. destruct (Z.leb_spec (theight rl - theight rr) 0).
    + destruct (rotateLeft_repr n cr k kr vr l rl rr) as (n' & -> & F); try done; [lia|]. exists n', [cr]. split_and!; [done|done|by forall2_cons].
    + destruct rl as [|krl vrl rll rlr]; cbn [theight] in *; [pose proof (theight_nonneg rr); lia|]. cbn [tsize] in *.
      pose proof Rr as (Hkr & _ & _ & _ & _ & _ & _ & Crl & Crr)%repr_inner. destruct (child_load _ _ _ Crl Hrl) as (crl & Erl & Rrl). fold (getLeftNode db cr) in Erl.
      pose proof (tsize_pos rll). pose proof (tsize_pos rlr). pose proof (tsize_pos rr).
      destruct (rotateRight_repr cr crl kr krl vrl rll rlr rr) as (r' & -> & Fr'); try done; eauto with iavl; [by rewrite (repr_isLeaf P Q _ _ Rr)|lia|]. cbn [mbind result_bind].
      assert (tree_ok (Inner kr ver rlr rr)) by (eapply tree_ok_rl; [done|exact Hr|lia]).
      destruct (rotateLeft_repr (with_right None (Some r') n) r' k krl ver l rll (Inner kr ver rlr rr)) as (n' & -> & F); try done; eauto with iavl; [apply Fr'|cbn [tsize]; lia|].
      exists n', [cr; r'; crl]. split_and!; [done|done|]. forall2_cons; try done. apply Fr'.
  - by exists n, [].
Qed.

(** The height, the size and the balance of a changed node. *)
Lemma rebalance_repr m k l r : 0 < ver < 2 ^ 63 -> shell m k ver l r -> tree_ok l -> tree_ok r -> tsize l + tsize r < 2 ^ 63 ->
  exists m' n' os, calcHeightAndSize db m = Ok m' /\ balance db ver m' = Ok (n', os) /\ fresh n' (tbalance ver k l r).1 /\ Forall2 (repr P Q) os (tbalance ver k l r).2.
Proof.
  intros Hver Hm Hl Hr Hs. destruct (calc_children m k l r Hm Hl Hr Hs) as (m' & Em & Fm).
  pose proof (balance_repr m' k l r Hver Fm Hl Hr Hs) as Hb. destruct (tbalance ver k l r) as [t' bo]. destruct Hb as (n' & os & Eb & F & HF). by exists m', n', os.
Qed.

(** * Setting *)

(** The state after the addition is noted for the fast index. *)
Definition noted (k v : bytes) (ver : Z) (s : MutableTree) : MutableTree :=
  (unless_skip (addUnsavedAddition k (mkFast k ver v)) s).1.

Lemma unless_skip_noted k v ver1 s : unless_skip (addUnsavedAddition k (mkFast k ver1 v)) s = (noted k v ver1 s, Ok tt).
Proof. unfold noted, unless_skip. by destruct (skipFastStorageUpgrade s). Qed.

Lemma noted_fields k v ver1 s : tdb (noted k v ver1 s) = tdb s /\ version (noted k v ver1 s) = version s /\ ndb (noted k v ver1 s) = ndb s /\
  root (noted k v ver1 s) = root s /\ mt_orphans (noted k v ver1 s) = mt_orphans s /\ lastSaved (noted k v ver1 s) = lastSaved s /\
  mt_versions (noted k v ver1 s) = mt_versions s /\ allRootLoaded (noted k v ver1 s) = allRootLoaded s /\ skipFastStorageUpgrade (noted k v ver1 s) = skipFastStorageUpgrade s.
Proof. unfold noted, unless_skip. destruct (skipFastStorageUpgrade s) eqn:E; by split_and!. Qed.

Lemma fresh_leaf k v : fresh (NewNode k v ver) (Leaf k v ver).
Proof. unfold fresh, NewNode. cbn. unfold hash_of. split_and!; auto; done. Qed.

Lemma fresh_inner2 k ln rn l r : repr P Q ln l -> repr P Q rn r -> tsize l + tsize r = 2 -> Z.max (theight l) (theight r) = 0 -> fresh (inner2 k ln rn ver) (Inner k ver l r).
Proof.
  intros Hl Hr Hs Hh. split; [|done]. apply repr_inner. cbn. rewrite Hs, Hh. unfold hash_of. split_and!; auto; done.
Qed.

Lemma recursiveSet_repr k v t : forall fuel s n, tdb s = db -> repr P Q n t -> tree_ok t -> (Z.to_nat (theight t) < fuel)%nat -> tsize t + 1 < 2 ^ 63 ->
  short k -> short v -> 0 < ver < 2 ^ 63 -> i64 (version s + 1) = ver ->
  let '(t', u, os') := tset ver k v t in
  exists n' os, recursiveSet fuel n k v s = (noted k v ver s, Ok (n', u, os)) /\ fresh n' t' /\ Forall2 (repr P Q) os os'.
Proof.
  induction t as [k0 v0 ver0|k0 ver0 l IHl r IHr]; intros [|fuel] s n Hdb Hn Hok Hf Hs Hk Hv Hver Hvs; try lia; cbn [tset recursiveSet];
    unfold bind at 1, gets at 1; rewrite (repr_isLeaf P Q n _ Hn); rewrite Hvs.
  - unfold bind at 1. rewrite unless_skip_noted. destruct (repr_fields P Q n _ Hn) as (-> & _). cbn [tkey]. unfold ret.
    destruct (bytes_compare k k0); do 2 eexists; (split; [reflexivity|]); (split; [|by forall2_cons]).
    + apply fresh_leaf.
    + apply fresh_inner2; [apply fresh_leaf|done..].
    + apply fresh_inner2; [done|apply fresh_leaf|done..].
  - unfold bind at 1, of_res at 1. rewrite (clone_inner ver n) by (by rewrite (repr_isLeaf P Q n _ Hn)).
    pose proof Hn as (Hkey & _ & Hsz & Hht & _ & _ & _ & Cl & Cr)%repr_inner. cbn [cloned n_key]. rewrite Hkey. cbn [tkey].
    pose proof (tree_ok_left _ _ _ _ Hok) as Hl. pose proof (tree_ok_right _ _ _ _ Hok) as Hr. pose proof (theight_nonneg l). pose proof (theight_nonneg r).
    cbn [theight tsize] in *. pose proof (tsize_pos l). pose proof (tsize_pos r). destruct (noted_fields k v ver s) as (Hdb' & Hv' & _). destruct (bytes_ltb k k0).
    + destruct (child_load _ _ _ Cl Hl) as (cl & El & Rl). fold (getLeftNode db n) in El. specialize (IHl fuel s cl Hdb Rl Hl ltac:(lia) ltac:(lia) Hk Hv Hver Hvs).
      pose proof (tset_ok ver k v l Hl ltac:(lia) Hk Hv Hver) as Hl'. pose proof (tset_size ver k v l Hl) as (Hsl & Hsu & Hhu).
      destruct (tset ver k v l) as [[l' u] os']. cbn [fst snd] in *. destruct IHl as (nl & os & E & (Rl' & Fh & Fp) & HF).
      unfold bind, reading at 1. rewrite Hdb, getLeftNode_cloned, El, E. cbn [ret]. destruct u.
      * specialize (Hsu eq_refl). specialize (Hhu eq_refl). do 2 eexists. split; [reflexivity|]. split; [|by constructor]. apply shell_repr; [|cbn; lia..].
        split_and!; try done. split; [done|by left].
      * destruct (rebalance_repr (with_left None (Some nl) (cloned ver n)) k0 l' r) as (m & n' & os2 & Ec & Eb & F & HF2); [done|split_and!; try done; by split; [|left]|done|done|lia|].
        destruct (tbalance ver k0 _ _) as [t' bo]. unfold reading. cbv beta iota. rewrite Hdb', Hdb, Ec. cbv beta iota. rewrite ?Hdb', ?Hdb, Eb. do 2 eexists. split; [reflexivity|]. split; [done|]. constructor; [done|]. by apply Forall2_app.
    + destruct (child_load _ _ _ Cr Hr) as (cr & Er & Rr). fold (getRightNode db n) in Er. specialize (IHr fuel s cr Hdb Rr Hr ltac:(lia) ltac:(lia) Hk Hv Hver Hvs).
      pose proof (tset_ok ver k v r Hr ltac:(lia) Hk Hv Hver) as Hr'. pose proof (tset_size ver k v r Hr) as (Hsl & Hsu & Hhu).
      destruct (tset ver k v r) as [[r' u] os']. cbn [fst snd] in *. destruct IHr as (nr & os & E & (Rr' & Fh & Fp) & HF).
      unfold bind, reading at 1. rewrite Hdb, getRightNode_cloned, Er, E. cbn [ret]. destruct u.
      * specialize (Hsu eq_refl). specialize (Hhu eq_refl). do 2 eexists. split; [reflexivity|]. split; [|by constructor]. apply shell_repr; [|cbn; lia..].
        split_and!; try done. split; [done|by left].
      * destruct (rebalance_repr (with_right None (Some nr) (cloned ver n)) k0 l r') as (m & n' & os2 & Ec & Eb & F & HF2); [done|split_and!; try done; by split; [|left]|done|done|lia|].
        destruct (tbalance ver k0 _ _) as [t' bo]. unfold reading. cbv beta iota. rewrite Hdb', Hdb, Ec. cbv beta iota. rewrite ?Hdb', ?Hdb, Eb. do 2 eexists. split; [reflexivity|]. split; [done|]. constructor; [done|]. by apply Forall2_app.
Qed.

(** * Removing *)

(** What [recursiveRemove] returns for the outcome of [tremove]. *)
Definition removed (n : Node) (o : option (option tree * option bytes * bytes * list tree)) (x : removal) : Prop :=
  match o with
  | None => x = (n_hash n, Some n, None, None, [])
  | Some (t', nk, v, os') => exists h c os, x = (h, c, nk, Some v, os) /\ Forall2 (repr P Q) os os' /\ os <> [] /\
      match t' with None => h = None /\ c = None | Some t' => child P Q h c t' end
  end.

Lemma removed_nonempty {A} (l : list A) a : l ++ [a] <> [].
Proof. by destruct l. Qed.

Lemma app_nonempty {A} (l l' : list A) : l <> [] -> l ++ l' <> [].
Proof. by destruct l. Qed.

Lemma tsize_removed ver1 k t t' nk v os : tree_ok t -> tremove ver1 k t = Some (Some t', nk, v, os) -> tsize t' <= tsize t.
Proof.
  intros (Hb & _) E. pose proof (tremove_spec ver1 k t Hb) as H. rewrite E in H. destruct H as (_ & Hl & _). cbn [oleaves] in Hl.
  rewrite !tsize_leaves, Hl. unfold lremove. pose proof (length_filter (fun e => e.1 <> k) (leaves t)). lia.
Qed.

(** A node that lost a child, given the new child. *)
Lemma remove_rebalance n m k l r (vo : option bytes) (os : list Node) os' (o : Node) ot nk : 0 < ver < 2 ^ 63 -> shell m k ver l r -> tree_ok l -> tree_ok r -> tsize l + tsize r < 2 ^ 63 ->
  Forall2 (repr P Q) os os' -> repr P Q o ot -> forall v, vo = Some v ->
  exists x, (m' ← calcHeightAndSize db m; '(n', bo) ← balance db ver m'; Ok (n_hash n', Some n', nk, vo, (os ++ [o]) ++ bo)) = Ok x /\
    removed n (let '(t', bo) := tbalance ver k l r in Some (Some t', nk, v, (os' ++ [ot]) ++ bo)) x.
Proof.
  intros Hver Hm Hl Hr Hs HF Ho v ->. destruct (rebalance_repr m k l r Hver Hm Hl Hr Hs) as (m' & n' & bo' & -> & Eb & F & HF2). cbn [mbind result_bind].
  rewrite Eb. cbn [mbind result_bind]. eexists. split; [done|]. destruct (tbalance ver k l r) as [t' bo]. cbn [removed fst snd] in *.
  do 3 eexists. split; [done|]. split_and!; [|apply app_nonempty, removed_nonempty|apply child_hash, F].
  apply Forall2_app; [|done]. apply Forall2_app; [done|]. by constructor.
Qed.

Lemma with_key_shell m k k' l r : shell m k ver l r -> shell (with_key k' m) k' ver l r.
Proof. intros (? & ? & ? & ? & ? & ? & ?). by split_and!. Qed.

Lemma recursiveRemove_repr k t : forall fuel n, repr P Q n t -> tree_ok t -> (Z.to_nat (theight t) < fuel)%nat -> 0 < ver < 2 ^ 63 ->
  exists x, recursiveRemove fuel db ver k n = Ok x /\ removed n (tremove ver k t) x.
Proof.
  induction t as [k0 v0 ver0|k0 ver0 l IHl r IHr]; intros [|fuel] n Hn Hok Hf Hver; try lia; cbn [tremove recursiveRemove]; rewrite (repr_isLeaf P Q n _ Hn).
  - destruct (repr_fields P Q n _ Hn) as (Hk & _). rewrite Hk. cbn [tkey]. destruct (bool_decide_reflect (k = k0)); eexists; (split; [done|]); [|done].
    cbn [removed]. exists None, None, [n]. split_and!; [|by constructor|done..]. cbn [repr] in Hn. by destruct Hn as (_ & _ & _ & _ & _ & _ & -> & _).
  - pose proof Hn as (Hkey & _ & Hsz & Hht & _ & _ & Hval & Cl & Cr)%repr_inner. rewrite Hkey. cbn [tkey].
    pose proof (tree_ok_left _ _ _ _ Hok) as Hl. pose proof (tree_ok_right _ _ _ _ Hok) as Hr. pose proof (theight_nonneg l). pose proof (theight_nonneg r).
    pose proof Hok as (_ & _ & Hs & _). cbn [theight tsize] in *. pose proof (repr_isLeaf P Q n _ Hn) as Hleaf. cbn iota in Hleaf. destruct (bytes_ltb k k0).
    + destruct (child_load _ _ _ Cl Hl) as (cl & El & Rl). fold (getLeftNode db n) in El. rewrite El. cbn [mbind result_bind].
      destruct (IHl fuel cl Rl Hl ltac:(lia) Hver) as (x & -> & Hx). cbn [mbind result_bind].
      destruct (tremove ver k l) as [[[[l' nk] v] os']|] eqn:E; cbn [mbind option_bind removed] in *; [|subst x; cbn; by eexists].
      destruct Hx as (h & c & os & -> & HF & Hne & Hc). rewrite bool_decide_false by done. destruct l' as [l'|].
      * pose proof (tsize_removed _ _ _ _ _ _ _ Hl E). pose proof (tremove_ok _ _ _ _ _ _ _ Hl Hver E) as Hl'.
        destruct (remove_rebalance n (with_left h c (cloned ver n)) k0 l' r (Some v) os os' n (Inner k0 ver0 l r) nk) with (v := v) as (y & Ey & Hy); try done; [lia|].
        exists y. split; [|done]. rewrite (clone_inner ver n) by done. cbn [mbind result_bind]. by destruct h, c.
      * destruct Hc as [-> ->]. eexists. split; [done|]. do 3 eexists. split; [done|]. split_and!; [|apply removed_nonempty|done]. apply Forall2_app; [done|]. by constructor.
    + destruct (child_load _ _ _ Cr Hr) as (cr & Er & Rr). fold (getRightNode db n) in Er. rewrite Er. cbn [mbind result_bind].
      destruct (IHr fuel cr Rr Hr ltac:(lia) Hver) as (x & -> & Hx). cbn [mbind result_bind].
      destruct (tremove ver k r) as [[[[r' nk] v] os']|] eqn:E; cbn [mbind option_bind removed] in *; [|subst x; cbn; by eexists].
      destruct Hx as (h & c & os & -> & HF & Hne & Hc). rewrite bool_decide_false by done. destruct r' as [r'|].
      * pose proof (tsize_removed _ _ _ _ _ _ _ Hr E). pose proof (tremove_ok _ _ _ _ _ _ _ Hr Hver E) as Hr'.
        set (m := with_right h c (cloned ver n)). assert (shell m k0 ver l r') as Hm by (by split_and!).
        assert (shell (match nk with Some k => with_key k m | None => m end) (default k0 nk) ver l r') as Hm' by (destruct nk; [by eapply with_key_shell|done]).
        destruct (remove_rebalance n _ (default k0 nk) l r' (Some v) os os' n (Inner k0 ver0 l r) None Hver Hm') with (v := v) as (y & Ey & Hy); try done; [lia|].
        exists y. split; [|done]. rewrite (clone_inner ver n) by done. cbn [mbind result_bind]. destruct h, c; [done..|]. by apply child_none in Hc.
      * destruct Hc as [-> ->]. eexists. split; [done|]. do 3 eexists. split; [done|]. split_and!; [|apply removed_nonempty|done]. apply Forall2_app; [done|]. by constructor.
Qed.
End Refine.
