(* ===== verification/IavlStore.v ===== *)
(** What the database of the tree store holds, as a function of the available
    versions and their trees: a root entry per version, an entry for every node of
    every version, and an orphan entry for every node the latest version does not have,
    under the last version that has it.  Nothing else is stored under those prefixes:
    what a deleted version leaves behind is exactly what the remaining versions need. *)

From Stdlib Require Import ZArith Lia.
From stdpp Require Import base list gmap strings sorting.
From S2P Require Import Prelude KVStore Sha256 IavlEncoding IavlNode IavlSpec IavlRepr IavlIter IavlDb IavlMutable IavlMutableProps.
Open Scope Z_scope.
Open Scope go_scope.

(** * Histories *)

(** The available versions; a version may be the empty tree. *)
Abbreviation history := (gmap Z (option tree)).

Definition rkey (v : Z) : bytes := 114 :: be8 (u64 v).
Definition okey (to from : Z) (h : bytes) : bytes := 111 :: be8 (u64 to) ++ be8 (u64 from) ++ h.

Definition root_hash (t : option tree) : bytes := match t with None => [] | Some t => thash t end.

Definition member (hist : history) (v : Z) (s : tree) : Prop := exists t, hist !! v = Some (Some t) /\ s ∈ subtrees t.

(** [v] is the last version that has the node. *)
Definition last_in (hist : history) (v : Z) (s : tree) : Prop := member hist v s /\ forall w, v < w -> ~ member hist w s.

Inductive entry (hist : history) (L : Z) : bytes -> bytes -> Prop :=
| entry_root v t : hist !! v = Some t -> entry hist L (rkey v) (root_hash t)
| entry_node v s : member hist v s -> entry hist L (nkey (thash s)) (tbytes s)
| entry_orphan v s : last_in hist v s -> v < L -> entry hist L (okey v (tversion s) (thash s)) (thash s).

Definition tree_key (k : bytes) : Prop := match k with c :: _ => c = 110 \/ c = 111 \/ c = 114 | [] => False end.

Definition is_store (hist : history) (L : Z) (db : database) : Prop := forall k b, tree_key k -> (db !! k = Some b <-> entry hist L k b).

(** [L] is the latest version, zero before the first one. *)
Record hist_ok (hist : history) (L : Z) : Prop := {
  ho_bound : 0 <= L < 2 ^ 62;
  ho_dom : forall v t, hist !! v = Some t -> 0 < v <= L;
  ho_last : 0 < L -> is_Some (hist !! L);
  ho_tree : forall v t, hist !! v = Some (Some t) -> tree_ok t;
  ho_ver : forall v s, member hist v s -> tversion s <= v;
  (** A node is in every version between the one that made it and one that has it. *)
  ho_between : forall v w s, is_Some (hist !! v) -> v <= w -> member hist w s -> tversion s <= v -> member hist v s;
  (** No two nodes have the same hash. *)
  ho_inj : forall v w s u, member hist v s -> member hist w u -> thash s = thash u -> s = u
}.

(** * Keys *)

Lemma rootKey_rkey v : rootKey v = Some (rkey v).
Proof.
  unfold rootKey, Key, KeyBytes, rootKeyFormat. cbn [layout length Nat.ltb Nat.leb fmap list_fmap]. rewrite key_segments_fits; [cbn; by rewrite app_nil_r|].
  cbn. unfold int64Size. constructor; [done|by rewrite length_be8|constructor].
Qed.

Lemma orphanKey_okey to from h : length h = 32%nat -> Key orphanKeyFormat [SegInt to; SegInt from; SegBytes h] = Some (okey to from h).
Proof.
  intros Hh. unfold Key, KeyBytes, orphanKeyFormat. cbn [layout length Nat.ltb Nat.leb fmap list_fmap]. rewrite key_segments_fits; [cbn; by rewrite app_nil_r|].
  cbn. unfold int64Size, hashSize. repeat (constructor; [done|by rewrite ?length_be8|]). constructor.
Qed.

Lemma orphan_prefix v : Key orphanKeyFormat [SegInt v] = Some (111 :: be8 (u64 v)).
Proof.
  unfold Key, KeyBytes, orphanKeyFormat. cbn [layout length Nat.ltb Nat.leb fmap list_fmap key_segments format]. unfold int64Size. cbn [Nat.eqb]. rewrite length_be8. cbn. done.
Qed.

Definition is_v (v : Z) : Prop := 0 <= v < 2 ^ 63.

Lemma u64_small v : is_v v -> u64 v = v.
Proof. intros H. apply wrapU_small. unfold is_v in H. lia. Qed.

Lemma rkey_inj v w : is_v v -> is_v w -> rkey v = rkey w -> v = w.
Proof. intros Hv Hw. unfold rkey. rewrite !u64_small by done. intros E%(f_equal tail). cbn [tail] in E. apply be8_inj in E; [done|unfold is_v in *; lia..]. Qed.

Lemma okey_inj a b c d h g : is_v a -> is_v b -> is_v c -> is_v d -> okey a b h = okey c d g -> a = c /\ b = d /\ h = g.
Proof.
  intros Ha Hb Hc Hd. unfold okey. rewrite !u64_small by done. intros E%(f_equal tail). cbn [tail] in E. apply app_inj_1 in E as [E1 E]; [|by rewrite !length_be8].
  apply app_inj_1 in E as [E2 E3]; [|by rewrite !length_be8]. apply be8_inj in E1, E2; unfold is_v in *; try lia. done.
Qed.

Lemma scan_root_rkey v : is_v v -> scan_root (rkey v) = Some v.
Proof.
  intros Hv. unfold scan_root, ScanBytes, rootKeyFormat, rkey. cbn [layout]. pose proof (scan_segments_fits [int64Size] [be8 (u64 v)]) as H.
  specialize (H ltac:(constructor; [done|by rewrite length_be8|constructor]) [114]). cbn [mjoin list_join foldr length app] in H. rewrite app_nil_r in H. rewrite H.
  apply (scan_format v). unfold is_v in Hv. lia.
Qed.

Lemma scan_orphan_okey to from h : is_v to -> is_v from -> length h = 32%nat -> scan_orphan (okey to from h) = Some (to, from).
Proof.
  intros Ht Hf Hh. unfold scan_orphan, ScanBytes, orphanKeyFormat, okey. cbn [layout].
  pose proof (scan_segments_fits [int64Size; int64Size; hashSize] [be8 (u64 to); be8 (u64 from); h]) as H.
  specialize (H ltac:(repeat (constructor; [done|by rewrite ?length_be8|]); constructor) [111]). cbn [mjoin list_join foldr length app] in H. rewrite app_nil_r in H. rewrite H.
  pose proof (scan_format to) as E1. pose proof (scan_format from) as E2. cbn [format] in E1, E2. unfold is_v in *. rewrite E1, E2 by lia. done.
Qed.

(** * Finding versions *)

(** [p] is the latest version before [v]; zero if there is none. *)
Definition prev (hist : history) (v p : Z) : Prop :=
  (p = 0 /\ forall w, is_Some (hist !! w) -> v <= w) \/ (is_Some (hist !! p) /\ p < v /\ forall w, is_Some (hist !! w) -> w < v -> w <= p).

Lemma elem_of_range_iter (lo hi : option bytes) (db : database) k b : (k, b) ∈ range_iter lo hi db <-> db !! k = Some b /\ in_domain lo hi k = true.
Proof. unfold range_iter. rewrite merge_sort_Permutation, list_elem_of_filter, elem_of_map_to_list. cbn. tauto. Qed.

Lemma range_iter_sorted (lo hi : option bytes) (db : database) : StronglySorted entry_le (range_iter lo hi db).
Proof. apply (StronglySorted_merge_sort entry_le). Qed.

Lemma NoDup_range_iter (lo hi : option bytes) (db : database) : NoDup (range_iter lo hi db).*1.
Proof.
  unfold range_iter. rewrite merge_sort_Permutation. eapply sublist_NoDup; [apply (NoDup_fst_map_to_list db)|]. apply fmap_sublist, sublist_filter.
Qed.

Lemma sorted_last {A} (R : A -> A -> Prop) (l : list A) x : StronglySorted R l -> last l = Some x -> x ∈ l /\ forall y, y ∈ l -> y = x \/ R y x.
Proof.
  induction l as [|a l IH]; intros Hs Hl; [done|]. apply StronglySorted_inv in Hs as [Hs HF]. destruct l as [|b l].
  - injection Hl as ->. split; [left|]. intros y ->%list_elem_of_singleton. by left.
  - destruct (IH Hs Hl) as [Hin Hle]. split; [by right|]. intros y [->|Hy]%elem_of_cons; [|auto]. right. by eapply Forall_forall in HF.
Qed.

Lemma between_prefix c a b k : bytes_le (c :: a) k -> bytes_lt k (c :: b) -> exists k', k = c :: k'.
Proof.
  intros H1 [H2 _]. destruct k as [|d k]; [done|]. exists k. f_equal. unfold bytes_le in *. cbn in *. 
  destruct (Z.ltb_spec c d), (Z.eqb_spec c d), (Z.ltb_spec d c), (Z.eqb_spec d c); cbn in *; try done; lia.
Qed.

Lemma rkey_le v w : is_v v -> is_v w -> (bytes_le (rkey v) (rkey w) <-> v <= w).
Proof.
  intros Hv Hw. unfold rkey. rewrite !u64_small by done. change (114 :: ?x) with ([114] ++ x). rewrite bytes_le_app_same. apply be8_le; unfold is_v in *; lia.
Qed.

Lemma rkey_lt v w : is_v v -> is_v w -> (bytes_lt (rkey v) (rkey w) <-> v < w).
Proof.
  intros Hv Hw. unfold bytes_lt. rewrite rkey_le by done. split; [intros [H N]|intros H; split; [lia|]].
  - destruct (Z.eq_dec v w) as [->|]; [done|lia].
  - intros E%rkey_inj; [lia|done..].
Qed.

Lemma entry_inv hist L k b : entry hist L k b ->
  (exists v t, k = rkey v /\ b = root_hash t /\ hist !! v = Some t) \/
  (exists v s, k = nkey (thash s) /\ b = tbytes s /\ member hist v s) \/
  (exists v s, k = okey v (tversion s) (thash s) /\ b = thash s /\ last_in hist v s /\ v < L).
Proof. destruct 1; [left; eauto|right; left; eauto|right; right; eauto 10]. Qed.

Lemma key_heads v to from h g : rkey v <> nkey h /\ rkey v <> okey to from g /\ nkey h <> okey to from g.
Proof. split_and!; by intros E%(f_equal head). Qed.

Section Store.
  Context (hist : history) (L : Z) (db : database).
  Hypothesis Hok : hist_ok hist L.
  Hypothesis Hst : is_store hist L db.

Lemma hist_is_v v : is_Some (hist !! v) -> is_v v /\ 0 < v.
Proof. intros [t Ht]. pose proof (ho_dom _ _ Hok _ _ Ht). pose proof (ho_bound _ _ Hok). unfold is_v. lia. Qed.

Lemma member_v v s : member hist v s -> is_Some (hist !! v).
Proof. intros (t & Ht & _). by eexists. Qed.

Lemma member_ok v s : member hist v s -> tree_ok s /\ is_v (tversion s) /\ 0 < tversion s.
Proof.
  intros (t & Ht & Hs). pose proof (tree_ok_subtree t s (ho_tree _ _ Hok _ _ Ht) Hs) as Hos. split; [done|].
  destruct (tree_ok_node s Hos) as (_ & H & _). unfold is_v. lia.
Qed.

Lemma root_lookup v : is_v v -> db !! rkey v = root_hash <$> hist !! v.
Proof.
  intros Hv. apply option_eq. intros b. rewrite (Hst (rkey v) b) by (right; by right). split.
  - intros [(w & t & Ek & -> & Ht)|[(w & s & Ek & _)|(w & s & Ek & _)]]%entry_inv; [|by apply (f_equal head) in Ek..].
    apply rkey_inj in Ek as ->; [by rewrite Ht|done|by apply hist_is_v; eexists].
  - destruct (hist !! v) as [t|] eqn:Et; [|done]. cbn. intros [= <-]. by constructor.
Qed.

Lemma roots_between v k b : is_v v -> (k, b) ∈ range_iter (rootKey 1) (rootKey v) db <-> exists w t, k = rkey w /\ b = root_hash t /\ hist !! w = Some t /\ w < v.
Proof.
  intros Hv. rewrite elem_of_range_iter, !rootKey_rkey. unfold in_domain. rewrite andb_true_iff, bytes_ltb_lt. fold (bytes_le (rkey 1) k). split.
  - intros (Hl & H1 & H2). destruct (between_prefix _ _ _ _ H1 H2) as [k' ->]. apply (Hst (114 :: k') b) in Hl; [|right; by right].
    apply entry_inv in Hl as [(w & t & Ek & -> & Ht)|[(w & s & Ek & _)|(w & s & Ek & _)]]; [|by apply (f_equal head) in Ek..]. exists w, t. split_and!; try done.
    rewrite Ek in H2. apply rkey_lt in H2; [done|by apply hist_is_v; eexists|done].
  - intros (w & t & -> & -> & Ht & Hw). destruct (hist_is_v w ltac:(by eexists)) as [Hiv Hp]. split_and!.
    + by rewrite root_lookup, Ht.
    + apply rkey_le; [unfold is_v; lia|done|lia].
    + by apply rkey_lt.
Qed.

Lemma getPreviousVersion_spec v n : nd_db n = db -> is_v v -> exists p, getPreviousVersion v n = (n, Ok p) /\ prev hist v p.
Proof.
  intros Hn Hv. unfold getPreviousVersion, bind, gets. rewrite Hn. destruct (last _) as [[k b]|] eqn:El.
  - apply (sorted_last entry_le) in El as [Hin Hle]; [|apply range_iter_sorted]. apply roots_between in Hin as (w & t & -> & -> & Ht & Hw); [|done].
    destruct (hist_is_v w ltac:(by eexists)) as [Hiv Hp]. rewrite scan_root_rkey by done. exists w. split; [done|]. right. split_and!; [by eexists|done|].
    intros w' [t' Ht'] Hw'. destruct (hist_is_v w' ltac:(by eexists)) as [Hiv' _]. destruct (Hle (rkey w', root_hash t')) as [E|E].
    + apply roots_between; [done|]. by exists w', t'.
    + apply (f_equal fst) in E. apply (rkey_inj w' w) in E; [lia|done..].
    + unfold entry_le in E. cbn in E. by apply rkey_le in E.
  - exists 0. split; [done|]. left. split; [done|]. intros w [t Ht]. destruct (Z.le_gt_cases v w) as [|Hlt]; [done|]. exfalso.
    apply last_None in El. assert ((rkey w, root_hash t) ∈ range_iter (rootKey 1) (rootKey v) db) as Hin by (apply roots_between; [done|by exists w, t]).
    rewrite El in Hin. by apply not_elem_of_nil in Hin.
Qed.

Lemma prev_unique v p q : prev hist v p -> prev hist v q -> p = q.
Proof.
  intros [[-> H1]|(Hp & H1 & H2)] [[-> H3]|(Hq & H3 & H4)]; [done| | |].
  - specialize (H1 q Hq). lia.
  - specialize (H3 p Hp). lia.
  - specialize (H2 q Hq H3). specialize (H4 p Hp H1). lia.
Qed.

Lemma prev_latest v : L < v -> prev hist v L.
Proof.
  intros Hv. pose proof (ho_bound _ _ Hok). destruct (Z.eq_dec L 0) as [E|E].
  - left. split; [done|]. intros w [t Ht]. pose proof (ho_dom _ _ Hok _ _ Ht). lia.
  - right. split_and!; [apply (ho_last _ _ Hok); lia|done|]. intros w [t Ht] _. pose proof (ho_dom _ _ Hok _ _ Ht). lia.
Qed.

Lemma getLatestVersion_spec n : nd_db n = db -> latestVersion n = 0 \/ latestVersion n = L ->
  exists n', getLatestVersion n = (n', Ok L) /\ n' = set_latestVersion L n.
Proof.
  intros Hn HL. unfold getLatestVersion, bind at 1, gets at 1. destruct (Z.eqb_spec (latestVersion n) 0) as [E|E].
  - destruct (getPreviousVersion_spec maxVersion n Hn) as (p & Ep & Hp); [unfold is_v, maxVersion; lia|]. pose proof (ho_bound _ _ Hok).
    assert (p = L) as -> by (apply (prev_unique _ _ _ Hp), prev_latest; unfold maxVersion; lia).
    unfold bind. rewrite Ep. by eexists.
  - destruct HL as [|HL]; [done|]. eexists. rewrite HL. split; [reflexivity|]. unfold set_latestVersion. rewrite <- HL. by destruct n.
Qed.
End Store.

#[export] Instance member_dec hist v s : Decision (member hist v s).
Proof.
  unfold member. destruct (hist !! v) as [[t|]|].
  - destruct (decide (s ∈ subtrees t)) as [H|H]; [left; by exists t|right; by intros (t' & [= <-] & H')].
  - right. by intros (t' & H & _).
  - right. by intros (t' & H & _).
Defined.

(** Every node of a version has a last version. *)
Lemma exists_last hist L : hist_ok hist L -> forall v s, member hist v s -> exists w, v <= w /\ last_in hist w s.
Proof.
  intros Hok v s. remember (Z.to_nat (L - v)) as n eqn:En. revert v En. induction (lt_wf n) as [n _ IH]. intros v -> Hs.
  destruct (decide (Exists (fun e => v < e.1 /\ member hist e.1 s) (map_to_list hist))) as [H|H].
  - apply Exists_exists in H as ([w t] & Hin & Hw & Hm). cbn in *. apply elem_of_map_to_list in Hin. pose proof (ho_dom _ _ Hok _ _ Hin).
    destruct (IH (Z.to_nat (L - w)) ltac:(lia) w eq_refl Hm) as (w' & ? & ?). exists w'. split; [lia|done].
  - exists v. split; [lia|]. split; [done|]. intros w Hw (t & Ht & Hst). apply H, Exists_exists. exists (w, Some t). split; [by apply elem_of_map_to_list|]. split; [done|]. by exists t.
Qed.

(** * Batches *)

Definition appends (n : nodeDB) (ws : list write) : nodeDB := set_db (nd_db n) (nd_batch n ++ ws) n.

(** The database once the batch is written. *)
Definition flush (n : nodeDB) : database := apply_batch (nd_batch n) (nd_db n).

Lemma appends_nil n : appends n [] = n.
Proof. unfold appends, set_db. rewrite app_nil_r. by destruct n. Qed.
Lemma appends_app n ws ws' : appends (appends n ws) ws' = appends n (ws ++ ws').
Proof. unfold appends, set_db. cbn. by rewrite <- app_assoc. Qed.
Lemma flush_appends n ws : flush (appends n ws) = apply_batch ws (flush n).
Proof. unfold flush, appends, apply_batch. cbn. apply foldl_app. Qed.

(** Writes that agree wherever they meet. *)
Definition functional (ws : list write) : Prop := forall k w w', (k, w) ∈ ws -> (k, w') ∈ ws -> w = w'.

Lemma apply_batch_other (ws : list write) (db : database) k : k ∉ ws.*1 -> apply_batch ws db !! k = db !! k.
Proof.
  unfold apply_batch. revert db. induction ws as [|[k0 w0] ws IH]; intros db Hk; cbn [foldl]; [done|].
  cbn in Hk. apply not_elem_of_cons in Hk as [Hne Hk]. rewrite IH by done. destruct w0; cbn; [by rewrite lookup_insert_ne|by rewrite lookup_delete_ne].
Qed.

Lemma apply_batch_in (ws : list write) (db : database) k w : functional ws -> (k, w) ∈ ws -> apply_batch ws db !! k = w.
Proof.
  revert db. induction ws as [|[k0 w0] ws IH]; intros db Hf Hin; [by apply not_elem_of_nil in Hin|].
  assert (functional ws) as Hf' by (intros x y z Hy Hz; eapply Hf; by right). change (apply_batch ((k0, w0) :: ws) db) with (apply_batch ws (apply_write db (k0, w0))).
  destruct (decide (k ∈ ws.*1)) as [Hk|Hk].
  - apply list_elem_of_fmap in Hk as ([k' w'] & -> & Hk). apply IH; [done|]. cbn in *. rewrite (Hf k' w w'); [done|done|by right].
  - rewrite apply_batch_other by done. apply elem_of_cons in Hin as [[= <- <-]|Hin].
    + destruct w; cbn; [by rewrite lookup_insert_eq|by rewrite lookup_delete_eq].
    + exfalso. apply Hk, list_elem_of_fmap. by exists (k, w).
Qed.

(** A write to a key decides it; the other keys are as before. *)
Lemma apply_batch_lookup (ws : list write) (db : database) k b : functional ws ->
  apply_batch ws db !! k = Some b <-> (k, Some b) ∈ ws \/ (db !! k = Some b /\ forall w, (k, w) ∉ ws).
Proof.
  intros Hf. destruct (decide (k ∈ ws.*1)) as [Hk|Hk].
  - apply list_elem_of_fmap in Hk as ([k' w'] & -> & Hk). cbn. rewrite (apply_batch_in ws db k' w') by done. split.
    + intros ->. by left.
    + intros [H|[_ H]]; [by apply (Hf k')|by apply H in Hk].
  - rewrite apply_batch_other by done. split.
    + intros H. right. split; [done|]. intros w Hw. apply Hk, list_elem_of_fmap. by exists (k, w).
    + intros [H|[H _]]; [|done]. exfalso. apply Hk, list_elem_of_fmap. by exists (k, Some b).
Qed.

(** A loop whose rounds append to the batch. *)
Lemma for_each_appends {A} (l : list A) (f : A -> DB unit) (g : A -> list write) n :
  (forall a m, a ∈ l -> nd_db m = nd_db n -> f a m = (appends m (g a), Ok tt)) -> for_each l f n = (appends n (mjoin (g <$> l)), Ok tt).
Proof.
  revert n. induction l as [|a l IH]; intros n Hf; cbn [for_each]; [by rewrite appends_nil|].
  unfold bind. rewrite Hf by (done || left). rewrite (IH (appends n (g a))); [by rewrite appends_app|].
  intros b m Hb Hm. apply Hf; [by right|done].
Qed.

Lemma mjoin_singletons {A B} (f : A -> B) (l : list A) : mjoin ((fun a => [f a]) <$> l) = f <$> l.
Proof. induction l as [|a l IH]; [done|]. cbn. f_equal. exact IH. Qed.

(** * Deleting a range of versions *)

Definition drop_range (a b : Z) (hist : history) : history := filter (fun e => ~ (a <= e.1 < b)) hist.

Lemma lookup_drop_range a b hist v : drop_range a b hist !! v = if bool_decide (a <= v < b) then None else hist !! v.
Proof.
  unfold drop_range. case_bool_decide as H.
  - apply map_lookup_filter_None. right. intros t _ Hn. by apply Hn.
  - destruct (hist !! v) eqn:E.
    + by apply map_lookup_filter_Some.
    + apply map_lookup_filter_None. by left.
Qed.

Lemma member_drop_range a b hist v s : member (drop_range a b hist) v s <-> member hist v s /\ ~ (a <= v < b).
Proof.
  unfold member. setoid_rewrite lookup_drop_range. case_bool_decide as H; [naive_solver|]. naive_solver.
Qed.

(** What happens to the orphan entry of [s] under [to] when [p] is the version before. *)
Definition orphan_writes (p to : Z) (s : tree) : list write :=
  (okey to (tversion s) (thash s), None) ::
  if p <? tversion s then [(nkey (thash s), None)] else [(okey p (tversion s) (thash s), Some (thash s))].

Definition entry_writes (p : Z) (e : bytes * bytes) : list write :=
  match scan_orphan e.1 with
  | None => []
  | Some (_, from) => (e.1, None) :: if p <? from then [(nkey e.2, None)] else [(okey p from e.2, Some e.2)]
  end.

Section Drop.
  Context (hist : history) (L : Z) (db : database) (a b p : Z).
  Hypothesis Hok : hist_ok hist L.
  Hypothesis Hst : is_store hist L db.
  Hypothesis Ha : 0 <= a.
  Hypothesis Hab : a < b.
  Hypothesis Hb : b <= L.
  Hypothesis Hp : prev hist a p.

Lemma member_is_v v s : member hist v s -> is_v v /\ 0 < v <= L.
Proof. intros (t & Ht & _). pose proof (ho_dom _ _ Hok _ _ Ht). pose proof (ho_bound _ _ Hok). unfold is_v. lia. Qed.

Lemma prefix_okey v w s : is_v v -> member hist w s -> is_prefix (111 :: be8 (u64 v)) (okey w (tversion s) (thash s)) = true <-> v = w.
Proof.
  intros Hv Hm. destruct (member_is_v w s Hm) as [Hw _]. rewrite is_prefix_true. unfold okey. split.
  - intros [rest E%(f_equal tail)]. cbn [tail] in E. change (((111 :: be8 (u64 v)) ++ rest)) with (111 :: (be8 (u64 v) ++ rest)) in E. cbn [tail] in E.
    apply app_inj_1 in E as [E _]; [|by rewrite !length_be8]. rewrite !u64_small in E by done. symmetry. apply be8_inj in E; [done|unfold is_v in *; lia..].
  - intros ->. by eexists.
Qed.

Lemma orphans_at v k h : is_v v -> (k, h) ∈ prefix_iter (111 :: be8 (u64 v)) db <->
  exists s, last_in hist v s /\ v < L /\ k = okey v (tversion s) (thash s) /\ h = thash s.
Proof.
  intros Hv. rewrite elem_of_prefix_iter. split.
  - intros [Hl Hpre]. pose proof Hpre as [rest Ek]%is_prefix_true. apply (Hst k h) in Hl; [|rewrite Ek; right; by left].
    apply entry_inv in Hl as [(w & t & E & _)|[(w & s & E & _)|(w & s & E & -> & Hs & HL)]]; [rewrite E in Ek; by apply (f_equal head) in Ek..|].
    rewrite E in Hpre. apply prefix_okey in Hpre as ->; [|done|apply Hs]. by exists s.
  - intros (s & Hs & HL & -> & ->). split; [|apply prefix_okey; [done|apply Hs|done]].
    apply (Hst (okey v (tversion s) (thash s))); [right; by left|]. by constructor.
Qed.

Lemma entry_writes_orphan v s : member hist v s -> entry_writes p (okey v (tversion s) (thash s), thash s) = orphan_writes p v s.
Proof.
  intros Hs. destruct (member_is_v v s Hs) as [Hv _]. destruct (member_ok hist L Hok v s Hs) as (_ & Hvs & _).
  unfold entry_writes. cbn [fst snd]. by rewrite scan_orphan_okey by (try apply length_thash; done).
Qed.

Definition drop_writes : list write :=
  mjoin ((fun v => mjoin (entry_writes p <$> prefix_iter (111 :: be8 (u64 v)) db)) <$> seqZ a (b - a)) ++
  ((fun e => (e.1, None)) <$> range_iter (rootKey a) (rootKey b) db).

Lemma roots_from v k c : is_v v -> is_v c -> (exists r, (k, r) ∈ range_iter (rootKey v) (rootKey c) db) <-> exists w, k = rkey w /\ is_Some (hist !! w) /\ v <= w < c.
Proof.
  intros Hv Hc. setoid_rewrite elem_of_range_iter. rewrite !rootKey_rkey. unfold in_domain. setoid_rewrite andb_true_iff. setoid_rewrite bytes_ltb_lt. split.
  - intros (r & Hl & H1 & H2). fold (bytes_le (rkey v) k) in H1. destruct (between_prefix _ _ _ _ H1 H2) as [k' ->]. apply (Hst (114 :: k') r) in Hl; [|right; by right].
    apply entry_inv in Hl as [(w & t & Ek & -> & Ht)|[(w & s & Ek & _)|(w & s & Ek & _)]]; [|by apply (f_equal head) in Ek..]. exists w.
    destruct (hist_is_v hist L Hok w) as [Hw _]; [by eexists|]. rewrite Ek in *. apply rkey_le in H1; [|done..]. apply rkey_lt in H2; [|done..]. by split_and!.
  - intros (w & -> & [t Ht] & Hw1 & Hw2). destruct (hist_is_v hist L Hok w) as [Hw _]; [by eexists|]. exists (root_hash t). split_and!.
    + by rewrite (root_lookup hist L), Ht.
    + by apply rkey_le.
    + by apply rkey_lt.
Qed.

Lemma elem_of_drop_writes k w : (k, w) ∈ drop_writes <->
  (exists v, k = rkey v /\ w = None /\ is_Some (hist !! v) /\ a <= v < b) \/ (exists v s, a <= v < b /\ last_in hist v s /\ (k, w) ∈ orphan_writes p v s).
Proof.
  pose proof (ho_bound _ _ Hok) as HL. unfold drop_writes. rewrite elem_of_app, list_elem_of_join. split.
  - intros [(ws & Hw & (v & -> & Hv)%list_elem_of_fmap)|([k' r] & [= -> ->] & Hin)%list_elem_of_fmap].
    + apply elem_of_seqZ in Hv. apply list_elem_of_join in Hw as (ws & Hw & ([k' h] & -> & Hin)%list_elem_of_fmap).
      apply orphans_at in Hin as (s & Hs & _ & -> & ->); [|unfold is_v; lia]. rewrite entry_writes_orphan in Hw by apply Hs. right. exists v, s. split_and!; try done; lia.
    + left. destruct (proj1 (roots_from a k' b ltac:(unfold is_v; lia) ltac:(unfold is_v; lia)) ltac:(by exists r)) as (v & -> & Hv & Hr). by exists v.
  - intros [(v & -> & -> & Hv & Hr)|(v & s & Hv & Hs & Hw)].
    + right. apply list_elem_of_fmap. destruct (proj2 (roots_from a (rkey v) b ltac:(unfold is_v; lia) ltac:(unfold is_v; lia)) ltac:(by exists v)) as [r Hin]. by exists (rkey v, r).
    + left. eexists. split; [|apply list_elem_of_fmap; exists v; split; [reflexivity|apply elem_of_seqZ; lia]]. apply list_elem_of_join. exists (orphan_writes p v s). split; [done|].
      apply list_elem_of_fmap. exists (okey v (tversion s) (thash s), thash s). split; [by rewrite entry_writes_orphan by apply Hs|]. apply orphans_at; [unfold is_v; lia|]. exists s. split_and!; try done. lia.
Qed.

Lemma drop_prev v s : a <= v -> member hist v s -> (p < tversion s /\ forall w, w < a -> ~ member hist w s) \/ (tversion s <= p /\ p < a /\ member hist p s).
Proof.
  intros Hv Hs. destruct (Z.lt_ge_cases p (tversion s)) as [Hlt|Hge].
  - left. split; [done|]. intros w Hw Hm. pose proof (ho_ver _ _ Hok _ _ Hm). destruct Hp as [[-> Hall]|(Hp' & _ & Hall)].
    + specialize (Hall w (member_v hist w s Hm)). lia.
    + specialize (Hall w (member_v hist w s Hm) Hw). lia.
  - right. destruct (member_ok hist L Hok v s Hs) as (_ & _ & Hpos). destruct Hp as [[-> _]|(Hp' & Hpa & _)]; [lia|].
    split_and!; [done|done|]. eapply (ho_between _ _ Hok p v); [done|lia|done|done].
Qed.

(** The four kinds of writes. *)
Inductive drop_write : bytes -> option bytes -> Prop :=
| dw_root v : is_Some (hist !! v) -> a <= v < b -> drop_write (rkey v) None
| dw_orphan v s : a <= v < b -> last_in hist v s -> drop_write (okey v (tversion s) (thash s)) None
| dw_node v s : a <= v < b -> last_in hist v s -> p < tversion s -> drop_write (nkey (thash s)) None
| dw_move v s : a <= v < b -> last_in hist v s -> tversion s <= p -> drop_write (okey p (tversion s) (thash s)) (Some (thash s)).

Lemma drop_writes_kinds k w : (k, w) ∈ drop_writes <-> drop_write k w.
Proof.
  rewrite elem_of_drop_writes. unfold orphan_writes. split.
  - intros [(v & -> & -> & Hv & Hr)|(v & s & Hv & Hs & Hw)]; [by constructor|]. destruct (Z.ltb_spec p (tversion s));
      rewrite !elem_of_cons, elem_of_nil in Hw; destruct Hw as [Hw|[Hw|[]]]; apply pair_equal_spec in Hw as [-> ->]; by econstructor.
  - destruct 1 as [v Hv Hr|v s Hv Hs|v s Hv Hs Hlt|v s Hv Hs Hle]; [left; by exists v|right; exists v, s; split; [done|split; [done|left]]|right; exists v, s; split; [done|split; [done|right]]..].
    + rewrite (proj2 (Z.ltb_lt _ _)) by done. left.
    + rewrite (proj2 (Z.ltb_ge _ _)) by done. left.
Qed.

Lemma okey_member v w s u : is_v v -> is_v w -> member hist v s \/ member hist w s -> member hist w u -> okey v (tversion s) (thash s) = okey w (tversion u) (thash u) -> v = w /\ s = u.
Proof.
  intros Hv Hw Hs Hu E. assert (exists x, member hist x s) as [x Hx] by (destruct Hs; eauto). destruct (member_ok hist L Hok x s Hx) as (_ & Hvs & _). destruct (member_ok hist L Hok w u Hu) as (_ & Hvu & _).
  apply okey_inj in E as (-> & _ & E); try done. split; [done|]. by apply (ho_inj _ _ Hok x w).
Qed.

Lemma prev_is_v : is_v p.
Proof. destruct Hp as [[-> _]|(H & _)]; [unfold is_v; lia|]. by apply (hist_is_v hist L Hok). Qed.

Lemma drop_functional : functional drop_writes.
Proof.
  pose proof prev_is_v as Hpv. assert (forall k w, drop_write k w -> drop_write k None -> w = None) as Hnone.
  { intros k w [v Hv Hr|v s Hv Hs|v s Hv Hs Hlt|v s Hv Hs Hle] H2; try done. exfalso. remember (okey p (tversion s) (thash s)) as kk eqn:Ek. remember None as ww eqn:Ew.
    destruct (drop_prev v s ltac:(lia) (proj1 Hs)) as [[? _]|(_ & Hpa & Hmp)]; [lia|].
    destruct H2 as [v' Hv' Hr'|v' s' Hv' Hs'|v' s' Hv' Hs' Hlt'|v' s' Hv' Hs' Hle']; try done; try (by apply (f_equal head) in Ek).
    destruct (member_is_v v' s' (proj1 Hs')) as [Hv'' _]. destruct (okey_member v' p s' s) as [-> _]; try done; [left; apply Hs'|lia]. }
  intros k w w' H1%drop_writes_kinds H2%drop_writes_kinds. destruct w as [h|], w' as [h'|]; [|by apply Hnone in H1|by apply Hnone in H2|done]. f_equal.
  remember (Some h) as ww eqn:Ew. destruct H1 as [| | |v s Hv Hs Hle]; try done. injection Ew as <-. remember (Some h') as ww' eqn:Ew'. remember (okey p _ _) as kk eqn:Ek.
  destruct H2 as [| | |v' s' Hv' Hs' Hle']; try done. injection Ew' as <-.
  destruct (drop_prev v s ltac:(lia) (proj1 Hs)) as [[? _]|(_ & _ & Hmp)]; [lia|]. destruct (okey_member p p s' s) as [_ ->]; try done.
  left. destruct (drop_prev v' s' ltac:(lia) (proj1 Hs')) as [[? _]|(_ & _ & ?)]; [lia|done].
Qed.

Lemma drop_orphan v s : last_in (drop_range a b hist) v s -> v < L ->
  drop_write (okey v (tversion s) (thash s)) (Some (thash s)) \/
  (entry hist L (okey v (tversion s) (thash s)) (thash s) /\ forall w, ~ drop_write (okey v (tversion s) (thash s)) w).
Proof.
  intros [[Hm Hr]%member_drop_range Hlast] HL. pose proof prev_is_v as Hpv. destruct (member_is_v v s Hm) as [Hv _].
  destruct (exists_last hist L Hok v s Hm) as (w & Hvw & Hw). destruct (Z.eq_dec w v) as [->|Hne].
  - right. split; [by apply entry_orphan|]. intros c Hc. remember (okey v (tversion s) (thash s)) as kk eqn:Ek.
    destruct Hc as [|v' s' Hv' Hs'|v' s' Hv' Hs' Hlt|v' s' Hv' Hs' Hle]; try by apply (f_equal head) in Ek.
    + destruct (member_is_v v' s' (proj1 Hs')). destruct (okey_member v' v s' s) as [-> _]; try done. left. apply Hs'.
    + destruct (drop_prev v' s' ltac:(lia) (proj1 Hs')) as [[? _]|(_ & Hpa & Hmp)]; [lia|]. destruct (okey_member p v s' s) as [-> ->]; try done; [by left|].
      apply (proj2 Hw v'); [lia|apply Hs'].
  - left. destruct (decide (a <= w < b)) as [Hwr|Hwr]; [|exfalso; apply (Hlast w); [lia|apply member_drop_range; split; [apply Hw|done]]].
    destruct (drop_prev w s ltac:(lia) (proj1 Hw)) as [[_ Hno]|(Hle & Hpa & Hmp)]; [exfalso; apply (Hno v); [lia|done]|].
    assert (v = p) as ->; [|by apply (dw_move w s)]. destruct Hp as [[-> Hall]|(_ & _ & Hall)]; [specialize (Hall v (member_v hist v s Hm)); lia|].
    specialize (Hall v (member_v hist v s Hm) ltac:(lia)). destruct (Z.eq_dec v p) as [|Hvp]; [done|]. exfalso. apply (Hlast p); [lia|]. apply member_drop_range. split; [done|lia].
Qed.

Lemma drop_store : is_store (drop_range a b hist) L (apply_batch (drop_writes) db).
Proof.
  intros k c Hk. rewrite (apply_batch_lookup _ _ _ _ drop_functional), drop_writes_kinds, (Hst k c Hk). setoid_rewrite drop_writes_kinds. pose proof prev_is_v as Hpv. split.
  - intros [Hw|[He Hno]].
    + remember (Some c) as w eqn:Ew. destruct Hw as [| | |v s Hv Hs Hle]; try done. injection Ew as <-.
      destruct (drop_prev v s ltac:(lia) (proj1 Hs)) as [[? _]|(_ & Hpa & Hmp)]; [lia|]. destruct (member_is_v v s (proj1 Hs)). apply entry_orphan; [|lia]. split.
      * apply member_drop_range. split; [done|lia].
      * intros w Hw [Hm Hnw]%member_drop_range. destruct (Z.le_gt_cases w v); [|by apply (proj2 Hs w)].
        destruct Hp as [[-> Hall]|(_ & _ & Hall)]; [destruct (member_is_v 0 s Hmp); lia|]. specialize (Hall w (member_v hist w s Hm)). lia.
    + apply entry_inv in He as [(v & t & -> & -> & Ht)|[(v & s & -> & -> & Hs)|(v & s & -> & -> & Hs & HL)]].
      * apply entry_root. rewrite lookup_drop_range. case_bool_decide as Hr; [|done]. exfalso. apply (Hno None). constructor; [by eexists|done].
      * assert (exists w, member (drop_range a b hist) w s) as [w Hw]; [|by apply (entry_node _ _ w)].
        destruct (decide (a <= v < b)) as [Hr|Hr]; [|exists v; by apply member_drop_range].
        destruct (drop_prev v s ltac:(lia) Hs) as [[Hlt _]|(_ & Hpa & Hmp)]; [|exists p; apply member_drop_range; split; [done|lia]].
        destruct (exists_last hist L Hok v s Hs) as (w & Hvw & Hw). destruct (decide (w < b)) as [Hwb|Hwb]; [|exists w; apply member_drop_range; split; [apply Hw|lia]].
        exfalso. apply (Hno None). apply (dw_node w s); [lia|done..].
      * destruct (decide (a <= v < b)) as [Hr|Hr]; [exfalso; apply (Hno None); by constructor|]. apply entry_orphan; [|done].
        split; [apply member_drop_range; split; [apply Hs|done]|]. intros w Hw [Hm _]%member_drop_range. by apply (proj2 Hs w).
  - intros He. apply entry_inv in He as [(v & t & -> & -> & Ht)|[(v & s & -> & -> & Hs)|(v & s & -> & -> & Hs & HL)]].
    + rewrite lookup_drop_range in Ht. case_bool_decide as Hr; [done|]. right. split; [by constructor|]. intros w Hw. remember (rkey v) as kk eqn:Ek.
      destruct Hw; try by apply (f_equal head) in Ek. apply rkey_inj in Ek as ->; [done|by eapply hist_is_v|]. apply (hist_is_v hist L Hok). by eexists.
    + apply member_drop_range in Hs as [Hs Hr]. right. split; [by apply (entry_node _ _ v)|]. intros w Hw. remember (nkey (thash s)) as kk eqn:Ek.
      destruct Hw as [|v' s' Hv' Hs'|v' s' Hv' Hs' Hlt|v' s' Hv' Hs' Hle]; try by apply (f_equal head) in Ek. apply (f_equal tail) in Ek. cbn [tail nkey] in Ek.
      assert (s' = s) as -> by (by apply (ho_inj _ _ Hok v' v _ _ (proj1 Hs') Hs)). destruct (drop_prev v' s ltac:(lia) (proj1 Hs')) as [[_ Hno]|[? _]]; [|lia].
      destruct (Z.lt_ge_cases v a); [by apply (Hno v)|]. apply (proj2 Hs' v); [lia|done].
    + by apply drop_orphan.
Qed.

Lemma drop_hist_ok : hist_ok (drop_range a b hist) L.
Proof.
  pose proof (ho_bound _ _ Hok). split; [done| | | | | |].
  - intros v t. rewrite lookup_drop_range. case_bool_decide; [done|]. apply (ho_dom _ _ Hok).
  - intros HL. rewrite lookup_drop_range. rewrite bool_decide_false by lia. by apply (ho_last _ _ Hok).
  - intros v t. rewrite lookup_drop_range. case_bool_decide; [done|]. apply (ho_tree _ _ Hok).
  - intros v s [Hm _]%member_drop_range. by apply (ho_ver _ _ Hok).
  - intros v w s. rewrite lookup_drop_range. case_bool_decide as Hr; [by intros []|]. intros Hv Hvw [Hm _]%member_drop_range Ht. apply member_drop_range. split; [|done].
    by apply (ho_between _ _ Hok v w).
  - intros v w s u [Hs _]%member_drop_range [Hu _]%member_drop_range. by apply (ho_inj _ _ Hok v w).
Qed.
End Drop.


(** Saving a version of the tree store: the writes of [SaveBranch], [SaveOrphans] and
    [SaveRoot] turn the database of a history into that of the history with the new
    version. *)

(** * Hashing *)

Lemma writeHashBytes_repr P Q n t : repr P Q n t ->
  match t with Leaf _ _ _ => True | Inner _ _ l r => n_leftHash n = Some (thash l) /\ n_rightHash n = Some (thash r) end ->
  exists b, writeHashBytes n = Ok b /\ sha256 b = thash t.
Proof.
  intros Hn Hc. unfold writeHashBytes. rewrite (repr_isLeaf P Q n t Hn). destruct (repr_fields P Q n t Hn) as (-> & -> & -> & ->). destruct t as [k v ver|k ver l r].
  - assert (n_value n = Some v) as -> by (cbn [repr] in Hn; tauto). by eexists.
  - destruct Hc as [-> ->]. by eexists.
Qed.

Lemma hash_node_repr P Q n t : repr P Q n t ->
  match t with Leaf _ _ _ => True | Inner _ _ l r => n_leftHash n = Some (thash l) /\ n_rightHash n = Some (thash r) end ->
  hash_node n = Ok (with_hash (thash t) n).
Proof.
  intros Hn Hc. assert (hash_of (n_hash n) t) as [E|E] by (destruct t; cbn [repr] in Hn; tauto); unfold hash_node; rewrite E.
  - destruct (writeHashBytes_repr P Q n t Hn Hc) as (b & -> & Hb). cbn [mbind result_bind]. by rewrite Hb.
  - f_equal. destruct n. cbn in E. by rewrite E.
Qed.

(** * Saving the new nodes *)

(** The writes for the nodes of version [ver], children first. *)
Fixpoint node_writes (ver : Z) (t : tree) : list write :=
  if tversion t =? ver then
    match t with Leaf _ _ _ => [] | Inner _ _ l r => node_writes ver l ++ node_writes ver r end ++ [(nkey (thash t), Some (tbytes t))]
  else [].

Definition node_key (k : bytes) : Prop := head k = Some 110.

(** [m'] is [m] with node entries written, in the batch or through it. *)
Definition wrote (m m' : nodeDB) (ws : list write) : Prop :=
  flush m' = apply_batch ws (flush m) /\ (forall k, ~ node_key k -> nd_db m' !! k = nd_db m !! k) /\
  InitialVersion m' = InitialVersion m /\ versionReaders m' = versionReaders m /\ storageVersion m' = storageVersion m /\ latestVersion m' = latestVersion m /\
  (Forall (fun w => node_key w.1) (nd_batch m) -> Forall (fun w => node_key w.1) (nd_batch m')).

Lemma wrote_refl m : wrote m m [].
Proof. by split_and!. Qed.

Lemma wrote_trans m1 m2 m3 ws ws' : wrote m1 m2 ws -> wrote m2 m3 ws' -> wrote m1 m3 (ws ++ ws').
Proof.
  intros (H1 & H2 & H3 & H4 & H5 & H6 & H7) (G1 & G2 & G3 & G4 & G5 & G6 & G7). split_and!; try congruence; [|intros k Hk; by rewrite G2, H2|auto].
  rewrite G1, H1. unfold apply_batch. by rewrite foldl_app.
Qed.

Lemma wrote_one m k v : node_key k -> wrote m (appends m [(k, Some v)]) [(k, Some v)].
Proof. intros Hk. split_and!; try done; [apply flush_appends|]. intros HF. cbn. rewrite Forall_app. by split; [|constructor]. Qed.

Lemma apply_batch_node (ws : list write) (d : database) k : Forall (fun w : write => node_key w.1) ws -> ~ node_key k -> apply_batch ws d !! k = d !! k.
Proof.
  intros HF Hk. apply apply_batch_other. intros ([k' w] & -> & Hin)%list_elem_of_fmap. by eapply Forall_forall in HF.
Qed.

Definition reset (m : nodeDB) : nodeDB := set_db (flush m) [] m.

Lemma wrote_reset m : Forall (fun w => node_key w.1) (nd_batch m) -> wrote m (reset m) [].
Proof. intros HF. split_and!; try done. intros k Hk. cbn. unfold flush. by apply apply_batch_node. Qed.

(** A node without its children in memory. *)
Definition strip (n : Node) : Node := with_left (n_leftHash n) None (with_right (n_rightHash n) None n).

Lemma hash_node_strip P Q n t : repr P Q (strip n) t -> hash_node n = Ok (with_hash (thash t) n).
Proof.
  intros Hn. assert (match t with Leaf _ _ _ => True | Inner _ _ l r => n_leftHash n = Some (thash l) /\ n_rightHash n = Some (thash r) end) as Hc.
  { destruct t; [done|]. cbn [repr] in Hn. cbn [strip with_left with_right n_leftNode n_rightNode n_leftHash n_rightHash] in Hn. tauto. }
  pose proof (hash_node_repr P Q (strip n) t Hn Hc) as E. unfold hash_node in *. change (n_hash (strip n)) with (n_hash n) in E. change (writeHashBytes (strip n)) with (writeHashBytes n) in E.
  destruct n as [nk nv nh nlh nrh nver nsz nl nr nht np]. cbn [n_hash with_hash strip with_left with_right] in *. destruct nh as [h|].
  - injection E as ->. done.
  - destruct (writeHashBytes _) as [b| |]; cbn [mbind result_bind] in *; [|done..]. injection E as ->. done.
Qed.

(** Saving a hashed node whose children are saved. *)
Lemma finish_node P Q n t m : repr P Q (strip n) t -> n_persisted n = false -> Forall (fun w => node_key w.1) (nd_batch m) ->
  exists m', (let! n := of_res (hash_node n) in let! n := SaveNode n in (if n_version n <=? genesisVersion then resetBatch else ret tt) ;;
    ret (with_left (n_leftHash n) None (with_right (n_rightHash n) None n))) m = (m', Ok (loaded t)) /\ wrote m m' [(nkey (thash t), Some (tbytes t))].
Proof.
  intros Hn Hp HF. unfold bind, of_res at 1. rewrite (hash_node_strip P Q n t Hn). unfold SaveNode at 1. cbn [with_hash n_hash n_persisted]. rewrite Hp. unfold guard, bind, ret, of_res. cbn [negb].
  pose proof (writeBytes_repr P Q _ t Hn eq_refl eq_refl) as Eb. change (writeBytes (strip n)) with (writeBytes (with_hash (thash t) n)) in Eb. rewrite Eb.
  unfold nodeKey, key_of. rewrite nodeKey_thash. unfold ret, batch_Set, modify.
  change (set_db (nd_db m) (nd_batch m ++ [(nkey (thash t), Some (tbytes t))]) m) with (appends m [(nkey (thash t), Some (tbytes t))]).
  assert (strip (with_persisted (with_hash (thash t) n)) = loaded t) as El.
  { destruct n as [nk nv nh nlh nrh nver nsz nl nr nht np], t;
      cbn [repr strip with_left with_right n_persisted n_key n_value n_hash n_leftHash n_rightHash n_version n_size n_height n_leftNode n_rightNode tkey tversion tsize theight] in *.
    - destruct Hn as (-> & -> & -> & -> & _ & _ & -> & -> & -> & _). done.
    - destruct Hn as (-> & -> & -> & -> & _ & _ & -> & [-> _] & [-> _]). done. }
  pose proof (wrote_one m (nkey (thash t)) (tbytes t) eq_refl) as W. change (with_left _ None _) with (strip (with_persisted (with_hash (thash t) n))). rewrite El. destruct (_ <=? _).
  - exists (reset (appends m [(nkey (thash t), Some (tbytes t))])). split; [done|]. rewrite <- (app_nil_r [(nkey (thash t), Some (tbytes t))]). eapply wrote_trans; [exact W|].
    apply wrote_reset. cbn. rewrite Forall_app. by split; [|constructor].
  - by eexists.
Qed.

Section SaveBranch.
  Context (P Q : tree -> Prop) (ver : Z).
  Hypothesis Q_new : forall t, Q t -> tversion t = ver.
  Hypothesis P_old : forall t, P t -> tversion t <> ver.

Lemma repr_writes_persisted n t : repr P Q n t -> n_persisted n = true -> node_writes ver t = [].
Proof. intros Hn Hp. destruct (repr_persisted P Q n t Hn Hp) as [_ HP]. specialize (P_old t HP). destruct t; cbn [node_writes]; by rewrite (proj2 (Z.eqb_neq _ _)). Qed.

Lemma P_writes t : P t -> node_writes ver t = [].
Proof. intros HP. specialize (P_old t HP). destruct t; cbn [node_writes]; by rewrite (proj2 (Z.eqb_neq _ _)). Qed.

(** The child part of [SaveBranch]. *)
Definition save_child (h : option bytes) (c : option Node) : DB (option bytes * option Node) :=
  match c with Some cn => let! cn := SaveBranch cn in ret (n_hash cn, Some cn) | None => ret (h, None) end.

Lemma SaveBranch_eq k v h lh rh sver sz l r ht p : SaveBranch (mkNode k v h lh rh sver sz l r ht p) =
  if p then ret (mkNode k v h lh rh sver sz l r ht p)
  else
    let! '(lh, l) := save_child lh l in
    let! '(rh, r) := save_child rh r in
    let! n := of_res (hash_node (mkNode k v h lh rh sver sz l r ht p)) in
    let! n := SaveNode n in
    (if n_version n <=? genesisVersion then resetBatch else ret tt) ;;
    ret (with_left (n_leftHash n) None (with_right (n_rightHash n) None n)).
Proof. done. Qed.

Lemma SaveBranch_repr t : forall n m, repr P Q n t -> Forall (fun w => node_key w.1) (nd_batch m) ->
  exists m', SaveBranch n m = (m', Ok (loaded t)) /\ wrote m m' (node_writes ver t).
Proof.
  induction t as [k0 v0 ver0|k0 ver0 l IHl r IHr]; intros n m Hn HF; destruct n as [nk nv nh nlh nrh nver nsz nl nr nht np]; rewrite SaveBranch_eq; destruct np.
  - destruct (repr_persisted P Q _ _ Hn eq_refl) as [-> HP]. exists m. rewrite (P_writes _ HP). split; [done|apply wrote_refl].
  - pose proof Hn as Hn'. cbn [repr n_persisted n_leftNode n_rightNode] in Hn'. destruct Hn' as (_ & _ & _ & _ & _ & HQ & _ & _ & _ & -> & ->). specialize (Q_new _ HQ).
    cbn [node_writes app]. rewrite (proj2 (Z.eqb_eq _ _)) by done. unfold save_child. unfold bind at 1 2, ret at 1 2. by apply (finish_node P Q).
  - destruct (repr_persisted P Q _ _ Hn eq_refl) as [-> HP]. exists m. rewrite (P_writes _ HP). split; [done|apply wrote_refl].
  - assert (forall h c t m0, (forall n m, repr P Q n t -> Forall (fun w => node_key w.1) (nd_batch m) -> exists m', SaveBranch n m = (m', Ok (loaded t)) /\ wrote m m' (node_writes ver t)) ->
        child P Q h c t -> Forall (fun w => node_key w.1) (nd_batch m0) -> exists m' c', save_child h c m0 = (m', Ok (Some (thash t), c')) /\ wrote m0 m' (node_writes ver t)) as Hchild.
    { intros h [cn|] t m0 IH Hc HF0; cbn [child save_child] in *.
      - destruct (IH cn m0 (proj1 Hc) HF0) as (m' & E & W). unfold bind. rewrite E. exists m', (Some (loaded t)). split; [|done]. unfold ret. by destruct t.
      - destruct Hc as [-> HP]. rewrite (P_writes _ HP). eexists m0, None. split; [done|apply wrote_refl]. }
    pose proof Hn as (Hk & Hv & Hs & Hht & Hh & HQ & Hval & Cl & Cr)%repr_inner. cbn [n_persisted n_key n_value n_hash n_leftHash n_rightHash n_version n_size n_height n_leftNode n_rightNode] in *.
    specialize (Q_new _ HQ) as Hver. cbn [node_writes tversion] in *. rewrite (proj2 (Z.eqb_eq _ _)) by done.
    destruct (Hchild nlh nl l m IHl Cl HF) as (m1 & l' & E1 & W1). assert (Forall (fun w => node_key w.1) (nd_batch m1)) as HF1 by (by apply W1).
    destruct (Hchild nrh nr r m1 IHr Cr HF1) as (m2 & r' & E2 & W2). assert (Forall (fun w => node_key w.1) (nd_batch m2)) as HF2 by (by apply W2).
    unfold bind at 1. rewrite E1. unfold bind at 1. rewrite E2.
    destruct (finish_node (fun _ => True) Q (mkNode nk nv nh (Some (thash l)) (Some (thash r)) nver nsz l' r' nht false) (Inner k0 ver0 l r) m2) as (m' & E & W); [|done|done|].
    { cbn [repr strip with_left with_right n_persisted n_key n_value n_hash n_leftHash n_rightHash n_version n_size n_height n_leftNode n_rightNode]. by split_and!. }
    exists m'. split; [exact E|]. eapply wrote_trans; [eapply wrote_trans; [exact W1|exact W2]|exact W].
Qed.
End SaveBranch.

Lemma elem_of_node_writes ver t k w : (k, w) ∈ node_writes ver t -> exists s, s ∈ subtrees t /\ k = nkey (thash s) /\ w = Some (tbytes s).
Proof.
  induction t as [k0 v0 ver0|k0 ver0 l IHl r IHr]; cbn [node_writes]; destruct (_ =? _); try by intros ?%not_elem_of_nil.
  - intros [= -> ->]%list_elem_of_singleton. eexists. by split; [apply subtrees_self|].
  - rewrite !elem_of_app, list_elem_of_singleton. intros [[H|H]|[= -> ->]].
    + destruct (IHl H) as (s & Hs & ?). exists s. split; [|done]. right. apply elem_of_app. by left.
    + destruct (IHr H) as (s & Hs & ?). exists s. split; [|done]. right. apply elem_of_app. by right.
    + eexists. by split; [apply subtrees_self|].
Qed.

(** Every node of the tree is written or was saved before. *)
Lemma node_writes_cover (P Q : tree -> Prop) ver t : (forall k ver l r, P (Inner k ver l r) -> P l /\ P r) -> (forall t, Q t -> tversion t = ver) -> forall n, repr P Q n t ->
  forall s, s ∈ subtrees t -> P s \/ (nkey (thash s), Some (tbytes s)) ∈ node_writes ver t.
Proof.
  intros HPd HQ. assert (forall t s, P t -> s ∈ subtrees t -> P s) as HPs.
  { intros u s. induction u as [|? ? ? IHl ? IHr]; intros HP; cbn; [by intros ->%list_elem_of_singleton|]. destruct (HPd _ _ _ _ HP). rewrite elem_of_cons, elem_of_app. intros [->|[?|?]]; auto. }
  induction t as [k0 v0 ver0|k0 ver0 l IHl r IHr]; intros n Hn s Hs.
  - apply list_elem_of_singleton in Hs as ->. cbn [repr] in Hn. destruct Hn as (_ & _ & _ & _ & _ & Hp & _). destruct (n_persisted n); [left; tauto|].
    right. cbn [node_writes]. rewrite (proj2 (Z.eqb_eq _ _)) by (by apply HQ). left.
  - pose proof Hn as (_ & _ & _ & _ & _ & Hp & _ & Cl & Cr)%repr_inner. destruct (n_persisted n); [left; eapply (HPs (Inner k0 ver0 l r)); [apply Hp|done]|].
    cbn [node_writes]. rewrite (proj2 (Z.eqb_eq _ _)) by (by apply HQ). rewrite !elem_of_app, list_elem_of_singleton. cbn [subtrees] in Hs. rewrite elem_of_cons, elem_of_app in Hs.
    assert (forall h c u, (forall n, repr P Q n u -> forall s, s ∈ subtrees u -> P s \/ (nkey (thash s), Some (tbytes s)) ∈ node_writes ver u) -> child P Q h c u -> s ∈ subtrees u ->
      P s \/ (nkey (thash s), Some (tbytes s)) ∈ node_writes ver u) as Hc by (intros h [cn|] u IH [H1 H2] Hu; eauto).
    destruct Hs as [->|[Hs|Hs]]; [auto|destruct (Hc _ _ l IHl Cl Hs); auto|destruct (Hc _ _ r IHr Cr Hs); auto].
Qed.

(** * The database with one more version *)

Section Save.
  Context (hist : history) (L : Z) (db : database) (work : option tree) (orph : gmap bytes Z) (ver v : Z) (nws : list write).
  Hypothesis Hok : hist_ok hist L.
  Hypothesis Hst : is_store hist L db.
  Hypothesis Hver : ver = L + 1.
  Hypothesis Hv : ver <= v < 2 ^ 62.
  Hypothesis Hwok : match work with Some t => tree_ok t | None => True end.
  Hypothesis Hnew : forall s, s ∈ osubtrees work -> member hist L s \/ tversion s = ver.
  Hypothesis Horph : forall h f, orph !! h = Some f <-> exists s, member hist L s /\ s ∉ osubtrees work /\ h = thash s /\ f = tversion s.
  Hypothesis Hinj : forall x y s u, member (<[v := work]> hist) x s -> member (<[v := work]> hist) y u -> thash s = thash u -> s = u.
  Hypothesis Hnws : forall k w, (k, w) ∈ nws -> exists s, s ∈ osubtrees work /\ k = nkey (thash s) /\ w = Some (tbytes s).
  Hypothesis Hcover : forall s, s ∈ osubtrees work -> member hist L s \/ (nkey (thash s), Some (tbytes s)) ∈ nws.

Lemma new_version : hist !! v = None.
Proof using Hok Hver Hv. destruct (hist !! v) as [t|] eqn:E; [|done]. pose proof (ho_dom _ _ Hok _ _ E). lia. Qed.

Lemma member_new s : member (<[v := work]> hist) v s <-> s ∈ osubtrees work.
Proof using.
  unfold member. rewrite lookup_insert_eq. generalize work. intros [t|]; cbn; split; [by intros (t' & [= <-] & ?)|by exists t|by intros (t' & ? & _)|by intros ?%not_elem_of_nil].
Qed.

Lemma member_old w s : w <> v -> member (<[v := work]> hist) w s <-> member hist w s.
Proof using. intros Hne. unfold member. by rewrite lookup_insert_ne. Qed.

Lemma save_hist_ok : hist_ok (<[v := work]> hist) v.
Proof using Hok Hver Hv Hwok Hnew Hinj.
  pose proof (ho_bound _ _ Hok) as HL. split; [lia| | | | | |done].
  - intros w t. destruct (decide (v = w)) as [->|]; [intros _; lia|]. rewrite lookup_insert_ne by done. intros H%(ho_dom _ _ Hok). lia.
  - intros _. rewrite lookup_insert_eq. by eexists.
  - intros w t. destruct (decide (v = w)) as [->|]; [rewrite lookup_insert_eq; intros [= E]; by rewrite E in Hwok|]. rewrite lookup_insert_ne by done. apply (ho_tree _ _ Hok).
  - intros w s. destruct (decide (w = v)) as [->|]; [|rewrite member_old by done; apply (ho_ver _ _ Hok)].
    rewrite member_new. intros [H|H]%Hnew; [apply (ho_ver _ _ Hok) in H|]; lia.
  - intros x w s Hx Hxw Hm Ht. destruct (decide (x = v)) as [->|Hxv].
    + assert (w = v) as ->; [|done]. destruct (decide (w = v)) as [|Hne]; [done|]. apply member_old in Hm as (t & E & _); [|done]. pose proof (ho_dom _ _ Hok _ _ E). lia.
    + rewrite lookup_insert_ne in Hx by done. rewrite member_old by done. destruct Hx as [tx Hx]. pose proof (ho_dom _ _ Hok _ _ Hx). destruct (decide (w = v)) as [->|Hwv].
      * apply member_new, Hnew in Hm as [Hm|Hm]; [|lia]. eapply (ho_between _ _ Hok x L); [by eexists|lia|done|done].
      * apply member_old in Hm; [|done]. eapply (ho_between _ _ Hok x w); [by eexists|done..].
Qed.

Definition orphan_saves : list write := (fun e : bytes * Z => (okey L e.2 e.1, Some e.1)) <$> map_to_list orph.
Definition save_writes : list write := nws ++ orphan_saves ++ [(rkey v, Some (root_hash work))].

Inductive save_write : bytes -> option bytes -> Prop :=
| sw_node s : s ∈ osubtrees work -> (nkey (thash s), Some (tbytes s)) ∈ nws -> save_write (nkey (thash s)) (Some (tbytes s))
| sw_orphan s : member hist L s -> s ∉ osubtrees work -> save_write (okey L (tversion s) (thash s)) (Some (thash s))
| sw_root : save_write (rkey v) (Some (root_hash work)).

Lemma save_writes_kinds k w : (k, w) ∈ save_writes <-> save_write k w.
Proof.
  unfold save_writes, orphan_saves. rewrite !elem_of_app, list_elem_of_singleton, list_elem_of_fmap. split.
  - intros [H|[([h f] & E & Hin)|[= -> ->]]].
    + destruct (Hnws k w H) as (s & Hs & -> & ->). by constructor.
    + cbn [fst snd] in E. apply pair_equal_spec in E as [-> ->]. apply elem_of_map_to_list, Horph in Hin as (s & Hm & Hn & -> & ->). by constructor.
    + constructor.
  - destruct 1 as [s Hs Hin|s Hm Hn|]; [by left|right; left|by right; right].
    exists (thash s, tversion s). split; [done|]. apply elem_of_map_to_list, Horph. by exists s.
Qed.

Lemma work_member s : s ∈ osubtrees work -> exists x, member (<[v := work]> hist) x s.
Proof. intros Hs. exists v. by apply member_new. Qed.

Lemma hist_member w s : member hist w s -> w <> v /\ member (<[v := work]> hist) w s /\ is_v w /\ w <= L.
Proof.
  intros Hm. pose proof Hm as (t & Ht & _). pose proof (ho_dom _ _ Hok _ _ Ht). pose proof (ho_bound _ _ Hok). split_and!; [lia| |unfold is_v; lia|lia]. apply member_old; [lia|done].
Qed.

Lemma v_is_v : is_v v /\ is_v L.
Proof. pose proof (ho_bound _ _ Hok). unfold is_v. lia. Qed.

(** Two writes, or a write and an entry, of the same node agree. *)
Lemma save_write_node k w s x : save_write k w -> member (<[v := work]> hist) x s -> k = nkey (thash s) -> w = Some (tbytes s).
Proof.
  intros [u Hu _|u Hm _|] Hs Ek; try by apply (f_equal head) in Ek. apply (f_equal tail) in Ek. cbn [tail nkey] in Ek.
  destruct (work_member u Hu) as [y Hy]. by rewrite (Hinj y x u s Hy Hs Ek).
Qed.

Lemma save_write_okey k w to s : save_write k w -> is_v to -> member hist to s -> k = okey to (tversion s) (thash s) -> to = L /\ w = Some (thash s).
Proof.
  intros [u Hu _|u Hm _|] Hto Hs Ek; try by apply (f_equal head) in Ek. destruct v_is_v as [_ HL].
  destruct (member_ok hist L Hok _ _ Hs) as (_ & Hvs & _). destruct (member_ok hist L Hok _ _ Hm) as (_ & Hvu & _). apply okey_inj in Ek as (<- & _ & ->); done.
Qed.

Lemma save_write_rkey k w x : save_write k w -> is_v x -> k = rkey x -> x = v /\ w = Some (root_hash work).
Proof. intros [u Hu _|u Hm _|] Hx Ek; try by apply (f_equal head) in Ek. apply rkey_inj in Ek as ->; [done|apply v_is_v|done]. Qed.

Lemma save_functional : functional save_writes.
Proof.
  intros k w w' H1%save_writes_kinds H2%save_writes_kinds. destruct H1 as [s Hs Hin|s Hm Hn|].
  - destruct (work_member s Hs) as [x Hx]. symmetry. by eapply save_write_node.
  - destruct (save_write_okey _ _ L s H2) as [_ ->]; try done. apply v_is_v.
  - destruct (save_write_rkey _ _ v H2) as [_ ->]; try done. apply v_is_v.
Qed.

Lemma save_store : is_store (<[v := work]> hist) v (apply_batch save_writes db).
Proof.
  intros k b Hk. rewrite (apply_batch_lookup _ _ _ _ save_functional), save_writes_kinds, (Hst k b Hk). setoid_rewrite save_writes_kinds. split.
  - intros [Hw|[He Hno]].
    + remember (Some b) as w eqn:Ew. destruct Hw as [s Hs Hin|s Hm Hn|]; injection Ew as <-.
      * apply (entry_node _ _ v), member_new; done.
      * destruct (hist_member L s Hm) as (HLv & Hm' & _). apply entry_orphan; [|lia]. split; [done|]. intros w Hw Hmw. destruct (decide (w = v)) as [->|]; [by apply member_new in Hmw|].
        apply member_old, hist_member in Hmw; [lia|done].
      * apply entry_root. by rewrite lookup_insert_eq.
    + apply entry_inv in He as [(w & t & -> & -> & Ht)|[(w & s & -> & -> & Hs)|(w & s & -> & -> & Hs & HL)]].
      * apply entry_root. rewrite lookup_insert_ne; [done|]. intros <-. by rewrite new_version in Ht.
      * apply (entry_node _ _ w), hist_member, Hs.
      * destruct (hist_member w s (proj1 Hs)) as (Hwv & Hm' & _). apply entry_orphan; [|lia]. split; [done|]. intros x Hx Hmx. destruct (decide (x = v)) as [->|]; [|apply member_old in Hmx; [by apply (proj2 Hs x)|done]].
        apply member_new, Hnew in Hmx as [Hmx|Hmx]; [by apply (proj2 Hs L)|]. pose proof (ho_ver _ _ Hok _ _ (proj1 Hs)). lia.
  - intros He. apply entry_inv in He as [(w & t & -> & -> & Ht)|[(w & s & -> & -> & Hs)|(w & s & -> & -> & Hs & HL)]].
    + destruct (decide (w = v)) as [->|Hwv]; [rewrite lookup_insert_eq in Ht; injection Ht as <-; left; constructor|]. rewrite lookup_insert_ne in Ht by done.
      right. split; [by constructor|]. intros c Hc. destruct (save_write_rkey _ _ w Hc) as [? _]; try done. apply (hist_is_v hist L Hok). by eexists.
    + destruct (decide ((nkey (thash s), Some (tbytes s)) ∈ nws)) as [Hin|Hin].
      * left. destruct (Hnws _ _ Hin) as (u & Hu & Ek & Ew). rewrite Ek, Ew. constructor; [done|]. by rewrite <- Ek, <- Ew.
      * assert (exists x, member hist x s) as [x Hx]. { destruct (decide (w = v)) as [->|]; [|exists w; by apply member_old in Hs]. apply member_new, Hcover in Hs as [Hs|Hs]; [by exists L|done]. }
        right. split; [by apply (entry_node _ _ x)|]. intros c Hc. pose proof (save_write_node _ _ s w Hc Hs eq_refl) as ->. apply save_writes_kinds in Hc. apply Hin.
        unfold save_writes, orphan_saves in Hc. rewrite !elem_of_app, list_elem_of_singleton, list_elem_of_fmap in Hc. destruct Hc as [?|[([h f] & E & _)|E]]; [done| |]; exfalso; apply pair_equal_spec in E as [E _]; by apply (f_equal head) in E.
    + destruct (decide (w = v)) as [->|Hwv]; [lia|]. destruct Hs as [Hm Hlast]. apply member_old in Hm; [|done]. destruct (hist_member w s Hm) as (_ & _ & Hiv & HwL). destruct (decide (w = L)) as [->|HwL'].
      * left. constructor; [done|]. intros Hs. apply (Hlast v); [lia|]. by apply member_new.
      * right. split; [|intros c Hc; destruct (save_write_okey _ _ w s Hc) as [? _]; done]. apply entry_orphan; [|lia]. split; [done|]. intros x Hx Hmx. apply (Hlast x Hx), hist_member, Hmx.
Qed.
End Save.
