(* ===== verification/IavlVersions.v ===== *)
(** The versioned tree store as a state machine over trees: the working tree, the
    available versions and the latest version number.  Each operation of the store is
    simulated by an operation on that state, which says what the store must do. *)

From Stdlib Require Import ZArith Lia Ascii String.
From stdpp Require Import base list gmap strings sorting.
From S2P Require Import Prelude KVStore BigInt Sha256 IavlEncoding IavlNode IavlSpec IavlRepr IavlIter IavlDb IavlMutable IavlMutableProps IavlStore.
Open Scope Z_scope.
Open Scope go_scope.

(** * The abstract store *)

Record vstate := mkV { vs_work : option tree; vs_hist : history; vs_version : Z }.

Definition latest_tree (a : vstate) : option tree := default None (vs_hist a !! vs_version a).

Definition a_set (k v : bytes) (a : vstate) : vstate :=
  let ver := vs_version a + 1 in
  mkV (Some match vs_work a with None => Leaf k v ver | Some t => (tset ver k v t).1.1 end) (vs_hist a) (vs_version a).

Definition a_remove (k : bytes) (a : vstate) : vstate :=
  match vs_work a with
  | None => a
  | Some t => match tremove (vs_version a + 1) k t with None => a | Some (t', _, _, _) => mkV t' (vs_hist a) (vs_version a) end
  end.

Definition a_rollback (a : vstate) : vstate := mkV (latest_tree a) (vs_hist a) (vs_version a).

Definition next_version (init : Z) (a : vstate) : Z := if (vs_version a =? 0) && (0 <? init) then init else vs_version a + 1.

Definition a_save (init : Z) (a : vstate) : vstate :=
  let v := next_version init a in mkV (vs_work a) (<[v := vs_work a]> (vs_hist a)) v.

Definition a_delete_range (from to : Z) (a : vstate) : vstate := mkV (vs_work a) (drop_range from to (vs_hist a)) (vs_version a).

(** No two nodes of the saved versions have the same hash. *)
Definition collision_free (hist : history) : Prop := forall v w s u, member hist v s -> member hist w u -> thash s = thash u -> s = u.

(** * The simulation relation *)

(** What is saved, and what is new since the latest version. *)
Definition saved_in (a : vstate) (t : tree) : Prop := member (vs_hist a) (vs_version a) t.
Definition unsaved_in (a : vstate) (t : tree) : Prop := tversion t = vs_version a + 1.

(** The entry of the storage version. *)
Definition metadata_key : bytes := 109 :: storageVersionKey.

Lemma metadataKey_eq : metadataKey storageVersionKey = Some metadata_key.
Proof. unfold metadataKey, KeyBytes. cbn. done. Qed.

Definition stored_version_of (db : database) : bytes := default defaultStorageVersionValue (db !! metadata_key).

Record sim (init : Z) (s : MutableTree) (a : vstate) : Prop := {
  sim_hist : hist_ok (vs_hist a) (vs_version a);
  sim_store : is_store (vs_hist a) (vs_version a) (tdb s);
  sim_batch : nd_batch (ndb s) = [];
  sim_latest : latestVersion (ndb s) = 0 \/ latestVersion (ndb s) = vs_version a;
  sim_init : InitialVersion (ndb s) = init /\ 0 <= init < 2 ^ 62;
  sim_first : forall v, is_Some (vs_hist a !! v) -> init <= v;
  sim_readers : versionReaders (ndb s) = ∅;
  sim_storage : (length (Split fastStorageVersionDelimiter (storageVersion (ndb s))) <= 2)%nat;
  sim_meta : (length (Split fastStorageVersionDelimiter (stored_version_of (tdb s))) <= 2)%nat;
  sim_version : version s = vs_version a;
  sim_saved : lastSaved s = mkITree (loaded <$> latest_tree a) (vs_version a);
  sim_work : orepr (saved_in a) (unsaved_in a) (root s) (vs_work a);
  sim_ok : match vs_work a with Some t => tree_ok t | None => True end;
  sim_new : forall t, t ∈ osubtrees (vs_work a) -> saved_in a t \/ unsaved_in a t;
  sim_orphans : forall h f, mt_orphans s !! h = Some f <-> exists t, saved_in a t /\ t ∉ osubtrees (vs_work a) /\ h = thash t /\ f = tversion t;
  sim_versions : forall v b, mt_versions s !! v = Some b -> b = bool_decide (is_Some (vs_hist a !! v));
  sim_loaded : allRootLoaded s = true -> forall v, is_Some (vs_hist a !! v) -> mt_versions s !! v = Some true
}.

(** * Facts on the relation *)

Lemma latest_member a t : saved_in a t <-> exists r, latest_tree a = Some r /\ t ∈ subtrees r.
Proof.
  unfold saved_in, member, latest_tree. split.
  - intros (r & -> & H). by exists r.
  - intros (r & E & H). destruct (vs_hist a !! vs_version a) as [o|]; cbn in E; [subst o; by exists r|done].
Qed.

Section Sim.
  Context (init : Z) (s : MutableTree) (a : vstate).
  Hypothesis H : sim init s a.

Lemma saved_stored t : saved_in a t -> stored (tdb s) t.
Proof.
  intros (r & Hr & Ht). apply Forall_forall. intros u Hu. apply (sim_store _ _ _ H); [by left|]. apply (entry_node _ _ (vs_version a)). exists r. split; [done|]. by eapply subtrees_trans.
Qed.

Lemma saved_left k ver l r : saved_in a (Inner k ver l r) -> saved_in a l.
Proof. intros (t & Ht & Hs). exists t. split; [done|]. eapply subtrees_trans; [done|]. right. apply elem_of_app. left. apply subtrees_self. Qed.
Lemma saved_right k ver l r : saved_in a (Inner k ver l r) -> saved_in a r.
Proof. intros (t & Ht & Hs). exists t. split; [done|]. eapply subtrees_trans; [done|]. right. apply elem_of_app. right. apply subtrees_self. Qed.

Lemma saved_old t : saved_in a t -> tversion t <= vs_version a.
Proof. apply (ho_ver _ _ (sim_hist _ _ _ H)). Qed.

Lemma unsaved_new t : tversion t = vs_version a + 1 -> unsaved_in a t.
Proof. done. Qed.

Lemma version_bound : 0 <= vs_version a < 2 ^ 62.
Proof. apply (ho_bound _ _ (sim_hist _ _ _ H)). Qed.

Lemma next_i64 : i64 (version s + 1) = vs_version a + 1.
Proof. rewrite (sim_version _ _ _ H). pose proof version_bound. apply wrapS_small; lia. Qed.

Lemma latest_ok r : latest_tree a = Some r -> tree_ok r /\ 0 < vs_version a.
Proof.
  unfold latest_tree. destruct (vs_hist a !! vs_version a) as [o|] eqn:E; cbn; [|done]. intros ->. split; [by apply (ho_tree _ _ (sim_hist _ _ _ H) _ _ E)|].
  pose proof (ho_dom _ _ (sim_hist _ _ _ H) _ _ E). lia.
Qed.
End Sim.

(** * Orphans *)

Definition add_orphans (ver : Z) (os : list tree) (m : gmap bytes Z) : gmap bytes Z :=
  foldl (fun m t => if tversion t =? ver then m else <[thash t := tversion t]> m) m os.

Lemma addOrphans_repr (P Q : tree -> Prop) ver os os' s : (forall t, P t -> tversion t <> ver) -> (forall t, Q t -> tversion t = ver) -> Forall2 (repr P Q) os os' ->
  addOrphans os s = (set_orphans (add_orphans ver os' (mt_orphans s)) s, Ok tt).
Proof.
  intros HP HQ HF. unfold addOrphans, add_orphans. revert s. induction HF as [|n t os os' Hn HF IH]; intros s; cbn [for_each foldl]; [unfold ret; by destruct s|].
  unfold bind. destruct (n_persisted n) eqn:Ep; cbn [negb].
  - destruct (repr_persisted P Q n t Hn Ep) as [-> Ht]. rewrite (proj2 (Z.eqb_neq _ _)) by (by apply HP).
    assert (n_hash (loaded t) = Some (thash t) /\ n_version (loaded t) = tversion t) as [-> ->] by (by destruct t).
    destruct (thash t) eqn:E; [by apply thash_nonempty in E|]. rewrite <- E. unfold modify. rewrite IH. done.
  - assert (Q t) as Ht by (destruct t; cbn [repr] in Hn; rewrite Ep in Hn; tauto). rewrite (proj2 (Z.eqb_eq _ _)) by (by apply HQ). unfold ret. by rewrite IH.
Qed.

Lemma lookup_add_orphans ver os m h f : (forall t u, t ∈ os -> u ∈ os -> tversion t <> ver -> tversion u <> ver -> thash t = thash u -> t = u) ->
  (forall t f, t ∈ os -> tversion t <> ver -> m !! thash t = Some f -> f = tversion t) ->
  add_orphans ver os m !! h = Some f <-> (exists t, t ∈ os /\ tversion t <> ver /\ h = thash t /\ f = tversion t) \/ m !! h = Some f.
Proof.
  unfold add_orphans. revert m. induction os as [|t os IH]; intros m Hinj Hm; cbn [foldl]; [set_solver|]. destruct (Z.eqb_spec (tversion t) ver) as [E|E].
  - rewrite IH; [|intros; eapply Hinj; try done; by right|intros; eapply Hm; try done; by right]. setoid_rewrite elem_of_cons. naive_solver.
  - rewrite IH.
    + setoid_rewrite elem_of_cons. destruct (decide (thash t = h)) as [<-|Hne].
      * rewrite lookup_insert_eq. split; [|intros [(u & [->|Hu] & Hv & Hh & ->)|Hl]].
        -- intros [(u & Hu & ?)|[= <-]]; [left; exists u; naive_solver|left; exists t; naive_solver].
        -- by right.
        -- left. by exists u.
        -- right. f_equal. symmetry. apply (Hm t); [left|done|done].
      * rewrite lookup_insert_ne by done. naive_solver.
    + intros u w Hu Hw. apply Hinj; by right.
    + intros u g Hu Hv Hl. destruct (decide (thash t = thash u)) as [Eh|Hne].
      * rewrite Eh, lookup_insert_eq in Hl. injection Hl as <-. f_equal. apply Hinj; try done; [left|by right].
      * rewrite lookup_insert_ne in Hl by done. apply (Hm u); [by right|done|done].
Qed.

(** The orphans after a change that replaced nodes. *)
Lemma orphans_step init s a work' os : sim init s a -> replaces (vs_version a + 1) (osubtrees (vs_work a)) (osubtrees work') os ->
  (forall t, t ∈ os -> saved_in a t \/ unsaved_in a t) -> forall h f,
  add_orphans (vs_version a + 1) os (mt_orphans s) !! h = Some f <-> exists t, saved_in a t /\ t ∉ osubtrees work' /\ h = thash t /\ f = tversion t.
Proof.
  intros H Hr Hos h f. assert (NoDup (osubtrees (vs_work a))) as Hnd.
  { pose proof (sim_ok _ _ _ H) as Hok. destruct (vs_work a) as [t|]; [apply subtrees_nodup, Hok|constructor]. }
  destruct (replaces_members _ _ _ _ Hnd Hr) as (H1 & H2 & H3).
  assert (forall t, t ∈ os -> tversion t <> vs_version a + 1 -> saved_in a t) as Hsv by (intros t Ht Hv; destruct (Hos t Ht); done).
  rewrite lookup_add_orphans; [rewrite (sim_orphans _ _ _ H); split| |].
  - intros [(t & Ht & Hv & -> & ->)|(t & Ht & Hn & -> & ->)]; exists t; (split; [auto|]); (split; [|done]).
    + by apply (H3 t).
    + intros [Ht'|Hv]%H1; [done|]. pose proof (saved_old _ _ _ H t Ht). lia.
  - intros (t & Ht & Hn & -> & ->). pose proof (saved_old _ _ _ H t Ht). destruct (decide (t ∈ osubtrees (vs_work a))) as [Hw|Hw]; [|right; by exists t].
    left. exists t. destruct (H2 t Hw) as [|Ho]; [done|]. split_and!; try done. lia.
  - intros t u Ht Hu Hv1 Hv2. apply (ho_inj _ _ (sim_hist _ _ _ H) (vs_version a) (vs_version a)); by apply Hsv.
  - intros t g Ht Hv Hl. apply (sim_orphans _ _ _ H) in Hl as (u & Hu & _ & E & ->). f_equal. symmetry. apply (ho_inj _ _ (sim_hist _ _ _ H) (vs_version a) (vs_version a)); [by apply Hsv|done|done].
Qed.

Lemma repr_members (P Q : tree -> Prop) n t : repr P Q n t -> P t \/ Q t.
Proof. intros Hn. destruct (n_persisted n) eqn:E; [left; by apply (repr_persisted P Q n t Hn)|right; destruct t; cbn [repr] in Hn; rewrite E in Hn; tauto]. Qed.

(** A change of the working tree and of the orphans keeps the rest. *)
Lemma sim_change init s a s' work' : sim init s a -> ndb s' = ndb s -> version s' = version s -> lastSaved s' = lastSaved s -> mt_versions s' = mt_versions s -> allRootLoaded s' = allRootLoaded s ->
  orepr (saved_in a) (unsaved_in a) (root s') work' -> match work' with Some t => tree_ok t | None => True end ->
  (forall t, t ∈ osubtrees work' -> saved_in a t \/ unsaved_in a t) ->
  (forall h f, mt_orphans s' !! h = Some f <-> exists t, saved_in a t /\ t ∉ osubtrees work' /\ h = thash t /\ f = tversion t) ->
  sim init s' (mkV work' (vs_hist a) (vs_version a)).
Proof.
  intros [] En Ev El Evs Ea Hr Ho Hn Hor. split; cbn [vs_work vs_hist vs_version]; try done; try (unfold tdb; by rewrite En); [by rewrite Ev|by rewrite El|by rewrite Evs|by rewrite Ea, Evs].
Qed.

(** * [Set] and [Remove] *)

Definition osize (t : option tree) : Z := match t with Some t => tsize t | None => 0 end.
Definition okeys (t : option tree) : list bytes := match t with Some t => keys t | None => [] end.

Lemma fuel_enough t : tree_ok t -> (Z.to_nat (theight t) < tree_fuel)%nat.
Proof. intros Hok. pose proof (tree_ok_height t Hok). unfold tree_fuel. lia. Qed.

(** The state after [Set]: the root and the orphans change, and the addition is noted for the fast index. *)
Definition set_result (k v : bytes) (a : vstate) (r : option Node) (m : gmap bytes Z) (s : MutableTree) : MutableTree :=
  set_orphans m (set_root r (noted k v (vs_version a + 1) s)).

Lemma set_sim init s a k v : sim init s a -> short k -> short v -> osize (vs_work a) + 1 < 2 ^ 63 ->
  exists r m, Set_ k (Some v) s = (set_result k v a r m s, Ok (bool_decide (k ∈ okeys (vs_work a)))) /\ sim init (set_result k v a r m s) (a_set k v a).
Proof.
  intros H Hk Hv Hs. pose proof (version_bound _ _ _ H) as HL. set (ver := vs_version a + 1). assert (0 < ver < 2 ^ 63) as Hver by (unfold ver; lia).
  destruct (noted_fields k v ver s) as (Ndb & Nv & Nn & Nr & No & Nl & Nvs & Na & Nsk). pose proof (sim_work _ _ _ H) as Hw. pose proof (sim_ok _ _ _ H) as Hok.
  assert (forall r m work' os, orepr (saved_in a) (unsaved_in a) (Some r) (Some work') -> tree_ok work' -> replaces ver (osubtrees (vs_work a)) (subtrees work') os ->
    (forall t, t ∈ os -> saved_in a t \/ unsaved_in a t) -> m = add_orphans ver os (mt_orphans s) -> sim init (set_result k v a (Some r) m s) (mkV (Some work') (vs_hist a) (vs_version a))) as Hfin.
  { intros r m work' os Hr Hok' Hrep Hos ->. assert (NoDup (osubtrees (vs_work a))) as Hnd by (destruct (vs_work a); [apply subtrees_nodup, Hok|constructor]).
    destruct (replaces_members _ _ _ _ Hnd Hrep) as (H1 & _ & _). eapply (sim_change init s a); try done.
    - intros t [Ht|Ht]%H1; [by apply (sim_new _ _ _ H)|by right].
    - by apply (orphans_step init). }
  unfold Set_, bind at 1, mt_set, bind at 1, gets at 1, a_set. fold ver. destruct (root s) as [n|] eqn:Er, (vs_work a) as [t|] eqn:Ew; try done; cbn [orepr osize okeys] in *.
  - pose proof (recursiveSet_repr (tdb s) (saved_in a) (unsaved_in a) ver (saved_stored _ _ _ H) (saved_left a) (saved_right a) (unsaved_new a) k v t tree_fuel s n eq_refl Hw Hok
      (fuel_enough t Hok) ltac:(lia) Hk Hv Hver (next_i64 _ _ _ H)) as Hset.
    pose proof (tset_ok ver k v t Hok ltac:(lia) Hk Hv Hver) as Hok'. pose proof (tset_spec ver k v t (proj1 Hok)) as Hspec. pose proof (tset_replaces ver k v t) as Hrep.
    destruct (tset ver k v t) as [[t' u] os']. destruct Hset as (n' & os & E & (Hn' & _) & HF). destruct Hspec as (_ & -> & _). cbn [fst snd] in *. rewrite E. unfold bind.
    rewrite (addOrphans_repr (saved_in a) (unsaved_in a) ver os os') by (try done; intros t0 Ht0; pose proof (saved_old _ _ _ H t0 Ht0); unfold ver; lia).
    exists (Some n'), (add_orphans ver os' (mt_orphans s)). split; [unfold ret, set_result; cbn [mt_orphans set_root set_itree]; by rewrite No|].
    apply (Hfin _ _ _ os'); try done. intros t0 Ht0. apply list_elem_of_lookup_1 in Ht0 as [i Hi]. destruct (Forall2_lookup_r _ _ _ _ _ HF Hi) as (n0 & _ & Hn0). by apply repr_members in Hn0.
  - unfold bind. rewrite (next_i64 _ _ _ H). fold ver. rewrite unless_skip_noted. unfold modify, ret. cbn [addOrphans for_each]. unfold ret.
    exists (Some (NewNode k v ver)), (mt_orphans s). split; [unfold set_result; f_equal; destruct s as [[]]; unfold noted, unless_skip; cbn; by destruct skipFastStorageUpgrade|].
    apply (Hfin _ _ _ []); try done; [by apply (fresh_leaf (saved_in a) (unsaved_in a) ver (unsaved_new a))| |by apply (replaces_nothing _ _ _ [Leaf k v ver]); [repeat constructor|done]|by intros t ?%not_elem_of_nil].
    split_and!; [done..|]. by apply Forall_singleton.
Qed.

Definition unnoted (k : bytes) (s : MutableTree) : MutableTree := (unless_skip (addUnsavedRemoval k) s).1.

Lemma unless_skip_unnoted k s : unless_skip (addUnsavedRemoval k) s = (unnoted k s, Ok tt).
Proof. unfold unnoted, unless_skip. by destruct (skipFastStorageUpgrade s). Qed.

Lemma unnoted_fields k s : tdb (unnoted k s) = tdb s /\ version (unnoted k s) = version s /\ ndb (unnoted k s) = ndb s /\
  mt_orphans (unnoted k s) = mt_orphans s /\ lastSaved (unnoted k s) = lastSaved s /\ mt_versions (unnoted k s) = mt_versions s /\ allRootLoaded (unnoted k s) = allRootLoaded s.
Proof. unfold unnoted, unless_skip. destruct (skipFastStorageUpgrade s) eqn:E; by split_and!. Qed.

Definition remove_result (k : bytes) (r : option Node) (m : gmap bytes Z) (s : MutableTree) : MutableTree := set_orphans m (set_root r (unnoted k s)).

(** The step of [mt_remove] that installs what is left. *)
Lemma remove_root init s a (h : option bytes) (c : option Node) t' (s1 : MutableTree) (x : option bytes * list Node * bool) : sim init s a -> tdb s1 = tdb s -> match t' with Some t => tree_ok t | None => True end ->
  match t' with None => h = None /\ c = None | Some t => child (saved_in a) (unsaved_in a) h c t end ->
  exists r, match c, h with
    | None, Some h => fun t => match GetNode (tdb t) (Some h) with Ok n => (set_root (Some n) t, Ok x) | Err e => (set_root None t, Err e) | Panic => (t, Panic) end
    | _, _ => modify (set_root c) ;; ret x
    end s1 = (set_root r s1, Ok x) /\ orepr (saved_in a) (unsaved_in a) r t'.
Proof.
  intros H Hdb Hok Hc. destruct t' as [t|]; [|destruct Hc as [-> ->]; by exists None]. destruct c as [n|]; cbn [child] in Hc.
  - exists (Some n). destruct Hc. by destruct h.
  - destruct Hc as [-> HP]. exists (Some (loaded t)). rewrite Hdb, (GetNode_stored (tdb s) t) by (try done; by apply (saved_stored _ _ _ H)). split; [done|].
    by apply (repr_loaded (saved_in a) (unsaved_in a) (saved_left a) (saved_right a)).
Qed.

Lemma remove_sim init s a k : sim init s a ->
  exists s', Remove k s = (s', Ok (otree_map (vs_work a) !! k, bool_decide (k ∈ okeys (vs_work a)))) /\ sim init s' (a_remove k a) /\
    if bool_decide (k ∈ okeys (vs_work a)) then exists r m, s' = remove_result k r m s else s' = s.
Proof.
  intros H. pose proof (version_bound _ _ _ H) as HL. set (ver := vs_version a + 1). assert (0 < ver < 2 ^ 63) as Hver by (unfold ver; lia).
  pose proof (sim_work _ _ _ H) as Hw. pose proof (sim_ok _ _ _ H) as Hok. unfold Remove, bind at 1, mt_remove, bind at 1, gets at 1, a_remove. fold ver.
  destruct (root s) as [n|] eqn:Er, (vs_work a) as [t|] eqn:Ew; try done; cbn [orepr okeys otree_map] in *.
  2:{ exists s. rewrite lookup_empty, bool_decide_false by (by intros ?%not_elem_of_nil). by split_and!. }
  rewrite (next_i64 _ _ _ H). fold ver. unfold bind at 1, reading at 1.
  destruct (recursiveRemove_repr (tdb s) (saved_in a) (unsaved_in a) ver (saved_stored _ _ _ H) (saved_left a) (saved_right a) (unsaved_new a) k t tree_fuel n Hw Hok (fuel_enough t Hok) Hver)
    as (x & -> & Hx). pose proof (tremove_spec ver k t (proj1 Hok)) as Hspec. pose proof (tremove_replaces ver k t) as Hrep. pose proof (tremove_ok ver k t) as Hrok.
  destruct (tremove ver k t) as [[[[t' nk] v] os']|]; cbn [removed] in Hx.
  2:{ subst x. rewrite bool_decide_true by done. exists s. rewrite bool_decide_false by done. unfold to_map. rewrite not_elem_of_list_to_map_1 by done. by split_and!. }
  destruct Hx as (h & c & os & -> & HF & Hne & Hc). destruct Hspec as (Hin & _). assert (k ∈ keys t) as Hkin by (apply list_elem_of_fmap; by exists (k, v)).
  rewrite (bool_decide_true (k ∈ _)) by done. rewrite bool_decide_false by done.
  assert (match t' with Some t => tree_ok t | None => True end) as Hok' by (destruct t'; [by eapply Hrok|done]).
  assert (to_map t !! k = Some v) as -> by (apply elem_of_list_to_map_1; [apply bst_nodup, Hok|done]).
  destruct (unnoted_fields k s) as (Ndb & Nv & Nn & No & Nl & Nvs & Na). destruct (remove_root init s a h c t' (unnoted k s) (Some v, os, true) H Ndb Hok' Hc) as (r & Er' & Hr).
  unfold bind at 1. rewrite unless_skip_unnoted, Er'. unfold bind.
  rewrite (addOrphans_repr (saved_in a) (unsaved_in a) ver os os') by (try done; intros t0 Ht0; pose proof (saved_old _ _ _ H t0 Ht0); unfold ver; lia).
  eexists. split; [reflexivity|]. split; [|by exists r, (add_orphans ver os' (mt_orphans (unnoted k s)))]. cbn [mt_orphans set_root set_itree]. rewrite No.
  assert (NoDup (subtrees t)) as Hnd by apply subtrees_nodup, Hok. destruct (replaces_members _ _ _ _ Hnd Hrep) as (H1 & _ & _). eapply (sim_change init s a); try done.
  - intros t0 [Ht|Ht]%H1; [apply (sim_new _ _ _ H); by rewrite Ew|by right].
  - apply (orphans_step init); [done|by rewrite Ew|]. intros t0 Ht0. apply list_elem_of_lookup_1 in Ht0 as [i Hi]. destruct (Forall2_lookup_r _ _ _ _ _ HF Hi) as (n0 & _ & Hn0). by apply repr_members in Hn0.
Qed.

(** * [Rollback] *)

Lemma latest_orepr init s a : sim init s a -> orepr (saved_in a) (unsaved_in a) (loaded <$> latest_tree a) (latest_tree a).
Proof.
  intros H. destruct (latest_tree a) as [r|] eqn:E; [|done]. apply (repr_loaded (saved_in a) (unsaved_in a) (saved_left a) (saved_right a)).
  apply latest_member. exists r. split; [done|apply subtrees_self].
Qed.

Lemma rollback_sim init s a : sim init s a -> exists s', Rollback s = (s', Ok tt) /\ sim init s' (a_rollback a).
Proof.
  intros H. eexists. split; [reflexivity|]. unfold a_rollback. pose proof (sim_saved _ _ _ H) as El. pose proof (sim_version _ _ _ H) as Ev. pose proof (version_bound _ _ _ H).
  assert ((if 0 <? version s then lastSaved s else mkITree None 0) = mkITree (loaded <$> latest_tree a) (vs_version a)) as ->.
  { rewrite Ev, El. destruct (Z.ltb_spec 0 (vs_version a)); [done|]. destruct (latest_tree a) as [r|] eqn:E; [apply (latest_ok _ _ _ H) in E; lia|]. f_equal. lia. }
  assert (match latest_tree a with Some t => tree_ok t | None => True end) as Hlok by (destruct (latest_tree a) as [r|] eqn:E; [by apply (latest_ok _ _ _ H)|done]).
  assert (forall h f, (∅ : gmap bytes Z) !! h = Some f <-> exists t, saved_in a t /\ t ∉ osubtrees (latest_tree a) /\ h = thash t /\ f = tversion t) as Ho.
  { intros h f. rewrite lookup_empty. split; [done|]. intros (t & (r & E & Ht)%latest_member & Hn & _). by rewrite E in Hn. }
  eapply (sim_change init s a); try done; cbn; try (by destruct (skipFastStorageUpgrade s)).
  - destruct (skipFastStorageUpgrade s); by apply (latest_orepr init s).
  - intros t Ht. left. apply latest_member. destruct (latest_tree a) as [r|]; [by exists r|by apply not_elem_of_nil in Ht].
Qed.

(** * Reading the version entries of a database that differs only in its nodes *)

Lemma range_iter_ext (lo hi : option bytes) (d1 d2 : database) : (forall k, in_domain lo hi k = true -> d1 !! k = d2 !! k) -> range_iter lo hi d1 = range_iter lo hi d2.
Proof.
  intros Heq. apply (StronglySorted_unique_strong entry_le); [|apply range_iter_sorted..|].
  - intros [k1 v1] [k2 v2] H1 H2 L1 L2. unfold entry_le in *; cbn in *. assert (k1 = k2) as -> by (by apply (anti_symm bytes_le)).
    apply elem_of_range_iter in H1 as [H1 Hd], H2 as [H2 _]. rewrite Heq in H1 by done. congruence.
  - apply NoDup_Permutation; [eapply NoDup_fmap_1, NoDup_range_iter..|]. intros [k v]. rewrite !elem_of_range_iter. split; intros [Hl Hd]; (split; [|done]); [by rewrite <- Heq|by rewrite Heq].
Qed.

Lemma getPreviousVersion_ext v n m : (forall k, head k = Some 114 -> nd_db n !! k = nd_db m !! k) -> (getPreviousVersion v n).2 = (getPreviousVersion v m).2.
Proof.
  intros He. unfold getPreviousVersion, bind, gets. rewrite (range_iter_ext _ _ (nd_db n) (nd_db m)); [destruct (last _) as [[k b]|]; [unfold scanned; by destruct (scan_root k)|done]|].
  intros k. rewrite !rootKey_rkey. unfold in_domain. rewrite andb_true_iff, bytes_ltb_lt. intros [H1 H2]. destruct (between_prefix _ _ _ _ H1 H2) as [k' ->]. by apply He.
Qed.

Lemma getPreviousVersion_state v n : (getPreviousVersion v n).1 = n.
Proof. unfold getPreviousVersion, bind, gets. destruct (last _) as [[k b]|]; [|done]. unfold scanned. by destruct (scan_root k). Qed.

Section Wrote.
  Context (hist : history) (L : Z) (m0 m : nodeDB) (ws : list write).
  Hypothesis Hok : hist_ok hist L.
  Hypothesis Hst : is_store hist L (nd_db m0).
  Hypothesis Hwr : wrote m0 m ws.

Lemma previous_wrote v m' : nd_db m' = nd_db m -> is_v v -> L < v -> getPreviousVersion v m' = (m', Ok L).
Proof.
  intros Hm Hv HLv. rewrite (surjective_pairing (getPreviousVersion v m')), getPreviousVersion_state. f_equal.
  rewrite (getPreviousVersion_ext v m' m0); [|intros k Hk; rewrite Hm; apply Hwr; unfold node_key; by rewrite Hk].
  destruct (getPreviousVersion_spec hist L _ Hok Hst v m0 eq_refl Hv) as (p & -> & Hp). cbn [snd]. f_equal. by apply (prev_unique _ _ _ _ Hp), prev_latest.
Qed.

Lemma latest_wrote m' : nd_db m' = nd_db m -> latestVersion m' = 0 \/ latestVersion m' = L -> getLatestVersion m' = (set_latestVersion L m', Ok L).
Proof.
  intros Hm HL. unfold getLatestVersion, bind at 1, gets at 1. pose proof (ho_bound _ _ Hok). destruct (Z.eqb_spec (latestVersion m') 0) as [E|E].
  - unfold bind. rewrite previous_wrote by (try done; unfold is_v, maxVersion; lia). done.
  - destruct HL as [|HL]; [done|]. rewrite HL. unfold ret. f_equal. unfold set_latestVersion. rewrite <- HL. by destruct m'.
Qed.

Lemma SaveOrphans_wrote v orph : is_v v -> L < v -> (forall h f, orph !! h = Some f -> length h = 32%nat /\ f <= L) -> SaveOrphans v orph m = (appends m (orphan_saves L orph), Ok tt).
Proof.
  intros Hv HLv Ho. unfold SaveOrphans, bind at 1. rewrite previous_wrote by done. unfold orphan_saves.
  rewrite <- mjoin_singletons.
  apply for_each_appends. intros [h f] n Hin%elem_of_map_to_list _. destruct (Ho h f Hin) as [Hlen Hf].
  unfold saveOrphan, guard, bind. rewrite (proj2 (Z.ltb_ge _ _)) by done. cbn [negb ret]. unfold orphanKey. rewrite orphanKey_okey by done. done.
Qed.

Lemma saveRoot_wrote v h m' : nd_db m' = nd_db m -> latestVersion m' = 0 \/ latestVersion m' = L -> L < v -> 0 < L -> v = L + 1 -> saveRoot h v m' = (set_latestVersion v (appends m' [(rkey v, Some h)]), Ok tt).
Proof.
  intros Hm HL HLv Hpos ->. unfold saveRoot, bind at 1. rewrite latest_wrote by done. unfold guard, bind. pose proof (ho_bound _ _ Hok).
  rewrite wrapS_small, Z.eqb_refl, andb_false_r by lia. cbn [negb ret]. unfold key_of. rewrite rootKey_rkey. unfold ret, batch_Set, updateLatestVersion, modify. cbn.
  rewrite (proj2 (Z.ltb_lt _ _)) by lia. done.
Qed.

Lemma saveRoot_first v h m' : nd_db m' = nd_db m -> latestVersion m' = 0 \/ latestVersion m' = L -> L = 0 -> 0 < v -> saveRoot h v m' = (set_latestVersion v (appends m' [(rkey v, Some h)]), Ok tt).
Proof.
  intros Hm HL HL0 Hv. unfold saveRoot, bind at 1. rewrite latest_wrote by done. unfold guard, bind. rewrite (proj2 (Z.ltb_ge 0 L)) by lia. cbn [andb negb ret]. unfold key_of. rewrite rootKey_rkey.
  unfold ret, batch_Set, updateLatestVersion, modify. cbn. rewrite (proj2 (Z.ltb_lt _ _)) by lia. done.
Qed.
End Wrote.
