(* ===== verification/IavlCommit.v ===== *)
(** Saving, deleting, loading and reading versions of the tree store. *)

From Stdlib Require Import ZArith Lia Ascii String.
From stdpp Require Import base list gmap strings sorting.
From S2P Require Import Prelude KVStore BigInt Sha256 IavlEncoding IavlNode IavlSpec IavlRepr IavlIter IavlDb IavlMutable IavlMutableProps IavlStore IavlVersions.
Open Scope Z_scope.
Open Scope go_scope.

(** * The storage version *)

Lemma Split_plain sep b : sep ∉ b -> Split sep b = [b].
Proof.
  induction b as [|c b IH]; intros Hb; cbn; [done|]. apply not_elem_of_cons in Hb as [Hc Hb]. rewrite (proj2 (Z.eqb_neq _ _)) by (intros ->; done). by rewrite IH.
Qed.

Lemma Split_two sep b c : sep ∉ b -> sep ∉ c -> Split sep (b ++ [sep] ++ c) = [b; c].
Proof.
  intros Hb Hc. induction b as [|x b IH]; cbn; [by rewrite Z.eqb_refl, Split_plain|]. apply not_elem_of_cons in Hb as [Hx Hb].
  rewrite (proj2 (Z.eqb_neq _ _)) by (intros ->; done). cbn in IH. by rewrite IH.
Qed.

Lemma Split_head sep b : exists w ws, Split sep b = w :: ws /\ sep ∉ w.
Proof.
  induction b as [|c b (w & ws & IH & Hw)]; cbn; [exists [], []; split; [done|apply not_elem_of_nil]|]. destruct (Z.eqb_spec c sep).
  - exists [], (Split sep b). split; [done|apply not_elem_of_nil].
  - rewrite IH. exists (c :: w), ws. split; [done|]. apply not_elem_of_cons. split; [by intros ->|done].
Qed.

Lemma uint_no_dash u : 45 ∉ str (DecimalString.NilEmpty.string_of_uint u).
Proof.
  induction u; cbn; [apply not_elem_of_nil|..]; (apply not_elem_of_cons; split; [done|exact IHu]).
Qed.

(** A version number has no dash. *)
Lemma Itoa_no_dash v : 0 <= v -> 45 ∉ Itoa v.
Proof.
  intros Hv. unfold Itoa, BigString. destruct v as [|p|p]; [cbn; set_solver| |lia]. cbn [Z.to_int DecimalString.NilZero.string_of_int].
  unfold DecimalString.NilZero.string_of_uint. destruct (Pos.to_uint p) eqn:E; [cbn; set_solver|rewrite <- E; apply uint_no_dash..].
Qed.

(** The storage version after a save of version [v]. *)
Definition new_storage (sv : bytes) (v : Z) : bytes :=
  (if bytes_leb fastStorageVersionValue sv then default [] (head (Split fastStorageVersionDelimiter sv)) else fastStorageVersionValue) ++ [fastStorageVersionDelimiter] ++ Itoa v.

Lemma new_storage_split sv v : 0 <= v -> exists w, Split fastStorageVersionDelimiter (new_storage sv v) = [w; Itoa v].
Proof.
  intros Hv. unfold new_storage. destruct (bytes_leb _ _).
  - destruct (Split_head fastStorageVersionDelimiter sv) as (w & ws & -> & Hw). exists w. cbn [head default from_option id]. apply Split_two; [done|by apply Itoa_no_dash].
  - exists fastStorageVersionValue. apply Split_two; [by vm_compute; set_solver|by apply Itoa_no_dash].
Qed.

(** * The writes to the fast index *)

Lemma fastNodeKey_eq k : KeyBytes fastKeyFormat [k] = Some (fastKey k).
Proof. unfold KeyBytes. cbn. by rewrite ?app_nil_r. Qed.

Definition addition_writes (adds : gmap bytes FastNode) : list write :=
  omap (fun k => fn ← adds !! k; Some (fastKey (fn_key fn), Some (fast_WriteBytes fn))) (merge_sort bytes_le (map_to_list adds).*1).
Definition removal_writes (rems : gset bytes) : list write := (fun k => (fastKey k, None)) <$> merge_sort bytes_le (elements rems).

Definition fast_writes (s : MutableTree) (v : Z) : list write :=
  addition_writes (unsavedFastNodeAdditions s) ++ removal_writes (unsavedFastNodeRemovals s) ++ [(metadata_key, Some (new_storage (storageVersion (ndb s)) v))].

(** The tree after a save has written to the fast index. *)
Definition fast_saved (s : MutableTree) (v : Z) : MutableTree :=
  set_ndb (set_storageVersion (new_storage (storageVersion (ndb s)) v) (appends (ndb s) (fast_writes s v))) s.

Lemma saveFastNodeAdditions_spec s : saveFastNodeAdditions s = (set_ndb (appends (ndb s) (addition_writes (unsavedFastNodeAdditions s))) s, Ok tt).
Proof.
  unfold saveFastNodeAdditions, bind at 1, gets, addition_writes. set (adds := unsavedFastNodeAdditions s). assert (Forall (fun k => is_Some (adds !! k)) (merge_sort bytes_le (map_to_list adds).*1)) as HF.
  { apply Forall_forall. intros k. rewrite merge_sort_Permutation. intros ([k' fn] & -> & Hin%elem_of_map_to_list)%list_elem_of_fmap. by eexists. }
  generalize s. induction HF as [|k l [fn Hk] HF IH]; intros s0; cbn [for_each omap list_omap]; [rewrite appends_nil; by destruct s0|]. rewrite Hk. cbn [mbind option_bind].
  unfold bind at 1, on_ndb, SaveFastNode, bind, fastNodeKey, key_of. rewrite fastNodeKey_eq. unfold ret, batch_Set, modify. cbn iota beta.
  rewrite IH. f_equal. unfold set_ndb, appends, set_db. cbn. by rewrite <- app_assoc.
Qed.

Lemma saveFastNodeRemovals_spec s : saveFastNodeRemovals s = (set_ndb (appends (ndb s) (removal_writes (unsavedFastNodeRemovals s))) s, Ok tt).
Proof.
  unfold saveFastNodeRemovals, bind at 1, gets, removal_writes. generalize (merge_sort bytes_le (elements (unsavedFastNodeRemovals s))). intros l. revert s. induction l as [|k l IH]; intros s; cbn [for_each fmap list_fmap].
  - rewrite appends_nil. by destruct s.
  - unfold bind at 1, on_ndb, DeleteFastNode, bind, fastNodeKey, key_of. rewrite fastNodeKey_eq. unfold ret, batch_Delete, modify. cbn iota beta.
    rewrite IH. f_equal. unfold set_ndb, appends, set_db. cbn. by rewrite <- app_assoc.
Qed.

Lemma setFastStorageVersionToBatch_spec n v : (length (Split fastStorageVersionDelimiter (storageVersion n)) <= 2)%nat -> latestVersion n = v -> 0 < v ->
  setFastStorageVersionToBatch n = (set_storageVersion (new_storage (storageVersion n) v) (appends n [(metadata_key, Some (new_storage (storageVersion n) v))]), Ok tt).
Proof.
  intros Hsp Hl Hv. unfold setFastStorageVersionToBatch, bind at 1, gets at 1, hasUpgradedToFastStorage. unfold new_storage.
  assert (getLatestVersion n = (n, Ok v)) as EL by (unfold getLatestVersion, bind at 1, gets; rewrite (proj2 (Z.eqb_neq _ _)), Hl by lia; done).
  destruct (bytes_leb _ _); unfold bind, guard, ret; [rewrite (proj2 (Nat.leb_le _ _) Hsp); cbn iota|]; rewrite EL; unfold key_of; rewrite metadataKey_eq; done.
Qed.

Lemma saveFastNodeVersion_spec s v : (length (Split fastStorageVersionDelimiter (storageVersion (ndb s))) <= 2)%nat -> latestVersion (ndb s) = v -> 0 < v ->
  saveFastNodeVersion s = (fast_saved s v, Ok tt).
Proof.
  intros Hsp Hl Hv. unfold saveFastNodeVersion, bind. rewrite saveFastNodeAdditions_spec, saveFastNodeRemovals_spec. unfold on_ndb.
  rewrite (setFastStorageVersionToBatch_spec _ v) by done. f_equal. unfold fast_saved, fast_writes, appends, set_ndb, set_db. cbn. by rewrite <- !app_assoc.
Qed.

Lemma fast_writes_keys s v k : k ∈ (fast_writes s v).*1 -> ~ tree_key k.
Proof.
  unfold fast_writes. rewrite !fmap_app, !elem_of_app. intros [H|[H|H]].
  - apply list_elem_of_fmap in H as ([k' w] & -> & H). unfold addition_writes in H. apply list_elem_of_omap in H as (k0 & _ & E).
    destruct (unsavedFastNodeAdditions s !! k0); cbn [mbind option_bind] in E; [|done]. apply Some_inj, pair_equal_spec in E as [<- _]. cbn. lia.
  - apply list_elem_of_fmap in H as ([k' w] & -> & H). unfold removal_writes in H. apply list_elem_of_fmap in H as (k0 & E & _). apply pair_equal_spec in E as [-> _]. cbn. lia.
  - apply list_elem_of_singleton in H as ->. cbn. lia.
Qed.

(** The store does not depend on the entries of the fast index. *)
Lemma is_store_ext (hist : history) (L : Z) (d1 d2 : database) : (forall k, tree_key k -> d1 !! k = d2 !! k) -> is_store hist L d1 -> is_store hist L d2.
Proof. intros He Hs k b Hk. rewrite <- (He k Hk). by apply Hs. Qed.

(** * [VersionExists] *)

Lemma sim_set_versions init s a m : sim init s a -> (forall v b, m !! v = Some b -> b = bool_decide (is_Some (vs_hist a !! v))) ->
  (allRootLoaded s = true -> forall v, is_Some (vs_hist a !! v) -> m !! v = Some true) -> sim init (set_versions m s) a.
Proof. intros [] Hm Hl. by split. Qed.

Lemma VersionExists_sim init s a v : sim init s a -> is_v v ->
  exists m, VersionExists v s = (set_versions m s, Ok (bool_decide (is_Some (vs_hist a !! v)))) /\ sim init (set_versions m s) a.
Proof.
  intros H Hv. unfold VersionExists, bind at 1, gets at 1. pose proof (sim_versions _ _ _ H v) as Hvs. assert (set_versions (mt_versions s) s = s) as Es by (by destruct s).
  destruct (allRootLoaded s) eqn:El.
  - exists (mt_versions s). rewrite Es. split; [|done]. unfold ret. do 2 f_equal. destruct (mt_versions s !! v) as [b|] eqn:E; cbn; [by apply Hvs|].
    symmetry. apply bool_decide_false. intros Hin. pose proof (sim_loaded _ _ _ H El v Hin). congruence.
  - destruct (mt_versions s !! v) as [b|] eqn:E; [exists (mt_versions s); rewrite Es; split; [|done]; by rewrite (Hvs b)|].
    unfold bind, on_ndb, HasRoot, bind, key_of. rewrite rootKey_rkey. unfold ret, gets, modify. cbn iota beta. fold (tdb s).
    rewrite (root_lookup (vs_hist a) (vs_version a) (tdb s) (sim_hist _ _ _ H) (sim_store _ _ _ H) v Hv).
    assert (bool_decide (is_Some (root_hash <$> vs_hist a !! v)) = bool_decide (is_Some (vs_hist a !! v))) as -> by (apply bool_decide_ext; by rewrite fmap_is_Some).
    eexists. assert (forall x, set_ndb (ndb x) x = x) as En by (by intros []). rewrite En. split; [reflexivity|]. apply sim_set_versions; [done| |by rewrite El].
    intros w b. destruct (decide (v = w)) as [->|]; [rewrite lookup_insert_eq; by intros [= <-]|]. rewrite lookup_insert_ne by done. apply (sim_versions _ _ _ H).
Qed.

(** * [SaveVersion] *)

Definition work_hash (a : vstate) : bytes := match vs_work a with None => sha256 [] | Some t => thash t end.

Section SaveTree.
  Context (init : Z) (s : MutableTree) (a : vstate).
  Hypothesis H : sim init s a.
Let v := next_version init a.
  Hypothesis Hv : v < 2 ^ 62.
  Hypothesis Hcf : collision_free (vs_hist (a_save init a)).

Lemma next_bound : vs_version a + 1 <= v.
Proof. unfold v, next_version. pose proof (version_bound _ _ _ H). pose proof (sim_init _ _ _ H). destruct (Z.eqb_spec (vs_version a) 0), (Z.ltb_spec 0 init); cbn; lia. Qed.

Lemma orphan_limits h f : mt_orphans s !! h = Some f -> length h = 32%nat /\ f <= vs_version a.
Proof. intros (t & Ht & _ & -> & ->)%(sim_orphans _ _ _ H). split; [apply length_thash|by apply (saved_old _ _ _ H)]. Qed.

Lemma saveRoot_next m0 m ws h m' : is_store (vs_hist a) (vs_version a) (nd_db m0) -> wrote m0 m ws -> nd_db m' = nd_db m -> latestVersion m' = 0 \/ latestVersion m' = vs_version a ->
  saveRoot h v m' = (set_latestVersion v (appends m' [(rkey v, Some h)]), Ok tt).
Proof.
  intros Hst Hw Hm HL. pose proof (version_bound _ _ _ H). pose proof next_bound. destruct (Z.eq_dec (vs_version a) 0) as [E|E].
  - eapply (saveRoot_first _ _ m0 m ws (sim_hist _ _ _ H)); try done. lia.
  - eapply (saveRoot_wrote _ _ m0 m ws (sim_hist _ _ _ H)); try done; [lia|lia|]. unfold v, next_version. by rewrite (proj2 (Z.eqb_neq _ _)).
Qed.

(** The writes of [save_tree]. *)
Definition tree_writes : list write :=
  save_writes (vs_version a) (vs_work a) (mt_orphans s) v (match vs_work a with Some t => node_writes (vs_version a + 1) t | None => [] end).

Lemma save_tree_spec s1 : ndb s1 = ndb s -> mt_orphans s1 = mt_orphans s -> root s1 = root s ->
  exists n, save_tree v s1 = (set_ndb n (set_root (loaded <$> vs_work a) s1), Ok tt) /\ flush n = apply_batch tree_writes (tdb s) /\ latestVersion n = v /\
    InitialVersion n = InitialVersion (ndb s) /\ versionReaders n = versionReaders (ndb s) /\ storageVersion n = storageVersion (ndb s).
Proof.
  intros En Eo Er. pose proof (sim_work _ _ _ H) as Hw. pose proof (sim_batch _ _ _ H) as Hb. pose proof (version_bound _ _ _ H) as HL. pose proof next_bound as Hnv. pose proof orphan_limits as Ho.
  assert (is_v v) as Hiv by (unfold is_v; lia). assert (flush (ndb s) = tdb s) as Ef by (unfold flush; by rewrite Hb).
  unfold save_tree, bind at 1, gets at 1, tree_writes, save_writes. rewrite Er, Eo. destruct (root s) as [n|], (vs_work a) as [t|] eqn:Ew; try done; cbn [orepr fmap option_fmap option_map root_hash] in *.
  - destruct (SaveBranch_repr (saved_in a) (unsaved_in a) (vs_version a + 1) (fun t Ht => Ht) (fun t Ht => ltac:(pose proof (saved_old _ _ _ H t Ht); lia)) t n (ndb s) Hw) as (m1 & E1 & W1); [by rewrite Hb|].
    pose proof W1 as (Wf & _ & W3 & W4 & W5 & W6 & _). unfold bind, on_ndb. rewrite En, E1. unfold modify. cbn [ndb set_ndb set_root set_itree].
    rewrite (SaveOrphans_wrote (vs_hist a) (vs_version a) (ndb s) m1 _ (sim_hist _ _ _ H) (sim_store _ _ _ H) W1) by (try done; lia). unfold SaveRoot.
    assert (n_hash (loaded t) = Some (thash t)) as -> by (by destruct t). destruct (thash t) eqn:Eh; [by apply thash_nonempty in Eh|]. rewrite <- Eh.
    cbn [ndb set_ndb]. rewrite (saveRoot_next (ndb s) m1 _ _ _ (sim_store _ _ _ H) W1) by (try done; cbn; rewrite W6; apply (sim_latest _ _ _ H)).
    eexists. split; [reflexivity|]. split; [|by cbn]. change (flush (set_latestVersion v ?x)) with (flush x). rewrite !flush_appends, Wf, Ef. unfold apply_batch. by rewrite !foldl_app.
  - unfold bind, on_ndb. rewrite En. rewrite (SaveOrphans_wrote (vs_hist a) (vs_version a) (ndb s) (ndb s) [] (sim_hist _ _ _ H) (sim_store _ _ _ H) (wrote_refl _)) by (try done; lia).
    unfold SaveEmptyRoot. cbn [ndb set_ndb]. rewrite (saveRoot_next (ndb s) (ndb s) [] _ _ (sim_store _ _ _ H) (wrote_refl _)) by (try done; apply (sim_latest _ _ _ H)).
    assert (root s1 = None) as Er1 by done. eexists. split; [f_equal; unfold set_ndb, set_root, set_itree; cbn; f_equal; destruct s1 as [[]]; cbn in *; by subst|].
    split; [|by cbn]. change (flush (set_latestVersion v ?x)) with (flush x). rewrite !flush_appends, Ef. unfold apply_batch. by rewrite !foldl_app.
Qed.

Lemma tree_writes_store : is_store (vs_hist (a_save init a)) v (apply_batch tree_writes (tdb s)) /\ hist_ok (vs_hist (a_save init a)) v.
Proof.
  pose proof next_bound as Hnv. cbn [a_save vs_hist]. fold v.
  assert (forall t, t ∈ osubtrees (vs_work a) -> member (vs_hist a) (vs_version a) t \/ (nkey (thash t), Some (tbytes t)) ∈ (match vs_work a with Some t => node_writes (vs_version a + 1) t | None => [] end)) as Hcov.
  { pose proof (sim_work _ _ _ H) as Hw. destruct (root s) as [n|], (vs_work a) as [t|]; try done; [|by intros t ?%not_elem_of_nil].
    apply (node_writes_cover (saved_in a) (unsaved_in a) _ t) with (n := n); [intros; split; [by eapply saved_left|by eapply saved_right]|done|done]. }
  split.
  - apply (save_store (vs_hist a) (vs_version a) (tdb s) (vs_work a) (mt_orphans s) (vs_version a + 1) v); try done; [apply (sim_hist _ _ _ H)|apply (sim_store _ _ _ H)|apply (sim_new _ _ _ H)|apply (sim_orphans _ _ _ H)|].
    intros k w Hin. destruct (vs_work a) as [t|]; [by apply elem_of_node_writes in Hin|by apply not_elem_of_nil in Hin].
  - apply (save_hist_ok (vs_hist a) (vs_version a) (vs_work a) (vs_version a + 1) v); try done; [apply (sim_hist _ _ _ H)|apply (sim_ok _ _ _ H)|apply (sim_new _ _ _ H)].
Qed.

Lemma tree_writes_other k : ~ tree_key k -> k ∉ (tree_writes).*1.
Proof.
  intros Hk ([k' w] & -> & Hin)%list_elem_of_fmap. unfold tree_writes, save_writes, orphan_saves in Hin. rewrite !elem_of_app, list_elem_of_singleton, list_elem_of_fmap in Hin. cbn [fst] in Hk. apply Hk.
  destruct Hin as [Hin|[([h f] & E & _)|E]]; [|apply pair_equal_spec in E as [-> _]; right; by left|apply pair_equal_spec in E as [-> _]; right; by right].
  destruct (vs_work a) as [t|]; [|by apply not_elem_of_nil in Hin]. apply elem_of_node_writes in Hin as (u & _ & -> & _). by left.
Qed.
End SaveTree.

(** The tree after a version is saved: [n] is the database before the last commit. *)
Definition committed (n : nodeDB) (w : option tree) (v : Z) (s : MutableTree) : MutableTree :=
  let i := mkITree (loaded <$> w) v in
  let s := mkTree i i ∅ (<[v := true]> (mt_versions s)) (allRootLoaded s) (unsavedFastNodeAdditions s) (unsavedFastNodeRemovals s) (reset n) (skipFastStorageUpgrade s) in
  if skipFastStorageUpgrade s then s else set_unsaved ∅ ∅ s.

(** The database after the writes of a save, before they are committed. *)
Definition save_batch (s : MutableTree) (n : nodeDB) (v : Z) : nodeDB :=
  if skipFastStorageUpgrade s then n else set_storageVersion (new_storage (storageVersion (ndb s)) v) (appends n (fast_writes s v)).

Lemma SaveVersion_run init s a : sim init s a -> next_version init a < 2 ^ 62 -> exists m n,
  SaveVersion s = (committed (save_batch s n (next_version init a)) (vs_work a) (next_version init a) (set_versions m s), Ok (work_hash a, next_version init a)) /\
  flush n = apply_batch (tree_writes init s a) (tdb s) /\ latestVersion n = next_version init a /\
  InitialVersion n = InitialVersion (ndb s) /\ versionReaders n = versionReaders (ndb s) /\ storageVersion n = storageVersion (ndb s) /\ sim init (set_versions m s) a.
Proof.
  intros H Hv. set (v := next_version init a) in *. pose proof (next_bound init s a H) as Hnb. fold v in Hnb. pose proof (version_bound _ _ _ H) as HL. pose proof (sim_init _ _ _ H) as [Ei Hi].
  assert (vs_hist a !! v = None) as Hnone. { destruct (vs_hist a !! v) eqn:E; [|done]. pose proof (ho_dom _ _ (sim_hist _ _ _ H) _ _ E). lia. }
  destruct (VersionExists_sim init s a v H ltac:(unfold is_v; lia)) as (m & Ex & Hm). rewrite bool_decide_false in Ex by (rewrite Hnone; by intros []).
  destruct (save_tree_spec init s a H Hv (set_versions m s) eq_refl eq_refl eq_refl) as (n & Es & Ef & En & E1 & E2 & E3). fold v in Es, En. exists m, n. split; [|by split_and!].
  unfold SaveVersion, bind at 1, gets at 1. rewrite (next_i64 _ _ _ H), Ei.
  assert ((if (vs_version a + 1 =? 1) && (0 <? init) then i64 init else vs_version a + 1) = v) as ->.
  { unfold v, next_version. destruct (Z.eqb_spec (vs_version a + 1) 1), (Z.eqb_spec (vs_version a) 0); try lia; [|done]. destruct (0 <? init); [cbn|done]. apply wrapS_small; lia. }
  unfold bind at 1. rewrite Ex. unfold bind at 1. rewrite Es.
  assert (unless_skip saveFastNodeVersion (set_ndb n (set_root (loaded <$> vs_work a) (set_versions m s))) = (set_ndb (save_batch s n v) (set_root (loaded <$> vs_work a) (set_versions m s)), Ok tt)) as Eu.
  { unfold unless_skip, save_batch. cbn [skipFastStorageUpgrade set_ndb set_root set_itree set_versions]. destruct (skipFastStorageUpgrade s); [done|].
    rewrite (saveFastNodeVersion_spec _ v); [|cbn; rewrite E3; apply (sim_storage _ _ _ H)|done|lia]. unfold fast_saved, fast_writes. cbn [ndb set_ndb unsavedFastNodeAdditions unsavedFastNodeRemovals set_root set_itree set_versions]. by rewrite E3. }
  unfold bind at 1. rewrite Eu. unfold work_hash. generalize (save_batch s n v). intros nb. clear -v.
  destruct s as [i ls o vs al ad rm nd []]; (destruct (vs_work a) as [[]|]); reflexivity.
Qed.

Lemma save_sim init s a : sim init s a -> next_version init a < 2 ^ 62 -> collision_free (vs_hist (a_save init a)) ->
  exists s', SaveVersion s = (s', Ok (work_hash a, next_version init a)) /\ sim init s' (a_save init a).
Proof.
  intros H Hv Hcf. destruct (SaveVersion_run init s a H Hv) as (m & n & E & Ef & En & E1 & E2 & E3 & Hm). eexists. split; [exact E|]. set (v := next_version init a) in *.
  pose proof (next_bound init s a H) as Hnb. fold v in Hnb. pose proof (version_bound _ _ _ H) as HL. destruct (tree_writes_store init s a H Hv Hcf) as [Hst Hok]. fold v in Hst, Hok.
  assert (forall t, member (<[v := vs_work a]> (vs_hist a)) v t <-> t ∈ osubtrees (vs_work a)) as Hmem by (intros t; apply member_new).
  assert (tdb (committed (save_batch s n v) (vs_work a) v (set_versions m s)) = flush (save_batch s n v)) as Edb by (unfold committed; cbn [skipFastStorageUpgrade]; by destruct (skipFastStorageUpgrade _)).
  assert (forall b, lastSaved (committed b (vs_work a) v (set_versions m s)) = mkITree (loaded <$> vs_work a) v /\ itree (committed b (vs_work a) v (set_versions m s)) = mkITree (loaded <$> vs_work a) v /\
    mt_orphans (committed b (vs_work a) v (set_versions m s)) = ∅ /\ mt_versions (committed b (vs_work a) v (set_versions m s)) = <[v := true]> m /\
    allRootLoaded (committed b (vs_work a) v (set_versions m s)) = allRootLoaded s /\ ndb (committed b (vs_work a) v (set_versions m s)) = reset b) as Hf.
  { intros b. unfold committed. cbn [skipFastStorageUpgrade]. by destruct (skipFastStorageUpgrade _). }
  destruct (Hf (save_batch s n v)) as (F1 & F2 & F3 & F4 & F5 & F6). clear Hf.
  split; cbn [a_save vs_work vs_hist vs_version]; fold v; try done.
  - rewrite Edb. eapply is_store_ext; [|exact Hst]. intros k Hk. rewrite <- Ef. unfold save_batch. destruct (skipFastStorageUpgrade s); [done|].
    change (flush (set_storageVersion ?x ?y)) with (flush y). rewrite flush_appends. symmetry. apply apply_batch_other. intros Hin. by apply fast_writes_keys in Hin.
  - by rewrite F6.
  - rewrite F6. right. unfold save_batch. by destruct (skipFastStorageUpgrade s).
  - rewrite F6. split; [|apply (sim_init _ _ _ H)]. rewrite <- (proj1 (sim_init _ _ _ H)), <- E1. unfold save_batch. by destruct (skipFastStorageUpgrade s).
  - intros w. destruct (decide (v = w)) as [<-|]; [|rewrite lookup_insert_ne by done; apply (sim_first _ _ _ H)]. intros _. pose proof (sim_init _ _ _ H). unfold v, next_version.
    destruct (Z.eqb_spec (vs_version a) 0); cbn [andb]; [destruct (Z.ltb_spec 0 init); lia|]. pose proof (sim_first _ _ _ H _ (ho_last _ _ (sim_hist _ _ _ H) ltac:(lia))). lia.
  - rewrite F6, <- (sim_readers _ _ _ H), <- E2. unfold save_batch. by destruct (skipFastStorageUpgrade s).
  - rewrite F6. unfold save_batch. destruct (skipFastStorageUpgrade s); cbn [storageVersion reset set_db set_storageVersion]; [rewrite E3; apply (sim_storage _ _ _ H)|].
    destruct (new_storage_split (storageVersion (ndb s)) v) as (w & ->); [lia|done].
  - rewrite Edb. unfold save_batch, stored_version_of. destruct (skipFastStorageUpgrade s).
    + rewrite Ef, apply_batch_other; [apply (sim_meta _ _ _ H)|]. by apply (tree_writes_other init s a); cbn; lia.
    + change (flush (set_storageVersion ?x ?y)) with (flush y). rewrite flush_appends. unfold fast_writes. rewrite app_assoc. unfold apply_batch. rewrite foldl_snoc. cbn [apply_write]. rewrite lookup_insert_eq.
      destruct (new_storage_split (storageVersion (ndb s)) v) as (w & Esp); [lia|]. cbn [default from_option id]. by rewrite Esp.
  - unfold version. by rewrite F2.
  - rewrite F1. unfold latest_tree. cbn [a_save vs_hist vs_version]. fold v. by rewrite lookup_insert_eq.
  - unfold root. rewrite F2. cbn [it_root]. destruct (vs_work a) as [t|] eqn:Ew; [|done]. cbn [fmap option_fmap option_map orepr]. apply repr_loaded; [apply saved_left|apply saved_right|].
    unfold saved_in. cbn [a_save vs_hist vs_version]. fold v. rewrite Ew. apply Hmem, subtrees_self.
  - apply (sim_ok _ _ _ H).
  - intros t Ht. left. unfold saved_in. cbn [a_save vs_hist vs_version]. fold v. by apply Hmem.
  - rewrite F3. intros h f. rewrite lookup_empty. split; [done|]. intros (t & Ht & Hn & _). unfold saved_in in Ht. cbn [a_save vs_hist vs_version] in Ht. fold v in Ht. by apply Hmem in Ht.
  - rewrite F4. intros w b. destruct (decide (v = w)) as [->|]; [rewrite !lookup_insert_eq; intros [= <-]; by rewrite bool_decide_true by (by eexists)|].
    rewrite !lookup_insert_ne by done. apply (sim_versions _ _ _ Hm).
  - rewrite F4, F5. intros Hl w. destruct (decide (v = w)) as [->|]; [by rewrite !lookup_insert_eq|]. rewrite !lookup_insert_ne by done. by apply (sim_loaded _ _ _ Hm).
Qed.

(** * Deleting versions *)

Lemma apply_batch_ext (ws ws' : list write) (d : database) : functional ws -> (forall k w, (k, w) ∈ ws <-> (k, w) ∈ ws') -> apply_batch ws d = apply_batch ws' d.
Proof.
  intros Hf He. assert (functional ws') as Hf' by (intros k w w' H1%He H2%He; by eapply Hf). apply map_eq. intros k. apply option_eq. intros b.
  rewrite !apply_batch_lookup, He by done. split; (intros [?|[? Hn]]; [by left|right; split; [done|]]); intros w Hw; apply (Hn w); by apply He.
Qed.

Section Delete.
  Context (hist : history) (L : Z) (n : nodeDB).
  Hypothesis Hok : hist_ok hist L.
  Hypothesis Hst : is_store hist L (nd_db n).
  Hypothesis HL : latestVersion n = 0 \/ latestVersion n = L.
  Hypothesis Hr : versionReaders n = ∅.

Lemma getLatestVersion_set : getLatestVersion n = (set_latestVersion L n, Ok L).
Proof. destruct (getLatestVersion_spec hist L (nd_db n) Hok Hst n eq_refl HL) as (n' & E & ->). done. Qed.

(** The visit of an orphan entry, as the two deletions do it. *)
Lemma orphan_round v p m (c : Z -> Z -> bool) e : is_v v -> e ∈ prefix_iter (111 :: be8 (u64 v)) (nd_db n) -> (forall t, last_in hist v t -> c (tversion t) v = (p <? tversion t)) ->
  (let! '(to, from) := scanned (scan_orphan e.1) in batch_Delete e.1 ;; if c from to then let! k := nodeKey e.2 in batch_Delete k else saveOrphan e.2 from p) m = (appends m (entry_writes p e), Ok tt).
Proof.
  intros Hv He Hc. destruct e as [k h]. apply (orphans_at hist L _ Hok Hst) in He as (t & Ht & HvL & -> & ->); [|done]. rewrite (entry_writes_orphan hist L) by (try done; apply Ht). cbn [fst snd].
  destruct (member_ok hist L Hok v t (proj1 Ht)) as (_ & Hvt & _). rewrite scan_orphan_okey by (try done; apply length_thash). cbn [scanned]. unfold orphan_writes.
  unfold bind, ret, batch_Delete, modify. cbn iota beta. rewrite (Hc t Ht). destruct (Z.ltb_spec p (tversion t)).
  - unfold nodeKey, key_of. rewrite nodeKey_thash. unfold ret. cbn iota beta. unfold appends, set_db. cbn. by rewrite <- app_assoc.
  - unfold saveOrphan, guard, bind. rewrite (proj2 (Z.ltb_ge _ _)) by done. cbn [negb ret]. unfold orphanKey. rewrite orphanKey_okey by apply length_thash.
    unfold key_of, ret, batch_Set, modify. unfold appends, set_db. cbn. by rewrite <- app_assoc.
Qed.

Lemma has_readers_none lo hi m : versionReaders m = ∅ -> has_readers lo hi m = false.
Proof. intros E. unfold has_readers. rewrite E, map_to_list_empty. done. Qed.

Lemma DeleteVersionsRange_ndb from to : 0 <= from -> from < to -> to <= L -> exists p, prev hist from p /\
  ndb_DeleteVersionsRange from to n = (appends (set_latestVersion L n) (drop_writes (nd_db n) from to p), Ok tt).
Proof.
  intros Hf Hft Hto. pose proof (ho_bound _ _ Hok) as HLb.
  destruct (getPreviousVersion_spec hist L (nd_db n) Hok Hst from (set_latestVersion L n) eq_refl ltac:(unfold is_v; lia)) as (p & Ep & Hp). exists p. split; [done|].
  unfold ndb_DeleteVersionsRange. unfold guard at 1. rewrite (proj2 (Z.leb_gt _ _)) by lia. cbn [negb]. unfold bind at 1, ret at 1. unfold guard at 1. rewrite (proj2 (Z.eqb_neq _ _)) by lia. cbn [negb].
  unfold bind at 1, ret at 1. unfold bind at 1. rewrite getLatestVersion_set. unfold guard at 1. rewrite (proj2 (Z.ltb_ge _ _)) by lia. cbn [negb]. unfold bind at 1, ret at 1. unfold bind at 1. rewrite Ep.
  unfold bind at 1, gets at 1. rewrite has_readers_none by done. unfold guard at 1. cbn [negb]. unfold bind at 1, ret at 1. unfold bind at 1.
  rewrite (for_each_appends _ _ (fun v => mjoin (entry_writes p <$> prefix_iter (111 :: be8 (u64 v)) (nd_db n)))).
  - unfold traverseRange, bind at 1, gets at 1. cbn [nd_db appends set_db set_latestVersion]. unfold drop_writes. rewrite <- appends_app.
    rewrite (for_each_appends _ _ (fun e => [(e.1, None)])); [|intros [k b] m _ _; unfold batch_Delete, modify; done].
    by rewrite mjoin_singletons.
  - intros v m Hv%elem_of_seqZ Hm. unfold traverseOrphansVersion, bind at 1. rewrite orphan_prefix. unfold key_of, ret at 1, traversePrefix, bind at 1, gets at 1. rewrite Hm. cbn [nd_db set_latestVersion].
    apply for_each_appends. intros [k h] m' He _. apply (orphan_round v p m' (fun from _ => p <? from) (k, h)); [unfold is_v; lia|done|done].
Qed.

Lemma DeleteVersion_ndb v : is_Some (hist !! v) -> v <> L -> exists p ws, prev hist v p /\
  ndb_DeleteVersion v true n = (appends (set_latestVersion L n) ws, Ok tt) /\ forall k w, (k, w) ∈ ws <-> (k, w) ∈ drop_writes (nd_db n) v (v + 1) p.
Proof.
  intros Hv HvL. destruct (hist_is_v hist L Hok v Hv) as [Hiv Hpos]. assert (v <= L) by (destruct Hv as [t Ht]; by apply (ho_dom _ _ Hok v t)).
  destruct (getPreviousVersion_spec hist L (nd_db n) Hok Hst v n eq_refl Hiv) as (p & Ep & Hp). exists p, (mjoin (entry_writes p <$> prefix_iter (111 :: be8 (u64 v)) (nd_db n)) ++ [(rkey v, None)]).
  assert (p < v) as Hpv by (destruct Hp as [[-> _]|(_ & ? & _)]; lia). split; [done|]. split.
  - unfold ndb_DeleteVersion, bind at 1, gets at 1, readers. rewrite Hr, lookup_empty. cbn [default from_option]. unfold guard at 1. cbn [Z.ltb Z.compare negb]. unfold bind at 1, ret at 1.
    unfold deleteOrphans, bind at 1. unfold bind at 1. rewrite Ep. unfold traverseOrphansVersion, bind at 1. rewrite orphan_prefix. unfold key_of, ret at 1, traversePrefix, bind at 1, gets at 1.
    rewrite (for_each_appends _ _ (entry_writes p)).
    + unfold deleteRoot, bind at 1. assert (getLatestVersion (appends n (mjoin (entry_writes p <$> prefix_iter (111 :: be8 (u64 v)) (nd_db n)))) =
        (appends (set_latestVersion L n) (mjoin (entry_writes p <$> prefix_iter (111 :: be8 (u64 v)) (nd_db n))), Ok L)) as ->.
      { destruct (getLatestVersion_spec hist L (nd_db n) Hok Hst (appends n (mjoin (entry_writes p <$> prefix_iter (111 :: be8 (u64 v)) (nd_db n)))) eq_refl HL) as (n' & -> & ->). done. }
      unfold guard. rewrite (proj2 (Z.eqb_neq _ _)) by done. cbn [andb negb]. unfold bind, ret, key_of. rewrite rootKey_rkey. unfold batch_Delete, modify. rewrite <- appends_app. done.
    + intros [k h] m He _. apply (orphan_round v p m (fun from to => (p <? from) || (from =? to)) (k, h)); [done|done|].
      intros t Ht. destruct (Z.ltb_spec p (tversion t)); [done|]. destruct (Z.eqb_spec (tversion t) v); [lia|done].
  - intros k w. unfold drop_writes. rewrite !elem_of_app, list_elem_of_singleton. replace (v + 1 - v) with 1 by lia.
    assert (seqZ v 1 = [v]) as -> by (rewrite seqZ_cons by lia; f_equal; apply seqZ_nil; lia). cbn [fmap list_fmap mjoin list_join foldr]. rewrite app_nil_r. split.
    + intros [Hin|E]; [by left|]. right. apply pair_equal_spec in E as [-> ->].
      destruct (proj2 (roots_from hist L (nd_db n) Hok Hst v (rkey v) (v + 1) Hiv ltac:(pose proof (ho_bound _ _ Hok); unfold is_v in *; lia)) ltac:(exists v; split_and!; try done; lia)) as [r Hin].
      apply list_elem_of_fmap. by exists (rkey v, r).
    + intros [Hin|([k' r] & E & Hin)%list_elem_of_fmap]; [by left|]. right. cbn [fst] in E. apply pair_equal_spec in E as [-> ->].
      destruct (proj1 (roots_from hist L (nd_db n) Hok Hst v k' (v + 1) Hiv ltac:(pose proof (ho_bound _ _ Hok); unfold is_v in *; lia)) ltac:(by exists r)) as (w & -> & _ & ?).
      by assert (w = v) as -> by lia.
Qed.
End Delete.

Lemma drop_writes_other (hist : history) (L : Z) (db : database) from to p k : hist_ok hist L -> is_store hist L db -> 0 <= from -> from < to -> to <= L -> ~ tree_key k -> k ∉ (drop_writes db from to p).*1.
Proof.
  intros Hok Hst H0 H1 H2 Hk ([k' w] & -> & Hin)%list_elem_of_fmap. cbn [fst] in Hk. apply Hk. apply (drop_writes_kinds hist L db from to p Hok Hst) in Hin; try done.
  destruct Hin; [right; by right|right; by left|by left|right; by left].
Qed.

(** What a deletion leaves of the tree. *)
Lemma delete_sim init s a from to n vs : sim init s a -> 0 <= from -> from < to -> to <= vs_version a -> is_store (drop_range from to (vs_hist a)) (vs_version a) (flush n) ->
  latestVersion n = vs_version a -> InitialVersion n = InitialVersion (ndb s) -> versionReaders n = versionReaders (ndb s) -> storageVersion n = storageVersion (ndb s) ->
  hist_ok (drop_range from to (vs_hist a)) (vs_version a) -> flush n !! metadata_key = tdb s !! metadata_key -> (forall v, vs !! v = if bool_decide (from <= v < to) then None else mt_versions s !! v) ->
  sim init (set_versions vs (set_ndb (reset n) s)) (a_delete_range from to a).
Proof.
  intros H Hf Hft Hto Hst Hl Hi Hr Hsv Hok Hmeta Hvs. pose proof (version_bound _ _ _ H).
  assert (forall t, saved_in (a_delete_range from to a) t <-> saved_in a t) as Hsav by (intros t; unfold saved_in; cbn; rewrite member_drop_range; intuition lia).
  assert (latest_tree (a_delete_range from to a) = latest_tree a) as Elt by (unfold latest_tree; cbn; by rewrite lookup_drop_range, bool_decide_false by lia).
  split; cbn [a_delete_range vs_work vs_hist vs_version]; try done; cbn.
  - by right.
  - rewrite Hi. apply (sim_init _ _ _ H).
  - intros v. rewrite lookup_drop_range. case_bool_decide; [by intros []|]. apply (sim_first _ _ _ H).
  - rewrite Hr. apply (sim_readers _ _ _ H).
  - rewrite Hsv. apply (sim_storage _ _ _ H).
  - unfold stored_version_of. change (tdb _) with (flush n). rewrite Hmeta. apply (sim_meta _ _ _ H).
  - apply (sim_version _ _ _ H).
  - rewrite Elt. apply (sim_saved _ _ _ H).
  - pose proof (sim_work _ _ _ H) as Hw. unfold root in *. cbn. destruct (it_root (itree s)) as [r|], (vs_work a) as [t|]; try done. cbn [orepr] in *. eapply repr_mono; [| |exact Hw]; [apply Hsav|done].
  - apply (sim_ok _ _ _ H).
  - intros t Ht. rewrite Hsav. by apply (sim_new _ _ _ H).
  - intros h f. setoid_rewrite Hsav. apply (sim_orphans _ _ _ H).
  - intros v b. rewrite Hvs, lookup_drop_range. case_bool_decide; [done|]. apply (sim_versions _ _ _ H).
  - intros Ha v. rewrite Hvs, lookup_drop_range. case_bool_decide; [by intros []|]. by apply (sim_loaded _ _ _ H).
Qed.

(** What the fast index is made of is the same. *)
Definition same_index (s s' : MutableTree) : Prop :=
  (forall k, ~ tree_key k -> tdb s' !! k = tdb s !! k) /\ storageVersion (ndb s') = storageVersion (ndb s) /\
  unsavedFastNodeAdditions s' = unsavedFastNodeAdditions s /\ unsavedFastNodeRemovals s' = unsavedFastNodeRemovals s /\ skipFastStorageUpgrade s' = skipFastStorageUpgrade s.

Lemma same_index_refl s : same_index s s.
Proof. by split_and!. Qed.

Definition delete_outcome (v : Z) (a : vstate) : res unit :=
  if v <=? 0 then Err ErrInvalidVersion
  else if v =? vs_version a then Err ErrLatestVersion
  else if bool_decide (is_Some (vs_hist a !! v)) then Ok tt else Err ErrVersionDoesNotExist.

Definition a_delete (v : Z) (a : vstate) : vstate := match delete_outcome v a with Ok _ => a_delete_range v (v + 1) a | _ => a end.

Lemma delete_version_sim init s a v : sim init s a -> is_v v -> exists s', DeleteVersion v s = (s', delete_outcome v a) /\ sim init s' (a_delete v a) /\ same_index s s'.
Proof.
  intros H Hv. unfold DeleteVersion, mt_deleteVersion, a_delete, delete_outcome. unfold bind at 1 2. unfold guard at 1.
  rewrite Z.leb_antisym. destruct (0 <? v) eqn:E0; cbn [negb]; [|exists s; by split_and!]. apply Z.ltb_lt in E0. unfold ret at 1, bind at 1, gets at 1. rewrite (sim_version _ _ _ H). unfold bind at 1, guard at 1.
  destruct (Z.eqb_spec v (vs_version a)) as [EL|NL]; cbn [negb]; [exists s; by split_and!|]. unfold ret at 1, bind at 1. destruct (VersionExists_sim init s a v H Hv) as (m & -> & Hm). unfold bind at 1, guard at 1.
  destruct (bool_decide_reflect (is_Some (vs_hist a !! v))) as [Hin|Hin]; [|eexists; by split_and!]. unfold ret at 1, on_ndb at 1.
  pose proof (ho_bound _ _ (sim_hist _ _ _ H)) as Hb. assert (v <= vs_version a) by (destruct Hin as [t Ht]; by apply (ho_dom _ _ (sim_hist _ _ _ H) v t)).
  destruct (DeleteVersion_ndb (vs_hist a) (vs_version a) (ndb s) (sim_hist _ _ _ H) (sim_store _ _ _ H) (sim_latest _ _ _ H) (sim_readers _ _ _ H) v Hin NL) as (p & ws & Hp & E & Hws).
  cbn [ndb set_versions]. rewrite E. unfold bind, on_ndb, Commit, modify. eexists. split; [reflexivity|]. set (n := appends (set_latestVersion (vs_version a) (ndb s)) ws).
  assert (flush n = apply_batch (drop_writes (tdb s) v (v + 1) p) (tdb s)) as Ef.
  { unfold n. rewrite flush_appends. unfold flush. cbn [nd_batch nd_db set_latestVersion]. rewrite (sim_batch _ _ _ H). cbn [apply_batch foldl]. symmetry. apply apply_batch_ext; [|intros; symmetry; apply Hws].
    eapply (drop_functional (vs_hist a) (vs_version a)); try done; [apply (sim_hist _ _ _ H)|apply (sim_store _ _ _ H)|lia..]. }
  assert (forall k, ~ tree_key k -> flush n !! k = tdb s !! k) as Hk.
  { intros k Hk. rewrite Ef. apply apply_batch_other. apply (drop_writes_other (vs_hist a) (vs_version a)); [apply (sim_hist _ _ _ H)|apply (sim_store _ _ _ H)|lia|lia|lia|done]. }
  split; [|by split_and!]. apply (delete_sim init (set_versions m s) a v (v + 1) n (delete v m)); try done; [lia..| | | |].
  - rewrite Ef. apply drop_store; try done; [apply (sim_hist _ _ _ H)|apply (sim_store _ _ _ H)|lia..].
  - apply (drop_hist_ok (vs_hist a) (vs_version a)); [apply (sim_hist _ _ _ H)|lia].
  - apply Hk. cbn. lia.
  - intros w. case_bool_decide; [assert (w = v) as -> by lia; by rewrite lookup_delete_eq|]. by rewrite lookup_delete_ne by lia.
Qed.

Definition delete_range_outcome (from to : Z) (a : vstate) : res unit :=
  if to <=? from then Err ErrInvalidVersion else if vs_version a <? to then Err ErrLatestVersion else Ok tt.

Definition a_delete_versions (from to : Z) (a : vstate) : vstate := match delete_range_outcome from to a with Ok _ => a_delete_range from to a | _ => a end.

Lemma lookup_delete_seq {A} (m : gmap Z A) from n v : foldl (fun m v => delete v m) m (seqZ from n) !! v = if bool_decide (from <= v < from + n) then None else m !! v.
Proof.
  assert (forall (l : list Z) (m : gmap Z A), foldl (fun m v => delete v m) m l !! v = if bool_decide (v ∈ l) then None else m !! v) as Hl.
  { induction l as [|x l IH]; intros m0; cbn [foldl]; [by rewrite bool_decide_false by apply not_elem_of_nil|]. rewrite IH. destruct (bool_decide_reflect (v ∈ l)); [by rewrite bool_decide_true by (by right)|].
    destruct (decide (x = v)) as [->|]; [rewrite lookup_delete_eq, bool_decide_true by left; done|]. rewrite lookup_delete_ne by done. rewrite bool_decide_false; [done|]. by intros [->|]%elem_of_cons. }
  rewrite Hl. do 2 case_bool_decide; try done; rewrite elem_of_seqZ in *; lia.
Qed.

Lemma delete_range_sim init s a from to : sim init s a -> 0 <= from -> exists s', DeleteVersionsRange from to s = (s', delete_range_outcome from to a) /\ sim init s' (a_delete_versions from to a) /\ same_index s s'.
Proof.
  intros H Hf. unfold a_delete_versions, delete_range_outcome, DeleteVersionsRange. unfold bind at 1, on_ndb at 1. destruct (Z.leb_spec to from) as [Hle|Hlt].
  { unfold ndb_DeleteVersionsRange. unfold guard at 1. rewrite (proj2 (Z.leb_le _ _)) by done. cbn [negb]. unfold bind, fail. exists s. split; [f_equal; by destruct s|]. split; [done|apply same_index_refl]. }
  destruct (Z.ltb_spec (vs_version a) to) as [HLt|HLe].
  { unfold ndb_DeleteVersionsRange. unfold guard at 1. rewrite (proj2 (Z.leb_gt _ _)) by done. cbn [negb]. unfold bind at 1, ret at 1. unfold guard at 1. rewrite (proj2 (Z.eqb_neq _ _)) by lia. cbn [negb].
    unfold bind at 1, ret at 1. unfold bind at 1. rewrite (getLatestVersion_set (vs_hist a) (vs_version a) (ndb s) (sim_hist _ _ _ H) (sim_store _ _ _ H) (sim_latest _ _ _ H)).
    unfold bind, guard. rewrite (proj2 (Z.ltb_lt _ _)) by done. cbn [negb]. eexists. split; [reflexivity|]. split; [destruct H; split; try done; by right|by split_and!]. }
  destruct (DeleteVersionsRange_ndb (vs_hist a) (vs_version a) (ndb s) (sim_hist _ _ _ H) (sim_store _ _ _ H) (sim_latest _ _ _ H) (sim_readers _ _ _ H) from to Hf Hlt HLe) as (p & Hp & E).
  rewrite E. unfold bind, on_ndb, Commit, modify. eexists. split; [reflexivity|]. set (n := appends (set_latestVersion (vs_version a) (ndb s)) (drop_writes (nd_db (ndb s)) from to p)).
  assert (flush n = apply_batch (drop_writes (tdb s) from to p) (tdb s)) as Ef.
  { unfold n. rewrite flush_appends. unfold flush. cbn [nd_batch nd_db set_latestVersion]. by rewrite (sim_batch _ _ _ H). }
  assert (forall k, ~ tree_key k -> flush n !! k = tdb s !! k) as Hk.
  { intros k Hk. rewrite Ef. apply apply_batch_other. apply (drop_writes_other (vs_hist a) (vs_version a)); [apply (sim_hist _ _ _ H)|apply (sim_store _ _ _ H)|lia|lia|lia|done]. }
  split; [|by split_and!]. apply (delete_sim init s a from to n); try done.
  - rewrite Ef. apply drop_store; try done; [apply (sim_hist _ _ _ H)|apply (sim_store _ _ _ H)].
  - apply (drop_hist_ok (vs_hist a) (vs_version a)); [apply (sim_hist _ _ _ H)|done].
  - apply Hk. cbn. lia.
  - intros v. rewrite lookup_delete_seq. by replace (from + (to - from)) with to by lia.
Qed.


(** Reading and loading versions of the tree store, and runs of operations. *)

(** * Reading an old version *)

Lemma stored_version init s a v t : sim init s a -> vs_hist a !! v = Some (Some t) -> stored (tdb s) t /\ tree_ok t.
Proof.
  intros H Hv. split; [|by apply (ho_tree _ _ (sim_hist _ _ _ H) v)]. apply Forall_forall. intros u Hu. apply (sim_store _ _ _ H); [by left|]. apply (entry_node _ _ v). by exists t.
Qed.

Lemma getRoot_sim init s a v : sim init s a -> is_v v -> on_ndb (getRoot v) s = (s, Ok (root_hash <$> vs_hist a !! v)).
Proof.
  intros H Hv. unfold on_ndb, getRoot, bind, key_of. rewrite rootKey_rkey. unfold ret, gets. fold (tdb s).
  rewrite (root_lookup (vs_hist a) (vs_version a) (tdb s) (sim_hist _ _ _ H) (sim_store _ _ _ H) v Hv). f_equal. by destruct s.
Qed.

Lemma GetImmutable_sim init s a v : sim init s a -> is_v v -> match vs_hist a !! v with
  | Some w => exists m, GetImmutable v s = (set_versions m s, Ok (mkITree (loaded <$> w) v)) /\ sim init (set_versions m s) a
  | None => GetImmutable v s = (s, Err ErrVersionDoesNotExist)
  end.
Proof.
  intros H Hv. pose proof (getRoot_sim init s a v H Hv) as Er. unfold GetImmutable. destruct (vs_hist a !! v) as [w|] eqn:Ew; cbn [fmap option_fmap option_map] in Er; unfold bind at 1; rewrite Er; [|done].
  assert (sim init (set_versions (<[v := true]> (mt_versions s)) s) a) as Hm.
  { apply sim_set_versions; [done| |].
    - intros x b. destruct (decide (v = x)) as [<-|]; [rewrite lookup_insert_eq; intros [= <-]; by rewrite Ew, bool_decide_true by (by eexists)|]. rewrite lookup_insert_ne by done. apply (sim_versions _ _ _ H).
    - intros Hl x Hx. destruct (decide (v = x)) as [<-|]; [by rewrite lookup_insert_eq|]. rewrite lookup_insert_ne by done. by apply (sim_loaded _ _ _ H). }
  exists (<[v := true]> (mt_versions s)). split; [|done]. unfold bind at 1, modify at 1. destruct w as [t|]; cbn [root_hash fmap option_fmap option_map]; [|done].
  destruct (stored_version init s a v t H Ew) as [Hst Hok]. destruct (thash t) eqn:Eh; [by apply thash_nonempty in Eh|]. rewrite <- Eh. unfold bind, on_ndb, ndb_GetNode, bind, gets, of_res.
  cbn [ndb set_versions]. fold (tdb s). rewrite GetNode_stored by done. done.
Qed.

(** The walk through an old tree finds what its map holds. *)
Lemma get_version init s a v t k : sim init s a -> vs_hist a !! v = Some (Some t) -> get tree_fuel (tdb s) (loaded t) k = Ok (rank k (leaves t), to_map t !! k).
Proof.
  intros H Hv. destruct (stored_version init s a v t H Hv) as [Hst Hok]. apply (get_repr (tdb s) (stored (tdb s)) (fun _ => True)); [done|apply stored_left|apply stored_right|..]; [|done|by apply fuel_enough].
  by apply repr_loaded; [apply stored_left|apply stored_right|].
Qed.

(** The working tree. *)
Lemma get_work init s a n t k : sim init s a -> root s = Some n -> vs_work a = Some t -> get tree_fuel (tdb s) n k = Ok (rank k (leaves t), to_map t !! k).
Proof.
  intros H Hn Ht. pose proof (sim_work _ _ _ H) as Hw. pose proof (sim_ok _ _ _ H) as Hok. rewrite Hn, Ht in *. cbn [orepr] in Hw.
  apply (get_repr (tdb s) (saved_in a) (unsaved_in a)); [apply (saved_stored _ _ _ H)|apply saved_left|apply saved_right|done|done|by apply fuel_enough].
Qed.

(** * Loading *)

Lemma elem_of_roots (hist : history) (L : Z) (db : database) k b : hist_ok hist L -> is_store hist L db ->
  (k, b) ∈ prefix_iter [114] db <-> exists v t, k = rkey v /\ b = root_hash t /\ hist !! v = Some t.
Proof.
  intros Hok Hst. rewrite elem_of_prefix_iter. split.
  - intros [Hl Hp]. apply is_prefix_true in Hp as [rest Ek]. apply (Hst k b) in Hl; [|rewrite Ek; right; by right].
    apply entry_inv in Hl as [(v & t & -> & -> & Ht)|[(v & t & -> & _)|(v & t & -> & _)]]; [by exists v, t|by apply (f_equal head) in Ek..].
  - intros (v & t & -> & -> & Ht). split; [|done]. rewrite (root_lookup hist L db Hok Hst), Ht; [done|]. apply (hist_is_v hist L Hok). by eexists.
Qed.

Lemma getRoots_spec (hist : history) (L : Z) n : hist_ok hist L -> is_store hist L (nd_db n) ->
  exists roots, getRoots n = (n, Ok roots) /\ (forall v b, (v, b) ∈ roots <-> exists t, hist !! v = Some t /\ b = root_hash t).
Proof.
  intros Hok Hst. unfold getRoots, bind, gets. assert (Forall (fun e => exists v t, e = (rkey v, root_hash t) /\ hist !! v = Some t) (prefix_iter [114] (nd_db n))) as HF.
  { apply Forall_forall. intros [k b] Hin. apply (elem_of_roots hist L _ k b Hok Hst) in Hin as (v & t & -> & -> & Ht). by exists v, t. }
  assert (exists roots, mapM (fun e : bytes * bytes => v ← scan_root e.1; Some (v, e.2)) (prefix_iter [114] (nd_db n)) = Some roots /\
    forall v b, (v, b) ∈ roots <-> is_v v /\ (rkey v, b) ∈ prefix_iter [114] (nd_db n)) as (roots & -> & Hr).
  { induction HF as [|e l (v & t & -> & Ht) HF (roots & IH & Hr)]; [exists []; split; [done|]; intros v b; rewrite !elem_of_nil; tauto|].
    destruct (hist_is_v hist L Hok v ltac:(by eexists)) as [Hv _]. exists ((v, root_hash t) :: roots). cbn [mapM fst snd]. rewrite scan_root_rkey by done. cbn [mbind option_bind]. rewrite IH. split; [done|].
    intros w b. rewrite !elem_of_cons, Hr. split.
    - intros [E|[Hw Hin]]; [apply pair_equal_spec in E as [-> ->]; split; [done|by left]|split; [done|by right]].
    - intros [Hw [E|Hin]]; [left; apply pair_equal_spec in E as [E ->]; by apply rkey_inj in E as ->|by right]. }
  exists roots. split; [done|]. intros v b. rewrite Hr, (elem_of_roots hist L _ _ _ Hok Hst). split.
  - intros (Hv & w & t & E & -> & Ht). apply rkey_inj in E as ->; [by exists t|done|]. apply (hist_is_v hist L Hok). by eexists.
  - intros (t & Ht & ->). split; [apply (hist_is_v hist L Hok); by eexists|]. by exists v, t.
Qed.

(** The latest root up to a target and the first version. *)
Lemma pick_root_spec target (roots : list (Z * bytes)) : Forall (fun e => 0 < e.1) roots -> let '(latest, r, first) := pick_root target roots in
  ((latest = 0 /\ r = [] /\ forall v b, (v, b) ∈ roots -> target <> 0 /\ target < v) \/
   ((latest, r) ∈ roots /\ (target = 0 \/ latest <= target) /\ forall v b, (v, b) ∈ roots -> target = 0 \/ v <= target -> v <= latest)) /\
  (first = 0 \/ exists b, (first, b) ∈ roots).
Proof.
  intros HF. unfold pick_root. induction roots as [|[v h] roots IH] using rev_ind; [cbn; split; [left; split_and!; try done; by intros v b ?%not_elem_of_nil|by left]|].
  apply Forall_app in HF as [HF Hv]. rewrite Forall_singleton in Hv. cbn in Hv. specialize (IH HF). rewrite foldl_snoc. destruct (foldl _ _ roots) as [[latest r] first]. destruct IH as [IH IHf].
  cbv beta iota. destruct ((latest <? v) && ((target =? 0) || (v <=? target))) eqn:Ec; (split; [|destruct ((first =? 0) || (v <? first)); [right; exists h; apply elem_of_app; right; left|];
    destruct IHf as [->|[b Hb]]; [by left|right; exists b; apply elem_of_app; by left]]); setoid_rewrite elem_of_app; setoid_rewrite list_elem_of_singleton.
  - right. apply andb_true_iff in Ec as [El%Z.ltb_lt Et]. assert (target = 0 \/ v <= target) as Ht by (apply orb_true_iff in Et as [?%Z.eqb_eq|?%Z.leb_le]; auto).
    split_and!; [by right|done|]. intros w b [Hin|E] Hw; [|apply pair_equal_spec in E as [-> _]; lia].
    destruct IH as [(-> & _ & Hn)|(_ & _ & Hle)]; [destruct (Hn w b Hin); lia|]. specialize (Hle w b Hin Hw). lia.
  - assert (v <= latest \/ (target <> 0 /\ target < v)) as Hc.
    { apply andb_false_iff in Ec as [?%Z.ltb_ge|[?%Z.eqb_neq ?%Z.leb_gt]%orb_false_iff]; auto. }
    destruct IH as [(-> & -> & Hn)|(Hin & Ht & Hle)].
    + left. split_and!; try done. intros w b [Hin|E]; [by eapply Hn|]. apply pair_equal_spec in E as [-> _]. destruct Hc; [exfalso; lia|done].
    + right. split_and!; [by left|done|]. intros w b [Hin'|E] Hw; [by eapply Hle|]. apply pair_equal_spec in E as [-> _]. lia.
Qed.

(** What loading needs of a tree: only its database. *)
Record openable (init : Z) (s : MutableTree) (a : vstate) : Prop := {
  op_hist : hist_ok (vs_hist a) (vs_version a);
  op_store : is_store (vs_hist a) (vs_version a) (tdb s);
  op_batch : nd_batch (ndb s) = [];
  op_latest : latestVersion (ndb s) = 0 \/ latestVersion (ndb s) = vs_version a;
  op_init : InitialVersion (ndb s) = init /\ 0 <= init < 2 ^ 62;
  op_first : forall v, is_Some (vs_hist a !! v) -> init <= v;
  op_readers : versionReaders (ndb s) = ∅;
  op_storage : (length (Split fastStorageVersionDelimiter (storageVersion (ndb s))) <= 2)%nat;
  op_meta : (length (Split fastStorageVersionDelimiter (stored_version_of (tdb s))) <= 2)%nat;
  op_versions : forall v b, mt_versions s !! v = Some b -> b = bool_decide (is_Some (vs_hist a !! v))
}.

Lemma sim_openable init s a : sim init s a -> openable init s a.
Proof. intros []. by split. Qed.

(** A new tree over the database of another. *)
Lemma reopen_openable init s a skip : sim init s a -> openable init (NewMutableTree (tdb s) init skip) a.
Proof.
  intros []. split; try done; [by left|]. split; [done|by destruct sim_init].
Qed.

Definition loaded_tree (a : vstate) (vs : gmap Z bool) (all : bool) (s : MutableTree) : MutableTree :=
  let i := mkITree (loaded <$> latest_tree a) (vs_version a) in
  mkTree i i ∅ vs all (unsavedFastNodeAdditions s) (unsavedFastNodeRemovals s) (ndb s) (skipFastStorageUpgrade s).

Lemma loaded_sim init s a vs all : openable init s a -> (forall v b, vs !! v = Some b -> b = bool_decide (is_Some (vs_hist a !! v))) ->
  (all = true -> forall v, is_Some (vs_hist a !! v) -> vs !! v = Some true) -> sim init (loaded_tree a vs all s) (a_rollback a).
Proof.
  intros [] Hvs Hall. assert (forall t, saved_in (a_rollback a) t <-> saved_in a t) as Hs by done.
  split; try done; cbn [a_rollback vs_work vs_hist vs_version loaded_tree root itree it_root mt_orphans].
  - destruct (latest_tree a) as [r|] eqn:E; [|done]. apply repr_loaded; [apply saved_left|apply saved_right|]. apply Hs, latest_member. exists r. split; [done|apply subtrees_self].
  - destruct (latest_tree a) as [r|] eqn:E; [|done]. unfold latest_tree in E. destruct (vs_hist a !! vs_version a) as [o|] eqn:Eo; cbn in E; [|done]. subst o. by apply (ho_tree _ _ op_hist0 _ _ Eo).
  - intros t Ht. left. apply Hs, latest_member. destruct (latest_tree a) as [r|]; [by exists r|by apply not_elem_of_nil in Ht].
  - intros h f. rewrite lookup_empty. split; [done|]. intros (t & (r & E & Ht)%Hs%latest_member & Hn & _). change (latest_tree (a_rollback a)) with (latest_tree a) in E. by rewrite E in Hn.
Qed.

Lemma lookup_loaded_versions (roots : list (Z * bytes)) (m : gmap Z bool) v b : foldl (fun m '(v, _) => <[v := true]> m) m roots !! v = Some b <->
  (v ∈ roots.*1 /\ b = true) \/ (v ∉ roots.*1 /\ m !! v = Some b).
Proof.
  revert m. induction roots as [|[w h] roots IH]; intros m; cbn [foldl fmap list_fmap fst]; [rewrite elem_of_nil; tauto|]. rewrite IH, elem_of_cons. destruct (decide (v = w)) as [->|Hne].
  - rewrite lookup_insert_eq. destruct (decide (w ∈ roots.*1)); naive_solver.
  - rewrite lookup_insert_ne by done. naive_solver.
Qed.

(** Loading the latest version, up to the upgrade of the fast index. *)
Lemma LoadVersion_latest init s a : openable init s a -> exists s', LoadVersion 0 s = (upgrade ;; ret (vs_version a)) s' /\
  ((vs_hist a = ∅ /\ s' = s) \/ (vs_hist a <> ∅ /\ exists vs, s' = loaded_tree a vs true s /\ sim init s' (a_rollback a))).
Proof.
  intros H. pose proof (op_hist _ _ _ H) as Hok. pose proof (ho_bound _ _ Hok) as HL.
  destruct (getRoots_spec (vs_hist a) (vs_version a) (ndb s) Hok (op_store _ _ _ H)) as (roots & Er & Hr). assert (forall x, set_ndb (ndb x) x = x) as En by (by intros []).
  assert (Forall (fun e : Z * bytes => 0 < e.1) roots) as HF by (apply Forall_forall; intros [v b] (t & Ht & _)%Hr; apply (ho_dom _ _ Hok) in Ht; cbn; lia).
  unfold LoadVersion, bind at 1, on_ndb at 1. rewrite Er, En. pose proof (pick_root_spec 0 roots HF) as Hpick. destruct roots as [|e roots'] eqn:Eroots.
  - assert (vs_hist a = ∅) as He by (apply map_empty; intros v; destruct (vs_hist a !! v) eqn:E; [|done]; by pose proof (proj2 (Hr v _) ltac:(by eexists)) as ?%not_elem_of_nil).
    assert (vs_version a = 0) as ->; [|exists s; split; [done|by left]].
    destruct (Z.eq_dec (vs_version a) 0) as [|Hne]; [done|]. destruct (ho_last _ _ Hok ltac:(lia)) as [t Ht]. by rewrite He in Ht.
  - set (R := e :: roots') in *. set (vs := foldl (fun m '(v, _) => <[v := true]> m) (mt_versions s) R). exists (loaded_tree a vs true s).
    assert (forall v, v ∈ R.*1 <-> is_Some (vs_hist a !! v)) as Hdom.
    { intros v. rewrite list_elem_of_fmap. split; [intros ([w b] & -> & (t & Ht & _)%Hr); by eexists|]. intros [t Ht]. exists (v, root_hash t). split; [done|]. apply Hr. by exists t. }
    assert (exists v b, (v, b) ∈ R) as (v0 & b0 & Hin0) by (destruct e as [v0 b0]; exists v0, b0; left). pose proof (proj1 (Hr v0 b0) Hin0) as (t0 & Ht0 & _).
    pose proof (ho_dom _ _ Hok _ _ Ht0) as Hd0. destruct (ho_last _ _ Hok ltac:(lia)) as [w Hw]. destruct (pick_root 0 R) as [[latest r] first]. destruct Hpick as [Hpick Hfirst].
    assert (latest = vs_version a /\ r = root_hash w) as [-> ->].
    { destruct Hpick as [(_ & _ & Hno)|(Hin & _ & Hle)]; [by destruct (Hno v0 b0 Hin0)|]. apply Hr in Hin as (t & Ht & ->). pose proof (ho_dom _ _ Hok _ _ Ht).
      specialize (Hle (vs_version a) (root_hash w) ltac:(apply Hr; by exists w) ltac:(by left)). assert (latest = vs_version a) as -> by lia. split; [done|]. congruence. }
    split.
    + unfold bind at 1, modify at 1. unfold guard at 1. cbn [Z.eqb orb]. unfold bind at 1, ret at 1. unfold bind at 1, gets at 1. cbn [ndb set_versions]. destruct (op_init _ _ _ H) as [-> Hi].
      unfold bind at 1, guard at 1. rewrite wrapS_small by lia. assert ((0 <? first) && (first <? init) = false) as ->.
      { destruct Hfirst as [->|(b & (t & Ht & _)%Hr)]; [done|]. pose proof (op_first _ _ _ H first ltac:(by eexists)). rewrite (proj2 (Z.ltb_ge first init)) by done. apply andb_false_r. }
      cbn [negb]. unfold ret at 1. assert (latest_tree a = w) as El by (unfold latest_tree; by rewrite Hw). unfold loaded_tree. rewrite El. fold vs.
      destruct w as [t|]; cbn [root_hash]; [|by destruct s]. destruct (thash t) eqn:Eh; [by apply thash_nonempty in Eh|]. rewrite <- Eh. unfold bind at 1 2, on_ndb, ndb_GetNode, bind at 1, gets at 1, of_res at 1.
      cbn [ndb set_versions]. fold (tdb s). rewrite GetNode_stored; [by destruct s| |by apply (ho_tree _ _ Hok _ _ Hw)].
      apply Forall_forall. intros u Hu. apply (op_store _ _ _ H); [by left|]. apply (entry_node _ _ (vs_version a)). by exists t.
    + right. split; [intros E; by rewrite E in Ht0|]. exists vs. split; [done|]. apply loaded_sim; [done| |].
      * intros v b [[Hv ->]|[_ Hv]]%lookup_loaded_versions; [symmetry; apply bool_decide_true; by apply Hdom|by apply (op_versions _ _ _ H)].
      * intros _ v Hv. apply lookup_loaded_versions. left. by split; [apply Hdom|].
Qed.
