(* ===== verification/IavlFast.v ===== *)
(** The fast index of the tree store: under every key of the latest version an entry
    with its value and the version that wrote it, and in memory the changes since.
    Reading through the index gives what the trees hold. *)

From Stdlib Require Import ZArith Lia Ascii String.
From stdpp Require Import base list gmap strings sorting.
From S2P Require Import Prelude KVStore BigInt Sha256 IavlEncoding IavlNode IavlSpec IavlRepr IavlIter IavlDb IavlMutable IavlMutableProps IavlStore IavlVersions IavlCommit.
Open Scope Z_scope.
Open Scope go_scope.

(** * The maps the trees stand for *)

Definition work_map (a : vstate) : gmap bytes bytes := otree_map (vs_work a).
Definition latest_map (a : vstate) : gmap bytes bytes := otree_map (latest_tree a).

(** The entry of a key: the version that wrote it and the value. *)
Abbreviation index := (gmap bytes (Z * bytes)).

Definition fast_node (k : bytes) (e : Z * bytes) : FastNode := mkFast k e.1 e.2.

(** The entries are right for the latest version, and for every older one they cover. *)
Record index_ok (F : index) (a : vstate) : Prop := {
  ix_some : forall k ver v, F !! k = Some (ver, v) -> latest_map a !! k = Some v /\ 0 < ver <= vs_version a /\ short v /\
              forall w t, vs_hist a !! w = Some t -> ver <= w -> otree_map t !! k = Some v;
  ix_none : forall k, F !! k = None -> latest_map a !! k = None
}.

(** The unsaved changes lead from the latest version to the working tree. *)
Record unsaved_ok (adds : gmap bytes FastNode) (rems : gset bytes) (a : vstate) : Prop := {
  un_add : forall k fn, adds !! k = Some fn -> fn_key fn = k /\ versionLastUpdatedAt fn = vs_version a + 1 /\ work_map a !! k = Some (fn_value fn) /\ short (fn_value fn);
  un_rem : forall k, k ∈ rems -> work_map a !! k = None /\ adds !! k = None;
  un_same : forall k, adds !! k = None -> k ∉ rems -> work_map a !! k = latest_map a !! k
}.

Definition has_index (db : database) (F : index) : Prop := forall k, db !! fastKey k = (fun e => fast_WriteBytes (fast_node k e)) <$> F !! k.

(** The storage version names the fast index and the latest version. *)
Definition storage_of (L : Z) : bytes := fastStorageVersionValue ++ [fastStorageVersionDelimiter] ++ Itoa L.

Record fsim (s : MutableTree) (a : vstate) : Prop := {
  fs_storage : storageVersion (ndb s) = storage_of (vs_version a);
  fs_meta : tdb s !! metadata_key = Some (storage_of (vs_version a));
  fs_index : exists F, has_index (tdb s) F /\ index_ok F a;
  fs_unsaved : unsaved_ok (unsavedFastNodeAdditions s) (unsavedFastNodeRemovals s) a
}.

(** * Maps after the operations *)

Lemma to_map_tset ver k v t : bst t -> to_map (tset ver k v t).1.1 = <[k := v]> (to_map t).
Proof.
  intros Hb. pose proof (tset_spec ver k v t Hb) as H. destruct (tset ver k v t) as [[t' u] os]. destruct H as (Hl & _). unfold to_map. cbn [fst]. rewrite Hl. by apply lookup_linsert, bst_sorted.
Qed.

Lemma work_map_set init s a k v : sim init s a -> work_map (a_set k v a) = <[k := v]> (work_map a).
Proof.
  intros H. pose proof (sim_ok _ _ _ H) as Hok. unfold work_map, a_set. cbn [vs_work otree_map]. destruct (vs_work a) as [t|]; cbn [otree_map]; [apply to_map_tset, Hok|].
  unfold to_map. cbn. by rewrite ?insert_empty.
Qed.

Lemma work_map_remove init s a k : sim init s a -> work_map (a_remove k a) = delete k (work_map a).
Proof.
  intros H. pose proof (sim_ok _ _ _ H) as Hok. unfold work_map, a_remove. destruct (vs_work a) as [t|] eqn:Ew; [|rewrite Ew; cbn; by rewrite delete_empty].
  pose proof (tremove_spec (vs_version a + 1) k t (proj1 Hok)) as Hr. destruct (tremove _ k t) as [[[[t' nk] v] os]|]; cbn [vs_work].
  - destruct Hr as (_ & Hl & _). cbn [otree_map]. unfold to_map. rewrite <- (lremove_map k (leaves t)) by (apply bst_nodup, Hok). rewrite <- Hl. by destruct t'.
  - rewrite Ew. cbn [otree_map]. symmetry. apply delete_id. unfold to_map. by apply not_elem_of_list_to_map_1.
Qed.

Lemma latest_map_set k v a : latest_map (a_set k v a) = latest_map a.
Proof. done. Qed.
Lemma latest_map_remove k a : latest_map (a_remove k a) = latest_map a.
Proof. unfold a_remove. destruct (vs_work a) as [t|]; [|done]. by destruct (tremove _ k t) as [[[[? ?] ?] ?]|]. Qed.

Lemma index_ok_same F a a' : index_ok F a -> vs_hist a' = vs_hist a -> vs_version a' = vs_version a -> index_ok F a'.
Proof. intros [H1 H2] Eh Ev. split; unfold latest_map, latest_tree in *; rewrite ?Eh, ?Ev; done. Qed.

Lemma short_map t k v : tree_ok t -> to_map t !! k = Some v -> short v.
Proof.
  intros (_ & _ & _ & Hf) Hl. unfold to_map in Hl. apply elem_of_list_to_map_2 in Hl. clear -Hf Hl. induction t as [k0 v0 ver|k0 ver l IHl r IHr]; cbn [leaves subtrees] in *.
  - apply list_elem_of_singleton in Hl as [= -> ->]. rewrite Forall_singleton in Hf. apply Hf.
  - rewrite Forall_cons, Forall_app in Hf. destruct Hf as (_ & Hl' & Hr'). apply elem_of_app in Hl as [?|?]; auto.
Qed.

(** * The storage version *)

Lemma bytes_leb_app b c : bytes_leb b (b ++ c) = true.
Proof. induction b as [|x b IH]; cbn [app bytes_leb]; [by destruct c|]. by rewrite Z.ltb_irrefl, Z.eqb_refl. Qed.

Lemma storage_split L : 0 <= L -> Split fastStorageVersionDelimiter (storage_of L) = [fastStorageVersionValue; Itoa L].
Proof. intros HL. apply Split_two; [by vm_compute; set_solver|by apply Itoa_no_dash]. Qed.

Lemma storage_new L v : 0 <= L -> new_storage (storage_of L) v = storage_of v.
Proof. intros HL. unfold new_storage. rewrite storage_split by done. unfold storage_of. by rewrite bytes_leb_app. Qed.

(** * The operations *)

Lemma fast_key_other k : ~ tree_key (fastKey k).
Proof. cbn. lia. Qed.
Lemma metadata_other : ~ tree_key metadata_key.
Proof. cbn. lia. Qed.
Lemma fastKey_inj k k' : fastKey k = fastKey k' -> k = k'.
Proof. by intros [= ->]. Qed.
Lemma fastKey_metadata k : fastKey k <> metadata_key.
Proof. done. Qed.

Lemma fsim_same s s' a a' : fsim s a -> same_index s s' -> vs_version a' = vs_version a -> work_map a' = work_map a -> latest_map a' = latest_map a ->
  (forall v t, vs_hist a' !! v = Some t -> vs_hist a !! v = Some t) -> fsim s' a'.
Proof.
  intros [Hs Hm (F & HF & [I1 I2]) [U1 U2 U3]] (Hdb & Esv & Ea & Er & _) Ev Ew El Hh. split.
  - by rewrite Esv, Hs, Ev.
  - by rewrite Hdb, Hm, Ev by apply metadata_other.
  - exists F. split; [intros k; rewrite Hdb by apply fast_key_other; apply HF|]. split; rewrite El; [|done]. rewrite Ev. intros k ver v Hk. destruct (I1 k ver v Hk) as (? & ? & ? & Hv). split_and!; try done; [lia..|]. eauto.
  - rewrite Ea, Er. split; rewrite ?Ew, ?El, ?Ev; eauto.
Qed.

Lemma set_fsim init s a k v r m : sim init s a -> fsim s a -> skipFastStorageUpgrade s = false -> short v -> fsim (set_result k v a r m s) (a_set k v a).
Proof.
  intros H [Hs Hm (F & HF & HI) [U1 U2 U3]] Hsk Hv. unfold set_result, noted, unless_skip. rewrite Hsk. split; try done; [exists F; split; [done|by apply (index_ok_same F a)]|].
  cbn. split; intros k0; rewrite ?latest_map_set, (work_map_set init s) by done; destruct (decide (k = k0)) as [<-|Hne]; rewrite ?lookup_insert_eq, ?lookup_insert_ne by done; try done.
  - by intros fn [= <-].
  - apply U1.
  - set_solver.
  - intros Hk. apply U2. set_solver.
  - intros Ha Hr. apply U3; [done|]. set_solver.
Qed.

Lemma remove_fsim init s a k s' : sim init s a -> fsim s a -> skipFastStorageUpgrade s = false ->
  (if bool_decide (k ∈ okeys (vs_work a)) then exists r m, s' = remove_result k r m s else s' = s) -> fsim s' (a_remove k a).
Proof.
  intros H Hf Hsk Hs'. pose proof (work_map_remove init s a k H) as Ew. assert (vs_hist (a_remove k a) = vs_hist a /\ vs_version (a_remove k a) = vs_version a) as [Eh Ev].
  { unfold a_remove. destruct (vs_work a) as [t|]; [|done]. by destruct (tremove _ k t) as [[[[? ?] ?] ?]|]. }
  destruct (bool_decide_reflect (k ∈ okeys (vs_work a))) as [Hin|Hin].
  - destruct Hs' as (r & m & ->), Hf as [Hs Hm (F & HF & HI) [U1 U2 U3]]. unfold remove_result, unnoted, unless_skip. rewrite Hsk. split; rewrite ?Ev; try done; [exists F; split; [done|by apply (index_ok_same F a)]|].
    cbn. split; intros k0; rewrite Ew, ?latest_map_remove, ?Ev; destruct (decide (k = k0)) as [<-|Hne]; rewrite ?lookup_delete_eq, ?lookup_delete_ne by done; try done.
    + apply U1.
    + intros Hk. apply U2. set_solver.
    + set_solver.
    + intros Ha Hr. apply U3; [done|]. set_solver.
  - subst s'. apply (fsim_same s s a); try done; [|apply latest_map_remove|by rewrite Eh]. rewrite Ew. apply delete_id. unfold work_map. destruct (vs_work a) as [t|]; [|done]. by apply not_elem_of_list_to_map_1.
Qed.

Lemma rollback_fsim init s a s' : sim init s a -> fsim s a -> skipFastStorageUpgrade s = false -> Rollback s = (s', Ok tt) -> fsim s' (a_rollback a).
Proof.
  intros H [Hs Hm (F & HF & HI) _] Hsk. unfold Rollback, modify. cbn [skipFastStorageUpgrade set_orphans set_itree]. rewrite Hsk. intros [= <-].
  split; try done. exists F. split; [done|by apply (index_ok_same F a)].
Qed.

(** The writes of a save to the index. *)
Lemma elem_of_fast_writes s v a k w : unsaved_ok (unsavedFastNodeAdditions s) (unsavedFastNodeRemovals s) a -> (k, w) ∈ fast_writes s v <->
  (exists k0 fn, unsavedFastNodeAdditions s !! k0 = Some fn /\ k = fastKey k0 /\ w = Some (fast_WriteBytes fn)) \/ (exists k0, k0 ∈ unsavedFastNodeRemovals s /\ k = fastKey k0 /\ w = None) \/
  (k = metadata_key /\ w = Some (new_storage (storageVersion (ndb s)) v)).
Proof.
  intros HU. unfold fast_writes, addition_writes, removal_writes. rewrite !elem_of_app, list_elem_of_singleton, list_elem_of_omap, list_elem_of_fmap, pair_equal_spec. f_equiv; [|f_equiv].
  - split.
    + intros (k0 & Hin & E). destruct (unsavedFastNodeAdditions s !! k0) as [fn|] eqn:Ea; cbn [mbind option_bind] in E; [|done]. apply Some_inj, pair_equal_spec in E as [<- <-].
      exists k0, fn. by rewrite (proj1 (un_add _ _ _ HU k0 fn Ea)).
    + intros (k0 & fn & Ea & -> & ->). exists k0. rewrite merge_sort_Permutation, Ea. split; [|cbn; by rewrite (proj1 (un_add _ _ _ HU k0 fn Ea))].
      apply list_elem_of_fmap. exists (k0, fn). split; [done|by apply elem_of_map_to_list].
  - split.
    + intros (k0 & E & Hin). apply pair_equal_spec in E as [-> ->]. rewrite merge_sort_Permutation, elem_of_elements in Hin. by exists k0.
    + intros (k0 & Hin & -> & ->). exists k0. by rewrite merge_sort_Permutation, elem_of_elements.
Qed.

Lemma fast_writes_functional s v a : unsaved_ok (unsavedFastNodeAdditions s) (unsavedFastNodeRemovals s) a -> functional (fast_writes s v).
Proof.
  intros HU k w w'. rewrite !(elem_of_fast_writes s v a) by done. pose proof (un_rem _ _ _ HU) as Hr.
  intros [(k1 & f1 & H1 & -> & ->)|[(k1 & H1 & -> & ->)|(-> & ->)]] [(k2 & f2 & H2 & E & ->)|[(k2 & H2 & E & ->)|(E & ->)]]; try done; try apply fastKey_inj in E as ->; try congruence;
    first [destruct (Hr _ H2); congruence|destruct (Hr _ H1); congruence].
Qed.

(** The index after the writes. *)
Lemma fast_writes_lookup (s : MutableTree) (v : Z) (a : vstate) (d : database) (k : bytes) : unsaved_ok (unsavedFastNodeAdditions s) (unsavedFastNodeRemovals s) a -> apply_batch (fast_writes s v) d !! fastKey k =
  match unsavedFastNodeAdditions s !! k with Some fn => Some (fast_WriteBytes fn) | None => if bool_decide (k ∈ unsavedFastNodeRemovals s) then None else d !! fastKey k end.
Proof.
  intros HU. pose proof (fast_writes_functional s v a HU) as Hf. destruct (unsavedFastNodeAdditions s !! k) as [fn|] eqn:Ea; [|destruct (bool_decide_reflect (k ∈ unsavedFastNodeRemovals s)) as [Hr|Hr]].
  - apply apply_batch_in; [done|]. apply (elem_of_fast_writes s v a); [done|]. left. by exists k, fn.
  - apply apply_batch_in; [done|]. apply (elem_of_fast_writes s v a); [done|]. right. left. by exists k.
  - apply apply_batch_other. intros ([k' w] & E & Hin)%list_elem_of_fmap. cbn [fst] in E. subst k'. apply (elem_of_fast_writes s v a) in Hin; [|done].
    destruct Hin as [(k0 & fn & E0 & ->%fastKey_inj & _)|[(k0 & E0 & ->%fastKey_inj & _)|[E0 _]]]; [congruence|done|done].
Qed.

Definition new_index (adds : gmap bytes FastNode) (rems : gset bytes) (F : index) : index :=
  ((fun fn => (versionLastUpdatedAt fn, fn_value fn)) <$> adds) ∪ filter (fun e => e.1 ∉ rems) F.

Lemma lookup_new_index (adds : gmap bytes FastNode) (rems : gset bytes) (F : index) (k : bytes) : new_index adds rems F !! k =
  match adds !! k with Some fn => Some (versionLastUpdatedAt fn, fn_value fn) | None => if bool_decide (k ∈ rems) then None else F !! k end.
Proof.
  unfold new_index. rewrite lookup_union, lookup_fmap. destruct (adds !! k) as [fn|]; cbn [fmap option_fmap option_map].
  - by destruct (filter _ F !! k).
  - rewrite (left_id_L None union). destruct (bool_decide_reflect (k ∈ rems)) as [Hr|Hr].
    + apply map_lookup_filter_None. right. intros x _ Hn. by apply Hn.
    + destruct (F !! k) eqn:E; [by apply map_lookup_filter_Some|]. apply map_lookup_filter_None. by left.
Qed.

Lemma latest_map_save init a : latest_map (a_save init a) = work_map a.
Proof. unfold latest_map, latest_tree, a_save. cbn [vs_hist vs_version]. by rewrite lookup_insert_eq. Qed.

(** The new entries are right for the version that was saved. *)
Lemma save_index init s a F adds rems : sim init s a -> index_ok F a -> unsaved_ok adds rems a -> index_ok (new_index adds rems F) (a_save init a).
Proof.
  intros H [I1 I2] [U1 U2 U3]. pose proof (next_bound init s a H) as Hnb. pose proof (version_bound _ _ _ H) as HL. split; intros k; rewrite latest_map_save, lookup_new_index.
  - intros ver v. destruct (adds !! k) as [fn|] eqn:Ea.
    + intros [= <- <-]. destruct (U1 k fn Ea) as (_ & Ev & Ew & Hs). rewrite Ev. split_and!; try done; cbn [a_save vs_version]; try lia. intros w t. cbn [a_save vs_hist].
      destruct (decide (next_version init a = w)) as [<-|Hne]; [rewrite lookup_insert_eq; by intros [= <-]|]. rewrite lookup_insert_ne by done. intros Ht. pose proof (ho_dom _ _ (sim_hist _ _ _ H) _ _ Ht). lia.
    + destruct (bool_decide_reflect (k ∈ rems)) as [Hr|Hr]; [done|]. intros Hk. destruct (I1 k ver v Hk) as (Hl & Hb & Hs & Hw). rewrite (U3 k) by done. split_and!; try done; cbn [a_save vs_version]; try lia. intros w t. cbn [a_save vs_hist].
      destruct (decide (next_version init a = w)) as [<-|Hne]; [rewrite lookup_insert_eq; intros [= <-] _; by fold (work_map a); rewrite U3|]. rewrite lookup_insert_ne by done. apply Hw.
  - destruct (adds !! k) as [fn|] eqn:Ea; [done|]. destruct (bool_decide_reflect (k ∈ rems)) as [Hr|Hr]; [intros _; by apply U2|]. rewrite (U3 k) by done. apply I2.
Qed.

Lemma save_fsim init s a s' r : sim init s a -> fsim s a -> skipFastStorageUpgrade s = false -> next_version init a < 2 ^ 62 -> SaveVersion s = (s', Ok r) -> fsim s' (a_save init a).
Proof.
  intros H [Hs Hm (F & HF & HI) HU] Hsk Hv E. destruct (SaveVersion_run init s a H Hv) as (m & n & E' & Ef & _). rewrite E' in E. apply pair_equal_spec in E as [<- _]. pose proof (version_bound _ _ _ H) as HL.
  unfold committed, save_batch. cbn [skipFastStorageUpgrade set_versions]. rewrite Hsk, Hs, storage_new by lia. set (v := next_version init a) in *.
  set (s' := set_unsaved _ _ _). assert (tdb s' = apply_batch (fast_writes s v) (flush n)) as Edb by (apply (flush_appends n (fast_writes s v))).
  split; try done.
  - rewrite Edb. apply apply_batch_in; [by apply (fast_writes_functional s v a)|]. apply (elem_of_fast_writes s v a); [done|]. right. right. by rewrite Hs, storage_new by lia.
  - exists (new_index (unsavedFastNodeAdditions s) (unsavedFastNodeRemovals s) F). split; [|by apply (save_index init s)]. intros k. rewrite Edb, (fast_writes_lookup s v a) by done. rewrite lookup_new_index.
    destruct (unsavedFastNodeAdditions s !! k) as [fn|] eqn:Ea; [by destruct fn|]. destruct (bool_decide _); [done|]. rewrite Ef, apply_batch_other; [apply HF|]. by apply (tree_writes_other init s a), fast_key_other.
  - split; cbn; [done|set_solver|]. intros k _ _. unfold v. by rewrite latest_map_save.
Qed.

Lemma delete_range_fsim s s' a from to : fsim s a -> same_index s s' -> to <= vs_version a -> fsim s' (a_delete_range from to a).
Proof.
  intros Hf Hs Hto. apply (fsim_same s s' a); try done.
  - unfold latest_map, latest_tree. cbn [a_delete_range vs_hist vs_version]. by rewrite lookup_drop_range, bool_decide_false by lia.
  - intros v t. cbn [a_delete_range vs_hist]. rewrite lookup_drop_range. by case_bool_decide.
Qed.

Lemma delete_fsim init s s' a v : sim init s a -> fsim s a -> same_index s s' -> fsim s' (a_delete v a).
Proof.
  intros H Hf Hs. unfold a_delete. destruct (delete_outcome v a) eqn:E; [|by apply (fsim_same s s' a)..]. apply (delete_range_fsim s); try done.
  unfold delete_outcome in E. destruct (v <=? 0); [done|]. destruct (Z.eqb_spec v (vs_version a)) as [|Hne]; [done|]. case_bool_decide as Hin; [|done]. destruct Hin as [t Ht].
  pose proof (ho_dom _ _ (sim_hist _ _ _ H) _ _ Ht). lia.
Qed.

Lemma delete_versions_fsim s s' a from to : fsim s a -> same_index s s' -> fsim s' (a_delete_versions from to a).
Proof.
  intros Hf Hs. unfold a_delete_versions, delete_range_outcome. destruct (to <=? from); [by apply (fsim_same s s' a)|]. destruct (Z.ltb_spec (vs_version a) to); [by apply (fsim_same s s' a)|]. by apply (delete_range_fsim s).
Qed.

(** * Opening the store *)

Lemma empty_hist_ok : hist_ok ∅ 0.
Proof. split; try done; try lia; [by intros v s (t & Ht & _)|by intros v w s u (t & Ht & _)]. Qed.

Lemma empty_is_store (db : database) : (forall k, tree_key k -> db !! k = None) -> is_store ∅ 0 db.
Proof. intros Hdb k b Hk. rewrite Hdb by done. split; [done|]. by intros [v t Ht|v s (t & Ht & _)|v s [(t & Ht & _) _] _]. Qed.

Definition vempty : vstate := mkV None ∅ 0.

Lemma new_sim init db skip : is_store ∅ 0 db -> 0 <= init < 2 ^ 62 -> (length (Split fastStorageVersionDelimiter (stored_version_of db)) <= 2)%nat ->
  sim init (NewMutableTree db init skip) vempty.
Proof.
  intros Hst Hi Hsp. assert (forall t, ~ saved_in vempty t) as Hno by (by intros t (r & Hr & _)).
  split; try done; [apply empty_hist_ok|by left|by intros v []|by intros t ?%not_elem_of_nil|].
  intros h f. split; [done|]. intros (t & Ht & _). by apply Hno in Ht.
Qed.

Lemma no_versions init s a : sim init s a -> vs_hist a = ∅ -> a_rollback a = vempty.
Proof.
  intros H He. unfold a_rollback, latest_tree. rewrite He. destruct (Z.eq_dec (vs_version a) 0) as [->|Hne]; [done|]. pose proof (version_bound _ _ _ H).
  destruct (ho_last _ _ (sim_hist _ _ _ H) ltac:(lia)) as [t Ht]. by rewrite He in Ht.
Qed.

Lemma sim_set_latest init s a : sim init s a -> sim init (set_ndb (set_latestVersion (vs_version a) (ndb s)) s) a.
Proof. intros []. split; try done. by right. Qed.

(** The index of the latest version is kept as it is. *)
Lemma upgrade_current s L : skipFastStorageUpgrade s = false -> storageVersion (ndb s) = storage_of L -> 0 <= L -> getLatestVersion (ndb s) = (set_latestVersion L (ndb s), Ok L) ->
  upgrade s = (set_ndb (set_latestVersion L (ndb s)) s, Ok tt).
Proof.
  intros Hsk Hs HL EL. unfold upgrade, unless_skip. rewrite Hsk. unfold enableFastStorageAndCommitIfNotEnabled, IsUpgradeable. unfold bind at 1 2 3, on_ndb, shouldForceFastStorageUpgrade, bind at 1, gets at 1.
  rewrite Hs, storage_split by lia. unfold bind at 1. rewrite EL. unfold ret at 1, gets. rewrite bool_decide_true by done. unfold hasUpgradedToFastStorage.
  cbn [ndb set_ndb storageVersion set_latestVersion skipFastStorageUpgrade]. rewrite Hs, Hsk. unfold storage_of at 1. by rewrite bytes_leb_app.
Qed.

Lemma upgrade_done init s a : sim init s a -> storageVersion (ndb s) = storage_of (vs_version a) -> skipFastStorageUpgrade s = false ->
  upgrade s = (set_ndb (set_latestVersion (vs_version a) (ndb s)) s, Ok tt).
Proof.
  intros H Hs Hsk. pose proof (version_bound _ _ _ H). apply upgrade_current; try done; [lia|].
  apply (getLatestVersion_set (vs_hist a) (vs_version a) (ndb s) (sim_hist _ _ _ H) (sim_store _ _ _ H) (sim_latest _ _ _ H)).
Qed.

(** The whole invariant of a tree. *)
Definition inv (init : Z) (s : MutableTree) (a : vstate) : Prop := sim init s a /\ (skipFastStorageUpgrade s = false -> fsim s a).

Lemma new_fsim s a skip init : fsim s a -> unsaved_ok ∅ ∅ (a_rollback a) /\ fsim (NewMutableTree (tdb s) init skip) (a_rollback a).
Proof.
  intros [Hs Hm (F & HF & HI) _]. assert (unsaved_ok ∅ ∅ (a_rollback a)) as HU by (split; [done|set_solver|done]). split; [done|]. split; try done.
  - cbn [NewMutableTree ndb newNodeDB storageVersion]. rewrite metadataKey_eq. cbn [storageVersion]. by rewrite Hm.
  - exists F. split; [done|by apply (index_ok_same F a)].
Qed.

(** A new tree over the database of another, loaded at the latest version. *)
Lemma reopen_inv init s a : inv init s a -> exists s', LoadVersion 0 (NewMutableTree (tdb s) init (skipFastStorageUpgrade s)) = (s', Ok (vs_version a)) /\
  inv init s' (a_rollback a) /\ skipFastStorageUpgrade s' = skipFastStorageUpgrade s /\ tdb s' = tdb s.
Proof.
  intros [H Hf]. set (skip := skipFastStorageUpgrade s) in *. destruct (LoadVersion_latest init _ a (reopen_openable init s a skip H)) as (s' & E & Hs').
  assert (sim init s' (a_rollback a) /\ tdb s' = tdb s /\ skipFastStorageUpgrade s' = skip /\ (skip = false -> fsim s' (a_rollback a))) as (H' & Edb & Esk & Hf').
  { destruct Hs' as [[He ->]|(_ & vs & -> & H')].
    - rewrite (no_versions init s a H He). split_and!; try done; [|intros Hsk; rewrite <- (no_versions init s a H He); by apply new_fsim, Hf].
      apply new_sim; [|by destruct (sim_init _ _ _ H)|apply (sim_meta _ _ _ H)]. pose proof (sim_store _ _ _ H) as Hst. pose proof (no_versions init s a H He) as [= _ Eh Ev]. by rewrite Eh, Ev in Hst.
    - split_and!; try done. intros Hsk. destruct (new_fsim s a skip init (Hf Hsk)) as [HU [F1 F2 F3 _]]. by split. }
  rewrite E. unfold bind at 1. destruct skip eqn:Hsk.
  - exists s'. unfold upgrade, unless_skip. rewrite Esk. split; [done|]. split; [|done]. split; [done|congruence].
  - rewrite (upgrade_done init s' (a_rollback a)) by (try done; by apply Hf'). eexists. split; [reflexivity|]. split; [|done]. split; [by apply (sim_set_latest init s' (a_rollback a))|].
    intros _. apply (fsim_same s' _ (a_rollback a)); try done; by apply Hf'.
Qed.

(** A new store. *)
Definition start (init : Z) (skip : bool) : MutableTree * res Z := LoadVersion 0 (NewMutableTree ∅ init skip).

Definition started (init : Z) (skip : bool) : MutableTree :=
  if skip then NewMutableTree ∅ init true else set_ndb (mkNodeDB {[metadata_key := storage_of 0]} [] init ∅ (storage_of 0) 0) (NewMutableTree ∅ init false).

Lemma start_eq init skip : start init skip = (started init skip, Ok 0).
Proof. destruct skip; vm_compute; reflexivity. Qed.

Lemma start_inv init skip : 0 <= init < 2 ^ 62 -> inv init (started init skip) vempty.
Proof.
  intros Hi. destruct skip; split; try done.
  - apply new_sim; [by apply empty_is_store|done|by vm_compute; lia].
  - assert (sim init (NewMutableTree {[metadata_key := storage_of 0]} init false) vempty) as []; [|by split].
    apply new_sim; [|done|by vm_compute; lia]. apply empty_is_store. intros k Hk. apply lookup_singleton_ne. intros <-. by apply metadata_other in Hk.
  - intros _. split; [done|apply lookup_singleton_eq| |split; [done|set_solver|done]]. exists ∅. split; [|by split]. intros k. rewrite lookup_empty. by apply lookup_singleton_ne.
Qed.

(** * Reading *)

Definition hist_map (a : vstate) (v : Z) : gmap bytes bytes := default ∅ (otree_map <$> vs_hist a !! v).

Lemma GetFastNode_spec (init : Z) (s : MutableTree) (a : vstate) (F : index) (k : bytes) : sim init s a -> storageVersion (ndb s) = storage_of (vs_version a) -> has_index (tdb s) F -> index_ok F a -> k <> [] ->
  GetFastNode k (ndb s) = (ndb s, Ok (fast_node k <$> F !! k)).
Proof.
  intros H Hs HF HI Hk. unfold GetFastNode, bind at 1, gets at 1, hasUpgradedToFastStorage. rewrite Hs. unfold storage_of at 1. rewrite bytes_leb_app. unfold guard at 1, bind at 1, ret at 1.
  rewrite bool_decide_false by done. cbn [negb]. unfold bind, fastNodeKey, key_of. rewrite fastNodeKey_eq. unfold guard, ret, gets. fold (tdb s). rewrite HF.
  destruct (F !! k) as [[ver v]|] eqn:E; cbn [fmap option_fmap option_map]; [|done]. destruct (ix_some _ _ HI k ver v E) as (_ & Hv & Hsh & _). pose proof (version_bound _ _ _ H).
  destruct (fast_node_roundtrip (fast_node k (ver, v)) []) as [Hrt _]; [cbn; lia|done|]. rewrite app_nil_r in Hrt. unfold of_res. change (DeserializeNode (fn_key (fast_node k (ver, v)))) with (DeserializeNode k) in Hrt. by rewrite Hrt.
Qed.

Lemma GetFastNode_nil s : exists e, GetFastNode [] (ndb s) = (ndb s, Err e).
Proof. unfold GetFastNode, bind at 1, gets at 1. destruct (hasUpgradedToFastStorage _); by eexists. Qed.

(** A tree read through the index, when the index is right for it. *)
Lemma itree_Get_spec (init : Z) (s : MutableTree) (a : vstate) (i : ImmutableTree) (k : bytes) (m : gmap bytes bytes) : inv init s a ->
  match it_root i with None => m = ∅ | Some n => exists r, get tree_fuel (tdb s) n k = Ok (r, m !! k) end ->
  (skipFastStorageUpgrade s = false -> forall F, index_ok F a -> (forall ver v, F !! k = Some (ver, v) -> ver <= it_version i -> m !! k = Some v) /\ (F !! k = None -> it_version i = latestVersion (ndb s) -> m !! k = None)) ->
  itree_Get i k s = (s, Ok (m !! k)).
Proof.
  intros [H Hf] Hr HF. unfold itree_Get. destruct (it_root i) as [n|]; [|by subst m]. destruct Hr as [r Hr].
  assert ((let! '(_, v) := reading (fun db => get tree_fuel db n k) in ret v) s = (s, Ok (m !! k))) as Hslow by (unfold bind, reading; by rewrite Hr).
  destruct (skipFastStorageUpgrade s); [done|]. destruct (Hf eq_refl) as [Hs _ (F & Hix & HI) _]. destruct (decide (k = [])) as [->|Hk]; [destruct (GetFastNode_nil s) as [e ->]; apply Hslow|].
  rewrite (GetFastNode_spec init s a F k) by done. destruct (HF eq_refl F HI) as [H1 H2]. destruct (F !! k) as [[ver v]|]; cbn [fmap option_fmap option_map fast_node versionLastUpdatedAt fn_value fst snd].
  - destruct (Z.leb_spec ver (it_version i)); [|done]. by rewrite (H1 ver v).
  - destruct (Z.eqb_spec (it_version i) (latestVersion (ndb s))); [|done]. by rewrite H2.
Qed.

Lemma Get_inv init s a k : inv init s a -> Get k s = (s, Ok (work_map a !! k)).
Proof.
  intros Hi. pose proof Hi as [H Hf]. pose proof (sim_work _ _ _ H) as Hw. unfold Get, bind, gets. destruct (root s) as [n|] eqn:Er; [|destruct (vs_work a) eqn:Ew; [done|]; unfold work_map; by rewrite Ew].
  destruct (vs_work a) as [t|] eqn:Ew; [|done]. assert (exists r, get tree_fuel (tdb s) n k = Ok (r, work_map a !! k)) as Hr by (exists (rank k (leaves t)); unfold work_map; rewrite Ew; by apply (get_work init s a n t)).
  assert (it_root (itree s) = Some n) as Er' by done. destruct (skipFastStorageUpgrade s) eqn:Hsk; [apply (itree_Get_spec init s a); [done|by rewrite Er'|congruence]|].
  destruct (Hf eq_refl) as [_ _ _ HU]. destruct (unsavedFastNodeAdditions s !! k) as [fn|] eqn:Ea; [destruct (un_add _ _ _ HU k fn Ea) as (_ & _ & -> & _); done|].
  destruct (bool_decide_reflect (k ∈ unsavedFastNodeRemovals s)) as [Hin|Hin]; [destruct (un_rem _ _ _ HU k Hin) as [-> _]; done|].
  apply (itree_Get_spec init s a); [done|by rewrite Er'|]. intros _ F HI. rewrite (un_same _ _ _ HU k Ea Hin). split; [intros ver v Hv _; by apply (ix_some _ _ HI k ver v Hv)|intros Hn _; by apply (ix_none _ _ HI)].
Qed.

(** A saved version. *)
Lemma GetImmutable_Get init s a v k : inv init s a -> is_v v -> is_Some (vs_hist a !! v) -> exists m, 
  match GetImmutable v s with (t, Ok i) => itree_Get i k t | (t, Err _) => (t, Ok None) | (t, Panic) => (t, Panic) end = (set_versions m s, Ok (hist_map a v !! k)) /\ inv init (set_versions m s) a.
Proof.
  intros [H Hf] Hv [w Hw]. pose proof (GetImmutable_sim init s a v H Hv) as Hg. rewrite Hw in Hg. destruct Hg as (m & -> & Hm). exists m.
  assert (inv init (set_versions m s) a) as Hi by (split; [done|]; intros Hsk; by apply (fsim_same s _ a); [apply Hf|..]). split; [|done].
  assert (hist_map a v = otree_map w) as Eh by (unfold hist_map; by rewrite Hw). apply (itree_Get_spec init _ a); [done|..].
  - rewrite Eh. destruct w as [t|]; [|done]. cbn [it_root fmap option_fmap option_map]. exists (rank k (leaves t)). by apply (get_version init _ a v t).
  - intros _ F HI. cbn [it_version]. split.
    + intros ver x Hx Hle. destruct (ix_some _ _ HI k ver x Hx) as (_ & _ & _ & Hall). rewrite Eh. by apply (Hall v).
    + intros Hn El. pose proof (ix_none _ _ HI k Hn) as Hl. cbn [ndb set_versions] in El. assert (v = vs_version a) as ->; [|unfold hist_map; unfold latest_map, latest_tree in Hl; by rewrite Hw in *].
      pose proof (ho_dom _ _ (sim_hist _ _ _ H) _ _ Hw). destruct (sim_latest _ _ _ H); lia.
Qed.

Lemma GetVersioned_inv init s a k v : inv init s a -> is_v v -> (skipFastStorageUpgrade s = false -> k <> []) ->
  exists s', GetVersioned k v s = (s', Ok (hist_map a v !! k)) /\ inv init s' a /\ skipFastStorageUpgrade s' = skipFastStorageUpgrade s /\ tdb s' = tdb s.
Proof.
  intros [H Hf] Hv Hk. unfold GetVersioned, bind at 1. destruct (VersionExists_sim init s a v H Hv) as (m & -> & Hm). destruct (bool_decide_reflect (is_Some (vs_hist a !! v))) as [Hin|Hin]; cbn [negb].
  2:{ eexists. split; [unfold ret, hist_map|split; [split; [done|]|done]; intros Hsk; by apply (fsim_same s _ a); [apply Hf|..]]. destruct (vs_hist a !! v); [by destruct Hin; eexists|done]. }
  set (s1 := set_versions m s). assert (inv init s1 a) as Hi1 by (split; [done|]; intros Hsk; by apply (fsim_same s _ a); [apply Hf|..]).
  unfold bind at 1, gets at 1. destruct (skipFastStorageUpgrade s1) eqn:Hsk; [destruct (GetImmutable_Get init s1 a v k Hi1 Hv Hin) as (m' & -> & Hi'); by eexists|].
  destruct (proj2 Hi1 Hsk) as [Hs1 _ (F & HF & HI) _]. unfold bind at 1, IsFastCacheEnabled, bind at 1, on_ndb.
  rewrite (getLatestVersion_set (vs_hist a) (vs_version a) (ndb s1) (sim_hist _ _ _ Hm) (sim_store _ _ _ Hm) (sim_latest _ _ _ Hm)). set (s2 := set_ndb _ s1).
  assert (inv init s2 a) as Hi2 by (split; [by apply sim_set_latest|]; intros _; by apply (fsim_same s1 _ a); [apply Hi1|..]).
  unfold gets. fold (version s1). rewrite (sim_version _ _ _ Hm : version s1 = _), Z.eqb_refl. unfold hasUpgradedToFastStorage. rewrite (Hs1 : storageVersion (ndb s2) = _). unfold storage_of at 1. rewrite bytes_leb_app. cbn [negb andb].
  rewrite (GetFastNode_spec init s2 a F k) by (try done; by first [apply Hi2|apply Hk]). destruct (GetImmutable_Get init s2 a v k Hi2 Hv Hin) as (m' & Eg & Hi'). destruct Hin as [w Hw].
  destruct (F !! k) as [[ver x]|] eqn:Ex; cbn [fmap option_fmap option_map fast_node versionLastUpdatedAt fn_value fst snd].
  - destruct (Z.leb_spec ver v) as [Hle|_]; [|rewrite Eg; by eexists]. exists s2. split; [|done]. destruct (ix_some _ _ HI k ver x Ex) as (_ & _ & _ & Hall). unfold hist_map. rewrite Hw. cbn. by rewrite (Hall v w).
  - destruct (Z.eqb_spec v (latestVersion (ndb s2))) as [Ev|_]; [|rewrite Eg; by eexists]. exists s2. split; [|done]. cbn in Ev. subst v. pose proof (ix_none _ _ HI k Ex) as Hl.
    unfold latest_map, latest_tree in Hl. unfold hist_map. rewrite Hw in *. cbn in *. by rewrite Hl.
Qed.
