(* ===== verification/IavlFastIter.v ===== *)
(** Iterating over the fast index ([third_party/iavl/fast_iterator.go]) and over the
    index merged with the changes that are not saved yet
    ([third_party/iavl/unsaved_fast_iterator.go]) gives the entries of the map in the
    range, each once and in order. *)

From Stdlib Require Import ZArith Lia Ascii String.
From stdpp Require Import base list gmap strings sorting.
From S2P Require Import Prelude KVStore BigInt Sha256 IavlEncoding IavlNode IavlSpec IavlRepr IavlIter IavlWalk IavlDb IavlMutable IavlMutableProps IavlStore IavlVersions IavlCommit IavlFast.
Open Scope Z_scope.
Open Scope go_scope.

(** * Order in either direction *)

Definition dlt (asc : bool) (a b : bytes) : Prop := if asc then bytes_lt a b else bytes_lt b a.

#[export] Instance dlt_trans asc : Transitive (dlt asc).
Proof. unfold dlt. destruct asc; intros a b c H1 H2; [by transitivity b|]. by transitivity b. Qed.

Lemma dlt_irrefl asc a : ~ dlt asc a a.
Proof. unfold dlt. destruct asc; apply bytes_lt_irrefl. Qed.

Lemma dlt_ne asc a b : dlt asc a b -> a <> b.
Proof. intros H ->. by apply dlt_irrefl in H. Qed.

Lemma dlt_asym asc a b : dlt asc a b -> ~ dlt asc b a.
Proof. intros H1 H2. apply (dlt_irrefl asc a). by transitivity b. Qed.

(** Keys in the order of the iteration. *)
Definition dsorted {V : Type} (asc : bool) (l : list (bytes * V)) : Prop := StronglySorted (dlt asc) l.*1.

Lemma dsorted_cons {V : Type} asc (e : bytes * V) l : dsorted asc (e :: l) <-> (forall e', e' ∈ l -> dlt asc e.1 e'.1) /\ dsorted asc l.
Proof.
  unfold dsorted. cbn [fmap list_fmap]. split.
  - intros [Hs HF]%StronglySorted_inv. split; [|done]. rewrite Forall_fmap, Forall_forall in HF. apply HF.
  - intros [HF Hs]. constructor; [done|]. by rewrite Forall_fmap, Forall_forall.
Qed.

(** Two lists in order with the same entries are the same. *)
Lemma dsorted_unique {V : Type} asc (l l' : list (bytes * V)) : dsorted asc l -> dsorted asc l' -> (forall e, e ∈ l <-> e ∈ l') -> l = l'.
Proof.
  revert l'. induction l as [|e l IH]; intros [|e' l'] Hl Hl' He; [done|exfalso; by apply (not_elem_of_nil e'), He; left|exfalso; by apply (not_elem_of_nil e), He; left|].
  apply dsorted_cons in Hl as [H1 Hl], Hl' as [H2 Hl']. assert (e = e') as <-.
  { assert (e ∈ e' :: l') as Hin by (apply He; left). assert (e' ∈ e :: l) as Hin' by (apply He; left). apply elem_of_cons in Hin as [?|Hin], Hin' as [?|Hin']; try done.
    exfalso. by apply (dlt_asym asc e.1 e'.1); [apply H1|apply H2]. }
  f_equal. apply IH; [done|done|]. intros x. specialize (He x). rewrite !elem_of_cons in He. split; intros Hx.
  - destruct (proj1 He (or_intror Hx)) as [->|]; [|done]. by apply H1, dlt_irrefl in Hx.
  - destruct (proj2 He (or_intror Hx)) as [->|]; [|done]. by apply H2, dlt_irrefl in Hx.
Qed.

Lemma elem_of_rev {A : Type} (l : list A) x : x ∈ rev l <-> x ∈ l.
Proof. rewrite rev_alt. apply elem_of_reverse. Qed.

Lemma fmap_rev {A B : Type} (f : A -> B) l : f <$> rev l = rev (f <$> l).
Proof. induction l as [|x l IH]; [done|]. cbn. by rewrite fmap_app, IH. Qed.

Lemma dsorted_rev {V : Type} asc (l : list (bytes * V)) : dsorted asc l -> dsorted (negb asc) (rev l).
Proof.
  induction l as [|e l IH]; intros Hs; [constructor|]. apply dsorted_cons in Hs as [HF Hs]. cbn [rev]. specialize (IH Hs). unfold dsorted in *. rewrite fmap_app. cbn.
  apply StronglySorted_app. split_and!; [|done|by repeat constructor]. intros x1 x2 (e1 & -> & H1)%list_elem_of_fmap ->%list_elem_of_singleton. rewrite elem_of_rev in H1.
  specialize (HF e1 H1). by destruct asc.
Qed.

(** * The entries of a map in a range *)

Lemma strictly_sorted {V : Type} (l : list (bytes * V)) : StronglySorted entry_le l -> NoDup l.*1 -> dsorted true l.
Proof.
  unfold dsorted. induction 1 as [|[k v] l Hs IH HF]; cbn in *; [constructor|]. intros [Hk Hn]%NoDup_cons. constructor; [by apply IH|]. rewrite Forall_fmap. rewrite Forall_forall in *.
  intros [k' v'] Hin. specialize (HF _ Hin). split; [done|]. cbn. intros ->. apply Hk. apply list_elem_of_fmap. by exists (k', v').
Qed.

Lemma range_iter_dsorted (lo hi : option bytes) (m : gmap bytes bytes) : dsorted true (range_iter lo hi m).
Proof. apply strictly_sorted; [apply range_iter_sorted|apply NoDup_range_iter]. Qed.

Lemma in_order_dsorted {V : Type} asc (l : list (bytes * V)) : dsorted true l -> dsorted asc (in_order asc l).
Proof. intros Hs. destruct asc; [done|]. by apply (dsorted_rev true). Qed.

Lemma elem_of_in_order {A : Type} asc (l : list A) x : x ∈ in_order asc l <-> x ∈ l.
Proof. destruct asc; [done|apply elem_of_rev]. Qed.

Lemma range_iter_unique (asc : bool) (lo hi : option bytes) (m : gmap bytes bytes) (l : list (bytes * bytes)) : dsorted asc l -> (forall k v, (k, v) ∈ l <-> m !! k = Some v /\ in_domain lo hi k = true) -> l = in_order asc (range_iter lo hi m).
Proof.
  intros Hs Hl. apply (dsorted_unique asc); [done|apply in_order_dsorted, range_iter_dsorted|]. intros [k v]. by rewrite Hl, elem_of_in_order, elem_of_range_iter.
Qed.

(** The leaves of a tree. *)
Lemma leaves_range t (lo hi : option bytes) : bst t -> filter (fun e => in_domain lo hi e.1 = true) (leaves t) = range_iter lo hi (to_map t).
Proof.
  intros Hb. apply (range_iter_unique true).
  - pose proof (bst_sorted t Hb) as Hs. unfold sorted_keys in Hs. unfold dsorted. remember (leaves t) as l eqn:E. clear E. induction l as [|e l IH]; [constructor|]. cbn [fmap list_fmap] in Hs. apply StronglySorted_inv in Hs as [Hs HF].
    rewrite filter_cons. case_decide; [|by apply IH]. cbn [fmap list_fmap]. constructor; [by apply IH|]. rewrite Forall_forall in *. intros x (e' & -> & [_ Hin]%list_elem_of_filter)%list_elem_of_fmap. apply HF. apply list_elem_of_fmap. by exists e'.
  - intros k v. rewrite list_elem_of_filter. cbn [fst]. unfold to_map. rewrite <- elem_of_list_to_map by (by apply bst_nodup). tauto.
Qed.

(** * The fast index as a list *)

(** The entry of the database for an entry of the index. *)
Definition disk (e : bytes * (Z * bytes)) : bytes * bytes := (fastKey e.1, fast_WriteBytes (fast_node e.1 e.2)).

Definition decodable (e : bytes * (Z * bytes)) : Prop := - 2 ^ 63 <= e.2.1 < 2 ^ 63 /\ short e.2.2.

Definition shown (e : bytes * (Z * bytes)) : bytes * bytes := (e.1, e.2.2).

Lemma decode_disk e : decodable e -> DeserializeNode (tail (disk e).1) (disk e).2 = Ok (fast_node e.1 e.2).
Proof.
  intros [Hv Hs]. destruct (fast_node_roundtrip (fast_node e.1 e.2) []) as [Hrt _]; [done|done|]. rewrite app_nil_r in Hrt. exact Hrt.
Qed.

Lemma fast_at_nil : fast_at [] = mkFastIterator [] None.
Proof. done. Qed.

Lemma fast_at_cons e l : decodable e -> fast_at (disk e :: l) = mkFastIterator (disk e :: l) (Some (fast_node e.1 e.2)).
Proof. intros He. unfold fast_at. rewrite (surjective_pairing (disk e)). by rewrite decode_disk. Qed.

Lemma Fast_entries_disk fuel l : Forall decodable l -> (length l < fuel)%nat -> Fast_entries fuel (fast_at (disk <$> l)) = shown <$> l.
Proof.
  intros HF. revert fuel. induction HF as [|e l He HF IH]; intros [|fuel] Hf; cbn [length] in Hf; try lia; [done|]. cbn [fmap list_fmap Fast_entries]. rewrite fast_at_cons by done.
  change (FastIterator_Valid (mkFastIterator _ (Some _))) with true. cbn iota. f_equal. unfold FastIterator_Next. cbn [fi_node fi_entries tail]. apply IH. lia.
Qed.

(** The entries of the index in a range. *)
Definition index_list (lo hi : option bytes) (F : index) : list (bytes * (Z * bytes)) :=
  merge_sort entry_le (filter (fun kv => in_domain lo hi kv.1 = true) (map_to_list F)).

Lemma elem_of_index_list (lo hi : option bytes) (F : index) k e : (k, e) ∈ index_list lo hi F <-> F !! k = Some e /\ in_domain lo hi k = true.
Proof. unfold index_list. rewrite merge_sort_Permutation, list_elem_of_filter, elem_of_map_to_list. cbn. tauto. Qed.

Lemma index_list_dsorted (lo hi : option bytes) (F : index) : dsorted true (index_list lo hi F).
Proof.
  apply strictly_sorted; [apply (StronglySorted_merge_sort entry_le)|]. unfold index_list. rewrite merge_sort_Permutation. eapply sublist_NoDup; [apply (NoDup_fst_map_to_list F)|]. apply fmap_sublist, sublist_filter.
Qed.

Lemma fastKey_leb a b : bytes_leb (fastKey a) (fastKey b) = bytes_leb a b.
Proof. done. Qed.

Lemma fastKey_ltb a b : bytes_ltb (fastKey a) (fastKey b) = bytes_ltb a b.
Proof. unfold bytes_ltb. rewrite fastKey_leb. do 2 f_equal. apply bool_decide_ext. split; [apply fastKey_inj|by intros ->]. Qed.

Lemma fast_domain (lo hi : option bytes) K : in_domain (Some (fastKey (default [] lo))) (Some match hi with Some e => fastKey e | None => [103] end) K = true <->
  exists k, K = fastKey k /\ in_domain lo hi k = true.
Proof.
  unfold in_domain. assert (forall k, bytes_leb (default [] lo) k = match lo with None => true | Some s => bytes_leb s k end) as El by (by intros; destruct lo).
  assert (forall k, bytes_ltb (fastKey k) match hi with Some e => fastKey e | None => [103] end = match hi with None => true | Some e => bytes_ltb k e end) as Eh by (intros; destruct hi; [apply fastKey_ltb|done]).
  split.
  - intros [H1 H2]%andb_true_iff. assert (exists k, K = fastKey k) as [k ->].
    { destruct K as [|c k]; [done|]. exists k. unfold fastKey. f_equal. apply bytes_ltb_lt in H2. unfold fastKey in H1. cbn [bytes_leb] in H1.
      assert (c <= 102) by (destruct H2 as [H2 Hne]; unfold bytes_le in H2; destruct hi; unfold fastKey in *; cbn [bytes_leb] in H2; [lia|]; destruct k; cbn [bytes_leb] in H2; [|lia]; destruct (Z.eq_dec c 103) as [->|]; [done|lia]). lia. }
    exists k. split; [done|]. by rewrite <- El, <- Eh, <- fastKey_leb, H1, H2.
  - intros (k & -> & Hd). by rewrite fastKey_leb, El, Eh.
Qed.

(** The database iterator over the index. *)
Lemma getFastIterator_disk (db : database) (F : index) (lo hi : option bytes) (asc : bool) : has_index db F -> getFastIterator db lo hi asc = disk <$> in_order asc (index_list lo hi F).
Proof.
  intros HF. unfold getFastIterator. assert (disk <$> index_list lo hi F = range_iter (Some (fastKey (default [] lo))) (Some match hi with Some e => fastKey e | None => [103] end) db) as <-;
    [|destruct asc; [done|]; unfold in_order; by rewrite fmap_rev].
  apply (range_iter_unique true).
  - pose proof (index_list_dsorted lo hi F) as Hs. unfold dsorted in *. rewrite <- list_fmap_compose. induction (index_list lo hi F) as [|e l IH]; [constructor|]. cbn [fmap list_fmap] in *. apply StronglySorted_inv in Hs as [Hs HFa].
    constructor; [by apply IH|]. rewrite Forall_fmap in *. eapply Forall_impl; [exact HFa|]. intros e' He. unfold dlt in *. cbn. apply bytes_ltb_lt. rewrite fastKey_ltb. by apply bytes_ltb_lt.
  - intros K b. rewrite fast_domain, list_elem_of_fmap. split.
    + intros ([k e] & E & Hin%elem_of_index_list). apply pair_equal_spec in E as [-> ->]. destruct Hin as [Hk Hd]. cbn [fst snd]. split; [rewrite HF; by rewrite Hk|]. by exists k.
    + intros [Hl (k & -> & Hd)]. rewrite HF in Hl. destruct (F !! k) as [e|] eqn:Ek; [|done]. apply Some_inj in Hl as <-. exists (k, e). split; [done|]. by apply elem_of_index_list.
Qed.

(** The loop over a fast iterator shows the values of the index in the range. *)
Lemma Fast_entries_index (fuel : nat) (db : database) (F : index) (lo hi : option bytes) (asc : bool) : has_index db F -> (forall k e, F !! k = Some e -> decodable (k, e)) -> (size db < fuel)%nat ->
  Fast_entries fuel (NewFastIterator db lo hi asc) = in_order asc (range_iter lo hi (snd <$> F)).
Proof.
  intros HF Hd Hf. unfold NewFastIterator. assert (length (index_list lo hi F) <= size db)%nat as Hlen.
  { assert (length (getFastIterator db lo hi true) <= size db)%nat as Hl; [|by rewrite (getFastIterator_disk db F), length_fmap in Hl]. unfold getFastIterator, range_iter. rewrite merge_sort_Permutation, length_filter. by rewrite length_map_to_list. }
  assert (length (in_order asc (index_list lo hi F)) = length (index_list lo hi F)) as Eo by (destruct asc; [done|apply length_rev]).
  rewrite (getFastIterator_disk db F), Fast_entries_disk; [| |lia|done].
  - apply range_iter_unique.
    + pose proof (in_order_dsorted asc _ (index_list_dsorted lo hi F)) as Hs. unfold dsorted in *. by rewrite <- list_fmap_compose.
    + intros k v. rewrite list_elem_of_fmap, lookup_fmap. split.
      * intros ([k' e] & E & Hin). apply pair_equal_spec in E as [-> ->]. apply elem_of_in_order, elem_of_index_list in Hin as [Hk Hdom]. cbn [fst]. by rewrite Hk.
      * intros [Hl Hdom]. destruct (F !! k) as [e|] eqn:Ek; [|done]. injection Hl as <-. exists (k, e). split; [done|]. by apply elem_of_in_order, elem_of_index_list.
  - apply Forall_forall. intros [k e] Hin. apply elem_of_in_order, elem_of_index_list in Hin as [Hk _]. by apply Hd.
Qed.

(** * The index merged with the unsaved changes *)

Section Merge.
  Context (lo hi : option bytes) (asc : bool) (adds : gmap bytes FastNode) (rems : gset bytes).

(** The iterator with the entries of the index and the keys of the additions that are left. *)
Definition merging (nxt : option (bytes * bytes)) (D : list (bytes * (Z * bytes))) (U : list bytes) : UnsavedFastIterator :=
  mkUnsaved lo hi asc nxt (fast_at (disk <$> D)) U adds rems.

(** What is left to show. *)
Definition pending (D : list (bytes * (Z * bytes))) (U : list bytes) (e : bytes * bytes) : Prop :=
  (e.1 ∈ U /\ exists fn, adds !! e.1 = Some fn /\ e.2 = fn_value fn) \/ (e ∈ shown <$> D /\ e.1 ∉ rems /\ e.1 ∉ U).

Record merge_ok (D : list (bytes * (Z * bytes))) (U : list bytes) : Prop := {
  mo_decode : Forall decodable D;
  mo_disk : dsorted asc D;
  mo_unsaved : StronglySorted (dlt asc) U;
  mo_adds : forall k, k ∈ U -> exists fn, adds !! k = Some fn /\ fn_key fn = k
}.

(** What one step gives. *)
Definition merge_result (nxt : option (bytes * bytes)) (D : list (bytes * (Z * bytes))) (U : list bytes) (r : res UnsavedFastIterator) : Prop :=
  (r = Ok (merging None [] []) /\ forall e, ~ pending D U e) \/
  exists x D' U', r = Ok (merging (Some x) D' U') /\ merge_ok D' U' /\ (length D' + length U' < length D + length U)%nat /\
    (forall e, pending D U e <-> e = x \/ pending D' U' e) /\ (forall e, pending D' U' e -> dlt asc x.1 e.1).

Lemma merge_ok_disk e D U : merge_ok (e :: D) U -> merge_ok D U /\ decodable e /\ forall e', e' ∈ shown <$> D -> dlt asc e.1 e'.1.
Proof.
  intros [[He H1]%Forall_cons [HF H2]%dsorted_cons H3 H4]. split; [by split|]. split; [done|]. intros e' (e0 & -> & Hin)%list_elem_of_fmap. by apply HF.
Qed.

Lemma merge_ok_unsaved k D U : merge_ok D (k :: U) -> merge_ok D U /\ (forall k', k' ∈ U -> dlt asc k k') /\ exists fn, adds !! k = Some fn /\ fn_key fn = k.
Proof.
  intros [H1 H2 [H3 HF]%StronglySorted_inv H4]. rewrite Forall_forall in HF. split; [split; try done; intros k' Hk'; apply H4; by right|]. split; [done|]. apply H4. left.
Qed.

(** An addition is next: the entry of the index with its key, if any, is passed over. *)
Lemma merge_unsaved nxt k fn D U : merge_ok D (k :: U) -> adds !! k = Some fn -> fn_key fn = k -> (forall e, e ∈ shown <$> D -> dlt asc k e.1) ->
  forall D0, (D0 = D \/ exists e, D0 = e :: D /\ e.1 = k) -> merge_result nxt D0 (k :: U) (Ok (merging (Some (fn_key fn, fn_value fn)) D U)).
Proof.
  intros Hok Ea Ek Hd D0 HD0. destruct (merge_ok_unsaved k D U Hok) as (Hok' & HU & _). right. exists (fn_key fn, fn_value fn), D, U. rewrite Ek. split; [done|]. split; [done|].
  assert (forall e, pending D0 (k :: U) e <-> pending D (k :: U) e) as Hp.
  { intros e. destruct HD0 as [->|(e0 & -> & E0)]; [done|]. unfold pending. cbn [fmap list_fmap]. rewrite !elem_of_cons. split; [|tauto].
    intros [?|([->|?] & ? & ?)]; [by left| |right; by rewrite ?elem_of_cons]. cbn [shown fst] in *. tauto. }
  split; [destruct HD0 as [->|(e0 & -> & _)]; cbn [length]; lia|]. split.
  - intros [k' v']. rewrite Hp. unfold pending. cbn [fst snd]. rewrite !elem_of_cons. split.
    + intros [[[->|HkU] (fn' & Hfn & ->)]|(HD & Hr & Hn)]; [left; congruence|right; left; eauto|right; right; tauto].
    + intros [[= -> ->]|[[HkU Hfn]|(HD & Hr & Hn)]]; [left; eauto|left; eauto|right]. split_and!; try done. intros [->|?]; [|done]. apply Hd in HD. by apply dlt_irrefl in HD.
  - intros [k' v'] [[HkU _]|(HD & _)]; [by apply HU|by apply Hd].
Qed.

(** An entry of the index is next. *)
Lemma merge_disk nxt e D U : merge_ok (e :: D) U -> e.1 ∉ rems -> (forall k, k ∈ U -> dlt asc e.1 k) -> merge_result nxt (e :: D) U (Ok (merging (Some (e.1, e.2.2)) D U)).
Proof.
  intros Hok Hr HU. destruct (merge_ok_disk e D U Hok) as (Hok' & _ & Hd). right. exists (e.1, e.2.2), D, U. split; [done|]. split; [done|]. split; [cbn [length]; lia|]. split.
  - intros x. unfold pending. cbn [fmap list_fmap]. rewrite elem_of_cons. assert (e.1 ∉ U) as Hn by (intros Hin; apply HU in Hin; by apply dlt_irrefl in Hin). split.
    + intros [?|([->|?] & ? & ?)]; [right; by left|by left|right; by right].
    + intros [->|[?|(? & ? & ?)]]; [right; split_and!; try done; by left|by left|right; tauto].
  - intros x [[Hx _]|(Hx & _)]; [by apply HU|by apply Hd].
Qed.

(** An entry of the index that was removed is passed over. *)
Lemma merge_removed nxt e D U r : e.1 ∈ rems -> merge_result nxt D U r -> merge_result nxt (e :: D) U r.
Proof.
  intros Hr. assert (forall x, pending (e :: D) U x <-> pending D U x) as Hp.
  { intros x. unfold pending. cbn [fmap list_fmap]. rewrite elem_of_cons. split; [|tauto]. intros [?|([->|?] & Hn & ?)]; [by left|by destruct Hn|by right]. }
  intros [[-> Hno]|(x & D' & U' & -> & Hok & Hlen & Hx & Hlt)]; [left; split; [done|]; intros x; rewrite Hp; apply Hno|]. right. exists x, D', U'. split_and!; try done; [cbn [length]; lia|].
  intros y. by rewrite Hp.
Qed.

Lemma unsaved_first k e : (if asc then bytes_leb k e else bytes_leb e k) = true -> k = e \/ dlt asc k e.
Proof. intros H. destruct (decide (k = e)) as [|Hne]; [by left|]. right. destruct asc; split; congruence. Qed.

Lemma disk_first k e : (if asc then bytes_leb k e else bytes_leb e k) = false -> dlt asc e k.
Proof.
  intros H. destruct asc; unfold dlt; (split; [|intros E; by rewrite E, (bytes_le_refl _ : bytes_leb _ _ = true) in H]).
  - destruct (bytes_le_total k e) as [Hk|]; [unfold bytes_le in Hk; congruence|done].
  - destruct (bytes_le_total e k) as [Hk|]; [unfold bytes_le in Hk; congruence|done].
Qed.

Lemma Unsaved_next_merge fuel : forall nxt D U, merge_ok D U -> (length D < fuel)%nat -> merge_result nxt D U (Unsaved_next fuel (merging nxt D U)).
Proof.
  induction fuel as [|fuel IH]; intros nxt D U Hok Hf; [lia|]. destruct D as [|e D].
  - cbn [Unsaved_next]. change (FastIterator_Valid (ui_fast (merging nxt [] U))) with false. cbn iota. change (ui_unsaved (merging nxt [] U)) with U. destruct U as [|k U].
    + left. split; [done|]. intros x [[Hx _]|(Hx & _)]; by apply not_elem_of_nil in Hx.
    + destruct (merge_ok_unsaved k [] U Hok) as (_ & _ & fn & Ea & Ek). change (ui_additions (merging nxt [] (k :: U))) with adds. rewrite Ea. apply (merge_unsaved nxt k fn [] U); try done; [|by left]. by intros x Hx%not_elem_of_nil.
  - cbn [length] in Hf. destruct (merge_ok_disk e D U Hok) as (Hok' & He & Hd). cbn [Unsaved_next]. change (ui_fast (merging nxt (e :: D) U)) with (fast_at (disk e :: (disk <$> D))). rewrite fast_at_cons by done.
    change (FastIterator_Valid (mkFastIterator _ (Some _))) with true. change (FastIterator_Key (mkFastIterator _ (Some _))) with e.1. change (FastIterator_Value (mkFastIterator _ (Some _))) with e.2.2.
    change (FastIterator_Next (mkFastIterator _ (Some _))) with (fast_at (disk <$> D)). change (ui_unsaved (merging nxt (e :: D) U)) with U. change (ui_removals (merging nxt (e :: D) U)) with rems.
    destruct U as [|k U]; (destruct (bool_decide_reflect (e.1 ∈ rems)) as [Hr|Hr]; [apply merge_removed; [done|]; apply IH; [done|lia]|]).
    + apply merge_disk; try done. by intros k Hk%not_elem_of_nil.
    + destruct (merge_ok_unsaved k _ U Hok) as (_ & HU & fn & Ea & Ek). change (ui_additions (merging nxt (e :: D) (k :: U))) with adds. change (ui_ascending (merging nxt (e :: D) (k :: U))) with asc. rewrite Ea.
      destruct (if asc then bytes_leb k e.1 else bytes_leb e.1 k) eqn:Ec.
      * destruct (bool_decide_reflect (e.1 = k)) as [E|Hne].
        -- apply (merge_unsaved nxt k fn D U); try done; [by rewrite <- E|]. right. by exists e.
        -- assert (dlt asc k e.1) as Hlt by (apply unsaved_first in Ec as [|]; [congruence|done]). rewrite <- fast_at_cons by done.
           apply (merge_unsaved nxt k fn (e :: D) U); try done; [|by left]. intros x [->|Hx]%elem_of_cons; [done|]. transitivity e.1; [done|by apply Hd].
      * apply disk_first in Ec. apply merge_disk; try done. intros k' [->|Hk']%elem_of_cons; [done|]. transitivity k; [done|by apply HU].
Qed.

(** The loop shows what is left, in order. *)
Lemma Unsaved_entries_merge fuel : match lo, hi with Some s, Some e => bytes_ltb s e | _, _ => true end = true -> forall D U x, merge_ok D U -> (length D + length U < fuel)%nat ->
  exists M, Unsaved_entries fuel (merging (Some x) D U) = Ok (x :: M) /\ dsorted asc M /\ forall e, e ∈ M <-> pending D U e.
Proof.
  intros Hdom. induction fuel as [|fuel IH]; intros D U x Hok Hf; [lia|]. cbn [Unsaved_entries]. unfold Unsaved_Valid. cbn [merging ui_start ui_end ui_next]. rewrite Hdom. rewrite orb_true_r. cbn [andb].
  unfold Unsaved_Next. change (mkUnsaved lo hi asc (Some x) _ U adds rems) with (merging (Some x) D U).
  assert (fi_entries (ui_fast (merging (Some x) D U)) = disk <$> D) as -> by done. rewrite length_fmap.
  destruct (Unsaved_next_merge (2 + length D) (Some x) D U Hok ltac:(lia)) as [[-> Hno]|(y & D' & U' & -> & Hok' & Hlen & Hy & Hlt)]; cbn [mbind result_bind].
  - exists []. split; [|split; [constructor|intros e; split; [by intros ?%not_elem_of_nil|by intros ?%Hno]]].
    assert (Unsaved_entries fuel (merging None [] []) = Ok []) as ->; [|done]. destruct fuel; cbn [Unsaved_entries]; unfold Unsaved_Valid; cbn; by rewrite andb_false_r.
  - destruct (IH D' U' y Hok' ltac:(lia)) as (M & -> & Hs & HM). exists (y :: M). split; [done|]. split; [apply dsorted_cons; split; [|done]; intros e He; by apply Hlt, HM|].
    intros e. by rewrite elem_of_cons, HM, Hy.
Qed.
End Merge.

Lemma sorted_keys_order asc (l : list bytes) : NoDup l -> StronglySorted (dlt asc) (in_order asc (merge_sort bytes_le l)).
Proof.
  intros Hn. assert (forall l : list bytes, ((fun k => (k, tt)) <$> l).*1 = l) as Ef by (intros l'; rewrite <- list_fmap_compose; apply list_fmap_id).
  assert (dsorted asc (in_order asc ((fun k => (k, tt)) <$> merge_sort bytes_le l))) as Hs.
  - apply in_order_dsorted, strictly_sorted; [|by rewrite Ef, merge_sort_Permutation].
    assert (StronglySorted bytes_le (merge_sort bytes_le l)) as Hs by apply (StronglySorted_merge_sort bytes_le). induction Hs as [|k l' Hs IH HFa]; [constructor|]. cbn. constructor; [done|]. by rewrite Forall_fmap.
  - unfold dsorted in Hs. destruct asc; unfold in_order in *; rewrite ?fmap_rev, Ef in Hs; done.
Qed.

(** Iterating over the merged index shows the entries of the map in the range. *)
Lemma unsaved_iteration (fuel : nat) (db : database) (F : index) (lo hi : option bytes) (asc : bool) (adds : gmap bytes FastNode) (rems : gset bytes) (m : gmap bytes bytes) :
  has_index db F -> (forall k e, F !! k = Some e -> decodable (k, e)) -> (forall k fn, adds !! k = Some fn -> fn_key fn = k) ->
  (forall k, m !! k = match adds !! k with Some fn => Some (fn_value fn) | None => if bool_decide (k ∈ rems) then None else snd <$> F !! k end) -> (size db + size adds < fuel)%nat ->
  exists it, NewUnsavedFastIterator db lo hi asc adds rems = Ok it /\ Unsaved_entries fuel it = Ok (in_order asc (range_iter lo hi m)).
Proof.
  intros HF Hdec Hkey Hm Hf. set (D := in_order asc (index_list lo hi F)). set (keys := (filter (fun e : bytes * FastNode => in_domain lo hi (fn_key e.2) = true) (map_to_list adds)).*1).
  set (U := in_order asc (merge_sort bytes_le keys)). assert (forall k, k ∈ U <-> is_Some (adds !! k) /\ in_domain lo hi k = true) as HU.
  { intros k. unfold U. rewrite elem_of_in_order, merge_sort_Permutation. unfold keys. rewrite list_elem_of_fmap. setoid_rewrite list_elem_of_filter. split.
    - intros ([k' fn] & -> & Hd & Hin%elem_of_map_to_list). cbn in *. rewrite (Hkey _ _ Hin) in Hd. split; [by eexists|done].
    - intros [[fn Hfn] Hd]. exists (k, fn). split; [done|]. cbn. rewrite (Hkey _ _ Hfn). split; [done|]. by apply elem_of_map_to_list. }
  assert (length D <= size db /\ length U <= size adds)%nat as [HlD HlU].
  { split.
    - assert (length (getFastIterator db lo hi asc) <= size db)%nat as Hl; [|by rewrite (getFastIterator_disk db F), length_fmap in Hl].
      unfold getFastIterator. destruct asc; rewrite ?length_rev; unfold range_iter; rewrite merge_sort_Permutation, length_filter; by rewrite length_map_to_list.
    - unfold U, in_order. destruct asc; rewrite ?length_rev, merge_sort_Permutation; unfold keys; rewrite length_fmap, length_filter; by rewrite length_map_to_list. }
  assert (merge_ok asc adds D U) as Hok.
  { split; [apply Forall_forall; intros [k e] Hin; by apply elem_of_in_order, elem_of_index_list in Hin as [Hk _]; apply Hdec|apply in_order_dsorted, index_list_dsorted| |intros k [[fn Hfn] _]%HU; exists fn; by split; [|apply Hkey]].
    apply sorted_keys_order. unfold keys. eapply sublist_NoDup; [apply (NoDup_fst_map_to_list adds)|]. apply fmap_sublist, sublist_filter. }
  assert (forall e, pending adds rems D U e <-> m !! e.1 = Some e.2 /\ in_domain lo hi e.1 = true) as Hp.
  { intros [k v]. unfold pending. cbn [fst snd]. rewrite !HU, Hm, list_elem_of_fmap. split.
    - intros [[[_ Hd] (fn & -> & ->)]|(([k' e] & E & Hin) & Hr & Hn)]; [done|]. apply pair_equal_spec in E as [-> ->]. apply elem_of_in_order, elem_of_index_list in Hin as [Hk Hd]. cbn [fst snd] in *.
      destruct (adds !! k') as [fn|] eqn:Ea; [destruct Hn; split; [by eexists|done]|]. rewrite bool_decide_false by done. by rewrite Hk.
    - intros [Hl Hd]. destruct (adds !! k) as [fn|] eqn:Ea; [left; injection Hl as <-; split; [by split; [eexists|]|by exists fn]|]. destruct (bool_decide_reflect (k ∈ rems)) as [|Hr]; [done|].
      right. destruct (F !! k) as [e|] eqn:Ek; [|done]. injection Hl as <-. split; [|split; [done|by intros [[] _]]]. exists (k, e). split; [done|]. by apply elem_of_in_order, elem_of_index_list. }
  assert (forall l, dsorted asc l -> (forall e, e ∈ l <-> pending adds rems D U e) -> l = in_order asc (range_iter lo hi m)) as Huniq by (intros l Hs Hl; apply range_iter_unique; [done|]; intros k v; rewrite Hl; apply Hp).
  unfold NewUnsavedFastIterator, NewFastIterator. rewrite (getFastIterator_disk db F) by done. fold D keys. assert ((if asc then merge_sort bytes_le keys else rev (merge_sort bytes_le keys)) = U) as -> by done.
  change (mkUnsaved lo hi asc None _ U adds rems) with (merging lo hi asc adds rems None D U). unfold Unsaved_Next. assert (fi_entries (ui_fast (merging lo hi asc adds rems None D U)) = disk <$> D) as -> by done. rewrite length_fmap.
  destruct (Unsaved_next_merge lo hi asc adds rems (2 + length D) None D U Hok ltac:(lia)) as [[-> Hno]|(x & D' & U' & -> & Hok' & Hlen & Hx & Hlt)]; (eexists; split; [reflexivity|]).
  - rewrite <- (Huniq []); [|constructor|intros e; split; [by intros ?%not_elem_of_nil|by intros ?%Hno]]. destruct fuel; cbn [Unsaved_entries]; unfold Unsaved_Valid; cbn; by rewrite andb_false_r.
  - destruct (match lo, hi with Some s, Some e => bytes_ltb s e | _, _ => true end) eqn:Edom.
    + destruct (Unsaved_entries_merge lo hi asc adds rems fuel Edom D' U' x Hok' ltac:(lia)) as (M & -> & Hs & HM). f_equal. apply Huniq; [apply dsorted_cons; split; [|done]; intros e He; by apply Hlt, HM|].
      intros e. by rewrite elem_of_cons, HM, Hx.
    + exfalso. destruct (proj1 (Hp x) (proj2 (Hx x) (or_introl eq_refl))) as [_ Hd]. unfold in_domain in Hd. destruct lo as [s|], hi as [e|]; try done. apply andb_true_iff in Hd as [H1 H2%bytes_ltb_lt]. apply bytes_ltb_ge in Edom.
      pose proof (bytes_le_lt_trans _ _ _ (H1 : bytes_le s x.1) H2) as H3. by apply bytes_lt_not_le in H3.
Qed.

(** * Iterating over the working tree *)

Lemma index_latest (F : index) a k : index_ok F a -> snd <$> F !! k = latest_map a !! k.
Proof. intros [I1 I2]. destruct (F !! k) as [[ver v]|] eqn:E; cbn; symmetry; [by apply (I1 k ver v)|by apply I2]. Qed.

Lemma index_decodable (F : index) init s a k e : sim init s a -> index_ok F a -> F !! k = Some e -> decodable (k, e).
Proof. intros H HI Hk. destruct e as [ver v]. destruct (ix_some _ _ HI k ver v Hk) as (_ & Hv & Hs & _). pose proof (version_bound _ _ _ H). split; [cbn; lia|done]. Qed.

Lemma walk_fuel_enough n t (P Q : tree -> Prop) : repr P Q n t -> tree_ok t -> (2 * nodes t < walk_fuel (Some n))%nat.
Proof. intros Hn Hok. destruct (repr_fields P Q n t Hn) as (_ & _ & Es & _). unfold walk_fuel. cbn [tree_Size]. rewrite Es. pose proof (nodes_size t). lia. Qed.

(** The iterator over the nodes of the working tree. *)
Lemma tree_iteration (init : Z) (s : MutableTree) (a : vstate) (fuel : nat) (db : database) (lo hi : option bytes) (asc : bool) : sim init s a -> (forall k, tree_key k -> db !! k = tdb s !! k) -> (walk_fuel (root s) <= fuel)%nat ->
  exists it, NewIterator (walk_fuel (root s)) db lo hi asc (root s) = Ok it /\ Iterator_entries fuel db it = Ok (in_order asc (range_iter lo hi (work_map a))).
Proof.
  intros H Hdb Hf. assert (forall t, saved_in a t -> stored db t) as Hst.
  { intros t Ht. pose proof (saved_stored _ _ _ H t Ht) as Hs. unfold stored in *. eapply Forall_impl; [exact Hs|]. cbn. intros u Hu. rewrite Hdb; [done|by left]. } pose proof (sim_work _ _ _ H) as Hw. pose proof (sim_ok _ _ _ H) as Hok. unfold work_map. destruct (root s) as [n|] eqn:Er, (vs_work a) as [t|] eqn:Ew; try done; cbn [orepr] in Hw.
  - pose proof (walk_fuel_enough n t _ _ Hw Hok) as Hn. destruct (iterator_repr db (saved_in a) (unsaved_in a) Hst (saved_left a) (saved_right a) n t (walk_fuel (Some n)) fuel lo hi asc Hw Hok Hn ltac:(lia)) as (it & E & Eit).
    exists it. split; [done|]. rewrite Eit. cbn [otree_map]. by rewrite leaves_range by apply Hok.
  - exists None. split; [done|]. cbn [otree_map]. assert (range_iter lo hi ∅ = []) as -> by done. destruct fuel; by destruct asc.
Qed.

Lemma mt_entries_inv init s a (lo hi : option bytes) (asc : bool) : inv init s a ->
  exists s', mt_entries lo hi asc s = (s', Ok (in_order asc (range_iter lo hi (work_map a)))) /\ inv init s' a /\ skipFastStorageUpgrade s' = skipFastStorageUpgrade s /\ tdb s' = tdb s.
Proof.
  intros Hi. pose proof Hi as [H Hf]. unfold mt_entries, bind at 1, mt_Iterator, bind at 1, gets at 1. destruct (skipFastStorageUpgrade s) eqn:Hsk.
  - unfold itree_Iterator, bind at 1, gets at 1. rewrite Hsk. unfold bind, reading. destruct (tree_iteration init s a (loop_fuel s) (tdb s) lo hi asc H ltac:(done) ltac:(unfold loop_fuel; lia)) as (it & E & Eit).
    unfold root in E. rewrite E. unfold ret. cbn iota. exists s. cbn [db_entries]. rewrite Eit. by split.
  - destruct (Hf eq_refl) as [Hs _ (F & HF & HI) HU]. unfold bind at 1, IsFastCacheEnabled, bind at 1, on_ndb.
    rewrite (getLatestVersion_set (vs_hist a) (vs_version a) (ndb s) (sim_hist _ _ _ H) (sim_store _ _ _ H) (sim_latest _ _ _ H)). set (s2 := set_ndb _ s).
    assert (inv init s2 a) as Hi2 by (split; [by apply sim_set_latest|]; intros _; by apply (fsim_same s _ a); [apply Hf|..]).
    unfold gets. fold (version s). rewrite (sim_version _ _ _ H : version s = _), Z.eqb_refl. unfold hasUpgradedToFastStorage. rewrite (Hs : storageVersion (ndb s2) = _). unfold storage_of at 1. rewrite bytes_leb_app. cbn [andb].
    unfold bind, reading. destruct (unsaved_iteration (loop_fuel s2) (tdb s2) F lo hi asc (unsavedFastNodeAdditions s) (unsavedFastNodeRemovals s) (work_map a) HF) as (it & E & Eit).
    + intros k e. by apply (index_decodable F init s a).
    + intros k fn Hfn. by apply (un_add _ _ _ HU).
    + intros k. rewrite (index_latest F a) by done. destruct (unsavedFastNodeAdditions s !! k) as [fn|] eqn:Ea; [by apply (un_add _ _ _ HU)|]. destruct (bool_decide_reflect (k ∈ unsavedFastNodeRemovals s)); [by apply (un_rem _ _ _ HU)|by apply (un_same _ _ _ HU)].
    + unfold loop_fuel. cbn. lia.
    + rewrite E. unfold ret. cbn iota. exists s2. cbn [db_entries]. rewrite Eit. by split_and!.
Qed.


(** The upgrade to the fast index: [enableFastStorageAndCommitIfNotEnabled] of
    [third_party/iavl/mutable_tree.go] replaces what is left of an older index by the
    entries of the loaded version and marks the index with the latest version. *)

Lemma apply_batch_app (ws ws' : list write) (db : database) : apply_batch (ws ++ ws') db = apply_batch ws' (apply_batch ws db).
Proof. apply foldl_app. Qed.

(** * Writes that leave the trees alone *)

Definition no_tree_writes (ws : list write) : Prop := forall k, k ∈ ws.*1 -> ~ tree_key k.

(** [n'] is [n] after writes [ws], some of which may be committed already. *)
Record after_writes (n n' : nodeDB) (ws : list write) : Prop := {
  aw_flush : flush n' = apply_batch ws (flush n);
  aw_latest : latestVersion n' = latestVersion n;
  aw_init : InitialVersion n' = InitialVersion n;
  aw_readers : versionReaders n' = versionReaders n;
  aw_storage : storageVersion n' = storageVersion n;
  aw_trees : forall k, tree_key k -> nd_db n' !! k = nd_db n !! k;
  aw_batch : no_tree_writes (nd_batch n')
}.

Lemma after_nothing n : no_tree_writes (nd_batch n) -> after_writes n n [].
Proof. by split. Qed.

Lemma after_trans n n' n'' ws ws' : after_writes n n' ws -> after_writes n' n'' ws' -> after_writes n n'' (ws ++ ws').
Proof.
  intros [] []. split; try congruence.
  - rewrite aw_flush1, aw_flush0. unfold apply_batch. by rewrite foldl_app.
  - intros k Hk. by rewrite aw_trees1, aw_trees0.
  - done.
Qed.

Lemma after_appends n ws : no_tree_writes (nd_batch n) -> no_tree_writes ws -> after_writes n (appends n ws) ws.
Proof.
  intros Hb Hw. split; try done; [apply flush_appends|]. intros k. cbn. rewrite fmap_app, elem_of_app. intros [?|?]; [by apply Hb|by apply Hw].
Qed.

Lemma after_commit n : no_tree_writes (nd_batch n) -> after_writes n (reset n) [].
Proof.
  intros Hb. split; try done; [|intros k Hk; by apply not_elem_of_nil in Hk]. intros k Hk. cbn. apply apply_batch_other. intros Hin. by apply Hb in Hin.
Qed.

Lemma Commit_reset n : Commit n = (reset n, Ok tt).
Proof. done. Qed.

(** A loop whose rounds write [g a], with a commit now and then. *)
Lemma for_count_after {A} (l : list A) (f : A -> DB unit) (g : A -> write) n : no_tree_writes (nd_batch n) -> (forall a, a ∈ l -> ~ tree_key (g a).1) ->
  (forall a m, a ∈ l -> f a m = (appends m [g a], Ok tt)) -> exists n', for_count l f n = (n', Ok tt) /\ after_writes n n' (g <$> l).
Proof.
  intros Hb Hg Hf. unfold for_count.
  assert (forall (il : list (Z * A)) n, no_tree_writes (nd_batch n) -> (forall e, e ∈ il -> e.2 ∈ l) -> exists n',
    for_each il (fun '(i, a) => f a ;; if i mod commitGap =? 0 then Commit else ret tt) n = (n', Ok tt) /\ after_writes n n' ((fun e => g e.2) <$> il)) as Hil.
  { clear n Hb. induction il as [|[i a] il IH]; intros n Hb Hl; cbn [for_each fmap list_fmap]; [exists n; split; [done|by apply after_nothing]|].
    assert (a ∈ l) as Ha by (apply (Hl (i, a)); left). unfold bind at 1. unfold bind at 1. rewrite Hf by done.
    assert (no_tree_writes [g a]) as Hga by (intros k; cbn; rewrite list_elem_of_singleton; intros ->; by apply Hg). pose proof (after_appends n [g a] Hb Hga) as H1.
    assert (exists m, (if i mod commitGap =? 0 then Commit else ret tt) (appends n [g a]) = (m, Ok tt) /\ after_writes n m [g a]) as (m & -> & Hm).
    { destruct (i mod commitGap =? 0); [|by exists (appends n [g a])]. rewrite Commit_reset. eexists. split; [reflexivity|]. rewrite <- (app_nil_r [g a]). eapply after_trans; [exact H1|]. apply after_commit. exact (aw_batch _ _ _ H1). }
    destruct (IH m (aw_batch _ _ _ Hm) ltac:(intros e He; apply Hl; by right)) as (n' & -> & Hn'). exists n'. split; [done|]. by apply (after_trans n m n' [g a]). }
  destruct (Hil (imap (fun i a => (Z.of_nat i + 1, a)) l) n Hb) as (n' & E & Hn').
  - intros e He. apply elem_of_lookup_imap in He as (i & a & -> & Ha). by eapply list_elem_of_lookup_2.
  - exists n'. split; [done|]. assert ((fun e : Z * A => g e.2) <$> imap (fun i a => (Z.of_nat i + 1, a)) l = g <$> l) as Eg; [|by rewrite Eg in Hn'].
    clear. apply list_eq. intros i. rewrite !list_lookup_fmap, list_lookup_imap. by destruct (l !! i).
Qed.

(** * The storage version *)

Lemma str_inj s s' : str s = str s' -> s = s'.
Proof.
  unfold str. intros H. apply list_fmap_eq_inj in H; [|intros c c' E; apply Nat2Z.inj in E; by rewrite <- (ascii_nat_embedding c), E, ascii_nat_embedding].
  by rewrite <- (string_of_list_ascii_of_string s), H, string_of_list_ascii_of_string.
Qed.

Lemma Itoa_inj v w : Itoa v = Itoa w -> v = w.
Proof. intros H%str_inj. by apply BigString_inj. Qed.

(** There is no index, or one of another version. *)
Definition old_storage (sv : bytes) (L : Z) : Prop := sv = defaultStorageVersionValue \/ exists L0, 0 <= L0 /\ L0 <> L /\ sv = storage_of L0.

Lemma old_storage_new sv L : old_storage sv L -> new_storage sv L = storage_of L /\ (length (Split fastStorageVersionDelimiter sv) <= 2)%nat.
Proof. intros [->|(L0 & H0 & _ & ->)]; [split; [done|vm_compute; lia]|]. rewrite storage_split by done. split; [by apply storage_new|done]. Qed.

Lemma IsUpgradeable_old init s a : sim init s a -> skipFastStorageUpgrade s = false -> old_storage (storageVersion (ndb s)) (vs_version a) ->
  exists n, IsUpgradeable s = (set_ndb n s, Ok true) /\ (n = ndb s \/ n = set_latestVersion (vs_version a) (ndb s)).
Proof.
  intros H Hsk Hold. unfold IsUpgradeable, bind at 1, on_ndb, shouldForceFastStorageUpgrade, bind at 1, gets at 1. destruct Hold as [E|(L0 & H0 & Hne & E)]; rewrite E.
  - exists (ndb s). split; [|by left]. assert (Split fastStorageVersionDelimiter defaultStorageVersionValue = [defaultStorageVersionValue]) as -> by (by vm_compute). unfold ret, gets.
    unfold hasUpgradedToFastStorage. cbn [ndb set_ndb skipFastStorageUpgrade]. by rewrite E, Hsk.
  - exists (set_latestVersion (vs_version a) (ndb s)). split; [|by right]. rewrite storage_split by done. unfold bind at 1.
    rewrite (getLatestVersion_set (vs_hist a) (vs_version a) (ndb s) (sim_hist _ _ _ H) (sim_store _ _ _ H) (sim_latest _ _ _ H)). unfold ret, gets. rewrite bool_decide_false by (by intros E'%Itoa_inj).
    unfold hasUpgradedToFastStorage. cbn [ndb set_ndb skipFastStorageUpgrade negb]. by rewrite Hsk, orb_true_r.
Qed.

(** * The new index *)

Definition whole_index (a : vstate) : index := (fun v => (vs_version a, v)) <$> latest_map a.

Lemma whole_index_ok init s a : sim init s a -> index_ok (whole_index a) a.
Proof.
  intros H. unfold whole_index. split; intros k; rewrite lookup_fmap.
  - intros ver v E. destruct (latest_map a !! k) as [v'|] eqn:El; [|done]. injection E as <- <-. unfold latest_map, latest_tree in El. destruct (vs_hist a !! vs_version a) as [[t|]|] eqn:Eh; try done. cbn in El.
    pose proof (ho_dom _ _ (sim_hist _ _ _ H) _ _ Eh) as Hd. pose proof (ho_tree _ _ (sim_hist _ _ _ H) _ _ Eh) as Hok. split_and!; try done; try lia; [by apply (short_map t k)|].
    intros w t' Ht' Hw. pose proof (ho_dom _ _ (sim_hist _ _ _ H) _ _ Ht'). assert (w = vs_version a) as -> by lia. rewrite Eh in Ht'. by injection Ht' as <-.
  - by destruct (latest_map a !! k).
Qed.

Definition delete_write (e : bytes * bytes) : write := (fastKey e.1, None).
Definition index_write (ver : Z) (e : bytes * bytes) : write := (fastKey e.1, Some (fast_WriteBytes (mkFast e.1 ver e.2))).

Lemma DeleteFastNode_appends k n : DeleteFastNode k n = (appends n [(fastKey k, None)], Ok tt).
Proof. unfold DeleteFastNode, bind, fastNodeKey, key_of. by rewrite fastNodeKey_eq. Qed.
Lemma SaveFastNode_appends fn n : SaveFastNode fn n = (appends n [(fastKey (fn_key fn), Some (fast_WriteBytes fn))], Ok tt).
Proof. unfold SaveFastNode, bind, fastNodeKey, key_of. by rewrite fastNodeKey_eq. Qed.

(** What is left of the old index goes. *)
Lemma clear_phase (s : MutableTree) (F0 : index) : nd_batch (ndb s) = [] -> has_index (tdb s) F0 -> (forall k e, F0 !! k = Some e -> decodable (k, e)) ->
  let entries := Fast_entries (S (size (tdb s))) (NewFastIterator (tdb s) None None true) in
  exists n, (for_count entries (fun '(k, _) => DeleteFastNode k) ;; if Z.of_nat (length entries) mod commitGap =? 0 then ret tt else Commit) (ndb s) = (n, Ok tt) /\
    after_writes (ndb s) n (delete_write <$> range_iter None None (snd <$> F0)).
Proof.
  intros Hb HF Hd. cbn zeta. rewrite (Fast_entries_index _ _ F0) by (try done; lia). cbn [in_order].
  assert (no_tree_writes (nd_batch (ndb s))) as Hnb by (rewrite Hb; by intros k ?%not_elem_of_nil).
  destruct (for_count_after (range_iter None None (snd <$> F0)) (fun '(k, _) => DeleteFastNode k) delete_write (ndb s) Hnb) as (n & E & Hn).
  - intros a _. apply fast_key_other.
  - intros [k v] m _. apply DeleteFastNode_appends.
  - unfold bind. rewrite E. destruct (_ =? 0); [by exists n|]. rewrite Commit_reset. eexists. split; [reflexivity|]. rewrite <- (app_nil_r (delete_write <$> _)). eapply after_trans; [done|]. apply after_commit, Hn.
Qed.

Lemma setFastStorage_latest n L : getLatestVersion n = (set_latestVersion L n, Ok L) -> old_storage (storageVersion n) L ->
  setFastStorageVersionToBatch n = (set_storageVersion (storage_of L) (appends (set_latestVersion L n) [(metadata_key, Some (storage_of L))]), Ok tt).
Proof.
  intros EL Hold. destruct (old_storage_new _ _ Hold) as [En Hsp]. unfold setFastStorageVersionToBatch, bind at 1, gets at 1, hasUpgradedToFastStorage. unfold new_storage in En.
  destruct (bytes_leb _ _); unfold bind, guard, ret; [rewrite (proj2 (Nat.leb_le _ _) Hsp); cbn iota|]; rewrite EL, En; unfold key_of; rewrite metadataKey_eq; done.
Qed.

(** The writes of the upgrade. *)
Definition upgrade_writes (F0 : index) (a : vstate) : list write :=
  (delete_write <$> range_iter None None (snd <$> F0)) ++ (index_write (vs_version a) <$> range_iter None None (work_map a)) ++ [(metadata_key, Some (storage_of (vs_version a)))].

(** The state of the database after it. *)
Record upgraded_db (init : Z) (n n' : nodeDB) (F0 : index) (a : vstate) : Prop := {
  ud_db : nd_db n' = apply_batch (upgrade_writes F0 a) (nd_db n);
  ud_batch : nd_batch n' = [];
  ud_latest : latestVersion n' = vs_version a;
  ud_init : InitialVersion n' = InitialVersion n;
  ud_readers : versionReaders n' = versionReaders n;
  ud_storage : storageVersion n' = storage_of (vs_version a)
}.

(** The entries of the loaded version are written. *)
Lemma build_phase init s a n F0 : sim init s a -> after_writes (ndb s) n (delete_write <$> range_iter None None (snd <$> F0)) -> old_storage (storageVersion n) (vs_version a) ->
  latestVersion n = 0 \/ latestVersion n = vs_version a -> exists n', enableFastStorageAndCommit (set_ndb n s) = (set_ndb n' s, Ok tt) /\ upgraded_db init (ndb s) n' F0 a.
Proof.
  intros H Hn Hold Hl. unfold enableFastStorageAndCommit, bind at 1, gets at 1. unfold bind at 1, reading at 1.
  change (tdb (set_ndb n s)) with (nd_db n). change (root (set_ndb n s)) with (root s). destruct (tree_iteration init s a (walk_fuel (root s)) (nd_db n) None None true H (aw_trees _ _ _ Hn) ltac:(lia)) as (it & -> & Eit). cbn [mbind result_bind]. rewrite Eit. cbn [in_order].
  unfold on_ndb. cbn [ndb set_ndb]. change (version (set_ndb n s)) with (version s). rewrite (sim_version _ _ _ H). set (L := vs_version a) in *.
  destruct (for_count_after (range_iter None None (work_map a)) (fun '(k, v) => SaveFastNode (mkFast k L v)) (index_write L) n (aw_batch _ _ _ Hn)) as (n2 & E2 & Hn2).
  - intros e _. apply fast_key_other.
  - intros [k v] m _. apply SaveFastNode_appends.
  - pose proof (after_trans _ _ _ _ _ Hn Hn2) as Hn3. unfold bind. rewrite E2.
    assert (getLatestVersion n2 = (set_latestVersion L n2, Ok L)) as EL.
    { apply (getLatestVersion_set (vs_hist a) L); [apply (sim_hist _ _ _ H)| |by rewrite (aw_latest _ _ _ Hn2)]. eapply is_store_ext; [|apply (sim_store _ _ _ H)]. intros k Hk. symmetry. by apply (aw_trees _ _ _ Hn3). }
    rewrite (setFastStorage_latest n2 L EL) by (by rewrite (aw_storage _ _ _ Hn2)). rewrite Commit_reset. eexists. split; [reflexivity|]. split; try done.
    + cbn [reset set_db nd_db]. change (apply_batch (nd_batch ?x) (nd_db ?x)) with (flush x). change (flush (set_storageVersion _ ?x)) with (flush x). rewrite flush_appends. change (flush (set_latestVersion L n2)) with (flush n2).
      rewrite (aw_flush _ _ _ Hn3). unfold flush. rewrite (sim_batch _ _ _ H). cbn [apply_batch foldl]. unfold upgrade_writes, apply_batch. by rewrite app_assoc, !foldl_app.
    + apply (aw_init _ _ _ Hn3).
    + apply (aw_readers _ _ _ Hn3).
Qed.

Lemma upgrade_writes_other F0 a k : ~ (exists k0, k = fastKey k0) -> k <> metadata_key -> k ∉ (upgrade_writes F0 a).*1.
Proof.
  intros Hf Hm. unfold upgrade_writes. rewrite !fmap_app, !elem_of_app. intros [Hin|[Hin|Hin]].
  - apply list_elem_of_fmap in Hin as (w & -> & (e & -> & _)%list_elem_of_fmap). apply Hf. by eexists.
  - apply list_elem_of_fmap in Hin as (w & -> & (e & -> & _)%list_elem_of_fmap). apply Hf. by eexists.
  - by apply list_elem_of_singleton in Hin.
Qed.

Lemma fast_key_inv k k0 : tree_key k -> k <> fastKey k0.
Proof. intros Hk ->. by apply fast_key_other in Hk. Qed.

(** The new entries. *)
Lemma index_writes_lookup (L : Z) (m : gmap bytes bytes) (db : database) k :
  apply_batch (index_write L <$> range_iter None None m) db !! fastKey k = match m !! k with Some v => Some (fast_WriteBytes (mkFast k L v)) | None => db !! fastKey k end.
Proof.
  assert (functional (index_write L <$> range_iter None None m)) as Hfun.
  { intros k0 w w' ([k1 v1] & E1 & H1)%list_elem_of_fmap ([k2 v2] & E2 & H2)%list_elem_of_fmap. apply pair_equal_spec in E1 as [-> ->], E2 as [E2 ->]. apply fastKey_inj in E2. cbn in E2. subst k2.
    apply elem_of_range_iter in H1 as [H1 _], H2 as [H2 _]. rewrite H1 in H2. by injection H2 as <-. }
  destruct (m !! k) as [v|] eqn:Em.
  - apply apply_batch_in; [done|]. apply list_elem_of_fmap. exists (k, v). split; [done|]. by apply elem_of_range_iter.
  - apply apply_batch_other. intros (w & Ew & ([k1 v1] & -> & H1)%list_elem_of_fmap)%list_elem_of_fmap. apply fastKey_inj in Ew. cbn in Ew. subst k1. apply elem_of_range_iter in H1 as [H1 _]. congruence.
Qed.

Lemma delete_writes_lookup (m : gmap bytes bytes) (db : database) k : apply_batch (delete_write <$> range_iter None None m) db !! fastKey k = match m !! k with Some _ => None | None => db !! fastKey k end.
Proof.
  destruct (m !! k) as [v|] eqn:Em.
  - apply apply_batch_in; [|apply list_elem_of_fmap; exists (k, v); split; [done|by apply elem_of_range_iter]].
    intros k0 w w' (e & E1 & _)%list_elem_of_fmap (e' & E2 & _)%list_elem_of_fmap. apply pair_equal_spec in E1 as [_ ->], E2 as [_ ->]. done.
  - apply apply_batch_other. intros (w & Ew & ([k1 v1] & -> & H1)%list_elem_of_fmap)%list_elem_of_fmap. apply fastKey_inj in Ew. cbn in Ew. subst k1. apply elem_of_range_iter in H1 as [H1 _]. congruence.
Qed.

Lemma upgraded_index (init : Z) (n n' : nodeDB) (F0 : index) (a : vstate) : upgraded_db init n n' F0 a -> has_index (nd_db n) F0 -> work_map a = latest_map a -> has_index (nd_db n') (whole_index a).
Proof.
  intros Hu HF Hw k. rewrite (ud_db _ _ _ _ _ Hu). unfold upgrade_writes. rewrite app_assoc, !apply_batch_app. change (apply_batch [(metadata_key, ?w)] ?d) with (apply_write d (metadata_key, w)). cbn [apply_write]. rewrite lookup_insert_ne by done.
  rewrite (index_writes_lookup (vs_version a) (work_map a)). rewrite (delete_writes_lookup (snd <$> F0)). unfold whole_index. rewrite !lookup_fmap, Hw. destruct (latest_map a !! k) as [v|]; [done|].
  rewrite HF. by destruct (F0 !! k).
Qed.

(** The trees are as they were. *)
Lemma upgraded_sim init s n F0 a : sim init s a -> upgraded_db init (ndb s) n F0 a -> sim init (set_ndb n s) a.
Proof.
  intros H Hu. pose proof (version_bound _ _ _ H) as HL. assert (nd_db n !! metadata_key = Some (storage_of (vs_version a))) as Hmeta.
  { rewrite (ud_db _ _ _ _ _ Hu). unfold upgrade_writes. rewrite app_assoc. unfold apply_batch. rewrite foldl_snoc. cbn [apply_write]. apply lookup_insert_eq. }
  destruct H. split; try done; cbn [ndb set_ndb].
  - eapply is_store_ext; [|exact sim_store]. intros k Hk. change (tdb (set_ndb n s)) with (nd_db n). rewrite (ud_db _ _ _ _ _ Hu). symmetry. apply apply_batch_other, upgrade_writes_other; [intros [k0 E]; by apply (fast_key_inv k k0)|].
    intros ->. by apply metadata_other in Hk.
  - apply (ud_batch _ _ _ _ _ Hu).
  - right. apply (ud_latest _ _ _ _ _ Hu).
  - by rewrite (ud_init _ _ _ _ _ Hu).
  - by rewrite (ud_readers _ _ _ _ _ Hu).
  - rewrite (ud_storage _ _ _ _ _ Hu), storage_split by lia. done.
  - unfold stored_version_of. change (tdb (set_ndb n s)) with (nd_db n). rewrite Hmeta. cbn [default from_option id]. by rewrite storage_split by lia.
Qed.

(** The upgrade makes the index right. *)
Lemma upgrade_rebuilds (init : Z) (s : MutableTree) (a : vstate) (F0 : index) : sim init s a -> skipFastStorageUpgrade s = false -> work_map a = latest_map a -> unsavedFastNodeAdditions s = ∅ -> unsavedFastNodeRemovals s = ∅ ->
  has_index (tdb s) F0 -> (forall k e, F0 !! k = Some e -> decodable (k, e)) -> old_storage (storageVersion (ndb s)) (vs_version a) ->
  exists n, upgrade s = (set_ndb n s, Ok tt) /\ inv init (set_ndb n s) a.
Proof.
  intros H Hsk Hw Ea Er HF Hd Hold. unfold upgrade, unless_skip. rewrite Hsk. unfold enableFastStorageAndCommitIfNotEnabled. unfold bind at 1, bind at 1.
  destruct (IsUpgradeable_old init s a H Hsk Hold) as (n1 & -> & Hn1). cbn [negb]. set (s1 := set_ndb n1 s).
  assert (sim init s1 a) as H1 by (destruct Hn1 as [->| ->]; [by destruct s|by apply sim_set_latest]). assert (tdb s1 = tdb s /\ storageVersion (ndb s1) = storageVersion (ndb s)) as [Edb Esv] by (by destruct Hn1 as [->| ->]).
  unfold bind at 1, gets at 1. destruct (clear_phase s1 F0) as (n2 & E2 & Hn2); [apply (sim_batch _ _ _ H1)|by rewrite Edb|done|]. unfold bind at 1, on_ndb at 1. rewrite E2.
  destruct (build_phase init s1 a n2 F0 H1 Hn2) as (n3 & E3 & Hn3); [by rewrite (aw_storage _ _ _ Hn2), Esv|rewrite (aw_latest _ _ _ Hn2); apply (sim_latest _ _ _ H1)|].
  change (set_ndb n2 (set_ndb n1 s)) with (set_ndb n2 s1). rewrite E3. exists n3. split; [done|]. change (set_ndb n3 s) with (set_ndb n3 s1).
  split; [by apply (upgraded_sim init s1 n3 F0)|]. intros _. split.
  - apply (ud_storage _ _ _ _ _ Hn3).
  - change (tdb (set_ndb n3 s1)) with (nd_db n3). rewrite (ud_db _ _ _ _ _ Hn3). unfold upgrade_writes. rewrite app_assoc. unfold apply_batch. rewrite foldl_snoc. cbn [apply_write]. apply lookup_insert_eq.
  - exists (whole_index a). split; [|by apply (whole_index_ok init s)]. apply (upgraded_index init (ndb s1) n3 F0); [done|by fold (tdb s1); rewrite Edb|done].
  - change (unsavedFastNodeAdditions (set_ndb n3 s1)) with (unsavedFastNodeAdditions s). change (unsavedFastNodeRemovals (set_ndb n3 s1)) with (unsavedFastNodeRemovals s). rewrite Ea, Er. split; [done|set_solver|by rewrite Hw].
Qed.
