(* ===== verification/IavlOverwrite.v ===== *)
(** Going back to an older version: [DeleteVersionsFrom] of [third_party/iavl/nodedb.go]
    deletes the later versions, the nodes only they have and the orphan entries that no
    longer apply, and [LoadVersionForOverwriting] of [mutable_tree.go] leaves a store in
    which the older version is the latest. *)

From Stdlib Require Import ZArith Lia Ascii String.
From stdpp Require Import base list gmap strings sorting.
From S2P Require Import Prelude KVStore BigInt Sha256 IavlEncoding IavlNode IavlSpec IavlRepr IavlIter IavlWalk IavlDb IavlMutable IavlMutableProps IavlStore IavlVersions IavlCommit IavlFast IavlFastIter.
Open Scope Z_scope.
Open Scope go_scope.

(** * Versions grow towards the root *)

(** No child is newer than its parent. *)
Definition vmono (t : tree) : Prop :=
  Forall (fun s => match s with Leaf _ _ _ => True | Inner _ ver l r => tversion l <= ver /\ tversion r <= ver end) (subtrees t).

Definition ovmono (t : option tree) : Prop := match t with Some t => vmono t | None => True end.

(** The nodes that are not older than the version, as the deletion visits them. *)
Fixpoint new_nodes (v : Z) (t : tree) : list tree :=
  if tversion t <? v then []
  else match t with Leaf _ _ _ => [t] | Inner _ _ l r => new_nodes v l ++ new_nodes v r ++ [t] end.

Lemma vmono_children k ver l r : vmono (Inner k ver l r) -> tversion l <= ver /\ tversion r <= ver /\ vmono l /\ vmono r.
Proof. unfold vmono. cbn [subtrees]. rewrite Forall_cons, Forall_app. tauto. Qed.

Lemma vmono_below t s : vmono t -> s ∈ subtrees t -> tversion s <= tversion t.
Proof.
  induction t as [k v ver|k ver l IHl r IHr]; intros Hm; cbn [subtrees]; [intros ->%list_elem_of_singleton; done|].
  destruct (vmono_children k ver l r Hm) as (Hl & Hr & Ml & Mr). rewrite elem_of_cons, elem_of_app. cbn [tversion]. intros [->|[Hs|Hs]]; [done|specialize (IHl Ml Hs); lia|specialize (IHr Mr Hs); lia].
Qed.

Lemma elem_of_new_nodes v t s : vmono t -> s ∈ new_nodes v t <-> s ∈ subtrees t /\ v <= tversion s.
Proof.
  induction t as [k b ver|k ver l IHl r IHr]; intros Hm; cbn [new_nodes subtrees tversion].
  - destruct (Z.ltb_spec ver v); rewrite ?list_elem_of_singleton; [split; [by intros ?%not_elem_of_nil|intros [-> Hv]; cbn in Hv; lia]|]. split; [by intros ->|by intros [-> _]].
  - pose proof (vmono_below _ s Hm) as Hb. destruct (vmono_children k ver l r Hm) as (_ & _ & Ml & Mr). cbn [subtrees tversion] in Hb. destruct (Z.ltb_spec ver v).
    + split; [by intros ?%not_elem_of_nil|]. intros [Hs Hv]. specialize (Hb Hs). lia.
    + rewrite !elem_of_app, list_elem_of_singleton, elem_of_cons, elem_of_app, (IHl Ml), (IHr Mr). split; [intros [?|[?| ->]]; cbn; tauto|]. tauto.
Qed.

(** A tree made of older nodes and of nodes of a new version. *)
Lemma vmono_new ver t t' : (forall s, s ∈ osubtrees t' -> s ∈ osubtrees t \/ tversion s = ver) -> (forall s, s ∈ osubtrees t -> tversion s <= ver) -> ovmono t -> ovmono t'.
Proof.
  intros Hs Hv Hm. destruct t' as [t'|]; [|done]. apply Forall_forall. intros s Hin. destruct s as [|k w l r]; [done|].
  assert (forall c, c ∈ subtrees t' -> tversion c <= ver) as Hle by (intros c [Hc|Hc]%Hs; [by apply Hv|lia]).
  assert (l ∈ subtrees t' /\ r ∈ subtrees t') as [Hl Hr] by (split; (eapply subtrees_trans; [exact Hin|]); right; apply elem_of_app; [left|right]; apply subtrees_self).
  destruct (Hs _ Hin) as [Hold|Hnew].
  - destruct t as [t|]; [|by apply not_elem_of_nil in Hold]. cbn in Hm. unfold vmono in Hm. rewrite Forall_forall in Hm. apply (Hm _ Hold).
  - cbn in Hnew. subst w. split; by apply Hle.
Qed.

(** * The nodes of the later versions *)

Lemma GetNode_at (db : database) t n : nd_db n = db -> stored db t -> tree_ok t -> ndb_GetNode (Some (thash t)) n = (n, Ok (loaded t)).
Proof. intros En Hst Hok. unfold ndb_GetNode, bind, gets, of_res. rewrite En, GetNode_stored by done. done. Qed.

Lemma delete_node s n : (let! k := nodeKey (thash s) in batch_Delete k) n = (appends n [(nkey (thash s), None)], Ok tt).
Proof. unfold bind, nodeKey, key_of. by rewrite nodeKey_thash. Qed.

Lemma deleteNodesFrom_some fuel v h : h <> [] -> deleteNodesFrom (S fuel) v (Some h) =
  let! node := ndb_GetNode (Some h) in
  if n_version node <? v then ret tt
  else
    match n_leftHash node with Some _ => deleteNodesFrom fuel v (n_leftHash node) | None => ret tt end ;;
    match n_rightHash node with Some _ => deleteNodesFrom fuel v (n_rightHash node) | None => ret tt end ;;
    if v <=? n_version node then let! k := nodeKey h in batch_Delete k else ret tt.
Proof. by destruct h. Qed.

Lemma deleteNodesFrom_spec v t : forall fuel n, stored (nd_db n) t -> tree_ok t -> (Z.to_nat (theight t) < fuel)%nat ->
  deleteNodesFrom fuel v (Some (thash t)) n = (appends n ((fun s => (nkey (thash s), None)) <$> new_nodes v t), Ok tt).
Proof.
  induction t as [k b ver|k ver l IHl r IHr]; intros [|fuel] n Hst Hok Hf; try lia; rewrite deleteNodesFrom_some by apply thash_nonempty;
    unfold bind at 1; rewrite (GetNode_at (nd_db n)) by done; cbn [loaded n_version n_leftHash n_rightHash new_nodes tversion].
  - destruct (Z.ltb_spec ver v); [by rewrite appends_nil|]. unfold bind at 1 2, ret at 1 2. rewrite (proj2 (Z.leb_le v ver)) by lia. rewrite delete_node. done.
  - destruct (Z.ltb_spec ver v); [by rewrite appends_nil|]. pose proof (theight_nonneg l). pose proof (theight_nonneg r). cbn [theight] in Hf. unfold bind at 1.
    rewrite (IHl fuel n) by (eauto with iavl; lia). unfold bind at 1. rewrite (IHr fuel) by (cbn; eauto with iavl; lia). rewrite (proj2 (Z.leb_le v ver)) by lia. rewrite delete_node.
    by rewrite !appends_app, !fmap_app, ?app_assoc.
Qed.

(** * Orphan entries by version *)

Lemma bytes_le_longer a b r : length a = length b -> bytes_le a (b ++ r) <-> bytes_le a b.
Proof.
  revert b. induction a as [|x a IH]; intros [|y b] Hl; try done. cbn [app]. rewrite !bytes_le_cons. rewrite IH by (cbn in Hl; lia). done.
Qed.

Lemma bytes_lt_longer a b r : length a = length b -> bytes_lt (b ++ r) a <-> bytes_lt b a.
Proof.
  intros Hl. split.
  - intros Hlt. destruct (decide (bytes_lt b a)) as [|Hn]; [done|]. exfalso. assert (bytes_le a b) as Hab by (apply bytes_ltb_ge; destruct (bytes_ltb b a) eqn:E; [by apply bytes_ltb_lt in E|done]).
    apply (bytes_le_longer a b r Hl) in Hab. by apply bytes_lt_not_le in Hlt.
  - intros Hlt. destruct (decide (bytes_lt (b ++ r) a)) as [|Hn]; [done|]. exfalso. assert (bytes_le a (b ++ r)) as Hab by (apply bytes_ltb_ge; destruct (bytes_ltb (b ++ r) a) eqn:E; [by apply bytes_ltb_lt in E|done]).
    apply (bytes_le_longer a b r Hl) in Hab. by apply bytes_lt_not_le in Hlt.
Qed.

(** The orphan entries between two versions. *)
Lemma okey_domain lo hi to from h : is_v lo -> is_v hi -> is_v to ->
  in_domain (Some (111 :: be8 (u64 lo))) (Some (111 :: be8 (u64 hi))) (okey to from h) = true <-> lo <= to < hi.
Proof.
  intros Hlo Hhi Hto. unfold in_domain, okey. rewrite andb_true_iff, bytes_ltb_lt. change (bytes_leb ?a ?b = true) with (bytes_le a b). rewrite (u64_small lo), (u64_small hi), (u64_small to) by done.
  change (111 :: be8 to ++ ?x) with ((111 :: be8 to) ++ x). rewrite bytes_le_longer by (cbn; by rewrite !length_be8). rewrite bytes_lt_longer by (cbn; by rewrite !length_be8).
  unfold bytes_lt. change (111 :: ?x) with ([111] ++ x). rewrite !bytes_le_app_same, !be8_le by (unfold is_v in *; lia).
  assert ([111] ++ be8 to <> [111] ++ be8 hi <-> to <> hi) as ->; [|lia]. split; [by intros Hn ->|]. intros Hn E. apply Hn. apply (app_inv_head [111]) in E. apply be8_inj in E; unfold is_v in *; lia.
Qed.

(** * Deleting the later versions *)

(** The versions up to the target. *)
Definition keep_upto (v : Z) (hist : history) : history := filter (fun e => e.1 <= v) hist.

Lemma lookup_keep_upto v hist w : keep_upto v hist !! w = if bool_decide (w <= v) then hist !! w else None.
Proof.
  unfold keep_upto. destruct (bool_decide_reflect (w <= v)) as [Hw|Hw].
  - destruct (hist !! w) eqn:E; [by apply map_lookup_filter_Some|]. apply map_lookup_filter_None. by left.
  - apply map_lookup_filter_None. right. by intros x _.
Qed.

Lemma member_keep_upto v hist w s : member (keep_upto v hist) w s <-> member hist w s /\ w <= v.
Proof. unfold member. rewrite lookup_keep_upto. case_bool_decide; naive_solver. Qed.

Section From.
  Context (hist : history) (L : Z) (db : database) (v : Z).
  Hypothesis Hok : hist_ok hist L.
  Hypothesis Hst : is_store hist L db.
  Hypothesis Hv : is_Some (hist !! v).

Definition orphan_deletes (e : bytes * bytes) : list write :=
  match scan_orphan e.1 with
  | None => []
  | Some (_, from) => if v + 1 <=? from then [(e.1, None); (nkey e.2, None)] else [(e.1, None)]
  end.

Definition latest_nodes : list tree := match hist !! L with Some (Some t) => new_nodes (v + 1) t | _ => [] end.

Definition from_writes : list write :=
  ((fun s => (nkey (thash s), None)) <$> latest_nodes) ++
  mjoin (orphan_deletes <$> range_iter (Some (111 :: be8 (u64 v))) (Some (111 :: be8 (u64 maxVersion))) db) ++
  ((fun e => (e.1, None)) <$> range_iter (rootKey (v + 1)) (rootKey maxVersion) db).

(** The entries that go. *)
Inductive from_delete : bytes -> Prop :=
| fd_node s : member hist L s -> v < tversion s -> from_delete (nkey (thash s))
| fd_orphan w s : last_in hist w s -> v <= w < L -> from_delete (okey w (tversion s) (thash s))
| fd_orphan_node w s : last_in hist w s -> w < L -> v < tversion s -> from_delete (nkey (thash s))
| fd_root w : is_Some (hist !! w) -> v < w -> from_delete (rkey w).

Lemma target_bound : 0 < v <= L /\ is_v v /\ is_v maxVersion /\ is_v (v + 1) /\ L < maxVersion.
Proof. destruct Hv as [t Ht]. pose proof (ho_dom _ _ Hok _ _ Ht). pose proof (ho_bound _ _ Hok). unfold is_v, maxVersion. lia. Qed.

(** The orphan entries from the target on. *)
Lemma orphans_from k h : (k, h) ∈ range_iter (Some (111 :: be8 (u64 v))) (Some (111 :: be8 (u64 maxVersion))) db <->
  exists w s, last_in hist w s /\ v <= w < L /\ k = okey w (tversion s) (thash s) /\ h = thash s.
Proof using All.
  destruct target_bound as (Hvb & Hv1 & Hvm & _ & HLm). rewrite elem_of_range_iter. split.
  - intros [Hl Hd]. pose proof Hd as Hd'. unfold in_domain in Hd'. apply andb_true_iff in Hd' as [H1 H2]. apply bytes_ltb_lt in H2. destruct (between_prefix _ _ _ _ H1 H2) as [k' ->].
    apply (Hst (111 :: k') h) in Hl; [|right; by left]. apply entry_inv in Hl as [(w & t & E & _)|[(w & s & E & _)|(w & s & E & -> & Hs & HL)]]; [by apply (f_equal head) in E..|].
    rewrite E in *. destruct (member_is_v hist L Hok w s (proj1 Hs)) as [Hw _]. apply okey_domain in Hd; [|done..]. exists w, s. split_and!; try done; lia.
  - intros (w & s & Hs & Hw & -> & ->). destruct (member_is_v hist L Hok w s (proj1 Hs)) as [Hiv _]. split; [|apply okey_domain; try done; lia].
    apply (Hst (okey w (tversion s) (thash s))); [right; by left|]. constructor; [done|lia].
Qed.

Lemma orphan_deletes_okey w s : member hist w s -> orphan_deletes (okey w (tversion s) (thash s), thash s) =
  if v + 1 <=? tversion s then [(okey w (tversion s) (thash s), None); (nkey (thash s), None)] else [(okey w (tversion s) (thash s), None)].
Proof using Hok.
  intros Hs. destruct (member_is_v hist L Hok w s Hs) as [Hw _]. destruct (member_ok hist L Hok w s Hs) as (_ & Hvs & _). unfold orphan_deletes. cbn [fst snd]. by rewrite scan_orphan_okey by (try apply length_thash; done).
Qed.

Hypothesis Hmono : forall w t, hist !! w = Some (Some t) -> vmono t.

Lemma elem_of_latest_nodes s : s ∈ latest_nodes <-> member hist L s /\ v < tversion s.
Proof using Hmono.
  unfold latest_nodes, member. destruct (hist !! L) as [[t|]|] eqn:E; [|split; [by intros ?%not_elem_of_nil|by intros [(t & ? & _) _]]..].
  rewrite elem_of_new_nodes by (by eapply Hmono). split; [intros [Hs Hlt]; split; [by exists t|lia]|]. intros [(t' & [= <-] & Hs) Hlt]. split; [done|lia].
Qed.

Lemma elem_of_from_writes k w : (k, w) ∈ from_writes <-> w = None /\ from_delete k.
Proof using All.
  destruct target_bound as (Hvb & Hv1 & Hvm & Hv2 & HLm). unfold from_writes. rewrite !elem_of_app, list_elem_of_join. split.
  - intros [(s & E & Hs)%list_elem_of_fmap|[(ws & Hw & ([k' h] & -> & Hin)%list_elem_of_fmap)|([k' r] & E & Hin)%list_elem_of_fmap]].
    + apply pair_equal_spec in E as [-> ->]. apply elem_of_latest_nodes in Hs as [Hs Hlt]. split; [done|by constructor].
    + apply orphans_from in Hin as (w0 & s & Hs & Hw0 & -> & ->). rewrite orphan_deletes_okey in Hw by apply Hs. destruct (Z.leb_spec (v + 1) (tversion s)).
      * apply elem_of_cons in Hw as [E|E%list_elem_of_singleton]; apply pair_equal_spec in E as [-> ->]; (split; [done|]); [by apply fd_orphan|by apply (fd_orphan_node w0); try done; lia].
      * apply list_elem_of_singleton in Hw. apply pair_equal_spec in Hw as [-> ->]. split; [done|by apply fd_orphan].
    + apply pair_equal_spec in E as [-> ->]. split; [done|]. cbn [fst]. destruct (proj1 (roots_from hist L db Hok Hst (v + 1) k' maxVersion Hv2 Hvm) ltac:(by exists r)) as (w0 & -> & Hw0 & Hr). apply fd_root; [done|lia].
  - intros [-> Hd]. destruct Hd as [s Hs Hlt|w0 s Hs Hw0|w0 s Hs Hw0 Hlt|w0 Hw0 Hlt].
    + left. apply list_elem_of_fmap. exists s. split; [done|]. by apply elem_of_latest_nodes.
    + right. left. eexists. split; [|apply list_elem_of_fmap; exists (okey w0 (tversion s) (thash s), thash s); split; [reflexivity|apply orphans_from; by exists w0, s]].
      rewrite orphan_deletes_okey by apply Hs. destruct (v + 1 <=? tversion s); left.
    + right. left. pose proof (ho_ver _ _ Hok w0 s (proj1 Hs)). eexists. split; [|apply list_elem_of_fmap; exists (okey w0 (tversion s) (thash s), thash s); split; [reflexivity|apply orphans_from; exists w0, s; split_and!; try done; lia]].
      rewrite orphan_deletes_okey by apply Hs. rewrite (proj2 (Z.leb_le _ _)) by lia. right. left.
    + right. right. apply list_elem_of_fmap. destruct Hw0 as [t Ht]. pose proof (ho_dom _ _ Hok _ _ Ht). destruct (proj2 (roots_from hist L db Hok Hst (v + 1) (rkey w0) maxVersion Hv2 Hvm)) as [r Hin]; [exists w0; split_and!; [done|by eexists|lia|lia]|]. by exists (rkey w0, r).
Qed.

Lemma from_lookup k b : apply_batch (from_writes) db !! k = Some b <-> db !! k = Some b /\ ~ from_delete k.
Proof using All.
  assert (functional from_writes) as Hf by (intros k0 w w' [-> _]%elem_of_from_writes [-> _]%elem_of_from_writes; done). rewrite (apply_batch_lookup _ _ _ _ Hf). split.
  - intros [[E _]%elem_of_from_writes|[Hl Hn]]; [done|]. split; [done|]. intros Hd. by apply (Hn None), elem_of_from_writes.
  - intros [Hl Hn]. right. split; [done|]. intros w [_ Hd]%elem_of_from_writes. done.
Qed.

(** A node of a later version that the target has no use for goes. *)
Lemma new_node_deleted w s : member hist w s -> v < tversion s -> from_delete (nkey (thash s)).
Proof using Hok.
  intros Hs Hlt. destruct (exists_last hist L Hok w s Hs) as (w' & Hw' & Hl). destruct (member_is_v hist L Hok w' s (proj1 Hl)) as [_ Hb]. destruct (Z.eq_dec w' L) as [->|]; [apply fd_node; [apply Hl|done]|].
  apply (fd_orphan_node w'); try done. lia.
Qed.

Lemma old_node_kept w s : member hist w s -> tversion s <= v -> exists w', member (keep_upto v hist) w' s.
Proof using Hok Hv.
  intros Hs Hle. destruct (Z.le_gt_cases w v); [exists w; by apply member_keep_upto|]. exists v. apply member_keep_upto. split; [|done]. apply (ho_between _ _ Hok v w); try done. lia.
Qed.

Lemma last_in_keep w s : w < v -> last_in (keep_upto v hist) w s <-> last_in hist w s.
Proof using Hok Hv.
  intros Hw. unfold last_in. rewrite member_keep_upto. split.
  - intros [[Hs _] Hn]. split; [done|]. intros x Hx Hm. destruct (Z.le_gt_cases x v); [apply (Hn x); [done|]; by apply member_keep_upto|]. apply (Hn v); [done|]. apply member_keep_upto. split; [|done].
    pose proof (ho_ver _ _ Hok w s Hs). apply (ho_between _ _ Hok v x); try done; lia.
  - intros [Hs Hn]. split; [split; [done|lia]|]. intros x Hx [Hm _]%member_keep_upto. by apply (Hn x).
Qed.

(** What is left is the store of the versions up to the target. *)
Lemma from_store : is_store (keep_upto v hist) v (apply_batch from_writes db).
Proof using All.
  destruct target_bound as (Hvb & Hv1 & Hvm & Hv2 & HLm). intros k b Hk. rewrite from_lookup, (Hst k b Hk). split.
  - intros [He Hn]. destruct He as [w t Ht|w s Hs|w s Hs HwL].
    + apply entry_root. rewrite lookup_keep_upto. rewrite bool_decide_true; [done|]. destruct (Z.le_gt_cases w v); [done|]. destruct Hn. apply fd_root; [by eexists|done].
    + destruct (Z.le_gt_cases (tversion s) v) as [Hle|Hlt]; [|destruct Hn; by eapply new_node_deleted]. destruct (old_node_kept w s Hs Hle) as [w' Hw']. by apply (entry_node _ _ w').
    + destruct (Z.le_gt_cases v w) as [Hle|Hlt]; [destruct Hn; by apply fd_orphan|]. apply entry_orphan; [by apply last_in_keep|done].
  - intros He. destruct He as [w t Ht|w s Hs|w s Hs HwL].
    + rewrite lookup_keep_upto in Ht. case_bool_decide as Hw; [|done]. split; [by apply entry_root|]. intros Hd. remember (rkey w) as k eqn:E. destruct Hd as [s ? ?|w' s ? ?|w' s ? ? ?|w' Hw' Hlt];
        [by apply (f_equal head) in E|by apply (f_equal head) in E|by apply (f_equal head) in E|].
      apply rkey_inj in E; [lia|by apply (hist_is_v hist L Hok)|apply (hist_is_v hist L Hok); by eexists].
    + apply member_keep_upto in Hs as [Hs Hw]. pose proof (ho_ver _ _ Hok w s Hs) as Hver. split; [by apply (entry_node _ _ w)|]. intros Hd. remember (nkey (thash s)) as k eqn:E.
      destruct Hd as [s' Hs' Hlt|w' s' ? ?|w' s' Hs' ? Hlt|w' ? ?]; [|by apply (f_equal head) in E| |by apply (f_equal head) in E];
        apply (f_equal tail) in E; cbn [nkey tail] in E; [assert (s' = s) as -> by (by apply (ho_inj _ _ Hok L w)); lia|assert (s' = s) as -> by (by apply (ho_inj _ _ Hok w' w); [apply Hs'|..]); lia].
    + apply last_in_keep in Hs; [|done]. split; [apply entry_orphan; [done|lia]|]. intros Hd. remember (okey w (tversion s) (thash s)) as k eqn:E. destruct (member_is_v hist L Hok w s (proj1 Hs)) as [Hiw _].
      destruct Hd as [s' ? ?|w' s' Hs' Hw'|w' s' ? ? ?|w' ? ?]; [by apply (f_equal head) in E| |by apply (f_equal head) in E|by apply (f_equal head) in E].
      destruct (member_is_v hist L Hok w' s' (proj1 Hs')) as [Hiw' _]. destruct (member_ok hist L Hok _ _ (proj1 Hs)) as (_ & ? & _). destruct (member_ok hist L Hok _ _ (proj1 Hs')) as (_ & ? & _).
      apply okey_inj in E as (-> & _); [lia|done..].
Qed.

Lemma from_hist_ok : hist_ok (keep_upto v hist) v.
Proof using Hok Hv.
  pose proof (ho_bound _ _ Hok). assert (0 < v <= L) as Hvb by (destruct Hv as [t Ht]; by apply (ho_dom _ _ Hok v t)). split.
  - lia.
  - intros w t. rewrite lookup_keep_upto. case_bool_decide; [|done]. intros Ht. pose proof (ho_dom _ _ Hok _ _ Ht). lia.
  - intros _. by rewrite lookup_keep_upto, bool_decide_true by lia.
  - intros w t. rewrite lookup_keep_upto. case_bool_decide; [|done]. apply (ho_tree _ _ Hok).
  - intros w s [Hs _]%member_keep_upto. by apply (ho_ver _ _ Hok).
  - intros x w s Hx Hle [Hs Hw]%member_keep_upto Hver. rewrite lookup_keep_upto in Hx. case_bool_decide; [|by destruct Hx]. apply member_keep_upto. split; [|done]. by apply (ho_between _ _ Hok x w).
  - intros x w s u [Hs _]%member_keep_upto [Hu _]%member_keep_upto. by apply (ho_inj _ _ Hok x w).
Qed.
End From.

Lemma DeleteVersionsFrom_ndb (hist : history) (L : Z) n v : hist_ok hist L -> is_store hist L (nd_db n) -> latestVersion n = 0 \/ latestVersion n = L -> versionReaders n = ∅ -> is_Some (hist !! v) ->
  ndb_DeleteVersionsFrom (v + 1) n = (if v =? L then set_latestVersion L n else appends (set_latestVersion L n) (from_writes hist L (nd_db n) v), Ok tt).
Proof.
  intros Hok Hst Hl Hr Hv. destruct (target_bound hist L v Hok Hv) as (Hvb & Hv1 & Hvm & Hv2 & HLm). pose proof (ho_bound _ _ Hok) as HLb.
  unfold ndb_DeleteVersionsFrom. unfold bind at 1. rewrite (getLatestVersion_set hist L n Hok Hst Hl). destruct (Z.eqb_spec v L) as [->|Hne]; [by rewrite (proj2 (Z.ltb_lt L (L + 1))) by lia|].
  rewrite (proj2 (Z.ltb_ge L (v + 1))) by lia. destruct (ho_last _ _ Hok ltac:(lia)) as [w Hw]. unfold bind at 1, getRoot, bind at 1, key_of. rewrite rootKey_rkey. unfold ret at 1, gets at 1. cbn [nd_db set_latestVersion].
  rewrite (root_lookup hist L (nd_db n) Hok Hst L), Hw by (unfold is_v; lia). cbn [fmap option_fmap option_map]. unfold bind at 1, gets at 1. rewrite has_readers_none by done. unfold guard at 1. cbn [negb]. unfold bind at 1, ret at 1.
  assert (deleteNodesFrom tree_fuel (v + 1) (Some (root_hash w)) (set_latestVersion L n) = (appends (set_latestVersion L n) ((fun s => (nkey (thash s), None)) <$> latest_nodes hist L v), Ok tt)) as Ed.
  { unfold latest_nodes. rewrite Hw. destruct w as [t|]; [|by rewrite appends_nil]. pose proof (ho_tree _ _ Hok _ _ Hw) as Ht. apply deleteNodesFrom_spec; [|done|by apply fuel_enough].
    apply Forall_forall. intros u Hu. apply Hst; [by left|]. apply (entry_node _ _ L). by exists t. }
  unfold bind at 1. rewrite Ed. unfold bind at 1. rewrite !orphan_prefix. assert (i64 (v + 1 - 1) = v) as -> by (replace (v + 1 - 1) with v by lia; apply wrapS_small; unfold is_v in *; lia).
  unfold traverseRange at 1, bind at 1, gets at 1. cbn [nd_db appends set_db set_latestVersion]. rewrite (for_each_appends _ _ (orphan_deletes v)).
  - unfold traverseRange, bind, gets. cbn [nd_db appends set_db set_latestVersion]. rewrite (for_each_appends _ _ (fun e => [(e.1, None)])); [|intros [k b] m _ _; unfold batch_Delete, modify; done].
    unfold from_writes. rewrite mjoin_singletons, !appends_app. by rewrite <- ?app_assoc.
  - intros [k h] m Hin _. apply (orphans_from hist L (nd_db n) v Hok Hst Hv) in Hin as (w0 & s & Hs & Hw0 & -> & ->). destruct (member_is_v hist L Hok w0 s (proj1 Hs)) as [Hiw _]. destruct (member_ok hist L Hok _ _ (proj1 Hs)) as (_ & Hvs & _).
    rewrite (orphan_deletes_okey hist L v Hok) by apply Hs. unfold bind at 1, scanned. rewrite scan_orphan_okey by (try apply length_thash; done). unfold ret at 1.
    destruct (v + 1 <=? tversion s); [|by rewrite (proj2 (Z.leb_le v w0)) by lia]. unfold bind at 1, batch_Delete at 1, modify at 1. change (set_db _ _ m) with (appends m [(okey w0 (tversion s) (thash s), None)]). rewrite delete_node, appends_app. done.
Qed.

(** * Loading an older version *)

Definition loaded_at (w : option tree) (v : Z) (vs : gmap Z bool) (s : MutableTree) : MutableTree :=
  let i := mkITree (loaded <$> w) v in
  mkTree i i ∅ vs true (unsavedFastNodeAdditions s) (unsavedFastNodeRemovals s) (ndb s) (skipFastStorageUpgrade s).

Definition missing_version (a : vstate) : iavl_error := if bool_decide (vs_hist a = ∅) then ErrNoVersions else ErrVersionDoesNotExist.

Lemma LoadVersion_at init s a v : openable init s a -> 0 < v -> match vs_hist a !! v with
  | Some w => exists vs, LoadVersion v s = (upgrade ;; ret v) (loaded_at w v vs s) /\ (forall x b, vs !! x = Some b -> b = bool_decide (is_Some (vs_hist a !! x))) /\ (forall x, is_Some (vs_hist a !! x) -> vs !! x = Some true)
  | None => exists s', LoadVersion v s = (s', Err (missing_version a))
  end.
Proof.
  intros H Hv. pose proof (op_hist _ _ _ H) as Hok. destruct (getRoots_spec (vs_hist a) (vs_version a) (ndb s) Hok (op_store _ _ _ H)) as (roots & Er & Hr). assert (forall x, set_ndb (ndb x) x = x) as En by (by intros []).
  assert (Forall (fun e : Z * bytes => 0 < e.1) roots) as HF by (apply Forall_forall; intros [x b] (t & Ht & _)%Hr; apply (ho_dom _ _ Hok) in Ht; cbn; lia).
  remember (LoadVersion v s) as X eqn:EX. unfold LoadVersion, bind at 1, on_ndb at 1 in EX. rewrite Er, En in EX. pose proof (pick_root_spec v roots HF) as Hpick. destruct roots as [|e roots'] eqn:Eroots.
  { assert (vs_hist a = ∅) as He by (apply map_empty; intros x; destruct (vs_hist a !! x) eqn:E; [|done]; by pose proof (proj2 (Hr x _) ltac:(by eexists)) as ?%not_elem_of_nil).
    rewrite He, lookup_empty. rewrite (proj2 (Z.leb_gt v 0)) in EX by done. exists s. unfold missing_version. by rewrite bool_decide_true by done. }
  set (R := e :: roots') in *. set (vs := foldl (fun m '(v, _) => <[v := true]> m) (mt_versions s) R). unfold bind at 1, modify at 1 in EX. fold vs in EX.
  assert (exists x b, (x, b) ∈ R) as (x0 & b0 & Hin0) by (destruct e as [x0 b0]; exists x0, b0; left). pose proof (proj1 (Hr x0 b0) Hin0) as (t0 & Ht0 & _).
  assert (missing_version a = ErrVersionDoesNotExist) as Emiss by (unfold missing_version; rewrite bool_decide_false; [done|]; intros E; by rewrite E in Ht0).
  destruct (pick_root v R) as [[latest r] first]. destruct Hpick as [Hpick Hfirst]. rewrite (proj2 (Z.eqb_neq v 0)) in EX by lia. cbn [orb] in EX. subst X. destruct (vs_hist a !! v) as [w|] eqn:Ew.
  - assert (latest = v /\ r = root_hash w) as [-> ->].
    { destruct Hpick as [(_ & _ & Hno)|(Hin & Hle & Hmax)]; [destruct (Hno v (root_hash w)); [apply Hr; by exists w|lia]|]. apply Hr in Hin as (t & Ht & ->).
      specialize (Hmax v (root_hash w) ltac:(apply Hr; by exists w) ltac:(by right)). destruct Hle as [|Hle]; [lia|]. assert (latest = v) as -> by lia. split; [done|]. congruence. }
    rewrite Z.eqb_refl. exists vs. split; [|split].
    + unfold guard at 1. unfold bind at 1, ret at 1. unfold bind at 1, gets at 1. cbn [ndb set_versions]. destruct (op_init _ _ _ H) as [-> Hi].
      unfold bind at 1, guard at 1. rewrite wrapS_small by lia. assert ((0 <? first) && (first <? init) = false) as ->.
      { destruct Hfirst as [->|(b & (t & Ht & _)%Hr)]; [done|]. pose proof (op_first _ _ _ H first ltac:(by eexists)). rewrite (proj2 (Z.ltb_ge first init)) by done. apply andb_false_r. }
      cbn [negb]. unfold ret at 1. unfold loaded_at. destruct w as [t|]; cbn [root_hash]; [|by destruct s]. destruct (thash t) eqn:Eh; [by apply thash_nonempty in Eh|]. rewrite <- Eh.
      unfold bind at 1 2, on_ndb, ndb_GetNode, bind at 1, gets at 1, of_res at 1. cbn [ndb set_versions]. fold (tdb s). rewrite GetNode_stored; [by destruct s| |by apply (ho_tree _ _ Hok _ _ Ew)].
      apply Forall_forall. intros u Hu. apply (op_store _ _ _ H); [by left|]. apply (entry_node _ _ v). by exists t.
    + intros x b [[Hx ->]|[_ Hx]]%lookup_loaded_versions; [|by apply (op_versions _ _ _ H)]. apply list_elem_of_fmap in Hx as ([x' c] & -> & (t & Ht & _)%Hr). symmetry. apply bool_decide_true. by eexists.
    + intros x [t Ht]. apply lookup_loaded_versions. left. split; [|done]. apply list_elem_of_fmap. exists (x, root_hash t). split; [done|]. apply Hr. by exists t.
  - rewrite Emiss. unfold guard at 1. rewrite (proj2 (Z.eqb_neq latest v)); [by eexists|]. intros ->. destruct Hpick as [(? & _)|(Hin & _)]; [lia|]. apply Hr in Hin as (t & Ht & _). congruence.
Qed.

(** * Overwriting *)

(** A computation that does not look at the versions. *)
Definition blind {A : Type} (c : Tree A) : Prop := forall m s, c (set_versions m s) = (set_versions m (c s).1, (c s).2).

Lemma blind_bind {A B : Type} (c : Tree A) (k : A -> Tree B) : blind c -> (forall a, blind (k a)) -> blind (bind c k).
Proof. intros Hc Hk m s. unfold bind. rewrite Hc. destruct (c s) as [t [a|e|]]; cbn [fst snd]; [apply Hk|done..]. Qed.

Lemma blind_ret {A : Type} (a : A) : blind (ret a).
Proof. done. Qed.
Lemma blind_on_ndb {A : Type} (c : DB A) : blind (on_ndb c).
Proof. intros m s. unfold on_ndb. cbn [ndb set_versions]. by destruct (c (ndb s)). Qed.
Lemma blind_gets {A : Type} (f : MutableTree -> A) : (forall m s, f (set_versions m s) = f s) -> blind (gets f).
Proof. intros Hf m s. unfold gets. by rewrite Hf. Qed.
Lemma blind_reading {A : Type} (f : database -> res A) : blind (reading f).
Proof. done. Qed.

Lemma blind_enable : blind enableFastStorageAndCommit.
Proof.
  intros m s. assert (forall r ver, blind (let! entries := reading (fun db => it ← NewIterator (walk_fuel r) db None None true r; Iterator_entries (walk_fuel r) db it) in
    on_ndb (for_count entries (fun '(k, v) => SaveFastNode (mkFast k ver v)) ;; setFastStorageVersionToBatch ;; Commit))) as Hb.
  - intros r ver. apply blind_bind; [apply blind_reading|intros l; apply blind_on_ndb].
  - apply (Hb (root s) (version s)).
Qed.

(** The upgrade is one. *)
Lemma blind_upgrade : blind upgrade.
Proof.
  assert (blind enableFastStorageAndCommitIfNotEnabled) as Hb.
  { apply blind_bind; [apply blind_bind; [apply blind_on_ndb|]; intros b; by apply blind_gets|]. intros []; [|apply blind_ret].
    apply blind_bind; [by apply blind_gets|]. intros db. apply blind_bind; [apply blind_on_ndb|]. intros _ m s. rewrite blind_enable. by destruct (enableFastStorageAndCommit s) as [t [|e|]]. }
  intros m s. unfold upgrade, unless_skip. cbn [skipFastStorageUpgrade set_versions]. destruct (skipFastStorageUpgrade s); [done|]. apply (blind_bind _ _ Hb). intros. apply blind_ret.
Qed.

Definition a_overwrite (v : Z) (a : vstate) : vstate := mkV (default None (vs_hist a !! v)) (keep_upto v (vs_hist a)) v.

(** The database after the later versions are gone. *)
Definition kept_db (v : Z) (a : vstate) (db : database) : database :=
  if v =? vs_version a then db else apply_batch (from_writes (vs_hist a) (vs_version a) db v) db.

Section Overwrite.
  Context (init : Z) (s : MutableTree) (a : vstate) (v : Z).
  Hypothesis H : sim init s a.
  Hypothesis Hmono : forall w t, vs_hist a !! w = Some (Some t) -> vmono t.
  Hypothesis Hv : is_Some (vs_hist a !! v).

Lemma kept_db_other k : ~ tree_key k -> kept_db v a (tdb s) !! k = tdb s !! k.
Proof using H Hmono Hv.
  intros Hk. unfold kept_db. destruct (v =? vs_version a); [done|]. apply apply_batch_other. intros ([k' w] & -> & Hin)%list_elem_of_fmap.
  apply (elem_of_from_writes _ _ _ _ (sim_hist _ _ _ H) (sim_store _ _ _ H) Hv Hmono) in Hin as [_ Hd]. apply Hk. destruct Hd; cbn; tauto.
Qed.

Lemma kept_store : is_store (keep_upto v (vs_hist a)) v (kept_db v a (tdb s)).
Proof using H Hmono Hv.
  unfold kept_db. destruct (Z.eqb_spec v (vs_version a)) as [->|Hne]; [|apply from_store; try done; [apply (sim_hist _ _ _ H)|apply (sim_store _ _ _ H)]].
  assert (keep_upto (vs_version a) (vs_hist a) = vs_hist a) as ->; [|apply (sim_store _ _ _ H)]. apply map_eq. intros w. rewrite lookup_keep_upto. case_bool_decide as Hw; [done|].
  destruct (vs_hist a !! w) as [t|] eqn:E; [|done]. pose proof (ho_dom _ _ (sim_hist _ _ _ H) _ _ E). lia.
Qed.

(** The node database after the deletion. *)
Definition kept_ndb (n : nodeDB) : nodeDB := set_latestVersion v (set_db (kept_db v a (tdb s)) [] n).

Lemma delete_from n : nd_db n = tdb s -> nd_batch n = [] -> versionReaders n = ∅ -> latestVersion n = 0 \/ latestVersion n = vs_version a ->
  (ndb_DeleteVersionsFrom (i64 (v + 1)) ;; Commit ;; resetLatestVersion v) n = (kept_ndb n, Ok tt).
Proof using H Hv.
  intros Edb Eb Er El. destruct (target_bound _ _ v (sim_hist _ _ _ H) Hv) as (Hvb & Hv1 & _ & Hv2 & _). assert (i64 (v + 1) = v + 1) as -> by (apply wrapS_small; unfold is_v in *; lia). unfold bind.
  rewrite (DeleteVersionsFrom_ndb (vs_hist a) (vs_version a)) by (try done; first [apply (sim_hist _ _ _ H)|rewrite Edb; apply (sim_store _ _ _ H)]). rewrite Edb. unfold kept_ndb, kept_db, Commit, resetLatestVersion, modify.
  destruct (v =? vs_version a); cbn; rewrite Eb; [by rewrite Edb|]. by rewrite Edb.
Qed.

(** A tree over what is left, loaded at the target. *)
Lemma overwritten_openable n skip : nd_db n = tdb s -> versionReaders n = ∅ -> InitialVersion n = init -> (length (Split fastStorageVersionDelimiter (storageVersion n)) <= 2)%nat ->
  openable init (set_ndb (kept_ndb n) (NewMutableTree (tdb s) init skip)) (a_overwrite v a).
Proof using H Hmono Hv.
  intros Edb Er Ei Hsp. split; try done; cbn [a_overwrite vs_hist vs_version].
  - by apply (from_hist_ok (vs_hist a) (vs_version a)); [apply (sim_hist _ _ _ H)|].
  - apply kept_store.
  - by right.
  - split; [done|by destruct (sim_init _ _ _ H)].
  - intros w. rewrite lookup_keep_upto. case_bool_decide; [apply (sim_first _ _ _ H)|by intros []].
  - unfold stored_version_of. change (tdb (set_ndb (kept_ndb n) _)) with (kept_db v a (tdb s)). rewrite kept_db_other by apply metadata_other. apply (sim_meta _ _ _ H).
Qed.

(** The versions that stay known. *)
Lemma kept_versions (vs : gmap Z bool) : (forall x b, vs !! x = Some b -> b = bool_decide (is_Some (vs_hist a !! x))) -> (forall x, is_Some (vs_hist a !! x) -> vs !! x = Some true) ->
  let m := filter (fun e => e.1 <= v) vs in
  (forall x b, m !! x = Some b -> b = bool_decide (is_Some (vs_hist (a_overwrite v a) !! x))) /\ (forall x, is_Some (vs_hist (a_overwrite v a) !! x) -> m !! x = Some true).
Proof.
  intros H1 H2 m. cbn [a_overwrite vs_hist]. split; intros x.
  - intros b Hb. apply map_lookup_filter_Some in Hb as [Hb Hle]. cbn in Hle. rewrite lookup_keep_upto, (bool_decide_true (x <= v)) by done. by apply H1.
  - rewrite lookup_keep_upto. case_bool_decide; [|by intros []]. intros Hx. apply map_lookup_filter_Some. split; [by apply H2|by cbn].
Qed.

(** The whole call, on a new tree. *)
Lemma overwrite_run skip : (skip = false -> storageVersion (newNodeDB (tdb s) init) = storage_of (vs_version a)) -> exists n vs,
  let T := loaded_tree (a_overwrite v a) vs true (set_ndb (kept_ndb n) (NewMutableTree (tdb s) init skip)) in
  (forall t, upgrade T = (t, Ok tt) -> LoadVersionForOverwriting v (NewMutableTree (tdb s) init skip) = (t, Ok v)) /\
  sim init T (a_overwrite v a) /\ storageVersion n = storageVersion (newNodeDB (tdb s) init).
Proof using H Hmono Hv.
  intros Hst. set (s0 := NewMutableTree (tdb s) init skip). pose proof (reopen_openable init s a skip H) as Ho. destruct Hv as [w Hw]. pose proof (ho_dom _ _ (sim_hist _ _ _ H) _ _ Hw) as Hvb.
  pose proof (LoadVersion_at init s0 a v Ho ltac:(lia)) as Hl. rewrite Hw in Hl. destruct Hl as (vs & El & Hvs1 & Hvs2). unfold LoadVersionForOverwriting, loadVersionForOverwriting, bind at 1. rewrite El.
  assert (exists n, (upgrade ;; ret v) (loaded_at w v vs s0) = (set_ndb n (loaded_at w v vs s0), Ok v) /\ nd_db n = tdb s /\ nd_batch n = [] /\ versionReaders n = ∅ /\ InitialVersion n = init /\
    (latestVersion n = 0 \/ latestVersion n = vs_version a) /\ storageVersion n = storageVersion (newNodeDB (tdb s) init)) as (n & -> & Edb & Eb & Er & Ei & Elat & Esv).
  { unfold bind at 1. destruct skip.
    - exists (newNodeDB (tdb s) init). split; [done|]. split_and!; try done. by left.
    - exists (set_latestVersion (vs_version a) (newNodeDB (tdb s) init)). split; [|split_and!; try done; by right].
      rewrite (upgrade_current (loaded_at w v vs s0) (vs_version a)); [done|done|by apply Hst|lia|]. apply (getLatestVersion_set (vs_hist a) (vs_version a)); [apply (sim_hist _ _ _ H)|apply (sim_store _ _ _ H)|by left]. }
  exists n, (filter (fun e => e.1 <= v) vs). set (T := loaded_tree _ _ true _). destruct (kept_versions vs Hvs1 Hvs2) as [Hk1 Hk2]. cbn zeta. split_and!; [|..|done].
  - intros t Ht. unfold bind at 1, on_ndb at 1. cbn [ndb set_ndb]. rewrite delete_from by done.
    assert (set_ndb (kept_ndb n) (set_ndb n (loaded_at w v vs s0)) = set_versions vs T) as -> by (unfold T, loaded_tree, latest_tree; cbn [a_overwrite vs_hist vs_version]; by rewrite lookup_keep_upto, bool_decide_true, Hw by done).
    unfold bind. rewrite blind_upgrade, Ht. cbn [fst snd]. unfold modify, ret. f_equal. pose proof (blind_upgrade (mt_versions T) T) as Hb. rewrite Ht in Hb. cbn [fst] in Hb.
    assert (set_versions (mt_versions T) T = T) as Es by (by destruct T). rewrite Es, Ht in Hb. apply pair_equal_spec in Hb as [Hb _]. rewrite Hb. done.
  - assert (a_rollback (a_overwrite v a) = a_overwrite v a) as Era by (unfold a_rollback, latest_tree, a_overwrite; cbn [vs_hist vs_version]; by rewrite lookup_keep_upto, bool_decide_true by done).
    rewrite <- Era. unfold T. apply loaded_sim; [|done|done]. apply overwritten_openable; try done. rewrite Esv. cbn [newNodeDB storageVersion]. rewrite metadataKey_eq. apply (sim_meta _ _ _ H).
Qed.
End Overwrite.

Lemma a_overwrite_maps v a : is_Some (vs_hist a !! v) -> work_map (a_overwrite v a) = hist_map a v /\ latest_map (a_overwrite v a) = hist_map a v.
Proof.
  intros [w Hw]. unfold work_map, latest_map, latest_tree, hist_map. cbn [a_overwrite vs_work vs_hist vs_version]. rewrite lookup_keep_upto, bool_decide_true, Hw by done. done.
Qed.

(** After going back to a version the store is one whose latest version it is. *)
Lemma overwrite_inv init s a v : inv init s a -> (forall w t, vs_hist a !! w = Some (Some t) -> vmono t) -> is_Some (vs_hist a !! v) ->
  exists s', LoadVersionForOverwriting v (NewMutableTree (tdb s) init (skipFastStorageUpgrade s)) = (s', Ok v) /\ inv init s' (a_overwrite v a) /\
    skipFastStorageUpgrade s' = skipFastStorageUpgrade s /\ (skipFastStorageUpgrade s = true -> forall k, ~ tree_key k -> tdb s' !! k = tdb s !! k).
Proof.
  intros [H Hf] Hmono Hv. set (skip := skipFastStorageUpgrade s) in *. destruct (a_overwrite_maps v a Hv) as [Ew El]. assert (v <= vs_version a) as Hle by (destruct Hv as [w Hw]; by apply (ho_dom _ _ (sim_hist _ _ _ H) v w)).
  destruct (overwrite_run init s a v H Hmono Hv skip) as (n & vs & Hrun & Hsim & Esv).
  { intros Hsk. destruct (Hf Hsk) as [_ Hm _ _]. cbn [newNodeDB storageVersion]. rewrite metadataKey_eq. by rewrite Hm. }
  cbn zeta in Hrun. set (T := loaded_tree _ _ _ _) in *. assert (skipFastStorageUpgrade T = skip) as EskT by done. assert (tdb T = kept_db v a (tdb s)) as EdbT by done.
  destruct skip eqn:Hsk.
  - exists T. split; [apply Hrun; done|]. split; [split; [done|congruence]|]. split; [done|]. intros _ k Hk. rewrite EdbT. by apply (kept_db_other init).
  - destruct (Hf eq_refl) as [Hs Hm (F & HF & HI) _]. assert (storageVersion (ndb T) = storage_of (vs_version a)) as EsT by (change (storageVersion (ndb T)) with (storageVersion n); rewrite Esv; cbn [newNodeDB storageVersion]; rewrite metadataKey_eq; by rewrite Hm).
    assert (has_index (tdb T) F) as HFT by (intros k; rewrite EdbT, (kept_db_other init s) by (try done; apply fast_key_other); apply HF).
    destruct (Z.eq_dec v (vs_version a)) as [->|Hne].
    + rewrite (Hrun _ (upgrade_done init T (a_overwrite (vs_version a) a) Hsim EsT EskT)). eexists. split; [reflexivity|]. split; [|by split]. split; [by apply (sim_set_latest init T (a_overwrite (vs_version a) a))|].
      intros _. split; [done| |exists F; split; [done|]|split; [done|set_solver|by rewrite Ew, El]].
      * change (tdb (set_ndb _ T)) with (tdb T). rewrite EdbT, (kept_db_other init s) by (try done; apply metadata_other). done.
      * assert (hist_map a (vs_version a) = latest_map a) as Eh by (unfold hist_map, latest_map, latest_tree; by destruct (vs_hist a !! vs_version a)).
        destruct HI as [I1 I2]. split; rewrite El, Eh; [|intros k; apply I2]. intros k ver x Hx. destruct (I1 k ver x Hx) as (? & ? & ? & Hall). split_and!; try done; try lia; [by cbn; lia|]. intros w t. cbn [a_overwrite vs_hist].
        rewrite lookup_keep_upto. case_bool_decide; [|done]. apply Hall.
    + destruct (upgrade_rebuilds init T (a_overwrite v a) F Hsim EskT) as (n' & Eu & Hi); try done; [by rewrite Ew, El|intros k e; by apply (index_decodable F init s a)|rewrite EsT; right; exists (vs_version a); split_and!; try done; cbn; pose proof (version_bound _ _ _ H); lia|].
      rewrite (Hrun _ Eu). eexists. split; [reflexivity|]. by split.
Qed.
