(* ===== verification/IavlRun.v ===== *)
(** Runs of the tree store: from an empty database, any sequence of operations gives the
    outcomes of a store of versioned maps, in which every saved version is a map of its
    own, and leaves in the database the nodes of the available versions only. *)

From Stdlib Require Import ZArith Lia Ascii String.
From stdpp Require Import base list gmap strings sorting.
From S2P Require Import Prelude KVStore BigInt Sha256 IavlEncoding IavlNode IavlSpec IavlRepr IavlIter IavlWalk IavlDb IavlMutable IavlProof IavlMutableProps IavlStore IavlVersions IavlCommit IavlFast IavlFastIter IavlOverwrite.
Open Scope Z_scope.
Open Scope go_scope.

(** * Operations and outcomes *)

Inductive op :=
| OSet (k v : bytes)
| ORemove (k : bytes)
| ORollback
| OSave
| ODelete (v : Z)
| ODeleteRange (from to : Z)
| OReopen
| OUpgrade
| OOverwrite (v : Z)
| OIterate (lo hi : option bytes) (asc : bool)
| OGet (k : bytes)
| OGetVersioned (k : bytes) (v : Z).

Inductive outcome :=
| RUpdated (r : res bool)
| RRemoved (r : res (option bytes * bool))
| RDone (r : res unit)
| RVersion (r : res Z)
| RValue (r : res (option bytes))
| REntries (r : res (list (bytes * bytes))).

Definition out {S A} (f : res A -> outcome) (x : S * res A) : S * outcome := (x.1, f x.2).

(** One operation of the code.  [OReopen], [OUpgrade] and [OOverwrite] open a new tree over
    the database: as it was, with the fast index in use from now on, and at an older
    version, the later ones deleted; when that fails the tree in use stays. *)
Definition exec (init : Z) (o : op) (s : MutableTree) : MutableTree * outcome :=
  match o with
  | OSet k v => out RUpdated (Set_ k (Some v) s)
  | ORemove k => out RRemoved (Remove k s)
  | ORollback => out RDone (Rollback s)
  | OSave => out (fun r => RVersion ('(_, v) ← r; Ok v)) (SaveVersion s)
  | ODelete v => out RDone (DeleteVersion v s)
  | ODeleteRange from to => out RDone (DeleteVersionsRange from to s)
  | OReopen => out RVersion (LoadVersion 0 (NewMutableTree (tdb s) init (skipFastStorageUpgrade s)))
  | OUpgrade => out RVersion (LoadVersion 0 (NewMutableTree (tdb s) init false))
  | OOverwrite v =>
    let '(s', r) := LoadVersionForOverwriting v (NewMutableTree (tdb s) init (skipFastStorageUpgrade s)) in
    (match r with Ok _ => s' | _ => s end, RVersion r)
  | OIterate lo hi asc => out REntries (mt_entries lo hi asc s)
  | OGet k => out RValue (Get k s)
  | OGetVersioned k v => out RValue (GetVersioned k v s)
  end.

Fixpoint run {S} (f : op -> S -> S * outcome) (ops : list op) (s : S) : S * list outcome :=
  match ops with
  | [] => (s, [])
  | o :: ops => let '(s, r) := f o s in let '(s, rs) := run f ops s in (s, r :: rs)
  end.

(** * The specification: versioned maps *)

Record vmap := mkVM { vm_work : gmap bytes bytes; vm_saved : gmap Z (gmap bytes bytes); vm_version : Z }.

Definition vm_empty : vmap := mkVM ∅ ∅ 0.

Definition vm_latest (m : vmap) : gmap bytes bytes := default ∅ (vm_saved m !! vm_version m).
Definition vm_next (init : Z) (m : vmap) : Z := if (vm_version m =? 0) && (0 <? init) then init else vm_version m + 1.
Definition vm_set (w : gmap bytes bytes) (m : vmap) : vmap := mkVM w (vm_saved m) (vm_version m).
Definition vm_drop (from to : Z) (m : vmap) : vmap := mkVM (vm_work m) (filter (fun e => ~ from <= e.1 < to) (vm_saved m)) (vm_version m).

Definition spec (init : Z) (o : op) (m : vmap) : vmap * outcome :=
  match o with
  | OSet k v => (vm_set (<[k := v]> (vm_work m)) m, RUpdated (Ok (bool_decide (is_Some (vm_work m !! k)))))
  | ORemove k => (vm_set (delete k (vm_work m)) m, RRemoved (Ok (vm_work m !! k, bool_decide (is_Some (vm_work m !! k)))))
  | ORollback => (vm_set (vm_latest m) m, RDone (Ok tt))
  | OSave => let v := vm_next init m in (mkVM (vm_work m) (<[v := vm_work m]> (vm_saved m)) v, RVersion (Ok v))
  | ODelete v =>
    if v <=? 0 then (m, RDone (Err ErrInvalidVersion))
    else if v =? vm_version m then (m, RDone (Err ErrLatestVersion))
    else if bool_decide (is_Some (vm_saved m !! v)) then (vm_drop v (v + 1) m, RDone (Ok tt))
    else (m, RDone (Err ErrVersionDoesNotExist))
  | ODeleteRange from to =>
    if to <=? from then (m, RDone (Err ErrInvalidVersion))
    else if vm_version m <? to then (m, RDone (Err ErrLatestVersion))
    else (vm_drop from to m, RDone (Ok tt))
  | OReopen | OUpgrade => (vm_set (vm_latest m) m, RVersion (Ok (vm_version m)))
  | OOverwrite v =>
    match vm_saved m !! v with
    | Some w => (mkVM w (filter (fun e => e.1 <= v) (vm_saved m)) v, RVersion (Ok v))
    | None => (m, RVersion (Err (if bool_decide (vm_saved m = ∅) then ErrNoVersions else ErrVersionDoesNotExist)))
    end
  | OIterate lo hi asc => (m, REntries (Ok (in_order asc (range_iter lo hi (vm_work m)))))
  | OGet k => (m, RValue (Ok (vm_work m !! k)))
  | OGetVersioned k v => (m, RValue (Ok (vm_saved m !! v ≫= lookup k)))
  end.

(** * The limits *)

(** Versions are 64-bit integers and not negative; keys and values have 64-bit lengths; the empty key cannot be read at a version through the fast index. *)
Definition op_ok (o : op) : Prop :=
  match o with
  | OSet k v => short k /\ short v
  | ODelete v => is_v v
  | ODeleteRange from _ => 0 <= from
  | OOverwrite v => 0 < v
  | OGetVersioned k v => is_v v /\ k <> []
  | _ => True
  end.

(** The operation on trees. *)
Definition a_exec (init : Z) (o : op) (a : vstate) : vstate :=
  match o with
  | OSet k v => a_set k v a
  | ORemove k => a_remove k a
  | ORollback | OReopen | OUpgrade => a_rollback a
  | OSave => a_save init a
  | ODelete v => a_delete v a
  | ODeleteRange from to => a_delete_versions from to a
  | OOverwrite v => if bool_decide (is_Some (vs_hist a !! v)) then a_overwrite v a else a
  | OIterate _ _ _ | OGet _ | OGetVersioned _ _ => a
  end.

(** The nodes of the versions have different hashes. *)
Definition no_collision (hist : history) : bool :=
  bool_decide (NoDup (thash <$> remove_dups (mjoin ((fun e => osubtrees e.2) <$> map_to_list hist)))).

(** No save of the run meets a hash collision. *)
Fixpoint hash_safe (init : Z) (ops : list op) (a : vstate) : bool :=
  match ops with
  | [] => true
  | o :: ops => let a := a_exec init o a in match o with OSave => no_collision (vs_hist a) | _ => true end && hash_safe init ops a
  end.

(** * Collisions *)

Lemma no_collision_free hist : no_collision hist = true -> collision_free hist.
Proof.
  unfold no_collision. rewrite bool_decide_eq_true. intros Hnd v w s u Hs Hu E.
  assert (forall v t, member hist v t -> t ∈ remove_dups (mjoin ((fun e => osubtrees e.2) <$> map_to_list hist))) as Hin.
  { intros v0 t (r & Hr & Ht). rewrite elem_of_remove_dups. apply list_elem_of_join. exists (subtrees r). split; [done|]. apply list_elem_of_fmap. exists (v0, Some r). split; [done|by apply elem_of_map_to_list]. }
  pose proof (Hin v s Hs) as H1. pose proof (Hin w u Hu) as H2. apply list_elem_of_lookup in H1 as [i Hi], H2 as [j Hj].
  assert (i = j) as ->; [|congruence]. eapply (NoDup_lookup _ _ _ (thash s) Hnd); rewrite list_lookup_fmap; [by rewrite Hi|by rewrite Hj, E].
Qed.

(** * One step *)

Definition abs (a : vstate) : vmap := mkVM (work_map a) (otree_map <$> vs_hist a) (vs_version a).

Lemma abs_latest a : vm_latest (abs a) = latest_map a.
Proof. unfold vm_latest, latest_map, latest_tree. cbn. rewrite lookup_fmap. by destruct (vs_hist a !! vs_version a). Qed.

Lemma abs_hist a v k : (vm_saved (abs a) !! v ≫= lookup k) = hist_map a v !! k.
Proof. unfold hist_map. cbn. rewrite lookup_fmap. by destruct (vs_hist a !! v). Qed.

Lemma abs_rollback a : abs (a_rollback a) = vm_set (vm_latest (abs a)) (abs a).
Proof. rewrite abs_latest. done. Qed.

Lemma abs_drop from to a : abs (a_delete_range from to a) = vm_drop from to (abs a).
Proof.
  unfold abs, vm_drop. cbn [a_delete_range vs_work vs_hist vs_version vm_work vm_saved vm_version]. f_equal. apply map_eq. intros v. rewrite lookup_fmap, lookup_drop_range.
  destruct (bool_decide_reflect (from <= v < to)) as [Hv|Hv]; cbn [fmap option_fmap option_map]; symmetry.
  - apply map_lookup_filter_None. right. intros x _ Hn. by apply Hn.
  - destruct (vs_hist a !! v) as [t|] eqn:E; [apply map_lookup_filter_Some; by rewrite lookup_fmap, E|]. apply map_lookup_filter_None. left. by rewrite lookup_fmap, E.
Qed.

Lemma work_map_keys init s a k : sim init s a -> bool_decide (k ∈ okeys (vs_work a)) = bool_decide (is_Some (work_map a !! k)).
Proof.
  intros H. apply bool_decide_ext. unfold work_map. destruct (vs_work a) as [t|]; cbn [okeys otree_map]; [|split; [by intros ?%not_elem_of_nil|by intros []]].
  unfold to_map, keys. split.
  - intros Hk. destruct (list_to_map (leaves t) !! k) eqn:E; [by eexists|]. by apply not_elem_of_list_to_map_2 in E.
  - intros [v Hv]. apply elem_of_list_to_map_2 in Hv. apply list_elem_of_fmap. by exists (k, v).
Qed.

(** * What holds all along *)

(** No child is newer than its parent, in any tree. *)
Definition mono_state (a : vstate) : Prop := ovmono (vs_work a) /\ forall w t, vs_hist a !! w = Some (Some t) -> vmono t.

(** The fast index was never in use. *)
Definition no_index (s : MutableTree) : Prop := (forall k, tdb s !! fastKey k = None) /\ tdb s !! metadata_key = None.

Record run_inv (init : Z) (s : MutableTree) (a : vstate) : Prop := {
  ri_inv : inv init s a;
  ri_mono : mono_state a;
  ri_index : skipFastStorageUpgrade s = true -> no_index s
}.

Lemma no_index_same s s' : (forall k, ~ tree_key k -> tdb s' !! k = tdb s !! k) -> no_index s -> no_index s'.
Proof. intros Hk [H1 H2]. split; [intros k; rewrite Hk by apply fast_key_other; apply H1|]. by rewrite Hk by apply metadata_other. Qed.

(** What the operation gives, on the trees. *)
Record step_ok (init : Z) (o : op) (s s' : MutableTree) (a : vstate) (r : outcome) : Prop := {
  st_inv : inv init s' (a_exec init o a);
  st_keep : skipFastStorageUpgrade s' = true -> skipFastStorageUpgrade s = true /\ forall k, ~ tree_key k -> tdb s' !! k = tdb s !! k;
  st_spec : spec init o (abs a) = (abs (a_exec init o a), r)
}.

Section Step.
  Context (init : Z) (s : MutableTree) (a : vstate).
  Hypothesis Hi : inv init s a.

Lemma set_step k v : short k -> short v -> osize (vs_work a) + 1 < 2 ^ 63 -> exists s' r, exec init (OSet k v) s = (s', r) /\ step_ok init (OSet k v) s s' a r.
Proof using Hi.
  destruct Hi as [H Hf]. intros Hk Hv Hs. destruct (set_sim init s a k v H Hk Hv Hs) as (r & m & E & H'). do 2 eexists. unfold exec, out. rewrite E. cbn [fst snd]. split; [reflexivity|].
  destruct (noted_fields k v (vs_version a + 1) s) as (Edb & _ & _ & _ & _ & _ & _ & _ & Hsk). split; [split; [done|]|intros E'; split; [rewrite <- E'; symmetry; apply Hsk|intros k0 _; by rewrite <- Edb]|].
  - intros E'. apply (set_fsim init); try done; [apply Hf|]; rewrite <- E'; symmetry; apply Hsk.
  - cbn [spec a_exec fst snd]. rewrite (work_map_keys init s) by done. unfold abs, vm_set. cbn [vm_work vm_saved vm_version]. by rewrite (work_map_set init s).
Qed.

Lemma remove_step k : exists s' r, exec init (ORemove k) s = (s', r) /\ step_ok init (ORemove k) s s' a r.
Proof using Hi.
  destruct Hi as [H Hf]. destruct (remove_sim init s a k H) as (s' & E & H' & Hs'). do 2 eexists. unfold exec, out. rewrite E. cbn [fst snd]. split; [reflexivity|].
  assert (skipFastStorageUpgrade s' = skipFastStorageUpgrade s) as Hsk.
  { destruct (bool_decide _); [|by subst]. destruct Hs' as (r & m & ->). cbn. unfold unnoted, unless_skip. by destruct (skipFastStorageUpgrade s) eqn:E'. }
  assert (tdb s' = tdb s) as Edb by (destruct (bool_decide _); [|by subst]; destruct Hs' as (r & m & ->); apply (unnoted_fields k s)).
  split; [split; [done|]|intros E'; split; [by rewrite <- Hsk|by rewrite Edb]|].
  - intros E'. rewrite Hsk in E'. apply (remove_fsim init s); try done. by apply Hf.
  - cbn [spec a_exec fst snd]. rewrite (work_map_keys init s) by done. unfold abs, vm_set. cbn [vm_work vm_saved vm_version]. rewrite (work_map_remove init s) by done.
    assert (vs_hist (a_remove k a) = vs_hist a /\ vs_version (a_remove k a) = vs_version a) as [-> ->]; [|done].
    unfold a_remove. destruct (vs_work a) as [t|]; [|done]. by destruct (tremove _ k t) as [[[[? ?] ?] ?]|].
Qed.

Lemma rollback_step : exists s' r, exec init ORollback s = (s', r) /\ step_ok init ORollback s s' a r.
Proof using Hi.
  destruct Hi as [H Hf]. destruct (rollback_sim init s a H) as (s' & E & H'). do 2 eexists. unfold exec, out. rewrite E. cbn [fst snd]. split; [reflexivity|].
  assert (skipFastStorageUpgrade s' = skipFastStorageUpgrade s) as Hsk by (unfold Rollback, modify in E; apply pair_equal_spec in E as [<- _]; cbn; by destruct (skipFastStorageUpgrade s) eqn:E').
  assert (tdb s' = tdb s) as Edb by (unfold Rollback, modify in E; apply pair_equal_spec in E as [<- _]; cbn; by destruct (skipFastStorageUpgrade s)).
  split; [split; [done|]|intros E'; split; [by rewrite <- Hsk|by rewrite Edb]|cbn [spec a_exec fst snd]; by rewrite abs_rollback]. intros E'. rewrite Hsk in E'. apply (rollback_fsim init s); try done. by apply Hf.
Qed.

Lemma save_step : next_version init a < 2 ^ 62 -> collision_free (vs_hist (a_save init a)) -> exists s' r, exec init OSave s = (s', r) /\ step_ok init OSave s s' a r.
Proof using Hi.
  destruct Hi as [H Hf]. intros Hv Hcf. destruct (save_sim init s a H Hv Hcf) as (s' & E & H'). do 2 eexists. unfold exec, out. rewrite E. cbn [fst snd]. split; [reflexivity|].
  assert (skipFastStorageUpgrade s' = skipFastStorageUpgrade s /\ (skipFastStorageUpgrade s = true -> forall k, ~ tree_key k -> tdb s' !! k = tdb s !! k)) as [Hsk Hkeep].
  { destruct (SaveVersion_run init s a H Hv) as (m & n & E' & Ef & _). rewrite E in E'. apply pair_equal_spec in E' as [-> _]. unfold committed, save_batch. cbn [skipFastStorageUpgrade set_versions].
    destruct (skipFastStorageUpgrade s) eqn:Hsk; (split; [done|]); [|done]. intros _ k Hk. change (flush n !! k = tdb s !! k). rewrite Ef. apply apply_batch_other. by apply (tree_writes_other init s a). }
  split; [split; [done|]|intros E'; rewrite Hsk in E'; split; [done|by apply Hkeep]|].
  - intros E'. rewrite Hsk in E'. eapply (save_fsim init s); try done. by apply Hf.
  - cbn [spec a_exec fst snd]. unfold abs. cbn [a_save vm_work vm_saved vm_version vs_hist vs_version]. by rewrite fmap_insert.
Qed.

Lemma delete_step v : is_v v -> exists s' r, exec init (ODelete v) s = (s', r) /\ step_ok init (ODelete v) s s' a r.
Proof using Hi.
  destruct Hi as [H Hf]. intros Hv. destruct (delete_version_sim init s a v H Hv) as (s' & E & H' & Hsame). do 2 eexists. unfold exec, out. rewrite E. cbn [fst snd]. split; [reflexivity|].
  pose proof Hsame as (Hdb & _ & _ & _ & Hsk). split; [split; [done|]|intros E'; split; [by rewrite <- Hsk|done]|].
  - intros E'. rewrite Hsk in E'. apply (delete_fsim init s); try done. by apply Hf.
  - cbn [spec a_exec fst snd]. unfold a_delete, delete_outcome. cbn [abs vm_version vm_saved]. rewrite lookup_fmap.
    rewrite (bool_decide_ext (is_Some (otree_map <$> vs_hist a !! v)) (is_Some (vs_hist a !! v))) by apply fmap_is_Some.
    destruct (v <=? 0); [done|]. destruct (v =? vs_version a); [done|]. destruct (bool_decide _); [|done]. by rewrite abs_drop.
Qed.

Lemma delete_range_step from to : 0 <= from -> exists s' r, exec init (ODeleteRange from to) s = (s', r) /\ step_ok init (ODeleteRange from to) s s' a r.
Proof using Hi.
  destruct Hi as [H Hf]. intros Hv. destruct (delete_range_sim init s a from to H Hv) as (s' & E & H' & Hsame). do 2 eexists. unfold exec, out. rewrite E. cbn [fst snd]. split; [reflexivity|].
  pose proof Hsame as (Hdb & _ & _ & _ & Hsk). split; [split; [done|]|intros E'; split; [by rewrite <- Hsk|done]|].
  - intros E'. rewrite Hsk in E'. apply (delete_versions_fsim s); try done. by apply Hf.
  - cbn [spec a_exec fst snd]. unfold a_delete_versions, delete_range_outcome. cbn [abs vm_version].
    destruct (to <=? from); [done|]. destruct (vs_version a <? to); [done|]. by rewrite abs_drop.
Qed.

Lemma reopen_step : exists s' r, exec init OReopen s = (s', r) /\ step_ok init OReopen s s' a r.
Proof using Hi.
  destruct (reopen_inv init s a Hi) as (s' & E & Hi' & Hsk & Edb). do 2 eexists. unfold exec, out. rewrite E. cbn [fst snd]. split; [reflexivity|].
  split; [done|intros E'; split; [by rewrite <- Hsk|by rewrite Edb]|]. cbn [spec a_exec]. by rewrite <- abs_rollback.
Qed.

(** The index is built when it comes into use. *)
Lemma upgrade_step : (skipFastStorageUpgrade s = true -> no_index s) -> exists s' r, exec init OUpgrade s = (s', r) /\ step_ok init OUpgrade s s' a r.
Proof using Hi.
  intros Hno. destruct (skipFastStorageUpgrade s) eqn:Hsk.
  - destruct (Hno eq_refl) as [Hn1 Hn2]. destruct Hi as [H _]. destruct (LoadVersion_latest init _ a (reopen_openable init s a false H)) as (s' & E & Hs'). unfold exec, out. rewrite E.
    assert (sim init s' (a_rollback a) /\ tdb s' = tdb s /\ skipFastStorageUpgrade s' = false /\ unsavedFastNodeAdditions s' = ∅ /\ unsavedFastNodeRemovals s' = ∅ /\ storageVersion (ndb s') = defaultStorageVersionValue) as (H' & Edb & Esk & Ea & Er & Esv).
    { assert (storageVersion (newNodeDB (tdb s) init) = defaultStorageVersionValue) as Esv by (cbn [newNodeDB storageVersion]; rewrite metadataKey_eq; by rewrite Hn2).
      destruct Hs' as [[He ->]|(_ & vs & -> & H')]; [|by split_and!]. rewrite (no_versions init s a H He). split_and!; try done.
      apply new_sim; [|by destruct (sim_init _ _ _ H)|apply (sim_meta _ _ _ H)]. pose proof (sim_store _ _ _ H) as Hst. pose proof (no_versions init s a H He) as [= _ Eh Ev]. by rewrite Eh, Ev in Hst. }
    destruct (upgrade_rebuilds init s' (a_rollback a) ∅ H' Esk eq_refl Ea Er) as (n & Eu & Hi'); [intros k; by rewrite Edb, Hn1|done|rewrite Esv; by left|].
    assert ((upgrade ;; ret (vs_version a)) s' = (set_ndb n s', Ok (vs_version a))) as -> by (unfold bind; by rewrite Eu).
    do 2 eexists. split; [reflexivity|]. cbn [fst snd]. split; [done|cbn; by rewrite Esk|]. cbn [spec a_exec]. by rewrite <- abs_rollback.
  - destruct reopen_step as (s' & r & E & [H1 H2 H3]). exists s', r. unfold exec, out in *. rewrite Hsk in E. split; [done|]. by split.
Qed.

Lemma overwrite_step v : mono_state a -> 0 < v -> exists s' r, exec init (OOverwrite v) s = (s', r) /\ step_ok init (OOverwrite v) s s' a r.
Proof using Hi.
  intros [_ Hm] Hv. unfold exec. destruct (bool_decide_reflect (is_Some (vs_hist a !! v))) as [Hin|Hin].
  - destruct (overwrite_inv init s a v Hi Hm Hin) as (s' & -> & Hi' & Hsk & Hk). do 2 eexists. split; [reflexivity|]. split.
    + cbn [a_exec]. by rewrite bool_decide_true.
    + intros E'. rewrite Hsk in E'. by split; [|apply Hk].
    + cbn [spec a_exec]. rewrite (bool_decide_true (is_Some (vs_hist a !! v))) by done. destruct (a_overwrite_maps v a Hin) as [Ew _]. unfold abs. rewrite Ew. cbn [vm_saved]. rewrite lookup_fmap. unfold hist_map. destruct Hin as [w Hw]. rewrite Hw. cbn [fmap option_fmap option_map default from_option id].
      cbn [a_overwrite vs_hist vs_version]. do 2 f_equal. apply map_eq. intros x. rewrite lookup_fmap, lookup_keep_upto. case_bool_decide as Hx.
      * destruct (vs_hist a !! x) as [t|] eqn:Ex; [apply map_lookup_filter_Some; by rewrite lookup_fmap, Ex|]. apply map_lookup_filter_None. left. by rewrite lookup_fmap, Ex.
      * apply map_lookup_filter_None. right. by intros y _.
  - pose proof (LoadVersion_at init _ a v (reopen_openable init s a (skipFastStorageUpgrade s) (proj1 Hi)) Hv) as Hl. destruct (vs_hist a !! v) as [w|] eqn:Ew; [by destruct Hin; eexists|]. destruct Hl as (s1 & El).
    unfold LoadVersionForOverwriting, loadVersionForOverwriting, bind at 1. rewrite El. do 2 eexists. split; [reflexivity|]. split; [|done|].
    + cbn [a_exec]. rewrite Ew, bool_decide_false by (by intros []). done.
    + cbn [spec a_exec]. rewrite Ew, (bool_decide_false (is_Some None)) by (by intros []). cbn [abs vm_saved]. rewrite lookup_fmap, Ew. cbn [fmap option_fmap option_map]. unfold missing_version.
      by rewrite (bool_decide_ext (otree_map <$> vs_hist a = ∅) (vs_hist a = ∅)) by apply fmap_empty_iff.
Qed.

Lemma iterate_step (lo hi : option bytes) (asc : bool) : exists s' r, exec init (OIterate lo hi asc) s = (s', r) /\ step_ok init (OIterate lo hi asc) s s' a r.
Proof using Hi.
  destruct (mt_entries_inv init s a lo hi asc Hi) as (s' & E & Hi' & Hsk & Edb). do 2 eexists. unfold exec, out. rewrite E. cbn [fst snd]. split; [reflexivity|]. by split; [|intros E'; split; [rewrite <- Hsk|rewrite Edb]|].
Qed.

Lemma get_step k : exists s' r, exec init (OGet k) s = (s', r) /\ step_ok init (OGet k) s s' a r.
Proof using Hi. do 2 eexists. unfold exec, out. rewrite (Get_inv init s a k Hi). cbn [fst snd]. split; [reflexivity|]. by split. Qed.

Lemma get_versioned_step k v : is_v v -> k <> [] -> exists s' r, exec init (OGetVersioned k v) s = (s', r) /\ step_ok init (OGetVersioned k v) s s' a r.
Proof using Hi.
  intros Hv Hk. destruct (GetVersioned_inv init s a k v Hi Hv ltac:(done)) as (s' & E & Hi' & Hsk & Edb). do 2 eexists. unfold exec, out. rewrite E. cbn [fst snd]. split; [reflexivity|].
  split; [done|intros E'; split; [by rewrite <- Hsk|by rewrite Edb]|]. cbn [spec a_exec]. by rewrite abs_hist.
Qed.
End Step.

(** * Sizes *)

(** Bounds on the trees and the version after [n] operations. *)
Record bounded (init n : Z) (a : vstate) : Prop := {
  bd_work : osize (vs_work a) <= n;
  bd_hist : forall v t, vs_hist a !! v = Some t -> osize t <= n;
  bd_version : vs_version a <= init + n
}.

Lemma osize_leaves t : osize t = Z.of_nat (length (oleaves t)).
Proof. destruct t as [t|]; [apply tsize_leaves|done]. Qed.

Lemma remove_size init s a k : sim init s a -> osize (vs_work (a_remove k a)) <= osize (vs_work a).
Proof.
  intros H. pose proof (sim_ok _ _ _ H) as Hok. unfold a_remove. destruct (vs_work a) as [t|] eqn:Ew; [|by rewrite Ew].
  pose proof (tremove_spec (vs_version a + 1) k t (proj1 Hok)) as Hr. destruct (tremove _ k t) as [[[[t' nk] v] os]|]; [|by rewrite Ew]. destruct Hr as (_ & Hl & _).
  cbn [vs_work]. rewrite osize_leaves, Hl. cbn [osize]. rewrite tsize_leaves. unfold lremove. pose proof (length_filter (fun e => e.1 <> k) (leaves t)). lia.
Qed.

Lemma bounded_mono init n n' a : bounded init n a -> n <= n' -> bounded init n' a.
Proof. intros [H1 H2 H3] Hn. split; [lia| |lia]. intros v t Hv. specialize (H2 v t Hv). lia. Qed.

Lemma bounded_drop init n a from to : bounded init n a -> bounded init n (a_delete_range from to a).
Proof. intros [H1 H2 H3]. split; try done. intros v t. cbn [a_delete_range vs_hist]. rewrite lookup_drop_range. case_bool_decide; [done|apply H2]. Qed.

Lemma bounded_rollback init n a : 0 <= n -> bounded init n a -> bounded init n (a_rollback a).
Proof. intros Hn [H1 H2 H3]. split; try done. unfold a_rollback, latest_tree. cbn [vs_work]. destruct (vs_hist a !! vs_version a) eqn:E; cbn; [by eapply H2|done]. Qed.

Lemma bounded_step init n s a o : sim init s a -> 0 <= n -> bounded init n a -> bounded init (n + 1) (a_exec init o a).
Proof.
  intros H Hn Hb. pose proof (sim_init _ _ _ H) as [_ Hi]. pose proof Hb as [H1 H2 H3]. pose proof (sim_ok _ _ _ H) as Hok. assert (bounded init (n + 1) a) as Hb' by (apply (bounded_mono init n); [done|lia]).
  destruct o; cbn [a_exec]; try done.
  - destruct Hb' as [B1 B2 B3]. split; try done. cbn [a_set vs_work osize]. destruct (vs_work a) as [t|]; [|cbn; lia]. cbn [osize] in H1. pose proof (tset_size (vs_version a + 1) k v t Hok). lia.
  - pose proof (remove_size init s a k H). unfold a_remove in *. destruct (vs_work a) as [t|] eqn:Ew; [|done]. destruct (tremove _ k t) as [[[[? ?] ?] ?]|]; [|done]. destruct Hb' as [B1 B2 B3]. split; try done. cbn [vs_work] in *. lia.
  - by apply bounded_rollback; [lia|].
  - destruct Hb' as [B1 B2 B3]. split; [done| |].
    + intros v t. cbn [a_save vs_hist]. destruct (decide (next_version init a = v)) as [<-|Hne]; [rewrite lookup_insert_eq; by intros [= <-]|]. rewrite lookup_insert_ne by done. apply B2.
    + cbn [a_save vs_version]. unfold next_version. destruct ((vs_version a =? 0) && (0 <? init)); lia.
  - unfold a_delete. destruct (delete_outcome v a); [by apply bounded_drop|done..].
  - unfold a_delete_versions. destruct (delete_range_outcome from to a); [by apply bounded_drop|done..].
  - by apply bounded_rollback; [lia|].
  - by apply bounded_rollback; [lia|].
  - case_bool_decide as Hin; [|done]. destruct Hin as [w Hw]. pose proof (ho_dom _ _ (sim_hist _ _ _ H) _ _ Hw). destruct Hb' as [B1 B2 B3]. split; cbn [a_overwrite vs_work vs_hist vs_version]; [rewrite Hw; by apply (B2 v)| |lia].
    intros x t. rewrite lookup_keep_upto. case_bool_decide; [apply B2|done].
Qed.

(** * Versions and parents *)

Lemma mono_drop a from to : mono_state a -> mono_state (a_delete_range from to a).
Proof. intros [H1 H2]. split; [done|]. intros w t. cbn [a_delete_range vs_hist]. rewrite lookup_drop_range. case_bool_decide; [done|apply H2]. Qed.

Lemma mono_rollback a : mono_state a -> mono_state (a_rollback a).
Proof. intros [H1 H2]. split; [|done]. unfold a_rollback, latest_tree. cbn [vs_work]. destruct (vs_hist a !! vs_version a) as [[t|]|] eqn:E; [by apply (H2 (vs_version a))|done..]. Qed.

(** A change of the working tree whose new nodes have the next version. *)
Lemma mono_change init s a work' os : sim init s a -> mono_state a -> replaces (vs_version a + 1) (osubtrees (vs_work a)) (osubtrees work') os -> ovmono work'.
Proof.
  intros H [H1 _] Hr. assert (NoDup (osubtrees (vs_work a))) as Hnd by (pose proof (sim_ok _ _ _ H) as Hok; destruct (vs_work a); [apply subtrees_nodup, Hok|constructor]).
  destruct (replaces_members _ _ _ _ Hnd Hr) as (Hm & _ & _). apply (vmono_new (vs_version a + 1) (vs_work a)); try done. intros t Ht.
  destruct (sim_new _ _ _ H t Ht) as [Hs|Hs]; [pose proof (saved_old _ _ _ H t Hs); lia|unfold unsaved_in in Hs; lia].
Qed.

Lemma mono_step init s a o : sim init s a -> mono_state a -> mono_state (a_exec init o a).
Proof.
  intros H Hm. pose proof Hm as [M1 M2]. destruct o; cbn [a_exec]; try done.
  - split; [|done]. unfold a_set. cbn [vs_work]. destruct (vs_work a) as [t|] eqn:Ew; [|by apply Forall_singleton]. pose proof (tset_replaces (vs_version a + 1) k v t) as Hr.
    destruct (tset _ k v t) as [[t' u] os]. apply (mono_change init s a (Some t') os H Hm). by rewrite Ew.
  - unfold a_remove. destruct (vs_work a) as [t|] eqn:Ew; [|done]. pose proof (tremove_replaces (vs_version a + 1) k t) as Hr. destruct (tremove _ k t) as [[[[t' nk] x] os]|]; [|done].
    split; [|done]. cbn [vs_work]. apply (mono_change init s a t' os H Hm). by rewrite Ew.
  - by apply mono_rollback.
  - split; [done|]. intros w t. cbn [a_save vs_hist]. destruct (decide (next_version init a = w)) as [<-|Hne]; [rewrite lookup_insert_eq; intros [= E]; unfold ovmono in M1; by rewrite E in M1|]. rewrite lookup_insert_ne by done. apply M2.
  - unfold a_delete. destruct (delete_outcome v a); [by apply mono_drop|done..].
  - unfold a_delete_versions. destruct (delete_range_outcome from to a); [by apply mono_drop|done..].
  - by apply mono_rollback.
  - by apply mono_rollback.
  - case_bool_decide as Hin; [|done]. destruct Hin as [w Hw]. split; cbn [a_overwrite vs_work vs_hist]; [rewrite Hw; destruct w as [t|]; [by apply (M2 v)|done]|].
    intros x t. rewrite lookup_keep_upto. case_bool_decide; [apply M2|done].
Qed.

(** * Runs *)

Lemma step_refines init n o s a : run_inv init s a -> bounded init n a -> 0 <= n < 2 ^ 60 -> init < 2 ^ 61 -> op_ok o ->
  match o with OSave => no_collision (vs_hist (a_exec init o a)) | _ => true end = true -> exists s' r, exec init o s = (s', r) /\ step_ok init o s s' a r.
Proof.
  intros [Hi Hm Hno] [B1 B2 B3] Hn Hini Hok Hc. destruct o; cbn [op_ok] in Hok.
  - apply set_step; try tauto. lia.
  - by apply remove_step.
  - by apply rollback_step.
  - apply save_step; [done| |by apply no_collision_free]. unfold next_version. destruct (_ && _); lia.
  - by apply delete_step.
  - by apply delete_range_step.
  - by apply reopen_step.
  - by apply upgrade_step.
  - by apply overwrite_step.
  - by apply iterate_step.
  - by apply get_step.
  - destruct Hok. by apply get_versioned_step.
Qed.

Lemma step_run_inv init o s s' a r : run_inv init s a -> step_ok init o s s' a r -> run_inv init s' (a_exec init o a).
Proof. intros [Hi Hm Hno] [Hi' Hk _]. split; [done|by apply (mono_step init s); [apply Hi|]|]. intros Hsk. destruct (Hk Hsk) as [Hs Hdb]. by apply (no_index_same s); [|apply Hno]. Qed.

Lemma run_refines init ops : init < 2 ^ 61 -> forall s a n, run_inv init s a -> bounded init n a -> 0 <= n -> n + Z.of_nat (length ops) < 2 ^ 60 -> Forall op_ok ops -> hash_safe init ops a = true ->
  (run (exec init) ops s).2 = (run (spec init) ops (abs a)).2 /\
  exists a', run_inv init (run (exec init) ops s).1 a' /\ (run (spec init) ops (abs a)).1 = abs a' /\ a' = foldl (fun a o => a_exec init o a) a ops.
Proof.
  intros Hini. induction ops as [|o ops IH]; intros s a n Hi Hb Hn Hlen Hok Hs; [split; [done|by exists a]|]. apply Forall_cons in Hok as [Ho Hok]. cbn [hash_safe] in Hs. apply andb_true_iff in Hs as [Hc Hs].
  rewrite length_cons in Hlen. destruct (step_refines init n o s a Hi Hb ltac:(lia) Hini Ho Hc) as (s' & r & E & Hst). cbn [run]. rewrite E, (st_spec _ _ _ _ _ _ Hst).
  destruct (IH s' (a_exec init o a) (n + 1) (step_run_inv _ _ _ _ _ _ Hi Hst) ltac:(eapply bounded_step; [apply Hi|done..]) ltac:(lia) ltac:(lia) Hok Hs) as (E2 & a' & Hi2 & E3 & ->).
  destruct (run (exec init) ops s'), (run (spec init) ops _). cbn in *. split; [by f_equal|]. eauto.
Qed.

Lemma run_from_start init skip ops : 0 <= init < 2 ^ 61 -> Z.of_nat (length ops) < 2 ^ 60 -> Forall op_ok ops -> hash_safe init ops vempty = true ->
  (run (exec init) ops (start init skip).1).2 = (run (spec init) ops vm_empty).2 /\
  exists a, run_inv init (run (exec init) ops (start init skip).1).1 a /\ (run (spec init) ops vm_empty).1 = abs a /\ a = foldl (fun a o => a_exec init o a) vempty ops.
Proof.
  intros Hinit Hlen Hok Hsafe. rewrite start_eq. cbn [fst]. apply (run_refines init ops ltac:(lia) (started init skip) vempty 0); try done; try lia; [|split; [done|done|cbn; lia]].
  split; [by apply start_inv; lia|done|]. destruct skip; [|done]. intros _. by split.
Qed.

(** C3: From an empty database every sequence of [Set], [Remove], [Rollback], [SaveVersion], [DeleteVersion], [DeleteVersionsRange], reopening, the upgrade to
    the fast index, [LoadVersionForOverwriting], reads and iterations returns what a store of versioned maps returns, whether values are read from the
    trees or through the fast index: rollback and reopening restore the latest saved map, every available version reads as it was saved whatever was
    deleted or changed since, iteration shows the entries of the range in order, and each operation fails with the code's error exactly where it must.
    No two nodes the run saves may have the same hash; trees and version numbers stay within 64 bits. *)
Theorem store_refines_versioned_maps init skip ops : 0 <= init < 2 ^ 61 -> Z.of_nat (length ops) < 2 ^ 60 -> Forall op_ok ops -> hash_safe init ops vempty = true ->
  (run (exec init) ops (start init skip).1).2 = (run (spec init) ops vm_empty).2.
Proof. intros. by apply run_from_start. Qed.

(** C4: After any such run the database holds, apart from the fast index, exactly the root entries of the available versions, their nodes, each once under
    its hash, and one orphan entry for each node whose last version is not the latest: deletion and going back leave nothing behind and remove nothing
    that a remaining version needs. The tree of every available version is a balanced search tree, and the trees are those of the versioned maps. *)
Theorem store_has_the_live_nodes init skip ops : 0 <= init < 2 ^ 61 -> Z.of_nat (length ops) < 2 ^ 60 -> Forall op_ok ops -> hash_safe init ops vempty = true ->
  let a := foldl (fun a o => a_exec init o a) vempty ops in let s := (run (exec init) ops (start init skip).1).1 in
  (forall k b, tree_key k -> tdb s !! k = Some b <-> entry (vs_hist a) (vs_version a) k b) /\
  (forall v t, vs_hist a !! v = Some (Some t) -> bst t /\ avl t) /\ (run (spec init) ops vm_empty).1 = abs a.
Proof.
  intros. destruct (run_from_start init skip ops) as (_ & a' & Hi & Ha & ->); try done. pose proof (proj1 (ri_inv _ _ _ Hi)) as Hs.
  split; [apply (sim_store _ _ _ Hs)|]. split; [|done]. intros v t Hv. by destruct (ho_tree _ _ (sim_hist _ _ _ Hs) v t Hv) as (Hb & Hav & _).
Qed.

(** * Membership proofs *)

Lemma to_map_nonempty t : to_map t <> ∅.
Proof.
  unfold to_map. intros E. destruct (leaves t) as [|[k v] l] eqn:El; [by apply (leaves_nonempty t)|]. apply (f_equal (lookup k)) in E. cbn [list_to_map foldr] in E. by rewrite lookup_insert_eq in E.
Qed.

Lemma GetVersionedProof_sim init s a k v : sim init s a -> is_v v ->
  match vs_hist a !! v with
  | None => (GetVersionedProof k v s).2 = Err ErrVersionDoesNotExist
  | Some None => (GetVersionedProof k v s).2 = Err ErrNilRoot
  | Some (Some t) => exists p, (GetVersionedProof k v s).2 = Ok p /\ answers (thash t) (to_map t) k p
  end.
Proof.
  intros H Hv. destruct (VersionExists_sim init s a v H Hv) as (m & Ev & Hm). pose proof (GetImmutable_sim init _ a v Hm Hv) as Hg.
  assert (GetVersionedProof k v s = (if bool_decide (is_Some (vs_hist a !! v)) then let! t := GetImmutable v in reading (fun db => GetProof db (it_root t) k) else fail ErrVersionDoesNotExist) (set_versions m s)) as ->
    by (unfold GetVersionedProof, bind at 1; by rewrite Ev).
  destruct (vs_hist a !! v) as [w|] eqn:E; case_bool_decide as Hn; [|by destruct Hn; eexists|by destruct Hn|done]. destruct Hg as (m' & Eg & Hm'). unfold bind, reading. rewrite Eg.
  destruct w as [t|]; cbn [it_root fmap option_fmap option_map snd]; [|done]. destruct (stored_version init _ a v t Hm' E) as [Hst Hok]. by apply GetProof_stored.
Qed.

(** C23: After any run of the tree store, [GetVersionedProof] at an available version answers for every key: if the version's map has the key, with a proof of
    that entry; if not, with proofs of the entries next to it on either side, none where there is none.  Each of them, calculated by the rules of ICS-23,
    gives the root hash stored for the version.  Without the version, or for an empty map, it returns the error. *)
Theorem versioned_proofs_answer init skip ops k v : 0 <= init < 2 ^ 61 -> Z.of_nat (length ops) < 2 ^ 60 -> Forall op_ok ops -> hash_safe init ops vempty = true -> is_v v ->
  let s := (run (exec init) ops (start init skip).1).1 in
  match vm_saved (run (spec init) ops vm_empty).1 !! v with
  | None => (GetVersionedProof k v s).2 = Err ErrVersionDoesNotExist
  | Some m => if bool_decide (m = ∅) then (GetVersionedProof k v s).2 = Err ErrNilRoot
              else exists root p, tdb s !! rkey v = Some root /\ (GetVersionedProof k v s).2 = Ok p /\ answers root m k p
  end.
Proof.
  intros Hinit Hlen Hok Hsafe Hv. destruct (run_from_start init skip ops Hinit Hlen Hok Hsafe) as (_ & a & Hi & -> & _). pose proof (proj1 (ri_inv _ _ _ Hi)) as H.
  cbn zeta. pose proof (GetVersionedProof_sim init _ a k v H Hv) as Hp. cbn [abs vm_saved]. rewrite lookup_fmap. destruct (vs_hist a !! v) as [[t|]|] eqn:E; cbn [fmap option_fmap option_map otree_map]; [|by rewrite bool_decide_true|done].
  rewrite bool_decide_false by apply to_map_nonempty. destruct Hp as (p & Ep & Ha). exists (thash t), p. split; [|done]. apply (sim_store _ _ _ H); [cbn; tauto|]. by apply (entry_root _ _ v (Some t)).
Qed.

(** C24: A proof against the root hash of an available version is about an entry of that version's map: whatever nodes a path lists, as long as none of them
    claims to be a leaf, and whatever key and value it ends with, if it gives the stored root hash then the map has that value at that key, unless the
    strings hashed for the tree and for the proof contain a collision. *)
Theorem proofs_bind_entries init skip ops v t path k x ver : 0 <= init < 2 ^ 61 -> Z.of_nat (length ops) < 2 ^ 60 -> Forall op_ok ops -> hash_safe init ops vempty = true ->
  vs_hist (foldl (fun a o => a_exec init o a) vempty ops) !! v = Some (Some t) -> short k -> int64 ver -> Forall pin_ok path ->
  no_clash (hashed t ++ proof_strings (converted path k x ver)) = true ->
  tdb (run (exec init) ops (start init skip).1).1 !! rkey v = Some (calculate (converted path k x ver)) ->
  vm_saved (run (spec init) ops vm_empty).1 !! v ≫= lookup k = Some x.
Proof.
  intros Hinit Hlen Hok Hsafe Hv Hk Hver Hpath Hclash Hroot. destruct (run_from_start init skip ops Hinit Hlen Hok Hsafe) as (_ & a & Hi & -> & Ea). rewrite <- Ea in Hv. pose proof (proj1 (ri_inv _ _ _ Hi)) as H.
  destruct (stored_version init _ a v t H Hv) as [_ Ht]. rewrite calculate_converted in Hroot. assert (tdb (run (exec init) ops (start init skip).1).1 !! rkey v = Some (thash t)) as Et.
  { apply (sim_store _ _ _ H); [cbn; tauto|]. by apply (entry_root _ _ v (Some t)). }
  rewrite Et in Hroot. injection Hroot as Hroot. cbn [abs vm_saved]. rewrite lookup_fmap, Hv. cbn. apply elem_of_list_to_map_1; [apply bst_nodup, Ht|].
  by apply (path_binds k x ver path Hk Hver Hpath t Ht (no_clash_inj _ Hclash)).
Qed.
