(* ===== verification/IavlCases.v ===== *)
(** Concrete runs of the tree store: that the conditions of the theorems can hold, and
    what the code does where it departs from what is expected of it. *)

From Stdlib Require Import ZArith Lia Ascii String.
From stdpp Require Import base list gmap strings sorting.
From S2P Require Import Prelude KVStore BigInt Sha256 IavlEncoding IavlNode IavlSpec IavlRepr IavlIter IavlWalk IavlDb IavlMutable IavlProof IavlMutableProps IavlStore IavlVersions IavlCommit IavlFast IavlFastIter IavlOverwrite IavlRun.
Open Scope Z_scope.
Open Scope go_scope.

(** * A run *)

(** Three versions are saved, one is deleted, the index comes into use, the store goes
    back to the second version and a new third one is saved. *)
Definition sample_ops : list op := [
  OSet [1] [10]; OSet [2] [20]; OSet [3] [30]; OSave;
  OSet [1] [11]; ORemove [3]; OGet [3]; OSave;
  ORemove [2]; ORollback; OSet [4] [40]; OSave;
  ODelete 1; ODelete 3; OReopen; OGetVersioned [1] 2; OGetVersioned [1] 1; OGet [4];
  OUpgrade; OSet [0] [5]; OIterate (Some [0]) (Some [4]) false;
  OOverwrite 1; OOverwrite 2; OGet [4]; OSet [5] [50]; OSave; OGetVersioned [5] 3; OGetVersioned [5] 2; ODeleteRange 1 3; OIterate None None true ].

Lemma sample_ops_ok : Forall op_ok sample_ops.
Proof. unfold sample_ops. rewrite ?Forall_cons. split_and!; try done; vm_compute; try lia; split; try lia; done. Qed.

Lemma sample_safe : hash_safe 0 sample_ops vempty = true.
Proof. vm_compute. reflexivity. Qed.

Lemma store_refines_versioned_maps_witness : Forall op_ok sample_ops /\ hash_safe 0 sample_ops vempty = true /\
  (run (exec 0) sample_ops (start 0 true).1).2 = (run (spec 0) sample_ops vm_empty).2.
Proof. split; [exact sample_ops_ok|]. split; [exact sample_safe|]. apply (store_refines_versioned_maps 0 true sample_ops); [lia|reflexivity|exact sample_ops_ok|exact sample_safe]. Defined.

Lemma store_has_the_live_nodes_witness : Forall op_ok sample_ops /\ hash_safe 0 sample_ops vempty = true /\
  (run (spec 0) sample_ops vm_empty).1 = abs (foldl (fun a o => a_exec 0 o a) vempty sample_ops).
Proof. split; [exact sample_ops_ok|]. split; [exact sample_safe|]. apply (store_has_the_live_nodes 0 false sample_ops); [lia|reflexivity|exact sample_ops_ok|exact sample_safe]. Defined.

(** * Where the code departs from what is expected *)

Definition after (init : Z) (skip : bool) (ops : list op) : MutableTree := (run (exec init) ops (start init skip).1).1.

(** The value of a key in a tree, read from the nodes. *)
Definition node_value (k : bytes) (s : MutableTree) : option bytes :=
  match root s with Some n => match get tree_fuel (tdb s) n k with Ok (_, v) => v | _ => None end | None => None end.

Definition reopened (v : Z) (skip : bool) (s : MutableTree) : MutableTree := (LoadVersion v (NewMutableTree (tdb s) 0 skip)).1.

(** A tree with an uncommitted change, loaded again at its latest version. *)
Definition reloaded : MutableTree := (LoadVersion 0 (after 0 false [OSet [1] [10]; OSave; OSet [1] [11]])).1.

(** A store without an index, first loaded with one at version 1, then at the latest. *)
Definition upgraded_early : MutableTree := reopened 0 false (reopened 1 false (after 0 true [OSet [1] [10]; OSave; OSet [1] [11]; OSave])).

(** A store whose index is left alone while it goes back a version and saves another. *)
Definition overwritten_without : MutableTree :=
  let s := reopened 0 true (after 0 false [OSet [1] [10]; OSave; OSet [1] [11]; OSave]) in
  reopened 0 false (run (exec 0) [OOverwrite 1; OSet [1] [12]; OSave] s).1.

(** The fast index can disagree with the trees.  Loading a tree again does not drop its uncommitted additions, so [Get] returns a value the loaded version
    does not have, and the next [SaveVersion] writes it to the index of a version that lacks it.  The upgrade run after loading an older version
    fills the index from that version and marks it with the latest one, so later loads of the latest version read old values.  And a store that goes
    back a version with the index not in use, then saves to the same number, is taken to have a current index. *)
Theorem fast_index_goes_stale :
  (Get [1] reloaded).2 = Ok (Some [11]) /\ node_value [1] reloaded = Some [10] /\
  (Get [1] (SaveVersion reloaded).1).2 = Ok (Some [11]) /\ node_value [1] (SaveVersion reloaded).1 = Some [10] /\
  (Get [1] upgraded_early).2 = Ok (Some [10]) /\ (GetVersioned [1] 2 upgraded_early).2 = Ok (Some [10]) /\ node_value [1] upgraded_early = Some [11] /\
  (Get [1] overwritten_without).2 = Ok (Some [11]) /\ node_value [1] overwritten_without = Some [12].
Proof. vm_compute. split_and!; reflexivity. Qed.

Definition three_versions : MutableTree := after 0 true [OSet [1] [10]; OSave; OSet [1] [11]; OSave; OSet [1] [12]; OSave].

(** Two requests delete more versions than they name.  [DeleteVersions] with a version given twice also deletes the one after it, because it counts the
    versions of an interval by their number.  [LoadVersionForOverwriting] of version 0, which loads the latest version, then deletes every version
    of the store, the loaded one included. *)
Theorem deletion_overshoots :
  (let '(s, r) := DeleteVersions [1; 1] three_versions in r = Ok tt /\ AvailableVersions s = [3] /\ (GetVersioned [1] 2 s).2 = Ok None) /\
  (GetVersioned [1] 2 three_versions).2 = Ok (Some [11]) /\
  (let '(s, r) := LoadVersionForOverwriting 0 three_versions in r = Ok 3 /\ AvailableVersions s = [] /\ size (tdb s) = 0%nat).
Proof. vm_compute. split_and!; reflexivity. Qed.


(** * Concrete proofs *)

Definition sample_tree : tree := Eval vm_compute in default (Leaf [] [] 0) (default None (vs_hist (foldl (fun a o => a_exec 0 o a) vempty sample_ops) !! 3)).

Lemma versioned_proofs_answer_witness : is_v 3 /\
  match vm_saved (run (spec 0) sample_ops vm_empty).1 !! 3 with
  | None => (GetVersionedProof [3] 3 (after 0 true sample_ops)).2 = Err ErrVersionDoesNotExist
  | Some m => if bool_decide (m = ∅) then (GetVersionedProof [3] 3 (after 0 true sample_ops)).2 = Err ErrNilRoot
              else exists root p, tdb (after 0 true sample_ops) !! rkey 3 = Some root /\ (GetVersionedProof [3] 3 (after 0 true sample_ops)).2 = Ok p /\ answers root m [3] p
  end.
Proof. split; [unfold is_v; lia|]. apply (versioned_proofs_answer 0 true sample_ops [3] 3); [lia|reflexivity|exact sample_ops_ok|exact sample_safe|unfold is_v; lia]. Defined.

Lemma sample_version : vs_hist (foldl (fun a o => a_exec 0 o a) vempty sample_ops) !! 3 = Some (Some sample_tree).
Proof. vm_compute. reflexivity. Qed.

Lemma sample_path_ok : Forall pin_ok (tpath [5] sample_tree).
Proof.
  destruct (run_from_start 0 true sample_ops ltac:(lia) ltac:(reflexivity) sample_ops_ok sample_safe) as (_ & a & Hi & _ & Ea). apply tpath_ok.
  apply (stored_version 0 _ a 3 _ (proj1 (ri_inv _ _ _ Hi))). rewrite Ea. exact sample_version.
Qed.

Lemma proofs_bind_entries_witness : no_clash (hashed sample_tree ++ proof_strings (converted (tpath [5] sample_tree) [5] [50] 3)) = true /\
  vm_saved (run (spec 0) sample_ops vm_empty).1 !! 3 ≫= lookup [5] = Some [50].
Proof.
  split; [vm_compute; reflexivity|]. apply (proofs_bind_entries 0 true sample_ops 3 sample_tree (tpath [5] sample_tree) [5] [50] 3);
    [lia|reflexivity|exact sample_ops_ok|exact sample_safe|exact sample_version|reflexivity|unfold int64; lia|exact sample_path_ok|vm_compute; reflexivity|vm_compute; reflexivity].
Defined.

(** The condition on the nodes of a path is needed: a node that claims the height of a leaf passes for the leaf that holds the hash of the forged entry as its key. *)
Example leaf_in_disguise : let forged := thash (Leaf [7] [70] 1) in let t := Leaf forged [1] 1 in
  calculate (converted [mkPIN 0 1 1 None (Some (sha256 [1]))] [7] [70] 1) = thash t /\ to_map t !! [7] = None.
Proof. vm_compute. split; reflexivity. Qed.
