(* ===== verification/Erc20.v ===== *)
(** [x/erc20]: coins of the bank as ERC-20 tokens and back.

    A token pair links a denomination with an ERC-20 contract.  For a pair the module
    owns, coins are escrowed in the module account and tokens minted; for a pair of an
    external contract, tokens are escrowed and coins minted.  The file models the
    keeper ([keeper/token_pairs.go], [params.go], [mint.go], [evm.go], [msg_server.go],
    [evm_hooks.go], [proposals.go], [ibc_callbacks.go], [precompiles.go]), the types it
    stores and the transfer keeper of [x/ibc/transfer], which calls it.

    The bank, the accounts, the EVM keeper, the ABI codec and IBC are parameters. *)

From stdpp Require Import base list gmap strings sorting.
From Stdlib Require Import ZArith Lia Ascii.
From S2P Require Import Prelude KVStore Ledger.
Open Scope Z_scope.
Open Scope go_scope.

(** * Data *)

Inductive Owner := OWNER_UNSPECIFIED | OWNER_MODULE | OWNER_EXTERNAL.
#[export] Instance Owner_eq_dec : EqDecision Owner.
Proof. solve_decision. Defined.

Record TokenPair := mkPair { Erc20Address : string; Denom : string; Enabled : bool; ContractOwner : Owner }.
#[export] Instance TokenPair_eq_dec : EqDecision TokenPair.
Proof. solve_decision. Defined.

Record DenomUnit := mkUnit { du_Denom : string; du_Exponent : Z; du_Aliases : list string }.
Record Metadata := mkMetadata { md_Description : string; md_DenomUnits : list DenomUnit; md_Base : string; md_Display : string; md_Name : string; md_Symbol : string }.

Record Params := mkParams { EnableErc20 : bool; EnableEVMHook : bool }.

Record MsgConvertCoin := mkConvertCoin { mc_Coin : string * Z; mc_Receiver : string; mc_Sender : string }.
Record MsgConvertERC20 := mkConvertERC20 { me_ContractAddress : string; me_Amount : Z; me_Receiver : string; me_Sender : string }.

(** What the store holds: pairs, their ids, and the flags of the parameters. *)
Inductive val := VPair (p : TokenPair) | VId (id : bytes) | VTrue.

Inductive event :=
| EvConvertCoin (sender receiver : string) (amount : Z) (denom erc20 : string)
| EvConvertERC20 (sender receiver : string) (amount : Z) (denom erc20 : string)
| EvRegisterCoin (denom erc20 : string)
| EvRegisterERC20 (denom erc20 : string)
| EvToggle (denom erc20 : string).

Inductive error :=
| ErrERC20Disabled | ErrInternalTokenPair | ErrTokenPairNotFound | ErrTokenPairAlreadyExists | ErrUndefinedOwner
| ErrBalanceInvariance | ErrUnexpectedEvent | ErrABIPack | ErrABIUnpack | ErrEVMCall | ErrERC20TokenPairDisabled
| ErrUnauthorized | ErrSendDisabled | ErrVMExecution | ErrLogic | ErrInvalidCoins | ErrInvalidSigner | ErrInvalidAddress
| ErrInvalidType | ErrInvalidDenom | ErrMetadata | ErrUnknownRequest | ErrBank (c : Z) | ErrEvm (c : Z) | ErrAccount (c : Z) | ErrIbc (c : Z).

(** * What the module calls *)

(** Text forms of addresses: hexadecimal ([common]), and Bech32 with the prefix of the chain or any other. *)
Class AddressText := {
  IsHexAddress : string -> bool;
  HexToAddress : string -> bytes;
  Hex : bytes -> string;
  AccAddressFromBech32 : string -> option bytes;
  GetFromBech32 : string -> string -> option bytes;
  VerifyAddressFormat : bytes -> bool;
  AccString : bytes -> string;
  tmhash_Sum : bytes -> bytes
}.

(** A method call of the contract's ABI, and the codec. *)
Inductive call :=
| CallName | CallSymbol | CallDecimals
| CallBalanceOf (account : bytes)
| CallMint (to : bytes) (amount : Z)
| CallBurnCoins (from : bytes) (amount : Z)
| CallBurn (amount : Z)
| CallTransfer (to : bytes) (amount : Z).

Class Erc20Abi := {
  Pack : call -> option bytes;
  PackConstructor : string -> string -> Z -> option bytes;
  Bin : bytes;
  UnpackString : bytes -> option string;
  UnpackUint8 : bytes -> option Z;
  UnpackBool : bytes -> option bool;
  (** the first result of [balanceOf] if it is an integer *)
  UnpackBalance : bytes -> option Z;
  EventByID : bytes -> option string;
  (** an error, or the first value of the event if there is one and it is an integer *)
  UnpackTransfer : bytes -> option (option Z);
  ApprovalSigHash : string
}.

Record Response := mkResponse { res_Ret : bytes; res_VmError : string; res_Topics : list (list string) }.
Record message := mkMessage { msg_from : bytes; msg_to : option bytes; msg_nonce : Z; msg_gas : Z; msg_data : bytes; msg_fake : bool }.

Inductive account := AccModule | AccOther.

(** The other keepers: the rest of the bank, the accounts and the EVM. *)
Class Erc20Host (X : Type) := {
  MintCoins : X -> string -> string * Z -> X * option Z;
  BurnCoins : X -> string -> string * Z -> X * option Z;
  IsSendEnabledCoin : X -> string -> bool;
  HasSupply : X -> string -> bool;
  GetDenomMetaData : X -> string -> option Metadata;
  SetDenomMetaData : X -> Metadata -> X;
  Metadata_Validate : Metadata -> bool;
  GetSequence : X -> bytes -> result Z Z;
  GetAccountKind : X -> bytes -> option account;
  BondDenom : X -> string;
  EVMChannels : X -> list string;
  (** whether the account exists and has code *)
  GetAccountWithoutBalance : X -> bytes -> option bool;
  EstimateGasInternal : X -> bytes -> option bytes -> bytes -> result Z Z;
  ApplyMessage : X -> message -> bool -> X * result Z Response;
  CreateAddress : bytes -> Z -> bytes;
  IsAvailablePrecompile : X -> bytes -> bool;
  EvmDenom : X -> string;
  NewPrecompile : X -> TokenPair -> bool -> option Z;
  DeleteAccount : X -> bytes -> X * option Z;
  AddEVMExtensions : X -> list (TokenPair * bool) -> X * option Z
}.

(** Denomination traces of ICS-20, and integers of the SDK. *)
Class Ics20Lib := {
  ReceiverChainIsSource : string -> string -> string -> bool;
  GetDenomPrefix : string -> string -> string;
  TracePath : string -> string;
  IBCDenom : string -> string;
  ParseHexHash : string -> option bytes;
  NewIntFromString : string -> option Z
}.
(** The transfer keeper that is wrapped. *)
Record MsgTransfer := mkTransfer { mt_Denom : string; mt_Amount : Z; mt_Sender : string; mt_Receiver : string }.
Class Ics20Keeper (X : Type) := { ics20_Transfer : X -> MsgTransfer -> X * result Z unit }.

Definition ModuleName : string := "erc20".
Definition DefaultGasCap : Z := 25000000.

Section Erc20.
Context {X : Type} {BK : BankKeeper X} {AT : AddressText} {ABI : Erc20Abi} {EH : Erc20Host X} {EC : EthCommon} {IL : Ics20Lib} {IK : Ics20Keeper X}.

Abbreviation W := (world val event X).
Abbreviation Act := (M W error).

Definition ModuleAddress : bytes := GetModuleAddress ModuleName.

Definition of_result {A} (wrap : Z -> error) (r : result Z A) : Act A :=
  match r with Ok a => ret a | Err c => fail (wrap c) | Panic => panic end.

(** * [types/token_pair.go] *)

Definition NewTokenPair (erc20Address : bytes) (denom : string) (owner : Owner) : TokenPair := mkPair (Hex erc20Address) denom true owner.
Definition GetID (tp : TokenPair) : bytes := tmhash_Sum (str_bytes (Erc20Address tp ++ "|" ++ Denom tp)).
Definition GetERC20Contract (tp : TokenPair) : bytes := HexToAddress (Erc20Address tp).
Definition IsNativeCoin (tp : TokenPair) : bool := bool_decide (ContractOwner tp = OWNER_MODULE).
Definition IsNativeERC20 (tp : TokenPair) : bool := bool_decide (ContractOwner tp = OWNER_EXTERNAL).

(** * [keeper/token_pairs.go] *)

Definition pair_key (id : bytes) : bytes := 1 :: id.
Definition erc20_key (a : bytes) : bytes := 2 :: a.
Definition denom_key (d : string) : bytes := 3 :: str_bytes d.
Definition ParamStoreKeyEnableErc20 : bytes := str_bytes "EnableErc20".
Definition ParamStoreKeyEnableEVMHook : bytes := str_bytes "EnableEVMHook".

Definition lookup_store (k : bytes) : Act (option val) := gets (fun w => store w !! k).
Definition set_store (k : bytes) (v : val) : Act unit := update_store (fun st => <[k := v]> st).
Definition del_store (k : bytes) : Act unit := update_store (fun st => delete k st).

Definition pair_of (v : val) : option TokenPair := match v with VPair p => Some p | _ => None end.
Definition id_of (v : option val) : option bytes := match v with Some (VId id) => Some id | _ => None end.

Definition IterateTokenPairs (w : W) : list TokenPair := omap (fun e => pair_of e.2) (prefix_iter [1] (store w)).
Definition GetTokenPairs : Act (list TokenPair) := gets IterateTokenPairs.

Definition GetERC20Map (erc20 : bytes) : Act (option bytes) := let! v := lookup_store (erc20_key erc20) in ret (id_of v).
Definition GetDenomMap (denom : string) : Act (option bytes) := let! v := lookup_store (denom_key denom) in ret (id_of v).
Definition SetERC20Map (erc20 : bytes) (id : bytes) : Act unit := set_store (erc20_key erc20) (VId id).
Definition SetDenomMap (denom : string) (id : bytes) : Act unit := set_store (denom_key denom) (VId id).
Definition deleteERC20Map (erc20 : bytes) : Act unit := del_store (erc20_key erc20).
Definition deleteDenomMap (denom : string) : Act unit := del_store (denom_key denom).

Definition GetTokenPairID (token : string) : Act (option bytes) :=
  if IsHexAddress token then GetERC20Map (HexToAddress token) else GetDenomMap token.

Definition GetTokenPair (id : option bytes) : Act (option TokenPair) :=
  match id with
  | None => ret None
  | Some id => let! v := lookup_store (pair_key id) in ret (match v with Some (VPair p) => Some p | _ => None end)
  end.

Definition SetTokenPair (tp : TokenPair) : Act unit := set_store (pair_key (GetID tp)) (VPair tp).
Definition deleteTokenPair (id : bytes) : Act unit := del_store (pair_key id).
Definition DeleteTokenPair (tp : TokenPair) : Act unit :=
  deleteTokenPair (GetID tp) ;; deleteERC20Map (GetERC20Contract tp) ;; deleteDenomMap (Denom tp).

Definition has_key (k : bytes) : Act bool := gets (fun w => bool_decide (is_Some (store w !! k))).
Definition IsTokenPairRegistered (id : bytes) : Act bool := has_key (pair_key id).
Definition IsERC20Registered (erc20 : bytes) : Act bool := has_key (erc20_key erc20).
Definition IsDenomRegistered (denom : string) : Act bool := has_key (denom_key denom).

(** An empty id counts as none. *)
Definition no_id (id : option bytes) : bool := match id with None | Some [] => true | _ => false end.

Definition GetTokenDenom (tokenAddress : bytes) : Act string :=
  let! id := GetERC20Map tokenAddress in
  if no_id id then fail ErrTokenPairNotFound
  else let! p := GetTokenPair id in match p with Some p => ret (Denom p) | None => fail ErrTokenPairNotFound end.

(** * [keeper/params.go] *)

Definition IsERC20Enabled : Act bool := has_key ParamStoreKeyEnableErc20.
Definition GetEnableEVMHook : Act bool := has_key ParamStoreKeyEnableEVMHook.
Definition setERC20Enabled (enable : bool) : Act unit := if enable then set_store ParamStoreKeyEnableErc20 VTrue else del_store ParamStoreKeyEnableErc20.
Definition setEnableEVMHook (enable : bool) : Act unit := if enable then set_store ParamStoreKeyEnableEVMHook VTrue else del_store ParamStoreKeyEnableEVMHook.

Definition GetParams : Act Params := let! a := IsERC20Enabled in let! b := GetEnableEVMHook in ret (mkParams a b).
(** Two flags are always valid. *)
Definition SetParams (p : Params) : Act unit := setERC20Enabled (EnableErc20 p) ;; setEnableEVMHook (EnableEVMHook p).

Definition UpdateParams (authority : string) (req_authority : string) (p : Params) : Act unit :=
  guard (bool_decide (authority = req_authority)) ErrInvalidSigner ;; SetParams p.

(** * [keeper/mint.go] *)

Definition MintingEnabled (sender receiver : bytes) (token : string) : Act TokenPair :=
  let! on := IsERC20Enabled in
  guard on ErrERC20Disabled ;;
  let! id := GetTokenPairID token in
  guard (negb (no_id id)) ErrTokenPairNotFound ;;
  let! p := GetTokenPair id in
  match p with
  | None => fail ErrTokenPairNotFound
  | Some tp =>
    guard (Enabled tp) ErrERC20TokenPairDisabled ;;
    guard (negb (BlockedAddr receiver)) ErrUnauthorized ;;
    let! x := gets ext in
    guard (bool_decide (sender = receiver) || IsSendEnabledCoin x (Denom tp)) ErrSendDisabled ;;
    ret tp
  end.

(** * [keeper/evm.go] *)

Definition on_ext {A} (wrap : Z -> error) (f : X -> X * result Z A) : Act A := fun w =>
  let '(x, r) := f (ext w) in
  (mkWorld (store w) x (events w), match r with Ok a => Ok a | Err c => Err (wrap c) | Panic => Panic end).

Definition CallEVMWithData (from : bytes) (contract : option bytes) (data : bytes) (commit : bool) : Act Response :=
  let! x := gets ext in
  let! nonce := of_result ErrAccount (GetSequence x from) in
  let! gasCap := if commit then of_result ErrEvm (EstimateGasInternal x from contract data) else ret DefaultGasCap in
  let! res := on_ext ErrEvm (fun x => ApplyMessage x (mkMessage from contract nonce gasCap data (negb commit)) commit) in
  guard (bool_decide (res_VmError res = ""%string)) ErrVMExecution ;;
  ret res.

Definition CallEVM (from contract : bytes) (commit : bool) (c : call) : Act Response :=
  match Pack c with
  | None => fail ErrABIPack
  | Some data => CallEVMWithData from (Some contract) data commit
  end.

Definition DeployERC20Contract (md : Metadata) : Act bytes :=
  let decimals := match last (md_DenomUnits md) with Some u => u8 (du_Exponent u) | None => 0 end in
  match PackConstructor (md_Name md) (md_Symbol md) decimals with
  | None => fail ErrABIPack
  | Some ctorArgs =>
    let! x := gets ext in
    let! nonce := of_result ErrAccount (GetSequence x ModuleAddress) in
    let! _ := CallEVMWithData ModuleAddress None (Bin ++ ctorArgs) true in
    ret (CreateAddress ModuleAddress nonce)
  end.

Definition unpacked {A} (r : option A) : Act A := match r with Some a => ret a | None => fail ErrABIUnpack end.

Definition QueryERC20 (contract : bytes) : Act (string * string * Z) :=
  let! res := CallEVM ModuleAddress contract false CallName in
  let! name := unpacked (UnpackString (res_Ret res)) in
  let! res := CallEVM ModuleAddress contract false CallSymbol in
  let! symbol := unpacked (UnpackString (res_Ret res)) in
  let! res := CallEVM ModuleAddress contract false CallDecimals in
  let! decimals := unpacked (UnpackUint8 (res_Ret res)) in
  ret (name, symbol, decimals).

(** [None] is the nil balance of a call that failed. *)
Definition BalanceOf (contract account : bytes) : Act (option Z) := fun w =>
  match CallEVM ModuleAddress contract false (CallBalanceOf account) w with
  | (w, Ok res) => (w, Ok (UnpackBalance (res_Ret res)))
  | (w, Err _) => (w, Ok None)
  | (w, Panic) => (w, Panic)
  end.

(** The first topic of each log is read without asking whether there is one. *)
Fixpoint monitor (logs : list (list string)) : Act unit :=
  match logs with
  | [] => ret tt
  | [] :: _ => panic
  | (t :: _) :: logs => if bool_decide (t = ApprovalSigHash) then fail ErrUnexpectedEvent else monitor logs
  end.
Definition monitorApprovalEvent (res : Response) : Act unit := monitor (res_Topics res).

(** * [keeper/msg_server.go] *)

Definition bank_op (f : X -> X * option Z) : Act unit := run_ext ErrBank f.

(** A balance that must be there. *)
Definition balance_or_fail (contract account : bytes) : Act Z :=
  let! b := BalanceOf contract account in
  match b with Some b => ret b | None => fail ErrEVMCall end.

Definition convertCoinNativeCoin (tp : TokenPair) (msg : MsgConvertCoin) (receiver sender : bytes) : Act unit :=
  let contract := GetERC20Contract tp in
  let amount := (mc_Coin msg).2 in
  let! balanceToken := balance_or_fail contract receiver in
  bank_op (fun x => SendCoinsFromAccountToModule x sender ModuleName (mc_Coin msg)) ;;
  let! _ := CallEVM ModuleAddress contract true (CallMint receiver amount) in
  let! balanceTokenAfter := balance_or_fail contract receiver in
  guard (balanceTokenAfter =? balanceToken + amount) ErrBalanceInvariance ;;
  EmitEvent (EvConvertCoin (mc_Sender msg) (mc_Receiver msg) amount (mc_Coin msg).1 (Erc20Address tp)).

Definition convertERC20NativeCoin (tp : TokenPair) (msg : MsgConvertERC20) (receiver sender : bytes) : Act unit :=
  let contract := GetERC20Contract tp in
  let coin := (Denom tp, me_Amount msg) in
  let! balanceCoin := gets (fun w => GetBalance (ext w) receiver (Denom tp)) in
  let! balanceToken := balance_or_fail contract sender in
  let! _ := CallEVM ModuleAddress contract true (CallBurnCoins sender (me_Amount msg)) in
  bank_op (fun x => SendCoinsFromModuleToAccount x ModuleName receiver coin) ;;
  let! balanceCoinAfter := gets (fun w => GetBalance (ext w) receiver (Denom tp)) in
  guard (balanceCoinAfter =? balanceCoin + me_Amount msg) ErrBalanceInvariance ;;
  let! balanceTokenAfter := balance_or_fail contract sender in
  guard (balanceTokenAfter =? balanceToken - me_Amount msg) ErrBalanceInvariance ;;
  EmitEvent (EvConvertERC20 (me_Sender msg) (me_Receiver msg) (me_Amount msg) (Denom tp) (me_ContractAddress msg)).

(** The result of a [transfer] call. *)
Definition transferred (res : Response) : Act unit :=
  let! ok := unpacked (UnpackBool (res_Ret res)) in guard ok ErrLogic.

Definition convertERC20NativeToken (tp : TokenPair) (msg : MsgConvertERC20) (receiver sender : bytes) : Act unit :=
  let contract := GetERC20Contract tp in
  let coin := (Denom tp, me_Amount msg) in
  let! balanceCoin := gets (fun w => GetBalance (ext w) receiver (Denom tp)) in
  let! balanceToken := balance_or_fail contract ModuleAddress in
  let! transferData := match Pack (CallTransfer ModuleAddress (me_Amount msg)) with Some d => ret d | None => fail ErrABIPack end in
  let! res := CallEVMWithData sender (Some contract) transferData true in
  transferred res ;;
  let! balanceTokenAfter := balance_or_fail contract ModuleAddress in
  guard (balanceTokenAfter =? balanceToken + me_Amount msg) ErrBalanceInvariance ;;
  bank_op (fun x => MintCoins x ModuleName coin) ;;
  bank_op (fun x => SendCoinsFromModuleToAccount x ModuleName receiver coin) ;;
  let! balanceCoinAfter := gets (fun w => GetBalance (ext w) receiver (Denom tp)) in
  guard (balanceCoinAfter =? balanceCoin + me_Amount msg) ErrBalanceInvariance ;;
  monitorApprovalEvent res ;;
  EmitEvent (EvConvertERC20 (me_Sender msg) (me_Receiver msg) (me_Amount msg) (Denom tp) (me_ContractAddress msg)).

Definition convertCoinNativeERC20 (tp : TokenPair) (msg : MsgConvertCoin) (receiver sender : bytes) : Act unit :=
  let contract := GetERC20Contract tp in
  let amount := (mc_Coin msg).2 in
  let! balanceToken := balance_or_fail contract receiver in
  bank_op (fun x => SendCoinsFromAccountToModule x sender ModuleName (mc_Coin msg)) ;;
  let! res := CallEVM ModuleAddress contract true (CallTransfer receiver amount) in
  transferred res ;;
  let! balanceTokenAfter := balance_or_fail contract receiver in
  guard (balanceTokenAfter =? balanceToken + amount) ErrBalanceInvariance ;;
  bank_op (fun x => BurnCoins x ModuleName (mc_Coin msg)) ;;
  monitorApprovalEvent res ;;
  EmitEvent (EvConvertCoin (mc_Sender msg) (mc_Receiver msg) amount (mc_Coin msg).1 (Erc20Address tp)).

(** Whether the contract of the pair is still there; if not, the pair is deleted. *)
Definition contract_alive (tp : TokenPair) : Act bool :=
  let! x := gets ext in
  match GetAccountWithoutBalance x (GetERC20Contract tp) with
  | Some true => ret true
  | _ => DeleteTokenPair tp ;; ret false
  end.

Definition MustAccAddressFromBech32 (s : string) : Act bytes := match AccAddressFromBech32 s with Some a => ret a | None => panic end.

(** [false] is the nil response of a pair whose contract is gone. *)
Definition ConvertCoin (msg : MsgConvertCoin) : Act bool :=
  let receiver := HexToAddress (mc_Receiver msg) in
  let! sender := MustAccAddressFromBech32 (mc_Sender msg) in
  let! tp := MintingEnabled sender receiver (mc_Coin msg).1 in
  let! alive := contract_alive tp in
  if negb alive then ret false
  else if IsNativeCoin tp then convertCoinNativeCoin tp msg receiver sender ;; ret true
  else if IsNativeERC20 tp then convertCoinNativeERC20 tp msg receiver sender ;; ret true
  else fail ErrUndefinedOwner.

Definition ConvertERC20 (msg : MsgConvertERC20) : Act bool :=
  let! receiver := MustAccAddressFromBech32 (me_Receiver msg) in
  let sender := HexToAddress (me_Sender msg) in
  let! tp := MintingEnabled sender receiver (me_ContractAddress msg) in
  let! alive := contract_alive tp in
  if negb alive then ret false
  else if IsNativeCoin tp then convertERC20NativeCoin tp msg receiver sender ;; ret true
  else if IsNativeERC20 tp then convertERC20NativeToken tp msg receiver sender ;; ret true
  else fail ErrUndefinedOwner.

(** * [keeper/evm_hooks.go] *)

Record Log := mkLog { log_Address : bytes; log_Topics : list bytes; log_Data : bytes }.

(** An error ends the handling of one log and keeps what it wrote. *)
Definition ignore_error (c : Act unit) : Act unit := fun w =>
  match c w with (w, Err _) => (w, Ok tt) | r => r end.

(** The conversion a transfer to the module account asks for. *)
Definition hook_convert (tp : TokenPair) (contractAddr from : bytes) (tokens : Z) : Act unit :=
  let coin := (Denom tp, tokens) in
  match ContractOwner tp with
  | OWNER_MODULE => let! _ := CallEVM ModuleAddress contractAddr true (CallBurn tokens) in ret tt
  | OWNER_EXTERNAL => bank_op (fun x => MintCoins x ModuleName coin)
  | OWNER_UNSPECIFIED => fail ErrUndefinedOwner
  end ;;
  bank_op (fun x => SendCoinsFromModuleToAccount x ModuleName from coin).

Definition hook_log (log : Log) : Act unit :=
  match log_Topics log with
  | [eventID; topic_from; topic_to] =>
    if bool_decide (EventByID eventID = Some "Transfer"%string) then
      match UnpackTransfer (log_Data log) with
      | Some (Some tokens) =>
        if 0 <? tokens then
          let! id := GetERC20Map (log_Address log) in
          if no_id id then ret tt
          else
            let! p := GetTokenPair id in
            match p with
            | None => ret tt
            | Some tp =>
              if negb (bool_decide (BytesToAddress topic_to = ModuleAddress)) then ret tt
              else if negb (Enabled tp) then ret tt
              else ignore_error (hook_convert tp (log_Address log) (BytesToAddress topic_from) tokens)
            end
        else ret tt
      | _ => ret tt
      end
    else ret tt
  | _ => ret tt
  end.

Fixpoint hook_logs (logs : list Log) : Act unit :=
  match logs with [] => ret tt | log :: logs => hook_log log ;; hook_logs logs end.

Definition PostTxProcessing (logs : list Log) : Act unit :=
  let! p := GetParams in
  if negb (EnableErc20 p) || negb (EnableEVMHook p) then ret tt else hook_logs logs.

(** * [keeper/proposals.go] *)

Definition CreateDenom (address : string) : string := ModuleName ++ "/" ++ address.
Definition CreateDenomDescription (address : string) : string := "Cosmos coin token representation of " ++ address.

Definition EqualStringSlice (a b : list string) : bool := bool_decide (a = b).

Fixpoint equal_units (a b : list DenomUnit) : bool :=
  match a, b with
  | [], [] => true
  | u :: a, v :: b =>
    (du_Exponent u =? du_Exponent v) && bool_decide (du_Denom u = du_Denom v) && EqualStringSlice (du_Aliases u) (du_Aliases v) && equal_units a b
  | _, _ => false
  end.

Definition EqualMetadata (a b : Metadata) : bool :=
  bool_decide (md_Base a = md_Base b) && bool_decide (md_Description a = md_Description b) && bool_decide (md_Display a = md_Display b) &&
  bool_decide (md_Name a = md_Name b) && bool_decide (md_Symbol a = md_Symbol b) && equal_units (md_DenomUnits a) (md_DenomUnits b).

Definition verifyMetadata (md : Metadata) : Act unit :=
  let! x := gets ext in
  match GetDenomMetaData x (md_Base md) with
  | None => modify (fun w => mkWorld (store w) (SetDenomMetaData (ext w) md) (events w))
  | Some meta => guard (EqualMetadata meta md) ErrInternalTokenPair
  end.

Definition register_pair (tp : TokenPair) : Act unit :=
  SetTokenPair tp ;; SetDenomMap (Denom tp) (GetID tp) ;; SetERC20Map (HexToAddress (Erc20Address tp)) (GetID tp).

Definition RegisterCoin (md : Metadata) : Act TokenPair :=
  let! registered := IsDenomRegistered (md_Name md) in
  guard (negb registered) ErrTokenPairAlreadyExists ;;
  let! x := gets ext in
  guard (HasSupply x (md_Base md)) ErrInvalidCoins ;;
  verifyMetadata md ;;
  let! addr := DeployERC20Contract md in
  let tp := NewTokenPair addr (md_Base md) OWNER_MODULE in
  register_pair tp ;;
  ret tp.

(** [types/utils.go]: what is left of a token's name as a denomination. *)

Definition is_digit (c : ascii) : bool := let n := nat_of_ascii c in Nat.leb 48 n && Nat.leb n 57.
Definition is_letter (c : ascii) : bool := let n := nat_of_ascii c in (Nat.leb 65 n && Nat.leb n 90) || (Nat.leb 97 n && Nat.leb n 122).
Definition in_denom (c : ascii) : bool := is_letter c || is_digit c || bool_decide (c = "/"%char) || bool_decide (c = "-"%char).

(** The digits at the beginning of each line. *)
Fixpoint removeLeadingNumbers (bol : bool) (s : list ascii) : list ascii :=
  match s with
  | [] => []
  | c :: s => if bol && is_digit c then removeLeadingNumbers true s else c :: removeLeadingNumbers (bool_decide (c = "010"%char)) s
  end.

(** A first character that is no letter, and every other that has no place in a denomination. *)
Definition removeSpecialChars (s : list ascii) : list ascii :=
  match s with [] => [] | c :: s => (if is_letter c then [c] else []) ++ filter (fun c => in_denom c = true) s end.

Definition HasPrefix (p s : list ascii) : bool := bool_decide (take (length p) s = p).

Fixpoint removeInvalidPrefixes (fuel : nat) (s : list ascii) : list ascii :=
  match fuel with
  | O => s
  | S fuel =>
    if HasPrefix (String.list_ascii_of_string "ibc/") s then removeInvalidPrefixes fuel (drop 4 s)
    else if HasPrefix (String.list_ascii_of_string "erc20/") s then removeInvalidPrefixes fuel (drop 6 s)
    else s
  end.

Definition SanitizeERC20Name (name : string) : string :=
  let s := removeLeadingNumbers true (String.list_ascii_of_string name) in
  let s := take 128 (removeSpecialChars s) in
  String.string_of_list_ascii (removeInvalidPrefixes (length s) s).

Definition CreateCoinMetadata (contract : bytes) : Act Metadata :=
  let strContract := Hex contract in
  let! erc20Data := QueryERC20 contract in
  let '(name, symbol, decimals) := erc20Data in
  let base := CreateDenom strContract in
  let! x := gets ext in
  guard (bool_decide (GetDenomMetaData x base = None)) ErrInternalTokenPair ;;
  let! registered := IsDenomRegistered base in
  guard (negb registered) ErrInternalTokenPair ;;
  let nameSanitized := SanitizeERC20Name name in
  let md := mkMetadata (CreateDenomDescription strContract)
    (mkUnit base 0 [] :: if 0 <? decimals then [mkUnit nameSanitized decimals []] else [])
    base (if 0 <? decimals then nameSanitized else base) base symbol in
  guard (Metadata_Validate md) ErrMetadata ;;
  modify (fun w => mkWorld (store w) (SetDenomMetaData (ext w) md) (events w)) ;;
  ret md.

Definition RegisterERC20 (contract : bytes) : Act TokenPair :=
  let! registered := IsERC20Registered contract in
  guard (negb registered) ErrTokenPairAlreadyExists ;;
  let! md := CreateCoinMetadata contract in
  let tp := NewTokenPair contract (md_Name md) OWNER_EXTERNAL in
  register_pair tp ;;
  ret tp.

Definition ToggleConversion (token : string) : Act TokenPair :=
  let! id := GetTokenPairID token in
  guard (negb (no_id id)) ErrTokenPairNotFound ;;
  let! p := GetTokenPair id in
  match p with
  | None => fail ErrTokenPairNotFound
  | Some tp => let tp := mkPair (Erc20Address tp) (Denom tp) (negb (Enabled tp)) (ContractOwner tp) in SetTokenPair tp ;; ret tp
  end.

(** * [proposal_handler.go] *)

Inductive content := RegisterCoinProposal (mds : list Metadata) | RegisterERC20Proposal (addrs : list string) | ToggleTokenConversionProposal (token : string) | OtherContent.

Definition Erc20ProposalHandler (c : content) : Act unit :=
  let! on := IsERC20Enabled in
  guard on ErrERC20Disabled ;;
  match c with
  | RegisterCoinProposal mds => for_all (fun md => let! tp := RegisterCoin md in EmitEvent (EvRegisterCoin (Denom tp) (Erc20Address tp))) mds
  | RegisterERC20Proposal addrs => for_all (fun a => let! tp := RegisterERC20 (HexToAddress a) in EmitEvent (EvRegisterERC20 (Denom tp) (Erc20Address tp))) addrs
  | ToggleTokenConversionProposal token => let! tp := ToggleConversion token in EmitEvent (EvToggle (Denom tp) (Erc20Address tp))
  | OtherContent => fail ErrUnknownRequest
  end.

(** * [genesis.go] *)

Record GenesisState := mkGenesis { gs_Params : Params; gs_TokenPairs : list TokenPair }.

Definition InitGenesis (module_account : bool) (data : GenesisState) : Act unit :=
  SetParams (gs_Params data) ;;
  if negb module_account then panic
  else for_all (fun tp =>
    SetTokenPair tp ;; SetDenomMap (Denom tp) (GetID tp) ;; SetERC20Map (GetERC20Contract tp) (GetID tp)) (gs_TokenPairs data).

Definition ExportGenesis : Act GenesisState := let! p := GetParams in let! tps := GetTokenPairs in ret (mkGenesis p tps).

Fixpoint validate_pairs (ValidateDenom : string -> bool) (seenErc20 seenDenom : list string) (tps : list TokenPair) : bool :=
  match tps with
  | [] => true
  | b :: tps =>
    negb (bool_decide (Erc20Address b ∈ seenErc20)) && negb (bool_decide (Denom b ∈ seenDenom)) &&
    ValidateDenom (Denom b) && IsHexAddress (Erc20Address b) && validate_pairs ValidateDenom (Erc20Address b :: seenErc20) (Denom b :: seenDenom) tps
  end.
Definition GenesisState_Validate (ValidateDenom : string -> bool) (gs : GenesisState) : bool := validate_pairs ValidateDenom [] [] (gs_TokenPairs gs).

(** * [keeper/precompiles.go] *)

(** The pairs whose contract is replaced by a precompile, with whether it is the one of the EVM's own
    denomination; the error ends the iteration. *)
Fixpoint extension_pairs (tps : list TokenPair) : Act (list (TokenPair * bool)) :=
  match tps with
  | [] => ret []
  | tp :: tps =>
    let! x := gets ext in
    let address := GetERC20Contract tp in
    if negb (bool_decide (ContractOwner tp = OWNER_MODULE)) || IsAvailablePrecompile x address then extension_pairs tps
    else
      let native := bool_decide (Denom tp = EvmDenom x) in
      match NewPrecompile x tp native with
      | Some c => fail (ErrEvm c)
      | None =>
        run_ext ErrEvm (fun x => DeleteAccount x address) ;;
        let! rest := extension_pairs tps in
        ret ((tp, native) :: rest)
      end
  end.

Definition RegisterERC20Extensions : Act unit :=
  let! tps := GetTokenPairs in
  let! precompiles := extension_pairs tps in
  run_ext ErrEvm (fun x => AddEVMExtensions x precompiles).

(** * [keeper/ibc_callbacks.go] *)

Definition before (c : ascii) (s : string) : option string :=
  (fix go (l : list ascii) (acc : list ascii) := match l with
   | [] => None
   | a :: l => if bool_decide (a = c) then Some (String.string_of_list_ascii (rev acc)) else go l (a :: acc)
   end) (String.list_ascii_of_string s) [].

(** [utils/utils.go]: the part before the first [1] is the prefix. *)
Definition GetEvmosAddressFromBech32 (address : string) : Act bytes :=
  match before "1" address with
  | None => fail ErrInvalidAddress
  | Some prefix =>
    match GetFromBech32 address prefix with
    | None => fail ErrInvalidAddress
    | Some bz => guard (VerifyAddressFormat bz) ErrInvalidAddress ;; ret bz
    end
  end.

Definition IsModuleAccount (acc : option account) : bool := match acc with Some AccModule => true | _ => false end.

Record PacketData := mkPacketData { pd_Denom : string; pd_Amount : string; pd_Sender : string; pd_Receiver : string }.
(** The data is [None] when it is no ICS-20 packet. *)
Record Packet := mkPacket { pk_SourcePort : string; pk_SourceChannel : string; pk_DestinationPort : string; pk_DestinationChannel : string; pk_Data : option PacketData }.


(** [ibc/utils.go] *)
Definition GetTransferSenderRecipient (packet : Packet) : Act (bytes * bytes) :=
  match pk_Data packet with
  | None => fail ErrUnknownRequest
  | Some data =>
    let! sender := GetEvmosAddressFromBech32 (pd_Sender data) in
    let! recipient := GetEvmosAddressFromBech32 (pd_Receiver data) in
    ret (sender, recipient)
  end.

Definition GetTransferAmount (packet : Packet) : Act string :=
  match pk_Data packet with
  | None => fail ErrUnknownRequest
  | Some data =>
    guard (negb (bool_decide (pd_Amount data = ""%string))) ErrInvalidCoins ;;
    guard (bool_decide (is_Some (NewIntFromString (pd_Amount data)))) ErrInvalidCoins ;;
    ret (pd_Amount data)
  end.

(** The denomination a received coin has on this chain. *)
Definition GetReceivedDenom (srcPort srcChannel dstPort dstChannel rawDenom : string) : string :=
  if ReceiverChainIsSource srcPort srcChannel rawDenom then
    let voucherPrefix := GetDenomPrefix srcPort srcChannel in
    let unprefixed := String.substring (String.length voucherPrefix) (String.length rawDenom - String.length voucherPrefix) rawDenom in
    if bool_decide (TracePath unprefixed = ""%string) then unprefixed else IBCDenom unprefixed
  else IBCDenom (GetDenomPrefix dstPort dstChannel ++ rawDenom).

Definition GetSentCoin (rawDenom rawAmt : string) : string * option Z := (IBCDenom rawDenom, NewIntFromString rawAmt).

Definition NewMsgConvertCoin (coin : string * Z) (receiver sender : bytes) : MsgConvertCoin := mkConvertCoin coin (Hex receiver) (AccString sender).

Inductive ack := AckOriginal | AckError (e : error).

(** What the callback decides: an error becomes an error acknowledgement. *)
Definition acknowledged (c : Act unit) : Act ack := fun w =>
  match c w with (w, Ok _) => (w, Ok AckOriginal) | (w, Err e) => (w, Ok (AckError e)) | (w, Panic) => (w, Panic) end.

Definition OnRecvPacket (packet : Packet) : Act ack := acknowledged (
  match pk_Data packet with
  | None => fail ErrInvalidType
  | Some data =>
    let! on := IsERC20Enabled in
    if negb on then ret tt
    else
      let! sr := GetTransferSenderRecipient packet in
      let '(sender, recipient) := sr in
      let! x := gets ext in
      if bool_decide (sender = recipient) && negb (bool_decide (pk_DestinationChannel packet ∈ EVMChannels x)) then ret tt
      else if IsModuleAccount (GetAccountKind x sender) then ret tt
      else
        let denom := GetReceivedDenom (pk_SourcePort packet) (pk_SourceChannel packet) (pk_DestinationPort packet) (pk_DestinationChannel packet) (pd_Denom data) in
        if bool_decide (denom = BondDenom x) then ret tt
        else
          let! pairID := GetTokenPairID denom in
          if no_id pairID then ret tt
          else
            let! p := GetTokenPair pairID in
            if negb (match p with Some tp => Enabled tp | None => false end) then ret tt
            else
              let balance := (denom, GetBalance x recipient denom) in
              let! _ := ConvertCoin (NewMsgConvertCoin balance (BytesToAddress recipient) recipient) in
              ret tt
  end).

Definition ConvertCoinToERC20FromPacket (data : PacketData) : Act unit :=
  match AccAddressFromBech32 (pd_Sender data) with
  | None => fail ErrInvalidAddress
  | Some sender =>
    let! x := gets ext in
    if IsModuleAccount (GetAccountKind x sender) then ret tt
    else
      let '(denom, amount) := GetSentCoin (pd_Denom data) (pd_Amount data) in
      if bool_decide (denom = BondDenom x) then ret tt
      else
        let! p := GetParams in
        let! registered := IsDenomRegistered denom in
        if negb (EnableErc20 p) || negb registered then ret tt
        else
          match amount with
          | None => panic
          | Some amount => let! _ := ConvertCoin (NewMsgConvertCoin (denom, amount) (BytesToAddress sender) sender) in ret tt
          end
  end.

(** Whether the acknowledgement reports an error. *)
Definition OnAcknowledgementPacket (data : PacketData) (is_error : bool) : Act unit :=
  if is_error then ConvertCoinToERC20FromPacket data else ret tt.
Definition OnTimeoutPacket (data : PacketData) : Act unit := ConvertCoinToERC20FromPacket data.

(** [utils.GetIBCDenomAddress] and [GetCoinAddress] of [token_pairs.go] *)
Definition GetIBCDenomAddress (denom : string) : Act bytes :=
  let s := String.list_ascii_of_string denom in
  if negb (HasPrefix (String.list_ascii_of_string "ibc/") s) then fail ErrInvalidDenom
  else if Nat.ltb (length s) 5 || all_space (text_bytes (String.string_of_list_ascii (drop 4 s))) then fail ErrInvalidDenom
  else match ParseHexHash (String.string_of_list_ascii (drop 4 s)) with Some bz => ret (BytesToAddress bz) | None => fail ErrInvalidDenom end.

Definition GetCoinAddress (denom : string) : Act bytes :=
  let! id := GetDenomMap denom in
  if no_id id then GetIBCDenomAddress denom
  else let! p := GetTokenPair id in match p with Some tp => ret (GetERC20Contract tp) | None => fail ErrTokenPairNotFound end.

(** * [x/ibc/transfer/keeper/msg_server.go] *)

Definition with_denom (d : string) (m : MsgTransfer) : MsgTransfer := mkTransfer d (mt_Amount m) (mt_Sender m) (mt_Receiver m).

Definition TrimPrefix (p s : list ascii) : list ascii := if HasPrefix p s then drop (length p) s else s.

Definition regular_transfer (msg : MsgTransfer) : Act unit := on_ext ErrIbc (fun x => ics20_Transfer x msg).

Definition Transfer (msg : MsgTransfer) : Act unit :=
  let denom := String.string_of_list_ascii (TrimPrefix (String.list_ascii_of_string "erc20/") (String.list_ascii_of_string (mt_Denom msg))) in
  let! pairID := GetTokenPairID denom in
  if no_id pairID then regular_transfer msg
  else
    let! p := GetTokenPair pairID in
    match p with
    | None => regular_transfer msg
    | Some tp =>
      if negb (Enabled tp) then regular_transfer msg
      else
        let! sender := MustAccAddressFromBech32 (mt_Sender msg) in
        let! on := IsERC20Enabled in
        if negb on then regular_transfer msg
        else
          let msg := with_denom (Denom tp) msg in
          let! balance := gets (fun w => GetBalance (ext w) sender (Denom tp)) in
          if mt_Amount msg <=? balance then regular_transfer msg
          else
            let! _ := ConvertERC20 (mkConvertERC20 (Hex (GetERC20Contract tp)) (mt_Amount msg - balance) (AccString sender) (Hex (BytesToAddress sender))) in
            regular_transfer msg
    end.

End Erc20.
