(* ===== verification/Erc20Props.v ===== *)
(** Proofs on [x/erc20]: what the registry holds, and that every token of a contract the
    module owns is backed by a coin in the module account.

    [Erc20Laws] states what the module relies on: the bank, the contract
    [contracts/ERC20MinterBurnerDecimals.sol] the module deploys, and that nobody else
    spends the module's coins or mints on its contracts. *)

From stdpp Require Import base list gmap strings sorting.
From Stdlib Require Import ZArith Lia Ascii.
From S2P Require Import Prelude KVStore Ledger Erc20.
Open Scope Z_scope.
Open Scope go_scope.

(** * What is assumed of the rest of the chain *)

(** The contracts the module deployed, and what they hold. *)
Class ModuleTokens (X : Type) := {
  module_token : X -> bytes -> bool;
  supply : X -> bytes -> Z;
  token_balance : X -> bytes -> bytes -> Z
}.

Definition in_uint256 (n : Z) : Prop := 0 < n < 2 ^ 256.

(** A function that is [n] at [k] and zero elsewhere. *)
Definition one {K} `{EqDecision K} (k : K) (n : Z) : K -> Z := fun k' => if decide (k' = k) then n else 0.

(** What a call of the contract adds to the supply, and to the tokens of [a] when [sender] calls. *)
Definition call_mints (k : call) : Z :=
  match k with CallMint _ n => n | CallBurnCoins _ n | CallBurn n => - n | _ => 0 end.
Definition call_credits (sender : bytes) (k : call) (a : bytes) : Z :=
  match k with
  | CallMint to n => one to n a
  | CallBurnCoins from n => one from (- n) a
  | CallBurn n => one sender (- n) a
  | CallTransfer to n => one to n a + one sender (- n) a
  | _ => 0
  end.
Definition call_in_range (k : call) : Prop :=
  match k with CallMint _ n | CallBurnCoins _ n | CallBurn n | CallTransfer _ n => in_uint256 n | _ => True end.

Section Moves.
Context {X : Type} {BK : BankKeeper X} {MT : ModuleTokens X}.

(** The module account gained at least [db], the contracts issued at most [ds]. *)
Definition moved (x x' : X) (db : string -> Z) (ds : bytes -> Z) : Prop :=
  (forall d, GetBalance x ModuleAddress d + db d <= GetBalance x' ModuleAddress d) /\
  forall c, module_token x c = true -> module_token x' c = true /\ supply x' c <= supply x c + ds c.

(** Nothing happened to the disadvantage of the module. *)
Definition kept_safe (x x' : X) : Prop := moved x x' (fun _ => 0) (fun _ => 0).

Definition same_tokens (x x' : X) : Prop :=
  forall c, (module_token x c = true -> module_token x' c = true) /\ supply x' c = supply x c /\
    forall a, token_balance x' c a = token_balance x c a.

Definition credited (x x' : X) (d : string) (n : Z) : Prop :=
  forall a d', GetBalance x' a d' = GetBalance x a d' + if decide (a = ModuleAddress /\ d' = d) then n else 0.

(** A call of [k] by the module on its contract [c]. *)
Definition called (x x' : X) (c : bytes) (k : call) : Prop :=
  (forall a d, GetBalance x' a d = GetBalance x a d) /\
  forall c', (module_token x c' = true -> module_token x' c' = true) /\
    supply x' c' = supply x c' + (if decide (c' = c) then call_mints k else 0) /\
    forall a, token_balance x' c' a = token_balance x c' a + (if decide (c' = c) then call_credits ModuleAddress k a else 0).
End Moves.

(** The address of a pair is the text of an address. *)
Definition hex_pair `{AddressText} (tp : TokenPair) : Prop := IsHexAddress (Erc20Address tp) = true.

Class Erc20Laws (X : Type) `{BK : BankKeeper X, BL : !BankLaws X, AT : AddressText, ABI : Erc20Abi, EH : !Erc20Host X,
    EC : EthCommon, IL : Ics20Lib, IK : !Ics20Keeper X, MT : !ModuleTokens X} := {
  (** texts of addresses *)
  Hex_roundtrip : forall a, length a = 20%nat -> HexToAddress (Hex a) = a;
  Hex_is_hex : forall a, IsHexAddress (Hex a) = true;
  AccString_roundtrip : forall a, VerifyAddressFormat a = true -> AccAddressFromBech32 (AccString a) = Some a;
  Bech32_format : forall s a, AccAddressFromBech32 s = Some a -> VerifyAddressFormat a = true;
  CreateAddress_length : forall a n, length (CreateAddress a n) = 20%nat;
  (** the ids of pairs *)
  ids_separate : forall tp tp', hex_pair tp -> hex_pair tp' -> GetID tp = GetID tp' -> Erc20Address tp = Erc20Address tp' /\ Denom tp = Denom tp';
  (** numbers that come from 256-bit values *)
  balance_nonneg : forall x a d, 0 <= GetBalance x a d;
  UnpackTransfer_range : forall b n, UnpackTransfer b = Some (Some n) -> n < 2 ^ 256;
  (** the bank *)
  module_is_blocked : BlockedAddr ModuleAddress = true;
  account_to_module_range : forall x a m d n x', SendCoinsFromAccountToModule x a m (d, n) = (x', None) -> in_uint256 n;
  account_to_module_tokens : forall x a m c, same_tokens x (SendCoinsFromAccountToModule x a m c).1;
  module_to_account_tokens : forall x a m c, same_tokens x (SendCoinsFromModuleToAccount x m a c).1;
  MintCoins_ok : forall x d n x', 0 < n -> MintCoins x ModuleName (d, n) = (x', None) -> credited x x' d n /\ same_tokens x x';
  MintCoins_err : forall x c x' e, MintCoins x ModuleName c = (x', Some e) -> x' = x;
  BurnCoins_ok : forall x d n x', 0 < n -> BurnCoins x ModuleName (d, n) = (x', None) -> credited x x' d (- n) /\ same_tokens x x';
  SetDenomMetaData_safe : forall x md, kept_safe x (SetDenomMetaData x md);
  (** the EVM and the contract *)
  supply_nonneg : forall x c, 0 <= supply x c;
  dry_run : forall x m, (ApplyMessage x m false).1 = x;
  module_call : forall x c k data nonce gas x' r, module_token x c = true -> call_in_range k -> Pack k = Some data ->
    ApplyMessage x (mkMessage ModuleAddress (Some c) nonce gas data false) true = (x', Ok r) -> res_VmError r = ""%string ->
    called x x' c k;
  module_deploy : forall x name symbol decimals args gas nonce x' r,
    PackConstructor name symbol decimals = Some args -> GetSequence x ModuleAddress = Ok nonce ->
    ApplyMessage x (mkMessage ModuleAddress None nonce gas (Bin ++ args) false) true = (x', Ok r) -> res_VmError r = ""%string ->
    let c := CreateAddress ModuleAddress nonce in
    module_token x c = false /\ module_token x' c = true /\ supply x' c = 0 /\ kept_safe x x';
  (** any other message: another sender, another contract, or one that failed *)
  other_message : forall x m x' r, ApplyMessage x m true = (x', r) ->
    msg_from m <> ModuleAddress \/ (exists c, msg_to m = Some c /\ module_token x c = false) \/
    (forall res, r = Ok res -> res_VmError res <> ""%string) -> kept_safe x x';
  ics20_safe : forall x msg x' r, ics20_Transfer x msg = (x', r) ->
    AccAddressFromBech32 (mt_Sender msg) <> Some ModuleAddress -> kept_safe x x'
}.

Section Props.
Context `{EL : Erc20Laws X}.

Abbreviation W := (world val event X).
Abbreviation Act := (M W error).

(** * What the registry holds *)

(** An entry of the store: a pair under its id, an index entry whose pair is there, or a flag. *)
Inductive entry_ok (st : gmap bytes val) : bytes -> val -> Prop :=
| pair_entry tp : hex_pair tp -> entry_ok st (pair_key (GetID tp)) (VPair tp)
| denom_entry tp : hex_pair tp -> st !! pair_key (GetID tp) = Some (VPair tp) -> entry_ok st (denom_key (Denom tp)) (VId (GetID tp))
| erc20_entry tp : hex_pair tp -> st !! pair_key (GetID tp) = Some (VPair tp) -> entry_ok st (erc20_key (GetERC20Contract tp)) (VId (GetID tp))
| flag_entry k : k ∈ [ParamStoreKeyEnableErc20; ParamStoreKeyEnableEVMHook] -> entry_ok st k VTrue.

Definition registry_ok (w : W) : Prop := map_Forall (entry_ok (store w)) (store w).

(** The contracts the module owns for a denomination, and the tokens they have issued. *)
Definition owned (w : W) (d : string) : gset bytes :=
  list_to_set (GetERC20Contract <$> filter (fun tp => ContractOwner tp = OWNER_MODULE /\ Denom tp = d) (IterateTokenPairs w)).
Definition issued (w : W) (d : string) : Z := sumZ (supply (ext w)) (elements (owned w d)).

(** Every token of a contract the module owns is backed by a coin in the module account. *)
Definition backed (w : W) : Prop :=
  (forall d c, c ∈ owned w d -> module_token (ext w) c = true) /\
  (forall d d' c, c ∈ owned w d -> c ∈ owned w d' -> d = d') /\
  forall d, issued w d <= GetBalance (ext w) ModuleAddress d.

(** * Steps that move coins and tokens *)

Lemma moved_trans (x1 x2 x3 : X) b1 s1 b2 s2 :
  moved x1 x2 b1 s1 -> moved x2 x3 b2 s2 -> moved x1 x3 (fun d => b1 d + b2 d) (fun c => s1 c + s2 c).
Proof.
  intros [B1 S1] [B2 S2]. split.
  - intros d. specialize (B1 d). specialize (B2 d). lia.
  - intros c Hc. destruct (S1 c Hc) as [H1 L1]. destruct (S2 c H1) as [H2 L2]. split; [done|lia].
Qed.

Lemma moved_le (x1 x2 : X) (b b' : string -> Z) (s s' : bytes -> Z) :
  (forall d, b' d <= b d) -> (forall c, s c <= s' c) -> moved x1 x2 b s -> moved x1 x2 b' s'.
Proof.
  intros Hb Hs [B S]. split; [intros d; specialize (B d); specialize (Hb d); lia|].
  intros c Hc. destruct (S c Hc). split; [done|]. specialize (Hs c). lia.
Qed.

Lemma kept_safe_refl (x : X) : kept_safe x x.
Proof. split; [intros; lia|]. intros; split; [done|lia]. Qed.

Lemma kept_safe_trans (x1 x2 x3 : X) : kept_safe x1 x2 -> kept_safe x2 x3 -> kept_safe x1 x3.
Proof. apply moved_trans. Qed.

Lemma escrow_moved (x x' : X) a d n :
  SendCoinsFromAccountToModule x a ModuleName (d, n) = (x', None) -> a <> ModuleAddress -> in_uint256 n /\ moved x x' (one d n) (fun _ => 0).
Proof.
  intros H Ha. pose proof (account_to_module_range _ _ _ _ _ _ H) as Hn.
  split; [done|]. pose proof (account_to_module_tokens x a ModuleName (d, n)) as Ht. rewrite H in Ht.
  apply account_to_module_ok in H as [_ H]; [|apply Hn]. split.
  - intros d'. rewrite H. unfold one. fold ModuleAddress. repeat case_decide; naive_solver lia.
  - intros c Hc. destruct (Ht c) as (H1 & H2 & _). split; [by apply H1|cbn in *; lia].
Qed.

Lemma release_moved (x x' : X) a d n : 0 < n ->
  SendCoinsFromModuleToAccount x ModuleName a (d, n) = (x', None) -> moved x x' (one d (- n)) (fun _ => 0).
Proof.
  intros Hn H. pose proof (module_to_account_tokens x a ModuleName (d, n)) as Ht. rewrite H in Ht.
  apply module_to_account_ok in H as [_ H]; [|done]. split.
  - intros d'. rewrite H. unfold one. fold ModuleAddress. repeat case_decide; naive_solver lia.
  - intros c Hc. destruct (Ht c) as (H1 & H2 & _). split; [by apply H1|cbn in *; lia].
Qed.

Lemma credited_moved (x x' : X) d n : credited x x' d n -> same_tokens x x' -> moved x x' (one d n) (fun _ => 0).
Proof.
  intros H Ht. split.
  - intros d'. rewrite H. unfold one. repeat case_decide; naive_solver lia.
  - intros c Hc. destruct (Ht c) as (H1 & H2 & _). split; [by apply H1|lia].
Qed.

Lemma called_moved (x x' : X) c k : called x x' c k -> moved x x' (fun _ => 0) (one c (call_mints k)).
Proof.
  intros [Hb Hs]. split; [intros d; rewrite Hb; lia|].
  intros c' Hc'. destruct (Hs c') as (H1 & H2 & _). split; [by apply H1|]. rewrite H2. unfold one. case_decide; lia.
Qed.

(** * Calls of the EVM *)

Lemma of_result_returns {A} wrap (r : result Z A) (w w' : W) a : of_result wrap r w = (w', Ok a) <-> w' = w /\ r = Ok a.
Proof. destruct r; cbn; split; try (by intros [=]); [by intros [= -> ->]|by intros [-> [= ->]]|by intros [_ [=]]..]. Qed.

Lemma call_returns from to data (w w' : W) r : CallEVMWithData from to data true w = (w', Ok r) ->
  exists nonce gas, GetSequence (ext w) from = Ok nonce /\
    ApplyMessage (ext w) (mkMessage from to nonce gas data false) true = (ext w', Ok r) /\ res_VmError r = ""%string /\
    store w' = store w /\ events w' = events w.
Proof.
  intros H. unfold CallEVMWithData in H. run H. apply of_result_returns in Hc as [-> Hs].
  apply of_result_returns in Hc0 as [-> _]. unfold on_ext in Hc1. exists a, a0.
  destruct (ApplyMessage _ _ _) as [x' r'] eqn:E. injection Hc1 as <- Hr. destruct r'; try discriminate.
  injection Hr as ->. apply bool_decide_eq_true in Hg. by rewrite Hs.
Qed.

Lemma query_changes_nothing from to data (w : W) : (CallEVMWithData from to data false w).1 = w.
Proof.
  unfold CallEVMWithData, bind, gets, of_result, on_ext, ret, fail, panic.
  destruct (GetSequence _ _); [|done..]. pose proof (dry_run (ext w) (mkMessage from to a DefaultGasCap data (negb false))) as D.
  destruct (ApplyMessage _ _ _) as [x' r]. cbn in D. subst x'. destruct w, r; try done.
  unfold guard. by case_bool_decide.
Qed.

Lemma view_changes_nothing from c k (w : W) : (CallEVM from c false k w).1 = w.
Proof. unfold CallEVM. destruct (Pack k); [apply query_changes_nothing|done]. Qed.

Lemma BalanceOf_changes_nothing c a (w : W) : (BalanceOf c a w).1 = w.
Proof.
  unfold BalanceOf. pose proof (view_changes_nothing ModuleAddress c (CallBalanceOf a) w) as H.
  destruct (CallEVM _ _ _ _ _) as [w' []]; exact H.
Qed.

Lemma balance_or_fail_same c a (w w' : W) r : balance_or_fail c a w = (w', r) -> w' = w.
Proof.
  unfold balance_or_fail, bind. pose proof (BalanceOf_changes_nothing c a w) as H.
  destruct (BalanceOf c a w) as [w1 [[b|]| |]]; cbn in *; by intros [= <- <-].
Qed.

(** * The store *)

Lemma lookup_pair (w : W) id v : registry_ok w -> store w !! pair_key id = Some v -> exists tp, v = VPair tp /\ GetID tp = id /\ hex_pair tp.
Proof. intros R H. specialize (R _ _ H). inversion R; subst; [by eauto|set_solver]. Qed.

Lemma lookup_denom (w : W) d v : registry_ok w -> store w !! denom_key d = Some v ->
  exists tp, v = VId (GetID tp) /\ Denom tp = d /\ store w !! pair_key (GetID tp) = Some (VPair tp).
Proof.
  intros R H. specialize (R _ _ H). inversion R as [|tp Hx Hp| |]; subst; [|set_solver].
  match goal with E : str_bytes _ = str_bytes _ |- _ => apply str_bytes_inj in E end. eauto.
Qed.

Lemma lookup_erc20 (w : W) a v : registry_ok w -> store w !! erc20_key a = Some v ->
  exists tp, v = VId (GetID tp) /\ GetERC20Contract tp = a /\ store w !! pair_key (GetID tp) = Some (VPair tp).
Proof. intros R H. specialize (R _ _ H). inversion R; subst; [by eauto|set_solver]. Qed.

Lemma entry_ok_mono (st st' : gmap bytes val) k v :
  (forall id tp, st !! pair_key id = Some (VPair tp) -> st' !! pair_key id = Some (VPair tp)) -> entry_ok st k v -> entry_ok st' k v.
Proof. intros H [tp|tp|tp|]; constructor; auto. Qed.

(** Storing a pair keeps the entries of the index: one with the same id has the same denomination and contract. *)
Lemma entry_ok_pair (st : gmap bytes val) tp k v : hex_pair tp -> entry_ok st k v -> entry_ok (<[pair_key (GetID tp) := VPair tp]> st) k v.
Proof.
  intros Hx [tp' Hx'|tp' Hx' H|tp' Hx' H|]; [by constructor| | |by constructor].
  - destruct (decide (GetID tp' = GetID tp)) as [E|E].
    + destruct (ids_separate _ _ Hx' Hx E) as [_ ->]. rewrite E. apply denom_entry; [done|]. by rewrite lookup_insert_eq.
    + apply denom_entry; [done|]. rewrite lookup_insert_ne; [done|]. by intros [= ?].
  - destruct (decide (GetID tp' = GetID tp)) as [E|E].
    + destruct (ids_separate _ _ Hx' Hx E) as [Ha _]. unfold GetERC20Contract at 1. rewrite E, Ha. apply erc20_entry; [done|]. by rewrite lookup_insert_eq.
    + apply erc20_entry; [done|]. rewrite lookup_insert_ne; [done|]. by intros [= ?].
Qed.

Lemma SetTokenPair_ok tp (w : W) : hex_pair tp -> registry_ok w -> registry_ok (SetTokenPair tp w).1.
Proof.
  intros Hx R. unfold registry_ok, SetTokenPair, set_store, update_store, modify; cbn [store fst].
  apply map_Forall_insert_2; [by constructor|]. eapply map_Forall_impl; [exact R|]. intros; by apply entry_ok_pair.
Qed.

(** Storing an entry that is no pair. *)
Lemma set_index_ok k v (w : W) : (forall id, k <> pair_key id) -> entry_ok (store w) k v -> registry_ok w -> registry_ok (set_store k v w).1.
Proof.
  intros Hk He R. unfold registry_ok, set_store, update_store, modify; cbn [store fst].
  assert (Hm : forall id tp, store w !! pair_key id = Some (VPair tp) -> <[k := v]> (store w) !! pair_key id = Some (VPair tp)).
  { intros id tp H. by rewrite lookup_insert_ne. }
  apply map_Forall_insert_2; [by eapply entry_ok_mono|]. eapply map_Forall_impl; [exact R|]. intros; by eapply entry_ok_mono.
Qed.

Lemma del_index_ok k (w : W) : (forall id, k <> pair_key id) -> registry_ok w -> registry_ok (del_store k w).1.
Proof.
  intros Hk R. unfold registry_ok, del_store, update_store, modify; cbn [store fst].
  apply map_Forall_delete. eapply map_Forall_impl; [exact R|]. intros k' v' H. eapply entry_ok_mono; [|exact H].
  intros id tp Hp. by rewrite lookup_delete_ne.
Qed.

Lemma DeleteTokenPair_ok tp (w : W) : hex_pair tp -> registry_ok w -> registry_ok (DeleteTokenPair tp w).1.
Proof.
  intros Hx R k v H. unfold DeleteTokenPair, bind, deleteTokenPair, deleteERC20Map, deleteDenomMap, del_store, update_store, modify in *.
  cbn [store fst] in *. rewrite !lookup_delete_Some in H. destruct H as (Hd & He & Hi & H).
  specialize (R _ _ H). destruct R as [tp' Hx'|tp' Hx' Hp|tp' Hx' Hp|]; [by constructor| | |by constructor].
  - apply denom_entry; [done|]. rewrite !lookup_delete_ne; [done|..]; try by intros [= ?]. intros [= E]. apply Hd. by destruct (ids_separate _ _ Hx Hx' E) as [_ ->].
  - apply erc20_entry; [done|]. rewrite !lookup_delete_ne; [done|..]; try by intros [= ?]. intros [= E]. apply He.
    unfold GetERC20Contract. by destruct (ids_separate _ _ Hx Hx' E) as [-> _].
Qed.

(** ** Computations that leave the registry alone, and that keep it well formed *)

Definition keeps_store {A} (c : Act A) : Prop := forall w, store (c w).1 = store w.
Definition keeps_registry {A} (c : Act A) : Prop := forall w, registry_ok w -> registry_ok (c w).1.

Lemma keeps_store_bind {A B} (c : Act A) (k : A -> Act B) : keeps_store c -> (forall a, keeps_store (k a)) -> keeps_store (bind c k).
Proof. intros Hc Hk w. unfold bind. specialize (Hc w). destruct (c w) as [w' [a| |]]; cbn in *; [rewrite Hk|..]; done. Qed.

Lemma keeps_registry_bind {A B} (c : Act A) (k : A -> Act B) :
  keeps_registry c -> (forall a, keeps_registry (k a)) -> keeps_registry (bind c k).
Proof. intros Hc Hk w R. unfold bind. specialize (Hc w R). destruct (c w) as [w' [a| |]]; cbn in *; [by apply Hk|done..]. Qed.

(** The rest may use what is known of the result. *)
Lemma keeps_registry_bind_with {A B} (Q : A -> Prop) (c : Act A) (k : A -> Act B) :
  keeps_registry c -> (forall w w' a, registry_ok w -> c w = (w', Ok a) -> Q a) -> (forall a, Q a -> keeps_registry (k a)) -> keeps_registry (bind c k).
Proof.
  intros Hc HQ Hk w R. unfold bind. pose proof (Hc w R) as H. destruct (c w) as [w' [a| |]] eqn:E; cbn in *; [|done..].
  apply Hk; [exact (HQ w w' a R E)|done].
Qed.

Lemma keeps_store_registry {A} (c : Act A) : keeps_store c -> keeps_registry c.
Proof. intros H w R. unfold registry_ok. by rewrite H. Qed.

Lemma keeps_store_ret {A} (a : A) : keeps_store (ret a : Act A).
Proof. done. Qed.
Lemma keeps_store_fail {A} e : keeps_store (fail e : Act A).
Proof. done. Qed.
Lemma keeps_store_panic {A} : keeps_store (panic : Act A).
Proof. done. Qed.
Lemma keeps_store_gets {A} (f : W -> A) : keeps_store (gets f : Act A).
Proof. done. Qed.
Lemma keeps_store_guard b e : keeps_store (guard b e : Act unit).
Proof. by destruct b. Qed.
Lemma keeps_store_emit e : keeps_store (EmitEvent e : Act unit).
Proof. done. Qed.
Lemma keeps_store_run_ext wrap op : keeps_store (run_ext wrap op : Act unit).
Proof. intros w. unfold run_ext. by destruct (op (ext w)) as [x' []]. Qed.
Lemma keeps_store_on_ext {A} wrap op : keeps_store (on_ext wrap op : Act A).
Proof. intros w. unfold on_ext. by destruct (op (ext w)) as [x' []]. Qed.
Lemma keeps_store_ext f : keeps_store (modify (fun w => mkWorld (store w) (f w) (events w)) : Act unit).
Proof. done. Qed.
Lemma keeps_store_of_result {A} wrap (r : result Z A) : keeps_store (of_result wrap r : Act A).
Proof. by destruct r. Qed.
Lemma keeps_store_BalanceOf c a : keeps_store (BalanceOf c a : Act _).
Proof. intros w. by rewrite BalanceOf_changes_nothing. Qed.
Lemma keeps_store_ignore (c : Act unit) : keeps_store c -> keeps_store (ignore_error c).
Proof. intros H w. specialize (H w). unfold ignore_error. destruct (c w) as [w' []]; done. Qed.
Lemma keeps_store_monitor l : keeps_store (monitor l : Act unit).
Proof. induction l as [|[|t ?] l IH]; [done..|]. cbn. by case_bool_decide. Qed.

Lemma keeps_registry_acknowledged (c : Act unit) : keeps_registry c -> keeps_registry (acknowledged c).
Proof. intros H w R. specialize (H w R). unfold acknowledged. destruct (c w) as [w' []]; done. Qed.

End Props.

(** Walks through the body of an operation. *)
Ltac walk_store :=
  repeat first
  [ lazymatch goal with |- keeps_store (bind _ _) => apply keeps_store_bind; [|intros ?] end | apply keeps_store_ret | apply keeps_store_fail | apply keeps_store_panic
  | apply keeps_store_gets | apply keeps_store_guard | apply keeps_store_emit | apply keeps_store_run_ext
  | apply keeps_store_on_ext | apply keeps_store_ext | apply keeps_store_of_result | apply keeps_store_BalanceOf
  | apply keeps_store_ignore | apply keeps_store_monitor
  | progress cbv beta zeta iota
  | match goal with |- keeps_store (match ?x with _ => _ end) => destruct x end ].
Ltac walk_registry :=
  repeat first
  [ solve [apply keeps_store_registry; walk_store]
  | solve [auto with erc20]
  | lazymatch goal with |- keeps_registry (bind _ _) => apply keeps_registry_bind; [|intros ?] end
  | progress cbv beta zeta iota
  | match goal with |- keeps_registry (match ?x with _ => _ end) => destruct x end ].

Create HintDb erc20.

Section Registry.
Context `{EL : Erc20Laws X}.

Abbreviation W := (world val event X).
Abbreviation Act := (M W error).

Lemma CallEVMWithData_store from to data commit : keeps_store (CallEVMWithData from to data commit : Act _).
Proof. unfold CallEVMWithData. walk_store. Qed.

Lemma CallEVM_store from c commit k : keeps_store (CallEVM from c commit k : Act _).
Proof. unfold CallEVM. destruct (Pack k); [apply CallEVMWithData_store|walk_store]. Qed.

Lemma balance_or_fail_store c a : keeps_store (balance_or_fail c a : Act _).
Proof. unfold balance_or_fail. walk_store. Qed.

#[local] Ltac walk := walk_store; auto using CallEVMWithData_store, CallEVM_store, balance_or_fail_store; walk_store.

Lemma convertCoinNativeCoin_store tp msg receiver sender : keeps_store (convertCoinNativeCoin tp msg receiver sender : Act _).
Proof. unfold convertCoinNativeCoin, transferred, unpacked, bank_op, monitorApprovalEvent. walk. Qed.

Lemma convertERC20NativeCoin_store tp msg receiver sender : keeps_store (convertERC20NativeCoin tp msg receiver sender : Act _).
Proof. unfold convertERC20NativeCoin, transferred, unpacked, bank_op, monitorApprovalEvent. walk. Qed.

Lemma convertERC20NativeToken_store tp msg receiver sender : keeps_store (convertERC20NativeToken tp msg receiver sender : Act _).
Proof. unfold convertERC20NativeToken, transferred, unpacked, bank_op, monitorApprovalEvent. walk. Qed.

Lemma convertCoinNativeERC20_store tp msg receiver sender : keeps_store (convertCoinNativeERC20 tp msg receiver sender : Act _).
Proof. unfold convertCoinNativeERC20, transferred, unpacked, bank_op, monitorApprovalEvent. walk. Qed.

Lemma MintingEnabled_store s r token : keeps_store (MintingEnabled s r token : Act _).
Proof. unfold MintingEnabled, IsERC20Enabled, has_key, GetTokenPairID, GetTokenPair, GetERC20Map, GetDenomMap, lookup_store. walk. Qed.

Lemma hook_convert_store tp c from n : keeps_store (hook_convert tp c from n : Act _).
Proof. unfold hook_convert, bank_op. walk. Qed.

Lemma hook_log_store log : keeps_store (hook_log log : Act _).
Proof. unfold hook_log, GetERC20Map, GetTokenPair, lookup_store. walk. apply hook_convert_store. Qed.

Lemma PostTxProcessing_store logs : keeps_store (PostTxProcessing logs : Act _).
Proof.
  unfold PostTxProcessing, GetParams, IsERC20Enabled, GetEnableEVMHook, has_key. walk.
  induction logs as [|log logs IH]; cbn [hook_logs]; [walk|]. apply keeps_store_bind; [apply hook_log_store|done].
Qed.

Lemma DeleteTokenPair_registry tp : hex_pair tp -> keeps_registry (DeleteTokenPair tp : Act _).
Proof. intros Hx w. by apply DeleteTokenPair_ok. Qed.

Lemma SetTokenPair_registry tp : hex_pair tp -> keeps_registry (SetTokenPair tp : Act _).
Proof. intros Hx w. by apply SetTokenPair_ok. Qed.

(** A pair that is read from the store. *)
Lemma GetTokenPair_hex id (w w' : W) p : registry_ok w -> GetTokenPair id w = (w', Ok p) -> forall tp, p = Some tp -> hex_pair tp.
Proof.
  intros R H tp ->. unfold GetTokenPair in H. destruct id as [id|]; [|discriminate]. unfold lookup_store in H. run H.
  destruct (store w !! pair_key id) as [v|] eqn:E; [|discriminate]. destruct (lookup_pair _ _ _ R E) as (tp' & -> & _ & Hx). congruence.
Qed.

Lemma MintingEnabled_hex s r token (w w' : W) tp : registry_ok w -> MintingEnabled s r token w = (w', Ok tp) -> hex_pair tp.
Proof.
  intros R H. unfold MintingEnabled, IsERC20Enabled, has_key in H. run H.
  assert (s0 = w) as -> by (unfold GetTokenPairID, GetERC20Map, GetDenomMap, lookup_store in Hc; destruct (IsHexAddress token); by run Hc).
  destruct a0 as [tp'|]; [|discriminate]. run H. by eapply GetTokenPair_hex.
Qed.

Lemma flag_registry k (b : bool) : k ∈ [ParamStoreKeyEnableErc20; ParamStoreKeyEnableEVMHook] ->
  keeps_registry ((if b then set_store k VTrue else del_store k) : Act _).
Proof.
  intros Hk w R. assert (forall id, k <> pair_key id) by (intros id ->; set_solver).
  destruct b; [apply set_index_ok; auto using flag_entry|by apply del_index_ok].
Qed.

Lemma SetParams_registry p : keeps_registry (SetParams p : Act _).
Proof. unfold SetParams. apply keeps_registry_bind; [|intros _]; apply flag_registry; set_solver. Qed.

(** The three entries of a pair, in the order they are written. *)
Lemma register_registry tp : hex_pair tp -> keeps_registry (register_pair tp : Act _).
Proof.
  intros Hx w R. unfold register_pair. apply (SetTokenPair_ok tp) in R; [|done].
  assert (Hp : store (SetTokenPair tp w).1 !! pair_key (GetID tp) = Some (VPair tp)) by (apply lookup_insert_eq).
  unfold bind at 1. destruct (SetTokenPair tp w) as [w1 r] eqn:E. injection E as Hw1 Hr. subst r. clear Hw1. cbn in R, Hp.
  unfold bind at 1. assert (R2 : registry_ok (SetDenomMap (Denom tp) (GetID tp) w1).1).
  { apply set_index_ok; [by intros ? [=]|by apply denom_entry|done]. }
  assert (Hp2 : store (SetDenomMap (Denom tp) (GetID tp) w1).1 !! pair_key (GetID tp) = Some (VPair tp)).
  { cbn. rewrite lookup_insert_ne; [done|by intros [=]]. }
  destruct (SetDenomMap _ _ w1) as [w2 r] eqn:E. injection E as Hw2 Hr. subst r. clear Hw2.
  apply set_index_ok; [by intros ? [=]|by apply erc20_entry|done].
Qed.

#[local] Hint Resolve DeleteTokenPair_registry SetTokenPair_registry SetParams_registry register_registry : erc20.
#[local] Hint Resolve keeps_store_registry MintingEnabled_store CallEVMWithData_store CallEVM_store : erc20.
#[local] Hint Resolve convertCoinNativeCoin_store convertERC20NativeCoin_store convertERC20NativeToken_store convertCoinNativeERC20_store : erc20.

Lemma contract_alive_registry tp : hex_pair tp -> keeps_registry (contract_alive tp : Act _).
Proof. intros Hx. unfold contract_alive. walk_registry. Qed.

#[local] Hint Resolve contract_alive_registry : erc20.

Lemma ConvertCoin_registry msg : keeps_registry (ConvertCoin msg : Act _).
Proof.
  unfold ConvertCoin, MustAccAddressFromBech32. apply keeps_registry_bind; [walk_registry|intros a].
  apply (keeps_registry_bind_with (fun tp => hex_pair tp)); [apply keeps_store_registry, MintingEnabled_store|intros; by eapply MintingEnabled_hex|].
  intros tp Hx. walk_registry.
Qed.

Lemma ConvertERC20_registry msg : keeps_registry (ConvertERC20 msg : Act _).
Proof.
  unfold ConvertERC20, MustAccAddressFromBech32. apply keeps_registry_bind; [walk_registry|intros a].
  apply (keeps_registry_bind_with (fun tp => hex_pair tp)); [apply keeps_store_registry, MintingEnabled_store|intros; by eapply MintingEnabled_hex|].
  intros tp Hx. walk_registry.
Qed.

#[local] Hint Resolve ConvertCoin_registry ConvertERC20_registry : erc20.

Lemma RegisterCoin_registry md : keeps_registry (RegisterCoin md : Act _).
Proof. unfold RegisterCoin, IsDenomRegistered, has_key, verifyMetadata, DeployERC20Contract. walk_registry. apply register_registry, Hex_is_hex. Qed.

Lemma QueryERC20_store c : keeps_store (QueryERC20 c : Act _).
Proof. unfold QueryERC20, unpacked. walk_store; apply CallEVM_store. Qed.

Lemma CreateCoinMetadata_store c : keeps_store (CreateCoinMetadata c : Act _).
Proof. unfold CreateCoinMetadata, IsDenomRegistered, has_key. walk_store. apply QueryERC20_store. Qed.

#[local] Hint Resolve RegisterCoin_registry CreateCoinMetadata_store : erc20.

Lemma RegisterERC20_registry c : keeps_registry (RegisterERC20 c : Act _).
Proof. unfold RegisterERC20, IsERC20Registered, has_key. walk_registry. apply register_registry, Hex_is_hex. Qed.

Lemma ToggleConversion_registry token : keeps_registry (ToggleConversion token : Act _).
Proof.
  unfold ToggleConversion. apply keeps_registry_bind; [unfold GetTokenPairID, GetERC20Map, GetDenomMap, lookup_store; walk_registry|intros id].
  apply keeps_registry_bind; [walk_registry|intros _].
  apply (keeps_registry_bind_with (fun p => forall tp, p = Some tp -> hex_pair tp)); [unfold GetTokenPair, lookup_store; walk_registry|intros; by eapply GetTokenPair_hex|].
  intros [tp|] Hx; [|walk_registry]. specialize (Hx tp eq_refl). walk_registry.
Qed.

#[local] Hint Resolve RegisterERC20_registry ToggleConversion_registry : erc20.

Lemma for_all_registry {A} (f : A -> Act unit) l : (forall a, a ∈ l -> keeps_registry (f a)) -> keeps_registry (for_all f l).
Proof. induction l as [|a l IH]; intros H; [by apply keeps_store_registry|]. apply keeps_registry_bind; [|intros _; apply IH]; intros; apply H; set_solver. Qed.

Lemma proposal_registry c : keeps_registry (Erc20ProposalHandler c : Act _).
Proof.
  unfold Erc20ProposalHandler, IsERC20Enabled, has_key. walk_registry; try apply for_all_registry; intros; walk_registry.
Qed.

Lemma validated_hex V seen1 seen2 tps : validate_pairs V seen1 seen2 tps = true -> forall tp, tp ∈ tps -> hex_pair tp.
Proof.
  revert seen1 seen2. induction tps as [|b tps IH]; intros s1 s2; [set_solver|]. cbn. intros H tp [->|Hin]%elem_of_cons; reflect_bools; [done|].
  by eapply IH.
Qed.

Lemma genesis_registry V b gs : GenesisState_Validate V gs = true -> keeps_registry (InitGenesis b gs : Act _).
Proof.
  intros HV. unfold InitGenesis. walk_registry. apply for_all_registry. intros tp Htp.
  apply register_registry. by eapply validated_hex.
Qed.

Lemma regular_transfer_store m : keeps_store (regular_transfer m : Act _).
Proof. unfold regular_transfer. walk_store. Qed.

#[local] Hint Resolve regular_transfer_store : erc20.

Lemma OnRecvPacket_registry p : keeps_registry (OnRecvPacket p : Act _).
Proof.
  unfold OnRecvPacket, IsERC20Enabled, has_key, GetTransferSenderRecipient, GetEvmosAddressFromBech32, GetTokenPairID, GetERC20Map, GetDenomMap, GetTokenPair, lookup_store.
  apply keeps_registry_acknowledged. walk_registry.
Qed.

Lemma packet_back_registry d : keeps_registry (ConvertCoinToERC20FromPacket d : Act _).
Proof. unfold ConvertCoinToERC20FromPacket, GetParams, IsERC20Enabled, GetEnableEVMHook, IsDenomRegistered, has_key. walk_registry. Qed.

Lemma Transfer_registry m : keeps_registry (Transfer m : Act _).
Proof.
  unfold Transfer, MustAccAddressFromBech32, IsERC20Enabled, has_key, GetTokenPairID, GetERC20Map, GetDenomMap, GetTokenPair, lookup_store. walk_registry.
Qed.

End Registry.
