(* ===== verification/Erc20Backing.v ===== *)
(** Proofs on [x/erc20]: the coins in the module account back the tokens the module has issued,
    through every message, hook, proposal and packet; what a conversion moves, and that it can be undone. *)

From stdpp Require Import base list gmap strings sorting.
From Stdlib Require Import ZArith Lia Ascii.
From S2P Require Import Prelude KVStore Ledger Erc20 Erc20Props.
Open Scope Z_scope.
Open Scope go_scope.

Section Backing.
Context `{EL : Erc20Laws X}.

Abbreviation W := (world val event X).
Abbreviation Act := (M W error).

(** * Sums over the contracts of a denomination *)

Lemma elem_of_owned (w : W) d c : c ∈ owned w d <->
  exists id tp, store w !! pair_key id = Some (VPair tp) /\ ContractOwner tp = OWNER_MODULE /\ Denom tp = d /\ GetERC20Contract tp = c.
Proof.
  unfold owned, IterateTokenPairs. rewrite elem_of_list_to_set, list_elem_of_fmap. split.
  - intros (tp & -> & ((Ho & Hd) & Ht)%list_elem_of_filter). apply list_elem_of_omap in Ht as ([k v] & Hk & Hv).
    apply elem_of_prefix_iter in Hk as [Hk [id ->]%is_prefix_true]. destruct v; try discriminate.
    injection Hv as ->. by exists id, tp.
  - intros (id & tp & Hs & Ho & Hd & Hc). exists tp. split; [done|]. apply list_elem_of_filter. split; [done|].
    apply list_elem_of_omap. exists (pair_key id, VPair tp). split; [|done]. by apply elem_of_prefix_iter.
Qed.

Lemma sumZ_one (c : bytes) n (l : list bytes) : NoDup l -> sumZ (one c n) l = if decide (c ∈ l) then n else 0.
Proof.
  induction 1 as [|a l Ha Hl IH]; [done|]. rewrite sumZ_cons, IH. unfold one.
  destruct (decide (a = c)) as [->|]; [rewrite decide_False by done; rewrite decide_True by set_solver; lia|].
  destruct (decide (c ∈ l)); [rewrite decide_True by set_solver|rewrite decide_False by set_solver]; lia.
Qed.

Lemma sumZ_subset (f : bytes -> Z) (A B : gset bytes) : (forall c, 0 <= f c) -> A ⊆ B -> sumZ f (elements A) <= sumZ f (elements B).
Proof.
  intros Hf HAB. rewrite (union_difference_L A B HAB).
  rewrite (sumZ_Permutation _ _ _ (elements_disj_union A (B ∖ A) ltac:(set_solver))), sumZ_app.
  pose proof (sumZ_nonneg f (elements (B ∖ A)) ltac:(apply Forall_forall; auto)). lia.
Qed.

(** ** Steps *)

Lemma backed_step (w w' : W) db ds :
  backed w -> (forall d, owned w' d ⊆ owned w d) -> moved (ext w) (ext w') db ds ->
  (forall d, sumZ ds (elements (owned w d)) <= db d) -> backed w'.
Proof.
  intros (Hm & Hu & Hb) Hs [B S] Hd. split_and!.
  - intros d c Hc. apply S, (Hm d), (Hs d), Hc.
  - intros d d' c H1 H2. apply (Hu d d' c); [by apply Hs|by apply Hs].
  - intros d. specialize (Hb d). specialize (B d). specialize (Hd d). unfold issued in *.
    trans (sumZ (supply (ext w')) (elements (owned w d))); [apply sumZ_subset; [apply supply_nonneg|apply Hs]|].
    trans (sumZ (fun c => supply (ext w) c + ds c) (elements (owned w d))); [|rewrite sumZ_plus; lia].
    apply sumZ_le. intros c Hc%elem_of_elements. apply S. by eapply Hm.
Qed.

(** Nothing is issued, nothing is paid. *)
Lemma backed_safe (w w' : W) : backed w -> (forall d, owned w' d ⊆ owned w d) -> kept_safe (ext w) (ext w') -> backed w'.
Proof.
  intros B Hs Hk. eapply backed_step; [done..|]. intros d. cbn. generalize (elements (owned w d)) as l.
  induction l as [|c l IH]; [done|]. rewrite sumZ_cons. lia.
Qed.

(** Coins of [d] and tokens of one of its contracts change together. *)
Lemma backed_convert (w w' : W) d c n m : backed w -> store w' = store w -> c ∈ owned w d -> n <= m ->
  moved (ext w) (ext w') (one d m) (one c n) -> backed w'.
Proof.
  intros B Hs Hc Hn Hv. pose proof B as (Hm & Hu & Hb). eapply backed_step; [done| |exact Hv|].
  - intros d'. unfold owned, IterateTokenPairs. by rewrite Hs.
  - intros d'. rewrite sumZ_one by apply NoDup_elements. unfold one. destruct (decide (c ∈ elements (owned w d'))) as [Hin|Hin].
    + apply elem_of_elements in Hin. rewrite (Hu d' d c Hin Hc), decide_True by done. lia.
    + case_decide as E; [|done]. subst. by rewrite elem_of_elements in Hin.
Qed.

Lemma owned_same (w w' : W) d : store w' = store w -> owned w' d = owned w d.
Proof. intros H. unfold owned, IterateTokenPairs. by rewrite H. Qed.

Lemma backed_same_store (w w' : W) : backed w -> store w' = store w -> kept_safe (ext w) (ext w') -> backed w'.
Proof. intros B Hs. apply backed_safe; [done|]. intros d. by rewrite (owned_same _ _ _ Hs). Qed.

(** * The conversions *)

Lemma bank_op_returns f (w w' : W) u : bank_op f w = (w', Ok u) -> f (ext w) = (ext w', None) /\ store w' = store w /\ events w' = events w.
Proof. unfold bank_op, run_ext. destruct (f (ext w)) as [x' [c|]]; [by intros [=]|]. by intros [= <- <-]. Qed.

Lemma CallEVM_returns from c k (w w' : W) r : CallEVM from c true k w = (w', Ok r) -> exists data nonce gas,
  Pack k = Some data /\ ApplyMessage (ext w) (mkMessage from (Some c) nonce gas data false) true = (ext w', Ok r) /\
  res_VmError r = ""%string /\ store w' = store w /\ events w' = events w.
Proof.
  unfold CallEVM. destruct (Pack k) as [data|]; [|by intros [=]].
  intros (nonce & gas & _ & H)%call_returns. eauto 10.
Qed.

Lemma owned_call c k (w w' : W) r : module_token (ext w) c = true -> call_in_range k ->
  CallEVM ModuleAddress c true k w = (w', Ok r) -> called (ext w) (ext w') c k /\ store w' = store w /\ events w' = events w.
Proof.
  intros Hc Hk (data & nonce & gas & Hp & Ha & He & Hs)%CallEVM_returns. split; [|done]. by eapply module_call.
Qed.

(** A transfer issues nothing, whoever owns the contract. *)
Lemma transfer_safe from c data to n (w w' : W) r : in_uint256 n -> Pack (CallTransfer to n) = Some data ->
  CallEVMWithData from (Some c) data true w = (w', Ok r) -> kept_safe (ext w) (ext w') /\ store w' = store w.
Proof.
  intros Hn Hp (nonce & gas & _ & Ha & He & Hs & _)%call_returns. split; [|done].
  destruct (decide (from = ModuleAddress)) as [->|Hf]; [|by eapply other_message; [exact Ha|left]].
  destruct (module_token (ext w) c) eqn:Hc; [|eapply other_message; [exact Ha|right; left; by exists c]].
  pose proof (called_moved _ _ _ _ (module_call _ _ (CallTransfer to n) _ _ _ _ _ Hc Hn Hp Ha He)) as M.
  eapply moved_le; [..|exact M]; [done|]. intros c'. unfold one; cbn. by case_decide.
Qed.

Lemma native_coin_in tp msg receiver sender (w w' : W) u :
  convertCoinNativeCoin tp msg receiver sender w = (w', Ok u) -> sender <> ModuleAddress ->
  module_token (ext w) (GetERC20Contract tp) = true ->
  moved (ext w) (ext w') (one (mc_Coin msg).1 (mc_Coin msg).2) (one (GetERC20Contract tp) (mc_Coin msg).2).
Proof.
  intros H Hs Hc. destruct msg as [[d n] mr ms]; cbn [mc_Coin fst snd] in *. unfold convertCoinNativeCoin in H; cbn [mc_Coin fst snd] in H. run H.
  apply balance_or_fail_same in Hc0 as ->. apply bank_op_returns in Hc1 as (Hb & _).
  pose proof (account_to_module_tokens (ext w) sender ModuleName (d, n)) as Ht. rewrite Hb in Ht.
  apply escrow_moved in Hb as [Hpos Hb]; [|done].
  apply owned_call in Hc2 as (Hcall & _); [|by apply Ht|done].
  apply balance_or_fail_same in Hc3 as ->. injection H as <- _. cbn [ext].
  eapply moved_le; [..|exact (moved_trans _ _ _ _ _ _ _ Hb (called_moved _ _ _ _ Hcall))]; intros; unfold one; cbn; repeat case_decide; lia.
Qed.

Lemma native_coin_out tp msg receiver sender (w w' : W) u :
  convertERC20NativeCoin tp msg receiver sender w = (w', Ok u) -> in_uint256 (me_Amount msg) ->
  module_token (ext w) (GetERC20Contract tp) = true ->
  moved (ext w) (ext w') (one (Denom tp) (- me_Amount msg)) (one (GetERC20Contract tp) (- me_Amount msg)).
Proof.
  intros H Hn Hc. unfold convertERC20NativeCoin in H. run H.
  apply balance_or_fail_same in Hc0 as ->. apply owned_call in Hc1 as (Hcall & _); [|done..].
  apply bank_op_returns in Hc2 as (Hb & _). apply release_moved in Hb; [|apply Hn].
  apply balance_or_fail_same in Hc3 as ->. injection H as <- _. cbn [ext].
  eapply moved_le; [..|exact (moved_trans _ _ _ _ _ _ _ (called_moved _ _ _ _ Hcall) Hb)]; intros; unfold one; cbn; repeat case_decide; lia.
Qed.

Lemma transferred_same res (w w' : W) u : transferred res w = (w', Ok u) -> w' = w.
Proof. unfold transferred, unpacked. destruct (UnpackBool _); intros H; run H; [done|discriminate]. Qed.

Lemma monitor_same l (w w' : W) u : monitor l w = (w', Ok u) -> w' = w.
Proof.
  revert w. induction l as [|[|t ?] l IH]; intros w; cbn; [by intros [= ->]|by intros [=]|].
  case_bool_decide; [by intros [=]|apply IH].
Qed.

Lemma token_in tp msg receiver sender (w w' : W) u :
  convertERC20NativeToken tp msg receiver sender w = (w', Ok u) -> in_uint256 (me_Amount msg) -> kept_safe (ext w) (ext w').
Proof.
  intros H Hn. unfold convertERC20NativeToken in H. run H.
  apply balance_or_fail_same in Hc as ->. destruct (Pack _) as [data|] eqn:Hp; [|discriminate]. run Hc0.
  apply (transfer_safe _ _ _ _ _ _ _ _ Hn Hp) in Hc1 as [Hk _]. apply transferred_same in Hc2 as ->.
  apply balance_or_fail_same in Hc3 as ->. apply bank_op_returns in Hc4 as (Hm & _). apply bank_op_returns in Hc5 as (Hb & _).
  apply MintCoins_ok in Hm as [Hm Ht]; [|apply Hn]. apply release_moved in Hb; [|apply Hn].
  apply monitor_same in Hc6 as ->. injection H as <- _. cbn [ext].
  eapply kept_safe_trans; [exact Hk|].
  eapply moved_le; [..|exact (moved_trans _ _ _ _ _ _ _ (credited_moved _ _ _ _ Hm Ht) Hb)]; intros; unfold one; cbn; repeat case_decide; lia.
Qed.

Lemma token_out tp msg receiver sender (w w' : W) u :
  convertCoinNativeERC20 tp msg receiver sender w = (w', Ok u) -> sender <> ModuleAddress ->
  kept_safe (ext w) (ext w').
Proof.
  intros H Hs. destruct msg as [[d n] mr ms]; cbn [mc_Coin fst snd] in *. unfold convertCoinNativeERC20 in H; cbn [mc_Coin fst snd] in H. run H.
  apply balance_or_fail_same in Hc as ->. apply bank_op_returns in Hc0 as (Hb & _).
  apply escrow_moved in Hb as [Hpos Hb]; [|done]. unfold CallEVM in Hc1. destruct (Pack _) as [data|] eqn:Hp; [|discriminate].
  apply (transfer_safe _ _ _ _ _ _ _ _ Hpos Hp) in Hc1 as [Hk _]. apply transferred_same in Hc2 as ->.
  apply balance_or_fail_same in Hc3 as ->. apply bank_op_returns in Hc4 as (Hm & _).
  apply BurnCoins_ok in Hm as [Hm Ht]; [|apply Hpos]. apply monitor_same in Hc5 as ->. injection H as <- _. cbn [ext].
  eapply moved_le; [..|exact (moved_trans _ _ _ _ _ _ _ Hb (moved_trans _ _ _ _ _ _ _ Hk (credited_moved _ _ _ _ Hm Ht)))];
    intros; unfold one; cbn; repeat case_decide; lia.
Qed.

(** ** Finding the pair *)

Lemma GetTokenPair_returns id (w w' : W) tp : GetTokenPair id w = (w', Ok (Some tp)) ->
  w' = w /\ exists id', id = Some id' /\ store w !! pair_key id' = Some (VPair tp).
Proof.
  unfold GetTokenPair. destruct id as [id|]; intros H; run H; [|discriminate].
  unfold lookup_store in Hc. run Hc. split; [done|]. exists id. split; [done|]. destruct (store w !! _) as [[]|]; congruence.
Qed.

Lemma GetERC20Map_returns a (w w' : W) id : GetERC20Map a w = (w', Ok id) -> w' = w /\ id = id_of (store w !! erc20_key a).
Proof. unfold GetERC20Map, lookup_store. intros H. by run H. Qed.

Lemma GetTokenPairID_returns token (w w' : W) id : GetTokenPairID token w = (w', Ok id) -> w' = w /\
  id = id_of (store w !! (if IsHexAddress token then erc20_key (HexToAddress token) else denom_key token)).
Proof.
  unfold GetTokenPairID, GetERC20Map, GetDenomMap, lookup_store. destruct (IsHexAddress token); intros H; by run H.
Qed.

(** What the index says of the pair it leads to. *)
Lemma index_denom (w : W) d id tp : registry_ok w -> id_of (store w !! denom_key d) = Some id ->
  store w !! pair_key id = Some (VPair tp) -> Denom tp = d.
Proof.
  intros R Hi Hp. destruct (store w !! denom_key d) as [v|] eqn:E; [|done].
  destruct (lookup_denom _ _ _ R E) as (tp' & -> & <- & Hp'). cbn in Hi. congruence.
Qed.

Lemma index_erc20 (w : W) a id tp : registry_ok w -> id_of (store w !! erc20_key a) = Some id ->
  store w !! pair_key id = Some (VPair tp) -> GetERC20Contract tp = a.
Proof.
  intros R Hi Hp. destruct (store w !! erc20_key a) as [v|] eqn:E; [|done].
  destruct (lookup_erc20 _ _ _ R E) as (tp' & -> & <- & Hp'). cbn in Hi. congruence.
Qed.

Lemma MintingEnabled_returns sender receiver token (w w' : W) tp : MintingEnabled sender receiver token w = (w', Ok tp) ->
  w' = w /\ BlockedAddr receiver = false /\ exists id, store w !! pair_key id = Some (VPair tp) /\
    (IsHexAddress token = false -> registry_ok w -> Denom tp = token).
Proof.
  unfold MintingEnabled, IsERC20Enabled, has_key. intros H. run H.
  apply GetTokenPairID_returns in Hc as [-> ->]. destruct a0 as [tp'|]; [|discriminate]. run H.
  apply GetTokenPair_returns in Hc0 as (-> & id & Hid & Hp). split; [done|]. split; [by apply negb_true_iff|].
  exists id. split; [done|]. intros Hh R. rewrite Hh in Hid. by eapply index_denom.
Qed.

Lemma contract_alive_returns tp (w w' : W) b : contract_alive tp w = (w', Ok b) -> w' = if b then w else (DeleteTokenPair tp w).1.
Proof.
  unfold contract_alive, gets, bind at 1. destruct (GetAccountWithoutBalance _ _) as [[]|]; by intros [= <- <-].
Qed.

Lemma backed_delete tp (w : W) : backed w -> backed (DeleteTokenPair tp w).1.
Proof.
  intros B. apply (backed_safe w); [done| |apply kept_safe_refl].
  intros d c (id & tp' & H & Hc)%elem_of_owned. apply elem_of_owned. exists id, tp'. split; [|done].
  cbn in H. rewrite !lookup_delete_Some in H. tauto.
Qed.

(** * The operations *)

Lemma ConvertCoin_backed msg (w w' : W) b : ConvertCoin msg w = (w', Ok b) ->
  IsHexAddress (mc_Coin msg).1 = false -> AccAddressFromBech32 (mc_Sender msg) <> Some ModuleAddress ->
  registry_ok w -> backed w -> backed w'.
Proof.
  intros H Hh Hs R B. unfold ConvertCoin, MustAccAddressFromBech32 in H. run H.
  destruct (AccAddressFromBech32 _) as [sender|]; [|discriminate]. run Hc.
  apply MintingEnabled_returns in Hc0 as (-> & _ & id & Hp & Hd). specialize (Hd Hh R).
  apply contract_alive_returns in Hc1 as ->. destruct a1; cbn [negb] in H; [|run H; by apply backed_delete].
  unfold IsNativeCoin, IsNativeERC20 in H. case_bool_decide as Ho; [|case_bool_decide; [|discriminate]]; run H.
  - assert (Hin : GetERC20Contract a0 ∈ owned w (mc_Coin msg).1) by (apply elem_of_owned; by exists id, a0).
    pose proof (convertCoinNativeCoin_store a0 msg (HexToAddress (mc_Receiver msg)) sender w) as Hst. rewrite Hc in Hst.
    apply native_coin_in in Hc; [|congruence|by apply (proj1 B (mc_Coin msg).1)].
    by eapply backed_convert.
  - pose proof (convertCoinNativeERC20_store a0 msg (HexToAddress (mc_Receiver msg)) sender w) as Hst. rewrite Hc in Hst.
    apply token_out in Hc; [|congruence]. by eapply backed_same_store.
Qed.

Lemma ConvertERC20_backed msg (w w' : W) b : ConvertERC20 msg w = (w', Ok b) -> in_uint256 (me_Amount msg) -> backed w -> backed w'.
Proof.
  intros H Hn B. unfold ConvertERC20, MustAccAddressFromBech32 in H. run H.
  destruct (AccAddressFromBech32 _) as [receiver|]; [|discriminate]. run Hc.
  apply MintingEnabled_returns in Hc0 as (-> & _ & id & Hp & _).
  apply contract_alive_returns in Hc1 as ->. destruct a1; cbn [negb] in H; [|run H; by apply backed_delete].
  unfold IsNativeCoin, IsNativeERC20 in H. case_bool_decide as Ho; [|case_bool_decide; [|discriminate]]; run H.
  - assert (Hin : GetERC20Contract a0 ∈ owned w (Denom a0)) by (apply elem_of_owned; by exists id, a0).
    pose proof (convertERC20NativeCoin_store a0 msg receiver (HexToAddress (me_Sender msg)) w) as Hst. rewrite Hc in Hst.
    apply native_coin_out in Hc; [|done|by apply (proj1 B (Denom a0))].
    by eapply backed_convert.
  - pose proof (convertERC20NativeToken_store a0 msg receiver (HexToAddress (me_Sender msg)) w) as Hst. rewrite Hc in Hst.
    apply token_in in Hc; [|done]. by eapply backed_same_store.
Qed.

(** ** The hook: an error keeps what was done before it *)

Lemma bank_op_fails f (w w' : W) e : bank_op f w = (w', Err e) -> exists c, f (ext w) = (ext w', Some c) /\ store w' = store w.
Proof. unfold bank_op, run_ext. destruct (f (ext w)) as [x' [c|]]; [|by intros [=]]. intros [= <- <-]. eauto. Qed.

Lemma bank_op_stops f (w w' : W) : bank_op f w <> (w', Panic).
Proof. unfold bank_op, run_ext. by destruct (f (ext w)) as [x' [c|]]. Qed.

(** A call that ends in an error took nothing from the module. *)
Lemma call_fails from to data (w w' : W) r : CallEVMWithData from to data true w = (w', r) -> (forall res, r <> Ok res) ->
  kept_safe (ext w) (ext w').
Proof.
  unfold CallEVMWithData, bind, gets, of_result, on_ext, ret, fail, panic. cbn [negb].
  destruct (GetSequence _ _) as [nonce| |]; [|intros [= <- <-] _; apply kept_safe_refl..].
  destruct (EstimateGasInternal _ _ _ _) as [gas| |]; [|intros [= <- <-] _; apply kept_safe_refl..].
  destruct (ApplyMessage _ _ _) as [x' [res| |]] eqn:E.
  - unfold guard, ret, fail. case_bool_decide as Hv; intros [= <- <-] Hr; [by destruct (Hr res)|].
    eapply other_message; [exact E|]. right; right. by intros ? [= <-].
  - intros [= <- <-] _. eapply other_message; [exact E|]. by right; right.
  - intros [= <- <-] _. eapply other_message; [exact E|]. by right; right.
Qed.

Lemma CallEVM_fails c k (w w' : W) r : CallEVM ModuleAddress c true k w = (w', r) -> (forall res, r <> Ok res) -> kept_safe (ext w) (ext w').
Proof. unfold CallEVM. destruct (Pack k); [apply call_fails|]. intros [= <- <-] _. apply kept_safe_refl. Qed.

(** Paying out what a pair's other side has taken in. *)
Lemma payout (w1 : W) from d n : 0 < n ->
  let w2 := (bank_op (fun x => SendCoinsFromModuleToAccount x ModuleName from (d, n)) w1).1 in
  store w2 = store w1 /\ exists m, - n <= m /\ moved (ext w1) (ext w2) (one d m) (fun _ => 0).
Proof.
  intros Hn. destruct (bank_op _ w1) as [w2 [u|e|]] eqn:E; cbn.
  - apply bank_op_returns in E as (Hb & Hs & _). split; [done|]. exists (- n). split; [lia|]. by apply release_moved in Hb.
  - apply bank_op_fails in E as (c & Hb & Hs). split; [done|]. exists 0. split; [lia|].
    apply module_to_account_err in Hb as ->. eapply moved_le; [..|apply kept_safe_refl]; intros; unfold one; by try case_decide.
  - by apply bank_op_stops in E.
Qed.

Lemma hook_convert_backed tp c from n id (w : W) : store w !! pair_key id = Some (VPair tp) -> GetERC20Contract tp = c ->
  in_uint256 n -> backed w -> backed (hook_convert tp c from n w).1.
Proof.
  intros Hp <- Hn B. unfold hook_convert. unfold bind at 1. destruct (ContractOwner tp) eqn:Ho.
  - done.
  - assert (Hin : GetERC20Contract tp ∈ owned w (Denom tp)) by (apply elem_of_owned; by exists id, tp).
    unfold bind. pose proof (CallEVM_store ModuleAddress (GetERC20Contract tp) true (CallBurn n) w) as Hst.
    destruct (CallEVM _ _ _ _ w) as [w1 [res|e|]] eqn:E; [|apply CallEVM_fails in E; [by eapply backed_same_store|done]..].
    apply owned_call in E as (Hcall & Hs & _); [|by eapply (proj1 B)|done].
    destruct (payout w1 from (Denom tp) n (proj1 Hn)) as (Hs2 & m & Hm & Hb).
    eapply (backed_convert w _ (Denom tp) _ (- n) m); [done|etrans; [exact Hs2|done]|exact Hin|lia|].
    eapply moved_le; [..|exact (moved_trans _ _ _ _ _ _ _ (called_moved _ _ _ _ Hcall) Hb)]; intros; unfold one; cbn; repeat case_decide; lia.
  - destruct (bank_op _ w) as [w1 [u|e|]] eqn:E; [| |by apply bank_op_stops in E].
    + apply bank_op_returns in E as (Hmint & Hs & _). apply MintCoins_ok in Hmint as [Hc Ht]; [|apply Hn].
      destruct (payout w1 from (Denom tp) n (proj1 Hn)) as (Hs2 & m & Hm & Hb).
      eapply (backed_same_store w); [done|etrans; [exact Hs2|done]|].
      eapply moved_le; [..|exact (moved_trans _ _ _ _ _ _ _ (credited_moved _ _ _ _ Hc Ht) Hb)]; intros; unfold one; cbn; repeat case_decide; lia.
    + apply bank_op_fails in E as (e' & Hmint & Hs). apply MintCoins_err in Hmint.
      eapply (backed_same_store w); [done..|]. cbn. rewrite Hmint. apply kept_safe_refl.
Qed.

Lemma hook_log_backed log (w : W) : registry_ok w -> backed w -> backed (hook_log log w).1.
Proof.
  intros R B. unfold hook_log. destruct (log_Topics log) as [|e [|f [|t [|]]]]; try done.
  case_bool_decide; [|done]. destruct (UnpackTransfer _) as [[n|]|] eqn:Hu; try done. apply UnpackTransfer_range in Hu.
  destruct (Z.ltb_spec 0 n); [|done]. unfold bind at 1. destruct (GetERC20Map _ w) as [w1 [id|e'|]] eqn:Hg; [|by vm_compute in Hg..].
  apply GetERC20Map_returns in Hg as [-> ->]. destruct (no_id _); [done|]. unfold bind at 1.
  destruct (GetTokenPair _ w) as [w1 [[tp|]|e'|]] eqn:Hg.
  - apply GetTokenPair_returns in Hg as (-> & id & Hi & Hp). case_bool_decide; [|done]. cbn [negb].
    destruct (Enabled tp); [|done]. cbn [negb]. pose proof (index_erc20 _ _ _ _ R Hi Hp) as Hc.
    pose proof (hook_convert_backed tp _ (BytesToAddress f) n id w Hp Hc (conj H0 Hu) B) as HB.
    unfold ignore_error. by destruct (hook_convert _ _ _ _ w) as [? []].
  - unfold GetTokenPair in Hg. destruct (id_of _); run Hg; [|done]. unfold lookup_store in Hc. by run Hc.
  - unfold GetTokenPair in Hg. by destruct (id_of _).
  - unfold GetTokenPair in Hg. by destruct (id_of _).
Qed.

Lemma PostTxProcessing_backed logs (w : W) : registry_ok w -> backed w -> backed (PostTxProcessing logs w).1.
Proof.
  intros R B. unfold PostTxProcessing, GetParams, IsERC20Enabled, GetEnableEVMHook, has_key, bind, gets, ret.
  destruct (_ || _); [done|]. revert w R B. induction logs as [|log logs IH]; intros w R B; [done|].
  cbn [hook_logs]. unfold bind. pose proof (hook_log_store log w) as Hs. pose proof (hook_log_backed log w R B) as HB.
  destruct (hook_log log w) as [w1 [u|e|]]; cbn in *; [|done..]. apply IH; [|done]. unfold registry_ok. by rewrite Hs.
Qed.

(** ** Registrations *)

Lemma register_owned tp (w : W) d c : c ∈ owned (register_pair tp w).1 d ->
  c ∈ owned w d \/ ContractOwner tp = OWNER_MODULE /\ Denom tp = d /\ GetERC20Contract tp = c.
Proof.
  intros (id & tp' & H & Ho & Hd & Hc)%elem_of_owned. cbn in H.
  rewrite !lookup_insert_ne in H by (by intros [=]). destruct (decide (id = GetID tp)) as [->|Hi].
  - rewrite lookup_insert_eq in H. injection H as <-. by right.
  - rewrite lookup_insert_ne in H by (by intros [= ?]). left. apply elem_of_owned. by exists id, tp'.
Qed.

(** Registering a contract that is new and has issued nothing. *)
Lemma backed_register tp (w : W) : backed w -> module_token (ext w) (GetERC20Contract tp) = true -> supply (ext w) (GetERC20Contract tp) = 0 ->
  (forall d, GetERC20Contract tp ∉ owned w d) -> backed (register_pair tp w).1.
Proof.
  intros (Hm & Hu & Hb) Ht H0 Hnew. set (c := GetERC20Contract tp) in *. split_and!.
  - intros d c' [H|(_ & _ & <-)]%register_owned; [by eapply Hm|done].
  - intros d d' c' [H|(_ & <- & <-)]%register_owned [H'|(_ & E & E')]%register_owned; try subst; try done.
    + by eapply Hu. + by destruct (Hnew d). + by destruct (Hnew d').
  - intros d. specialize (Hb d). unfold issued in *. change (ext (register_pair tp w).1) with (ext w).
    trans (sumZ (supply (ext w)) (elements (owned w d ∪ {[c]}))).
    + apply sumZ_subset; [apply supply_nonneg|]. intros c' [H|(_ & _ & <-)]%register_owned; set_solver.
    + rewrite (sumZ_Permutation _ _ _ (elements_disj_union (owned w d) {[c]} ltac:(specialize (Hnew d); set_solver))).
      rewrite sumZ_app, elements_singleton. cbn in *. lia.
Qed.

Lemma verifyMetadata_safe md (w w' : W) u : verifyMetadata md w = (w', Ok u) -> store w' = store w /\ kept_safe (ext w) (ext w').
Proof.
  unfold verifyMetadata. intros H. run H. destruct (GetDenomMetaData _ _); [run H; split; [done|apply kept_safe_refl]|].
  injection H as <- _. split; [done|apply SetDenomMetaData_safe].
Qed.

Lemma Deploy_returns md (w w' : W) c : DeployERC20Contract md w = (w', Ok c) -> length c = 20%nat /\ store w' = store w /\
  module_token (ext w) c = false /\ module_token (ext w') c = true /\ supply (ext w') c = 0 /\ kept_safe (ext w) (ext w').
Proof.
  unfold DeployERC20Contract. destruct (PackConstructor _ _ _) as [args|] eqn:Hp; [|discriminate]. intros H. run H.
  apply of_result_returns in Hc as [-> Hs]. apply call_returns in Hc0 as (nonce & gas & Hs' & Ha & He & Hst & _).
  rewrite Hs in Hs'. injection Hs' as ->. split; [apply CreateAddress_length|]. split; [done|].
  by eapply module_deploy.
Qed.

Lemma RegisterCoin_backed md (w w' : W) tp : RegisterCoin md w = (w', Ok tp) -> backed w -> backed w'.
Proof.
  unfold RegisterCoin, IsDenomRegistered, has_key. intros H B. run H.
  apply verifyMetadata_safe in Hc as [Hs1 Hk1]. apply Deploy_returns in Hc0 as (Hl & Hs2 & Hf & Ht & H0 & Hk2).
  assert (B1 : backed s) by (by eapply backed_same_store). assert (B2 : backed s0) by (by eapply backed_same_store).
  set (tp := NewTokenPair a0 (md_Base md) OWNER_MODULE) in *. assert (Hcon : GetERC20Contract tp = a0).
  { unfold tp, GetERC20Contract; cbn. by apply Hex_roundtrip. }
  assert (HB : backed (register_pair tp s0).1); [|by rewrite Hc1 in HB].
  apply backed_register; rewrite ?Hcon; try done. intros d Hin. rewrite (owned_same _ _ _ Hs2) in Hin.
  apply (proj1 B1) in Hin. congruence.
Qed.

Lemma view_same from c k (w w' : W) r : CallEVM from c false k w = (w', r) -> w' = w.
Proof. intros H. pose proof (view_changes_nothing from c k w) as E. by rewrite H in E. Qed.

Lemma unpacked_same {A} (o : option A) (w w' : W) a : unpacked o w = (w', Ok a) -> w' = w.
Proof. destruct o; [|discriminate]. by intros [= ->]. Qed.

Lemma QueryERC20_same c (w w' : W) q : QueryERC20 c w = (w', Ok q) -> w' = w.
Proof.
  unfold QueryERC20. intros H. run H.
  apply view_same in Hc as ->. apply unpacked_same in Hc0 as ->. apply view_same in Hc1 as ->. apply unpacked_same in Hc2 as ->.
  apply view_same in Hc3 as ->. by apply unpacked_same in Hc4 as ->.
Qed.

Lemma CreateCoinMetadata_safe c (w w' : W) md : CreateCoinMetadata c w = (w', Ok md) -> kept_safe (ext w) (ext w').
Proof.
  unfold CreateCoinMetadata, IsDenomRegistered, has_key. intros H. run H. apply QueryERC20_same in Hc as ->.
  destruct a as [[name symbol] decimals]. run H. injection Hc as <- _. apply SetDenomMetaData_safe.
Qed.

Lemma RegisterERC20_backed c (w w' : W) tp : RegisterERC20 c w = (w', Ok tp) -> backed w -> backed w'.
Proof.
  unfold RegisterERC20, IsERC20Registered, has_key. intros H B. run H.
  pose proof (CreateCoinMetadata_store c w) as Hs. rewrite Hc in Hs. apply CreateCoinMetadata_safe in Hc as Hk.
  set (tp := NewTokenPair c (md_Name a) OWNER_EXTERNAL) in *.
  assert (B1 : backed s) by (by eapply backed_same_store). assert (HB : backed (register_pair tp s).1); [|by rewrite Hc0 in HB].
  eapply (backed_safe s); [done| |apply kept_safe_refl]. by intros d c' [H|([=] & _)]%register_owned.
Qed.

Lemma Toggle_backed token (w w' : W) tp : ToggleConversion token w = (w', Ok tp) -> backed w -> backed w'.
Proof.
  unfold ToggleConversion. intros H B. run H. apply GetTokenPairID_returns in Hc as [-> ->]. destruct a0 as [tp0|]; [|discriminate].
  apply GetTokenPair_returns in Hc0 as (-> & id & _ & Hp). run H. injection Hc as <- _.
  eapply (backed_safe w); [done| |apply kept_safe_refl]. intros d c (id' & tp' & H & Ho & Hd & Hc)%elem_of_owned. cbn in H.
  apply elem_of_owned. apply lookup_insert_Some in H as [[_ E]|[_ H]]; [|by exists id', tp'].
  injection E as <-. by exists id, tp0.
Qed.

Lemma flag_backed k (b : bool) (w : W) : (forall id, k <> pair_key id) -> backed w -> backed ((if b then set_store k VTrue else del_store k) w).1.
Proof.
  intros Hk B. eapply (backed_safe w); [done| |destruct b; apply kept_safe_refl].
  intros d c (id' & tp' & H & Ho)%elem_of_owned. apply elem_of_owned. exists id', tp'. split; [|done].
  destruct b; cbn in H; [by rewrite lookup_insert_ne in H|by rewrite lookup_delete_ne in H].
Qed.

Lemma SetParams_backed p (w : W) : backed w -> backed (SetParams p w).1.
Proof.
  intros B. unfold SetParams, bind. apply (flag_backed ParamStoreKeyEnableErc20 (EnableErc20 p)) in B; [|by intros ? [=]].
  change (backed (setERC20Enabled (EnableErc20 p) w).1) in B. destruct (setERC20Enabled _ w) as [w1 [u|e|]]; cbn in B; [|done..].
  apply flag_backed; [by intros ? [=]|done].
Qed.

Lemma for_all_backed {A} (f : A -> Act unit) l (w w' : W) u :
  (forall a w w' u, f a w = (w', Ok u) -> backed w -> backed w') -> for_all f l w = (w', Ok u) -> backed w -> backed w'.
Proof.
  intros Hf. revert w. induction l as [|a l IH]; intros w; cbn; [by intros [= <-]|]. intros H B. run H. eauto.
Qed.

Lemma backed_events (w w' : W) : store w' = store w -> ext w' = ext w -> backed w -> backed w'.
Proof. intros Hs He B. eapply backed_same_store; [done..|]. rewrite He. apply kept_safe_refl. Qed.

Lemma emit_backed e (w w' : W) u : EmitEvent (E := error) e w = (w', Ok u) -> backed w -> backed w'.
Proof. intros [= <- _]. by apply backed_events. Qed.

Lemma proposal_backed c (w w' : W) u : Erc20ProposalHandler c w = (w', Ok u) -> backed w -> backed w'.
Proof.
  unfold Erc20ProposalHandler, IsERC20Enabled, has_key. intros H. run H. destruct c as [mds|addrs|token|]; [..|discriminate].
  - intros B0. eapply for_all_backed; [|exact H|exact B0]. intros md w1 w2 v Hr B. run Hr. eauto using emit_backed, RegisterCoin_backed.
  - intros B0. eapply for_all_backed; [|exact H|exact B0]. intros a w1 w2 v Hr B. run Hr. eauto using emit_backed, RegisterERC20_backed.
  - intros B. run H. eauto using emit_backed, Toggle_backed.
Qed.

(** ** Packets and transfers *)

(** A conversion asked for by a packet: the account is also the receiver, so the module account is refused. *)
Lemma packet_convert_backed d n a (w w' : W) b : ConvertCoin (NewMsgConvertCoin (d, n) (BytesToAddress a) a) w = (w', Ok b) ->
  VerifyAddressFormat a = true -> IsHexAddress d = false -> registry_ok w -> backed w -> backed w'.
Proof.
  intros H Ha Hd R B. destruct (decide (a = ModuleAddress)) as [->|Hne].
  - unfold ConvertCoin, MustAccAddressFromBech32, NewMsgConvertCoin in H. cbn [mc_Sender mc_Receiver] in H.
    rewrite (AccString_roundtrip _ Ha), (BytesToAddress_20 ModuleAddress (module_address_length _)), (Hex_roundtrip ModuleAddress (module_address_length _)) in H.
    run H. apply MintingEnabled_returns in Hc as (_ & Hb & _). by rewrite module_is_blocked in Hb.
  - eapply ConvertCoin_backed; [exact H|..]; try done. cbn. rewrite AccString_roundtrip by done. congruence.
Qed.

Lemma packet_back_backed data (w w' : W) u : ConvertCoinToERC20FromPacket data w = (w', Ok u) ->
  IsHexAddress (IBCDenom (pd_Denom data)) = false -> registry_ok w -> backed w -> backed w'.
Proof.
  unfold ConvertCoinToERC20FromPacket, GetParams, IsERC20Enabled, GetEnableEVMHook, IsDenomRegistered, has_key. intros H Hh R B.
  destruct (AccAddressFromBech32 (pd_Sender data)) as [a|] eqn:Ha; [|discriminate]. run H.
  destruct (IsModuleAccount _); [by run H|]. destruct (GetSentCoin _ _) as [d n] eqn:Hg. injection Hg as <- <-.
  case_bool_decide; [by run H|]. run H. destruct (_ || _); [by run H|]. destruct (NewIntFromString _) as [n|] eqn:Hn; [|discriminate].
  run H. eapply packet_convert_backed; eauto using Bech32_format.
Qed.

Lemma sender_recipient_format packet (w w' : W) sr : GetTransferSenderRecipient packet w = (w', Ok sr) ->
  w' = w /\ VerifyAddressFormat sr.2 = true.
Proof.
  unfold GetTransferSenderRecipient, GetEvmosAddressFromBech32. destruct (pk_Data packet) as [data|]; [|discriminate]. intros H. run H.
  destruct (before _ (pd_Sender data)); [|discriminate]. destruct (GetFromBech32 (pd_Sender data) _); [|discriminate]. run Hc.
  destruct (before _ (pd_Receiver data)); [|discriminate]. destruct (GetFromBech32 (pd_Receiver data) _); [|discriminate]. by run Hc0.
Qed.

Definition received_denom (packet : Packet) (data : PacketData) : string :=
  GetReceivedDenom (pk_SourcePort packet) (pk_SourceChannel packet) (pk_DestinationPort packet) (pk_DestinationChannel packet) (pd_Denom data).

Lemma OnRecvPacket_backed packet (w w' : W) : OnRecvPacket packet w = (w', Ok AckOriginal) ->
  (forall data, pk_Data packet = Some data -> IsHexAddress (received_denom packet data) = false) ->
  registry_ok w -> backed w -> backed w'.
Proof.
  unfold OnRecvPacket, acknowledged. intros H Hh R B.
  match type of H with match ?c w with _ => _ end = _ => destruct (c w) as [w1 [u|e|]] eqn:E; [|discriminate..] end.
  injection H as <-. destruct (pk_Data packet) as [data|]; [|discriminate]. specialize (Hh data eq_refl).
  unfold IsERC20Enabled, has_key in E. run E. case_bool_decide; cbn [negb] in E; [|by run E]. run E.
  apply sender_recipient_format in Hc as [-> Hf]. destruct a as [sender recipient]; cbn in Hf. run E.
  destruct (_ && _); [by run E|]. destruct (IsModuleAccount _); [by run E|]. case_bool_decide; [by run E|]. run E.
  apply GetTokenPairID_returns in Hc as [-> ->]. destruct (no_id _); [by run E|]. run E.
  assert (s = w) as -> by (unfold GetTokenPair, lookup_store in Hc; destruct (id_of _); by run Hc).
  destruct (negb _); [by run E|]. run E. eapply packet_convert_backed; eauto.
Qed.

Lemma regular_transfer_backed msg (w w' : W) u : regular_transfer msg w = (w', Ok u) ->
  AccAddressFromBech32 (mt_Sender msg) <> Some ModuleAddress -> backed w -> backed w'.
Proof.
  unfold regular_transfer, on_ext. intros H Hs B. destruct (ics20_Transfer _ _) as [x' r] eqn:E.
  injection H as <- _. eapply backed_same_store; [done..|]. by eapply ics20_safe.
Qed.

Lemma Transfer_backed msg (w w' : W) u : Transfer msg w = (w', Ok u) ->
  AccAddressFromBech32 (mt_Sender msg) <> Some ModuleAddress -> mt_Amount msg < 2 ^ 256 -> backed w -> backed w'.
Proof.
  unfold Transfer, MustAccAddressFromBech32, IsERC20Enabled, has_key. intros H Hs Hn B. run H. apply GetTokenPairID_returns in Hc as [-> ->].
  destruct (no_id _); [by eapply regular_transfer_backed|]. run H.
  assert (s = w) as -> by (unfold GetTokenPair, lookup_store in Hc; destruct (id_of _); by run Hc).
  destruct a as [tp|]; [|by eapply regular_transfer_backed]. destruct (Enabled tp); cbn [negb] in H; [|by eapply regular_transfer_backed].
  run H. destruct (AccAddressFromBech32 (mt_Sender msg)) as [sender|] eqn:Ha; [|discriminate]. run Hc0. run H.
  case_bool_decide; cbn [negb] in H; [|eapply regular_transfer_backed; [exact H|by rewrite Ha|done]]. run H.
  cbn [with_denom mt_Amount] in H. pose proof (balance_nonneg (ext w) sender (Denom tp)). destruct (Z.leb_spec (mt_Amount msg) (GetBalance (ext w) sender (Denom tp))).
  - eapply regular_transfer_backed; [exact H|cbn; by rewrite Ha|done].
  - run H. eapply regular_transfer_backed; [exact H|cbn; by rewrite Ha|].
    eapply ConvertERC20_backed; [exact Hc0| |done]. cbn. unfold in_uint256. lia.
Qed.

End Backing.

(** * Runs of the module *)

(** What reaches the module: messages, the hook after an Ethereum transaction, proposals, packets, and
    everything else that happens on the chain. *)
Inductive op (X : Type) :=
| OpConvertCoin (msg : MsgConvertCoin)
| OpConvertERC20 (msg : MsgConvertERC20)
| OpUpdateParams (authority req_authority : string) (p : Params)
| OpProposal (c : content)
| OpPostTx (logs : list Log)
| OpRecvPacket (packet : Packet)
| OpAcknowledgement (data : PacketData) (is_error : bool)
| OpTimeout (data : PacketData)
| OpTransfer (msg : MsgTransfer)
| OpOther (f : X -> X).
Arguments OpConvertCoin {X}. Arguments OpConvertERC20 {X}. Arguments OpUpdateParams {X}. Arguments OpProposal {X}.
Arguments OpPostTx {X}. Arguments OpRecvPacket {X}. Arguments OpAcknowledgement {X}. Arguments OpTimeout {X}.
Arguments OpTransfer {X}. Arguments OpOther {X}.

Section Runs.
Context {X : Type} {BK : BankKeeper X} {AT : AddressText} {ABI : Erc20Abi} {EH : Erc20Host X} {EC : EthCommon} {IL : Ics20Lib} {IK : Ics20Keeper X}.

Abbreviation W := (world val event X).
Abbreviation Act := (M W error).

(** A message that fails is rolled back. *)
Definition atomically {A} (c : Act A) (w : W) : W := match c w with (w', Ok _) => w' | _ => w end.

(** So is a packet that is answered with an error. *)
Definition unless_error (c : Act ack) (w : W) : W := match c w with (w', Ok AckOriginal) => w' | _ => w end.

Definition exec (o : op X) (w : W) : W :=
  match o with
  | OpConvertCoin msg => atomically (ConvertCoin msg) w
  | OpConvertERC20 msg => atomically (ConvertERC20 msg) w
  | OpUpdateParams a r p => atomically (UpdateParams a r p) w
  | OpProposal c => atomically (Erc20ProposalHandler c) w
  | OpPostTx logs => atomically (PostTxProcessing logs) w
  | OpRecvPacket packet => unless_error (OnRecvPacket packet) w
  | OpAcknowledgement data e => atomically (OnAcknowledgementPacket data e) w
  | OpTimeout data => atomically (OnTimeoutPacket data) w
  | OpTransfer msg => atomically (Transfer msg) w
  | OpOther f => mkWorld (store w) (f (ext w)) (events w)
  end.
Definition exec_all (ops : list (op X)) (w : W) : W := fold_left (fun w o => exec o w) ops w.

Context {MT : ModuleTokens X}.

(** What messages satisfy when they reach the handlers: amounts are positive 256-bit numbers, the module
    account signs nothing, and no coin has an address for its denomination.  Nothing in the code rules the
    last out, see [address_denom_mints_unbacked]. *)
Definition op_ok (o : op X) : Prop :=
  match o with
  | OpConvertCoin msg => IsHexAddress (mc_Coin msg).1 = false /\ AccAddressFromBech32 (mc_Sender msg) <> Some ModuleAddress
  | OpConvertERC20 msg => in_uint256 (me_Amount msg)
  | OpRecvPacket packet => forall data, pk_Data packet = Some data -> IsHexAddress (received_denom packet data) = false
  | OpAcknowledgement data _ | OpTimeout data => IsHexAddress (IBCDenom (pd_Denom data)) = false
  | OpTransfer msg => AccAddressFromBech32 (mt_Sender msg) <> Some ModuleAddress /\ in_uint256 (mt_Amount msg)
  | OpOther f => forall x, kept_safe x (f x)
  | _ => True
  end.

End Runs.

Section Invariants.
Context `{EL : Erc20Laws X}.

Abbreviation W := (world val event X).

Lemma atomically_registry {A} (c : M W error A) (w : W) : keeps_registry c -> registry_ok w -> registry_ok (atomically c w).
Proof. intros H R. specialize (H w R). unfold atomically. by destruct (c w) as [w' []]. Qed.

Lemma exec_registry o (w : W) : registry_ok w -> registry_ok (exec o w).
Proof.
  intros R. destruct o; cbn [exec]; try done; try apply atomically_registry; try done.
  - apply ConvertCoin_registry. - apply ConvertERC20_registry.
  - apply keeps_registry_bind; [apply keeps_store_registry, keeps_store_guard|intros _; apply SetParams_registry].
  - apply proposal_registry. - apply keeps_store_registry, PostTxProcessing_store.
  - pose proof (OnRecvPacket_registry packet w R) as H. unfold unless_error. by destruct (OnRecvPacket packet w) as [w' [[]| |]].
  - unfold OnAcknowledgementPacket. destruct is_error; [apply packet_back_registry|apply keeps_store_registry, keeps_store_ret].
  - apply packet_back_registry. - apply Transfer_registry.
Qed.

Lemma atomically_backed {A} (c : M W error A) (w : W) : (forall w' a, c w = (w', Ok a) -> backed w') -> backed w -> backed (atomically c w).
Proof. intros H B. unfold atomically. destruct (c w) as [w' []]; eauto. Qed.

Lemma exec_backed o (w : W) : op_ok o -> registry_ok w -> backed w -> backed (exec o w).
Proof.
  intros Ho R B. destruct o; cbn [exec op_ok] in *; try (apply atomically_backed; [intros w' a H|done]).
  - destruct Ho as [Hh Hs]. by eapply ConvertCoin_backed.
  - by eapply ConvertERC20_backed.
  - unfold UpdateParams in H. run H. pose proof (SetParams_backed p w B) as HB. by rewrite H in HB.
  - by eapply proposal_backed.
  - pose proof (PostTxProcessing_backed logs w R B) as HB. by rewrite H in HB.
  - unfold unless_error. destruct (OnRecvPacket packet w) as [w' [[]| |]] eqn:E; try done. by eapply OnRecvPacket_backed.
  - unfold OnAcknowledgementPacket in H. destruct is_error; [by eapply packet_back_backed|by run H].
  - by eapply packet_back_backed.
  - destruct Ho as [Hs Hn]. eapply Transfer_backed; eauto. apply Hn.
  - eapply backed_same_store; [done..|]. apply Ho.
Qed.

Lemma exec_all_ok ops (w : W) : registry_ok w -> registry_ok (exec_all ops w) /\ (Forall op_ok ops -> backed w -> backed (exec_all ops w)).
Proof.
  revert w. induction ops as [|o ops IH]; intros w R; [done|]. cbn [exec_all fold_left].
  destruct (IH (exec o w) (exec_registry o w R)) as [R' HB]. split; [done|].
  intros [Ho Hops]%Forall_cons B. apply HB; [done|]. by apply exec_backed.
Qed.

Lemma genesis_ok V b gs x (w : W) u : GenesisState_Validate V gs = true -> InitGenesis b gs (mkWorld ∅ x []) = (w, Ok u) -> registry_ok w.
Proof.
  intros HV H. pose proof (genesis_registry V b gs HV (mkWorld ∅ x [])) as R. rewrite H in R. apply R. by intros k v Hk.
Qed.

(** C21: whatever the chain does after a valid genesis, the store of the module holds only pairs under their
    own id, index entries by denomination and by contract that lead to a pair with that denomination or
    contract, and the two flags: no entry is ever left dangling by a registration, a toggle or the
    removal of a pair whose contract is gone. *)
Theorem registry_well_typed V b gs x (w : W) u ops :
  GenesisState_Validate V gs = true -> InitGenesis b gs (mkWorld ∅ x []) = (w, Ok u) -> registry_ok (exec_all ops w).
Proof. intros HV H. by apply exec_all_ok, (genesis_ok V b gs x w u). Qed.

(** C2: if at genesis the coins of every denomination in the module account cover the tokens of the
    contracts the module owns for it, they do after every sequence of conversions, hooks, proposals,
    packets, transfers and other transactions, each of which is as [op_ok] says: amounts are positive
    256-bit numbers, no coin or packet has a denomination that reads as an address, the module account
    signs nothing, and other transactions neither take coins from the module account nor mint tokens
    of its contracts. *)
Theorem tokens_always_backed V b gs x (w : W) u ops :
  GenesisState_Validate V gs = true -> InitGenesis b gs (mkWorld ∅ x []) = (w, Ok u) -> backed w -> Forall op_ok ops -> backed (exec_all ops w).
Proof. intros HV H B Ho. by apply exec_all_ok; [eapply genesis_ok|..]. Qed.

End Invariants.

(** * There and back *)

(** What a contract the module owns answers: a view returns the balance, and a burn that is covered succeeds. *)
Class Erc20Answers (X : Type) `{BK : BankKeeper X, ABI : Erc20Abi, EH : !Erc20Host X, MT : !ModuleTokens X} := {
  token_balance_nonneg : forall x c a, 0 <= token_balance x c a;
  contract_has_code : forall x c, module_token x c = true -> GetAccountWithoutBalance x c = Some true;
  balanceOf_answers : forall x c a, module_token x c = true -> exists data nonce res,
    Pack (CallBalanceOf a) = Some data /\ GetSequence x ModuleAddress = Ok nonce /\
    (ApplyMessage x (mkMessage ModuleAddress (Some c) nonce DefaultGasCap data true) false).2 = Ok res /\
    res_VmError res = ""%string /\ UnpackBalance (res_Ret res) = Some (token_balance x c a);
  burn_succeeds : forall x c a n, module_token x c = true -> in_uint256 n -> n <= token_balance x c a -> n <= supply x c -> exists data nonce gas x' res,
    Pack (CallBurnCoins a n) = Some data /\ GetSequence x ModuleAddress = Ok nonce /\
    EstimateGasInternal x ModuleAddress (Some c) data = Ok gas /\
    ApplyMessage x (mkMessage ModuleAddress (Some c) nonce gas data false) true = (x', Ok res) /\ res_VmError res = ""%string
}.

Section RoundTrip.
Context `{EL : Erc20Laws X}.
Context {EA : Erc20Answers X}.

Abbreviation W := (world val event X).

Lemma balance_answers c a (w : W) : module_token (ext w) c = true -> balance_or_fail c a w = (w, Ok (token_balance (ext w) c a)).
Proof.
  intros Hc. destruct (balanceOf_answers (ext w) c a Hc) as (data & nonce & res & Hp & Hs & Ha & He & Hu).
  pose proof (dry_run (ext w) (mkMessage ModuleAddress (Some c) nonce DefaultGasCap data true)) as Hd.
  assert (H : CallEVM ModuleAddress c false (CallBalanceOf a) w = (w, Ok res)).
  { unfold CallEVM. rewrite Hp. unfold CallEVMWithData, bind, gets, of_result, on_ext, ret. rewrite Hs. cbn [negb].
    destruct (ApplyMessage _ _ _) as [x' r]. cbn in Ha, Hd. subst x' r. unfold guard. rewrite bool_decide_true by done. by destruct w. }
  unfold balance_or_fail, bind, BalanceOf. rewrite H, Hu. done.
Qed.

Lemma burn_answers c a n (w : W) : module_token (ext w) c = true -> in_uint256 n -> n <= token_balance (ext w) c a -> n <= supply (ext w) c ->
  exists x' res, CallEVM ModuleAddress c true (CallBurnCoins a n) w = (mkWorld (store w) x' (events w), Ok res) /\
    called (ext w) x' c (CallBurnCoins a n).
Proof.
  intros Hc Hn Hb Hsup. destruct (burn_succeeds (ext w) c a n Hc Hn Hb Hsup) as (data & nonce & gas & x' & res & Hp & Hs & Hg & Ha & He).
  exists x', res. split; [|by eapply module_call]. unfold CallEVM. rewrite Hp.
  unfold CallEVMWithData, bind, gets, of_result, on_ext, ret. rewrite Hs, Hg. cbn [negb]. rewrite Ha.
  unfold guard. by rewrite bool_decide_true.
Qed.

(** What a conversion of coins into tokens of a contract the module owns does. *)
Lemma ConvertCoin_effect d n receiver sender rt st tp (w w' : W) u :
  convertCoinNativeCoin tp (mkConvertCoin (d, n) rt st) receiver sender w = (w', Ok u) -> module_token (ext w) (GetERC20Contract tp) = true ->
  in_uint256 n /\ exists x1, sent (ext w) x1 sender ModuleAddress d n /\ same_tokens (ext w) x1 /\
    called x1 (ext w') (GetERC20Contract tp) (CallMint receiver n) /\ store w' = store w /\
    events w' = events w ++ [EvConvertCoin st rt n d (Erc20Address tp)].
Proof.
  intros H Hc. unfold convertCoinNativeCoin in H; cbn [mc_Coin fst snd mc_Sender mc_Receiver] in H. run H.
  apply balance_or_fail_same in Hc0 as ->. apply bank_op_returns in Hc1 as (Hb & Hs1 & He1).
  pose proof (account_to_module_tokens (ext w) sender ModuleName (d, n)) as Ht. rewrite Hb in Ht.
  pose proof (account_to_module_range _ _ _ _ _ _ Hb) as Hn. split; [done|].
  apply account_to_module_ok in Hb; [|apply Hn].
  apply owned_call in Hc2 as (Hcall & Hs2 & He2); [|by apply Ht|done].
  apply balance_or_fail_same in Hc3 as ->. injection H as <- _. exists (ext s0). cbn. rewrite He2, He1, Hs2. done.
Qed.

(** A denomination that reads as an address selects the pair of that contract. *)
Lemma MintingEnabled_contract sender receiver token (w w' : W) tp id : MintingEnabled sender receiver token w = (w', Ok tp) ->
  IsHexAddress token = true -> store w !! erc20_key (HexToAddress token) = Some (VId id) -> w' = w /\ store w !! pair_key id = Some (VPair tp).
Proof.
  unfold MintingEnabled, IsERC20Enabled, has_key. intros H Hh Hi. run H.
  apply GetTokenPairID_returns in Hc as [-> ->]. destruct a0 as [tp'|]; [|discriminate]. run H.
  apply GetTokenPair_returns in Hc0 as (-> & id' & Hid & Hp). rewrite Hh, Hi in Hid. cbn in Hid. split; congruence.
Qed.

Lemma issued_mint (w w' : W) d c n : store w' = store w -> (forall c', supply (ext w') c' = supply (ext w) c' + one c n c') ->
  issued w' d = issued w d + if decide (c ∈ owned w d) then n else 0.
Proof.
  intros Hs Hm. unfold issued. rewrite (owned_same w w' d Hs).
  assert (E : sumZ (supply (ext w')) (elements (owned w d)) = sumZ (fun c' => supply (ext w) c' + one c n c') (elements (owned w d))).
  { apply Z.le_antisymm; apply sumZ_le; intros c' _; rewrite Hm; lia. }
  rewrite E, sumZ_plus, sumZ_one by apply NoDup_elements. repeat case_decide; set_solver.
Qed.

(** What the conversion does to the module's coins and contracts. *)
Lemma address_denom_effect d n r s sender tp (w w' : W) : backed w -> IsHexAddress d = true ->
  store w !! erc20_key (HexToAddress d) = Some (VId (GetID tp)) -> store w !! pair_key (GetID tp) = Some (VPair tp) ->
  ContractOwner tp = OWNER_MODULE -> AccAddressFromBech32 s = Some sender -> sender <> ModuleAddress ->
  ConvertCoin (mkConvertCoin (d, n) r s) w = (w', Ok true) ->
  0 < n /\ store w' = store w /\ (forall d', GetBalance (ext w') ModuleAddress d' = GetBalance (ext w) ModuleAddress d' + one d n d') /\
  forall c, (module_token (ext w) c = true -> module_token (ext w') c = true) /\
    supply (ext w') c = supply (ext w) c + one (GetERC20Contract tp) n c /\
    token_balance (ext w') c (HexToAddress r) = token_balance (ext w) c (HexToAddress r) + one (GetERC20Contract tp) n c.
Proof.
  intros B Hh Hi Hp Ho Hs Hne H. unfold ConvertCoin, MustAccAddressFromBech32 in H. cbn [mc_Sender mc_Receiver mc_Coin fst] in H.
  rewrite Hs in H. run H. apply (MintingEnabled_contract _ _ _ _ _ _ (GetID tp)) in Hc as (-> & Hp'); [|done..].
  apply contract_alive_returns in Hc0. destruct a0; cbn [negb] in H; [|by run H]. subst.
  replace a with tp in * by congruence. unfold IsNativeCoin in H. rewrite bool_decide_true in H by done. run H. destruct a0.
  assert (Hin : GetERC20Contract tp ∈ owned w (Denom tp)) by (apply elem_of_owned; by exists (GetID tp), tp).
  apply ConvertCoin_effect in Hc as (Hn & x1 & [_ Hx] & Ht & (Hb & Hm) & Hst & _); [|by apply (proj1 B (Denom tp))].
  split; [apply Hn|]. split; [done|]. split.
  - intros d'. rewrite Hb, Hx. unfold one. repeat case_decide; try lia; naive_solver.
  - intros c. destruct (Hm c) as (M1 & M2 & M3), (Ht c) as (T1 & T2 & T3). rewrite M2, M3, T2, T3. unfold call_mints, call_credits, one.
    split; [auto|]. split; repeat case_decide; done || lia.
Qed.

(** C39: a coin whose denomination reads as the address of a contract the module owns is taken for the
    coin of that contract's pair. A conversion of [n] such coins mints [n] tokens of the contract and
    puts the coins it was given in escrow: the module's coins of the pair's own denomination stay as
    they are while [n] more tokens of it are issued, so that the tokens are no longer backed unless the
    module account held [n] coins of the pair in excess. *)
Theorem address_denom_mints_unbacked d n r s sender tp (w w' : W) :
  backed w -> IsHexAddress d = true -> store w !! erc20_key (HexToAddress d) = Some (VId (GetID tp)) ->
  store w !! pair_key (GetID tp) = Some (VPair tp) -> GetERC20Contract tp = HexToAddress d -> ContractOwner tp = OWNER_MODULE -> Denom tp <> d ->
  AccAddressFromBech32 s = Some sender -> sender <> ModuleAddress ->
  ConvertCoin (mkConvertCoin (d, n) r s) w = (w', Ok true) ->
  0 < n /\ token_balance (ext w') (HexToAddress d) (HexToAddress r) = token_balance (ext w) (HexToAddress d) (HexToAddress r) + n /\
  GetBalance (ext w') ModuleAddress d = GetBalance (ext w) ModuleAddress d + n /\
  GetBalance (ext w') ModuleAddress (Denom tp) = GetBalance (ext w) ModuleAddress (Denom tp) /\
  issued w' (Denom tp) = issued w (Denom tp) + n /\
  (backed w' <-> issued w (Denom tp) + n <= GetBalance (ext w) ModuleAddress (Denom tp)).
Proof.
  intros B Hh Hi Hp Hc Ho Hd Hs Hne H. pose proof B as (Bm & Bu & Bb).
  destruct (address_denom_effect d n r s sender tp w w' B Hh Hi Hp Ho Hs Hne H) as (Hn & Hst & Hbal & Htok).
  assert (Hin : GetERC20Contract tp ∈ owned w (Denom tp)) by (apply elem_of_owned; by exists (GetID tp), tp).
  assert (Hiss := fun d' => issued_mint w w' d' (GetERC20Contract tp) n Hst (fun c => proj1 (proj2 (Htok c)))).
  assert (Hbt : GetBalance (ext w') ModuleAddress (Denom tp) = GetBalance (ext w) ModuleAddress (Denom tp)).
  { rewrite Hbal. unfold one. rewrite decide_False by done. lia. }
  assert (Hit : issued w' (Denom tp) = issued w (Denom tp) + n) by (rewrite Hiss, decide_True; done).
  split_and!; try done; [rewrite (proj2 (proj2 (Htok (HexToAddress d))))|rewrite Hbal|]; [unfold one; rewrite decide_True by done; lia..|].
  rewrite <- Hit, <- Hbt. split; [intros (_ & _ & B'); apply B'|intros Hle]. split_and!.
  - intros d' c. rewrite (owned_same w w' d' Hst). intros Hin'. by apply Htok, (Bm d').
  - intros d1 d2 c. rewrite !(owned_same w w' _ Hst). apply Bu.
  - intros d'. destruct (decide (d' = Denom tp)) as [->|Hd']; [done|]. rewrite Hiss, Hbal, decide_False.
    + specialize (Bb d'). unfold one. case_decide; lia.
    + intros Hin'. apply Hd'. by apply (Bu _ _ (GetERC20Contract tp)).
Qed.

(** The way back succeeds when it is covered on both sides. *)
Lemma ConvertERC20_succeeds tp (msg : MsgConvertERC20) receiver sender (w : W) :
  module_token (ext w) (GetERC20Contract tp) = true -> in_uint256 (me_Amount msg) ->
  me_Amount msg <= token_balance (ext w) (GetERC20Contract tp) sender ->
  me_Amount msg <= supply (ext w) (GetERC20Contract tp) ->
  me_Amount msg <= GetBalance (ext w) ModuleAddress (Denom tp) -> BlockedAddr receiver = false -> receiver <> ModuleAddress ->
  exists w' x1, convertERC20NativeCoin tp msg receiver sender w = (w', Ok tt) /\ store w' = store w /\
    called (ext w) x1 (GetERC20Contract tp) (CallBurnCoins sender (me_Amount msg)) /\
    sent x1 (ext w') ModuleAddress receiver (Denom tp) (me_Amount msg) /\ same_tokens x1 (ext w').
Proof.
  intros Hc Hn Ht Hsup Hb Hr Hne. destruct (burn_answers _ _ _ w Hc Hn Ht Hsup) as (x1 & res & Hburn & Hcall).
  assert (Hc1 : module_token x1 (GetERC20Contract tp) = true) by (by apply Hcall).
  destruct (module_to_account_covered x1 ModuleName receiver (Denom tp) (me_Amount msg)) as [x2 Hsend];
    [apply Hn|change (GetModuleAddress ModuleName) with ModuleAddress; by rewrite (proj1 Hcall)|done|].
  pose proof (module_to_account_tokens x1 receiver ModuleName (Denom tp, me_Amount msg)) as Hs. rewrite Hsend in Hs. cbn in Hs.
  assert (Hc2 : module_token x2 (GetERC20Contract tp) = true) by (by apply Hs).
  pose proof (module_to_account_ok _ _ _ _ _ _ (proj1 Hn) Hsend) as Hsent.
  eexists (mkWorld (store w) x2 _), x1. split_and!; [|done..].
  unfold convertERC20NativeCoin, bind, gets. cbv beta iota zeta. rewrite (balance_answers _ _ _ Hc), Hburn.
  unfold bank_op, run_ext. cbn [ext store events]. rewrite Hsend.
  assert (Hg1 : GetBalance x2 receiver (Denom tp) =? GetBalance (ext w) receiver (Denom tp) + me_Amount msg = true).
  { apply Z.eqb_eq. rewrite (proj2 Hsent). change (GetModuleAddress ModuleName) with ModuleAddress.
    rewrite (proj1 Hcall), decide_False, decide_True by naive_solver. lia. }
  cbn [ext]. rewrite Hg1. unfold guard, ret at 1. rewrite balance_answers by done. cbn [ext].
  assert (Hg2 : token_balance x2 (GetERC20Contract tp) sender =? token_balance (ext w) (GetERC20Contract tp) sender - me_Amount msg = true).
  { apply Z.eqb_eq. destruct (Hs (GetERC20Contract tp)) as (_ & _ & ->). destruct (proj2 Hcall (GetERC20Contract tp)) as (_ & _ & ->).
    rewrite decide_True by done. cbn. unfold one. rewrite decide_True by done. lia. }
  by rewrite Hg2.
Qed.

Lemma MintingEnabled_passes sender receiver token (w : W) tp : is_Some (store w !! ParamStoreKeyEnableErc20) ->
  id_of (store w !! (if IsHexAddress token then erc20_key (HexToAddress token) else denom_key token)) = Some (GetID tp) ->
  no_id (Some (GetID tp)) = false -> store w !! pair_key (GetID tp) = Some (VPair tp) -> Enabled tp = true ->
  BlockedAddr receiver = false -> IsSendEnabledCoin (ext w) (Denom tp) = true ->
  MintingEnabled sender receiver token w = (w, Ok tp).
Proof.
  intros Hon Hid Hno Hp He Hb Hs. unfold MintingEnabled, IsERC20Enabled, has_key, bind, gets, guard.
  rewrite bool_decide_true by done. unfold ret at 1.
  assert (E : GetTokenPairID token w = (w, Ok (Some (GetID tp)))).
  { unfold GetTokenPairID, GetERC20Map, GetDenomMap, lookup_store, bind, gets, ret. destruct (IsHexAddress token); by rewrite Hid. }
  rewrite E, Hno. cbn [negb]. unfold GetTokenPair, lookup_store, bind, gets, ret. rewrite Hp, He, Hb. cbn [negb]. by rewrite Hs, orb_true_r.
Qed.

(** The conditions under which coins of [d] are converted for a contract the module owns. *)
Record owned_pair (w : W) (d : string) (tp : TokenPair) : Prop := {
  by_denom : store w !! denom_key d = Some (VId (GetID tp));
  by_contract : store w !! erc20_key (GetERC20Contract tp) = Some (VId (GetID tp));
  stored : store w !! pair_key (GetID tp) = Some (VPair tp);
  of_denom : Denom tp = d;
  of_module : ContractOwner tp = OWNER_MODULE;
  denom_text : IsHexAddress d = false;
  contract_text : IsHexAddress (Erc20Address tp) = true;
  deployed : module_token (ext w) (GetERC20Contract tp) = true
}.

Lemma ConvertCoin_inverts d n r s tp (w w1 : W) : owned_pair w d tp -> length r = 20%nat -> VerifyAddressFormat s = true ->
  ConvertCoin (mkConvertCoin (d, n) (Hex r) (AccString s)) w = (w1, Ok true) ->
  is_Some (store w !! ParamStoreKeyEnableErc20) /\ no_id (Some (GetID tp)) = false /\ Enabled tp = true /\
  convertCoinNativeCoin tp (mkConvertCoin (d, n) (Hex r) (AccString s)) r s w = (w1, Ok tt).
Proof.
  intros O Hr Hs H. unfold ConvertCoin, MustAccAddressFromBech32 in H. cbn [mc_Sender mc_Receiver mc_Coin fst] in H.
  rewrite (AccString_roundtrip _ Hs), (Hex_roundtrip _ Hr) in H. run H.
  unfold MintingEnabled, IsERC20Enabled, has_key in Hc. run Hc. apply GetTokenPairID_returns in Hc1 as [-> ->].
  rewrite (denom_text _ _ _ O), (by_denom _ _ _ O) in *. cbn [id_of] in *.
  unfold GetTokenPair, lookup_store in Hc2. run Hc2. rewrite (stored _ _ _ O) in Hc. run Hc.
  apply contract_alive_returns in Hc0. destruct a0; cbn [negb] in H; [|by run H]. subst.
  unfold IsNativeCoin in H. rewrite bool_decide_true in H by apply (of_module _ _ _ O). run H. destruct a.
  split_and!; try done; [by apply bool_decide_eq_true in Hg|by apply negb_true_iff].
Qed.

(** C10: coins converted to tokens of a contract the module owns can be converted back: the receiver's
    conversion back to the sender succeeds, and afterwards every balance of coins, every balance of
    tokens and every supply is what it was before. *)
Theorem convert_roundtrip d n r s tp (w w1 : W) :
  owned_pair w d tp -> length r = 20%nat -> VerifyAddressFormat s = true -> s <> ModuleAddress ->
  BlockedAddr s = false -> IsSendEnabledCoin (ext w1) d = true ->
  ConvertCoin (mkConvertCoin (d, n) (Hex r) (AccString s)) w = (w1, Ok true) ->
  exists w2, ConvertERC20 (mkConvertERC20 (Erc20Address tp) n (AccString s) (Hex r)) w1 = (w2, Ok true) /\
    store w2 = store w /\ (forall a d', GetBalance (ext w2) a d' = GetBalance (ext w) a d') /\
    forall c, supply (ext w2) c = supply (ext w) c /\ forall a, token_balance (ext w2) c a = token_balance (ext w) c a.
Proof.
  intros O Hr Hs Hne Hb Hse H. destruct (ConvertCoin_inverts _ _ _ _ _ _ _ O Hr Hs H) as (Hon & Hid & Hen & Hconv).
  apply ConvertCoin_effect in Hconv as (Hn & x1 & Hsent & Ht & Hcall & Hst & _); [|apply O].
  pose proof (of_denom _ _ _ O) as Hd. pose proof (deployed _ _ _ O) as Hdep. set (c := GetERC20Contract tp) in *.
  assert (Hc1 : module_token (ext w1) c = true) by (apply Hcall, Ht, Hdep).
  destruct (ConvertERC20_succeeds tp (mkConvertERC20 (Erc20Address tp) n (AccString s) (Hex r)) s r w1) as (w2 & x2 & Hback & Hst2 & Hburn & Hsent2 & Ht2); cbn [me_Amount] in *; try done.
  { destruct (proj2 Hcall c) as (_ & _ & ->). rewrite decide_True by done. destruct (Ht c) as (_ & _ & ->). cbn. unfold one.
    rewrite decide_True by done. pose proof (token_balance_nonneg (ext w) c r). lia. }
  { fold c. destruct (proj2 Hcall c) as (_ & -> & _). rewrite decide_True by done. cbn. pose proof (supply_nonneg x1 c). lia. }
  { rewrite (proj1 Hcall), (proj2 Hsent), Hd. rewrite decide_False, decide_True by naive_solver.
    pose proof (balance_nonneg (ext w) ModuleAddress d). lia. }
  exists w2. split.
  - unfold ConvertERC20, MustAccAddressFromBech32. cbn [me_Receiver me_Sender me_ContractAddress].
    rewrite (AccString_roundtrip _ Hs), (Hex_roundtrip _ Hr). unfold bind at 1, ret at 1.
    assert (HM : MintingEnabled r s (Erc20Address tp) w1 = (w1, Ok tp)).
    { apply MintingEnabled_passes; rewrite ?Hst, ?Hd; try done; [|apply O].
      rewrite (contract_text _ _ _ O). change (HexToAddress (Erc20Address tp)) with c. unfold c. by rewrite (by_contract _ _ _ O). }
    unfold bind at 1. rewrite HM. unfold bind at 1, contract_alive, bind at 1, gets. fold c. rewrite (contract_has_code _ _ Hc1). unfold ret at 1. cbn [negb].
    unfold IsNativeCoin. rewrite bool_decide_true by apply O. unfold bind. by rewrite Hback.
  - split; [congruence|]. split.
    + intros a d'. rewrite (proj2 Hsent2), (proj1 Hburn), (proj1 Hcall), (proj2 Hsent), Hd. repeat case_decide; naive_solver lia.
    + intros c'. destruct (Ht2 c') as (_ & -> & Hb2). destruct (proj2 Hburn c') as (_ & -> & Hb1).
      destruct (proj2 Hcall c') as (_ & -> & Hb0). destruct (Ht c') as (_ & -> & Hb'). split; [cbn; unfold c; repeat case_decide; lia|].
      intros a. rewrite Hb2, Hb1, Hb0, Hb'. cbn. unfold one, c. repeat case_decide; lia.
Qed.

End RoundTrip.
