(* ===== verification/Erc20Cases.v ===== *)
(** [x/erc20] on a concrete chain: a bank, contracts with balances and a supply, and texts of addresses,
    for which the laws hold; instances of the theorems; and runs that show what the code does at its edges. *)

From stdpp Require Import base list gmap strings sorting.
From Stdlib Require Import ZArith Lia Ascii.
From S2P Require Import Prelude KVStore Ledger Erc20 Erc20Props Erc20Backing.
Open Scope Z_scope.
Open Scope go_scope.

(** * A chain *)

Module RefErc20.

Record chain := mkChain { coins : gmap (bytes * string) N; held : gmap (bytes * bytes) N; total : gmap bytes N; seq : Z; meta : gmap string Metadata }.

Definition balance (x : chain) (a : bytes) (d : string) : Z := Z.of_N (default 0%N (coins x !! (a, d))).
Definition set_balance (a : bytes) (d : string) (n : Z) (x : chain) : chain :=
  mkChain (<[(a, d) := Z.to_N n]> (coins x)) (held x) (total x) (seq x) (meta x).
Definition move (x : chain) (src dst : bytes) (d : string) (n : Z) : chain :=
  let x1 := set_balance src d (balance x src d - n) x in set_balance dst d (balance x1 dst d + n) x1.

Definition token (x : chain) (c a : bytes) : Z := Z.of_N (default 0%N (held x !! (c, a))).
Definition issue (x : chain) (c : bytes) : Z := Z.of_N (default 0%N (total x !! c)).
Definition set_token (c a : bytes) (n : Z) (x : chain) : chain :=
  mkChain (coins x) (<[(c, a) := Z.to_N n]> (held x)) (total x) (seq x) (meta x).
Definition set_issue (c : bytes) (n : Z) (x : chain) : chain :=
  mkChain (coins x) (held x) (<[c := Z.to_N n]> (total x)) (seq x) (meta x).

Definition module_address : bytes := RefBank.module_address ModuleName.
Definition blocked (a : bytes) : bool := bool_decide (a = module_address).

#[global] Instance keeper : BankKeeper chain := {|
  GetModuleAddress := RefBank.module_address;
  GetBalance := balance;
  BlockedAddr := blocked;
  SendCoinsFromAccountToModule x a m c :=
    if (0 <? c.2) && (c.2 <? 2 ^ 256) && (c.2 <=? balance x a c.1) then (move x a (RefBank.module_address m) c.1 c.2, None) else (x, Some 5);
  SendCoinsFromModuleToAccount x m a c :=
    if blocked a then (x, Some 4)
    else if (0 <? c.2) && (c.2 <=? balance x (RefBank.module_address m) c.1) then (move x (RefBank.module_address m) a c.1 c.2, None) else (x, Some 5)
|}.

(** ** Texts *)

Fixpoint bits (p : positive) : string := match p with xI p => String "b" (bits p) | xO p => String "a" (bits p) | xH => "" end.
Fixpoint from_bits (s : string) : positive :=
  match s with EmptyString => xH | String c s => if bool_decide (c = "b"%char) then xI (from_bits s) else xO (from_bits s) end.
Definition text (prefix : string) (a : bytes) : string := prefix ++ bits (encode a).
Definition plain (c : ascii) : bool := negb (bool_decide (c = "|"%char)).
Fixpoint strip (prefix s : string) : option string :=
  match prefix, s with
  | EmptyString, _ => Some s
  | String c p, String c' s => if bool_decide (c = c') then strip p s else None
  | _, EmptyString => None
  end.
Definition from_text (prefix s : string) : option bytes := t ← strip prefix s; decode (from_bits t).

(** As in the library, the digits of an address may come without [0x]. *)
Definition digits (s : string) : string := default s (strip "0x" s).
Definition is_digit (c : ascii) : bool := bool_decide (c = "a"%char) || bool_decide (c = "b"%char).
Definition is_hex (s : string) : bool := negb (bool_decide (s = ""%string)) && forallb is_digit (String.list_ascii_of_string (digits s)).

#[global] Instance address_text : AddressText := {|
  IsHexAddress := is_hex;
  HexToAddress s := default [] (from_text "" (digits s));
  Hex := text "0x";
  AccAddressFromBech32 := from_text "pax1";
  GetFromBech32 s prefix := from_text (prefix ++ "1") s;
  VerifyAddressFormat a := true;
  AccString := text "pax1";
  tmhash_Sum b := b
|}.

(** ** The contract *)

Definition encode_call (k : call) : bytes :=
  match k with
  | CallName => [0] | CallSymbol => [1] | CallDecimals => [2]
  | CallBalanceOf a => 3 :: a
  | CallMint a n => 4 :: n :: a
  | CallBurnCoins a n => 5 :: n :: a
  | CallBurn n => [6; n]
  | CallTransfer a n => 7 :: n :: a
  end.

Definition done_call (ret : bytes) : result Z Response := Ok (mkResponse ret "" []).
Definition reverted : result Z Response := Ok (mkResponse [] "revert" []).

(** The state after the contract [c] ran a call of its owner, if it does not revert. *)
Definition run_call (x : chain) (c : bytes) (data : bytes) : option chain :=
  match data with
  | 4 :: n :: a => if 0 <? n then Some (set_issue c (issue x c + n) (set_token c a (token x c a + n) x)) else None
  | 5 :: n :: a => if (0 <? n) && (n <=? token x c a) && (n <=? issue x c) then Some (set_issue c (issue x c - n) (set_token c a (token x c a - n) x)) else None
  | [6; n] => if (0 <? n) && (n <=? token x c module_address) && (n <=? issue x c)
              then Some (set_issue c (issue x c - n) (set_token c module_address (token x c module_address - n) x)) else None
  | 7 :: n :: a =>
    if (0 <? n) && (n <=? token x c module_address)
    then let x1 := set_token c module_address (token x c module_address - n) x in Some (set_token c a (token x1 c a + n) x1) else None
  | _ => Some x
  end.

Definition is_token (x : chain) (c : bytes) : bool := bool_decide (is_Some (total x !! c)).
Definition create_address (a : bytes) (n : Z) : bytes := replicate 19 1 ++ [n].

Definition view (x : chain) (m : message) : result Z Response :=
  match msg_to m, msg_data m with
  | Some c, 3 :: a => done_call [token x c a]
  | _, _ => done_call []
  end.

Definition apply_message (x : chain) (m : message) (commit : bool) : chain * result Z Response :=
  if negb commit then (x, view x m)
  else if negb (bool_decide (msg_from m = module_address)) then (x, done_call [1])
  else match msg_to m with
  | None =>
    let c := create_address module_address (msg_nonce m) in
    if is_token x c then (x, reverted) else (mkChain (coins x) (held x) (<[c := 0%N]> (total x)) (seq x + 1) (meta x), done_call [])
  | Some c =>
    if is_token x c then match run_call x c (msg_data m) with Some x' => (x', done_call [1]) | None => (x, reverted) end
    else (x, done_call [1])
  end.

#[global] Instance abi : Erc20Abi := {|
  Pack k := Some (encode_call k);
  PackConstructor _ _ _ := Some [];
  Bin := [0];
  UnpackString _ := Some "name"%string;
  UnpackUint8 _ := Some 6;
  UnpackBool b := Some (bool_decide (b = [1]));
  UnpackBalance b := head b;
  EventByID b := if bool_decide (b = [77]) then Some "Transfer"%string else None;
  UnpackTransfer b := match b with [n] => if n <? 2 ^ 256 then Some (Some n) else None | _ => None end;
  ApprovalSigHash := "approval"
|}.

#[global] Instance host : Erc20Host chain := {|
  MintCoins x m c := if 0 <? c.2 then (set_balance module_address c.1 (balance x module_address c.1 + c.2) x, None) else (x, Some 6);
  BurnCoins x m c :=
    if (0 <? c.2) && (c.2 <=? balance x module_address c.1) then (set_balance module_address c.1 (balance x module_address c.1 - c.2) x, None) else (x, Some 6);
  IsSendEnabledCoin _ _ := true;
  HasSupply x d := true;
  GetDenomMetaData x d := meta x !! d;
  SetDenomMetaData x md := mkChain (coins x) (held x) (total x) (seq x) (<[md_Base md := md]> (meta x));
  Metadata_Validate _ := true;
  GetSequence x _ := Ok (seq x);
  GetAccountKind _ _ := Some AccOther;
  BondDenom _ := "ahpx"%string;
  EVMChannels _ := [];
  GetAccountWithoutBalance x c := if is_token x c then Some true else if bool_decide (c = [99]) then None else Some true;
  EstimateGasInternal _ _ _ _ := Ok 100000;
  ApplyMessage := apply_message;
  CreateAddress := create_address;
  IsAvailablePrecompile _ _ := false;
  EvmDenom _ := "ahpx"%string;
  NewPrecompile _ _ _ := None;
  DeleteAccount x c := (mkChain (coins x) (held x) (delete c (total x)) (seq x) (meta x), None);
  AddEVMExtensions x _ := (x, None)
|}.

#[global] Instance ics20_lib : Ics20Lib := {|
  ReceiverChainIsSource _ _ _ := false;
  GetDenomPrefix p c := (p ++ "/" ++ c ++ "/")%string;
  TracePath _ := "";
  IBCDenom d := ("ibc/" ++ d)%string;
  ParseHexHash s := None;
  NewIntFromString s := if bool_decide (s = "5"%string) then Some 5 else None
|}.
#[global] Instance ics20_keeper : Ics20Keeper chain := {| ics20_Transfer x m := (x, Ok tt) |}.
#[global] Instance module_tokens : ModuleTokens chain := {| module_token := is_token; supply := issue; token_balance := token |}.
(** ** The laws hold *)

Lemma balance_set a d n x a' d' : 0 <= n -> balance (set_balance a d n x) a' d' = if decide (a' = a /\ d' = d) then n else balance x a' d'.
Proof.
  intros Hn. unfold balance, set_balance. cbn [coins]. case_decide as E.
  - destruct E as [-> ->]. rewrite lookup_insert_eq. cbn. lia.
  - rewrite lookup_insert_ne; [done|]. naive_solver.
Qed.

Lemma balance_move x src dst d n a d' : 0 <= n <= balance x src d ->
  balance (move x src dst d n) a d' = balance x a d' - (if decide (a = src /\ d' = d) then n else 0) + (if decide (a = dst /\ d' = d) then n else 0).
Proof.
  intros Hn. unfold move. assert (0 <= balance (set_balance src d (balance x src d - n) x) dst d) by (unfold balance; lia).
  rewrite balance_set by lia. rewrite !balance_set by lia. repeat case_decide; naive_solver lia.
Qed.

Lemma move_tokens x src dst d n : same_tokens x (move x src dst d n).
Proof. done. Qed.

#[global] Instance bank_laws : BankLaws chain.
Proof.
  constructor; cbn [GetModuleAddress GetBalance BlockedAddr SendCoinsFromAccountToModule SendCoinsFromModuleToAccount keeper fst snd].
  - exact RefBank.length_module_address.
  - intros x a m d n x' Hn. destruct (_ && _) eqn:E; intros [=]; subst. reflect_bools. split; [done|]. intros. apply balance_move. lia.
  - intros x a m c x' e. destruct (_ && _); by intros [=].
  - intros x m a d n x' Hn. destruct (blocked a); [by intros [=]|]. destruct (_ && _) eqn:E; intros [=]; subst. reflect_bools.
    split; [done|]. intros. apply balance_move. lia.
  - intros x m a c x' e. destruct (blocked a); [by intros [=]|]. destruct (_ && _); by intros [=].
  - intros x m a d n Hn Hb ->. eexists. by rewrite (proj2 (Z.ltb_lt _ _) Hn), (proj2 (Z.leb_le _ _) Hb).
  - intros x m a c ->. by eexists.
Qed.

Lemma bits_roundtrip p : from_bits (bits p) = p.
Proof. induction p as [p IH|p IH|]; cbn; [| |done]; by rewrite IH. Qed.

Lemma strip_app p t : strip p (p ++ t)%string = Some t.
Proof.
  induction p as [|c p IH]; [done|]. change (strip (String c p) (String c p ++ t)%string) with (if bool_decide (c = c) then strip p (p ++ t)%string else None).
  by rewrite bool_decide_true.
Qed.

Lemma from_text_text p a : from_text p (text p a) = Some a.
Proof. unfold from_text, text. rewrite strip_app. cbn. by rewrite bits_roundtrip, decode_encode. Qed.

Lemma bits_digits p : forallb is_digit (String.list_ascii_of_string (bits p)) = true.
Proof. induction p as [p IH|p IH|]; cbn; [done..|done]. Qed.

Lemma digits_text a : digits (text "0x" a) = bits (encode a).
Proof. unfold digits, text. by rewrite strip_app. Qed.

Lemma hex_text a : is_hex (text "0x" a) = true.
Proof. unfold is_hex. rewrite digits_text, bits_digits. done. Qed.

Lemma hex_roundtrip a : default [] (from_text "" (digits (text "0x" a))) = a.
Proof. rewrite digits_text. change (bits (encode a)) with (text "" a). by rewrite from_text_text. Qed.

Lemma strip_Some p s t : strip p s = Some t -> s = (p ++ t)%string.
Proof.
  revert s. induction p as [|c p IH]; intros s; [by intros [= ->]|]. destruct s as [|c' s]; [done|]. cbn. case_bool_decide; [|done].
  intros ->%IH. by subst.
Qed.

Lemma digits_plain s : forallb is_digit (String.list_ascii_of_string s) = true -> forallb plain (String.list_ascii_of_string s) = true.
Proof.
  induction s as [|c s IH]; [done|]. cbn. intros [Hc Hs]%andb_true_iff. rewrite (IH Hs), andb_true_r.
  unfold is_digit in Hc. unfold plain. apply negb_true_iff, bool_decide_eq_false. intros ->. by vm_compute in Hc.
Qed.

Lemma hex_plain s : is_hex s = true -> forallb plain (String.list_ascii_of_string s) = true.
Proof.
  intros [_ H%digits_plain]%andb_true_iff. unfold digits in H. destruct (strip "0x" s) as [t|] eqn:E; cbn in H; [|done].
  by rewrite (strip_Some _ _ _ E).
Qed.

(** The bar ends the address in the text a pair's id is made of. *)
Lemma bar_splits (a a' d d' : string) : forallb plain (String.list_ascii_of_string a) = true -> forallb plain (String.list_ascii_of_string a') = true ->
  (a ++ "|" ++ d = a' ++ "|" ++ d')%string -> a = a' /\ d = d'.
Proof.
  revert a'. induction a as [|c a IH]; intros [|c' a']; cbn; intros Ha Ha' H.
  - by injection H.
  - injection H as <- H. by rewrite andb_false_l in Ha'.
  - injection H as -> H. by rewrite andb_false_l in Ha.
  - injection H as <- H. reflect_bools. destruct (IH a') as [-> ->]; done.
Qed.

Lemma token_set c a n x c' a' : 0 <= n -> token (set_token c a n x) c' a' = if decide (c' = c /\ a' = a) then n else token x c' a'.
Proof.
  intros Hn. unfold token, set_token. cbn [held]. case_decide as E.
  - destruct E as [-> ->]. rewrite lookup_insert_eq. cbn. lia.
  - rewrite lookup_insert_ne; [done|]. naive_solver.
Qed.

Lemma issue_set c n x c' : 0 <= n -> issue (set_issue c n x) c' = if decide (c' = c) then n else issue x c'.
Proof.
  intros Hn. unfold issue, set_issue. cbn [total]. case_decide as E; [subst; rewrite lookup_insert_eq; cbn; lia|by rewrite lookup_insert_ne].
Qed.

Lemma is_token_set c n x c' : is_token x c' = true -> is_token (set_issue c n x) c' = true.
Proof.
  unfold is_token, set_issue. cbn [total]. intros H%bool_decide_eq_true. apply bool_decide_eq_true.
  rewrite lookup_insert_is_Some. destruct (decide (c = c')); eauto.
Qed.

(** A change of one account's tokens together with the supply. *)
Lemma called_one x c k a n : 0 <= token x c a + n -> 0 <= issue x c + n ->
  call_mints k = n -> (forall a', call_credits module_address k a' = one a n a') ->
  called x (set_issue c (issue x c + n) (set_token c a (token x c a + n) x)) c k.
Proof.
  intros H1 H2 Hm Hc. split; [done|]. intros c'. split; [intros H; apply is_token_set; exact H|]. split.
  - cbn. rewrite issue_set by done. rewrite Hm. case_decide; [subst; lia|]. unfold issue, set_token; cbn. lia.
  - intros a'. cbn [token_balance module_tokens]. change (token (set_issue ?c ?n ?x)) with (token x). rewrite token_set by done.
    change ModuleAddress with module_address. rewrite Hc. unfold one. repeat case_decide; naive_solver lia.
Qed.
Lemma called_nothing x c k : call_mints k = 0 -> (forall a, call_credits module_address k a = 0) -> called x x c k.
Proof.
  intros Hm Hc. split; [done|]. intros c'. split; [done|]. change ModuleAddress with module_address. rewrite Hm.
  split; [by case_decide; lia|]. intros a. rewrite Hc. case_decide; lia.
Qed.

Lemma called_transfer x c a n : 0 < n -> n <= token x c module_address ->
  let x1 := set_token c module_address (token x c module_address - n) x in
  called x (set_token c a (token x1 c a + n) x1) c (CallTransfer a n).
Proof.
  intros Hn Hb x1. split; [done|]. intros c'. split; [done|]. split; [cbn; change (issue (set_token c a (token x1 c a + n) x1) c') with (issue x c'); case_decide; lia|].
  intros a'. assert (0 <= token x1 c a) by (unfold token; lia). cbn [token_balance module_tokens call_credits]. rewrite token_set by lia.
  unfold x1. rewrite !token_set by lia. change ModuleAddress with module_address. unfold one. repeat case_decide; naive_solver lia.
Qed.

Lemma run_call_called x c k x' : call_in_range k -> run_call x c (encode_call k) = Some x' -> called x x' c k.
Proof.
  assert (0 <= issue x c) by (unfold issue; lia). intros Hk H0. destruct k; cbn [encode_call run_call call_in_range] in *; unfold in_uint256 in Hk.
  - injection H0 as <-. by apply called_nothing.
  - injection H0 as <-. by apply called_nothing.
  - injection H0 as <-. by apply called_nothing.
  - injection H0 as <-. by apply called_nothing.
  - assert (0 <= token x c to) by (unfold token; lia). rewrite (proj2 (Z.ltb_lt _ _) (proj1 Hk)) in H0. injection H0 as <-. by apply called_one; try lia.
  - destruct (_ && _) eqn:E; [|done]. reflect_bools. injection H0 as <-. rewrite <- !Z.add_opp_r. by apply called_one; try lia.
  - destruct (_ && _) eqn:E; [|done]. reflect_bools. injection H0 as <-. rewrite <- !Z.add_opp_r. by apply called_one; try lia.
  - destruct (_ && _) eqn:E; [|done]. reflect_bools. injection H0 as <-. by apply called_transfer.
Qed.

Lemma safe_refl x : kept_safe x x.
Proof. split; [intros; lia|]. intros; split; [done|lia]. Qed.

Lemma deploy_effect x c : is_token x c = false ->
  let x' := mkChain (coins x) (held x) (<[c := 0%N]> (total x)) (seq x + 1) (meta x) in
  is_token x' c = true /\ issue x' c = 0 /\ kept_safe x x'.
Proof.
  unfold is_token, issue. intros H%bool_decide_eq_false. cbn [total]. rewrite lookup_insert_eq. split; [done|]. split; [done|].
  split; [intros d; change (balance x module_address d + 0 <= balance x module_address d); lia|].
  intros c' Hc'%bool_decide_eq_true. assert (c' <> c) by (by intros ->). cbn. unfold is_token, issue. cbn [total].
  rewrite lookup_insert_ne by done. split; [by apply bool_decide_eq_true|lia].
Qed.

Lemma credited_set x d n : 0 <= balance x module_address d + n -> credited x (set_balance module_address d (balance x module_address d + n) x) d n.
Proof. intros H a d'. cbn [GetBalance keeper]. rewrite balance_set by done. change ModuleAddress with module_address. repeat case_decide; naive_solver lia. Qed.

Lemma apply_other x m x' r : apply_message x m true = (x', r) ->
  msg_from m <> module_address \/ (exists c, msg_to m = Some c /\ is_token x c = false) \/ (forall res, r = Ok res -> res_VmError res <> ""%string) -> x' = x.
Proof.
  unfold apply_message. cbn [negb]. case_bool_decide as Hf; cbn [negb]; [|by intros [= <- _]].
  destruct (msg_to m) as [c|].
  - destruct (is_token x c) eqn:Ht; [|by intros [= <- _]]. destruct (run_call _ _ _); [|by intros [= <- _]].
    intros [= <- <-] [H|[(c' & Hc & H)|H]]; [done|congruence|]. by destruct (H _ eq_refl).
  - destruct (is_token _ _); [by intros [= <- _]|]. intros [= <- <-] [H|[(c' & Hc & _)|H]]; [done..|]. by destruct (H _ eq_refl).
Qed.

#[global] Instance laws : Erc20Laws chain.
Proof.
  constructor.
  - intros a _. apply hex_roundtrip.
  - exact hex_text.
  - intros a _. apply from_text_text.
  - done.
  - done.
  - intros tp tp' Hx%hex_plain Hx'%hex_plain H. apply str_bytes_inj in H. by apply bar_splits.
  - intros. cbn. unfold balance. lia.
  - intros b n. cbn. destruct b as [|m [|]]; try done. destruct (Z.ltb_spec m (2 ^ 256)); [|done]. by intros [= <-].
  - cbn. by apply bool_decide_eq_true.
  - intros x a m d n x'. cbn [SendCoinsFromAccountToModule keeper fst snd]. destruct (_ && _) eqn:E; [|done]. reflect_bools. by unfold in_uint256.
  - intros x a m c. cbn [SendCoinsFromAccountToModule keeper]. by destruct (_ && _).
  - intros x a m c. cbn [SendCoinsFromModuleToAccount keeper]. destruct (blocked a); [done|]. by destruct (_ && _).
  - intros x d n x' Hn. cbn [MintCoins host fst snd]. rewrite (proj2 (Z.ltb_lt _ _) Hn). intros [= <-]. split; [|done]. apply credited_set. unfold balance. lia.
  - intros x c x' e. cbn [MintCoins host]. destruct (_ <? _); [done|]. by intros [= <- _].
  - intros x d n x' Hn. cbn [BurnCoins host fst snd]. destruct (_ && _) eqn:E; [|done]. reflect_bools. intros [= <-]. rewrite <- Z.add_opp_r. split; [|done].
    apply credited_set. lia.
  - intros x md. split; [intros d; change (balance x module_address d + 0 <= balance x module_address d); lia|].
    intros c Hc. split; [exact Hc|]. change (issue x c <= issue x c + 0). lia.
  - intros x c. cbn. unfold issue. lia.
  - done.
  - intros x c k data nonce gas x' r Hc Hk [= <-]. cbn [ApplyMessage host]. unfold apply_message. cbn [negb msg_from msg_to msg_data].
    rewrite bool_decide_true by done. cbn in Hc. rewrite Hc. cbn [negb]. destruct (run_call _ _ _) as [x1|] eqn:E; intros [= <- <-] He; [|done].
    by apply run_call_called.
  - intros x name symbol decimals args gas nonce x' r _ _. cbn [ApplyMessage host]. unfold apply_message. cbn [negb msg_from msg_to msg_nonce].
    rewrite bool_decide_true by done. cbn [negb]. destruct (is_token _ _) eqn:E; intros [= <- <-] He; [done|]. split; [done|].
    by apply deploy_effect.
  - intros x m x' r H Ho. apply apply_other in H as ->; [apply safe_refl|exact Ho].
  - intros x msg x' r [= <- _] _. apply safe_refl.
Qed.

#[global] Instance answers : Erc20Answers chain.
Proof.
  constructor.
  - intros. cbn. unfold token. lia.
  - intros x c Hc. cbn in *. by rewrite Hc.
  - intros x c a Hc. eexists _, _, _. split_and!; [done..|reflexivity|done|done].
  - intros x c a n Hc Hn Hb Hs. cbn in Hc, Hb, Hs. exists (5 :: n :: a), (seq x), 100000. eexists _, _. split_and!; [done..| |].
    + cbn [ApplyMessage host]. unfold apply_message. cbn [negb msg_from msg_to msg_data]. rewrite bool_decide_true by done. rewrite Hc. cbn [negb run_call].
      rewrite (proj2 (Z.ltb_lt _ _) (proj1 Hn)), (proj2 (Z.leb_le _ _) Hb), (proj2 (Z.leb_le _ _) Hs). reflexivity.
    + done.
Qed.

End RefErc20.

(** * Runs *)

Import RefErc20.

Abbreviation W := (world val event chain).

Definition alice : bytes := replicate 20 2.
Definition bob : bytes := replicate 20 3.
Definition contract0 : bytes := create_address module_address 0.
(** A denomination: the digits of the contract without [0x]. *)
Definition contract0_digits : string := text "" contract0.
Definition atom : TokenPair := mkPair (Hex contract0) "atom" true OWNER_MODULE.
Definition gs : GenesisState := mkGenesis (mkParams true true) [atom].
Definition x0 : chain :=
  mkChain (list_to_map [((alice, "atom"%string), 100%N); ((module_address, "atom"%string), 50%N); ((bob, contract0_digits), 40%N)])
    (list_to_map [((contract0, bob), 30%N)]) {[contract0 := 30%N]} 1 ∅.
Definition w0 : W := (InitGenesis true gs (mkWorld ∅ x0 [])).1.

Definition osmo : Metadata := mkMetadata "" [mkUnit "osmo" 6 []] "osmo" "osmo" "Osmosis" "OSMO".
Definition to_tokens (n : Z) : MsgConvertCoin := mkConvertCoin ("atom"%string, n) (Hex bob) (AccString alice).
Definition to_coins (n : Z) : MsgConvertERC20 := mkConvertERC20 (Hex contract0) n (AccString alice) (Hex bob).
(** A transfer of [n] tokens of the contract to the module account, as the EVM logs it. *)
Definition token_transfer (n : Z) : Log := mkLog contract0 [[77]; alice; module_address] [n].

Definition day : list (op chain) :=
  [OpConvertCoin (to_tokens 20); OpConvertERC20 (to_coins 10); OpOther (set_token contract0 module_address 5);
   OpPostTx [token_transfer 5]; OpProposal (RegisterCoinProposal [osmo]); OpProposal (ToggleTokenConversionProposal "atom");
   OpConvertCoin (to_tokens 1)].

Definition the_pair (v : val) : bool := match v with VPair tp => bool_decide (tp = atom) | _ => true end.

Lemma only_pair id tp : store w0 !! pair_key id = Some (VPair tp) -> tp = atom.
Proof.
  assert (H : map_Forall (fun _ v => the_pair v = true) (store w0)) by (apply (bool_decide_unpack _); by vm_compute).
  intros Hp. specialize (H _ _ Hp). by apply bool_decide_eq_true in H.
Qed.

Lemma start_backed : backed w0.
Proof.
  assert (Ho : forall d c, c ∈ owned w0 d -> d = "atom"%string /\ c = contract0).
  { intros d c (id & tp & H%only_pair & _ & Hd & Hc)%elem_of_owned. subst tp. split; [done|]. rewrite <- Hc. apply (Hex_roundtrip contract0). done. }
  split_and!.
  - intros d c [_ ->]%Ho. by vm_compute.
  - intros d d' c [-> _]%Ho [-> _]%Ho. done.
  - intros d. destruct (decide (d = "atom"%string)) as [->|Hd].
    + unfold issued. trans (sumZ (supply (ext w0)) (elements ({[contract0]} : gset bytes))).
      * apply sumZ_subset; [apply supply_nonneg|]. intros c [_ ->]%Ho. set_solver.
      * rewrite elements_singleton. by vm_compute.
    + unfold issued. replace (owned w0 d) with (∅ : gset bytes); [rewrite elements_empty; apply balance_nonneg|].
      symmetry. apply set_eq. intros c. split; [|set_solver]. by intros [-> _]%Ho.
Qed.

(** The day does what it says: tokens are issued and taken back, a pair is added. *)
Example day_runs :
  (supply (ext (exec_all day w0)) contract0, GetBalance (ext (exec_all day w0)) module_address "atom", GetBalance (ext (exec_all day w0)) alice "atom",
   length (IterateTokenPairs (exec_all day w0)), length (events (exec_all day w0))) = (35, 55, 95, 2%nat, 4%nat).
Proof. vm_compute. reflexivity. Qed.

Lemma genesis_runs : InitGenesis true gs (mkWorld ∅ x0 []) = (w0, Ok tt).
Proof. reflexivity. Qed.

Lemma day_ok : Forall op_ok day.
Proof.
  assert (H5 : forall x : chain, kept_safe x (set_token contract0 module_address 5 x)).
  { intros x. split; [intros d; change (balance x module_address d + 0 <= balance x module_address d); lia|].
    intros c Hc. split; [exact Hc|]. change (issue x c <= issue x c + 0). lia. }
  repeat (apply Forall_cons; split); cbn [op_ok]; done.
Qed.

Lemma registry_well_typed_witness : registry_ok (exec_all day w0).
Proof. apply (registry_well_typed (fun _ => true) true gs x0 w0 tt day); [reflexivity|apply genesis_runs]. Defined.

Lemma tokens_always_backed_witness : backed (exec_all day w0).
Proof. apply (tokens_always_backed (fun _ => true) true gs x0 w0 tt day); [reflexivity|apply genesis_runs|apply start_backed|apply day_ok]. Defined.

Definition w1 : W := (ConvertCoin (to_tokens 20) w0).1.

Lemma convert_runs : ConvertCoin (to_tokens 20) w0 = (w1, Ok true).
Proof. unfold w1. apply (pair_eta (ConvertCoin (to_tokens 20) w0)). vm_compute. reflexivity. Qed.

Lemma atom_owned : owned_pair w0 "atom" atom.
Proof. by split; vm_compute. Qed.

Lemma convert_roundtrip_witness :
  exists w2, ConvertERC20 (mkConvertERC20 (Erc20Address atom) 20 (AccString alice) (Hex bob)) w1 = (w2, Ok true) /\
    store w2 = store w0 /\ (forall a d, GetBalance (ext w2) a d = GetBalance (ext w0) a d) /\
    forall c, supply (ext w2) c = supply (ext w0) c /\ forall a, token_balance (ext w2) c a = token_balance (ext w0) c a.
Proof.
  apply (convert_roundtrip "atom" 20 bob alice atom w0 w1 atom_owned); [reflexivity|reflexivity|by vm_compute|reflexivity|reflexivity|exact convert_runs].
Defined.

(** * At the edges *)

Definition address_coin : MsgConvertCoin := mkConvertCoin (contract0_digits, 40) (Hex bob) (AccString bob).
Definition w_unbacked : W := (ConvertCoin address_coin w0).1.

Lemma unbacked_runs : ConvertCoin address_coin w0 = (w_unbacked, Ok true).
Proof. unfold w_unbacked. apply (pair_eta (ConvertCoin address_coin w0)). vm_compute. reflexivity. Qed.

Lemma address_denom_mints_unbacked_witness : issued w_unbacked "atom" = issued w0 "atom" + 40 /\
  GetBalance (ext w_unbacked) ModuleAddress "atom" = GetBalance (ext w0) ModuleAddress "atom" /\ ~ backed w_unbacked.
Proof.
  assert (Hs : bob <> ModuleAddress) by (apply (bool_decide_unpack _); by vm_compute).
  assert (U : (issued w0 "atom" + 40 <=? GetBalance (ext w0) ModuleAddress "atom") = false) by by vm_compute.
  destruct (address_denom_mints_unbacked contract0_digits 40 (Hex bob) (AccString bob) bob atom w0 w_unbacked start_backed
    ltac:(by vm_compute) ltac:(by vm_compute) ltac:(by vm_compute) ltac:(by vm_compute) ltac:(by vm_compute) ltac:(by vm_compute)
    ltac:(by vm_compute) Hs unbacked_runs) as (_ & _ & _ & Hb & Hi & H).
  split; [exact Hi|]. split; [exact Hb|]. rewrite H. apply Z.leb_gt in U. exact (Zlt_not_le _ _ U).
Defined.

(** A coin whose name differs from its base denomination is registered a second time: both contracts
    belong to the denomination, and the index leads to the second. *)
Example coin_registered_twice :
  let w := exec_all [OpProposal (RegisterCoinProposal [osmo]); OpProposal (RegisterCoinProposal [osmo])] w0 in
  (Denom <$> IterateTokenPairs w, (GetCoinAddress "osmo" w).2) =
  (["osmo"; "osmo"; "atom"]%string, Ok (create_address module_address 2)).
Proof. vm_compute. reflexivity. Qed.

(** A log without topics in the transfer of an external token ends the conversion in a panic. *)
Example anonymous_log_panics (w : W) : monitorApprovalEvent (mkResponse [] "" [["transfer"%string]; []]) w = (w, Panic).
Proof. reflexivity. Qed.

(** The hook mints the amount a contract logs, whatever it transferred. *)
Example hook_mints_what_is_logged :
  let token := replicate 20 9 in
  let w := exec_all [OpProposal (RegisterERC20Proposal [Hex token]); OpPostTx [mkLog token [[77]; alice; module_address] [1000]]] w0 in
  GetBalance (ext w) alice (CreateDenom (Hex token)) = 1000 /\ token_balance (ext w) token module_address = 0.
Proof. vm_compute. done. Qed.
