(* ===== verification/Epochs.v ===== *)
(** [x/epochs]: epochs of fixed length, and the hooks that run when one ends and the next starts.

    [keeper/abci.go], [keeper/epoch_infos.go], [keeper/hooks.go], [genesis.go] and the types.  A time is a
    number of nanoseconds.  The hooks are a parameter: functions on the rest of the chain that may panic. *)

From stdpp Require Import base list gmap strings sorting.
From Stdlib Require Import ZArith Lia.
From S2P Require Import Prelude KVStore Ledger.
Open Scope Z_scope.
Open Scope go_scope.

(** * Data *)

Record EpochInfo := mkEpoch {
  Identifier : string;
  StartTime : Z;
  Duration : Z;
  CurrentEpoch : Z;
  CurrentEpochStartTime : Z;
  EpochCountingStarted : bool;
  CurrentEpochStartHeight : Z
}.

(** [time.Time{}], the first of January of the year 1 *)
Definition zero_time : Z := - 62135596800 * 10 ^ 9.

Inductive event := EpochEnd (number : Z) | EpochStart (number start : Z).

(** Nothing in the module returns an error. *)
Inductive error := .

(** [types.EpochHooks]; [None] is a panic. *)
Record EpochHooks (X : Type) := mkHooks {
  hook_AfterEpochEnd : string -> Z -> X -> option X;
  hook_BeforeEpochStart : string -> Z -> X -> option X
}.
Arguments mkHooks {X}. Arguments hook_AfterEpochEnd {X}. Arguments hook_BeforeEpochStart {X}.

(** * [types/epoch_info.go] *)

Definition StartInitialEpoch (ei : EpochInfo) : EpochInfo :=
  mkEpoch (Identifier ei) (StartTime ei) (Duration ei) 1 (StartTime ei) true (CurrentEpochStartHeight ei).

Definition EndEpoch (ei : EpochInfo) : EpochInfo :=
  mkEpoch (Identifier ei) (StartTime ei) (Duration ei) (i64 (CurrentEpoch ei + 1)) (CurrentEpochStartTime ei + Duration ei)
    (EpochCountingStarted ei) (CurrentEpochStartHeight ei).

Definition with_height (h : Z) (ei : EpochInfo) : EpochInfo :=
  mkEpoch (Identifier ei) (StartTime ei) (Duration ei) (CurrentEpoch ei) (CurrentEpochStartTime ei) (EpochCountingStarted ei) h.
Definition with_start (t : Z) (ei : EpochInfo) : EpochInfo :=
  mkEpoch (Identifier ei) t (Duration ei) (CurrentEpoch ei) (CurrentEpochStartTime ei) (EpochCountingStarted ei) (CurrentEpochStartHeight ei).

(** [strings.TrimSpace] leaves nothing of [s]. *)
Definition blank (s : string) : bool := all_space (text_bytes s).

Definition EpochInfo_Validate (ei : EpochInfo) : bool :=
  negb (blank (Identifier ei)) && negb (Duration ei =? 0) && (0 <=? CurrentEpoch ei) && (0 <=? CurrentEpochStartHeight ei).

(** * [types/genesis.go] *)

Fixpoint validate_epochs (seen : list string) (epochs : list EpochInfo) : bool :=
  match epochs with
  | [] => true
  | e :: epochs => negb (bool_decide (Identifier e ∈ seen)) && EpochInfo_Validate e && validate_epochs (Identifier e :: seen) epochs
  end.
Definition GenesisState_Validate (epochs : list EpochInfo) : bool := validate_epochs [] epochs.

Definition hour : Z := 3600 * 10 ^ 9.
Definition WeekEpochID : string := "week".
Definition DayEpochID : string := "day".
Definition DefaultGenesisState : list EpochInfo :=
  [mkEpoch WeekEpochID zero_time (hour * 24 * 7) 0 zero_time false 0; mkEpoch DayEpochID zero_time (hour * 24) 0 zero_time false 0].

Section Epochs.
Context {X : Type} (hooks : list (EpochHooks X)).

Abbreviation W := (world EpochInfo event X).
Abbreviation Act := (M W error).

(** * [keeper/epoch_infos.go] *)

Definition epoch_key (identifier : string) : bytes := 1 :: str_bytes identifier.

Definition GetEpochInfo (identifier : string) : Act (option EpochInfo) := gets (fun w => store w !! epoch_key identifier).
Definition SetEpochInfo (ei : EpochInfo) : Act unit := update_store (fun st => <[epoch_key (Identifier ei) := ei]> st).
Definition DeleteEpochInfo (identifier : string) : Act unit := update_store (fun st => delete (epoch_key identifier) st).
Definition AllEpochInfos : Act (list EpochInfo) := gets (fun w => (prefix_iter [1] (store w)).*2).
(** The callback of the module never stops the iteration and writes only the epoch it is given. *)
Definition IterateEpochInfo (fn : EpochInfo -> Act unit) : Act unit := let! epochs := AllEpochInfos in for_all fn epochs.

(** * [keeper/hooks.go] *)

Definition run_hook (f : EpochHooks X -> X -> option X) (h : EpochHooks X) : Act unit := fun w =>
  match f h (ext w) with Some x => (mkWorld (store w) x (events w), Ok tt) | None => (w, Panic) end.

Definition AfterEpochEnd (identifier : string) (n : Z) : Act unit := for_all (run_hook (fun h => hook_AfterEpochEnd h identifier n)) hooks.
Definition BeforeEpochStart (identifier : string) (n : Z) : Act unit := for_all (run_hook (fun h => hook_BeforeEpochStart h identifier n)) hooks.

(** * [keeper/abci.go] *)

Definition begin_epoch (now height : Z) (epochInfo : EpochInfo) : Act unit :=
  let shouldInitialEpochStart := negb (EpochCountingStarted epochInfo) && negb (now <? StartTime epochInfo) in
  let epochEndTime := CurrentEpochStartTime epochInfo + Duration epochInfo in
  let shouldEpochEnd := (epochEndTime <? now) && negb shouldInitialEpochStart && negb (now <? StartTime epochInfo) in
  let epochInfo := with_height height epochInfo in
  let started (epochInfo : EpochInfo) :=
    SetEpochInfo epochInfo ;;
    EmitEvent (EpochStart (CurrentEpoch epochInfo) (CurrentEpochStartTime epochInfo / 10 ^ 9)) ;;
    BeforeEpochStart (Identifier epochInfo) (CurrentEpoch epochInfo) in
  if shouldInitialEpochStart then started (StartInitialEpoch epochInfo)
  else if shouldEpochEnd then
    let epochInfo := EndEpoch epochInfo in
    EmitEvent (EpochEnd (CurrentEpoch epochInfo)) ;;
    AfterEpochEnd (Identifier epochInfo) (CurrentEpoch epochInfo) ;;
    started epochInfo
  else ret tt.

Definition BeginBlocker (now height : Z) : Act unit := IterateEpochInfo (begin_epoch now height).

(** * [genesis.go] *)

Definition InitGenesis (now height : Z) (epochs : list EpochInfo) : Act unit :=
  for_all (fun e =>
    let e := if StartTime e =? zero_time then with_start now e else e in
    SetEpochInfo (with_height height e)) epochs.

Definition ExportGenesis : Act (list EpochInfo) := AllEpochInfos.

End Epochs.

(** * What a block does *)

(** A call of the hooks: the end of the epoch before [n], or the start of [n]. *)
Inductive hook_call := After (identifier : string) (n : Z) | Before (identifier : string) (n : Z).
Definition call_id (c : hook_call) : string := match c with After id _ | Before id _ => id end.

(** What a block makes of an epoch, and the calls it makes for it. *)
Definition advance (now height : Z) (e : EpochInfo) : EpochInfo :=
  if negb (EpochCountingStarted e) && negb (now <? StartTime e) then StartInitialEpoch (with_height height e)
  else if (CurrentEpochStartTime e + Duration e <? now) && negb (now <? StartTime e) then EndEpoch (with_height height e)
  else e.
Definition epoch_calls (now : Z) (e : EpochInfo) : list hook_call :=
  if negb (EpochCountingStarted e) && negb (now <? StartTime e) then [Before (Identifier e) 1]
  else if (CurrentEpochStartTime e + Duration e <? now) && negb (now <? StartTime e)
  then [After (Identifier e) (i64 (CurrentEpoch e + 1)); Before (Identifier e) (i64 (CurrentEpoch e + 1))]
  else [].

(** The epoch that runs at [now] when no end has been missed: zero before the start. *)
Definition clock (e : EpochInfo) (now : Z) : Z :=
  if now <? StartTime e then 0 else if now =? StartTime e then 1 else (now - StartTime e + Duration e - 1) / Duration e.

(** The epochs up to [n], as the hooks see them. *)
Definition calls_upto (id : string) (n : Z) : list hook_call :=
  mjoin ((fun i => if i =? 1 then [Before id 1] else [After id i; Before id i]) <$> seqZ 1 n).

(** An epoch that has followed the clock so far. *)
Definition on_schedule (e : EpochInfo) : Prop :=
  0 < Duration e /\ 0 <= CurrentEpoch e /\ (EpochCountingStarted e = true <-> 0 < CurrentEpoch e) /\
  (0 < CurrentEpoch e -> CurrentEpochStartTime e = StartTime e + (CurrentEpoch e - 1) * Duration e).

Lemma clock_ahead e now n : 0 < Duration e -> 0 < n -> StartTime e + n * Duration e < now <-> n < clock e now.
Proof.
  intros HD Hn. unfold clock. destruct (Z.ltb_spec now (StartTime e)); [nia|]. destruct (Z.eqb_spec now (StartTime e)); [nia|].
  split; intros H1.
  - enough (n + 1 <= (now - StartTime e + Duration e - 1) / Duration e) by lia. apply Z.div_le_lower_bound; nia.
  - assert (Duration e * ((now - StartTime e + Duration e - 1) / Duration e) <= now - StartTime e + Duration e - 1) by (apply Z.mul_div_le; lia). nia.
Qed.

Lemma clock_mono e t t' : 0 < Duration e -> t <= t' -> clock e t <= clock e t'.
Proof.
  intros HD Ht. destruct (Z.le_gt_cases (clock e t) 0) as [H|H].
  - assert (0 <= clock e t'); [|lia]. unfold clock. destruct (t' <? StartTime e) eqn:?; [done|]. destruct (t' =? StartTime e); [done|].
    apply Z.div_pos; [|done]. apply Z.ltb_ge in Heqb. lia.
  - destruct (Z.eq_dec (clock e t) 1) as [->|H1].
    + unfold clock in *. destruct (Z.ltb_spec t (StartTime e)); [lia|]. destruct (Z.ltb_spec t' (StartTime e)); [lia|].
      destruct (t' =? StartTime e) eqn:E; [done|]. apply Z.eqb_neq in E. apply Z.div_le_lower_bound; lia.
    + pose proof (proj2 (clock_ahead e t (clock e t - 1) HD ltac:(lia)) ltac:(lia)).
      pose proof (proj1 (clock_ahead e t' (clock e t - 1) HD ltac:(lia)) ltac:(lia)). lia.
Qed.

(** A block moves an epoch one step towards the clock. *)
Lemma advance_follows now height e : on_schedule e -> CurrentEpoch e <= clock e now -> CurrentEpoch e < 2 ^ 63 - 1 ->
  let e' := advance now height e in
  on_schedule e' /\ CurrentEpoch e' = Z.min (CurrentEpoch e + 1) (clock e now) /\
  Identifier e' = Identifier e /\ StartTime e' = StartTime e /\ Duration e' = Duration e /\
  calls_upto (Identifier e) (CurrentEpoch e') = calls_upto (Identifier e) (CurrentEpoch e) ++ epoch_calls now e.
Proof.
  intros Ho Hc Hb. pose proof Ho as (HD & Hn & Hs & Ht). cbv zeta. unfold advance, epoch_calls.
  assert (Hcalls : calls_upto (Identifier e) (CurrentEpoch e + 1) = calls_upto (Identifier e) (CurrentEpoch e) ++
    (if CurrentEpoch e + 1 =? 1 then [Before (Identifier e) 1] else [After (Identifier e) (CurrentEpoch e + 1); Before (Identifier e) (CurrentEpoch e + 1)])).
  { unfold calls_upto. rewrite seqZ_app by lia. rewrite fmap_app, join_app. f_equal. rewrite (Z.add_comm 1).
    rewrite seqZ_cons, seqZ_nil by lia. cbn [fmap list_fmap mjoin list_join]. by rewrite app_nil_r. }
  assert (Hi : i64 (CurrentEpoch e + 1) = CurrentEpoch e + 1) by (apply wrapS_small; lia).
  destruct (EpochCountingStarted e) eqn:Es; cbn [negb andb].
  - assert (Hpos : 0 < CurrentEpoch e) by (by apply Hs). specialize (Ht Hpos).
    assert (Hlt : (CurrentEpochStartTime e + Duration e <? now) = (CurrentEpoch e <? clock e now)).
    { apply eq_true_iff_eq. rewrite !Z.ltb_lt, <- clock_ahead by done. rewrite Ht. nia. }
    assert (Hge : (now <? StartTime e) = false).
    { apply Z.ltb_ge. unfold clock in Hc. destruct (Z.ltb_spec now (StartTime e)); lia. }
    rewrite Hlt, Hge, andb_true_r. destruct (Z.ltb_spec (CurrentEpoch e) (clock e now)) as [Hl|Hl].
    + unfold EndEpoch, with_height; cbn. rewrite Hi. unfold on_schedule; cbn. split_and!; try done; try lia; [by rewrite Es; split; [lia|]|].
      rewrite Hcalls. destruct (Z.eqb_spec (CurrentEpoch e + 1) 1); [lia|done].
    + rewrite app_nil_r. split_and!; try done; lia.
  - assert (H0 : CurrentEpoch e = 0) by (destruct (Z.le_gt_cases (CurrentEpoch e) 0); [lia|]; by apply Hs in H). rewrite H0 in Hcalls, Hc |- *.
    destruct (Z.ltb_spec now (StartTime e)) as [Hl|Hl]; cbn [negb].
    + rewrite andb_false_r, app_nil_r, H0. split_and!; try done. unfold clock. rewrite (proj2 (Z.ltb_lt _ _) Hl). lia.
    + unfold StartInitialEpoch, with_height, on_schedule; cbn. split_and!; try done; try lia.
      * assert (1 <= clock e now); [|lia]. unfold clock. destruct (Z.ltb_spec now (StartTime e)); [lia|].
        destruct (Z.eqb_spec now (StartTime e)); [lia|]. apply Z.div_le_lower_bound; lia.
Qed.

(** * Runs *)

(** What happens to the rest of the chain: a call of the hooks, or anything else. *)
Inductive effect (X : Type) := Call (c : hook_call) | Change (f : X -> X).
Arguments Call {X}. Arguments Change {X}.

Inductive step (X : Type) := Block (now height : Z) | Other (f : X -> X).
Arguments Block {X}. Arguments Other {X}.

Section Runs.
Context {X : Type} (hooks : list (EpochHooks X)).

Abbreviation W := (world EpochInfo event X).
Abbreviation Act := (M W error).

Definition exec (s : step X) : Act unit :=
  match s with
  | Block now height => BeginBlocker hooks now height
  | Other f => modify (fun w => mkWorld (store w) (f (ext w)) (events w))
  end.

(** Every hook in turn. *)
Definition call_hooks (c : hook_call) (x : X) : option X :=
  foldl (fun o h => o ≫= match c with After id n => hook_AfterEpochEnd h id n | Before id n => hook_BeforeEpochStart h id n end) (Some x) hooks.
Definition apply_effect (x : option X) (e : effect X) : option X :=
  x ≫= match e with Call c => call_hooks c | Change f => fun x => Some (f x) end.
Definition apply_effects (es : list (effect X)) (x : X) : option X := foldl apply_effect (Some x) es.

Definition calls_for (id : string) (es : list (effect X)) : list hook_call :=
  filter (fun c => call_id c = id) (omap (fun e => match e with Call c => Some c | Change _ => None end) es).

(** The number an epoch has after blocks at the given times. *)
Definition follow (e : EpochInfo) (n : Z) (ss : list (step X)) : Z :=
  foldl (fun n s => match s with Block now _ => Z.min (n + 1) (clock e now) | Other _ => n end) n ss.

Fixpoint times_grow (t : Z) (ss : list (step X)) : Prop :=
  match ss with [] => True | Block now _ :: ss => t <= now /\ times_grow now ss | Other _ :: ss => times_grow t ss end.

(** An epoch as the run has left it at time [t]. *)
Definition in_step (t : Z) (L : list (effect X)) (k : bytes) (e : EpochInfo) : Prop :=
  k = epoch_key (Identifier e) /\ on_schedule e /\ CurrentEpoch e <= clock e t /\ calls_for (Identifier e) L = calls_upto (Identifier e) (CurrentEpoch e).

(** ** One block *)

Lemma hooks_return (f : EpochHooks X -> X -> option X) hs (w w' : W) u : for_all (run_hook f) hs w = (w', Ok u) ->
  foldl (fun o h => o ≫= f h) (Some (ext w)) hs = Some (ext w') /\ store w' = store w.
Proof.
  revert w. induction hs as [|h hs IH]; intros w; cbn; [by intros [= <- _]|].
  intros H. run H. unfold run_hook in Hc. destruct (f h (ext w)) as [x|] eqn:E; [|done]. injection Hc as <- _.
  apply IH in H as [H ->]. done.
Qed.

Lemma apply_effects_app L1 L2 x : apply_effects (L1 ++ L2) x = apply_effects L1 x ≫= apply_effects L2.
Proof.
  unfold apply_effects. rewrite foldl_app. destruct (foldl apply_effect (Some x) L1) as [y|]; [done|]. cbn. by induction L2.
Qed.

Lemma begin_epoch_returns now height e (w w' : W) u : begin_epoch hooks now height e w = (w', Ok u) ->
  store w !! epoch_key (Identifier e) = Some e ->
  store w' = <[epoch_key (Identifier e) := advance now height e]> (store w) /\
  apply_effects (Call <$> epoch_calls now e) (ext w) = Some (ext w').
Proof.
  unfold begin_epoch, advance, epoch_calls, BeforeEpochStart, AfterEpochEnd. intros H Hs.
  destruct (negb (EpochCountingStarted e) && negb (now <? StartTime e)); cbn [negb] in H.
  - run H. injection Hc as <- _. injection Hc0 as <- _. apply hooks_return in H as [H ->]. split; [done|]. exact H.
  - rewrite andb_true_r in H. destruct (_ && _); [|run H; by rewrite insert_id].
    run H. injection Hc as <- _. apply hooks_return in Hc0 as [H1 Hs1]. injection Hc1 as <- _. injection Hc2 as <- _.
    apply hooks_return in H as [H2 ->]. cbn in *. rewrite Hs1. split; [done|].
    change (call_hooks (After (Identifier e) (i64 (CurrentEpoch e + 1))) (ext w) ≫= call_hooks (Before (Identifier e) (i64 (CurrentEpoch e + 1))) = Some (ext w')).
    etrans; [apply (f_equal (fun o => o ≫= _)); exact H1|exact H2].
Qed.

Lemma epochs_return now height es (w w' : W) u : for_all (begin_epoch hooks now height) es w = (w', Ok u) ->
  NoDup (Identifier <$> es) -> (forall e, e ∈ es -> store w !! epoch_key (Identifier e) = Some e) ->
  store w' = foldl (fun st e => <[epoch_key (Identifier e) := advance now height e]> st) (store w) es /\
  apply_effects (Call <$> mjoin (epoch_calls now <$> es)) (ext w) = Some (ext w').
Proof.
  revert w. induction es as [|e es IH]; intros w; cbn [for_all]; [by intros [= <- _]|].
  intros H Hnd Hin. run H. apply NoDup_cons in Hnd as [Hni Hnd].
  apply begin_epoch_returns in Hc as [Hs Hx]; [|apply Hin; by left].
  apply IH in H as [Hs' Hx']; [|done|].
  - rewrite Hs in Hs'. split; [done|].
    change (mjoin (epoch_calls now <$> e :: es)) with (epoch_calls now e ++ mjoin (epoch_calls now <$> es)).
    rewrite fmap_app, apply_effects_app, Hx. done.
  - intros e' He'. rewrite Hs, lookup_insert_ne; [apply Hin; by right|].
    intros [= E%str_bytes_inj]. apply Hni. rewrite E. by apply list_elem_of_fmap_2.
Qed.

Lemma advanced_lookup (now height : Z) (es : list EpochInfo) (st : gmap bytes EpochInfo) (k : bytes) : NoDup (Identifier <$> es) ->
  (forall e, e ∈ es -> st !! epoch_key (Identifier e) = Some e) -> (forall e, st !! k = Some e -> e ∈ es /\ k = epoch_key (Identifier e)) ->
  foldl (fun st e => <[epoch_key (Identifier e) := advance now height e]> st) st es !! k = advance now height <$> st !! k.
Proof.
  intros Hnd Hin Hk.
  assert (G : forall (es' : list EpochInfo) (st' : gmap bytes EpochInfo), NoDup (Identifier <$> es') ->
    foldl (fun st e => <[epoch_key (Identifier e) := advance now height e]> st) st' es' !! k =
    match list_find (fun e => epoch_key (Identifier e) = k) es' with Some (_, e) => Some (advance now height e) | None => st' !! k end).
  { induction es' as [|e es' IH]; intros st' Hnd'; [done|]. apply NoDup_cons in Hnd' as [Hni Hnd']. cbn [foldl list_find]. rewrite IH by done.
    destruct (decide (epoch_key (Identifier e) = k)) as [E|E].
    - destruct (list_find _ es') as [[i e']|] eqn:F; cbn.
      + exfalso. apply list_find_Some in F as (Hl & E' & _). apply Hni. rewrite <- E in E'. injection E' as E'%str_bytes_inj.
        rewrite <- E'. apply list_elem_of_fmap_2. by eapply list_elem_of_lookup_2.
      + by rewrite E, lookup_insert_eq.
    - destruct (list_find _ es') as [[i e']|]; cbn; [done|]. by rewrite lookup_insert_ne. }
  rewrite G by done. destruct (list_find _ es) as [[i e]|] eqn:F.
  - apply list_find_Some in F as (Hl & <- & _). rewrite (Hin e); [done|]. by eapply list_elem_of_lookup_2.
  - destruct (st !! k) as [e|] eqn:E; [|done]. destruct (Hk e eq_refl) as [He ->].
    apply list_find_None in F. rewrite Forall_forall in F. by destruct (F e He).
Qed.

(** A block advances every epoch and makes their calls, in the order of the store. *)
Lemma BeginBlocker_returns now height (w w' : W) u : BeginBlocker hooks now height w = (w', Ok u) ->
  map_Forall (fun k e => k = epoch_key (Identifier e)) (store w) ->
  store w' = advance now height <$> store w /\
  apply_effects (Call <$> mjoin (epoch_calls now <$> (prefix_iter [1] (store w)).*2)) (ext w) = Some (ext w').
Proof.
  unfold BeginBlocker, IterateEpochInfo, AllEpochInfos. intros H Hk. run H.
  assert (Hfst : epoch_key ∘ Identifier <$> (prefix_iter [1] (store w)).*2 = (prefix_iter [1] (store w)).*1).
  { rewrite <- list_fmap_compose. apply list_fmap_ext. intros i [k e] Hi. cbn. symmetry. apply Hk.
    apply list_elem_of_lookup_2 in Hi. by apply elem_of_prefix_iter in Hi as [? _]. }
  assert (Hnd : NoDup (Identifier <$> (prefix_iter [1] (store w)).*2)).
  { apply (NoDup_fmap_1 epoch_key). rewrite <- list_fmap_compose, Hfst. apply NoDup_prefix_iter_keys. }
  assert (Hin : forall e, e ∈ (prefix_iter [1] (store w)).*2 -> store w !! epoch_key (Identifier e) = Some e).
  { intros e ([k e'] & -> & [Hl _]%elem_of_prefix_iter)%list_elem_of_fmap. cbn. by rewrite <- (Hk _ _ Hl). }
  apply epochs_return in H as [Hs Hx]; [|done..]. split; [|done]. rewrite Hs. apply map_eq. intros k.
  rewrite lookup_fmap. apply advanced_lookup; [done..|]. intros e He. split; [|by apply Hk].
  apply list_elem_of_fmap. exists (k, e). split; [done|]. apply elem_of_prefix_iter. split; [done|]. rewrite (Hk _ _ He). done.
Qed.

(** ** Many blocks *)

Lemma follow_ext e e' n ss : StartTime e' = StartTime e -> Duration e' = Duration e -> follow e' n ss = follow e n ss.
Proof.
  intros Hs Hd. unfold follow. revert n. induction ss as [|[now h|f] ss IH]; intros n; [done| |apply IH].
  cbn [foldl]. rewrite IH. unfold clock. by rewrite Hs, Hd.
Qed.

Lemma follow_length e n ss : follow e n ss <= n + Z.of_nat (length ss).
Proof.
  unfold follow. revert n. induction ss as [|[now h|f] ss IH]; intros n; cbn [foldl length]; [lia|etrans; [apply IH|lia]..].
Qed.

Lemma epoch_calls_id now e c : c ∈ epoch_calls now e -> call_id c = Identifier e.
Proof. unfold epoch_calls. destruct (_ && _); [set_solver|]. destruct (_ && _); set_solver. Qed.

Lemma calls_for_app id L1 L2 : calls_for id (L1 ++ L2) = calls_for id L1 ++ calls_for id L2.
Proof. unfold calls_for. by rewrite omap_app, filter_app. Qed.

Lemma calls_for_calls id (cs : list hook_call) : calls_for id (Call <$> cs) = filter (fun c => call_id c = id) cs.
Proof. unfold calls_for. f_equal. induction cs as [|c cs IH]; [done|]. cbn. by f_equal. Qed.

(** The calls of a block for one epoch. *)
Lemma block_calls_of now (es : list EpochInfo) e : NoDup (Identifier <$> es) -> e ∈ es ->
  filter (fun c => call_id c = Identifier e) (mjoin (epoch_calls now <$> es)) = epoch_calls now e.
Proof.
  assert (Hother : forall es' : list EpochInfo, Identifier e ∉ Identifier <$> es' -> filter (fun c => call_id c = Identifier e) (mjoin (epoch_calls now <$> es')) = []).
  { intros es' Hni. apply filter_none, Forall_forall. intros c Hc Hid. apply list_elem_of_join in Hc as (cs & Hc & Hcs).
    apply list_elem_of_fmap in Hcs as (e' & -> & He'). apply epoch_calls_id in Hc. apply Hni. rewrite <- Hid, Hc. by apply list_elem_of_fmap_2. }
  induction es as [|e' es IH]; intros Hnd Hin; [set_solver|]. apply NoDup_cons in Hnd as [Hni Hnd].
  change (mjoin (epoch_calls now <$> e' :: es)) with (epoch_calls now e' ++ mjoin (epoch_calls now <$> es)). rewrite filter_app.
  apply elem_of_cons in Hin as [->|Hin].
  - rewrite Hother by done. rewrite app_nil_r. apply filter_every, Forall_forall. intros c. apply epoch_calls_id.
  - rewrite IH by done. rewrite filter_none; [done|]. apply Forall_forall. intros c Hc%epoch_calls_id Hid. apply Hni. rewrite <- Hc, Hid. by apply list_elem_of_fmap_2.
Qed.

Definition keyed (st : gmap bytes EpochInfo) : Prop := map_Forall (fun k e => k = epoch_key (Identifier e)) st.
Definition changes (L : list (effect X)) : list (X -> X) := omap (fun e => match e with Change f => Some f | Call _ => None end) L.
Definition other_steps (ss : list (step X)) : list (X -> X) := omap (fun s => match s with Other f => Some f | Block _ _ => None end) ss.

(** An epoch [e'] that comes from [e] after the steps [ss] and their effects [L]. *)
Definition comes_to (ss : list (step X)) (L : list (effect X)) (e e' : EpochInfo) : Prop :=
  Identifier e' = Identifier e /\ StartTime e' = StartTime e /\ Duration e' = Duration e /\ on_schedule e' /\
  CurrentEpoch e' = follow e (CurrentEpoch e) ss /\
  calls_upto (Identifier e) (CurrentEpoch e') = calls_upto (Identifier e) (CurrentEpoch e) ++ calls_for (Identifier e) L.

Lemma advance_keyed now height st : keyed st -> keyed (advance now height <$> st).
Proof.
  intros H k e He. rewrite lookup_fmap in He. destruct (st !! k) as [e0|] eqn:E; [|done]. injection He as <-. rewrite (H _ _ E).
  unfold advance. destruct (_ && _); [done|]. by destruct (_ && _).
Qed.

(** One block, as effects on the rest of the chain. *)
Lemma block_effects now height (w w' : W) u : BeginBlocker hooks now height w = (w', Ok u) -> keyed (store w) ->
  store w' = advance now height <$> store w /\ exists L, apply_effects L (ext w) = Some (ext w') /\ changes L = [] /\
    forall k e, store w !! k = Some e -> calls_for (Identifier e) L = epoch_calls now e.
Proof.
  intros H Hk. apply BeginBlocker_returns in H as [Hs Hx]; [|done]. split; [done|]. eexists. split; [exact Hx|]. split.
  { unfold changes. generalize (mjoin (epoch_calls now <$> (prefix_iter [1] (store w)).*2)) as cs. by induction cs. }
  intros k e He. rewrite calls_for_calls. apply block_calls_of.
  - apply (NoDup_fmap_1 epoch_key). rewrite <- !list_fmap_compose.
    rewrite (list_fmap_ext _ fst); [apply NoDup_prefix_iter_keys|]. intros i [k' e'] Hi. cbn. symmetry.
    apply list_elem_of_lookup_2, elem_of_prefix_iter in Hi as [Hi _]. by apply Hk.
  - apply list_elem_of_fmap. exists (k, e). split; [done|]. apply elem_of_prefix_iter. split; [done|]. by rewrite (Hk _ _ He).
Qed.

Lemma run_follows ss t (w w' : W) u : for_all exec ss w = (w', Ok u) -> times_grow t ss -> keyed (store w) ->
  exists L, apply_effects L (ext w) = Some (ext w') /\ changes L = other_steps ss /\
    forall k e, store w !! k = Some e -> on_schedule e -> CurrentEpoch e <= clock e t -> CurrentEpoch e + Z.of_nat (length ss) < 2 ^ 63 ->
      exists e', store w' !! k = Some e' /\ comes_to ss L e e'.
Proof.
  revert t w. induction ss as [|s ss IH]; intros t w; cbn [for_all].
  { intros [= <- _] _ _. exists []. split; [done|]. split; [done|]. intros k e He Ho Hc Hb. exists e. split; [done|].
    unfold comes_to. by rewrite app_nil_r. }
  intros H Ht Hk. run H. destruct s as [now height|f]; cbn [exec times_grow] in *.
  - destruct Ht as [Ht Hts]. apply block_effects in Hc as (Hs & L1 & Hx & Hch & Hcalls); [|done].
    destruct (IH now s0 H Hts) as (L2 & Hx2 & Hch2 & Hall); [rewrite Hs; by apply advance_keyed|].
    exists (L1 ++ L2). split; [by rewrite apply_effects_app, Hx|]. split; [unfold changes in *; by rewrite omap_app, Hch, Hch2|].
    intros k e He Ho Hc Hb. pose proof (clock_mono e t now (proj1 Ho) Ht) as Hm. cbn [length] in Hb.
    destruct (advance_follows now height e Ho ltac:(lia) ltac:(lia)) as (Ho' & Hn & Hid & Hst & Hd & Hcs).
    assert (Hclock : clock (advance now height e) now = clock e now) by (unfold clock; by rewrite Hst, Hd).
    destruct (Hall k (advance now height e)) as (e' & He' & (Hid' & Hst' & Hd' & Ho2 & Hn' & Hcs')); [by rewrite Hs, lookup_fmap, He|done|lia|lia|].
    exists e'. split; [done|]. unfold comes_to. rewrite calls_for_app, (Hcalls _ _ He). split_and!; try congruence.
    + rewrite Hn', Hn, (follow_ext e) by done. done.
    + rewrite Hid in Hcs'. by rewrite Hcs', Hcs, app_assoc.
  - injection Hc as <- _. destruct (IH t _ H Ht Hk) as (L & Hx & Hch & Hall). exists (Change f :: L).
    split; [exact Hx|]. split; [unfold changes, other_steps in *; cbn; by rewrite Hch|]. intros k e He Ho Hc Hb. cbn [length] in Hb.
    destruct (Hall k e He Ho Hc ltac:(lia)) as (e' & He' & Hc'). by exists e'.
Qed.

(** ** From genesis *)

Definition started_at (now height : Z) (e : EpochInfo) : EpochInfo := with_height height (if StartTime e =? zero_time then with_start now e else e).

Lemma genesis_store now height epochs seen (w w' : W) u : InitGenesis now height epochs w = (w', Ok u) -> validate_epochs seen epochs = true ->
  keyed (store w) -> ext w' = ext w /\ keyed (store w') /\
  (forall e, e ∈ epochs -> store w' !! epoch_key (Identifier e) = Some (started_at now height e)) /\
  forall id, id ∈ seen -> store w' !! epoch_key id = store w !! epoch_key id.
Proof.
  revert w seen. induction epochs as [|e epochs IH]; intros w seen; cbn [InitGenesis for_all validate_epochs].
  { intros [= <- _] _ Hk. split_and!; [done..|set_solver|done]. }
  intros H Hv Hk. unfold InitGenesis in H. cbn [for_all] in H. run H. reflect_bools. injection Hc as <- _.
  match type of H with for_all _ _ ?s = _ => set (w1 := s) in * end.
  assert (Hid : Identifier (started_at now height e) = Identifier e) by (unfold started_at; by destruct (_ =? _)).
  assert (Hst : store w1 = <[epoch_key (Identifier e) := started_at now height e]> (store w)) by (rewrite <- Hid; reflexivity).
  assert (Hk1 : keyed (store w1)) by (rewrite Hst; apply map_Forall_insert_2; [by rewrite Hid|exact Hk]).
  destruct (IH w1 _ H ltac:(eassumption) Hk1) as (Hx & Hk' & Hin & Hold). split_and!; [done|done| |].
  - intros e' [->|He']%elem_of_cons; [|by apply Hin]. rewrite Hold by (by left). by rewrite Hst, lookup_insert_eq.
  - intros id Hseen. rewrite Hold by (by right). rewrite Hst, lookup_insert_ne; [done|]. intros [= E%str_bytes_inj]. by subst.
Qed.

(** The time of the last block, and the number of blocks at or after [t]. *)
Definition last_time (t : Z) (ss : list (step X)) : Z := foldl (fun t s => match s with Block now _ => now | Other _ => t end) t ss.
Definition blocks_from (t : Z) (ss : list (step X)) : Z := sumZ (fun s => match s with Block now _ => if t <=? now then 1 else 0 | Other _ => 0 end) ss.

Lemma follow_bounds e n t0 ss : 0 < Duration e -> n <= clock e t0 -> times_grow t0 ss ->
  follow e n ss <= clock e (last_time t0 ss) /\ forall t, Z.min (n + blocks_from t ss) (clock e t) <= follow e n ss.
Proof.
  intros HD. revert n t0. induction ss as [|[now h|f] ss IH]; intros n t0 Hn Ht; cbn [times_grow] in Ht.
  - split; [done|]. intros t. cbn. lia.
  - destruct Ht as [Ht Hts]. pose proof (clock_mono e t0 now HD Ht) as Hm.
    destruct (IH (Z.min (n + 1) (clock e now)) now ltac:(lia) Hts) as [Hu Hl]. split; [exact Hu|]. intros t. specialize (Hl t).
    unfold blocks_from in *. rewrite sumZ_cons. change (follow e n (Block now h :: ss)) with (follow e (Z.min (n + 1) (clock e now)) ss).
    assert (0 <= sumZ (fun s => match s with Block now _ => if t <=? now then 1 else 0 | Other _ => 0 end) ss).
    { apply sumZ_nonneg, Forall_forall. intros [now' h'|] _; [|done]. by destruct (t <=? now'). }
    destruct (Z.leb_spec t now) as [Hle|Hle]; [pose proof (clock_mono e t now HD Hle)|]; lia.
  - apply (IH n t0 Hn Ht).
Qed.

(** An epoch as the default genesis has it: it has not begun. *)
Definition fresh (e : EpochInfo) : Prop := EpochCountingStarted e = false /\ CurrentEpoch e = 0 /\ 0 < Duration e.

Lemma started_fresh t0 h0 e0 : fresh e0 -> let e1 := started_at t0 h0 e0 in
  Identifier e1 = Identifier e0 /\ Duration e1 = Duration e0 /\ CurrentEpoch e1 = 0 /\
  StartTime e1 = (if StartTime e0 =? zero_time then t0 else StartTime e0) /\ on_schedule e1 /\ 0 <= clock e1 t0.
Proof.
  intros (Hs & Hc & HD) e1.
  assert (E1 : Identifier e1 = Identifier e0 /\ Duration e1 = Duration e0 /\ CurrentEpoch e1 = 0 /\ EpochCountingStarted e1 = false /\
    StartTime e1 = if StartTime e0 =? zero_time then t0 else StartTime e0) by (unfold e1, started_at; destruct (_ =? _); cbn; by rewrite ?Hc).
  destruct E1 as (Hid & Hd & Hc1 & Hs1 & Hst). split_and!; try done; [unfold on_schedule; rewrite Hc1, Hs1, Hd; split_and!; naive_solver lia|].
  unfold clock. destruct (Z.ltb_spec t0 (StartTime e1)); [done|]. destruct (t0 =? StartTime e1); [lia|]. apply Z.div_pos; lia.
Qed.

(** A run from genesis. *)
Lemma run_from_genesis t0 h0 epochs x (w0 w' : W) u ss u' :
  GenesisState_Validate epochs = true -> Forall fresh epochs ->
  InitGenesis t0 h0 epochs (mkWorld ∅ x []) = (w0, Ok u) -> times_grow t0 ss -> Z.of_nat (length ss) < 2 ^ 63 ->
  for_all exec ss w0 = (w', Ok u') ->
  exists L, apply_effects L x = Some (ext w') /\ changes L = other_steps ss /\
    forall e0, e0 ∈ epochs -> exists e, store w' !! epoch_key (Identifier e0) = Some e /\ comes_to ss L (started_at t0 h0 e0) e.
Proof.
  intros HV Hf HG Ht Hlen Hrun. destruct (genesis_store _ _ _ _ _ _ _ HG HV) as (Hx & Hk & Hin & _); [by intros k e He|].
  destruct (run_follows ss t0 w0 w' u' Hrun Ht Hk) as (L & HL & Hch & Hall). exists L. rewrite Hx in HL. split; [done|]. split; [done|].
  intros e0 He0. rewrite Forall_forall in Hf. destruct (started_fresh t0 h0 e0 (Hf e0 He0)) as (Hid & Hd & Hc1 & Hst & Ho & H0).
  apply (Hall _ _ (Hin e0 He0) Ho); lia.
Qed.

(** C15: from a genesis of epochs with positive durations that have not begun, through blocks whose times do not decrease and whatever
    else happens in between: no epoch is ahead of the clock; one that lags catches up by one epoch a block, so that
    after [k] blocks at or after a time it is the [k]-th or the one of that time; the current epoch began a whole
    number of durations after the first; and the hooks have been called for every epoch up to the current one,
    exactly once and in order: for the first epoch its start, for every later one the end of the epoch before it
    and then its start, both with the number of the epoch that starts. *)
Theorem epochs_follow_the_clock t0 h0 epochs x (w0 w' : W) u ss u' :
  GenesisState_Validate epochs = true -> Forall fresh epochs ->
  InitGenesis t0 h0 epochs (mkWorld ∅ x []) = (w0, Ok u) -> times_grow t0 ss -> Z.of_nat (length ss) < 2 ^ 63 ->
  for_all exec ss w0 = (w', Ok u') ->
  exists L, apply_effects L x = Some (ext w') /\ changes L = other_steps ss /\
    forall e0, e0 ∈ epochs -> exists e, store w' !! epoch_key (Identifier e0) = Some e /\
      Duration e = Duration e0 /\ StartTime e = (if StartTime e0 =? zero_time then t0 else StartTime e0) /\
      CurrentEpoch e <= clock e (last_time t0 ss) /\
      (forall t, Z.min (blocks_from t ss) (clock e t) <= CurrentEpoch e) /\
      on_schedule e /\ calls_for (Identifier e0) L = calls_upto (Identifier e0) (CurrentEpoch e).
Proof.
  intros HV Hf HG Ht Hlen Hrun. destruct (run_from_genesis _ _ _ _ _ _ _ _ _ HV Hf HG Ht Hlen Hrun) as (L & HL & Hch & Hall).
  exists L. split; [done|]. split; [done|]. intros e0 He0. rewrite Forall_forall in Hf.
  destruct (started_fresh t0 h0 e0 (Hf e0 He0)) as (Hid & Hd & Hc1 & Hst & Ho & H0).
  destruct (Hall e0 He0) as (e & He & Hid' & Hst' & Hd' & Ho' & Hn & Hcs). rewrite Hc1 in Hn, Hcs.
  assert (Hclk : forall t, clock e t = clock (started_at t0 h0 e0) t) by (intros t; unfold clock; by rewrite Hst', Hd').
  destruct (follow_bounds (started_at t0 h0 e0) 0 t0 ss (proj1 Ho) H0 Ht) as [Hu Hl]. exists e.
  split; [done|]. split; [congruence|]. split; [congruence|]. split; [rewrite Hn, Hclk; exact Hu|].
  split; [intros t; rewrite Hn, Hclk; apply Hl|]. split; [done|]. rewrite Hid in Hcs. by rewrite Hcs.
Qed.

End Runs.

(** * A run *)

Module RefEpochs.

(** Hooks that keep a record of their calls. *)
Definition recorder : EpochHooks (list hook_call) :=
  mkHooks (fun id n l => Some (l ++ [After id n])) (fun id n l => Some (l ++ [Before id n])).

Definition day : Z := hour * 24.
Definition start : world EpochInfo event (list hook_call) := (InitGenesis 1000 1 DefaultGenesisState (mkWorld ∅ [] [])).1.
(** Three days without a block, and then one block a second. *)
Definition blocks : list (step (list hook_call)) :=
  [Block 1000 2; Block 2000 3; Other (fun l => l); Block (3 * day) 4; Block (3 * day + 1) 5; Block (3 * day + 2) 6; Block (3 * day + 3) 7].
Definition final : world EpochInfo event (list hook_call) := (for_all (exec [recorder]) blocks start).1.

Example days_caught_up :
  ((CurrentEpoch <$> store final !! epoch_key DayEpochID), (CurrentEpoch <$> store final !! epoch_key WeekEpochID), filter (fun c => call_id c = DayEpochID) (ext final)) =
  (Some 3, Some 1, [Before "day" 1; After "day" 2; Before "day" 2; After "day" 3; Before "day" 3]).
Proof. vm_compute. reflexivity. Qed.

Lemma epochs_follow_the_clock_witness :
  exists L, apply_effects [recorder] L [] = Some (ext final) /\ changes L = other_steps blocks /\
    forall e0, e0 ∈ DefaultGenesisState -> exists e, store final !! epoch_key (Identifier e0) = Some e /\
      Duration e = Duration e0 /\ StartTime e = (if StartTime e0 =? zero_time then 1000 else StartTime e0) /\
      CurrentEpoch e <= clock e (last_time 1000 blocks) /\
      (forall t, Z.min (blocks_from t blocks) (clock e t) <= CurrentEpoch e) /\
      on_schedule e /\ calls_for (Identifier e0) L = calls_upto (Identifier e0) (CurrentEpoch e).
Proof.
  apply (epochs_follow_the_clock [recorder] 1000 1 DefaultGenesisState [] start final tt blocks tt); try (by vm_compute).
  repeat constructor.
Defined.

(** A negative duration passes the validation; the epoch then ends in every block and its start moves back. *)
Example negative_duration_ends_every_block :
  let e := mkEpoch "back" 1000 (-5) 0 0 false 0 in
  EpochInfo_Validate e = true /\
  let w := (InitGenesis 1000 1 [e] (mkWorld ∅ tt [])).1 in
  (fun e => (CurrentEpoch e, CurrentEpochStartTime e)) <$> store (for_all (exec []) [Block 1000 2; Block 1000 3; Block 1000 4] w).1 !! epoch_key "back" = Some (3, 990).
Proof. vm_compute. done. Qed.

End RefEpochs.
