(* ===== verification/Inflation.v ===== *)
(** [x/inflation]: coins minted at the end of an epoch and what becomes of them.

    [keeper/hooks.go], [keeper/inflation.go], [keeper/epoch_info.go], [keeper/periods.go], [keeper/params.go],
    [keeper/msg_server.go], [genesis.go] and the types.  The arithmetic of decimals, the bank, staking and the
    community pool are parameters.  The last part runs the module under the epochs of [x/epochs]. *)

From stdpp Require Import base list gmap strings sorting.
From Stdlib Require Import ZArith Lia.
From S2P Require Import Prelude KVStore BigInt Ledger Epochs.
Open Scope Z_scope.
Open Scope go_scope.

(** * Data *)

Record ExponentialCalculation := mkCalculation { calc_A : Z; calc_R : Z; calc_C : Z; BondingTarget : Z; MaxVariance : Z }.
Record InflationDistribution := mkDistribution { StakingRewards : Z; UsageIncentives : Z; CommunityPool : Z }.
Record Params := mkParams { MintDenom : string; Calculation : ExponentialCalculation; Distribution : InflationDistribution; EnableInflation : bool }.

Inductive val := VParams (p : Params) | VNum (n : Z) | VText (s : string).
Inductive event := EvMint (epoch provision amount : Z).
Inductive error := ErrInvalidSigner | ErrBank (c : Z).

(** The rest of the decimals: a quotient, a power and a quotient by an integer. *)
Class DecLib := {
  dec_quo : Z -> Z -> Z;
  dec_power : Z -> Z -> Z;
  dec_quo_int : Z -> Z -> Z
}.

(** The bank, staking and the community pool. *)
Class InflationHost (X : Type) := {
  MintCoins_bank : X -> string -> string * Z -> X * option Z;
  SendCoinsFromModuleToModule : X -> string -> string -> string * Z -> X * option Z;
  GetAllBalances : X -> bytes -> list (string * Z);
  FundCommunityPool : X -> list (string * Z) -> bytes -> X * option Z;
  GetSupply : X -> string -> Z;
  StakingTokenSupply : X -> Z;
  TotalBondedTokens : X -> Z;
  ChainID : X -> string
}.

Definition ModuleName : string := "inflation".
Definition ReductionFactor : Z := 3.
Definition PowerReduction : Z := 10 ^ 18.
Definition MainnetChainID : string := "hyperpax_125".
Definition IsMainnet (chainID : string) : bool := String.prefix MainnetChainID chainID.
Definition teamAlloc : Z := 200000000 * PowerReduction.

Definition KeyPrefixPeriod : bytes := [1].
Definition KeyPrefixEpochIdentifier : bytes := [3].
Definition KeyPrefixEpochsPerPeriod : bytes := [4].
Definition KeyPrefixSkippedEpochs : bytes := [5].
Definition ParamsKey : bytes := str_bytes "Params".

(** [math.LegacyNewDec] and [LegacyNewDecFromInt] *)
Definition to_dec (n : Z) : Z := n * dec_one.

Section Inflation.
Context {X : Type} {BK : BankKeeper X} {LD : LegacyDec} {DL : DecLib} {HI : InflationHost X} (feeCollectorName : string).

Abbreviation W := (world val event X).
Abbreviation Act := (M W error).

(** Division by zero panics. *)
Definition quo (a b : Z) : Act Z := if b =? 0 then panic else ret (dec_quo a b).

(** * The store *)

Definition read (k : bytes) : Act (option val) := gets (fun w => store w !! k).
Definition write (k : bytes) (v : val) : Act unit := update_store (fun st => <[k := v]> st).
Definition number (v : option val) : Z := match v with Some (VNum n) => n | _ => 0 end.

Definition no_params : Params := mkParams "" (mkCalculation 0 0 0 0 0) (mkDistribution 0 0 0) false.
Definition GetParams : Act Params := let! v := read ParamsKey in ret (match v with Some (VParams p) => p | _ => no_params end).
Definition SetParams (p : Params) : Act unit := write ParamsKey (VParams p).

Definition GetPeriod : Act Z := let! v := read KeyPrefixPeriod in ret (number v).
Definition SetPeriod (period : Z) : Act unit := write KeyPrefixPeriod (VNum (u64 period)).
Definition GetEpochIdentifier : Act string := let! v := read KeyPrefixEpochIdentifier in ret (match v with Some (VText s) => s | _ => ""%string end).
Definition SetEpochIdentifier (s : string) : Act unit := write KeyPrefixEpochIdentifier (VText s).
(** Stored as an unsigned number and read back as a signed one. *)
Definition GetEpochsPerPeriod : Act Z := let! v := read KeyPrefixEpochsPerPeriod in ret (i64 (number v)).
Definition SetEpochsPerPeriod (n : Z) : Act unit := write KeyPrefixEpochsPerPeriod (VNum (u64 n)).
Definition GetSkippedEpochs : Act Z := let! v := read KeyPrefixSkippedEpochs in ret (number v).
Definition SetSkippedEpochs (n : Z) : Act unit := write KeyPrefixSkippedEpochs (VNum (u64 n)).

Definition UpdateParams (authority req_authority : string) (p : Params) : Act unit :=
  guard (bool_decide (authority = req_authority)) ErrInvalidSigner ;; SetParams p.

(** * [types/inflation_calculation.go] *)

Definition CalculateEpochMintProvision (params : Params) (period epochsPerPeriod bondedRatio : Z) : Act Z :=
  let c := Calculation params in
  let decay := dec_one - calc_R c in
  let exponentialDecay := dec_mul (calc_A c) (dec_power decay period) + calc_C c in
  let bondedRatio := if BondingTarget c <=? bondedRatio then BondingTarget c else bondedRatio in
  let! ratio := quo (MaxVariance c) (BondingTarget c) in
  let sub := dec_mul bondedRatio ratio in
  let bondingIncentive := dec_one + MaxVariance c - sub in
  let periodProvision := dec_mul exponentialDecay bondingIncentive in
  let! epochProvision := quo periodProvision (to_dec epochsPerPeriod) in
  ret (dec_mul epochProvision (to_dec PowerReduction)).

(** * [keeper/inflation.go] *)

Definition on_bank (f : X -> X * option Z) : Act unit := run_ext ErrBank f.

Definition MintCoins (coin : string * Z) : Act unit := on_bank (fun x => MintCoins_bank x ModuleName coin).

Definition GetProportions (coin : string * Z) (distribution : Z) : string * Z :=
  (coin.1, dec_truncate (dec_mul (to_dec coin.2) distribution)).

Definition AllocateExponentialInflation (mintedCoin : string * Z) (params : Params) : Act unit :=
  let staking := GetProportions mintedCoin (StakingRewards (Distribution params)) in
  on_bank (fun x => SendCoinsFromModuleToModule x ModuleName feeCollectorName staking) ;;
  let moduleAddr := GetModuleAddress ModuleName in
  let! inflationBalance := gets (fun w => GetAllBalances (ext w) moduleAddr) in
  on_bank (fun x => FundCommunityPool x inflationBalance moduleAddr).

Definition MintAndAllocateInflation (coin : string * Z) (params : Params) : Act unit :=
  if coin.2 <=? 0 then ret tt else MintCoins coin ;; AllocateExponentialInflation coin params.

Definition BondedRatio : Act Z :=
  let! x := gets ext in
  let stakeSupply := StakingTokenSupply x in
  let isMainnet := IsMainnet (ChainID x) in
  if (stakeSupply <=? 0) || (isMainnet && (stakeSupply <=? teamAlloc)) then ret 0
  else ret (dec_quo_int (to_dec (TotalBondedTokens x)) (if isMainnet then stakeSupply - teamAlloc else stakeSupply)).

Definition GetEpochMintProvision : Act Z :=
  let! params := GetParams in
  let! period := GetPeriod in
  let! epochsPerPeriod := GetEpochsPerPeriod in
  let! bondedRatio := BondedRatio in
  let! p := CalculateEpochMintProvision params period epochsPerPeriod bondedRatio in
  quo p (to_dec ReductionFactor).

Definition GetCirculatingSupply (mintDenom : string) : Act Z :=
  let! x := gets ext in
  ret (if IsMainnet (ChainID x) then to_dec (GetSupply x mintDenom) - to_dec teamAlloc else to_dec (GetSupply x mintDenom)).

Definition GetInflationRate (mintDenom : string) : Act Z :=
  let! epp := GetEpochsPerPeriod in
  if epp =? 0 then ret 0
  else
    let! epochMintProvision := GetEpochMintProvision in
    if epochMintProvision =? 0 then ret 0
    else
      let! circulatingSupply := GetCirculatingSupply mintDenom in
      if circulatingSupply =? 0 then ret 0
      else
        let! q := quo (dec_mul epochMintProvision (to_dec epp)) circulatingSupply in
        ret (dec_mul q (to_dec 100)).

(** * [keeper/hooks.go] *)

(** An error of the bank becomes a panic. *)
Definition or_panic (c : Act unit) : Act unit := fun w => match c w with (w', Err _) => (w', Panic) | r => r end.

Definition AfterEpochEnd (epochIdentifier : string) (epochNumber : Z) : Act unit :=
  let! params := GetParams in
  let! skippedEpochs := GetSkippedEpochs in
  if negb (EnableInflation params) then
    if negb (bool_decide (epochIdentifier = DayEpochID)) then ret tt else SetSkippedEpochs (skippedEpochs + 1)
  else
    let! expEpochID := GetEpochIdentifier in
    if negb (bool_decide (epochIdentifier = expEpochID)) then ret tt
    else
      let! period := GetPeriod in
      let! epochsPerPeriod := GetEpochsPerPeriod in
      let! bondedRatio := BondedRatio in
      let! epochMintProvision := CalculateEpochMintProvision params period epochsPerPeriod bondedRatio in
      if epochMintProvision <=? 0 then ret tt
      else
        let! epochMintProvision := quo epochMintProvision (to_dec ReductionFactor) in
        let mintedCoin := (MintDenom params, dec_truncate epochMintProvision) in
        or_panic (MintAndAllocateInflation mintedCoin params) ;;
        (if epochsPerPeriod <? i64 (i64 (epochNumber - i64 (epochsPerPeriod * i64 period)) - i64 skippedEpochs) then SetPeriod (period + 1) else ret tt) ;;
        EmitEvent (EvMint epochNumber epochMintProvision mintedCoin.2).

(** * [genesis.go] and [types/genesis.go] *)

Record GenesisState := mkGenesis { gs_Params : Params; gs_Period : Z; gs_EpochIdentifier : string; gs_EpochsPerPeriod : Z; gs_SkippedEpochs : Z }.

Definition InitGenesis (module_account : bool) (data : GenesisState) : Act unit :=
  if negb module_account then panic
  else
    SetParams (gs_Params data) ;;
    SetPeriod (gs_Period data) ;;
    SetEpochIdentifier (gs_EpochIdentifier data) ;;
    SetEpochsPerPeriod (gs_EpochsPerPeriod data) ;;
    SetSkippedEpochs (gs_SkippedEpochs data).

Definition ExportGenesis : Act GenesisState :=
  let! p := GetParams in let! n := GetPeriod in let! id := GetEpochIdentifier in let! epp := GetEpochsPerPeriod in let! s := GetSkippedEpochs in
  ret (mkGenesis p n id epp s).

Definition validateExponentialCalculation (v : ExponentialCalculation) : bool :=
  (0 <=? calc_A v) && (calc_R v <=? dec_one) && (0 <=? calc_R v) && (0 <=? calc_C v) && (BondingTarget v <=? dec_one) && (0 <? BondingTarget v) && (0 <=? MaxVariance v).

Definition validateInflationDistribution (v : InflationDistribution) : bool :=
  (0 <=? StakingRewards v) && (UsageIncentives v =? 0) && (0 <=? CommunityPool v) && (StakingRewards v + UsageIncentives v + CommunityPool v =? dec_one).

Definition Params_Validate (ValidateDenom : string -> bool) (p : Params) : bool :=
  negb (blank (MintDenom p)) && ValidateDenom (MintDenom p) && validateExponentialCalculation (Calculation p) && validateInflationDistribution (Distribution p).

Definition GenesisState_Validate (ValidateDenom : string -> bool) (gs : GenesisState) : bool :=
  negb (blank (gs_EpochIdentifier gs)) && (0 <? gs_EpochsPerPeriod gs) && Params_Validate ValidateDenom (gs_Params gs).

(** The hooks as [x/epochs] calls them. *)
Definition inflation_hooks : EpochHooks W :=
  mkHooks (fun id n w => match AfterEpochEnd id n w with (w', Ok _) => Some w' | _ => None end) (fun _ _ w => Some w).

End Inflation.

Definition DefaultParams : Params :=
  mkParams DefaultEVMDenom (mkCalculation (300000000 * dec_one) (dec_one / 2) (9375000 * dec_one) (66 * dec_one / 100) 0)
    (mkDistribution (533333334 * 10 ^ 9) 0 (466666666 * 10 ^ 9)) true.
Definition DefaultGenesisState : GenesisState := mkGenesis DefaultParams 0 DayEpochID 365 0.

(** * What is assumed of the bank *)

(** The amount of a denomination in a list of coins. *)
Definition amount_of (coins : list (string * Z)) (d : string) : Z := sumZ (fun c => if decide (c.1 = d) then c.2 else 0) coins.

(** Minting adds to the module account and to the supply; a transfer moves a positive amount that is there, and
    refuses to move nothing; the community pool is the account of [x/distribution]. *)
Class InflationLaws (X : Type) `{BK : BankKeeper X, LD : LegacyDec, HI : !InflationHost X} (feeCollectorName : string) := {
  mint_adds : forall x d n x', 0 < n -> MintCoins_bank x ModuleName (d, n) = (x', None) ->
    (forall a d', GetBalance x' a d' = GetBalance x a d' + if decide (a = GetModuleAddress ModuleName /\ d' = d) then n else 0) /\
    forall d', GetSupply x' d' = GetSupply x d' + if decide (d' = d) then n else 0;
  module_send : forall x m m' d n x', SendCoinsFromModuleToModule x m m' (d, n) = (x', None) ->
    0 < n /\ sent x x' (GetModuleAddress m) (GetModuleAddress m') d n /\ forall d', GetSupply x' d' = GetSupply x d';
  module_send_panics : forall x m m' d n, n <= 0 -> exists e, SendCoinsFromModuleToModule x m m' (d, n) = (x, Some e);
  all_balances : forall x a d, amount_of (GetAllBalances x a) d = GetBalance x a d;
  pool_funded : forall x coins a x', FundCommunityPool x coins a = (x', None) ->
    (forall a' d, GetBalance x' a' d = GetBalance x a' d - (if decide (a' = a) then amount_of coins d else 0)
      + (if decide (a' = GetModuleAddress "distribution") then amount_of coins d else 0)) /\
    forall d, GetSupply x' d = GetSupply x d;
  inflation_not_pool : GetModuleAddress ModuleName <> GetModuleAddress "distribution";
  inflation_not_fees : GetModuleAddress ModuleName <> GetModuleAddress feeCollectorName;
  fees_not_pool : GetModuleAddress feeCollectorName <> GetModuleAddress "distribution"
}.

Section Props.
Context {X : Type} {BK : BankKeeper X} {LD : LegacyDec} {DL : DecLib} {HI : InflationHost X} (feeCollectorName : string).
Context {IL : InflationLaws X feeCollectorName}.

Abbreviation W := (world val event X).
Abbreviation Act := (M W error).

(** ** Reading *)

Definition params_of (w : W) : Params := match store w !! ParamsKey with Some (VParams p) => p | _ => no_params end.
Definition period_of (w : W) : Z := number (store w !! KeyPrefixPeriod).
Definition skipped_of (w : W) : Z := number (store w !! KeyPrefixSkippedEpochs).
Definition per_period (w : W) : Z := i64 (number (store w !! KeyPrefixEpochsPerPeriod)).
Definition identifier_of (w : W) : string := match store w !! KeyPrefixEpochIdentifier with Some (VText s) => s | _ => ""%string end.

(** The provision of an epoch that ends now. *)
Definition provision (w : W) : result error Z :=
  ((let! bondedRatio := BondedRatio in CalculateEpochMintProvision (params_of w) (period_of w) (per_period w) bondedRatio) w).2.

Lemma on_bank_returns f (w w' : W) u : on_bank f w = (w', Ok u) -> f (ext w) = (ext w', None) /\ store w' = store w /\ events w' = events w.
Proof. unfold on_bank, run_ext. destruct (f (ext w)) as [x' [c|]]; [by intros [=]|]. by intros [= <- <-]. Qed.

Lemma quo_returns a b (w w' : W) q : quo a b w = (w', Ok q) -> w' = w /\ b <> 0 /\ q = dec_quo a b.
Proof. unfold quo. destruct (Z.eqb_spec b 0); [by intros [=]|]. intros [= <- <-]. done. Qed.

Lemma BondedRatio_same (w w' : W) r : BondedRatio w = (w', r) -> w' = w.
Proof. unfold BondedRatio, bind, gets, ret. destruct (_ || _); by intros [= <- _]. Qed.

Lemma Calculate_same p n e b (w w' : W) r : CalculateEpochMintProvision p n e b w = (w', r) -> w' = w.
Proof.
  unfold CalculateEpochMintProvision, quo, bind, ret, panic. destruct (_ =? 0); [by intros [= <- _]|]. destruct (_ =? 0); by intros [= <- _].
Qed.

(** What one call of the hook has done. *)
Inductive ended (id : string) (n : Z) (w w' : W) : Prop :=
| ended_off : EnableInflation (params_of w) = false -> id <> DayEpochID -> w' = w -> ended id n w w'
| ended_other : EnableInflation (params_of w) = true -> id <> identifier_of w -> w' = w -> ended id n w w'
| ended_nothing p : EnableInflation (params_of w) = true -> provision w = Ok p -> p <= 0 -> w' = w -> ended id n w w'
| ended_skipped : EnableInflation (params_of w) = false -> id = DayEpochID ->
    w' = mkWorld (<[KeyPrefixSkippedEpochs := VNum (u64 (skipped_of w + 1))]> (store w)) (ext w) (events w) -> ended id n w w'
| ended_minted p w1 : EnableInflation (params_of w) = true -> id = identifier_of w -> provision w = Ok p -> 0 < p ->
    let m := dec_truncate (dec_quo p (to_dec ReductionFactor)) in
    MintAndAllocateInflation feeCollectorName (MintDenom (params_of w), m) (params_of w) w = (w1, Ok tt) ->
    w' = mkWorld
      (if per_period w <? i64 (i64 (n - i64 (per_period w * i64 (period_of w))) - i64 (skipped_of w))
       then <[KeyPrefixPeriod := VNum (u64 (period_of w + 1))]> (store w1) else store w1)
      (ext w1) (events w1 ++ [EvMint n (dec_quo p (to_dec ReductionFactor)) m]) -> ended id n w w'.

Lemma AfterEpochEnd_returns id n (w w' : W) u : AfterEpochEnd feeCollectorName id n w = (w', Ok u) -> ended id n w w'.
Proof.
  unfold AfterEpochEnd, GetParams, GetSkippedEpochs, read. intros H. run H. fold (params_of w) in H.
  destruct (EnableInflation (params_of w)) eqn:He; cbn [negb] in H.
  2: { case_bool_decide; cbn [negb] in H; [|run H; by apply ended_off]. injection H as <- _. by apply ended_skipped. }
  unfold GetEpochIdentifier, GetPeriod, GetEpochsPerPeriod, read in H. run H.
  change (match store w !! KeyPrefixEpochIdentifier with Some (VText s) => s | _ => ""%string end) with (identifier_of w) in H.
  case_bool_decide as Hid; cbn [negb] in H; [|run H; by apply ended_other]. run H.
  assert (Hp : provision w = Ok a0).
  { unfold provision, bind. change (BondedRatio w) with (BondedRatio w) in Hc. rewrite Hc. cbn.
    change (number (store w !! KeyPrefixPeriod)) with (period_of w) in Hc0. change (i64 (number (store w !! KeyPrefixEpochsPerPeriod))) with (per_period w) in Hc0.
    by rewrite Hc0. }
  apply BondedRatio_same in Hc as ->. apply Calculate_same in Hc0 as ->.
  destruct (Z.leb_spec a0 0); [run H; by eapply ended_nothing|]. run H. apply quo_returns in Hc as (-> & _ & ->).
  unfold or_panic in Hc0. destruct (MintAndAllocateInflation _ _ _ w) as [w1 [[]|e|]] eqn:Em; [|done..]. injection Hc0 as -> _.
  eapply ended_minted; [done..|exact Em|]. injection H as <- _.
  change (number (store w !! KeyPrefixPeriod)) with (period_of w) in Hc1. change (i64 (number (store w !! KeyPrefixEpochsPerPeriod))) with (per_period w) in Hc1.
  change (number (store w !! KeyPrefixSkippedEpochs)) with (skipped_of w) in Hc1. destruct (_ <? _); [injection Hc1 as <- _|run Hc1]; done.
Qed.

(** ** Where the coins go *)

Lemma share_of m d : 0 <= m -> 0 <= d -> dec_truncate (dec_mul (to_dec m) d) = m * d / dec_one.
Proof. intros Hm Hd. unfold to_dec. rewrite dec_mul_int. apply dec_truncate_nonneg. lia. Qed.

Lemma Mint_returns d m p (w w1 : W) : 0 < m -> 0 <= StakingRewards (Distribution p) ->
  MintAndAllocateInflation feeCollectorName (d, m) p w = (w1, Ok tt) ->
  let s := m * StakingRewards (Distribution p) / dec_one in
  0 < s /\ store w1 = store w /\ events w1 = events w /\
  (forall d', GetSupply (ext w1) d' = GetSupply (ext w) d' + if decide (d' = d) then m else 0) /\
  (forall d', GetBalance (ext w1) (GetModuleAddress ModuleName) d' = 0) /\
  (forall d', GetBalance (ext w1) (GetModuleAddress feeCollectorName) d' =
     GetBalance (ext w) (GetModuleAddress feeCollectorName) d' + if decide (d' = d) then s else 0) /\
  (forall d', GetBalance (ext w1) (GetModuleAddress "distribution") d' =
     GetBalance (ext w) (GetModuleAddress "distribution") d' + GetBalance (ext w) (GetModuleAddress ModuleName) d' + if decide (d' = d) then m - s else 0) /\
  forall a d', a <> GetModuleAddress ModuleName -> a <> GetModuleAddress feeCollectorName -> a <> GetModuleAddress "distribution" ->
    GetBalance (ext w1) a d' = GetBalance (ext w) a d'.
Proof.
  intros Hm Hs. unfold MintAndAllocateInflation, AllocateExponentialInflation, MintCoins, GetProportions. cbn [fst snd].
  rewrite (share_of m) by lia. destruct (Z.leb_spec m 0); [lia|]. intros H0. run H0.
  apply on_bank_returns in Hc as (Hmint & Hs1 & He1). apply on_bank_returns in Hc0 as (Hsend & Hs2 & He2). apply on_bank_returns in H0 as (Hfund & Hs3 & He3).
  apply mint_adds in Hmint as [Hb1 Hsup1]; [|done]. apply module_send in Hsend as (Hpos & [_ Hb2] & Hsup2). apply pool_funded in Hfund as [Hb3 Hsup3].
  pose proof inflation_not_pool. pose proof inflation_not_fees. pose proof fees_not_pool.
  split; [done|]. split; [congruence|]. split; [congruence|]. split; [intros d'; by rewrite Hsup3, Hsup2, Hsup1|].
  assert (Hb : forall a d', GetBalance (ext w1) a d' = GetBalance (ext s0) a d'
    - (if decide (a = GetModuleAddress ModuleName) then GetBalance (ext s0) (GetModuleAddress ModuleName) d' else 0)
    + (if decide (a = GetModuleAddress "distribution") then GetBalance (ext s0) (GetModuleAddress ModuleName) d' else 0)).
  { intros b d'. rewrite Hb3, all_balances. done. }
  split_and!; intros; rewrite Hb, !Hb2, !Hb1; repeat case_decide; naive_solver lia.
Qed.

(** C16: an epoch that ends with inflation enabled and a positive provision mints the provision divided by the
    reduction factor (the decimal quotient, truncated); the share of the stakers goes to the fee collector and everything else the module holds to the community
    pool, so that nothing is left in the module account and the supply grew by what was minted. *)
Theorem epoch_mint_is_distributed id n (w w' : W) u p :
  AfterEpochEnd feeCollectorName id n w = (w', Ok u) -> EnableInflation (params_of w) = true -> id = identifier_of w ->
  provision w = Ok p -> 0 < p -> 0 <= StakingRewards (Distribution (params_of w)) ->
  let m := dec_truncate (dec_quo p (to_dec ReductionFactor)) in 0 < m ->
  let s := m * StakingRewards (Distribution (params_of w)) / dec_one in
  let d := MintDenom (params_of w) in
  events w' = events w ++ [EvMint n (dec_quo p (to_dec ReductionFactor)) m] /\
  (forall d', GetSupply (ext w') d' = GetSupply (ext w) d' + if decide (d' = d) then m else 0) /\
  (forall d', GetBalance (ext w') (GetModuleAddress ModuleName) d' = 0) /\
  (forall d', GetBalance (ext w') (GetModuleAddress feeCollectorName) d' =
     GetBalance (ext w) (GetModuleAddress feeCollectorName) d' + if decide (d' = d) then s else 0) /\
  (forall d', GetBalance (ext w') (GetModuleAddress "distribution") d' =
     GetBalance (ext w) (GetModuleAddress "distribution") d' + GetBalance (ext w) (GetModuleAddress ModuleName) d' + if decide (d' = d) then m - s else 0) /\
  forall a d', a <> GetModuleAddress ModuleName -> a <> GetModuleAddress feeCollectorName -> a <> GetModuleAddress "distribution" ->
    GetBalance (ext w') a d' = GetBalance (ext w) a d'.
Proof.
  intros H Hen Hid Hp Hpos Hs m Hm s d.
  apply AfterEpochEnd_returns in H as [| |q ? Hq| |q w1 _ _ Hq Hqp m' Hrun ->]; try congruence; [rewrite Hp in Hq; injection Hq as <-; lia|].
  rewrite Hp in Hq. injection Hq as <-. destruct (Mint_returns _ _ _ _ _ Hm Hs Hrun) as (_ & _ & He & Hrest). cbn [events ext].
  split; [by rewrite He|exact Hrest].
Qed.

(** ** A share of nothing *)

Definition no_error {A} (c : Act A) : Prop := forall w e, (c w).2 <> Err e.

Lemma no_error_bind {A B} (c : Act A) (k : A -> Act B) : no_error c -> (forall a, no_error (k a)) -> no_error (bind c k).
Proof. intros Hc Hk w e. unfold bind. specialize (Hc w). destruct (c w) as [w' [a|e'|]]; cbn in *; [apply Hk|by destruct (Hc e')|done]. Qed.

Lemma AfterEpochEnd_no_error id n : no_error (AfterEpochEnd feeCollectorName id n).
Proof.
  assert (Hq : forall a b, no_error (quo a b)) by (intros a b w e; unfold quo; by destruct (_ =? _)).
  assert (Hif : forall (b : bool) (c1 c2 : Act unit), no_error c1 -> no_error c2 -> no_error (if b then c1 else c2)) by (by intros []).
  assert (Hp : forall c, no_error (or_panic c)) by (intros c w e; unfold or_panic; by destruct (c w) as [? []]).
  assert (Hbr : no_error BondedRatio) by (intros w e; unfold BondedRatio, bind, gets, ret; by destruct (_ || _)).
  unfold AfterEpochEnd, GetParams, GetSkippedEpochs, GetEpochIdentifier, GetPeriod, GetEpochsPerPeriod, read, CalculateEpochMintProvision.
  repeat first [apply Hif|apply Hq|apply Hp|apply Hbr|apply no_error_bind; [|intros ?]]; done.
Qed.

(** C37: when the staking share of what is minted rounds to zero, or the staking share is zero, which the parameters
    may say, the end of the epoch panics: the bank refuses to send nothing, and the hook turns its error into a panic
    in the first step of the block. *)
Theorem zero_share_halts id n (w : W) p :
  EnableInflation (params_of w) = true -> id = identifier_of w -> provision w = Ok p -> 0 < p ->
  0 <= StakingRewards (Distribution (params_of w)) ->
  let m := dec_truncate (dec_quo p (to_dec ReductionFactor)) in 0 < m ->
  m * StakingRewards (Distribution (params_of w)) / dec_one = 0 ->
  (AfterEpochEnd feeCollectorName id n w).2 = Panic.
Proof.
  intros Hen Hid Hp Hpos Hs m Hm H0. pose proof (AfterEpochEnd_no_error id n w) as Hne.
  destruct (AfterEpochEnd _ _ _ w) as [w' [u|e|]] eqn:E; cbn in *; [|by destruct (Hne e)|done]. exfalso.
  apply AfterEpochEnd_returns in E as [| |q ? Hq| |q w1 _ _ Hq Hqp m' Hrun ->]; try congruence; [rewrite Hp in Hq; injection Hq as <-; lia|].
  rewrite Hp in Hq. injection Hq as <-. destruct (Mint_returns _ _ _ _ _ Hm Hs Hrun) as (Hs0 & _). unfold m', m in *. lia.
Qed.

(** ** Under the epochs *)

Abbreviation EW := (world EpochInfo Epochs.event W).

(** The epochs that minted. *)
Definition minted (w : W) : Z := Z.of_nat (length (events w)).

(** A change that leaves the counters of the module alone, as an update of the parameters does. *)
Definition keeps_counters (f : W -> W) : Prop := forall w,
  period_of (f w) = period_of w /\ skipped_of (f w) = skipped_of w /\ per_period (f w) = per_period w /\
  identifier_of (f w) = identifier_of w /\ minted (f w) = minted w.

(** Writing one entry leaves what is read from the others. *)
Lemma read_insert k v (w : W) x ev : let w' := mkWorld (<[k := v]> (store w)) x ev in
  (k <> KeyPrefixPeriod -> period_of w' = period_of w) /\ (k <> KeyPrefixSkippedEpochs -> skipped_of w' = skipped_of w) /\
  (k <> KeyPrefixEpochsPerPeriod -> per_period w' = per_period w) /\ (k <> KeyPrefixEpochIdentifier -> identifier_of w' = identifier_of w).
Proof.
  unfold period_of, skipped_of, per_period, identifier_of. cbn [store]. split_and!; intros; by rewrite lookup_insert_ne.
Qed.

Lemma UpdateParams_keeps a r p : keeps_counters (fun w => (UpdateParams a r p w).1).
Proof.
  intros w. unfold UpdateParams, guard. case_bool_decide; [|done].
  destruct (read_insert ParamsKey (VParams p) w (ext w) (events w)) as (H1 & H2 & H3 & H4).
  split; [by apply H1|]. split; [by apply H2|]. split; [by apply H3|]. split; [by apply H4|done].
Qed.

Lemma Mint_keeps c p (w w1 : W) : MintAndAllocateInflation feeCollectorName c p w = (w1, Ok tt) -> store w1 = store w /\ events w1 = events w.
Proof.
  unfold MintAndAllocateInflation, AllocateExponentialInflation, MintCoins. destruct (_ <=? _); intros H; run H; [done|].
  apply on_bank_returns in Hc as (_ & H1 & H2). apply on_bank_returns in Hc0 as (_ & H3 & H4). apply on_bank_returns in H as (_ & H5 & H6). split; congruence.
Qed.

(** The state after [k] days have ended since genesis. *)
Record counted (E k : Z) (w : W) : Prop := {
  by_day : identifier_of w = DayEpochID;
  same_length : per_period w = E;
  skipped_nonneg : 0 <= skipped_of w;
  at_most : minted w + skipped_of w <= k;
  in_period : minted w + skipped_of w = k -> period_of w = minted w / E
}.

Lemma counted_day E k w w' : 0 < E < 2 ^ 63 -> 0 <= k < 2 ^ 62 -> counted E k w -> ended DayEpochID (k + 2) w w' -> counted E (k + 1) w'.
Proof.
  intros HE Hk [Hd Hl Hs Hm Hp] H. assert (0 <= minted w) by (unfold minted; lia).
  destruct H as [| |p _ _ _ ->|_ _ ->|p w1 _ _ _ _ m Hrun ->]; [done|congruence| | |].
  - constructor; try done; lia.
  - assert (Hsk : skipped_of (mkWorld (<[KeyPrefixSkippedEpochs := VNum (u64 (skipped_of w + 1))]> (store w)) (ext w) (events w)) = skipped_of w + 1).
    { unfold skipped_of at 1. cbn [store]. rewrite lookup_insert_eq. cbn. apply wrapU_small. lia. }
    destruct (read_insert KeyPrefixSkippedEpochs (VNum (u64 (skipped_of w + 1))) w (ext w) (events w)) as (H1 & _ & H3 & H4).
    constructor; rewrite ?Hsk; change (minted (mkWorld _ _ (events w))) with (minted w); [rewrite H4; done|rewrite H3; done|lia|lia|].
    intros Heq. rewrite H1 by done. apply Hp. lia.
  - apply Mint_keeps in Hrun as [Hst Hev]. rewrite Hst, Hev. set (c := _ <? _).
    assert (Hmint : forall st, minted (mkWorld st (ext w1) (events w ++ [EvMint (k + 2) (dec_quo p (to_dec ReductionFactor)) m])) = minted w + 1).
    { intros st. unfold minted. cbn [events]. rewrite length_app. cbn. lia. }
    assert (Hsk : forall ev, skipped_of (mkWorld (if c then <[KeyPrefixPeriod := VNum (u64 (period_of w + 1))]> (store w) else store w) (ext w1) ev) = skipped_of w).
    { intros ev. destruct c; [|done]. by apply read_insert. }
    constructor; rewrite ?Hmint, ?Hsk; [destruct c; [|done]; etrans; [by apply read_insert|done]..|done|lia|]. intros Heq. specialize (Hp ltac:(lia)).
    pose proof (Z.div_mod (minted w) E ltac:(lia)) as Hdm. pose proof (Z.mod_pos_bound (minted w) E ltac:(lia)) as Hmb. rewrite <- Hp in Hdm.
    assert (Hper : 0 <= period_of w <= minted w) by (rewrite Hp; split; [apply Z.div_pos; lia|apply Z.div_le_upper_bound; nia]).
    assert (Hc : c = (E * (period_of w + 1) <=? minted w + 1)).
    { unfold c. rewrite Hl. rewrite (wrapS_small 64 (period_of w)) by lia. rewrite (wrapS_small 64 (E * period_of w)) by nia.
      rewrite (wrapS_small 64 (k + 2 - _)) by nia. rewrite (wrapS_small 64 (skipped_of w)) by lia. rewrite wrapS_small by nia.
      apply eq_true_iff_eq. rewrite Z.ltb_lt, Z.leb_le. nia. }
    rewrite Hc. unfold period_of at 1. destruct (Z.leb_spec (E * (period_of w + 1)) (minted w + 1)) as [Hle|Hle]; cbn [store].
    + rewrite lookup_insert_eq. cbn [number]. rewrite wrapU_small by lia. apply Z.div_unique with (r := minted w + 1 - E * (period_of w + 1)); nia.
    + change (number (store w !! KeyPrefixPeriod)) with (period_of w). apply Z.div_unique with (r := minted w + 1 - E * period_of w); nia.
Qed.

(** The end of another epoch changes nothing. *)
Lemma counted_other E k id n w w' : counted E k w -> id <> DayEpochID -> ended id n w w' -> counted E k w'.
Proof.
  intros C Hid H. destruct H as [_ _ ->|_ _ ->|p _ _ _ ->|_ Hd _|p w1 _ Hd]; [done..|done|]. by rewrite (by_day _ _ _ C) in Hd.
Qed.

Definition afters (id : string) (cs : list hook_call) : list Z :=
  omap (fun c => match c with After id' n => if decide (id' = id) then Some n else None | Before _ _ => None end) cs.
Definition hook_calls (L : list (effect W)) : list hook_call := omap (fun e => match e with Call c => Some c | Change _ => None end) L.

Lemma seqZ_one a : seqZ a 1 = [a].
Proof. rewrite seqZ_cons by lia. by rewrite seqZ_nil. Qed.

Lemma seqZ_snoc l m k : l ++ [m] = seqZ 2 k -> 0 < k /\ l = seqZ 2 (k - 1) /\ m = k + 1.
Proof.
  intros H. destruct (Z.le_gt_cases k 0) as [Hk|Hk]; [rewrite seqZ_nil in H by lia; by destruct l|].
  replace k with (k - 1 + 1) in H by lia. rewrite seqZ_app in H by lia. rewrite seqZ_one in H.
  apply app_inj_2 in H as [-> [= ->]]; [|done]. split_and!; [lia|done|lia].
Qed.

Lemma effects_counted E L k (w w' : W) : 0 < E < 2 ^ 63 -> k < 2 ^ 62 ->
  apply_effects [inflation_hooks feeCollectorName] L w = Some w' -> Forall keeps_counters (changes L) ->
  afters DayEpochID (hook_calls L) = seqZ 2 k -> 0 <= k -> counted E 0 w -> counted E k w'.
Proof.
  intros HE. revert k w'. induction L as [|e L IH] using rev_ind; intros k w' Hk Hx Hch Ha Hk0 C.
  { injection Hx as <-. destruct (Z.eq_dec k 0) as [->|]; [done|]. by rewrite seqZ_cons in Ha by lia. }
  rewrite apply_effects_app in Hx. destruct (apply_effects _ L w) as [w1|] eqn:E1; [|done]. cbn [mbind option_bind] in Hx.
  unfold changes in *. rewrite omap_app in Hch. apply Forall_app in Hch as [Hch He]. unfold hook_calls, afters in *. rewrite !omap_app in Ha.
  destruct e as [[id n|id n]|f]; cbn [omap list_omap] in Ha.
  - change (match AfterEpochEnd feeCollectorName id n w1 with (w', Ok _) => Some w' | _ => None end = Some w') in Hx.
    destruct (AfterEpochEnd feeCollectorName id n w1) as [w2 [u| |]] eqn:Ea; [|done..]. injection Hx as ->. apply AfterEpochEnd_returns in Ea.
    destruct (decide (id = DayEpochID)) as [->|Hid].
    + apply seqZ_snoc in Ha as (Hpos & Ha & ->). pose proof (IH (k - 1) w1 ltac:(lia) eq_refl Hch Ha ltac:(lia) C) as C1.
      replace k with (k - 1 + 1) by lia. apply (counted_day E (k - 1) w1); [done|lia|done|]. by replace (k - 1 + 2) with (k + 1) by lia.
    + rewrite app_nil_r in Ha. eapply counted_other; [|exact Hid|exact Ea]. by eapply IH.
  - change (Some w1 = Some w') in Hx. injection Hx as <-. rewrite app_nil_r in Ha. by eapply IH.
  - change (Some (f w1) = Some w') in Hx. injection Hx as <-. rewrite app_nil_r in Ha. change (Forall keeps_counters [f]) in He. rewrite Forall_singleton in He. pose proof (IH k w1 Hk eq_refl Hch Ha Hk0 C) as [H1 H2 H3 H4 H5].
    destruct (He w1) as (F1 & F2 & F3 & F4 & F5). constructor; rewrite ?F1, ?F2, ?F3, ?F4, ?F5; done.
Qed.

Lemma afters_upto id n : afters id (calls_upto id n) = seqZ 2 (n - 1).
Proof.
  destruct (Z.le_gt_cases n 0) as [Hn|Hn]; [unfold calls_upto; by rewrite !seqZ_nil by lia|].
  assert (H : forall j, (0 <= j)%nat -> afters id (calls_upto id (Z.of_nat j + 1)) = seqZ 2 (Z.of_nat j)).
  { induction j as [|j IHj]; intros _; [done|].
    assert (Hs : calls_upto id (Z.of_nat (S j) + 1) = calls_upto id (Z.of_nat j + 1) ++ [After id (Z.of_nat j + 2); Before id (Z.of_nat j + 2)]).
    { unfold calls_upto. replace (Z.of_nat (S j) + 1) with (Z.of_nat j + 1 + 1) by lia. rewrite seqZ_app by lia.
      rewrite fmap_app, join_app. f_equal. rewrite seqZ_one. cbn [fmap list_fmap mjoin list_join].
      destruct (Z.eqb_spec (1 + (Z.of_nat j + 1)) 1); [lia|]. rewrite app_nil_r. by replace (1 + (Z.of_nat j + 1)) with (Z.of_nat j + 2) by lia. }
    rewrite Hs. unfold afters in *. rewrite omap_app, IHj by lia. cbn. rewrite decide_True by done.
    replace (Z.of_nat (S j)) with (Z.of_nat j + 1) by lia. rewrite seqZ_app by lia. f_equal. rewrite seqZ_one. f_equal. lia. }
  specialize (H (Z.to_nat (n - 1)) ltac:(lia)). rewrite Z2Nat.id in H by lia. by replace (n - 1 + 1) with n in H by lia.
Qed.

Lemma afters_filter id L : afters id (filter (fun c => call_id c = id) L) = afters id L.
Proof.
  unfold afters. induction L as [|c L IH]; [done|]. rewrite filter_cons. destruct c as [id' n|id' n]; cbn [call_id]; destruct (decide (id' = id)) as [E|E]; cbn; rewrite ?IH;
    rewrite ?decide_True, ?decide_False by done; rewrite ?IH; done.
Qed.

Lemma genesis_counted V gs x (w : W) u : GenesisState_Validate V gs = true -> InitGenesis true gs (mkWorld ∅ x []) = (w, Ok u) ->
  gs_Period gs = 0 -> gs_SkippedEpochs gs = 0 -> gs_EpochIdentifier gs = DayEpochID -> gs_EpochsPerPeriod gs < 2 ^ 63 ->
  counted (gs_EpochsPerPeriod gs) 0 w /\ 0 < gs_EpochsPerPeriod gs.
Proof.
  unfold GenesisState_Validate. intros HV H Hp Hs Hid Hb. reflect_bools. split; [|done]. injection H as <- _.
  constructor; unfold identifier_of, per_period, skipped_of, period_of, minted; cbn [store events length Z.of_nat].
  - rewrite !lookup_insert_ne, lookup_insert_eq by done. done.
  - rewrite lookup_insert_ne, lookup_insert_eq by done. cbn [number]. rewrite (wrapU_small 64) by lia. apply wrapS_small; lia.
  - rewrite lookup_insert_eq. cbn [number]. by rewrite Hs.
  - rewrite lookup_insert_eq. cbn [number]. by rewrite Hs.
  - rewrite !(lookup_insert_ne _ _ KeyPrefixPeriod), lookup_insert_eq by done. cbn [number]. rewrite Hp. done.
Qed.

(** C12: the two modules together, from genesis, through blocks, updates of the parameters and anything else that
    leaves the counters alone: no more days have minted or been skipped than have ended, and as long as none was lost
    to a provision that was not positive, the period is the number of days that minted divided by the days of a
    period: skipped days do not count, and a period ends exactly with its last day. *)
Theorem period_counts_mints t0 h0 epochs V gs x (iw : W) u (w0 w' : EW) u1 ss u2 e0 :
  Epochs.GenesisState_Validate epochs = true -> Forall fresh epochs -> e0 ∈ epochs -> Identifier e0 = DayEpochID ->
  GenesisState_Validate V gs = true -> gs_Period gs = 0 -> gs_SkippedEpochs gs = 0 -> gs_EpochIdentifier gs = DayEpochID ->
  gs_EpochsPerPeriod gs < 2 ^ 63 -> InitGenesis true gs (mkWorld ∅ x []) = (iw, Ok u) ->
  Epochs.InitGenesis t0 h0 epochs (mkWorld ∅ iw []) = (w0, Ok u1) -> times_grow t0 ss -> Z.of_nat (length ss) < 2 ^ 62 ->
  Forall keeps_counters (other_steps ss) ->
  for_all (exec [inflation_hooks feeCollectorName]) ss w0 = (w', Ok u2) ->
  exists e, store w' !! epoch_key DayEpochID = Some e /\
    let days := Z.max 0 (CurrentEpoch e - 1) in
    minted (ext w') + skipped_of (ext w') <= days /\
    (minted (ext w') + skipped_of (ext w') = days -> period_of (ext w') = minted (ext w') / gs_EpochsPerPeriod gs).
Proof.
  intros HV Hf He0 Hid HVi Hp Hs Hday Hb Hi Hg Ht Hlen Hch Hrun.
  destruct (run_from_genesis _ _ _ _ _ _ _ _ _ _ HV Hf Hg Ht ltac:(lia) Hrun) as (L & HL & HcL & Hall).
  destruct (genesis_counted V gs x iw u HVi Hi Hp Hs Hday Hb) as [C HE].
  rewrite Forall_forall in Hf. destruct (started_fresh t0 h0 e0 (Hf e0 He0)) as (Hid1 & Hd1 & Hc1 & Hst1 & Ho1 & H01).
  destruct (Hall e0 He0) as (e & He & _ & _ & _ & Ho & Hn & Hcs). rewrite Hid in He. rewrite Hc1, Hid1, Hid in Hcs. exists e. split; [done|].
  cbv zeta. assert (Hafter : afters DayEpochID (hook_calls L) = seqZ 2 (Z.max 0 (CurrentEpoch e - 1))).
  { rewrite <- afters_filter. change (filter (fun c => call_id c = DayEpochID) (hook_calls L)) with (calls_for DayEpochID L).
    change (calls_upto DayEpochID 0 ++ calls_for DayEpochID L) with (calls_for DayEpochID L) in Hcs. rewrite <- Hcs, afters_upto.
    destruct (Z.le_gt_cases (CurrentEpoch e) 1); [by rewrite !seqZ_nil by lia|]. by rewrite Z.max_r by lia. }
  assert (Hbound : CurrentEpoch e <= Z.of_nat (length ss)).
  { rewrite Hn, Hc1. pose proof (follow_length (started_at t0 h0 e0) 0 ss). lia. }
  destruct (effects_counted (gs_EpochsPerPeriod gs) L (Z.max 0 (CurrentEpoch e - 1)) iw (ext w') ltac:(lia) ltac:(lia) HL ltac:(by rewrite HcL) Hafter ltac:(lia) C) as [_ _ _ Hm Hper].
  done.
Qed.

End Props.

(** * A chain *)

Module RefInflation.
Import RefDec.

(** Coins by account and denomination, and the supply. *)
Record chain := mkChain { accounts : gmap bytes (gmap string Z); supplies : gmap string Z }.

Definition balance (x : chain) (a : bytes) (d : string) : Z := default 0 (default ∅ (accounts x !! a) !! d).
Definition add (a : bytes) (d : string) (n : Z) (x : chain) : chain :=
  mkChain (<[a := <[d := balance x a d + n]> (default ∅ (accounts x !! a))]> (accounts x)) (supplies x).
Definition move (src dst : bytes) (c : string * Z) (x : chain) : chain := add dst c.1 c.2 (add src c.1 (- c.2) x).
Definition send (x : chain) (src dst : bytes) (c : string * Z) : chain * option Z :=
  if (0 <? c.2) && (c.2 <=? balance x src c.1) then (move src dst c x, None) else (x, Some 5).
Definition supply (x : chain) (d : string) : Z := default 0 (supplies x !! d).

#[global] Instance keeper : BankKeeper chain := {|
  GetModuleAddress := RefBank.module_address;
  GetBalance := balance;
  BlockedAddr _ := false;
  SendCoinsFromAccountToModule x a m c := send x a (RefBank.module_address m) c;
  SendCoinsFromModuleToAccount x m a c := send x (RefBank.module_address m) a c
|}.

#[global] Instance host : InflationHost chain := {|
  MintCoins_bank x m c :=
    let x := add (RefBank.module_address m) c.1 c.2 x in
    (mkChain (accounts x) (<[c.1 := supply x c.1 + c.2]> (supplies x)), None);
  SendCoinsFromModuleToModule x m m' c := send x (RefBank.module_address m) (RefBank.module_address m') c;
  GetAllBalances x a := map_to_list (default ∅ (accounts x !! a));
  FundCommunityPool x coins a := (foldr (move a (RefBank.module_address "distribution")) x coins, None);
  GetSupply := supply;
  StakingTokenSupply x := supply x "ahpx";
  TotalBondedTokens x := 50;
  ChainID _ := "hyperpax_9000-1"%string
|}.

(** Quotients rounded to the nearest. *)
#[global] Instance dec_lib : DecLib := {|
  dec_quo a b := (2 * a * dec_one + b) / (2 * b);
  dec_power d n := Nat.iter (Z.to_nat n) (fun p => dec_mul p d) dec_one;
  dec_quo_int a n := Z.quot a n
|}.

Lemma balance_add a d n x a' d' : balance (add a d n x) a' d' = balance x a' d' + if decide (a' = a /\ d' = d) then n else 0.
Proof.
  unfold balance, add. cbn [accounts]. destruct (decide (a' = a)) as [->|Ha].
  - rewrite lookup_insert_eq. cbn. destruct (decide (d' = d)) as [->|Hd].
    + rewrite lookup_insert_eq, decide_True by done. done.
    + rewrite lookup_insert_ne, decide_False by naive_solver. lia.
  - rewrite lookup_insert_ne, decide_False by naive_solver. lia.
Qed.

Lemma pool_balance_move src dst c x a d : balance (move src dst c x) a d =
  balance x a d - (if decide (a = src /\ d = c.1) then c.2 else 0) + (if decide (a = dst /\ d = c.1) then c.2 else 0).
Proof. unfold move. rewrite !balance_add. repeat case_decide; lia. Qed.

Lemma amount_of_map (m : gmap string Z) d : amount_of (map_to_list m) d = default 0 (m !! d).
Proof.
  induction m as [|d' n m Hm IH] using map_ind; [done|]. unfold amount_of in *.
  rewrite (sumZ_Permutation _ _ _ (map_to_list_insert m d' n Hm)), sumZ_cons, IH. cbn [fst snd].
  destruct (decide (d' = d)) as [->|Hd]; [rewrite lookup_insert_eq, Hm; cbn; lia|by rewrite lookup_insert_ne].
Qed.

Lemma pool_moves coins src dst x : let x' := foldr (move src dst) x coins in
  (forall a d, balance x' a d = balance x a d - (if decide (a = src) then amount_of coins d else 0) + (if decide (a = dst) then amount_of coins d else 0)) /\
  supplies x' = supplies x.
Proof.
  induction coins as [|c coins [IH1 IH2]]; cbn [foldr]; [split; [intros; repeat case_decide; cbn; lia|done]|]. split; [|done].
  intros a d. rewrite pool_balance_move, IH1. unfold amount_of. rewrite sumZ_cons. repeat case_decide; subst; naive_solver lia.
Qed.

Lemma module_send_ok x m m' d n x' : send x m m' (d, n) = (x', None) -> 0 < n /\ sent x x' m m' d n /\ supplies x' = supplies x.
Proof.
  unfold send. cbn [fst snd]. destruct (_ && _) eqn:E; [|done]. reflect_bools. intros [= <-]. split; [done|]. split; [|done].
  split; [done|]. intros a d'. apply pool_balance_move.
Qed.

#[global] Instance laws : InflationLaws chain "fee_collector".
Proof.
  constructor.
  - intros x d n x' _ [= <-]. split; [intros; apply balance_add|]. intros d'. cbn. unfold supply. cbn [supplies].
    case_decide as E; [subst; by rewrite lookup_insert_eq|rewrite lookup_insert_ne by done; lia].
  - intros x m m' d n x' H. apply module_send_ok in H as (Hn & Hs & Hp). split; [done|]. split; [done|]. intros d'. cbn. unfold supply. by rewrite Hp.
  - intros x m m' d n Hn. exists 5. cbn. unfold send. cbn [fst snd]. by destruct (Z.ltb_spec 0 n); [lia|].
  - intros x a d. cbn. apply amount_of_map.
  - intros x coins a x' [= <-]. destruct (pool_moves coins a (RefBank.module_address "distribution") x) as [H1 H2]. split; [exact H1|].
    intros d. cbn. unfold supply. by rewrite H2.
  - by vm_compute.
  - by vm_compute.
  - by vm_compute.
Qed.

Abbreviation W := (world val event chain).

Definition x0 : chain := mkChain {[RefBank.module_address ModuleName := {["dust"%string := 7]}]} {["ahpx"%string := 100]}.
Definition genesis (p : Params) : GenesisState := mkGenesis p 0 DayEpochID 2 0.
Definition w0 (p : Params) : W := (InitGenesis true (genesis p) (mkWorld ∅ x0 [])).1.
Definition after (p : Params) : W * result error unit := AfterEpochEnd "fee_collector" DayEpochID 2 (w0 p).

Definition all_to_pool : Params := mkParams (MintDenom DefaultParams) (Calculation DefaultParams) (mkDistribution 0 0 dec_one) true.

Lemma default_params : params_of (w0 DefaultParams) = DefaultParams /\ params_of (w0 all_to_pool) = all_to_pool.
Proof. by vm_compute. Qed.

Definition provision0 : Z := match provision (w0 DefaultParams) with Ok p => p | _ => 0 end.

(** The coins minted and the seven of another denomination the module account held before all leave it. *)
Lemma epoch_mint_is_distributed_witness :
  GetBalance (ext (after DefaultParams).1) (GetModuleAddress ModuleName) (MintDenom DefaultParams) = 0 /\
  GetBalance (ext (after DefaultParams).1) (GetModuleAddress ModuleName) "dust" = 0 /\
  GetBalance (ext (after DefaultParams).1) (GetModuleAddress "distribution") "dust" = 7.
Proof.
  assert (H : after DefaultParams = ((after DefaultParams).1, Ok tt)) by (apply (pair_eta (after DefaultParams)); by vm_compute).
  destruct (epoch_mint_is_distributed "fee_collector" DayEpochID 2 (w0 DefaultParams) (after DefaultParams).1 tt provision0 H) as (_ & _ & Hm & _ & Hd & _);
    [by vm_compute..|].
  split_and!; [apply Hm|apply Hm|]. rewrite (Hd "dust"%string). by vm_compute.
Defined.

Lemma zero_share_halts_witness : (AfterEpochEnd "fee_collector" DayEpochID 2 (w0 all_to_pool)).2 = Panic.
Proof.
  apply (zero_share_halts "fee_collector" DayEpochID 2 (w0 all_to_pool) provision0); by vm_compute.
Defined.

(** The parameters that do so are valid. *)
Example all_to_pool_valid : Params_Validate (fun _ => true) all_to_pool = true.
Proof. by vm_compute. Qed.

(** Six days with a period of two; on one of them inflation is off. *)
Definition off : Params := mkParams (MintDenom DefaultParams) (Calculation DefaultParams) (Distribution DefaultParams) false.
Definition set_params (p : Params) (w : W) : W := (UpdateParams "gov" "gov" p w).1.
Definition at_day (n : Z) : step W := Block (1000 + n * RefEpochs.day + 1) n.
Definition days : list (step W) :=
  [at_day 0; at_day 1; at_day 2; Other (set_params off); at_day 3; Other (set_params DefaultParams); at_day 4; at_day 5].
Definition start : world EpochInfo Epochs.event W := (Epochs.InitGenesis 1000 1 Epochs.DefaultGenesisState (mkWorld ∅ (w0 DefaultParams) [])).1.
Definition final : world EpochInfo Epochs.event W := (for_all (exec [inflation_hooks "fee_collector"]) days start).1.

Example days_counted : (minted (ext final), skipped_of (ext final), period_of (ext final)) = (4, 1, 2).
Proof. by vm_compute. Qed.

Lemma period_counts_mints_witness : exists e, store final !! epoch_key DayEpochID = Some e /\
  let d := Z.max 0 (CurrentEpoch e - 1) in
  minted (ext final) + skipped_of (ext final) <= d /\ (minted (ext final) + skipped_of (ext final) = d -> period_of (ext final) = minted (ext final) / 2).
Proof.
  assert (H : for_all (exec [inflation_hooks "fee_collector"]) days start = (final, Ok tt)).
  { unfold final. apply (pair_eta (for_all (exec [inflation_hooks "fee_collector"]) days start)). by vm_compute. }
  apply (period_counts_mints "fee_collector" 1000 1 Epochs.DefaultGenesisState (fun _ => true) (genesis DefaultParams) x0 (w0 DefaultParams) tt start final tt days tt
    (mkEpoch DayEpochID zero_time (hour * 24) 0 zero_time false 0));
    [reflexivity|repeat constructor|right; left|reflexivity|reflexivity|reflexivity|reflexivity|reflexivity|reflexivity|reflexivity|reflexivity|unfold days, at_day, RefEpochs.day, hour; cbn [times_grow]; lia|reflexivity| |exact H].
  repeat (apply Forall_cons; split; [apply UpdateParams_keeps|]). by apply Forall_nil.
Defined.

End RefInflation.
